(* ===== verification/_CoqProject ===== *)
-Q . S2P
Prelude.v
StorageApi.v
Storage.v
StorageSpec.v
LainfsLayout.v
LainfsDir.v
LainfsAlloc.v
LainfsState.v
LainfsCache.v
LainfsOps.v
LainfsSpec.v
LainfsRefine.v
LainfsFiles.v
LainfsAdmin.v
LainfsFormat.v
LainfsQuery.v
LainfsDemo.v
LainfsTheorems.v
HostCheck.v
HostRead.v
HostSeed.v
Registry.v
Dma.v
Kmem.v
KmemSpec.v
KmemBoot.v
KernelTheorems.v
Memory.v
Heap.v
HeapSpec.v
HeapAlloc.v
HeapClients.v
HeapTest.v
HeapTheorems.v
Topology.v
Tasks.v
TasksSpec.v
TasksTheorems.v
LibcString.v
LibcNumber.v
LibcFormat.v
LibcTime.v
LibcAlloc.v
LibcTheorems.v
Buffer.v
Keyboard.v
NetWire.v
NetState.v
NetHttp.v
NetDns.v
NetRecv.v
NetGet.v
NetSafe.v
NetInvariant.v
NetSession.v
NetDhcp.v
NetFrames.v
NetBody.v
NetDemo.v
NetGetSafe.v
NetTheorems.v
ZLex.v
ZLexSpec.v
KernelExports.v
ZObject.v
ZObjectSpec.v
ZLink.v
ZLayout.v
ZLinkSpec.v
ZLinkImage.v
ZLinkCheck.v
ZTheorems.v
ZAsmText.v
ZAsm.v
ZAsmSpec.v
ZAsmJump.v
ZFromAsm.v
ZFromAsmSpec.v
ZFromAsmMain.v
ZAsmTheorems.v
