(* ===== verification/Prelude.v ===== *)
(** * LainOS: storage, memory, C library, network and Z tools

    LainOS is a small x86-64 operating system in C. This library models the
    parts of its kernel that the rest is built on: the file system LainFS,
    the storage layer under it, the settings registry, the DMA pool, the page
    allocator, the kernel heap, the tasks and cores, the C library, the network
    stack, and the assembler and linker of the language Z. It proves what each of them
    promises.

    ** The program and its models

    - kernel/fs/lainfs.c, the file system. A partition has a superblock in
      block 0, a directory of 2048 entries of 64 bytes in blocks 1 to 256 and
      data blocks behind it; a file has at most three extents.
      LainfsLayout.v: superblock, directory entry, extents and their bytes on
      disk. LainfsDir.v: validation, cycle search, repair step and lookups over
      the table of entries. LainfsAlloc.v: the search for free blocks.
      LainfsState.v: the static variables as the record [fs], the block cache
      of 16 slots, the directory and superblock caches, flushing and
      formatting. LainfsOps.v: every function of lainfs.h.
    - tools/lainfs_check_host.c and tools/lainfs_seed.c, the tools for LainFS
      images on the host. HostCheck.v: loading, checking and repairing an
      image. HostRead.v: paths, and reading a file. HostSeed.v: filling an
      image from the files of the host, which are the class [HostFs].
    - kernel/drivers/storage.c, the storage layer. StorageApi.v is the
      interface LainFS uses, the class [StorageApi], with the laws LainFS
      relies on, [StorageLaws]. Storage.v models the devices, the ramdisk, the
      discovery of MBR and GPT partitions, mounts and block I/O. StorageSpec.v
      shows that it keeps the laws and that partitions found on a disk lie
      inside their device. Other block drivers (ATA, AHCI) are a
      parameter, [ExtDrivers], with the behaviour of a disk as hypotheses,
      [ExtLaws]; a machine with the ramdisk alone has them.
    - kernel/core/registry.c (Registry.v), kernel/core/dma.c (Dma.v) and the
      page allocator of kernel/core/kmem.c (Kmem.v).
    - kernel/core/kmem.c, the heap on top of the pages. Memory.v: memory as a
      function from addresses to bytes, little-endian loads and stores,
      frames. Heap.v: the lists of free blocks that are linked through
      memory, the headers and guards of blocks in use, kmalloc, kzalloc,
      kfree, kmalloc_size and the statistics. HeapTest.v: the self-test and
      the soak test.
    - kernel/core/cpu.c, the cores. Topology.v: finding them in the ACPI
      tables; the instruction CPUID is the class [Cpuid]. Tasks.v: the work
      queue of the cores and the kernel tasks on top of it, from
      smp_submit_work to kernel_task_snapshot, as a machine of cores that take
      steps in any order; a step is what a core does under a lock.
    - kernel/core/libc.c, the C library. LibcString.v: memory and string
      functions. LibcNumber.v: strtol, strtoul. LibcFormat.v: vsnprintf.
      LibcTime.v: gmtime_r, mktime, strftime, strptime. LibcAlloc.v: malloc,
      calloc, realloc, free, strdup on the kernel heap, and bsearch.
    - kernel/drivers/keyboard.c, the keyboards. Keyboard.v: layouts, the queue
      of keys, scancodes of the PS/2 keyboard, reports of a USB keyboard,
      reading keys and lines. What arrives is a list of inputs, the console is
      the class [Console].
    - kernel/drivers/net.c, the network stack. NetWire.v: the layouts of
      Ethernet, ARP, IP, UDP and TCP headers and the checksum. NetState.v: the
      static variables as the record [net], devices, sending. NetHttp.v: URLs,
      header lines, chunked bodies, the gzip header. NetDns.v: names, queries
      and responses. NetRecv.v: net_receive_frame with every handler under it,
      the waits for ARP, TCP, DHCP and DNS, the stream functions. NetGet.v:
      net_http_get_ex. A network driver and the clock are the class
      [NetDriver]; memory, the zlib decompressor and the TLS client behind a
      request are the class [HttpLibs]; of the TLS client nothing is assumed.
    - kernel/z/zscript.c, the lexer of the Z compiler (ZLex.v): characters,
      directives, blanks and tokens, and the definition of enumerations. A
      position in the source is the rest of the source from there on.
    - kernel/z/zobject.c and kernel/z/assembler.c, the assembler and linker of
      the language Z, and kernel/core/kernel_exports.c, the names programs can
      link to. KernelExports.v: the table of names; the addresses are the class
      [KernelSymbols]. ZObject.v: the format of object files, reading them.
      ZLink.v: linking, for objects of all versions; the linker's state is the
      record [linker], kmalloc the class [ZMemory] and the assembler it calls
      the class [Assembler], of which [lainos_assembler] in ZAsmJump.v is the
      instance made of the functions of assembler.c. ZAsmText.v: lines,
      labels, registers and operands. ZAsm.v: encodings and both passes.
      ZFromAsm.v: zobject_from_asm.

    C functions are functions of the state: [M S A] is a state and error
    monad whose errors are the codes the function returns. Integers are [Z]
    with the wrap-around of their C type written out ([u8], [u32], [u64]);
    strings are lists of bytes with a terminator, of which [cstr] is the
    visible part; buffers are lists whose accesses fail outside ([rd8],
    [wr8], Buffer.v), so that a function that returns stayed inside, and [C]
    adds early returns to that; out-parameters are results. Except in Tasks.v
    operations run one after the other, as on one core. Where the code takes its
    lock in pieces (kmalloc and kfree around the lists of small blocks,
    mounting and formatting in lainfs.c), what other cores do between the
    pieces is not modelled.

    ** What is shown

    - LainfsCache.v: the caches are transparent. [view] and [dview] are the
      blocks and the directory the file system shows; reads return them,
      writes change one block, evictions and flushes change nothing, and
      after a flush the disk agrees with them.
    - LainfsSpec.v, LainfsRefine.v, LainfsFiles.v, LainfsQuery.v: the
      operations refine an abstract file system, a tree of named nodes
      ([spec]), with every error code; saved files are read back; saves
      succeed when there is room; queries answer from the tree.
    - LainfsDir.v, LainfsSpec.v, LainfsAdmin.v, LainfsFormat.v: the validator
      decides well-formedness ([dir_wf]), every operation keeps it, repair
      ends and is sound, formatting gives an empty file system.
    - LainfsAlloc.v: blocks handed out are free, and free runs are found.
    - LainfsDemo.v: two ways in which lainfs.c loses data.
    - HostCheck.v: the checkers of host and kernel agree, and repairs on the
      host are safe. HostRead.v, HostSeed.v: an image filled on the host is a
      good file system, and its files are read back.
    - Registry.v: the table of settings is a finite map.
    - Dma.v: the pool is good memory and its blocks are disjoint.
    - KmemSpec.v, KmemBoot.v: the page allocator as a set of free addresses,
      for one call, for any interleaving of clients, and at boot.

    - HeapSpec.v, HeapAlloc.v, HeapClients.v: the heap implements a map from
      addresses to byte strings. [heap_ok] says that the free lists, the
      blocks in use and the free pages are disjoint and the headers right;
      every operation keeps it, for any client that releases and writes only
      what it holds; misuse is counted as the code means to.
    - Topology.v: only memory that the firmware describes is read, and the
      cores found are those of the table.
    - TasksSpec.v, TasksTheorems.v: however cores interleave, work items and
      tasks are run once, none is lost, and waiting for one ends only after
      it has returned; and a race after which waiting never ends.
    - LibcString.v to LibcAlloc.v: each function against a reference on lists
      of characters, with what it writes and that it writes nothing else;
      numbers and dates are read back as printed. The [int]s of formats and
      dates wrap; the theorems are about fields an [int] can hold.

    - Keyboard.v: the queue is a bounded queue, both keyboards give the same
      events, and reading a line is editing it.
    - NetSafe.v, NetInvariant.v: no frame makes the stack read or write
      outside a buffer or break its invariant [net_ok]. NetSession.v has the
      interface to a network, [NetPeer]: the frames that can arrive, and that
      the clock goes on. In the same file: a stream delivers what a peer
      sends, in order, whatever is lost, cut, repeated or reordered, also
      when the sequence numbers wrap.
      NetDhcp.v, NetFrames.v: configuration and lookups end and
      take what servers answer. Frames (NetFrames.v) and
      bodies (NetBody.v) are
      read back as written. NetGetSafe.v: requests end, or are handed to the
      TLS client. NetDemo.v: a network
      with a queue of frames that has the interface.
    - ZLex.v: every source is read to its end or to an error, and every token
      fits its buffer. ZLexSpec.v: what is written is read, with anything that
      may stand between tokens; enumerations define their names; and four ways
      in which the lexer is wrong.
    - ZObjectSpec.v, ZLayout.v, ZLinkSpec.v, ZLinkImage.v, ZLinkCheck.v:
      linking objects as the assembler makes them ([object_good]), with room
      for the calls of the entries, stays inside all buffers and gives the image
      that [linked_image] describes, unless the link is impossible; each step is
      shown to fail exactly when its part of [link_possible] is missing.
    - ZAsmSpec.v, ZAsmJump.v: both passes of the
      assembler agree on the size of every line, whatever the labels are, so
      labels and jumps are right. ZFromAsmSpec.v, ZFromAsmMain.v:
      an object made from a source is read back as it was made, and the linker
      can work with it.

    The theorems are collected in LainfsTheorems.v, KernelTheorems.v,
    HeapTheorems.v, LibcTheorems.v, NetTheorems.v, ZTheorems.v,
    ZAsmTheorems.v, TasksTheorems.v and at the end of HostCheck.v, HostSeed.v,
    Topology.v, Keyboard.v, ZLex.v and ZLexSpec.v, each with an application to a
    concrete machine.

    ** Loops

    Loops over tables are structural. The others have fuel that is shown to be
    enough: the walk along parent links takes at most 2049 steps because a
    directory seen twice ends it; a repair makes at most 2049 rounds; the scan
    for free blocks moves on with every round; a memory map of [n] bytes has
    at most [n / 40] descriptors; a reservation visits each range once and the
    right part of a split once more. Walks along the free lists of the heap
    take more rounds than the lists have blocks, and any such number gives
    the same result. Loops over C strings need more rounds than the string
    has characters; a number has at most 64 digits; a year has at least 365
    days, so that [days / 365 + 1] rounds find the year; a binary search over
    [n] items makes at most [n] rounds. A wait on the network with a deadline
    takes at most [rounds limit] readings of the clock, by [NetPeer]; a page
    is waited for anew each time it has grown, at most once for each byte of
    the caller's buffer. Host paths get longer with every directory and end at
    512 bytes, so that 513 levels are enough; a path inside an image loses a
    byte with every component. An entry of an ACPI table has at least two bytes,
    so that a table has fewer entries than bytes. A report of a USB keyboard
    makes at most six keys. Every round over the blanks of a Z source, every
    line of a block that is left out and every token but the last takes a byte.

    ** What is not modelled

    Of cpu.c the descriptor tables, the start of the other cores, the timers
    and the interrupts between cores, which are accesses to registers; the
    Z compiler behind its lexer (kernel/z/zscript.c) and the host's copies of
    the linker; the
    listing and the smoke test of lainfs_check_host.c; failures of the host's
    files other than reading (an image that cannot be opened or written); the
    floating-point functions of the C library, its
    clock, abort and seeder hooks; the user interface, hardware drivers, boot
    loader and vendored code. The contents of a buffer after a file system
    call that failed are not described. Signed overflow, which C leaves
    undefined, wraps in the definitions and is excluded by hypotheses in the
    theorems. The TLS client (kernel/drivers/tls.c) is not modelled. Links of objects of version 4 and older are modelled, but shown right for
    no object; the size of a source that is only measured can wrap at 4 GiB.

    This file holds what the components share: machine integers, bytes, C
    strings, list searches and the monad, with the tactics and hints for
    them. *)
From stdpp Require Import base tactics option list numbers.
From Stdlib Require Import ZArith Lia.
#[local] Open Scope Z_scope.

(** ** Machine-width integers *)

Definition u8 (x : Z) : Z := x mod 256.
Definition u16 (x : Z) : Z := x mod 65536.
Definition u32 (x : Z) : Z := x mod 4294967296.
Definition u64 (x : Z) : Z := x mod 18446744073709551616.

(** The signed numbers of these widths. *)
Definition s8 (x : Z) : Z := if u8 x <? 128 then u8 x else u8 x - 256.
Definition s16 (x : Z) : Z := if u16 x <? 32768 then u16 x else u16 x - 65536.
Definition s32 (x : Z) : Z := if u32 x <? 2147483648 then u32 x else u32 x - 4294967296.
Definition s64 (x : Z) : Z := if u64 x <? 9223372036854775808 then u64 x else u64 x - 18446744073709551616.

#[global] Arguments u8 : simpl never.
#[global] Arguments u16 : simpl never.
#[global] Arguments u32 : simpl never.
#[global] Arguments u64 : simpl never.

Definition is_u8 (x : Z) : Prop := 0 <= x < 256.
Definition is_u32 (x : Z) : Prop := 0 <= x < 4294967296.
Definition is_u64 (x : Z) : Prop := 0 <= x < 18446744073709551616.

(** A list of bytes. *)
Abbreviation bytes := (Forall is_u8).

Lemma bytes_drop n l : bytes l -> bytes (drop n l).
Proof. apply Forall_drop. Qed.

Lemma bytes_take n l : bytes l -> bytes (take n l).
Proof. apply Forall_take. Qed.

Create HintDb cint discriminated.

Lemma u8_small x : is_u8 x -> u8 x = x.
Proof. intros; apply Z.mod_small; done. Qed.
Lemma u32_small x : is_u32 x -> u32 x = x.
Proof. intros; apply Z.mod_small; done. Qed.
Lemma u64_small x : is_u64 x -> u64 x = x.
Proof. intros; apply Z.mod_small; done. Qed.
Lemma s32_small x : - 2147483648 <= x < 2147483648 -> s32 x = x.
Proof. intros Hx. unfold s32, u32. destruct (Z.ltb_spec (x mod 4294967296) 2147483648); Z.div_mod_to_equations; lia. Qed.
Lemma s32_range x : - 2147483648 <= s32 x < 2147483648.
Proof. unfold s32, u32. destruct (Z.ltb_spec (x mod 4294967296) 2147483648); Z.div_mod_to_equations; lia. Qed.
Lemma s64_id x : - 9223372036854775808 <= x < 9223372036854775808 -> s64 x = x.
Proof. intros Hx. unfold s64, u64. destruct (Z.ltb_spec (x mod 18446744073709551616) 9223372036854775808); Z.div_mod_to_equations; lia. Qed.
Lemma u8_range x : is_u8 (u8 x).
Proof. apply Z.mod_pos_bound; lia. Qed.
Lemma u32_range x : is_u32 (u32 x).
Proof. apply Z.mod_pos_bound; lia. Qed.
Lemma u64_range x : is_u64 (u64 x).
Proof. apply Z.mod_pos_bound; lia. Qed.
#[export] Hint Resolve u8_range u32_range u64_range : cint.

#[export] Instance is_u8_dec x : Decision (is_u8 x).
Proof. unfold is_u8. apply _. Defined.
#[export] Instance is_u32_dec x : Decision (is_u32 x).
Proof. unfold is_u32. apply _. Defined.

(** Unfold the width predicates and call [lia]. *)
Ltac cint := unfold is_u8, is_u32, is_u64, u8, u16, u32, u64 in *; lia.

(** The same for goals with division and modulo. *)
Ltac cdiv :=
  unfold is_u8, is_u32, is_u64, u8, u16, u32, u64 in *; Z.div_mod_to_equations; lia.

(** Take apart [Forall] on a concrete list. *)
Ltac inv_Forall :=
  repeat match goal with
  | H : Forall _ (_ :: _) |- _ => apply Forall_cons_1 in H as [? H]
  | H : Forall _ (_ ++ _) |- _ => apply Forall_app in H as [? H]
  end.

(** Case analysis on the boolean tests of the code. *)
Ltac bool_prop :=
  repeat match goal with
  | H : negb _ = true |- _ => apply negb_true_iff in H
  | H : negb _ = false |- _ => apply negb_false_iff in H
  | H : _ && _ = true |- _ => apply andb_true_iff in H; destruct H
  | H : _ || _ = false |- _ => apply orb_false_iff in H; destruct H
  | H : (_ =? _) = true |- _ => apply Z.eqb_eq in H
  | H : (_ =? _) = false |- _ => apply Z.eqb_neq in H
  | H : (_ <? _) = true |- _ => apply Z.ltb_lt in H
  | H : (_ <? _) = false |- _ => apply Z.ltb_ge in H
  | H : (_ <=? _) = true |- _ => apply Z.leb_le in H
  | H : (_ <=? _) = false |- _ => apply Z.leb_gt in H
  end.

(** ** Little-endian words *)

Lemma lor_shiftl_add a b n : 0 <= n -> 0 <= a < 2 ^ n -> Z.lor a (Z.shiftl b n) = a + b * 2 ^ n.
Proof.
  intros Hn Ha.
  assert (Hl : Z.land a (Z.shiftl b n) = 0).
  { apply Z.bits_inj'. intros i Hi.
    rewrite Z.land_spec, Z.shiftl_spec, Z.bits_0 by done.
    destruct (decide (i < n)) as [Hlt|Hge].
    - rewrite (Z.testbit_neg_r b) by lia. apply andb_false_r.
    - rewrite <- (Z.mod_small a (2 ^ n)) by done.
      rewrite Z.mod_pow2_bits_high by lia. done. }
  pose proof (Z.add_lor_land a (Z.shiftl b n)) as E. rewrite Hl in E.
  rewrite Z.shiftl_mul_pow2 in * by done. lia.
Qed.

(** [p\[i\]] of a byte buffer; the callers stay in range (the buffers have
    fixed sizes), an index past the end reads 0. *)
Definition byte_at (p : list Z) (i : nat) : Z := default 0 (p !! i).

Definition read_le32 (p : list Z) : Z :=
  Z.lor (Z.lor (Z.lor (byte_at p 0) (Z.shiftl (byte_at p 1) 8))
               (Z.shiftl (byte_at p 2) 16))
        (Z.shiftl (byte_at p 3) 24).

Definition write_le32 (v : Z) : list Z :=
  [Z.land v 255; Z.land (Z.shiftr v 8) 255; Z.land (Z.shiftr v 16) 255; Z.land (Z.shiftr v 24) 255].

#[global] Arguments read_le32 : simpl never.

Lemma byte_at_range p i : bytes p -> is_u8 (byte_at p i).
Proof.
  intros Hp. unfold byte_at. destruct (p !! i) eqn:E; simpl; [|cint].
  eapply Forall_lookup_1; eauto.
Qed.
#[export] Hint Resolve byte_at_range : cint.

Lemma land_255 x : Z.land x 255 = x mod 256.
Proof. change 255 with (Z.ones 8). rewrite Z.land_ones; done. Qed.

Lemma read_le32_sum p : bytes p ->
  read_le32 p = byte_at p 0 + byte_at p 1 * 256 + byte_at p 2 * 65536 + byte_at p 3 * 16777216.
Proof.
  intros Hp. unfold read_le32.
  pose proof (byte_at_range p 0 Hp). pose proof (byte_at_range p 1 Hp).
  pose proof (byte_at_range p 2 Hp). unfold is_u8 in *.
  rewrite (lor_shiftl_add _ _ 8), (lor_shiftl_add _ _ 16), (lor_shiftl_add _ _ 24); lia.
Qed.

Lemma read_le32_range p : bytes p -> is_u32 (read_le32 p).
Proof.
  intros Hp. rewrite read_le32_sum by done.
  pose proof (byte_at_range p 0 Hp). pose proof (byte_at_range p 1 Hp).
  pose proof (byte_at_range p 2 Hp). pose proof (byte_at_range p 3 Hp). cint.
Qed.
#[export] Hint Resolve read_le32_range : cint.

Lemma write_le32_bytes v : bytes (write_le32 v).
Proof.
  unfold write_le32. rewrite !land_255.
  repeat constructor; apply Z.mod_pos_bound; lia.
Qed.
#[export] Hint Resolve write_le32_bytes : cint.

Lemma read_write_le32 v l : is_u32 v -> bytes l -> read_le32 (write_le32 v ++ l) = v.
Proof.
  intros Hv Hl. rewrite read_le32_sum by (apply Forall_app; auto with cint).
  unfold write_le32, byte_at; simpl. rewrite !land_255, !Z.shiftr_div_pow2 by lia.
  change (2 ^ 8) with 256. change (2 ^ 16) with 65536. change (2 ^ 24) with 16777216. cdiv.
Qed.

Lemma write_read_le32 a b c d l : bytes [a; b; c; d] -> bytes l ->
  write_le32 (read_le32 (a :: b :: c :: d :: l)) = [a; b; c; d].
Proof.
  intros Hb Hl.
  rewrite read_le32_sum by (change (a :: b :: c :: d :: l) with ([a; b; c; d] ++ l); apply Forall_app; auto).
  unfold write_le32, byte_at; simpl. rewrite !land_255, !Z.shiftr_div_pow2 by lia.
  inv_Forall.
  change (2 ^ 8) with 256. change (2 ^ 16) with 65536. change (2 ^ 24) with 16777216.
  repeat f_equal; cdiv.
Qed.

Lemma write_read_le32_take l : bytes l -> (4 <= length l)%nat -> write_le32 (read_le32 l) = take 4 l.
Proof.
  intros Hb Hl. destruct l as [|a [|b [|c [|d l]]]]; cbn in Hl; try lia.
  inv_Forall. rewrite write_read_le32; [done|by repeat apply Forall_cons_2|done].
Qed.

(** ** C strings

    A [const char *] is the list of the bytes it points at. [cstr] is the
    part before the terminator, which is what the loops of the code see. *)

Fixpoint cstr (s : list Z) : list Z :=
  match s with
  | [] => []
  | c :: s' => if c =? 0 then [] else c :: cstr s'
  end.

(** [while (s\[len\]) ++len;] *)
Fixpoint str_len (s : list Z) : Z :=
  match s with
  | [] => 0
  | c :: s' => if c =? 0 then 0 else 1 + str_len s'
  end.

(** [while ( *a && *b && *a == *b) { ++a; ++b; } return *a == 0 && *b == 0;] *)
Fixpoint str_eq (a b : list Z) : bool :=
  match a, b with
  | x :: a', y :: b' =>
      if negb (x =? 0) && negb (y =? 0) && (x =? y) then str_eq a' b'
      else (x =? 0) && (y =? 0)
  | [], y :: _ => y =? 0
  | x :: _, [] => x =? 0
  | [], [] => true
  end.

(** [if (max_len == 0) return; while (src\[i\] && i + 1 < max_len) dst\[i\] = src\[i\], ++i; dst\[i\] = 0;] *)
Definition copy_str (dst src : list Z) (max_len : nat) : list Z :=
  if (max_len =? 0)%nat then dst
  else let c := take (max_len - 1) (cstr src) in
       c ++ [0] ++ drop (S (length c)) dst.

(** [c >= 'a' && c <= 'z' ? c - ('a' - 'A') : c]. On x86-64 a plain [char] is
    signed: bytes of 128 and more are negative there and outside the range
    either way. *)
Definition to_upper (c : Z) : Z := if (97 <=? c) && (c <=? 122) then c - 32 else c.

Lemma str_len_cstr s : str_len s = Z.of_nat (length (cstr s)).
Proof. induction s as [|c s IH]; simpl; [done|]. destruct (c =? 0); simpl; lia. Qed.

Lemma str_eq_spec a b : str_eq a b = true <-> cstr a = cstr b.
Proof.
  revert b. induction a as [|x a IH]; intros [|y b]; simpl; try done.
  - destruct (y =? 0); done.
  - destruct (x =? 0); done.
  - destruct (x =? 0) eqn:Ex, (y =? 0) eqn:Ey; simpl; try done.
    destruct (x =? y) eqn:Exy; bool_prop.
    + subst. rewrite IH. split; congruence.
    + split; congruence.
Qed.

Lemma str_eq_spec_false a b : str_eq a b = false <-> cstr a <> cstr b.
Proof. rewrite <- str_eq_spec. destruct (str_eq a b); split; congruence. Qed.

Lemma cstr_nonzero s : Forall (fun c => c <> 0) (cstr s).
Proof.
  induction s as [|c s IH]; simpl; [constructor|].
  destruct (c =? 0) eqn:E; [constructor|]. bool_prop. constructor; done.
Qed.

Lemma cstr_id s : Forall (fun c => c <> 0) s -> cstr s = s.
Proof.
  induction s as [|c s IH]; intros Hs; simpl; [done|]. inv_Forall.
  destruct (c =? 0) eqn:E; bool_prop; [done|]. f_equal; auto.
Qed.

Lemma cstr_app_nul s t : Forall (fun c => c <> 0) s -> cstr (s ++ 0 :: t) = s.
Proof.
  induction s as [|c s IH]; intros Hs; simpl; [done|]. inv_Forall.
  destruct (c =? 0) eqn:E; bool_prop; [done|]. f_equal; auto.
Qed.

Lemma cstr_length s : (length (cstr s) <= length s)%nat.
Proof. induction s as [|c s IH]; simpl; [lia|]. destruct (c =? 0); simpl; lia. Qed.

Lemma cstr_bytes s : bytes s -> bytes (cstr s).
Proof.
  induction s as [|c s IH]; intros Hs; simpl; [done|]. inv_Forall.
  destruct (c =? 0); auto.
Qed.
#[export] Hint Resolve cstr_bytes : cint.

Lemma cstr_copy_str dst src n : (n <> 0)%nat -> cstr (copy_str dst src n) = take (n - 1) (cstr src).
Proof.
  intros Hn. unfold copy_str. destruct (Nat.eqb_spec n 0); [done|].
  apply cstr_app_nul. apply Forall_take, cstr_nonzero.
Qed.

Lemma length_copy_str dst src n : (n <= length dst)%nat -> length (copy_str dst src n) = length dst.
Proof.
  intros Hn. unfold copy_str. destruct (Nat.eqb_spec n 0); [done|].
  rewrite !length_app, length_drop, length_take. simpl. lia.
Qed.

Lemma to_upper_idemp c : to_upper (to_upper c) = to_upper c.
Proof. unfold to_upper. repeat case_match; bool_prop; lia. Qed.

(** ** Arrays *)

(** [for (i = 0; i < n; ++i) if (f(a\[i\])) return i;] *)
Fixpoint find_index {A} (f : A -> bool) (l : list A) : option nat :=
  match l with
  | [] => None
  | x :: l' => if f x then Some O else S <$> find_index f l'
  end.

Lemma find_index_Some {A} (f : A -> bool) l i :
  find_index f l = Some i <->
  exists x, l !! i = Some x /\ f x = true /\
            forall j y, (j < i)%nat -> l !! j = Some y -> f y = false.
Proof.
  revert i. induction l as [|x l IH]; intros i; simpl.
  - split; [done|]. intros (y & H & _). done.
  - destruct (f x) eqn:Ef.
    + split.
      * intros [= <-]. exists x. split_and!; [done..|]. intros; lia.
      * intros (y & Hy & Hfy & Hj). destruct i; [done|].
        rewrite (Hj O x) in Ef; [done|lia|done].
    + split.
      * intros (j & H & ->)%fmap_Some. apply IH in H as (y & Hy & Hfy & Hj).
        exists y. split_and!; [done..|]. intros [|k] z Hk Hz; simplify_eq/=; [done|].
        eapply Hj; [|done]. lia.
      * intros (y & Hy & Hfy & Hj). destruct i as [|i]; simplify_eq/=; [congruence|].
        apply fmap_Some. exists i. split; [|done]. apply IH.
        exists y. split_and!; [done..|]. intros k z Hk Hz. apply (Hj (S k) z); [lia|done].
Qed.

Lemma find_index_None {A} (f : A -> bool) l :
  find_index f l = None <-> forall i x, l !! i = Some x -> f x = false.
Proof.
  induction l as [|x l IH]; simpl.
  - split; [intros _ i y Hy; done|done].
  - destruct (f x) eqn:Ef.
    + split; [done|]. intros H. rewrite (H O x) in Ef; done.
    + split.
      * intros H%fmap_None i y Hy. destruct i as [|i]; simplify_eq/=; [done|]. eapply IH; eauto.
      * intros H. apply fmap_None, IH. intros i y Hy. apply (H (S i) y). done.
Qed.

Lemma find_index_lt {A} (f : A -> bool) l i : find_index f l = Some i -> (i < length l)%nat.
Proof. intros (x & Hx & _)%find_index_Some. by apply lookup_lt_Some in Hx. Qed.

(** [n] consecutive pieces of [sz] bytes. *)
Fixpoint chunks (n sz : nat) (bs : list Z) : list (list Z) :=
  match n with
  | O => []
  | S n' => take sz bs :: chunks n' sz (drop sz bs)
  end.

Lemma length_chunks n sz bs : length (chunks n sz bs) = n.
Proof. revert bs. induction n; intros; simpl; auto. Qed.

Lemma lookup_chunks n sz bs i : (i < n)%nat -> chunks n sz bs !! i = Some (take sz (drop (i * sz) bs)).
Proof.
  revert n bs. induction i as [|i IH]; intros [|n] bs Hi; simpl; try lia; [by rewrite drop_0|].
  rewrite IH by lia. by rewrite drop_drop.
Qed.

Lemma chunks_concat {sz} n (ls : list (list Z)) :
  length ls = n -> Forall (fun l => length l = sz) ls -> chunks n sz (concat ls) = ls.
Proof.
  revert ls. induction n as [|n IH]; intros [|l ls] Hn Hl; simplify_eq/=; [done|].
  inv_Forall. rewrite take_app_length' by done. rewrite drop_app_length' by done.
  f_equal. auto.
Qed.

Lemma concat_chunks n sz bs : length bs = (n * sz)%nat -> concat (chunks n sz bs) = bs.
Proof.
  revert bs. induction n as [|n IH]; intros bs Hl; simpl.
  - by destruct bs.
  - rewrite IH by (rewrite length_drop; lia). apply take_drop.
Qed.

(** ** Early-return state monad

    A C function over a state [S] that may return early with a status code:
    [inl c] is [return c] with [c] non-zero, [inr a] carries the value (or the
    out-parameters) of a call that returned 0. The state survives an early
    return, as C memory does. *)

Definition M (S A : Type) : Type := S -> (Z + A) * S.

#[export] Instance M_ret S : MRet (M S) := fun A a s => (inr a, s).
#[export] Instance M_bind S : MBind (M S) := fun A B k m s =>
  match m s with
  | (inr a, s') => k a s'
  | (inl c, s') => (inl c, s')
  end.

Definition fail {S A} (c : Z) : M S A := fun s => (inl c, s).
Definition guardb {S} (b : bool) (c : Z) : M S unit := fun s => if b then (inr tt, s) else (inl c, s).
Definition gets {S A} (f : S -> A) : M S A := fun s => (inr (f s), s).
Definition modify {S} (f : S -> S) : M S unit := fun s => (inr tt, f s).
Definition from_option {S A} (o : option A) (c : Z) : M S A :=
  fun s => match o with Some a => (inr a, s) | None => (inl c, s) end.

(** A piece of code given by what it does to the state. *)
Definition step {S A} (f : S -> (Z + A) * S) : M S A := f.

(** [if (call() != 0) return c;] *)
Definition or_return {S A} (m : M S A) (c : Z) : M S A := fun s =>
  match m s with
  | (inr a, s') => (inr a, s')
  | (inl _, s') => (inl c, s')
  end.

(** The [int] a caller sees. *)
Definition status {A} (r : Z + A) : Z := match r with inl c => c | inr _ => 0 end.

Section monad_laws.
Context {S A B : Type}.
Implicit Types (s : S) (m : M S A) (k : A -> M S B).

Lemma bind_inr m k s b s' :
  (m ≫= k) s = (inr b, s') <-> exists a s1, m s = (inr a, s1) /\ k a s1 = (inr b, s').
Proof.
  unfold mbind, M_bind. split.
  - destruct (m s) as [[c|a] s1]; [done|]. eauto.
  - intros (a & s1 & -> & ?). done.
Qed.

Lemma bind_inl m k s c s' :
  (m ≫= k) s = (inl c, s') <->
  m s = (inl c, s') \/ exists a s1, m s = (inr a, s1) /\ k a s1 = (inl c, s').
Proof.
  unfold mbind, M_bind. split.
  - destruct (m s) as [[c'|a] s1]; [intros [= -> ->]; auto|]. eauto.
  - intros [->|(a & s1 & -> & ?)]; done.
Qed.

Lemma bind_ok m k s a s1 : m s = (inr a, s1) -> (m ≫= k) s = k a s1.
Proof. unfold mbind, M_bind. by intros ->. Qed.

Lemma bind_err m k s c s1 : m s = (inl c, s1) -> (m ≫= k) s = (inl c, s1).
Proof. unfold mbind, M_bind. by intros ->. Qed.

Lemma or_return_inr m c s a s' : or_return m c s = (inr a, s') <-> m s = (inr a, s').
Proof. unfold or_return. destruct (m s) as [[?|?] ?]; done. Qed.

Lemma or_return_inl m c c' s s' :
  or_return m c s = (inl c', s') <-> c' = c /\ exists c0, m s = (inl c0, s').
Proof.
  unfold or_return. destruct (m s) as [[c0|a] s1]; split.
  - intros [= <- <-]. eauto.
  - intros [-> [c1 [= _ ->]]]. done.
  - done.
  - intros [_ [? ?]]. done.
Qed.

Lemma from_option_inr (o : option A) c s a s' :
  from_option o c s = (inr a, s') <-> o = Some a /\ s' = s.
Proof.
  unfold from_option. destruct o; split; [intros [= -> ->]; done|intros [[= ->] ->]; done|done|].
  intros [? ?]. done.
Qed.

Lemma from_option_inl (o : option A) c c' s s' :
  from_option o c s = (inl c', s') <-> o = None /\ c' = c /\ s' = s.
Proof.
  unfold from_option. destruct o; split; [done|intros [? ?]; done|intros [= <- ->]; done|].
  intros (_ & -> & ->). done.
Qed.
End monad_laws.

Lemma guardb_inr {S} b c (s s' : S) u : guardb b c s = (inr u, s') <-> b = true /\ s' = s.
Proof. unfold guardb. destruct b, u; split; [intros [= ->]; done|intros [_ ->]; done|done|intros [? ?]; done]. Qed.
Lemma guardb_inl {S} b c c' (s s' : S) : guardb b c s = (inl c', s') <-> b = false /\ c' = c /\ s' = s.
Proof.
  unfold guardb. destruct b; split; [done|intros [? ?]; done|intros [= <- ->]; done|].
  intros (_ & -> & ->). done.
Qed.

(** Invert a successful run step by step. *)
Ltac minv H :=
  repeat match type of H with
  | (_ ≫= _) _ = (inr _, _) =>
      let a := fresh "a" in let s := fresh "s" in let E := fresh "E" in
      apply bind_inr in H as (a & s & E & H); minv E
  | or_return _ _ _ = (inr _, _) => apply or_return_inr in H
  | guardb _ _ _ = (inr _, _) => apply guardb_inr in H as [H ->]
  | from_option _ _ _ = (inr _, _) => apply from_option_inr in H as [H ->]
  | gets _ _ = (inr _, _) => unfold gets in H; inversion H; clear H; subst
  | modify _ _ = (inr _, _) => unfold modify in H; inversion H; clear H; subst
  | mret _ _ = (inr _, _) => unfold mret, M_ret in H; inversion H; clear H; subst
  | fail _ _ = (inr _, _) => unfold fail in H; discriminate H
  end.

(** ** Buffer updates *)

(** [p\[off..\] = new] inside a buffer. *)
Definition splice (off : nat) (new l : list Z) : list Z :=
  take off l ++ new ++ drop (off + length new) l.

#[global] Arguments splice : simpl never.

Lemma length_splice off new l : (off + length new <= length l)%nat ->
  length (splice off new l) = length l.
Proof. intros. unfold splice. rewrite !length_app, length_take, length_drop. lia. Qed.

Lemma splice_bytes off new l : bytes new -> bytes l -> bytes (splice off new l).
Proof.
  intros. unfold splice. rewrite !Forall_app. auto using Forall_take, Forall_drop.
Qed.
#[export] Hint Resolve splice_bytes Forall_take Forall_drop : cint.

Lemma byte_at_drop n l i : byte_at (drop n l) i = byte_at l (n + i).
Proof. unfold byte_at. by rewrite lookup_drop. Qed.

Lemma byte_at_splice off new l i : (off + length new <= length l)%nat ->
  byte_at (splice off new l) i =
  if decide (off <= i < off + length new)%nat then byte_at new (i - off) else byte_at l i.
Proof.
  intros Hl. unfold byte_at, splice. case_decide.
  - rewrite lookup_app_r by (rewrite length_take; lia).
    rewrite length_take, lookup_app_l by lia. do 2 f_equal. lia.
  - destruct (decide (i < off)%nat).
    + rewrite lookup_app_l by (rewrite length_take; lia). by rewrite lookup_take_lt by lia.
    + rewrite lookup_app_r by (rewrite length_take; lia).
      rewrite length_take, lookup_app_r by lia. rewrite lookup_drop. do 2 f_equal. lia.
Qed.

Lemma read_le32_ext p q : (forall i, (i < 4)%nat -> byte_at p i = byte_at q i) -> read_le32 p = read_le32 q.
Proof. intros H. unfold read_le32. rewrite !H by lia. done. Qed.

(** Reading a word back where it was stored. *)
Lemma read_le32_splice_same off off' v new1 new2 l :
  off = (off' + length new1)%nat -> is_u32 v -> bytes new2 ->
  (off' + length (new1 ++ write_le32 v ++ new2) <= length l)%nat ->
  read_le32 (drop off (splice off' (new1 ++ write_le32 v ++ new2) l)) = v.
Proof.
  intros -> Hv Hb Hl. trans (read_le32 (write_le32 v ++ new2)); [|by apply read_write_le32].
  apply read_le32_ext. intros i Hi.
  rewrite byte_at_drop, byte_at_splice by done. rewrite !length_app in *. simpl in *.
  rewrite decide_True by lia. unfold byte_at. rewrite lookup_app_r by lia. do 2 f_equal. lia.
Qed.

(** Reading a word elsewhere. *)
Lemma read_le32_splice_other off off' new l :
  (off + 4 <= off')%nat \/ (off' + length new <= off)%nat -> (off' + length new <= length l)%nat ->
  read_le32 (drop off (splice off' new l)) = read_le32 (drop off l).
Proof.
  intros Hd Hl. apply read_le32_ext. intros i Hi. rewrite !byte_at_drop, byte_at_splice by done.
  rewrite decide_False by lia. done.
Qed.

Lemma take_splice off off' new l : (off <= off')%nat -> (off' <= length l)%nat ->
  take off (splice off' new l) = take off l.
Proof.
  intros H Hl. unfold splice. rewrite take_app_le by (rewrite length_take; lia). rewrite take_take. f_equal. lia.
Qed.

Lemma read_le32_splice_head off new l : (4 <= off)%nat -> (off + length new <= length l)%nat ->
  read_le32 (splice off new l) = read_le32 l.
Proof.
  intros Ho Hl. apply (read_le32_splice_other 0 off new l); [lia|done].
Qed.

Lemma Forall_elem {A} (P : A -> Prop) l : Forall P l <-> forall x, x ∈ l -> P x.
Proof. rewrite Forall_forall. split; intros H x Hx; apply H; by apply list_elem_of_In. Qed.
