(* ===== verification/StorageApi.v ===== *)
(** The storage interface: kernel/include/storage.h.

    The types of storage.h, the operations the file system calls ([StorageApi])
    and what it relies on ([StorageLaws]). storage.c implements the interface
    in Storage.v and discharges the laws in StorageSpec.v; the file system
    (Lainfs*.v) is written and proved against the classes. *)
From Stdlib Require Import ZArith Lia.
From stdpp Require Import base tactics option list numbers.
From S2P Require Import Prelude.
#[local] Open Scope Z_scope.

(** The driver behind a [block_read_t] or [block_write_t] function pointer:
    the ramdisk of storage.c, or a driver of another file. *)
Inductive driver : Type :=
| drv_ramdisk : driver
| drv_ext : Z -> driver.

#[export] Instance driver_eq_dec : EqDecision driver.
Proof. solve_decision. Defined.

Record block_device : Type := BlockDevice {
  bd_present : bool;
  bd_name : list Z;
  bd_block_size : Z;
  bd_block_count : Z;
  bd_read : option driver;
  bd_write : option driver;
  bd_ctx : Z
}.

Record partition : Type := Partition {
  pt_present : bool;
  pt_name : list Z;
  pt_device_index : Z;
  pt_partition_number : Z;
  pt_start_lba : Z;
  pt_block_count : Z;
  pt_mbr_type : Z;
  pt_fs_hint : list Z
}.

Record mount : Type := Mount {
  mt_present : bool;
  mt_drive_letter : Z;
  mt_partition_index : Z;
  mt_partition_name : list Z;
  mt_fs_name : list Z
}.

(** The part of storage.h that lainfs.c calls, over the state [S] of the
    storage layer. A read returns the bytes put in the buffer. *)
Class StorageApi (S : Type) : Type := {
  api_get_partition : S -> Z -> option partition;
  api_find_partition : S -> list Z -> option (Z * partition);
  api_find_block_device : S -> list Z -> option (Z * block_device);
  api_get_mount_by_drive : S -> Z -> option mount;
  api_partition_is_writable : S -> Z -> bool;
  api_read_partition : S -> Z -> Z -> Z -> option (list Z);
  api_write_partition : Z -> Z -> Z -> list Z -> M S unit;
  api_discover_partitions : S -> S;
  api_unmount_block_device : Z -> S -> S;
  api_create_mbr_partition : Z -> Z -> M S Z
}.

(** Two storage states with the same tables: block contents may differ. *)
Definition same_tables {S} `{!StorageApi S} (s s' : S) : Prop :=
  (forall p, api_get_partition s' p = api_get_partition s p) /\
  (forall d, api_get_mount_by_drive s' d = api_get_mount_by_drive s d) /\
  (forall p, api_partition_is_writable s' p = api_partition_is_writable s p).

#[export] Instance same_tables_equiv {S} `{!StorageApi S} : Equivalence (@same_tables S _).
Proof.
  split.
  - intros s. split_and!; done.
  - intros s s' (H1 & H2 & H3). split_and!; intros; symmetry; auto.
  - intros s s' s'' (H1 & H2 & H3) (H4 & H5 & H6).
    split_and!; intros; etrans; eauto.
Qed.

(** Block contents of the partitions that sit on devices that work. *)
Class StorageLaws (S : Type) `{!StorageApi S} : Type := {
  (** the storage state is consistent *)
  st_wf : S -> Prop;
  (** partition [p] is registered, in range of its device, and that device
      serves every read and write in range *)
  st_live : S -> Z -> Prop;
  (** partitions [p] and [q] share no block *)
  st_disjoint : S -> Z -> Z -> Prop;
  (** the 512 bytes of block [lba] of partition [p] *)
  st_sector : S -> Z -> Z -> list Z;

  law_tables s p lba n bs r s' :
    api_write_partition p lba n bs s = (r, s') -> same_tables s s';
  law_live s p : st_live s p ->
    exists part, api_get_partition s p = Some part /\ 0 <= pt_block_count part < 2 ^ 63;
  law_sector s p part lba : st_wf s -> st_live s p ->
    api_get_partition s p = Some part -> 0 <= lba < pt_block_count part ->
    length (st_sector s p lba) = 512%nat /\ bytes (st_sector s p lba);
  law_read s p part lba n : st_wf s -> st_live s p ->
    api_get_partition s p = Some part -> 0 <= lba -> 0 <= n -> lba + n <= pt_block_count part ->
    api_read_partition s p lba n = Some (concat (st_sector s p <$> seqZ lba n));
  law_write s p part lba n bs : st_wf s -> st_live s p ->
    api_get_partition s p = Some part -> 0 <= lba -> 0 <= n -> lba + n <= pt_block_count part ->
    length bs = (512 * Z.to_nat n)%nat -> bytes bs ->
    exists s', api_write_partition p lba n bs s = (inr tt, s') /\ st_wf s' /\
      (forall q, st_live s' q <-> st_live s q) /\
      (forall q r, st_disjoint s' q r <-> st_disjoint s q r) /\
      (forall l, 0 <= l < pt_block_count part ->
         st_sector s' p l = if decide (lba <= l < lba + n)
                            then take 512 (drop (512 * Z.to_nat (l - lba)) bs)
                            else st_sector s p l) /\
      (forall q partq l, st_live s q -> api_get_partition s q = Some partq ->
         st_disjoint s p q -> 0 <= l < pt_block_count partq ->
         st_sector s' q l = st_sector s q l)
}.
