(* ===== verification/Storage.v ===== *)
(** Block storage: kernel/drivers/storage.c.

    The tables of block devices, partitions and mounts, the ramdisk, MBR and
    GPT discovery, and partition-relative block I/O. The other drivers (PIO
    ATA, AHCI, USB) appear through the class [ExtDrivers], the model of the
    function pointers [block_read_t] and [block_write_t]. *)
From Stdlib Require Import ZArith Lia Ascii String.
From stdpp Require Import base tactics option list numbers gmap.
From S2P Require Import Prelude.
From S2P Require Import StorageApi.
#[local] Open Scope Z_scope.

(** The bytes of a string literal, without its terminator. *)
Definition lit (s : string) : list Z :=
  (fun c => Z.of_nat (nat_of_ascii c)) <$> list_ascii_of_string s.

Definition SECTOR_SIZE : Z := 512.
Definition RAMDISK_BLOCKS : Z := 1048576.
Definition RAMDISK_PARTITION_START_LBA : Z := 2048.
Definition GPT_HEADER_LBA : Z := 1.
Definition GPT_HEADER_MIN_SIZE : Z := 92.
Definition GPT_MAX_ENTRY_SIZE : Z := 256.
Definition MBR_PARTITION_TABLE_OFFSET : nat := 446.
Definition MBR_PARTITION_ENTRY_SIZE : nat := 16.
Definition MBR_SIGNATURE_OFFSET : nat := 510.
Definition MBR_PARTITION_ALIGNMENT_LBA : Z := 2048.
Definition STORAGE_MAX_BLOCK_DEVICES : nat := 8.
Definition STORAGE_MAX_PARTITIONS : nat := 16.
Definition STORAGE_MAX_MOUNTS : nat := 26.

(** ** Data *)

(** [ramdisk_mbr] and the used slots of [ramdisk_overlay]. *)
Record ramdisk_t : Type := Ramdisk {
  ramdisk_mbr : list Z;
  ramdisk_overlay : gmap Z (list Z)
}.

Definition zero_device : block_device := BlockDevice false (replicate 8 0) 0 0 None None 0.
Definition zero_partition : partition := Partition false (replicate 12 0) 0 0 0 0 0 (replicate 8 0).
Definition zero_mount : mount := Mount false 0 0 (replicate 12 0) (replicate 8 0).
Definition zero_sector : list Z := replicate 512 0.

(** What the rest of the kernel supplies: the drivers outside storage.c. A
    read gives the bytes copied to the buffer, or [None] for a non-zero
    status; a write gives its success and the new device state. *)
Class ExtDrivers (E : Type) : Type := {
  ext_read : Z -> Z -> E -> Z -> Z -> option (list Z);
  ext_write : Z -> Z -> E -> Z -> Z -> list Z -> bool * E
}.

(** The static variables of storage.c, with the state [ext] of the other
    drivers. *)
Record storage (E : Type) : Type := Storage {
  block_devices : list block_device;
  partitions : list partition;
  mounts : list mount;
  block_device_count : Z;
  partition_count : Z;
  ramdisk : ramdisk_t;
  ext : E
}.
Arguments Storage {E}.
Arguments block_devices {E}.
Arguments partitions {E}.
Arguments mounts {E}.
Arguments block_device_count {E}.
Arguments partition_count {E}.
Arguments ramdisk {E}.
Arguments ext {E}.

(** ** Pure helpers *)

Definition read_le64 (p : list Z) : Z :=
  Z.lor (Z.lor (Z.lor (Z.lor (Z.lor (Z.lor (Z.lor
    (byte_at p 0) (Z.shiftl (byte_at p 1) 8)) (Z.shiftl (byte_at p 2) 16))
    (Z.shiftl (byte_at p 3) 24)) (Z.shiftl (byte_at p 4) 32)) (Z.shiftl (byte_at p 5) 40))
    (Z.shiftl (byte_at p 6) 48)) (Z.shiftl (byte_at p 7) 56).

Definition fs_hint_from_mbr_type (type : Z) : list Z :=
  if existsb (Z.eqb type) [0x01; 0x04; 0x06; 0x0B; 0x0C; 0x0E] then lit "fat"
  else if type =? 0x07 then lit "ntfs"
  else if type =? 0x83 then lit "linux"
  else if type =? 0x99 then lit "lainfs"
  else if type =? 0xEE then lit "gpt"
  else lit "raw".

Definition mem_eq (a b : list Z) (size : nat) : bool :=
  forallb (fun i => byte_at a i =? byte_at b i) (seq 0 size).

Definition region_is_zero (p : list Z) (size : nat) : bool :=
  forallb (fun i => byte_at p i =? 0) (seq 0 size).

(** Overwrite the first bytes of a buffer. *)
Definition blit (new dst : list Z) : list Z := new ++ drop (length new) dst.

Definition make_partition_name (dst device_name : list Z) (partition_number : Z) : list Z :=
  blit (take 7 (cstr device_name) ++ [112; u8 (48 + partition_number); 0]) dst.

Definition partition_range_valid (dev : block_device) (start_lba block_count : Z) : bool :=
  if (start_lba =? 0) || (block_count =? 0) || (bd_block_count dev <=? start_lba) then false
  else block_count <=? bd_block_count dev - start_lba.

(** ** Ramdisk *)

Definition create_demo_mbr : list Z :=
  let entry := [0x80; 0; 0; 0; 0x99; 0; 0; 0]
               ++ write_le32 RAMDISK_PARTITION_START_LBA
               ++ write_le32 (RAMDISK_BLOCKS - RAMDISK_PARTITION_START_LBA) in
  replicate 446 0 ++ entry ++ replicate 48 0 ++ [0x55; 0xAA].

Definition find_ramdisk_overlay (rd : ramdisk_t) (lba : Z) (create_if_missing : bool) : option (list Z) * ramdisk_t :=
  if RAMDISK_BLOCKS <=? lba then (None, rd)
  else match ramdisk_overlay rd !! lba with
       | Some data => (Some data, rd)
       | None =>
           if create_if_missing
           then (Some zero_sector, Ramdisk (ramdisk_mbr rd) (<[lba := zero_sector]> (ramdisk_overlay rd)))
           else (None, rd)
       end.

(** The sector [ramdisk_read] copies for one block. *)
Definition ramdisk_sector (rd : ramdisk_t) (lba : Z) : list Z :=
  if lba =? 0 then ramdisk_mbr rd
  else match fst (find_ramdisk_overlay rd lba false) with
       | Some data => data
       | None => zero_sector
       end.

Definition ramdisk_read (rd : ramdisk_t) (lba count : Z) : option (list Z) :=
  if count =? 0 then Some []
  else if RAMDISK_BLOCKS <? u64 (lba + count) then None
  else Some (concat ((fun i => ramdisk_sector rd (u64 (lba + i))) <$> seqZ 0 count)).

Fixpoint ramdisk_write_loop (n : nat) (rd : ramdisk_t) (lba : Z) (bs : list Z) : bool * ramdisk_t :=
  match n with
  | O => (true, rd)
  | S n' =>
      let src := take 512 bs in
      if lba =? 0 then ramdisk_write_loop n' (Ramdisk src (ramdisk_overlay rd)) (u64 (lba + 1)) (drop 512 bs)
      else match find_ramdisk_overlay rd lba true with
           | (None, rd') => (false, rd')
           | (Some _, rd') =>
               ramdisk_write_loop n' (Ramdisk (ramdisk_mbr rd') (<[lba := src]> (ramdisk_overlay rd')))
                                  (u64 (lba + 1)) (drop 512 bs)
           end
  end.

Definition ramdisk_write (rd : ramdisk_t) (lba count : Z) (bs : list Z) : bool * ramdisk_t :=
  if count =? 0 then (true, rd)
  else if RAMDISK_BLOCKS <? u64 (lba + count) then (false, rd)
  else ramdisk_write_loop (Z.to_nat count) rd lba bs.

(** ** Operations *)

Section operations.
Context {E : Type} `{!ExtDrivers E}.
Implicit Types st : storage E.

Definition set_partitions st ps n : storage E :=
  Storage (block_devices st) ps (mounts st) (block_device_count st) n (ramdisk st) (ext st).
Definition set_mounts st ms : storage E :=
  Storage (block_devices st) (partitions st) ms (block_device_count st) (partition_count st) (ramdisk st) (ext st).
Definition set_devices st ds n : storage E :=
  Storage ds (partitions st) (mounts st) n (partition_count st) (ramdisk st) (ext st).
Definition set_ramdisk st rd : storage E :=
  Storage (block_devices st) (partitions st) (mounts st) (block_device_count st) (partition_count st) rd (ext st).
Definition set_ext st e : storage E :=
  Storage (block_devices st) (partitions st) (mounts st) (block_device_count st) (partition_count st) (ramdisk st) e.

Definition device_at st (index : Z) : block_device :=
  default zero_device (block_devices st !! Z.to_nat index).
Definition partition_at st (index : Z) : partition :=
  default zero_partition (partitions st !! Z.to_nat index).

(** [dev->read(dev->ctx, lba, count, buffer)] *)
Definition dev_read st (dev : block_device) (lba count : Z) : option (list Z) :=
  match bd_read dev with
  | None => None
  | Some drv_ramdisk => ramdisk_read (ramdisk st) lba count
  | Some (drv_ext id) => ext_read id (bd_ctx dev) (ext st) lba count
  end.

(** [dev->write(dev->ctx, lba, count, buffer)] *)
Definition dev_write (dev : block_device) (lba count : Z) (bs : list Z) : M (storage E) unit := fun st =>
  match bd_write dev with
  | None => (inl (-1), st)
  | Some drv_ramdisk =>
      let '(ok, rd) := ramdisk_write (ramdisk st) lba count bs in
      (if ok then inr tt else inl (-1), set_ramdisk st rd)
  | Some (drv_ext id) =>
      let '(ok, e) := ext_write id (bd_ctx dev) (ext st) lba count bs in
      (if ok then inr tt else inl (-1), set_ext st e)
  end.

Definition storage_register_block_device (name : list Z) (block_size block_count : Z)
    (read write : option driver) (ctx : Z) : M (storage E) unit := fun st =>
  if Z.of_nat STORAGE_MAX_BLOCK_DEVICES <=? block_device_count st then (inl (-1), st)
  else
    let i := block_device_count st in
    let old := device_at st i in
    let dev := BlockDevice true (copy_str (bd_name old) name 8) block_size block_count read write ctx in
    (inr tt, set_devices st (<[Z.to_nat i := dev]> (block_devices st)) (i + 1)).

Definition storage_read_block_device st (device_index lba count : Z) : option (list Z) :=
  if (block_device_count st <=? device_index) || negb (bd_present (device_at st device_index)) then None
  else
    let dev := device_at st device_index in
    if (match bd_read dev with None => true | Some _ => false end) ||
       (bd_block_count dev <? u64 (lba + count)) then None
    else dev_read st dev lba count.

Definition storage_write_block_device (device_index lba count : Z) (bs : list Z) : M (storage E) unit := fun st =>
  if (block_device_count st <=? device_index) || negb (bd_present (device_at st device_index)) then (inl (-1), st)
  else
    let dev := device_at st device_index in
    if (match bd_write dev with None => true | Some _ => false end) ||
       (bd_block_count dev <? u64 (lba + count)) then (inl (-1), st)
    else dev_write dev lba count bs st.

Definition detect_fs_hint st (device_index start_lba block_count mbr_type : Z) : list Z :=
  if negb (mbr_type =? 0x99) then fs_hint_from_mbr_type mbr_type
  else if block_count =? 0 then lit "raw"
  else match storage_read_block_device st device_index start_lba 1 with
       | None => lit "raw"
       | Some sector =>
           if (read_le32 sector =? 0x4E49414C) && (read_le32 (drop 4 sector) =? 0x00315346)
           then lit "lainfs" else lit "raw"
       end.

Definition register_partition (device_index partition_number start_lba block_count mbr_type : Z) st : storage E :=
  if Z.of_nat STORAGE_MAX_PARTITIONS <=? partition_count st then st
  else
    let dev := device_at st device_index in
    if negb (partition_range_valid dev start_lba block_count) then st
    else
      let i := partition_count st in
      let old := partition_at st i in
      let part := Partition true (make_partition_name (pt_name old) (bd_name dev) partition_number)
                    device_index partition_number start_lba block_count mbr_type
                    (copy_str (pt_fs_hint old) (detect_fs_hint st device_index start_lba block_count mbr_type) 8) in
      set_partitions st (<[Z.to_nat i := part]> (partitions st)) (i + 1).

Definition storage_get_block_device st (index : Z) : option block_device :=
  if (block_device_count st <=? index) || negb (bd_present (device_at st index)) then None
  else Some (device_at st index).

Definition storage_find_block_device st (name : list Z) : option (Z * block_device) :=
  let live := take (Z.to_nat (block_device_count st)) (block_devices st) in
  i ← find_index (fun d => bd_present d && str_eq (bd_name d) name) live;
  Some (Z.of_nat i, device_at st (Z.of_nat i)).

Definition storage_block_device_count st : Z := block_device_count st.
Definition storage_partition_count st : Z := partition_count st.

Definition storage_get_partition st (index : Z) : option partition :=
  if (partition_count st <=? index) || negb (pt_present (partition_at st index)) then None
  else Some (partition_at st index).

Definition storage_find_partition st (name : list Z) : option (Z * partition) :=
  let live := take (Z.to_nat (partition_count st)) (partitions st) in
  i ← find_index (fun p => pt_present p && str_eq (pt_name p) name) live;
  Some (Z.of_nat i, partition_at st (Z.of_nat i)).

Definition clear_mount (mt : mount) : mount :=
  Mount false (mt_drive_letter mt) 0 (<[0%nat := 0]> (mt_partition_name mt)) (<[0%nat := 0]> (mt_fs_name mt)).

Definition refresh_mount st (mt : mount) : mount :=
  if negb (mt_present mt) then mt
  else match storage_find_partition st (mt_partition_name mt) with
       | None => clear_mount mt
       | Some (partition_index, part) =>
           Mount (mt_present mt) (mt_drive_letter mt) partition_index (mt_partition_name mt)
                 (copy_str (mt_fs_name mt) (pt_fs_hint part) 8)
       end.

Definition refresh_mounts_after_partition_scan st : storage E :=
  set_mounts st (refresh_mount st <$> mounts st).

(** One iteration of the loop over the four MBR entries. *)
Definition discover_mbr_entry (device_index : Z) (sector : list Z) (has_gpt : bool) st (i : nat) : bool * storage E :=
  let entry := drop (MBR_PARTITION_TABLE_OFFSET + i * MBR_PARTITION_ENTRY_SIZE) sector in
  let type := byte_at entry 4 in
  let start_lba := read_le32 (drop 8 entry) in
  let blocks := read_le32 (drop 12 entry) in
  if (type =? 0) || (blocks =? 0) ||
     negb (partition_range_valid (device_at st device_index) start_lba blocks) then (has_gpt, st)
  else ((type =? 0xEE) || has_gpt,
        register_partition device_index (Z.of_nat i + 1) start_lba blocks type st).

Definition discover_mbr_partitions (device_index : Z) st : bool * storage E :=
  let dev := device_at st device_index in
  if negb (bd_present dev) || negb (bd_block_size dev =? SECTOR_SIZE) then (false, st)
  else match dev_read st dev 0 1 with
       | None => (false, st)
       | Some sector =>
           if negb (byte_at sector MBR_SIGNATURE_OFFSET =? 0x55) ||
              negb (byte_at sector (MBR_SIGNATURE_OFFSET + 1) =? 0xAA) then (false, st)
           else fold_left (fun '(g, st) i => discover_mbr_entry device_index sector g st i)
                          [0; 1; 2; 3]%nat (false, st)
       end.

Definition gpt_signature : list Z := lit "EFI PART".

(** The loop over the GPT entries from entry [i] on, [n] entries left. *)
Fixpoint discover_gpt_loop (n : nat) (i : Z) (device_index entry_lba entry_size : Z) st : storage E :=
  match n with
  | O => st
  | S n' =>
      let dev := device_at st device_index in
      let byte_offset := u64 (i * entry_size) in
      let sector_lba := u64 (entry_lba + byte_offset / SECTOR_SIZE) in
      let sector_offset := u32 (byte_offset mod SECTOR_SIZE) in
      if Z.of_nat STORAGE_MAX_PARTITIONS <=? partition_count st then st
      else if bd_block_count dev <=? sector_lba then st
      else if SECTOR_SIZE <? u32 (sector_offset + entry_size) then st
      else match dev_read st dev sector_lba 1 with
           | None => st
           | Some entry_sector =>
               let entry := take (Z.to_nat entry_size) (drop (Z.to_nat sector_offset) entry_sector) in
               let continue := discover_gpt_loop n' (i + 1) device_index entry_lba entry_size in
               let start_lba := read_le64 (drop 32 entry) in
               let end_lba := read_le64 (drop 40 entry) in
               if region_is_zero entry 16 then continue st
               else if (start_lba =? 0) || (end_lba <? start_lba) ||
                       negb (partition_range_valid dev start_lba (u64 (end_lba - start_lba + 1)))
               then continue st
               else continue (register_partition device_index (i + 1) start_lba
                                (u64 (end_lba - start_lba + 1)) 0xEE st)
           end
  end.

Definition discover_gpt_partitions (device_index : Z) st : storage E :=
  let dev := device_at st device_index in
  if negb (bd_present dev) || negb (bd_block_size dev =? SECTOR_SIZE) ||
     (bd_block_count dev <=? GPT_HEADER_LBA) then st
  else match dev_read st dev GPT_HEADER_LBA 1 with
       | None => st
       | Some header =>
           if negb (mem_eq header gpt_signature 8) || (read_le32 (drop 12 header) <? GPT_HEADER_MIN_SIZE) then st
           else
             let entry_lba := read_le64 (drop 72 header) in
             let entry_count := read_le32 (drop 80 header) in
             let entry_size := read_le32 (drop 84 header) in
             if (entry_lba =? 0) || (bd_block_count dev <=? entry_lba) || (16384 <? entry_count) ||
                (entry_size <? 128) || (GPT_MAX_ENTRY_SIZE <? entry_size) then st
             else discover_gpt_loop (Z.to_nat entry_count) 0 device_index entry_lba entry_size st
       end.

(** [while (partition_count > partition_start) { --partition_count; partitions\[partition_count\].present = 0; }] *)
Definition drop_partitions_from (partition_start : Z) st : storage E :=
  let hide i p := if (partition_start <=? Z.of_nat i) && (Z.of_nat i <? partition_count st)
                  then Partition false (pt_name p) (pt_device_index p) (pt_partition_number p)
                         (pt_start_lba p) (pt_block_count p) (pt_mbr_type p) (pt_fs_hint p)
                  else p in
  if partition_start <? partition_count st
  then set_partitions st (imap hide (partitions st)) partition_start
  else st.

Definition discover_device st (i : Z) : storage E :=
  let partition_start := partition_count st in
  let '(gpt, st1) := discover_mbr_partitions i st in
  if gpt then discover_gpt_partitions i (drop_partitions_from partition_start st1) else st1.

Definition storage_discover_partitions st : storage E :=
  let st0 := set_partitions st (partitions st) 0 in
  refresh_mounts_after_partition_scan
    (fold_left discover_device (seqZ 0 (block_device_count st)) st0).

(** [storage_init]. The outcome of [ata_probe] on the second ATA disk and the
    devices [ahci_init] registers come from hardware and are arguments. *)
Definition storage_init (ata_present : bool) (ahci_init : storage E -> storage E) (e : E) : storage E :=
  let st0 := Storage (replicate STORAGE_MAX_BLOCK_DEVICES zero_device)
                     (replicate STORAGE_MAX_PARTITIONS zero_partition)
                     (replicate STORAGE_MAX_MOUNTS zero_mount) 0 0
                     (Ramdisk create_demo_mbr ∅) e in
  let st1 := snd (storage_register_block_device (lit "rd0") SECTOR_SIZE RAMDISK_BLOCKS
                    (Some drv_ramdisk) (Some drv_ramdisk) 0 st0) in
  let st2 := if ata_present
             then snd (storage_register_block_device (lit "hd1") SECTOR_SIZE 131072
                         (Some (drv_ext 0)) (Some (drv_ext 0)) 1 st1)
             else st1 in
  storage_discover_partitions (ahci_init st2).

Definition storage_mount (drive_letter : Z) (partition_name : list Z) : M (storage E) unit := fun st =>
  match storage_find_partition st partition_name with
  | None => (inl (-1), st)
  | Some (partition_index, part) =>
      let letter := to_upper drive_letter in
      if (letter <? 67) || (90 <? letter) then (inl (-2), st)
      else
        let mi := Z.to_nat (letter - 65) in
        let old := default zero_mount (mounts st !! mi) in
        (inr tt, set_mounts st (<[mi := Mount true letter partition_index
                                          (copy_str (mt_partition_name old) (pt_name part) 12)
                                          (copy_str (mt_fs_name old) (pt_fs_hint part) 8)]> (mounts st)))
  end.

Definition on_device st (device_index : Z) (mt : mount) : bool :=
  match storage_get_partition st (mt_partition_index mt) with
  | Some part => pt_device_index part =? device_index
  | None => false
  end.

Definition storage_unmount_block_device (device_index : Z) st : storage E :=
  set_mounts st ((fun mt => if mt_present mt && on_device st device_index mt then clear_mount mt else mt)
                   <$> mounts st).

Definition storage_get_mount_by_drive st (drive_letter : Z) : option mount :=
  let letter := to_upper drive_letter in
  if (letter <? 65) || (90 <? letter) then None
  else mt ← mounts st !! Z.to_nat (letter - 65);
       if mt_present mt then Some mt else None.

Definition storage_get_mount st (index : Z) : option mount :=
  if Z.of_nat STORAGE_MAX_MOUNTS <=? index then None
  else mt ← mounts st !! Z.to_nat index;
       if mt_present mt then Some mt else None.

Definition storage_drive_is_mounted st (drive_letter : Z) : bool :=
  match storage_get_mount_by_drive st drive_letter with Some _ => true | None => false end.

Definition storage_read_partition st (partition_index lba count : Z) : option (list Z) :=
  if (partition_count st <=? partition_index) || negb (pt_present (partition_at st partition_index)) then None
  else
    let part := partition_at st partition_index in
    if pt_block_count part <? u64 (lba + count) then None
    else
      let dev := device_at st (pt_device_index part) in
      if negb (bd_present dev) || (match bd_read dev with None => true | Some _ => false end) then None
      else dev_read st dev (u64 (pt_start_lba part + lba)) count.

Definition storage_write_partition (partition_index lba count : Z) (bs : list Z) : M (storage E) unit := fun st =>
  if (partition_count st <=? partition_index) || negb (pt_present (partition_at st partition_index))
  then (inl (-1), st)
  else
    let part := partition_at st partition_index in
    if pt_block_count part <? u64 (lba + count) then (inl (-1), st)
    else
      let dev := device_at st (pt_device_index part) in
      if negb (bd_present dev) || (match bd_write dev with None => true | Some _ => false end) then (inl (-1), st)
      else dev_write dev (u64 (pt_start_lba part + lba)) count bs st.

Definition storage_partition_is_writable st (partition_index : Z) : bool :=
  if (partition_count st <=? partition_index) || negb (pt_present (partition_at st partition_index)) then false
  else
    let dev := device_at st (pt_device_index (partition_at st partition_index)) in
    bd_present dev && (match bd_write dev with None => false | Some _ => true end).

Definition storage_block_device_is_writable st (device_index : Z) : bool :=
  if (block_device_count st <=? device_index) || negb (bd_present (device_at st device_index)) then false
  else match bd_write (device_at st device_index) with None => false | Some _ => true end.

Definition storage_device_has_mounted_partitions st (device_index : Z) : bool :=
  existsb (fun mt => mt_present mt && on_device st device_index mt) (mounts st).

(** The sector [storage_create_mbr_partition] writes to LBA 0. *)
Definition mbr_sector (mbr_type usable_blocks : Z) : list Z :=
  replicate 446 0 ++
  ([0; 0; 0; 0; mbr_type; 0; 0; 0]
     ++ write_le32 MBR_PARTITION_ALIGNMENT_LBA ++ write_le32 (u32 usable_blocks))
  ++ replicate 48 0 ++ [0x55; 0xAA].

Definition storage_create_mbr_partition (device_index mbr_type : Z) : M (storage E) Z :=
  dev ← gets (fun st => storage_get_block_device st device_index);
  dev ← from_option dev (-1);
  guardb (bd_block_size dev =? SECTOR_SIZE) (-1);;
  writable ← gets (fun st => storage_block_device_is_writable st device_index);
  guardb writable (-2);;
  guardb (negb ((bd_block_count dev <=? MBR_PARTITION_ALIGNMENT_LBA + 64) ||
                (0xFFFFFFFF <? bd_block_count dev - MBR_PARTITION_ALIGNMENT_LBA))) (-4);;
  let usable_blocks := bd_block_count dev - MBR_PARTITION_ALIGNMENT_LBA in
  or_return (storage_write_block_device device_index 0 1 (mbr_sector mbr_type usable_blocks)) (-5);;
  modify storage_discover_partitions;;
  found ← gets (fun st => storage_find_partition st (make_partition_name (replicate 12 0) (bd_name dev) 1));
  found ← from_option found (-6);
  mret (fst found).

End operations.
