(* ===== verification/StorageSpec.v ===== *)
(** What storage.c guarantees: the ramdisk is a faithful block device,
    partitions found on disk lie inside their device, partition I/O stays
    inside the partition, and the interface laws of [StorageLaws] hold. *)
From Stdlib Require Import ZArith Lia Ascii String.
From stdpp Require Import base tactics option list numbers gmap.
From S2P Require Import Prelude.
From S2P Require Import StorageApi.
From S2P Require Import Storage.
#[local] Open Scope Z_scope.

(** ** The ramdisk *)

Record ramdisk_ok (rd : ramdisk_t) : Prop := {
  rok_mbr : length (ramdisk_mbr rd) = 512%nat /\ bytes (ramdisk_mbr rd);
  rok_overlay : map_Forall (fun _ d => length d = 512%nat /\ bytes d) (ramdisk_overlay rd)
}.

Lemma zero_sector_ok : length zero_sector = 512%nat /\ bytes zero_sector.
Proof. split; [done|]. apply Forall_replicate. cint. Qed.

Lemma ramdisk_sector_ok rd lba : ramdisk_ok rd ->
  length (ramdisk_sector rd lba) = 512%nat /\ bytes (ramdisk_sector rd lba).
Proof.
  intros [Hm Ho]. unfold ramdisk_sector, find_ramdisk_overlay.
  destruct (lba =? 0); [done|]. destruct (RAMDISK_BLOCKS <=? lba); [apply zero_sector_ok|].
  destruct (ramdisk_overlay rd !! lba) eqn:E; simpl; [|apply zero_sector_ok].
  apply (Ho _ _ E).
Qed.

(** Storing one sector. *)
Definition ramdisk_put (rd : ramdisk_t) (lba : Z) (src : list Z) : ramdisk_t :=
  if lba =? 0 then Ramdisk src (ramdisk_overlay rd)
  else Ramdisk (ramdisk_mbr rd) (<[lba := src]> (ramdisk_overlay rd)).

Lemma ramdisk_write_step n rd lba bs : 0 <= lba < RAMDISK_BLOCKS ->
  ramdisk_write_loop (S n) rd lba bs =
  ramdisk_write_loop n (ramdisk_put rd lba (take 512 bs)) (u64 (lba + 1)) (drop 512 bs).
Proof.
  intros Hl. simpl. unfold ramdisk_put, find_ramdisk_overlay.
  destruct (lba =? 0); [done|].
  destruct (RAMDISK_BLOCKS <=? lba) eqn:E; bool_prop; [lia|].
  destruct (ramdisk_overlay rd !! lba); simpl; [done|].
  by rewrite insert_insert_eq.
Qed.

Lemma ramdisk_put_ok rd lba src : ramdisk_ok rd -> length src = 512%nat -> bytes src ->
  ramdisk_ok (ramdisk_put rd lba src).
Proof.
  intros [Hm Ho] Hl Hb. unfold ramdisk_put. destruct (lba =? 0); split; simpl; auto.
  by apply map_Forall_insert_2.
Qed.

Lemma ramdisk_sector_put rd lba src l : 0 <= lba < RAMDISK_BLOCKS ->
  ramdisk_sector (ramdisk_put rd lba src) l = if decide (l = lba) then src else ramdisk_sector rd l.
Proof.
  intros Hl. unfold ramdisk_sector, ramdisk_put, find_ramdisk_overlay.
  destruct (decide (l = lba)) as [->|Hne].
  - destruct (lba =? 0) eqn:E; [done|]. simpl.
    destruct (RAMDISK_BLOCKS <=? lba) eqn:E2; bool_prop; [lia|]. by rewrite lookup_insert_eq.
  - destruct (lba =? 0) eqn:E, (l =? 0) eqn:E1; simpl; bool_prop; try lia; try done.
    all: destruct (RAMDISK_BLOCKS <=? l); [done|].
    all: rewrite ?lookup_insert_ne by done; destruct (ramdisk_overlay rd !! l); done.
Qed.

Lemma ramdisk_write_loop_spec n rd lba bs : ramdisk_ok rd ->
  0 <= lba -> lba + Z.of_nat n <= RAMDISK_BLOCKS -> length bs = (512 * n)%nat -> bytes bs ->
  exists rd', ramdisk_write_loop n rd lba bs = (true, rd') /\ ramdisk_ok rd' /\
    forall l, ramdisk_sector rd' l =
      if decide (lba <= l < lba + Z.of_nat n)
      then take 512 (drop (512 * Z.to_nat (l - lba)) bs) else ramdisk_sector rd l.
Proof.
  revert rd lba bs. induction n as [|n IH]; intros rd lba bs Hok Hl Hn Hlen Hb.
  - exists rd. split_and!; [done..|]. intros l. rewrite decide_False by lia. done.
  - rewrite ramdisk_write_step by lia.
    assert (RAMDISK_BLOCKS = 1048576) by done.
    rewrite u64_small by cint.
    destruct (IH (ramdisk_put rd lba (take 512 bs)) (lba + 1) (drop 512 bs)) as (rd' & Hw & Hok' & Hs).
    + apply ramdisk_put_ok; [done| |by apply Forall_take]. rewrite length_take. lia.
    + lia.
    + lia.
    + rewrite length_drop. lia.
    + by apply Forall_drop.
    + exists rd'. split_and!; [done..|]. intros l. rewrite Hs, ramdisk_sector_put by lia.
      rewrite drop_drop. repeat case_decide; subst; try lia; try done.
      * do 2 f_equal. lia.
      * by rewrite Z.sub_diag, drop_0.
Qed.

Lemma ramdisk_write_spec rd lba n bs : ramdisk_ok rd ->
  0 <= lba -> 0 <= n -> lba + n <= RAMDISK_BLOCKS -> length bs = (512 * Z.to_nat n)%nat -> bytes bs ->
  exists rd', ramdisk_write rd lba n bs = (true, rd') /\ ramdisk_ok rd' /\
    forall l, ramdisk_sector rd' l =
      if decide (lba <= l < lba + n)
      then take 512 (drop (512 * Z.to_nat (l - lba)) bs) else ramdisk_sector rd l.
Proof.
  intros Hok Hl Hn Hr Hlen Hb. unfold ramdisk_write. assert (RAMDISK_BLOCKS = 1048576) by done.
  destruct (n =? 0) eqn:E; bool_prop.
  { exists rd. split_and!; [done..|]. intros l. rewrite decide_False by lia. done. }
  rewrite u64_small by cint. destruct (RAMDISK_BLOCKS <? lba + n) eqn:E1; bool_prop; [lia|].
  destruct (ramdisk_write_loop_spec (Z.to_nat n) rd lba bs) as (rd' & Hw & Hok' & Hs); try done; [lia|].
  exists rd'. split_and!; [done..|]. intros l. rewrite Hs. rewrite Z2Nat.id by lia. done.
Qed.

Lemma seqZ_shift a n : 0 <= n -> seqZ a n = (fun i => a + i) <$> seqZ 0 n.
Proof.
  intros Hn. apply list_eq. intros i. rewrite list_lookup_fmap.
  destruct (decide (Z.of_nat i < n)).
  - rewrite !lookup_seqZ_lt by lia. simpl. f_equal; lia.
  - rewrite !lookup_seqZ_ge by lia. done.
Qed.

Lemma ramdisk_read_spec rd lba n :
  0 <= lba -> 0 <= n -> lba + n <= RAMDISK_BLOCKS ->
  ramdisk_read rd lba n = Some (concat (ramdisk_sector rd <$> seqZ lba n)).
Proof.
  intros Hl Hn Hr. unfold ramdisk_read. assert (RAMDISK_BLOCKS = 1048576) by done.
  destruct (n =? 0) eqn:E; bool_prop; [by subst|].
  rewrite u64_small by cint. destruct (RAMDISK_BLOCKS <? lba + n) eqn:E1; bool_prop; [lia|].
  do 2 f_equal. rewrite (seqZ_shift lba) by lia. rewrite <- list_fmap_compose.
  apply list_fmap_ext. intros i x Hx%lookup_seqZ. simpl. rewrite u64_small; [done|cint].
Qed.

(** ** Drivers of other files

    What a driver behind the function pointers has to provide for its device:
    [ext_capacity] blocks whose contents reads return and writes replace. *)
Class ExtLaws (E : Type) `{!ExtDrivers E} : Type := {
  ext_ok : E -> Prop;
  ext_capacity : Z -> Z -> Z;
  ext_sector : Z -> Z -> E -> Z -> list Z;
  ext_sector_ok id ctx e lba : ext_ok e -> 0 <= lba < ext_capacity id ctx ->
    length (ext_sector id ctx e lba) = 512%nat /\ bytes (ext_sector id ctx e lba);
  ext_read_law id ctx e lba n : ext_ok e -> 0 <= lba -> 0 <= n -> lba + n <= ext_capacity id ctx ->
    ext_read id ctx e lba n = Some (concat (ext_sector id ctx e <$> seqZ lba n));
  ext_write_law id ctx e lba n bs : ext_ok e -> 0 <= lba -> 0 <= n -> lba + n <= ext_capacity id ctx ->
    length bs = (512 * Z.to_nat n)%nat -> bytes bs ->
    exists e', ext_write id ctx e lba n bs = (true, e') /\ ext_ok e' /\
      forall id' ctx' l, ext_sector id' ctx' e' l =
        if decide (id' = id /\ ctx' = ctx /\ lba <= l < lba + n)
        then take 512 (drop (512 * Z.to_nat (l - lba)) bs) else ext_sector id' ctx' e l
}.

(** A machine with no further drivers: only the ramdisk. *)
#[export] Instance no_ext : ExtDrivers unit := {
  ext_read := fun _ _ _ _ _ => None;
  ext_write := fun _ _ e _ _ _ => (false, e)
}.

Section laws.
Context {E : Type} `{!ExtDrivers E, !ExtLaws E}.
Implicit Types (st : storage E) (dev : block_device).

(** *** Devices *)

Definition drv_capacity (d : driver) (ctx : Z) : Z :=
  match d with drv_ramdisk => RAMDISK_BLOCKS | drv_ext id => ext_capacity id ctx end.

Definition drv_sector st (d : driver) (ctx lba : Z) : list Z :=
  match d with
  | drv_ramdisk => ramdisk_sector (ramdisk st) lba
  | drv_ext id => ext_sector id ctx (ext st) lba
  end.

(** Two (driver, context) pairs name the same device. *)
Definition same_device (d1 : driver) (c1 : Z) (d2 : driver) (c2 : Z) : Prop :=
  d1 = d2 /\ (d1 = drv_ramdisk \/ c1 = c2).

#[export] Instance same_device_dec d1 c1 d2 c2 : Decision (same_device d1 c1 d2 c2).
Proof. unfold same_device. apply _. Defined.

Definition media_ok st : Prop := ramdisk_ok (ramdisk st) /\ ext_ok (ext st).

Definition same_media_tables st st' : Prop :=
  block_devices st' = block_devices st /\ partitions st' = partitions st /\
  mounts st' = mounts st /\ block_device_count st' = block_device_count st /\
  partition_count st' = partition_count st.

Lemma dev_write_tables dev lba n bs st r st' :
  dev_write dev lba n bs st = (r, st') -> same_media_tables st st'.
Proof.
  unfold dev_write. intros H. repeat case_match; simplify_eq; done.
Qed.

Lemma dev_read_spec st dev d lba n : media_ok st -> bd_read dev = Some d ->
  0 <= lba -> 0 <= n -> lba + n <= drv_capacity d (bd_ctx dev) ->
  dev_read st dev lba n = Some (concat (drv_sector st d (bd_ctx dev) <$> seqZ lba n)).
Proof.
  intros [Hr He] Hd Hl Hn Hc. unfold dev_read. rewrite Hd. destruct d; simpl in *.
  - by apply ramdisk_read_spec.
  - by apply ext_read_law.
Qed.

Lemma drv_sector_ok st d ctx lba : media_ok st -> 0 <= lba < drv_capacity d ctx ->
  length (drv_sector st d ctx lba) = 512%nat /\ bytes (drv_sector st d ctx lba).
Proof.
  intros [Hr He] Hl. destruct d; simpl in *.
  - by apply ramdisk_sector_ok.
  - by apply ext_sector_ok.
Qed.

Lemma dev_write_spec st dev d lba n bs : media_ok st -> bd_write dev = Some d ->
  0 <= lba -> 0 <= n -> lba + n <= drv_capacity d (bd_ctx dev) ->
  length bs = (512 * Z.to_nat n)%nat -> bytes bs ->
  exists st', dev_write dev lba n bs st = (inr tt, st') /\ media_ok st' /\
    forall d' ctx' l, drv_sector st' d' ctx' l =
      if decide (same_device d' ctx' d (bd_ctx dev) /\ lba <= l < lba + n)
      then take 512 (drop (512 * Z.to_nat (l - lba)) bs) else drv_sector st d' ctx' l.
Proof.
  intros [Hr He] Hd Hl Hn Hc Hlen Hb. unfold dev_write. rewrite Hd.
  destruct d as [|id]; cbn in *.
  - destruct (ramdisk_write_spec (ramdisk st) lba n bs) as (rd' & -> & Hok & Hs); try done.
    exists (set_ramdisk st rd'). split_and!; [done|done|].
    intros d' ctx' l. case_decide as Hdec.
    + destruct Hdec as [[-> _] Hr']. cbn. by rewrite Hs, decide_True.
    + destruct d' as [|id']; cbn; [|done]. rewrite Hs, decide_False; [done|].
      intros ?. apply Hdec. split; [split; auto|done].
  - destruct (ext_write_law id (bd_ctx dev) (ext st) lba n bs) as (e' & -> & Hok & Hs); try done.
    exists (set_ext st e'). split_and!; [done|done|].
    intros d' ctx' l. case_decide as Hdec.
    + destruct Hdec as [[-> [? | ->]] Hr']; [done|]. cbn. by rewrite Hs, decide_True.
    + destruct d' as [|id']; cbn; [done|]. rewrite Hs, decide_False; [done|].
      intros (-> & -> & ?). apply Hdec. split; [split; auto|done].
Qed.

(** *** Partitions *)

Lemma partition_in_table st p part : storage_get_partition st p = Some part ->
  p < partition_count st /\ pt_present part = true /\ partition_at st p = part.
Proof.
  unfold storage_get_partition. intros H. case_match; simplify_eq. bool_prop. auto.
Qed.

(** The range of partition [p] lies in its device, which has a driver that
    serves it. *)
Definition part_live st (p : Z) : Prop :=
  exists part d, storage_get_partition st p = Some part /\
    let dev := device_at st (pt_device_index part) in
    bd_present dev = true /\ bd_read dev = Some d /\ bd_write dev = Some d /\
    0 <= pt_start_lba part /\ 0 <= pt_block_count part /\
    pt_start_lba part + pt_block_count part <= drv_capacity d (bd_ctx dev) /\
    pt_start_lba part + pt_block_count part < 2 ^ 63 /\ 0 <= p.

Definition part_driver st (p : Z) : driver :=
  default drv_ramdisk (bd_read (device_at st (pt_device_index (partition_at st p)))).
Definition part_ctx st (p : Z) : Z := bd_ctx (device_at st (pt_device_index (partition_at st p))).

Definition part_sector st (p lba : Z) : list Z :=
  drv_sector st (part_driver st p) (part_ctx st p) (pt_start_lba (partition_at st p) + lba).

(** Partitions on different devices, or with disjoint block ranges. *)
Definition part_disjoint st (p q : Z) : Prop :=
  ~ same_device (part_driver st q) (part_ctx st q) (part_driver st p) (part_ctx st p) \/
  pt_start_lba (partition_at st p) + pt_block_count (partition_at st p) <= pt_start_lba (partition_at st q) \/
  pt_start_lba (partition_at st q) + pt_block_count (partition_at st q) <= pt_start_lba (partition_at st p).

Lemma tables_partition st st' : same_media_tables st st' ->
  (forall p, storage_get_partition st' p = storage_get_partition st p) /\
  (forall p, partition_at st' p = partition_at st p) /\
  (forall i, device_at st' i = device_at st i) /\
  (forall p, part_driver st' p = part_driver st p) /\
  (forall p, part_ctx st' p = part_ctx st p) /\
  (forall p, part_live st' p <-> part_live st p) /\
  (forall p q, part_disjoint st' p q <-> part_disjoint st p q).
Proof.
  intros (H1 & H2 & H3 & H4 & H5).
  unfold part_live, part_disjoint, part_driver, part_ctx, storage_get_partition, partition_at, device_at.
  rewrite H1, H2, H5. done.
Qed.

Lemma write_partition_tables p lba n bs st r st' :
  storage_write_partition p lba n bs st = (r, st') -> same_media_tables st st'.
Proof.
  unfold storage_write_partition. intros H.
  repeat case_match; simplify_eq; try done; eauto using dev_write_tables.
Qed.

Lemma read_partition_dev st p part lba n : part_live st p -> storage_get_partition st p = Some part ->
  0 <= lba -> 0 <= n -> lba + n <= pt_block_count part ->
  storage_read_partition st p lba n =
  dev_read st (device_at st (pt_device_index part)) (pt_start_lba part + lba) n.
Proof.
  intros (part' & d & Hp & Hpr & Hrd & Hwr & Hs & Hb & Hc & Hmax) Hg Hl Hn Hle.
  assert (part' = part) as -> by congruence.
  destruct (partition_in_table _ _ _ Hg) as (Hlt & Hpres & Hat).
  unfold storage_read_partition. rewrite Hat, Hpres, Hpr, Hrd. simpl.
  destruct (partition_count st <=? p) eqn:E1; bool_prop; [lia|]. simpl.
  rewrite !u64_small by cint.
  destruct (pt_block_count part <? lba + n) eqn:E2; bool_prop; [lia|done].
Qed.

Lemma write_partition_dev st p part lba n bs : part_live st p -> storage_get_partition st p = Some part ->
  0 <= lba -> 0 <= n -> lba + n <= pt_block_count part ->
  storage_write_partition p lba n bs st =
  dev_write (device_at st (pt_device_index part)) (pt_start_lba part + lba) n bs st.
Proof.
  intros (part' & d & Hp & Hpr & Hrd & Hwr & Hs & Hb & Hc & Hmax) Hg Hl Hn Hle.
  assert (part' = part) as -> by congruence.
  destruct (partition_in_table _ _ _ Hg) as (Hlt & Hpres & Hat).
  unfold storage_write_partition. rewrite Hat, Hpres, Hpr, Hwr. simpl.
  destruct (partition_count st <=? p) eqn:E1; bool_prop; [lia|]. simpl.
  rewrite !u64_small by cint.
  destruct (pt_block_count part <? lba + n) eqn:E2; bool_prop; [lia|done].
Qed.

End laws.

(** *** The interface *)

#[export] Instance storage_api {E} `{!ExtDrivers E} : StorageApi (storage E) := {
  api_get_partition := storage_get_partition;
  api_find_partition := storage_find_partition;
  api_find_block_device := storage_find_block_device;
  api_get_mount_by_drive := storage_get_mount_by_drive;
  api_partition_is_writable := storage_partition_is_writable;
  api_read_partition := storage_read_partition;
  api_write_partition := storage_write_partition;
  api_discover_partitions := storage_discover_partitions;
  api_unmount_block_device := storage_unmount_block_device;
  api_create_mbr_partition := storage_create_mbr_partition
}.

Section discharge.
Context {E : Type} `{!ExtDrivers E, !ExtLaws E}.
Implicit Types st : storage E.

Lemma storage_write_same_tables p lba n bs st r st' :
  storage_write_partition p lba n bs st = (r, st') -> same_tables st st'.
Proof.
  intros Hw%write_partition_tables. destruct (tables_partition _ _ Hw) as (H1 & H2 & H3 & _).
  destruct Hw as (_ & _ & Hm & _ & Hc). split_and!; simpl; [done|..].
  - intros d. unfold storage_get_mount_by_drive. by rewrite Hm.
  - intros q. unfold storage_partition_is_writable. by rewrite Hc, H2, H3.
Qed.

Lemma part_live_geometry st p part : part_live st p -> storage_get_partition st p = Some part ->
  exists d, part_driver st p = d /\ bd_read (device_at st (pt_device_index part)) = Some d /\
    bd_write (device_at st (pt_device_index part)) = Some d /\
    partition_at st p = part /\ part_ctx st p = bd_ctx (device_at st (pt_device_index part)) /\
    0 <= pt_start_lba part /\ 0 <= pt_block_count part < 2 ^ 63 /\
    pt_start_lba part + pt_block_count part <= drv_capacity d (part_ctx st p).
Proof.
  intros (part' & d & Hp & Hpr & Hrd & Hwr & Hs & Hb & Hc & Hmax) Hg.
  assert (part' = part) as -> by congruence.
  destruct (partition_in_table _ _ _ Hg) as (_ & _ & Hat).
  exists d. unfold part_driver, part_ctx. rewrite Hat, Hrd. split_and!; auto; lia.
Qed.

Lemma part_sector_ok st p part lba : media_ok st -> part_live st p ->
  storage_get_partition st p = Some part -> 0 <= lba < pt_block_count part ->
  length (part_sector st p lba) = 512%nat /\ bytes (part_sector st p lba).
Proof.
  intros Hm Hlv Hg Hl. destruct (part_live_geometry _ _ _ Hlv Hg) as (d & Hd & _ & _ & Hat & _ & Hs & Hb & Hc).
  unfold part_sector. apply drv_sector_ok; [done|]. rewrite Hd, Hat. lia.
Qed.

Lemma part_read_spec st p part lba n : media_ok st -> part_live st p ->
  storage_get_partition st p = Some part -> 0 <= lba -> 0 <= n -> lba + n <= pt_block_count part ->
  storage_read_partition st p lba n = Some (concat (part_sector st p <$> seqZ lba n)).
Proof.
  intros Hm Hlv Hg Hl Hn Hle. rewrite (read_partition_dev _ _ part) by done.
  destruct (part_live_geometry _ _ _ Hlv Hg) as (d & Hd & Hrd & _ & Hat & Hctx & Hs & Hb & Hc).
  rewrite (dev_read_spec _ _ d) by (try done; rewrite <- ?Hctx; lia).
  do 2 f_equal. rewrite (seqZ_shift (pt_start_lba part + lba)), (seqZ_shift lba) by lia.
  rewrite <- !list_fmap_compose. apply list_fmap_ext. intros i x _. simpl.
  unfold part_sector. rewrite Hd, Hat, <- Hctx. f_equal. lia.
Qed.

Lemma part_write_spec st p part lba n bs : media_ok st -> part_live st p ->
  storage_get_partition st p = Some part -> 0 <= lba -> 0 <= n -> lba + n <= pt_block_count part ->
  length bs = (512 * Z.to_nat n)%nat -> bytes bs ->
  exists st', storage_write_partition p lba n bs st = (inr tt, st') /\ media_ok st' /\
    (forall q, part_live st' q <-> part_live st q) /\
    (forall q r, part_disjoint st' q r <-> part_disjoint st q r) /\
    (forall l, 0 <= l < pt_block_count part ->
       part_sector st' p l = if decide (lba <= l < lba + n)
                             then take 512 (drop (512 * Z.to_nat (l - lba)) bs)
                             else part_sector st p l) /\
    (forall q partq l, part_live st q -> storage_get_partition st q = Some partq ->
       part_disjoint st p q -> 0 <= l < pt_block_count partq ->
       part_sector st' q l = part_sector st q l).
Proof.
  intros Hm Hlv Hg Hl Hn Hle Hlen Hb.
  destruct (part_live_geometry _ _ _ Hlv Hg) as (d & Hd & Hrd & Hwr & Hat & Hctx & Hs & Hbc & Hc).
  destruct (dev_write_spec st (device_at st (pt_device_index part)) d (pt_start_lba part + lba) n bs)
    as (st' & Hw & Hm' & Hsec); try done; [lia|rewrite <- Hctx; lia|].
  exists st'. rewrite (write_partition_dev _ _ part) by done. split; [done|]. split; [done|].
  destruct (tables_partition _ _ (dev_write_tables _ _ _ _ _ _ _ Hw))
    as (_ & Ht2 & _ & Ht4 & Ht5 & Ht6 & Ht7).
  split_and!; [done..| |].
  - intros l Hl'. unfold part_sector. rewrite Ht2, Ht4, Ht5, Hsec, Hd, Hat, <- Hctx.
    repeat case_decide; try done.
    + do 2 f_equal. lia.
    + lia.
    + exfalso. match goal with Hn : ~ (_ /\ _) |- _ => apply Hn end. split; [split; auto|lia].
  - intros q partq l Hlq Hgq Hdis Hl'. unfold part_sector. rewrite Ht2, Ht4, Ht5, Hsec.
    destruct (part_live_geometry _ _ _ Hlq Hgq) as (dq & Hdq & _ & _ & Hatq & Hctxq & Hsq & Hbq & Hcq).
    rewrite decide_False; [done|]. intros [Hsame Hr].
    unfold part_disjoint in Hdis. rewrite Hatq, Hat, Hd, Hctx in Hdis. rewrite Hatq in Hr.
    destruct Hdis as [Hdis|Hdis]; [done|lia].
Qed.

#[export, refine] Instance storage_laws : StorageLaws (storage E) := {
  st_wf := media_ok;
  st_live := part_live;
  st_disjoint := part_disjoint;
  st_sector := part_sector;
  law_tables := fun s p lba n bs r s' => storage_write_same_tables p lba n bs s r s';
  law_live := _;
  law_sector := part_sector_ok;
  law_read := part_read_spec;
  law_write := part_write_spec
}.
Proof.
  intros s p Hlv. pose proof Hlv as (part & d & Hp & _). exists part. split; [done|].
  destruct (part_live_geometry _ _ _ Hlv Hp) as (? & ? & ? & ? & ? & ? & ? & ? & ?). done.
Defined.
End discharge.

(** With no further drivers the laws of [ExtLaws] hold vacuously. *)
#[export, refine] Instance no_ext_laws : ExtLaws unit := {
  ext_ok := fun _ => True;
  ext_capacity := fun _ _ => -1;
  ext_sector := fun _ _ _ _ => zero_sector
}.
Proof.
  all: intros; lia.
Defined.

(** * Scans: the partitions found on a disk lie inside their device, and the
    mounts that remain point at the partitions they name. *)

Lemma read_le64_nonneg p : bytes p -> 0 <= read_le64 p.
Proof.
  intros Hp. assert (H : forall i, 0 <= byte_at p i) by (intros i; destruct (byte_at_range p i Hp); lia).
  unfold read_le64. repeat (apply Z.lor_nonneg; split); rewrite ?Z.shiftl_nonneg; apply H.
Qed.

Section scan.
Context {E : Type} `{!ExtDrivers E}.
Implicit Types st : storage E.

(** A driver fills the caller's buffer with bytes. *)
Definition driver_bytes st : Prop := forall dev lba n bs, dev_read st dev lba n = Some bs -> bytes bs.

(** A partition inside its device. *)
Record within st (part : partition) : Prop := {
  wi_present : pt_present part = true;
  wi_device : 0 <= pt_device_index part < block_device_count st;
  wi_start : 0 < pt_start_lba part;
  wi_blocks : 0 < pt_block_count part;
  wi_end : pt_start_lba part + pt_block_count part <= bd_block_count (device_at st (pt_device_index part))
}.

Record scan_inv st : Prop := {
  si_length : length (partitions st) = STORAGE_MAX_PARTITIONS;
  si_count : 0 <= partition_count st <= 16;
  si_parts i : 0 <= i < partition_count st -> within st (partition_at st i)
}.

(** The scan changes nothing but the partition table. *)
Record only_parts st st' : Prop := {
  op_devices : block_devices st' = block_devices st;
  op_device_count : block_device_count st' = block_device_count st;
  op_mounts : mounts st' = mounts st;
  op_ramdisk : ramdisk st' = ramdisk st;
  op_ext : ext st' = ext st
}.

#[export] Instance only_parts_pre : PreOrder only_parts.
Proof. split; [by split|]. intros st1 st2 st3 [] []. split; congruence. Qed.

Lemma only_parts_bytes st st' : only_parts st st' -> driver_bytes st -> driver_bytes st'.
Proof.
  intros [H1 H2 H3 H4 H5] Hb dev lba n bs H. apply (Hb dev lba n bs). rewrite <- H. unfold dev_read. by rewrite H4, H5.
Qed.

(** One step of the scan from [st]. *)
Definition scanned st st' : Prop := scan_inv st' /\ only_parts st st' /\ partition_count st <= partition_count st' /\
  forall i, 0 <= i < partition_count st -> partition_at st' i = partition_at st i.

Lemma scanned_refl st : scan_inv st -> scanned st st.
Proof. intros H. split_and!; [done|done|lia|done]. Qed.

Lemma scanned_trans st1 st2 st3 : scanned st1 st2 -> scanned st2 st3 -> scanned st1 st3.
Proof.
  intros (A1 & A2 & A3 & A4) (B1 & B2 & B3 & B4). split_and!; [done|by etrans|lia|].
  intros i Hi. rewrite B4 by lia. by apply A4.
Qed.

Lemma range_valid_spec dev s n : 0 <= s -> 0 <= n -> partition_range_valid dev s n = true -> 0 < s /\ 0 < n /\ s + n <= bd_block_count dev.
Proof.
  intros Hs Hn H. unfold partition_range_valid in H. destruct (_ || _ || _) eqn:E1; [done|]. bool_prop. apply Z.leb_le in H. lia.
Qed.

Lemma register_ok d k s n ty st : scan_inv st -> 0 <= d < block_device_count st -> 0 <= s -> 0 <= n ->
  scanned st (register_partition d k s n ty st).
Proof.
  intros Hi Hd Hs Hn. unfold register_partition. destruct (Z.leb_spec (Z.of_nat STORAGE_MAX_PARTITIONS) (partition_count st)) as [|Hlt];
    [by apply scanned_refl|]. change (Z.of_nat STORAGE_MAX_PARTITIONS) with 16 in Hlt.
  destruct (partition_range_valid _ s n) eqn:Ev; cbn [negb]; [|by apply scanned_refl].
  apply range_valid_spec in Ev as (V1 & V2 & V3); [|done..]. destruct Hi as [I1 I2 I3].
  set (part := Partition _ _ _ _ _ _ _ _). set (st' := set_partitions _ _ _).
  assert (Hnew : forall i, partition_at st' i = if decide (Z.to_nat i = Z.to_nat (partition_count st)) then part else partition_at st i).
  { intros i. unfold partition_at, st'. cbn [partitions set_partitions]. destruct (decide _) as [->|Hne].
    - rewrite list_lookup_insert_eq; [done|]. rewrite I1. unfold STORAGE_MAX_PARTITIONS. lia.
    - by rewrite list_lookup_insert_ne by congruence. }
  assert (Hold : forall i, 0 <= i < partition_count st -> partition_at st' i = partition_at st i).
  { intros i Hi. rewrite Hnew. rewrite decide_False by lia. done. }
  split_and!; [|by split|cbn; lia|done]. split; cbn [st' partitions partition_count set_partitions].
  - by rewrite length_insert.
  - lia.
  - intros i Hi. destruct (decide (i = partition_count st)) as [->|Hne].
    + rewrite Hnew, decide_True by done. by split.
    + rewrite Hold by lia. destruct (I3 i ltac:(lia)) as [W1 W2 W3 W4 W5]. by split.
Qed.

Lemma mbr_entry_ok d sector g st i : scan_inv st -> 0 <= d < block_device_count st -> bytes sector ->
  scanned st (snd (discover_mbr_entry d sector g st i)).
Proof.
  intros Hi Hd Hb. unfold discover_mbr_entry. destruct (_ || _ || _); cbn [snd]; [by apply scanned_refl|].
  apply register_ok; [done|done|..]; (eapply proj1, read_le32_range; by repeat apply bytes_drop).
Qed.

Lemma mbr_ok d st : scan_inv st -> driver_bytes st -> 0 <= d < block_device_count st -> scanned st (snd (discover_mbr_partitions d st)).
Proof.
  intros Hi Hb Hd. unfold discover_mbr_partitions. destruct (_ || _); [by apply scanned_refl|].
  destruct (dev_read _ _ _ _) as [sector|] eqn:Er; [|by apply scanned_refl]. specialize (Hb _ _ _ _ Er).
  destruct (_ || _); [by apply scanned_refl|]. clear Er. generalize ([0; 1; 2; 3]%nat) as l. generalize false as g.
  assert (H : forall l g st1, scanned st st1 ->
    scanned st (snd (fold_left (fun '(g, st) i => discover_mbr_entry d sector g st i) l (g, st1)))); [|intros g l; by apply H, scanned_refl].
  intros l. induction l as [|i l IH]; intros g st1 Hs; [done|]. cbn [fold_left].
  pose proof (mbr_entry_ok d sector g st1 i (proj1 Hs)) as H1. destruct (discover_mbr_entry d sector g st1 i) as [g' st2].
  apply IH. eapply scanned_trans; [exact Hs|]. apply H1; [|done]. destruct Hs as (_ & [_ -> _ _ _] & _). done.
Qed.

Lemma gpt_loop_ok n i d lba size st : scan_inv st -> driver_bytes st -> 0 <= d < block_device_count st ->
  scanned st (discover_gpt_loop n i d lba size st).
Proof.
  revert i st. induction n as [|n IH]; intros i st Hi Hb Hd; cbn [discover_gpt_loop]; [by apply scanned_refl|]. cbv zeta.
  destruct (_ <=? partition_count st); [by apply scanned_refl|]. destruct (_ <=? _); [by apply scanned_refl|].
  destruct (_ <? _); [by apply scanned_refl|]. destruct (dev_read _ _ _ _) as [sector|] eqn:Er; [|by apply scanned_refl].
  apply Hb in Er. destruct (region_is_zero _ _); [by apply IH|]. destruct (_ || _ || _) eqn:Ec; [by apply IH|].
  set (entry := take _ _) in *. assert (He : bytes entry) by by apply bytes_take, bytes_drop.
  pose proof (read_le64_nonneg (drop 32 entry) (bytes_drop _ _ He)).
  assert (Hr : scanned st (register_partition d (i + 1) (read_le64 (drop 32 entry)) (u64 (read_le64 (drop 40 entry) - read_le64 (drop 32 entry) + 1)) 238 st)).
  { apply register_ok; [done|done|done|]. unfold u64. apply Z.mod_pos_bound. lia. }
  eapply scanned_trans; [exact Hr|]. destruct Hr as (R1 & R2 & _). apply IH; [done|by eapply only_parts_bytes|]. destruct R2 as [_ -> _ _ _]. done.
Qed.

Lemma gpt_ok d st : scan_inv st -> driver_bytes st -> 0 <= d < block_device_count st -> scanned st (discover_gpt_partitions d st).
Proof.
  intros Hi Hb Hd. unfold discover_gpt_partitions. destruct (_ || _ || _); [by apply scanned_refl|].
  destruct (dev_read _ _ _ _) as [h|]; [|by apply scanned_refl]. destruct (_ || _); [by apply scanned_refl|]. cbv zeta.
  destruct (_ || _); [by apply scanned_refl|]. by apply gpt_loop_ok.
Qed.

Lemma drop_parts_ok st st1 : scan_inv st -> scanned st st1 ->
  scanned st (drop_partitions_from (partition_count st) st1) /\ partition_count (drop_partitions_from (partition_count st) st1) = partition_count st.
Proof.
  intros Hi ([S1 S2 S3] & O & Hle & Hsame). unfold drop_partitions_from. destruct (Z.ltb_spec (partition_count st) (partition_count st1)) as [Hlt|Hge].
  - split; [|done]. set (st' := set_partitions _ _ _).
    assert (Hsame' : forall i, 0 <= i < partition_count st -> partition_at st' i = partition_at st i).
    { intros i Hr. rewrite <- Hsame by done. unfold partition_at, st'. cbn [partitions set_partitions]. rewrite list_lookup_imap.
      destruct (partitions st1 !! Z.to_nat i); [|done]. cbn [fmap option_fmap option_map default].
      rewrite Z2Nat.id by lia. rewrite (proj2 (Z.leb_gt _ _)) by lia. done. }
    split_and!; [|destruct O; by split|cbn; lia|done]. split; cbn [st' partitions partition_count set_partitions].
    + by rewrite length_imap.
    + destruct Hi as [_ Hc _]. lia.
    + intros i Hr. rewrite Hsame' by done. destruct (si_parts _ Hi i Hr) as [W1 W2 W3 W4 W5].
      destruct O as [O1 O2 O3 O4 O5]. split; [done| |done|done|]; unfold device_at in *; cbn [st' block_device_count block_devices set_partitions]; by rewrite ?O1, ?O2.
  - split; [|lia]. split_and!; [by split|done|lia|done].
Qed.

Lemma device_ok st i : scan_inv st -> driver_bytes st -> 0 <= i < block_device_count st -> scanned st (discover_device st i).
Proof.
  intros Hi Hb Hd. unfold discover_device. pose proof (mbr_ok i st Hi Hb Hd) as Hm.
  destruct (discover_mbr_partitions i st) as [[] st1]; cbn [snd] in Hm; [|done].
  destruct (drop_parts_ok st st1 Hi Hm) as [Hdrop _]. eapply scanned_trans; [exact Hdrop|]. destruct Hdrop as (D1 & D2 & _).
  apply gpt_ok; [done|by eapply only_parts_bytes|]. destruct D2 as [_ -> _ _ _]. done.
Qed.

(** A mount of a present drive points at the partition it names. *)
Definition mount_fresh st (mt : mount) : Prop := mt_present mt = true ->
  exists part, storage_get_partition st (mt_partition_index mt) = Some part /\ str_eq (pt_name part) (mt_partition_name mt) = true.

Lemma find_partition_ok st name i part : scan_inv st -> storage_find_partition st name = Some (i, part) ->
  storage_get_partition st i = Some part /\ str_eq (pt_name part) name = true.
Proof.
  intros [S1 S2 S3] H. unfold storage_find_partition in H. apply bind_Some in H as (k & Hk & [= <- <-]).
  apply find_index_Some in Hk as (p & Hp & Hc & _). apply lookup_take_Some in Hp as [Hp Hlt]. bool_prop.
  assert (Hat : partition_at st (Z.of_nat k) = p) by (unfold partition_at; by rewrite Nat2Z.id, Hp).
  rewrite Hat. split; [|done]. unfold storage_get_partition. rewrite Hat. rewrite (proj2 (Z.leb_gt _ _)) by lia.
  match goal with H : pt_present p = true |- _ => rewrite H end. done.
Qed.

Lemma refresh_ok st mt : scan_inv st -> mount_fresh st (refresh_mount st mt).
Proof.
  intros Hi. unfold refresh_mount, mount_fresh. destruct (mt_present mt) eqn:Ep; cbn [negb]; [|congruence].
  destruct (storage_find_partition st (mt_partition_name mt)) as [[i part]|] eqn:Ef; [|done].
  intros _. exists part. by apply find_partition_ok in Ef.
Qed.

(** The state after a scan. *)
Lemma discover_ok st : length (partitions st) = STORAGE_MAX_PARTITIONS -> driver_bytes st -> 0 <= block_device_count st ->
  let st' := storage_discover_partitions st in
  scan_inv st' /\ Forall (mount_fresh st') (mounts st') /\
  block_devices st' = block_devices st /\ block_device_count st' = block_device_count st /\ ramdisk st' = ramdisk st /\ ext st' = ext st.
Proof.
  intros Hl Hb Hc. unfold storage_discover_partitions. set (st0 := set_partitions st (partitions st) 0).
  assert (H0 : scan_inv st0) by (split; cbn; [done|lia|lia]).
  assert (Hb0 : driver_bytes st0) by exact Hb.
  assert (Hs : scanned st0 (fold_left discover_device (seqZ 0 (block_device_count st)) st0)).
  { assert (H : forall l st1, Forall (fun i => 0 <= i < block_device_count st) l -> scanned st0 st1 -> scanned st0 (fold_left discover_device l st1)).
    { intros l. induction l as [|i l IH]; intros st1 Hf Hs; [done|]. cbn [fold_left]. apply Forall_cons_1 in Hf as [Hi Hf]. apply IH; [done|].
      eapply scanned_trans; [exact Hs|]. destruct Hs as (S1 & S2 & _). apply device_ok; [done|by eapply only_parts_bytes|].
      destruct S2 as [_ -> _ _ _]. done. }
    apply H; [|by apply scanned_refl]. apply Forall_elem. intros i Hi%elem_of_seqZ. lia. }
  set (st1 := fold_left _ _ _) in *. destruct Hs as (S1 & [O1 O2 O3 O4 O5] & _). unfold refresh_mounts_after_partition_scan.
  split_and!; cbn [mounts set_mounts block_devices block_device_count ramdisk ext]; [|..|done|done|done|done].
  - destruct S1 as [I1 I2 I3]. split; [done|done|]. intros i Hi. destruct (I3 i Hi) as [W1 W2 W3 W4 W5]. by split.
  - apply Forall_elem. intros mt (mt0 & -> & _)%list_elem_of_fmap. apply (refresh_ok st1 mt0 S1).
Qed.
End scan.
