(* ===== verification/LainfsLayout.v ===== *)
(** The on-disk format of LainFS: kernel/fs/lainfs.c (types, lines 6-51, and
    the dirent accessors, lines 124-269) and kernel/include/lainfs.h.

    Directory entries with their three-extent encoding in the reserved bytes,
    the superblock, and the translation between these records and the bytes
    on disk. *)
From Stdlib Require Import ZArith Lia.
From stdpp Require Import base tactics option list numbers.
From S2P Require Import Prelude.
#[local] Open Scope Z_scope.

Definition LAINFS_ROOT_DIR : Z := 0.
Definition LAINFS_BLOCK_SIZE : Z := 512.
Definition LAINFS_DIR_BLOCKS : Z := 256.
Definition LAINFS_ENTRY_SIZE : Z := 64.
Definition LAINFS_MAX_FILES : Z := LAINFS_DIR_BLOCKS * LAINFS_BLOCK_SIZE / LAINFS_ENTRY_SIZE.
Definition LAINFS_FILE_CAPACITY : Z := 4 * 1024 * 1024.
Definition LAINFS_MAX_FILE_BLOCKS : Z := LAINFS_FILE_CAPACITY / LAINFS_BLOCK_SIZE.
Definition LAINFS_MAGIC0 : Z := 0x4E49414C.
Definition LAINFS_MAGIC1 : Z := 0x315346.
Definition LAINFS_ENTRY_FILE : Z := 1.
Definition LAINFS_ENTRY_DIR : Z := 2.
Definition LAINFS_MAX_EXTENTS : Z := 3.
Definition LAINFS_EXTENT_BLOCK_MASK : Z := 0x00FFFFFF.
Definition LAINFS_EXTENT_COUNT_SHIFT : Z := 24.

(** ** Records *)

Record superblock : Type := Superblock {
  sb_magic0 : Z;
  sb_magic1 : Z;
  sb_version : Z;
  sb_block_size : Z;
  sb_dir_start_lba : Z;
  sb_dir_blocks : Z;
  sb_data_start_lba : Z;
  sb_max_files : Z
}.

Record dirent : Type := Dirent {
  used : Z;
  name : list Z;
  start_lba : Z;
  byte_size : Z;
  reserved : list Z
}.

Record extent : Type := Extent {
  ex_start_lba : Z;
  ex_blocks : Z
}.

Definition set_used (e : dirent) (v : Z) : dirent :=
  Dirent v (name e) (start_lba e) (byte_size e) (reserved e).
Definition set_name (e : dirent) (v : list Z) : dirent :=
  Dirent (used e) v (start_lba e) (byte_size e) (reserved e).
Definition set_start_lba (e : dirent) (v : Z) : dirent :=
  Dirent (used e) (name e) v (byte_size e) (reserved e).
Definition set_byte_size (e : dirent) (v : Z) : dirent :=
  Dirent (used e) (name e) (start_lba e) v (reserved e).
Definition set_reserved (e : dirent) (v : list Z) : dirent :=
  Dirent (used e) (name e) (start_lba e) (byte_size e) v.

(** [mem_zero(slot, sizeof( *slot))] *)
Definition zero_dirent : dirent := Dirent 0 (replicate 31 0) 0 0 (replicate 24 0).

(** The field widths of [lainfs_dirent_t]. *)
Record dirent_ok (e : dirent) : Prop := {
  dok_used : is_u8 (used e);
  dok_name_len : length (name e) = 31%nat;
  dok_name : bytes (name e);
  dok_start : is_u32 (start_lba e);
  dok_size : is_u32 (byte_size e);
  dok_res_len : length (reserved e) = 24%nat;
  dok_res : bytes (reserved e)
}.

(** ** Accessors *)

Definition blocks_for_size (size : Z) : Z := u32 (size + LAINFS_BLOCK_SIZE - 1) / LAINFS_BLOCK_SIZE.

Definition allocated_blocks_for_entry (e : dirent) : Z :=
  let blocks := blocks_for_size (byte_size e) in
  if blocks =? 0 then 1 else blocks.

Definition entry_extent_meta (e : dirent) : Z := read_le32 (drop 4 (reserved e)).

Definition set_entry_extent_meta (e : dirent) (meta : Z) : dirent :=
  set_reserved e (splice 4 (write_le32 meta) (reserved e)).

Definition entry_extra_extent_start (e : dirent) (extra_index : nat) : Z :=
  read_le32 (drop (8 + extra_index * 8) (reserved e)).

Definition entry_extra_extent_blocks (e : dirent) (extra_index : nat) : Z :=
  read_le32 (drop (12 + extra_index * 8) (reserved e)).

Definition set_entry_extra_extent (e : dirent) (extra_index : nat) (start blocks : Z) : dirent :=
  set_reserved e (splice (8 + extra_index * 8) (write_le32 start ++ write_le32 blocks) (reserved e)).

(** The loop that adds up the extent sizes; [None] is [return -1]. *)
Fixpoint extents_total (required_blocks total : Z) (xs : list extent) : option Z :=
  match xs with
  | [] => Some total
  | x :: xs' =>
      if (ex_blocks x =? 0) || (u32 (required_blocks - total) <? ex_blocks x) then None
      else extents_total required_blocks (u32 (total + ex_blocks x)) xs'
  end.

Definition entry_extents (e : dirent) : option (list extent) :=
  let required_blocks := allocated_blocks_for_entry e in
  let meta := entry_extent_meta e in
  if meta =? 0 then Some [Extent (start_lba e) required_blocks]
  else
    let count := Z.shiftr meta LAINFS_EXTENT_COUNT_SHIFT in
    if (count =? 0) || (LAINFS_MAX_EXTENTS <? count) then None
    else
      let extents := Extent (start_lba e) (Z.land meta LAINFS_EXTENT_BLOCK_MASK)
        :: ((fun i => Extent (entry_extra_extent_start e i) (entry_extra_extent_blocks e i))
              <$> seq 0 (Z.to_nat count - 1)) in
      total ← extents_total required_blocks 0 extents;
      if negb (total =? required_blocks) then None else Some extents.

(** The loop that stores the extents after the first from slot [i] on. *)
Fixpoint set_extra_extents (e : dirent) (i : nat) (xs : list extent) : dirent :=
  match xs with
  | [] => e
  | x :: xs' => set_extra_extents (set_entry_extra_extent e i (ex_start_lba x) (ex_blocks x)) (S i) xs'
  end.

Definition set_entry_extents (e : dirent) (extents : list extent) : dirent :=
  let e1 := set_reserved e (splice 4 (replicate 20 0) (reserved e)) in
  match extents with
  | [] => e1
  | x0 :: rest =>
      let e2 := set_start_lba e1 (ex_start_lba x0) in
      match rest with
      | [] => e2
      | _ =>
          let meta := Z.lor (u32 (Z.shiftl (Z.of_nat (length extents)) LAINFS_EXTENT_COUNT_SHIFT))
                            (Z.land (ex_blocks x0) LAINFS_EXTENT_BLOCK_MASK) in
          set_extra_extents (set_entry_extent_meta e2 meta) 0 rest
      end
  end.

Definition ranges_overlap (a_start a_blocks b_start b_blocks : Z) : bool :=
  let a_end := u32 (a_start + a_blocks) in
  let b_end := u32 (b_start + b_blocks) in
  (a_start <? b_end) && (b_start <? a_end).

Definition copy_name (dst src : list Z) : list Z := copy_str dst src 31.

Definition entry_parent_id (e : dirent) : Z := read_le32 (reserved e).

Definition set_entry_parent_id (e : dirent) (parent_id : Z) : dirent :=
  set_reserved e (splice 0 (write_le32 parent_id) (reserved e)).

(** ** Bytes on disk *)

Definition dirent_of_bytes (bs : list Z) : dirent :=
  Dirent (byte_at bs 0) (take 31 (drop 1 bs)) (read_le32 (drop 32 bs)) (read_le32 (drop 36 bs))
         (take 24 (drop 40 bs)).

Definition bytes_of_dirent (e : dirent) : list Z :=
  used e :: name e ++ write_le32 (start_lba e) ++ write_le32 (byte_size e) ++ reserved e.

(** The 131072 bytes of [directory\[\]] seen as its 2048 entries. *)
Definition directory_of_bytes (bs : list Z) : list dirent :=
  dirent_of_bytes <$> chunks (Z.to_nat LAINFS_MAX_FILES) 64 bs.

Definition bytes_of_directory (dir : list dirent) : list Z := concat (bytes_of_dirent <$> dir).

Definition superblock_of_bytes (bs : list Z) : superblock :=
  Superblock (read_le32 bs) (read_le32 (drop 4 bs)) (read_le32 (drop 8 bs)) (read_le32 (drop 12 bs))
             (read_le32 (drop 16 bs)) (read_le32 (drop 20 bs)) (read_le32 (drop 24 bs)) (read_le32 (drop 28 bs)).

Definition bytes_of_superblock (s : superblock) : list Z :=
  write_le32 (sb_magic0 s) ++ write_le32 (sb_magic1 s) ++ write_le32 (sb_version s) ++
  write_le32 (sb_block_size s) ++ write_le32 (sb_dir_start_lba s) ++ write_le32 (sb_dir_blocks s) ++
  write_le32 (sb_data_start_lba s) ++ write_le32 (sb_max_files s) ++ replicate 480 0.

#[global] Arguments directory_of_bytes : simpl never.
#[global] Arguments bytes_of_directory : simpl never.

(** ** Field widths are kept *)

Create HintDb lainfs discriminated.

Lemma zero_dirent_ok : dirent_ok zero_dirent.
Proof. split; try done; apply Forall_replicate; cint. Qed.

Lemma set_used_ok e v : is_u8 v -> dirent_ok e -> dirent_ok (set_used e v).
Proof. intros Hv []. by split. Qed.
Lemma set_start_lba_ok e v : is_u32 v -> dirent_ok e -> dirent_ok (set_start_lba e v).
Proof. intros Hv []. by split. Qed.
Lemma set_byte_size_ok e v : is_u32 v -> dirent_ok e -> dirent_ok (set_byte_size e v).
Proof. intros Hv []. by split. Qed.

Lemma set_name_copy_ok e src : bytes src -> dirent_ok e -> dirent_ok (set_name e (copy_name (name e) src)).
Proof.
  intros Hs []. split; simpl; try done.
  - unfold copy_name. rewrite length_copy_str; [done|lia].
  - unfold copy_name, copy_str. simpl.
    apply Forall_app. split; [auto with cint|]. constructor; [cint|auto with cint].
Qed.

Lemma splice_reserved_ok e off new : (off + length new <= 24)%nat -> bytes new ->
  dirent_ok e -> dirent_ok (set_reserved e (splice off new (reserved e))).
Proof.
  intros Hl Hb []. split; simpl; try done; [|auto with cint].
  rewrite length_splice; lia.
Qed.

Lemma set_entry_parent_id_ok e p : dirent_ok e -> dirent_ok (set_entry_parent_id e p).
Proof. apply splice_reserved_ok; [simpl; lia|auto with cint]. Qed.

Lemma set_entry_extent_meta_ok e m : dirent_ok e -> dirent_ok (set_entry_extent_meta e m).
Proof. apply splice_reserved_ok; [simpl; lia|auto with cint]. Qed.

Lemma set_entry_extra_extent_ok e i s b : (i < 2)%nat -> dirent_ok e -> dirent_ok (set_entry_extra_extent e i s b).
Proof. intros. apply splice_reserved_ok; [simpl; lia| |done]. apply Forall_app; auto with cint. Qed.

Lemma set_extra_extents_ok xs i e : (i + length xs <= 2)%nat ->
  dirent_ok e -> dirent_ok (set_extra_extents e i xs).
Proof.
  revert i e. induction xs as [|x xs IH]; intros i e Hl He; simpl in *; [done|].
  apply IH; [lia|]. apply set_entry_extra_extent_ok; [lia|done].
Qed.

Lemma set_entry_extents_ok e xs : (length xs <= 3)%nat ->
  Forall (fun x => is_u32 (ex_start_lba x)) xs -> dirent_ok e -> dirent_ok (set_entry_extents e xs).
Proof.
  intros Hl Hx He.
  assert (dirent_ok (set_reserved e (splice 4 (replicate 20 0) (reserved e)))).
  { apply splice_reserved_ok; [done| |done]. apply Forall_replicate. cint. }
  destruct xs as [|x0 [|x1 xs]]; inv_Forall; [done|by apply set_start_lba_ok|].
  apply (set_extra_extents_ok (x1 :: xs) 0); [simpl in *; lia|].
  by apply set_entry_extent_meta_ok, set_start_lba_ok.
Qed.

Lemma dirent_of_bytes_ok bs : bytes bs -> length bs = 64%nat -> dirent_ok (dirent_of_bytes bs).
Proof.
  intros Hb Hl. split; simpl; auto with cint; rewrite length_take, length_drop; lia.
Qed.
#[export] Hint Resolve zero_dirent_ok set_used_ok set_start_lba_ok set_byte_size_ok set_name_copy_ok
  set_entry_parent_id_ok set_entry_extents_ok dirent_of_bytes_ok : lainfs.

(** ** Parent ids *)

Lemma entry_parent_id_range e : dirent_ok e -> is_u32 (entry_parent_id e).
Proof. intros []. unfold entry_parent_id. auto with cint. Qed.
#[export] Hint Resolve entry_parent_id_range : lainfs.

Lemma entry_parent_set e p : dirent_ok e -> is_u32 p -> entry_parent_id (set_entry_parent_id e p) = p.
Proof.
  intros [] Hp. unfold entry_parent_id, set_entry_parent_id, set_reserved; cbn [reserved].
  rewrite <- (drop_0 (splice _ _ _)).
  apply (read_le32_splice_same 0 0 p [] []); simpl; [done|done|constructor|lia].
Qed.

(** The extents depend on the start, the size and the words from byte 4 on. *)
Lemma entry_extents_ext e e' : start_lba e' = start_lba e -> byte_size e' = byte_size e ->
  (forall off, (4 <= off)%nat -> read_le32 (drop off (reserved e')) = read_le32 (drop off (reserved e))) ->
  entry_extents e' = entry_extents e.
Proof.
  intros Hs Hb Hr. unfold entry_extents, allocated_blocks_for_entry, entry_extent_meta.
  rewrite Hs, Hb, Hr by lia.
  assert (forall n, ((fun i => Extent (entry_extra_extent_start e' i) (entry_extra_extent_blocks e' i)) <$> seq 0 n)
                    = ((fun i => Extent (entry_extra_extent_start e i) (entry_extra_extent_blocks e i)) <$> seq 0 n)) as Hx.
  { intros n. apply list_fmap_ext. intros i x _. unfold entry_extra_extent_start, entry_extra_extent_blocks.
    rewrite !Hr by lia. done. }
  by rewrite Hx.
Qed.

Lemma entry_extents_set_parent e p : dirent_ok e -> entry_extents (set_entry_parent_id e p) = entry_extents e.
Proof.
  intros []. apply entry_extents_ext; [done..|]. intros off Hoff. simpl.
  apply read_le32_splice_other; simpl; lia.
Qed.

Lemma entry_parent_set_extents e xs : dirent_ok e -> (length xs <= 3)%nat ->
  entry_parent_id (set_entry_extents e xs) = entry_parent_id e.
Proof.
  intros He Hl. unfold entry_parent_id.
  assert (H1 : read_le32 (reserved (set_reserved e (splice 4 (replicate 20 0) (reserved e)))) = read_le32 (reserved e)).
  { destruct He. apply read_le32_splice_head; simpl; lia. }
  assert (H2 : forall xs i e', length (reserved e') = 24%nat -> (i + length xs <= 2)%nat ->
            read_le32 (reserved (set_extra_extents e' i xs)) = read_le32 (reserved e')).
  { clear. induction xs as [|x xs IH]; intros i e' He Hl; simpl in *; [done|].
    rewrite IH by (simpl; rewrite ?length_splice; simpl; lia).
    apply read_le32_splice_head; simpl; lia. }
  destruct xs as [|x0 [|x1 xs]]; [done|done|].
  assert (length (splice 4 (replicate 20 0) (reserved e)) = 24%nat) as H3.
  { destruct He. rewrite length_splice; simpl; lia. }
  cbn [set_entry_extents]. rewrite H2.
  - rewrite <- H1. apply read_le32_splice_head; cbn in *; lia.
  - cbn in *. rewrite length_splice; simpl; lia.
  - simpl in *; lia.
Qed.

(** ** Extents *)

(** What [find_free_extents] hands to [set_entry_extents]: one to three
    non-empty extents that add up to the blocks of the entry. *)
Record extents_fit (required : Z) (xs : list extent) : Prop := {
  xf_count : (1 <= length xs <= 3)%nat;
  xf_each : Forall (fun x => is_u32 (ex_start_lba x) /\ 0 < ex_blocks x) xs;
  xf_sum : foldr (fun x a => ex_blocks x + a) 0 xs = required
}.

Lemma foldr_blocks_nonneg xs : Forall (fun x => is_u32 (ex_start_lba x) /\ 0 < ex_blocks x) xs ->
  0 <= foldr (fun x a => ex_blocks x + a) 0 xs.
Proof. induction 1 as [|x xs [? ?] _ IH]; simpl; lia. Qed.

Lemma extents_total_fit required total xs :
  Forall (fun x => is_u32 (ex_start_lba x) /\ 0 < ex_blocks x) xs ->
  0 <= total -> total + foldr (fun x a => ex_blocks x + a) 0 xs = required -> is_u32 required ->
  extents_total required total xs = Some required.
Proof.
  revert total. induction xs as [|x xs IH]; intros total Hx Ht Hs Hr; simpl in *; [f_equal; lia|].
  inv_Forall. pose proof (foldr_blocks_nonneg _ Hx).
  rewrite !u32_small by cint.
  destruct (ex_blocks x =? 0) eqn:E1; bool_prop; [lia|]. simpl.
  destruct (required - total <? ex_blocks x) eqn:E2; bool_prop; [lia|].
  apply IH; [done|lia|lia|done].
Qed.

Lemma extents_total_sum required total xs t : is_u32 total -> is_u32 required ->
  Forall (fun x => is_u32 (ex_blocks x)) xs -> total <= required ->
  extents_total required total xs = Some t ->
  t = total + foldr (fun x a => ex_blocks x + a) 0 xs /\ t <= required /\
  Forall (fun x => 0 < ex_blocks x) xs.
Proof.
  revert total. induction xs as [|x xs IH]; intros total Ht Hr Hx Hle H; simpl in *.
  { simplify_eq. split_and!; [lia|done|constructor]. }
  inv_Forall. case_match eqn:E; [done|]. bool_prop. rewrite !u32_small in * by cint.
  apply IH in H as (-> & Hb & Hf); [|cint|done|done|lia].
  split_and!; [lia|done|]. constructor; [cint|done].
Qed.

Lemma blocks_for_size_eq size : 0 <= size <= LAINFS_FILE_CAPACITY ->
  blocks_for_size size = (size + 511) / 512 /\ 0 <= blocks_for_size size <= 8192.
Proof.
  intros Hs. unfold blocks_for_size, LAINFS_BLOCK_SIZE, LAINFS_FILE_CAPACITY in *.
  rewrite u32_small by cint. split; [f_equal; lia|]. Z.div_mod_to_equations. lia.
Qed.

Lemma allocated_blocks_range e : 0 <= byte_size e <= LAINFS_FILE_CAPACITY ->
  1 <= allocated_blocks_for_entry e <= 8192.
Proof.
  intros Hs. unfold allocated_blocks_for_entry. destruct (blocks_for_size_eq _ Hs) as [_ Hb].
  case_match; bool_prop; lia.
Qed.

(** The extent-count word. *)
Lemma extent_meta_split count blocks : 1 <= count <= 3 -> 0 <= blocks < 2 ^ 24 ->
  let meta := Z.lor (u32 (Z.shiftl count LAINFS_EXTENT_COUNT_SHIFT)) (Z.land blocks LAINFS_EXTENT_BLOCK_MASK) in
  is_u32 meta /\ meta <> 0 /\ Z.shiftr meta LAINFS_EXTENT_COUNT_SHIFT = count /\
  Z.land meta LAINFS_EXTENT_BLOCK_MASK = blocks.
Proof.
  intros Hc Hb. cbv zeta. change LAINFS_EXTENT_COUNT_SHIFT with 24.
  change LAINFS_EXTENT_BLOCK_MASK with (Z.ones 24).
  rewrite u32_small by (rewrite Z.shiftl_mul_pow2 by lia; cint).
  rewrite (Z.land_ones blocks), (Z.mod_small blocks) by lia.
  rewrite Z.lor_comm, lor_shiftl_add by lia.
  rewrite Z.shiftr_div_pow2, Z.land_ones by lia.
  change (2 ^ 24) with 16777216 in *. split_and!; [cint|lia|cdiv|cdiv].
Qed.

(** Reading back the words [set_extra_extents] stores. *)
Lemma extra_extents_read xs i e j : length (reserved e) = 24%nat -> (i + length xs <= 2)%nat ->
  Forall (fun x => is_u32 (ex_start_lba x) /\ is_u32 (ex_blocks x)) xs ->
  entry_extent_meta (set_extra_extents e i xs) = entry_extent_meta e /\
  Extent (entry_extra_extent_start (set_extra_extents e i xs) j)
         (entry_extra_extent_blocks (set_extra_extents e i xs) j) =
  default (Extent (entry_extra_extent_start e j) (entry_extra_extent_blocks e j))
          (if decide (i <= j)%nat then xs !! (j - i)%nat else None).
Proof.
  revert i e. induction xs as [|x xs IH]; intros i e He Hl Hx; simpl in *.
  { split; [done|]. by case_decide. }
  inv_Forall. destruct H as [Hs Hb].
  set (e1 := set_entry_extra_extent e i (ex_start_lba x) (ex_blocks x)).
  assert (He1 : length (reserved e1) = 24%nat) by (simpl; rewrite length_splice; simpl; lia).
  destruct (IH (S i) e1) as [IHm IHx]; [done|lia|done|]. rewrite IHm, IHx. clear IH IHm IHx.
  split; [unfold entry_extent_meta; simpl; apply read_le32_splice_other; simpl; lia|].
  assert (entry_extra_extent_start e1 i = ex_start_lba x /\ entry_extra_extent_blocks e1 i = ex_blocks x) as [Hes Heb].
  { split; unfold entry_extra_extent_start, entry_extra_extent_blocks; simpl.
    - apply (read_le32_splice_same (8 + i * 8) (8 + i * 8) (ex_start_lba x) [] (write_le32 (ex_blocks x)));
        simpl; auto with cint; lia.
    - rewrite <- (app_nil_r (write_le32 (ex_blocks x))).
      apply (read_le32_splice_same (12 + i * 8) (8 + i * 8) (ex_blocks x) (write_le32 (ex_start_lba x)) []);
        simpl; auto with cint; lia. }
  destruct (decide (i = j)) as [->|Hne].
  - rewrite decide_False, decide_True by lia. rewrite Nat.sub_diag. simpl. rewrite Hes, Heb. by destruct x.
  - assert (Extent (entry_extra_extent_start e1 j) (entry_extra_extent_blocks e1 j) =
            Extent (entry_extra_extent_start e j) (entry_extra_extent_blocks e j)) as Hoth.
    { unfold entry_extra_extent_start, entry_extra_extent_blocks; simpl.
      rewrite !read_le32_splice_other by (simpl; lia). done. }
    rewrite Hoth. repeat case_decide; try lia; [|done].
    replace (j - i)%nat with (S (j - S i)) by lia. done.
Qed.

Lemma extents_fit_tail required x0 tl : required <= 8192 ->
  Forall (fun x => is_u32 (ex_start_lba x) /\ 0 < ex_blocks x) (x0 :: tl) ->
  foldr (fun x a => ex_blocks x + a) 0 (x0 :: tl) = required ->
  is_u32 (ex_start_lba x0) /\ 0 < ex_blocks x0 <= 8192 /\
  Forall (fun x => is_u32 (ex_start_lba x) /\ is_u32 (ex_blocks x)) tl.
Proof.
  revert required x0. induction tl as [|x tl IH]; intros required x0 Hr Hx Hs; simpl in *.
  - apply Forall_cons_1 in Hx as [[H1 H2] _]. split_and!; [done|lia|lia|constructor].
  - apply Forall_cons_1 in Hx as [[H1 H2] Hx]. pose proof (foldr_blocks_nonneg _ Hx) as Hn. simpl in Hn.
    destruct (IH (required - ex_blocks x0) x) as (H3 & H4 & H5); [lia|done|simpl; lia|].
    split_and!; [done|lia|lia|]. constructor; [split; [done|cint]|done].
Qed.

(** Zeroing bytes 4 to 23 clears the extent word. *)
Lemma cleared_meta r : length r = 24%nat ->
  length (splice 4 (replicate 20 0) r) = 24%nat /\ read_le32 (drop 4 (splice 4 (replicate 20 0) r)) = 0.
Proof.
  intros Hl. split; [rewrite length_splice; simpl; lia|].
  trans (read_le32 (replicate 20 0)); [|done]. apply read_le32_ext. intros i Hi.
  rewrite byte_at_drop, byte_at_splice by (simpl; lia). rewrite decide_True by (simpl; lia). f_equal. lia.
Qed.

Lemma set_extra_extents_frame xs i e : start_lba (set_extra_extents e i xs) = start_lba e /\
  byte_size (set_extra_extents e i xs) = byte_size e /\ used (set_extra_extents e i xs) = used e /\
  name (set_extra_extents e i xs) = name e.
Proof.
  revert i e. induction xs as [|x xs IH]; intros i e; simpl; [done|].
  by destruct (IH (S i) (set_entry_extra_extent e i (ex_start_lba x) (ex_blocks x))) as (-> & -> & -> & ->).
Qed.

Lemma extra_extents_map xs e : length (reserved e) = 24%nat -> (length xs <= 2)%nat ->
  Forall (fun x => is_u32 (ex_start_lba x) /\ is_u32 (ex_blocks x)) xs ->
  ((fun i => Extent (entry_extra_extent_start (set_extra_extents e 0 xs) i)
                    (entry_extra_extent_blocks (set_extra_extents e 0 xs) i)) <$> seq 0 (length xs)) = xs.
Proof.
  intros He Hl Hx. apply list_eq. intros i. rewrite list_lookup_fmap.
  destruct (decide (i < length xs)%nat) as [Hi|Hi].
  - rewrite lookup_seq_lt by lia. simpl.
    destruct (extra_extents_read xs 0 e i He ltac:(lia) Hx) as [_ ->].
    rewrite decide_True, Nat.sub_0_r by lia.
    destruct (lookup_lt_is_Some_2 xs i Hi) as [y Hy]. by rewrite Hy.
  - rewrite lookup_seq_ge by lia. rewrite lookup_ge_None_2 by lia. done.
Qed.

(** An entry whose extent word and extra words hold [x0 :: tl] decodes to it. *)
Lemma entry_extents_decode e x0 tl :
  start_lba e = ex_start_lba x0 -> (1 <= length tl <= 2)%nat -> allocated_blocks_for_entry e <= 8192 ->
  Forall (fun x => is_u32 (ex_start_lba x) /\ 0 < ex_blocks x) (x0 :: tl) ->
  foldr (fun x a => ex_blocks x + a) 0 (x0 :: tl) = allocated_blocks_for_entry e ->
  entry_extent_meta e = Z.lor (u32 (Z.shiftl (Z.of_nat (length (x0 :: tl))) LAINFS_EXTENT_COUNT_SHIFT))
                              (Z.land (ex_blocks x0) LAINFS_EXTENT_BLOCK_MASK) ->
  ((fun i => Extent (entry_extra_extent_start e i) (entry_extra_extent_blocks e i)) <$> seq 0 (length tl)) = tl ->
  entry_extents e = Some (x0 :: tl).
Proof.
  intros Hst Hl Hle Hx Hsum Hmeta Hmap.
  destruct (extents_fit_tail _ _ _ Hle Hx Hsum) as (Hs0 & Hb0 & Htl).
  pose proof (foldr_blocks_nonneg _ Hx) as Hn.
  destruct (extent_meta_split (Z.of_nat (length (x0 :: tl))) (ex_blocks x0)) as (Hmu & Hmn & Hmc & Hmb).
  { cbn [length]. lia. } { change (2 ^ 24) with 16777216. lia. }
  unfold entry_extents. rewrite Hmeta, Hst, Hmc, Hmb.
  destruct (_ =? 0) eqn:E; bool_prop; [done|]. clear E.
  destruct (_ || _) eqn:E2.
  { apply orb_true_iff in E2 as [E2|E2]; bool_prop; cbn [length] in *; [lia|].
    change LAINFS_MAX_EXTENTS with 3 in E2. lia. }
  replace (Z.to_nat (Z.of_nat (length (x0 :: tl))) - 1)%nat with (length tl) by (cbn [length]; lia).
  rewrite Hmap. destruct x0 as [s0 b0]. cbn [ex_start_lba ex_blocks] in *.
  rewrite (extents_total_fit _ 0 (Extent s0 b0 :: tl)) by (try done; cint || lia).
  simpl. by rewrite Z.eqb_refl.
Qed.

Lemma set_entry_extents_read e xs : dirent_ok e -> 0 <= byte_size e <= LAINFS_FILE_CAPACITY ->
  extents_fit (allocated_blocks_for_entry e) xs -> entry_extents (set_entry_extents e xs) = Some xs.
Proof.
  intros He Hs [Hc Hx Hsum]. pose proof (allocated_blocks_range e Hs) as Hreq.
  destruct (cleared_meta (reserved e)) as [Hz Hm0]; [by destruct He|].
  destruct xs as [|x0 [|x1 rest]]; [simpl in Hc; lia|..].
  { unfold entry_extents, entry_extent_meta. cbn [set_entry_extents set_start_lba set_reserved reserved start_lba].
    rewrite Hm0. simpl in Hsum. destruct x0 as [s b]. simpl in Hsum.
    change (allocated_blocks_for_entry (set_start_lba _ _)) with (allocated_blocks_for_entry e).
    simpl. do 3 f_equal. lia. }
  remember (x1 :: rest) as tl eqn:Etl.
  assert (Hlen : (1 <= length tl <= 2)%nat) by (subst; simpl in *; lia).
  destruct (extents_fit_tail _ _ _ (proj2 Hreq) Hx Hsum) as (Hs0 & Hb0 & Htl).
  set (meta := Z.lor (u32 (Z.shiftl (Z.of_nat (length (x0 :: tl))) LAINFS_EXTENT_COUNT_SHIFT))
                     (Z.land (ex_blocks x0) LAINFS_EXTENT_BLOCK_MASK)).
  set (e2 := set_entry_extent_meta (set_start_lba (set_reserved e (splice 4 (replicate 20 0) (reserved e)))
                                                  (ex_start_lba x0)) meta).
  assert (Hset : set_entry_extents e (x0 :: tl) = set_extra_extents e2 0 tl) by (subst tl; done).
  rewrite Hset. destruct (set_extra_extents_frame tl 0 e2) as (Hst & Hbs & _).
  assert (Hl2 : length (reserved e2) = 24%nat).
  { rewrite <- Hz. apply (length_splice 4 (write_le32 meta)). rewrite Hz. cbn. lia. }
  assert (Hal : allocated_blocks_for_entry (set_extra_extents e2 0 tl) = allocated_blocks_for_entry e).
  { unfold allocated_blocks_for_entry. rewrite Hbs. done. }
  apply entry_extents_decode; rewrite ?Hal; try done; try lia; [|by apply extra_extents_map; [|lia|]].
  destruct (extra_extents_read tl 0 e2 0 Hl2 ltac:(lia) Htl) as [-> _].
  unfold entry_extent_meta, e2, set_entry_extent_meta; cbn [set_reserved reserved].
  rewrite <- (app_nil_r (write_le32 meta)).
  apply (read_le32_splice_same 4 4 meta [] []); [done| |apply Forall_nil_2|cbn in Hz |- *; lia].
  apply (extent_meta_split (Z.of_nat (length (x0 :: tl))) (ex_blocks x0)); [cbn [length]; lia|lia].
Qed.

(** ** Bytes and records agree *)

Lemma bytes_of_dirent_ok e : dirent_ok e -> length (bytes_of_dirent e) = 64%nat /\ bytes (bytes_of_dirent e).
Proof.
  intros []. unfold bytes_of_dirent. split.
  - rewrite length_cons, !length_app. cbn. lia.
  - constructor; [done|]. rewrite !Forall_app. auto with cint.
Qed.

Lemma drop_app_exact (n m : nat) (a b : list Z) : length a = m -> (m <= n)%nat -> drop n (a ++ b) = drop (n - m) b.
Proof. intros <- H. by rewrite drop_app_ge. Qed.

Lemma dirent_of_bytes_of e : dirent_ok e -> dirent_of_bytes (bytes_of_dirent e) = e.
Proof.
  intros []. destruct e as [u nm s b r]; simpl in *. unfold bytes_of_dirent, dirent_of_bytes.
  cbn [used name start_lba byte_size reserved skipn]. rewrite drop_0, take_app_length' by done.
  rewrite !(drop_app_exact _ 31 nm) by (done || lia). cbn [Nat.sub skipn]; rewrite ?drop_0.
  rewrite !(drop_app_exact _ 4 (write_le32 s)) by (done || lia). cbn [Nat.sub skipn]; rewrite ?drop_0.
  rewrite !(drop_app_exact _ 4 (write_le32 b)) by (done || lia). cbn [Nat.sub skipn]; rewrite ?drop_0.
  rewrite take_ge by lia.
  rewrite (read_write_le32 s), (read_write_le32 b); rewrite ?Forall_app; auto with cint.
Qed.

Lemma bytes_of_dirent_of bs : bytes bs -> length bs = 64%nat -> bytes_of_dirent (dirent_of_bytes bs) = bs.
Proof.
  intros Hb Hl. unfold bytes_of_dirent, dirent_of_bytes; cbn [used name start_lba byte_size reserved].
  rewrite !write_read_le32_take by (auto with cint; rewrite length_drop; lia). clear Hb.
  do 64 (destruct bs as [|? bs]; [discriminate Hl|]). destruct bs; [|discriminate Hl]. reflexivity.
Qed.

Lemma directory_of_bytes_ok bs : bytes bs -> Z.of_nat (length bs) = 131072 ->
  length (directory_of_bytes bs) = 2048%nat /\ Forall dirent_ok (directory_of_bytes bs).
Proof.
  intros Hb Hl. unfold directory_of_bytes. split; [by rewrite length_fmap, length_chunks|].
  apply Forall_fmap, Forall_lookup. intros i c Hc. simpl.
  pose proof (lookup_lt_Some _ _ _ Hc) as Hi. rewrite length_chunks in Hi.
  change (Z.to_nat LAINFS_MAX_FILES) with 2048%nat in *.
  rewrite lookup_chunks in Hc by done. simplify_eq.
  apply dirent_of_bytes_ok; [auto with cint|]. rewrite length_take, length_drop. lia.
Qed.

Lemma directory_of_bytes_of dir : length dir = 2048%nat -> Forall dirent_ok dir ->
  directory_of_bytes (bytes_of_directory dir) = dir.
Proof.
  intros Hl Hd. unfold directory_of_bytes, bytes_of_directory.
  rewrite chunks_concat.
  - rewrite <- list_fmap_compose. rewrite <- (list_fmap_id dir) at 2.
    apply list_fmap_ext. intros i x Hx. simpl. apply dirent_of_bytes_of. by eapply Forall_lookup_1.
  - by rewrite length_fmap.
  - apply Forall_fmap, Forall_lookup. intros i e He. apply bytes_of_dirent_ok. by eapply Forall_lookup_1.
Qed.

Lemma bytes_of_directory_of bs : bytes bs -> Z.of_nat (length bs) = 131072 ->
  bytes_of_directory (directory_of_bytes bs) = bs.
Proof.
  intros Hb Hl. unfold directory_of_bytes, bytes_of_directory. rewrite <- list_fmap_compose.
  rewrite <- (concat_chunks 2048 64 bs) at 2 by lia. f_equal.
  change (Z.to_nat LAINFS_MAX_FILES) with 2048%nat.
  rewrite <- (list_fmap_id (chunks 2048 64 bs)) at 2. apply list_fmap_ext. intros i c Hc. simpl.
  pose proof (lookup_lt_Some _ _ _ Hc) as Hi. rewrite length_chunks in Hi.
  rewrite lookup_chunks in Hc by done. simplify_eq.
  apply bytes_of_dirent_of; [auto with cint|]. rewrite length_take, length_drop. lia.
Qed.

Lemma bytes_of_directory_ok dir : length dir = 2048%nat -> Forall dirent_ok dir ->
  Z.of_nat (length (bytes_of_directory dir)) = 131072 /\ bytes (bytes_of_directory dir).
Proof.
  intros Hl Hd. assert (forall d, Forall dirent_ok d ->
    length (bytes_of_directory d) = (64 * length d)%nat /\ bytes (bytes_of_directory d)) as H.
  { clear. induction d as [|e d IH]; intros Hd; [done|]. inv_Forall. destruct IH as [IH1 IH2]; [done|].
    destruct (bytes_of_dirent_ok e) as [H1 H2]; [done|]. unfold bytes_of_directory in *.
    rewrite fmap_cons. cbn [concat]. rewrite length_app, Forall_app, IH1, H1. cbn [length]. split; [lia|done]. }
  destruct (H dir Hd) as [H1 H2]. split; [lia|done].
Qed.

Record superblock_ok (s : superblock) : Prop := {
  sok_words : Forall is_u32 [sb_magic0 s; sb_magic1 s; sb_version s; sb_block_size s;
                             sb_dir_start_lba s; sb_dir_blocks s; sb_data_start_lba s; sb_max_files s]
}.

Lemma superblock_of_bytes_ok bs : bytes bs -> superblock_ok (superblock_of_bytes bs).
Proof. intros Hb. split. repeat constructor; apply read_le32_range; auto with cint. Qed.

Lemma superblock_of_bytes_of s : superblock_ok s -> superblock_of_bytes (bytes_of_superblock s) = s.
Proof.
  intros [Hs]. repeat (apply Forall_cons_1 in Hs as [? Hs]).
  assert (bytes (replicate 480 0)) by (apply Forall_replicate; cint).
  destruct s; simpl in *. unfold superblock_of_bytes, bytes_of_superblock; cbn [sb_magic0 sb_magic1 sb_version
    sb_block_size sb_dir_start_lba sb_dir_blocks sb_data_start_lba sb_max_files].
  f_equal; rewrite ?(drop_app_exact _ 4) by (done || lia); cbn [Nat.sub];
    rewrite ?(drop_app_exact _ 4) by (done || lia); rewrite ?drop_0.
  all: rewrite read_write_le32; rewrite ?Forall_app; auto 20 with cint.
Qed.
