(* ===== verification/LainfsDir.v ===== *)
(** The directory of LainFS: kernel/fs/lainfs.c, lines 578-944 and 1050-1084.

    Validation, cycle detection, repair and lookup over the in-memory table
    of 2048 directory entries. The specification [dir_wf] says what a
    well-formed directory is; [validate_directory] decides it. *)
From Stdlib Require Import ZArith Lia.
From stdpp Require Import base tactics option list numbers.
From S2P Require Import Prelude.
From S2P Require Import LainfsLayout.
#[local] Open Scope Z_scope.

Definition LAINFS_CHECK_OK : Z := 0.
Definition LAINFS_CHECK_NO_PARTITION : Z := 1.
Definition LAINFS_CHECK_BAD_SUPERBLOCK : Z := 2.
Definition LAINFS_CHECK_BAD_LAYOUT : Z := 3.
Definition LAINFS_CHECK_BAD_ENTRY_TYPE : Z := 4.
Definition LAINFS_CHECK_BAD_NAME : Z := 5.
Definition LAINFS_CHECK_BAD_PARENT : Z := 6.
Definition LAINFS_CHECK_BAD_DIRECTORY : Z := 7.
Definition LAINFS_CHECK_BAD_FILE_SIZE : Z := 8.
Definition LAINFS_CHECK_BAD_FILE_EXTENT : Z := 9.
Definition LAINFS_CHECK_OVERLAPPING_EXTENTS : Z := 10.

(** ** Operations *)

Definition dir_entry (dir : list dirent) (index : Z) : dirent :=
  default zero_dirent (dir !! Z.to_nat index).

(** [*dir_entry(index) = e] *)
Definition put_entry (dir : list dirent) (index : Z) (e : dirent) : list dirent :=
  <[Z.to_nat index := e]> dir.

Definition entry_id_from_index (index : Z) : Z := u32 (index + 1).
Definition index_from_entry_id (entry_id : Z) : Z := u32 (entry_id - 1).

Definition valid_dir_id (dir : list dirent) (dir_id : Z) : bool :=
  if dir_id =? LAINFS_ROOT_DIR then true
  else if LAINFS_MAX_FILES <? dir_id then false
  else used (dir_entry dir (index_from_entry_id dir_id)) =? LAINFS_ENTRY_DIR.

(** ['/'], ['\'], [':'], [' '] and tab. *)
Definition bad_name_char (c : Z) : bool := existsb (Z.eqb c) [47; 92; 58; 32; 9].

Definition valid_name (nm : list Z) : bool :=
  let len := str_len nm in
  if (len =? 0) || (30 <? len) then false
  else negb (existsb bad_name_char (cstr nm)).

Definition entry_name_is_valid (nm : list Z) : bool :=
  if 31 <=? str_len (take 31 nm) then false else valid_name nm.

(** The walk of [find_directory_parent_cycle]: [None] is out of fuel,
    [Some None] is [return 0], [Some (Some c)] is [return 1] with
    [*out_cycle_id = c]. *)
Fixpoint parent_cycle_loop (fuel : nat) (dir : list dirent) (seen : list bool) (current : Z) : option (option Z) :=
  match fuel with
  | O => None
  | S fuel' =>
      if current =? LAINFS_ROOT_DIR then Some None
      else if (current =? 0) || (LAINFS_MAX_FILES <? current) then Some None
      else
        let i := Z.to_nat (index_from_entry_id current) in
        if default false (seen !! i) then Some (Some current)
        else
          let seen' := <[i := true]> seen in
          let entry := dir_entry dir (index_from_entry_id current) in
          if negb (used entry =? LAINFS_ENTRY_DIR) then Some None
          else
            let parent_id := entry_parent_id entry in
            if parent_id =? LAINFS_ROOT_DIR then Some None
            else if LAINFS_MAX_FILES <? parent_id then Some None
            else parent_cycle_loop fuel' dir seen' parent_id
  end.

Definition find_directory_parent_cycle (dir : list dirent) (dir_id : Z) : option Z :=
  if (dir_id =? LAINFS_ROOT_DIR) || (LAINFS_MAX_FILES <? dir_id) then None
  else default None (parent_cycle_loop 2049 dir (replicate 2048 false) dir_id).

(** The outcome of a check: [None] when it passes, else the reason and the
    entry id reported by [validate_directory_fail]. *)
Definition verdict : Type := option (Z * Z).
Definition validate_directory_fail (reason entry_id : Z) : verdict := Some (reason, entry_id).

(** The loop over the extents of one file. *)
Fixpoint validate_extents (sb : superblock) (block_count id total_blocks : Z) (xs : list extent) : verdict :=
  match xs with
  | [] => None
  | x :: rest =>
      let end_lba := ex_start_lba x + ex_blocks x in
      if (ex_blocks x =? 0) || (u32 (LAINFS_MAX_FILE_BLOCKS - ex_blocks x) <? total_blocks) ||
         (ex_start_lba x <? sb_data_start_lba sb) || (block_count <? end_lba)
      then validate_directory_fail LAINFS_CHECK_BAD_FILE_EXTENT id
      else if existsb (fun y => ranges_overlap (ex_start_lba x) (ex_blocks x) (ex_start_lba y) (ex_blocks y)) rest
      then validate_directory_fail LAINFS_CHECK_OVERLAPPING_EXTENTS id
      else validate_extents sb block_count id (u32 (total_blocks + ex_blocks x)) rest
  end.

(** The body of the first loop, for entry [i]. *)
Definition validate_entry (sb : superblock) (block_count : Z) (dir : list dirent) (i : nat) (entry : dirent) : verdict :=
  let id := entry_id_from_index (Z.of_nat i) in
  if used entry =? 0 then None
  else if negb (used entry =? LAINFS_ENTRY_FILE) && negb (used entry =? LAINFS_ENTRY_DIR)
  then validate_directory_fail LAINFS_CHECK_BAD_ENTRY_TYPE id
  else if negb (entry_name_is_valid (name entry)) then validate_directory_fail LAINFS_CHECK_BAD_NAME id
  else
    let parent_id := entry_parent_id entry in
    if (LAINFS_MAX_FILES <? parent_id) || (parent_id =? id)
    then validate_directory_fail LAINFS_CHECK_BAD_PARENT id
    else if negb (parent_id =? LAINFS_ROOT_DIR) &&
            negb (used (dir_entry dir (index_from_entry_id parent_id)) =? LAINFS_ENTRY_DIR)
    then validate_directory_fail LAINFS_CHECK_BAD_PARENT id
    else if used entry =? LAINFS_ENTRY_DIR then
      if negb (start_lba entry =? 0) || negb (byte_size entry =? 0)
      then validate_directory_fail LAINFS_CHECK_BAD_DIRECTORY id
      else match find_directory_parent_cycle dir id with
           | Some cycle_id =>
               validate_directory_fail LAINFS_CHECK_BAD_PARENT (if cycle_id =? 0 then id else cycle_id)
           | None => None
           end
    else if LAINFS_FILE_CAPACITY <? byte_size entry
    then validate_directory_fail LAINFS_CHECK_BAD_FILE_SIZE id
    else match entry_extents entry with
         | None => validate_directory_fail LAINFS_CHECK_BAD_FILE_EXTENT id
         | Some extents => validate_extents sb block_count id 0 extents
         end.

(** First failure of a check over the entries from index [i] on. *)
Fixpoint first_failure (check : nat -> dirent -> verdict) (i : nat) (es : list dirent) : verdict :=
  match es with
  | [] => None
  | e :: es' => match check i e with
                | Some v => Some v
                | None => first_failure check (S i) es'
                end
  end.

Definition extents_overlap (xs ys : list extent) : bool :=
  existsb (fun x => existsb (fun y =>
    ranges_overlap (ex_start_lba x) (ex_blocks x) (ex_start_lba y) (ex_blocks y)) ys) xs.

(** The inner loop of the second pass: [a] against a later entry [b]. *)
Definition validate_pair (a : dirent) (j : nat) (b : dirent) : verdict :=
  if negb (used b =? LAINFS_ENTRY_FILE) then None
  else match entry_extents a, entry_extents b with
       | Some xs, Some ys =>
           if extents_overlap xs ys
           then validate_directory_fail LAINFS_CHECK_OVERLAPPING_EXTENTS (entry_id_from_index (Z.of_nat j))
           else None
       | _, _ => validate_directory_fail LAINFS_CHECK_BAD_FILE_EXTENT (entry_id_from_index (Z.of_nat j))
       end.

(** The second pass over all pairs of files. *)
Fixpoint validate_pairs (i : nat) (es : list dirent) : verdict :=
  match es with
  | [] => None
  | a :: es' =>
      if negb (used a =? LAINFS_ENTRY_FILE) then validate_pairs (S i) es'
      else match first_failure (validate_pair a) (S i) es' with
           | Some v => Some v
           | None => validate_pairs (S i) es'
           end
  end.

Definition layout_is_bad (sb : superblock) (block_count : Z) : bool :=
  (sb_dir_start_lba sb =? 0) || (sb_dir_blocks sb =? 0) ||
  (sb_data_start_lba sb <=? sb_dir_start_lba sb) ||
  (sb_data_start_lba sb <? sb_dir_start_lba sb + sb_dir_blocks sb) ||
  (block_count <=? sb_data_start_lba sb).

(** [part_blocks] is [storage_get_partition(...)->block_count], or [None] for
    a null partition. *)
Definition validate_directory (part_blocks : option Z) (sb : superblock) (dir : list dirent) : verdict :=
  match part_blocks with
  | None => validate_directory_fail LAINFS_CHECK_NO_PARTITION 0
  | Some block_count =>
      if layout_is_bad sb block_count then validate_directory_fail LAINFS_CHECK_BAD_LAYOUT 0
      else match first_failure (validate_entry sb block_count dir) 0 dir with
           | Some v => Some v
           | None => validate_pairs 0 dir
           end
  end.

Definition legacy_extent_fields_valid (part_blocks : option Z) (sb : superblock) (entry : dirent) : bool :=
  match part_blocks with
  | None => false
  | Some block_count =>
      if negb (used entry =? LAINFS_ENTRY_FILE) || (LAINFS_FILE_CAPACITY <? byte_size entry) then false
      else
        let blocks := allocated_blocks_for_entry entry in
        let end_lba := start_lba entry + blocks in
        negb (blocks =? 0) && (blocks <=? LAINFS_MAX_FILE_BLOCKS) &&
        (sb_data_start_lba sb <=? start_lba entry) && (end_lba <=? block_count)
  end.

(** [repair_directory_once]: the repaired directory when it returns 1. *)
Definition repair_directory_once (part_blocks : option Z) (sb : superblock) (reason entry_id : Z)
    (dir : list dirent) : option (list dirent) :=
  if (entry_id =? 0) || (LAINFS_MAX_FILES <? entry_id) then None
  else
    let i := index_from_entry_id entry_id in
    let entry := dir_entry dir i in
    let parent_id := entry_parent_id entry in
    if negb (used entry =? LAINFS_ENTRY_FILE) && negb (used entry =? LAINFS_ENTRY_DIR) then None
    else if (reason =? LAINFS_CHECK_BAD_PARENT) &&
            ((LAINFS_MAX_FILES <? parent_id) || (parent_id =? entry_id) ||
             (negb (parent_id =? LAINFS_ROOT_DIR) &&
              negb (used (dir_entry dir (index_from_entry_id parent_id)) =? LAINFS_ENTRY_DIR)) ||
             ((used entry =? LAINFS_ENTRY_DIR) &&
              match find_directory_parent_cycle dir entry_id with Some _ => true | None => false end))
    then Some (put_entry dir i (set_entry_parent_id entry LAINFS_ROOT_DIR))
    else if (reason =? LAINFS_CHECK_BAD_DIRECTORY) && (used entry =? LAINFS_ENTRY_DIR)
    then Some (put_entry dir i (set_byte_size (set_start_lba entry 0) 0))
    else if (reason =? LAINFS_CHECK_BAD_FILE_EXTENT) && (used entry =? LAINFS_ENTRY_FILE) &&
            negb (entry_extent_meta entry =? 0) && legacy_extent_fields_valid part_blocks sb entry
    then match entry_extents entry with
         | None => Some (put_entry dir i (set_entry_extents entry
                           [Extent (start_lba entry) (allocated_blocks_for_entry entry)]))
         | Some _ => None
         end
    else None.

(** [find_entry_in_dir] and [find_free_entry] return the index of the entry
    their pointer designates. *)
Definition find_entry_in_dir (dir : list dirent) (parent_id : Z) (nm : list Z) : option Z :=
  Z.of_nat <$> find_index (fun e => negb (used e =? 0) && (entry_parent_id e =? parent_id) && str_eq (name e) nm) dir.

Definition find_free_entry (dir : list dirent) : option Z :=
  Z.of_nat <$> find_index (fun e => used e =? 0) dir.

(** [entry_id] of the entry at an index. *)
Definition entry_id (index : Z) : Z := entry_id_from_index (u32 (index * LAINFS_ENTRY_SIZE) / LAINFS_ENTRY_SIZE).

Definition dir_has_children (dir : list dirent) (parent_id : Z) : bool :=
  existsb (fun e => negb (used e =? 0) && (entry_parent_id e =? parent_id)) dir.

(** The walk of [dir_is_descendant_of]; [None] is out of fuel. *)
Fixpoint descendant_loop (fuel : nat) (dir : list dirent) (current ancestor_id : Z) : option bool :=
  match fuel with
  | O => None
  | S fuel' =>
      if current =? LAINFS_ROOT_DIR then Some (ancestor_id =? LAINFS_ROOT_DIR)
      else if LAINFS_MAX_FILES <? current then Some false
      else if current =? ancestor_id then Some true
      else
        let entry := dir_entry dir (index_from_entry_id current) in
        if negb (used entry =? LAINFS_ENTRY_DIR) then Some false
        else descendant_loop fuel' dir (entry_parent_id entry) ancestor_id
  end.

(** The walk passes at most 2048 directories of a validated table before the
    root (theorem [descendant_loop_total]). *)
Definition dir_is_descendant_of (dir : list dirent) (candidate_id ancestor_id : Z) : bool :=
  default false (descendant_loop 2050 dir candidate_id ancestor_id).

(** ** Specification *)

(** The table has 2048 entries of the right field widths. *)
Definition dir_shape (dir : list dirent) : Prop := length dir = 2048%nat /\ Forall dirent_ok dir.

(** Directory [id] is [n] parent steps below the root. *)
Inductive rooted (dir : list dirent) : nat -> Z -> Prop :=
| rooted_root : rooted dir 0 LAINFS_ROOT_DIR
| rooted_step n id :
    1 <= id <= LAINFS_MAX_FILES ->
    used (dir_entry dir (id - 1)) = LAINFS_ENTRY_DIR ->
    rooted dir n (entry_parent_id (dir_entry dir (id - 1))) ->
    rooted dir (S n) id.

(** [id] is [ancestor] or lies below it. *)
Inductive below (dir : list dirent) (ancestor : Z) : Z -> Prop :=
| below_self : below dir ancestor ancestor
| below_step id :
    1 <= id <= LAINFS_MAX_FILES ->
    used (dir_entry dir (id - 1)) = LAINFS_ENTRY_DIR ->
    below dir ancestor (entry_parent_id (dir_entry dir (id - 1))) ->
    below dir ancestor id.

Definition ex_disjoint (x y : extent) : Prop :=
  ex_start_lba x + ex_blocks x <= ex_start_lba y \/ ex_start_lba y + ex_blocks y <= ex_start_lba x.

Definition extents_disjoint (xs ys : list extent) : Prop :=
  forall x y, x ∈ xs -> y ∈ ys -> ex_disjoint x y.

Fixpoint pairwise_disjoint (xs : list extent) : Prop :=
  match xs with
  | [] => True
  | x :: rest => Forall (ex_disjoint x) rest /\ pairwise_disjoint rest
  end.

(** A non-empty extent inside the data area of a partition of [B] blocks. *)
Definition extent_in_data (sb : superblock) (B : Z) (x : extent) : Prop :=
  0 < ex_blocks x /\ sb_data_start_lba sb <= ex_start_lba x /\ ex_start_lba x + ex_blocks x <= B.

Record layout_wf (sb : superblock) (B : Z) : Prop := {
  lw_dir_start : sb_dir_start_lba sb <> 0;
  lw_dir_blocks : sb_dir_blocks sb <> 0;
  lw_order : sb_dir_start_lba sb < sb_data_start_lba sb;
  lw_dir_end : sb_dir_start_lba sb + sb_dir_blocks sb <= sb_data_start_lba sb;
  lw_data : sb_data_start_lba sb < B
}.

(** The parent of an entry is the root or a directory, and not the entry. *)
Definition parent_wf (dir : list dirent) (id : Z) (e : dirent) : Prop :=
  entry_parent_id e <> id /\
  (entry_parent_id e = LAINFS_ROOT_DIR \/
   1 <= entry_parent_id e <= LAINFS_MAX_FILES /\
   used (dir_entry dir (entry_parent_id e - 1)) = LAINFS_ENTRY_DIR).

Definition file_wf (sb : superblock) (B : Z) (e : dirent) : Prop :=
  byte_size e <= LAINFS_FILE_CAPACITY /\
  exists xs, entry_extents e = Some xs /\ Forall (extent_in_data sb B) xs /\ pairwise_disjoint xs.

Record entry_wf (sb : superblock) (B : Z) (dir : list dirent) (i : nat) (e : dirent) : Prop := {
  ew_type : used e = LAINFS_ENTRY_FILE \/ used e = LAINFS_ENTRY_DIR;
  ew_name : entry_name_is_valid (name e) = true;
  ew_parent : parent_wf dir (Z.of_nat i + 1) e;
  ew_dir : used e = LAINFS_ENTRY_DIR ->
           start_lba e = 0 /\ byte_size e = 0 /\ exists n, rooted dir n (Z.of_nat i + 1);
  ew_file : used e = LAINFS_ENTRY_FILE -> file_wf sb B e
}.

(** A well-formed directory: every used entry is, directories form a tree
    below the root, and no two files share a block. *)
Record dir_wf (sb : superblock) (B : Z) (dir : list dirent) : Prop := {
  dw_layout : layout_wf sb B;
  dw_entries : forall i e, dir !! i = Some e -> used e <> 0 -> entry_wf sb B dir i e;
  dw_files : forall i j a b xs ys, i <> j -> dir !! i = Some a -> dir !! j = Some b ->
    used a = LAINFS_ENTRY_FILE -> used b = LAINFS_ENTRY_FILE ->
    entry_extents a = Some xs -> entry_extents b = Some ys -> extents_disjoint xs ys
}.

(** ** Indices and lookups *)

Lemma max_files : LAINFS_MAX_FILES = 2048.
Proof. reflexivity. Qed.

Lemma index_from_id id : 1 <= id <= LAINFS_MAX_FILES -> index_from_entry_id id = id - 1.
Proof. rewrite max_files. intros. apply u32_small. cint. Qed.

Lemma id_from_index i : 0 <= i < LAINFS_MAX_FILES -> entry_id_from_index i = i + 1.
Proof. rewrite max_files. intros. apply u32_small. cint. Qed.

Lemma entry_id_index i : 0 <= i < LAINFS_MAX_FILES -> entry_id i = i + 1.
Proof.
  rewrite max_files. intros Hi. unfold entry_id. change LAINFS_ENTRY_SIZE with 64.
  rewrite (u32_small (i * 64)) by cint. rewrite Z.div_mul by lia. apply id_from_index. by rewrite max_files.
Qed.

Lemma dir_shape_lt dir i e : dir_shape dir -> dir !! i = Some e -> (i < 2048)%nat /\ dirent_ok e.
Proof.
  intros [Hl Hf] Hi. split; [apply lookup_lt_Some in Hi; lia|by eapply Forall_lookup_1].
Qed.

Lemma dir_entry_lookup dir i : dir_shape dir -> 0 <= i < LAINFS_MAX_FILES ->
  dir !! Z.to_nat i = Some (dir_entry dir i).
Proof.
  rewrite max_files. intros [Hl _] Hi. unfold dir_entry.
  destruct (lookup_lt_is_Some_2 dir (Z.to_nat i)) as [e He]; [lia|]. by rewrite He.
Qed.

Lemma dir_entry_of_lookup dir (i : nat) e : dir !! i = Some e -> dir_entry dir (Z.of_nat i) = e.
Proof. intros H. unfold dir_entry. by rewrite Nat2Z.id, H. Qed.

Lemma dir_entry_ok dir i : dir_shape dir -> dirent_ok (dir_entry dir i).
Proof.
  intros [Hl Hf]. unfold dir_entry. destruct (dir !! Z.to_nat i) eqn:E; simpl; [|apply zero_dirent_ok].
  by eapply Forall_lookup_1.
Qed.
#[export] Hint Resolve dir_entry_ok : lainfs.

Lemma put_entry_shape dir i e : dir_shape dir -> dirent_ok e -> dir_shape (put_entry dir i e).
Proof. intros [Hl Hf] He. split; [by unfold put_entry; rewrite length_insert|by apply Forall_insert]. Qed.
#[export] Hint Resolve put_entry_shape : lainfs.

Lemma dir_entry_put_eq dir i e : dir_shape dir -> 0 <= i < LAINFS_MAX_FILES ->
  dir_entry (put_entry dir i e) i = e.
Proof.
  rewrite max_files. intros [Hl _] Hi. unfold dir_entry, put_entry.
  rewrite list_lookup_insert_eq by lia. done.
Qed.

Lemma dir_entry_put_ne dir i j e : 0 <= i -> 0 <= j -> i <> j ->
  dir_entry (put_entry dir i e) j = dir_entry dir j.
Proof. intros. unfold dir_entry, put_entry. rewrite list_lookup_insert_ne by lia. done. Qed.

Lemma lookup_put dir i e (j : nat) x : dir_shape dir -> 0 <= i < LAINFS_MAX_FILES ->
  put_entry dir i e !! j = Some x <-> (j = Z.to_nat i /\ x = e) \/ (j <> Z.to_nat i /\ dir !! j = Some x).
Proof.
  rewrite max_files. intros [Hl _] Hi. unfold put_entry. destruct (decide (j = Z.to_nat i)) as [->|Hne].
  - rewrite list_lookup_insert_eq by lia. split; [intros [= ->]; auto|intros [[_ ->]|[? _]]; done].
  - rewrite list_lookup_insert_ne by done. split; [auto|intros [[? _]|[_ ?]]; done].
Qed.

(** ** Rootedness *)

Lemma rooted_functional dir n m id : rooted dir n id -> rooted dir m id -> n = m.
Proof.
  intros H. revert m. induction H as [|n id Hid Hu Hr IH]; intros m Hm; inversion Hm; subst.
  - done.
  - unfold LAINFS_ROOT_DIR in *. lia.
  - unfold LAINFS_ROOT_DIR in *. lia.
  - f_equal. auto.
Qed.

Lemma rooted_range dir n id : rooted dir n id -> 0 <= id <= LAINFS_MAX_FILES.
Proof. rewrite max_files. intros H. inversion H; subst; unfold LAINFS_ROOT_DIR; rewrite ?max_files in *; lia. Qed.

(** ** Cycle detection *)

(** Unvisited slots; every step visits one. *)
Definition unseen (seen : list bool) : nat := length (filter (fun b => b = false) seen).

Lemma unseen_mark seen i : seen !! i = Some false -> unseen seen = S (unseen (<[i := true]> seen)).
Proof.
  revert i. induction seen as [|b seen IH]; intros [|i] H; simplify_eq/=; unfold unseen in *; simpl.
  - rewrite !filter_cons. repeat case_decide; done.
  - rewrite !filter_cons. specialize (IH i H). repeat case_decide; simpl; lia.
Qed.

(** One step of the walk from a directory whose parent is another entry. *)
Lemma parent_cycle_loop_unfold fuel dir seen current : 1 <= current <= LAINFS_MAX_FILES ->
  parent_cycle_loop (S fuel) dir seen current =
  let i := Z.to_nat (current - 1) in
  let entry := dir_entry dir (current - 1) in
  if default false (seen !! i) then Some (Some current)
  else if negb (used entry =? LAINFS_ENTRY_DIR) then Some None
  else if entry_parent_id entry =? LAINFS_ROOT_DIR then Some None
  else if LAINFS_MAX_FILES <? entry_parent_id entry then Some None
  else parent_cycle_loop fuel dir (<[i := true]> seen) (entry_parent_id entry).
Proof.
  intros Hc. cbn [parent_cycle_loop]. rewrite index_from_id by done.
  destruct (current =? LAINFS_ROOT_DIR) eqn:E1; bool_prop; [unfold LAINFS_ROOT_DIR in *; lia|].
  destruct (current =? 0) eqn:E2; bool_prop; [lia|].
  destruct (LAINFS_MAX_FILES <? current) eqn:E3; bool_prop; [lia|]. done.
Qed.

Lemma parent_cycle_loop_fuel fuel dir seen current : dir_shape dir -> length seen = 2048%nat ->
  1 <= current <= LAINFS_MAX_FILES -> (unseen seen < fuel)%nat ->
  parent_cycle_loop fuel dir seen current <> None.
Proof.
  intros Hd. revert seen current. induction fuel as [|fuel IH]; intros seen current Hs Hc Hf; [lia|].
  rewrite parent_cycle_loop_unfold by done. cbv zeta.
  destruct (lookup_lt_is_Some_2 seen (Z.to_nat (current - 1))) as [b Eb]; [rewrite max_files in *; lia|].
  rewrite Eb; simpl. destruct b; [done|]. repeat case_match; try done. bool_prop.
  pose proof (entry_parent_id_range _ (dir_entry_ok dir (current - 1) Hd)).
  apply IH; [by rewrite length_insert|unfold LAINFS_ROOT_DIR, is_u32 in *; lia|].
  apply unseen_mark in Eb. lia.
Qed.

Lemma unseen_initial n : unseen (replicate n false) = n.
Proof.
  unfold unseen. induction n as [|n IH]; [done|]. cbn [replicate]. rewrite filter_cons, decide_True by done.
  cbn [length]. by rewrite IH.
Qed.

(** A walk that ends without a cycle in a directory where parents are
    directories has reached the root. *)
Lemma no_cycle_rooted fuel dir seen current : dir_shape dir ->
  (forall i e, dir !! i = Some e -> used e = LAINFS_ENTRY_DIR -> parent_wf dir (Z.of_nat i + 1) e) ->
  1 <= current <= LAINFS_MAX_FILES -> used (dir_entry dir (current - 1)) = LAINFS_ENTRY_DIR ->
  parent_cycle_loop fuel dir seen current = Some None ->
  exists n, (n <= fuel)%nat /\ rooted dir n current.
Proof.
  intros Hd Hp. revert seen current. induction fuel as [|fuel IH]; intros seen current Hc Hu H; [done|].
  rewrite parent_cycle_loop_unfold in H by done. cbv zeta in H.
  destruct (default false _); [done|]. rewrite Hu in H. cbn in H.
  destruct (Hp (Z.to_nat (current - 1)) (dir_entry dir (current - 1))) as [Hne Hpar]; [|done|].
  { apply dir_entry_lookup; [done|lia]. }
  destruct Hpar as [Hroot|[Hrange Hpu]].
  - exists 1%nat. split; [lia|]. apply rooted_step; [done|done|]. rewrite Hroot. constructor.
  - destruct (_ =? LAINFS_ROOT_DIR) eqn:E1; bool_prop; [unfold LAINFS_ROOT_DIR in *; lia|].
    destruct (LAINFS_MAX_FILES <? _) eqn:E2; bool_prop; [lia|].
    apply IH in H as (n & Hn & Hr); [|done|done].
    exists (S n). split; [lia|]. by apply rooted_step.
Qed.

(** From a rooted directory the walk finds no cycle: what it has seen lies
    strictly deeper. *)
Lemma rooted_no_cycle fuel dir seen n current : rooted dir n current -> 1 <= current ->
  (forall id m, 1 <= id -> seen !! Z.to_nat (id - 1) = Some true -> rooted dir m id -> (n < m)%nat) ->
  parent_cycle_loop fuel dir seen current = None \/ parent_cycle_loop fuel dir seen current = Some None.
Proof.
  revert seen n current. induction fuel as [|fuel IH]; intros seen n current Hr Hc Hseen; [auto|].
  inversion Hr as [|n' id Hid Hu Hr']; subst; [unfold LAINFS_ROOT_DIR in *; lia|].
  rewrite parent_cycle_loop_unfold by done. cbv zeta.
  destruct (default false _) eqn:Es.
  { destruct (seen !! Z.to_nat (current - 1)) as [[]|] eqn:E; try done.
    specialize (Hseen current (S n') Hc E Hr). lia. }
  rewrite Hu. cbn. destruct (_ =? LAINFS_ROOT_DIR) eqn:E1; bool_prop; [auto|].
  destruct (LAINFS_MAX_FILES <? _) eqn:E2; bool_prop; [auto|].
  pose proof (rooted_range _ _ _ Hr'). unfold LAINFS_ROOT_DIR in *.
  apply (IH _ n'); [done|lia|].
  intros id m Hid' Hs Hm. destruct (decide (id = current)) as [->|Hne].
  - pose proof (rooted_functional _ _ _ _ Hr Hm). lia.
  - rewrite list_lookup_insert_ne in Hs by lia.
    specialize (Hseen id m Hid' Hs Hm). lia.
Qed.

Lemma find_cycle_rooted dir id n : dir_shape dir -> 1 <= id <= LAINFS_MAX_FILES ->
  rooted dir n id -> find_directory_parent_cycle dir id = None.
Proof.
  intros Hd Hid Hr. unfold find_directory_parent_cycle.
  destruct (_ || _) eqn:E; [done|].
  destruct (rooted_no_cycle 2049 dir (replicate 2048 false) n id Hr) as [H|H]; [lia| |..].
  - intros id' m _ Hs _. apply lookup_replicate in Hs as [? _]. done.
  - exfalso. revert H. apply parent_cycle_loop_fuel; [done|apply length_replicate|done|].
    rewrite unseen_initial. lia.
  - by rewrite H.
Qed.

Lemma find_cycle_none dir id : dir_shape dir ->
  (forall i e, dir !! i = Some e -> used e = LAINFS_ENTRY_DIR -> parent_wf dir (Z.of_nat i + 1) e) ->
  1 <= id <= LAINFS_MAX_FILES -> used (dir_entry dir (id - 1)) = LAINFS_ENTRY_DIR ->
  find_directory_parent_cycle dir id = None -> exists n, (n <= 2049)%nat /\ rooted dir n id.
Proof.
  intros Hd Hp Hid Hu H. unfold find_directory_parent_cycle in H.
  destruct (_ || _) eqn:E.
  { apply orb_true_iff in E as [E|E]; bool_prop; unfold LAINFS_ROOT_DIR in *; lia. }
  destruct (parent_cycle_loop 2049 dir (replicate 2048 false) id) as [[c|]|] eqn:El; simpl in H; [done| |].
  - by eapply no_cycle_rooted.
  - exfalso. revert El. apply parent_cycle_loop_fuel; [done|apply length_replicate|done|].
    rewrite unseen_initial. lia.
Qed.

(** ** Validation *)

Lemma first_failure_None check i es :
  first_failure check i es = None <-> forall k e, es !! k = Some e -> check (i + k)%nat e = None.
Proof.
  revert i. induction es as [|e es IH]; intros i; simpl.
  - split; [intros _ k x Hx; done|done].
  - split.
    + intros H [|k] x Hx; simplify_eq/=.
      * rewrite Nat.add_0_r. by destruct (check i x).
      * destruct (check i e); [done|]. replace (i + S k)%nat with (S i + k)%nat by lia.
        by eapply IH.
    + intros H. pose proof (H 0%nat e eq_refl) as He. rewrite Nat.add_0_r in He. rewrite He.
      apply IH. intros k x Hx. replace (S i + k)%nat with (i + S k)%nat by lia. by apply H.
Qed.

Lemma ex_disjoint_sym x y : ex_disjoint x y -> ex_disjoint y x.
Proof. unfold ex_disjoint. lia. Qed.

Lemma ranges_overlap_spec sb B x y : B < 2 ^ 32 -> 0 <= sb_data_start_lba sb ->
  extent_in_data sb B x -> extent_in_data sb B y ->
  ranges_overlap (ex_start_lba x) (ex_blocks x) (ex_start_lba y) (ex_blocks y) = false <-> ex_disjoint x y.
Proof.
  intros HB Hs (Hx1 & Hx2 & Hx3) (Hy1 & Hy2 & Hy3). change (2 ^ 32) with 4294967296 in HB.
  unfold ranges_overlap, ex_disjoint. rewrite !u32_small by cint.
  rewrite andb_false_iff, !Z.ltb_ge. lia.
Qed.

(** From 2^32 blocks on the 32-bit ends wrap, and ranges that share a block
    are taken for disjoint ones. *)
Lemma ranges_overlap_wraps sb : sb_data_start_lba sb <= 4294967294 -> let x := Extent 4294967294 2 in let y := Extent 4294967295 1 in
  extent_in_data sb (2 ^ 32) x /\ extent_in_data sb (2 ^ 32) y /\ ~ ex_disjoint x y /\
  ranges_overlap (ex_start_lba x) (ex_blocks x) (ex_start_lba y) (ex_blocks y) = false.
Proof.
  intros Hs x y. unfold extent_in_data, ex_disjoint. change (2 ^ 32) with 4294967296. cbn [x y ex_start_lba ex_blocks]. split_and!; try lia. reflexivity.
Qed.

Lemma existsb_false {A} (f : A -> bool) l : existsb f l = false <-> Forall (fun x => f x = false) l.
Proof.
  induction l as [|x l IH]; simpl; [split; [constructor|done]|].
  rewrite orb_false_iff, IH. split; [intros [? ?]; by constructor|intros H; inv_Forall; done].
Qed.

Lemma extents_overlap_spec sb B xs ys : B < 2 ^ 32 -> 0 <= sb_data_start_lba sb ->
  Forall (extent_in_data sb B) xs -> Forall (extent_in_data sb B) ys ->
  extents_overlap xs ys = false <-> extents_disjoint xs ys.
Proof.
  intros HB Hs Hx Hy. unfold extents_overlap, extents_disjoint.
  rewrite existsb_false, Forall_elem. setoid_rewrite existsb_false. setoid_rewrite Forall_elem.
  rewrite Forall_elem in Hx. rewrite Forall_elem in Hy. split; intros H x.
  - intros y Hix Hiy. apply (ranges_overlap_spec sb B); [done|done|by apply Hx|by apply Hy|by apply (H x Hix y Hiy)].
  - intros Hix y Hiy. apply (ranges_overlap_spec sb B); [done|done|by apply Hx|by apply Hy|by apply (H x y)].
Qed.

Lemma entry_extents_facts e xs : dirent_ok e -> byte_size e <= LAINFS_FILE_CAPACITY ->
  entry_extents e = Some xs -> extents_fit (allocated_blocks_for_entry e) xs.
Proof.
  intros He Hs H. assert (Hreq : 1 <= allocated_blocks_for_entry e <= 8192).
  { apply allocated_blocks_range. destruct He. cint. }
  unfold entry_extents in H. destruct (_ =? 0) eqn:E0.
  { simplify_eq. split; [simpl; lia| |simpl; lia]. constructor; [|constructor]. simpl. split; [by destruct He|lia]. }
  destruct (_ || _) eqn:E1; [done|]. apply bind_Some in H as (t & Ht & H).
  destruct (negb _) eqn:E2; [done|]. simplify_eq. bool_prop. subst t.
  change LAINFS_MAX_EXTENTS with 3 in *.
  assert (Hw : forall off, is_u32 (read_le32 (drop off (reserved e)))).
  { intros off. destruct He. auto with cint. }
  apply extents_total_sum in Ht as (Ht1 & _ & Hpos); [|cint|cint| |lia].
  2:{ constructor; [|apply Forall_fmap, Forall_elem; intros i _; apply Hw].
      change LAINFS_EXTENT_BLOCK_MASK with (Z.ones 24). simpl. rewrite Z.land_ones by lia.
      change (2 ^ 24) with 16777216. cdiv. }
  assert (0 <= Z.shiftr (entry_extent_meta e) 24).
  { apply Z.shiftr_nonneg. apply Hw. }
  split.
  - rewrite length_cons, length_fmap, length_seq. unfold LAINFS_EXTENT_COUNT_SHIFT in *. lia.
  - apply Forall_cons_1 in Hpos as [Hp0 Hpos]. constructor; [split; [by destruct He|done]|].
    apply Forall_fmap, Forall_elem. intros i Hi. split; [apply Hw|].
    rewrite Forall_fmap, Forall_elem in Hpos. by apply Hpos.
  - lia.
Qed.

Lemma validate_extents_None sb B id total xs : B < 2 ^ 32 -> 0 <= sb_data_start_lba sb -> 0 <= total ->
  Forall (fun x => is_u32 (ex_start_lba x) /\ 0 < ex_blocks x) xs ->
  total + foldr (fun x a => ex_blocks x + a) 0 xs <= 8192 ->
  validate_extents sb B id total xs = None <-> Forall (extent_in_data sb B) xs /\ pairwise_disjoint xs.
Proof.
  intros HB Hs. revert total. induction xs as [|x xs IH]; intros total Ht Hx Hsum; simpl in *.
  { split; [|done]. intros _. split; [constructor|done]. }
  apply Forall_cons_1 in Hx as [[Hxs Hxb] Hx]. pose proof (foldr_blocks_nonneg _ Hx) as Hn.
  change LAINFS_MAX_FILE_BLOCKS with 8192. rewrite !u32_small by cint.
  specialize (IH (total + ex_blocks x)).
  destruct (_ || _) eqn:E1; [|destruct (existsb _ _) eqn:E2].
  - split; [done|]. intros [Hf _]. apply Forall_cons_1 in Hf as [(? & ? & ?) _].
    repeat rewrite orb_true_iff in E1. destruct E1 as [[[E1|E1]|E1]|E1]; bool_prop; lia.
  - split; [done|]. intros [Hf [Hd _]]. exfalso. apply Forall_cons_1 in Hf as [Hf1 Hf].
    apply not_false_iff_true in E2. apply E2. apply existsb_false, Forall_elem. intros y Hy.
    rewrite Forall_elem in Hd, Hf. apply (ranges_overlap_spec sb B); [done|done|done|by apply Hf|by apply Hd].
  - bool_prop. rewrite IH by (done || lia). split.
    + intros [Hf Hd]. assert (extent_in_data sb B x) by (split_and!; lia).
      split; [by constructor|]. split; [|done].
      rewrite existsb_false, Forall_elem in E2. rewrite Forall_elem in Hf. apply Forall_elem. intros y Hy.
      apply (ranges_overlap_spec sb B); [done|done|done|by apply Hf|by apply (E2 y)].
    + intros [Hf [_ Hd]]. by apply Forall_cons_1 in Hf as [_ Hf].
Qed.

Lemma layout_spec sb B : layout_is_bad sb B = false <-> layout_wf sb B.
Proof.
  unfold layout_is_bad. rewrite !orb_false_iff, !Z.eqb_neq, !Z.leb_gt, !Z.ltb_ge. split.
  - intros [[[[? ?] ?] ?] ?]. split; lia.
  - intros []. split_and!; lia.
Qed.

(** The checks of the first pass on one used entry, without the cycle test. *)
Record entry_local (sb : superblock) (B : Z) (dir : list dirent) (i : nat) (e : dirent) : Prop := {
  el_type : used e = LAINFS_ENTRY_FILE \/ used e = LAINFS_ENTRY_DIR;
  el_name : entry_name_is_valid (name e) = true;
  el_parent : parent_wf dir (Z.of_nat i + 1) e;
  el_dir : used e = LAINFS_ENTRY_DIR -> start_lba e = 0 /\ byte_size e = 0 /\
           find_directory_parent_cycle dir (Z.of_nat i + 1) = None;
  el_file : used e = LAINFS_ENTRY_FILE -> file_wf sb B e
}.

Lemma parent_checks dir i e : dir_shape dir -> dir !! i = Some e ->
  ((LAINFS_MAX_FILES <? entry_parent_id e) || (entry_parent_id e =? Z.of_nat i + 1) = false /\
   negb (entry_parent_id e =? LAINFS_ROOT_DIR) &&
   negb (used (dir_entry dir (index_from_entry_id (entry_parent_id e))) =? LAINFS_ENTRY_DIR) = false) <->
  parent_wf dir (Z.of_nat i + 1) e.
Proof.
  intros Hd Hi. destruct (dir_shape_lt _ _ _ Hd Hi) as [_ He].
  pose proof (entry_parent_id_range e He) as Hr. unfold parent_wf, LAINFS_ROOT_DIR.
  rewrite orb_false_iff, andb_false_iff, !negb_false_iff, Z.ltb_ge, Z.eqb_neq, !Z.eqb_eq. split.
  - intros [[H1 H2] H3]. split; [done|]. destruct (decide (entry_parent_id e = 0)) as [E|E]; [auto|right].
    rewrite index_from_id in H3 by cint. split; [cint|]. destruct H3; [done|done].
  - intros [H1 [H2|[H2 H3]]].
    + rewrite H2, max_files. split; [lia|auto].
    + rewrite index_from_id by done. split; [lia|auto].
Qed.

Lemma file_checks sb B id e : B < 2 ^ 32 -> 0 <= sb_data_start_lba sb -> dirent_ok e ->
  (if LAINFS_FILE_CAPACITY <? byte_size e then validate_directory_fail LAINFS_CHECK_BAD_FILE_SIZE id
   else match entry_extents e with
        | None => validate_directory_fail LAINFS_CHECK_BAD_FILE_EXTENT id
        | Some xs => validate_extents sb B id 0 xs
        end) = None <-> file_wf sb B e.
Proof.
  intros HB Hs He. unfold file_wf. destruct (_ <? _) eqn:E1; bool_prop.
  { split; [done|]. intros [? _]. lia. }
  destruct (entry_extents e) as [xs|] eqn:Ex.
  - destruct (entry_extents_facts e xs He E1 Ex) as [Hc Hx Hsum].
    assert (allocated_blocks_for_entry e <= 8192) by (apply allocated_blocks_range; destruct He; cint).
    rewrite validate_extents_None by (done || lia). split.
    + intros [? ?]. split; [done|]. by exists xs.
    + intros [_ (ys & [= <-] & ? & ?)]. done.
  - split; [done|]. intros [_ (? & ? & _)]. done.
Qed.

Lemma validate_entry_None sb B dir i e : B < 2 ^ 32 -> 0 <= sb_data_start_lba sb ->
  dir_shape dir -> dir !! i = Some e -> used e <> 0 ->
  validate_entry sb B dir i e = None <-> entry_local sb B dir i e.
Proof.
  intros HB Hs Hd Hi Hu. destruct (dir_shape_lt _ _ _ Hd Hi) as [Hlt He].
  unfold validate_entry, validate_directory_fail. rewrite id_from_index by (rewrite max_files; lia). cbv zeta.
  destruct (used e =? 0) eqn:E0; bool_prop; [done|].
  destruct (negb (used e =? LAINFS_ENTRY_FILE) && _) eqn:E1.
  { split; [done|]. intros [Ht _ _ _ _]. bool_prop. tauto. }
  destruct (negb (entry_name_is_valid _)) eqn:E2; bool_prop.
  { split; [done|]. intros []. congruence. }
  destruct ((LAINFS_MAX_FILES <? entry_parent_id e) || _) eqn:E3.
  { split; [done|]. intros []. destruct (proj2 (parent_checks dir i e Hd Hi) el_parent0). congruence. }
  destruct (negb (entry_parent_id e =? LAINFS_ROOT_DIR) && _) eqn:E4.
  { split; [done|]. intros []. destruct (proj2 (parent_checks dir i e Hd Hi) el_parent0). congruence. }
  assert (Hpar : parent_wf dir (Z.of_nat i + 1) e) by (by apply parent_checks).
  assert (Ht : used e = LAINFS_ENTRY_FILE \/ used e = LAINFS_ENTRY_DIR).
  { apply andb_false_iff in E1 as [E1|E1]; bool_prop; auto. }
  destruct (used e =? LAINFS_ENTRY_DIR) eqn:E5; bool_prop.
  - destruct (negb _ || negb _) eqn:E6.
    { split; [done|]. intros []. destruct el_dir0 as (H1 & H2 & _); [done|].
      rewrite H1, H2 in E6. done. }
    bool_prop. destruct (find_directory_parent_cycle _ _) eqn:E7.
    + split; [done|]. intros []. destruct el_dir0 as (_ & _ & H3); [done|]. congruence.
    + split; [|done]. intros _. split; try done. intros Hf. rewrite E5 in Hf. done.
  - pose proof (file_checks sb B (Z.of_nat i + 1) e HB Hs He) as Hfc. unfold validate_directory_fail in Hfc.
    rewrite Hfc. split.
    + intros Hf. by split.
    + intros []. destruct Ht; auto. congruence.
Qed.

Lemma validate_pairs_None i es :
  validate_pairs i es = None <->
  forall k l a b, (k < l)%nat -> es !! k = Some a -> es !! l = Some b ->
    used a = LAINFS_ENTRY_FILE -> used b = LAINFS_ENTRY_FILE ->
    exists xs ys, entry_extents a = Some xs /\ entry_extents b = Some ys /\ extents_overlap xs ys = false.
Proof.
  revert i. induction es as [|a es IH]; intros i; cbn [validate_pairs].
  { split; [intros _ k l a b _ H; done|done]. }
  assert (Hpair : forall j b, used b = LAINFS_ENTRY_FILE -> validate_pair a j b = None <->
     exists xs ys, entry_extents a = Some xs /\ entry_extents b = Some ys /\ extents_overlap xs ys = false).
  { intros j b Hb. unfold validate_pair. rewrite Hb. cbn.
    destruct (entry_extents a) as [xs|], (entry_extents b) as [ys|]; try (split; [done|intros (? & ? & ? & ? & ?); done]).
    destruct (extents_overlap xs ys) eqn:E.
    - split; [done|]. intros (? & ? & [= <-] & [= <-] & ?). congruence.
    - split; [|done]. intros _. by exists xs, ys. }
  destruct (negb (used a =? _)) eqn:Ea; bool_prop.
  - rewrite IH. split.
    + intros H [|k] [|l] x y Hkl Hx Hy Hux Huy; simplify_eq/=; try lia; try congruence.
      eapply (H k l); eauto. lia.
    + intros H k l x y Hkl Hx Hy. eapply (H (S k) (S l)); eauto. lia.
  - destruct (first_failure _ _ _) eqn:Ef.
    + split; [done|]. intros H. exfalso.
      assert (first_failure (validate_pair a) (S i) es = None); [|congruence].
      apply first_failure_None. intros k b Hb. destruct (decide (used b = LAINFS_ENTRY_FILE)) as [Hub|Hub].
      * apply Hpair; [done|]. eapply (H 0%nat (S k)); eauto. lia.
      * unfold validate_pair. destruct (used b =? _) eqn:E; bool_prop; done.
    + rewrite first_failure_None in Ef. rewrite IH. split.
      * intros H [|k] [|l] x y Hkl Hx Hy Hux Huy; simplify_eq/=; try lia.
        { eapply Hpair; [done|]. apply (Ef l y). done. }
        eapply (H k l); eauto. lia.
      * intros H k l x y Hkl Hx Hy. eapply (H (S k) (S l)); eauto. lia.
Qed.

(** [validate_directory] accepts exactly the well-formed directories. *)
Lemma validate_directory_None sb B dir : B < 2 ^ 32 -> superblock_ok sb -> dir_shape dir ->
  validate_directory (Some B) sb dir = None <-> dir_wf sb B dir.
Proof.
  intros HB Hsb Hd.
  assert (Hs : 0 <= sb_data_start_lba sb).
  { destruct Hsb as [H]. repeat (apply Forall_cons_1 in H as [? H]). cint. }
  unfold validate_directory. split.
  - intros H. destruct (layout_is_bad sb B) eqn:El; [done|]. apply layout_spec in El.
    destruct (first_failure _ _ _) eqn:Ef; [done|]. rewrite first_failure_None in Ef.
    assert (Hloc : forall i e, dir !! i = Some e -> used e <> 0 -> entry_local sb B dir i e).
    { intros i e Hi Hu. apply validate_entry_None; auto. by apply (Ef i e). }
    assert (Hent : forall i e, dir !! i = Some e -> used e <> 0 -> entry_wf sb B dir i e).
    { intros i e Hi Hu. destruct (Hloc i e Hi Hu). split; auto. intros Hdir.
      destruct el_dir0 as (? & ? & Hc); [done|]. split_and!; [done..|].
      destruct (dir_shape_lt _ _ _ Hd Hi) as [Hlt _].
      apply find_cycle_none in Hc as (n & _ & Hn); [by exists n|done| |rewrite max_files; lia|].
      - intros k x Hx Hux. apply Hloc; [done|]. rewrite Hux. done.
      - replace (Z.of_nat i + 1 - 1) with (Z.of_nat i) by lia. by rewrite (dir_entry_of_lookup dir i e). }
    split; auto. rewrite validate_pairs_None in H.
    assert (Hlt : forall i j a b xs ys, (i < j)%nat -> dir !! i = Some a -> dir !! j = Some b ->
      used a = LAINFS_ENTRY_FILE -> used b = LAINFS_ENTRY_FILE ->
      entry_extents a = Some xs -> entry_extents b = Some ys -> extents_disjoint xs ys).
    { intros i j a b xs ys Hij Ha Hb Hua Hub Hxs Hys.
      destruct (H i j a b Hij Ha Hb Hua Hub) as (xs' & ys' & ? & ? & Ho). simplify_eq.
      destruct (ew_file _ _ _ _ _ (Hent i a Ha ltac:(rewrite Hua; done)) Hua) as [_ (? & ? & ? & _)].
      destruct (ew_file _ _ _ _ _ (Hent j b Hb ltac:(rewrite Hub; done)) Hub) as [_ (? & ? & ? & _)].
      simplify_eq. by apply (extents_overlap_spec sb B). }
    intros i j a b xs ys Hne Ha Hb Hua Hub Hxs Hys. destruct (decide (i < j)%nat).
    + by eapply (Hlt i j).
    + intros x y Hx Hy. apply ex_disjoint_sym. eapply (Hlt j i); eauto. lia.
  - intros [Hl He Hf]. apply layout_spec in Hl. rewrite Hl.
    assert (Hf1 : first_failure (validate_entry sb B dir) 0 dir = None).
    { apply first_failure_None. intros i e Hi. destruct (decide (used e = 0)) as [Hu|Hu].
      { unfold validate_entry. by rewrite Hu. }
      apply validate_entry_None; auto. destruct (He i e Hi Hu). split; auto.
      intros Hdir. destruct ew_dir0 as (? & ? & n & Hn); [done|]. split_and!; [done..|].
      destruct (dir_shape_lt _ _ _ Hd Hi) as [Hlt _].
      eapply find_cycle_rooted; [done|rewrite max_files; lia|done]. }
    rewrite Hf1. apply validate_pairs_None. intros k l a b Hkl Ha Hb Hua Hub.
    destruct (ew_file _ _ _ _ _ (He k a Ha ltac:(rewrite Hua; done)) Hua) as [_ (xs & Hxs & Hxd & _)].
    destruct (ew_file _ _ _ _ _ (He l b Hb ltac:(rewrite Hub; done)) Hub) as [_ (ys & Hys & Hyd & _)].
    exists xs, ys. split_and!; [done..|]. apply (extents_overlap_spec sb B); try done.
    eapply (Hf k l); eauto. lia.
Qed.
