(* ===== verification/LainfsAlloc.v ===== *)
(** Block allocation in LainFS: kernel/fs/lainfs.c, lines 947-1048.

    [find_free_extents] covers a request with at most three runs of free
    blocks, taking a longest run each time. *)
From Stdlib Require Import ZArith Lia.
From stdpp Require Import base tactics option list numbers.
From S2P Require Import Prelude.
From S2P Require Import LainfsLayout.
From S2P Require Import LainfsDir.
#[local] Open Scope Z_scope.

(** ** Operations *)

(** The loop of [extent_is_free] over the entries from index [i] on. *)
Fixpoint extent_free_loop (start_lba blocks ignore i : Z) (es : list dirent) : bool :=
  match es with
  | [] => true
  | entry :: es' =>
      if (i =? ignore) || negb (used entry =? LAINFS_ENTRY_FILE)
      then extent_free_loop start_lba blocks ignore (i + 1) es'
      else match entry_extents entry with
           | None => false
           | Some extents =>
               if existsb (fun x => ranges_overlap start_lba blocks (ex_start_lba x) (ex_blocks x)) extents
               then false
               else extent_free_loop start_lba blocks ignore (i + 1) es'
           end
  end.

(** [ignore] is the index of the entry the pointer designates. *)
Definition extent_is_free (sb : superblock) (dir : list dirent) (start_lba blocks ignore : Z) : bool :=
  if (blocks =? 0) || (start_lba <? sb_data_start_lba sb) then false
  else extent_free_loop start_lba blocks ignore 0 dir.

Definition extent_overlaps_selected (start_lba blocks : Z) (selected : list extent) : bool :=
  existsb (fun x => ranges_overlap start_lba blocks (ex_start_lba x) (ex_blocks x)) selected.

Section scan.
Context (sb : superblock) (dir : list dirent) (ignore data_end : Z).

(** The test both inner loops make on one block. *)
Definition block_is_free (selected : list extent) (start : Z) : bool :=
  extent_is_free sb dir (u32 start) 1 ignore && negb (extent_overlaps_selected (u32 start) 1 selected).

(** [while (start < data_end && (!free || selected)) ++start;] *)
Fixpoint skip_used (fuel : nat) (selected : list extent) (start : Z) : Z :=
  match fuel with
  | O => start
  | S fuel' =>
      if (start <? data_end) && negb (block_is_free selected start)
      then skip_used fuel' selected (start + 1) else start
  end.

(** [while (start < data_end && run < remaining && free && !selected) { ++run; ++start; }] *)
Fixpoint take_run (fuel : nat) (selected : list extent) (remaining start run : Z) : Z * Z :=
  match fuel with
  | O => (start, run)
  | S fuel' =>
      if (start <? data_end) && (run <? remaining) && block_is_free selected start
      then take_run fuel' selected remaining (start + 1) (u32 (run + 1)) else (start, run)
  end.

(** The [for] loop that looks for a longest run, from [start] on; the fuel of
    the inner loops is the distance to the end. *)
Fixpoint scan_runs (fuel : nat) (selected : list extent) (remaining start best_start best_run : Z) : Z * Z :=
  match fuel with
  | O => (best_start, best_run)
  | S fuel' =>
      if negb (start <? data_end) then (best_start, best_run)
      else
        let start1 := skip_used (Z.to_nat (data_end - start)) selected start in
        let run_start := u32 start1 in
        let '(start2, run) := take_run (Z.to_nat (data_end - start1)) selected remaining start1 0 in
        if best_run <? run then
          if run =? remaining then (run_start, run)
          else scan_runs fuel' selected remaining start2 run_start run
        else scan_runs fuel' selected remaining start2 best_start best_run
  end.

(** The [while (remaining != 0)] loop: at most three extents are taken, the
    fourth round fails. *)
Fixpoint collect_extents (rounds : nat) (selected : list extent) (remaining : Z) : option (list extent) :=
  if remaining =? 0 then Some selected
  else
    let '(best_start, best_run) :=
      scan_runs (S (Z.to_nat (data_end - sb_data_start_lba sb))) selected remaining (sb_data_start_lba sb) 0 0 in
    if (best_run =? 0) || (LAINFS_MAX_EXTENTS <=? Z.of_nat (length selected)) then None
    else match rounds with
         | O => None
         | S rounds' => collect_extents rounds' (selected ++ [Extent best_start best_run]) (u32 (remaining - best_run))
         end.
End scan.

Definition find_free_extents (part_blocks : option Z) (sb : superblock) (dir : list dirent) (blocks ignore : Z)
  : option (list extent) :=
  match part_blocks with
  | None => None
  | Some data_end =>
      if (blocks =? 0) || (LAINFS_MAX_FILE_BLOCKS <? blocks) then None
      else collect_extents sb dir ignore data_end 3 [] blocks
  end.

(** ** Free blocks *)

(** Block [b] is used by no file other than entry [ignore]. *)
Definition block_unused (dir : list dirent) (ignore b : Z) : Prop :=
  forall j e xs x, Z.of_nat j <> ignore -> dir !! j = Some e -> used e = LAINFS_ENTRY_FILE ->
    entry_extents e = Some xs -> x ∈ xs -> ~ (ex_start_lba x <= b < ex_start_lba x + ex_blocks x).

Definition in_extent (b : Z) (x : extent) : Prop := ex_start_lba x <= b < ex_start_lba x + ex_blocks x.

Lemma overlap_block B b x : 0 <= b < B -> B < 2 ^ 32 -> 0 <= ex_start_lba x ->
  0 <= ex_blocks x -> ex_start_lba x + ex_blocks x <= B ->
  ranges_overlap b 1 (ex_start_lba x) (ex_blocks x) = false <-> ~ in_extent b x.
Proof.
  intros Hb HB Hx Hn He. change (2 ^ 32) with 4294967296 in HB. unfold ranges_overlap, in_extent.
  rewrite !u32_small by cint. rewrite andb_false_iff, !Z.ltb_ge. lia.
Qed.

Lemma extent_free_loop_spec start blocks ignore i es :
  extent_free_loop start blocks ignore i es = true <->
  forall j e, i + Z.of_nat j <> ignore -> es !! j = Some e -> used e = LAINFS_ENTRY_FILE ->
    exists xs, entry_extents e = Some xs /\
      Forall (fun x => ranges_overlap start blocks (ex_start_lba x) (ex_blocks x) = false) xs.
Proof.
  revert i. induction es as [|e es IH]; intros i; cbn [extent_free_loop].
  { split; [intros _ j e _ H; done|done]. }
  assert (Hshift : (forall j x, i + 1 + Z.of_nat j <> ignore -> es !! j = Some x -> used x = LAINFS_ENTRY_FILE ->
      exists xs, entry_extents x = Some xs /\
      Forall (fun x => ranges_overlap start blocks (ex_start_lba x) (ex_blocks x) = false) xs) <->
    (forall j x, i + Z.of_nat (S j) <> ignore -> (e :: es) !! S j = Some x -> used x = LAINFS_ENTRY_FILE ->
      exists xs, entry_extents x = Some xs /\
      Forall (fun x => ranges_overlap start blocks (ex_start_lba x) (ex_blocks x) = false) xs)).
  { split; intros H j x Hj; apply H; lia. }
  destruct ((i =? ignore) || _) eqn:E.
  - rewrite IH, Hshift. split; [|intros H j; apply H].
    intros H [|j] x Hj Hx Hu; [|by apply (H j)]. simplify_eq/=.
    apply orb_true_iff in E as [E|E]; bool_prop; [lia|done].
  - bool_prop. destruct (entry_extents e) as [xs|] eqn:Ex.
    + destruct (existsb _ _) eqn:Eo.
      * split; [done|]. intros HH. destruct (HH 0%nat e) as (ys & Hys & Hf); [lia|done|done|].
        rewrite Ex in Hys. simplify_eq. apply existsb_false in Hf. congruence.
      * rewrite IH, Hshift. split; [|intros HH j; apply HH].
        intros HH [|j] x Hj Hx Hu; [|by apply (HH j)]. simplify_eq/=. exists xs. split; [done|by apply existsb_false].
    + split; [done|]. intros HH. destruct (HH 0%nat e) as (ys & Hys & _); [lia|done|done|congruence].
Qed.

Section free.
Context (sb : superblock) (B : Z) (dir : list dirent) (ignore : Z).
Context (HB : 0 <= B < 2 ^ 32) (Hs : 0 <= sb_data_start_lba sb) (Hd : dir_shape dir).
(** Every file but the ignored one has extents inside the data area. *)
Context (Hfiles : forall j e, Z.of_nat j <> ignore -> dir !! j = Some e -> used e = LAINFS_ENTRY_FILE ->
                  exists xs, entry_extents e = Some xs /\ Forall (extent_in_data sb B) xs).

Lemma extent_is_free_spec b : 0 <= b < B ->
  extent_is_free sb dir b 1 ignore = true <-> sb_data_start_lba sb <= b /\ block_unused dir ignore b.
Proof using HB Hs Hfiles.
  intros Hb. unfold extent_is_free. destruct (_ || _) eqn:E.
  { cbn in E. bool_prop. split; [done|lia]. }
  cbn in E. bool_prop. rewrite extent_free_loop_spec. unfold block_unused. split.
  - intros H. split; [done|]. intros j e xs x Hj He Hu Hxs Hx.
    destruct (H j e) as (ys & Hys & Hf); [lia|done|done|]. destruct (Hfiles j e Hj He Hu) as (zs & Hzs & Hz).
    simplify_eq. rewrite Forall_elem in Hf, Hz. destruct (Hz x Hx) as (? & ? & ?).
    apply (overlap_block B); [done|lia|lia|lia|lia|by apply Hf].
  - intros [_ H] j e Hj He Hu. destruct (Hfiles j e) as (zs & Hzs & Hz); [lia|done|done|].
    exists zs. split; [done|]. apply Forall_elem. intros x Hx. rewrite Forall_elem in Hz.
    destruct (Hz x Hx) as (? & ? & ?). apply (overlap_block B); [done|lia|lia|lia|lia|].
    intros Hin. by eapply (H j e zs x); eauto.
Qed.

(** A block the allocator may take. *)
Definition free_block (selected : list extent) (b : Z) : Prop :=
  sb_data_start_lba sb <= b < B /\ block_unused dir ignore b /\ Forall (fun x => ~ in_extent b x) selected.

Lemma block_is_free_spec selected b : 0 <= b < B -> Forall (extent_in_data sb B) selected ->
  block_is_free sb dir ignore selected b = true <-> free_block selected b.
Proof using HB Hs Hfiles.
  intros Hb Hsel. unfold block_is_free, free_block. change (2 ^ 32) with 4294967296 in HB.
  rewrite u32_small by cint. rewrite andb_true_iff, extent_is_free_spec, negb_true_iff by done.
  unfold extent_overlaps_selected. rewrite existsb_false, !Forall_elem. rewrite Forall_elem in Hsel.
  assert (Heq : (forall x, x ∈ selected -> ranges_overlap b 1 (ex_start_lba x) (ex_blocks x) = false) <->
          (forall x, x ∈ selected -> ~ in_extent b x)).
  { split; intros H x Hx; destruct (Hsel x Hx) as (? & ? & ?); apply (overlap_block B); try lia; auto. }
  rewrite Heq. split; [intros [[? ?] ?]|intros (? & ? & ?)]; split_and!; try done; lia.
Qed.

(** ** The scan *)

Context (selected : list extent) (Hsel : Forall (extent_in_data sb B) selected).

#[local] Abbreviation free := (block_is_free sb dir ignore selected).

Lemma skip_used_spec fuel start : B - start <= Z.of_nat fuel ->
  let s := skip_used sb dir ignore B fuel selected start in
  start <= s /\ (s <= Z.max start B) /\ (s < B -> free s = true) /\
  (forall b, start <= b < s -> free b = false).
Proof.
  cbv zeta. revert start. induction fuel as [|fuel IH]; intros start Hf; cbn [skip_used].
  - split_and!; lia.
  - destruct (start <? B) eqn:E1; bool_prop; cbn [andb]; [|split_and!; lia].
    destruct (free start) eqn:E2; cbn [negb]; [split_and!; done || lia|].
    destruct (IH (start + 1)) as (H1 & H2 & H3 & H4); [lia|]. split_and!; [lia|lia|done|].
    intros b Hb. destruct (decide (b = start)) as [->|]; [done|apply H4; lia].
Qed.

Lemma take_run_spec fuel remaining start run : 0 <= run <= remaining -> remaining < 2 ^ 32 ->
  B - start <= Z.of_nat fuel ->
  let '(s, r) := take_run sb dir ignore B fuel selected remaining start run in
  s - start = r - run /\ run <= r <= remaining /\ (s <= Z.max start B) /\
  (forall b, start <= b < s -> free b = true) /\
  (r = remaining \/ B <= s \/ free s = false).
Proof.
  revert start run. induction fuel as [|fuel IH]; intros start run Hr Hrem Hf; cbn [take_run].
  - split_and!; lia.
  - change (2 ^ 32) with 4294967296 in *.
    destruct (start <? B) eqn:E1; bool_prop; cbn [andb]; [|split_and!; lia].
    destruct (run <? remaining) eqn:E2; bool_prop; cbn [andb]; [|split_and!; lia].
    destruct (free start) eqn:E3; [|split_and!; auto; lia].
    rewrite u32_small by cint. specialize (IH (start + 1) (run + 1) ltac:(lia) Hrem ltac:(lia)).
    destruct (take_run _ _ _ _ _ _ _ _ _) as [s r]. destruct IH as (H1 & H2 & H3 & H4 & H5).
    split_and!; [lia|lia|lia|lia| |done].
    intros b Hb. destruct (decide (b = start)) as [->|]; [done|apply H4; lia].
Qed.

(** [L] free blocks in a row from [s] on. *)
Definition free_run (s L : Z) : Prop := sb_data_start_lba sb <= s /\ s + L <= B /\ forall b, s <= b < s + L -> free b = true.

Lemma scan_runs_spec fuel remaining start bs br : 0 < remaining < 2 ^ 32 ->
  sb_data_start_lba sb <= start -> 0 <= br < remaining ->
  B - start < Z.of_nat fuel -> (0 < br -> free_run bs br) ->
  (forall s L, s < start -> 0 < L <= remaining -> free_run s L -> L <= br) ->
  let '(s, r) := scan_runs sb dir ignore B fuel selected remaining start bs br in
  0 <= r <= remaining /\ (0 < r -> free_run s r) /\
  (forall s' L, 0 < L <= remaining -> free_run s' L -> L <= r).
Proof using HB Hs Hsel.
  intros Hrem. change (2 ^ 32) with 4294967296 in *. revert start bs br.
  induction fuel as [|fuel IH]; intros start bs br Hst Hbr Hf Hbest Hcov; [|cbn [scan_runs]].
  { cbn. split_and!; [lia|lia|done|]. intros s' L HL Hrun. apply (Hcov s'); [|done|done].
    destruct Hrun as (? & ? & ?). lia. }
  destruct (start <? B) eqn:E1; bool_prop; cbn [negb].
  2:{ split_and!; [lia|lia|done|]. intros s' L HL Hrun. apply (Hcov s'); [|done|done].
      destruct Hrun as (? & ? & ?). lia. }
  pose proof (skip_used_spec (Z.to_nat (B - start)) start ltac:(lia)) as Hskip. cbv zeta in Hskip.
  set (s1 := skip_used _ _ _ _ _ _ _) in *. destruct Hskip as (Hk1 & Hk2 & Hk3 & Hk4).
  pose proof (take_run_spec (Z.to_nat (B - s1)) remaining s1 0 ltac:(lia) ltac:(lia) ltac:(lia)) as Htake.
  destruct (take_run _ _ _ _ _ _ _ _ _) as [s2 run]. destruct Htake as (Ht1 & Ht2 & Ht3 & Ht4 & Ht5).
  assert (Hprog : start < s2).
  { destruct (decide (start < s1)); [lia|]. assert (s1 = start) by lia.
    assert (Hfree : free s1 = true) by (apply Hk3; lia).
    destruct (decide (run = 0)) as [E|E]; [|lia]. destruct Ht5 as [?|[?|Hx]]; [lia|lia|].
    replace s2 with s1 in Hx by lia. congruence. }
  assert (Hrun : 0 < run -> free_run s1 run).
  { intros Hr. split_and!; [lia|lia|]. intros b Hb. apply Ht4. lia. }
  (* every run that starts before [s2] is covered by [br] or [run] *)
  assert (Hcov2 : run < remaining -> forall s L, s < s2 -> 0 < L <= remaining -> free_run s L -> L <= Z.max br run).
  { intros Hlt s L Hs2 HL Hfr. destruct (decide (s < start)) as [|Hge]; [specialize (Hcov s L ltac:(lia) HL Hfr); lia|].
    destruct Hfr as (Hf1 & Hf2 & Hf3). destruct (decide (s < s1)) as [|Hge1].
    { specialize (Hk4 s ltac:(lia)). rewrite Hf3 in Hk4 by lia. done. }
    destruct Ht5 as [?|[?|Hx]]; [lia|lia|]. destruct (decide (s + L <= s2)) as [|Hgt]; [lia|].
    rewrite Hf3 in Hx by lia. done. }
  rewrite u32_small by cint.
  destruct (br <? run) eqn:E2; bool_prop; [destruct (run =? remaining) eqn:E3; bool_prop|].
  - subst run. split_and!; [lia|lia|done|]. intros; lia.
  - apply IH; [lia|lia|lia|done|]. intros s L Hs' HL Hfr. specialize (Hcov2 ltac:(lia) s L Hs' HL Hfr). lia.
  - apply IH; [lia|lia|lia|done|]. intros s L Hs' HL Hfr. specialize (Hcov2 ltac:(lia) s L Hs' HL Hfr). lia.
Qed.

(** The scan returns a longest run of free blocks, cut at [remaining]. *)
Lemma scan_best remaining : 0 < remaining < 2 ^ 32 ->
  let '(s, r) := scan_runs sb dir ignore B (S (Z.to_nat (B - sb_data_start_lba sb))) selected remaining
                   (sb_data_start_lba sb) 0 0 in
  0 <= r <= remaining /\ (0 < r -> free_run s r) /\
  (forall s' L, 0 < L <= remaining -> free_run s' L -> L <= r).
Proof using HB Hs Hsel.
  intros Hrem. apply scan_runs_spec; [done|lia|lia|lia|lia|].
  intros s L Hs' _ (? & _). lia.
Qed.
End free.

(** ** Collecting the extents *)

Lemma pairwise_snoc xs x : pairwise_disjoint xs -> Forall (fun y => ex_disjoint y x) xs ->
  pairwise_disjoint (xs ++ [x]).
Proof.
  induction xs as [|y xs IH]; intros Hp Hx; simpl in *; [split; [constructor|done]|].
  destruct Hp as [Hy Hp]. inv_Forall. split; [|auto]. apply Forall_app. split; [done|]. by constructor.
Qed.

Lemma sum_snoc xs x : foldr (fun x a => ex_blocks x + a) 0 (xs ++ [x]) =
  foldr (fun x a => ex_blocks x + a) 0 xs + ex_blocks x.
Proof. induction xs as [|y xs IH]; simpl; lia. Qed.

Section collect.
Context (sb : superblock) (B : Z) (dir : list dirent) (ignore : Z).
Context (HB : 0 <= B < 2 ^ 32) (Hs : 0 <= sb_data_start_lba sb) (Hd : dir_shape dir).
Context (Hfiles : forall j e, Z.of_nat j <> ignore -> dir !! j = Some e -> used e = LAINFS_ENTRY_FILE ->
                  exists xs, entry_extents e = Some xs /\ Forall (extent_in_data sb B) xs).

(** What the allocator promises about the extents it hands out. *)
Record extents_granted (blocks : Z) (xs : list extent) : Prop := {
  eg_count : (length xs <= 3)%nat;
  eg_data : Forall (extent_in_data sb B) xs;
  eg_pairwise : pairwise_disjoint xs;
  eg_unused : forall x b, x ∈ xs -> in_extent b x -> block_unused dir ignore b;
  eg_sum : foldr (fun x a => ex_blocks x + a) 0 xs = blocks
}.

Lemma free_run_granted granted xs s r : extents_granted granted xs -> (length xs < 3)%nat -> 0 < r ->
  free_run sb B dir ignore xs s r -> extents_granted (granted + r) (xs ++ [Extent s r]).
Proof using HB Hs Hfiles.
  intros [Hc Hdt Hp Hu Hsum] Hl Hr (Hf1 & Hf2 & Hf3).
  assert (Hfree : forall b, s <= b < s + r -> free_block sb B dir ignore xs b).
  { intros b Hb. apply block_is_free_spec; [done|done|done|lia|done|by apply Hf3]. }
  split.
  - rewrite length_app. simpl. lia.
  - apply Forall_app. split; [done|]. constructor; [|constructor]. split_and!; simpl; lia.
  - apply pairwise_snoc; [done|]. apply Forall_elem. intros y Hy. rewrite Forall_elem in Hdt.
    destruct (Hdt y Hy) as (Hy1 & Hy2 & Hy3). unfold ex_disjoint; simpl.
    destruct (decide (ex_start_lba y + ex_blocks y <= s)) as [|Hn1]; [auto|].
    destruct (decide (s + r <= ex_start_lba y)) as [|Hn2]; [auto|]. exfalso.
    destruct (Hfree (Z.max s (ex_start_lba y)) ltac:(lia)) as (_ & _ & Hsel).
    rewrite Forall_elem in Hsel. apply (Hsel y Hy). unfold in_extent. lia.
  - intros x b [Hx|Hx]%elem_of_app Hb; [by eapply Hu|].
    apply list_elem_of_singleton in Hx as ->. unfold in_extent in Hb; simpl in Hb.
    by destruct (Hfree b Hb) as (_ & ? & _).
  - rewrite sum_snoc. simpl. lia.
Qed.

Lemma collect_extents_spec rounds granted selected remaining xs :
  extents_granted granted selected -> 0 <= remaining < 2 ^ 32 ->
  collect_extents sb dir ignore B rounds selected remaining = Some xs ->
  extents_granted (granted + remaining) xs.
Proof using HB Hs Hfiles.
  revert granted selected remaining. induction rounds as [|rounds IH]; intros granted selected remaining Hg Hr H;
    cbn [collect_extents] in H.
  - destruct (remaining =? 0) eqn:E; bool_prop; [simplify_eq; by rewrite Z.add_0_r|]. repeat case_match; done.
  - destruct (remaining =? 0) eqn:E; bool_prop; [simplify_eq; by rewrite Z.add_0_r|].
    pose proof (scan_best sb B dir ignore HB Hs selected (eg_data _ _ Hg) remaining ltac:(lia)) as Hbest.
    destruct (scan_runs _ _ _ _ _ _ _ _ _ _) as [s r]. destruct Hbest as (Hr1 & Hrun & _).
    destruct ((r =? 0) || _) eqn:E2; [done|]. bool_prop. change LAINFS_MAX_EXTENTS with 3 in *.
    change (2 ^ 32) with 4294967296 in *. rewrite u32_small in H by cint.
    apply (IH (granted + r)) in H; [|apply free_run_granted; [done|lia|lia|apply Hrun; lia]|lia].
    by replace (granted + r + (remaining - r)) with (granted + remaining) in H by lia.
Qed.

Lemma find_free_extents_granted blocks xs : 0 <= blocks ->
  find_free_extents (Some B) sb dir blocks ignore = Some xs ->
  extents_granted blocks xs /\ extents_fit blocks xs.
Proof using HB Hs Hfiles.
  intros Hb H. unfold find_free_extents in H. destruct (_ || _) eqn:E; [done|]. bool_prop.
  change LAINFS_MAX_FILE_BLOCKS with 8192 in *.
  apply (collect_extents_spec 3 0) in H; [|split; simpl; (lia || done || apply Forall_nil_2 || (intros ? ? Hx; by apply not_elem_of_nil in Hx))
                                          |change (2 ^ 32) with 4294967296; lia].
  simpl in H. split; [done|]. destruct H as [Hc Hdt Hp Hu Hsum]. split; [|..|lia].
  - destruct xs; simpl in *; lia.
  - eapply Forall_impl; [|exact Hdt]. intros x (? & ? & ?). change (2 ^ 32) with 4294967296 in *. split; [cint|done].
Qed.

(** A run of free blocks that is long enough is always found, and then the
    file gets a single extent. *)
Lemma find_free_extents_single blocks s : 0 < blocks <= LAINFS_MAX_FILE_BLOCKS ->
  free_run sb B dir ignore [] s blocks ->
  exists s', find_free_extents (Some B) sb dir blocks ignore = Some [Extent s' blocks].
Proof using HB Hs Hfiles.
  intros Hb Hrun. change LAINFS_MAX_FILE_BLOCKS with 8192 in *. unfold find_free_extents.
  destruct (_ || _) eqn:E.
  { apply orb_true_iff in E as [E|E]; bool_prop; change LAINFS_MAX_FILE_BLOCKS with 8192 in *; lia. }
  cbn [collect_extents]. destruct (blocks =? 0) eqn:E0; bool_prop; [lia|].
  pose proof (scan_best sb B dir ignore HB Hs [] (Forall_nil_2 _) blocks) as Hbest.
  change (2 ^ 32) with 4294967296 in *. specialize (Hbest ltac:(lia)).
  destruct (scan_runs _ _ _ _ _ _ _ _ _ _) as [s' r]. destruct Hbest as (Hr1 & _ & Hmax).
  specialize (Hmax s blocks ltac:(lia) Hrun). assert (r = blocks) as -> by lia.
  destruct ((blocks =? 0) || _) eqn:E2; [apply orb_true_iff in E2 as [E2|E2]; bool_prop; [lia|change LAINFS_MAX_EXTENTS with 3 in E2; simpl length in E2; lia]|].
  rewrite Z.sub_diag. exists s'. done.
Qed.
End collect.
