(* ===== verification/LainfsState.v ===== *)
(** The state of LainFS and its caches: kernel/fs/lainfs.c, lines 53-64,
    271-576.

    The static variables of lainfs.c over a storage layer [S], the sixteen
    slot write-back block cache, the superblock and directory caches, and
    formatting. The buffer [sector\[\]] is scratch space that every function
    fills before it reads it; the functions here pass its contents as a
    value. The spin lock [lainfs_global_lock] is held around every public
    operation, so operations run one after the other. *)
From Stdlib Require Import ZArith Lia.
From stdpp Require Import base tactics option list numbers.
From S2P Require Import Prelude.
From S2P Require Import StorageApi.
From S2P Require Import LainfsLayout.
From S2P Require Import LainfsDir.
#[local] Open Scope Z_scope.

Definition LAINFS_DATA_CACHE_SLOTS : nat := 16.

Record cache_slot : Type := CacheSlot {
  cs_valid : bool;
  cs_dirty : bool;
  cs_partition : Z;
  cs_lba : Z;
  cs_age : Z;
  cs_data : list Z
}.

(** The counters of [lainfs_cache_stats_t] that the code keeps up to date. *)
Record cache_stats_t : Type := CacheStats {
  directory_reads : Z;
  directory_writes : Z;
  directory_cache_hits : Z;
  data_reads : Z;
  data_writes : Z;
  data_cache_hits : Z;
  flushes : Z
}.

Record fs (S : Type) : Type := Fs {
  directory : list dirent;
  super_cache : superblock;
  super_cache_valid : bool;
  super_cache_partition : Z;
  directory_cache_valid : bool;
  directory_cache_dirty : bool;
  directory_cache_partition : Z;
  data_cache : list cache_slot;
  cache_clock : Z;
  cache_stats : cache_stats_t;
  store : S
}.
Arguments Fs {S}.
Arguments directory {S}.
Arguments super_cache {S}.
Arguments super_cache_valid {S}.
Arguments super_cache_partition {S}.
Arguments directory_cache_valid {S}.
Arguments directory_cache_dirty {S}.
Arguments directory_cache_partition {S}.
Arguments data_cache {S}.
Arguments cache_clock {S}.
Arguments cache_stats {S}.
Arguments store {S}.

(** ** Field updates *)

Section updates.
Context {S : Type}.
Implicit Types st : fs S.

Definition set_directory (d : list dirent) st : fs S :=
  Fs d (super_cache st) (super_cache_valid st) (super_cache_partition st) (directory_cache_valid st)
     (directory_cache_dirty st) (directory_cache_partition st) (data_cache st) (cache_clock st) (cache_stats st) (store st).
Definition set_super (sb : superblock) (valid : bool) (p : Z) st : fs S :=
  Fs (directory st) sb valid p (directory_cache_valid st)
     (directory_cache_dirty st) (directory_cache_partition st) (data_cache st) (cache_clock st) (cache_stats st) (store st).
Definition set_dir_flags (valid dirty : bool) (p : Z) st : fs S :=
  Fs (directory st) (super_cache st) (super_cache_valid st) (super_cache_partition st) valid
     dirty p (data_cache st) (cache_clock st) (cache_stats st) (store st).
Definition set_slots (sl : list cache_slot) st : fs S :=
  Fs (directory st) (super_cache st) (super_cache_valid st) (super_cache_partition st) (directory_cache_valid st)
     (directory_cache_dirty st) (directory_cache_partition st) sl (cache_clock st) (cache_stats st) (store st).
Definition set_clock (c : Z) st : fs S :=
  Fs (directory st) (super_cache st) (super_cache_valid st) (super_cache_partition st) (directory_cache_valid st)
     (directory_cache_dirty st) (directory_cache_partition st) (data_cache st) c (cache_stats st) (store st).
Definition set_stats (cs : cache_stats_t) st : fs S :=
  Fs (directory st) (super_cache st) (super_cache_valid st) (super_cache_partition st) (directory_cache_valid st)
     (directory_cache_dirty st) (directory_cache_partition st) (data_cache st) (cache_clock st) cs (store st).
Definition set_store (s : S) st : fs S :=
  Fs (directory st) (super_cache st) (super_cache_valid st) (super_cache_partition st) (directory_cache_valid st)
     (directory_cache_dirty st) (directory_cache_partition st) (data_cache st) (cache_clock st) (cache_stats st) s.

Definition count_directory_read (c : cache_stats_t) : cache_stats_t :=
  CacheStats (u64 (directory_reads c + 1)) (directory_writes c) (directory_cache_hits c) (data_reads c)
             (data_writes c) (data_cache_hits c) (flushes c).
Definition count_directory_write (c : cache_stats_t) : cache_stats_t :=
  CacheStats (directory_reads c) (u64 (directory_writes c + 1)) (directory_cache_hits c) (data_reads c)
             (data_writes c) (data_cache_hits c) (flushes c).
Definition count_directory_hit (c : cache_stats_t) : cache_stats_t :=
  CacheStats (directory_reads c) (directory_writes c) (u64 (directory_cache_hits c + 1)) (data_reads c)
             (data_writes c) (data_cache_hits c) (flushes c).
Definition count_data_read (c : cache_stats_t) : cache_stats_t :=
  CacheStats (directory_reads c) (directory_writes c) (directory_cache_hits c) (u64 (data_reads c + 1))
             (data_writes c) (data_cache_hits c) (flushes c).
Definition count_data_write (c : cache_stats_t) : cache_stats_t :=
  CacheStats (directory_reads c) (directory_writes c) (directory_cache_hits c) (data_reads c)
             (u64 (data_writes c + 1)) (data_cache_hits c) (flushes c).
Definition count_data_hit (c : cache_stats_t) : cache_stats_t :=
  CacheStats (directory_reads c) (directory_writes c) (directory_cache_hits c) (data_reads c)
             (data_writes c) (u64 (data_cache_hits c + 1)) (flushes c).
Definition count_flush (c : cache_stats_t) : cache_stats_t :=
  CacheStats (directory_reads c) (directory_writes c) (directory_cache_hits c) (data_reads c)
             (data_writes c) (data_cache_hits c) (u64 (flushes c + 1)).

Definition bump (f : cache_stats_t -> cache_stats_t) st : fs S := set_stats (f (cache_stats st)) st.

(** Run a storage operation on the storage part of the state. *)
Definition on_store {A} (m : M S A) : M (fs S) A := fun st =>
  let '(r, s) := m (store st) in (r, set_store s st).

(** [for (i = 0; i < n; ++i) if (f(i) != 0) return -1;] *)
Fixpoint each_slot (idxs : list nat) (f : nat -> M (fs S) unit) : M (fs S) unit :=
  match idxs with
  | [] => mret tt
  | i :: idxs' => or_return (f i) (-1);; each_slot idxs' f
  end.
End updates.

Definition set_slot_dirty (d : bool) (s : cache_slot) : cache_slot :=
  CacheSlot (cs_valid s) d (cs_partition s) (cs_lba s) (cs_age s) (cs_data s).
Definition invalid_slot (s : cache_slot) : cache_slot :=
  CacheSlot false false (cs_partition s) (cs_lba s) (cs_age s) (cs_data s).

(** ** Operations *)

Section operations.
Context {S : Type} `{!StorageApi S}.
Implicit Types st : fs S.

Definition slot_at st (i : nat) : cache_slot :=
  default (CacheSlot false false 0 0 0 []) (data_cache st !! i).
Definition put_slot (i : nat) (s : cache_slot) st : fs S := set_slots (<[i := s]> (data_cache st)) st.

Definition mount_for_drive st (drive_letter : Z) : option mount :=
  api_get_mount_by_drive (store st) (to_upper drive_letter).

Definition part_blocks st (p : Z) : option Z := pt_block_count <$> api_get_partition (store st) p.

(** The fields [raw_read_super] accepts. *)
Definition super_is_good (sb : superblock) : bool :=
  (sb_magic0 sb =? LAINFS_MAGIC0) && (sb_magic1 sb =? LAINFS_MAGIC1) && (sb_version sb =? 1) &&
  (sb_block_size sb =? LAINFS_BLOCK_SIZE) && (sb_dir_blocks sb =? LAINFS_DIR_BLOCKS) &&
  (sb_max_files sb =? LAINFS_MAX_FILES).

(** The superblock read into the buffer, if the read worked, and the status. *)
Definition raw_read_super st (p : Z) : option superblock * Z :=
  match api_read_partition (store st) p 0 1 with
  | None => (None, -1)
  | Some bs => let sb := superblock_of_bytes bs in (Some sb, if super_is_good sb then 0 else -2)
  end.

Definition flush_data_cache_slot (slot_index : nat) : M (fs S) unit := fun st =>
  if (LAINFS_DATA_CACHE_SLOTS <=? slot_index)%nat then (inl (-1), st)
  else
    let slot := slot_at st slot_index in
    if negb (cs_valid slot) || negb (cs_dirty slot) then (inr tt, st)
    else (or_return (on_store (api_write_partition (cs_partition slot) (cs_lba slot) 1 (cs_data slot))) (-1);;
          modify (put_slot slot_index (set_slot_dirty false slot));;
          modify (bump count_flush)) st.

Definition flush_slot_of (p : Z) (i : nat) : M (fs S) unit := fun st =>
  let slot := slot_at st i in
  if cs_valid slot && cs_dirty slot && (cs_partition slot =? p) then flush_data_cache_slot i st
  else (inr tt, st).

Definition flush_data_cache_partition (p : Z) : M (fs S) unit :=
  each_slot (seq 0 LAINFS_DATA_CACHE_SLOTS) (flush_slot_of p).

(** The superblock [flush_directory_cache] uses for its partition. *)
Definition directory_super st : option superblock :=
  if super_cache_valid st && (super_cache_partition st =? directory_cache_partition st)
  then Some (super_cache st)
  else match raw_read_super st (directory_cache_partition st) with
       | (Some sb, 0) => Some sb
       | _ => None
       end.

Definition flush_directory_cache : M (fs S) unit := fun st =>
  if negb (directory_cache_valid st) || negb (directory_cache_dirty st) then (inr tt, st)
  else match directory_super st with
       | None => (inl (-1), st)
       | Some sb =>
           (or_return (on_store (api_write_partition (directory_cache_partition st) (sb_dir_start_lba sb)
                                   (sb_dir_blocks sb) (bytes_of_directory (directory st)))) (-1);;
            modify (fun st => set_dir_flags (directory_cache_valid st) false (directory_cache_partition st) st);;
            modify (bump count_flush)) st
       end.

Definition flush_directory_if_dirty : M (fs S) unit := fun st =>
  if directory_cache_valid st && directory_cache_dirty st then flush_directory_cache st else (inr tt, st).

Definition flush_partition_cache (p : Z) : M (fs S) unit :=
  or_return (flush_data_cache_partition p) (-1);;
  step (fun st =>
    if directory_cache_valid st && directory_cache_dirty st && (directory_cache_partition st =? p)
    then or_return flush_directory_cache (-1) st else (inr tt, st)).

Definition invalidate_partition_cache (p : Z) st : fs S :=
  let st1 := if super_cache_valid st && (super_cache_partition st =? p)
             then set_super (super_cache st) false (super_cache_partition st) st else st in
  let st2 := if directory_cache_valid st1 && (directory_cache_partition st1 =? p)
             then set_dir_flags false false (directory_cache_partition st1) st1 else st1 in
  set_slots ((fun s => if cs_valid s && (cs_partition s =? p) then invalid_slot s else s) <$> data_cache st2) st2.

(** The slot that caches a block. *)
Definition find_slot st (p lba : Z) : option nat :=
  find_index (fun s => cs_valid s && (cs_partition s =? p) && (cs_lba s =? lba)) (data_cache st).

(** The victim search: the first invalid slot, else the least recently used. *)
Fixpoint choose_victim (i : nat) (slots : list cache_slot) (victim : nat) (oldest : Z) : nat :=
  match slots with
  | [] => victim
  | s :: slots' =>
      if negb (cs_valid s) then i
      else if cs_age s <? oldest then choose_victim (i + 1) slots' i (cs_age s)
      else choose_victim (i + 1) slots' victim oldest
  end.

Definition pick_victim st : nat := choose_victim 0 (data_cache st) 0 0xffffffffffffffff.

Definition cached_read_block (p lba : Z) : M (fs S) (list Z) := fun st =>
  match find_slot st p lba with
  | Some i =>
      let slot := slot_at st i in
      let clock := u64 (cache_clock st + 1) in
      let st1 := put_slot i (CacheSlot (cs_valid slot) (cs_dirty slot) (cs_partition slot) (cs_lba slot) clock
                               (cs_data slot)) (set_clock clock st) in
      (inr (cs_data slot), bump count_data_hit st1)
  | None =>
      let victim := pick_victim st in
      (or_return (flush_data_cache_slot victim) (-1);;
       step (fun st =>
         match api_read_partition (store st) p lba 1 with
         | None => (inl (-1), put_slot victim (invalid_slot (slot_at st victim)) st)
         | Some bs =>
             let clock := u64 (cache_clock st + 1) in
             (inr bs, bump count_data_read (put_slot victim (CacheSlot true false p lba clock bs) (set_clock clock st)))
         end)) st
  end.

Definition cached_write_block (p lba : Z) (buffer : list Z) : M (fs S) unit := fun st =>
  match find_slot st p lba with
  | Some i =>
      let slot := slot_at st i in
      let clock := u64 (cache_clock st + 1) in
      let st1 := put_slot i (CacheSlot (cs_valid slot) true (cs_partition slot) (cs_lba slot) clock buffer)
                   (set_clock clock st) in
      (inr tt, bump count_data_write (bump count_data_hit st1))
  | None =>
      let victim := pick_victim st in
      (or_return (flush_data_cache_slot victim) (-1);;
       step (fun st =>
         let clock := u64 (cache_clock st + 1) in
         (inr tt, bump count_data_write (put_slot victim (CacheSlot true true p lba clock buffer) (set_clock clock st))))) st
  end.

(** The superblock [format_partition_index] writes. *)
Definition format_super : superblock :=
  Superblock LAINFS_MAGIC0 LAINFS_MAGIC1 1 LAINFS_BLOCK_SIZE 1 LAINFS_DIR_BLOCKS (1 + LAINFS_DIR_BLOCKS) LAINFS_MAX_FILES.

Definition format_partition_index (p : Z) : M (fs S) unit :=
  blocks ← gets (fun st => part_blocks st p);
  blocks ← from_option blocks (-2);
  guardb (64 <=? blocks) (-2);;
  writable ← gets (fun st => api_partition_is_writable (store st) p);
  guardb writable (-4);;
  or_return flush_directory_if_dirty (-5);;
  modify (invalidate_partition_cache p);;
  or_return (on_store (api_write_partition p 0 1 (bytes_of_superblock format_super))) (-5);;
  modify (set_directory (replicate (Z.to_nat LAINFS_MAX_FILES) zero_dirent));;
  or_return (fun st => on_store (api_write_partition p (sb_dir_start_lba format_super) (sb_dir_blocks format_super)
                                   (bytes_of_directory (directory st))) st) (-5);;
  modify (fun st => set_store (api_discover_partitions (store st)) st);;
  modify (invalidate_partition_cache p).

Definition read_super (p : Z) : M (fs S) superblock := fun st =>
  if super_cache_valid st && (super_cache_partition st =? p) then (inr (super_cache st), st)
  else
    let '(sb, r) := raw_read_super st p in
    let sb := default (super_cache st) sb in
    if r =? 0 then (inr sb, set_super sb true p st)
    else (inl (-1), set_super sb false (super_cache_partition st) st).

Definition load_directory_unchecked (p : Z) (sb : superblock) : M (fs S) unit := fun st =>
  if directory_cache_valid st && (directory_cache_partition st =? p)
  then (inr tt, bump count_directory_hit st)
  else (or_return flush_directory_if_dirty (-1);;
        step (fun st =>
          match api_read_partition (store st) p (sb_dir_start_lba sb) (sb_dir_blocks sb) with
          | None => (inl (-1), set_dir_flags false false (directory_cache_partition st) st)
          | Some bs => (inr tt, bump count_directory_read (set_dir_flags true false p (set_directory (directory_of_bytes bs) st)))
          end)) st.

Definition load_directory (p : Z) (sb : superblock) : M (fs S) unit :=
  or_return (load_directory_unchecked p sb) (-1);;
  step (fun st =>
    match validate_directory (part_blocks st p) sb (directory st) with
    | Some _ => (inl (-1), set_dir_flags false false (directory_cache_partition st) st)
    | None => (inr tt, st)
    end).

Definition save_directory (p : Z) : M (fs S) unit :=
  modify (fun st => bump count_directory_write (set_dir_flags true true p st)).

End operations.
