(* ===== verification/LainfsCache.v ===== *)
(** The caches of LainFS are transparent: kernel/fs/lainfs.c, lines 292-576.

    The invariant [fs_inv] of the static variables, the contents [view] and
    [dview] that the rest of the file system sees through the caches, and the
    theorems that reads return them, writes change one block of them, and
    evictions and flushes do not change them at all. *)
From Stdlib Require Import ZArith Lia.
From stdpp Require Import base tactics option list numbers.
From S2P Require Import Prelude.
From S2P Require Import StorageApi.
From S2P Require Import LainfsLayout.
From S2P Require Import LainfsDir.
From S2P Require Import LainfsState.
#[local] Open Scope Z_scope.

(** ** Slots *)

Definition keyed (s : cache_slot) (p lba : Z) : Prop :=
  cs_valid s = true /\ cs_partition s = p /\ cs_lba s = lba.

Definition lookup_slots (sl : list cache_slot) (p lba : Z) : option (list Z) :=
  i ← find_index (fun s => cs_valid s && (cs_partition s =? p) && (cs_lba s =? lba)) sl;
  cs_data <$> sl !! i.

#[global] Arguments lookup_slots : simpl never.

Definition unique_keys (sl : list cache_slot) : Prop :=
  forall i j s t p lba, sl !! i = Some s -> sl !! j = Some t -> keyed s p lba -> keyed t p lba -> i = j.

Lemma keyed_true s p lba :
  cs_valid s && (cs_partition s =? p) && (cs_lba s =? lba) = true <-> keyed s p lba.
Proof. unfold keyed. rewrite !andb_true_iff, !Z.eqb_eq. tauto. Qed.

Lemma lookup_slots_None sl p lba :
  lookup_slots sl p lba = None <-> forall i s, sl !! i = Some s -> ~ keyed s p lba.
Proof.
  unfold lookup_slots. split.
  - intros H i s Hi Hk. destruct (find_index _ sl) as [j|] eqn:E.
    + apply find_index_Some in E as (t & Ht & _). simpl in H. by rewrite Ht in H.
    + apply (proj1 (find_index_None _ _)) with (i := i) (x := s) in E; [|done].
      apply keyed_true in Hk. congruence.
  - intros H. destruct (find_index _ sl) as [j|] eqn:E; [|done].
    apply find_index_Some in E as (t & Ht & Hk & _). apply keyed_true in Hk. by apply H in Ht.
Qed.

Lemma lookup_slots_Some sl p lba d : unique_keys sl ->
  lookup_slots sl p lba = Some d <-> exists i s, sl !! i = Some s /\ keyed s p lba /\ cs_data s = d.
Proof.
  intros Hu. unfold lookup_slots. split.
  - intros (i & Hi & (s & Hs & Hd)%fmap_Some)%bind_Some.
    apply find_index_Some in Hi as (t & Ht & Hk & _). simplify_eq. exists i, t. by rewrite <- keyed_true.
  - intros (i & s & Hi & Hk & <-). destruct (find_index _ sl) as [j|] eqn:E.
    + apply find_index_Some in E as (t & Ht & Hkt & _). apply keyed_true in Hkt.
      assert (i = j) as <- by eauto. simpl. by rewrite Hi.
    + apply (proj1 (find_index_None _ _)) with (i := i) (x := s) in E; [|done].
      apply keyed_true in Hk. congruence.
Qed.

#[export] Instance keyed_dec s p lba : Decision (keyed s p lba).
Proof. unfold keyed. apply _. Defined.

Lemma keyed_inj s p lba q l : keyed s p lba -> keyed s q l -> q = p /\ l = lba.
Proof. unfold keyed. intros (?&?&?) (?&?&?). split; congruence. Qed.

(** A slot may be replaced if no other slot has the new key. *)
Definition key_fresh (sl : list cache_slot) (i : nat) (s' : cache_slot) : Prop :=
  forall j t p lba, j <> i -> sl !! j = Some t -> keyed t p lba -> ~ keyed s' p lba.

Lemma unique_keys_insert sl i s' : unique_keys sl -> key_fresh sl i s' -> unique_keys (<[i := s']> sl).
Proof.
  intros Hu Hf j k s t p lba Hj Hk Hs Ht.
  apply list_lookup_insert_Some in Hj as [(<- & <- & _)|(Hij & Hj)];
  apply list_lookup_insert_Some in Hk as [(<- & <- & _)|(Hik & Hk)]; try done.
  - exfalso. eapply (Hf k t); eauto.
  - exfalso. eapply (Hf j s); eauto.
  - by eapply Hu.
Qed.

Lemma lookup_slots_insert sl i s s' p lba : unique_keys sl -> sl !! i = Some s -> key_fresh sl i s' ->
  lookup_slots (<[i := s']> sl) p lba =
  if decide (keyed s' p lba) then Some (cs_data s')
  else if decide (keyed s p lba) then None else lookup_slots sl p lba.
Proof.
  intros Hu Hi Hf. pose proof (lookup_lt_Some _ _ _ Hi) as Hlt. pose proof (unique_keys_insert _ _ _ Hu Hf) as Hu'.
  destruct (decide (keyed s' p lba)) as [Hk|Hk].
  { apply lookup_slots_Some; [done|]. exists i, s'. by rewrite list_lookup_insert_eq. }
  destruct (decide _) as [Hks|Hn].
  { apply lookup_slots_None. intros j t Hj Ht.
    apply list_lookup_insert_Some in Hj as [(<- & <- & _)|(Hij & Hj)]; [done|].
    apply Hij. by eapply Hu. }
  destruct (lookup_slots sl p lba) as [d|] eqn:E.
  - apply lookup_slots_Some in E as (j & t & Hj & Ht & Hd); [|done].
    apply lookup_slots_Some; [done|]. exists j, t. split; [|done].
    rewrite list_lookup_insert_ne; [done|]. intros <-. apply Hn. by simplify_eq.
  - apply lookup_slots_None. intros j t Hj Ht. rewrite lookup_slots_None in E.
    apply list_lookup_insert_Some in Hj as [(<- & <- & _)|(Hij & Hj)]; [done|]. by eapply E.
Qed.

Lemma choose_victim_lt i slots victim oldest : (victim < i + length slots)%nat ->
  (choose_victim i slots victim oldest < i + length slots)%nat.
Proof.
  revert i victim oldest. induction slots as [|s slots IH]; intros i victim oldest Hv; simpl in *; [lia|].
  destruct (negb _); [lia|]. destruct (_ <? _).
  - specialize (IH (i + 1)%nat i (cs_age s)). lia.
  - specialize (IH (i + 1)%nat victim oldest). lia.
Qed.

Lemma length_concat_same (n : nat) (ls : list (list Z)) : Forall (fun l => length l = n) ls ->
  length (concat ls) = (n * length ls)%nat.
Proof. induction 1 as [|l ls Hl _ IH]; simpl; [lia|]. rewrite length_app. lia. Qed.

(** The blocks of a run of blocks, put together again. *)
Lemma concat_blocks a n (bs : list Z) : 0 <= n -> length bs = (512 * Z.to_nat n)%nat ->
  concat ((fun l => take 512 (drop (512 * Z.to_nat (l - a)) bs)) <$> seqZ a n) = bs.
Proof.
  intros Hn Hl. trans (concat (chunks (Z.to_nat n) 512 bs)); [f_equal|apply concat_chunks; lia].
  apply list_eq. intros i. rewrite list_lookup_fmap. destruct (decide (Z.of_nat i < n)) as [Hi|Hi].
  - rewrite lookup_seqZ_lt, lookup_chunks by lia. simpl. do 3 f_equal. lia.
  - rewrite lookup_seqZ_ge by lia. symmetry. apply lookup_ge_None. rewrite length_chunks. lia.
Qed.

(** ** Formatted partitions *)

Section cache.
Context {S : Type} `{!StorageApi S, !StorageLaws S}.
Implicit Types (s : S) (st : fs S).

(** Partition [p] has [B] blocks and superblock [sb]. *)
Record formatted s (p : Z) (sb : superblock) (B : Z) : Prop := {
  fm_live : st_live s p;
  fm_part : pt_block_count <$> api_get_partition s p = Some B;
  fm_width : B < 2 ^ 32;
  fm_super : superblock_of_bytes (st_sector s p 0) = sb;
  fm_good : super_is_good sb = true;
  fm_layout : layout_wf sb B;
  fm_sb : superblock_ok sb
}.

Definition apart s : Prop := forall p q, st_live s p -> st_live s q -> p <> q -> st_disjoint s p q.

Definition disk_directory s (p : Z) (sb : superblock) : list dirent :=
  directory_of_bytes (concat (st_sector s p <$> seqZ (sb_dir_start_lba sb) (sb_dir_blocks sb))).

Lemma formatted_part s p sb B : formatted s p sb B ->
  exists part, api_get_partition s p = Some part /\ pt_block_count part = B.
Proof. intros [_ Hp _ _ _ _ _]. by apply fmap_Some in Hp as (part & Hg & ->); eauto. Qed.

Lemma formatted_unique s p sb B sb' B' : formatted s p sb B -> formatted s p sb' B' -> sb' = sb /\ B' = B.
Proof. intros [_ H1 _ H2 _ _ _] [_ H1' _ H2' _ _ _]. split; congruence. Qed.

Lemma good_super_fields sb : super_is_good sb = true -> sb_dir_blocks sb = 256.
Proof. unfold super_is_good. intros H. bool_prop. done. Qed.

Lemma formatted_ranges s p sb B : formatted s p sb B ->
  sb_dir_blocks sb = 256 /\ 1 <= sb_dir_start_lba sb /\
  sb_dir_start_lba sb + 256 <= sb_data_start_lba sb < B /\ B < 2 ^ 32.
Proof.
  intros [_ _ HB _ Hg [H1 H2 H3 H4 H5] [Hok]]. rewrite (good_super_fields _ Hg) in *.
  repeat (apply Forall_cons_1 in Hok as [? Hok]). cint.
Qed.

Lemma formatted_read s p sb B lba n : st_wf s -> formatted s p sb B -> 0 <= lba -> 0 <= n -> lba + n <= B ->
  api_read_partition s p lba n = Some (concat (st_sector s p <$> seqZ lba n)).
Proof.
  intros Hw Hf Hl Hn Hb. destruct (formatted_part _ _ _ _ Hf) as (part & Hg & <-).
  by apply (law_read s p part lba n Hw (fm_live _ _ _ _ Hf) Hg).
Qed.

Lemma formatted_sector s p sb B lba : st_wf s -> formatted s p sb B -> 0 <= lba < B ->
  length (st_sector s p lba) = 512%nat /\ bytes (st_sector s p lba).
Proof.
  intros Hw Hf Hl. destruct (formatted_part _ _ _ _ Hf) as (part & Hg & <-).
  by apply (law_sector s p part lba Hw (fm_live _ _ _ _ Hf) Hg).
Qed.

(** Reading one block. *)
Lemma formatted_read_block s p sb B lba : st_wf s -> formatted s p sb B -> 0 <= lba < B ->
  api_read_partition s p lba 1 = Some (st_sector s p lba).
Proof.
  intros Hw Hf Hl. rewrite (formatted_read s p sb B) by (done || lia).
  rewrite seqZ_cons, seqZ_nil by lia. simpl. by rewrite app_nil_r.
Qed.

(** What a write past block 0 of a formatted partition does. *)
Record written s s' (p lba n : Z) (bs : list Z) : Prop := {
  wr_wf : st_wf s';
  wr_apart : apart s';
  wr_tables : same_tables s s';
  wr_live q : st_live s q -> st_live s' q;
  wr_formatted q sb B : formatted s q sb B -> formatted s' q sb B;
  wr_sector q sb B l : formatted s q sb B -> 0 <= l < B ->
    st_sector s' q l = if decide (q = p /\ lba <= l < lba + n)
                       then take 512 (drop (512 * Z.to_nat (l - lba)) bs) else st_sector s q l
}.

Lemma store_write s p sb B lba n bs : st_wf s -> apart s -> formatted s p sb B ->
  1 <= lba -> 0 <= n -> lba + n <= B -> length bs = (512 * Z.to_nat n)%nat -> bytes bs ->
  exists s', api_write_partition p lba n bs s = (inr tt, s') /\ written s s' p lba n bs.
Proof.
  intros Hw Ha Hf Hl Hn Hb Hlen Hbs. destruct (formatted_part _ _ _ _ Hf) as (part & Hg & HB).
  destruct (law_write s p part lba n bs Hw (fm_live _ _ _ _ Hf) Hg) as (s' & Hwr & Hw' & Hlv & Hdj & Hsame & Hother);
    [lia|lia|lia|done|done|].
  exists s'. split; [done|]. pose proof (law_tables _ _ _ _ _ _ _ Hwr) as Ht.
  assert (Hsec : forall q sbq Bq l, formatted s q sbq Bq -> 0 <= l < Bq ->
    st_sector s' q l = if decide (q = p /\ lba <= l < lba + n)
                       then take 512 (drop (512 * Z.to_nat (l - lba)) bs) else st_sector s q l).
  { intros q sbq Bq l Hq Hlq. destruct (formatted_part _ _ _ _ Hq) as (partq & Hgq & HBq).
    destruct (decide (q = p)) as [->|Hne].
    - assert (partq = part) as -> by congruence. rewrite Hsame by lia.
      destruct (decide (lba <= l < lba + n)); [rewrite decide_True by done|rewrite decide_False by tauto]; done.
    - rewrite decide_False by tauto. apply (Hother q partq); [by destruct Hq|done| |lia].
      apply Ha; [by destruct Hf|by destruct Hq|congruence]. }
  split; [done| |done|intros q; apply Hlv| |done].
  - intros q r Hq Hr Hqr. apply Hdj, Ha; [by apply Hlv|by apply Hlv|done].
  - intros q sbq Bq Hq. pose proof (formatted_ranges _ _ _ _ Hq) as (_ & Hr1 & Hr & _).
    pose proof (Hsec q sbq Bq 0 Hq ltac:(lia)) as Hz. rewrite decide_False in Hz by lia.
    destruct Ht as (Hgp & _ & _). destruct Hq. split; try done; [by apply Hlv|by rewrite Hgp|by rewrite Hz].
Qed.

Lemma disk_directory_ok s p sb B : st_wf s -> formatted s p sb B -> dir_shape (disk_directory s p sb).
Proof.
  intros Hw Hf. pose proof (formatted_ranges _ _ _ _ Hf) as (Hd & H1 & H2 & _).
  assert (Hsec : forall l, l ∈ seqZ (sb_dir_start_lba sb) 256 ->
            length (st_sector s p l) = 512%nat /\ bytes (st_sector s p l)).
  { intros l Hl%elem_of_seqZ. apply (formatted_sector s p sb B); [done|done|lia]. }
  unfold disk_directory. rewrite Hd. apply directory_of_bytes_ok.
  - apply Forall_concat, Forall_fmap, Forall_elem. intros l Hl. by apply Hsec.
  - rewrite (length_concat_same 512) by (apply Forall_fmap, Forall_elem; intros l Hl; by apply Hsec).
    rewrite length_fmap, length_seqZ. lia.
Qed.

(** ** Invariant *)

(** A valid slot caches a data block, and agrees with the disk when clean. *)
Definition slot_ok s (c : cache_slot) : Prop :=
  cs_valid c = true ->
  (exists sb B, formatted s (cs_partition c) sb B /\ sb_data_start_lba sb <= cs_lba c < B) /\
  length (cs_data c) = 512%nat /\ bytes (cs_data c) /\
  (cs_dirty c = false -> cs_data c = st_sector s (cs_partition c) (cs_lba c)).

Record fs_inv st : Prop := {
  iv_store : st_wf (store st);
  iv_apart : apart (store st);
  iv_length : length (data_cache st) = LAINFS_DATA_CACHE_SLOTS;
  iv_slot i c : data_cache st !! i = Some c -> slot_ok (store st) c;
  iv_unique : unique_keys (data_cache st);
  iv_super : super_cache_valid st = true ->
    exists B, formatted (store st) (super_cache_partition st) (super_cache st) B;
  iv_dir : directory_cache_valid st = true -> dir_shape (directory st) /\
    exists sb B, formatted (store st) (directory_cache_partition st) sb B /\
      (directory_cache_dirty st = false ->
       directory st = disk_directory (store st) (directory_cache_partition st) sb)
}.

(** What the file system sees of a data block and of the directory. *)
Definition view st (p lba : Z) : list Z :=
  default (st_sector (store st) p lba) (lookup_slots (data_cache st) p lba).

Definition dview st (p : Z) (sb : superblock) : list dirent :=
  if directory_cache_valid st && (directory_cache_partition st =? p) then directory st
  else disk_directory (store st) p sb.

(** Two states that show the same tables, data blocks and directories. *)
Record same_fs st st' : Prop := {
  sf_tables : same_tables (store st) (store st');
  sf_live p : st_live (store st) p -> st_live (store st') p;
  sf_formatted p sb B : formatted (store st) p sb B -> formatted (store st') p sb B;
  sf_view p sb B lba : formatted (store st) p sb B -> sb_data_start_lba sb <= lba < B ->
    view st' p lba = view st p lba;
  sf_dview p sb B : formatted (store st) p sb B -> dview st' p sb = dview st p sb
}.

#[export] Instance same_fs_preorder : PreOrder same_fs.
Proof.
  split.
  - intros st. split; done.
  - intros st1 st2 st3 [T1 L1 F1 V1 D1] [T2 L2 F2 V2 D2]. split.
    + by trans (store st2).
    + auto.
    + auto.
    + intros p sb B lba Hf Hl. rewrite (V2 p sb B) by auto. by apply (V1 p sb B).
    + intros p sb B Hf. rewrite (D2 p sb B) by auto. by apply (D1 p sb B).
Qed.

(** Counters, the clock and slot ages do not matter. *)
Lemma bump_inv f st : fs_inv (bump f st) <-> fs_inv st.
Proof. split; intros []; by split. Qed.
Lemma bump_same f st : same_fs st (bump f st).
Proof. by split. Qed.
Lemma clock_inv c st : fs_inv (set_clock c st) <-> fs_inv st.
Proof. split; intros []; by split. Qed.
Lemma clock_same c st : same_fs st (set_clock c st).
Proof. by split. Qed.

Lemma same_fs_bump f st st' : same_fs st st' -> same_fs st (bump f st').
Proof. intros H. etrans; [exact H|apply bump_same]. Qed.

Lemma slot_at_lookup st i : fs_inv st -> (i < 16)%nat -> data_cache st !! i = Some (slot_at st i).
Proof.
  intros Hi Hlt. unfold slot_at. destruct (lookup_lt_is_Some_2 (data_cache st) i) as [c Hc]; [|by rewrite Hc].
  rewrite (iv_length _ Hi). done.
Qed.

(** A clean slot shows what is on disk. *)
Lemma clean_slot_view st i c p lba : fs_inv st -> data_cache st !! i = Some c -> keyed c p lba ->
  cs_dirty c = false -> view st p lba = st_sector (store st) p lba.
Proof.
  intros Hi Hc (Hv & <- & <-) Hd. unfold view.
  rewrite (proj2 (lookup_slots_Some _ _ _ (cs_data c) (iv_unique _ Hi))) by (exists i, c; done).
  destruct (iv_slot _ Hi _ _ Hc Hv) as (_ & _ & _ & Heq). simpl. auto.
Qed.

(** Replacing slot [i]: the old block is clean or stays in the slot. *)
Lemma put_slot_view st i c c' p lba : fs_inv st -> data_cache st !! i = Some c ->
  key_fresh (data_cache st) i c' ->
  (forall q l, keyed c q l -> cs_dirty c = false \/ keyed c' q l) ->
  view (put_slot i c' st) p lba = if decide (keyed c' p lba) then cs_data c' else view st p lba.
Proof.
  intros Hi Hc Hf Hold. unfold view at 1. cbn [put_slot set_slots data_cache store].
  rewrite (lookup_slots_insert _ _ c) by (done || apply Hi).
  destruct (decide (keyed c' p lba)) as [Hk|Hk]; [done|].
  destruct (decide (keyed c p lba)) as [Ho|Ho]; [|done].
  destruct (Hold _ _ Ho) as [Hd|?]; [|done]. by rewrite (clean_slot_view st i c).
Qed.

Lemma put_slot_inv st i c' : fs_inv st -> key_fresh (data_cache st) i c' -> slot_ok (store st) c' ->
  fs_inv (put_slot i c' st).
Proof.
  intros Hi Hf Hc. destruct Hi. split; try done; simpl.
  - by rewrite length_insert.
  - intros j t Hj. apply list_lookup_insert_Some in Hj as [(<- & <- & _)|(_ & Hj)]; eauto.
  - by apply unique_keys_insert.
Qed.

(** Replacing slot [i] by one that shows the same. *)
Lemma put_slot_same st i c c' : fs_inv st -> data_cache st !! i = Some c ->
  key_fresh (data_cache st) i c' -> slot_ok (store st) c' ->
  (forall q l, keyed c q l -> cs_dirty c = false \/ keyed c' q l) ->
  (forall q l, keyed c' q l -> cs_data c' = view st q l) ->
  fs_inv (put_slot i c' st) /\ same_fs st (put_slot i c' st).
Proof.
  intros Hi Hc Hf Hok Hold Hnew. split; [by apply put_slot_inv|]. split; try done.
  intros p sb B lba Hfm Hl. rewrite (put_slot_view st i c c') by done.
  destruct (decide _); auto.
Qed.

(** A slot with the key it had is as fresh as it was. *)
Lemma key_fresh_same st i c c' : fs_inv st -> data_cache st !! i = Some c ->
  (forall q l, keyed c' q l -> keyed c q l) -> key_fresh (data_cache st) i c'.
Proof.
  intros Hi Hc Hk j t q l Hj Ht Htk Hk'. apply Hj. eapply (iv_unique _ Hi j i t c); eauto.
Qed.

Lemma find_slot_Some st p lba i : fs_inv st -> find_slot st p lba = Some i ->
  data_cache st !! i = Some (slot_at st i) /\ keyed (slot_at st i) p lba /\ (i < 16)%nat /\
  view st p lba = cs_data (slot_at st i).
Proof.
  intros Hi H. pose proof (find_index_lt _ _ _ H) as Hlt. rewrite (iv_length _ Hi) in Hlt.
  apply find_index_Some in H as (c & Hc & Hk & _). apply keyed_true in Hk.
  pose proof (slot_at_lookup st i Hi Hlt) as Hs. assert (slot_at st i = c) as -> by congruence.
  split_and!; [done..|]. unfold view.
  rewrite (proj2 (lookup_slots_Some _ _ _ (cs_data c) (iv_unique _ Hi))) by (exists i, c; done). done.
Qed.

Lemma find_slot_None st p lba : find_slot st p lba = None ->
  view st p lba = st_sector (store st) p lba /\ (forall i c, data_cache st !! i = Some c -> ~ keyed c p lba).
Proof.
  intros H.
  assert (Hn : forall i c, data_cache st !! i = Some c -> ~ keyed c p lba).
  { intros i c Hc Hk. apply keyed_true in Hk.
    rewrite (proj1 (find_index_None _ _) H i c Hc) in Hk. done. }
  split; [|done]. unfold view. by rewrite (proj2 (lookup_slots_None _ _ _)).
Qed.

Lemma pick_victim_lt st : fs_inv st -> (pick_victim st < 16)%nat.
Proof.
  intros Hi. unfold pick_victim.
  pose proof (choose_victim_lt 0 (data_cache st) 0 0xffffffffffffffff) as H.
  rewrite (iv_length _ Hi) in H. change LAINFS_DATA_CACHE_SLOTS with 16%nat in H. lia.
Qed.

(** ** Writing back *)

(** A write keeps the invariant if it does not touch what a clean slot or the
    clean directory shows. *)
Lemma set_store_inv st s' p lba n bs : fs_inv st -> written (store st) s' p lba n bs ->
  (forall i c q l, data_cache st !! i = Some c -> keyed c q l -> cs_dirty c = false ->
     st_sector s' q l = st_sector (store st) q l) ->
  (forall q sb B, formatted (store st) q sb B -> directory_cache_valid st = true ->
     directory_cache_partition st = q -> directory_cache_dirty st = false ->
     disk_directory s' q sb = disk_directory (store st) q sb) ->
  fs_inv (set_store s' st).
Proof.
  intros Hi Hw Hslots Hdir. destruct Hi as [Hs Ha Hl Hsl Hu Hsu Hdi]. split; simpl.
  - apply Hw.
  - apply Hw.
  - done.
  - intros i c Hc Hv. destruct (Hsl i c Hc Hv) as ((sb & B & Hf & Hr) & Hlen & Hb & Hcl). split_and!; [|done|done|].
    + exists sb, B. split; [by apply Hw|done].
    + intros Hd. rewrite (Hslots i c) by done. auto.
  - done.
  - intros Hv. destruct (Hsu Hv) as (B & Hf). exists B. by apply Hw.
  - intros Hv. destruct (Hdi Hv) as (Hsh & sb & B & Hf & Hcl). split; [done|]. exists sb, B.
    split; [by apply Hw|]. intros Hd. rewrite (Hdir _ _ _ Hf) by done. auto.
Qed.

Lemma disk_directory_ext s s' p sb :
  (forall l, sb_dir_start_lba sb <= l < sb_dir_start_lba sb + sb_dir_blocks sb ->
     st_sector s' p l = st_sector s p l) ->
  disk_directory s' p sb = disk_directory s p sb.
Proof.
  intros H. unfold disk_directory.
  assert (st_sector s' p <$> seqZ (sb_dir_start_lba sb) (sb_dir_blocks sb) =
          st_sector s p <$> seqZ (sb_dir_start_lba sb) (sb_dir_blocks sb)) as ->; [|done].
  apply list_fmap_ext. intros i l Hl%lookup_seqZ. apply H. lia.
Qed.

#[local] Opaque disk_directory.

(** A write into the data area leaves the directories alone. *)
Lemma written_data_directory s s' p lba bs q sb B : written s s' p lba 1 bs ->
  (exists sbp Bp, formatted s p sbp Bp /\ sb_data_start_lba sbp <= lba) -> formatted s q sb B ->
  disk_directory s' q sb = disk_directory s q sb.
Proof.
  intros Hw (sbp & Bp & Hp & Hl) Hf. pose proof (formatted_ranges _ _ _ _ Hf) as (Hd & H1 & H2 & _).
  apply disk_directory_ext. intros l Hr. rewrite (wr_sector _ _ _ _ _ _ Hw q sb B) by (done || lia).
  rewrite decide_False; [done|]. intros [-> Hlba].
  destruct (formatted_unique _ _ _ _ _ _ Hp Hf) as [-> _]. lia.
Qed.

(** Only the fields named change. *)
Definition caches_kept st st' : Prop :=
  directory st' = directory st /\ super_cache st' = super_cache st /\
  super_cache_valid st' = super_cache_valid st /\ super_cache_partition st' = super_cache_partition st /\
  directory_cache_valid st' = directory_cache_valid st /\
  directory_cache_dirty st' = directory_cache_dirty st /\
  directory_cache_partition st' = directory_cache_partition st.

#[export] Instance caches_kept_preorder : PreOrder caches_kept.
Proof.
  split; [intros ?; by repeat split|].
  intros a b c (H1&H2&H3&H4&H5&H6&H7) (G1&G2&G3&G4&G5&G6&G7). unfold caches_kept. split_and!; congruence.
Qed.

Lemma flush_slot_write st i c : fs_inv st -> data_cache st !! i = Some c -> cs_valid c = true -> cs_dirty c = true ->
  exists s', api_write_partition (cs_partition c) (cs_lba c) 1 (cs_data c) (store st) = (inr tt, s') /\
    fs_inv (set_store s' st) /\ same_fs st (set_store s' st) /\
    st_sector s' (cs_partition c) (cs_lba c) = cs_data c.
Proof.
  intros Hi Hc Hv Hd. destruct (iv_slot _ Hi _ _ Hc Hv) as ((sb & B & Hf & Hr) & Hlen & Hb & _).
  pose proof (formatted_ranges _ _ _ _ Hf) as (Hdb & H1 & H2 & _).
  destruct (store_write (store st) (cs_partition c) sb B (cs_lba c) 1 (cs_data c)) as (s' & Hwr & Hw);
    [apply Hi|apply Hi|done|lia|lia|lia|done|done|].
  assert (Hdirs : forall q sbq Bq, formatted (store st) q sbq Bq ->
            disk_directory s' q sbq = disk_directory (store st) q sbq).
  { intros q sbq Bq Hq. eapply written_data_directory; [exact Hw| |done]. exists sb, B. split; [done|lia]. }
  exists s'. split; [done|]. split_and!.
  - apply (set_store_inv _ _ (cs_partition c) (cs_lba c) 1 (cs_data c)); [done|exact Hw| |intros q sbq Bq Hq _ _ _; by apply (Hdirs q sbq Bq)].
    intros j t q l Hj Hk Htd. destruct (iv_slot _ Hi _ _ Hj (proj1 Hk)) as ((sbq & Bq & Hq & Hql) & _).
    pose proof (formatted_ranges _ _ _ _ Hq) as (_ & ? & ? & _).
    destruct Hk as (Hvt & <- & <-). rewrite (wr_sector _ _ _ _ _ _ Hw _ sbq Bq) by (done || lia).
    rewrite decide_False; [done|]. intros [Ep El].
    assert (j = i) as ->; [|congruence].
    eapply (iv_unique _ Hi j i t c (cs_partition c) (cs_lba c)); [done..|by split; [|split; [|lia]]|done].
  - split; [apply Hw|apply Hw|apply Hw| |].
    + intros q sbq Bq l Hq Hl. unfold view; cbn [data_cache store set_store].
      pose proof (formatted_ranges _ _ _ _ Hq) as (_ & ? & ? & _).
      destruct (lookup_slots (data_cache st) q l) as [d|] eqn:E; [done|]. simpl.
      rewrite (wr_sector _ _ _ _ _ _ Hw _ sbq Bq) by (done || lia). rewrite decide_False; [done|].
      intros [-> El]. rewrite lookup_slots_None in E. apply (E i c Hc). split_and!; [done|done|lia].
    + intros q sbq Bq Hq. unfold dview; cbn [directory_cache_valid directory_cache_partition directory store set_store].
      destruct (_ && _); [done|by apply (Hdirs q sbq Bq)].
  - rewrite (wr_sector _ _ _ _ _ _ Hw _ sb B) by (done || lia). rewrite decide_True by lia.
    rewrite Z.sub_diag. cbn [Z.to_nat Nat.mul]. rewrite drop_0. apply take_ge. lia.
Qed.

(** Flushing a slot writes it back and changes nothing that is visible. *)
Lemma flush_data_cache_slot_ok st i : fs_inv st -> (i < 16)%nat ->
  exists st', flush_data_cache_slot i st = (inr tt, st') /\ fs_inv st' /\ same_fs st st' /\ caches_kept st st' /\
    (cs_valid (slot_at st' i) = true -> cs_dirty (slot_at st' i) = false) /\
    (forall j c, j <> i -> data_cache st' !! j = Some c <-> data_cache st !! j = Some c) /\
    (forall p lba, keyed (slot_at st' i) p lba <-> keyed (slot_at st i) p lba).
Proof.
  intros Hi Hlt. pose proof (slot_at_lookup st i Hi Hlt) as Hc. unfold flush_data_cache_slot.
  destruct (Nat.leb_spec LAINFS_DATA_CACHE_SLOTS i) as [Hge|_]; [unfold LAINFS_DATA_CACHE_SLOTS in *; lia|].
  set (c := slot_at st i) in *. destruct (negb (cs_valid c) || negb (cs_dirty c)) eqn:E.
  { exists st. split_and!; [done|done|done|done| |done|done]. fold c. intros Hv. rewrite Hv in E. simpl in E. by bool_prop. }
  bool_prop. destruct (flush_slot_write st i c Hi Hc) as (s' & Hwr & Hi1 & Hs1 & Hsec); [done|done|].
  set (c' := set_slot_dirty false c). set (st1 := set_store s' st).
  destruct (put_slot_same st1 i c c') as [Hi2 Hs2]; [done|done| | | | |].
  - eapply key_fresh_same; [done|exact Hc|]. done.
  - intros Hv. destruct (iv_slot _ Hi1 _ _ Hc Hv) as (Hf & Hlen & Hb & _). split_and!; [done|done|done|]. done.
  - intros q l Hk. right. exact Hk.
  - intros q l Hk. unfold view. cbn [st1 data_cache store set_store].
    rewrite (proj2 (lookup_slots_Some _ _ _ (cs_data c) (iv_unique _ Hi))) by (exists i, c; done). done.
  - exists (bump count_flush (put_slot i c' st1)). split_and!.
    + unfold on_store, or_return, mbind, M_bind. rewrite Hwr. done.
    + by apply bump_inv.
    + apply same_fs_bump. by trans st1.
    + done.
    + intros _. unfold slot_at. cbn. rewrite list_lookup_insert_eq by (rewrite (iv_length _ Hi); done). done.
    + intros j t Hj. cbn. by rewrite list_lookup_insert_ne.
    + intros p lba. unfold slot_at at 1. cbn. rewrite list_lookup_insert_eq by (rewrite (iv_length _ Hi); done). done.
Qed.

(** ** Reading and writing data blocks *)

(** A slot filled by a miss has a fresh key. *)
Lemma key_fresh_new st i c' p lba : (forall j c, data_cache st !! j = Some c -> ~ keyed c p lba) ->
  (forall q l, keyed c' q l -> q = p /\ l = lba) -> key_fresh (data_cache st) i c'.
Proof. intros Hn Hk j t q l _ Ht Htk Hk'. destruct (Hk _ _ Hk') as [-> ->]. by apply (Hn j t). Qed.

(** The state after evicting the victim of a miss. *)
Lemma evict_ok st p lba : fs_inv st -> find_slot st p lba = None ->
  exists st', flush_data_cache_slot (pick_victim st) st = (inr tt, st') /\ fs_inv st' /\ same_fs st st' /\
    caches_kept st st' /\ data_cache st' !! pick_victim st = Some (slot_at st' (pick_victim st)) /\
    (cs_valid (slot_at st' (pick_victim st)) = true -> cs_dirty (slot_at st' (pick_victim st)) = false) /\
    (forall j c, data_cache st' !! j = Some c -> ~ keyed c p lba).
Proof.
  intros Hi Hn. pose proof (pick_victim_lt st Hi) as Hlt.
  destruct (flush_data_cache_slot_ok st _ Hi Hlt) as (st' & Hr & Hi' & Hs & Hk & Hcl & Hoth & Hkey).
  exists st'. split_and!; [done..|by apply slot_at_lookup|done|].
  intros j c Hc Hkc. destruct (find_slot_None _ _ _ Hn) as [_ Hno].
  destruct (decide (j = pick_victim st)) as [->|Hj].
  - rewrite slot_at_lookup in Hc by done. simplify_eq. rewrite Hkey in Hkc. revert Hkc. eapply Hno. by apply slot_at_lookup.
  - rewrite Hoth in Hc by done. by eapply Hno.
Qed.

(** Reading a block returns what the file system sees and changes nothing. *)
Lemma cached_read_block_ok st p sb B lba : fs_inv st -> formatted (store st) p sb B ->
  sb_data_start_lba sb <= lba < B ->
  exists st', cached_read_block p lba st = (inr (view st p lba), st') /\ fs_inv st' /\ same_fs st st' /\ caches_kept st st'.
Proof.
  intros Hi Hf Hl. pose proof (formatted_ranges _ _ _ _ Hf) as (_ & ? & ? & _). unfold cached_read_block.
  destruct (find_slot st p lba) as [i|] eqn:E.
  - destruct (find_slot_Some _ _ _ _ Hi E) as (Hc & Hk & Hlt & ->). set (c := slot_at st i) in *.
    set (clock := u64 (cache_clock st + 1)).
    set (c' := CacheSlot (cs_valid c) (cs_dirty c) (cs_partition c) (cs_lba c) clock (cs_data c)).
    pose proof (proj2 (clock_inv clock st) Hi) as Hi1.
    destruct (put_slot_same (set_clock clock st) i c c') as [Hi2 Hs2]; [done|done|..].
    + by eapply key_fresh_same.
    + exact (iv_slot _ Hi _ _ Hc).
    + intros q l Hq. right. exact Hq.
    + intros q l Hq. unfold view. cbn [data_cache store set_clock].
      rewrite (proj2 (lookup_slots_Some _ _ _ (cs_data c) (iv_unique _ Hi))) by (exists i, c; done). done.
    + eexists. split; [done|]. split_and!; [by apply bump_inv| |done].
      apply same_fs_bump. etrans; [apply (clock_same clock)|done].
  - destruct (evict_ok st p lba Hi E) as (st1 & Hr & Hi1 & Hs1 & Hk1 & Hc & Hcl & Hno).
    set (v := pick_victim st) in *. pose proof (sf_formatted _ _ Hs1 _ _ _ Hf) as Hf1.
    assert (Hv : view st p lba = st_sector (store st1) p lba).
    { rewrite <- (sf_view _ _ Hs1 p sb B) by done. unfold view. by rewrite (proj2 (lookup_slots_None _ _ _) Hno). }
    unfold or_return, mbind, M_bind, step. rewrite Hr. cbn beta iota zeta.
    rewrite (formatted_read_block _ _ sb B) by (try apply Hi1; done || lia). rewrite Hv.
    set (clock := u64 (cache_clock st1 + 1)). set (d := st_sector (store st1) p lba).
    pose proof (proj2 (clock_inv clock st1) Hi1) as Hi1'.
    destruct (put_slot_same (set_clock clock st1) v (slot_at st1 v) (CacheSlot true false p lba clock d)) as [Hi2 Hs2]; [done|done|..].
    + apply (key_fresh_new _ _ _ p lba); [done|]. intros q l (_ & ? & ?). done.
    + intros _. cbn. destruct (formatted_sector (store st1) p sb B lba) as [? ?]; [apply Hi1|done|lia|].
      split_and!; eauto.
    + intros q l Hq. left. apply Hcl, Hq.
    + intros q l (_ & <- & <-). cbn. unfold view. cbn. by rewrite (proj2 (lookup_slots_None _ _ _) Hno).
    + eexists. split; [done|]. split_and!; [by apply bump_inv| |].
      * apply same_fs_bump. etrans; [exact Hs1|]. etrans; [apply (clock_same clock)|done].
      * exact Hk1.
Qed.

(** Writing a block changes what the file system sees of this block only. *)
Lemma cached_write_block_ok st p sb B lba d : fs_inv st -> formatted (store st) p sb B ->
  sb_data_start_lba sb <= lba < B -> length d = 512%nat -> bytes d ->
  exists st', cached_write_block p lba d st = (inr tt, st') /\ fs_inv st' /\ caches_kept st st' /\
    same_tables (store st) (store st') /\
    (forall q sbq Bq, formatted (store st) q sbq Bq -> formatted (store st') q sbq Bq) /\
    (forall q sbq Bq l, formatted (store st) q sbq Bq -> sb_data_start_lba sbq <= l < Bq ->
       view st' q l = if decide (q = p /\ l = lba) then d else view st q l) /\
    (forall q sbq Bq, formatted (store st) q sbq Bq -> dview st' q sbq = dview st q sbq).
Proof.
  intros Hi Hf Hl Hlen Hb. unfold cached_write_block.
  assert (Hmain : forall st1 i c c' clock, fs_inv st1 -> same_fs st st1 -> data_cache st1 !! i = Some c ->
    key_fresh (data_cache st1) i c' -> (forall q l, keyed c q l -> cs_dirty c = false \/ keyed c' q l) ->
    c' = CacheSlot true true p lba clock d ->
    let st2 := put_slot i c' (set_clock clock st1) in
    fs_inv st2 /\ same_tables (store st) (store st2) /\
    (forall q sbq Bq, formatted (store st) q sbq Bq -> formatted (store st2) q sbq Bq) /\
    (forall q sbq Bq l, formatted (store st) q sbq Bq -> sb_data_start_lba sbq <= l < Bq ->
       view st2 q l = if decide (q = p /\ l = lba) then d else view st q l) /\
    (forall q sbq Bq, formatted (store st) q sbq Bq -> dview st2 q sbq = dview st q sbq)).
  { intros st1 i c c' clock Hi1 Hs1 Hc Hfr Hold -> st2. pose proof (proj2 (clock_inv clock st1) Hi1) as Hi1'.
    split_and!.
    - apply put_slot_inv; [done|done|]. intros _. cbn. split_and!; [|done|done|done].
      exists sb, B. split; [by apply Hs1|done].
    - apply Hs1.
    - apply Hs1.
    - intros q sbq Bq l Hq Hlq. unfold st2. rewrite (put_slot_view _ i c) by done.
      unfold keyed. cbn [cs_valid cs_partition cs_lba cs_data].
      destruct (decide (q = p /\ l = lba)) as [[-> ->]|Hne]; [by rewrite decide_True by done|].
      rewrite decide_False by (intros (_ & <- & <-); by apply Hne).
      by rewrite <- (sf_view _ _ Hs1 q sbq Bq).
    - intros q sbq Bq Hq. by rewrite <- (sf_dview _ _ Hs1 q sbq Bq). }
  destruct (find_slot st p lba) as [i|] eqn:E.
  - destruct (find_slot_Some _ _ _ _ Hi E) as (Hc & Hk & Hlt & _). set (c := slot_at st i) in *.
    pose proof Hk as (Hv & Hp & Hll). rewrite Hv, Hp, Hll.
    set (clock := u64 (cache_clock st + 1)). set (c' := CacheSlot true true p lba clock d).
    destruct (Hmain st i c c' clock) as (M1 & M2 & M3 & M4 & M5); [done|done|done|..|done|].
    + eapply key_fresh_same; [done|exact Hc|]. intros q l (_ & <- & <-). done.
    + intros q l Hq. right. destruct (keyed_inj _ _ _ _ _ Hk Hq) as [-> ->]. done.
    + eexists. split; [done|]. split_and!; [by apply bump_inv, bump_inv|done|done|done|done|done].
  - destruct (evict_ok st p lba Hi E) as (st1 & Hr & Hi1 & Hs1 & Hk1 & Hc & Hcl & Hno).
    unfold or_return, mbind, M_bind, step. rewrite Hr. cbn beta iota zeta.
    set (clock := u64 (cache_clock st1 + 1)). set (c' := CacheSlot true true p lba clock d).
    destruct (Hmain st1 (pick_victim st) _ c' clock Hi1 Hs1 Hc) as (M1 & M2 & M3 & M4 & M5); [..|done|].
    + apply (key_fresh_new _ _ _ p lba); [done|]. intros q l (_ & ? & ?). done.
    + intros q l Hq. left. apply Hcl, Hq.
    + eexists. split; [done|]. split_and!; [by apply bump_inv|exact Hk1|done|done|done|done].
Qed.

(** ** The superblock and the directory *)

Lemma raw_read_super_ok st p sb B : fs_inv st -> formatted (store st) p sb B ->
  raw_read_super st p = (Some sb, 0).
Proof.
  intros Hi Hf. pose proof (formatted_ranges _ _ _ _ Hf) as (_ & ? & ? & _). unfold raw_read_super.
  rewrite (formatted_read_block _ _ sb B) by (try apply Hi; done || lia).
  destruct Hf as [_ _ _ Hs Hg _ _]. by rewrite Hs, Hg.
Qed.

(** A directory is what its blocks hold. *)
Lemma disk_directory_blocks s p sb dir : 0 <= sb_dir_blocks sb -> dir_shape dir -> sb_dir_blocks sb = 256 ->
  (forall l, sb_dir_start_lba sb <= l < sb_dir_start_lba sb + sb_dir_blocks sb ->
     st_sector s p l = take 512 (drop (512 * Z.to_nat (l - sb_dir_start_lba sb)) (bytes_of_directory dir))) ->
  disk_directory s p sb = dir.
Proof.
  intros Hn [Hl Hd] Hdb Hs. destruct (bytes_of_directory_ok dir Hl Hd) as [Hlen _].
  trans (directory_of_bytes (bytes_of_directory dir)); [|by apply directory_of_bytes_of].
  with_strategy transparent [disk_directory] unfold disk_directory.
  assert (st_sector s p <$> seqZ (sb_dir_start_lba sb) (sb_dir_blocks sb) =
    (fun l => take 512 (drop (512 * Z.to_nat (l - sb_dir_start_lba sb)) (bytes_of_directory dir))) <$>
      seqZ (sb_dir_start_lba sb) (sb_dir_blocks sb)) as ->.
  { apply list_fmap_ext. intros i l [-> Hi]%lookup_seqZ. apply Hs. lia. }
  by rewrite concat_blocks by lia.
Qed.

Lemma written_directory s s' p sb B dir : written s s' p (sb_dir_start_lba sb) (sb_dir_blocks sb) (bytes_of_directory dir) ->
  formatted s p sb B -> dir_shape dir -> disk_directory s' p sb = dir.
Proof.
  intros Hw Hf Hd. pose proof (formatted_ranges _ _ _ _ Hf) as (Hdb & ? & ? & _).
  apply disk_directory_blocks; [lia|done|done|]. intros l Hl.
  rewrite (wr_sector _ _ _ _ _ _ Hw p sb B) by (done || lia). by rewrite decide_True by lia.
Qed.

Lemma directory_super_ok st sb B : fs_inv st -> formatted (store st) (directory_cache_partition st) sb B ->
  directory_super st = Some sb.
Proof.
  intros Hi Hf. unfold directory_super. destruct (_ && _) eqn:E.
  - bool_prop. destruct (iv_super _ Hi) as (B' & Hf'); [done|].
    match goal with H : super_cache_partition st = _ |- _ => rewrite H in Hf' end.
    by destruct (formatted_unique _ _ _ _ _ _ Hf Hf') as [-> _].
  - by rewrite (raw_read_super_ok st _ sb B).
Qed.

(** What stays when the directory is written back. *)
Definition but_dirty_kept st st' : Prop :=
  directory st' = directory st /\ super_cache st' = super_cache st /\
  super_cache_valid st' = super_cache_valid st /\ super_cache_partition st' = super_cache_partition st /\
  directory_cache_valid st' = directory_cache_valid st /\
  directory_cache_partition st' = directory_cache_partition st /\ data_cache st' = data_cache st.

Lemma flush_directory_cache_ok st : fs_inv st ->
  exists st', flush_directory_cache st = (inr tt, st') /\ fs_inv st' /\ same_fs st st' /\ but_dirty_kept st st' /\
    (directory_cache_valid st = true -> directory_cache_dirty st' = false).
Proof.
  intros Hi. unfold flush_directory_cache.
  destruct (negb (directory_cache_valid st) || negb (directory_cache_dirty st)) eqn:E.
  { exists st. split_and!; [done|done|done|by repeat split|]. intros Hv. rewrite Hv in E. simpl in E. by bool_prop. }
  bool_prop. destruct (iv_dir _ Hi) as ([Hlen Hok] & sb & B & Hf & _); [done|].
  rewrite (directory_super_ok st sb B) by done. set (q := directory_cache_partition st) in *.
  pose proof (formatted_ranges _ _ _ _ Hf) as (Hdb & ? & ? & _).
  destruct (bytes_of_directory_ok _ Hlen Hok) as [Hbl Hbb].
  destruct (store_write (store st) q sb B (sb_dir_start_lba sb) (sb_dir_blocks sb) (bytes_of_directory (directory st)))
    as (s' & Hwr & Hw); [apply Hi|apply Hi|done|lia|lia|lia|lia|done|].
  assert (Hdata : forall q' sb' B' l, formatted (store st) q' sb' B' -> sb_data_start_lba sb' <= l < B' ->
            st_sector s' q' l = st_sector (store st) q' l).
  { intros q' sb' B' l Hq' Hl. pose proof (formatted_ranges _ _ _ _ Hq') as (Hdb' & ? & ? & _).
    rewrite (wr_sector _ _ _ _ _ _ Hw _ sb' B') by (done || lia). rewrite decide_False; [done|].
    intros [-> Hr]. destruct (formatted_unique _ _ _ _ _ _ Hf Hq') as [-> _]. lia. }
  assert (Hself : disk_directory s' q sb = directory st) by (eapply written_directory; [exact Hw|done|by split]).
  assert (Hinv : fs_inv (set_dir_flags true false q (set_store s' st))).
  { assert (Hi1 : fs_inv (set_store s' st)).
    { apply (set_store_inv _ _ _ _ _ _ Hi Hw).
      - intros i c q' l Hc (Hv & <- & <-) _. destruct (iv_slot _ Hi _ _ Hc Hv) as ((sb' & B' & Hq' & Hl) & _). eauto.
      - intros; congruence. }
    destruct Hi1. split; try done. intros _. split; [by split|]. exists sb, B. split; [by apply Hw|].
    intros _. symmetry. exact Hself. }
  exists (bump count_flush (set_dir_flags true false q (set_store s' st))). split_and!.
  - unfold on_store, or_return, mbind, M_bind, modify. rewrite Hwr.
    cbn [directory_cache_valid directory_cache_partition set_store]. subst q.
    by match goal with H : directory_cache_valid st = true |- _ => rewrite H end.
  - by apply bump_inv.
  - apply same_fs_bump. split; [apply Hw|apply Hw|apply Hw| |].
    + intros p' sb' B' l Hp' Hl. unfold view. cbn [data_cache store set_store set_dir_flags].
      by rewrite (Hdata p' sb' B').
    + intros p' sb' B' Hp'. unfold dview.
      cbn [directory_cache_valid directory_cache_partition directory store set_store set_dir_flags].
      match goal with H : directory_cache_valid st = true |- _ => rewrite H end. fold q.
      destruct (Z.eqb_spec q p') as [Eq|Eq]; cbn [andb]; [reflexivity|]. apply disk_directory_ext. intros l Hl.
      pose proof (formatted_ranges _ _ _ _ Hp') as (Hdb' & ? & ? & _).
      rewrite (wr_sector _ _ _ _ _ _ Hw _ sb' B') by (done || lia). rewrite decide_False; [done|]. intros [-> _]. done.
  - by split_and!.
  - done.
Qed.

(** ** Opening a partition *)

Lemma read_super_ok st p sb B : fs_inv st -> formatted (store st) p sb B ->
  exists st', read_super p st = (inr sb, st') /\ fs_inv st' /\ same_fs st st' /\
    super_cache_valid st' = true /\ super_cache_partition st' = p /\ super_cache st' = sb /\
    directory st' = directory st /\ directory_cache_valid st' = directory_cache_valid st /\
    directory_cache_dirty st' = directory_cache_dirty st /\
    directory_cache_partition st' = directory_cache_partition st.
Proof.
  intros Hi Hf. unfold read_super. destruct (_ && _) eqn:E.
  - bool_prop. destruct (iv_super _ Hi) as (B' & Hf'); [done|]. subst p.
    destruct (formatted_unique _ _ _ _ _ _ Hf Hf') as [Hsb _]. exists st. rewrite Hsb. split_and!; done.
  - rewrite (raw_read_super_ok st p sb B) by done. simpl. eexists. split; [done|]. split_and!; try done.
    destruct Hi. split; try done. intros _. by exists B.
Qed.

Lemma flush_directory_if_dirty_ok st : fs_inv st ->
  exists st', flush_directory_if_dirty st = (inr tt, st') /\ fs_inv st' /\ same_fs st st' /\ but_dirty_kept st st' /\
    (directory_cache_valid st = true -> directory_cache_dirty st' = false).
Proof.
  intros Hi. unfold flush_directory_if_dirty. destruct (_ && _) eqn:E; [by apply flush_directory_cache_ok|].
  exists st. split_and!; [done|done|done|by repeat split|]. intros Hv. by rewrite Hv in E.
Qed.

(** The directory of partition [p] is the one in memory. *)
Definition dir_loaded st (p : Z) (dir : list dirent) : Prop :=
  directory_cache_valid st = true /\ directory_cache_partition st = p /\ directory st = dir.

Lemma dview_loaded st p dir sb : dir_loaded st p dir -> dview st p sb = dir.
Proof. intros (Hv & Hp & Hd). unfold dview. rewrite Hv, Hp, Z.eqb_refl. done. Qed.

Lemma load_directory_unchecked_ok st p sb B : fs_inv st -> formatted (store st) p sb B ->
  exists st', load_directory_unchecked p sb st = (inr tt, st') /\ fs_inv st' /\ same_fs st st' /\
    dir_loaded st' p (dview st p sb).
Proof.
  intros Hi Hf. unfold load_directory_unchecked. destruct (_ && _) eqn:E.
  - bool_prop. eexists. split; [done|]. split_and!; [by apply bump_inv|apply bump_same|].
    split; [done|]. split; [done|].
    simpl. symmetry. by apply dview_loaded.
  - destruct (flush_directory_if_dirty_ok st Hi) as (st1 & Hr & Hi1 & Hs1 & Hk & Hcl).
    pose proof (sf_formatted _ _ Hs1 _ _ _ Hf) as Hf1. pose proof (formatted_ranges _ _ _ _ Hf1) as (Hdb & ? & ? & _).
    unfold or_return, mbind, M_bind, step. rewrite Hr. cbn beta iota zeta.
    rewrite (formatted_read _ _ sb B) by (try apply Hi1; done || lia).
    assert (Hd : dview st p sb = disk_directory (store st1) p sb).
    { rewrite <- (sf_dview _ _ Hs1 p sb B) by done. unfold dview.
      destruct Hk as (_ & _ & _ & _ & -> & -> & _). by rewrite E. }
    rewrite Hd. change (directory_of_bytes (concat (st_sector (store st1) p <$> seqZ (sb_dir_start_lba sb) (sb_dir_blocks sb))))
      with (disk_directory (store st1) p sb).
    eexists. split; [reflexivity|]. split; [apply bump_inv|]. 2: split; [apply same_fs_bump|by split_and!].
    + destruct Hi1 as [X1 X2 X3 X4 X5 X6 X7]. split; try done. intros _. cbn. split; [by eapply disk_directory_ok|].
      exists sb, B. done.
    + etrans; [exact Hs1|]. split; [done|done|done|done|]. intros q sbq Bq Hq. unfold dview at 1.
      cbn [directory_cache_valid directory_cache_partition directory store set_dir_flags set_directory andb].
      destruct (Z.eqb_spec p q) as [<-|Hne].
      * destruct (formatted_unique _ _ _ _ _ _ Hf1 Hq) as [-> _]. by rewrite <- Hd, (sf_dview _ _ Hs1 p sb B).
      * unfold dview. destruct (directory_cache_valid st1) eqn:Ev; [|done]. cbn [andb].
        destruct (Z.eqb_spec (directory_cache_partition st1) q) as [Eq|]; [|done].
        destruct (iv_dir _ Hi1 Ev) as (_ & sb' & B' & Hq' & Hc).
        destruct Hk as (_ & _ & _ & _ & Hval & _ & _). rewrite Hc by (apply Hcl; congruence).
        rewrite Eq in *. by destruct (formatted_unique _ _ _ _ _ _ Hq Hq') as [-> _].
Qed.

Lemma part_blocks_formatted st p sb B : formatted (store st) p sb B -> part_blocks st p = Some B.
Proof. by intros []. Qed.

(** A well-formed directory loads. *)
Lemma load_directory_ok st p sb B : fs_inv st -> formatted (store st) p sb B -> dir_wf sb B (dview st p sb) ->
  exists st', load_directory p sb st = (inr tt, st') /\ fs_inv st' /\ same_fs st st' /\
    dir_loaded st' p (dview st p sb) /\ dir_shape (dview st p sb).
Proof.
  intros Hi Hf Hw. destruct (load_directory_unchecked_ok st p sb B Hi Hf) as (st1 & Hr & Hi1 & Hs1 & Hd).
  pose proof (sf_formatted _ _ Hs1 _ _ _ Hf) as Hf1. pose proof Hd as (Hv & Hp & Hdir).
  destruct (iv_dir _ Hi1 Hv) as [Hsh _]. rewrite Hdir in Hsh.
  exists st1. split; [|done]. unfold load_directory. unfold or_return, mbind, M_bind, step. rewrite Hr.
  rewrite (part_blocks_formatted st1 p sb B) by done. rewrite Hdir.
  by rewrite (proj2 (validate_directory_None sb B (dview st p sb) (fm_width _ _ _ _ Hf) (fm_sb _ _ _ _ Hf) Hsh)).
Qed.

(** ** Flushing *)

(** A loop over slots that flushes the dirty ones it selects. *)
Lemma each_slot_flush (sel : cache_slot -> bool) (f : nat -> M (fs S) unit) idxs st :
  (forall c, sel c = true -> cs_valid c = true /\ cs_dirty c = true) ->
  (forall i st, f i st = if sel (slot_at st i) then flush_data_cache_slot i st else (inr tt, st)) ->
  Forall (fun i => i < 16)%nat idxs -> fs_inv st ->
  exists st', each_slot idxs f st = (inr tt, st') /\ fs_inv st' /\ same_fs st st' /\ caches_kept st st' /\
    (forall i, (i < 16)%nat -> i ∈ idxs \/ sel (slot_at st i) = false -> sel (slot_at st' i) = false).
Proof.
  intros Hsel Hf. revert st. induction idxs as [|i idxs IH]; intros st Hlt Hi.
  { exists st. split_and!; [done|done|done|done|]. intros j _ [Hj|Hj]; [by apply not_elem_of_nil in Hj|done]. }
  apply Forall_cons_1 in Hlt as [Hlt Hlts]. cbn [each_slot].
  assert (exists st1, f i st = (inr tt, st1) /\ fs_inv st1 /\ same_fs st st1 /\ caches_kept st st1 /\
    (forall j, (j < 16)%nat -> j = i \/ sel (slot_at st j) = false -> sel (slot_at st1 j) = false))
    as (st1 & Hr & Hi1 & Hs1 & Hk1 & Hc1).
  { rewrite Hf. destruct (sel (slot_at st i)) eqn:E.
    - destruct (flush_data_cache_slot_ok st i Hi Hlt) as (st1 & Hr & Hi1 & Hs1 & Hk1 & Hcl & Hoth & _).
      exists st1. split_and!; [done..|]. intros j Hj Hor. destruct (decide (j = i)) as [->|Hne].
      + destruct (sel (slot_at st1 i)) eqn:E1; [|done]. apply Hsel in E1 as [? ?]. rewrite Hcl in *; done.
      + destruct Hor as [?|Hj0]; [done|]. assert (slot_at st1 j = slot_at st j) as ->; [|done].
        pose proof (slot_at_lookup st j Hi Hj) as Hl. rewrite <- (Hoth j) in Hl by done.
        rewrite (slot_at_lookup st1 j Hi1 Hj) in Hl. by simplify_eq.
    - exists st. split_and!; [done|done|done|done|]. intros j Hj [->|?]; done. }
  destruct (IH st1 Hlts Hi1) as (st2 & Hr2 & Hi2 & Hs2 & Hk2 & Hc2).
  exists st2. split_and!; [|done|by trans st1|by trans st1|].
  - unfold mbind, M_bind, or_return. by rewrite Hr.
  - intros j Hj Hor. apply Hc2; [done|]. destruct Hor as [Hor|Hor].
    + apply elem_of_cons in Hor as [->|Hor]; [right; apply Hc1; auto|by left].
    + right. apply Hc1; auto.
Qed.

Lemma all_slots_lt : Forall (fun i => i < 16)%nat (seq 0 LAINFS_DATA_CACHE_SLOTS).
Proof. apply Forall_elem. intros i Hi%elem_of_seq. unfold LAINFS_DATA_CACHE_SLOTS in *. lia. Qed.

(** The disk shows what the file system sees of partition [p]. *)
Definition synced st (p : Z) (sb : superblock) (B : Z) : Prop :=
  (forall lba, sb_data_start_lba sb <= lba < B -> st_sector (store st) p lba = view st p lba) /\
  disk_directory (store st) p sb = dview st p sb.

Lemma clean_synced st p sb B : fs_inv st -> formatted (store st) p sb B ->
  (forall i, (i < 16)%nat -> cs_valid (slot_at st i) && cs_dirty (slot_at st i) && (cs_partition (slot_at st i) =? p) = false) ->
  (directory_cache_valid st = true -> directory_cache_partition st = p -> directory_cache_dirty st = false) ->
  synced st p sb B.
Proof.
  intros Hi Hf Hs Hd. split.
  - intros lba Hl. unfold view. destruct (lookup_slots _ _ _) as [d|] eqn:E; [|done].
    apply lookup_slots_Some in E as (i & c & Hc & (Hv & Hp & Hlb) & <-); [|apply Hi]. simpl.
    pose proof (lookup_lt_Some _ _ _ Hc) as Hlt. rewrite (iv_length _ Hi) in Hlt.
    pose proof (slot_at_lookup st i Hi Hlt) as Hat. specialize (Hs i Hlt).
    assert (slot_at st i = c) as Hcc by congruence. rewrite Hcc in Hs. rewrite Hv, Hp, Z.eqb_refl, andb_true_r in Hs.
    destruct (iv_slot _ Hi _ _ Hc Hv) as (_ & _ & _ & Heq). rewrite Heq by done. by rewrite Hp, Hlb.
  - unfold dview. destruct (directory_cache_valid st) eqn:Ev; cbn [andb]; [|done].
    destruct (Z.eqb_spec (directory_cache_partition st) p) as [Hp|]; [|done].
    destruct (iv_dir _ Hi Ev) as (_ & sb' & B' & Hf' & Hcl). rewrite Hcl by auto. rewrite Hp in *.
    by destruct (formatted_unique _ _ _ _ _ _ Hf Hf') as [-> _].
Qed.

Lemma flush_partition_cache_ok st p : fs_inv st ->
  exists st', flush_partition_cache p st = (inr tt, st') /\ fs_inv st' /\ same_fs st st' /\
    (forall sb B, formatted (store st) p sb B -> synced st' p sb B).
Proof.
  intros Hi. unfold flush_partition_cache, flush_data_cache_partition.
  destruct (each_slot_flush (fun c => cs_valid c && cs_dirty c && (cs_partition c =? p)) (flush_slot_of p)
              (seq 0 LAINFS_DATA_CACHE_SLOTS) st) as (st1 & Hr1 & Hi1 & Hs1 & Hk1 & Hc1).
  { intros c Hc. by bool_prop. }
  { done. }
  { apply all_slots_lt. }
  { done. }
  assert (Hcl : forall i, (i < 16)%nat -> cs_valid (slot_at st1 i) && cs_dirty (slot_at st1 i) && (cs_partition (slot_at st1 i) =? p) = false).
  { intros i Hlt. apply Hc1; [done|]. left. apply elem_of_seq. unfold LAINFS_DATA_CACHE_SLOTS. lia. }
  unfold mbind, M_bind, or_return, step. rewrite Hr1.
  destruct (directory_cache_valid st1 && _ && _) eqn:E.
  - destruct (flush_directory_cache_ok st1 Hi1) as (st2 & Hr2 & Hi2 & Hs2 & Hk2 & Hd2). rewrite Hr2.
    exists st2. split_and!; [done|done|by trans st1|]. intros sb B Hf. bool_prop.
    apply clean_synced; [done|by apply Hs2, Hs1| |auto]. intros i Hlt. unfold slot_at.
    destruct Hk2 as (_ & _ & _ & _ & _ & _ & ->). by apply Hcl.
  - exists st1. split_and!; [done|done|done|]. intros sb B Hf. apply clean_synced; [done|by apply Hs1|done|].
    intros Hv <-. rewrite Hv, Z.eqb_refl, andb_true_r in E. done.
Qed.
End cache.

#[global] Arguments disk_directory : simpl never.
#[global] Arguments view : simpl never.
#[global] Opaque disk_directory.
