(* ===== verification/LainfsOps.v ===== *)
(** The public operations of LainFS: kernel/fs/lainfs.c, lines 1086-2128.

    One definition per function of lainfs.h, from its guards and early
    returns to the last assignment. Every function takes the global lock
    after its argument checks and releases it on each return; an operation is
    one step on the state. Out-parameters are results; console output is the
    list of the bytes printed. Buffers that a failing call leaves half
    written are not described. *)
From Stdlib Require Import ZArith Lia Ascii String.
From stdpp Require Import base tactics option list numbers.
From S2P Require Import Prelude.
From S2P Require Import StorageApi.
From S2P Require Import LainfsLayout.
From S2P Require Import LainfsDir.
From S2P Require Import LainfsAlloc.
From S2P Require Import LainfsState.
#[local] Open Scope Z_scope.

(** The bytes of a string literal. *)
Definition text (s : string) : list Z := (fun c => Z.of_N (N_of_ascii c)) <$> list_ascii_of_string s.

(** [console_put_dec64]: at most 20 digits, filled from the right. *)
Fixpoint dec_digits (fuel : nat) (value : Z) (acc : list Z) : list Z :=
  match fuel with
  | O => acc
  | S fuel' => if value =? 0 then acc else dec_digits fuel' (value / 10) (48 + value mod 10 :: acc)
  end.
Definition console_put_dec64 (value : Z) : list Z := if value =? 0 then [48] else dec_digits 31 value [].

Definition print_padded (s : list Z) (width : Z) : list Z :=
  cstr s ++ replicate (Z.to_nat (width - str_len s)) 32.

(** One line of the listing. *)
Definition list_line (entry : dirent) : list Z :=
  print_padded (text (if used entry =? LAINFS_ENTRY_DIR then "DIR" else "FILE")) 6 ++
  print_padded (name entry) 31 ++
  (if used entry =? LAINFS_ENTRY_DIR then text "-" else console_put_dec64 (byte_size entry)) ++ [10].

Definition is_child (parent_id : Z) (entry : dirent) : bool :=
  negb (used entry =? 0) && (entry_parent_id entry =? parent_id).

Definition listing (dir : list dirent) (parent_id : Z) : list Z :=
  let lines := list_line <$> filter (fun e => is_child parent_id e = true) dir in
  text "TYPE  NAME                           SIZE" ++ [10] ++
  text "----  -----------------------------  --------" ++ [10] ++
  (if decide (lines = []) then text "empty" ++ [10] else concat lines).

Record entry_detail : Type := EntryDetail {
  ed_entry_id : Z;
  ed_type : Z;
  ed_parent_id : Z;
  ed_size : Z;
  ed_extent_valid : Z;
  ed_extents : list extent;
  ed_legacy_start_lba : Z;
  ed_legacy_blocks : Z;
  ed_name : list Z
}.

(** The snapshot [lainfs_cache_stats] returns. *)
Record cache_report : Type := CacheReport {
  cr_stats : cache_stats_t;
  cr_directory_valid : bool;
  cr_directory_dirty : bool;
  cr_data_valid : Z;
  cr_data_dirty : Z
}.

Section ops.
Context {S : Type} `{!StorageApi S}.
Implicit Types st : fs S.

(** [mount_for_drive(drive_letter)->partition_index], or return [c]. *)
Definition partition_of_drive (drive_letter c : Z) : M (fs S) Z :=
  m ← gets (fun st => mount_for_drive st drive_letter);
  m ← from_option m c;
  mret (mt_partition_index m).

(** [read_super] and [load_directory], with the codes they are mapped to. *)
Definition open_directory (p c_super c_dir : Z) : M (fs S) superblock :=
  sb ← or_return (read_super p) c_super;
  or_return (load_directory p sb) c_dir;;
  mret sb.

Definition guard_dir_id (dir_id c : Z) : M (fs S) unit :=
  ok ← gets (fun st => valid_dir_id (directory st) dir_id);
  guardb ok c.

(** ** Formatting and flushing *)

Definition lainfs_format (drive_letter : Z) : M (fs S) unit :=
  p ← partition_of_drive drive_letter (-1);
  format_partition_index p.

Definition lainfs_format_partition (partition_name : list Z) : M (fs S) unit :=
  found ← gets (fun st => api_find_partition (store st) partition_name);
  found ← from_option found (-1);
  format_partition_index (fst found).

Definition flush_any_slot (i : nat) : M (fs S) unit := fun st =>
  if cs_valid (slot_at st i) && cs_dirty (slot_at st i) then flush_data_cache_slot i st else (inr tt, st).

Definition lainfs_flush_all : M (fs S) unit :=
  each_slot (seq 0 LAINFS_DATA_CACHE_SLOTS) flush_any_slot;;
  or_return flush_directory_if_dirty (-1).

(** [out] is the caller's buffer of [out_partition_name_size] bytes; the
    empty list is a null pointer or a size of 0. *)
Definition lainfs_format_block_device (device_name out : list Z) : fs S -> (Z * list Z) * fs S := fun st =>
  let out := match out with [] => [] | _ :: rest => 0 :: rest end in
  match api_find_block_device (store st) device_name with
  | None => (-1, out, st)
  | Some (device_index, _) =>
      match lainfs_flush_all st with
      | (inl _, st1) => (-5, out, st1)
      | (inr _, st1) =>
          let st2 := set_store (api_unmount_block_device device_index (store st1)) st1 in
          match on_store (api_create_mbr_partition device_index 0x99) st2 with
          | (inl c, st3) =>
              (if c =? -2 then -4 else if c =? -4 then -6 else if c =? -5 then -5 else -2, out, st3)
          | (inr partition_index, st3) =>
              match api_get_partition (store st3) partition_index with
              | None => (-3, out, st3)
              | Some part =>
                  let out := copy_str out (pt_name part) (length out) in
                  let '(r, st4) := format_partition_index partition_index st3 in (status r, out, st4)
              end
          end
      end
  end.

Definition lainfs_flush (drive_letter : Z) : M (fs S) unit :=
  p ← partition_of_drive drive_letter (-1);
  flush_partition_cache p.

(** ** Checking and repairing *)

(** Status, [*out_reason] and [*out_entry_id]. *)
Definition lainfs_check (drive_letter : Z) : fs S -> (Z * Z * Z) * fs S := fun st =>
  match mount_for_drive st drive_letter with
  | None => (-1, LAINFS_CHECK_NO_PARTITION, 0, st)
  | Some m =>
      let p := mt_partition_index m in
      match read_super p st with
      | (inl _, st1) => (-1, LAINFS_CHECK_BAD_SUPERBLOCK, 0, st1)
      | (inr sb, st1) =>
          let loaded :=
            if directory_cache_valid st1 && (directory_cache_partition st1 =? p) then (inr tt, st1)
            else (or_return flush_directory_if_dirty (-1);;
                  step (fun st =>
                    match api_read_partition (store st) p (sb_dir_start_lba sb) (sb_dir_blocks sb) with
                    | None => (inl (-1), set_dir_flags false false (directory_cache_partition st) st)
                    | Some bs => (inr tt, bump count_directory_read
                                            (set_dir_flags true false p (set_directory (directory_of_bytes bs) st)))
                    end)) st1 in
          match loaded with
          | (inl _, st2) => (-1, LAINFS_CHECK_BAD_LAYOUT, 0, st2)
          | (inr _, st2) =>
              match validate_directory (part_blocks st2 p) sb (directory st2) with
              | Some (reason, id) => (-1, reason, id, st2)
              | None => (0, LAINFS_CHECK_OK, 0, st2)
              end
          end
      end
  end.

Definition lainfs_entry_detail (drive_letter entry_id : Z) : M (fs S) entry_detail :=
  p ← partition_of_drive drive_letter (-1);
  guardb (negb ((entry_id =? 0) || (LAINFS_MAX_FILES <? entry_id))) (-1);;
  sb ← or_return (read_super p) (-2);
  or_return (load_directory_unchecked p sb) (-3);;
  entry ← gets (fun st => dir_entry (directory st) (index_from_entry_id entry_id));
  guardb (negb (used entry =? 0)) (-4);;
  let '(valid, extents) :=
    if used entry =? LAINFS_ENTRY_FILE
    then match entry_extents entry with Some xs => (1, xs) | None => (0, []) end
    else if used entry =? LAINFS_ENTRY_DIR then (1, []) else (0, []) in
  mret (EntryDetail entry_id (used entry) (entry_parent_id entry) (byte_size entry) valid extents
          (start_lba entry) (allocated_blocks_for_entry entry) (take 31 (cstr (name entry)))).

(** What a repair reports: status, reason, entry id and repairs made. *)
Record repair_report : Type := RepairReport {
  rr_status : Z;
  rr_reason : Z;
  rr_entry_id : Z;
  rr_repairs : Z
}.

(** The [while] loop and what follows it. A round without a failure, without
    a repair, or with more than [LAINFS_MAX_FILES] repairs ends it, so
    [LAINFS_MAX_FILES + 2] rounds are enough; [None] is out of fuel. *)
Fixpoint repair_loop (fuel : nat) (p : Z) (sb : superblock) (repairs : Z) (st : fs S) : option (repair_report * fs S) :=
  match fuel with
  | O => None
  | Datatypes.S fuel' =>
      match validate_directory (part_blocks st p) sb (directory st) with
      | None =>
          Some (if directory_cache_dirty st then
                  match flush_directory_cache st with
                  | (inl _, st') => (RepairReport (-1) LAINFS_CHECK_BAD_LAYOUT 0 repairs, st')
                  | (inr _, st') => (RepairReport 0 LAINFS_CHECK_OK 0 repairs, st')
                  end
                else (RepairReport 0 LAINFS_CHECK_OK 0 repairs, st))
      | Some (reason, entry_id) =>
          match repair_directory_once (part_blocks st p) sb reason entry_id (directory st) with
          | None =>
              Some (if negb (repairs =? 0) then
                      match flush_directory_cache st with
                      | (inl _, st') => (RepairReport (-1) LAINFS_CHECK_BAD_LAYOUT 0 repairs, st')
                      | (inr _, st') => (RepairReport (-3) reason entry_id repairs, st')
                      end
                    else (RepairReport (-2) reason entry_id repairs, st))
          | Some dir' =>
              let st1 := set_dir_flags true true p (set_directory dir' st) in
              let repairs' := u32 (repairs + 1) in
              if LAINFS_MAX_FILES <? repairs' then
                Some (match flush_directory_cache st1 with
                      | (inl _, st') => (RepairReport (-1) LAINFS_CHECK_BAD_LAYOUT 0 repairs', st')
                      | (inr _, st') => (RepairReport (-4) reason entry_id repairs', st')
                      end)
              else repair_loop fuel' p sb repairs' st1
          end
      end
  end.

Definition lainfs_repair (drive_letter : Z) (st : fs S) : option (repair_report * fs S) :=
  match mount_for_drive st drive_letter with
  | None => Some (RepairReport (-1) LAINFS_CHECK_NO_PARTITION 0 0, st)
  | Some m =>
      let p := mt_partition_index m in
      match read_super p st with
      | (inl _, st1) => Some (RepairReport (-1) LAINFS_CHECK_BAD_SUPERBLOCK 0 0, st1)
      | (inr sb, st1) =>
          match load_directory_unchecked p sb st1 with
          | (inl _, st2) => Some (RepairReport (-1) LAINFS_CHECK_BAD_LAYOUT 0 0, st2)
          | (inr _, st2) => repair_loop (Z.to_nat LAINFS_MAX_FILES + 2) p sb 0 st2
          end
      end
  end.

Definition lainfs_cache_stats st : cache_report :=
  CacheReport (cache_stats st) (directory_cache_valid st) (directory_cache_dirty st)
    (Z.of_nat (length (filter (fun s => cs_valid s = true) (data_cache st))))
    (Z.of_nat (length (filter (fun s => cs_valid s && cs_dirty s = true) (data_cache st)))).

(** ** Directories *)

(** The bytes printed. *)
Definition lainfs_list_dir (drive_letter parent_id : Z) : M (fs S) (list Z) :=
  p ← partition_of_drive drive_letter (-1);
  open_directory p (-2) (-3);;
  guard_dir_id parent_id (-5);;
  gets (fun st => listing (directory st) parent_id).

Definition lainfs_list (drive_letter : Z) : M (fs S) (list Z) := lainfs_list_dir drive_letter LAINFS_ROOT_DIR.

(** The entry [lainfs_make_dir_in_dir] writes. *)
Definition new_dir_entry (nm : list Z) (parent_id : Z) : dirent :=
  let e := set_used zero_dirent LAINFS_ENTRY_DIR in
  set_entry_parent_id (set_name e (copy_name (name e) nm)) parent_id.

Definition lainfs_make_dir_in_dir (drive_letter parent_id : Z) (nm : list Z) : M (fs S) unit :=
  p ← partition_of_drive drive_letter (-1);
  guardb (valid_name nm) (-2);;
  open_directory p (-3) (-4);;
  guard_dir_id parent_id (-7);;
  dir ← gets directory;
  guardb (match find_entry_in_dir dir parent_id nm with Some _ => false | None => true end) (-6);;
  slot ← from_option (find_free_entry dir) (-5);
  modify (set_directory (put_entry dir slot (new_dir_entry nm parent_id)));;
  or_return (save_directory p) (-7).

Definition lainfs_make_dir (drive_letter : Z) (nm : list Z) : M (fs S) unit :=
  lainfs_make_dir_in_dir drive_letter LAINFS_ROOT_DIR nm.

Definition lainfs_delete_in_dir (drive_letter parent_id : Z) (nm : list Z) : M (fs S) unit :=
  p ← partition_of_drive drive_letter (-1);
  guardb (valid_name nm) (-2);;
  open_directory p (-3) (-4);;
  guard_dir_id parent_id (-7);;
  dir ← gets directory;
  i ← from_option (find_entry_in_dir dir parent_id nm) (-5);
  guardb (negb ((used (dir_entry dir i) =? LAINFS_ENTRY_DIR) && dir_has_children dir (entry_id i))) (-9);;
  modify (set_directory (put_entry dir i zero_dirent));;
  or_return (save_directory p) (-6).

Definition lainfs_delete (drive_letter : Z) (nm : list Z) : M (fs S) unit :=
  lainfs_delete_in_dir drive_letter LAINFS_ROOT_DIR nm.

(** The entry [lainfs_rename_in_dir] writes. *)
Definition renamed_entry (e : dirent) (new_name : list Z) (new_parent_id : Z) : dirent :=
  set_entry_parent_id (set_name e (copy_name (name e) new_name)) new_parent_id.

Definition lainfs_rename_in_dir (drive_letter old_parent_id : Z) (old_name : list Z)
    (new_parent_id : Z) (new_name : list Z) : M (fs S) unit :=
  p ← partition_of_drive drive_letter (-1);
  guardb (valid_name old_name && valid_name new_name) (-2);;
  open_directory p (-3) (-4);;
  dir ← gets directory;
  guardb (valid_dir_id dir old_parent_id && valid_dir_id dir new_parent_id) (-7);;
  i ← from_option (find_entry_in_dir dir old_parent_id old_name) (-5);
  guardb (negb ((used (dir_entry dir i) =? LAINFS_ENTRY_DIR) &&
                ((entry_id i =? new_parent_id) || dir_is_descendant_of dir new_parent_id (entry_id i)))) (-8);;
  guardb (match find_entry_in_dir dir new_parent_id new_name with Some _ => false | None => true end) (-6);;
  modify (set_directory (put_entry dir i (renamed_entry (dir_entry dir i) new_name new_parent_id)));;
  or_return (save_directory p) (-7).

Definition lainfs_rename (drive_letter : Z) (old_name new_name : list Z) : M (fs S) unit :=
  lainfs_rename_in_dir drive_letter LAINFS_ROOT_DIR old_name LAINFS_ROOT_DIR new_name.

Definition lainfs_find_dir (drive_letter parent_id : Z) (nm : list Z) : M (fs S) Z :=
  p ← partition_of_drive drive_letter (-1);
  guardb (valid_name nm) (-2);;
  open_directory p (-3) (-4);;
  guard_dir_id parent_id (-7);;
  dir ← gets directory;
  i ← from_option (find_entry_in_dir dir parent_id nm) (-5);
  guardb (used (dir_entry dir i) =? LAINFS_ENTRY_DIR) (-5);;
  mret (entry_id i).

Definition lainfs_parent_dir (drive_letter dir_id : Z) : M (fs S) Z :=
  p ← partition_of_drive drive_letter (-1);
  if dir_id =? LAINFS_ROOT_DIR then mret LAINFS_ROOT_DIR
  else
    open_directory p (-3) (-4);;
    guard_dir_id dir_id (-5);;
    gets (fun st => entry_parent_id (dir_entry (directory st) (index_from_entry_id dir_id))).

Definition lainfs_child_count (drive_letter parent_id : Z) : M (fs S) Z :=
  p ← partition_of_drive drive_letter (-1);
  open_directory p (-2) (-3);;
  guard_dir_id parent_id (-5);;
  gets (fun st => Z.of_nat (length (filter (fun e => is_child parent_id e = true) (directory st)))).

(** [out_name], the caller's buffer, [*out_type] and [*out_size]. *)
Definition lainfs_child_info (drive_letter parent_id child_index : Z) (out_name : list Z) : M (fs S) (list Z * Z * Z) :=
  p ← partition_of_drive drive_letter (-1);
  guardb (negb (length out_name =? 0)%nat) (-1);;
  open_directory p (-2) (-3);;
  guard_dir_id parent_id (-5);;
  children ← gets (fun st => filter (fun e => is_child parent_id e = true) (directory st));
  entry ← from_option (children !! Z.to_nat child_index) (-6);
  mret (copy_str out_name (name entry) (length out_name), used entry,
        if used entry =? LAINFS_ENTRY_DIR then 0 else byte_size entry).

(** ** Files *)

(** The sector [lainfs_save_file_in_dir] fills for one block of the file. *)
Definition file_sector (buffer : list Z) (size logical_block : Z) : list Z :=
  let base := u32 (logical_block * LAINFS_BLOCK_SIZE) in
  let bytes_left := if base <? size then u32 (size - base) else 0 in
  let bytes_to_copy := if bytes_left <? LAINFS_BLOCK_SIZE then bytes_left else LAINFS_BLOCK_SIZE in
  let data := take (Z.to_nat bytes_to_copy) (drop (Z.to_nat base) buffer) in
  data ++ replicate (512 - length data) 0.

(** The inner loop over the blocks of one extent. *)
Fixpoint save_blocks (p : Z) (buffer : list Z) (size : Z) (n : nat) (start block logical_block : Z) : M (fs S) Z :=
  match n with
  | O => mret logical_block
  | Datatypes.S n' =>
      cached_write_block p (u32 (start + block)) (file_sector buffer size logical_block);;
      save_blocks p buffer size n' start (block + 1) (u32 (logical_block + 1))
  end.

(** The outer loop over the extents. *)
Fixpoint save_extents (p : Z) (buffer : list Z) (size : Z) (xs : list extent) (logical_block : Z) : M (fs S) unit :=
  match xs with
  | [] => mret tt
  | x :: xs' =>
      logical_block ← save_blocks p buffer size (Z.to_nat (ex_blocks x)) (ex_start_lba x) 0 logical_block;
      save_extents p buffer size xs' logical_block
  end.

(** The entry of a file that is created. *)
Definition new_file_entry (parent_id : Z) : dirent :=
  set_entry_parent_id (set_used zero_dirent LAINFS_ENTRY_FILE) parent_id.

(** The entry after [copy_name], [byte_size = size] and [set_entry_extents]. *)
Definition saved_entry (e : dirent) (nm : list Z) (size : Z) (xs : list extent) : dirent :=
  set_entry_extents (set_byte_size (set_name e (copy_name (name e) nm)) size) xs.

(** The slot the file gets: its own, or the first free one, set up. *)
Definition file_slot (parent_id : Z) (nm : list Z) : M (fs S) Z := fun st =>
  let dir := directory st in
  match find_entry_in_dir dir parent_id nm with
  | Some i => if used (dir_entry dir i) =? LAINFS_ENTRY_DIR then (inl (-8), st) else (inr i, st)
  | None =>
      match find_free_entry dir with
      | Some i => (inr i, set_directory (put_entry dir i (new_file_entry parent_id)) st)
      | None => (inl (-5), st)
      end
  end.

Definition lainfs_save_file_in_dir (drive_letter parent_id : Z) (nm buffer : list Z) (size : Z) : M (fs S) unit :=
  p ← partition_of_drive drive_letter (-1);
  guardb (valid_name nm && (size <=? LAINFS_FILE_CAPACITY)) (-2);;
  sb ← open_directory p (-3) (-4);
  guard_dir_id parent_id (-7);;
  slot ← file_slot parent_id nm;
  dir ← gets directory;
  blocks ← gets (fun st => part_blocks st p);
  let new_blocks := blocks_for_size size in
  let required_blocks := if new_blocks =? 0 then 1 else new_blocks in
  xs ← from_option (find_free_extents blocks sb dir required_blocks slot) (-9);
  modify (set_directory (put_entry dir slot (saved_entry (dir_entry dir slot) nm size xs)));;
  or_return (save_extents p buffer size xs 0) (-6);;
  or_return (save_directory p) (-6).

Definition lainfs_save_file (drive_letter : Z) (nm buffer : list Z) (size : Z) : M (fs S) unit :=
  lainfs_save_file_in_dir drive_letter LAINFS_ROOT_DIR nm buffer size.

Definition lainfs_write_file_in_dir (drive_letter parent_id : Z) (nm txt : list Z) : M (fs S) unit :=
  lainfs_save_file_in_dir drive_letter parent_id nm txt (u32 (str_len txt)).

Definition lainfs_write_file (drive_letter : Z) (nm txt : list Z) : M (fs S) unit :=
  lainfs_write_file_in_dir drive_letter LAINFS_ROOT_DIR nm txt.

(** The inner loop of [lainfs_load_file_in_dir]: the buffer and the next
    logical block. *)
Fixpoint load_blocks (p size : Z) (n : nat) (start block logical_block : Z) (buffer : list Z) : M (fs S) (list Z * Z) :=
  match n with
  | O => mret (buffer, logical_block)
  | Datatypes.S n' =>
      let base := u32 (logical_block * LAINFS_BLOCK_SIZE) in
      let bytes_left := if base <? size then u32 (size - base) else 0 in
      let bytes_to_copy := if bytes_left <? LAINFS_BLOCK_SIZE then bytes_left else LAINFS_BLOCK_SIZE in
      sector ← or_return (cached_read_block p (u32 (start + block))) (-7);
      load_blocks p size n' start (block + 1) (u32 (logical_block + 1))
        (splice (Z.to_nat base) (take (Z.to_nat bytes_to_copy) sector) buffer)
  end.

Fixpoint load_extents (p size : Z) (xs : list extent) (logical_block : Z) (buffer : list Z) : M (fs S) (list Z) :=
  match xs with
  | [] => mret buffer
  | x :: xs' =>
      r ← load_blocks p size (Z.to_nat (ex_blocks x)) (ex_start_lba x) 0 logical_block buffer;
      load_extents p size xs' (snd r) (fst r)
  end.

(** The file the search loop of [lainfs_load_file_in_dir] stops at. *)
Definition find_file (dir : list dirent) (parent_id : Z) (nm : list Z) : option nat :=
  find_index (fun e => negb (used e =? 0) && negb (used e =? LAINFS_ENTRY_DIR) &&
                       (entry_parent_id e =? parent_id) && str_eq (name e) nm) dir.

(** [buffer] has [buffer_size] bytes; the results are its contents and
    [*out_size]. *)
Definition lainfs_load_file_in_dir (drive_letter parent_id : Z) (nm buffer : list Z) : M (fs S) (list Z * Z) :=
  p ← partition_of_drive drive_letter (-1);
  guardb (valid_name nm && negb (length buffer =? 0)%nat) (-2);;
  open_directory p (-3) (-4);;
  guard_dir_id parent_id (-7);;
  dir ← gets directory;
  i ← from_option (find_file dir parent_id nm) (-5);
  let entry := dir_entry dir (Z.of_nat i) in
  guardb (negb ((LAINFS_FILE_CAPACITY <? byte_size entry) || (Z.of_nat (length buffer) <? byte_size entry))) (-6);;
  xs ← from_option (entry_extents entry) (-7);
  buffer ← load_extents p (byte_size entry) xs 0 buffer;
  mret (buffer, byte_size entry).

Definition lainfs_load_file (drive_letter : Z) (nm buffer : list Z) : M (fs S) (list Z * Z) :=
  lainfs_load_file_in_dir drive_letter LAINFS_ROOT_DIR nm buffer.

(** [buffer] is what [kmalloc(LAINFS_FILE_CAPACITY + 1)] returned; the result
    is what is printed. *)
Definition lainfs_read_file_in_dir (drive_letter parent_id : Z) (nm : list Z) (buffer : option (list Z)) : M (fs S) (list Z) :=
  buffer ← from_option buffer (-10);
  r ← lainfs_load_file_in_dir drive_letter parent_id nm (take (Z.to_nat LAINFS_FILE_CAPACITY) buffer);
  mret (filter (fun c => c <> 0) (take (Z.to_nat (snd r)) (fst r)) ++ [10]).

Definition lainfs_read_file (drive_letter : Z) (nm : list Z) (buffer : option (list Z)) : M (fs S) (list Z) :=
  lainfs_read_file_in_dir drive_letter LAINFS_ROOT_DIR nm buffer.

End ops.
