(* ===== verification/LainfsSpec.v ===== *)
(** What LainFS promises: an abstract file system.

    A LainFS partition is a finite tree of named nodes with ids 1 to 2048
    below the root 0. [spec] says which result each command of lainfs.h may
    return on a tree and which tree it leaves; LainfsRefine.v shows that the
    code does that. This file also proves that the specified commands keep
    names unique within a directory, and what a change of one entry does to the
    tree of a directory table. *)
From Stdlib Require Import ZArith Lia.
From stdpp Require Import base tactics option list numbers.
From S2P Require Import Prelude.
From S2P Require Import LainfsLayout.
From S2P Require Import LainfsDir.
#[local] Open Scope Z_scope.

(** * Updating the LainFS directory.

    How writing one directory entry acts on well-formedness, and what the
    ancestor walk [dir_is_descendant_of] computes: the lemmas behind make,
    delete, rename and save (LainfsOps.v). *)


(** ** Walking up *)

Lemma rooted_depth sb B dir n id : dir_shape dir -> dir_wf sb B dir -> rooted dir n id -> (n <= 2049)%nat.
Proof.
  intros Hd Hw Hr. inversion Hr as [|m id' Hid Hu Hr']; subst; [lia|].
  destruct (find_cycle_none dir id Hd) as (k & Hk & Hrk); [|done|done| |].
  - intros i e Hi Hue. apply (ew_parent sb B). apply Hw; [done|]. rewrite Hue. done.
  - by eapply find_cycle_rooted.
  - by rewrite (rooted_functional _ _ _ _ Hr Hrk).
Qed.

Lemma below_root_only dir ancestor : below dir ancestor 0 -> ancestor = 0.
Proof. intros H. inversion H; subst; [done|lia]. Qed.

Lemma descendant_loop_spec fuel dir n current ancestor : rooted dir n current -> (n < fuel)%nat ->
  exists b, descendant_loop fuel dir current ancestor = Some b /\ (b = true <-> below dir ancestor current).
Proof.
  intros Hr. revert fuel. induction Hr as [|n id Hid Hu Hr IH]; intros [|fuel] Hf; try lia; cbn [descendant_loop].
  - exists (ancestor =? LAINFS_ROOT_DIR). split; [done|]. rewrite Z.eqb_eq. split.
    + intros ->. constructor.
    + apply below_root_only.
  - destruct (id =? LAINFS_ROOT_DIR) eqn:E1; bool_prop; [unfold LAINFS_ROOT_DIR in *; lia|].
    destruct (LAINFS_MAX_FILES <? id) eqn:E2; bool_prop; [lia|].
    destruct (id =? ancestor) eqn:E3; bool_prop.
    { exists true. split; [done|]. split; [|done]. intros _. subst. constructor. }
    rewrite index_from_id by done. rewrite Hu. cbn.
    destruct (IH fuel) as (b & -> & Hb); [lia|]. exists b. split; [done|]. rewrite Hb. split.
    + intros H. by apply below_step.
    + intros H. inversion H; subst; done.
Qed.

(** In a well-formed directory the walk of [dir_is_descendant_of] ends and
    answers whether the candidate is the ancestor or lies below it. *)
Lemma is_descendant_spec sb B dir n candidate ancestor : dir_shape dir -> dir_wf sb B dir ->
  rooted dir n candidate -> dir_is_descendant_of dir candidate ancestor = true <-> below dir ancestor candidate.
Proof.
  intros Hd Hw Hr. pose proof (rooted_depth _ _ _ _ _ Hd Hw Hr).
  destruct (descendant_loop_spec 2050 dir n candidate ancestor Hr) as (b & Hb & Hs); [lia|].
  unfold dir_is_descendant_of. by rewrite Hb.
Qed.

Lemma valid_dir_rooted sb B dir id : dir_shape dir -> dir_wf sb B dir -> 0 <= id ->
  valid_dir_id dir id = true -> exists n, rooted dir n id.
Proof.
  intros Hd Hw Hid H. unfold valid_dir_id in H. destruct (id =? LAINFS_ROOT_DIR) eqn:E1; bool_prop.
  { exists 0%nat. subst. constructor. }
  destruct (LAINFS_MAX_FILES <? id) eqn:E2; bool_prop; [done|].
  unfold LAINFS_ROOT_DIR in *. rewrite index_from_id in H by lia.
  assert (Hi : dir !! Z.to_nat (id - 1) = Some (dir_entry dir (id - 1))) by (apply dir_entry_lookup; [done|lia]).
  destruct (dw_entries _ _ _ Hw _ _ Hi) as [_ _ _ Hdir _]; [rewrite H; done|].
  destruct (Hdir H) as (_ & _ & n & Hn). exists n. by replace id with (Z.of_nat (Z.to_nat (id - 1)) + 1) by lia.
Qed.

Lemma valid_dir_parent dir id : 0 <= id -> valid_dir_id dir id = true ->
  id = LAINFS_ROOT_DIR \/ 1 <= id <= LAINFS_MAX_FILES /\ used (dir_entry dir (id - 1)) = LAINFS_ENTRY_DIR.
Proof.
  intros Hid H. unfold valid_dir_id in H. destruct (id =? LAINFS_ROOT_DIR) eqn:E1; bool_prop; [auto|].
  destruct (LAINFS_MAX_FILES <? id) eqn:E2; bool_prop; [done|].
  unfold LAINFS_ROOT_DIR in *. rewrite index_from_id in H by lia. right. split; [lia|done].
Qed.

(** ** Writing one entry *)

Section put.
Context (sb : superblock) (B : Z) (dir : list dirent) (i : Z) (e' : dirent).
Context (Hd : dir_shape dir) (Hi : 0 <= i < LAINFS_MAX_FILES).
#[local] Abbreviation dir' := (put_entry dir i e').

(** A chain to the root that avoids the written entry stays. *)
Lemma rooted_put_avoid n id : rooted dir n id -> ~ below dir (i + 1) id -> rooted dir' n id.
Proof.
  induction 1 as [|n id Hid Hu Hr IH]; intros Hb; [constructor|].
  assert (id <> i + 1) by (intros ->; apply Hb; constructor).
  assert (He : dir_entry dir' (id - 1) = dir_entry dir (id - 1)) by (apply dir_entry_put_ne; lia).
  apply rooted_step; rewrite ?He; [done|done|]. apply IH. intros Hb'. apply Hb. by apply below_step.
Qed.

(** Every directory stays rooted if the written entry, when a chain passes
    it, becomes a directory below a parent that is not below it. *)
Lemma rooted_put n id : rooted dir n id ->
  (below dir (i + 1) id -> used e' = LAINFS_ENTRY_DIR /\
     exists m, rooted dir m (entry_parent_id e') /\ ~ below dir (i + 1) (entry_parent_id e')) ->
  exists n', rooted dir' n' id.
Proof.
  induction 1 as [|n id Hid Hu Hr IH]; intros Hb; [exists 0%nat; constructor|].
  destruct (decide (id = i + 1)) as [->|Hne].
  - destruct Hb as (Hdir & m & Hm & Hnb); [constructor|]. exists (S m).
    replace (i + 1 - 1) with i in * by lia.
    apply rooted_step; replace (i + 1 - 1) with i by lia; rewrite ?dir_entry_put_eq by done; [done|done|].
    by apply rooted_put_avoid.
  - assert (He : dir_entry dir' (id - 1) = dir_entry dir (id - 1)) by (apply dir_entry_put_ne; lia).
    destruct IH as [n' Hn']; [intros Hb'; apply Hb; by apply below_step|].
    exists (S n'). apply rooted_step; rewrite ?He; done.
Qed.

(** Something strictly below an entry means the entry has a child directory. *)
Lemma below_child id : below dir (i + 1) id -> id <> i + 1 ->
  exists j e, j <> Z.to_nat i /\ dir !! j = Some e /\ used e = LAINFS_ENTRY_DIR /\ entry_parent_id e = i + 1.
Proof.
  induction 1 as [|id Hid Hu Hb IH]; intros Hne; [done|].
  destruct (decide (entry_parent_id (dir_entry dir (id - 1)) = i + 1)) as [E|E]; [|auto].
  exists (Z.to_nat (id - 1)), (dir_entry dir (id - 1)). split_and!; [lia| |done|done].
  apply dir_entry_lookup; [done|lia].
Qed.

(** What the new entry has to satisfy. *)
Record new_entry_ok : Prop := {
  ne_type : used e' = LAINFS_ENTRY_FILE \/ used e' = LAINFS_ENTRY_DIR;
  ne_name : entry_name_is_valid (name e') = true;
  ne_parent : parent_wf dir (i + 1) e';
  ne_dir : used e' = LAINFS_ENTRY_DIR -> start_lba e' = 0 /\ byte_size e' = 0 /\
           exists m, rooted dir m (entry_parent_id e') /\ ~ below dir (i + 1) (entry_parent_id e');
  ne_file : used e' = LAINFS_ENTRY_FILE -> file_wf sb B e' /\
            forall j b xs ys, j <> Z.to_nat i -> dir !! j = Some b -> used b = LAINFS_ENTRY_FILE ->
              entry_extents e' = Some xs -> entry_extents b = Some ys -> extents_disjoint xs ys
}.

Context (Hw : dir_wf sb B dir).
Context (Hchild : forall j e, j <> Z.to_nat i -> dir !! j = Some e -> used e <> 0 ->
                  entry_parent_id e = i + 1 -> used e' = LAINFS_ENTRY_DIR).
Context (Hnew : used e' <> 0 -> new_entry_ok).

Lemma put_parent_wf id e : parent_wf dir id e ->
  (entry_parent_id e = i + 1 -> used e' = LAINFS_ENTRY_DIR) -> parent_wf dir' id e.
Proof.
  intros [Hne Hp] Hc. split; [done|]. destruct Hp as [Hp|[Hr Hp]]; [auto|right]. split; [done|].
  destruct (decide (entry_parent_id e = i + 1)) as [E|E].
  - rewrite E. replace (i + 1 - 1) with i by lia. rewrite dir_entry_put_eq by done. auto.
  - rewrite dir_entry_put_ne by lia. done.
Qed.

Lemma put_entry_entries j e : dir' !! j = Some e -> used e <> 0 -> entry_wf sb B dir' j e.
Proof.
  intros Hj Hu. apply lookup_put in Hj as [[-> ->]|[Hne Hj]]; [| |done|done].
  - destruct (Hnew Hu) as [Ht Hn Hp Hdir Hf].
    split; [done|done| | |].
    + replace (Z.of_nat (Z.to_nat i) + 1) with (i + 1) by lia.
      apply put_parent_wf; [done|]. intros E. destruct Hp as [Hp _]. done.
    + intros Hde. destruct (Hdir Hde) as (H1 & H2 & m & Hm & Hnb). split_and!; [done..|].
      replace (Z.of_nat (Z.to_nat i) + 1) with (i + 1) by lia. exists (S m).
      apply rooted_step; replace (i + 1 - 1) with i by lia; rewrite ?dir_entry_put_eq by done.
      * lia.
      * done.
      * by apply rooted_put_avoid.
    + intros Hfe. by destruct (Hf Hfe).
  - destruct (dw_entries _ _ _ Hw j e Hj Hu) as [Ht Hn Hp Hdir Hf]. split; [done|done| | |done].
    + apply put_parent_wf; [done|]. by apply (Hchild j).
    + intros Hde. destruct (Hdir Hde) as (H1 & H2 & n & Hr). split_and!; [done..|].
      apply (rooted_put n); [done|]. intros Hb.
      destruct (below_child _ Hb) as (k & c & Hk & Hc & Huc & Hpc); [lia|].
      assert (He' : used e' = LAINFS_ENTRY_DIR) by (eapply (Hchild k c); eauto; rewrite Huc; done).
      destruct (Hnew ltac:(rewrite He'; done)) as [_ _ _ Hdir' _]. split; [done|]. by destruct (Hdir' He') as (_ & _ & ?).
Qed.

Lemma put_entry_wf : dir_wf sb B dir'.
Proof using All.
  split; [apply Hw|apply put_entry_entries|].
  intros j k a b xs ys Hjk Ha Hb Hua Hub Hxs Hys.
  apply lookup_put in Ha as [[-> ->]|[Hnj Ha]]; [| |done|done];
  apply lookup_put in Hb as [[-> ->]|[Hnk Hb]]; try done.
  - destruct (Hnew ltac:(rewrite Hua; done)) as [_ _ _ _ Hf]. destruct (Hf Hua) as [_ Hdis]. eauto.
  - destruct (Hnew ltac:(rewrite Hub; done)) as [_ _ _ _ Hf]. destruct (Hf Hub) as [_ Hdis].
    intros x y Hx Hy. apply ex_disjoint_sym. eapply Hdis; eauto.
  - by eapply (dw_files _ _ _ Hw j k).
Qed.
End put.

(** * The abstract file system *)


Inductive node : Type :=
| NDir (parent : Z) (nm : list Z)
| NFile (parent : Z) (nm content : list Z).

Definition nd_parent (n : node) : Z := match n with NDir p _ => p | NFile p _ _ => p end.
Definition nd_name (n : node) : list Z := match n with NDir _ nm => nm | NFile _ nm _ => nm end.
Definition nd_is_dir (n : node) : bool := match n with NDir _ _ => true | NFile _ _ _ => false end.
Definition nd_move (n : node) (p : Z) (nm : list Z) : node :=
  match n with NDir _ _ => NDir p nm | NFile _ _ c => NFile p nm c end.

(** Nodes by id. *)
Definition tree : Type := Z -> option node.

Definition tset (t : tree) (id : Z) (n : option node) : tree := fun j => if decide (j = id) then n else t j.

Definition t_id (id : Z) : Prop := 1 <= id <= LAINFS_MAX_FILES.

Definition t_is_dir (t : tree) (id : Z) : Prop :=
  id = LAINFS_ROOT_DIR \/ exists n, t id = Some n /\ nd_is_dir n = true.

Definition t_child (t : tree) (parent : Z) (nm : list Z) (id : Z) : Prop :=
  exists n, t id = Some n /\ nd_parent n = parent /\ nd_name n = nm.

(** [id] is [ancestor] or lies below it. *)
Inductive t_below (t : tree) (ancestor : Z) : Z -> Prop :=
| tb_self : t_below t ancestor ancestor
| tb_step id n : t id = Some n -> nd_is_dir n = true -> t_below t ancestor (nd_parent n) -> t_below t ancestor id.

Inductive cmd : Type :=
| CMkdir (parent : Z) (nm : list Z)
| CDelete (parent : Z) (nm : list Z)
| CRename (old_parent : Z) (old_name : list Z) (new_parent : Z) (new_name : list Z)
| CSave (parent : Z) (nm buffer : list Z) (size : Z).

Definition cmd_args_ok (c : cmd) : bool :=
  match c with
  | CMkdir _ nm | CDelete _ nm => valid_name nm
  | CRename _ a _ b => valid_name a && valid_name b
  | CSave _ nm _ size => valid_name nm && (size <=? LAINFS_FILE_CAPACITY)
  end.

Definition cmd_parents_ok (t : tree) (c : cmd) : Prop :=
  match c with
  | CMkdir p _ | CDelete p _ | CSave p _ _ _ => t_is_dir t p
  | CRename p _ q _ => t_is_dir t p /\ t_is_dir t q
  end.

(** [spec t c r t']: on [t], [c] may return [r] and leave [t']. *)
Inductive spec (t : tree) : cmd -> Z -> tree -> Prop :=
| sp_args c : cmd_args_ok c = false -> spec t c (-2) t
| sp_parents c : cmd_args_ok c = true -> ~ cmd_parents_ok t c -> spec t c (-7) t
| sp_mkdir p nm id : cmd_args_ok (CMkdir p nm) = true -> cmd_parents_ok t (CMkdir p nm) ->
    (forall j, ~ t_child t p (cstr nm) j) -> t_id id -> t id = None ->
    spec t (CMkdir p nm) 0 (tset t id (Some (NDir p (cstr nm))))
| sp_mkdir_exists p nm id : t_child t p (cstr nm) id -> spec t (CMkdir p nm) (-6) t
| sp_mkdir_full p nm : (forall id, t_id id -> t id <> None) -> spec t (CMkdir p nm) (-5) t
| sp_delete p nm id n : cmd_args_ok (CDelete p nm) = true -> cmd_parents_ok t (CDelete p nm) ->
    t_child t p (cstr nm) id -> t id = Some n ->
    (nd_is_dir n = true -> forall j m, t j = Some m -> nd_parent m <> id) ->
    spec t (CDelete p nm) 0 (tset t id None)
| sp_delete_missing p nm : (forall j, ~ t_child t p (cstr nm) j) -> spec t (CDelete p nm) (-5) t
| sp_delete_children p nm id n j m : t_child t p (cstr nm) id -> t id = Some n -> nd_is_dir n = true ->
    t j = Some m -> nd_parent m = id -> spec t (CDelete p nm) (-9) t
| sp_rename p a q b id n : cmd_args_ok (CRename p a q b) = true -> cmd_parents_ok t (CRename p a q b) ->
    t_child t p (cstr a) id -> t id = Some n -> (nd_is_dir n = true -> ~ t_below t id q) ->
    (forall j, ~ t_child t q (cstr b) j) ->
    spec t (CRename p a q b) 0 (tset t id (Some (nd_move n q (cstr b))))
| sp_rename_missing p a q b : (forall j, ~ t_child t p (cstr a) j) -> spec t (CRename p a q b) (-5) t
| sp_rename_below p a q b id n : t_child t p (cstr a) id -> t id = Some n -> nd_is_dir n = true ->
    t_below t id q -> spec t (CRename p a q b) (-8) t
| sp_rename_exists p a q b id : t_child t q (cstr b) id -> spec t (CRename p a q b) (-6) t
| sp_save_new p nm buf size id : cmd_args_ok (CSave p nm buf size) = true -> cmd_parents_ok t (CSave p nm buf size) ->
    (forall j, ~ t_child t p (cstr nm) j) -> t_id id -> t id = None ->
    spec t (CSave p nm buf size) 0 (tset t id (Some (NFile p (cstr nm) (take (Z.to_nat size) buf))))
| sp_save_over p nm buf size id n : cmd_args_ok (CSave p nm buf size) = true -> cmd_parents_ok t (CSave p nm buf size) ->
    t_child t p (cstr nm) id -> t id = Some n -> nd_is_dir n = false ->
    spec t (CSave p nm buf size) 0 (tset t id (Some (NFile p (cstr nm) (take (Z.to_nat size) buf))))
| sp_save_dir p nm buf size id n : t_child t p (cstr nm) id -> t id = Some n -> nd_is_dir n = true ->
    spec t (CSave p nm buf size) (-8) t
| sp_save_full p nm buf size : (forall j, ~ t_child t p (cstr nm) j) -> (forall id, t_id id -> t id <> None) ->
    spec t (CSave p nm buf size) (-5) t
| sp_save_space p nm buf size : spec t (CSave p nm buf size) (-9) t.

(** ** Names stay unique *)

Definition names_unique (t : tree) : Prop :=
  forall i j p nm, t_child t p nm i -> t_child t p nm j -> i = j.

Lemma tset_eq t id n : tset t id n id = n.
Proof. unfold tset. by rewrite decide_True. Qed.
Lemma tset_ne t id n j : j <> id -> tset t id n j = t j.
Proof. intros. unfold tset. by rewrite decide_False. Qed.

Lemma t_child_set t id n p nm j : t_child (tset t id n) p nm j <->
  (j = id /\ exists m, n = Some m /\ nd_parent m = p /\ nd_name m = nm) \/ (j <> id /\ t_child t p nm j).
Proof.
  unfold t_child. destruct (decide (j = id)) as [->|Hne].
  - rewrite tset_eq. split; [auto|intros [[_ ?]|[? _]]; done].
  - rewrite tset_ne by done. split; [auto|intros [[? _]|[_ ?]]; done].
Qed.

(** Setting a node whose name no other child of its parent has. *)
Lemma names_unique_set t id m : names_unique t ->
  (forall j, t_child t (nd_parent m) (nd_name m) j -> j = id) -> names_unique (tset t id (Some m)).
Proof.
  intros Hu Hf i j p nm Hi Hj. rewrite t_child_set in Hi, Hj.
  destruct Hi as [(-> & m1 & [= <-] & <- & <-)|(Hi & Hci)], Hj as [(-> & m2 & [= <-] & E1 & E2)|(Hj & Hcj)]; try done.
  - symmetry. auto.
  - rewrite <- E1, <- E2 in Hci. auto.
  - eauto.
Qed.

Lemma names_unique_del t id : names_unique t -> names_unique (tset t id None).
Proof.
  intros Hu i j p nm Hi Hj. rewrite t_child_set in Hi, Hj.
  destruct Hi as [(_ & ? & ? & _)|(_ & Hi)]; [done|]. destruct Hj as [(_ & ? & ? & _)|(_ & Hj)]; [done|]. eauto.
Qed.

Lemma spec_names_unique t c r t' : names_unique t -> spec t c r t' -> names_unique t'.
Proof.
  intros Hu H. destruct H; try done.
  - apply names_unique_set; [done|]. intros j Hj. exfalso. by eapply H1.
  - by apply names_unique_del.
  - apply names_unique_set; [done|]. intros j Hj. exfalso. destruct n; by eapply H4.
  - apply names_unique_set; [done|]. intros j Hj. exfalso. by eapply H1.
  - apply names_unique_set; [done|]. intros j Hj. by eapply Hu.
Qed.
