(* ===== verification/LainfsRefine.v ===== *)
(** The operations of LainFS refine their specification.

    The abstract tree of a partition ([tree_of]) is read through the caches:
    directory entries from [dview], file contents from [view]. Every command
    on a drive whose directory is well formed returns a result that [spec]
    allows, leaves the tree that goes with it, keeps the directory well
    formed and leaves every other partition alone. *)
From Stdlib Require Import ZArith Lia.
From stdpp Require Import base tactics option list numbers.
From S2P Require Import Prelude.
From S2P Require Import StorageApi.
From S2P Require Import LainfsLayout.
From S2P Require Import LainfsDir.
From S2P Require Import LainfsAlloc.
From S2P Require Import LainfsState.
From S2P Require Import LainfsCache.
From S2P Require Import LainfsOps.
From S2P Require Import LainfsSpec.
#[local] Open Scope Z_scope.

(** ** Abstraction *)

(** The blocks of a file, in order. *)
Definition block_list (xs : list extent) : list Z := concat ((fun x => seqZ (ex_start_lba x) (ex_blocks x)) <$> xs).

Lemma elem_of_block_list b xs : b ∈ block_list xs <-> exists x, x ∈ xs /\ in_extent b x.
Proof.
  unfold block_list, in_extent. rewrite list_elem_of_In, in_concat. split.
  - intros (l & Hl & Hb). apply list_elem_of_In in Hl, Hb. apply list_elem_of_fmap in Hl as (x & -> & Hx).
    apply elem_of_seqZ in Hb. eauto.
  - intros (x & Hx & Hb). exists (seqZ (ex_start_lba x) (ex_blocks x)). rewrite <- !list_elem_of_In.
    rewrite elem_of_seqZ. split; [|done]. apply list_elem_of_fmap. eauto.
Qed.

Definition file_bytes (f : Z -> list Z) (e : dirent) : list Z :=
  take (Z.to_nat (byte_size e)) (concat (f <$> block_list (default [] (entry_extents e)))).

Definition abs_entry (f : Z -> list Z) (e : dirent) : option node :=
  if used e =? LAINFS_ENTRY_FILE then Some (NFile (entry_parent_id e) (cstr (name e)) (file_bytes f e))
  else if used e =? LAINFS_ENTRY_DIR then Some (NDir (entry_parent_id e) (cstr (name e)))
  else None.

Definition abs_tree (f : Z -> list Z) (dir : list dirent) : tree := fun id =>
  if decide (t_id id) then abs_entry f (dir_entry dir (id - 1)) else None.

#[export] Instance t_id_dec id : Decision (t_id id).
Proof. unfold t_id. apply _. Defined.

Lemma abs_tree_put f dir i e id : dir_shape dir -> 0 <= i < LAINFS_MAX_FILES ->
  abs_tree f (put_entry dir i e) id = tset (abs_tree f dir) (i + 1) (abs_entry f e) id.
Proof.
  intros Hd Hi. unfold abs_tree, tset. destruct (decide (id = i + 1)) as [->|Hne].
  - rewrite decide_True by (unfold t_id; lia). replace (i + 1 - 1) with i by lia. by rewrite dir_entry_put_eq.
  - destruct (decide (t_id id)) as [Hid|Hid]; [|done]. unfold t_id in Hid. by rewrite dir_entry_put_ne by lia.
Qed.

(** Used entries of a well-formed directory are the nodes. *)
Lemma abs_entry_Some f e : abs_entry f e <> None <-> used e = LAINFS_ENTRY_FILE \/ used e = LAINFS_ENTRY_DIR.
Proof.
  unfold abs_entry. destruct (Z.eqb_spec (used e) LAINFS_ENTRY_FILE) as [E|E]; [split; auto|].
  destruct (Z.eqb_spec (used e) LAINFS_ENTRY_DIR) as [E2|E2]; [split; auto|]. split; [done|intros [?|?]; done].
Qed.

Section abstraction.
Context (sb : superblock) (B : Z) (dir : list dirent) (f : Z -> list Z).
Context (Hd : dir_shape dir) (Hw : dir_wf sb B dir).

Lemma entry_type i e : dir !! i = Some e -> used e <> 0 -> used e = LAINFS_ENTRY_FILE \/ used e = LAINFS_ENTRY_DIR.
Proof using Hw. intros Hi Hu. by apply (ew_type _ _ _ _ _ (dw_entries _ _ _ Hw i e Hi Hu)). Qed.

Lemma abs_tree_lookup i e : dir !! i = Some e -> abs_tree f dir (Z.of_nat i + 1) = abs_entry f e.
Proof using Hd.
  intros Hi. destruct (dir_shape_lt _ _ _ Hd Hi) as [Hlt _]. unfold abs_tree.
  rewrite decide_True by (unfold t_id; rewrite max_files; lia).
  replace (Z.of_nat i + 1 - 1) with (Z.of_nat i) by lia. by rewrite (dir_entry_of_lookup _ _ _ Hi).
Qed.

Lemma abs_node_entry id n : abs_tree f dir id = Some n ->
  exists e, dir !! Z.to_nat (id - 1) = Some e /\ t_id id /\ used e <> 0 /\ abs_entry f e = Some n /\
    nd_parent n = entry_parent_id e /\ nd_name n = cstr (name e) /\
    (nd_is_dir n = true <-> used e = LAINFS_ENTRY_DIR).
Proof using Hd.
  unfold abs_tree. intros H. destruct (decide (t_id id)) as [Hid|]; [|done].
  exists (dir_entry dir (id - 1)). split; [apply dir_entry_lookup; [done|unfold t_id in Hid; lia]|].
  split; [done|]. pose proof H as H'. unfold abs_entry in H'.
  destruct (Z.eqb_spec (used (dir_entry dir (id - 1))) LAINFS_ENTRY_FILE) as [E|E].
  { simplify_eq. rewrite E. by split_and!. }
  destruct (Z.eqb_spec (used (dir_entry dir (id - 1))) LAINFS_ENTRY_DIR) as [E2|E2]; [|done].
  simplify_eq. rewrite E2. by split_and!.
Qed.

Lemma abs_used_node i e : dir !! i = Some e -> used e <> 0 ->
  exists n, abs_tree f dir (Z.of_nat i + 1) = Some n /\ nd_parent n = entry_parent_id e /\ nd_name n = cstr (name e) /\
    (nd_is_dir n = true <-> used e = LAINFS_ENTRY_DIR).
Proof using Hd Hw.
  intros Hi Hu. rewrite (abs_tree_lookup i e Hi). unfold abs_entry.
  destruct (entry_type i e Hi Hu) as [->| ->]; eexists; cbn; by split_and!.
Qed.

Lemma abs_free i e : dir !! i = Some e -> used e = 0 -> abs_tree f dir (Z.of_nat i + 1) = None.
Proof using Hd. intros Hi Hu. rewrite (abs_tree_lookup i e Hi). unfold abs_entry. by rewrite Hu. Qed.

Lemma valid_dir_abs id : 0 <= id -> valid_dir_id dir id = true <-> t_is_dir (abs_tree f dir) id.
Proof using Hd.
  intros Hid. unfold t_is_dir. split.
  - intros [->|[Hr Hu]]%valid_dir_parent; [auto|right|done]. unfold abs_tree. rewrite decide_True by done.
    unfold abs_entry. rewrite Hu. cbn. eauto.
  - intros [->|(n & Hn & Hdir)]; [done|]. destruct (abs_node_entry _ _ Hn) as (e & He & Hr & Hu & _ & _ & _ & Ht).
    unfold valid_dir_id, t_id in *. destruct (Z.eqb_spec id LAINFS_ROOT_DIR); [done|].
    destruct (Z.ltb_spec LAINFS_MAX_FILES id); [lia|]. rewrite index_from_id by lia.
    unfold dir_entry. rewrite He. cbn. apply Z.eqb_eq. by apply Ht.
Qed.

(** [find_entry_in_dir] finds a child, or there is none. *)
Lemma find_entry_Some parent nm i : find_entry_in_dir dir parent nm = Some i ->
  exists n, 0 <= i < LAINFS_MAX_FILES /\ abs_tree f dir (i + 1) = Some n /\ t_child (abs_tree f dir) parent (cstr nm) (i + 1) /\
    dir !! Z.to_nat i = Some (dir_entry dir i) /\ used (dir_entry dir i) <> 0 /\
    entry_parent_id (dir_entry dir i) = parent /\ cstr (name (dir_entry dir i)) = cstr nm /\
    (nd_is_dir n = true <-> used (dir_entry dir i) = LAINFS_ENTRY_DIR).
Proof using Hd Hw.
  unfold find_entry_in_dir. intros (k & Hk & ->)%fmap_Some.
  apply find_index_Some in Hk as (e & He & Hm & _). bool_prop.
  match goal with H : str_eq _ _ = true |- _ => apply str_eq_spec in H end.
  destruct (abs_used_node k e He) as (n & Hn & Hp & Hnm & Ht); [done|].
  destruct (dir_shape_lt _ _ _ Hd He) as [Hlt _]. rewrite (dir_entry_of_lookup _ _ _ He), Nat2Z.id.
  exists n. split_and!; try done; [lia|rewrite max_files; lia|]. exists n. split_and!; congruence.
Qed.

Lemma find_entry_None parent nm j : find_entry_in_dir dir parent nm = None -> ~ t_child (abs_tree f dir) parent (cstr nm) j.
Proof using Hd.
  unfold find_entry_in_dir. intros H%fmap_None (n & Hn & Hp & Hnm).
  destruct (abs_node_entry _ _ Hn) as (e & He & _ & Hu & _ & Hpe & Hne & _).
  pose proof (proj1 (find_index_None _ _) H _ _ He) as Hf. apply andb_false_iff in Hf as [Hf|Hf].
  - apply andb_false_iff in Hf as [Hf|Hf]; bool_prop; congruence.
  - apply str_eq_spec_false in Hf. congruence.
Qed.

Lemma find_free_Some i : find_free_entry dir = Some i ->
  0 <= i < LAINFS_MAX_FILES /\ dir !! Z.to_nat i = Some (dir_entry dir i) /\ used (dir_entry dir i) = 0 /\
  abs_tree f dir (i + 1) = None /\ t_id (i + 1).
Proof using Hd.
  unfold find_free_entry. intros (k & Hk & ->)%fmap_Some. apply find_index_Some in Hk as (e & He & Hu & _). bool_prop.
  destruct (dir_shape_lt _ _ _ Hd He) as [Hlt _]. rewrite (dir_entry_of_lookup _ _ _ He), Nat2Z.id. unfold t_id.
  rewrite max_files. split_and!; try lia; [done|by apply (abs_free k e)].
Qed.

Lemma find_free_None : find_free_entry dir = None -> forall id, t_id id -> abs_tree f dir id <> None.
Proof using Hd Hw.
  unfold find_free_entry. intros H%fmap_None id Hid. unfold t_id in Hid.
  pose proof (dir_entry_lookup dir (id - 1) Hd ltac:(lia)) as He.
  pose proof (proj1 (find_index_None _ _) H _ _ He) as Hu. cbv beta in Hu. bool_prop.
  destruct (abs_used_node _ _ He Hu) as (n & Hn & _). replace (Z.of_nat (Z.to_nat (id - 1)) + 1) with id in Hn by lia.
  by rewrite Hn.
Qed.

Lemma below_abs anc id : below dir anc id <-> t_below (abs_tree f dir) anc id.
Proof using Hd.
  split.
  - induction 1 as [|id Hid Hu Hb IH]; [constructor|].
    eapply (tb_step _ _ id (NDir (entry_parent_id (dir_entry dir (id - 1))) (cstr (name (dir_entry dir (id - 1)))))); [|done|done].
    unfold abs_tree. rewrite decide_True by done. unfold abs_entry. by rewrite Hu.
  - induction 1 as [|id n Hn Hdir Hb IH]; [constructor|].
    destruct (abs_node_entry _ _ Hn) as (e & He & Hid & _ & _ & Hp & _ & Ht).
    assert (dir_entry dir (id - 1) = e) as E by (unfold dir_entry; by rewrite He).
    apply below_step; [done|rewrite E; by apply Ht|]. rewrite E, <- Hp. done.
Qed.

Lemma has_children_abs id : dir_has_children dir id = true <-> exists j m, abs_tree f dir j = Some m /\ nd_parent m = id.
Proof using Hd Hw.
  unfold dir_has_children. rewrite existsb_exists. split.
  - intros (e & Hin & Hm). apply list_elem_of_In, list_elem_of_lookup in Hin as (k & Hk). bool_prop.
    destruct (abs_used_node k e Hk) as (n & Hn & Hp & _); [done|]. exists (Z.of_nat k + 1), n. split; congruence.
  - intros (j & m & Hm & Hp). destruct (abs_node_entry _ _ Hm) as (e & He & _ & Hu & _ & Hpe & _).
    exists e. split; [apply list_elem_of_In; by eapply list_elem_of_lookup_2|].
    apply andb_true_iff. split; [by apply negb_true_iff, Z.eqb_neq|apply Z.eqb_eq; congruence].
Qed.
End abstraction.

(** ** Drives *)

Section refine.
Context {S : Type} `{!StorageApi S, !StorageLaws S}.
Implicit Types (st : fs S).

Definition tree_of st (p : Z) (sb : superblock) : tree := abs_tree (view st p) (dview st p sb).

(** Drive [d] is mounted on partition [p], which is formatted with superblock
    [sb] and [B] blocks and has a well-formed directory. *)
Record ready st (d p : Z) (sb : superblock) (B : Z) : Prop := {
  rd_inv : fs_inv st;
  rd_mount : exists m, mount_for_drive st d = Some m /\ mt_partition_index m = p;
  rd_formatted : formatted (store st) p sb B;
  rd_dir : dir_wf sb B (dview st p sb)
}.

(** What an operation on partition [p] does not touch. *)
Record others_kept st st' (p : Z) : Prop := {
  ok_tables : same_tables (store st) (store st');
  ok_formatted q sb B : formatted (store st) q sb B -> formatted (store st') q sb B;
  ok_view q sb B lba : formatted (store st) q sb B -> q <> p -> sb_data_start_lba sb <= lba < B ->
    view st' q lba = view st q lba;
  ok_dview q sb B : formatted (store st) q sb B -> q <> p -> dview st' q sb = dview st q sb
}.

Lemma same_fs_others st st' p : same_fs st st' -> others_kept st st' p.
Proof. intros []. split; eauto. Qed.

Lemma others_kept_trans st1 st2 st3 p : others_kept st1 st2 p -> others_kept st2 st3 p -> others_kept st1 st3 p.
Proof.
  intros [T1 F1 V1 D1] [T2 F2 V2 D2]. split.
  - by trans (store st2).
  - auto.
  - intros q sb B lba Hf Hne Hl. rewrite (V2 q sb B) by auto. by apply (V1 q sb B).
  - intros q sb B Hf Hne. rewrite (D2 q sb B) by auto. by apply (D1 q sb B).
Qed.

Lemma partition_of_drive_ok st d p c m : mount_for_drive st d = Some m -> mt_partition_index m = p ->
  partition_of_drive d c st = (inr p, st).
Proof. intros Hm <-. unfold partition_of_drive, gets, from_option, mbind, M_bind. by rewrite Hm. Qed.

Lemma mount_same st st' d : same_tables (store st) (store st') -> mount_for_drive st' d = mount_for_drive st d.
Proof. intros (_ & H & _). apply H. Qed.

(** Opening the directory of a ready drive. *)
Lemma open_directory_ok st d p sb B c1 c2 : ready st d p sb B ->
  exists st', open_directory p c1 c2 st = (inr sb, st') /\ fs_inv st' /\ same_fs st st' /\
    dir_loaded st' p (dview st p sb) /\ dir_shape (dview st p sb).
Proof.
  intros [Hi Hm Hf Hw]. destruct (read_super_ok st p sb B Hi Hf) as (st1 & Hr1 & Hi1 & Hs1 & _).
  pose proof (sf_formatted _ _ Hs1 _ _ _ Hf) as Hf1. rewrite <- (sf_dview _ _ Hs1 p sb B Hf) in Hw |- *.
  destruct (load_directory_ok st1 p sb B Hi1 Hf1 Hw) as (st2 & Hr2 & Hi2 & Hs2 & Hd2 & Hsh).
  exists st2. split_and!; [|done|by trans st1|done|done].
  unfold open_directory, or_return, mbind, M_bind. rewrite Hr1, Hr2. done.
Qed.

Lemma same_fs_file_bytes st st' p sb B e : same_fs st st' -> formatted (store st) p sb B ->
  used e = LAINFS_ENTRY_FILE -> file_wf sb B e -> file_bytes (view st' p) e = file_bytes (view st p) e.
Proof.
  intros Hs Hf Hu (_ & xs & Hxs & Hin & _). unfold file_bytes. rewrite Hxs. cbn [default]. do 2 f_equal.
  apply list_fmap_ext. intros i b Hb%list_elem_of_lookup_2. apply (sf_view _ _ Hs p sb B _ Hf).
  apply elem_of_block_list in Hb as (x & Hx & Hb). unfold in_extent in Hb.
  rewrite Forall_elem in Hin. destruct (Hin x Hx) as (? & ? & ?). lia.
Qed.

(** States that show the same have the same tree. *)
Lemma same_fs_tree st st' p sb B id : same_fs st st' -> formatted (store st) p sb B ->
  dir_shape (dview st p sb) -> dir_wf sb B (dview st p sb) -> tree_of st' p sb id = tree_of st p sb id.
Proof.
  intros Hs Hf Hsh Hw. unfold tree_of. rewrite (sf_dview _ _ Hs p sb B Hf). unfold abs_tree.
  destruct (decide (t_id id)) as [Hid|]; [|done]. unfold t_id in Hid. unfold abs_entry.
  set (e := dir_entry (dview st p sb) (id - 1)).
  destruct (Z.eqb_spec (used e) LAINFS_ENTRY_FILE) as [E|]; [|done]. do 2 f_equal.
  apply (same_fs_file_bytes st st' p sb B); [done|done|done|].
  assert (He : dview st p sb !! Z.to_nat (id - 1) = Some e) by (apply dir_entry_lookup; [done|lia]).
  apply (ew_file _ _ _ _ _ (dw_entries _ _ _ Hw _ _ He ltac:(rewrite E; done))). done.
Qed.

(** An operation that returns early after opening the directory. *)
Lemma ready_same st st' d p sb B : ready st d p sb B -> fs_inv st' -> same_fs st st' -> ready st' d p sb B.
Proof.
  intros [Hi Hm Hf Hw] Hi' Hs. split; [done| |by apply Hs|by rewrite (sf_dview _ _ Hs p sb B Hf)].
  rewrite (mount_same st st' d (sf_tables _ _ Hs)). done.
Qed.

(** Storing a new directory: [put_entry] and [save_directory]. *)
Definition stored st (p : Z) (dir' : list dirent) : fs S :=
  bump count_directory_write (set_dir_flags true true p (set_directory dir' st)).

Lemma stored_ok st p sb B dir dir' : fs_inv st -> formatted (store st) p sb B -> dir_loaded st p dir -> dir_shape dir' ->
  fs_inv (stored st p dir') /\ others_kept st (stored st p dir') p /\
  dview (stored st p dir') p sb = dir' /\ (forall q lba, view (stored st p dir') q lba = view st q lba).
Proof.
  intros Hi Hf (Hv & Hp & Hdir) Hsh. split_and!.
  - apply bump_inv. destruct Hi. split; try done. intros _. split; [done|]. exists sb, B. done.
  - split; try done. intros q sbq Bq Hq Hne. unfold dview. cbn. rewrite Hv, Hp.
    destruct (Z.eqb_spec p q); [congruence|done].
  - unfold dview. cbn. by rewrite Z.eqb_refl.
  - done.
Qed.

Lemma save_directory_run st p dir' c :
  or_return (save_directory p) c (set_directory dir' st) = (inr tt, stored st p dir').
Proof. done. Qed.

(** The end of every operation that changes one entry. *)
Lemma commit_ok st0 st d p sb B i e' : ready st0 d p sb B -> fs_inv st -> same_fs st0 st ->
  dir_loaded st p (dview st0 p sb) -> dir_shape (dview st0 p sb) -> 0 <= i < LAINFS_MAX_FILES -> dirent_ok e' ->
  dir_wf sb B (put_entry (dview st0 p sb) i e') ->
  let st' := stored st p (put_entry (dview st0 p sb) i e') in
  ready st' d p sb B /\ others_kept st0 st' p /\
  (forall id, tree_of st' p sb id = tset (tree_of st0 p sb) (i + 1) (abs_entry (view st p) e') id).
Proof.
  intros Hr Hi Hs Hl Hsh Hidx He Hw. cbv zeta. pose proof (rd_formatted _ _ _ _ _ Hr) as Hf0.
  pose proof (sf_formatted _ _ Hs _ _ _ Hf0) as Hf. set (dir := dview st0 p sb) in *.
  destruct (stored_ok st p sb B dir (put_entry dir i e') Hi Hf Hl) as (Hi' & Ho & Hd & Hv); [by apply put_entry_shape|].
  split_and!.
  - split; [done| |done|by rewrite Hd]. rewrite (mount_same st0); [apply Hr|]. exact (sf_tables _ _ Hs).
  - eapply others_kept_trans; [by apply same_fs_others|done].
  - intros id. unfold tree_of. rewrite Hd. rewrite abs_tree_put by done.
    change (view (stored st p (put_entry dir i e')) p) with (view st p).
    unfold tset. destruct (decide _); [done|].
    pose proof (same_fs_tree st0 st p sb B id Hs Hf0 Hsh (rd_dir _ _ _ _ _ Hr)) as Ht.
    unfold tree_of in Ht. rewrite (sf_dview _ _ Hs p sb B Hf0) in Ht. exact Ht.
Qed.

(** ** Commands *)

Lemma guard_dir_id_run st id c :
  guard_dir_id id c st = if valid_dir_id (directory st) id then (inr tt, st) else (inl c, st).
Proof. unfold guard_dir_id, gets, guardb, mbind, M_bind. by destruct (valid_dir_id _ _). Qed.

(** A run of command [c] on drive [d] does what [spec] says. *)
Definition refines st (d p : Z) (sb : superblock) (B : Z) (c : cmd) (run : (Z + unit) * fs S) : Prop :=
  exists r st' t', run = (r, st') /\ ready st' d p sb B /\ others_kept st st' p /\
    spec (tree_of st p sb) c (status r) t' /\ (forall id, tree_of st' p sb id = t' id).

Lemma refines_early st st' d p sb B c code : ready st d p sb B -> fs_inv st' -> same_fs st st' ->
  dir_shape (dview st p sb) -> spec (tree_of st p sb) c code (tree_of st p sb) ->
  refines st d p sb B c (inl code, st').
Proof.
  intros Hr Hi Hs Hsh Hsp. exists (inl code), st', (tree_of st p sb).
  split_and!; [done|by eapply ready_same|by apply same_fs_others|done|].
  intros id. destruct Hr as [_ _ Hf Hw]. by eapply same_fs_tree.
Qed.

Lemma ready_shape st d p sb B : ready st d p sb B -> dir_shape (dview st p sb).
Proof. intros Hr. by destruct (open_directory_ok st d p sb B 0 0 Hr) as (_ & _ & _ & _ & _ & Hsh). Qed.

(** What every command starts with. *)
Lemma command_start {A} st d p sb B ok c1 c2 (k : Z -> superblock -> M (fs S) A) c (Q : (Z + A) * fs S -> Prop) :
  ready st d p sb B ->
  (ok = false -> Q (inl c, st)) ->
  (forall st', ok = true -> fs_inv st' -> same_fs st st' -> dir_loaded st' p (dview st p sb) -> Q (k p sb st')) ->
  Q ((p ← partition_of_drive d (-1); guardb ok c;; sb ← open_directory p c1 c2; k p sb) st).
Proof.
  intros Hr Hbad Hok. destruct (rd_mount _ _ _ _ _ Hr) as (m & Hm & Hp).
  rewrite (bind_ok _ _ _ p st) by by eapply partition_of_drive_ok.
  destruct ok; [|by apply Hbad]. rewrite (bind_ok (guardb true c) _ st tt st) by done.
  destruct (open_directory_ok st d p sb B c1 c2 Hr) as (st1 & Hrun & Hi1 & Hs1 & Hl1 & _).
  rewrite (bind_ok _ _ _ _ _ Hrun). by apply Hok.
Qed.

Lemma valid_name_entry nm dst : valid_name nm = true -> length dst = 31%nat -> entry_name_is_valid (copy_name dst nm) = true /\
  cstr (copy_name dst nm) = cstr nm.
Proof.
  intros Hn Hl. assert (Hlen : str_len nm = Z.of_nat (length (cstr nm))) by apply str_len_cstr.
  assert (Hc : cstr (copy_name dst nm) = cstr nm).
  { unfold copy_name. rewrite cstr_copy_str by done. apply take_ge.
    unfold valid_name in Hn. destruct (_ || _) eqn:E in Hn; [done|]. bool_prop. lia. }
  split; [|done]. unfold entry_name_is_valid.
  assert (Hs : str_len (take 31 (copy_name dst nm)) = str_len nm).
  { rewrite take_ge; [by rewrite !str_len_cstr, Hc|]. unfold copy_name. rewrite length_copy_str; lia. }
  unfold valid_name in *. rewrite Hs. rewrite (str_len_cstr (copy_name dst nm)), Hc, <- str_len_cstr.
  destruct (_ || _) eqn:E in Hn; [done|]. rewrite E. bool_prop.
  destruct (Z.leb_spec 31 (str_len nm)); [lia|]. by rewrite Hn.
Qed.

Lemma new_dir_entry_ok nm parent : valid_name nm = true -> bytes nm -> is_u32 parent ->
  dirent_ok (new_dir_entry nm parent) /\ entry_parent_id (new_dir_entry nm parent) = parent /\
  entry_name_is_valid (name (new_dir_entry nm parent)) = true /\ cstr (name (new_dir_entry nm parent)) = cstr nm.
Proof.
  intros Hn Hb Hp. destruct (valid_name_entry nm (replicate 31 0) Hn) as [Hv Hc]; [done|].
  assert (Hok : dirent_ok (set_name (set_used zero_dirent LAINFS_ENTRY_DIR)
            (copy_name (name (set_used zero_dirent LAINFS_ENTRY_DIR)) nm))).
  { apply set_name_copy_ok; [done|]. apply set_used_ok; [by split|apply zero_dirent_ok]. }
  split_and!; [by apply set_entry_parent_id_ok|by apply entry_parent_set|done|done].
Qed.

(** In a well-formed directory nothing hangs below a free entry. *)
Lemma free_no_child sb B dir i j e : dir_shape dir -> dir_wf sb B dir -> 0 <= i < LAINFS_MAX_FILES ->
  used (dir_entry dir i) = 0 -> dir !! j = Some e -> used e <> 0 -> entry_parent_id e <> i + 1.
Proof.
  intros Hd Hw Hi Hu Hj Hue Hp. destruct (ew_parent _ _ _ _ _ (dw_entries _ _ _ Hw j e Hj Hue)) as [_ [Hr|[_ Hr]]].
  - unfold LAINFS_ROOT_DIR in *. lia.
  - rewrite Hp in Hr. replace (i + 1 - 1) with i in Hr by lia. rewrite Hu in Hr. done.
Qed.

Lemma below_free sb B dir i id : dir_shape dir -> dir_wf sb B dir -> 0 <= i < LAINFS_MAX_FILES ->
  used (dir_entry dir i) = 0 -> id <> i + 1 -> ~ below dir (i + 1) id.
Proof.
  intros Hd Hw Hi Hu Hne Hb. destruct (below_child dir i Hd Hi id Hb Hne) as (j & e & _ & Hj & Hue & Hp).
  eapply free_no_child; eauto. rewrite Hue. done.
Qed.

Lemma new_dir_wf sb B dir i nm parent : dir_shape dir -> dir_wf sb B dir -> 0 <= i < LAINFS_MAX_FILES ->
  used (dir_entry dir i) = 0 -> valid_name nm = true -> bytes nm -> is_u32 parent -> valid_dir_id dir parent = true ->
  dir_wf sb B (put_entry dir i (new_dir_entry nm parent)).
Proof.
  intros Hd Hw Hi Hu Hn Hb Hp Hv. destruct (new_dir_entry_ok nm parent Hn Hb Hp) as (Hok & Hpe & Hne & _).
  assert (Hpar : parent <> i + 1).
  { intros ->. apply valid_dir_parent in Hv as [?|[_ Hv]]; [unfold LAINFS_ROOT_DIR in *; lia| |lia].
    replace (i + 1 - 1) with i in Hv by lia. rewrite Hu in Hv. done. }
  apply put_entry_wf; [done|done|done| |].
  - intros j e _ Hj Hue Hpj. exfalso. by eapply free_no_child.
  - intros _. split; [by right|done| | |].
    + split; [by rewrite Hpe|]. rewrite Hpe. apply valid_dir_parent; [cint|done].
    + intros _. split_and!; [done|done|]. rewrite Hpe.
      destruct (valid_dir_rooted sb B dir parent) as [m Hm]; [done|done|cint|done|].
      exists m. split; [done|]. by eapply below_free.
    + done.
Qed.

Lemma make_dir_refines st d p sb B parent nm : ready st d p sb B -> bytes nm -> is_u32 parent ->
  refines st d p sb B (CMkdir parent nm) (lainfs_make_dir_in_dir d parent nm st).
Proof.
  intros Hr Hb Hp. unfold lainfs_make_dir_in_dir. pose proof (ready_shape _ _ _ _ _ Hr) as Hsh.
  pose proof (rd_dir _ _ _ _ _ Hr) as Hw. set (dir := dview st p sb) in *.
  apply (command_start st d p sb B (valid_name nm) (-3) (-4) _ (-2)); [done| |].
  { intros Hn. apply refines_early; [done|apply Hr|done|done|by apply sp_args]. }
  intros st1 Hn Hi1 Hs1 Hl1. fold dir in Hl1. pose proof Hl1 as (_ & _ & Hdir).
  unfold mbind at 1, M_bind at 1. rewrite guard_dir_id_run, Hdir.
  pose proof (valid_dir_abs dir (view st p) Hsh parent ltac:(cint)) as Hva.
  destruct (valid_dir_id dir parent) eqn:Ev; cycle 1.
  { apply refines_early; [done..|]. apply sp_parents; [done|]. intros Hc. by apply Hva in Hc. }
  rewrite (bind_ok _ _ _ dir st1) by by (unfold gets; rewrite Hdir).
  destruct (find_entry_in_dir dir parent nm) as [i|] eqn:Ef.
  { destruct (find_entry_Some sb B dir (view st p) Hsh Hw _ _ _ Ef) as (n & _ & _ & Hc & _).
    apply refines_early; [done..|]. by eapply sp_mkdir_exists. }
  rewrite (bind_ok (guardb true (-6)) _ st1 tt st1) by done.
  destruct (find_free_entry dir) as [i|] eqn:Eff; cycle 1.
  { apply refines_early; [done..|]. apply sp_mkdir_full. by apply (find_free_None sb B). }
  destruct (find_free_Some dir (view st p) Hsh i Eff) as (Hi & _ & Hu & Habs & Hid).
  destruct (new_dir_entry_ok nm parent Hn Hb Hp) as (Hok & Hpe & _ & Hnm).
  destruct (commit_ok st st1 d p sb B i (new_dir_entry nm parent)) as (Hr' & Ho & Ht); [done..|by apply new_dir_wf|].
  eexists (inr tt), _, _. split; [reflexivity|]. split; [exact Hr'|]. split; [exact Ho|]. split.
  - eapply (sp_mkdir _ parent nm (i + 1)); [done|by apply Hva| |done|done]. intros j. by apply find_entry_None.
  - intros id. rewrite Ht. unfold tset. destruct (decide _); [|done]. unfold abs_entry. cbn [used new_dir_entry].
    rewrite Hpe, Hnm. done.
Qed.

Lemma delete_wf sb B dir i : dir_shape dir -> dir_wf sb B dir -> 0 <= i < LAINFS_MAX_FILES ->
  (used (dir_entry dir i) = LAINFS_ENTRY_DIR -> dir_has_children dir (i + 1) = false) ->
  dir_wf sb B (put_entry dir i zero_dirent).
Proof.
  intros Hd Hw Hi Hc. apply put_entry_wf; [done|done|done| |done].
  intros j e _ Hj Hue Hp. exfalso.
  destruct (ew_parent _ _ _ _ _ (dw_entries _ _ _ Hw j e Hj Hue)) as [_ [Hr|[_ Hr]]].
  { unfold LAINFS_ROOT_DIR in *. lia. }
  rewrite Hp in Hr. replace (i + 1 - 1) with i in Hr by lia. specialize (Hc Hr).
  unfold dir_has_children in Hc. rewrite existsb_false, Forall_elem in Hc.
  specialize (Hc e ltac:(by eapply list_elem_of_lookup_2)). cbv beta in Hc.
  rewrite Hp, Z.eqb_refl, andb_true_r in Hc. by bool_prop.
Qed.

Lemma delete_refines st d p sb B parent nm : ready st d p sb B -> is_u32 parent ->
  refines st d p sb B (CDelete parent nm) (lainfs_delete_in_dir d parent nm st).
Proof.
  intros Hr Hp. unfold lainfs_delete_in_dir. pose proof (ready_shape _ _ _ _ _ Hr) as Hsh.
  pose proof (rd_dir _ _ _ _ _ Hr) as Hw. set (dir := dview st p sb) in *.
  apply (command_start st d p sb B (valid_name nm) (-3) (-4) _ (-2)); [done| |].
  { intros Hn. apply refines_early; [done|apply Hr|done|done|by apply sp_args]. }
  intros st1 Hn Hi1 Hs1 Hl1. fold dir in Hl1. pose proof Hl1 as (_ & _ & Hdir).
  unfold mbind at 1, M_bind at 1. rewrite guard_dir_id_run, Hdir.
  pose proof (valid_dir_abs dir (view st p) Hsh parent ltac:(cint)) as Hva.
  destruct (valid_dir_id dir parent) eqn:Ev; cycle 1.
  { apply refines_early; [done..|]. apply sp_parents; [done|]. intros Hc. by apply Hva in Hc. }
  rewrite (bind_ok _ _ _ dir st1) by by (unfold gets; rewrite Hdir).
  destruct (find_entry_in_dir dir parent nm) as [i|] eqn:Ef; cycle 1.
  { apply refines_early; [done..|]. apply sp_delete_missing. intros j. by apply find_entry_None. }
  destruct (find_entry_Some sb B dir (view st p) Hsh Hw _ _ _ Ef) as (n & Hi & Hn1 & Hc & He & Hu & Hpe & Hnm & Hnd).
  rewrite (bind_ok (from_option (Some i) (-5)) _ st1 i st1) by done.
  pose proof (has_children_abs sb B dir (view st p) Hsh Hw (entry_id i)) as Hch. rewrite entry_id_index in * by done.
  destruct ((used (dir_entry dir i) =? LAINFS_ENTRY_DIR) && dir_has_children dir (i + 1)) eqn:Eg; cbn [negb].
  { bool_prop. apply refines_early; [done..|].
    match goal with H : dir_has_children _ _ = true |- _ => apply Hch in H as (j & m & Hm & Hpm) end.
    eapply (sp_delete_children _ parent nm (i + 1) n j m); [done|done|by apply Hnd|done|done]. }
  assert (Hno : used (dir_entry dir i) = LAINFS_ENTRY_DIR -> dir_has_children dir (i + 1) = false).
  { intros E. by rewrite E in Eg. }
  destruct (commit_ok st st1 d p sb B i zero_dirent) as (Hr' & Ho & Ht); [done..|apply zero_dirent_ok|by apply delete_wf|].
  eexists (inr tt), _, _. split; [reflexivity|]. split; [exact Hr'|]. split; [exact Ho|]. split.
  - eapply (sp_delete _ parent nm (i + 1) n); [done|by apply Hva|done|done|].
    intros Hdn j m Hm Hpm. specialize (Hno (proj1 Hnd Hdn)).
    rewrite (proj2 Hch) in Hno; [done|]. by exists j, m.
  - intros id. by rewrite Ht.
Qed.

Lemma renamed_entry_ok e nm parent : dirent_ok e -> valid_name nm = true -> bytes nm -> is_u32 parent ->
  dirent_ok (renamed_entry e nm parent) /\ entry_parent_id (renamed_entry e nm parent) = parent /\
  entry_name_is_valid (name (renamed_entry e nm parent)) = true /\ cstr (name (renamed_entry e nm parent)) = cstr nm /\
  entry_extents (renamed_entry e nm parent) = entry_extents e.
Proof.
  intros He Hn Hb Hp. destruct (valid_name_entry nm (name e) Hn) as [Hv Hc]; [apply He|].
  assert (Hok : dirent_ok (set_name e (copy_name (name e) nm))) by by apply set_name_copy_ok.
  split_and!; [by apply set_entry_parent_id_ok|by apply entry_parent_set|done|done|].
  unfold renamed_entry. rewrite entry_extents_set_parent by done. done.
Qed.

Lemma file_wf_ext sb B e e' : entry_extents e' = entry_extents e -> byte_size e' = byte_size e ->
  file_wf sb B e -> file_wf sb B e'.
Proof. unfold file_wf. by intros -> ->. Qed.

Lemma rename_wf sb B dir i nm parent : dir_shape dir -> dir_wf sb B dir -> 0 <= i < LAINFS_MAX_FILES ->
  used (dir_entry dir i) <> 0 -> valid_name nm = true -> bytes nm -> is_u32 parent -> valid_dir_id dir parent = true ->
  (used (dir_entry dir i) = LAINFS_ENTRY_DIR -> ~ below dir (i + 1) parent) ->
  dir_wf sb B (put_entry dir i (renamed_entry (dir_entry dir i) nm parent)).
Proof.
  intros Hd Hw Hi Hu Hn Hb Hp Hv Hbel. set (e := dir_entry dir i) in *.
  assert (He : dir !! Z.to_nat i = Some e) by by apply dir_entry_lookup.
  destruct (renamed_entry_ok e nm parent) as (Hok & Hpe & Hne & _ & Hx); [by apply dir_entry_ok|done..|].
  destruct (dw_entries _ _ _ Hw _ _ He Hu) as [Ht _ _ Hdir Hfile].
  pose proof (valid_dir_parent dir parent ltac:(cint) Hv) as Hvp.
  assert (Hpar : parent <> i + 1).
  { intros ->. destruct Hvp as [?|[_ Hvp]]; [unfold LAINFS_ROOT_DIR in *; lia|].
    replace (i + 1 - 1) with i in Hvp by lia. apply Hbel; [done|constructor]. }
  apply put_entry_wf; [done|done|done| |].
  - intros j c _ Hj Huc Hpc. cbn. destruct (ew_parent _ _ _ _ _ (dw_entries _ _ _ Hw j c Hj Huc)) as [_ [Hr|[_ Hr]]].
    + unfold LAINFS_ROOT_DIR in *. lia.
    + rewrite Hpc in Hr. by replace (i + 1 - 1) with i in Hr by lia.
  - intros _. split; [done|done| | |].
    + split; [by rewrite Hpe|]. by rewrite Hpe.
    + intros Hde. destruct (Hdir Hde) as (H1 & H2 & _). split_and!; [done|done|]. rewrite Hpe.
      destruct (valid_dir_rooted sb B dir parent) as [m Hm]; [done|done|cint|done|]. exists m. auto.
    + intros Hfe. split; [by apply (file_wf_ext sb B e); [|done|apply Hfile]|].
      intros j b xs ys Hj Hb' Hub Hxs Hys. rewrite Hx in Hxs.
      apply (dw_files _ _ _ Hw (Z.to_nat i) j e b); done.
Qed.

Lemma abs_renamed f e nm parent n : dirent_ok e -> valid_name nm = true -> bytes nm -> is_u32 parent ->
  abs_entry f e = Some n -> abs_entry f (renamed_entry e nm parent) = Some (nd_move n parent (cstr nm)).
Proof.
  intros He Hn Hb Hp Ha. destruct (renamed_entry_ok e nm parent) as (_ & Hpe & _ & Hnm & Hx); [done..|].
  unfold abs_entry, file_bytes in *. rewrite Hpe, Hnm, Hx. cbn [used byte_size renamed_entry set_entry_parent_id set_reserved set_name].
  destruct (used e =? LAINFS_ENTRY_FILE); [by simplify_eq|].
  destruct (used e =? LAINFS_ENTRY_DIR); [by simplify_eq|done].
Qed.

Lemma rename_refines st d p sb B p1 nm1 p2 nm2 : ready st d p sb B -> bytes nm2 -> is_u32 p1 -> is_u32 p2 ->
  refines st d p sb B (CRename p1 nm1 p2 nm2) (lainfs_rename_in_dir d p1 nm1 p2 nm2 st).
Proof.
  intros Hr Hb Hp1 Hp2. unfold lainfs_rename_in_dir. pose proof (ready_shape _ _ _ _ _ Hr) as Hsh.
  pose proof (rd_dir _ _ _ _ _ Hr) as Hw. set (dir := dview st p sb) in *.
  apply (command_start st d p sb B (valid_name nm1 && valid_name nm2) (-3) (-4) _ (-2)); [done| |].
  { intros Hn. apply refines_early; [done|apply Hr|done|done|by apply sp_args]. }
  intros st1 Hn Hi1 Hs1 Hl1. fold dir in Hl1. pose proof Hl1 as (_ & _ & Hdir).
  rewrite (bind_ok _ _ _ dir st1) by by (unfold gets; rewrite Hdir).
  pose proof (valid_dir_abs dir (view st p) Hsh p1 ltac:(cint)) as Hv1.
  pose proof (valid_dir_abs dir (view st p) Hsh p2 ltac:(cint)) as Hv2.
  destruct (valid_dir_id dir p1 && valid_dir_id dir p2) eqn:Ev; cycle 1.
  { apply refines_early; [done..|]. apply sp_parents; [done|]. intros [H1 H2].
    apply Hv1 in H1. apply Hv2 in H2. by rewrite H1, H2 in Ev. }
  apply andb_true_iff in Ev as [Ev1 Ev2]. rewrite (bind_ok (guardb true (-7)) _ st1 tt st1) by done.
  destruct (find_entry_in_dir dir p1 nm1) as [i|] eqn:Ef; cycle 1.
  { apply refines_early; [done..|]. apply sp_rename_missing. intros j. by apply find_entry_None. }
  destruct (find_entry_Some sb B dir (view st p) Hsh Hw _ _ _ Ef) as (n & Hi & Hn1 & Hc & He & Hu & Hpe & Hnm & Hnd).
  rewrite (bind_ok (from_option (Some i) (-5)) _ st1 i st1) by done. rewrite entry_id_index by done.
  destruct (valid_dir_rooted sb B dir p2 Hsh Hw ltac:(cint) Ev2) as [m2 Hm2].
  pose proof (is_descendant_spec sb B dir m2 p2 (i + 1) Hsh Hw Hm2) as Hdesc.
  assert (Hbel : used (dir_entry dir i) = LAINFS_ENTRY_DIR ->
            (i + 1 =? p2) || dir_is_descendant_of dir p2 (i + 1) = true <-> below dir (i + 1) p2).
  { intros _. rewrite orb_true_iff, Z.eqb_eq, Hdesc.
    split; [intros [<-|?]; [constructor|done]|auto]. }
  destruct ((used (dir_entry dir i) =? LAINFS_ENTRY_DIR) && _) eqn:Eg; cbn [negb].
  { apply andb_true_iff in Eg as [Eg1 Eg2]. bool_prop. apply refines_early; [done..|].
    eapply (sp_rename_below _ p1 nm1 p2 nm2 (i + 1) n); [done|done|by apply Hnd|]. by apply below_abs, Hbel. }
  rewrite (bind_ok (guardb true (-8)) _ st1 tt st1) by done.
  assert (Hnb : used (dir_entry dir i) = LAINFS_ENTRY_DIR -> ~ below dir (i + 1) p2).
  { intros E H. rewrite E in Eg. cbn [andb Z.eqb] in Eg. apply Hbel in H; [|done]. rewrite H in Eg. done. }
  destruct (find_entry_in_dir dir p2 nm2) as [k|] eqn:Ef2.
  { destruct (find_entry_Some sb B dir (view st p) Hsh Hw _ _ _ Ef2) as (n2 & _ & _ & Hc2 & _).
    apply refines_early; [done..|]. by eapply sp_rename_exists. }
  pose proof Hn as Hn'. apply andb_true_iff in Hn' as [_ Hnv]. pose proof (dir_entry_ok dir i Hsh) as Hok.
  destruct (commit_ok st st1 d p sb B i (renamed_entry (dir_entry dir i) nm2 p2)) as (Hr' & Ho & Ht);
    [done..|by apply renamed_entry_ok|by apply rename_wf|].
  eexists (inr tt), _, _. split; [reflexivity|]. split; [exact Hr'|]. split; [exact Ho|]. split.
  - eapply (sp_rename _ p1 nm1 p2 nm2 (i + 1) n); [done|split; [by apply Hv1|by apply Hv2]|done|done| |].
    + intros Hdn Hbb. apply (Hnb (proj1 Hnd Hdn)). by apply (below_abs dir (view st p) Hsh).
    + intros j. by apply find_entry_None.
  - intros id. rewrite Ht. unfold tset. destruct (decide _); [|done].
    apply abs_renamed; [done..|].
    unfold abs_tree in Hn1. rewrite decide_True in Hn1 by (unfold t_id; lia). replace (i + 1 - 1) with i in Hn1 by lia.
    rewrite <- Hn1. unfold abs_entry. fold dir.
    destruct (Z.eqb_spec (used (dir_entry dir i)) LAINFS_ENTRY_FILE) as [E|]; [|done]. do 2 f_equal.
    apply (same_fs_file_bytes st st1 p sb B); [done|apply Hr|done|].
    by apply (ew_file _ _ _ _ _ (dw_entries _ _ _ Hw _ _ He Hu)).
Qed.
End refine.
