(* ===== verification/LainfsFiles.v ===== *)
(** Saving and loading files: kernel/fs/lainfs.c, lines 1930-2128.

    The block loops of [lainfs_save_file_in_dir] and
    [lainfs_load_file_in_dir], and the theorems that a save refines the
    specification, that it leaves every other file alone, and that a load
    returns what was saved. *)
From Stdlib Require Import ZArith Lia.
From stdpp Require Import base tactics option list numbers.
From S2P Require Import Prelude.
From S2P Require Import StorageApi.
From S2P Require Import LainfsLayout.
From S2P Require Import LainfsDir.
From S2P Require Import LainfsAlloc.
From S2P Require Import LainfsState.
From S2P Require Import LainfsCache.
From S2P Require Import LainfsOps.
From S2P Require Import LainfsSpec.
From S2P Require Import LainfsRefine.
#[local] Open Scope Z_scope.

(** ** Blocks of a file *)

Lemma find_index_app {A} (f : A -> bool) l1 l2 :
  find_index f (l1 ++ l2) =
  match find_index f l1 with Some i => Some i | None => (fun j => length l1 + j)%nat <$> find_index f l2 end.
Proof.
  induction l1 as [|x l1 IH]; simpl; [by destruct (find_index f l2)|].
  destruct (f x); [done|]. rewrite IH. destruct (find_index f l1); [done|]. by destruct (find_index f l2).
Qed.

Lemma find_index_eqb_Some l lbas i : find_index (Z.eqb l) lbas = Some i -> lbas !! i = Some l.
Proof. intros (x & Hx & He & _)%find_index_Some. bool_prop. by subst. Qed.

Lemma find_index_eqb_None l lbas : find_index (Z.eqb l) lbas = None <-> ~ l ∈ lbas.
Proof.
  rewrite find_index_None. split.
  - intros H (i & Hi)%list_elem_of_lookup. specialize (H i l Hi). bool_prop. done.
  - intros H i x Hi. apply Z.eqb_neq. intros ->. apply H. by eapply list_elem_of_lookup_2.
Qed.

Lemma find_index_NoDup l lbas i : NoDup lbas -> lbas !! i = Some l -> find_index (Z.eqb l) lbas = Some i.
Proof.
  intros Hn Hi. apply find_index_Some. exists l. split_and!; [done|apply Z.eqb_refl|].
  intros j y Hj Hy. apply Z.eqb_neq. intros ->. assert (j = i) by by eapply (NoDup_lookup lbas). lia.
Qed.

Lemma block_list_cons x xs : block_list (x :: xs) = seqZ (ex_start_lba x) (ex_blocks x) ++ block_list xs.
Proof. done. Qed.

Lemma NoDup_block_list xs : pairwise_disjoint xs -> NoDup (block_list xs).
Proof.
  induction xs as [|x xs IH]; intros Hp; [constructor|]. destruct Hp as [Hx Hp]. rewrite block_list_cons.
  apply list.NoDup_app. split_and!; [apply NoDup_seqZ| |auto].
  intros b Hb%elem_of_seqZ (y & Hy & Hin)%elem_of_block_list. rewrite Forall_elem in Hx.
  specialize (Hx y Hy). unfold ex_disjoint, in_extent in *. lia.
Qed.

Lemma length_block_list xs : Forall (fun x => 0 <= ex_blocks x) xs ->
  Z.of_nat (length (block_list xs)) = foldr (fun x a => ex_blocks x + a) 0 xs.
Proof.
  induction 1 as [|x xs Hx _ IH]; [done|]. rewrite block_list_cons, length_app, length_seqZ. simpl. lia.
Qed.

(** A window of a list padded with zeros. *)
Lemma take_drop_pad (c : list Z) K m : (K + 512 <= length c + m)%nat ->
  take 512 (drop K (c ++ replicate m 0)) =
  take 512 (drop K c) ++ replicate (512 - length (take 512 (drop K c))) 0.
Proof.
  intros H. rewrite skipn_app, firstn_app. f_equal.
  rewrite drop_replicate, take_replicate. f_equal. rewrite length_take, length_drop. lia.
Qed.

(** The bytes one round copies are a window of the file. *)
Lemma copied_window (buffer : list Z) size k : 0 <= size <= Z.of_nat (length buffer) -> 0 <= k < 8192 ->
  size <= 512 * 8192 ->
  let base := u32 (k * LAINFS_BLOCK_SIZE) in
  let bytes_left := if base <? size then u32 (size - base) else 0 in
  let bytes_to_copy := if bytes_left <? LAINFS_BLOCK_SIZE then bytes_left else LAINFS_BLOCK_SIZE in
  base = 512 * k /\ bytes_to_copy = Z.max 0 (Z.min 512 (size - 512 * k)).
Proof.
  intros Hs Hk Hc. unfold LAINFS_BLOCK_SIZE. cbv zeta. rewrite (u32_small (k * 512)) by cint. split; [lia|].
  destruct (Z.ltb_spec (k * 512) size); [rewrite u32_small by cint|]; case_match; bool_prop; lia.
Qed.

(** The sectors of a file are its bytes, padded with zeros to whole blocks. *)
Lemma file_sector_padded buffer size N k : 0 <= size <= Z.of_nat (length buffer) -> size <= 512 * N ->
  N <= 8192 -> 0 <= k < N ->
  file_sector buffer size k =
  take 512 (drop (512 * Z.to_nat (k - 0)) (take (Z.to_nat size) buffer ++ replicate (Z.to_nat (512 * N - size)) 0)).
Proof.
  intros Hs HN HN2 Hk. rewrite take_drop_pad by (rewrite length_take; lia). unfold file_sector. cbv zeta.
  destruct (copied_window buffer size k) as [-> ->]; [lia|lia|lia|].
  assert (take (Z.to_nat (Z.max 0 (Z.min 512 (size - 512 * k)))) (drop (Z.to_nat (512 * k)) buffer) =
          take 512 (drop (512 * Z.to_nat (k - 0)) (take (Z.to_nat size) buffer))) as ->; [|done].
  rewrite skipn_firstn_comm, take_take. f_equal; [|f_equal]; lia.
Qed.

Lemma file_sectors_concat buffer size N : 0 <= size <= Z.of_nat (length buffer) -> size <= 512 * N ->
  0 <= N <= 8192 ->
  take (Z.to_nat size) (concat (file_sector buffer size <$> seqZ 0 N)) = take (Z.to_nat size) buffer.
Proof.
  intros Hs HN HN2.
  set (padded := take (Z.to_nat size) buffer ++ replicate (Z.to_nat (512 * N - size)) 0).
  assert (file_sector buffer size <$> seqZ 0 N = (fun l => take 512 (drop (512 * Z.to_nat (l - 0)) padded)) <$> seqZ 0 N) as ->.
  { apply list_fmap_ext. intros i k [-> Hk]%lookup_seqZ. apply file_sector_padded; lia. }
  assert (Hlen : length (take (Z.to_nat size) buffer) = Z.to_nat size) by (rewrite length_take; lia).
  rewrite concat_blocks; [|lia|].
  - unfold padded. rewrite take_app_le by lia. by rewrite take_take, Nat.min_id.
  - unfold padded. rewrite length_app, Hlen, length_replicate. lia.
Qed.

Lemma file_sector_ok buffer size k : bytes buffer -> length (file_sector buffer size k) = 512%nat /\ bytes (file_sector buffer size k).
Proof.
  intros Hb. unfold file_sector. cbv zeta.
  set (n := if _ <? LAINFS_BLOCK_SIZE then _ else _).
  assert (Hn : n <= 512).
  { unfold n, LAINFS_BLOCK_SIZE. case_match; bool_prop; lia. }
  split.
  - rewrite length_app, length_replicate, length_take. lia.
  - apply Forall_app. split; [auto with cint|]. apply Forall_replicate. cint.
Qed.

Section files.
Context {S : Type} `{!StorageApi S, !StorageLaws S}.
Implicit Types (st : fs S).

(** ** The save loop *)

(** From [st] to [st'] the blocks [lbas] of [p] got the file sectors from
    number [k] on; nothing else is different. *)
Record wrote st st' (p : Z) (buffer : list Z) (size : Z) (lbas : list Z) (k : Z) : Prop := {
  wt_inv : fs_inv st';
  wt_caches : caches_kept st st';
  wt_tables : same_tables (store st) (store st');
  wt_formatted q sb B : formatted (store st) q sb B -> formatted (store st') q sb B;
  wt_view q sb B l : formatted (store st) q sb B -> sb_data_start_lba sb <= l < B ->
    view st' q l = if decide (q = p) then
                     match find_index (Z.eqb l) lbas with
                     | Some j => file_sector buffer size (k + Z.of_nat j)
                     | None => view st q l
                     end
                   else view st q l;
  wt_dview q sb B : formatted (store st) q sb B -> dview st' q sb = dview st q sb
}.

Lemma wrote_nil st p buffer size k : fs_inv st -> wrote st st p buffer size [] k.
Proof. intros Hi. split; try done. intros q sb B l _ _. by destruct (decide _). Qed.

Lemma wrote_app st1 st2 st3 p buffer size l1 l2 k : NoDup (l1 ++ l2) ->
  wrote st1 st2 p buffer size l1 k -> wrote st2 st3 p buffer size l2 (k + Z.of_nat (length l1)) ->
  wrote st1 st3 p buffer size (l1 ++ l2) k.
Proof.
  intros Hn [_ C1 T1 F1 V1 D1] [I2 C2 T2 F2 V2 D2]. apply list.NoDup_app in Hn as (_ & Hn & _). split.
  - done.
  - by trans st2.
  - by trans (store st2).
  - auto.
  - intros q sb B l Hf Hl. rewrite (V2 q sb B l) by auto. rewrite (V1 q sb B l) by done.
    destruct (decide (q = p)); [|done]. rewrite find_index_app.
    destruct (find_index (Z.eqb l) l1) as [i|] eqn:E1.
    + apply find_index_eqb_Some, list_elem_of_lookup_2 in E1. apply Hn in E1.
      by rewrite (proj2 (find_index_eqb_None _ _) E1).
    + destruct (find_index (Z.eqb l) l2) as [j|]; cbn; [|done]. f_equal. lia.
  - intros q sb B Hf. rewrite (D2 q sb B) by auto. by apply (D1 q sb B).
Qed.

Lemma wrote_one st p sb B buffer size lba k : fs_inv st -> formatted (store st) p sb B ->
  sb_data_start_lba sb <= lba < B -> bytes buffer ->
  exists st', cached_write_block p lba (file_sector buffer size k) st = (inr tt, st') /\
    wrote st st' p buffer size [lba] k.
Proof.
  intros Hi Hf Hl Hb. destruct (file_sector_ok buffer size k Hb) as [Hlen Hby].
  destruct (cached_write_block_ok st p sb B lba (file_sector buffer size k) Hi Hf Hl Hlen Hby)
    as (st' & Hr & Hi' & Hc & Ht & Hff & Hv & Hd).
  exists st'. split; [done|]. split; [done|done|done|done| |done].
  intros q sbq Bq l Hq Hlq. rewrite (Hv q sbq Bq) by done. cbn [find_index].
  destruct (decide (q = p)) as [->|Hne]; [|by rewrite decide_False by tauto].
  destruct (Z.eqb_spec l lba) as [->|Hne]; [|by rewrite decide_False by tauto].
  rewrite decide_True by done. cbn. f_equal. lia.
Qed.

Lemma save_blocks_ok n st p sb B buffer size start block k : fs_inv st -> formatted (store st) p sb B ->
  sb_data_start_lba sb <= start + block -> start + block + Z.of_nat n <= B -> bytes buffer ->
  0 <= k -> k + Z.of_nat n < 2 ^ 32 ->
  exists st', save_blocks p buffer size n start block k st = (inr (k + Z.of_nat n), st') /\
    wrote st st' p buffer size (seqZ (start + block) (Z.of_nat n)) k.
Proof.
  revert st block k. induction n as [|n IH]; intros st block k Hi Hf Hl1 Hl2 Hb Hk1 Hk2.
  { exists st. split; [cbn; unfold mret, M_ret; by rewrite Z.add_0_r|by apply wrote_nil]. }
  pose proof (formatted_ranges _ _ _ _ Hf) as (_ & ? & ? & HB). change (2 ^ 32) with 4294967296 in *.
  destruct (wrote_one st p sb B buffer size (start + block) k) as (st1 & Hr1 & Hw1); [done|done|lia|done|].
  destruct (IH st1 (block + 1) (k + 1)) as (st2 & Hr2 & Hw2);
    [apply Hw1|by apply Hw1|lia|lia|done|lia|lia|].
  exists st2. split.
  - cbn [save_blocks]. rewrite !u32_small by cint. rewrite (bind_ok _ _ _ _ _ Hr1), Hr2. do 2 f_equal. lia.
  - rewrite seqZ_cons by lia. replace (Z.succ (start + block)) with (start + (block + 1)) by lia.
    replace (Z.pred (Z.of_nat (Datatypes.S n))) with (Z.of_nat n) by lia.
    apply (wrote_app _ st1 _ _ _ _ [start + block]); [|done|done].
    change ([start + block] ++ ?l) with (start + block :: l). apply NoDup_cons_2; [|apply NoDup_seqZ].
    rewrite elem_of_seqZ. lia.
Qed.

Lemma save_extents_ok xs st p sb B buffer size k : fs_inv st -> formatted (store st) p sb B ->
  Forall (extent_in_data sb B) xs -> pairwise_disjoint xs -> bytes buffer ->
  0 <= k -> k + Z.of_nat (length (block_list xs)) < 2 ^ 32 ->
  exists st', save_extents p buffer size xs k st = (inr tt, st') /\ wrote st st' p buffer size (block_list xs) k.
Proof.
  revert st k. induction xs as [|x xs IH]; intros st k Hi Hf Hx Hp Hb Hk1 Hk2.
  { exists st. split; [done|by apply wrote_nil]. }
  pose proof (NoDup_block_list (x :: xs) Hp) as Hnd.
  apply Forall_cons_1 in Hx as [(Hx1 & Hx2 & Hx3) Hx]. destruct Hp as [_ Hp].
  rewrite block_list_cons, length_app, length_seqZ in Hk2.
  destruct (save_blocks_ok (Z.to_nat (ex_blocks x)) st p sb B buffer size (ex_start_lba x) 0 k)
    as (st1 & Hr1 & Hw1); [done|done|lia|lia|done|done|lia|].
  rewrite Z.add_0_r, Z2Nat.id in Hw1 by lia. rewrite Z2Nat.id in Hr1 by lia.
  destruct (IH st1 (k + ex_blocks x)) as (st2 & Hr2 & Hw2); [apply Hw1|by apply Hw1|done|done|done|lia|lia|].
  exists st2. split.
  - cbn [save_extents]. by rewrite (bind_ok _ _ _ _ _ Hr1).
  - rewrite block_list_cons in *. apply (wrote_app _ st1); [done|done|].
    rewrite length_seqZ, Z2Nat.id by lia. done.
Qed.

(** Data blocks are written without looking at the directory in memory. *)
Definition dir_blind {A} (m : M (fs S) A) : Prop :=
  forall dir st, m (set_directory dir st) = (fst (m st), set_directory dir (snd (m st))).

Lemma dir_blind_bind {A B} (m : M (fs S) A) (k : A -> M (fs S) B) :
  dir_blind m -> (forall a, dir_blind (k a)) -> dir_blind (m ≫= k).
Proof.
  intros Hm Hk dir st. unfold mbind, M_bind. rewrite Hm.
  destruct (m st) as [[c|a] st1]; [done|]. apply Hk.
Qed.

Lemma flush_slot_blind i : dir_blind (flush_data_cache_slot i).
Proof.
  intros dir st. unfold flush_data_cache_slot. destruct (_ <=? _)%nat; [done|].
  change (slot_at (set_directory dir st) i) with (slot_at st i). destruct (_ || _); [done|].
  unfold on_store, or_return, mbind, M_bind, modify. cbn [store set_directory].
  destruct (api_write_partition _ _ _ _ _) as [[c|a] s]; done.
Qed.

Lemma cached_write_blind p lba d : dir_blind (cached_write_block p lba d).
Proof.
  intros dir st. unfold cached_write_block. change (find_slot (set_directory dir st)) with (find_slot st).
  destruct (find_slot st p lba); [done|]. change (pick_victim (set_directory dir st)) with (pick_victim st).
  unfold or_return, mbind, M_bind, step. rewrite (flush_slot_blind _ dir st).
  destruct (flush_data_cache_slot (pick_victim st) st) as [[c|a] s]; done.
Qed.

Lemma save_blocks_blind n p buffer size start block k : dir_blind (save_blocks p buffer size n start block k).
Proof.
  revert block k. induction n as [|n IH]; intros block k; [done|]. cbn [save_blocks].
  apply dir_blind_bind; [apply cached_write_blind|intros _; apply IH].
Qed.

Lemma save_extents_blind p buffer size xs k : dir_blind (save_extents p buffer size xs k).
Proof.
  revert k. induction xs as [|x xs IH]; intros k; [done|]. cbn [save_extents].
  apply dir_blind_bind; [apply save_blocks_blind|intros a; apply IH].
Qed.

(** ** The saved entry *)

Lemma set_entry_extents_frame e xs : used (set_entry_extents e xs) = used e /\
  name (set_entry_extents e xs) = name e /\ byte_size (set_entry_extents e xs) = byte_size e.
Proof.
  destruct xs as [|x0 [|x1 xs]]; [done|done|]. unfold set_entry_extents. cbv zeta.
  match goal with |- context [set_extra_extents ?e' 0 ?l] =>
    by destruct (set_extra_extents_frame l 0 e') as (_ & -> & -> & ->) end.
Qed.

Definition required (size : Z) : Z := if blocks_for_size size =? 0 then 1 else blocks_for_size size.

Lemma required_range size : 0 <= size <= LAINFS_FILE_CAPACITY -> 1 <= required size <= 8192 /\ size <= 512 * required size.
Proof.
  intros Hs. unfold required. destruct (blocks_for_size_eq size Hs) as [He Hr].
  destruct (Z.eqb_spec (blocks_for_size size) 0) as [E|E]; rewrite He in *; Z.div_mod_to_equations; lia.
Qed.

Lemma saved_entry_ok e nm size xs : dirent_ok e -> valid_name nm = true -> bytes nm ->
  0 <= size <= LAINFS_FILE_CAPACITY -> extents_fit (required size) xs ->
  let e' := saved_entry e nm size xs in
  dirent_ok e' /\ used e' = used e /\ entry_parent_id e' = entry_parent_id e /\ byte_size e' = size /\
  entry_name_is_valid (name e') = true /\ cstr (name e') = cstr nm /\ entry_extents e' = Some xs.
Proof.
  intros He Hn Hb Hs Hx e'. destruct (valid_name_entry nm (name e) Hn) as [Hv Hc]; [apply He|].
  set (e1 := set_byte_size (set_name e (copy_name (name e) nm)) size).
  assert (Hok : dirent_ok e1).
  { apply set_byte_size_ok; [unfold LAINFS_FILE_CAPACITY in *; cint|by apply set_name_copy_ok]. }
  destruct (set_entry_extents_frame e1 xs) as (Hu & Hnm & Hsz). destruct Hx as [Hx1 Hx2 Hx3]. subst e'. unfold saved_entry. fold e1.
  split_and!.
  - apply set_entry_extents_ok; [lia| |done]. eapply Forall_impl; [|exact Hx2]. by intros x [? _].
  - by rewrite Hu.
  - by rewrite entry_parent_set_extents by (done || lia).
  - by rewrite Hsz.
  - by rewrite Hnm.
  - by rewrite Hnm.
  - by apply set_entry_extents_read.
Qed.

(** ** Saving *)

(** Reading back the blocks that were written. *)
Lemma wrote_content st st' p sb B buffer size xs : wrote st st' p buffer size (block_list xs) 0 ->
  formatted (store st) p sb B -> Forall (extent_in_data sb B) xs -> pairwise_disjoint xs ->
  view st' p <$> block_list xs = file_sector buffer size <$> seqZ 0 (Z.of_nat (length (block_list xs))).
Proof.
  intros Hw Hf Hx Hp. apply list_eq. intros j. rewrite !list_lookup_fmap.
  destruct (block_list xs !! j) as [b|] eqn:E; cbn.
  - pose proof (lookup_lt_Some _ _ _ E). rewrite lookup_seqZ_lt by lia. cbn. f_equal.
    apply list_elem_of_lookup_2 in E as Hb. apply elem_of_block_list in Hb as (x & Hin & Hb).
    rewrite Forall_elem in Hx. destruct (Hx x Hin) as (? & ? & ?). unfold in_extent in Hb.
    rewrite (wt_view _ _ _ _ _ _ _ Hw p sb B) by (done || lia). rewrite decide_True by done.
    by rewrite (find_index_NoDup b _ j) by (done || by apply NoDup_block_list).
  - rewrite lookup_seqZ_ge; [done|]. apply lookup_ge_None in E. lia.
Qed.

(** A file that shares no block with the written ones keeps its contents. *)
Lemma wrote_other_file st st' p sb B buffer size lbas k e : wrote st st' p buffer size lbas k ->
  formatted (store st) p sb B -> file_wf sb B e ->
  (forall x b, x ∈ default [] (entry_extents e) -> in_extent b x -> ~ b ∈ lbas) ->
  file_bytes (view st' p) e = file_bytes (view st p) e.
Proof.
  intros Hw Hf (_ & ys & Hys & Hin & _) Hno. unfold file_bytes. rewrite Hys in *. cbn [default] in *. do 2 f_equal.
  apply list_fmap_ext. intros j b Hb%list_elem_of_lookup_2. apply elem_of_block_list in Hb as (x & Hx & Hb).
  rewrite Forall_elem in Hin. destruct (Hin x Hx) as (? & ? & ?). pose proof Hb as Hr. unfold in_extent in Hr.
  rewrite (wt_view _ _ _ _ _ _ _ Hw p sb B) by (done || lia). rewrite decide_True by done.
  by rewrite (proj2 (find_index_eqb_None _ _)) by by eapply Hno.
Qed.

(** Neither does any other node change. *)
Lemma wrote_other_node st st' p sb B dir buffer size lbas k id : wrote st st' p buffer size lbas k ->
  formatted (store st) p sb B -> dir_shape dir -> dir_wf sb B dir ->
  (forall j e ys y b, t_id id -> j = Z.to_nat (id - 1) -> dir !! j = Some e -> used e = LAINFS_ENTRY_FILE ->
     entry_extents e = Some ys -> y ∈ ys -> in_extent b y -> ~ b ∈ lbas) ->
  abs_tree (view st' p) dir id = abs_tree (view st p) dir id.
Proof.
  intros Hwr Hf Hsh Hw Hno. unfold abs_tree. destruct (decide (t_id id)) as [Ht|]; [|done]. unfold abs_entry, t_id in *.
  destruct (Z.eqb_spec (used (dir_entry dir (id - 1))) LAINFS_ENTRY_FILE) as [E|]; [|done]. do 2 f_equal.
  assert (He : dir !! Z.to_nat (id - 1) = Some (dir_entry dir (id - 1))) by (apply dir_entry_lookup; [done|lia]).
  apply (wrote_other_file st st' p sb B buffer size lbas k); [done|done| |].
  - by apply (ew_file _ _ _ _ _ (dw_entries _ _ _ Hw _ _ He ltac:(rewrite E; done))).
  - intros y b Hy Hby. destruct (entry_extents (dir_entry dir (id - 1))) as [ys|] eqn:Eys; [|by apply not_elem_of_nil in Hy].
    by eapply (Hno _ _ ys y).
Qed.

Section save.
Context (sb : superblock) (B : Z) (dir : list dirent) (i : Z) (e0 : dirent) (parent : Z) (nm : list Z) (size : Z) (xs : list extent).
Context (HB : 0 <= B < 2 ^ 32) (Hs : 0 <= sb_data_start_lba sb).
Context (Hd : dir_shape dir) (Hw : dir_wf sb B dir) (Hi : 0 <= i < LAINFS_MAX_FILES).
Context (He0 : dirent_ok e0) (Hu0 : used e0 = LAINFS_ENTRY_FILE) (Hp0 : entry_parent_id e0 = parent).
Context (Hpar : is_u32 parent) (Hvalid : valid_dir_id dir parent = true) (Hne : parent <> i + 1).
Context (Hnc : forall j e, j <> Z.to_nat i -> dir !! j = Some e -> used e <> 0 -> entry_parent_id e <> i + 1).
Context (Hn : valid_name nm = true) (Hb : bytes nm) (Hsz : 0 <= size <= LAINFS_FILE_CAPACITY).
Context (Hfind : find_free_extents (Some B) sb (put_entry dir i e0) (required size) i = Some xs).
#[local] Abbreviation e' := (saved_entry e0 nm size xs).

Lemma save_granted : extents_granted sb B (put_entry dir i e0) i (required size) xs /\ extents_fit (required size) xs.
Proof using All.
  apply find_free_extents_granted; [done|done| |pose proof (required_range size Hsz); lia|done].
  intros j e Hj He Hu. apply lookup_put in He as [[-> _]|[_ He]]; [lia| |done|done].
  destruct (ew_file _ _ _ _ _ (dw_entries _ _ _ Hw j e He ltac:(rewrite Hu; done)) Hu) as (_ & ys & Hys & Hin & _). eauto.
Qed.

(** The granted blocks belong to no other file. *)
Lemma save_unused j e ys x y b : j <> Z.to_nat i -> dir !! j = Some e -> used e = LAINFS_ENTRY_FILE ->
  entry_extents e = Some ys -> y ∈ ys -> x ∈ xs -> in_extent b x -> ~ in_extent b y.
Proof using All.
  intros Hj He Hu Hys Hy Hx Hbx. destruct save_granted as [[_ _ _ Hun _] _].
  apply (Hun x b Hx Hbx j e ys y); [lia| |done|done|done]. apply lookup_put; [done|done|]. by right.
Qed.

Lemma saved_wf : dir_wf sb B (put_entry dir i e').
Proof using All.
  destruct save_granted as [[Hc Hdt Hpw _ Hsum] Hfit].
  destruct (saved_entry_ok e0 nm size xs) as (_ & Hu & Hp & Hbs & Hnv & _ & Hx); [done..|].
  apply put_entry_wf; [done|done|done| |].
  - intros j e Hj He Hue Hpe. exfalso. by eapply (Hnc j e).
  - intros _. split; [left; by rewrite Hu|done| | |].
    + split; [by rewrite Hp, Hp0|]. rewrite Hp, Hp0. apply valid_dir_parent; [cint|done].
    + rewrite Hu, Hu0. done.
    + intros _. split.
      * split; [rewrite Hbs; lia|]. by exists xs.
      * intros j b ys zs Hj Hb' Hub Hys Hzs. assert (ys = xs) as -> by congruence. intros x y Hxi Hyi.
        rewrite Forall_elem in Hdt. destruct (Hdt x Hxi) as (Hx1 & _ & _).
        destruct (ew_file _ _ _ _ _ (dw_entries _ _ _ Hw j b Hb' ltac:(rewrite Hub; done)) Hub) as (_ & ws & Hws & Hin & _).
        assert (ws = zs) as -> by congruence. rewrite Forall_elem in Hin. destruct (Hin y Hyi) as (Hy1 & _ & _).
        unfold ex_disjoint. destruct (decide (ex_start_lba x + ex_blocks x <= ex_start_lba y)) as [|Hn1]; [auto|].
        destruct (decide (ex_start_lba y + ex_blocks y <= ex_start_lba x)) as [|Hn2]; [auto|]. exfalso.
        apply (save_unused j b zs x y (Z.max (ex_start_lba x) (ex_start_lba y))); try done; unfold in_extent; lia.
Qed.
End save.

(** No run of free blocks is long enough for [size] bytes. *)
Definition no_room (sb : superblock) (B : Z) (dir : list dirent) (size : Z) : Prop :=
  forall s, sb_data_start_lba sb <= s -> s + required size <= B ->
    ~ forall b, s <= b < s + required size -> block_unused dir (-1) b.

Lemma find_none_no_room sb B dir i e0 size : 0 <= B < 2 ^ 32 -> 0 <= sb_data_start_lba sb -> dir_shape dir -> dir_wf sb B dir ->
  0 <= i < LAINFS_MAX_FILES -> 0 <= size <= LAINFS_FILE_CAPACITY ->
  find_free_extents (Some B) sb (put_entry dir i e0) (required size) i = None -> no_room sb B dir size.
Proof.
  intros HB Hs Hd Hw Hi Hsz Hnone s Hlo Hhi Hall. pose proof (required_range size Hsz) as [Hreq _].
  assert (Hfiles : forall j e, Z.of_nat j <> i -> put_entry dir i e0 !! j = Some e -> used e = LAINFS_ENTRY_FILE ->
    dir !! j = Some e /\ exists xs, entry_extents e = Some xs /\ Forall (extent_in_data sb B) xs).
  { intros j e Hj He Hu. apply lookup_put in He as [[-> _]|[_ He]]; [lia| |done|done].
    destruct (ew_file _ _ _ _ _ (dw_entries _ _ _ Hw j e He ltac:(rewrite Hu; done)) Hu) as (_ & ys & Hys & Hin & _). eauto. }
  destruct (find_free_extents_single sb B (put_entry dir i e0) i HB Hs (fun j e H1 H2 H3 => proj2 (Hfiles j e H1 H2 H3)) (required size) s)
    as [s' Hs']; [change LAINFS_MAX_FILE_BLOCKS with 8192; lia| |congruence].
  split_and!; [done|done|]. intros b Hb. apply (block_is_free_spec sb B (put_entry dir i e0) i HB Hs (fun j e H1 H2 H3 => proj2 (Hfiles j e H1 H2 H3)));
    [lia|constructor|]. split_and!; [lia|lia| |constructor].
  intros j e xs x Hj He Hu Hxs Hx. apply (Hall b Hb j e xs x); [lia| |done|done|done]. by apply (Hfiles j e).
Qed.

(** Extents handed out fit the data area together. *)
Lemma granted_bound sb B dir ignore n xs : extents_granted sb B dir ignore n xs -> n <= Z.max 0 (B - sb_data_start_lba sb).
Proof.
  intros [_ Hdt Hpw _ <-]. assert (Hpos : Forall (fun x => 0 <= ex_blocks x) xs).
  { eapply Forall_impl; [|exact Hdt]. intros x (? & _). lia. }
  rewrite <- length_block_list by done. pose proof (NoDup_block_list _ Hpw) as Hnd.
  assert (Hsub : block_list xs ⊆ seqZ (sb_data_start_lba sb) (B - sb_data_start_lba sb)).
  { intros b (x & Hx & Hb)%elem_of_block_list. rewrite Forall_elem in Hdt. destruct (Hdt x Hx) as (H1 & H2 & H3).
    apply elem_of_seqZ. unfold in_extent in Hb. lia. }
  pose proof (submseteq_length _ _ (NoDup_submseteq _ _ Hnd Hsub)) as Hlen. rewrite length_seqZ in Hlen. lia.
Qed.

(** The part of the save that follows a successful allocation. *)
Definition save_tail (p slot : Z) (nm buffer : list Z) (size : Z) (dir : list dirent) (xs : list extent) : M (fs S) unit :=
  modify (set_directory (put_entry dir slot (saved_entry (dir_entry dir slot) nm size xs)));;
  or_return (save_extents p buffer size xs 0) (-6);;
  or_return (save_directory p) (-6).

Lemma save_tail_ok st st1 d p sb B i e0 parent nm buffer size xs : ready st d p sb B -> fs_inv st1 -> same_fs st st1 ->
  dir_loaded st1 p (dview st p sb) -> 0 <= i < LAINFS_MAX_FILES ->
  dirent_ok e0 -> used e0 = LAINFS_ENTRY_FILE -> entry_parent_id e0 = parent -> is_u32 parent ->
  valid_dir_id (dview st p sb) parent = true -> parent <> i + 1 ->
  (forall j e, j <> Z.to_nat i -> dview st p sb !! j = Some e -> used e <> 0 -> entry_parent_id e <> i + 1) ->
  valid_name nm = true -> bytes nm -> 0 <= size <= LAINFS_FILE_CAPACITY -> bytes buffer -> size <= Z.of_nat (length buffer) ->
  find_free_extents (Some B) sb (put_entry (dview st p sb) i e0) (required size) i = Some xs ->
  let dir2 := put_entry (dview st p sb) i e0 in
  exists st', save_tail p i nm buffer size dir2 xs (set_directory dir2 st1) = (inr tt, st') /\
    ready st' d p sb B /\ others_kept st st' p /\
    (forall id, tree_of st' p sb id =
       tset (tree_of st p sb) (i + 1) (Some (NFile parent (cstr nm) (take (Z.to_nat size) buffer))) id) /\
    required size <= B - sb_data_start_lba sb.
Proof.
  intros Hr Hi1 Hs1 Hl1 Hi He0 Hu0 Hp0 Hpu Hv Hne Hnc Hn Hb Hsz Hbuf Hlen Hfind dir2.
  pose proof (ready_shape _ _ _ _ _ Hr) as Hsh. pose proof (rd_dir _ _ _ _ _ Hr) as Hw. pose proof (rd_formatted _ _ _ _ _ Hr) as Hf.
  pose proof (sf_formatted _ _ Hs1 _ _ _ Hf) as Hf1. pose proof (formatted_ranges _ _ _ _ Hf) as (_ & R1 & R2 & R3).
  set (dir := dview st p sb) in *. assert (HB : 0 <= B < 2 ^ 32) by lia. assert (Hds : 0 <= sb_data_start_lba sb) by lia.
  assert (Hdir2 : dir_entry dir2 i = e0) by by apply dir_entry_put_eq.
  assert (Hput : put_entry dir2 i (saved_entry e0 nm size xs) = put_entry dir i (saved_entry e0 nm size xs)).
  { unfold dir2, put_entry. by rewrite list_insert_insert_eq. }
  pose proof (save_granted sb B dir i e0 parent nm size xs HB Hds Hsh Hw Hi He0 Hu0 Hp0 Hpu Hv Hne Hnc Hn Hb Hsz Hfind) as [Hgr Hfit].
  pose proof (granted_bound _ _ _ _ _ _ Hgr) as Hgb. destruct Hgr as [Hc Hdt Hpw _ Hsum].
  pose proof (saved_wf sb B dir i e0 parent nm size xs HB Hds Hsh Hw Hi He0 Hu0 Hp0 Hpu Hv Hne Hnc Hn Hb Hsz Hfind) as Hw'.
  destruct (saved_entry_ok e0 nm size xs) as (Hok' & Hu' & Hp' & Hbs' & _ & Hcn' & Hx'); [done..|].
  pose proof (required_range size Hsz) as [Hreq Hcov].
  assert (Hcount : Z.of_nat (length (block_list xs)) = required size).
  { rewrite length_block_list; [done|]. eapply Forall_impl; [|exact Hdt]. intros x (? & _). lia. }
  destruct (save_extents_ok xs st1 p sb B buffer size 0) as (st4 & Hr4 & Hw4); [done|done|done|done|done|lia|lia|].
  set (dir' := put_entry dir i (saved_entry e0 nm size xs)) in *.
  assert (Hl4 : dir_loaded st4 p dir).
  { destruct Hl1 as (V & P & D). unfold dir_loaded. destruct (wt_caches _ _ _ _ _ _ _ Hw4) as (-> & _ & _ & _ & -> & _ & ->). done. }
  destruct (stored_ok st4 p sb B dir dir') as (Hi' & Ho & Hd & _);
    [apply Hw4|by apply Hw4|done|by apply put_entry_shape|].
  exists (stored st4 p dir'). split_and!.
  - unfold save_tail. rewrite Hdir2, Hput. unfold modify, or_return, mbind, M_bind.
    change (set_directory dir' (set_directory dir2 st1)) with (set_directory dir' st1).
    rewrite (save_extents_blind p buffer size xs 0 dir' st1), Hr4. done.
  - split; [done| |by apply Ho, Hw4|by rewrite Hd].
    rewrite (mount_same st); [apply Hr|]. trans (store st1); [apply Hs1|]. apply Hw4.
  - eapply others_kept_trans; [by apply (same_fs_others _ _ p Hs1)|]. eapply others_kept_trans; [|exact Ho].
    split; [apply Hw4|apply Hw4| |].
    + intros q sbq Bq l Hq Hqp Hl. rewrite (wt_view _ _ _ _ _ _ _ Hw4 q sbq Bq) by done. by rewrite decide_False.
    + intros q sbq Bq Hq _. by apply (wt_dview _ _ _ _ _ _ _ Hw4 q sbq Bq).
  - intros id. unfold tree_of at 1. rewrite Hd.
    change (view (stored st4 p dir') p) with (view st4 p). unfold dir'. rewrite abs_tree_put by done. unfold tset. destruct (decide (id = i + 1)) as [->|Hid].
    + unfold abs_entry. rewrite Hu', Hu0, Hp', Hp0, Hcn'. cbn [Z.eqb Pos.eqb LAINFS_ENTRY_FILE]. do 2 f_equal.
      unfold file_bytes. rewrite Hx', Hbs'. change (default [] (Some xs)) with xs.
      rewrite (wrote_content st1 st4 p sb B buffer size xs) by done. rewrite Hcount. apply file_sectors_concat; lia.
    + rewrite <- (same_fs_tree st st1 p sb B id Hs1 Hf Hsh Hw). unfold tree_of. rewrite (sf_dview _ _ Hs1 p sb B Hf). fold dir.
      apply (wrote_other_node st1 st4 p sb B dir buffer size (block_list xs) 0); try done.
      intros j e ys y b Hid' Hj He Hue Hys Hy Hby (x & Hx & Hbx)%elem_of_block_list. revert Hby.
      apply (save_unused sb B dir i e0 parent nm size xs HB Hds Hsh Hw Hi He0 Hu0 Hp0 Hpu Hv Hne Hnc Hn Hb Hsz Hfind
               j e ys x y b); try done. unfold t_id in Hid'. lia.
  - lia.
Qed.

(** The entry of a file that is being created. *)
Lemma new_file_entry_ok parent : is_u32 parent ->
  dirent_ok (new_file_entry parent) /\ entry_parent_id (new_file_entry parent) = parent.
Proof.
  intros Hp. assert (dirent_ok (set_used zero_dirent LAINFS_ENTRY_FILE)) by (apply set_used_ok; [by split|apply zero_dirent_ok]).
  split; [by apply set_entry_parent_id_ok|by apply entry_parent_set].
Qed.

Lemma set_directory_self st : set_directory (directory st) st = st.
Proof. by destruct st. Qed.

(** A save that finds no room for a new file leaves the half-made entry in
    the directory in memory. *)
Definition left_behind st (d p : Z) (sb : superblock) (B parent : Z) (nm : list Z) (size : Z) (run : (Z + unit) * fs S) : Prop :=
  exists st1 i, find_entry_in_dir (dview st p sb) parent nm = None /\ find_free_entry (dview st p sb) = Some i /\
    fs_inv st1 /\ same_fs st st1 /\ dir_loaded st1 p (dview st p sb) /\ no_room sb B (dview st p sb) size /\
    run = (inl (-9), set_directory (put_entry (dview st p sb) i (new_file_entry parent)) st1).

(** A save as the specification has it, that gives up only when there is no
    room for the new content of a file, and succeeds only when there is. *)
Definition saves st (d p : Z) (sb : superblock) (B parent : Z) (nm buffer : list Z) (size : Z) (run : (Z + unit) * fs S) : Prop :=
  refines st d p sb B (CSave parent nm buffer size) run /\
  (fst run = inl (-9) -> no_room sb B (dview st p sb) size /\ exists id, t_child (tree_of st p sb) parent (cstr nm) id) /\
  (status (fst run) = 0 -> required size <= B - sb_data_start_lba sb).

Lemma saves_early st st' d p sb B parent nm buffer size code : ready st d p sb B -> fs_inv st' -> same_fs st st' ->
  spec (tree_of st p sb) (CSave parent nm buffer size) code (tree_of st p sb) -> code <> 0 ->
  (code = -9 -> no_room sb B (dview st p sb) size /\ exists id, t_child (tree_of st p sb) parent (cstr nm) id) ->
  saves st d p sb B parent nm buffer size (inl code, st').
Proof.
  intros Hr Hi Hs Hsp Hz Hn. split; [by apply refines_early; [..|apply (ready_shape _ _ _ _ _ Hr)|]|].
  cbn. split; [intros [= ->]; by apply Hn|done].
Qed.

(** The save after its checks. *)
Definition save_body (p : Z) (sb : superblock) (parent_id : Z) (nm buffer : list Z) (size : Z) : M (fs S) unit :=
  slot ← file_slot parent_id nm;
  dir ← gets directory;
  blocks ← gets (fun st => part_blocks st p);
  xs ← from_option (find_free_extents blocks sb dir (required size) slot) (-9);
  save_tail p slot nm buffer size dir xs.

Section body.
Context (st st1 : fs S) (d p : Z) (sb : superblock) (B parent : Z) (nm buffer : list Z) (size : Z).
Context (Hr : ready st d p sb B) (Hi1 : fs_inv st1) (Hs1 : same_fs st st1) (Hl1 : dir_loaded st1 p (dview st p sb)).
Context (Hp : is_u32 parent) (Ev : valid_dir_id (dview st p sb) parent = true).
Context (Hargs : cmd_args_ok (CSave parent nm buffer size) = true) (Hb : bytes nm).
Context (Hbuf : bytes buffer) (Hsize : 0 <= size <= Z.of_nat (length buffer)).
#[local] Abbreviation dir := (dview st p sb).
#[local] Abbreviation outcome := (saves st d p sb B parent nm buffer size (save_body p sb parent nm buffer size st1)).

Lemma save_args : valid_name nm = true /\ 0 <= size <= LAINFS_FILE_CAPACITY.
Proof using All. cbn in Hargs. apply andb_true_iff in Hargs as [Hn Hcap%Z.leb_le]. split; [done|lia]. Qed.

Lemma save_parent_ne i : used (dir_entry dir i) <> LAINFS_ENTRY_DIR -> 0 <= i -> parent <> i + 1.
Proof using All.
  intros Hu Hi E. apply valid_dir_parent in Ev as [?|[_ Hv]]; [unfold LAINFS_ROOT_DIR in *; lia| |cint].
  rewrite E in Hv. by replace (i + 1 - 1) with i in Hv by lia.
Qed.

Lemma save_parents : cmd_parents_ok (tree_of st p sb) (CSave parent nm buffer size).
Proof using All.
  change (t_is_dir (abs_tree (view st p) dir) parent).
  exact (proj1 (valid_dir_abs dir (view st p) (ready_shape _ _ _ _ _ Hr) parent (proj1 Hp)) Ev).
Qed.

Lemma save_over i : find_entry_in_dir dir parent nm = Some i -> outcome.
Proof using All.
  intros Ef. pose proof (ready_shape _ _ _ _ _ Hr) as Hsh. pose proof (rd_dir _ _ _ _ _ Hr) as Hw.
  destruct save_args as [Hn Hcap]. pose proof Hl1 as (_ & _ & Hdir).
  pose proof (sf_formatted _ _ Hs1 _ _ _ (rd_formatted _ _ _ _ _ Hr)) as Hf1.
  destruct (find_entry_Some sb B dir (view st p) Hsh Hw _ _ _ Ef) as (n & Hi & Hn1 & Hc & He & Hu & Hpe & Hnm & Hnd).
  unfold save_body, file_slot. unfold mbind at 1, M_bind at 1. rewrite Hdir, Ef.
  destruct (Z.eqb_spec (used (dir_entry dir i)) LAINFS_ENTRY_DIR) as [Ed|Ed].
  { apply saves_early; [done..| |done|lia]. eapply (sp_save_dir _ _ _ _ _ (i + 1) n); [done|done|by apply Hnd]. }
  assert (Hfile : used (dir_entry dir i) = LAINFS_ENTRY_FILE) by by destruct (entry_type sb B dir Hw _ _ He Hu).
  assert (Hself : put_entry dir i (dir_entry dir i) = dir) by by apply list_insert_id.
  rewrite (bind_ok _ _ _ dir st1) by by (unfold gets; rewrite Hdir).
  rewrite (bind_ok _ _ _ (Some B) st1) by by (unfold gets; rewrite (part_blocks_formatted st1 p sb B)).
  destruct (find_free_extents (Some B) sb dir (required size) i) as [xs|] eqn:Ex; cycle 1.
  { apply saves_early; [done..|apply sp_save_space|done|]. intros _. rewrite <- Hself in Ex. split; [|eauto].
    pose proof (formatted_ranges _ _ _ _ Hf1) as (_ & R1 & R2 & R3). by apply (find_none_no_room sb B dir i (dir_entry dir i)); try lia. }
  destruct (save_tail_ok st st1 d p sb B i (dir_entry dir i) parent nm buffer size xs) as (st' & Hrun & Hr' & Ho & Ht & Hfits);
    [done..|by apply dir_entry_ok|done|done|done|done|by apply save_parent_ne; [|lia]| |done|done|done|done|lia|by rewrite Hself|].
  { intros j e _ Hj Hue Hpj. destruct (ew_parent _ _ _ _ _ (dw_entries _ _ _ Hw j e Hj Hue)) as [_ [Hq|[_ Hq]]].
    - unfold LAINFS_ROOT_DIR in *. lia.
    - rewrite Hpj in Hq. by replace (i + 1 - 1) with i in Hq by lia. }
  rewrite Hself in Hrun. assert (Hst : set_directory dir st1 = st1) by (rewrite <- Hdir; apply set_directory_self).
  rewrite Hst in Hrun.
  change (saves st d p sb B parent nm buffer size (save_tail p i nm buffer size dir xs st1)). rewrite Hrun. split; [|split; [done|intros _; exact Hfits]]. eexists (inr tt), st', _. split; [reflexivity|]. split; [done|]. split; [done|]. split; [|exact Ht].
  eapply (sp_save_over _ _ _ _ _ _ n); [done|apply save_parents|done|done|].
  destruct (nd_is_dir n); [by rewrite (proj1 Hnd) in Ed|done].
Qed.

Lemma save_new : find_entry_in_dir dir parent nm = None ->
  outcome \/ left_behind st d p sb B parent nm size (save_body p sb parent nm buffer size st1).
Proof using All.
  intros Ef. pose proof (ready_shape _ _ _ _ _ Hr) as Hsh. pose proof (rd_dir _ _ _ _ _ Hr) as Hw.
  destruct save_args as [Hn Hcap]. pose proof Hl1 as (_ & _ & Hdir).
  pose proof (sf_formatted _ _ Hs1 _ _ _ (rd_formatted _ _ _ _ _ Hr)) as Hf1.
  assert (Hnone : forall j, ~ t_child (tree_of st p sb) parent (cstr nm) j) by (intros j; by apply find_entry_None).
  assert (Hrun : save_body p sb parent nm buffer size st1 =
    match find_free_entry dir with
    | None => (inl (-5), st1)
    | Some i =>
        let dir2 := put_entry dir i (new_file_entry parent) in
        match find_free_extents (Some B) sb dir2 (required size) i with
        | None => (inl (-9), set_directory dir2 st1)
        | Some xs => save_tail p i nm buffer size dir2 xs (set_directory dir2 st1)
        end
    end).
  { unfold save_body, file_slot. unfold mbind at 1, M_bind at 1. rewrite Hdir, Ef.
    destruct (find_free_entry dir) as [i|]; [|done]. cbv zeta. set (dir2 := put_entry dir i (new_file_entry parent)).
    rewrite (bind_ok _ _ _ dir2 (set_directory dir2 st1)) by done.
    rewrite (bind_ok _ _ _ (Some B) (set_directory dir2 st1)) by (unfold gets; by rewrite (part_blocks_formatted (set_directory dir2 st1) p sb B)).
    by destruct (find_free_extents _ _ _ _ _). }
  rewrite Hrun. destruct (find_free_entry dir) as [i|] eqn:Eff; cycle 1.
  { left. apply saves_early; [done..| |done|lia]. apply sp_save_full; [done|]. by apply (find_free_None sb B). }
  destruct (find_free_Some dir (view st p) Hsh i Eff) as (Hi & _ & Hu & Habs & Hid).
  destruct (new_file_entry_ok parent Hp) as [Hok Hpe]. cbv zeta.
  destruct (find_free_extents _ _ _ _ _) as [xs|] eqn:Ex; cycle 1.
  { right. exists st1, i. pose proof (formatted_ranges _ _ _ _ Hf1) as (_ & R1 & R2 & R3).
    split_and!; [done..| |done]. by apply (find_none_no_room sb B dir i (new_file_entry parent)); try lia. }
  left. destruct (save_tail_ok st st1 d p sb B i (new_file_entry parent) parent nm buffer size xs) as (st' & Htail & Hr' & Ho & Ht & Hfits);
    [done..|apply save_parent_ne; [by rewrite Hu|lia]| |done|done|done|done|lia|done|].
  { intros j e _ Hj Hue. by eapply free_no_child. }
  rewrite Htail. split; [|split; [done|intros _; exact Hfits]]. eexists (inr tt), st', _. split; [reflexivity|]. split; [done|]. split; [done|]. split; [|exact Ht].
  by eapply (sp_save_new _ _ _ _ _ (i + 1)); [|apply save_parents|..].
Qed.
End body.

Lemma save_refines st d p sb B parent nm buffer size : ready st d p sb B -> bytes nm -> is_u32 parent ->
  bytes buffer -> 0 <= size <= Z.of_nat (length buffer) ->
  let run := lainfs_save_file_in_dir d parent nm buffer size st in
  saves st d p sb B parent nm buffer size run \/ left_behind st d p sb B parent nm size run.
Proof.
  intros Hr Hb Hp Hbuf Hsize run. subst run. unfold lainfs_save_file_in_dir. pose proof (ready_shape _ _ _ _ _ Hr) as Hsh.
  apply (command_start st d p sb B (valid_name nm && (size <=? LAINFS_FILE_CAPACITY)) (-3) (-4) _ (-2)
    (fun run => saves st d p sb B parent nm buffer size run \/ left_behind st d p sb B parent nm size run)); [done| |].
  { intros Hn. left. apply saves_early; [done|apply Hr|done|by apply sp_args|done|lia]. }
  intros st1 Hargs Hi1 Hs1 Hl1. pose proof Hl1 as (_ & _ & Hdir).
  match goal with |- saves _ _ _ _ _ _ _ _ _ ?r \/ _ => assert (Hrun : r =
    if valid_dir_id (dview st p sb) parent then save_body p sb parent nm buffer size st1 else (inl (-7), st1)) end.
  { unfold mbind at 1, M_bind at 1. rewrite guard_dir_id_run, Hdir. by destruct (valid_dir_id _ _). }
  rewrite Hrun. destruct (valid_dir_id (dview st p sb) parent) eqn:Ev; cycle 1.
  { left. apply saves_early; [done..| |done|lia]. apply sp_parents; [done|]. intros Hc.
    apply (proj2 (valid_dir_abs (dview st p sb) (view st p) Hsh parent (proj1 Hp))) in Hc. congruence. }
  destruct (find_entry_in_dir (dview st p sb) parent nm) as [i|] eqn:Ef; [left|]; [by eapply save_over|by apply save_new].
Qed.

(** ** Loading *)

Lemma view_ok st p sb B lba : fs_inv st -> formatted (store st) p sb B -> sb_data_start_lba sb <= lba < B ->
  length (view st p lba) = 512%nat.
Proof.
  intros Hi Hf Hl. pose proof (formatted_ranges _ _ _ _ Hf) as (_ & ? & ? & _). unfold view.
  destruct (lookup_slots _ _ _) as [c|] eqn:E; cbn.
  - apply lookup_slots_Some in E as (i & s & Hs & (Hv & _ & _) & <-); [|apply Hi]. by destruct (iv_slot _ Hi _ _ Hs Hv) as (_ & ? & _).
  - by destruct (formatted_sector (store st) p sb B lba) as [? _]; [apply Hi|done|lia|].
Qed.

(** The buffer after [k] blocks of a file with contents [C]. *)
Definition filled (C buf : list Z) (size k : Z) : list Z :=
  let m := Z.to_nat (Z.min size (512 * k)) in take m C ++ drop m buf.

Lemma filled_step C buf size k : 0 <= size <= Z.of_nat (length buf) -> 0 <= k -> 512 * (k + 1) <= Z.of_nat (length C) ->
  splice (Z.to_nat (512 * k))
    (take (Z.to_nat (Z.max 0 (Z.min 512 (size - 512 * k)))) (take 512 (drop (Z.to_nat (512 * k)) C)))
    (filled C buf size k) = filled C buf size (k + 1).
Proof.
  intros Hs Hk HC. unfold splice, filled. cbv zeta. rewrite take_take.
  destruct (Z.leb_spec size (512 * k)) as [Hle|Hgt].
  - replace (Z.to_nat (Z.max 0 _) `min` 512)%nat with O by lia. rewrite take_0. cbn [length app]. rewrite Nat.add_0_r, take_drop.
    by replace (Z.min size (512 * (k + 1))) with (Z.min size (512 * k)) by lia.
  - set (K := Z.to_nat (512 * k)). replace (Z.to_nat (Z.min size (512 * k))) with K by lia.
    set (n := (Z.to_nat (Z.max 0 (Z.min 512 (size - 512 * k))) `min` 512)%nat).
    assert (Hn : length (take n (drop K C)) = n) by (rewrite length_take, length_drop; lia).
    rewrite Hn. replace (Z.to_nat (Z.min size (512 * (k + 1)))) with (K + n)%nat by lia.
    rewrite take_app_length' by (rewrite length_take; lia).
    rewrite skipn_app, length_take. rewrite (drop_ge (take K C)) by (rewrite length_take; lia).
    replace (K + n - K `min` length C)%nat with n by lia. rewrite drop_drop. cbn [app].
    rewrite app_assoc. f_equal. apply take_take_drop.
Qed.

Section load.
Context (st0 : fs S) (p : Z) (sb : superblock) (B size : Z) (L buf : list Z).
Context (Hi0 : fs_inv st0) (Hf0 : formatted (store st0) p sb B).
Context (HL : forall b, b ∈ L -> sb_data_start_lba sb <= b < B).
Context (Hlen : Z.of_nat (length L) <= 8192) (Hs : 0 <= size <= Z.of_nat (length buf)) (Hcap : size <= 512 * 8192).
#[local] Abbreviation C := (concat (view st0 p <$> L)).

Lemma sectors_512 : Forall (fun l => length l = 512%nat) (view st0 p <$> L).
Proof using All. apply Forall_fmap, Forall_elem. intros b Hb. apply (view_ok st0 p sb B); auto. Qed.

Lemma sector_window k b : L !! k = Some b -> view st0 p b = take 512 (drop (Z.to_nat (512 * Z.of_nat k)) C).
Proof using All.
  intros Hk. pose proof sectors_512 as H512. pose proof (lookup_lt_Some _ _ _ Hk).
  pose proof (chunks_concat (length L) (view st0 p <$> L) (length_fmap _ _) H512) as Hc.
  assert (Hl : (view st0 p <$> L) !! k = Some (view st0 p b)) by by rewrite list_lookup_fmap, Hk.
  rewrite <- Hc in Hl. rewrite lookup_chunks in Hl by done. inversion Hl as [E]. do 2 f_equal. lia.
Qed.

Lemma load_blocks_ok n st start block k : fs_inv st -> same_fs st0 st -> 0 <= k -> k + Z.of_nat n <= Z.of_nat (length L) ->
  (forall j, (j < n)%nat -> L !! (Z.to_nat k + j)%nat = Some (start + block + Z.of_nat j)) ->
  exists st', load_blocks p size n start block k (filled C buf size k) st =
      (inr (filled C buf size (k + Z.of_nat n), k + Z.of_nat n), st') /\ fs_inv st' /\ same_fs st0 st'.
Proof using All.
  revert st block k. induction n as [|n IH]; intros st block k Hi Hsf Hk1 Hk2 Hn.
  { exists st. cbn. rewrite Z.add_0_r. done. }
  pose proof (Hn 0%nat ltac:(lia)) as Hb. rewrite Z.add_0_r, Nat.add_0_r in Hb.
  pose proof (HL _ ltac:(by eapply list_elem_of_lookup_2)) as Hrange.
  pose proof (formatted_ranges _ _ _ _ Hf0) as (_ & ? & ? & HB). change (2 ^ 32) with 4294967296 in HB.
  destruct (cached_read_block_ok st p sb B (start + block)) as (st1 & Hr1 & Hi1 & Hs1 & _); [done|by apply Hsf|done|].
  rewrite (sf_view _ _ Hsf p sb B) in Hr1 by done.
  destruct (IH st1 (block + 1) (k + 1)) as (st2 & Hr2 & Hi2 & Hs2); [done|by trans st|lia|lia| |].
  { intros j Hj. replace (Z.to_nat (k + 1) + j)%nat with (Z.to_nat k + Datatypes.S j)%nat by lia. rewrite Hn by lia. f_equal. lia. }
  exists st2. split; [|done]. cbn [load_blocks]. rewrite (u32_small (start + block)) by cint.
  destruct (copied_window buf size k) as [-> ->]; [lia|lia|lia|].
  rewrite (bind_ok _ _ _ (view st0 p (start + block)) st1) by (unfold or_return; by rewrite Hr1).
  rewrite (sector_window (Z.to_nat k)) by done. replace (Z.of_nat (Z.to_nat k)) with k by lia.
  rewrite filled_step, u32_small; [|cint|lia|lia|].
  - replace (k + Z.of_nat (Datatypes.S n)) with (k + 1 + Z.of_nat n) by lia. exact Hr2.
  - rewrite (length_concat_same 512), length_fmap by apply sectors_512. lia.
Qed.

Lemma load_extents_ok xs st pre : fs_inv st -> same_fs st0 st -> L = pre ++ block_list xs ->
  Forall (fun x => 0 <= ex_blocks x) xs ->
  exists st', load_extents p size xs (Z.of_nat (length pre)) (filled C buf size (Z.of_nat (length pre))) st =
      (inr (filled C buf size (Z.of_nat (length L))), st') /\ fs_inv st' /\ same_fs st0 st'.
Proof using All.
  revert st pre. induction xs as [|x xs IH]; intros st pre Hi Hsf HLe Hx.
  { exists st. split; [|done]. cbn. rewrite HLe. change (block_list []) with (@nil Z). by rewrite app_nil_r. }
  apply Forall_cons_1 in Hx as [Hx0 Hx]. rewrite block_list_cons in HLe.
  assert (HLl : length L = (length pre + Z.to_nat (ex_blocks x) + length (block_list xs))%nat).
  { rewrite HLe at 1. rewrite !length_app, length_seqZ. lia. }
  destruct (load_blocks_ok (Z.to_nat (ex_blocks x)) st (ex_start_lba x) 0 (Z.of_nat (length pre)))
    as (st1 & Hr1 & Hi1 & Hs1); [done|done|lia|lia| |].
  { intros j Hj. rewrite HLe at 1. rewrite lookup_app_r by lia. rewrite lookup_app_l by (rewrite length_seqZ; lia).
    rewrite lookup_seqZ_lt by lia. f_equal. lia. }
  destruct (IH st1 (pre ++ seqZ (ex_start_lba x) (ex_blocks x))) as (st2 & Hr2 & Hi2 & Hs2); [done|done|by rewrite HLe, app_assoc|done|].
  exists st2. split; [|done]. cbn [load_extents]. rewrite (bind_ok _ _ _ _ _ Hr1). cbn [fst snd].
  rewrite length_app, length_seqZ, Nat2Z.inj_add in Hr2. done.
Qed.
End load.

(** What a load may return on a tree. *)
Definition load_spec (t : tree) (parent : Z) (nm buffer : list Z) (r : Z + (list Z * Z)) : Prop :=
  match r with
  | inr (buf', size) =>
      exists id content, t id = Some (NFile parent (cstr nm) content) /\ size = Z.of_nat (length content) /\
        take (Z.to_nat size) buf' = content /\ drop (Z.to_nat size) buf' = drop (Z.to_nat size) buffer
  | inl c =>
      (c = -2 /\ (valid_name nm = false \/ buffer = [])) \/ (c = -7 /\ ~ t_is_dir t parent) \/
      (c = -5 /\ forall id content, t id <> Some (NFile parent (cstr nm) content)) \/
      (c = -6 /\ exists id content, t id = Some (NFile parent (cstr nm) content) /\
                                    Z.of_nat (length buffer) < Z.of_nat (length content))
  end.

(** The contents of a well-formed file have the size its entry says. *)
Lemma file_bytes_length st p sb B e : fs_inv st -> formatted (store st) p sb B -> dirent_ok e -> file_wf sb B e ->
  Z.of_nat (length (file_bytes (view st p) e)) = byte_size e /\
  exists xs, entry_extents e = Some xs /\ Forall (fun x => 0 <= ex_blocks x) xs /\
    (forall b, b ∈ block_list xs -> sb_data_start_lba sb <= b < B) /\
    byte_size e <= 512 * Z.of_nat (length (block_list xs)) /\ Z.of_nat (length (block_list xs)) <= 8192.
Proof.
  intros Hi Hf He (Hsz & xs & Hx & Hin & _). pose proof (entry_extents_facts e xs He Hsz Hx) as [_ _ Hsum].
  assert (Hpos : Forall (fun x => 0 <= ex_blocks x) xs).
  { eapply Forall_impl; [|exact Hin]. intros x (? & _). lia. }
  assert (HL : forall b, b ∈ block_list xs -> sb_data_start_lba sb <= b < B).
  { intros b (x & Hxi & Hb)%elem_of_block_list. rewrite Forall_elem in Hin. destruct (Hin x Hxi) as (? & ? & ?).
    unfold in_extent in Hb. lia. }
  pose proof (length_block_list xs Hpos) as Hlen. rewrite Hsum in Hlen.
  assert (Hr : 0 <= byte_size e <= LAINFS_FILE_CAPACITY) by (destruct He; cint).
  pose proof (required_range _ Hr) as [Hq1 Hq2]. change (allocated_blocks_for_entry e) with (required (byte_size e)) in Hlen.
  split; [|exists xs; split_and!; [done|done|done|lia|lia]].
  unfold file_bytes. rewrite Hx. change (default [] (Some xs)) with xs.
  rewrite length_take, (length_concat_same 512), length_fmap; [lia|].
  apply Forall_fmap, Forall_elem. intros b Hb. apply (view_ok st p sb B); auto.
Qed.

Lemma find_file_Some dir f parent nm i sb B : dir_shape dir -> dir_wf sb B dir -> find_file dir parent nm = Some i ->
  exists e, dir !! i = Some e /\ used e = LAINFS_ENTRY_FILE /\
    abs_tree f dir (Z.of_nat i + 1) = Some (NFile parent (cstr nm) (file_bytes f e)).
Proof.
  intros Hd Hw (e & He & Hm & _)%find_index_Some. bool_prop.
  match goal with H : str_eq _ _ = true |- _ => apply str_eq_spec in H end. subst parent.
  exists e. assert (Hu : used e = LAINFS_ENTRY_FILE) by by destruct (entry_type sb B dir Hw i e He).
  split_and!; [done|done|]. rewrite (abs_tree_lookup dir f Hd i e He). unfold abs_entry. rewrite Hu. cbn. congruence.
Qed.

Lemma find_file_None dir f parent nm id content : dir_shape dir -> find_file dir parent nm = None ->
  abs_tree f dir id <> Some (NFile parent (cstr nm) content).
Proof.
  intros Hd H Hn. destruct (abs_node_entry dir f Hd id _ Hn) as (e & He & _ & Hu & _ & Hp & Hnm & Hdir). cbn in *.
  pose proof (proj1 (find_index_None _ _) H _ _ He) as Hm. cbv beta in Hm.
  rewrite !andb_false_iff, !negb_false_iff, !Z.eqb_eq, Z.eqb_neq in Hm.
  destruct Hm as [[[Hm|Hm]|Hm]|Hm]; [done| |congruence|apply str_eq_spec_false in Hm; congruence].
  apply Hdir in Hm. done.
Qed.

Lemma load_refines st d p sb B parent nm buffer : ready st d p sb B -> is_u32 parent ->
  exists r st', lainfs_load_file_in_dir d parent nm buffer st = (r, st') /\ ready st' d p sb B /\ same_fs st st' /\
    load_spec (tree_of st p sb) parent nm buffer r.
Proof.
  intros Hr Hp. unfold lainfs_load_file_in_dir. pose proof (ready_shape _ _ _ _ _ Hr) as Hsh.
  pose proof (rd_dir _ _ _ _ _ Hr) as Hw. pose proof (rd_formatted _ _ _ _ _ Hr) as Hf.
  assert (Hearly : forall c st1, fs_inv st1 -> same_fs st st1 -> load_spec (tree_of st p sb) parent nm buffer (inl c) ->
    exists r st', ((inl c : Z + (list Z * Z)), st1) = (r, st') /\ ready st' d p sb B /\ same_fs st st' /\
      load_spec (tree_of st p sb) parent nm buffer r).
  { intros c st1 Hi1 Hs1 Hsp. exists (inl c), st1. split_and!; [done|by eapply ready_same|done|done]. }
  apply (command_start st d p sb B (valid_name nm && negb (length buffer =? 0)%nat) (-3) (-4) _ (-2)
    (fun run => exists r st', run = (r, st') /\ ready st' d p sb B /\ same_fs st st' /\ load_spec (tree_of st p sb) parent nm buffer r)); [done| |].
  { intros Hn. apply Hearly; [apply Hr|done|]. left. split; [done|]. apply andb_false_iff in Hn as [Hn|Hn]; [auto|].
    right. apply negb_false_iff, Nat.eqb_eq in Hn. by destruct buffer. }
  set (dir := dview st p sb) in *. intros st1 Hargs Hi1 Hs1 Hl1. fold dir in Hl1. pose proof Hl1 as (_ & _ & Hdir).
  unfold mbind at 1, M_bind at 1. rewrite guard_dir_id_run, Hdir.
  pose proof (valid_dir_abs dir (view st p) Hsh parent ltac:(cint)) as Hva.
  destruct (valid_dir_id dir parent) eqn:Ev; cycle 1.
  { apply Hearly; [done|done|]. right; left. split; [done|]. intros Hc. by apply Hva in Hc. }
  rewrite (bind_ok _ _ _ dir st1) by by (unfold gets; rewrite Hdir).
  destruct (find_file dir parent nm) as [i|] eqn:Ef; cycle 1.
  { apply Hearly; [done|done|]. right; right; left. split; [done|]. intros id content. by apply (find_file_None dir (view st p)). }
  destruct (find_file_Some dir (view st p) parent nm i sb B Hsh Hw Ef) as (e & He & Hu & Hnode).
  destruct (dir_shape_lt _ _ _ Hsh He) as [_ Hok].
  pose proof (ew_file _ _ _ _ _ (dw_entries _ _ _ Hw i e He ltac:(rewrite Hu; done)) Hu) as Hfw.
  destruct (file_bytes_length st p sb B e) as (Hlen & xs & Hx & Hpos & HL & Hcov & Hmax); [apply Hr|done|done|done|].
  rewrite (bind_ok (from_option (Some i) (-5)) _ st1 i st1) by done. rewrite (dir_entry_of_lookup _ _ _ He).
  destruct ((LAINFS_FILE_CAPACITY <? byte_size e) || (Z.of_nat (length buffer) <? byte_size e)) eqn:Eg; cbn [negb].
  { apply Hearly; [done|done|]. do 3 right. split; [done|]. exists (Z.of_nat i + 1), (file_bytes (view st p) e). split; [done|].
    apply orb_true_iff in Eg as [Eg|Eg]; bool_prop; [destruct Hfw as [? _]; lia|lia]. }
  bool_prop. rewrite (bind_ok (guardb true (-6)) _ st1 tt st1) by done. rewrite Hx. rewrite (bind_ok (from_option (Some xs) (-7)) _ st1 xs st1) by done.
  assert (Hs0 : 0 <= byte_size e) by (destruct Hok; cint).
  destruct (load_extents_ok st p sb B (byte_size e) (block_list xs) buffer (rd_inv _ _ _ _ _ Hr) Hf HL Hmax ltac:(lia) ltac:(lia) xs st1 [])
    as (st2 & Hr2 & Hi2 & Hs2); [done|done|done|done|].
  change (Z.of_nat (length [])) with 0 in Hr2. replace (filled _ buffer (byte_size e) 0) with buffer in Hr2
    by (unfold filled; by rewrite Z.mul_0_r, Z.min_r by lia).
  rewrite (bind_ok _ _ _ _ _ Hr2). eexists (inr _), st2. split; [reflexivity|]. split_and!; [by eapply ready_same|done|].
  exists (Z.of_nat i + 1), (file_bytes (view st p) e). split; [done|]. split; [lia|].
  assert (Hm : Z.to_nat (Z.min (byte_size e) (512 * Z.of_nat (length (block_list xs)))) = Z.to_nat (byte_size e)) by lia.
  unfold filled. rewrite Hm. unfold file_bytes in Hlen |- *. rewrite Hx in Hlen |- *. change (default [] (Some xs)) with xs in *.
  rewrite take_app_length', drop_app_length' by lia. done.
Qed.

(** ** Save, then load *)

Lemma names_unique_ext t t' : (forall id, t' id = t id) -> names_unique t -> names_unique t'.
Proof. intros E Hu i j p nm (n & Hn & ?) (m & Hm & ?). rewrite E in Hn, Hm. apply (Hu i j p nm); eexists; eauto. Qed.

(** The node a successful save leaves. *)
Lemma spec_save_node t parent nm buffer size t' : spec t (CSave parent nm buffer size) 0 t' ->
  valid_name nm = true /\ (parent = LAINFS_ROOT_DIR \/ exists n, t parent = Some n /\ nd_is_dir n = true) /\
  exists id, t' = tset t id (Some (NFile parent (cstr nm) (take (Z.to_nat size) buffer))) /\
    (forall n, t id = Some n -> nd_is_dir n = false).
Proof.
  intros H. inversion H; subst;
    match goal with H : cmd_args_ok _ = true |- _ => cbn in H; apply andb_true_iff in H as [? _] end;
    (split; [done|]; split; [done|]; eexists; split; [reflexivity|]; intros; congruence).
Qed.

(** A save with good arguments goes through when there is room. *)
Lemma save_succeeds st d p sb B parent nm buffer size : ready st d p sb B -> bytes nm -> is_u32 parent ->
  bytes buffer -> 0 <= size <= Z.of_nat (length buffer) -> size <= LAINFS_FILE_CAPACITY -> valid_name nm = true ->
  let t := tree_of st p sb in
  t_is_dir t parent -> (forall id n, t_child t parent (cstr nm) id -> t id = Some n -> nd_is_dir n = false) ->
  (exists id, t_child t parent (cstr nm) id \/ (t_id id /\ t id = None)) -> ~ no_room sb B (dview st p sb) size ->
  exists r st', lainfs_save_file_in_dir d parent nm buffer size st = (r, st') /\ status r = 0.
Proof.
  intros Hr Hb Hp Hbuf Hsz Hcap Hn t Hd Hfile [id Hid] Hroom.
  destruct (save_refines st d p sb B parent nm buffer size) as [[Href [Hfull _]]|(? & ? & _ & _ & _ & _ & _ & ? & _)]; [done..| |done].
  destruct Href as (r & st' & t' & Hrun & _ & _ & Hsp & _). rewrite Hrun in Hfull |- *. exists r, st'. split; [done|]. cbn [fst] in Hfull. fold t in Hsp.
  destruct r as [c|[]]; [|done]. cbn [status] in *. inversion Hsp; subst; try done; exfalso.
  - match goal with H : cmd_args_ok _ = false |- _ => cbn [cmd_args_ok] in H; rewrite Hn in H; cbn [andb] in H; apply Z.leb_gt in H; lia end.
  - match goal with H : t_child _ _ _ ?j, E : t ?j = Some ?m |- _ => specialize (Hfile j m H E); congruence end.
  - destruct Hid as [Hc|[Hi Hnone]]; [match goal with H : forall j, ~ t_child _ _ _ j |- _ => by apply (H id) end|].
    match goal with H : forall j, t_id j -> t j <> None |- _ => by apply (H id) end.
  - by apply Hroom, Hfull.
Qed.

(** A new file larger than the data area is refused, with the entry made for
    it left behind. *)
Lemma save_too_big st d p sb B parent nm buffer size : ready st d p sb B -> bytes nm -> is_u32 parent ->
  bytes buffer -> 0 <= size <= Z.of_nat (length buffer) -> size <= LAINFS_FILE_CAPACITY -> valid_name nm = true ->
  let t := tree_of st p sb in
  t_is_dir t parent -> (forall id, ~ t_child t parent (cstr nm) id) -> (exists id, t_id id /\ t id = None) ->
  B - sb_data_start_lba sb < required size ->
  left_behind st d p sb B parent nm size (lainfs_save_file_in_dir d parent nm buffer size st).
Proof.
  intros Hr Hb Hp Hbuf Hsz Hcap Hn t Hd Hnew (id & Hid & Hfree) Hbig.
  destruct (save_refines st d p sb B parent nm buffer size) as [(Href & Hfull & Hfits)|Hl]; [done..| |done]. exfalso.
  destruct Href as (r & st' & t' & Hrun & _ & _ & Hsp & _). rewrite Hrun in Hfull, Hfits. cbn [fst] in *. fold t in Hsp, Hfull.
  destruct r as [c|[]]; cbn [status] in *; [|by specialize (Hfits eq_refl); lia].
  inversion Hsp; subst; try done; try (by specialize (Hfits eq_refl); lia).
  - match goal with H : cmd_args_ok _ = false |- _ => cbn [cmd_args_ok] in H; rewrite Hn in H; cbn [andb] in H; apply Z.leb_gt in H; lia end.
  - by eapply Hnew.
  - match goal with H : forall j, t_id j -> t j <> None |- _ => by apply (H id) end.
  - destruct (Hfull eq_refl) as [_ [j Hj]]. by apply (Hnew j).
Qed.

Lemma save_load st d p sb B parent nm buffer size rbuf r st1 : ready st d p sb B -> names_unique (tree_of st p sb) ->
  bytes nm -> is_u32 parent -> bytes buffer -> 0 <= size <= Z.of_nat (length buffer) ->
  lainfs_save_file_in_dir d parent nm buffer size st = (r, st1) -> status r = 0 ->
  size <= Z.of_nat (length rbuf) -> rbuf <> [] ->
  exists buf' st2, lainfs_load_file_in_dir d parent nm rbuf st1 = (inr (buf', size), st2) /\
    take (Z.to_nat size) buf' = take (Z.to_nat size) buffer /\
    drop (Z.to_nat size) buf' = drop (Z.to_nat size) rbuf /\ ready st2 d p sb B.
Proof.
  intros Hr Hu Hb Hp Hbuf Hsz Hsave Hz Hrb Hne.
  destruct (save_refines st d p sb B parent nm buffer size) as [[Href _]|(? & ? & _ & _ & _ & _ & _ & _ & Hbad)];
    [done..| |rewrite Hsave in Hbad; injection Hbad as -> ->; done].
  destruct Href as (r0 & st' & t' & Hrun & Hr1 & _ & Hsp & Ht). rewrite Hsave in Hrun. injection Hrun as <- <-. rewrite Hz in Hsp. set (st' := st1) in *.
  clear Hz Hsave r.
  pose proof (spec_names_unique _ _ _ _ Hu Hsp) as Hu'. apply (names_unique_ext _ (tree_of st' p sb)) in Hu'; [|done].
  destruct (spec_save_node _ _ _ _ _ _ Hsp) as (Hn & Hpd & id & -> & Hnd).
  set (content := take (Z.to_nat size) buffer) in *.
  assert (Hlen : Z.of_nat (length content) = size) by (unfold content; rewrite length_take; lia).
  assert (Hnode : tree_of st' p sb id = Some (NFile parent (cstr nm) content)) by (rewrite Ht; apply tset_eq).
  assert (Honly : forall j c, tree_of st' p sb j = Some (NFile parent (cstr nm) c) -> c = content).
  { intros j c Hj. assert (j = id) as -> by (apply (Hu' j id parent (cstr nm)); eexists; split_and!; eauto). congruence. }
  destruct (load_refines st' d p sb B parent nm rbuf Hr1 Hp) as (r & st2 & Hload & Hr2 & _ & Hls).
  destruct r as [c|[buf' sz]]; cbn in Hls.
  - exfalso. destruct Hls as [(_ & [?|?])|[(_ & Hnp)|[(_ & Hno)|(_ & j & c' & Hj & Hlt)]]]; [congruence|done| |by eapply Hno|].
    + apply Hnp. destruct Hpd as [->|(n & Hnp' & Hdn)]; [by left|right]. exists n. split; [|done].
      rewrite Ht, tset_ne; [done|]. intros ->. apply Hnd in Hnp'. congruence.
    + apply Honly in Hj as ->. lia.
  - destruct Hls as (j & c & Hj & -> & Htk & Hdr). apply Honly in Hj as ->. rewrite Hlen in *.
    by exists buf', st2.
Qed.
End files.
