(* ===== verification/LainfsAdmin.v ===== *)
(** Checking, repairing and flushing: kernel/fs/lainfs.c, lines 1178-1269 and
    1330-1441.

    [lainfs_check] decides well-formedness, [lainfs_repair] ends and a
    repaired directory is well formed and on disk, [lainfs_flush_all] writes
    everything back. *)
From Stdlib Require Import ZArith Lia.
From stdpp Require Import base tactics option list numbers.
From S2P Require Import Prelude.
From S2P Require Import StorageApi.
From S2P Require Import LainfsLayout.
From S2P Require Import LainfsDir.
From S2P Require Import LainfsState.
From S2P Require Import LainfsCache.
From S2P Require Import LainfsOps.
From S2P Require Import LainfsSpec.
From S2P Require Import LainfsRefine.
From S2P Require Import LainfsFiles.
#[local] Open Scope Z_scope.

Section admin.
Context {S : Type} `{!StorageApi S, !StorageLaws S}.
Implicit Types (st : fs S).

(** A drive whose directory may be damaged. *)
Record mounted st (d p : Z) (sb : superblock) (B : Z) : Prop := {
  md_inv : fs_inv st;
  md_mount : exists m, mount_for_drive st d = Some m /\ mt_partition_index m = p;
  md_formatted : formatted (store st) p sb B
}.

Lemma ready_mounted st d p sb B : ready st d p sb B -> mounted st d p sb B.
Proof. by intros []. Qed.

Lemma mounted_same st st' d p sb B : mounted st d p sb B -> fs_inv st' -> same_fs st st' -> mounted st' d p sb B.
Proof.
  intros [Hi Hm Hf] Hi' Hs. split; [done| |by apply Hs]. rewrite (mount_same st st' d (sf_tables _ _ Hs)). done.
Qed.

(** The superblock and the directory in memory, unchecked. *)
Lemma open_unchecked_ok st d p sb B : mounted st d p sb B ->
  exists m st1 st2, mount_for_drive st d = Some m /\ mt_partition_index m = p /\
    read_super p st = (inr sb, st1) /\ load_directory_unchecked p sb st1 = (inr tt, st2) /\
    mounted st2 d p sb B /\ same_fs st st2 /\ dir_loaded st2 p (dview st p sb) /\ dir_shape (dview st p sb).
Proof.
  intros Hmd. destruct Hmd as [Hi (m & Hm & Hp) Hf].
  destruct (read_super_ok st p sb B Hi Hf) as (st1 & Hr1 & Hi1 & Hs1 & _).
  pose proof (sf_formatted _ _ Hs1 _ _ _ Hf) as Hf1.
  destruct (load_directory_unchecked_ok st1 p sb B Hi1 Hf1) as (st2 & Hr2 & Hi2 & Hs2 & Hl2).
  rewrite (sf_dview _ _ Hs1 p sb B Hf) in Hl2. exists m, st1, st2. split_and!; try done.
  - apply (mounted_same st); [split; [done|by exists m|done]|done|by trans st1].
  - by trans st1.
  - destruct Hl2 as (Hv & _ & <-). by destruct (iv_dir _ Hi2 Hv) as [? _].
Qed.

(** ** Check *)

(** [lainfs_check] loads like [load_directory_unchecked]. *)
Lemma check_run st d m sb st1 st2 : mount_for_drive st d = Some m -> read_super (mt_partition_index m) st = (inr sb, st1) ->
  load_directory_unchecked (mt_partition_index m) sb st1 = (inr tt, st2) ->
  exists st', lainfs_check d st =
    (match validate_directory (part_blocks st2 (mt_partition_index m)) sb (directory st2) with
     | Some (reason, id) => (-1, reason, id)
     | None => (0, LAINFS_CHECK_OK, 0)
     end, st') /\ (st2 = st' \/ st2 = bump count_directory_hit st').
Proof.
  intros Hm Hr Hl. unfold lainfs_check. rewrite Hm, Hr. unfold load_directory_unchecked in Hl.
  destruct (directory_cache_valid st1 && _) eqn:E.
  - simplify_eq. exists st1. split; [|by right].
    change (part_blocks (bump count_directory_hit st1)) with (part_blocks st1). cbn [directory bump set_stats].
    by destruct (validate_directory _ _ _) as [[? ?]|].
  - rewrite Hl. exists st2. split; [|by left]. by destruct (validate_directory _ _ _) as [[? ?]|].
Qed.

Lemma check_decides st d p sb B : mounted st d p sb B ->
  exists code reason id st', lainfs_check d st = (code, reason, id, st') /\ mounted st' d p sb B /\ same_fs st st' /\
    ((code = 0 /\ reason = LAINFS_CHECK_OK /\ dir_wf sb B (dview st p sb)) \/
     (code = -1 /\ validate_directory (Some B) sb (dview st p sb) = Some (reason, id) /\ ~ dir_wf sb B (dview st p sb))).
Proof.
  intros Hmd. destruct (open_unchecked_ok st d p sb B Hmd) as (m & st1 & st2 & Hm & Hp & Hr1 & Hr2 & Hm2 & Hs2 & (_ & _ & Hd2) & Hsh).
  subst p. destruct (check_run _ _ _ _ _ _ Hm Hr1 Hr2) as (st' & Hrun & Hst'). set (p := mt_partition_index m) in *.
  pose proof (md_formatted _ _ _ _ _ Hm2) as Hf2. rewrite (part_blocks_formatted st2 p sb B Hf2), Hd2 in Hrun.
  assert (Hfin : mounted st' d p sb B /\ same_fs st st').
  { destruct Hst' as [<-|E]; [done|].
    assert (Hi' : fs_inv st') by (apply (bump_inv count_directory_hit); rewrite <- E; apply Hm2).
    assert (Hs' : same_fs st st') by (rewrite E in Hs2; etrans; [exact Hs2|]; by split).
    split; [by apply (mounted_same st)|done]. }
  pose proof (validate_directory_None sb B (dview st p sb) (fm_width _ _ _ _ Hf2) (fm_sb _ _ _ _ Hf2) Hsh) as Hval.
  destruct (validate_directory (Some B) sb (dview st p sb)) as [[reason id]|] eqn:Ev; rewrite Hrun.
  - exists (-1), reason, id, st'. split_and!; [done|apply Hfin|apply Hfin|]. right. split_and!; [done|done|].
    intros Hw. by apply Hval in Hw.
  - exists 0, LAINFS_CHECK_OK, 0, st'. split_and!; [done|apply Hfin|apply Hfin|]. left. split_and!; [done|done|by apply Hval].
Qed.

(** ** Repair *)

(** The loop ends: every round that goes on makes a repair. *)
Lemma repair_loop_total fuel p sb repairs st : 0 <= repairs <= LAINFS_MAX_FILES ->
  LAINFS_MAX_FILES + 1 < Z.of_nat fuel + repairs -> repair_loop fuel p sb repairs st <> None.
Proof.
  rewrite max_files. revert repairs st. induction fuel as [|fuel IH]; intros repairs st Hr Hf; [lia|]. cbn [repair_loop].
  destruct (validate_directory _ _ _) as [[reason id]|]; [|done].
  destruct (repair_directory_once _ _ _ _ _); [|done]. rewrite u32_small by cint.
  destruct (Z.ltb_spec LAINFS_MAX_FILES (repairs + 1)) as [|Hle]; [done|]. rewrite max_files in Hle. apply IH; lia.
Qed.

Lemma repair_once_shape B sb reason id dir dir' : dir_shape dir ->
  repair_directory_once B sb reason id dir = Some dir' ->
  dir_shape dir' /\ forall i, used (dir_entry dir' i) = used (dir_entry dir i) /\ name (dir_entry dir' i) = name (dir_entry dir i).
Proof.
  intros Hd. unfold repair_directory_once. set (k := index_from_entry_id id). set (e := dir_entry dir k).
  assert (He : dirent_ok e) by by apply dir_entry_ok.
  assert (Hput : forall e', dirent_ok e' -> used e' = used e -> name e' = name e ->
    dir_shape (put_entry dir k e') /\ forall i, used (dir_entry (put_entry dir k e') i) = used (dir_entry dir i) /\
      name (dir_entry (put_entry dir k e') i) = name (dir_entry dir i)).
  { intros e' He' Hu Hn. split; [by apply put_entry_shape|]. intros i. unfold dir_entry at 1 3, put_entry.
    destruct (decide (Z.to_nat k = Z.to_nat i)) as [Heq|Hne].
    - destruct (decide (Z.to_nat k < length dir)%nat).
      + rewrite Heq, list_lookup_insert_eq by lia. cbn. unfold e, dir_entry in *. by rewrite Hu, Hn, Heq.
      + by rewrite list_insert_ge by lia.
    - by rewrite list_lookup_insert_ne. }
  assert (Hx : dirent_ok (set_entry_extents e [Extent (start_lba e) (allocated_blocks_for_entry e)])).
  { apply set_entry_extents_ok; [simpl; lia| |done]. constructor; [apply He|constructor]. }
  destruct (set_entry_extents_frame e [Extent (start_lba e) (allocated_blocks_for_entry e)]) as (Hxu & Hxn & _).
  repeat (case_match; try done); intros [= <-]; apply Hput; try done;
    first [by apply set_entry_parent_id_ok|by apply set_byte_size_ok, set_start_lba_ok].
Qed.

(** What a repair may leave on a mounted drive. *)
Record repaired st st' (d p : Z) (sb : superblock) (B : Z) (rep : repair_report) : Prop := {
  rp_mounted : mounted st' d p sb B;
  rp_others : others_kept st st' p;
  rp_view lba : sb_data_start_lba sb <= lba < B -> view st' p lba = view st p lba;
  rp_entries i : used (dir_entry (dview st' p sb) i) = used (dir_entry (dview st p sb) i) /\
                 name (dir_entry (dview st' p sb) i) = name (dir_entry (dview st p sb) i);
  rp_good : rr_status rep = 0 -> dir_wf sb B (dview st' p sb) /\ disk_directory (store st') p sb = dview st' p sb
}.

Lemma dirty_dview st p sb dir : directory_cache_valid st = true -> directory_cache_partition st = p ->
  directory st = dir -> dview st p sb = dir.
Proof. intros. apply dview_loaded. by split_and!. Qed.

(** The states of the repair loop: the directory of [p] is in memory. *)
Lemma repair_round_ok st d p sb B dir' : mounted st d p sb B -> dir_loaded st p (directory st) -> dir_shape dir' ->
  let st1 := set_dir_flags true true p (set_directory dir' st) in
  mounted st1 d p sb B /\ others_kept st st1 p /\ dview st1 p sb = dir' /\ (forall q lba, view st1 q lba = view st q lba).
Proof.
  intros [Hi Hm Hf] Hl Hsh st1. destruct (stored_ok st p sb B (directory st) dir' Hi Hf Hl Hsh) as (Hi' & Ho & Hd & Hv).
  split_and!; [|by destruct Ho; split|exact Hd|exact Hv].
  split; [|exact Hm|exact Hf]. by apply bump_inv in Hi'.
Qed.

(** Writing the directory back at the end of the loop. *)
Lemma repair_flush_ok st d p sb B : mounted st d p sb B -> directory_cache_valid st = true -> directory_cache_partition st = p ->
  exists st', flush_directory_cache st = (inr tt, st') /\ mounted st' d p sb B /\ same_fs st st' /\
    disk_directory (store st') p sb = dview st' p sb.
Proof.
  intros Hm Hv Hp. destruct (flush_directory_cache_ok st (md_inv _ _ _ _ _ Hm)) as (st' & Hr & Hi' & Hs & Hk & Hcl).
  exists st'. split_and!; [done|by apply (mounted_same st)|done|].
  destruct Hk as (_ & _ & _ & _ & Kv & Kp & _). rewrite Hv in Kv. destruct (iv_dir _ Hi' Kv) as (_ & sb' & B' & Hf' & Hc).
  rewrite Kp, Hp in *. destruct (formatted_unique _ _ _ _ _ _ (sf_formatted _ _ Hs _ _ _ (md_formatted _ _ _ _ _ Hm)) Hf') as [-> _].
  rewrite (dirty_dview st' p sb (directory st')) by congruence. symmetry. auto.
Qed.

(** Rounds of the loop compose with what went before. *)
Lemma repaired_same st0 st st' d p sb B rep : mounted st' d p sb B -> same_fs st st' -> formatted (store st) p sb B ->
  repaired st0 st d p sb B (RepairReport 1 0 0 0) ->
  (rr_status rep = 0 -> dir_wf sb B (dview st' p sb) /\ disk_directory (store st') p sb = dview st' p sb) ->
  repaired st0 st' d p sb B rep.
Proof.
  intros Hm Hs Hf [_ Ho Hv He _] Hg. split; [done| | | |done].
  - eapply others_kept_trans; [exact Ho|by apply same_fs_others].
  - intros lba Hl. rewrite (sf_view _ _ Hs p sb B) by done. auto.
  - intros i. rewrite (sf_dview _ _ Hs p sb B) by done. auto.
Qed.

Lemma repaired_step st0 st d p sb B dir' : repaired st0 st d p sb B (RepairReport 1 0 0 0) ->
  dir_loaded st p (directory st) -> dir_shape dir' ->
  (forall i, used (dir_entry dir' i) = used (dir_entry (directory st) i) /\ name (dir_entry dir' i) = name (dir_entry (directory st) i)) ->
  repaired st0 (set_dir_flags true true p (set_directory dir' st)) d p sb B (RepairReport 1 0 0 0).
Proof.
  intros [Hm Ho Hv He _] Hl Hsh Hd. destruct (repair_round_ok st d p sb B dir' Hm Hl Hsh) as (Hm1 & Ho1 & Hd1 & Hv1).
  split; [done|by eapply others_kept_trans| | |done].
  - intros lba Hlb. rewrite Hv1. auto.
  - intros i. rewrite Hd1. destruct (Hd i) as [-> ->]. rewrite <- (dview_loaded st p (directory st) sb Hl). apply He.
Qed.

Lemma repair_loop_ok fuel st0 st d p sb B repairs rep st' : repaired st0 st d p sb B (RepairReport 1 0 0 0) ->
  dir_loaded st p (directory st) -> dir_shape (directory st) ->
  repair_loop fuel p sb repairs st = Some (rep, st') -> repaired st0 st' d p sb B rep.
Proof.
  revert st repairs. induction fuel as [|fuel IH]; intros st repairs Hrp Hl Hsh H; [done|]. cbn [repair_loop] in H.
  pose proof (rp_mounted _ _ _ _ _ _ _ Hrp) as Hm. pose proof (md_formatted _ _ _ _ _ Hm) as Hf.
  pose proof Hl as (Hv & Hp & _). rewrite (part_blocks_formatted st p sb B Hf) in H.
  pose proof (validate_directory_None sb B (directory st) (fm_width _ _ _ _ Hf) (fm_sb _ _ _ _ Hf) Hsh) as Hval.
  destruct (repair_flush_ok st d p sb B Hm Hv Hp) as (st2 & Hr2 & Hm2 & Hs2 & Hsync).
  destruct (validate_directory (Some B) sb (directory st)) as [[reason id]|] eqn:Ev.
  - destruct (repair_directory_once (Some B) sb reason id (directory st)) as [dir'|] eqn:Er.
    + destruct (repair_once_shape _ _ _ _ _ _ Hsh Er) as [Hsh' Hent].
      pose proof (repaired_step st0 st d p sb B dir' Hrp Hl Hsh' Hent) as Hrp'.
      set (st1 := set_dir_flags true true p (set_directory dir' st)) in *.
      destruct (LAINFS_MAX_FILES <? _); [|by eapply (IH st1); [done|by split_and!|done|exact H]].
      destruct (repair_flush_ok st1 d p sb B (rp_mounted _ _ _ _ _ _ _ Hrp')) as (st3 & Hr3 & Hm3 & Hs3 & _); [done|done|].
      rewrite Hr3 in H. injection H as <- <-. by apply (repaired_same st0 st1); [..|apply Hrp'|].
    + destruct (negb _); [rewrite Hr2 in H|]; injection H as <- <-; by apply (repaired_same st0 st).
  - assert (Hw : dir_wf sb B (dview st p sb)) by (rewrite (dview_loaded _ _ _ sb Hl); by apply Hval).
    destruct (directory_cache_dirty st) eqn:Ed; [rewrite Hr2 in H|]; injection H as <- <-.
    + apply (repaired_same st0 st); [done..|]. intros _. split; [|done]. by rewrite (sf_dview _ _ Hs2 p sb B).
    + apply (repaired_same st0 st); [done..|]. intros _. split; [done|].
      destruct (iv_dir _ (md_inv _ _ _ _ _ Hm) Hv) as (_ & sb' & B' & Hf' & Hc). rewrite Hp in *.
      destruct (formatted_unique _ _ _ _ _ _ Hf Hf') as [-> _]. rewrite (dview_loaded _ _ _ sb Hl). symmetry. auto.
Qed.

(** [lainfs_repair] ends, and what it leaves. *)
Lemma repair_ok st d p sb B : mounted st d p sb B ->
  exists rep st', lainfs_repair d st = Some (rep, st') /\ repaired st st' d p sb B rep.
Proof.
  intros Hmd. destruct (open_unchecked_ok st d p sb B Hmd) as (m & st1 & st2 & Hm & Hp & Hr1 & Hr2 & Hm2 & Hs2 & Hl2 & Hsh).
  unfold lainfs_repair. rewrite Hm, Hp, Hr1, Hr2. pose proof Hl2 as (Hv & Hq & Hdir).
  destruct (repair_loop _ p sb 0 st2) as [[rep st']|] eqn:E.
  - exists rep, st'. split; [done|]. eapply (repair_loop_ok _ st st2); [|by split_and!|by rewrite Hdir|exact E].
    split; [done|by apply same_fs_others| | |done].
    + intros lba Hl. apply (sf_view _ _ Hs2 p sb B); [apply Hmd|done].
    + intros i. by rewrite (sf_dview _ _ Hs2 p sb B (md_formatted _ _ _ _ _ Hmd)).
  - exfalso. revert E. apply repair_loop_total; rewrite max_files; lia.
Qed.

(** ** Flushing everything *)

Lemma flush_all_ok st : fs_inv st ->
  exists st', lainfs_flush_all st = (inr tt, st') /\ fs_inv st' /\ same_fs st st' /\
    (forall p sb B, formatted (store st) p sb B -> synced st' p sb B).
Proof.
  intros Hi. unfold lainfs_flush_all.
  destruct (each_slot_flush (fun c => cs_valid c && cs_dirty c) flush_any_slot (seq 0 LAINFS_DATA_CACHE_SLOTS) st)
    as (st1 & Hr1 & Hi1 & Hs1 & Hk1 & Hc1); [intros c Hc; by bool_prop|done|apply all_slots_lt|done|].
  destruct (flush_directory_if_dirty_ok st1 Hi1) as (st2 & Hr2 & Hi2 & Hs2 & Hk2 & Hd2).
  exists st2. split_and!; [|done|by trans st1|].
  - rewrite (bind_ok _ _ _ _ _ Hr1). unfold or_return. by rewrite Hr2.
  - intros p sb B Hf. apply clean_synced; [done|by apply Hs2, Hs1| |].
    + intros i Hlt. unfold slot_at. destruct Hk2 as (_ & _ & _ & _ & _ & _ & ->). fold (slot_at st1 i).
      rewrite (Hc1 i Hlt); [done|]. left. apply elem_of_seq. unfold LAINFS_DATA_CACHE_SLOTS. lia.
    + intros Hv _. apply Hd2. destruct Hk2 as (_ & _ & _ & _ & Kv & _). congruence.
Qed.
End admin.
