(* ===== verification/LainfsFormat.v ===== *)
(** Formatting a partition: kernel/fs/lainfs.c, [format_partition_index].

    Formatting writes a superblock and an empty directory, drops what the
    caches held of the partition and keeps the other partitions, provided
    that the directory in memory is not the one of another partition. *)
From Stdlib Require Import ZArith Lia.
From stdpp Require Import base tactics option list numbers.
From S2P Require Import Prelude.
From S2P Require Import StorageApi.
From S2P Require Import LainfsLayout.
From S2P Require Import LainfsDir.
From S2P Require Import LainfsState.
From S2P Require Import LainfsCache.
From S2P Require Import LainfsRefine.
#[local] Open Scope Z_scope.

Definition empty_directory : list dirent := replicate (Z.to_nat LAINFS_MAX_FILES) zero_dirent.

Lemma empty_directory_shape : dir_shape empty_directory.
Proof. split; [apply length_replicate|]. apply Forall_replicate, zero_dirent_ok. Qed.

Lemma empty_directory_entry i : dir_entry empty_directory i = zero_dirent.
Proof.
  unfold dir_entry, empty_directory. destruct (_ !! _) as [e|] eqn:E; [|done].
  apply lookup_replicate in E as [-> _]. done.
Qed.

Lemma empty_directory_wf sb B : layout_wf sb B -> dir_wf sb B empty_directory.
Proof.
  intros Hl. split; [done| |].
  - intros i e He Hu. apply lookup_replicate in He as [-> _]. done.
  - intros i j a b xs ys _ Ha _ Hu. apply lookup_replicate in Ha as [-> _]. done.
Qed.

Lemma format_super_good : super_is_good format_super = true /\ superblock_ok format_super.
Proof. split; [done|]. split. repeat constructor; vm_compute; congruence. Qed.

Section format.
Context {S : Type} `{!StorageApi S, !StorageLaws S}.
Implicit Types (s : S) (st : fs S).

(** A write to a partition that works, formatted or not. *)
Record raw_written s s' (p lba n : Z) (bs : list Z) (B : Z) : Prop := {
  rw_wf : st_wf s';
  rw_apart : apart s';
  rw_tables : same_tables s s';
  rw_live q : st_live s' q <-> st_live s q;
  rw_same l : 0 <= l < B -> st_sector s' p l = if decide (lba <= l < lba + n)
                          then take 512 (drop (512 * Z.to_nat (l - lba)) bs) else st_sector s p l;
  rw_formatted q sb Bq : formatted s q sb Bq -> q <> p -> formatted s' q sb Bq;
  rw_other q sb Bq l : formatted s q sb Bq -> q <> p -> 0 <= l < Bq -> st_sector s' q l = st_sector s q l
}.

Lemma raw_write s p part lba n bs : st_wf s -> apart s -> st_live s p -> api_get_partition s p = Some part ->
  0 <= lba -> 0 <= n -> lba + n <= pt_block_count part -> length bs = (512 * Z.to_nat n)%nat -> bytes bs ->
  exists s', api_write_partition p lba n bs s = (inr tt, s') /\ raw_written s s' p lba n bs (pt_block_count part).
Proof.
  intros Hw Ha Hl Hg Hlba Hn Hle Hlen Hb.
  destruct (law_write s p part lba n bs Hw Hl Hg Hlba Hn Hle Hlen Hb) as (s' & Hwr & Hw' & Hlv & Hdj & Hsame & Hother).
  pose proof (law_tables _ _ _ _ _ _ _ Hwr) as Ht.
  assert (Hsec : forall q sb Bq l, formatted s q sb Bq -> q <> p -> 0 <= l < Bq -> st_sector s' q l = st_sector s q l).
  { intros q sb Bq l Hq Hne Hlq. destruct (formatted_part _ _ _ _ Hq) as (partq & Hgq & HB).
    apply (Hother q partq); [by destruct Hq|done| |lia]. apply Ha; [done|by destruct Hq|congruence]. }
  exists s'. split; [done|]. split; [done| |done|done|done| |done].
  - intros q r Hq Hr Hqr. apply Hdj, Ha; [by apply Hlv|by apply Hlv|done].
  - intros q sb Bq Hq Hne. pose proof (formatted_ranges _ _ _ _ Hq) as (_ & ? & ? & _).
    pose proof (Hsec q sb Bq 0 Hq Hne ltac:(lia)) as Hz. destruct Ht as (Hgp & _ & _).
    destruct Hq. split; try done; [by apply Hlv|by rewrite Hgp|by rewrite Hz].
Qed.

(** Nothing of partition [p] is cached. *)
Definition forgotten st (p : Z) : Prop :=
  (forall i c, data_cache st !! i = Some c -> cs_valid c = true -> cs_partition c <> p) /\
  (super_cache_valid st = true -> super_cache_partition st <> p) /\
  (directory_cache_valid st = true -> directory_cache_partition st <> p).

(** What the other partitions show stays. *)
Record rest_kept st st' (p : Z) : Prop := {
  rk_formatted q sb B : formatted (store st) q sb B -> q <> p -> formatted (store st') q sb B;
  rk_view q sb B lba : formatted (store st) q sb B -> q <> p -> sb_data_start_lba sb <= lba < B ->
    view st' q lba = view st q lba;
  rk_dview q sb B : formatted (store st) q sb B -> q <> p -> dview st' q sb = dview st q sb
}.

Lemma rest_kept_trans st1 st2 st3 p : rest_kept st1 st2 p -> rest_kept st2 st3 p -> rest_kept st1 st3 p.
Proof.
  intros [F1 V1 D1] [F2 V2 D2]. split; [auto| |].
  - intros q sb B lba Hf Hne Hl. rewrite (V2 q sb B) by auto. by apply (V1 q sb B).
  - intros q sb B Hf Hne. rewrite (D2 q sb B) by auto. by apply (D1 q sb B).
Qed.

Lemma same_fs_rest st st' p : same_fs st st' -> rest_kept st st' p.
Proof. intros []. split; eauto. Qed.

(** What [invalidate_partition_cache] does to each field. *)
Definition drop_slot (p : Z) (c : cache_slot) : cache_slot :=
  if cs_valid c && (cs_partition c =? p) then invalid_slot c else c.

Lemma invalidate_slots p st : data_cache (invalidate_partition_cache p st) = drop_slot p <$> data_cache st /\
  store (invalidate_partition_cache p st) = store st /\ directory (invalidate_partition_cache p st) = directory st.
Proof. unfold invalidate_partition_cache. repeat case_match; done. Qed.

Lemma invalidate_dir p st : directory_cache_valid (invalidate_partition_cache p st) = true ->
  directory_cache_valid st = true /\ directory_cache_partition st <> p /\
  directory_cache_partition (invalidate_partition_cache p st) = directory_cache_partition st /\
  directory_cache_dirty (invalidate_partition_cache p st) = directory_cache_dirty st.
Proof.
  unfold invalidate_partition_cache. destruct (super_cache_valid st && _), (directory_cache_valid st) eqn:E; cbn; rewrite ?E; cbn;
    destruct (Z.eqb_spec (directory_cache_partition st) p); cbn; rewrite ?E; by intros.
Qed.

Lemma invalidate_super p st : super_cache_valid (invalidate_partition_cache p st) = true ->
  super_cache_valid st = true /\ super_cache_partition st <> p /\
  super_cache_partition (invalidate_partition_cache p st) = super_cache_partition st /\
  super_cache (invalidate_partition_cache p st) = super_cache st.
Proof.
  unfold invalidate_partition_cache. destruct (super_cache_valid st) eqn:E; cbn;
    destruct (Z.eqb_spec (super_cache_partition st) p); cbn; case_match; cbn; rewrite ?E; by intros.
Qed.

Lemma invalidate_keyed p st i c q l : data_cache (invalidate_partition_cache p st) !! i = Some c -> keyed c q l ->
  q <> p /\ data_cache st !! i = Some c.
Proof.
  destruct (invalidate_slots p st) as (-> & _). intros Hc (Hv & Hq & Hl). rewrite list_lookup_fmap in Hc.
  apply fmap_Some in Hc as (c0 & Hc0 & ->). unfold drop_slot in *.
  destruct (cs_valid c0 && (cs_partition c0 =? p)) eqn:E; [done|]. rewrite Hv in E. cbn in E. bool_prop. split; [congruence|done].
Qed.

Lemma invalidate_unique p st : unique_keys (data_cache st) -> unique_keys (data_cache (invalidate_partition_cache p st)).
Proof.
  intros Hu i j c t q l Hc Ht Hkc Hkt. apply (Hu i j c t q l); [by eapply invalidate_keyed|by eapply invalidate_keyed|done|done].
Qed.

Lemma invalidate_lookup p st q l : unique_keys (data_cache st) -> q <> p ->
  lookup_slots (data_cache (invalidate_partition_cache p st)) q l = lookup_slots (data_cache st) q l.
Proof.
  intros Hu Hne. destruct (lookup_slots (data_cache (invalidate_partition_cache p st)) q l) as [d|] eqn:E; symmetry.
  - apply lookup_slots_Some; [done|]. apply lookup_slots_Some in E as (i & c & Hc & Hk & Hd'); [|by apply invalidate_unique].
    exists i, c. split; [|done]. by eapply invalidate_keyed.
  - apply lookup_slots_None. intros i c Hc Hk. rewrite lookup_slots_None in E. apply (E i c); [|done].
    destruct (invalidate_slots p st) as (-> & _). rewrite list_lookup_fmap, Hc. cbn. unfold drop_slot.
    destruct Hk as (Hv & Hq & _). rewrite Hv. destruct (Z.eqb_spec (cs_partition c) p); [congruence|done].
Qed.

Lemma invalidate_inv p st : fs_inv st -> fs_inv (invalidate_partition_cache p st).
Proof.
  destruct (invalidate_slots p st) as (Hsl & Hst & Hdd). intros [I1 I2 I3 I4 I5 I6 I7]. split; rewrite ?Hst; try done.
  - by rewrite Hsl, length_fmap.
  - intros i c Hc Hv. apply (I4 i c); [|done]. by eapply invalidate_keyed.
  - by apply invalidate_unique.
  - intros Hv. destruct (invalidate_super p st Hv) as (? & _ & -> & ->). auto.
  - intros Hv. destruct (invalidate_dir p st Hv) as (Hv0 & _ & -> & ->). rewrite Hdd. auto.
Qed.

Lemma invalidate_forgotten p st : forgotten (invalidate_partition_cache p st) p.
Proof.
  split_and!.
  - intros i c Hc Hv. by eapply (invalidate_keyed p st i c).
  - intros Hv. by destruct (invalidate_super p st Hv) as (_ & ? & -> & _).
  - intros Hv. by destruct (invalidate_dir p st Hv) as (_ & ? & -> & _).
Qed.

Lemma invalidate_rest p st : fs_inv st -> (directory_cache_valid st = true -> directory_cache_dirty st = false) ->
  rest_kept st (invalidate_partition_cache p st) p.
Proof.
  intros Hi Hclean. destruct (invalidate_slots p st) as (Hsl & Hst & Hdd). split; rewrite ?Hst; [done| |].
  - intros q sb B lba Hf Hne Hl. unfold view. rewrite invalidate_lookup, Hst; [done|apply Hi|done].
  - intros q sb B Hf Hne. unfold dview at 1. rewrite Hst, Hdd.
    destruct (directory_cache_valid (invalidate_partition_cache p st)) eqn:E; cbn [andb].
    + destruct (invalidate_dir p st E) as (Hv & _ & -> & _). unfold dview. by rewrite Hv.
    + unfold dview. destruct (directory_cache_valid st) eqn:Ev; cbn [andb]; [|done].
      destruct (Z.eqb_spec (directory_cache_partition st) q) as [Eq|]; [|done].
      destruct (iv_dir _ Hi Ev) as (_ & sb' & B' & Hf' & Hc). rewrite Eq in *.
      destruct (formatted_unique _ _ _ _ _ _ Hf Hf') as [-> _]. symmetry. rewrite Hc by auto. done.
Qed.

(** Writing to a partition of which nothing is cached. *)
Lemma forgotten_write st s' p lba n bs B : fs_inv st -> forgotten st p -> raw_written (store st) s' p lba n bs B ->
  fs_inv (set_store s' st) /\ forgotten (set_store s' st) p /\ rest_kept st (set_store s' st) p.
Proof.
  intros [I1 I2 I3 I4 I5 I6 I7] (F1 & F2 & F3) Hw.
  assert (Hdd : forall q sb Bq, formatted (store st) q sb Bq -> q <> p -> disk_directory s' q sb = disk_directory (store st) q sb).
  { intros q sb Bq Hq Hne. pose proof (formatted_ranges _ _ _ _ Hq) as (Hdb & ? & ? & _).
    apply disk_directory_ext. intros l Hl. apply (rw_other _ _ _ _ _ _ _ Hw q sb Bq); [done|done|lia]. }
  split_and!; [|by split_and!|].
  - split; cbn; [apply (rw_wf _ _ _ _ _ _ _ Hw)|apply (rw_apart _ _ _ _ _ _ _ Hw)|done| |done| |].
    + intros i c Hc Hv. destruct (I4 i c Hc Hv) as ((sb & Bq & Hf & Hl) & Hlen & Hb & Hcl). specialize (F1 i c Hc Hv).
      pose proof (formatted_ranges _ _ _ _ Hf) as (_ & ? & ? & _). split_and!; [|done|done|].
      * exists sb, Bq. split; [by apply Hw|done].
      * intros Hd. rewrite (rw_other _ _ _ _ _ _ _ Hw _ sb Bq) by (done || lia). auto.
    + intros Hv. destruct (I6 Hv) as (Bq & Hf). exists Bq. apply Hw; auto.
    + intros Hv. destruct (I7 Hv) as (Hsh & sb & Bq & Hf & Hcl). split; [done|]. exists sb, Bq. split; [apply Hw; auto|].
      intros Hd. rewrite (Hdd _ sb Bq) by auto. auto.
  - split; cbn.
    + intros. by apply Hw.
    + intros q sb Bq l Hq Hne Hl. pose proof (formatted_ranges _ _ _ _ Hq) as (_ & ? & ? & _).
      unfold view. cbn. by rewrite (rw_other _ _ _ _ _ _ _ Hw q sb Bq) by (done || lia).
    + intros q sb Bq Hq Hne. unfold dview. cbn [directory_cache_valid directory_cache_partition directory store set_store].
      destruct (_ && _); [done|]. by apply (Hdd q sb Bq).
Qed.

Lemma format_layout B : 258 <= B -> layout_wf format_super B.
Proof. intros HB. split; cbn; unfold LAINFS_DIR_BLOCKS; lia. Qed.

Lemma format_super_bytes : length (bytes_of_superblock format_super) = 512%nat /\ bytes (bytes_of_superblock format_super).
Proof.
  split; [done|]. unfold bytes_of_superblock. rewrite !Forall_app. split_and!; try apply write_le32_bytes.
  apply Forall_replicate. cint.
Qed.

(** The two writes of a format. *)
Lemma format_writes s p part : st_wf s -> apart s -> st_live s p -> api_get_partition s p = Some part ->
  258 <= pt_block_count part < 2 ^ 32 ->
  exists s1 s2, api_write_partition p 0 1 (bytes_of_superblock format_super) s = (inr tt, s1) /\
    api_write_partition p 1 256 (bytes_of_directory empty_directory) s1 = (inr tt, s2) /\
    raw_written s s1 p 0 1 (bytes_of_superblock format_super) (pt_block_count part) /\
    raw_written s1 s2 p 1 256 (bytes_of_directory empty_directory) (pt_block_count part) /\
    formatted s2 p format_super (pt_block_count part) /\ disk_directory s2 p format_super = empty_directory.
Proof.
  intros Hw Ha Hl Hg HB. destruct format_super_bytes as [Hsl Hsb]. destruct empty_directory_shape as [Hel Heo].
  destruct (bytes_of_directory_ok empty_directory Hel Heo) as [Hdl Hdb].
  destruct (raw_write s p part 0 1 (bytes_of_superblock format_super)) as (s1 & Hr1 & W1); [done..|lia|lia|lia|done|done|].
  assert (Hg1 : api_get_partition s1 p = Some part) by by rewrite (proj1 (rw_tables _ _ _ _ _ _ _ W1)).
  destruct (raw_write s1 p part 1 256 (bytes_of_directory empty_directory)) as (s2 & Hr2 & W2);
    [apply W1|apply W1|by apply W1|done|lia|lia|lia|lia|done|].
  exists s1, s2. split_and!; [done|done|done|done| |].
  - destruct format_super_good as [Hgood Hok]. split.
    + by apply (rw_live _ _ _ _ _ _ _ W2), (rw_live _ _ _ _ _ _ _ W1).
    + by rewrite (proj1 (rw_tables _ _ _ _ _ _ _ W2)), Hg1.
    + lia.
    + rewrite (rw_same _ _ _ _ _ _ _ W2) by lia. rewrite decide_False by lia.
      rewrite (rw_same _ _ _ _ _ _ _ W1) by lia. rewrite decide_True by lia.
      change (512 * Z.to_nat (0 - 0))%nat with 0%nat. rewrite drop_0, take_ge by lia. by apply superblock_of_bytes_of.
    + done.
    + apply format_layout. lia.
    + done.
  - apply disk_directory_blocks; [done|apply empty_directory_shape|done|].
    change (sb_dir_start_lba format_super) with 1. change (sb_dir_blocks format_super) with 256.
    intros l Hlr. rewrite (rw_same _ _ _ _ _ _ _ W2) by lia. by rewrite decide_True by lia.
Qed.

(** Formatting: [st2] is the state before the partitions are discovered again. *)
Lemma format_ok st p B : fs_inv st -> st_live (store st) p -> part_blocks st p = Some B -> 258 <= B < 2 ^ 32 ->
  api_partition_is_writable (store st) p = true ->
  (directory_cache_valid st = true -> directory_cache_partition st = p) ->
  exists st2, format_partition_index p st =
      (inr tt, invalidate_partition_cache p (set_store (api_discover_partitions (store st2)) st2)) /\
    fs_inv st2 /\ formatted (store st2) p format_super B /\ dview st2 p format_super = empty_directory /\
    forgotten st2 p /\ rest_kept st st2 p.
Proof.
  intros Hi Hl Hb HB Hwr Hcache. unfold format_partition_index.
  rewrite (bind_ok _ _ _ (Some B) st) by (unfold gets; by rewrite Hb). rewrite (bind_ok (from_option (Some B) _) _ st B st) by done.
  rewrite (proj2 (Z.leb_le 64 B)) by lia. rewrite (bind_ok (guardb true _) _ st tt st) by done.
  rewrite (bind_ok _ _ _ true st) by (unfold gets; by rewrite Hwr). rewrite (bind_ok (guardb true _) _ st tt st) by done.
  destruct (flush_directory_if_dirty_ok st Hi) as (st1 & Hr1 & Hi1 & Hs1 & Hk1 & Hcl1).
  rewrite (bind_ok _ _ _ tt st1) by (unfold or_return; by rewrite Hr1).
  rewrite (bind_ok (modify _) _ st1 tt (invalidate_partition_cache p st1)) by done.
  assert (Hclean : directory_cache_valid st1 = true -> directory_cache_dirty st1 = false).
  { intros Hv. apply Hcl1. destruct Hk1 as (_ & _ & _ & _ & Kv & _). congruence. }
  pose proof (invalidate_inv p st1 Hi1) as Hi2. pose proof (invalidate_forgotten p st1) as Hfg.
  pose proof (invalidate_rest p st1 Hi1 Hclean) as Hrest. destruct (invalidate_slots p st1) as (_ & Hst & _).
  assert (Hnov : directory_cache_valid (invalidate_partition_cache p st1) = false).
  { destruct (directory_cache_valid (invalidate_partition_cache p st1)) eqn:E; [|done].
    destruct (invalidate_dir p st1 E) as (Hv & Hne & _). destruct Hk1 as (_ & _ & _ & _ & Kv & Kp & _).
    exfalso. apply Hne. rewrite Kp. apply Hcache. congruence. }
  set (sta := invalidate_partition_cache p st1) in *.
  unfold part_blocks in Hb. apply fmap_Some in Hb as (part & Hg & ->).
  destruct (format_writes (store sta) p part) as (s1 & s2 & W1 & W2 & R1 & R2 & Hf & Hdd).
  { apply Hi2. } { apply Hi2. }
  { rewrite Hst. by apply (sf_live _ _ Hs1). }
  { rewrite Hst. by rewrite (proj1 (sf_tables _ _ Hs1)). }
  { done. }
  destruct (forgotten_write sta s1 p _ _ _ _ Hi2 Hfg R1) as (Hi3 & Hfg3 & Hrest3).
  destruct (forgotten_write (set_store s1 sta) s2 p _ _ _ _ Hi3 Hfg3 R2) as (Hi4 & Hfg4 & Hrest4).
  set (stb := set_directory empty_directory (set_store s2 sta)).
  assert (Hib : fs_inv stb).
  { destruct Hi4 as [J1 J2 J3 J4 J5 J6 J7]. split; [exact J1|exact J2|exact J3|exact J4|exact J5|exact J6|].
    change (directory_cache_valid stb) with (directory_cache_valid sta). rewrite Hnov. discriminate. }
  exists stb. split_and!; [|done|exact Hf| |exact Hfg4|].
  - rewrite (bind_ok _ _ _ tt (set_store s1 sta)) by (unfold or_return, on_store; by rewrite W1).
    rewrite (bind_ok (modify _) _ _ tt (set_directory empty_directory (set_store s1 sta))) by done.
    rewrite (bind_ok _ _ _ tt stb); [done|]. unfold or_return, on_store. cbn [directory store set_directory set_store].
    change (sb_dir_start_lba format_super) with 1. change (sb_dir_blocks format_super) with 256. by rewrite W2.
  - unfold dview. cbn [stb directory_cache_valid set_directory set_store]. rewrite Hnov. exact Hdd.
  - eapply rest_kept_trans; [apply (same_fs_rest _ _ p Hs1)|]. eapply rest_kept_trans; [exact Hrest|].
    eapply rest_kept_trans; [exact Hrest3|]. eapply rest_kept_trans; [exact Hrest4|].
    split; [done|done|]. intros q sb Bq Hq Hne. unfold dview.
    cbn [stb directory_cache_valid store set_directory set_store]. rewrite Hnov. reflexivity.
Qed.
End format.
