(* ===== verification/LainfsQuery.v ===== *)
(** Looking around in LainFS: [lainfs_find_dir], [lainfs_parent_dir],
    [lainfs_child_count] and [lainfs_child_info] of kernel/fs/lainfs.c, in
    terms of the abstract tree; and runs of several commands. *)
From Stdlib Require Import ZArith Lia.
From stdpp Require Import base tactics option list numbers.
From S2P Require Import Prelude.
From S2P Require Import StorageApi.
From S2P Require Import LainfsLayout.
From S2P Require Import LainfsDir.
From S2P Require Import LainfsState.
From S2P Require Import LainfsCache.
From S2P Require Import LainfsOps.
From S2P Require Import LainfsSpec.
From S2P Require Import LainfsRefine.
From S2P Require Import LainfsFiles.
#[local] Open Scope Z_scope.

(** The ids of the children of [parent], in increasing order. *)
Definition t_is_child (t : tree) (parent id : Z) : bool :=
  match t id with Some n => nd_parent n =? parent | None => false end.
Definition t_children (t : tree) (parent : Z) : list Z :=
  filter (fun id => t_is_child t parent id = true) (seqZ 1 LAINFS_MAX_FILES).

Lemma filter_fmap_eq {A B} (f : A -> B) (P : B -> bool) (Q : A -> bool) (l : list A) :
  (forall x, x ∈ l -> P (f x) = Q x) -> filter (fun y => P y = true) (f <$> l) = f <$> filter (fun x => Q x = true) l.
Proof.
  induction l as [|x l IH]; intros H; [done|]. rewrite fmap_cons, !filter_cons, (H x) by (left; done).
  specialize (IH ltac:(intros; apply H; by right)). destruct (Q x).
  - rewrite !decide_True by done. by rewrite fmap_cons, IH.
  - by rewrite !decide_False by done.
Qed.

Lemma dir_as_ids dir : dir_shape dir -> dir = (fun id => dir_entry dir (id - 1)) <$> seqZ 1 LAINFS_MAX_FILES.
Proof.
  intros [Hl _]. apply list_eq. intros i. rewrite list_lookup_fmap, max_files. destruct (decide (i < 2048)%nat).
  - rewrite lookup_seqZ_lt by lia. cbn. unfold dir_entry. replace (Z.to_nat (1 + Z.of_nat i - 1)) with i by lia.
    destruct (lookup_lt_is_Some_2 dir i) as [e He]; [lia|]. by rewrite He.
  - rewrite lookup_seqZ_ge by lia. apply lookup_ge_None. lia.
Qed.

Section query.
Context {S : Type} `{!StorageApi S, !StorageLaws S}.
Implicit Types (st : fs S).

Lemma children_entries sb B dir f parent : dir_shape dir -> dir_wf sb B dir ->
  filter (fun e => is_child parent e = true) dir =
  (fun id => dir_entry dir (id - 1)) <$> t_children (abs_tree f dir) parent.
Proof.
  intros Hd Hw. rewrite (dir_as_ids dir Hd) at 1. apply filter_fmap_eq. intros id Hid%elem_of_seqZ.
  rewrite max_files in Hid. unfold is_child, t_is_child. unfold abs_tree.
  rewrite decide_True by (unfold t_id; rewrite max_files; lia).
  pose proof (dir_entry_lookup dir (id - 1) Hd ltac:(rewrite max_files; lia)) as He.
  destruct (Z.eqb_spec (used (dir_entry dir (id - 1))) 0) as [E|E]; cbn [negb andb].
  - unfold abs_entry. by rewrite E.
  - unfold abs_entry. by destruct (entry_type sb B dir Hw _ _ He E) as [->| ->].
Qed.

(** What a query on a ready drive leaves: everything as it was. *)
Definition asks {A} st (d p : Z) (sb : superblock) (B : Z) (run : (Z + A) * fs S) (post : Z + A -> Prop) : Prop :=
  exists r st', run = (r, st') /\ ready st' d p sb B /\ same_fs st st' /\ post r.

Lemma asks_intro {A} st st' d p sb B (r : Z + A) post : ready st d p sb B -> fs_inv st' -> same_fs st st' -> post r ->
  asks st d p sb B (r, st') post.
Proof. intros Hr Hi Hs Hp. exists r, st'. split_and!; [done|by eapply ready_same|done|done]. Qed.

(** Opening the directory, then the test of a directory id. *)
Lemma query_start {A} st d p sb B c1 c2 c3 id (k : M (fs S) A) post : ready st d p sb B -> 0 <= id ->
  (~ t_is_dir (tree_of st p sb) id -> post (inl c3)) ->
  (forall st', fs_inv st' -> same_fs st st' -> directory st' = dview st p sb -> t_is_dir (tree_of st p sb) id ->
     asks st d p sb B (k st') post) ->
  asks st d p sb B ((open_directory p c1 c2;; guard_dir_id id c3;; k) st) post.
Proof.
  intros Hr Hid Hbad Hok. destruct (open_directory_ok st d p sb B c1 c2 Hr) as (st1 & Hrun & Hi1 & Hs1 & (_ & _ & Hdir) & Hsh).
  rewrite (bind_ok _ _ _ _ _ Hrun). unfold mbind at 1, M_bind at 1. rewrite guard_dir_id_run, Hdir.
  pose proof (valid_dir_abs (dview st p sb) (view st p) Hsh id Hid) as Hva.
  destruct (valid_dir_id (dview st p sb) id) eqn:Ev.
  - apply Hok; [done|done|done|]. by apply Hva.
  - apply asks_intro; [done|done|done|]. apply Hbad. intros Hc. by apply Hva in Hc.
Qed.

Lemma drive_bind {A} st d p sb B c (k : Z -> M (fs S) A) : ready st d p sb B ->
  (partition_of_drive d c ≫= k) st = k p st.
Proof.
  intros Hr. destruct (rd_mount _ _ _ _ _ Hr) as (m & Hm & Hp).
  by rewrite (bind_ok _ _ _ p st) by by eapply partition_of_drive_ok.
Qed.

Lemma child_count_ok st d p sb B parent : ready st d p sb B -> is_u32 parent ->
  asks st d p sb B (lainfs_child_count d parent st) (fun r =>
    match r with
    | inr n => t_is_dir (tree_of st p sb) parent /\ n = Z.of_nat (length (t_children (tree_of st p sb) parent))
    | inl c => c = -5 /\ ~ t_is_dir (tree_of st p sb) parent
    end).
Proof.
  intros Hr Hp. unfold lainfs_child_count. rewrite (drive_bind st d p sb B) by done.
  apply query_start; [done|cint|done|]. intros st1 Hi1 Hs1 Hdir Hid.
  apply asks_intro; [done|done|done|]. split; [done|]. rewrite Hdir.
  rewrite (children_entries sb B _ (view st p)) by (by eapply ready_shape || apply Hr). by rewrite length_fmap.
Qed.

Lemma child_info_ok st d p sb B parent k out : ready st d p sb B -> is_u32 parent -> 0 <= k -> out <> [] ->
  asks st d p sb B (lainfs_child_info d parent k out st) (fun r =>
    match r with
    | inr (nm, ty, size) => exists id n, t_children (tree_of st p sb) parent !! Z.to_nat k = Some id /\
        tree_of st p sb id = Some n /\ nm = copy_str out (nd_name n) (length out) /\
        ty = (if nd_is_dir n then LAINFS_ENTRY_DIR else LAINFS_ENTRY_FILE) /\
        size = match n with NDir _ _ => 0 | NFile _ _ content => Z.of_nat (length content) end
    | inl c => (c = -5 /\ ~ t_is_dir (tree_of st p sb) parent) \/
               (c = -6 /\ Z.of_nat (length (t_children (tree_of st p sb) parent)) <= k)
    end).
Proof.
  intros Hr Hp Hk Hout. unfold lainfs_child_info. rewrite (drive_bind st d p sb B) by done.
  destruct out as [|o out]; [done|]. rewrite (bind_ok (guardb _ _) _ st tt st) by done. set (buf := o :: out).
  apply query_start; [done|cint|by left|]. intros st1 Hi1 Hs1 Hdir Hid. pose proof (ready_shape _ _ _ _ _ Hr) as Hsh.
  pose proof (rd_dir _ _ _ _ _ Hr) as Hw. set (dir := dview st p sb) in *.
  rewrite (bind_ok _ _ _ ((fun id => dir_entry dir (id - 1)) <$> t_children (tree_of st p sb) parent) st1); cycle 1.
  { unfold gets. rewrite Hdir. by rewrite (children_entries sb B dir (view st p)). }
  rewrite list_lookup_fmap. destruct (t_children (tree_of st p sb) parent !! Z.to_nat k) as [id|] eqn:E; cbn [fmap option_fmap option_map].
  - apply list_elem_of_lookup_2 in E as Hin. apply list_elem_of_filter in Hin as [Hc _]. unfold t_is_child in Hc.
    destruct (tree_of st p sb id) as [n|] eqn:En; [|done].
    destruct (abs_node_entry dir (view st p) Hsh id n En) as (e & He & _ & Hu & Hae & _ & Hnm & Hd).
    assert (dir_entry dir (id - 1) = e) as Heq by (unfold dir_entry; by rewrite He).
    destruct (dir_shape_lt dir _ _ Hsh He) as [_ Heok].
    apply asks_intro; [done|done|done|]. exists id, n. split_and!; [done|done| | |].
    + rewrite Heq, Hnm. unfold copy_str. cbn [length Nat.eqb]. by rewrite (cstr_id (cstr _)) by apply cstr_nonzero.
    + rewrite Heq. destruct (entry_type sb B dir Hw _ _ He Hu) as [Et|Et]; rewrite Et.
      * destruct (nd_is_dir n); [|done]. rewrite (proj1 Hd) in Et by done. done.
      * by rewrite (proj2 Hd).
    + rewrite Heq. unfold abs_entry in Hae. destruct (entry_type sb B dir Hw _ _ He Hu) as [Et|Et]; rewrite Et in Hae |- *;
        cbn [Z.eqb Pos.eqb LAINFS_ENTRY_FILE LAINFS_ENTRY_DIR] in Hae |- *; injection Hae as <-; [|done].
      destruct (file_bytes_length st p sb B e) as [-> _]; [apply Hr|apply Hr|done| |done].
      apply (ew_file _ _ _ _ _ (dw_entries _ _ _ Hw _ e He Hu) Et).
  - apply asks_intro; [done|done|done|]. right. split; [done|]. apply lookup_ge_None in E. lia.
Qed.

Lemma find_dir_ok st d p sb B parent nm : ready st d p sb B -> is_u32 parent -> names_unique (tree_of st p sb) ->
  asks st d p sb B (lainfs_find_dir d parent nm st) (fun r =>
    match r with
    | inr id => t_child (tree_of st p sb) parent (cstr nm) id /\ t_is_dir (tree_of st p sb) id
    | inl c => (c = -2 /\ valid_name nm = false) \/ (c = -7 /\ ~ t_is_dir (tree_of st p sb) parent) \/
               (c = -5 /\ forall id, tree_of st p sb id <> Some (NDir parent (cstr nm)))
    end).
Proof.
  intros Hr Hp Hun. unfold lainfs_find_dir. rewrite (drive_bind st d p sb B) by done.
  destruct (valid_name nm) eqn:Hn; [|by apply asks_intro; [done|apply Hr|done|by left]].
  rewrite (bind_ok (guardb true (-2)) _ st tt st) by done.
  apply query_start; [done|cint|by right; left|]. intros st1 Hi1 Hs1 Hdir Hid. pose proof (ready_shape _ _ _ _ _ Hr) as Hsh.
  pose proof (rd_dir _ _ _ _ _ Hr) as Hw. set (dir := dview st p sb) in *.
  rewrite (bind_ok _ _ _ dir st1) by by (unfold gets; rewrite Hdir).
  destruct (find_entry_in_dir dir parent nm) as [i|] eqn:Ef.
  - destruct (find_entry_Some sb B dir (view st p) Hsh Hw _ _ _ Ef) as (n & Hi & Hn1 & Hc & He & Hu & Hpe & Hnm & Hnd).
    rewrite (bind_ok (from_option (Some i) (-5)) _ st1 i st1) by done.
    destruct (Z.eqb_spec (used (dir_entry dir i)) LAINFS_ENTRY_DIR) as [Ed|Ed].
    + apply asks_intro; [done|done|done|]. rewrite entry_id_index by done. split; [done|]. right. exists n. split; [done|by apply Hnd].
    + apply asks_intro; [done|done|done|]. right; right. split; [done|]. intros id Hid'.
      assert (id = i + 1) as ->. { apply (Hun id (i + 1) parent (cstr nm)); [by eexists|done]. }
      assert (n = NDir parent (cstr nm)) as -> by (unfold tree_of in Hid'; fold dir in Hid'; congruence).
      apply Ed, Hnd. done.
  - apply asks_intro; [done|done|done|]. right; right. split; [done|]. intros id Hid'.
    apply (find_entry_None dir (view st p) Hsh parent nm id Ef). by eexists.
Qed.

Lemma parent_dir_ok st d p sb B id : ready st d p sb B -> is_u32 id ->
  asks st d p sb B (lainfs_parent_dir d id st) (fun r =>
    match r with
    | inr q => (id = LAINFS_ROOT_DIR /\ q = LAINFS_ROOT_DIR) \/ exists nm, tree_of st p sb id = Some (NDir q nm)
    | inl c => c = -5 /\ ~ t_is_dir (tree_of st p sb) id
    end).
Proof.
  intros Hr Hid. unfold lainfs_parent_dir. rewrite (drive_bind st d p sb B) by done.
  destruct (Z.eqb_spec id LAINFS_ROOT_DIR) as [->|Hne]; [apply asks_intro; [done|apply Hr|done|by left]|].
  apply query_start; [done|cint|done|]. intros st1 Hi1 Hs1 Hdir [?|(n & Hn & Hd)]; [done|].
  apply asks_intro; [done|done|done|]. right. rewrite Hdir.
  destruct (abs_node_entry _ _ (ready_shape _ _ _ _ _ Hr) id n Hn) as (e & He & Ht & _ & _ & Hpar & _).
  destruct n as [q nm|]; [|done]. exists nm. cbn in Hpar. unfold t_id in Ht. rewrite index_from_id by done.
  unfold dir_entry. rewrite He. cbn. rewrite Hn. by rewrite Hpar.
Qed.

(** ** Runs of commands *)

Definition exec (d : Z) (c : cmd) : M (fs S) unit :=
  match c with
  | CMkdir p nm => lainfs_make_dir_in_dir d p nm
  | CDelete p nm => lainfs_delete_in_dir d p nm
  | CRename p a q b => lainfs_rename_in_dir d p a q b
  | CSave p nm buffer size => lainfs_save_file_in_dir d p nm buffer size
  end.

(** Arguments of the right C types. *)
Definition cmd_typed (c : cmd) : Prop :=
  match c with
  | CMkdir p nm | CDelete p nm => is_u32 p /\ bytes nm
  | CRename p a q b => is_u32 p /\ is_u32 q /\ bytes a /\ bytes b
  | CSave p nm buffer size => is_u32 p /\ bytes nm /\ bytes buffer /\ 0 <= size <= Z.of_nat (length buffer)
  end.

Definition out_of_space (c : cmd) (r : Z + unit) : Prop :=
  match c with CSave _ _ _ _ => r = inl (-9) | _ => False end.

Lemma exec_refines st d p sb B c : ready st d p sb B -> cmd_typed c ->
  refines st d p sb B c (exec d c st) \/ out_of_space c (fst (exec d c st)).
Proof.
  intros Hr Hc. destruct c as [q nm|q nm|q a q' b|q nm buffer size]; cbn in *.
  - left. apply make_dir_refines; tauto.
  - left. apply delete_refines; tauto.
  - left. apply rename_refines; tauto.
  - destruct Hc as (H1 & H2 & H3 & H4).
    destruct (save_refines st d p sb B q nm buffer size Hr H2 H1 H3 H4) as [[H _]|(? & ? & _ & _ & _ & _ & _ & _ & ->)]; [by left|by right].
Qed.

(** The codes and the final state of a run. *)
Fixpoint exec_all (d : Z) (cs : list cmd) (st : fs S) : list (Z + unit) * fs S :=
  match cs with
  | [] => ([], st)
  | c :: cs' =>
      let '(r, st1) := exec d c st in
      let '(rs, st2) := exec_all d cs' st1 in (r :: rs, st2)
  end.

Inductive spec_run : tree -> list cmd -> list (Z + unit) -> tree -> Prop :=
| sr_nil t t' : (forall id, t' id = t id) -> spec_run t [] [] t'
| sr_cons t c r t1 t1' cs rs t2 : spec t c (status r) t1 -> (forall id, t1' id = t1 id) ->
    spec_run t1' cs rs t2 -> spec_run t (c :: cs) (r :: rs) t2.

Lemma exec_all_refines d p sb B cs st rs st' : ready st d p sb B -> Forall cmd_typed cs ->
  exec_all d cs st = (rs, st') -> (forall i c r, cs !! i = Some c -> rs !! i = Some r -> ~ out_of_space c r) ->
  ready st' d p sb B /\ others_kept st st' p /\ spec_run (tree_of st p sb) cs rs (tree_of st' p sb).
Proof.
  revert st rs. induction cs as [|c cs IH]; intros st rs Hr Hc H Hs; cbn in H.
  { simplify_eq. split_and!; [done|by apply same_fs_others|by apply sr_nil]. }
  apply Forall_cons_1 in Hc as [Hc Hcs]. destruct (exec d c st) as [r st1] eqn:E1.
  destruct (exec_all d cs st1) as [rs' st2] eqn:E2. simplify_eq.
  destruct (exec_refines st d p sb B c Hr Hc) as [(r' & st1' & t1 & Hrun & Hr1 & Ho & Hsp & Ht)|Hbad].
  - rewrite E1 in Hrun. simplify_eq. destruct (IH st1' rs' Hr1 Hcs E2) as (Hr2 & Ho2 & Hrun2).
    { intros i c' r Hi Hri. apply (Hs (Datatypes.S i) c' r); done. }
    split_and!; [done|by eapply others_kept_trans|]. by eapply sr_cons.
  - exfalso. rewrite E1 in Hbad. by apply (Hs 0%nat c r).
Qed.

Lemma spec_run_unique t cs rs t' : names_unique t -> spec_run t cs rs t' -> names_unique t'.
Proof.
  intros Hu H. induction H as [t t' E|t c r t1 t1' cs rs t2 Hsp E Hrun IH]; [by eapply names_unique_ext|].
  apply IH. eapply names_unique_ext; [exact E|]. by eapply spec_names_unique.
Qed.
End query.
