(* ===== verification/LainfsDemo.v ===== *)
(** Two ways in which lainfs.c loses data, and a concrete machine: one ramdisk with two LainFS partitions, mounted as C
    and D. The theorems about LainFS are applied to it, with storage.c in the
    place of the storage interface. *)
From Stdlib Require Import ZArith Lia.
From stdpp Require Import base tactics option list numbers gmap.
From S2P Require Import Prelude.
From S2P Require Import StorageApi.
From S2P Require Import LainfsLayout.
From S2P Require Import LainfsDir.
From S2P Require Import LainfsState.
From S2P Require Import LainfsCache.
From S2P Require Import LainfsOps.
From S2P Require Import LainfsSpec.
From S2P Require Import LainfsRefine.
From S2P Require Import LainfsFiles.
From S2P Require Import LainfsFormat.
From S2P Require Import Storage.
From S2P Require Import StorageSpec.
#[local] Open Scope Z_scope.

(** * Where LainFS loses data.

    Two defects of kernel/fs/lainfs.c, stated over every storage layer: a
    save that runs out of space leaves a half-made entry in the directory in
    memory, which the next operation takes for a damaged directory and drops
    with every change that was not written back; and formatting a partition
    clears the directory of another partition that is in memory. *)


Section findings.
Context {S : Type} `{!StorageApi S, !StorageLaws S}.
Implicit Types (st : fs S).

(** ** The half-made entry *)

Lemma half_made_not_wf sb B dir i parent : dir_shape dir -> 0 <= i < LAINFS_MAX_FILES ->
  ~ dir_wf sb B (put_entry dir i (new_file_entry parent)).
Proof.
  intros Hd Hi Hw.
  assert (He : put_entry dir i (new_file_entry parent) !! Z.to_nat i = Some (new_file_entry parent)).
  { apply lookup_put; [done|done|]. by left. }
  pose proof (ew_name _ _ _ _ _ (dw_entries _ _ _ Hw _ _ He ltac:(done))) as Hn. done.
Qed.

Lemma read_super_blind p : dir_blind (read_super (S := S) p).
Proof.
  intros dir st. unfold read_super. cbn [super_cache_valid super_cache_partition super_cache set_directory].
  destruct (_ && _); [done|]. change (raw_read_super (set_directory dir st) p) with (raw_read_super st p).
  destruct (raw_read_super st p) as [sb r]. by destruct (r =? 0).
Qed.

(** Opening a drive whose directory in memory does not validate. *)
Lemma open_damaged st p sb B dir dir2 c1 c2 : fs_inv st -> formatted (store st) p sb B -> dir_loaded st p dir ->
  dir_shape dir2 -> ~ dir_wf sb B dir2 ->
  exists st', open_directory p c1 c2 (set_directory dir2 st) = (inl c2, st') /\ store st' = store st /\
    directory_cache_valid st' = false.
Proof.
  intros Hi Hf (Hv & Hp & _) Hsh Hnw. destruct (read_super_ok st p sb B Hi Hf) as (st1 & Hr & Hi1 & Hs1 & _ & _ & _ & _ & Kv & _ & Kp).
  assert (Hst : store st1 = store st).
  { unfold read_super in Hr. destruct (_ && _); [congruence|]. destruct (raw_read_super st p) as [o r].
    destruct (r =? 0); [|done]. injection Hr as _ <-. done. }
  pose proof (read_super_blind p dir2 st) as Hb. rewrite Hr in Hb. cbn [fst snd] in Hb.
  pose proof (validate_directory_None sb B dir2 (fm_width _ _ _ _ Hf) (fm_sb _ _ _ _ Hf) Hsh) as Hval.
  assert (Hpb : part_blocks (bump count_directory_hit (set_directory dir2 st1)) p = Some B).
  { apply (part_blocks_formatted _ p sb B). cbn [store bump set_stats set_directory]. by apply Hs1. }
  eexists. split; [|split].
  - unfold open_directory. rewrite (bind_ok _ _ _ sb (set_directory dir2 st1)) by (unfold or_return; by rewrite Hb).
    unfold load_directory, load_directory_unchecked, or_return, step, mbind, M_bind.
    cbn [directory_cache_valid directory_cache_partition set_directory]. rewrite Kv, Kp, Hv, Hp, Z.eqb_refl. cbn [andb].
    rewrite Hpb. cbn [directory bump set_stats set_directory].
    destruct (validate_directory (Some B) sb dir2) as [v|]; [reflexivity|]. exfalso. by apply Hnw, Hval.
  - exact Hst.
  - done.
Qed.

Lemma save_full_then_next st d p sb B parent nm size r st' parent2 nm2 : ready st d p sb B -> is_u32 parent ->
  left_behind st d p sb B parent nm size (r, st') -> valid_name nm2 = true ->
  exists st'', lainfs_make_dir_in_dir d parent2 nm2 st' = (inl (-4), st'') /\
    dview st'' p sb = disk_directory (store st') p sb.
Proof.
  intros Hr Hp (st1 & i & _ & Hfree & Hi1 & Hs1 & Hl1 & _ & [= -> ->]) Hn. pose proof (ready_shape _ _ _ _ _ Hr) as Hsh.
  destruct (find_free_Some _ (view st p) Hsh i Hfree) as (Hi & _). destruct (new_file_entry_ok parent Hp) as [Hok _].
  set (dir2 := put_entry (dview st p sb) i (new_file_entry parent)).
  destruct (open_damaged st1 p sb B (dview st p sb) dir2 (-3) (-4)) as (st2 & Hopen & Hst & Hinv);
    [done|apply Hs1, Hr|done|by apply put_entry_shape|by apply half_made_not_wf|].
  destruct (rd_mount _ _ _ _ _ Hr) as (m & Hm & Hpm).
  exists st2. split.
  - unfold lainfs_make_dir_in_dir. rewrite (bind_ok _ _ _ p (set_directory dir2 st1)); cycle 1.
    { apply (partition_of_drive_ok _ _ _ _ m); [|done]. rewrite <- Hm. apply (mount_same st). apply Hs1. }
    rewrite (bind_ok (guardb _ _) _ _ tt (set_directory dir2 st1)) by (unfold guardb; by rewrite Hn).
    by rewrite (bind_err _ _ _ _ _ Hopen).
  - unfold dview. rewrite Hinv. cbn [andb]. by rewrite Hst.
Qed.

(** ** Formatting next to a cached directory *)

Lemma flush_if_dirty_keeps st r st' : flush_directory_if_dirty st = (inr r, st') ->
  directory_cache_valid st' = directory_cache_valid st /\ directory_cache_partition st' = directory_cache_partition st.
Proof.
  unfold flush_directory_if_dirty, flush_directory_cache, on_store, or_return, mbind, M_bind, modify. intros H.
  destruct (directory_cache_valid st && directory_cache_dirty st); [|by simplify_eq].
  destruct (_ || _); [by simplify_eq|]. destruct (directory_super st); [|done].
  destruct (api_write_partition _ _ _ _ _) as [[c|a] s1]; [done|]. by simplify_eq.
Qed.

Lemma invalidate_keeps_other p st : directory_cache_partition st <> p ->
  directory_cache_valid (invalidate_partition_cache p st) = directory_cache_valid st /\
  directory_cache_partition (invalidate_partition_cache p st) = directory_cache_partition st.
Proof.
  intros Hne. unfold invalidate_partition_cache. destruct (super_cache_valid st && _); cbn;
    destruct (Z.eqb_spec (directory_cache_partition st) p); try done; rewrite andb_false_r; done.
Qed.

(** The format goes through whatever directory is in memory. *)
Lemma format_returns st p B : fs_inv st -> st_live (store st) p -> part_blocks st p = Some B -> 258 <= B < 2 ^ 32 ->
  api_partition_is_writable (store st) p = true -> exists st', format_partition_index p st = (inr tt, st').
Proof.
  intros Hi Hl Hb HB Hwr. unfold format_partition_index.
  rewrite (bind_ok _ _ _ (Some B) st) by (unfold gets; by rewrite Hb). rewrite (bind_ok (from_option (Some B) _) _ st B st) by done.
  rewrite (proj2 (Z.leb_le 64 B)) by lia. rewrite (bind_ok (guardb true _) _ st tt st) by done.
  rewrite (bind_ok _ _ _ true st) by (unfold gets; by rewrite Hwr). rewrite (bind_ok (guardb true _) _ st tt st) by done.
  destruct (flush_directory_if_dirty_ok st Hi) as (st1 & Hr1 & Hi1 & Hs1 & _).
  rewrite (bind_ok _ _ _ tt st1) by (unfold or_return; by rewrite Hr1).
  rewrite (bind_ok (modify _) _ st1 tt (invalidate_partition_cache p st1)) by done.
  pose proof (invalidate_inv p st1 Hi1) as Hi2. destruct (invalidate_slots p st1) as (_ & Hst & _).
  set (sta := invalidate_partition_cache p st1) in *. unfold part_blocks in Hb. apply fmap_Some in Hb as (part & Hg & ->).
  destruct (format_writes (store sta) p part) as (s1 & s2 & W1 & W2 & _); [apply Hi2|apply Hi2|..|exact HB|].
  { rewrite Hst. by apply (sf_live _ _ Hs1). }
  { rewrite Hst. by rewrite (proj1 (sf_tables _ _ Hs1)). }
  rewrite (bind_ok _ _ _ tt (set_store s1 sta)) by (unfold or_return, on_store; by rewrite W1).
  rewrite (bind_ok (modify _) _ _ tt (set_directory empty_directory (set_store s1 sta))) by done.
  eexists. rewrite (bind_ok _ _ _ tt (set_directory empty_directory (set_store s2 sta))); [done|].
  unfold or_return, on_store. cbn [directory store set_directory set_store].
  change (sb_dir_start_lba format_super) with 1. change (sb_dir_blocks format_super) with 256. by rewrite W2.
Qed.

Lemma format_clears_other st p q st' sb : format_partition_index p st = (inr tt, st') ->
  directory_cache_valid st = true -> directory_cache_partition st = q -> q <> p ->
  dview st' q sb = empty_directory.
Proof.
  intros H Hv Hq Hne. unfold format_partition_index in H.
  apply bind_inr in H as (blocks & s1 & E1 & H). unfold gets in E1. injection E1 as <- <-.
  apply bind_inr in H as (B & s2 & E2 & H). apply from_option_inr in E2 as [_ ->].
  apply bind_inr in H as ([] & s3 & E3 & H). apply guardb_inr in E3 as [_ ->].
  apply bind_inr in H as (w & s4 & E4 & H). unfold gets in E4. injection E4 as <- <-.
  apply bind_inr in H as ([] & s5 & E5 & H). apply guardb_inr in E5 as [_ ->].
  apply bind_inr in H as ([] & s6 & E6 & H). apply or_return_inr, flush_if_dirty_keeps in E6 as [V6 P6].
  apply bind_inr in H as ([] & s7 & E7 & H). unfold modify in E7. injection E7 as <-.
  destruct (invalidate_keeps_other p s6) as [V7 P7]; [congruence|].
  apply bind_inr in H as ([] & s8 & E8 & H). apply or_return_inr in E8. unfold on_store in E8.
  destruct (api_write_partition _ _ _ _ _) as [r8 t8]. injection E8 as _ <-.
  apply bind_inr in H as ([] & s9 & E9 & H). unfold modify in E9. injection E9 as <-.
  apply bind_inr in H as ([] & s10 & E10 & H). apply or_return_inr in E10. unfold on_store in E10.
  destruct (api_write_partition _ _ _ _ _) as [r10 t10]. injection E10 as _ <-.
  apply bind_inr in H as ([] & s11 & E11 & H). unfold modify in E11, H. injection E11 as <-. injection H as <-.
  match goal with |- dview (invalidate_partition_cache p ?st1) q sb = _ => set (stx := st1) end.
  assert (Pq : directory_cache_partition stx = q) by exact (eq_trans P7 (eq_trans P6 Hq)).
  destruct (invalidate_keeps_other p stx) as [V P]; [congruence|].
  destruct (invalidate_slots p stx) as (_ & _ & D).
  apply dview_loaded. split_and!; [rewrite V; exact (eq_trans V7 (eq_trans V6 Hv))|congruence|by rewrite D].
Qed.
End findings.

(** * A machine *)


(** Partition 0 has [B] blocks from block 2048 on, partition 1 has 300 blocks
    from block 500000 on. *)
Definition demo_partition (start blocks : Z) : partition :=
  Partition true (replicate 12 0) 0 1 start blocks 0x99 (replicate 8 0).

Definition demo_mount (letter p : Z) : mount := Mount true letter p (replicate 12 0) (replicate 8 0).

Definition demo_storage (B : Z) : storage unit :=
  Storage [BlockDevice true (replicate 8 0) 512 RAMDISK_BLOCKS (Some drv_ramdisk) (Some drv_ramdisk) 0]
    [demo_partition 2048 B; demo_partition 500000 300]
    [zero_mount; zero_mount; demo_mount 67 0; demo_mount 68 1]
    1 2
    (Ramdisk zero_sector {[2048 := bytes_of_superblock format_super; 500000 := bytes_of_superblock format_super]}) tt.

Definition demo_slot : cache_slot := CacheSlot false false 0 0 0 [].

(** After boot, with the empty directory of C just loaded and changed. *)
Definition demo (B : Z) : fs (storage unit) :=
  Fs empty_directory format_super false 0 true true 0 (replicate 16 demo_slot) 0 (CacheStats 0 0 0 0 0 0 0) (demo_storage B).

Lemma demo_live B p : 258 <= B <= 400000 -> part_live (demo_storage B) p <-> p = 0 \/ p = 1.
Proof.
  intros HB. split.
  - intros (part & d & Hg & Hd). cbv zeta in Hd. destruct Hd as (_ & _ & _ & _ & _ & _ & _ & Hp). apply partition_in_table in Hg as (Hlt & _).
    cbn in Hlt. lia.
  - intros [->| ->]; eexists _, drv_ramdisk; (split; [reflexivity|]); cbn -[Z.pow Z.add]; change (2 ^ 63) with 9223372036854775808; unfold RAMDISK_BLOCKS;
    change (partition_at (demo_storage B) 0) with (demo_partition 2048 B); cbn [pt_start_lba pt_block_count demo_partition];
    split_and!; (done || lia).
Qed.

Lemma demo_apart B : 258 <= B <= 400000 -> apart (demo_storage B).
Proof.
  intros HB p q Hp Hq Hne. apply demo_live in Hp, Hq; [|done..].
  destruct Hp as [->| ->], Hq as [->| ->]; try done; right; [left|right];
    change (partition_at (demo_storage B) 0) with (demo_partition 2048 B);
    change (partition_at (demo_storage B) 1) with (demo_partition 500000 300); cbn [pt_start_lba pt_block_count demo_partition]; lia.
Qed.

Lemma demo_formatted B : 258 <= B <= 400000 -> formatted (demo_storage B) 0 format_super B.
Proof.
  intros HB. destruct format_super_good as [Hg Hok]. split; [apply demo_live; auto|done| |vm_compute; reflexivity|done|apply format_layout; lia|done].
  change (2 ^ 32) with 4294967296. lia.
Qed.

Lemma demo_formatted_1 B : 258 <= B <= 400000 -> formatted (demo_storage B) 1 format_super 300.
Proof.
  intros HB. destruct format_super_good as [Hg Hok]. split; [apply demo_live; auto|done|done|vm_compute; reflexivity|done|apply format_layout; lia|done].
Qed.

Lemma demo_media B : media_ok (demo_storage B).
Proof.
  split; [|done]. split; [apply zero_sector_ok|]. cbn. destruct format_super_bytes as [H1 H2].
  apply map_Forall_insert_2; [done|]. by apply map_Forall_singleton.
Qed.

Lemma demo_inv B : 258 <= B <= 400000 -> fs_inv (demo B).
Proof.
  intros HB. split; cbn.
  - apply demo_media.
  - by apply demo_apart.
  - done.
  - intros i c Hc Hv. apply (lookup_replicate_1 16) in Hc as [-> _]. done.
  - intros i j c t p l Hc Ht (Hv & _) _. apply (lookup_replicate_1 16) in Hc as [-> _]. done.
  - done.
  - intros _. split; [apply empty_directory_shape|]. exists format_super, B. split; [by apply demo_formatted|done].
Qed.

Lemma demo_ready B : 258 <= B <= 400000 -> ready (demo B) 67 0 format_super B.
Proof.
  intros HB. split; [by apply demo_inv|by eexists|by apply demo_formatted|].
  change (dview (demo B) 0 format_super) with empty_directory. apply empty_directory_wf, format_layout. lia.
Qed.

Lemma demo_tree B id : tree_of (demo B) 0 format_super id = None.
Proof.
  unfold tree_of. change (dview (demo B) 0 format_super) with empty_directory. unfold abs_tree.
  destruct (decide _); [|done]. by rewrite empty_directory_entry.
Qed.

Lemma demo_names B : names_unique (tree_of (demo B) 0 format_super).
Proof. intros i j p nm (n & Hn & _) _. by rewrite demo_tree in Hn. Qed.
