(* ===== verification/LainfsTheorems.v ===== *)
(** The theorems about LainFS, for any storage layer that keeps the laws of
    [StorageLaws]; the witnesses apply them to the machine of LainfsDemo. *)
From Stdlib Require Import ZArith Lia.
From stdpp Require Import base tactics option list numbers.
From S2P Require Import Prelude.
From S2P Require Import StorageApi.
From S2P Require Import Storage.
From S2P Require Import StorageSpec.
From S2P Require Import LainfsLayout.
From S2P Require Import LainfsDir.
From S2P Require Import LainfsAlloc.
From S2P Require Import LainfsState.
From S2P Require Import LainfsCache.
From S2P Require Import LainfsOps.
From S2P Require Import LainfsSpec.
From S2P Require Import LainfsRefine.
From S2P Require Import LainfsFiles.
From S2P Require Import LainfsAdmin.
From S2P Require Import LainfsFormat.
From S2P Require Import LainfsQuery.
From S2P Require Import LainfsDemo.
#[local] Open Scope Z_scope.

(** ** Facts about the machine of LainfsDemo *)

(** The name "A". *)
Definition name_a : list Z := [65; 0].
Definition name_b : list Z := [66; 0].

Lemma bytes_of_small l : forallb (fun x => (0 <=? x) && (x <? 256)) l = true -> bytes l.
Proof.
  intros H. apply Forall_forall. intros x Hx. rewrite forallb_forall in H. specialize (H x Hx). bool_prop. unfold is_u8. lia.
Qed.

Lemma demo_300 : ready (demo 300) 67 0 format_super 300.
Proof. apply demo_ready. lia. Qed.

Lemma demo_258 : ready (demo 258) 67 0 format_super 258.
Proof. apply demo_ready. lia. Qed.

Lemma demo_mounted : mounted (demo 300) 67 0 format_super 300.
Proof. apply ready_mounted, demo_300. Qed.

Lemma demo_no_child B parent nm id : ~ t_child (tree_of (demo B) 0 format_super) parent nm id.
Proof. intros (n & Hn & _). by rewrite demo_tree in Hn. Qed.

Lemma empty_unused b : block_unused empty_directory (-1) b.
Proof. intros j e xs x _ He Hu. apply lookup_replicate_1 in He as [-> _]. done. Qed.

Lemma demo_room : ~ no_room format_super 300 (dview (demo 300) 0 format_super) 5.
Proof.
  change (dview (demo 300) 0 format_super) with empty_directory. intros H.
  apply (H 257); [vm_compute; congruence|vm_compute; congruence|]. intros b _. apply empty_unused.
Qed.

Lemma demo_saves : exists r st', lainfs_save_file_in_dir 67 0 name_a (replicate 10 7) 5 (demo 300) = (r, st') /\ status r = 0.
Proof.
  apply (save_succeeds _ _ 0 format_super 300); [apply demo_300|by apply bytes_of_small|by split|by apply bytes_of_small| |done|done|by left| |..].
  - rewrite length_replicate. lia.
  - intros id n H. by apply demo_no_child in H.
  - exists 1. right. split; [by split|apply demo_tree].
  - apply demo_room.
Qed.

(** ** Commands *)

(** C1: running any list of commands (make directory, delete, rename, save)
    on a mounted file system in good order leaves it in good order, the
    other partitions untouched, and answers and changes the directory tree
    exactly as the tree specification says, as long as no save runs out of
    space; and names stay unique in their directory. *)
Theorem fs_run_refines {S} `{!StorageApi S, !StorageLaws S} (st : fs S) d p sb B cs rs st' :
  ready st d p sb B -> Forall cmd_typed cs -> names_unique (tree_of st p sb) -> exec_all d cs st = (rs, st') ->
  (forall i c r, cs !! i = Some c -> rs !! i = Some r -> ~ out_of_space c r) ->
  ready st' d p sb B /\ others_kept st st' p /\ spec_run (tree_of st p sb) cs rs (tree_of st' p sb) /\
  names_unique (tree_of st' p sb).
Proof.
  intros Hr Hc Hn He Ho. destruct (exec_all_refines d p sb B cs st rs st' Hr Hc He Ho) as (H1 & H2 & H3).
  split_and!; [done|done|done|]. by eapply spec_run_unique.
Qed.

Lemma fs_run_refines_witness :
  let cs := [CMkdir 0 name_a; CRename 0 name_a 0 name_b; CDelete 0 name_a] in
  spec_run (tree_of (demo 300) 0 format_super) cs (fst (exec_all 67 cs (demo 300))) (tree_of (snd (exec_all 67 cs (demo 300))) 0 format_super).
Proof.
  intros cs. destruct (fs_run_refines (demo 300) 67 0 format_super 300 cs (fst (exec_all 67 cs (demo 300))) (snd (exec_all 67 cs (demo 300))))
    as (_ & _ & H & _); [apply demo_300| |apply demo_names|apply surjective_pairing| |exact H].
  - unfold cs. repeat apply Forall_cons_2; try apply Forall_nil_2; cbn; split_and!; first [by split|by apply bytes_of_small].
  - intros [|[|[|i]]] c r [= <-] _; intros H; exact H.
Defined.

(** C2: a file that was saved is read back: whenever a save returns 0, a load
    of the same name returns the same size, the first [size] bytes of the
    saved buffer, and leaves the rest of the caller's buffer alone. *)
Theorem save_load_roundtrip {S} `{!StorageApi S, !StorageLaws S} (st : fs S) d p sb B parent nm buffer size rbuf r st1 :
  ready st d p sb B -> names_unique (tree_of st p sb) -> bytes nm -> is_u32 parent -> bytes buffer ->
  0 <= size <= Z.of_nat (length buffer) ->
  lainfs_save_file_in_dir d parent nm buffer size st = (r, st1) -> status r = 0 ->
  size <= Z.of_nat (length rbuf) -> rbuf <> [] ->
  exists buf' st2, lainfs_load_file_in_dir d parent nm rbuf st1 = (inr (buf', size), st2) /\
    take (Z.to_nat size) buf' = take (Z.to_nat size) buffer /\
    drop (Z.to_nat size) buf' = drop (Z.to_nat size) rbuf /\ ready st2 d p sb B.
Proof. apply save_load. Qed.

Lemma save_load_roundtrip_witness : exists st1 buf' st2,
  snd (lainfs_save_file_in_dir 67 0 name_a (replicate 10 7) 5 (demo 300)) = st1 /\
  lainfs_load_file_in_dir 67 0 name_a (replicate 8 1) st1 = (inr (buf', 5), st2) /\
  take 5 buf' = [7; 7; 7; 7; 7] /\ drop 5 buf' = [1; 1; 1].
Proof.
  destruct demo_saves as (r & st1 & Hrun & Hz). rewrite Hrun.
  destruct (save_load_roundtrip (demo 300) 67 0 format_super 300 0 name_a (replicate 10 7) 5 (replicate 8 1) r st1)
    as (buf' & st2 & H1 & H2 & H3 & _);
    [apply demo_300|apply demo_names|by apply bytes_of_small|by split|by apply bytes_of_small
    |rewrite length_replicate; lia|exact Hrun|exact Hz|rewrite length_replicate; lia|done|].
  exists st1, buf', st2. split; [reflexivity|]. split; [exact H1|]. split; [exact H2|exact H3].
Defined.

(** Each command, whatever its arguments, returns and either behaves as
    the tree specification says (every error code included) or is a save
    that ran out of space. *)
Theorem command_refines {S} `{!StorageApi S, !StorageLaws S} (st : fs S) d p sb B c :
  ready st d p sb B -> cmd_typed c ->
  refines st d p sb B c (exec d c st) \/ out_of_space c (fst (exec d c st)).
Proof. apply exec_refines. Qed.

Lemma command_refines_witness :
  refines (demo 300) 67 0 format_super 300 (CRename 0 name_a 0 name_b) (lainfs_rename_in_dir 67 0 name_a 0 name_b (demo 300)).
Proof.
  destruct (command_refines (demo 300) 67 0 format_super 300 (CRename 0 name_a 0 name_b)) as [H|H]; [apply demo_300| |exact H|destruct H].
  cbn. split_and!; first [by split|by apply bytes_of_small].
Defined.

(** C3: saving a file: it behaves as the specification says, gives up an
    overwrite with -9 only when no run of free blocks is long enough,
    succeeds only when the blocks fit the data area; or the name is new, no
    run is long enough, the code is -9 and a half-made entry is left in the
    directory in memory. *)
Theorem save_file_refines {S} `{!StorageApi S, !StorageLaws S} (st : fs S) d p sb B parent nm buffer size :
  ready st d p sb B -> bytes nm -> is_u32 parent -> bytes buffer -> 0 <= size <= Z.of_nat (length buffer) ->
  let run := lainfs_save_file_in_dir d parent nm buffer size st in
  saves st d p sb B parent nm buffer size run \/ left_behind st d p sb B parent nm size run.
Proof. apply save_refines. Qed.

Lemma save_file_refines_witness : let run := lainfs_save_file_in_dir 67 0 name_a [1; 2; 3] 3 (demo 300) in
  saves (demo 300) 67 0 format_super 300 0 name_a [1; 2; 3] 3 run \/ left_behind (demo 300) 67 0 format_super 300 0 name_a 3 run.
Proof.
  apply (save_file_refines (demo 300) 67 0 format_super 300 0 name_a [1; 2; 3] 3);
    [apply demo_300|by apply bytes_of_small|by split|by apply bytes_of_small|cbn; lia].
Defined.

(** A save with good arguments returns 0 when the parent is a directory,
    the name is new or a file's, an entry is there for it and some run of
    free blocks is long enough. *)
Theorem save_goes_through {S} `{!StorageApi S, !StorageLaws S} (st : fs S) d p sb B parent nm buffer size :
  ready st d p sb B -> bytes nm -> is_u32 parent -> bytes buffer -> 0 <= size <= Z.of_nat (length buffer) ->
  size <= LAINFS_FILE_CAPACITY -> valid_name nm = true ->
  let t := tree_of st p sb in
  t_is_dir t parent -> (forall id n, t_child t parent (cstr nm) id -> t id = Some n -> nd_is_dir n = false) ->
  (exists id, t_child t parent (cstr nm) id \/ (t_id id /\ t id = None)) -> ~ no_room sb B (dview st p sb) size ->
  exists r st', lainfs_save_file_in_dir d parent nm buffer size st = (r, st') /\ status r = 0.
Proof. apply save_succeeds. Qed.

Lemma save_goes_through_witness : status (fst (lainfs_save_file_in_dir 67 0 name_b (replicate 10 9) 5 (demo 300))) = 0.
Proof.
  destruct (save_goes_through (demo 300) 67 0 format_super 300 0 name_b (replicate 10 9) 5) as (r & st' & H & Hz);
    [apply demo_300|by apply bytes_of_small|by split|by apply bytes_of_small|rewrite length_replicate; lia|done|done|by left| | | |].
  - intros id n H. by apply demo_no_child in H.
  - exists 1. right. split; [by split|apply demo_tree].
  - apply demo_room.
  - rewrite H. exact Hz.
Defined.

(** Loading a file: the result is the content of the file with that name
    in that directory and its size, with the rest of the buffer untouched; or
    the code says which condition failed. Nothing changes. *)
Theorem load_file_spec {S} `{!StorageApi S, !StorageLaws S} (st : fs S) d p sb B parent nm buffer :
  ready st d p sb B -> is_u32 parent ->
  exists r st', lainfs_load_file_in_dir d parent nm buffer st = (r, st') /\ ready st' d p sb B /\ same_fs st st' /\
    load_spec (tree_of st p sb) parent nm buffer r.
Proof. apply load_refines. Qed.

Lemma load_file_spec_witness : exists r st', lainfs_load_file_in_dir 67 0 name_a [0; 0] (demo 300) = (r, st') /\
  load_spec (tree_of (demo 300) 0 format_super) 0 name_a [0; 0] r.
Proof.
  destruct (load_file_spec (demo 300) 67 0 format_super 300 0 name_a [0; 0]) as (r & st' & H1 & _ & _ & H2);
    [apply demo_300|by split|]. exists r, st'. split; [exact H1|exact H2].
Defined.

(** ** Caches *)

(** C4: the block cache is transparent. Reading a data block gives what the
    file system last wrote there, whatever was evicted to make room, and
    changes nothing a later read could see; writing one changes that block
    and no other block or directory of any partition. *)
Theorem cache_transparent {S} `{!StorageApi S, !StorageLaws S} (st : fs S) p sb B lba d :
  fs_inv st -> formatted (store st) p sb B -> sb_data_start_lba sb <= lba < B -> length d = 512%nat -> bytes d ->
  (exists st', cached_read_block p lba st = (inr (view st p lba), st') /\ fs_inv st' /\ same_fs st st' /\ caches_kept st st') /\
  (exists st', cached_write_block p lba d st = (inr tt, st') /\ fs_inv st' /\ caches_kept st st' /\
    same_tables (store st) (store st') /\
    (forall q sbq Bq, formatted (store st) q sbq Bq -> formatted (store st') q sbq Bq) /\
    (forall q sbq Bq l, formatted (store st) q sbq Bq -> sb_data_start_lba sbq <= l < Bq ->
       view st' q l = if decide (q = p /\ l = lba) then d else view st q l) /\
    (forall q sbq Bq, formatted (store st) q sbq Bq -> dview st' q sbq = dview st q sbq)).
Proof. intros Hi Hf Hl Hd Hb. split; [by eapply cached_read_block_ok|by eapply cached_write_block_ok]. Qed.

Lemma cache_transparent_witness : exists st', cached_write_block 0 260 (replicate 512 9) (demo 300) = (inr tt, st') /\
  view st' 0 260 = replicate 512 9 /\ view st' 1 260 = view (demo 300) 1 260.
Proof.
  destruct (cache_transparent (demo 300) 0 format_super 300 260 (replicate 512 9)) as [_ (st' & H1 & _ & _ & _ & _ & H2 & _)];
    [apply demo_300|apply demo_300|vm_compute; split; congruence|apply length_replicate|by apply bytes_of_small|].
  exists st'. split; [exact H1|]. split.
  - rewrite (H2 0 format_super 300); [reflexivity|apply demo_300|vm_compute; split; congruence].
  - rewrite (H2 1 format_super 300); [reflexivity|apply demo_formatted_1; lia|vm_compute; split; congruence].
Defined.

(** C5: flushing writes dirty blocks and directories back: afterwards the disk
    of the partition, or of every partition, holds what the file system
    shows, and the file system shows what it did before. *)
Theorem flush_syncs {S} `{!StorageApi S, !StorageLaws S} (st : fs S) p : fs_inv st ->
  (exists st', flush_partition_cache p st = (inr tt, st') /\ fs_inv st' /\ same_fs st st' /\
     (forall sb B, formatted (store st) p sb B -> synced st' p sb B)) /\
  (exists st', lainfs_flush_all st = (inr tt, st') /\ fs_inv st' /\ same_fs st st' /\
     (forall q sb B, formatted (store st) q sb B -> synced st' q sb B)).
Proof. intros Hi. split; [by apply flush_partition_cache_ok|by apply flush_all_ok]. Qed.

Lemma flush_syncs_witness : exists st', lainfs_flush_all (demo 300) = (inr tt, st') /\
  synced st' 0 format_super 300 /\ synced st' 1 format_super 300.
Proof.
  destruct (flush_syncs (demo 300) 0) as [_ (st' & H1 & _ & _ & H2)]; [apply demo_300|].
  exists st'. split; [exact H1|]. split; [apply H2, demo_300|apply H2, demo_formatted_1; lia].
Defined.

(** ** Checking, repairing, formatting *)

(** C6: on a partition of fewer than 2^32 blocks the directory check is
    exact: it reports no failure just when the layout, names, parents,
    extents and the tree shape are all good, that is, on well-formed
    directories and on no others. The directory is any table of 2048 entries,
    the superblock any eight 32-bit words. From 2^32 blocks on the overlap test
    wraps and misses overlapping extents, see [ranges_overlap_wraps]. *)
Theorem validate_directory_exact sb B dir : B < 2 ^ 32 -> superblock_ok sb -> dir_shape dir ->
  validate_directory (Some B) sb dir = None <-> dir_wf sb B dir.
Proof. apply validate_directory_None. Qed.

Lemma validate_directory_exact_witness : validate_directory (Some 300) format_super empty_directory = None.
Proof.
  apply (validate_directory_exact format_super 300 empty_directory);
    [reflexivity|apply format_super_good|apply empty_directory_shape|apply empty_directory_wf, format_layout; lia].
Defined.

(** The check command returns 0 on a mounted partition just when its
    directory is well formed, else -1 with the first failure, and changes
    nothing. *)
Theorem check_is_exact {S} `{!StorageApi S, !StorageLaws S} (st : fs S) d p sb B : mounted st d p sb B ->
  exists code reason id st', lainfs_check d st = (code, reason, id, st') /\ mounted st' d p sb B /\ same_fs st st' /\
    ((code = 0 /\ reason = LAINFS_CHECK_OK /\ dir_wf sb B (dview st p sb)) \/
     (code = -1 /\ validate_directory (Some B) sb (dview st p sb) = Some (reason, id) /\ ~ dir_wf sb B (dview st p sb))).
Proof. apply check_decides. Qed.

Lemma check_is_exact_witness : exists reason id st', lainfs_check 67 (demo 300) = (0, reason, id, st').
Proof.
  destruct (check_is_exact (demo 300) 67 0 format_super 300) as (code & reason & id & st' & H1 & _ & _ & H2); [apply demo_mounted|].
  destruct H2 as [(-> & _)|(_ & _ & Hn)]; [|exfalso; apply Hn, demo_300]. exists reason, id, st'. exact H1.
Defined.

(** C7: repair always ends; it touches no other partition, no data block and
    no entry's kind or name; and when it reports success the directory is
    well formed and on the disk. *)
Theorem repair_terminates {S} `{!StorageApi S, !StorageLaws S} (st : fs S) d p sb B : mounted st d p sb B ->
  exists rep st', lainfs_repair d st = Some (rep, st') /\ repaired st st' d p sb B rep.
Proof. apply repair_ok. Qed.

Lemma repair_terminates_witness : exists rep st', lainfs_repair 67 (demo 300) = Some (rep, st') /\
  repaired (demo 300) st' 67 0 format_super 300 rep.
Proof. apply (repair_terminates (demo 300) 67 0 format_super 300), demo_mounted. Defined.

(** Formatting a writable partition of at least 258 blocks returns 0 and
    leaves an empty well-formed file system there, nothing of it in any
    cache, and the other partitions as they were, when the directory in
    memory is not another partition's. *)
Theorem format_makes_empty {S} `{!StorageApi S, !StorageLaws S} (st : fs S) p B :
  fs_inv st -> st_live (store st) p -> part_blocks st p = Some B -> 258 <= B < 2 ^ 32 ->
  api_partition_is_writable (store st) p = true ->
  (directory_cache_valid st = true -> directory_cache_partition st = p) ->
  exists st2, format_partition_index p st =
      (inr tt, invalidate_partition_cache p (set_store (api_discover_partitions (store st2)) st2)) /\
    fs_inv st2 /\ formatted (store st2) p format_super B /\ dview st2 p format_super = empty_directory /\
    dir_wf format_super B (dview st2 p format_super) /\ forgotten st2 p /\ rest_kept st st2 p.
Proof.
  intros H1 H2 H3 H4 H5 H6. destruct (format_ok st p B H1 H2 H3 H4 H5 H6) as (st2 & F1 & F2 & F3 & F4 & F5 & F6).
  exists st2. split_and!; [exact F1|exact F2|exact F3|exact F4| |exact F5|exact F6]. rewrite F4. apply empty_directory_wf, F3.
Qed.

Lemma format_makes_empty_witness : exists st', format_partition_index 0 (demo 300) = (inr tt, st').
Proof.
  destruct (format_makes_empty (demo 300) 0 300) as (st2 & H & _);
    [apply demo_300|apply demo_live; [lia|by left]|reflexivity|by split|reflexivity|by intros _|]. eexists. exact H.
Defined.

(** ** Blocks *)





(** What is written to disk is read back: the extents of a directory
    entry, the 256 directory blocks and the superblock; and any 131072 bytes
    are the image of what they decode to. *)
Theorem disk_formats_roundtrip e xs dir bs sb : dirent_ok e -> 0 <= byte_size e <= LAINFS_FILE_CAPACITY ->
  extents_fit (allocated_blocks_for_entry e) xs ->
  dir_shape dir -> bytes bs -> Z.of_nat (length bs) = 131072 -> superblock_ok sb ->
  entry_extents (set_entry_extents e xs) = Some xs /\
  directory_of_bytes (bytes_of_directory dir) = dir /\ bytes_of_directory (directory_of_bytes bs) = bs /\
  dir_shape (directory_of_bytes bs) /\ superblock_of_bytes (bytes_of_superblock sb) = sb.
Proof.
  intros He Hz Hx [H1 H2] H3 H4 H5. split; [by apply set_entry_extents_read|]. split; [by apply directory_of_bytes_of|]. split; [by apply bytes_of_directory_of|].
  split; [by apply directory_of_bytes_ok|by apply superblock_of_bytes_of].
Qed.

Lemma disk_formats_roundtrip_witness : directory_of_bytes (bytes_of_directory empty_directory) = empty_directory /\
  entry_extents (set_entry_extents (set_byte_size zero_dirent 1500) [Extent 400 1; Extent 300 2]) = Some [Extent 400 1; Extent 300 2].
Proof.
  destruct (bytes_of_directory_ok empty_directory (proj1 empty_directory_shape) (proj2 empty_directory_shape)) as [H1 H2].
  destruct (disk_formats_roundtrip (set_byte_size zero_dirent 1500) [Extent 400 1; Extent 300 2] empty_directory (bytes_of_directory empty_directory) format_super)
    as (E1 & E2 & _);
    [apply set_byte_size_ok; [by split|apply zero_dirent_ok]|by split| |apply empty_directory_shape|exact H2|exact H1|apply format_super_good|split; [exact E2|exact E1]].
  split; [cbn; lia| |reflexivity]. repeat apply Forall_cons_2; try apply Forall_nil_2; by split.
Defined.

(** ** The tree of directories *)

(** The root with one directory in it. *)
Definition one_dir : list dirent := put_entry empty_directory 0 (new_dir_entry name_a 0).

Lemma one_dir_wf : dir_shape one_dir /\ dir_wf format_super 300 one_dir.
Proof.
  split.
  - apply put_entry_shape; [apply empty_directory_shape|]. by apply new_dir_entry_ok; [|apply bytes_of_small|split].
  - apply new_dir_wf; [apply empty_directory_shape|apply empty_directory_wf, format_layout; lia|by split| |done|by apply bytes_of_small|by split|done].
    by rewrite empty_directory_entry.
Qed.

Lemma one_dir_entry : dir_entry one_dir 0 = new_dir_entry name_a 0.
Proof. apply dir_entry_put_eq; [apply empty_directory_shape|by split]. Qed.

Lemma one_dir_rooted : rooted one_dir 1 1.
Proof. apply rooted_step; [by split|change (1 - 1) with 0; by rewrite one_dir_entry|]. change (1 - 1) with 0. rewrite one_dir_entry. apply rooted_root. Qed.

(** The walks up the tree are exact. On directories whose parent links
    point at directories the cycle search finds no cycle from a directory
    just when its parents lead to the root (in at most 2049 steps); and on
    well-formed ones the walk that keeps a directory from being moved below
    itself answers whether one is below the other. *)
Theorem tree_walks_exact sb B dir id : dir_shape dir ->
  (forall i e, dir !! i = Some e -> used e = LAINFS_ENTRY_DIR -> parent_wf dir (Z.of_nat i + 1) e) ->
  1 <= id <= LAINFS_MAX_FILES -> used (dir_entry dir (id - 1)) = LAINFS_ENTRY_DIR ->
  (find_directory_parent_cycle dir id = None <-> exists n, (n <= 2049)%nat /\ rooted dir n id) /\
  (dir_wf sb B dir -> forall n ancestor, rooted dir n id -> dir_is_descendant_of dir id ancestor = true <-> below dir ancestor id).
Proof.
  intros Hd Hp Hid Hu. split.
  - split; [by apply find_cycle_none|]. intros (n & _ & Hn). by apply (find_cycle_rooted dir id n).
  - intros Hw n ancestor. by apply (is_descendant_spec sb B).
Qed.

Lemma tree_walks_exact_witness : find_directory_parent_cycle one_dir 1 = None /\ dir_is_descendant_of one_dir 1 1 = true.
Proof.
  destruct one_dir_wf as [Hs Hw]. destruct (tree_walks_exact format_super 300 one_dir 1) as [H1 H2]; [exact Hs| |by split|change (1 - 1) with 0; by rewrite one_dir_entry|].
  - intros i e He Hu. apply (ew_parent _ _ _ _ _ (dw_entries _ _ _ Hw i e He ltac:(rewrite Hu; done))).
  - split; [apply H1; exists 1%nat; split; [lia|apply one_dir_rooted]|]. apply (H2 Hw 1%nat 1); [apply one_dir_rooted|apply below_self].
Defined.

(** ** Queries *)

(** The queries answer from the tree, with the error code of the
    condition that failed, and change nothing: a directory by name, the
    parent of a directory, the number of children, and child [k], the [k]-th
    by identifier, with its name cut to the caller's buffer, its kind and
    its size. *)
Theorem queries_exact {S} `{!StorageApi S, !StorageLaws S} (st : fs S) d p sb B parent nm id k out :
  ready st d p sb B -> is_u32 parent -> is_u32 id -> names_unique (tree_of st p sb) -> 0 <= k -> out <> [] ->
  asks st d p sb B (lainfs_find_dir d parent nm st) (fun r =>
    match r with
    | inr id => t_child (tree_of st p sb) parent (cstr nm) id /\ t_is_dir (tree_of st p sb) id
    | inl c => (c = -2 /\ valid_name nm = false) \/ (c = -7 /\ ~ t_is_dir (tree_of st p sb) parent) \/
               (c = -5 /\ forall id, tree_of st p sb id <> Some (NDir parent (cstr nm)))
    end) /\
  asks st d p sb B (lainfs_parent_dir d id st) (fun r =>
    match r with
    | inr q => (id = LAINFS_ROOT_DIR /\ q = LAINFS_ROOT_DIR) \/ exists nm, tree_of st p sb id = Some (NDir q nm)
    | inl c => c = -5 /\ ~ t_is_dir (tree_of st p sb) id
    end) /\
  asks st d p sb B (lainfs_child_count d parent st) (fun r =>
    match r with
    | inr n => t_is_dir (tree_of st p sb) parent /\ n = Z.of_nat (length (t_children (tree_of st p sb) parent))
    | inl c => c = -5 /\ ~ t_is_dir (tree_of st p sb) parent
    end) /\
  asks st d p sb B (lainfs_child_info d parent k out st) (fun r =>
    match r with
    | inr (nm, ty, size) => exists id n, t_children (tree_of st p sb) parent !! Z.to_nat k = Some id /\
        tree_of st p sb id = Some n /\ nm = copy_str out (nd_name n) (length out) /\
        ty = (if nd_is_dir n then LAINFS_ENTRY_DIR else LAINFS_ENTRY_FILE) /\
        size = match n with NDir _ _ => 0 | NFile _ _ content => Z.of_nat (length content) end
    | inl c => (c = -5 /\ ~ t_is_dir (tree_of st p sb) parent) \/
               (c = -6 /\ Z.of_nat (length (t_children (tree_of st p sb) parent)) <= k)
    end).
Proof.
  intros Hr Hp Hi Hn Hk Ho. split; [by apply find_dir_ok|]. split; [by apply parent_dir_ok|]. split; [by apply child_count_ok|by apply child_info_ok].
Qed.

Lemma queries_exact_witness : exists st', lainfs_child_info 67 0 0 [0; 0] (demo 300) = (inl (-6), st').
Proof.
  destruct (queries_exact (demo 300) 67 0 format_super 300 0 name_a 0 0 [0; 0]) as (_ & _ & _ & r & st' & H1 & _ & _ & H2);
    [apply demo_300|by split|by split|apply demo_names|done|done|]. exists st'. rewrite H1. destruct r as [c|[[nm ty] size]].
  - destruct H2 as [[_ H2]|[-> _]]; [|reflexivity]. exfalso. apply H2. by left.
  - destruct H2 as (id & n & _ & H2 & _). by rewrite demo_tree in H2.
Defined.

(** ** Two behaviours to know about *)

(** C9: saving a new file that is larger than the data area returns -9, and
    the entry reserved for it stays in the directory in memory without a
    name: the next command that needs the directory then fails with -4 and
    the directory in memory, with every change not yet written, is dropped. *)
Theorem save_full_loses_directory {S} `{!StorageApi S, !StorageLaws S} (st : fs S) d p sb B parent nm buffer size parent2 nm2 :
  ready st d p sb B -> bytes nm -> is_u32 parent -> bytes buffer -> 0 <= size <= Z.of_nat (length buffer) ->
  size <= LAINFS_FILE_CAPACITY -> valid_name nm = true -> t_is_dir (tree_of st p sb) parent ->
  (forall id, ~ t_child (tree_of st p sb) parent (cstr nm) id) -> (exists id, t_id id /\ tree_of st p sb id = None) ->
  B - sb_data_start_lba sb < required size -> valid_name nm2 = true ->
  exists st' st'', lainfs_save_file_in_dir d parent nm buffer size st = (inl (-9), st') /\
    lainfs_make_dir_in_dir d parent2 nm2 st' = (inl (-4), st'') /\ dview st'' p sb = disk_directory (store st') p sb.
Proof.
  intros Hr Hb Hp Hbuf Hsz Hcap Hn Hd Hnew Hfree Hbig Hn2.
  pose proof (save_too_big st d p sb B parent nm buffer size Hr Hb Hp Hbuf Hsz Hcap Hn Hd Hnew Hfree Hbig) as Hl.
  pose proof Hl as (st1 & i & _ & _ & _ & _ & _ & _ & Hrun). rewrite Hrun in Hl |- *.
  destruct (save_full_then_next st d p sb B parent nm size _ _ parent2 nm2 Hr Hp Hl Hn2) as (st'' & H1 & H2). eauto.
Qed.

Lemma save_full_loses_directory_witness : exists st' st'',
  lainfs_save_file_in_dir 67 0 name_a (replicate 1024 5) 1024 (demo 258) = (inl (-9), st') /\
  lainfs_make_dir_in_dir 67 0 name_b st' = (inl (-4), st'').
Proof.
  destruct (save_full_loses_directory (demo 258) 67 0 format_super 258 0 name_a (replicate 1024 5) 1024 0 name_b)
    as (st' & st'' & H1 & H2 & _);
    [apply demo_258|by apply bytes_of_small|by split|by apply bytes_of_small|rewrite length_replicate; lia|done|done|by left
    |intros id; apply demo_no_child|exists 1; split; [by split|apply demo_tree]|reflexivity|done|].
  exists st', st''. split; [exact H1|exact H2].
Defined.

(** Formatting partition [p] while the directory of another partition
    [q] is in memory returns 0 and leaves [q] with an empty directory in the
    cache, whatever [q] holds. *)
Theorem format_clears_cached_directory {S} `{!StorageApi S, !StorageLaws S} (st : fs S) p B q sb :
  fs_inv st -> st_live (store st) p -> part_blocks st p = Some B -> 258 <= B < 2 ^ 32 ->
  api_partition_is_writable (store st) p = true ->
  directory_cache_valid st = true -> directory_cache_partition st = q -> q <> p ->
  exists st', format_partition_index p st = (inr tt, st') /\ dview st' q sb = empty_directory.
Proof.
  intros Hi Hl Hb HB Hw Hv Hq Hne. destruct (format_returns st p B Hi Hl Hb HB Hw) as [st' H]. exists st'.
  split; [exact H|by apply (format_clears_other st p q)].
Qed.

(** Drive C with the directory [one_dir] in memory. *)
Definition demo_busy : fs (storage unit) := set_directory one_dir (demo 300).

Lemma demo_busy_inv : fs_inv demo_busy.
Proof.
  destruct (demo_inv 300 ltac:(lia)) as [J1 J2 J3 J4 J5 J6 J7]. split; [exact J1|exact J2|exact J3|exact J4|exact J5|exact J6|].
  intros _. split; [apply one_dir_wf|]. exists format_super, 300. split; [apply demo_formatted; lia|discriminate].
Qed.

Lemma format_clears_cached_directory_witness : exists st', format_partition_index 1 demo_busy = (inr tt, st') /\
  dview demo_busy 0 format_super = one_dir /\ dview st' 0 format_super = empty_directory.
Proof.
  destruct (format_clears_cached_directory demo_busy 1 300 0 format_super) as (st' & H1 & H2);
    [apply demo_busy_inv|apply demo_live; [lia|by right]|reflexivity|by split|reflexivity|reflexivity|reflexivity|discriminate|].
  exists st'. split; [exact H1|]. split; [reflexivity|exact H2].
Defined.
