(* ===== verification/HostCheck.v ===== *)
(** The checker of LainFS images on the host, tools/lainfs_check_host.c.

    An image is the list of the bytes of the file. The table of entries is that
    of LainfsLayout.v, since the tool declares the same packed structures; the
    functions that read and write an entry are word for word those of lainfs.c.
    What differs, the check, the search for cycles and the repair, is modelled
    here and compared with the kernel. *)
From Stdlib Require Import ZArith Lia.
From stdpp Require Import base tactics option list numbers.
From S2P Require Import Prelude.
From S2P Require Import LainfsLayout.
From S2P Require Import LainfsDir.
From S2P Require Import LainfsState.
From S2P Require Import LainfsFormat.
#[local] Open Scope Z_scope.

Definition DATA_PARTITION_TYPE : Z := 0x99.

(** ** The image *)

(** The static variables; the image is there once it was opened. *)
Record tool : Type := Tool {
  tl_image : list Z;
  partition_start_lba : Z;
  partition_block_count : Z;
  tl_super : superblock;
  tl_directory : list dirent
}.

(** The position fseek goes to. *)
Definition seek_lba (start lba : Z) : Z := u32 (start + lba) * LAINFS_BLOCK_SIZE.

(** fread of [n] bytes at a position; [None] is that it got less. *)
Definition file_read (file : list Z) (pos n : Z) : option (list Z) :=
  if Z.of_nat (length file) <? pos + n then None else Some (take (Z.to_nat n) (drop (Z.to_nat pos) file)).

(** fwrite at a position, which makes the file longer when it has to. *)
Definition file_write (file : list Z) (pos : Z) (buffer : list Z) : list Z :=
  let pos := Z.to_nat pos in
  let file := file ++ replicate (pos - length file) 0 in
  take pos file ++ buffer ++ drop (pos + length buffer) file.

(** [None] is -1. *)
Definition host_read_blocks (image : list Z) (start lba blocks : Z) : option (list Z) :=
  file_read image (seek_lba start lba) (blocks * LAINFS_BLOCK_SIZE).

Definition host_write_blocks (image : list Z) (start lba : Z) (buffer : list Z) : list Z :=
  file_write image (seek_lba start lba) buffer.

Definition super_is_loadable (sb : superblock) : bool :=
  (sb_magic0 sb =? LAINFS_MAGIC0) && (sb_magic1 sb =? LAINFS_MAGIC1) && (sb_version sb =? 1) &&
  (sb_block_size sb =? LAINFS_BLOCK_SIZE) && (sb_dir_blocks sb =? LAINFS_DIR_BLOCKS) && (sb_max_files sb =? LAINFS_MAX_FILES).

(** Start and size of the partition, from a table of partitions or from the
    size of the file. *)
Definition find_partition (image : list Z) : Z * Z :=
  let mbr := take 512 image in
  if (byte_at mbr 510 =? 0x55) && (byte_at mbr 511 =? 0xAA) && (byte_at mbr 450 =? DATA_PARTITION_TYPE)
  then (read_le32 (drop 454 mbr), read_le32 (drop 458 mbr))
  else (0, u32 (Z.of_nat (length image) / LAINFS_BLOCK_SIZE)).

(** [None] is -1. *)
Definition load_image (image : list Z) : option tool :=
  if Z.of_nat (length image) <? 512 then None
  else
    let '(start, count) := find_partition image in
    block ← host_read_blocks image start 0 1;
    let sb := superblock_of_bytes block in
    if negb (super_is_loadable sb) then None
    else
      directory ← host_read_blocks image start (sb_dir_start_lba sb) (sb_dir_blocks sb);
      Some (Tool image start count sb (directory_of_bytes directory)).

Definition host_save_directory (t : tool) : list Z :=
  host_write_blocks (tl_image t) (partition_start_lba t) (sb_dir_start_lba (tl_super t)) (bytes_of_directory (tl_directory t)).

(** ** The check *)

Fixpoint name_length_loop (len : Z) (nm : list Z) : bool :=
  match nm with
  | [] => negb (len =? 0) && (len <? 31)
  | c :: nm' =>
      if c =? 0 then negb (len =? 0) && (len <? 31)
      else if bad_name_char c then false
      else name_length_loop (len + 1) nm'
  end.

Definition host_valid_name (nm : list Z) : bool := name_length_loop 0 (take 31 nm).

(** [None] is out of fuel. *)
Fixpoint host_cycle_loop (fuel : nat) (dir : list dirent) (seen : list bool) (current : Z) : option (option Z) :=
  match fuel with
  | O => None
  | S fuel' =>
      if current =? 0 then Some None
      else if LAINFS_MAX_FILES <? current then Some None
      else
        let i := Z.to_nat (index_from_entry_id current) in
        if default false (seen !! i) then Some (Some current)
        else
          let seen := <[i := true]> seen in
          let entry := dir_entry dir (index_from_entry_id current) in
          if negb (used entry =? LAINFS_ENTRY_DIR) then Some None
          else if LAINFS_MAX_FILES <? entry_parent_id entry then Some None
          else host_cycle_loop fuel' dir seen (entry_parent_id entry)
  end.

Definition find_parent_cycle (dir : list dirent) (dir_id : Z) : option Z := default None (host_cycle_loop 2050 dir (replicate 2048 false) dir_id).

Definition check_fail (reason entry_id : Z) : verdict := Some (reason, entry_id).

Fixpoint check_extents (sb : superblock) (count id total_blocks : Z) (extents : list extent) : verdict :=
  match extents with
  | [] => None
  | x :: rest =>
      if (ex_blocks x =? 0) || (u32 (LAINFS_MAX_FILE_BLOCKS - ex_blocks x) <? total_blocks) ||
         (ex_start_lba x <? sb_data_start_lba sb) || (count <? ex_start_lba x + ex_blocks x)
      then check_fail LAINFS_CHECK_BAD_FILE_EXTENT id
      else if existsb (fun y => ranges_overlap (ex_start_lba x) (ex_blocks x) (ex_start_lba y) (ex_blocks y)) rest
      then check_fail LAINFS_CHECK_OVERLAPPING_EXTENTS id
      else check_extents sb count id (u32 (total_blocks + ex_blocks x)) rest
  end.

Definition check_entry (sb : superblock) (count : Z) (dir : list dirent) (i : nat) (entry : dirent) : verdict :=
  let id := entry_id_from_index (Z.of_nat i) in
  let parent_id := entry_parent_id entry in
  if used entry =? 0 then None
  else if negb (used entry =? LAINFS_ENTRY_FILE) && negb (used entry =? LAINFS_ENTRY_DIR) then check_fail LAINFS_CHECK_BAD_ENTRY_TYPE id
  else if negb (host_valid_name (name entry)) then check_fail LAINFS_CHECK_BAD_NAME id
  else if (LAINFS_MAX_FILES <? parent_id) || (parent_id =? id) then check_fail LAINFS_CHECK_BAD_PARENT id
  else if negb (parent_id =? 0) && negb (used (dir_entry dir (index_from_entry_id parent_id)) =? LAINFS_ENTRY_DIR) then check_fail LAINFS_CHECK_BAD_PARENT id
  else if used entry =? LAINFS_ENTRY_DIR then
    if negb (start_lba entry =? 0) || negb (byte_size entry =? 0) then check_fail LAINFS_CHECK_BAD_DIRECTORY id
    else match find_parent_cycle dir id with
         | Some cycle_id => check_fail LAINFS_CHECK_BAD_PARENT (if negb (cycle_id =? 0) then cycle_id else id)
         | None => None
         end
  else
    match (if LAINFS_FILE_CAPACITY <? byte_size entry then None else entry_extents entry) with
    | None => check_fail LAINFS_CHECK_BAD_FILE_EXTENT id
    | Some extents => check_extents sb count id 0 extents
    end.

Definition check_pair (a : dirent) (j : nat) (b : dirent) : verdict :=
  if negb (used b =? LAINFS_ENTRY_FILE) then None
  else match entry_extents a, entry_extents b with
       | Some ae, Some be =>
           if existsb (fun x => existsb (fun y => ranges_overlap (ex_start_lba x) (ex_blocks x) (ex_start_lba y) (ex_blocks y)) be) ae
           then check_fail LAINFS_CHECK_OVERLAPPING_EXTENTS (entry_id_from_index (Z.of_nat j)) else None
       | _, _ => check_fail LAINFS_CHECK_BAD_FILE_EXTENT (entry_id_from_index (Z.of_nat j))
       end.

Fixpoint check_pairs (i : nat) (entries : list dirent) : verdict :=
  match entries with
  | [] => None
  | a :: rest =>
      if negb (used a =? LAINFS_ENTRY_FILE) then check_pairs (S i) rest
      else match first_failure (check_pair a) (S i) rest with Some v => Some v | None => check_pairs (S i) rest end
  end.

(** [None] is 0, else the reason and the entry. *)
Definition check_directory (sb : superblock) (count : Z) (dir : list dirent) : verdict :=
  if (sb_dir_start_lba sb =? 0) || (sb_dir_blocks sb =? 0) || (sb_data_start_lba sb <=? sb_dir_start_lba sb) ||
     (sb_data_start_lba sb <? sb_dir_start_lba sb + sb_dir_blocks sb) || (count <=? sb_data_start_lba sb)
  then check_fail LAINFS_CHECK_BAD_LAYOUT 0
  else match first_failure (check_entry sb count dir) 0 dir with Some v => Some v | None => check_pairs 0 dir end.

(** ** Repair *)

Definition legacy_fields_valid (sb : superblock) (count : Z) (entry : dirent) : bool :=
  let blocks := allocated_blocks_for_entry entry in
  (used entry =? LAINFS_ENTRY_FILE) && (byte_size entry <=? LAINFS_FILE_CAPACITY) && (blocks <=? LAINFS_MAX_FILE_BLOCKS) &&
  (sb_data_start_lba sb <=? start_lba entry) && (start_lba entry + blocks <=? count).

(** The repaired table when it returns 1. *)
Definition repair_once (sb : superblock) (count reason entry_id : Z) (dir : list dirent) : option (list dirent) :=
  if (entry_id =? 0) || (LAINFS_MAX_FILES <? entry_id) then None
  else
    let i := index_from_entry_id entry_id in
    let entry := dir_entry dir i in
    let parent_id := entry_parent_id entry in
    if negb (used entry =? LAINFS_ENTRY_FILE) && negb (used entry =? LAINFS_ENTRY_DIR) then None
    else if (reason =? LAINFS_CHECK_BAD_PARENT) &&
            ((LAINFS_MAX_FILES <? parent_id) || (parent_id =? entry_id) ||
             (negb (parent_id =? 0) && negb (used (dir_entry dir (index_from_entry_id parent_id)) =? LAINFS_ENTRY_DIR)) ||
             ((used entry =? LAINFS_ENTRY_DIR) && match find_parent_cycle dir entry_id with Some _ => true | None => false end))
    then Some (put_entry dir i (set_entry_parent_id entry 0))
    else if (reason =? LAINFS_CHECK_BAD_DIRECTORY) && (used entry =? LAINFS_ENTRY_DIR)
    then Some (put_entry dir i (set_byte_size (set_start_lba entry 0) 0))
    else if (reason =? LAINFS_CHECK_BAD_FILE_EXTENT) && negb (entry_extent_meta entry =? 0) && legacy_fields_valid sb count entry
    then let e := set_entry_extent_meta entry 0 in Some (put_entry dir i (set_reserved e (splice 8 (replicate 16 0) (reserved e))))
    else None.

Inductive repair_end : Type :=
| RepairOk (repairs : Z) (dir : list dirent)
| RepairPartial (repairs reason entry_id : Z)
| RepairTooMany.

(** The loop of command_repair; [None] is out of fuel. *)
Fixpoint host_repair_loop (fuel : nat) (sb : superblock) (count repairs : Z) (dir : list dirent) : option repair_end :=
  match check_directory sb count dir with
  | None => Some (RepairOk repairs dir)
  | Some (reason, entry_id) =>
      match repair_once sb count reason entry_id dir with
      | None => Some (RepairPartial repairs reason entry_id)
      | Some dir =>
          if LAINFS_MAX_FILES <? repairs + 1 then Some RepairTooMany
          else match fuel with O => None | S fuel' => host_repair_loop fuel' sb count (repairs + 1) dir end
      end
  end.

(** ** Commands *)

Definition set_tl_directory (dir : list dirent) (t : tool) : tool := Tool (tl_image t) (partition_start_lba t) (partition_block_count t) (tl_super t) dir.

(** The exit code. *)
Definition command_check (image : list Z) : Z :=
  match load_image image with
  | None => 1
  | Some t => match check_directory (tl_super t) (partition_block_count t) (tl_directory t) with None => 0 | Some _ => 1 end
  end.

(** The exit code and the image behind it. *)
Definition command_repair (image : list Z) : option (Z * list Z) :=
  match load_image image with
  | None => Some (1, image)
  | Some t =>
      r ← host_repair_loop 2048 (tl_super t) (partition_block_count t) 0 (tl_directory t);
      Some (match r with
            | RepairOk repairs dir => (0, if repairs =? 0 then image else host_save_directory (set_tl_directory dir t))
            | _ => (1, image)
            end)
  end.

(** ** Both checkers agree *)

(** A file that is too large counts as one with bad extents. *)
Definition host_verdict (v : verdict) : verdict :=
  match v with Some (reason, id) => Some (if reason =? LAINFS_CHECK_BAD_FILE_SIZE then LAINFS_CHECK_BAD_FILE_EXTENT else reason, id) | None => None end.

Lemma name_length_loop_eq len nm : 0 <= len -> name_length_loop len nm = negb (len + str_len nm =? 0) && (len + str_len nm <? 31) && negb (existsb bad_name_char (cstr nm)).
Proof.
  revert len. induction nm as [|c nm IH]; intros len Hl; cbn [name_length_loop str_len cstr].
  - cbn [existsb negb]. by rewrite andb_true_r, Z.add_0_r.
  - destruct (c =? 0); [cbn [existsb negb]; by rewrite andb_true_r, Z.add_0_r|]. cbn [existsb]. destruct (bad_name_char c); cbn [orb negb]; [by rewrite andb_false_r|].
    rewrite IH by lia. by rewrite <- Z.add_assoc.
Qed.

Lemma host_valid_name_eq nm : length nm = 31%nat -> host_valid_name nm = entry_name_is_valid nm.
Proof.
  intros Hl. unfold host_valid_name, entry_name_is_valid, valid_name. rewrite take_ge by lia. rewrite name_length_loop_eq by done. rewrite Z.add_0_l.
  assert (0 <= str_len nm) by (rewrite str_len_cstr; lia). destruct (Z.eqb_spec (str_len nm) 0), (Z.ltb_spec (str_len nm) 31), (Z.leb_spec 31 (str_len nm)), (Z.ltb_spec 30 (str_len nm)); try lia; done.
Qed.

Lemma host_cycle_loop_eq fuel dir seen current r : parent_cycle_loop fuel dir seen current = Some r -> host_cycle_loop (S fuel) dir seen current = Some r.
Proof.
  revert seen current. induction fuel as [|fuel IH]; intros seen current H; [done|]. cbn [parent_cycle_loop] in H. change LAINFS_ROOT_DIR with 0 in H.
  remember (S fuel) as f eqn:Ef. cbn [host_cycle_loop]. destruct (current =? 0); [done|]. cbn [orb] in H. destruct (LAINFS_MAX_FILES <? current); [done|]. destruct (default false _); [done|].
  destruct (negb _); [done|]. destruct (entry_parent_id _ =? 0) eqn:Ep; [|destruct (LAINFS_MAX_FILES <? _); [done|subst f; by apply IH]].
  injection H as <-. bool_prop. rewrite Ep. subst f. reflexivity.
Qed.

Lemma find_parent_cycle_eq dir id : dir_shape dir -> 1 <= id <= LAINFS_MAX_FILES -> find_parent_cycle dir id = find_directory_parent_cycle dir id.
Proof.
  intros Hd Hid. unfold find_parent_cycle, find_directory_parent_cycle. rewrite (proj2 (Z.eqb_neq id _)) by (unfold LAINFS_ROOT_DIR; lia). rewrite (proj2 (Z.ltb_ge _ _)) by lia. cbn [orb].
  destruct (parent_cycle_loop 2049 dir (replicate 2048 false) id) as [r|] eqn:E; [by rewrite (host_cycle_loop_eq 2049 _ _ _ r E)|].
  exfalso. revert E. apply parent_cycle_loop_fuel; [done|apply length_replicate|done|]. rewrite unseen_initial. lia.
Qed.

Lemma check_extents_eq sb count id total xs : check_extents sb count id total xs = validate_extents sb count id total xs.
Proof. revert total. induction xs as [|x xs IH]; intros total; [done|]. cbn [check_extents validate_extents]. by rewrite IH. Qed.

Lemma validate_extents_reason sb count id total xs : host_verdict (validate_extents sb count id total xs) = validate_extents sb count id total xs.
Proof. revert total. induction xs as [|x xs IH]; intros total; [done|]. cbn [validate_extents]. destruct (_ || _); [done|]. destruct (existsb _ _); [done|]. apply IH. Qed.

Lemma check_entry_eq sb count dir i e : dir_shape dir -> dir !! i = Some e -> check_entry sb count dir i e = host_verdict (validate_entry sb count dir i e).
Proof.
  intros Hd Hi. destruct (dir_shape_lt _ _ _ Hd Hi) as [Hlt Hok]. unfold check_entry, validate_entry. rewrite (host_valid_name_eq _ (dok_name_len _ Hok)). change LAINFS_ROOT_DIR with 0.
  destruct (used e =? 0); [done|]. destruct (_ && _); [done|]. destruct (negb (entry_name_is_valid _)); [done|]. destruct (_ || _); [done|]. destruct (_ && _); [done|].
  destruct (used e =? LAINFS_ENTRY_DIR).
  - destruct (_ || _); [done|]. rewrite find_parent_cycle_eq; [|done|rewrite id_from_index by (rewrite max_files; lia); rewrite max_files; lia].
    destruct (find_directory_parent_cycle _ _) as [c|]; [|done]. unfold host_verdict, validate_directory_fail, check_fail. by destruct (c =? 0).
  - destruct (LAINFS_FILE_CAPACITY <? byte_size e); [done|]. destruct (entry_extents e) as [xs|]; [|done]. by rewrite validate_extents_reason, check_extents_eq.
Qed.

Lemma first_failure_ext check check' i es : (forall k e, es !! k = Some e -> check (i + k)%nat e = host_verdict (check' (i + k)%nat e)) -> first_failure check i es = host_verdict (first_failure check' i es).
Proof.
  revert i. induction es as [|e es IH]; intros i H; [done|]. cbn [first_failure]. pose proof (H 0%nat e eq_refl) as H0. rewrite Nat.add_0_r in H0. rewrite H0. destruct (check' i e) as [[reason id]|]; [done|].
  cbn [host_verdict]. apply IH. intros k x Hx. specialize (H (S k) x Hx). by replace (S i + k)%nat with (i + S k)%nat by lia.
Qed.

Lemma check_pairs_eq i es : check_pairs i es = host_verdict (validate_pairs i es).
Proof.
  revert i. induction es as [|a es IH]; intros i; [done|]. cbn [check_pairs validate_pairs]. destruct (negb _); [apply IH|].
  rewrite (first_failure_ext (check_pair a) (validate_pair a) (S i) es).
  - destruct (first_failure (validate_pair a) (S i) es) as [[reason id]|]; [done|]. apply IH.
  - intros k b _. unfold check_pair, validate_pair, extents_overlap. destruct (negb _); [done|]. destruct (entry_extents a) as [xs|], (entry_extents b) as [ys|]; try done. by destruct (existsb _ _).
Qed.

Lemma check_directory_eq sb count dir : dir_shape dir -> check_directory sb count dir = host_verdict (validate_directory (Some count) sb dir).
Proof.
  intros Hd. unfold check_directory, validate_directory. fold (layout_is_bad sb count). destruct (layout_is_bad sb count); [done|].
  rewrite (first_failure_ext _ (validate_entry sb count dir) 0 dir) by (intros k e Hk; by apply check_entry_eq). destruct (first_failure _ _ _) as [[reason id]|]; [done|]. apply check_pairs_eq.
Qed.

Lemma check_directory_None sb count dir : count < 2 ^ 32 -> superblock_ok sb -> dir_shape dir -> check_directory sb count dir = None <-> dir_wf sb count dir.
Proof.
  intros Hc Hs Hd. rewrite check_directory_eq by done. rewrite <- validate_directory_None by done. destruct (validate_directory _ _ _) as [[reason id]|]; [split; [|done]; unfold host_verdict; by destruct (reason =? _)|done].
Qed.

(** ** Repair *)

(** Kinds and names of the entries. *)
Definition same_names (dir dir' : list dirent) : Prop := map (fun e => (used e, name e)) dir' = map (fun e => (used e, name e)) dir.

Lemma put_same_names dir i e : used e = used (dir_entry dir i) -> name e = name (dir_entry dir i) -> same_names dir (put_entry dir i e).
Proof.
  intros Hu Hn. unfold same_names, put_entry. change (map ?f) with (fmap (M := list) f). rewrite list_fmap_insert. unfold dir_entry in *.
  destruct (dir !! Z.to_nat i) as [x|] eqn:Ex; [apply list_insert_id; rewrite list_lookup_fmap, Ex; cbn in *; by rewrite Hu, Hn|].
  apply list_insert_ge. rewrite length_fmap. by apply lookup_ge_None.
Qed.

Lemma repair_once_keeps sb count reason id dir dir' : dir_shape dir -> repair_once sb count reason id dir = Some dir' -> dir_shape dir' /\ same_names dir dir'.
Proof.
  intros Hd. unfold repair_once. destruct ((id =? 0) || (LAINFS_MAX_FILES <? id)); [done|]. set (i := index_from_entry_id id). set (e := dir_entry dir i).
  destruct (_ && _); [done|].
  assert (He : dirent_ok e) by by apply dir_entry_ok.
  assert (Hput : forall e', dirent_ok e' -> used e' = used e -> name e' = name e -> dir_shape (put_entry dir i e') /\ same_names dir (put_entry dir i e'))
    by (intros e' ? ? ?; split; [by apply put_entry_shape|by apply put_same_names]).
  repeat (case_match; try done); intros [= <-]; apply Hput; try done;
    try first [by apply set_entry_parent_id_ok|by apply set_byte_size_ok, set_start_lba_ok].
  all: apply splice_reserved_ok; [simpl; lia|apply (Forall_replicate is_u8 16 0); cint|by apply set_entry_extent_meta_ok].
Qed.

Lemma host_repair_loop_total fuel sb count repairs dir : Z.of_nat fuel + repairs = LAINFS_MAX_FILES -> host_repair_loop fuel sb count repairs dir <> None.
Proof.
  revert repairs dir. induction fuel as [|fuel IH]; intros repairs dir Hf; cbn [host_repair_loop];
    (destruct (check_directory _ _ _) as [[reason id]|]; [|done]); (destruct (repair_once _ _ _ _ _) as [dir'|]; [|done]);
    destruct (Z.ltb_spec LAINFS_MAX_FILES (repairs + 1)); try done; [lia|]. apply IH. lia.
Qed.

Lemma host_repair_loop_ok fuel sb count repairs dir repairs' dir' : dir_shape dir -> 0 <= repairs -> host_repair_loop fuel sb count repairs dir = Some (RepairOk repairs' dir') ->
  dir_shape dir' /\ same_names dir dir' /\ check_directory sb count dir' = None /\ (repairs' = 0 -> dir' = dir).
Proof.
  revert repairs dir. induction fuel as [|fuel IH]; intros repairs dir Hd Hr H; cbn [host_repair_loop] in H;
    (destruct (check_directory sb count dir) as [[reason id]|] eqn:Ec; [|injection H as <- <-; by split_and!]);
    (destruct (repair_once sb count reason id dir) as [dir1|] eqn:Er; [|done]); (destruct (_ <? _); [done|]); [done|].
  destruct (repair_once_keeps _ _ _ _ _ _ Hd Er) as [Hd1 Hn1]. assert (Hle : forall f r d r' d', host_repair_loop f sb count r d = Some (RepairOk r' d') -> r <= r').
  { clear. induction f as [|f IH]; intros r d r' d' H; cbn [host_repair_loop] in H; (destruct (check_directory sb count d) as [[? ?]|]; [|injection H as <- <-; lia]);
      (destruct (repair_once _ _ _ _ _); [|done]); (destruct (_ <? _); [done|]); [done|]. apply IH in H. lia. }
  pose proof (Hle _ _ _ _ _ H). destruct (IH (repairs + 1) dir1 Hd1 ltac:(lia) H) as (Hd' & Hn' & Hc' & _). split_and!; [done|unfold same_names in *; congruence|done|intros; lia].
Qed.

(** ** The image behind a repair *)

Lemma seek_lba_nonneg start lba : 0 <= seek_lba start lba.
Proof. unfold seek_lba. change LAINFS_BLOCK_SIZE with 512. pose proof (u32_range (start + lba)) as []. lia. Qed.

Lemma host_read_bytes image start lba blocks r : bytes image -> host_read_blocks image start lba blocks = Some r -> 0 <= blocks ->
  bytes r /\ Z.of_nat (length r) = blocks * 512 /\ 0 <= seek_lba start lba /\ seek_lba start lba + blocks * 512 <= Z.of_nat (length image).
Proof.
  intros Hb H H0. unfold host_read_blocks, file_read in H. change LAINFS_BLOCK_SIZE with 512 in H. destruct (Z.ltb_spec (Z.of_nat (length image)) (seek_lba start lba + blocks * 512)) as [|Hle]; [done|].
  injection H as <-. pose proof (seek_lba_nonneg start lba).
  split_and!; [auto with cint|rewrite length_take, length_drop; lia|done|lia].
Qed.

Lemma host_write_inside image start lba buffer : (Z.to_nat (seek_lba start lba) + length buffer <= length image)%nat ->
  host_write_blocks image start lba buffer = splice (Z.to_nat (seek_lba start lba)) buffer image.
Proof. intros Hl. unfold host_write_blocks, file_write. replace (_ - _)%nat with 0%nat by lia. cbn [replicate]. by rewrite app_nil_r. Qed.

Lemma host_read_before image start lba blocks off new : 0 <= blocks -> 0 <= seek_lba start lba -> seek_lba start lba + blocks * 512 <= Z.of_nat off -> (off + length new <= length image)%nat ->
  host_read_blocks (splice off new image) start lba blocks = host_read_blocks image start lba blocks.
Proof.
  intros Hn Hp Ho Hl. unfold host_read_blocks, file_read. change LAINFS_BLOCK_SIZE with 512. rewrite length_splice by done. destruct (_ <? _); [done|]. rewrite !take_drop_commute, take_splice by lia. done.
Qed.

Lemma host_read_written image start lba blocks new : Z.of_nat (length new) = blocks * 512 -> 0 <= seek_lba start lba -> (Z.to_nat (seek_lba start lba) + length new <= length image)%nat ->
  host_read_blocks (splice (Z.to_nat (seek_lba start lba)) new image) start lba blocks = Some new.
Proof.
  intros Hn Hp Hl. unfold host_read_blocks, file_read. change LAINFS_BLOCK_SIZE with 512. rewrite length_splice by done. rewrite (proj2 (Z.ltb_ge _ _)) by lia. f_equal.
  unfold splice. rewrite drop_app_length' by (rewrite length_take; lia). apply take_app_length'. lia.
Qed.

Lemma find_partition_splice image off new : (512 <= off)%nat -> (off + length new <= length image)%nat -> find_partition (splice off new image) = find_partition image.
Proof. intros Ho Hl. unfold find_partition. by rewrite take_splice, length_splice by lia. Qed.

Lemma find_partition_u32 image start count : bytes image -> find_partition image = (start, count) -> is_u32 start /\ is_u32 count.
Proof.
  intros Hb. unfold find_partition. destruct (_ && _); intros [= <- <-]; split; try (apply read_le32_range; auto with cint); [cint|apply u32_range].
Qed.

(** What a loaded image is. *)
Record loaded (image : list Z) (t : tool) : Prop := {
  ld_image : tl_image t = image;
  ld_size : 512 <= Z.of_nat (length image);
  ld_partition : find_partition image = (partition_start_lba t, partition_block_count t);
  ld_read : superblock_of_bytes <$> host_read_blocks image (partition_start_lba t) 0 1 = Some (tl_super t);
  ld_super : superblock_ok (tl_super t);
  ld_loadable : super_is_loadable (tl_super t) = true;
  ld_directory : directory_of_bytes <$> host_read_blocks image (partition_start_lba t) (sb_dir_start_lba (tl_super t)) 256 = Some (tl_directory t);
  ld_shape : dir_shape (tl_directory t);
  ld_inside : seek_lba (partition_start_lba t) (sb_dir_start_lba (tl_super t)) + 131072 <= Z.of_nat (length image)
}.

Lemma load_image_loaded image t : bytes image -> load_image image = Some t -> loaded image t.
Proof.
  intros Hb H. unfold load_image in H. destruct (Z.ltb_spec (Z.of_nat (length image)) 512); [done|]. destruct (find_partition image) as [start count] eqn:Ep.
  destruct (host_read_blocks image start 0 1) as [block|] eqn:Es; [|done]. cbn [mbind option_bind] in H. destruct (super_is_loadable _) eqn:El; [|done]. cbn [negb] in H.
  assert (Hdb : sb_dir_blocks (superblock_of_bytes block) = 256) by (unfold super_is_loadable in El; bool_prop; done). rewrite Hdb in H.
  destruct (host_read_blocks image start _ 256) as [d|] eqn:Ed; [|done]. cbn [mbind option_bind] in H. injection H as <-.
  destruct (host_read_bytes _ _ _ _ _ Hb Es) as (Hs & _); [lia|]. destruct (host_read_bytes _ _ _ _ _ Hb Ed) as (Hd & Hl & _ & Hi); [lia|].
  split; cbn [tl_image partition_start_lba partition_block_count tl_super tl_directory]; rewrite ?Es, ?Ed; try done; [by apply superblock_of_bytes_ok|by apply directory_of_bytes_ok].
Qed.

Lemma loaded_load_image image t : loaded image t -> load_image image = Some t.
Proof.
  intros []. unfold load_image. rewrite (proj2 (Z.ltb_ge _ _)) by lia. rewrite ld_partition0. destruct (host_read_blocks image (partition_start_lba t) 0 1) as [block|]; [|done].
  injection ld_read0 as Hs. cbn [mbind option_bind]. rewrite Hs, ld_loadable0. cbn [negb].
  assert (sb_dir_blocks (tl_super t) = 256) as -> by (unfold super_is_loadable in ld_loadable0; bool_prop; done).
  destruct (host_read_blocks image _ _ 256) as [d|]; [|done]. injection ld_directory0 as Hd. cbn [mbind option_bind]. rewrite Hd. subst image. by destruct t.
Qed.

(** Saving a table that passes the check leaves an image that loads it. *)
Lemma saved_loaded image t dir : loaded image t -> partition_start_lba t + partition_block_count t <= 2 ^ 32 -> bytes image ->
  dir_shape dir -> layout_wf (tl_super t) (partition_block_count t) ->
  let image' := host_save_directory (set_tl_directory dir t) in
  let pos := Z.to_nat (seek_lba (partition_start_lba t) (sb_dir_start_lba (tl_super t))) in
  image' = splice pos (bytes_of_directory dir) image /\
  loaded image' (Tool image' (partition_start_lba t) (partition_block_count t) (tl_super t) dir).
Proof.
  intros [] Hw Hb [Hl Hok] [] image' pos. destruct (find_partition_u32 _ _ _ Hb ld_partition0) as [[Hs0 Hs] [Hc0 Hc]].
  pose proof (seek_lba_nonneg (partition_start_lba t) (sb_dir_start_lba (tl_super t))) as Hp.
  destruct (bytes_of_directory_ok dir Hl Hok) as [Hbl Hbb].
  assert (Hdb : sb_dir_blocks (tl_super t) = 256) by (unfold super_is_loadable in ld_loadable0; bool_prop; done).
  assert (Hd0 : 0 < sb_dir_start_lba (tl_super t)) by (destruct ld_super0 as [Hf]; repeat (apply Forall_cons_1 in Hf as [? Hf]); cint).
  assert (Hpos : seek_lba (partition_start_lba t) (sb_dir_start_lba (tl_super t)) = (partition_start_lba t + sb_dir_start_lba (tl_super t)) * 512)
    by (unfold seek_lba; rewrite u32_small by cint; done).
  assert (Hpos0 : seek_lba (partition_start_lba t) 0 = partition_start_lba t * 512) by (unfold seek_lba; rewrite u32_small by cint; by rewrite Z.add_0_r).
  assert (Him : image' = splice pos (bytes_of_directory dir) image)
    by (unfold image', host_save_directory, set_tl_directory; cbn; rewrite ld_image0; apply host_write_inside; lia).
  split; [done|]. clearbody image'. subst image'.
  split; cbn [tl_image partition_start_lba partition_block_count tl_super tl_directory]; try done; [rewrite length_splice; lia|rewrite find_partition_splice; [done|lia..]|rewrite host_read_before; [done|lia..]| |rewrite length_splice; lia].
  unfold pos. rewrite host_read_written; [|lia..]. cbn. by rewrite directory_of_bytes_of.
Qed.

(** ** Both repairs agree *)

Lemma collapse_extents e : dirent_ok e -> set_entry_extents e [Extent (start_lba e) (allocated_blocks_for_entry e)] =
  set_reserved (set_entry_extent_meta e 0) (splice 8 (replicate 16 0) (reserved (set_entry_extent_meta e 0))).
Proof.
  intros [_ _ _ _ _ Hl _]. destruct e as [u nm s b r]; cbn [reserved] in Hl. do 24 (destruct r as [|? r]; [discriminate Hl|]). destruct r; [reflexivity|discriminate Hl].
Qed.

Lemma legacy_valid_host sb count e : legacy_extent_fields_valid (Some count) sb e = true -> legacy_fields_valid sb count e = true.
Proof.
  unfold legacy_extent_fields_valid, legacy_fields_valid. destruct (used e =? LAINFS_ENTRY_FILE); [|done]. destruct (Z.ltb_spec LAINFS_FILE_CAPACITY (byte_size e)); [done|]. cbn [negb orb andb].
  rewrite (proj2 (Z.leb_le (byte_size e) _)) by done. by destruct (_ =? 0), (_ <=? LAINFS_MAX_FILE_BLOCKS), (_ <=? start_lba e), (_ <=? count).
Qed.

(** Every repair of the kernel is one of the host's. *)
Lemma repair_once_covers sb count reason id dir dir' : dir_shape dir -> 0 <= id -> repair_directory_once (Some count) sb reason id dir = Some dir' -> repair_once sb count reason id dir = Some dir'.
Proof.
  intros Hd H0. unfold repair_directory_once, repair_once. destruct ((id =? 0) || (LAINFS_MAX_FILES <? id)) eqn:Eid; [done|].
  assert (Hid : 1 <= id <= LAINFS_MAX_FILES) by (bool_prop; lia). rewrite (find_parent_cycle_eq dir id Hd Hid). change LAINFS_ROOT_DIR with 0.
  destruct (_ && negb (used _ =? LAINFS_ENTRY_DIR)); [done|]. destruct (_ && (_ || _)); [done|]. destruct (_ && (used _ =? LAINFS_ENTRY_DIR)); [done|].
  destruct (reason =? LAINFS_CHECK_BAD_FILE_EXTENT); [|done]. cbn [andb]. destruct (used _ =? LAINFS_ENTRY_FILE); [|done]. cbn [andb]. destruct (negb (entry_extent_meta _ =? 0)); [|done]. cbn [andb].
  destruct (legacy_extent_fields_valid _ _ _) eqn:El; [|done]. rewrite (legacy_valid_host _ _ _ El). destruct (entry_extents _); [done|].
  by rewrite collapse_extents by by apply dir_entry_ok.
Qed.

(** ** A small image *)

(** No table of partitions; two blocks of data. *)
Definition small_image (dir : list dirent) : list Z := bytes_of_superblock format_super ++ bytes_of_directory dir ++ replicate 1024 0.

Lemma small_image_ok dir : dir_shape dir -> bytes (small_image dir) /\ find_partition (small_image dir) = (0, 259) /\ load_image (small_image dir) = Some (Tool (small_image dir) 0 259 format_super dir).
Proof.
  intros [Hl Hok]. destruct (bytes_of_directory_ok dir Hl Hok) as [Hbl Hbb]. destruct format_super_bytes as [Hsl Hsb]. destruct format_super_good as [_ Hs].
  assert (Hb : bytes (small_image dir)) by (unfold small_image; rewrite !Forall_app; split_and!; [done..|apply Forall_replicate; cint]).
  assert (Hn : Z.of_nat (length (small_image dir)) = 259 * 512) by (unfold small_image; rewrite !length_app, length_replicate; lia).
  assert (Hp : find_partition (small_image dir) = (0, 259)).
  { unfold find_partition. rewrite Hn. unfold small_image. rewrite take_app_length' by lia. reflexivity. }
  split_and!; [done..|]. apply loaded_load_image.
  assert (H0 : host_read_blocks (small_image dir) 0 0 1 = Some (bytes_of_superblock format_super))
    by (unfold host_read_blocks, file_read; rewrite Hn; cbn [seek_lba]; change (seek_lba 0 0) with 0; cbn; f_equal; unfold small_image; apply take_app_length'; lia).
  assert (H1 : host_read_blocks (small_image dir) 0 1 256 = Some (bytes_of_directory dir)).
  { unfold host_read_blocks, file_read. rewrite Hn. change (seek_lba 0 1) with 512. change (256 * LAINFS_BLOCK_SIZE) with 131072. cbn [Z.ltb Z.mul Z.add Z.compare Pos.compare Pos.compare_cont Pos.mul Pos.add].
    f_equal. unfold small_image. rewrite drop_app_length' by lia. apply take_app_length'. lia. }
  split; cbn [tl_image partition_start_lba partition_block_count tl_super tl_directory]; try done; [lia|rewrite H0; apply (f_equal Some); by apply superblock_of_bytes_of| |change (seek_lba 0 _) with 512; lia].
  change (sb_dir_start_lba format_super) with 1. rewrite H1. cbn. by rewrite directory_of_bytes_of.
Qed.

(** A directory that is its own parent, and a table that is empty beside it. *)
Definition self_parent : dirent := set_entry_parent_id (set_name (set_used zero_dirent LAINFS_ENTRY_DIR) (65 :: replicate 30 0)) 1.
Definition broken_table : list dirent := self_parent :: replicate 2047 zero_dirent.

Lemma broken_shape : dir_shape broken_table.
Proof.
  split; [reflexivity|]. constructor; [|apply Forall_replicate, zero_dirent_ok].
  apply set_entry_parent_id_ok. split; cbn; try reflexivity; try by split.
  all: repeat constructor; cint.
Qed.

(** A file of two blocks whose second extent lies behind the partition. *)
Definition far_file : dirent :=
  set_entry_extra_extent (set_entry_extent_meta (set_byte_size (set_start_lba (set_name (set_used zero_dirent LAINFS_ENTRY_FILE) (65 :: replicate 30 0)) 257) 600)
    (Z.lor (Z.shiftl 2 LAINFS_EXTENT_COUNT_SHIFT) 1)) 0 5000 1.
Definition far_table : list dirent := far_file :: replicate 2047 zero_dirent.

(** The host makes it a file of two adjacent blocks, and says that all is well;
    the kernel leaves it alone. *)
Lemma host_repair_overreaches :
  entry_extents far_file = Some [Extent 257 1; Extent 5000 1] /\ check_directory format_super 259 far_table = Some (LAINFS_CHECK_BAD_FILE_EXTENT, 1) /\
  repair_directory_once (Some 259) format_super LAINFS_CHECK_BAD_FILE_EXTENT 1 far_table = None /\
  exists dir, host_repair_loop 2048 format_super 259 0 far_table = Some (RepairOk 1 dir) /\ entry_extents (dir_entry dir 0) = Some [Extent 257 2].
Proof. split_and!; [reflexivity..|]. eexists. split; [lazy; reflexivity|reflexivity]. Qed.

(** ** Theorems *)

(** C10: the checker on the host and the kernel's check pass the same images.
    For an image that loads, the verdict of check_directory is that of the
    kernel's validate_directory on the same table, entry and reason, but that
    the host calls a file that is too large one with a bad extent; what one
    round of the kernel's repair changes, the host's changes in the same way;
    and the command check exits with 0 iff the table is well formed. *)
Theorem host_checker_agrees image t : bytes image -> load_image image = Some t ->
  check_directory (tl_super t) (partition_block_count t) (tl_directory t) =
    host_verdict (validate_directory (Some (partition_block_count t)) (tl_super t) (tl_directory t)) /\
  (forall reason id dir', 0 <= id ->
     repair_directory_once (Some (partition_block_count t)) (tl_super t) reason id (tl_directory t) = Some dir' ->
     repair_once (tl_super t) (partition_block_count t) reason id (tl_directory t) = Some dir') /\
  (command_check image = 0 <-> dir_wf (tl_super t) (partition_block_count t) (tl_directory t)).
Proof.
  intros Hb Hl. pose proof (load_image_loaded _ _ Hb Hl) as []. destruct (find_partition_u32 _ _ _ Hb ld_partition0) as [_ [_ Hc]].
  split_and!; [by apply check_directory_eq|intros reason id dir' Hid; by apply repair_once_covers|]. rewrite <- check_directory_None by done. unfold command_check. rewrite Hl. by destruct (check_directory _ _ _).
Qed.

Lemma host_checker_agrees_witness :
  check_directory format_super 259 broken_table = Some (LAINFS_CHECK_BAD_PARENT, 1) /\ (command_check (small_image broken_table) = 0 <-> dir_wf format_super 259 broken_table).
Proof.
  destruct (small_image_ok broken_table broken_shape) as (Hb & _ & Hl).
  destruct (host_checker_agrees (small_image broken_table) (Tool (small_image broken_table) 0 259 format_super broken_table) Hb Hl) as (H1 & _ & H2).
  split; [exact H1|exact H2].
Defined.

(** C11: repair on the host ends and is safe. On an image whose partition does
    not reach past the last block a 32-bit number counts, it exits with 1 and
    the image as it was, or it exits with 0 and an image of the same size that
    differs at most in the blocks of the directory, loads with the same super
    block, passes the check, and has the kinds and names of all entries. *)
Theorem host_repair_sound image start count : bytes image -> find_partition image = (start, count) -> start + count <= 2 ^ 32 ->
  exists code image', command_repair image = Some (code, image') /\
    ((code = 1 /\ image' = image) \/
     (code = 0 /\ command_check image' = 0 /\ length image' = length image /\
      exists t t', load_image image = Some t /\ load_image image' = Some t' /\ tl_super t' = tl_super t /\
        dir_wf (tl_super t) count (tl_directory t') /\ same_names (tl_directory t) (tl_directory t') /\
        let pos := seek_lba start (sb_dir_start_lba (tl_super t)) in
        forall i, Z.of_nat i < pos \/ pos + 131072 <= Z.of_nat i -> byte_at image' i = byte_at image i)).
Proof.
  intros Hb Hp Hw. unfold command_repair. destruct (load_image image) as [t|] eqn:El; [|exists 1, image; by split; [|left]].
  pose proof (load_image_loaded _ _ Hb El) as Hld. pose proof Hld as []. rewrite Hp in ld_partition0. injection ld_partition0 as -> ->.
  destruct (find_partition_u32 _ _ _ Hb Hp) as [_ [_ Hc]].
  destruct (host_repair_loop 2048 _ _ 0 _) as [r|] eqn:Er; [|exfalso; revert Er; by apply host_repair_loop_total]. cbn [mbind option_bind].
  destruct r as [repairs dir| |]; [|eexists _, _; by split; [|left]..].
  destruct (host_repair_loop_ok _ _ _ 0 _ _ _ ld_shape0 ltac:(lia) Er) as (Hsh & Hn & Hck & Heq).
  pose proof (proj1 (check_directory_None _ _ _ Hc ld_super0 Hsh) Hck) as Hwf.
  destruct (Z.eqb_spec repairs 0) as [E0|_]; eexists _, _; (split; [reflexivity|right]).
  - specialize (Heq E0). subst dir. split_and!; [done|unfold command_check; by rewrite El, Hck|done|]. exists t, t. by split_and!.
  - destruct (saved_loaded image t dir Hld Hw Hb Hsh (dw_layout _ _ _ Hwf)) as [Him Hld']. set (image' := host_save_directory _) in *. clearbody image'. subst image'.
    apply loaded_load_image in Hld'. destruct Hsh as [Hlen Hok]. destruct (bytes_of_directory_ok dir Hlen Hok) as [Hbl _].
    pose proof (seek_lba_nonneg (partition_start_lba t) (sb_dir_start_lba (tl_super t))).
    split_and!; [done|unfold command_check; rewrite Hld'; cbn [tl_super partition_block_count tl_directory]; by rewrite Hck|apply length_splice; lia|].
    eexists t, _. split_and!; [done|exact Hld'|done|done|done|]. cbv zeta. intros i Hi. rewrite byte_at_splice by lia. by rewrite decide_False by lia.
Qed.

Lemma host_repair_sound_witness : exists code image', command_repair (small_image broken_table) = Some (code, image') /\ ((code = 1 /\ image' = small_image broken_table) \/ (code = 0 /\ command_check image' = 0)).
Proof.
  destruct (small_image_ok broken_table broken_shape) as (Hb & Hp & _).
  destruct (host_repair_sound (small_image broken_table) 0 259 Hb Hp ltac:(lia)) as (code & image' & Hr & [H|(H0 & H1 & _)]); exists code, image'; (split; [exact Hr|]); [left; exact H|right; split; [exact H0|exact H1]].
Defined.
