(* ===== verification/HostRead.v ===== *)
(** Reading from LainFS images on the host: the commands exists and cat of
    tools/lainfs_check_host.c.

    [block_at] are the blocks of a partition in an image; with them the table
    of the image is a tree, as the kernel's is (LainfsSpec.v), and a path of
    names leads from the root to a node of it. *)
From Stdlib Require Import ZArith Lia.
From stdpp Require Import base tactics option list numbers.
From S2P Require Import Prelude.
From S2P Require Import LainfsLayout.
From S2P Require Import LainfsDir.
From S2P Require Import LainfsAlloc.
From S2P Require Import LainfsSpec.
From S2P Require Import LainfsRefine.
From S2P Require Import HostCheck.
#[local] Open Scope Z_scope.

(** ** Paths and reading *)

Definition is_slash (c : Z) : bool := (c =? 47) || (c =? 92).

Fixpoint skip_slashes (path : list Z) : list Z :=
  match path with
  | c :: path' => if is_slash c then skip_slashes path' else path
  | [] => []
  end.

Definition at_end (path : list Z) : bool := match path with [] => true | c :: _ => c =? 0 end.

(** The loop that copies a component: the component and the rest of the path;
    [None] is that the component does not fit. *)
Fixpoint component_loop (component_size len : Z) (path : list Z) : option (list Z * list Z) :=
  match path with
  | [] => Some ([], [])
  | c :: path' =>
      if (c =? 0) || is_slash c then Some ([], path)
      else if component_size <=? len + 1 then None
      else '(component, rest) ← component_loop component_size (len + 1) path'; Some (c :: component, rest)
  end.

Inductive next_component : Type :=
| PathEnd
| PathBad
| PathComponent (component rest : list Z).

Definition path_next_component (path : list Z) (component_size : Z) : next_component :=
  let path := skip_slashes path in
  if at_end path then PathEnd
  else match component_loop component_size 0 path with
       | None => PathBad
       | Some (component, rest) => PathComponent component rest
       end.

(** What strcmp sees of an entry from its name on: a name of 31 bytes has no
    terminator, and the fields follow. *)
Definition name_onwards (e : dirent) : list Z := drop 1 (bytes_of_dirent e).

(** The index of the entry. *)
Definition host_find_entry (dir : list dirent) (parent_id : Z) (nm : list Z) (type : Z) : option Z :=
  Z.of_nat <$> find_index (fun e => (used e =? type) && (entry_parent_id e =? parent_id) && str_eq (name_onwards e) nm) dir.

(** [Some None] is the root. Every round takes a component off the path. *)
Fixpoint resolve_loop (fuel : nat) (dir : list dirent) (parent_id : Z) (cursor : list Z) : option (option Z) :=
  match path_next_component cursor 32 with
  | PathBad => None
  | PathEnd => Some None
  | PathComponent component cursor =>
      match host_find_entry dir parent_id component LAINFS_ENTRY_DIR with
      | Some i =>
          let cursor := skip_slashes cursor in
          if at_end cursor then Some (Some i)
          else match fuel with O => None | S fuel' => resolve_loop fuel' dir (entry_id i) cursor end
      | None =>
          i ← host_find_entry dir parent_id component LAINFS_ENTRY_FILE;
          if negb (at_end (skip_slashes cursor)) then None else Some (Some i)
      end
  end.

Definition resolve_path (dir : list dirent) (path : list Z) : option (option Z) := resolve_loop (length path) dir 0 path.

(** The loop over the blocks, with what was copied before. *)
Fixpoint read_file_blocks (image : list Z) (start byte_size : Z) (blocks : list Z) (data : list Z) : option (list Z) :=
  match blocks with
  | [] => Some data
  | lba :: blocks' =>
      let copied := Z.of_nat (length data) in
      let remaining := u32 (byte_size - copied) in
      let chunk := if remaining <? LAINFS_BLOCK_SIZE then remaining else LAINFS_BLOCK_SIZE in
      file_block ← host_read_blocks image start lba 1;
      read_file_blocks image start byte_size blocks' (data ++ take (Z.to_nat chunk) file_block)
  end.

(** The bytes that were copied to the buffer, and its size. [malloc_ok] says
    whether there is memory. *)
Definition read_file_entry (malloc_ok : Z -> bool) (image : list Z) (start : Z) (e : dirent) : option (list Z * Z) :=
  if negb (used e =? LAINFS_ENTRY_FILE) then None
  else
    extents ← entry_extents e;
    if negb (malloc_ok (if byte_size e =? 0 then 1 else byte_size e)) then None
    else
      data ← read_file_blocks image start (byte_size e)
               (concat ((fun x => (fun block => u32 (ex_start_lba x + block)) <$> seqZ 0 (ex_blocks x)) <$> extents)) [];
      Some (data, byte_size e).

(** ** Commands *)

Definition command_exists (dir : list dirent) (path : list Z) : Z := match resolve_path dir path with Some (Some _) => 0 | _ => 1 end.

(** The exit code and what was copied to the buffer that is printed. *)
Definition command_cat (malloc_ok : Z -> bool) (t : tool) (path : list Z) : Z * list Z :=
  match resolve_path (tl_directory t) path with
  | Some (Some i) =>
      let e := dir_entry (tl_directory t) i in
      if negb (used e =? LAINFS_ENTRY_FILE) then (1, [])
      else match read_file_entry malloc_ok (tl_image t) (partition_start_lba t) e with
           | None => (1, [])
           | Some (data, size) => (0, data)
           end
  | _ => (1, [])
  end.

(** ** The tree of an image *)

(** Block [lba] of the partition that starts at block [start]. *)
Definition block_at (image : list Z) (start lba : Z) : list Z := take 512 (drop (Z.to_nat ((start + lba) * 512)) image).

(** The names lead from directory [p] to node [id]. *)
Inductive t_path (t : tree) : Z -> list (list Z) -> Z -> Prop :=
| tp_here p nm id : t_child t p nm id -> t_path t p [nm] id
| tp_below p nm d rest id : t_child t p nm d -> t_is_dir t d -> t_path t d rest id -> t_path t p (nm :: rest) id.

(** The names with a slash between them. *)
Fixpoint join_path (names : list (list Z)) : list Z :=
  match names with
  | [] => []
  | [nm] => nm
  | nm :: rest => nm ++ [47] ++ join_path rest
  end.

(** ** Paths *)

(** A name as entries have them. *)
Definition plain_name (nm : list Z) : Prop := nm <> [] /\ (length nm <= 30)%nat /\ Forall (fun c => c <> 0 /\ is_slash c = false) nm.

Lemma component_loop_plain nm rest len : Forall (fun c => c <> 0 /\ is_slash c = false) nm -> len + Z.of_nat (length nm) <= 30 ->
  at_end rest = true \/ (exists rest', rest = 47 :: rest') -> component_loop 32 len (nm ++ rest) = Some (nm, rest).
Proof.
  intros Hn. revert len. induction Hn as [|c nm [Hc Hs] Hn IH]; intros len Hl Hr; cbn [app component_loop length] in *.
  - destruct rest as [|c rest]; [done|]. cbn [component_loop]. destruct Hr as [Hr|[rest' [= -> ->]]]; [cbn in Hr; by rewrite Hr|done].
  - rewrite (proj2 (Z.eqb_neq c 0)), Hs by done. cbn [orb]. rewrite (proj2 (Z.leb_gt _ _)) by lia. rewrite IH by (done || lia). done.
Qed.

Lemma skip_plain c rest : is_slash c = false -> skip_slashes (c :: rest) = c :: rest.
Proof. intros H. cbn. by rewrite H. Qed.

Lemma next_component_plain nm rest : plain_name nm -> at_end rest = true \/ (exists rest', rest = 47 :: rest') -> path_next_component (nm ++ rest) 32 = PathComponent nm rest.
Proof.
  intros (Hne & Hl & Hn) Hr. unfold path_next_component. destruct nm as [|c nm]; [done|]. pose proof (Forall_inv Hn) as [Hc Hs]. cbn [app]. rewrite (skip_plain c _ Hs). cbn [at_end]. rewrite (proj2 (Z.eqb_neq c 0)) by done.
  change (c :: nm ++ rest) with ((c :: nm) ++ rest). rewrite component_loop_plain; [done|done|lia|done].
Qed.

(** ** Finding entries *)

Lemma cstr_app_short l r : (length (cstr l) < length l)%nat -> cstr (l ++ r) = cstr l.
Proof. induction l as [|c l IH]; cbn [cstr app length]; [lia|]. destruct (c =? 0); [done|]. cbn [length]. intros H. rewrite IH by lia. done. Qed.

Section find.
Context (sb : superblock) (B : Z) (dir : list dirent) (f : Z -> list Z).
Context (Hd : dir_shape dir) (Hw : dir_wf sb B dir) (Hu : names_unique (abs_tree f dir)).

Lemma used_name_valid i e : dir !! i = Some e -> used e <> 0 -> plain_name (cstr (name e)) /\ cstr (name_onwards e) = cstr (name e).
Proof using Hd Hw.
  intros Hi Hue. pose proof (ew_name _ _ _ _ _ (dw_entries _ _ _ Hw i e Hi Hue)) as Hv. destruct (dir_shape_lt _ _ _ Hd Hi) as [_ []].
  unfold entry_name_is_valid, valid_name in Hv. rewrite take_ge in Hv by lia. destruct (Z.leb_spec 31 (str_len (name e))) as [|Hlt]; [done|]. rewrite str_len_cstr in *. destruct (_ || _) eqn:El; [done|]. bool_prop.
  split.
  - split_and!; [destruct (cstr (name e)); [done|done]|lia|]. pose proof (cstr_nonzero (name e)) as Hnz. rewrite Forall_elem in Hnz |- *. intros c Hc. split; [by apply Hnz|].
    destruct (is_slash c) eqn:Es; [|done]. exfalso. revert Hv. apply not_false_iff_true, existsb_exists. exists c. split; [by apply list_elem_of_In|].
    unfold is_slash in Es. unfold bad_name_char. cbn. apply orb_true_iff in Es as [->| ->]; [done|by rewrite orb_true_r].
  - unfold name_onwards, bytes_of_dirent. cbn [skipn]. rewrite drop_0. apply cstr_app_short. lia.
Qed.

Lemma host_find_spec p nm type i : Forall (fun c => c <> 0) nm -> type <> 0 -> host_find_entry dir p nm type = Some i ->
  t_child (abs_tree f dir) p nm (i + 1) /\ used (dir_entry dir i) = type.
Proof using Hd Hw.
  intros Hnz Ht. unfold host_find_entry. intros (k & Hk & ->)%fmap_Some. apply find_index_Some in Hk as (e & He & Hm & _). bool_prop.
  match goal with H : str_eq _ _ = true |- _ => apply str_eq_spec in H; rename H into Hs end. destruct (used_name_valid k e He) as [_ Hno]; [congruence|].
  destruct (abs_used_node sb B dir f Hd Hw k e He) as (n & Hn & Hp & Hnm & _); [congruence|]. rewrite (dir_entry_of_lookup _ _ _ He). split; [|done].
  exists n. split_and!; [done|congruence|]. rewrite Hnm, <- Hno, Hs. by apply cstr_id.
Qed.

Lemma host_find_child p nm id n : abs_tree f dir id = Some n -> nd_parent n = p -> nd_name n = nm ->
  host_find_entry dir p nm LAINFS_ENTRY_DIR = (if nd_is_dir n then Some (id - 1) else None) /\
  host_find_entry dir p nm LAINFS_ENTRY_FILE = (if nd_is_dir n then None else Some (id - 1)).
Proof using Hd Hw Hu.
  intros Hn Hp Hnm. destruct (abs_node_entry dir f Hd id n Hn) as (e & He & Ht & Hue & _ & Hpe & Hne & Hty). destruct (used_name_valid _ _ He Hue) as [_ Hno]. unfold t_id in Ht.
  assert (Hnz : Forall (fun c => c <> 0) nm) by (rewrite <- Hnm, Hne; apply cstr_nonzero).
  assert (Hde : dir_entry dir (id - 1) = e) by (unfold dir_entry; by rewrite He).
  assert (Hsome : host_find_entry dir p nm (used e) = Some (id - 1)).
  { destruct (host_find_entry dir p nm (used e)) as [i|] eqn:Ef.
    - destruct (host_find_spec _ _ _ _ Hnz Hue Ef) as [Hc _]. f_equal. enough (i + 1 = id) by lia. eapply Hu; [exact Hc|]. by exists n.
    - exfalso. unfold host_find_entry in Ef. apply fmap_None in Ef. pose proof (proj1 (find_index_None _ _) Ef _ _ He) as Hf. cbv beta in Hf. rewrite Z.eqb_refl, (proj2 (Z.eqb_eq _ _)) in Hf by congruence. cbn [andb] in Hf.
      apply str_eq_spec_false in Hf. rewrite Hno, <- Hne, Hnm in Hf. by rewrite cstr_id in Hf. }
  assert (Hnone : forall type, type <> 0 -> type <> used e -> host_find_entry dir p nm type = None).
  { intros type Hz Hne'. destruct (host_find_entry dir p nm type) as [i|] eqn:Ef; [|done]. destruct (host_find_spec _ _ _ _ Hnz Hz Ef) as [Hc Hui]. exfalso.
    assert (i + 1 = id) as Hi by (eapply Hu; [exact Hc|by exists n]). replace i with (id - 1) in Hui by lia. congruence. }
  destruct (entry_type sb B dir Hw _ _ He Hue) as [E|E], (nd_is_dir n) eqn:En.
  - exfalso. assert (used e = LAINFS_ENTRY_DIR) as E' by by apply Hty. rewrite E in E'. done.
  - split; [apply Hnone; [done|by rewrite E]|by rewrite <- E].
  - split; [by rewrite <- E|apply Hnone; [done|by rewrite E]].
  - exfalso. enough (false = true) by done. by apply Hty.
Qed.
End find.

(** ** Resolving *)

Lemma skip_slashes_length l : (length (skip_slashes l) <= length l)%nat.
Proof. induction l as [|c l IH]; cbn [skip_slashes]; [done|]. destruct (is_slash c); cbn [length] in *; lia. Qed.

Lemma component_loop_length size len l nm rest : component_loop size len l = Some (nm, rest) -> (length nm + length rest = length l)%nat.
Proof.
  revert len nm rest. induction l as [|c l IH]; intros len nm rest H; cbn [component_loop] in H; [injection H as <- <-; done|]. destruct (_ || _); [injection H as <- <-; done|]. destruct (_ <=? _); [done|].
  destruct (component_loop size (len + 1) l) as [[nm' rest']|] eqn:E; [|done]. cbn in H. injection H as <- <-. apply IH in E. cbn [length]. lia.
Qed.

(** A component takes at least a byte. *)
Lemma next_component_length l size nm rest : path_next_component l size = PathComponent nm rest -> (length rest < length l)%nat.
Proof.
  unfold path_next_component. pose proof (skip_slashes_length l) as Hl. destruct (skip_slashes l) as [|c l'] eqn:Es; [done|]. cbn [at_end]. destruct (Z.eqb_spec c 0) as [|Hc]; [done|].
  destruct (component_loop size 0 (c :: l')) as [[nm' rest']|] eqn:E; [|done]. intros [= <- <-]. pose proof (component_loop_length _ _ _ _ _ E) as H. cbn [component_loop] in E.
  assert (Hs : is_slash c = false). { clear -Es. revert Es. induction l as [|x l IH]; cbn [skip_slashes]; [done|]. destruct (is_slash x) eqn:Ex; [done|]. intros [= -> ->]. done. }
  rewrite (proj2 (Z.eqb_neq c 0) Hc), Hs in E. cbn [orb] in E. destruct (_ <=? _); [done|]. destruct (component_loop _ _ l') as [[nm2 rest2]|]; [|done]. cbn in E. injection E as <- <-. cbn [length] in H, Hl. lia.
Qed.

(** The length of the path is fuel enough. *)
Lemma resolve_loop_fuel fuel fuel' dir parent cursor : (length cursor <= fuel)%nat -> (fuel <= fuel')%nat -> resolve_loop fuel dir parent cursor = resolve_loop fuel' dir parent cursor.
Proof.
  revert fuel' parent cursor. induction fuel as [|fuel IH]; intros fuel' parent cursor Hl Hf; [destruct cursor; [|cbn in Hl; lia]; by destruct fuel'|]. destruct fuel' as [|fuel']; [lia|]. cbn [resolve_loop].
  destruct (path_next_component cursor 32) as [| |nm rest] eqn:En; [done..|]. apply next_component_length in En. destruct (host_find_entry dir parent nm LAINFS_ENTRY_DIR) as [i|]; [|done]. destruct (at_end _); [done|].
  apply IH; [pose proof (skip_slashes_length rest); lia|lia].
Qed.

Section resolve.
Context (sb : superblock) (B : Z) (dir : list dirent) (f : Z -> list Z).
Context (Hd : dir_shape dir) (Hw : dir_wf sb B dir) (Hu : names_unique (abs_tree f dir)).
#[local] Abbreviation t := (abs_tree f dir).

Lemma t_child_plain p nm id : t_child t p nm id -> plain_name nm /\ 1 <= id <= LAINFS_MAX_FILES.
Proof using Hd Hw.
  intros (n & Hn & _ & Hnm). destruct (abs_node_entry dir f Hd id n Hn) as (e & He & Ht & Hue & _ & _ & Hne & _).
  rewrite <- Hnm, Hne. split; [by eapply (used_name_valid sb B)|done].
Qed.

Lemma join_path_head nm rest : plain_name nm -> exists c l, join_path (nm :: rest) = c :: l /\ c <> 0 /\ is_slash c = false.
Proof. intros (Hne & _ & Hn). destruct nm as [|c nm]; [done|]. pose proof (Forall_inv Hn) as []. destruct rest; cbn; eauto. Qed.

Lemma resolve_loop_path p names id : t_path t p names id -> forall fuel, (length (join_path names) <= fuel)%nat -> resolve_loop fuel dir p (join_path names) = Some (Some (id - 1)).
Proof using All.
  induction 1 as [p nm id Hc|p nm d rest id Hc Hdir Hp IH]; intros fuel Hf.
  - destruct (t_child_plain _ _ _ Hc) as [Hpl _]. destruct Hc as (n & Hn & Hpn & Hnm). destruct (host_find_child sb B dir f Hd Hw Hu p nm id n Hn Hpn Hnm) as [H1 H2].
    cbn [join_path] in *. assert (Hnx : path_next_component nm 32 = PathComponent nm []) by (rewrite <- (app_nil_r nm) at 1; by apply next_component_plain; [|left]).
    destruct fuel; cbn [resolve_loop]; rewrite Hnx, H1; destruct (nd_is_dir n); try done; cbn [skip_slashes at_end]; by rewrite H2.
  - destruct (t_child_plain _ _ _ Hc) as [Hpl Hid]. destruct Hc as (n & Hn & Hpn & Hnm). destruct (host_find_child sb B dir f Hd Hw Hu p nm d n Hn Hpn Hnm) as [H1 _].
    assert (nd_is_dir n = true) as Hdn. { destruct Hdir as [->|(m & Hm & ?)]; [unfold LAINFS_ROOT_DIR in *; lia|]. congruence. } rewrite Hdn in H1.
    assert (Hrest : exists nm' rest', rest = nm' :: rest' /\ plain_name nm').
    { inversion Hp as [? nm' ? Hc'|? nm' d' rest' ? Hc']; subst; [exists nm', []|exists nm', rest']; (split; [done|by eapply t_child_plain]). }
    destruct Hrest as (nm' & rest' & -> & Hpl'). destruct (join_path_head nm' rest' Hpl') as (c & l & Hj & Hc0 & Hcs). change (join_path (nm :: nm' :: rest')) with (nm ++ [47] ++ join_path (nm' :: rest')) in *.
    assert (Hnx : path_next_component (nm ++ [47] ++ join_path (nm' :: rest')) 32 = PathComponent nm (47 :: join_path (nm' :: rest'))) by (apply next_component_plain; [done|right; by eexists]).
    assert (Hsk : skip_slashes (47 :: join_path (nm' :: rest')) = join_path (nm' :: rest')) by (rewrite Hj; cbn; by rewrite Hcs).
    assert (He : at_end (join_path (nm' :: rest')) = false) by (rewrite Hj; cbn; by apply Z.eqb_neq).
    destruct fuel as [|fuel]; [rewrite !length_app, Hj in Hf; cbn in Hf; lia|]. cbn [resolve_loop]. rewrite Hnx, H1, Hsk, He, entry_id_index by lia. replace (d - 1 + 1) with d by lia.
    apply IH. rewrite !length_app in Hf. cbn [length] in Hf. lia.
Qed.

Lemma resolve_path_finds names id : t_path t 0 names id -> resolve_path dir (join_path names) = Some (Some (id - 1)).
Proof using All. intros Hp. by apply resolve_loop_path. Qed.
End resolve.

(** ** Reading *)

Section read.
Context (image : list Z) (start B : Z).
Context (Hs0 : 0 <= start) (HB : start + B <= 2 ^ 32) (Hin : (start + B) * 512 <= Z.of_nat (length image)).

Lemma host_read_block b : 0 <= b < B -> host_read_blocks image start b 1 = Some (block_at image start b) /\ length (block_at image start b) = 512%nat.
Proof using All.
  intros Hb. change (2 ^ 32) with 4294967296 in HB. unfold host_read_blocks, file_read, seek_lba. change LAINFS_BLOCK_SIZE with 512. rewrite u32_small by (unfold is_u32; lia).
  rewrite (proj2 (Z.ltb_ge _ _)) by lia. split; [done|]. unfold block_at. rewrite length_take, length_drop. lia.
Qed.

Lemma read_file_blocks_ok size blocks data : Forall (fun b => 0 <= b < B) blocks -> Z.of_nat (length data) <= size < 2 ^ 32 ->
  read_file_blocks image start size blocks data = Some (data ++ take (Z.to_nat size - length data) (concat (block_at image start <$> blocks))).
Proof using All.
  intros Hb. revert data. induction Hb as [|b blocks Hb Hbs IH]; intros data Hl; cbn [read_file_blocks fmap list_fmap concat].
  - by rewrite take_nil, app_nil_r.
  - destruct (host_read_block b Hb) as [-> Hlen]. cbn [mbind option_bind]. rewrite u32_small by (unfold is_u32; change (2 ^ 32) with 4294967296 in *; lia). change LAINFS_BLOCK_SIZE with 512.
    set (n := if _ <? 512 then _ else 512). assert (Hn : 0 <= n <= 512 /\ n <= size - Z.of_nat (length data) /\ (n = 512 \/ n = size - Z.of_nat (length data))).
    { unfold n. destruct (Z.ltb_spec (size - Z.of_nat (length data)) 512); lia. }
    clearbody n. rewrite IH by (rewrite length_app, length_take; lia). rewrite <- app_assoc, length_app, length_take, Hlen. do 2 f_equal. rewrite take_app, Hlen. fold (block_at image start <$> blocks).
    f_equal; [|f_equal; lia]. destruct Hn as (_ & Hn & [->|E]); [|f_equal; lia]. rewrite !take_ge by lia. done.
Qed.

(** The blocks in the order of the loops. *)
Lemma file_block_list sb xs : 0 <= sb_data_start_lba sb -> Forall (extent_in_data sb B) xs ->
  concat ((fun x => (fun block => u32 (ex_start_lba x + block)) <$> seqZ 0 (ex_blocks x)) <$> xs) = block_list xs /\ Forall (fun b => 0 <= b < B) (block_list xs).
Proof using All.
  intros Hsb Hx. change (2 ^ 32) with 4294967296 in HB. split.
  - unfold block_list. f_equal. apply list_fmap_ext. intros k x Hk. rewrite Forall_elem in Hx. destruct (Hx x) as (H1 & H2 & H3); [by eapply list_elem_of_lookup_2|].
    apply list_eq. intros j. rewrite list_lookup_fmap. destruct (decide (Z.of_nat j < ex_blocks x)); [|by rewrite !lookup_seqZ_ge by lia]. rewrite !lookup_seqZ_lt by lia. cbn. f_equal. rewrite u32_small by (unfold is_u32; lia). lia.
  - rewrite Forall_elem in Hx. apply Forall_elem. intros b Hb. apply elem_of_block_list in Hb as (x & Hxi & Hb). destruct (Hx x Hxi) as (H1 & H2 & H3). unfold in_extent in Hb. lia.
Qed.

Lemma read_file_entry_ok malloc_ok sb e : 0 <= sb_data_start_lba sb -> dirent_ok e -> used e = LAINFS_ENTRY_FILE -> file_wf sb B e -> (forall n, malloc_ok n = true) ->
  read_file_entry malloc_ok image start e = Some (file_bytes (block_at image start) e, byte_size e).
Proof using All.
  intros Hsb [] Hu (_ & xs & Hxs & Hin' & _) Hm. unfold read_file_entry. rewrite Hu, Hxs, Hm. cbn [negb Z.eqb Pos.eqb LAINFS_ENTRY_FILE mbind option_bind].
  destruct (file_block_list sb xs Hsb Hin') as [-> Hbl]. rewrite read_file_blocks_ok; [|done|destruct dok_size; cbn; change (2 ^ 32) with 4294967296; lia]. cbn [mbind option_bind app length].
  unfold file_bytes. rewrite Hxs. cbn [default]. by rewrite Nat.sub_0_r.
Qed.
End read.

(** cat prints the file that the tree of the image has under the path. *)
Lemma command_cat_ok malloc_ok t names id p nm data :
  let tr := abs_tree (block_at (tl_image t) (partition_start_lba t)) (tl_directory t) in
  0 <= partition_start_lba t -> partition_start_lba t + partition_block_count t <= 2 ^ 32 -> (partition_start_lba t + partition_block_count t) * 512 <= Z.of_nat (length (tl_image t)) ->
  superblock_ok (tl_super t) -> dir_shape (tl_directory t) -> dir_wf (tl_super t) (partition_block_count t) (tl_directory t) -> names_unique tr -> (forall n, malloc_ok n = true) ->
  t_path tr 0 names id -> tr id = Some (NFile p nm data) -> command_cat malloc_ok t (join_path names) = (0, data).
Proof.
  intros tr Hs HB Hl Hsb Hd Hw Hu Hm Hp Hn. unfold command_cat. rewrite (resolve_path_finds _ _ _ _ Hd Hw Hu names id Hp).
  destruct (abs_node_entry _ _ Hd id _ Hn) as (e & He & Ht & Hue & Habs & _ & _ & Hty). assert (Hde : dir_entry (tl_directory t) (id - 1) = e) by (unfold dir_entry; by rewrite He). rewrite Hde.
  destruct (entry_type _ _ _ Hw _ _ He Hue) as [E|E]; [|exfalso; enough (false = true) by done; by apply Hty].
  rewrite E. cbn [negb Z.eqb Pos.eqb LAINFS_ENTRY_FILE].
  rewrite (read_file_entry_ok _ _ (partition_block_count t) Hs HB Hl malloc_ok (tl_super t)); [|destruct Hsb as [Hf]; repeat (apply Forall_cons_1 in Hf as [? Hf]); cint|by eapply dir_shape_lt|done|by apply (ew_file _ _ _ _ _ (dw_entries _ _ _ Hw _ _ He Hue))|done].
  unfold abs_entry in Habs. rewrite E in Habs. cbn [Z.eqb Pos.eqb LAINFS_ENTRY_FILE] in Habs. congruence.
Qed.
