(* ===== verification/HostSeed.v ===== *)
(** The tool that fills LainFS images on the host, tools/lainfs_seed.c.

    The files and directories of the host are the class [HostFs]: what stat,
    readdir and reading a file answer for a path. The tool keeps its own table
    of entries in memory, and writes the blocks of the files as it goes.

    A run that exits with 0 leaves an image that the checkers of host and kernel
    pass, and every file below the paths on the command line is in its tree with
    its contents, and can be read back with tools/lainfs_check_host.c. *)
From Stdlib Require Import ZArith Lia Ascii String.
From stdpp Require Import base tactics option list numbers.
From S2P Require Import Prelude.
From S2P Require Import LainfsLayout.
From S2P Require Import LainfsDir.
From S2P Require Import LainfsAlloc.
From S2P Require Import LainfsState.
From S2P Require Import LainfsOps.
From S2P Require Import LainfsSpec.
From S2P Require Import LainfsRefine.
From S2P Require Import LainfsFiles.
From S2P Require Import LainfsFormat.
From S2P Require Import HostCheck.
From S2P Require Import HostRead.
#[local] Open Scope Z_scope.

(** ** The host *)

Inductive file_kind : Type := KindDir | KindFile | KindOther.

(** [None] is a failure of the host. A string has no byte 0. *)
Class HostFs : Type := {
  hf_stat : list Z -> option file_kind;
  hf_names : list Z -> option (list (list Z));
  hf_contents : list Z -> option (list Z)
}.

(** Names and contents are bytes. *)
Class HostLaws `{!HostFs} : Prop := {
  hl_names path names : hf_names path = Some names -> Forall bytes names;
  hl_contents path data : hf_contents path = Some data -> bytes data
}.

(** ** State *)

Definition DATA_PARTITION_START_LBA : Z := 2048.

Record seed : Type := Seed {
  sd_image : list Z;
  sd_start : Z;
  sd_count : Z;
  sd_super : superblock;
  sd_directory : list dirent
}.

Definition set_sd_image (v : list Z) (s : seed) : seed := Seed v (sd_start s) (sd_count s) (sd_super s) (sd_directory s).
Definition set_sd_directory (v : list dirent) (s : seed) : seed := Seed (sd_image s) (sd_start s) (sd_count s) (sd_super s) v.

(** ** Blocks *)

(** The position fseek goes to. *)
Definition seed_seek_lba (lba : Z) : Z := u64 (lba * LAINFS_BLOCK_SIZE).

Definition seed_write_blocks (lba : Z) (buffer : list Z) : M seed unit :=
  modify (fun s => set_sd_image (file_write (sd_image s) (seed_seek_lba (u64 (sd_start s + lba))) buffer) s).

Definition seed_save_directory : M seed unit := fun s => seed_write_blocks (sb_dir_start_lba (sd_super s)) (bytes_of_directory (sd_directory s)) s.

Definition seed_extent_is_free (sb : superblock) (dir : list dirent) (start blocks : Z) : bool :=
  if (blocks =? 0) || (start <? sb_data_start_lba sb) then false
  else negb (existsb (fun e => (used e =? LAINFS_ENTRY_FILE) && ranges_overlap start blocks (start_lba e) (allocated_blocks_for_entry e)) dir).

(** The loop ends when the run of blocks does not fit, at the latest when there
    is no block left. *)
Fixpoint free_extent_loop (fuel : nat) (sb : superblock) (count : Z) (dir : list dirent) (blocks start : Z) : option Z :=
  match fuel with
  | O => None
  | S fuel' =>
      if count <? start + blocks then None
      else if seed_extent_is_free sb dir (u32 start) blocks then Some (u32 start)
      else free_extent_loop fuel' sb count dir blocks (start + 1)
  end.

Definition find_free_extent (sb : superblock) (count : Z) (dir : list dirent) (blocks : Z) : option Z :=
  if (blocks =? 0) || (LAINFS_MAX_FILE_BLOCKS <? blocks) then None
  else free_extent_loop (Z.to_nat (count - sb_data_start_lba sb)) sb count dir blocks (sb_data_start_lba sb).

(** ** Entries *)

(** The entry a directory gets; the result is its id. *)
Definition seed_dir_entry (nm : list Z) (parent_id : Z) : dirent :=
  let e := set_used zero_dirent LAINFS_ENTRY_DIR in
  set_entry_parent_id (set_name e (copy_name (name e) nm)) parent_id.

Definition make_dir (parent_id : Z) (nm : list Z) : M seed Z := fun s =>
  let dir := sd_directory s in
  if negb (valid_name nm) then (inl (-1), s)
  else match find_entry_in_dir dir parent_id nm with
       | Some i => if negb (used (dir_entry dir i) =? LAINFS_ENTRY_DIR) then (inl (-1), s) else (inr (entry_id i), s)
       | None =>
           match find_free_entry dir with
           | None => (inl (-1), s)
           | Some i => (inr (entry_id i), set_sd_directory (put_entry dir i (seed_dir_entry nm parent_id)) s)
           end
       end.

Definition seed_file_entry (parent_id : Z) (nm : list Z) (start size : Z) : dirent :=
  let e := set_used zero_dirent LAINFS_ENTRY_FILE in
  set_entry_parent_id (set_byte_size (set_start_lba (set_name e (copy_name (name e) nm)) start) size) parent_id.

(** The sector for one block of the file. *)
Definition seed_sector (data : list Z) (size block : Z) : list Z :=
  let base := u32 (block * LAINFS_BLOCK_SIZE) in
  let left := if base <? size then u32 (size - base) else 0 in
  let chunk := if left <? LAINFS_BLOCK_SIZE then left else LAINFS_BLOCK_SIZE in
  let data := take (Z.to_nat chunk) (drop (Z.to_nat base) data) in
  data ++ replicate (512 - length data) 0.

(** The loop over [n] blocks from number [block] on. *)
Fixpoint write_file_blocks (data : list Z) (size start : Z) (n : nat) (block : Z) : M seed unit :=
  match n with
  | O => mret tt
  | S n' =>
      seed_write_blocks (u32 (start + block)) (seed_sector data size block);;
      write_file_blocks data size start n' (block + 1)
  end.

Definition save_file (parent_id : Z) (nm data : list Z) (size : Z) : M seed unit := fun s =>
  let dir := sd_directory s in
  let required_blocks := if blocks_for_size size =? 0 then 1 else blocks_for_size size in
  if negb (valid_name nm) then (inl (-1), s)
  else if LAINFS_FILE_CAPACITY <? size then (inl (-1), s)
  else match find_entry_in_dir dir parent_id nm with
       | Some _ => (inl (-1), s)
       | None =>
           match find_free_entry dir with
           | None => (inl (-1), s)
           | Some i =>
               match find_free_extent (sd_super s) (sd_count s) dir required_blocks with
               | None => (inl (-1), s)
               | Some start =>
                   write_file_blocks data size start (Z.to_nat required_blocks) 0
                     (set_sd_directory (put_entry dir i (seed_file_entry parent_id nm start size)) s)
               end
           end
       end.

(** ** Importing *)

(** strrchr(path, '/') and what follows. *)
Fixpoint base_loop (last path : list Z) : list Z :=
  match path with
  | [] => last
  | c :: path' => base_loop (if c =? 47 then path' else last) path'
  end.

Definition base_name (path : list Z) : list Z := base_loop path path.

Fixpoint each_path (f : list Z -> M seed unit) (paths : list (list Z)) : M seed unit :=
  match paths with
  | [] => mret tt
  | p :: paths' => f p;; each_path f paths'
  end.

Section import.
Context `{!HostFs}.

(** [None] is -1. *)
Definition read_host_file (path : list Z) : option (list Z) :=
  data ← hf_contents path;
  if LAINFS_FILE_CAPACITY <? Z.of_nat (length data) then None else Some data.

(** One turn of the loop over the names in a directory. *)
Definition import_child (import : list Z -> M seed unit) (host_path d_name : list Z) : M seed unit :=
  if bool_decide (d_name = [46]) || bool_decide (d_name = [46; 46]) then mret tt
  else
    let child := host_path ++ [47] ++ d_name in
    if 512 <=? Z.of_nat (length child) then fail (-1) else import child.

Definition import_directory_contents (import : list Z -> M seed unit) (host_path : list Z) : M seed unit :=
  match hf_names host_path with
  | None => fail (-1)
  | Some names => each_path (import_child import host_path) names
  end.

(** Error 1 is out of fuel. *)
Fixpoint import_path_at (fuel : nat) (parent_id : Z) (host_path : list Z) : M seed unit :=
  match fuel with
  | O => fail 1
  | S fuel' =>
      let name := base_name host_path in
      match hf_stat host_path with
      | None => fail (-1)
      | Some KindDir =>
          dir_id ← make_dir parent_id name;
          import_directory_contents (import_path_at fuel' dir_id) host_path
      | Some KindFile =>
          match read_host_file host_path with
          | None => fail (-1)
          | Some data => save_file parent_id name data (Z.of_nat (length data))
          end
      | Some KindOther => mret tt
      end
  end.

(** The names below a path get longer, and are cut off at 512 bytes. *)
Definition import_fuel : nat := 513.

Definition default_paths : list (list Z) := text <$> ["Makefile"; "README.md"; "SELFHOSTING.md"; "boot"; "kernel"; "examples"]%string.

Definition import_default_tree : M seed unit := each_path (import_path_at import_fuel 0) default_paths.

(** ** The image *)

(** The MBR that is written. *)
Definition seed_mbr (start block_count : Z) : list Z :=
  replicate 450 0 ++ [DATA_PARTITION_TYPE] ++ replicate 3 0 ++ write_le32 start ++ write_le32 block_count ++ replicate 48 0 ++ [0x55; 0xAA].

Definition create_mbr : M seed unit := fun s =>
  let image_size := Z.of_nat (length (sd_image s)) in
  if image_size <? LAINFS_BLOCK_SIZE then (inl (-1), s)
  else if image_size / LAINFS_BLOCK_SIZE <=? DATA_PARTITION_START_LBA then (inl (-1), s)
  else
    let count := image_size / LAINFS_BLOCK_SIZE - DATA_PARTITION_START_LBA in
    let s := Seed (sd_image s) DATA_PARTITION_START_LBA count (sd_super s) (sd_directory s) in
    if 0xFFFFFFFF <? count then (inl (-1), s)
    else (inr tt, set_sd_image (file_write (sd_image s) 0 (seed_mbr (u32 DATA_PARTITION_START_LBA) (u32 count))) s).

Definition seed_super : superblock :=
  Superblock LAINFS_MAGIC0 LAINFS_MAGIC1 1 LAINFS_BLOCK_SIZE 1 LAINFS_DIR_BLOCKS (1 + LAINFS_DIR_BLOCKS) LAINFS_MAX_FILES.

Definition format_lainfs : M seed unit := fun s =>
  let s := Seed (sd_image s) (sd_start s) (sd_count s) seed_super (replicate (Z.to_nat LAINFS_MAX_FILES) zero_dirent) in
  (seed_write_blocks 0 (bytes_of_superblock (sd_super s));; seed_save_directory) s.

(** The paths that are imported: the image is the first argument of the tool,
    [paths] the others. *)
Definition import_paths (paths : list (list Z)) : M seed unit :=
  match paths with [] => import_default_tree | _ => each_path (import_path_at import_fuel 0) paths end.

(** The exit code and the image behind the run; [None] is out of fuel. *)
Definition seed_main (image : list Z) (paths : list (list Z)) : option (Z * list Z) :=
  let run := create_mbr;; format_lainfs;; import_paths paths;; seed_save_directory in
  match run (Seed image 0 0 (superblock_of_bytes []) (replicate (Z.to_nat LAINFS_MAX_FILES) zero_dirent)) with
  | (inr _, s) => Some (0, sd_image s)
  | (inl c, s) => if c =? 1 then None else Some (1, sd_image s)
  end.
End import.

(** ** The tree in an image *)

(** Block [lba] of the partition. *)
Definition image_view (image : list Z) (lba : Z) : list Z := block_at image 2048 lba.

Definition seed_tree (s : seed) : tree := abs_tree (image_view (sd_image s)) (sd_directory s).

(** What files hold in a directory depends on their blocks alone. *)
Lemma abs_tree_ext sb B dir f g id : dir_shape dir -> dir_wf sb B dir ->
  (forall j e xs x b, dir !! j = Some e -> used e = LAINFS_ENTRY_FILE -> entry_extents e = Some xs -> x ∈ xs -> in_extent b x -> f b = g b) ->
  abs_tree f dir id = abs_tree g dir id.
Proof.
  intros Hd Hw Hfg. unfold abs_tree. destruct (decide (t_id id)) as [Ht|]; [|done]. unfold abs_entry, t_id in *.
  destruct (Z.eqb_spec (used (dir_entry dir (id - 1))) LAINFS_ENTRY_FILE) as [E|]; [|done]. do 2 f_equal. unfold file_bytes. do 2 f_equal.
  apply list_fmap_ext. intros k b Hb%list_elem_of_lookup_2. apply elem_of_block_list in Hb as (x & Hx & Hb).
  destruct (entry_extents (dir_entry dir (id - 1))) as [xs|] eqn:Exs; [|by apply not_elem_of_nil in Hx].
  eapply (Hfg (Z.to_nat (id - 1))); [apply dir_entry_lookup; [done|lia]|done|done|done|done].
Qed.

(** ** Writing blocks *)

(** A run of the tool on an image that holds the whole partition. *)
Record seed_shape (s : seed) : Prop := {
  ss_start : sd_start s = 2048;
  ss_count : 257 < sd_count s < 2 ^ 32;
  ss_super : sd_super s = format_super;
  ss_bytes : bytes (sd_image s);
  ss_size : (2048 + sd_count s) * 512 <= Z.of_nat (length (sd_image s))
}.

(** Nothing before block [from] of the partition changed, and the size did not. *)
Record same_head (from : Z) (image image' : list Z) : Prop := {
  sh_size : length image' = length image;
  sh_head : take (Z.to_nat ((2048 + from) * 512)) image' = take (Z.to_nat ((2048 + from) * 512)) image
}.

#[export] Instance same_head_preorder from : PreOrder (same_head from).
Proof. split; [by split|]. intros a b c [] []. split; congruence. Qed.

Lemma take_within {A} (a b : nat) (l : list A) : (a <= b)%nat -> take a (take b l) = take a l.
Proof. intros H. rewrite take_take. f_equal. lia. Qed.

Lemma same_head_le from from' image image' : from' <= from -> same_head from image image' -> same_head from' image image'.
Proof. intros Hf [Hs Hh]. split; [done|]. rewrite <- (take_within _ (Z.to_nat ((2048 + from) * 512)) image'), <- (take_within _ (Z.to_nat ((2048 + from) * 512)) image) by lia. by rewrite Hh. Qed.

Lemma file_write_inside file pos buffer : 0 <= pos -> pos + Z.of_nat (length buffer) <= Z.of_nat (length file) -> file_write file pos buffer = splice (Z.to_nat pos) buffer file.
Proof. intros Hp Hl. unfold file_write. replace (_ - _)%nat with 0%nat by lia. cbn [replicate]. by rewrite app_nil_r. Qed.

Lemma splice_same_head from lba image buffer : 0 <= from <= lba -> (2048 + lba) * 512 + Z.of_nat (length buffer) <= Z.of_nat (length image) ->
  same_head from image (splice (Z.to_nat ((2048 + lba) * 512)) buffer image).
Proof. intros Hf Hl. split; [apply length_splice; lia|apply take_splice; lia]. Qed.

Lemma splice_view lba image buffer b : 0 <= lba -> 0 <= b -> length buffer = 512%nat -> (2048 + lba + 1) * 512 <= Z.of_nat (length image) ->
  image_view (splice (Z.to_nat ((2048 + lba) * 512)) buffer image) b = if decide (b = lba) then buffer else image_view image b.
Proof.
  intros Hl Hb0 Hb Hi. unfold image_view, block_at. destruct (decide (b = lba)) as [->|Hne].
  - unfold splice. rewrite drop_app_length' by (rewrite length_take; lia). by apply take_app_length'.
  - destruct (decide (b < lba)).
    + rewrite !take_drop_commute, take_splice by lia. done.
    + unfold splice. rewrite drop_app_ge by (rewrite length_take; lia). rewrite drop_app_ge by (rewrite length_take; lia). rewrite drop_drop, length_take. do 2 f_equal. lia.
Qed.

(** Writing whole blocks inside the partition. *)
Lemma seed_write_ok s lba buffer : seed_shape s -> 0 <= lba -> lba * 512 + Z.of_nat (length buffer) <= sd_count s * 512 -> bytes buffer ->
  let s' := set_sd_image (splice (Z.to_nat ((2048 + lba) * 512)) buffer (sd_image s)) s in
  seed_write_blocks lba buffer s = (inr tt, s') /\ seed_shape s'.
Proof.
  intros [] Hl Hc Hb s'. change (2 ^ 32) with 4294967296 in *. unfold seed_write_blocks, modify. rewrite ss_start0.
  assert (Hpos : seed_seek_lba (u64 (2048 + lba)) = (2048 + lba) * 512).
  { unfold seed_seek_lba, u64. change LAINFS_BLOCK_SIZE with 512. rewrite (Z.mod_small (2048 + lba)) by lia. apply Z.mod_small. lia. }
  rewrite Hpos, file_write_inside by lia. split; [done|].
  split; cbn; try done; [by apply splice_bytes|rewrite length_splice; lia].
Qed.

(** The blocks of one file. *)
Lemma seed_sector_ok data size k : bytes data -> length (seed_sector data size k) = 512%nat /\ bytes (seed_sector data size k).
Proof. apply file_sector_ok. Qed.

Lemma write_file_blocks_ok data size start n : bytes data -> 257 <= start -> forall block s, seed_shape s -> 0 <= block -> start + block + Z.of_nat n <= sd_count s ->
  exists s', write_file_blocks data size start n block s = (inr tt, s') /\ seed_shape s' /\ sd_count s' = sd_count s /\ sd_directory s' = sd_directory s /\
    same_head 257 (sd_image s) (sd_image s') /\
    (forall b, 0 <= b -> image_view (sd_image s') b = if decide (start + block <= b < start + block + Z.of_nat n) then seed_sector data size (b - start) else image_view (sd_image s) b).
Proof.
  intros Hb Hst. induction n as [|n IH]; intros block s Hs Hbl Hc; cbn [write_file_blocks].
  - exists s. split_and!; try done. intros b _. by rewrite decide_False by lia.
  - pose proof Hs as []. change (2 ^ 32) with 4294967296 in *. rewrite u32_small by (unfold is_u32; lia). destruct (seed_sector_ok data size block Hb) as [Hl Hbb].
    destruct (seed_write_ok s (start + block) (seed_sector data size block) Hs) as [Hr Hs1]; [lia|lia|done|]. rewrite (bind_ok _ _ _ _ _ Hr).
    set (s1 := set_sd_image _ s) in *. destruct (IH (block + 1) s1 Hs1) as (s' & Hr' & Hs' & Hc' & Hd' & Hh' & Hv'); [lia|cbn; lia|].
    exists s'. split_and!; [done|done|done|done| |].
    + trans (sd_image s1); [|done]. apply splice_same_head; lia.
    + intros b H0. rewrite Hv' by done. replace (start + (block + 1)) with (start + block + 1) by lia.
      destruct (decide (start + block + 1 <= b < _)); [by rewrite decide_True by lia|]. cbn [s1 set_sd_image sd_image]. rewrite splice_view by lia.
      destruct (decide (b = start + block)) as [->|]; [rewrite decide_True by lia; f_equal; lia|by rewrite decide_False by lia].
Qed.

(** ** Operations on the table *)

(** The tool between two operations. *)
Record seed_ok (s : seed) : Prop := {
  so_shape : seed_shape s;
  so_dir : dir_shape (sd_directory s);
  so_wf : dir_wf format_super (sd_count s) (sd_directory s);
  so_names : names_unique (seed_tree s);
  so_flat i e : sd_directory s !! i = Some e -> used e = LAINFS_ENTRY_FILE -> entry_extent_meta e = 0
}.

Definition tree_grows (t t' : tree) : Prop := forall id n, t id = Some n -> t' id = Some n.

(** The operations only add. *)
Record seed_grows (s s' : seed) : Prop := {
  sg_ok : seed_ok s';
  sg_count : sd_count s' = sd_count s;
  sg_head : same_head 257 (sd_image s) (sd_image s');
  sg_tree : tree_grows (seed_tree s) (seed_tree s')
}.

Lemma seed_grows_refl s : seed_ok s -> seed_grows s s.
Proof. intros H. split; [done|done|reflexivity|by intros ? ?]. Qed.

Lemma seed_grows_trans s1 s2 s3 : seed_grows s1 s2 -> seed_grows s2 s3 -> seed_grows s1 s3.
Proof. intros [] []. split; [done|congruence|by trans (sd_image s2)|intros id n H; auto]. Qed.

Lemma t_child_grows t t' p nm id : tree_grows t t' -> t_child t p nm id -> t_child t' p nm id.
Proof. intros Hg (n & Hn & H). exists n. auto. Qed.

Lemma t_is_dir_grows t t' id : tree_grows t t' -> t_is_dir t id -> t_is_dir t' id.
Proof. intros Hg [->|(n & Hn & H)]; [by left|right]. exists n. auto. Qed.

(** A new node under a name its parent does not have. *)
Lemma add_node t t' id m : names_unique t -> t id = None -> (forall j, t' j = tset t id (Some m) j) -> (forall j, ~ t_child t (nd_parent m) (nd_name m) j) ->
  names_unique t' /\ tree_grows t t' /\ t' id = Some m.
Proof.
  intros Hu Hn Ht Hc. split_and!.
  - intros i j p nm (a & Ha & Ha') (b & Hb & Hb'). rewrite Ht in Ha, Hb. eapply (names_unique_set t id m); [done|intros k Hk; by apply Hc in Hk|by exists a|by exists b].
  - intros j n Hj. rewrite Ht, tset_ne; [done|]. intros ->. congruence.
  - by rewrite Ht, tset_eq.
Qed.

(** The result and the change of state of an operation that goes through. *)
Definition adds {A} (Q : A -> seed -> Prop) (s : seed) (run : (Z + A) * seed) : Prop :=
  match run with
  | (inr a, s') => seed_grows s s' /\ Q a s'
  | (inl c, s') => c = -1 /\ seed_grows s s'
  end.

Lemma valid_dir_seed s id : seed_ok s -> 0 <= id -> valid_dir_id (sd_directory s) id = true <-> t_is_dir (seed_tree s) id.
Proof. intros []. by apply valid_dir_abs. Qed.

Lemma t_is_dir_u32 s id : seed_ok s -> t_is_dir (seed_tree s) id -> is_u32 id.
Proof.
  intros [] [->|(n & Hn & _)]; [by split|]. destruct (abs_node_entry _ _ so_dir0 _ _ Hn) as (_ & _ & Ht & _). unfold t_id in Ht. rewrite max_files in Ht. cint.
Qed.

Lemma make_dir_ok s parent nm : seed_ok s -> t_is_dir (seed_tree s) parent -> bytes nm ->
  adds (fun id s' => t_is_dir (seed_tree s') id /\ t_child (seed_tree s') parent (cstr nm) id) s (make_dir parent nm s).
Proof.
  intros Hs Hp Hb. pose proof (t_is_dir_u32 s parent Hs Hp) as Hpu. pose proof Hs as []. unfold make_dir. pose proof (seed_grows_refl s Hs) as Hself.
  destruct (valid_name nm) eqn:Hn; cbn [negb]; [|done]. destruct (find_entry_in_dir (sd_directory s) parent nm) as [i|] eqn:Ef.
  - destruct (find_entry_Some _ _ _ (image_view (sd_image s)) so_dir0 so_wf0 _ _ _ Ef) as (n & Hi & Hni & Hc & _ & _ & _ & _ & Ht).
    destruct (Z.eqb_spec (used (dir_entry (sd_directory s) i)) LAINFS_ENTRY_DIR) as [Eu|]; cbn [negb]; [|done].
    split; [done|]. rewrite entry_id_index by done. split; [|done]. right. exists n. split; [done|by apply Ht].
  - destruct (find_free_entry (sd_directory s)) as [i|] eqn:Eff; [|done].
    destruct (find_free_Some _ (image_view (sd_image s)) so_dir0 i Eff) as (Hi & _ & Hu & Habs & _).
    destruct (new_dir_entry_ok nm parent Hn Hb Hpu) as (Hok & Hpe & _ & Hnm). change (new_dir_entry nm parent) with (seed_dir_entry nm parent) in *.
    set (s' := set_sd_directory _ s). rewrite entry_id_index by done.
    destruct (add_node (seed_tree s) (seed_tree s') (i + 1) (NDir parent (cstr nm)) so_names0 Habs) as (Hun & Hg & Hnew).
    { intros j. unfold seed_tree, s'. cbn [sd_image sd_directory set_sd_directory]. rewrite abs_tree_put by done. unfold abs_entry. cbn [used seed_dir_entry]. by rewrite Hpe, Hnm. }
    { intros j. by apply find_entry_None. }
    split; [split; [|done|reflexivity|done]|].
    + split; [by destruct so_shape0|by apply put_entry_shape|apply (new_dir_wf format_super); try done; apply valid_dir_seed; [done|unfold is_u32 in Hpu; lia|done]|done|].
      intros j e He Hue. apply lookup_put in He as [[-> ->]|[_ He]]; [done|by eapply so_flat0|done|done].
    + split; [right; eexists; split; [exact Hnew|done]|]. by exists (NDir parent (cstr nm)).
Qed.

(** ** Saving a file *)

Lemma seed_file_entry_ok parent nm start size : valid_name nm = true -> bytes nm -> is_u32 parent -> is_u32 start -> is_u32 size ->
  let e := seed_file_entry parent nm start size in
  dirent_ok e /\ entry_parent_id e = parent /\ entry_name_is_valid (name e) = true /\ cstr (name e) = cstr nm /\
  entry_extent_meta e = 0 /\ entry_extents e = Some [Extent start (required size)].
Proof.
  intros Hn Hb Hp Hs Hz e. destruct (valid_name_entry nm (replicate 31 0) Hn) as [Hv Hc]; [done|].
  assert (Hok : dirent_ok (set_byte_size (set_start_lba (set_name (set_used zero_dirent LAINFS_ENTRY_FILE) (copy_name (name (set_used zero_dirent LAINFS_ENTRY_FILE)) nm)) start) size)).
  { apply set_byte_size_ok; [done|]. apply set_start_lba_ok; [done|]. apply set_name_copy_ok; [done|]. apply set_used_ok; [by split|apply zero_dirent_ok]. }
  assert (Hm : entry_extent_meta e = 0).
  { unfold entry_extent_meta, e, seed_file_entry, set_entry_parent_id. cbn [reserved set_reserved]. rewrite read_le32_splice_other; [done|right; cbn; lia|cbn; lia]. }
  split_and!; [by apply set_entry_parent_id_ok|by apply entry_parent_set|done|done|done|].
  unfold e, seed_file_entry. rewrite entry_extents_set_parent by done. done.
Qed.

(** A run that was found lies in the data area, clear of all files. *)
Lemma find_free_extent_ok sb count dir blocks start : 0 <= sb_data_start_lba sb -> count < 2 ^ 32 -> find_free_extent sb count dir blocks = Some start -> 0 <= blocks ->
  sb_data_start_lba sb <= start /\ start + blocks <= count /\ 0 < blocks /\
  forall e, e ∈ dir -> used e = LAINFS_ENTRY_FILE -> ranges_overlap start blocks (start_lba e) (allocated_blocks_for_entry e) = false.
Proof.
  intros Hd Hc H Hb0. change (2 ^ 32) with 4294967296 in *. unfold find_free_extent in H. destruct (_ || _) eqn:Eb; [done|]. bool_prop. revert H. generalize (Z.to_nat (count - sb_data_start_lba sb)) as fuel. intros fuel.
  assert (Hge : sb_data_start_lba sb <= sb_data_start_lba sb) by lia. revert Hge. generalize (sb_data_start_lba sb) at 2 3. intros from.
  revert from. induction fuel as [|fuel IH]; intros from Hge H; cbn [free_extent_loop] in H; [done|]. destruct (Z.ltb_spec count (from + blocks)); [done|].
  rewrite u32_small in H by (unfold is_u32; lia). destruct (seed_extent_is_free sb dir from blocks) eqn:Ef; [|by apply (IH (from + 1)); [lia|]].
  injection H as <-. split_and!; [lia|lia|lia|]. intros e He Hu. unfold seed_extent_is_free in Ef. destruct (_ || _); [done|]. apply negb_true_iff in Ef.
  destruct (ranges_overlap _ _ _ _) eqn:Eo; [|done]. exfalso. revert Ef. apply not_false_iff_true, existsb_exists. exists e. split; [by apply list_elem_of_In|]. by rewrite Hu, Eo.
Qed.

(** Files of the tool have one extent. *)
Lemma flat_extents s i e xs : seed_ok s -> sd_directory s !! i = Some e -> used e = LAINFS_ENTRY_FILE -> entry_extents e = Some xs ->
  xs = [Extent (start_lba e) (allocated_blocks_for_entry e)] /\ extent_in_data format_super (sd_count s) (Extent (start_lba e) (allocated_blocks_for_entry e)).
Proof.
  intros [] Hi Hu Hx. assert (Hxs : xs = [Extent (start_lba e) (allocated_blocks_for_entry e)]).
  { unfold entry_extents in Hx. rewrite (so_flat0 i e Hi Hu) in Hx. cbn [Z.eqb] in Hx. congruence. }
  split; [done|]. destruct (ew_file _ _ _ _ _ (dw_entries _ _ _ so_wf0 i e Hi ltac:(rewrite Hu; done)) Hu) as (_ & ys & Hys & Hin & _).
  assert (ys = xs) as -> by congruence. subst xs. by inversion Hin.
Qed.

Lemma save_file_ok s parent nm data : seed_ok s -> t_is_dir (seed_tree s) parent -> bytes nm -> bytes data ->
  adds (fun _ s' => exists id, seed_tree s' id = Some (NFile parent (cstr nm) data)) s (save_file parent nm data (Z.of_nat (length data)) s).
Proof.
  intros Hs Hp Hb Hdata. pose proof (t_is_dir_u32 s parent Hs Hp) as Hpu. pose proof Hs as []. pose proof so_shape0 as []. unfold save_file. pose proof (seed_grows_refl s Hs) as Hself.
  set (size := Z.of_nat (length data)). fold (required size). destruct (valid_name nm) eqn:Hn; cbn [negb]; [|done].
  destruct (Z.ltb_spec LAINFS_FILE_CAPACITY size) as [|Hsz]; [done|]. destruct (find_entry_in_dir (sd_directory s) parent nm) as [|] eqn:Ef; [done|].
  destruct (find_free_entry (sd_directory s)) as [i|] eqn:Eff; [|done]. rewrite ss_super0. destruct (find_free_extent _ _ _ _) as [start|] eqn:Ex; [|done].
  destruct (required_range size) as [Hreq Hcov]; [lia|]. destruct (find_free_Some _ (image_view (sd_image s)) so_dir0 i Eff) as (Hi & _ & Hu & Habs & _).
  destruct (find_free_extent_ok format_super (sd_count s) _ _ _ ltac:(done) ltac:(lia) Ex ltac:(lia)) as (H1 & H2 & _ & Hfree). change (sb_data_start_lba format_super) with 257 in H1. change (2 ^ 32) with 4294967296 in *.
  destruct (seed_file_entry_ok parent nm start size Hn Hb Hpu) as (Hok & Hpe & Hnv & Hnm & Hm & Hxs); [unfold is_u32; lia|unfold is_u32; change LAINFS_FILE_CAPACITY with 4194304 in Hsz; lia|].
  set (e := seed_file_entry parent nm start size) in *. set (s1 := set_sd_directory _ s).
  destruct (write_file_blocks_ok data size start (Z.to_nat (required size)) Hdata H1 0 s1) as (s' & Hr & Hs' & Hc' & Hd' & Hh' & Hv'); [by split|lia|cbn; lia|].
  rewrite Hr. cbn [sd_count set_sd_directory sd_directory sd_image s1] in Hc', Hd', Hh', Hv'.
  assert (Hdata_in : extent_in_data format_super (sd_count s) (Extent start (required size))).
  { unfold extent_in_data. cbn [ex_start_lba ex_blocks]. change (sb_data_start_lba format_super) with 257. lia. }
  assert (Hdis : forall j b xs x, sd_directory s !! j = Some b -> used b = LAINFS_ENTRY_FILE -> entry_extents b = Some xs -> x ∈ xs -> ex_disjoint (Extent start (required size)) x).
  { intros j b xs x Hj Hub Hxb Hx. destruct (flat_extents s j b xs Hs Hj Hub Hxb) as [-> Hin]. apply list_elem_of_singleton in Hx as ->.
    apply (ranges_overlap_spec format_super (sd_count s)); [lia|done|done|done|]. apply Hfree; [by eapply list_elem_of_lookup_2|done]. }
  assert (Hkeep : forall id, abs_tree (image_view (sd_image s')) (sd_directory s) id = seed_tree s id).
  { intros id. apply (abs_tree_ext format_super (sd_count s)); [done|done|]. intros j b xs x k Hj Hub Hxb Hx Hk. specialize (Hdis j b xs x Hj Hub Hxb Hx).
    destruct (flat_extents s j b xs Hs Hj Hub Hxb) as [-> (? & Hge & ?)]. apply list_elem_of_singleton in Hx as ->. unfold in_extent, ex_disjoint in *. cbn [ex_start_lba ex_blocks] in Hk, Hdis, Hge.
    change (sb_data_start_lba format_super) with 257 in Hge. rewrite Hv' by lia. by rewrite decide_False by lia. }
  assert (Hbytes : file_bytes (image_view (sd_image s')) e = data).
  { unfold file_bytes. rewrite Hxs. change (default [] (Some ?x)) with x. unfold block_list. cbn [fmap list_fmap concat ex_start_lba ex_blocks]. rewrite app_nil_r. change (byte_size e) with size.
    trans (take (Z.to_nat size) data); [|apply take_ge; lia]. rewrite <- (file_sectors_concat data size (required size)) by lia. do 2 f_equal.
    apply list_eq. intros k. rewrite !list_lookup_fmap. destruct (decide (Z.of_nat k < required size)) as [Hk|Hk]; [|by rewrite !lookup_seqZ_ge by lia]. rewrite !lookup_seqZ_lt by lia. cbn [fmap option_fmap option_map]. f_equal.
    rewrite Hv' by lia. rewrite decide_True by lia. change (seed_sector data size) with (file_sector data size). f_equal. lia. }
  destruct (add_node (seed_tree s) (seed_tree s') (i + 1) (NFile parent (cstr nm) data) so_names0 Habs) as (Hun & Hg & Hnew).
  { intros j. unfold seed_tree at 1. rewrite Hd', abs_tree_put by done. unfold tset. destruct (decide (j = i + 1)); [|apply Hkeep]. unfold abs_entry. change (used e) with LAINFS_ENTRY_FILE.
    cbn [Z.eqb Pos.eqb LAINFS_ENTRY_FILE]. by rewrite Hpe, Hnm, Hbytes. }
  { intros j. by apply find_entry_None. }
  split; [|by exists (i + 1)]. split; [|done|done|done]. split; [done| | |done|].
  - rewrite Hd'. by apply put_entry_shape.
  - rewrite Hd', Hc'. apply put_entry_wf; [done|done|done| |].
    + intros j b _ Hj Hub Hpb. exfalso. by eapply (free_no_child format_super (sd_count s)).
    + intros _. assert (Hvd : valid_dir_id (sd_directory s) parent = true) by (apply valid_dir_seed; [done|unfold is_u32 in Hpu; lia|done]).
      split; [by left|done| |done|].
      * split; rewrite Hpe; [|apply valid_dir_parent; [unfold is_u32 in Hpu; lia|done]]. intros ->. apply valid_dir_parent in Hvd as [?|[_ Hvd]]; [unfold LAINFS_ROOT_DIR in *; lia| |lia].
        replace (i + 1 - 1) with i in Hvd by lia. rewrite Hu in Hvd. done.
      * intros _. split; [split; [done|]; exists [Extent start (required size)]; split_and!; [done| |done]|].
        -- by constructor; [|constructor].
        -- intros j b xs ys _ Hj Hub Hx1 Hy1. assert (xs = [Extent start (required size)]) as -> by congruence. intros x y Hx Hy. apply list_elem_of_singleton in Hx as ->. by eapply Hdis.
  - intros j b Hj Hub. rewrite Hd' in Hj. apply lookup_put in Hj as [[-> ->]|[_ Hj]]; [done|by eapply so_flat0|done|done].
Qed.

(** ** Importing *)

Lemma t_path_grows t t' p names id : tree_grows t t' -> t_path t p names id -> t_path t' p names id.
Proof.
  intros Hg. induction 1 as [p nm id Hc|p nm d rest id Hc Hdir _ IH]; [by apply tp_here, (t_child_grows t)|].
  apply (tp_below _ _ _ d); [by apply (t_child_grows t)|by apply (t_is_dir_grows t)|done].
Qed.

Lemma adds_ret {A} (Q : A -> seed -> Prop) s a : seed_ok s -> Q a s -> adds Q s (inr a, s).
Proof. intros Hs Hq. split; [by apply seed_grows_refl|done]. Qed.

Lemma adds_fail {A} (Q : A -> seed -> Prop) s : seed_ok s -> adds Q s (inl (-1), s).
Proof. intros Hs. split; [done|by apply seed_grows_refl]. Qed.

Lemma adds_bind {A C} (Q : A -> seed -> Prop) (R : C -> seed -> Prop) (m : M seed A) (k : A -> M seed C) s :
  adds Q s (m s) -> (forall a s', seed_grows s s' -> Q a s' -> adds R s' (k a s')) -> adds R s ((a ← m; k a) s).
Proof.
  unfold mbind, M_bind. destruct (m s) as [[c|a] s1]; cbn; [done|]. intros [Hg Hq] Hk. specialize (Hk a s1 Hg Hq). destruct (k a s1) as [[c|b] s2]; cbn in *; destruct Hk as [H1 H2]; (split; [|done]) || (split; [done|]); by eapply seed_grows_trans.
Qed.

(** A loop whose rounds go through keeps what each of them did. *)
Lemma each_path_ok (J : seed -> Prop) (P : list Z -> seed -> Prop) f paths s :
  (forall p s s', P p s -> seed_grows s s' -> P p s') -> (forall s s', J s -> seed_grows s s' -> J s') ->
  (forall p s, p ∈ paths -> seed_ok s -> J s -> adds (fun _ => P p) s (f p s)) -> seed_ok s -> J s ->
  adds (fun _ s' => forall p, p ∈ paths -> P p s') s (each_path f paths s).
Proof.
  intros HP HJ. revert s. induction paths as [|p paths IH]; intros s Hf Hs Hj; cbn [each_path].
  - apply adds_ret; [done|]. intros p Hp. by apply not_elem_of_nil in Hp.
  - apply (adds_bind (fun _ => P p)); [apply Hf; [by left|done|done]|]. intros [] s1 Hg Hp1.
    assert (Hr : adds (fun _ s' => forall q, q ∈ paths -> P q s') s1 (each_path f paths s1)) by (apply IH; [intros q s2 Hq; apply Hf; by right|apply Hg|by eapply HJ]).
    destruct (each_path f paths s1) as [[c|u] s2]; cbn in *; [done|]. destruct Hr as [Hg2 Hr]. split; [done|]. intros q Hq. apply elem_of_cons in Hq as [->|Hq]; [by eapply HP|auto].
Qed.

Section host.
Context `{!HostFs, !HostLaws}.

(** File [data] of the host is reached from [path] under these names. *)
Inductive listed : list Z -> list (list Z) -> list Z -> Prop :=
| listed_file path data : hf_stat path = Some KindFile -> hf_contents path = Some data -> listed path [base_name path] data
| listed_dir path names d_name comps data : hf_stat path = Some KindDir -> hf_names path = Some names -> d_name ∈ names -> d_name <> [46] -> d_name <> [46; 46] ->
    listed (path ++ [47] ++ d_name) comps data -> listed path (base_name path :: comps) data.

(** All files below a path are below a directory of the image. *)
Definition imported (parent : Z) (path : list Z) (s : seed) : Prop :=
  forall comps data, listed path comps data -> exists id p nm, t_path (seed_tree s) parent (cstr <$> comps) id /\ seed_tree s id = Some (NFile p nm data).

Lemma imported_grows parent path s s' : imported parent path s -> seed_grows s s' -> imported parent path s'.
Proof. intros Hi [] comps data Hl. destruct (Hi comps data Hl) as (id & p & nm & Hp & Hn). exists id, p, nm. split; [by eapply t_path_grows|by apply sg_tree0]. Qed.

Lemma base_loop_bytes last path : bytes last -> bytes path -> bytes (base_loop last path).
Proof. intros Hl Hp. revert last Hl. induction Hp as [|c path Hc Hp IH]; intros last Hl; cbn [base_loop]; [done|]. apply IH. by destruct (c =? 47). Qed.

Lemma import_path_ok fuel parent path s : seed_ok s -> t_is_dir (seed_tree s) parent -> bytes path -> (1 <= fuel)%nat -> 513 <= Z.of_nat fuel + Z.of_nat (length path) ->
  adds (fun _ => imported parent path) s (import_path_at fuel parent path s).
Proof using All.
  revert parent path s. induction fuel as [|fuel IH]; intros parent path s Hs Hp Hb H1 Hf; [lia|]. cbn [import_path_at].
  assert (Hbn : bytes (base_name path)) by by apply base_loop_bytes. destruct (hf_stat path) as [[]|] eqn:Est; [| | |by apply adds_fail].
  - eapply adds_bind; [by apply make_dir_ok|]. intros dir_id s1 Hg [Hdir Hch]. unfold import_directory_contents. pose proof (sg_ok _ _ Hg) as Hs1. destruct (hf_names path) as [names|] eqn:En; [|by apply adds_fail].
    assert (Hr : adds (fun _ s' => forall d, d ∈ names -> d <> [46] -> d <> [46; 46] -> imported dir_id (path ++ [47] ++ d) s') s1 (each_path (import_child (import_path_at fuel dir_id) path) names s1)).
    { apply (each_path_ok (fun s => t_is_dir (seed_tree s) dir_id) (fun d s' => d <> [46] -> d <> [46; 46] -> imported dir_id (path ++ [47] ++ d) s')); [| | |done|done].
      - intros d s2 s3 Hi Hg2 Hd1 Hd2. eapply imported_grows; [by apply Hi|done].
      - intros s2 s3 Hd2 Hg2. by eapply t_is_dir_grows; [apply Hg2|].
      - intros d s2 Hd Hs2 Hd2. unfold import_child. destruct (bool_decide (d = [46])) eqn:E1; [apply adds_ret; [done|intros ?; by apply bool_decide_eq_true in E1]|]. destruct (bool_decide (d = [46; 46])) eqn:E2; [apply adds_ret; [done|intros ? ?; by apply bool_decide_eq_true in E2]|].
        cbn [orb]. destruct (Z.leb_spec 512 (Z.of_nat (length (path ++ [47] ++ d)))) as [|Hlt]; [by apply adds_fail|]. rewrite !length_app in Hlt. cbn [length] in Hlt.
        assert (Hbd : bytes d) by (pose proof (hl_names path names En) as Hf'; rewrite Forall_elem in Hf'; by apply Hf').
        assert (Hr : adds (fun _ => imported dir_id (path ++ [47] ++ d)) s2 (import_path_at fuel dir_id (path ++ [47] ++ d) s2)).
        { apply IH; [done|done|rewrite !Forall_app; split_and!; [done|constructor; [cint|constructor]|done]|lia|rewrite !length_app; cbn [length]; lia]. }
        destruct (import_path_at _ _ _ s2) as [[c|u] s3]; [done|]. destruct Hr as [? ?]. by split. }
    destruct (each_path _ names s1) as [[c|u] s2]; cbn in *; [done|]. destruct Hr as [Hg2 Hr]. split; [done|]. intros comps data Hl.
    inversion Hl as [? ? Hst|? names' d comps' ? Hst Hnm Hd Hd1 Hd2 Hl']; subst; [congruence|]. assert (names' = names) as -> by congruence.
    destruct (Hr d Hd Hd1 Hd2 comps' data Hl') as (id & p & nm & Hpath & Hn). exists id, p, nm. split; [|done].
    rewrite fmap_cons. apply (tp_below _ _ _ dir_id); [by eapply t_child_grows; [apply Hg2|]|by eapply t_is_dir_grows; [apply Hg2|]|done].
  - destruct (read_host_file path) as [data|] eqn:Er; [|by apply adds_fail]. unfold read_host_file in Er. destruct (hf_contents path) as [data'|] eqn:Ec; [|done]. cbn [mbind option_bind] in Er. destruct (_ <? _); [done|]. injection Er as ->.
    pose proof (save_file_ok s parent (base_name path) data Hs Hp Hbn (hl_contents _ _ Ec)) as Hr. destruct (save_file _ _ _ _ s) as [[c|u] s1]; [done|]. destruct Hr as [Hg (id & Hn)]. split; [done|].
    intros comps data' Hl. inversion Hl as [? ? Hst Hco|]; subst; [|congruence]. assert (data' = data) as -> by congruence. exists id, parent, (cstr (base_name path)). split; [|done]. apply tp_here. by eexists.
  - apply adds_ret; [done|]. intros comps data Hl. inversion Hl; congruence.
Qed.
End host.

(** ** The whole run *)

Lemma seed_mbr_ok count : is_u32 count -> length (seed_mbr 2048 count) = 512%nat /\ bytes (seed_mbr 2048 count).
Proof. intros Hc. split; [done|]. unfold seed_mbr. rewrite !Forall_app. split_and!; first [apply write_le32_bytes|apply Forall_replicate; cint|repeat (apply Forall_cons_2; [by split|]); apply Forall_nil_2]. Qed.

Lemma seed_mbr_partition image count : is_u32 count -> take 512 image = seed_mbr 2048 count -> find_partition image = (2048, count).
Proof.
  intros Hc Hm. unfold find_partition. rewrite Hm. change ((byte_at (seed_mbr 2048 count) 510 =? 0x55) && _ && _) with true. cbn [andb]. f_equal.
  change (drop 458 (seed_mbr 2048 count)) with (write_le32 count ++ replicate 48 0 ++ [0x55; 0xAA]). apply read_write_le32; [done|]. rewrite Forall_app. split; [apply Forall_replicate; cint|repeat (apply Forall_cons_2; [by split|]); apply Forall_nil_2].
Qed.

(** What the other tools see before the directory. *)
Record seed_head (image : list Z) (count : Z) : Prop := {
  hd_mbr : take 512 image = seed_mbr 2048 count;
  hd_super : image_view image 0 = bytes_of_superblock format_super
}.

Lemma same_head_view from image image' b : same_head from image image' -> 0 <= b < from -> image_view image' b = image_view image b.
Proof.
  intros [_ Hh] Hb. unfold image_view, block_at. rewrite !take_drop_commute. rewrite <- (take_within _ (Z.to_nat ((2048 + from) * 512)) image'), <- (take_within _ (Z.to_nat ((2048 + from) * 512)) image) by lia. by rewrite Hh.
Qed.

Lemma seed_head_kept from image image' count : 1 <= from -> same_head from image image' -> seed_head image count -> seed_head image' count.
Proof.
  intros Hf Hh []. split; [|by rewrite (same_head_view from image) by (done || lia)]. destruct Hh as [_ Hh].
  rewrite <- (take_within _ (Z.to_nat ((2048 + from) * 512)) image'), Hh, take_within by lia. done.
Qed.

(** Saving the table. *)
Lemma save_directory_ok s : seed_shape s -> dir_shape (sd_directory s) ->
  let s' := set_sd_image (splice (Z.to_nat ((2048 + 1) * 512)) (bytes_of_directory (sd_directory s)) (sd_image s)) s in
  seed_save_directory s = (inr tt, s') /\ seed_shape s' /\ same_head 1 (sd_image s) (sd_image s') /\ (forall b, 257 <= b -> image_view (sd_image s') b = image_view (sd_image s) b).
Proof.
  intros Hs [Hl Hok] s'. destruct (bytes_of_directory_ok _ Hl Hok) as [Hbl Hbb]. unfold seed_save_directory. pose proof Hs as []. rewrite ss_super0. change (sb_dir_start_lba format_super) with 1.
  destruct (seed_write_ok s 1 (bytes_of_directory (sd_directory s)) Hs) as [Hr Hs']; [lia|lia|done|]. split; [done|]. split; [done|]. split; [apply splice_same_head; lia|].
  intros b Hb. unfold image_view, block_at, s'. cbn [sd_image set_sd_image]. unfold splice. rewrite drop_app_ge by (rewrite length_take; lia). rewrite drop_app_ge by (rewrite length_take; lia). rewrite drop_drop, length_take. do 2 f_equal. lia.
Qed.

Definition seed_init (image : list Z) : seed := Seed image 0 0 (superblock_of_bytes []) (replicate (Z.to_nat LAINFS_MAX_FILES) zero_dirent).

Lemma seed_start_ok image : bytes image -> 2306 * 512 <= Z.of_nat (length image) <= 2 ^ 41 ->
  let count := Z.of_nat (length image) / 512 - 2048 in
  exists s1 s2, create_mbr (seed_init image) = (inr tt, s1) /\ format_lainfs s1 = (inr tt, s2) /\ seed_ok s2 /\ sd_directory s2 = empty_directory /\
    sd_count s2 = count /\ length (sd_image s2) = length image /\ seed_head (sd_image s2) count.
Proof.
  intros Hb Hl count. change (2 ^ 41) with 2199023255552 in Hl. assert (Hc : 257 < count < 4294967296) by (unfold count; split; [|]; Z.div_mod_to_equations; lia).
  assert (Hfit : (2048 + count) * 512 <= Z.of_nat (length image)) by (unfold count; Z.div_mod_to_equations; lia).
  destruct (seed_mbr_ok count) as [Hml Hmb]; [unfold is_u32; lia|]. unfold create_mbr, seed_init. cbn [sd_image sd_super sd_directory set_sd_image]. change LAINFS_BLOCK_SIZE with 512. change DATA_PARTITION_START_LBA with 2048.
  rewrite (proj2 (Z.ltb_ge _ _)) by lia. rewrite (proj2 (Z.leb_gt _ _)) by (unfold count in *; lia). fold count. rewrite (proj2 (Z.ltb_ge _ _)) by lia. change (u32 2048) with 2048. rewrite (u32_small count) by (unfold is_u32; lia).
  rewrite file_write_inside by lia. change (Z.to_nat 0) with 0%nat. set (image1 := splice 0 _ image). assert (Hl1 : length image1 = length image) by (apply length_splice; lia).
  eexists _, _. split; [reflexivity|]. unfold format_lainfs. cbn [sd_image sd_start sd_count sd_super set_sd_image sd_directory]. fold empty_directory. change seed_super with format_super.
  set (s1 := Seed image1 2048 count format_super empty_directory). destruct format_super_bytes as [Hsl Hsb].
  assert (Hs1 : seed_shape s1) by (split; cbn; [done|lia|done|by apply splice_bytes|lia]).
  destruct (seed_write_ok s1 0 (bytes_of_superblock format_super) Hs1) as [Hr2 Hs2]; [lia|cbn; lia|done|]. rewrite (bind_ok _ _ _ _ _ Hr2). set (s2 := set_sd_image _ s1) in *.
  destruct (save_directory_ok s2 Hs2 empty_directory_shape) as (Hr3 & Hs3 & Hh3 & _). rewrite Hr3. set (s3 := set_sd_image _ s2) in *.
  split; [reflexivity|]. assert (Hlen2 : length (sd_image s2) = length image) by (unfold s2; cbn [sd_image set_sd_image s1]; rewrite length_splice by lia; done).
  assert (Hnone : forall id, seed_tree s3 id = None).
  { intros id. unfold seed_tree. change (sd_directory s3) with empty_directory. unfold abs_tree. destruct (decide _); [|done]. by rewrite empty_directory_entry. }
  split_and!; [|done|done|etransitivity; [apply (sh_size _ _ _ Hh3)|done]|].
  - split; [done|apply empty_directory_shape|apply empty_directory_wf, format_layout; cbn; lia|intros i j p nm (n & Hn & _); by rewrite Hnone in Hn|].
    intros i e He Hu. apply lookup_replicate in He as [-> _]. done.
  - apply (seed_head_kept 1 (sd_image s2)); [lia|done|]. split.
    + unfold s2. cbn [sd_image set_sd_image s1]. rewrite take_splice by lia. unfold image1, splice. change (take 0 image) with (@nil Z). cbn [app]. by apply take_app_length'.
    + unfold s2. cbn [sd_image set_sd_image s1]. rewrite splice_view by lia. by rewrite decide_True.
Qed.

(** An image with these blocks loads. *)
Lemma seed_image_loads image count dir : 257 < count < 4294967296 -> (2048 + count) * 512 <= Z.of_nat (length image) -> dir_shape dir -> seed_head image count ->
  host_read_blocks image 2048 1 256 = Some (bytes_of_directory dir) -> load_image image = Some (Tool image 2048 count format_super dir).
Proof.
  intros Hc Hl Hd [Hmbr Hsup] Hr. apply loaded_load_image. destruct format_super_good as [_ Hg].
  assert (Hsuper : host_read_blocks image 2048 0 1 = Some (bytes_of_superblock format_super)).
  { rewrite <- Hsup. apply (host_read_block image 2048 1); lia. }
  split; cbn [tl_image partition_start_lba partition_block_count tl_super tl_directory]; [done|lia| | |done|done| |done|].
  - apply seed_mbr_partition; [unfold is_u32; lia|done].
  - rewrite Hsuper. apply (f_equal Some). by apply superblock_of_bytes_of.
  - change (sb_dir_start_lba format_super) with 1. rewrite Hr. apply (f_equal Some). destruct Hd. by apply directory_of_bytes_of.
  - change (seek_lba 2048 (sb_dir_start_lba format_super)) with 1049088. lia.
Qed.

(** The image behind a run that goes through. *)
Lemma seed_finish_ok s : seed_ok s -> seed_head (sd_image s) (sd_count s) ->
  exists s', seed_save_directory s = (inr tt, s') /\ length (sd_image s') = length (sd_image s) /\
    load_image (sd_image s') = Some (Tool (sd_image s') 2048 (sd_count s) format_super (sd_directory s)) /\
    (forall id, abs_tree (block_at (sd_image s') 2048) (sd_directory s) id = seed_tree s id).
Proof.
  intros [] Hh. destruct (save_directory_ok s so_shape0 so_dir0) as (Hr & Hs' & Hh' & Hv). pose proof so_shape0 as []. change (2 ^ 32) with 4294967296 in *.
  destruct so_dir0 as [Hdl Hdo]. destruct (bytes_of_directory_ok _ Hdl Hdo) as [Hbl Hbb].
  assert (Hread : host_read_blocks (splice (Z.to_nat ((2048 + 1) * 512)) (bytes_of_directory (sd_directory s)) (sd_image s)) 2048 1 256 = Some (bytes_of_directory (sd_directory s))).
  { assert (Hsk : seek_lba 2048 1 = (2048 + 1) * 512) by reflexivity. rewrite <- Hsk. apply host_read_written; lia. }
  eexists. split; [exact Hr|]. cbn [sd_image set_sd_image] in *. set (image' := splice _ _ _) in *. clearbody image'. pose proof (sh_size _ _ _ Hh') as Hlen. split; [done|]. split.
  - apply seed_image_loads; [lia|lia|by split|by apply (seed_head_kept 1 (sd_image s)); [lia|..]|done].
  - intros id. apply (abs_tree_ext format_super (sd_count s)); [by split|done|]. intros j e xs x b Hj Hu Hx Hxi Hb.
    destruct (ew_file _ _ _ _ _ (dw_entries _ _ _ so_wf0 j e Hj ltac:(rewrite Hu; done)) Hu) as (_ & ys & Hys & Hin & _). assert (ys = xs) as -> by congruence.
    rewrite Forall_elem in Hin. destruct (Hin x Hxi) as (_ & Hge & _). change (sb_data_start_lba format_super) with 257 in Hge. unfold in_extent in Hb. apply Hv. lia.
Qed.

(** ** Theorems *)

Lemma text_bytes x : bytes (text x).
Proof. unfold text. apply Forall_fmap, Forall_elem. intros c _. cbn. pose proof (N_ascii_bounded c). unfold is_u8. lia. Qed.

Section theorems.
Context `{!HostFs, !HostLaws}.

(** The paths of a run. *)
Definition seed_paths (paths : list (list Z)) : list (list Z) := match paths with [] => default_paths | _ => paths end.

Lemma import_paths_ok paths s : Forall bytes paths -> seed_ok s ->
  adds (fun _ s' => forall path, path ∈ seed_paths paths -> imported 0 path s') s (import_paths paths s).
Proof using All.
  intros Hb Hs. assert (Hp : Forall bytes (seed_paths paths)).
  { destruct paths; [|done]. apply Forall_fmap, Forall_elem. intros x _. apply text_bytes. }
  assert (import_paths paths = each_path (import_path_at import_fuel 0) (seed_paths paths)) as -> by by destruct paths.
  apply (each_path_ok (fun _ => True) (imported 0)); [intros p s1 s2; apply imported_grows|done| |done|done].
  intros p s1 Hin Hs1 _. rewrite Forall_elem in Hp. apply import_path_ok; [done|by left|by apply Hp|unfold import_fuel; lia|unfold import_fuel; lia].
Qed.

(** C12: what lainfs_seed puts into an image can be read back. For every image
    of a size the tool can use and every host file system, the run ends and
    keeps the size of the image; and when it exits with 0 the image passes the
    check, and every file below the paths on the command line is printed by
    the command cat under the names it has on the host, byte for byte. *)
Theorem seed_reads_back malloc_ok image paths : bytes image -> Forall bytes paths -> 2306 * 512 <= Z.of_nat (length image) <= 2 ^ 41 -> (forall n, malloc_ok n = true) ->
  exists code image', seed_main image paths = Some (code, image') /\ length image' = length image /\
    (code = 1 \/
     code = 0 /\ command_check image' = 0 /\ exists t, load_image image' = Some t /\
       forall path comps data, path ∈ seed_paths paths -> listed path comps data -> command_cat malloc_ok t (join_path (cstr <$> comps)) = (0, data)).
Proof using All.
  intros Hb Hpb Hl Hm. destruct (seed_start_ok image Hb Hl) as (s1 & s2 & Hr1 & Hr2 & Hs2 & _ & Hc2 & Hl2 & Hh2). unfold seed_main. fold (seed_init image). rewrite (bind_ok _ _ _ _ _ Hr1), (bind_ok _ _ _ _ _ Hr2).
  pose proof (import_paths_ok paths s2 Hpb Hs2) as Hi. unfold mbind, M_bind. destruct (import_paths paths s2) as [[c|u] s3].
  - destruct Hi as [-> [_ _ [Hsz _] _]]. eexists 1, _. split; [done|]. split; [congruence|by left].
  - destruct Hi as [[Hs3 Hc3 Hh3 _] Himp]. rewrite <- Hc2, <- Hc3 in Hh2. destruct (seed_finish_ok s3 Hs3) as (s4 & Hr4 & Hl4 & Hload & Htree); [by apply (seed_head_kept 257 (sd_image s2)); [lia|..]|].
    rewrite Hr4. eexists 0, _. split; [done|]. split; [rewrite Hl4, (sh_size _ _ _ Hh3); done|]. right. split; [done|]. destruct Hs3. pose proof so_shape0 as []. pose proof (proj2 ss_count0) as Hclt. destruct format_super_good as [_ Hg]. change (2 ^ 41) with 2199023255552 in *.
    split; [unfold command_check; rewrite Hload; cbn [tl_super partition_block_count tl_directory]; by rewrite (proj2 (check_directory_None _ _ _ Hclt Hg so_dir0) so_wf0)|].
    eexists. split; [exact Hload|]. intros path comps data Hp Hlist. destruct (Himp path Hp comps data Hlist) as (id & p & nm & Hpath & Hn).
    assert (Hgr : tree_grows (seed_tree s3) (abs_tree (block_at (sd_image s4) 2048) (sd_directory s3))) by (intros j n Hj; by rewrite Htree).
    assert (Hcount : sd_count s3 + 2048 <= 4294967296) by (rewrite Hc3, Hc2; Z.div_mod_to_equations; lia).
    apply (command_cat_ok malloc_ok _ _ id p nm); cbn [tl_super partition_start_lba partition_block_count tl_directory tl_image]; try done; [change (2 ^ 32) with 4294967296; lia|rewrite Hl4; lia| |by eapply t_path_grows|by apply Hgr].
    intros i j q nm' (a & Ha & Ha') (b & Hb' & Hb2). rewrite Htree in Ha, Hb'. eapply so_names0; by eexists.
Qed.
End theorems.

(** ** A host with one file *)

#[local] Instance demo_host : HostFs := {
  hf_stat path := if bool_decide (path = [97]) then Some KindFile else None;
  hf_names path := None;
  hf_contents path := if bool_decide (path = [97]) then Some [1; 2; 3] else None
}.

Lemma demo_host_laws : HostLaws.
Proof. split; [done|]. intros path data. cbn. destruct (bool_decide _); [|done]. intros [= <-]. repeat (apply Forall_cons_2; [by split|]). apply Forall_nil_2. Qed.

(** The smallest image that is taken. *)
Definition demo_image : list Z := replicate (Z.to_nat (2306 * 512)) 0.

Lemma demo_image_ok : bytes demo_image /\ Z.of_nat (length demo_image) = 2306 * 512.
Proof. unfold demo_image. split; [apply Forall_replicate; cint|]. rewrite length_replicate. lia. Qed.

Lemma demo_seed_runs image : bytes image -> Z.of_nat (length image) = 2306 * 512 -> exists image', seed_main image [[97]] = Some (0, image').
Proof.
  intros Hb Hl. destruct (seed_start_ok image Hb) as (s1 & s2 & Hr1 & Hr2 & Hs2 & Hd2 & Hc2 & _ & _); [rewrite Hl; change (2 ^ 41) with 2199023255552; lia|]. rewrite Hl in Hc2. change (2306 * 512 / 512 - 2048) with 258 in Hc2.
  pose proof (so_shape _ Hs2) as Hsh. pose proof (ss_super _ Hsh) as Hsb.
  assert (Hsave : exists s3, import_paths [[97]] s2 = (inr tt, s3) /\ seed_shape s3 /\ dir_shape (sd_directory s3)).
  { unfold import_paths, each_path. change (import_path_at import_fuel 0 [97]) with (save_file 0 [97] [1; 2; 3] 3). unfold mbind, M_bind, save_file. rewrite Hd2, Hsb, Hc2.
    change (find_entry_in_dir empty_directory 0 [97]) with (@None Z). change (find_free_entry empty_directory) with (Some 0). change (valid_name [97]) with true. change (LAINFS_FILE_CAPACITY <? 3) with false.
    change (blocks_for_size 3) with 1. cbn [negb Z.eqb Pos.eqb]. change (find_free_extent format_super 258 empty_directory 1) with (Some 257). cbv iota beta.
    set (s := set_sd_directory _ s2). destruct (write_file_blocks_ok [1; 2; 3] 3 257 1) with (block := 0) (s := s) as (s3 & Hr & Hs3 & _ & Hd3 & _); [repeat (apply Forall_cons_2; [by split|]); apply Forall_nil_2|lia|destruct Hsh; by split|lia|change (sd_count s) with (sd_count s2); lia|].
    change (Z.to_nat 1) with 1%nat. rewrite Hr. exists s3. split; [done|]. split; [done|]. rewrite Hd3. apply put_entry_shape; [apply empty_directory_shape|].
    apply (seed_file_entry_ok 0 [97] 257 3); [done|repeat (apply Forall_cons_2; [by split|]); apply Forall_nil_2|by split..]. }
  destruct Hsave as (s3 & Hr3 & Hs3 & Hd3). destruct (save_directory_ok s3 Hs3 Hd3) as (Hr4 & _).
  eexists. unfold seed_main. fold (seed_init image). rewrite (bind_ok _ _ _ _ _ Hr1), (bind_ok _ _ _ _ _ Hr2), (bind_ok _ _ _ _ _ Hr3), Hr4. reflexivity.
Qed.

Lemma seed_reads_back_witness : exists image' t, seed_main demo_image [[97]] = Some (0, image') /\ command_check image' = 0 /\ load_image image' = Some t /\ command_cat (fun _ => true) t [97] = (0, [1; 2; 3]).
Proof.
  pose proof demo_host_laws as Hlaws. destruct demo_image_ok as [Hb Hl]. destruct (demo_seed_runs demo_image Hb Hl) as [image' Hr].
  assert (Hsz : 2306 * 512 <= Z.of_nat (length demo_image) <= 2 ^ 41) by (rewrite Hl; change (2 ^ 41) with 2199023255552; lia).
  assert (Hp : Forall bytes [[97]]) by (apply Forall_cons_2; [apply Forall_cons_2; [by split|apply Forall_nil_2]|apply Forall_nil_2]).
  destruct (seed_reads_back (fun _ => true) demo_image [[97]] Hb Hp Hsz (fun _ => eq_refl)) as (code & image2 & Hr2 & _ & H).
  assert (E : Some (0, image') = Some (code, image2)) by (rewrite <- Hr; exact Hr2). injection E as <- <-.
  destruct H as [H|(_ & Hc & t & Ht & Hcat)]; [discriminate H|]. exists image', t. split; [exact Hr|]. split; [exact Hc|]. split; [exact Ht|].
  apply (Hcat [97] [[97]] [1; 2; 3]); [by left|]. by apply (listed_file [97] [1; 2; 3]).
Defined.
