(* ===== verification/Registry.v ===== *)
(** The settings registry: kernel/core/registry.c.

    A table of 96 key/value strings. Abstractly a finite map from keys to
    values ([reg_map]); the theorems say that setting, getting, enumerating
    and parsing do what that map says. *)
From Stdlib Require Import ZArith Lia Ascii String.
From stdpp Require Import base tactics option list numbers.
From S2P Require Import Prelude.
#[local] Open Scope Z_scope.

Definition REGISTRY_MAX_ENTRIES : nat := 96.
Definition REGISTRY_KEY_SIZE : nat := 48.
Definition REGISTRY_VALUE_SIZE : nat := 96.
Definition REGISTRY_OK : Z := 0.
Definition REGISTRY_ERR_INPUT : Z := -1.
Definition REGISTRY_ERR_NOT_FOUND : Z := -2.
Definition REGISTRY_ERR_FULL : Z := -3.
Definition REGISTRY_ERR_TOO_LONG : Z := -4.

(** ** Data *)

Record registry_entry : Type := RegistryEntry {
  re_used : bool;
  re_key : list Z;
  re_value : list Z
}.

(** The static variables; of the hook, whether one is installed. *)
Record registry : Type := Registry {
  registry_entries : list registry_entry;
  registry_save_hook : bool;
  registry_save_suspended : bool
}.

Definition zero_entry : registry_entry :=
  RegistryEntry false (replicate REGISTRY_KEY_SIZE 0) (replicate REGISTRY_VALUE_SIZE 0).
Definition zero_registry : registry := Registry (replicate REGISTRY_MAX_ENTRIES zero_entry) false false.

Definition entry_at (r : registry) (i : nat) : registry_entry := default zero_entry (registry_entries r !! i).

(** ** Operations *)

Definition registry_streq (a b : list Z) : bool := str_eq a b.
Definition registry_strlen (s : list Z) : Z := str_len s.
Definition registry_copy (dst : list Z) (dst_size : nat) (src : list Z) : list Z := copy_str dst src dst_size.

Definition registry_find (r : registry) (key : list Z) : option nat :=
  find_index (fun e => re_used e && registry_streq (re_key e) key) (registry_entries r).

Definition registry_hex_digit (ch : Z) : option Z :=
  if (48 <=? ch) && (ch <=? 57) then Some (ch - 48)
  else if (97 <=? ch) && (ch <=? 102) then Some (10 + (ch - 97))
  else if (65 <=? ch) && (ch <=? 70) then Some (10 + (ch - 65))
  else None.

Definition is_blank (c : Z) : bool := (c =? 32) || (c =? 9).

(** [while ( *text == ' ' || *text == '\t') ++text;] *)
Fixpoint skip_blanks (text : list Z) : list Z :=
  match text with
  | c :: rest => if is_blank c then skip_blanks rest else text
  | [] => []
  end.

(** The digit loop. *)
Fixpoint parse_digits (hex : bool) (text : list Z) (value : Z) : option Z :=
  match text with
  | [] => Some value
  | c :: rest =>
      if is_blank c then Some value
      else if hex then
        match registry_hex_digit c with
        | None => None
        | Some digit => parse_digits hex rest (Z.lor (u32 (Z.shiftl value 4)) digit)
        end
      else if (c <? 48) || (57 <? c) then None
      else parse_digits hex rest (u32 (u32 (value * 10) + (c - 48)))
  end.

Definition registry_parse_u32 (text : list Z) : option Z :=
  let text := skip_blanks (cstr text) in
  let '(hex, text) :=
    match text with
    | 35 :: rest => (true, rest)
    | 48 :: 120 :: rest | 48 :: 88 :: rest => (true, rest)
    | _ => (false, text)
    end in
  match text with [] => None | _ => parse_digits hex text 0 end.

(** The code, whether the save hook was called, and the new state. *)
Definition registry_set (key value : list Z) (r : registry) : (Z * bool) * registry :=
  if str_len key =? 0 then (REGISTRY_ERR_INPUT, false, r)
  else if (Z.of_nat REGISTRY_KEY_SIZE <=? registry_strlen key) || (Z.of_nat REGISTRY_VALUE_SIZE <=? registry_strlen value)
  then (REGISTRY_ERR_TOO_LONG, false, r)
  else
    let found :=
      match registry_find r key with
      | Some i => Some (i, registry_entries r)
      | None =>
          match find_index (fun e => negb (re_used e)) (registry_entries r) with
          | None => None
          | Some i =>
              let e := entry_at r i in
              Some (i, <[i := RegistryEntry true (registry_copy (re_key e) REGISTRY_KEY_SIZE key) (re_value e)]> (registry_entries r))
          end
      end in
    match found with
    | None => (REGISTRY_ERR_FULL, false, r)
    | Some (index, entries) =>
        let e := default zero_entry (entries !! index) in
        let entries' := <[index := RegistryEntry (re_used e) (re_key e) (registry_copy (re_value e) REGISTRY_VALUE_SIZE value)]> entries in
        (REGISTRY_OK, negb (registry_save_suspended r) && registry_save_hook r,
         Registry entries' (registry_save_hook r) (registry_save_suspended r))
    end.

Definition registry_set_save_hook (hook : bool) (r : registry) : registry :=
  Registry (registry_entries r) hook (registry_save_suspended r).

Definition registry_suspend_save (suspend : Z) (r : registry) : registry :=
  Registry (registry_entries r) (registry_save_hook r) (negb (suspend =? 0)).

(** The value as the buffer it is stored in. *)
Definition registry_get (r : registry) (key : list Z) : option (list Z) :=
  i ← registry_find r key; Some (re_value (entry_at r i)).

Definition registry_get_u32 (r : registry) (key : list Z) (default_value : Z) : Z * Z :=
  match v ← registry_get r key; registry_parse_u32 v with
  | Some v => (REGISTRY_OK, v)
  | None => (REGISTRY_ERR_NOT_FOUND, default_value)
  end.

Definition used_entries (r : registry) : list registry_entry := filter (fun e => re_used e = true) (registry_entries r).

Definition registry_count (r : registry) : Z := Z.of_nat (length (used_entries r)).
Definition registry_key_at (r : registry) (index : Z) : option (list Z) := re_key <$> used_entries r !! Z.to_nat index.
Definition registry_value_at (r : registry) (index : Z) : option (list Z) := re_value <$> used_entries r !! Z.to_nat index.

Definition ascii_bytes (s : string) : list Z := (fun c => Z.of_N (N_of_ascii c)) <$> list_ascii_of_string s.

Definition registry_defaults : list (string * string) :=
  [("desktop.theme", "lain"); ("desktop.bg.top", "0x35063e"); ("desktop.bg.bottom", "0x2b1d3d");
   ("desktop.bg.image", ""); ("desktop.topbar", "0x100b18"); ("desktop.taskbar", "0x171020");
   ("desktop.panel", "0x221a2d"); ("desktop.panel.inner", "0x3a2f49"); ("desktop.accent", "0xe05f4f");
   ("desktop.accent.soft", "0xb98556"); ("desktop.text", "0xf6eadb"); ("desktop.button", "0x8f3f62");
   ("desktop.task.active", "0x4b2347"); ("desktop.task.inactive", "0x2d2038");
   ("desktop.title.left", "0x7c3a78"); ("desktop.title.right", "0xe05f4f")]%string.

Definition registry_init (r : registry) : registry :=
  fold_left (fun r kv => snd (registry_set (ascii_bytes (fst kv)) (ascii_bytes (snd kv)) r)) registry_defaults r.

(** ** Invariant *)

Definition entry_ok (e : registry_entry) : Prop :=
  length (re_key e) = REGISTRY_KEY_SIZE /\ length (re_value e) = REGISTRY_VALUE_SIZE /\
  (re_used e = true -> cstr (re_key e) <> []).

Record reg_inv (r : registry) : Prop := {
  ri_length : length (registry_entries r) = REGISTRY_MAX_ENTRIES;
  ri_entries : Forall entry_ok (registry_entries r);
  ri_unique i j a b : registry_entries r !! i = Some a -> registry_entries r !! j = Some b ->
    re_used a = true -> re_used b = true -> cstr (re_key a) = cstr (re_key b) -> i = j
}.

(** The map a registry stands for, on keys and values without terminators. *)
Definition reg_map (r : registry) (k : list Z) : option (list Z) :=
  i ← find_index (fun e => re_used e && bool_decide (cstr (re_key e) = k)) (registry_entries r);
  Some (cstr (re_value (entry_at r i))).

Lemma find_index_ext {A} (f g : A -> bool) l : (forall x, f x = g x) -> find_index f l = find_index g l.
Proof. intros H. induction l as [|x l IH]; simpl; [done|]. by rewrite H, IH. Qed.

Lemma registry_find_key r key : registry_find r key =
  find_index (fun e => re_used e && bool_decide (cstr (re_key e) = cstr key)) (registry_entries r).
Proof.
  apply find_index_ext. intros e. f_equal. unfold registry_streq. case_bool_decide as H.
  - by apply str_eq_spec.
  - by apply str_eq_spec_false.
Qed.

Lemma registry_get_map r key : cstr <$> registry_get r key = reg_map r (cstr key).
Proof. unfold registry_get, reg_map. rewrite registry_find_key. by destruct (find_index _ _). Qed.

Lemma reg_map_Some r k v : reg_inv r -> reg_map r k = Some v <->
  exists i e, registry_entries r !! i = Some e /\ re_used e = true /\ cstr (re_key e) = k /\ cstr (re_value e) = v.
Proof.
  intros Hr. unfold reg_map. split.
  - intros (i & Hi & [= <-])%bind_Some. apply find_index_Some in Hi as (e & He & Hm & _). bool_prop.
    apply bool_decide_eq_true in H0. exists i, e. unfold entry_at. by rewrite He.
  - intros (i & e & He & Hu & <- & <-). destruct (find_index _ _) as [j|] eqn:E; cbn.
    + apply find_index_Some in E as (e' & He' & Hm & _). bool_prop. apply bool_decide_eq_true in H0.
      assert (j = i) as -> by by eapply (ri_unique r Hr). unfold entry_at. by rewrite He.
    + apply (proj1 (find_index_None _ _)) with (i := i) (x := e) in E; [|done].
      rewrite Hu, bool_decide_eq_true_2 in E by done. done.
Qed.

Lemma reg_map_None r k : reg_map r k = None <->
  forall i e, registry_entries r !! i = Some e -> re_used e = true -> cstr (re_key e) <> k.
Proof.
  unfold reg_map. split.
  - intros H i e He Hu Hk. destruct (find_index _ _) eqn:E; [done|].
    apply (proj1 (find_index_None _ _)) with (i := i) (x := e) in E; [|done].
    rewrite Hu, bool_decide_eq_true_2 in E by done. done.
  - intros H. destruct (find_index _ _) as [j|] eqn:E; [|done].
    apply find_index_Some in E as (e & He & Hm & _). bool_prop. 
    match goal with H : bool_decide _ = true |- _ => apply bool_decide_eq_true in H end. exfalso. by apply (H j e).
Qed.

(** ** Setting *)

(** Storing an entry in a slot that is free or holds the same key. *)
Lemma reg_put r i e k v : reg_inv r -> (i < REGISTRY_MAX_ENTRIES)%nat -> entry_ok e -> re_used e = true ->
  cstr (re_key e) = k -> cstr (re_value e) = v ->
  (forall j a, j <> i -> registry_entries r !! j = Some a -> re_used a = true -> cstr (re_key a) <> k) ->
  (forall a, registry_entries r !! i = Some a -> re_used a = true -> cstr (re_key a) = k) ->
  let r' := Registry (<[i := e]> (registry_entries r)) (registry_save_hook r) (registry_save_suspended r) in
  reg_inv r' /\ forall k', reg_map r' k' = if decide (k' = k) then Some v else reg_map r k'.
Proof.
  intros Hr Hi He Hu Hk Hv Hother Hold r'.
  assert (Hlk : forall j a, registry_entries r' !! j = Some a <-> (j = i /\ a = e) \/ (j <> i /\ registry_entries r !! j = Some a)).
  { intros j a. cbn. rewrite list_lookup_insert_Some. rewrite (ri_length r Hr). split; [intros [(-> & -> & _)|(? & ?)]; auto|].
    intros [[-> ->]|[? ?]]; auto. }
  assert (Hr' : reg_inv r').
  { split.
    - cbn. rewrite length_insert. apply Hr.
    - apply Forall_insert; [apply Hr|done].
    - intros j l a b Ha Hb Hua Hub Hkey. apply Hlk in Ha as [[-> ->]|[Hj Ha]], Hb as [[-> ->]|[Hl Hb]]; try done.
      + exfalso. apply (Hother l b); [done..|congruence].
      + exfalso. apply (Hother j a); [done..|congruence].
      + by eapply (ri_unique r Hr). }
  split; [done|]. intros k'. destruct (decide (k' = k)) as [->|Hne].
  - apply reg_map_Some; [done|]. exists i, e. split_and!; [apply Hlk; auto|done..].
  - destruct (reg_map r k') as [v'|] eqn:E.
    + apply reg_map_Some in E as (j & a & Ha & Hua & Hka & Hva); [|done]. apply reg_map_Some; [done|].
      exists j, a. split_and!; [|done..]. apply Hlk. right. split; [|done]. intros ->. apply Hne. rewrite <- Hka. auto.
    + rewrite reg_map_None in E |- *. intros j a Ha Hua. apply Hlk in Ha as [[-> ->]|[Hj Ha]]; [congruence|eauto].
Qed.

(** What [registry_set] may do. *)
Definition set_outcome (r : registry) (key value : list Z) (res : (Z * bool) * registry) : Prop :=
  let '(c, saved, r') := res in
  (c = REGISTRY_OK /\ cstr key <> [] /\ (length (cstr key) < 48)%nat /\ (length (cstr value) < 96)%nat /\
     saved = negb (registry_save_suspended r) && registry_save_hook r /\ reg_inv r' /\
     forall k, reg_map r' k = if decide (k = cstr key) then Some (cstr value) else reg_map r k) \/
  (c = REGISTRY_ERR_INPUT /\ cstr key = [] /\ saved = false /\ r' = r) \/
  (c = REGISTRY_ERR_TOO_LONG /\ (48 <= length (cstr key) \/ 96 <= length (cstr value))%nat /\ saved = false /\ r' = r) \/
  (c = REGISTRY_ERR_FULL /\ reg_map r (cstr key) = None /\ registry_count r = 96 /\ saved = false /\ r' = r).

Lemma copy_ok dst src (n : nat) : length dst = n -> (length (cstr src) < n)%nat ->
  length (registry_copy dst n src) = n /\ cstr (registry_copy dst n src) = cstr src.
Proof.
  intros Hd Hs. unfold registry_copy. split; [rewrite length_copy_str; lia|].
  rewrite cstr_copy_str by lia. apply take_ge. lia.
Qed.

Lemma filter_all {A} (f : A -> bool) (l : list A) : (forall i x, l !! i = Some x -> f x = true) -> filter (fun x => f x = true) l = l.
Proof.
  induction l as [|x l IH]; intros H; [done|]. rewrite filter_cons, decide_True by by apply (H 0%nat).
  f_equal. apply IH. intros i y Hy. by apply (H (S i)).
Qed.

Lemma all_used_count r : reg_inv r -> find_index (fun e => negb (re_used e)) (registry_entries r) = None -> registry_count r = 96.
Proof.
  intros Hr H. unfold registry_count, used_entries.
  assert (filter (fun e => re_used e = true) (registry_entries r) = registry_entries r) as ->.
  { apply filter_all. intros i e He. apply (proj1 (find_index_None _ _) H) in He. by bool_prop. }
  by rewrite (ri_length r Hr).
Qed.

Lemma registry_set_ok r key value : reg_inv r -> set_outcome r key value (registry_set key value r).
Proof.
  intros Hr. unfold registry_set, set_outcome, registry_strlen. rewrite !str_len_cstr.
  destruct (Z.eqb_spec (Z.of_nat (length (cstr key))) 0) as [E0|E0].
  { right; left. split_and!; [done| |done|done]. apply length_zero_iff_nil. lia. }
  destruct (_ || _) eqn:E1.
  { right; right; left. split_and!; [done| |done|done]. unfold REGISTRY_KEY_SIZE, REGISTRY_VALUE_SIZE in E1.
    apply orb_true_iff in E1 as [E1|E1]; bool_prop; [left|right]; lia. }
  bool_prop. unfold REGISTRY_KEY_SIZE, REGISTRY_VALUE_SIZE in *.
  assert (Hne : cstr key <> []) by (intros Hn; by rewrite Hn in E0).
  assert (Hmain : forall i e ents, (i < REGISTRY_MAX_ENTRIES)%nat -> entry_ok e -> re_used e = true -> cstr (re_key e) = cstr key ->
    (forall j a, j <> i -> registry_entries r !! j = Some a -> re_used a = true -> cstr (re_key a) <> cstr key) ->
    (forall a, registry_entries r !! i = Some a -> re_used a = true -> cstr (re_key a) = cstr key) ->
    ents = <[i := RegistryEntry (re_used e) (re_key e) (registry_copy (re_value e) 96 value)]> (registry_entries r) ->
    let r' := Registry ents (registry_save_hook r) (registry_save_suspended r) in
    reg_inv r' /\ forall k, reg_map r' k = if decide (k = cstr key) then Some (cstr value) else reg_map r k).
  { intros i e ents Hi (Hk1 & Hv1 & _) Hu Hk Hother Hold ->. unfold REGISTRY_VALUE_SIZE in Hv1.
    destruct (copy_ok (re_value e) value 96) as [Hcl Hcv]; [done|lia|].
    apply reg_put; [done|done| |done|done|done|done|done]. split_and!; [done|done|]. intros _. cbn [re_key]. by rewrite Hk. }
  destruct (registry_find r key) as [i|] eqn:Ef.
  - rewrite registry_find_key in Ef. apply find_index_Some in Ef as (e & He & Hm & _). apply andb_true_iff in Hm as [Hu Hk%bool_decide_eq_true].
    rewrite He. left. split_and!; [done|done|lia|lia|done|..];
      apply (Hmain i e); try done; try (by apply (Forall_lookup_1 _ _ i e (ri_entries r Hr))).
    all: try (apply lookup_lt_Some in He; by rewrite (ri_length r Hr) in He).
    all: try (intros a Ha _; congruence).
    all: intros j a Hj Ha Hua Hka; apply Hj; eapply (ri_unique r Hr j i a e); congruence.
  - rewrite registry_find_key in Ef. pose proof (proj1 (find_index_None _ _) Ef) as Hnone.
    assert (Hother : forall j a, registry_entries r !! j = Some a -> re_used a = true -> cstr (re_key a) <> cstr key).
    { intros j a Ha Hua Hka. specialize (Hnone j a Ha). cbv beta in Hnone. rewrite Hua, bool_decide_eq_true_2 in Hnone by done. done. }
    destruct (find_index (fun e => negb (re_used e)) (registry_entries r)) as [i|] eqn:Ei; cycle 1.
    { do 3 right. split_and!; [done|by apply reg_map_None|by apply all_used_count|done|done]. }
    pose proof (find_index_lt _ _ _ Ei) as Hlt. apply find_index_Some in Ei as (a & Ha & Hua & _). bool_prop.
    rewrite list_lookup_insert_eq by done. unfold entry_at. rewrite Ha. cbn [default re_used re_key re_value].
    destruct (Forall_lookup_1 _ _ i a (ri_entries r Hr) Ha) as (Hk1 & Hv1 & _). unfold REGISTRY_KEY_SIZE in Hk1.
    destruct (copy_ok (re_key a) key 48) as [Hcl Hck]; [done|lia|].
    assert (Hok : entry_ok (RegistryEntry true (registry_copy (re_key a) 48 key) (re_value a))).
    { split; [done|]. split; [done|]. intros _. cbn [re_key]. by rewrite Hck. }
    left. split_and!; [done|done|lia|lia|done|..];
      apply (Hmain i (RegistryEntry true (registry_copy (re_key a) 48 key) (re_value a))); try done.
    all: try (by rewrite (ri_length r Hr) in Hlt).
    all: try (intros a' Ha' Hua'; congruence).
    all: try (intros j b _; apply Hother).
    all: by rewrite list_insert_insert_eq.
Qed.

(** ** Enumeration *)

Lemma elem_used r e : e ∈ used_entries r <-> re_used e = true /\ exists i, registry_entries r !! i = Some e.
Proof. unfold used_entries. by rewrite list_elem_of_filter, list_elem_of_lookup. Qed.

Lemma enumerate_sound r i : reg_inv r -> 0 <= i < registry_count r ->
  exists k v, registry_key_at r i = Some k /\ registry_value_at r i = Some v /\ reg_map r (cstr k) = Some (cstr v).
Proof.
  intros Hr Hi. unfold registry_count, registry_key_at, registry_value_at in *.
  destruct (lookup_lt_is_Some_2 (used_entries r) (Z.to_nat i)) as [e He]; [lia|]. rewrite He. cbn.
  exists (re_key e), (re_value e). split_and!; [done|done|]. apply list_elem_of_lookup_2, elem_used in He as (Hu & j & Hj).
  apply reg_map_Some; [done|]. by exists j, e.
Qed.

Lemma enumerate_complete r k v : reg_inv r -> reg_map r k = Some v ->
  exists i k', 0 <= i < registry_count r /\ registry_key_at r i = Some k' /\ cstr k' = k.
Proof.
  intros Hr (j & e & Hj & Hu & Hk & Hv)%reg_map_Some; [|done].
  assert (He : e ∈ used_entries r) by (apply elem_used; eauto). apply list_elem_of_lookup in He as (i & Hi).
  exists (Z.of_nat i), (re_key e). unfold registry_count, registry_key_at. rewrite Nat2Z.id, Hi.
  apply lookup_lt_Some in Hi. split_and!; [lia|lia|done|done].
Qed.

Lemma registry_set_inv r key value : reg_inv r -> reg_inv (snd (registry_set key value r)).
Proof.
  intros Hr. pose proof (registry_set_ok r key value Hr) as H. unfold set_outcome in H.
  destruct (registry_set key value r) as [[c h] r']. cbn.
  destruct H as [(_ & _ & _ & _ & _ & Hi & _)|[(_ & _ & _ & ->)|[(_ & _ & _ & ->)|(_ & _ & _ & _ & ->)]]]; done.
Qed.

Lemma zero_registry_inv : reg_inv zero_registry.
Proof.
  split; [apply length_replicate|apply Forall_replicate; by split_and!|].
  intros i j a b Ha _ Hu. apply lookup_replicate_1 in Ha as [-> _]. done.
Qed.

(** ** Numbers *)

Definition number (base : Z) (ds : list Z) : Z := fold_left (fun v d => v * base + d) ds 0.

Lemma not_blank_digit c : 48 <= c -> is_blank c = false.
Proof. intros H. unfold is_blank. rewrite orb_false_iff, !Z.eqb_neq. lia. Qed.

Lemma parse_decimal_loop ds v : Forall (fun d => 0 <= d <= 9) ds ->
  parse_digits false ((fun d => 48 + d) <$> ds) (u32 v) = Some (u32 (fold_left (fun v d => v * 10 + d) ds v)).
Proof.
  revert v. induction ds as [|d ds IH]; intros v Hd; [done|]. apply Forall_cons_1 in Hd as [Hd Hds].
  rewrite fmap_cons. cbn [parse_digits fold_left]. rewrite not_blank_digit by lia.
  destruct ((48 + d <? 48) || (57 <? 48 + d)) eqn:E; [apply orb_true_iff in E as [E|E]; bool_prop; lia|].
  rewrite <- (IH (v * 10 + d) Hds). f_equal. unfold u32. replace (48 + d - 48) with d by lia.
  rewrite Zplus_mod_idemp_l, <- Zplus_mod_idemp_l, Zmult_mod_idemp_l, Zplus_mod_idemp_l. done.
Qed.

(** Lower-case hexadecimal digits. *)
Definition hex_char (d : Z) : Z := if d <? 10 then 48 + d else 87 + d.

Lemma hex_digit_char d : 0 <= d < 16 -> registry_hex_digit (hex_char d) = Some d.
Proof.
  intros Hd. unfold registry_hex_digit, hex_char. destruct (Z.ltb_spec d 10).
  - rewrite (proj2 (Z.leb_le 48 (48 + d))), (proj2 (Z.leb_le (48 + d) 57)) by lia. cbn. f_equal. lia.
  - rewrite (proj2 (Z.leb_gt (87 + d) 57)), andb_false_r by lia.
    rewrite (proj2 (Z.leb_le 97 (87 + d))), (proj2 (Z.leb_le (87 + d) 102)) by lia. cbn [andb]. f_equal. lia.
Qed.

Lemma shift_digit v d : 0 <= d < 16 -> Z.lor (u32 (Z.shiftl (u32 v) 4)) d = u32 (v * 16 + d).
Proof.
  intros Hd. assert (E : u32 (Z.shiftl (u32 v) 4) = Z.shiftl (u32 (Z.shiftl (u32 v) 4) / 16) 4).
  { unfold u32. rewrite !Z.shiftl_mul_pow2 by lia. change (2 ^ 4) with 16. Z.div_mod_to_equations. lia. }
  rewrite E, Z.lor_comm, lor_shiftl_add by (try lia; change (2 ^ 4) with 16; lia). unfold u32.
  rewrite Z.shiftl_mul_pow2 by lia. change (2 ^ 4) with 16. Z.div_mod_to_equations. lia.
Qed.

Lemma parse_hex_loop ds v : Forall (fun d => 0 <= d < 16) ds ->
  parse_digits true (hex_char <$> ds) (u32 v) = Some (u32 (fold_left (fun v d => v * 16 + d) ds v)).
Proof.
  revert v. induction ds as [|d ds IH]; intros v Hd; [done|]. apply Forall_cons_1 in Hd as [Hd Hds].
  rewrite fmap_cons. cbn [parse_digits fold_left].
  rewrite not_blank_digit by (unfold hex_char; destruct (d <? 10); lia).
  rewrite hex_digit_char by done. by rewrite shift_digit, IH.
Qed.

Lemma cstr_chars (f : Z -> Z) ds : Forall (fun d => f d <> 0) ds -> cstr (f <$> ds) = f <$> ds.
Proof. intros H. apply cstr_id, Forall_fmap. exact H. Qed.

Lemma parse_decimal ds : ds <> [] -> Forall (fun d => 0 <= d <= 9) ds ->
  registry_parse_u32 ((fun d => 48 + d) <$> ds) = Some (u32 (number 10 ds)).
Proof.
  intros Hne Hd. unfold registry_parse_u32, number. rewrite cstr_chars by (eapply Forall_impl; [|exact Hd]; cbv beta; intros; lia).
  rewrite <- (parse_decimal_loop ds 0 Hd). destruct ds as [|d ds]; [done|]. rewrite fmap_cons.
  apply Forall_cons_1 in Hd as [Hd Hds]. cbn [skip_blanks]. rewrite not_blank_digit by lia.
  assert (Hc : 48 + d = 48 \/ 48 + d = 49 \/ 48 + d = 50 \/ 48 + d = 51 \/ 48 + d = 52 \/ 48 + d = 53 \/ 48 + d = 54 \/ 48 + d = 55 \/ 48 + d = 56 \/ 48 + d = 57) by lia.
  destruct Hc as [->|Hc].
  - destruct ds as [|e ds]; [done|]. rewrite fmap_cons. apply Forall_cons_1 in Hds as [He _].
    assert (He' : e = 0 \/ e = 1 \/ e = 2 \/ e = 3 \/ e = 4 \/ e = 5 \/ e = 6 \/ e = 7 \/ e = 8 \/ e = 9) by lia.
    by repeat destruct He' as [->|He']; subst.
  - by repeat destruct Hc as [->|Hc]; rewrite ?Hc.
Qed.

Lemma parse_hex ds : ds <> [] -> Forall (fun d => 0 <= d < 16) ds ->
  registry_parse_u32 (48 :: 120 :: (hex_char <$> ds)) = Some (u32 (number 16 ds)).
Proof.
  intros Hne Hd. unfold registry_parse_u32, number. cbn [cstr Z.eqb Pos.eqb].
  rewrite cstr_chars by (eapply Forall_impl; [|exact Hd]; cbv beta; intros d; unfold hex_char; destruct (d <? 10) eqn:?; bool_prop; lia).
  rewrite <- (parse_hex_loop ds 0 Hd). cbn [skip_blanks is_blank Z.eqb Pos.eqb orb]. destruct ds as [|d ds]; [done|]. done.
Qed.
