(* ===== verification/Dma.v ===== *)
(** The DMA pool: kernel/core/dma.c.

    [dma_init] picks four megabytes below 4 GiB from the firmware memory map;
    [dma_alloc] hands them out from a bump pointer. *)
From Stdlib Require Import ZArith Lia.
From stdpp Require Import base tactics option list numbers.
From S2P Require Import Prelude.
#[local] Open Scope Z_scope.

Definition EFI_CONVENTIONAL_MEMORY : Z := 7.
Definition DMA_POOL_LIMIT : Z := 0x100000000.
Definition DMA_POOL_MIN : Z := 0x01000000.
Definition DMA_POOL_SIZE : Z := 4 * 1024 * 1024.
Definition SIZEOF_DESCRIPTOR : Z := 40.

Record efi_memory_descriptor : Type := EfiMemoryDescriptor {
  ed_type : Z;
  ed_physical_start : Z;
  ed_number_of_pages : Z
}.

(** The fields of [boot_info_t] that dma.c reads; [bi_descriptor off] is the
    descriptor in memory at offset [off] of the map. *)
Record boot_info : Type := BootInfo {
  bi_memory_map : Z;
  bi_memory_map_size : Z;
  bi_memory_map_descriptor_size : Z;
  bi_kernel_base : Z;
  bi_kernel_size : Z;
  bi_descriptor : Z -> efi_memory_descriptor
}.

(** The static variables, and the bytes of physical memory. *)
Record dma : Type := Dma {
  dma_pool_base_addr : Z;
  dma_pool_size_bytes : Z;
  dma_pool_offset : Z;
  dma_memory : Z -> Z
}.

(** [(value + alignment - 1) & ~(alignment - 1)] in 64 bits. *)
Definition align_up64 (value alignment : Z) : Z :=
  if alignment =? 0 then value
  else Z.land (u64 (value + alignment - 1)) (u64 (Z.lnot (alignment - 1))).

Definition overlaps (start end_ other_start other_end : Z) : bool := (start <? other_end) && (other_start <? end_).

(** The pool one descriptor offers, if any. *)
Definition pool_of (info : boot_info) (desc : efi_memory_descriptor) : option Z :=
  if negb (ed_type desc =? EFI_CONVENTIONAL_MEMORY) then None
  else
    let kernel_end := u64 (bi_kernel_base info + bi_kernel_size info) in
    let map_end := u64 (bi_memory_map info + bi_memory_map_size info) in
    let start := ed_physical_start desc in
    let end_ := u64 (start + u64 (ed_number_of_pages desc * 4096)) in
    let end_ := if DMA_POOL_LIMIT <? end_ then DMA_POOL_LIMIT else end_ in
    let start := if start <? DMA_POOL_MIN then DMA_POOL_MIN else start in
    let start := align_up64 start 4096 in
    if (end_ <=? start) || (u64 (end_ - start) <? DMA_POOL_SIZE) then None
    else if overlaps start (u64 (start + DMA_POOL_SIZE)) (bi_kernel_base info) kernel_end ||
            overlaps start (u64 (start + DMA_POOL_SIZE)) (bi_memory_map info) map_end
    then None
    else Some start.

(** The loop over the descriptors. *)
Fixpoint dma_scan (fuel : nat) (info : boot_info) (off : Z) : option Z :=
  match fuel with
  | O => None
  | S fuel' =>
      if u64 (off + SIZEOF_DESCRIPTOR) <=? bi_memory_map_size info then
        match pool_of info (bi_descriptor info off) with
        | Some start => Some start
        | None => dma_scan fuel' info (u64 (off + bi_memory_map_descriptor_size info))
        end
      else None
  end.

(** Every round moves on by at least 40 bytes, so a map of [n] bytes has at
    most [n / 40] descriptors. *)
Definition dma_init (info : option boot_info) (d : dma) : dma :=
  let none := Dma 0 0 0 (dma_memory d) in
  match info with
  | None => none
  | Some info =>
      if (bi_memory_map info =? 0) || (bi_memory_map_size info =? 0) ||
         (bi_memory_map_descriptor_size info <? SIZEOF_DESCRIPTOR) then none
      else match dma_scan (Z.to_nat (bi_memory_map_size info / SIZEOF_DESCRIPTOR + 1)) info 0 with
           | Some start => Dma start DMA_POOL_SIZE 0 (dma_memory d)
           | None => none
           end
  end.

(** A null pointer is [None]. *)
Definition dma_alloc (size alignment : Z) (d : dma) : option Z * dma :=
  if (dma_pool_base_addr d =? 0) || (size =? 0) then (None, d)
  else
    let offset := align_up64 (dma_pool_offset d) (if alignment =? 0 then 16 else alignment) in
    if dma_pool_size_bytes d <? u64 (offset + size) then (None, d)
    else
      let addr := u64 (dma_pool_base_addr d + offset) in
      (Some addr, Dma (dma_pool_base_addr d) (dma_pool_size_bytes d) (u64 (offset + size))
                    (fun a => if (addr <=? a) && (a <? addr + size) then 0 else dma_memory d a)).

Definition dma_phys (ptr : Z) : Z := ptr.
Definition dma_pool_base (d : dma) : Z := dma_pool_base_addr d.
Definition dma_pool_size (d : dma) : Z := dma_pool_size_bytes d.

(** ** Alignment *)

Lemma u64_lnot m : is_u64 m -> u64 (Z.lnot m) = 18446744073709551615 - m.
Proof. intros Hm. unfold Z.lnot. cdiv. Qed.

Lemma land_complement x m : is_u64 x -> is_u64 m -> Z.land x (u64 (Z.lnot m)) = Z.ldiff x m.
Proof.
  intros Hx Hm. apply Z.bits_inj'. intros i Hi. rewrite Z.land_spec, Z.ldiff_spec.
  change u64 with (fun x => x mod 2 ^ 64). cbv beta. destruct (decide (i < 64)).
  - rewrite Z.mod_pow2_bits_low by done. by rewrite Z.lnot_spec.
  - rewrite Z.mod_pow2_bits_high by lia. rewrite andb_false_r.
    assert (Z.testbit x i = false) as ->; [|done].
    rewrite <- (Z.mod_small x (2 ^ 64)) by (change (2 ^ 64) with 18446744073709551616; cint).
    by rewrite Z.mod_pow2_bits_high by lia.
Qed.

Lemma ldiff_bounds x m : 0 <= x -> 0 <= m -> x - m <= Z.ldiff x m <= x.
Proof.
  intros Hx Hm. pose proof (Z.sub_nocarry_ldiff x (Z.land x m)) as H.
  assert (Hl : Z.ldiff (Z.land x m) x = 0).
  { apply Z.bits_inj'. intros i Hi. rewrite Z.ldiff_spec, Z.land_spec, Z.bits_0. by destruct (Z.testbit x i), (Z.testbit m i). }
  assert (He : Z.ldiff x (Z.land x m) = Z.ldiff x m).
  { apply Z.bits_inj'. intros i Hi. rewrite !Z.ldiff_spec, Z.land_spec. by destruct (Z.testbit x i), (Z.testbit m i). }
  specialize (H Hl). rewrite He in H. pose proof (Z.land_nonneg x m) as Hn.
  assert (Hle : Z.land x m <= m).
  { pose proof (Z.sub_nocarry_ldiff m (Z.land x m)) as H2.
    assert (Z.ldiff (Z.land x m) m = 0) as Hl2.
    { apply Z.bits_inj'. intros i Hi. rewrite Z.ldiff_spec, Z.land_spec, Z.bits_0. by destruct (Z.testbit x i), (Z.testbit m i). }
    specialize (H2 Hl2). pose proof (Z.ldiff_nonneg m (Z.land x m)). lia. }
  lia.
Qed.

(** Rounding up never goes below the value, whatever the alignment. *)
Lemma align_up_ge v a : 0 <= v -> 0 < a -> v + a - 1 < 2 ^ 64 -> v <= align_up64 v a <= v + a - 1.
Proof.
  intros Hv Ha Hb. change (2 ^ 64) with 18446744073709551616 in Hb. unfold align_up64. destruct (Z.eqb_spec a 0); [lia|].
  rewrite u64_small by cint. rewrite land_complement by cint. pose proof (ldiff_bounds (v + a - 1) (a - 1)). lia.
Qed.

(** For a power of two the result is a multiple of it. *)
Lemma align_up_pow2 v k : 0 <= v -> 0 <= k -> v + 2 ^ k - 1 < 2 ^ 64 -> align_up64 v (2 ^ k) mod 2 ^ k = 0.
Proof.
  intros Hv Hk Hb. assert (Hp : 0 < 2 ^ k) by (apply Z.pow_pos_nonneg; lia). change (2 ^ 64) with 18446744073709551616 in Hb.
  unfold align_up64. destruct (Z.eqb_spec (2 ^ k) 0); [lia|].
  rewrite u64_small by cint. rewrite land_complement by cint.
  replace (2 ^ k - 1) with (Z.ones k) by (rewrite Z.ones_equiv; lia).
  rewrite Z.ldiff_ones_r, Z.shiftl_mul_pow2 by lia. apply Z.mod_mul. lia.
Qed.

(** ** Allocation *)

(** No pool, or an aligned one below 4 GiB of which [dma_pool_offset] bytes
    are in use. *)
Definition dma_ok (d : dma) : Prop :=
  dma_pool_base_addr d = 0 \/
  (0 < dma_pool_base_addr d /\ dma_pool_base_addr d mod 4096 = 0 /\ dma_pool_size_bytes d = DMA_POOL_SIZE /\
   dma_pool_base_addr d + DMA_POOL_SIZE <= DMA_POOL_LIMIT /\ 0 <= dma_pool_offset d <= DMA_POOL_SIZE).

Definition in_block (a start size : Z) : Prop := start <= a < start + size.

(** What one call may do. *)
Definition alloc_outcome (size alignment : Z) (d : dma) (res : option Z * dma) : Prop :=
  match res with
  | (None, d') => d' = d /\ (dma_pool_base_addr d = 0 \/ size = 0 \/
      DMA_POOL_SIZE < align_up64 (dma_pool_offset d) (if alignment =? 0 then 16 else alignment) + size)
  | (Some a, d') => dma_ok d' /\ dma_pool_base_addr d' = dma_pool_base_addr d /\
      dma_pool_base_addr d + dma_pool_offset d <= a /\ a + size = dma_pool_base_addr d + dma_pool_offset d' /\
      a + size <= dma_pool_base_addr d + DMA_POOL_SIZE /\
      (forall b, in_block b a size -> dma_memory d' b = 0) /\
      (forall b, ~ in_block b a size -> dma_memory d' b = dma_memory d b) /\
      (forall k, 0 <= k <= 12 -> alignment = 2 ^ k -> a mod alignment = 0)
  end.

Lemma dma_alloc_ok size alignment d : dma_ok d -> is_u32 size -> is_u32 alignment ->
  alloc_outcome size alignment d (dma_alloc size alignment d).
Proof.
  intros Hd Hs Ha. unfold dma_alloc. destruct (Z.eqb_spec (dma_pool_base_addr d) 0) as [E|E]; [split; auto|].
  destruct (Z.eqb_spec size 0) as [E2|E2]; [split; auto|]. cbn [orb].
  destruct Hd as [?|(Hb & Hal & Hsz & Hlim & Ho)]; [done|].
  set (al := if alignment =? 0 then 16 else alignment).
  assert (Hal0 : 0 < al < 4294967296) by (unfold al; destruct (Z.eqb_spec alignment 0); cint).
  unfold DMA_POOL_SIZE, DMA_POOL_LIMIT in *.
  pose proof (align_up_ge (dma_pool_offset d) al) as Hge. change (2 ^ 64) with 18446744073709551616 in Hge.
  specialize (Hge ltac:(lia) ltac:(lia) ltac:(lia)). set (off := align_up64 (dma_pool_offset d) al) in *.
  rewrite (u64_small (off + size)) by cint. rewrite Hsz. destruct (Z.ltb_spec (4 * 1024 * 1024) (off + size)) as [Hlt|Hle].
  { split; [done|]. right; right. fold al off. unfold DMA_POOL_SIZE. lia. }
  rewrite (u64_small (dma_pool_base_addr d + off)) by cint. unfold alloc_outcome. cbn [dma_pool_base_addr dma_pool_offset dma_memory].
  split_and!; [|done|lia|lia|unfold DMA_POOL_SIZE; lia|..].
  - right. cbn [dma_pool_base_addr dma_pool_offset dma_pool_size_bytes]. unfold DMA_POOL_SIZE, DMA_POOL_LIMIT, is_u32 in *. split_and!; (done || lia).
  - intros b Hin. unfold in_block in Hin. destruct (_ && _) eqn:E3; [done|]. apply andb_false_iff in E3 as [E3|E3]; bool_prop; lia.
  - intros b Hin. unfold in_block in Hin. destruct (_ && _) eqn:E3; [|done]. bool_prop. lia.
  - intros k Hk Hpow. assert (Hp : 0 < 2 ^ k) by (apply Z.pow_pos_nonneg; lia).
    assert (al = 2 ^ k) as Eal by (unfold al; destruct (Z.eqb_spec alignment 0); lia).
    pose proof (align_up_pow2 (dma_pool_offset d) k) as Hm. change (2 ^ 64) with 18446744073709551616 in Hm.
    rewrite <- Eal in Hm. specialize (Hm ltac:(lia) ltac:(lia) ltac:(lia)). fold off in Hm. rewrite Hpow, <- Eal.
    assert (Hdiv : (2 ^ k | 4096)).
    { exists (2 ^ (12 - k)). rewrite <- Z.pow_add_r by lia. by replace (12 - k + k) with 12 by lia. }
    rewrite <- Eal in Hdiv. rewrite Z.add_mod, Hm by lia.
    assert (dma_pool_base_addr d mod al = 0) as ->; [|by rewrite Z.mod_0_l by lia].
    apply Z.mod_divide; [lia|]. etrans; [exact Hdiv|]. apply Z.mod_divide; [lia|done].
Qed.

(** A run of requests: size, alignment and the block handed out. *)
Fixpoint dma_alloc_all (reqs : list (Z * Z)) (d : dma) : list (option Z) * dma :=
  match reqs with
  | [] => ([], d)
  | (size, alignment) :: reqs' =>
      let '(a, d1) := dma_alloc size alignment d in
      let '(rest, d2) := dma_alloc_all reqs' d1 in (a :: rest, d2)
  end.

Lemma dma_alloc_all_ok reqs d : dma_ok d -> Forall (fun q => is_u32 (fst q) /\ is_u32 (snd q)) reqs ->
  let '(rs, d') := dma_alloc_all reqs d in
  dma_ok d' /\ dma_pool_base_addr d' = dma_pool_base_addr d /\ dma_pool_offset d <= dma_pool_offset d' /\
  (forall i q a, reqs !! i = Some q -> rs !! i = Some (Some a) ->
     dma_pool_base_addr d + dma_pool_offset d <= a /\ a + fst q <= dma_pool_base_addr d + dma_pool_offset d') /\
  (forall i j qi qj a b, (i < j)%nat -> reqs !! i = Some qi -> reqs !! j = Some qj ->
     rs !! i = Some (Some a) -> rs !! j = Some (Some b) -> a + fst qi <= b).
Proof.
  revert d. induction reqs as [|[size al] reqs IH]; intros d Hd Hq; cbn [dma_alloc_all].
  { split_and!; [done|done|lia| |]; [intros i q a Hi; done|intros i j qi qj a b _ Hi; done]. }
  apply Forall_cons_1 in Hq as [[Hs Ha] Hq]. pose proof (dma_alloc_ok size al d Hd Hs Ha) as Hone.
  destruct (dma_alloc size al d) as [r d1]. 
  assert (Hd1 : dma_ok d1 /\ dma_pool_base_addr d1 = dma_pool_base_addr d /\ dma_pool_offset d <= dma_pool_offset d1 /\
    (forall a, r = Some a -> dma_pool_base_addr d + dma_pool_offset d <= a /\ a + size = dma_pool_base_addr d + dma_pool_offset d1)).
  { destruct r as [a|]; cbn in Hone; cbn in Hs.
    - destruct Hone as (H1 & H2 & H3 & H4 & _). unfold is_u32 in Hs. split_and!; [done|done|lia|]. intros ? [= <-]. lia.
    - destruct Hone as [-> _]. split_and!; [done|done|lia|done]. }
  destruct Hd1 as (Hd1 & Hb1 & Ho1 & Hr1). specialize (IH d1 Hd1 Hq). destruct (dma_alloc_all reqs d1) as [rs d'].
  destruct IH as (I1 & I2 & I3 & I4 & I5). rewrite Hb1 in *. split_and!; [done|done|lia| |].
  - intros [|i] q a Hi Ha'; simplify_eq/=; [destruct (Hr1 a eq_refl); lia|]. destruct (I4 i q a Hi Ha'). lia.
  - intros [|i] [|j] qi qj a b Hij Hi Hj Hra Hrb; simplify_eq/=; try lia.
    + destruct (Hr1 a eq_refl). destruct (I4 j qj b Hj Hrb). lia.
    + apply (I5 i j qi qj); [lia|done..].
Qed.

(** ** Choosing the pool *)

(** The map does not run past the end of the address space. *)
Definition info_ok (info : boot_info) : Prop :=
  0 <= bi_kernel_base info /\ 0 <= bi_kernel_size info /\ bi_kernel_base info + bi_kernel_size info < 2 ^ 64 /\
  0 <= bi_memory_map info /\ 0 <= bi_memory_map_size info /\ bi_memory_map info + bi_memory_map_size info < 2 ^ 64.

Definition desc_ok (desc : efi_memory_descriptor) : Prop :=
  0 <= ed_physical_start desc /\ 0 <= ed_number_of_pages desc /\
  ed_physical_start desc + ed_number_of_pages desc * 4096 < 2 ^ 64 - 4096.

(** A pool lies in conventional memory, clear of the kernel and the map. *)
Record good_pool (info : boot_info) (desc : efi_memory_descriptor) (start : Z) : Prop := {
  gp_type : ed_type desc = EFI_CONVENTIONAL_MEMORY;
  gp_low : ed_physical_start desc <= start;
  gp_high : start + DMA_POOL_SIZE <= ed_physical_start desc + ed_number_of_pages desc * 4096;
  gp_range : DMA_POOL_MIN <= start /\ start + DMA_POOL_SIZE <= DMA_POOL_LIMIT;
  gp_aligned : start mod 4096 = 0;
  gp_kernel a : in_block a start DMA_POOL_SIZE -> ~ in_block a (bi_kernel_base info) (bi_kernel_size info);
  gp_map a : in_block a start DMA_POOL_SIZE -> ~ in_block a (bi_memory_map info) (bi_memory_map_size info)
}.

Lemma overlaps_false s n o m : 0 < n -> overlaps s (s + n) o (o + m) = false -> forall a, in_block a s n -> ~ in_block a o m.
Proof. intros Hn H a Ha Hb. unfold overlaps, in_block in *. apply andb_false_iff in H as [H|H]; bool_prop; lia. Qed.

Lemma pow_2_64 : 2 ^ 64 = 18446744073709551616.
Proof. reflexivity. Qed.

Lemma pool_of_ok info desc start : info_ok info -> desc_ok desc -> pool_of info desc = Some start -> good_pool info desc start.
Proof.
  intros (K1 & K2 & K3 & M1 & M2 & M3) (D1 & D2 & D3) H. rewrite pow_2_64 in *. unfold pool_of in H.
  destruct (negb _) eqn:Et; [done|]. bool_prop. cbv zeta in H.
  rewrite (u64_small (bi_kernel_base info + _)), (u64_small (bi_memory_map info + _)) in H by cint.
  rewrite (u64_small (ed_number_of_pages desc * 4096)) in H by cint. rewrite (u64_small (ed_physical_start desc + _)) in H by cint.
  set (e0 := ed_physical_start desc + ed_number_of_pages desc * 4096) in *.
  set (e1 := if DMA_POOL_LIMIT <? e0 then DMA_POOL_LIMIT else e0) in *.
  set (s0 := if ed_physical_start desc <? DMA_POOL_MIN then DMA_POOL_MIN else ed_physical_start desc) in *.
  assert (He1 : e1 <= e0 /\ e1 <= DMA_POOL_LIMIT) by (unfold e1; destruct (Z.ltb_spec DMA_POOL_LIMIT e0); lia). clearbody e1.
  assert (Hs0 : ed_physical_start desc <= s0 /\ DMA_POOL_MIN <= s0 /\ 0 <= s0 < 18446744073709551616 - 4096).
  { unfold s0, DMA_POOL_MIN. destruct (Z.ltb_spec (ed_physical_start desc) 16777216); lia. }
  clearbody s0.
  pose proof (align_up_ge s0 4096 ltac:(lia) ltac:(lia)) as Hge. pose proof (align_up_pow2 s0 12 ltac:(lia) ltac:(lia)) as Hal.
  rewrite pow_2_64 in Hge, Hal. change (2 ^ 12) with 4096 in Hal. specialize (Hge ltac:(lia)). specialize (Hal ltac:(lia)).
  set (s1 := align_up64 s0 4096) in *. clearbody s1. destruct (Z.leb_spec e1 s1); [done|]. rewrite orb_false_l in H.
  unfold DMA_POOL_LIMIT, DMA_POOL_SIZE, DMA_POOL_MIN in *. rewrite (u64_small (e1 - s1)) in H by cint.
  destruct (Z.ltb_spec (e1 - s1) (4 * 1024 * 1024)); [done|]. rewrite (u64_small (s1 + _)) in H by cint.
  destruct (overlaps s1 _ _ _) eqn:O1; [done|]. rewrite orb_false_l in H. destruct (overlaps s1 _ (bi_memory_map info) _) eqn:O2; [done|].
  injection H as <-. split; [done|lia|unfold DMA_POOL_SIZE; lia|unfold DMA_POOL_SIZE, DMA_POOL_MIN, DMA_POOL_LIMIT; lia|done|..].
  - by apply overlaps_false.
  - by apply overlaps_false.
Qed.

Lemma dma_scan_ok fuel info off start : info_ok info -> (forall o, desc_ok (bi_descriptor info o)) ->
  dma_scan fuel info off = Some start -> exists o, good_pool info (bi_descriptor info o) start.
Proof.
  intros Hi Hd. revert off. induction fuel as [|fuel IH]; intros off H; cbn in H; [done|].
  destruct (_ <=? _); [|done]. destruct (pool_of info (bi_descriptor info off)) as [s|] eqn:E; [|by eapply IH].
  injection H as <-. exists off. by apply pool_of_ok.
Qed.

(** The scan looks at every descriptor of the map: the fuel is enough. *)
Lemma dma_scan_complete n fuel info off : info_ok info -> SIZEOF_DESCRIPTOR <= bi_memory_map_descriptor_size info < 2 ^ 32 ->
  bi_memory_map_size info < 2 ^ 63 ->
  0 <= off -> (n < fuel)%nat -> off + Z.of_nat n * bi_memory_map_descriptor_size info + SIZEOF_DESCRIPTOR <= bi_memory_map_size info ->
  pool_of info (bi_descriptor info (off + Z.of_nat n * bi_memory_map_descriptor_size info)) <> None ->
  dma_scan fuel info off <> None.
Proof.
  intros Hi Hsz Hm. unfold SIZEOF_DESCRIPTOR in *. change (2 ^ 32) with 4294967296 in *. change (2 ^ 63) with 9223372036854775808 in *.
  revert fuel off. induction n as [|n IH]; intros [|fuel] off Ho Hf Hoff Hp; try lia; cbn [dma_scan].
  - change (Z.of_nat 0) with 0 in *. rewrite Z.mul_0_l, Z.add_0_r in Hp, Hoff. unfold SIZEOF_DESCRIPTOR. rewrite u64_small by cint.
    rewrite (proj2 (Z.leb_le _ _)) by lia. by destruct (pool_of info (bi_descriptor info off)).
  - unfold SIZEOF_DESCRIPTOR. rewrite (u64_small (off + 40)) by (unfold is_u64; nia). rewrite (proj2 (Z.leb_le _ _)) by nia.
    destruct (pool_of info (bi_descriptor info off)); [done|]. rewrite u64_small by (unfold is_u64; nia).
    apply IH; [lia|lia|nia|]. by replace (off + bi_memory_map_descriptor_size info + Z.of_nat n * bi_memory_map_descriptor_size info)
      with (off + Z.of_nat (S n) * bi_memory_map_descriptor_size info) by lia.
Qed.

(** [dma_init]: the pool it sets up is good, and there is one when some
    descriptor of the map can offer it. *)
Lemma dma_init_ok info d : info_ok info -> (forall o, desc_ok (bi_descriptor info o)) ->
  let d' := dma_init (Some info) d in
  dma_ok d' /\ dma_memory d' = dma_memory d /\
  (dma_pool_base d' = 0 \/
   (dma_pool_offset d' = 0 /\ dma_pool_size d' = DMA_POOL_SIZE /\ exists o, good_pool info (bi_descriptor info o) (dma_pool_base d'))).
Proof.
  intros Hi Hd. unfold dma_init. assert (H0 : dma_ok (Dma 0 0 0 (dma_memory d))) by by left.
  destruct (_ || _ || _); [split_and!; [done|done|by left]|].
  destruct (dma_scan _ info 0) as [start|] eqn:E; [|split_and!; [done|done|by left]].
  destruct (dma_scan_ok _ info 0 start Hi Hd E) as [o Ho]. split_and!; [|done|right; split_and!; [done|done|by exists o]].
  destruct Ho as [_ _ _ [H1 H2] H3 _ _]. right. cbn [dma_pool_base_addr dma_pool_size_bytes dma_pool_offset].
  unfold DMA_POOL_MIN, DMA_POOL_SIZE in *. split_and!; (done || lia).
Qed.

Lemma dma_init_finds info d n : info_ok info -> (forall o, desc_ok (bi_descriptor info o)) ->
  bi_memory_map info <> 0 -> SIZEOF_DESCRIPTOR <= bi_memory_map_descriptor_size info < 2 ^ 32 -> bi_memory_map_size info < 2 ^ 63 ->
  Z.of_nat n * bi_memory_map_descriptor_size info + SIZEOF_DESCRIPTOR <= bi_memory_map_size info ->
  pool_of info (bi_descriptor info (Z.of_nat n * bi_memory_map_descriptor_size info)) <> None ->
  dma_pool_base (dma_init (Some info) d) <> 0.
Proof.
  intros Hi Hd Hm Hs Hsz Hn Hp. unfold dma_init, SIZEOF_DESCRIPTOR in *. change (2 ^ 32) with 4294967296 in *.
  assert (Hn0 : 0 <= Z.of_nat n * bi_memory_map_descriptor_size info) by nia.
  destruct (Z.eqb_spec (bi_memory_map info) 0); [done|]. destruct (Z.eqb_spec (bi_memory_map_size info) 0); [lia|].
  destruct (Z.ltb_spec (bi_memory_map_descriptor_size info) 40); [lia|]. cbn [orb].
  pose proof (dma_scan_complete n (Z.to_nat (bi_memory_map_size info / 40 + 1)) info 0 Hi Hs Hsz ltac:(lia)) as Hc.
  rewrite !Z.add_0_l in Hc. unfold SIZEOF_DESCRIPTOR in Hc. specialize (Hc ltac:(Z.div_mod_to_equations; nia) Hn Hp).
  destruct (dma_scan _ info 0) as [start|] eqn:E; [|done]. destruct (dma_scan_ok _ info 0 start Hi Hd E) as [o Ho].
  destruct Ho as [_ _ _ [H1 _] _ _ _]. unfold dma_pool_base, DMA_POOL_MIN in *. cbn [dma_pool_base_addr]. lia.
Qed.
