(* ===== verification/Kmem.v ===== *)
(** The page allocator: kernel/core/kmem.c, lines 1-317.

    A table of at most 128 free page ranges, filled from the firmware memory
    map, from which pages are taken first fit and to which they are returned
    and merged. The set of free addresses ([free_at]) is what the theorems
    speak about. The heap on top of it is in Heap.v; its counters and the heads
    of its lists are part of the state because [kmem_init] resets them. *)
From Stdlib Require Import ZArith Lia.
From stdpp Require Import base tactics option list numbers.
From S2P Require Import Prelude.
From S2P Require Import Dma.
#[local] Open Scope Z_scope.

Definition KMEM_PAGE_SIZE : Z := 4096.
Definition KMEM_MIN_ADDRESS : Z := 0x00100000.
Definition KMEM_MAX_RANGES : nat := 128.
Definition KMEM_SMALL_CLASS_COUNT : nat := 8.

Record page_range : Type := PageRange {
  pr_start : Z;
  pr_pages : Z
}.

(** The counters of the heap. *)
Record heap_counters : Type := HeapCounters {
  heap_used_bytes : Z;
  allocation_count : Z;
  free_count : Z;
  live_allocations : Z;
  peak_live_allocations : Z;
  invalid_frees : Z;
  double_frees : Z;
  guard_failures : Z
}.

(** The static variables; [free_ranges] is the part of the array in use. *)
Record kmem : Type := Kmem {
  free_ranges : list page_range;
  total_page_count : Z;
  free_page_count : Z;
  allocation_failures : Z;
  heap : heap_counters;
  small_free : list Z;
  kmem_memory : Z -> Z
}.

Definition set_ranges (k : kmem) (l : list page_range) (total free : Z) : kmem :=
  Kmem l total free (allocation_failures k) (heap k) (small_free k) (kmem_memory k).

(** ** Operations *)

(** As in dma.c, without its test for a zero alignment. *)
Definition align_up64 (value alignment : Z) : Z :=
  Z.land (u64 (value + alignment - 1)) (u64 (Z.lnot (alignment - 1))).

Definition align_down64 (value alignment : Z) : Z := Z.land value (u64 (Z.lnot (alignment - 1))).

(** Addresses of a range, in 64 bits. *)
Definition range_end (r : page_range) : Z := u64 (pr_start r + u64 (pr_pages r * KMEM_PAGE_SIZE)).

Definition remove_range_index (index : nat) (l : list page_range) : list page_range :=
  take index l ++ drop (index + 1) l.

(** The inner loop of the sort: [x] is the range at [i], [rest] those behind. *)
Fixpoint sort_inner (x : page_range) (rest : list page_range) : page_range * list page_range :=
  match rest with
  | [] => (x, [])
  | r :: rest' =>
      if pr_start r <? pr_start x
      then let '(x', rest'') := sort_inner r rest' in (x', x :: rest'')
      else let '(x', rest'') := sort_inner x rest' in (x', r :: rest'')
  end.

Fixpoint sort_ranges (fuel : nat) (l : list page_range) : list page_range :=
  match fuel, l with
  | S fuel', x :: rest => let '(x', rest') := sort_inner x rest in x' :: sort_ranges fuel' rest'
  | _, _ => l
  end.

(** The merge loop: [cur] is the range at [i]. *)
Fixpoint merge_ranges (cur : page_range) (rest : list page_range) : list page_range :=
  match rest with
  | [] => [cur]
  | next :: rest' =>
      if pr_start next <=? range_end cur then
        let cur' := if range_end cur <? range_end next
                    then PageRange (pr_start cur) (u64 (range_end next - pr_start cur) / KMEM_PAGE_SIZE) else cur in
        merge_ranges cur' rest'
      else cur :: merge_ranges next rest'
  end.

Definition coalesce_ranges (l : list page_range) : list page_range :=
  match sort_ranges (length l) l with [] => [] | x :: rest => merge_ranges x rest end.

Definition add_free_range (start pages : Z) (k : kmem) : kmem :=
  if (pages =? 0) || (KMEM_MAX_RANGES <=? length (free_ranges k))%nat then k
  else set_ranges k (free_ranges k ++ [PageRange start pages]) (u64 (total_page_count k + pages)) (u64 (free_page_count k + pages)).

(** The loop of [reserve_range]: the ranges before [i], those from [i] on,
    and the two counters. *)
Fixpoint reserve_loop (fuel : nat) (start end_ : Z) (before rest : list page_range) (total free : Z)
  : list page_range * Z * Z :=
  match fuel, rest with
  | S fuel', r :: rest' =>
      let rs := pr_start r in
      let re := range_end r in
      if negb (overlaps rs re start end_) then reserve_loop fuel' start end_ (before ++ [r]) rest' total free
      else if (start <=? rs) && (re <=? end_) then
        reserve_loop fuel' start end_ before rest' (u64 (total - pr_pages r)) (u64 (free - pr_pages r))
      else if start <=? rs then
        let removed := u64 (end_ - rs) / KMEM_PAGE_SIZE in
        reserve_loop fuel' start end_ (before ++ [PageRange (u64 (rs + removed * KMEM_PAGE_SIZE)) (u64 (pr_pages r - removed))]) rest'
          (u64 (total - removed)) (u64 (free - removed))
      else if re <=? end_ then
        let removed := u64 (re - start) / KMEM_PAGE_SIZE in
        reserve_loop fuel' start end_ (before ++ [PageRange rs (u64 (pr_pages r - removed))]) rest'
          (u64 (total - removed)) (u64 (free - removed))
      else if (length (before ++ rest) <? KMEM_MAX_RANGES)%nat then
        let cut := u64 (end_ - start) / KMEM_PAGE_SIZE in
        reserve_loop fuel' start end_ (before ++ [PageRange rs (u64 (start - rs) / KMEM_PAGE_SIZE)])
          (rest' ++ [PageRange end_ (u64 (re - end_) / KMEM_PAGE_SIZE)]) (u64 (total - cut)) (u64 (free - cut))
      else reserve_loop fuel' start end_ (before ++ [r]) rest' total free
  | _, _ => (before ++ rest, total, free)
  end.

(** A range is split at most once and its right part is left alone, so twice
    the number of ranges is enough rounds. *)
Definition reserve_range (start end_ : Z) (k : kmem) : kmem :=
  let start := align_down64 start KMEM_PAGE_SIZE in
  let end_ := align_up64 end_ KMEM_PAGE_SIZE in
  let l := free_ranges k in
  let '(l', total, free) := reserve_loop (2 * length l) start end_ [] l (total_page_count k) (free_page_count k) in
  set_ranges k l' total free.

(** The fields of [boot_info_t] that only kmem.c reads. *)
Record boot_extra : Type := BootExtra {
  bi_rsdp : Z;
  bi_framebuffer_base : Z;
  bi_framebuffer_height : Z;
  bi_framebuffer_pixels_per_scanline : Z
}.

Definition zero_heap : heap_counters := HeapCounters 0 0 0 0 0 0 0 0.

(** The body of the loop over the memory map. *)
Definition add_descriptor (desc : efi_memory_descriptor) (k : kmem) : kmem :=
  if negb (ed_type desc =? EFI_CONVENTIONAL_MEMORY) then k
  else
    let start := align_up64 (ed_physical_start desc) KMEM_PAGE_SIZE in
    let start := if start <? KMEM_MIN_ADDRESS then KMEM_MIN_ADDRESS else start in
    let end_ := align_down64 (u64 (ed_physical_start desc + u64 (ed_number_of_pages desc * KMEM_PAGE_SIZE))) KMEM_PAGE_SIZE in
    if start <? end_ then add_free_range start ((end_ - start) / KMEM_PAGE_SIZE) k else k.

Fixpoint scan_map (fuel : nat) (info : boot_info) (off : Z) (k : kmem) : kmem :=
  match fuel with
  | O => k
  | S fuel' =>
      if u64 (off + SIZEOF_DESCRIPTOR) <=? bi_memory_map_size info
      then scan_map fuel' info (u64 (off + bi_memory_map_descriptor_size info)) (add_descriptor (bi_descriptor info off) k)
      else k
  end.

Definition kmem_init (info : option (boot_info * boot_extra)) (d : dma) (k : kmem) : kmem :=
  let k0 := Kmem [] 0 0 0 zero_heap (replicate KMEM_SMALL_CLASS_COUNT 0) (kmem_memory k) in
  match info with
  | None => k0
  | Some (info, extra) =>
      if (bi_memory_map info =? 0) || (bi_memory_map_size info =? 0) ||
         (bi_memory_map_descriptor_size info <? SIZEOF_DESCRIPTOR) then k0
      else
        let k1 := scan_map (Z.to_nat (bi_memory_map_size info / SIZEOF_DESCRIPTOR + 1)) info 0 k0 in
        let k2 := reserve_range (bi_kernel_base info) (u64 (bi_kernel_base info + bi_kernel_size info)) k1 in
        let k3 := reserve_range (bi_memory_map info) (u64 (bi_memory_map info + bi_memory_map_size info)) k2 in
        let k4 := if negb (bi_rsdp extra =? 0)
                  then reserve_range (bi_rsdp extra) (u64 (bi_rsdp extra + KMEM_PAGE_SIZE)) k3 else k3 in
        let k5 := if negb (bi_framebuffer_base extra =? 0) && negb (bi_framebuffer_height extra =? 0) &&
                     negb (bi_framebuffer_pixels_per_scanline extra =? 0)
                  then reserve_range (bi_framebuffer_base extra)
                         (u64 (bi_framebuffer_base extra +
                               u64 (u64 (bi_framebuffer_height extra * bi_framebuffer_pixels_per_scanline extra) * 4))) k4
                  else k4 in
        let k6 := if negb (dma_pool_base d =? 0) && negb (dma_pool_size d =? 0)
                  then reserve_range (dma_pool_base d) (u64 (dma_pool_base d + dma_pool_size d)) k5 else k5 in
        set_ranges k6 (coalesce_ranges (free_ranges k6)) (total_page_count k6) (free_page_count k6)
  end.

(** The address, 0 for failure. *)
Definition page_alloc (page_count : Z) (k : kmem) : Z * kmem :=
  if page_count =? 0 then (0, k)
  else
    let '(addr, k1) :=
      match find_index (fun r => page_count <=? pr_pages r) (free_ranges k) with
      | None => (0, k)
      | Some i =>
          let r := default (PageRange 0 0) (free_ranges k !! i) in
          let r' := PageRange (u64 (pr_start r + page_count * KMEM_PAGE_SIZE)) (u64 (pr_pages r - page_count)) in
          let l := <[i := r']> (free_ranges k) in
          let l := if pr_pages r' =? 0 then remove_range_index i l else l in
          (pr_start r, set_ranges k l (total_page_count k) (u64 (free_page_count k - page_count)))
      end in
    if addr =? 0 then
      (0, Kmem (free_ranges k1) (total_page_count k1) (free_page_count k1) (u64 (allocation_failures k1 + 1)) (heap k1) (small_free k1) (kmem_memory k1))
    else
      (addr, Kmem (free_ranges k1) (total_page_count k1) (free_page_count k1) (allocation_failures k1) (heap k1) (small_free k1)
               (fun a => if (addr <=? a) && (a <? addr + page_count * KMEM_PAGE_SIZE) then 0 else kmem_memory k1 a)).

Definition page_free (addr page_count : Z) (k : kmem) : kmem :=
  if (addr =? 0) || (page_count =? 0) || negb (Z.land addr (KMEM_PAGE_SIZE - 1) =? 0) then k
  else if (length (free_ranges k) <? KMEM_MAX_RANGES)%nat then
    set_ranges k (coalesce_ranges (free_ranges k ++ [PageRange addr page_count])) (total_page_count k) (u64 (free_page_count k + page_count))
  else k.

Definition kmem_total_pages (k : kmem) : Z := total_page_count k.
Definition kmem_free_pages (k : kmem) : Z := free_page_count k.
Definition kmem_heap_used_bytes (k : kmem) : Z := heap_used_bytes (heap k).

Definition small_class_sizes : list Z := [32; 64; 128; 256; 512; 1024; 2048; 4096].
Definition KMALLOC_OVERHEAD : Z := 28.

(** [-1] is [None]. *)
Definition class_for_size (bytes : Z) : option nat :=
  if 0xffffffff - KMALLOC_OVERHEAD <? bytes then None
  else find_index (fun c => u32 (bytes + KMALLOC_OVERHEAD) <=? c) small_class_sizes.
