(* ===== verification/KmemSpec.v ===== *)
(** What the page allocator promises: the set of free addresses.

    The table of free ranges is read as the set [free_at] of the addresses its
    ranges cover. Sorting and merging keep that set, [page_alloc] and
    [page_free] take a block out and put it back, [reserve_range] removes a
    block for good. *)
From Stdlib Require Import ZArith Lia.
From stdpp Require Import base tactics option list numbers relations.
From S2P Require Import Prelude.
From S2P Require Import Dma.
From S2P Require Import Kmem.
#[local] Open Scope Z_scope.

(** ** Ranges *)

(** The address behind a range. *)
Definition r_end (r : page_range) : Z := pr_start r + pr_pages r * 4096.

(** A range that is not empty, page aligned and within the address space. *)
Record rng_ok (r : page_range) : Prop := {
  rk_start : 0 < pr_start r;
  rk_align : pr_start r mod 4096 = 0;
  rk_pages : 0 < pr_pages r;
  rk_end : r_end r < 18446744073709551616
}.

Definition covers (r : page_range) (a : Z) : Prop := pr_start r <= a < r_end r.
Definition free_at (l : list page_range) (a : Z) : Prop := Exists (fun r => covers r a) l.

Definition apart_ranges (r s : page_range) : Prop := r_end r <= pr_start s \/ r_end s <= pr_start r.
Fixpoint disjoint_ranges (l : list page_range) : Prop :=
  match l with [] => True | r :: l' => Forall (apart_ranges r) l' /\ disjoint_ranges l' end.

(** In order, with a gap between neighbours. *)
Fixpoint spaced (l : list page_range) : Prop :=
  match l with [] => True | r :: l' => Forall (fun s => r_end r < pr_start s) l' /\ spaced l' end.

Definition pages_of (l : list page_range) : Z := foldr (fun r n => pr_pages r + n) 0 l.

Lemma range_end_eq r : rng_ok r -> range_end r = r_end r.
Proof.
  intros [H1 H2 H3 H4]. unfold range_end, r_end, KMEM_PAGE_SIZE in *.
  rewrite (u64_small (pr_pages r * 4096)) by cint. by rewrite u64_small by cint.
Qed.

Lemma r_end_align r : rng_ok r -> r_end r mod 4096 = 0.
Proof. intros [H1 H2 H3 H4]. unfold r_end. cdiv. Qed.

Lemma free_at_app l k a : free_at (l ++ k) a <-> free_at l a \/ free_at k a.
Proof. apply Exists_app. Qed.

Lemma free_at_cons r l a : free_at (r :: l) a <-> covers r a \/ free_at l a.
Proof. apply Exists_cons. Qed.

Lemma free_at_nil a : ~ free_at [] a.
Proof. intros H. inversion H. Qed.

Lemma free_at_perm l k a : l ≡ₚ k -> free_at l a -> free_at k a.
Proof.
  unfold free_at. rewrite !list.Exists_exists. intros Hp (r & Hr & Ha). exists r. split; [by rewrite <- Hp|done].
Qed.

Lemma apart_ranges_sym r s : apart_ranges r s -> apart_ranges s r.
Proof. unfold apart_ranges. lia. Qed.

Lemma disjoint_perm l k : l ≡ₚ k -> disjoint_ranges l -> disjoint_ranges k.
Proof.
  induction 1 as [|r l k Hp IH|r s l|l k m _ IH1 _ IH2]; cbn; [done|..].
  - intros [H1 H2]. split; [by rewrite <- Hp|auto].
  - intros [H1 [H2 H3]]. apply Forall_cons_1 in H1 as [H1 H4]. split; [|done]. constructor; [by apply apart_ranges_sym|done].
  - auto.
Qed.

Lemma pages_perm l k : l ≡ₚ k -> pages_of l = pages_of k.
Proof. unfold pages_of. induction 1; cbn in *; lia. Qed.

Lemma disjoint_app l k : disjoint_ranges (l ++ k) <->
  disjoint_ranges l /\ disjoint_ranges k /\ Forall (fun r => Forall (apart_ranges r) k) l.
Proof.
  induction l as [|r l IH]; cbn.
  - split; [intros H|intros (_ & H & _)]; [|done]. split_and!; [done|done|constructor].
  - rewrite Forall_app, IH. split.
    + intros [[H1 H2] (H3 & H4 & H5)]. split_and!; [done|done|done|by constructor].
    + intros [[H1 H2] (H3 & [H4 H5]%Forall_cons_1)]. done.
Qed.

Lemma pages_app l k : pages_of (l ++ k) = pages_of l + pages_of k.
Proof. unfold pages_of. induction l as [|r l IH]; cbn; [done|]. rewrite IH. lia. Qed.

Lemma pages_nonneg l : Forall rng_ok l -> 0 <= pages_of l.
Proof. unfold pages_of. induction 1 as [|r l [H1 H2 H3 H4] _ IH]; cbn; lia. Qed.

Lemma spaced_disjoint l : spaced l -> disjoint_ranges l.
Proof. induction l as [|r l IH]; cbn; [done|]. intros [H1 H2]. split; [|auto]. eapply Forall_impl; [exact H1|]. intros s. unfold apart_ranges. cbn. lia. Qed.

(** ** Sorting and merging *)

Definition starts_le (r s : page_range) : Prop := pr_start r <= pr_start s.
Fixpoint in_order (l : list page_range) : Prop :=
  match l with [] => True | r :: l' => Forall (starts_le r) l' /\ in_order l' end.

Lemma sort_inner_ok x rest : let '(x', rest') := sort_inner x rest in
  x' :: rest' ≡ₚ x :: rest /\ Forall (starts_le x') rest' /\ starts_le x' x.
Proof.
  revert x. induction rest as [|r rest IH]; intros x; cbn [sort_inner]; [split_and!; [done|constructor|unfold starts_le; lia]|].
  destruct (Z.ltb_spec (pr_start r) (pr_start x)) as [Hlt|Hge].
  - specialize (IH r). destruct (sort_inner r rest) as [x' rest']. destruct IH as (H1 & H2 & H3). unfold starts_le in *. split_and!.
    + by rewrite Permutation_swap, H1.
    + constructor; [unfold starts_le; lia|done].
    + lia.
  - specialize (IH x). destruct (sort_inner x rest) as [x' rest']. destruct IH as (H1 & H2 & H3). unfold starts_le in *. split_and!.
    + rewrite Permutation_swap, H1. apply Permutation_swap.
    + constructor; [unfold starts_le; lia|done].
    + lia.
Qed.

Lemma sort_ranges_ok n l : (length l <= n)%nat -> sort_ranges n l ≡ₚ l /\ in_order (sort_ranges n l).
Proof.
  revert l. induction n as [|n IH]; intros [|x rest] Hn; cbn [sort_ranges]; cbn in Hn; try done; try lia.
  pose proof (sort_inner_ok x rest) as H. destruct (sort_inner x rest) as [x' rest']. destruct H as (H1 & H2 & _).
  destruct (IH rest') as [H3 H4].
  { apply Permutation_length in H1. cbn in H1. lia. }
  split; [by rewrite H3|]. cbn. split; [by rewrite H3|done].
Qed.

Lemma merge_ranges_ok cur rest : rng_ok cur -> Forall rng_ok rest -> in_order (cur :: rest) ->
  let l' := merge_ranges cur rest in
  Forall rng_ok l' /\ spaced l' /\ (forall a, free_at l' a <-> free_at (cur :: rest) a) /\
  (length l' <= S (length rest))%nat /\ (disjoint_ranges (cur :: rest) -> pages_of l' = pages_of (cur :: rest)) /\
  Forall (starts_le cur) l'.
Proof.
  revert cur. induction rest as [|next rest IH]; intros cur Hc Hr [Ho1 Ho2]; cbn [merge_ranges].
  { split_and!; [by constructor|split; [constructor|done]|done|done|done|constructor; [unfold starts_le; lia|constructor]]. }
  apply Forall_cons_1 in Hr as [Hn Hr]. apply Forall_cons_1 in Ho1 as [Hle Ho1]. destruct Ho2 as [Ho2 Ho3].
  rewrite !range_end_eq by done. unfold starts_le in Hle.
  destruct (Z.leb_spec (pr_start next) (r_end cur)) as [Hm|Hm].
  - set (cur' := if r_end cur <? r_end next then _ else cur).
    assert (Hc' : rng_ok cur' /\ pr_start cur' = pr_start cur /\ r_end cur' = Z.max (r_end cur) (r_end next)).
    { pose proof (r_end_align _ Hn) as Hna. destruct Hc as [C1 C2 C3 C4], Hn as [N1 N2 N3 N4].
      unfold cur', KMEM_PAGE_SIZE. destruct (Z.ltb_spec (r_end cur) (r_end next)) as [Hlt|Hge].
      - assert (Hrs : pr_start cur < r_end cur) by (unfold r_end; lia).
        rewrite u64_small by cint.
        assert (Hp : (r_end next - pr_start cur) / 4096 * 4096 = r_end next - pr_start cur) by cdiv.
        assert (He : r_end (PageRange (pr_start cur) ((r_end next - pr_start cur) / 4096)) = r_end next)
          by (unfold r_end at 1; cbn [pr_start pr_pages]; lia).
        rewrite He. split_and!; [|done|lia]. split; [done|done| |by rewrite He]. cbn [pr_pages]. lia.
      - split_and!; [by split|done|lia]. }
    clearbody cur'. destruct Hc' as (Hc' & Hs' & He').
    destruct (IH cur' Hc' Hr) as (I1 & I2 & I3 & I4 & I5 & I6).
    { split; [|done]. eapply Forall_impl; [exact Ho1|]. intros s. unfold starts_le. lia. }
    split_and!; [done|done| |cbn; lia| |].
    + intros a. rewrite I3, !free_at_cons. unfold covers. rewrite Hs', He'. pose proof (rk_pages _ Hc). pose proof (rk_pages _ Hn).
      assert (pr_start next < r_end next) by (unfold r_end; lia). intuition lia.
    + intros [Hd1 [Hd2 Hd3]]. apply Forall_cons_1 in Hd1 as [Hd1 Hd4].
      assert (Heq : r_end cur = pr_start next /\ r_end cur < r_end next).
      { pose proof (rk_pages _ Hc). pose proof (rk_pages _ Hn). unfold apart_ranges, r_end in *. lia. }
      rewrite I5. { cbn. unfold r_end in *. lia. }
      split; [|done]. apply Forall_forall. intros s Hs. rewrite Forall_forall in Hd4, Hd2.
      specialize (Hd4 s Hs). specialize (Hd2 s Hs). rewrite Forall_forall in Ho2. specialize (Ho2 s Hs).
      assert (rng_ok s) by (rewrite Forall_forall in Hr; auto). pose proof (rk_pages s). unfold apart_ranges, starts_le, r_end in *. intuition lia.
    + eapply Forall_impl; [exact I6|]. intros s. unfold starts_le. lia.
  - destruct (IH next Hn Hr) as (I1 & I2 & I3 & I4 & I5 & I6); [done|].
    split_and!; [by constructor|split; [|done]|..].
    + eapply Forall_impl; [exact I6|]. intros s. unfold starts_le. lia.
    + intros a. by rewrite free_at_cons, I3, (free_at_cons cur).
    + cbn. lia.
    + intros [_ Hd]. cbn [pages_of foldr]. f_equal. by apply I5.
    + constructor; [unfold starts_le; lia|]. eapply Forall_impl; [exact I6|]. intros s. unfold starts_le. lia.
Qed.

(** Coalescing keeps the free set and leaves ranges in order with gaps. *)
Lemma coalesce_ranges_ok l : Forall rng_ok l ->
  let l' := coalesce_ranges l in
  Forall rng_ok l' /\ spaced l' /\ (forall a, free_at l' a <-> free_at l a) /\ (length l' <= length l)%nat /\
  (disjoint_ranges l -> pages_of l' = pages_of l).
Proof.
  intros Hl. unfold coalesce_ranges. destruct (sort_ranges_ok (length l) l) as [Hp Ho]; [done|].
  destruct (sort_ranges (length l) l) as [|x rest] eqn:E.
  { apply Permutation_nil in Hp as ->. split_and!; [constructor|done|done|done|done]. }
  assert (Hx : Forall rng_ok (x :: rest)) by by rewrite Hp. apply Forall_cons_1 in Hx as [Hx Hr].
  destruct (merge_ranges_ok x rest Hx Hr Ho) as (I1 & I2 & I3 & I4 & I5 & _). split_and!; [done|done|..].
  - intros a. rewrite I3. split; apply free_at_perm; by rewrite Hp.
  - apply Permutation_length in Hp. cbn in Hp. lia.
  - intros Hd. rewrite I5; [by apply pages_perm|]. eapply disjoint_perm; [|exact Hd]. by rewrite Hp.
Qed.

(** ** Taking and returning pages *)

(** The invariant: good ranges that do not overlap and fit the table, and a
    counter that agrees with them. *)
Record kmem_ok (k : kmem) : Prop := {
  ko_ranges : Forall rng_ok (free_ranges k);
  ko_disjoint : disjoint_ranges (free_ranges k);
  ko_length : (length (free_ranges k) <= 128)%nat;
  ko_count : free_page_count k = pages_of (free_ranges k)
}.

Definition free (k : kmem) (a : Z) : Prop := free_at (free_ranges k) a.

(** Ranges that do not overlap cannot hold more pages than there are. *)
Lemma pages_in_order lo l : in_order l -> Forall rng_ok l -> disjoint_ranges l -> Forall (fun r => lo <= pr_start r) l ->
  lo < 18446744073709551616 -> lo + pages_of l * 4096 < 18446744073709551616.
Proof.
  unfold pages_of. revert lo. induction l as [|r l IH]; intros lo Ho Hr Hd Hlo Hb; cbn; [lia|].
  apply Forall_cons_1 in Hr as [Hr Hl], Hlo as [Hlo _]. destruct Ho as [Ho1 Ho2], Hd as [Hd1 Hd2]. pose proof (rk_end r Hr).
  specialize (IH (r_end r) Ho2 Hl Hd2). assert (Forall (fun s => r_end r <= pr_start s) l) as Hs.
  { apply Forall_forall. intros s Hs. rewrite Forall_forall in Ho1, Hd1, Hl. specialize (Ho1 s Hs). specialize (Hd1 s Hs).
    pose proof (rk_pages _ (Hl s Hs)). unfold starts_le, apart_ranges, r_end in *. lia. }
  specialize (IH Hs ltac:(done)). unfold r_end in *. lia.
Qed.

Lemma pages_bound l : Forall rng_ok l -> disjoint_ranges l -> 0 <= pages_of l < 4503599627370496.
Proof.
  intros Hr Hd. split; [by apply pages_nonneg|]. destruct (sort_ranges_ok (length l) l) as [Hp Ho]; [done|].
  rewrite <- (pages_perm _ _ Hp). pose proof (pages_in_order 0 (sort_ranges (length l) l) Ho) as H.
  rewrite Hp in H at 1. specialize (H Hr (disjoint_perm _ _ (symmetry Hp) Hd)).
  enough (Forall (fun r => 0 <= pr_start r) (sort_ranges (length l) l)) as Hz by (specialize (H Hz ltac:(lia)); lia).
  rewrite Hp. eapply Forall_impl; [exact Hr|]. intros r [? ? ? ?]. cbn. lia.
Qed.

(** The part of a range behind its first [n] pages. *)
Definition chopped (r : page_range) (n : Z) : list page_range :=
  if pr_pages r =? n then [] else [PageRange (pr_start r + n * 4096) (pr_pages r - n)].

Lemma chopped_ok r n : rng_ok r -> 0 < n <= pr_pages r ->
  Forall rng_ok (chopped r n) /\ disjoint_ranges (chopped r n) /\ pages_of (chopped r n) = pr_pages r - n /\
  (forall a, free_at (chopped r n) a <-> covers r a /\ ~ in_block a (pr_start r) (n * 4096)) /\
  (forall s, apart_ranges r s -> Forall (fun c => apart_ranges c s) (chopped r n)).
Proof.
  intros [H1 H2 H3 H4] Hn. unfold chopped. destruct (Z.eqb_spec (pr_pages r) n) as [E|E].
  - split_and!; [constructor|done|cbn; lia| |constructor]. intros a. split; [intros Ha%free_at_nil; done|].
    unfold covers, r_end, in_block. lia.
  - split_and!; [|split; [constructor|done]|cbn; lia|..].
    + repeat constructor; cbn [pr_start pr_pages]; unfold r_end in *; cbn [pr_start pr_pages]; [lia|cdiv|lia|lia].
    + intros a. rewrite free_at_cons. unfold covers, r_end, in_block. cbn [pr_start pr_pages].
      split; [intros [?|?%free_at_nil]; [lia|done]|lia].
    + intros s Hs. apply Forall_singleton. unfold apart_ranges, r_end in *. cbn [pr_start pr_pages]. lia.
Qed.

(** Replacing one range of the table by the rest of it. *)
Lemma take_pages_ok l1 r l2 n : Forall rng_ok (l1 ++ r :: l2) -> disjoint_ranges (l1 ++ r :: l2) -> 0 < n <= pr_pages r ->
  let l' := l1 ++ chopped r n ++ l2 in
  Forall rng_ok l' /\ disjoint_ranges l' /\ pages_of l' = pages_of (l1 ++ r :: l2) - n /\ (length l' <= length (l1 ++ r :: l2))%nat /\
  (forall a, free_at l' a <-> free_at (l1 ++ r :: l2) a /\ ~ in_block a (pr_start r) (n * 4096)).
Proof.
  intros Hr Hd Hn. apply Forall_app in Hr as [Hr1 Hr2]. apply Forall_cons_1 in Hr2 as [Hr Hr2].
  apply disjoint_app in Hd as (Hd1 & [Hd2 Hd3] & Hd4). destruct (chopped_ok r n Hr Hn) as (C1 & C2 & C3 & C4 & C5).
  assert (Hd5 : Forall (apart_ranges r) l1).
  { eapply Forall_impl; [exact Hd4|]. intros s Hs%Forall_cons_1. by apply apart_ranges_sym, Hs. }
  split_and!.
  - rewrite !Forall_app. done.
  - rewrite !disjoint_app. split_and!; [done|done|done|..].
    + apply Forall_forall. intros c Hc. apply Forall_forall. intros s Hs. rewrite Forall_forall in Hd2. specialize (C5 s (Hd2 s Hs)).
      rewrite Forall_forall in C5. auto.
    + apply Forall_forall. intros s Hs. rewrite Forall_app. rewrite Forall_forall in Hd4, Hd5. split.
      * specialize (C5 s (Hd5 s Hs)). eapply Forall_impl; [exact C5|]. intros c. apply apart_ranges_sym.
      * specialize (Hd4 s Hs). by apply Forall_cons_1 in Hd4 as [_ ?].
  - rewrite !pages_app, C3. unfold pages_of. cbn. lia.
  - rewrite !length_app. unfold chopped. destruct (_ =? _); cbn; lia.
  - intros a. rewrite !free_at_app, free_at_cons, C4. unfold free_at. rewrite !list.Exists_exists.
    assert (Hout : forall s, s ∈ l1 \/ s ∈ l2 -> covers s a -> ~ in_block a (pr_start r) (n * 4096)).
    { intros s Hs Hc. rewrite Forall_elem in Hd2, Hd5. assert (Ha : apart_ranges r s) by (destruct Hs; auto).
      unfold apart_ranges, covers, in_block, r_end in *. lia. }
    split.
    + intros [(s & Hs & Hc)|[[Hc Hi]|(s & Hs & Hc)]]; (split; [|eauto]); eauto.
    + intros [[H|[H|H]] Hi]; eauto.
Qed.

(** What [page_alloc] may answer. *)
Definition alloc_pages_outcome (n : Z) (k : kmem) (res : Z * kmem) : Prop :=
  let '(addr, k') := res in
  kmem_ok k' /\
  if decide (addr = 0) then
    free_ranges k' = free_ranges k /\ kmem_memory k' = kmem_memory k /\
    (n = 0 \/ (allocation_failures k' = u64 (allocation_failures k + 1) /\
               forall r, r ∈ free_ranges k -> pr_pages r < n))
  else
    0 < addr /\ addr mod 4096 = 0 /\ addr + n * 4096 < 18446744073709551616 /\
    (forall a, in_block a addr (n * 4096) -> free k a) /\
    (forall a, free k' a <-> free k a /\ ~ in_block a addr (n * 4096)) /\
    kmem_free_pages k' = kmem_free_pages k - n /\
    (forall a, in_block a addr (n * 4096) -> kmem_memory k' a = 0) /\
    (forall a, ~ in_block a addr (n * 4096) -> kmem_memory k' a = kmem_memory k a).

Lemma page_alloc_split n k i r : free_ranges k !! i = Some r -> rng_ok r -> 0 < n <= pr_pages r ->
  let r' := PageRange (u64 (pr_start r + n * KMEM_PAGE_SIZE)) (u64 (pr_pages r - n)) in
  (if pr_pages r' =? 0 then remove_range_index i (<[i:=r']> (free_ranges k)) else <[i:=r']> (free_ranges k))
  = take i (free_ranges k) ++ chopped r n ++ drop (S i) (free_ranges k).
Proof.
  intros Hi [H1 H2 H3 H4] Hn r'. assert (Hlt := lookup_lt_Some _ _ _ Hi). unfold r_end in H4. unfold r', KMEM_PAGE_SIZE. cbn [pr_pages].
  rewrite !u64_small by cint. unfold chopped. rewrite insert_take_drop by done.
  destruct (Z.eqb_spec (pr_pages r) n), (Z.eqb_spec (pr_pages r - n) 0); try lia; [|done].
  unfold remove_range_index. rewrite take_app_le, take_take, Nat.min_id by (rewrite length_take; lia). f_equal.
  rewrite drop_app_ge by (rewrite length_take; lia). rewrite length_take, Nat.min_l by lia.
  by replace (i + 1 - i)%nat with 1%nat by lia.
Qed.

Lemma page_alloc_ok n k : kmem_ok k -> is_u32 n -> alloc_pages_outcome n k (page_alloc n k).
Proof.
  intros [K1 K2 K3 K4] Hn. unfold page_alloc. destruct (Z.eqb_spec n 0) as [->|Hn0].
  { split; [by split|]. rewrite decide_True by done. auto. }
  destruct (find_index _ (free_ranges k)) as [i|] eqn:Ef.
  - apply find_index_Some in Ef as (r & Hi & Hb & _). apply Z.leb_le in Hb. rewrite Hi. change (default (PageRange 0 0) (Some r)) with r.
    assert (Hr : rng_ok r) by (rewrite Forall_elem in K1; eauto using list_elem_of_lookup_2).
    pose proof (page_alloc_split n k i r Hi Hr ltac:(cint)) as Hs. cbv zeta in Hs. cbv zeta. rewrite Hs. clear Hs.
    pose proof (take_drop_middle _ _ _ Hi) as Hm. rewrite <- Hm in K1, K2, K3, K4.
    destruct (take_pages_ok _ r _ n K1 K2 ltac:(cint)) as (T1 & T2 & T3 & T4 & T5).
    pose proof (pages_bound _ K1 K2) as Hpb. pose proof (pages_bound _ T1 T2) as Hpb2. destruct Hr as [R1 R2 R3 R4]. unfold r_end in R4.
    destruct (Z.eqb_spec (pr_start r) 0); [lia|]. split.
    { split; cbn [free_ranges free_page_count set_ranges]; [done|done|lia|]. rewrite T3, K4, u64_small by cint. lia. }
    rewrite decide_False by lia. unfold free, kmem_free_pages. cbn [free_ranges free_page_count set_ranges kmem_memory].
    rewrite Hm in T5. split_and!; [lia|done|unfold is_u32 in Hn; lia| |done| |..].
    + intros a Ha. unfold free_at. rewrite list.Exists_exists. exists r. split; [by eapply list_elem_of_lookup_2|].
      unfold in_block, covers, r_end, is_u32 in *. lia.
    + rewrite K4, u64_small by cint. lia.
    + intros a Ha. unfold in_block, KMEM_PAGE_SIZE in *. rewrite (proj2 (Z.leb_le _ _)), (proj2 (Z.ltb_lt _ _)) by lia. done.
    + intros a Ha. unfold in_block, KMEM_PAGE_SIZE in *. destruct (_ && _) eqn:E3; [|done]. bool_prop. lia.
  - split; [by split|]. rewrite decide_True by done. cbn [free_ranges kmem_memory allocation_failures]. split_and!; [done|done|]. right. split; [done|].
    intros r (i & Hi)%list_elem_of_lookup. rewrite find_index_None in Ef. specialize (Ef i r Hi). by apply Z.leb_gt in Ef.
Qed.

(** Ranges are apart exactly when no address is in both. *)
Lemma apart_free r l : rng_ok r -> Forall rng_ok l ->
  Forall (apart_ranges r) l <-> (forall a, covers r a -> ~ free_at l a).
Proof.
  intros Hr Hl. unfold free_at. split.
  - intros Ha a Hc (s & Hs & Hc')%list.Exists_exists. rewrite Forall_elem in Ha. specialize (Ha s Hs).
    unfold apart_ranges, covers in *. lia.
  - intros Ha. apply Forall_elem. intros s Hs. rewrite Forall_elem in Hl. pose proof (rk_pages _ (Hl s Hs)). pose proof (rk_pages _ Hr).
    destruct (decide (apart_ranges r s)) as [|Hn]; [done|]. exfalso.
    apply (Ha (Z.max (pr_start r) (pr_start s))); [|apply list.Exists_exists; exists s; split; [done|]];
      unfold apart_ranges, covers, r_end in *; lia.
Qed.

Lemma land_page_mask addr : 0 <= addr -> (Z.land addr (KMEM_PAGE_SIZE - 1) =? 0) = (addr mod 4096 =? 0).
Proof. intros _. change (KMEM_PAGE_SIZE - 1) with (Z.ones 12). by rewrite Z.land_ones by lia. Qed.

Lemma page_free_full addr n k : (128 <= length (free_ranges k))%nat -> page_free addr n k = k.
Proof.
  intros Hl. unfold page_free. destruct (_ || _ || _); [done|]. unfold KMEM_MAX_RANGES. by rewrite (proj2 (Nat.ltb_ge _ _)) by lia.
Qed.

(** Returning a block that is not free adds exactly it to the free set. *)
Lemma page_free_ok addr n k : kmem_ok k -> rng_ok (PageRange addr n) -> (length (free_ranges k) < 128)%nat ->
  (forall a, in_block a addr (n * 4096) -> ~ free k a) ->
  kmem_ok (page_free addr n k) /\ spaced (free_ranges (page_free addr n k)) /\
  (forall a, free (page_free addr n k) a <-> free k a \/ in_block a addr (n * 4096)) /\
  kmem_free_pages (page_free addr n k) = kmem_free_pages k + n /\
  kmem_memory (page_free addr n k) = kmem_memory k.
Proof.
  intros [K1 K2 K3 K4] Hr Hl Hf. pose proof Hr as [R1 R2 R3 R4]. cbn [pr_start pr_pages] in *. unfold r_end in R4; cbn in R4.
  unfold page_free. rewrite land_page_mask, R2 by lia. destruct (Z.eqb_spec addr 0); [lia|]. destruct (Z.eqb_spec n 0); [lia|].
  cbn [orb negb Z.eqb]. unfold KMEM_MAX_RANGES. rewrite (proj2 (Nat.ltb_lt _ _)) by done.
  assert (Hall : Forall rng_ok (free_ranges k ++ [PageRange addr n])) by (rewrite Forall_app; auto).
  assert (Hd : disjoint_ranges (free_ranges k ++ [PageRange addr n])).
  { eapply disjoint_perm; [apply Permutation_cons_append|]. split; [|done]. apply apart_free; [done|done|].
    intros a Ha. apply Hf. unfold covers, r_end, in_block in *. cbn in Ha. lia. }
  destruct (coalesce_ranges_ok _ Hall) as (C1 & C2 & C3 & C4 & C5). specialize (C5 Hd).
  rewrite pages_app in C5. unfold pages_of at 3 in C5. cbn [foldr pr_pages] in C5.
  pose proof (pages_bound _ C1 (spaced_disjoint _ C2)). pose proof (pages_bound _ K1 K2). rewrite length_app in C4; cbn in C4.
  unfold kmem_free_pages, free. cbn [free_ranges free_page_count set_ranges kmem_memory].
  rewrite K4, u64_small by cint. split_and!; [|done| |lia|done].
  - split; cbn [free_ranges free_page_count set_ranges]; [done|by apply spaced_disjoint|lia|lia].
  - intros a. rewrite C3, free_at_app, free_at_cons. unfold covers, r_end, in_block. cbn [pr_start pr_pages].
    split; [intros [?|[?|?%free_at_nil]]; auto; done|intros [?|?]; auto].
Qed.

(** ** Clients *)

(** A client that asks for pages and returns only blocks it holds; [owned]
    are the blocks it holds. *)
Inductive page_step : kmem * list page_range -> kmem * list page_range -> Prop :=
  | step_alloc n k owned addr k' : is_u32 n -> page_alloc n k = (addr, k') -> addr <> 0 ->
      page_step (k, owned) (k', PageRange addr n :: owned)
  | step_none n k owned k' : is_u32 n -> page_alloc n k = (0, k') -> page_step (k, owned) (k', owned)
  | step_free k owned1 r owned2 :
      page_step (k, owned1 ++ r :: owned2) (page_free (pr_start r) (pr_pages r) k, owned1 ++ owned2).

(** The blocks in use do not overlap each other or the free pages, and no
    memory comes from elsewhere than the pages free at the beginning. *)
Record pages_inv (k0 : kmem) (s : kmem * list page_range) : Prop := {
  pi_ok : kmem_ok (fst s);
  pi_owned : Forall rng_ok (snd s);
  pi_disjoint : disjoint_ranges (snd s);
  pi_not_free a : free_at (snd s) a -> ~ free (fst s) a;
  pi_from a : free_at (snd s) a \/ free (fst s) a -> free k0 a
}.

Lemma page_step_inv k0 s s' : pages_inv k0 s -> page_step s s' -> pages_inv k0 s'.
Proof.
  intros [H1 H2 H3 H4 H5] Hs. destruct Hs as [n k owned addr k' Hn E Ha|n k owned k' Hn E|k owned1 r owned2]; cbn [fst snd] in *.
  - pose proof (page_alloc_ok n k H1 Hn) as Ho. rewrite E in Ho. destruct Ho as [Hk' Ho]. rewrite decide_False in Ho by done.
    destruct Ho as (O1 & O2 & O3 & O4 & O5 & O6 & _). pose proof (pages_bound _ (ko_ranges _ H1) (ko_disjoint _ H1)).
    assert (Hn0 : 0 < n). { destruct (decide (n = 0)) as [->|]; [|cint]. by inversion E. }
    assert (Hr : rng_ok (PageRange addr n)) by (split; unfold r_end; cbn [pr_start pr_pages]; (done || lia)).
    assert (Hc : forall a, covers (PageRange addr n) a <-> in_block a addr (n * 4096)) by done.
    split; cbn [fst snd]; [done|by constructor|split; [|done]|..].
    + apply apart_free; [done|done|]. intros a Hca Hfa. by apply (H4 a Hfa), O4, Hc.
    + intros a. rewrite free_at_cons, O5, Hc. intros [Hi|Hf] [Hfr Hni]; [done|]. by apply (H4 a).
    + intros a. rewrite free_at_cons, O5, Hc. intros [[Hi|Hf]|[Hf _]]; apply H5; auto.
  - pose proof (page_alloc_ok n k H1 Hn) as Ho. rewrite E in Ho. destruct Ho as [Hk' Ho]. rewrite decide_True in Ho by done.
    destruct Ho as (O1 & _). split; cbn [fst snd]; [done|done|done|..]; unfold free in *; by rewrite O1.
  - apply Forall_app in H2 as [H2 [Hr H6]%Forall_cons_1]. apply disjoint_app in H3 as (D1 & [D2 D3] & D4).
    assert (Hd' : disjoint_ranges (owned1 ++ owned2)).
    { apply disjoint_app. split_and!; [done|done|]. eapply Forall_impl; [exact D4|]. intros s Hs. by apply Forall_cons_1 in Hs as [_ ?]. }
    assert (Hro : forall a, covers r a -> ~ free_at (owned1 ++ owned2) a).
    { apply apart_free; [done|by apply Forall_app|]. apply Forall_app. split; [|done]. eapply Forall_impl; [exact D4|].
      intros s [Hs _]%Forall_cons_1. by apply apart_ranges_sym. }
    assert (Hsub : forall a, free_at (owned1 ++ owned2) a -> free_at (owned1 ++ r :: owned2) a).
    { intros a. rewrite !free_at_app, free_at_cons. tauto. }
    destruct (decide (length (free_ranges k) < 128)%nat) as [Hl|Hl].
    + destruct r as [addr n]. destruct (page_free_ok addr n k H1 Hr Hl) as (F1 & _ & F3 & _).
      { intros a Ha. apply H4. rewrite free_at_app, free_at_cons. auto. }
      split; cbn [fst snd pr_start pr_pages]; [done|by apply Forall_app|done|..].
      * intros a Ha [Hf|Hi]%F3; [by apply (H4 a); auto|by apply (Hro a)].
      * intros a. rewrite F3. intros [Ha|[Hf|Hi]]; apply H5; auto. left. rewrite free_at_app, free_at_cons. auto.
    + rewrite page_free_full by lia. split; cbn [fst snd]; [done|by apply Forall_app|done|..]; auto.
      intros a [Ha|Ha]; apply H5; auto.
Qed.

Lemma page_run_inv k0 s s' : pages_inv k0 s -> rtc page_step s s' -> pages_inv k0 s'.
Proof. intros Hs Hr. induction Hr as [s|s1 s2 s3 H12 _ IH]; [done|]. eauto using page_step_inv. Qed.

Lemma start_inv k : kmem_ok k -> pages_inv k (k, []).
Proof. intros Hk. split; cbn; [done|constructor|done|by intros a ?%free_at_nil|intros a [?%free_at_nil|?]; done]. Qed.

(** ** Size classes of the heap *)

Lemma class_for_size_ok bytes : is_u32 bytes ->
  match class_for_size bytes with
  | Some i => exists c, small_class_sizes !! i = Some c /\ bytes + KMALLOC_OVERHEAD <= c /\
                forall j c', (j < i)%nat -> small_class_sizes !! j = Some c' -> c' < bytes + KMALLOC_OVERHEAD
  | None => 4096 < bytes + KMALLOC_OVERHEAD
  end.
Proof.
  intros Hb. unfold class_for_size, KMALLOC_OVERHEAD. destruct (Z.ltb_spec (0xffffffff - 28) bytes); [lia|].
  rewrite u32_small by cint. destruct (find_index _ small_class_sizes) as [i|] eqn:E.
  - apply find_index_Some in E as (c & Hc & Hle & Hlt). exists c. split_and!; [done|by apply Z.leb_le|].
    intros j c' Hj Hc'. by apply Z.leb_gt, (Hlt j).
  - rewrite find_index_None in E. specialize (E 7%nat 4096 eq_refl). by apply Z.leb_gt in E.
Qed.
