(* ===== verification/KmemBoot.v ===== *)
(** Filling the page allocator at boot: [reserve_range] and [kmem_init].

    [reserve_range] replaces every free range by the pieces of it outside the
    reserved block, as long as the table has room for the range it may have to
    split; [kmem_init] is the memory map's conventional memory above 1 MiB less
    the reserved blocks. *)
From Stdlib Require Import ZArith Lia.
From stdpp Require Import base tactics option list numbers.
From S2P Require Import Prelude.
From S2P Require Import Dma.
From S2P Require Import Kmem.
From S2P Require Import KmemSpec.
#[local] Open Scope Z_scope.

(** ** Cutting a block out of a range *)

Lemma piece_end x y : x mod 4096 = 0 -> y mod 4096 = 0 -> x <= y -> r_end (PageRange x ((y - x) / 4096)) = y.
Proof. intros Hx Hy Hxy. unfold r_end. cbn [pr_start pr_pages]. cdiv. Qed.

Lemma piece_ok x y : x mod 4096 = 0 -> y mod 4096 = 0 -> 0 < x < y -> y < 18446744073709551616 -> rng_ok (PageRange x ((y - x) / 4096)).
Proof. intros Hx Hy Hxy Hb. split; [cbn; lia|done|cbn; cdiv|]. by rewrite piece_end by (done || lia). Qed.

Lemma piece_whole r : PageRange (pr_start r) ((r_end r - pr_start r) / 4096) = r.
Proof. destruct r as [x n]. unfold r_end. cbn. f_equal. replace (x + n * 4096 - x) with (n * 4096) by lia. by apply Z.div_mul. Qed.

Lemma pages_piece x y rest : pages_of (PageRange x y :: rest) = y + pages_of rest.
Proof. reflexivity. Qed.

Section cut.
Context (s e : Z) (Hse : 0 <= s <= e) (He : e < 18446744073709551616).
Context (Hsa : s mod 4096 = 0) (Hea : e mod 4096 = 0).

(** What is left of a range on either side of the block. *)
Definition pieces (r : page_range) : list page_range :=
  (if pr_start r <? s then [PageRange (pr_start r) ((Z.min s (r_end r) - pr_start r) / 4096)] else []) ++
  (if e <? r_end r then [PageRange (Z.max e (pr_start r)) ((r_end r - Z.max e (pr_start r)) / 4096)] else []).

(** A range that has to be split. *)
Definition holdsb (r : page_range) : bool := (pr_start r <? s) && (e <? r_end r).
Fixpoint nholds (l : list page_range) : nat :=
  match l with [] => 0 | r :: l' => (if holdsb r then 1 else 0) + nholds l' end.

Definition outside (r : page_range) : Prop := r_end r <= s \/ e <= pr_start r.

Lemma pieces_outside r : rng_ok r -> outside r -> pieces r = [r].
Proof.
  intros [R1 R2 R3 R4] Ho. unfold pieces, outside in *. assert (pr_start r < r_end r) by (unfold r_end; lia).
  destruct (Z.ltb_spec (pr_start r) s), (Z.ltb_spec e (r_end r)); cbn; try lia.
  - rewrite Z.min_r by lia. by rewrite piece_whole.
  - rewrite Z.max_r by lia. by rewrite piece_whole.
Qed.

Lemma pieces_ok r : rng_ok r ->
  Forall rng_ok (pieces r) /\ disjoint_ranges (pieces r) /\
  (forall a, free_at (pieces r) a <-> covers r a /\ ~ s <= a < e).
Proof.
  intros Hr. pose proof (r_end_align _ Hr) as Hra. destruct Hr as [R1 R2 R3 R4].
  assert (Hlt : pr_start r < r_end r) by (unfold r_end; lia).
  assert (Hm1 : Z.min s (r_end r) mod 4096 = 0) by (destruct (Z.min_spec s (r_end r)) as [[_ ->]|[_ ->]]; done).
  assert (Hm2 : Z.max e (pr_start r) mod 4096 = 0) by (destruct (Z.max_spec e (pr_start r)) as [[_ ->]|[_ ->]]; done).
  unfold pieces. destruct (Z.ltb_spec (pr_start r) s) as [L|L], (Z.ltb_spec e (r_end r)) as [R|R]; cbn [app];
    (split; [repeat apply Forall_cons_2; try apply Forall_nil_2; apply piece_ok; (done || lia)|split]).
  - split; [|split; [constructor|done]]. apply Forall_singleton. unfold apart_ranges. rewrite !piece_end by (done || lia). cbn [pr_start]. lia.
  - intros a. rewrite !free_at_cons. unfold covers. rewrite !piece_end by (done || lia). cbn [pr_start].
    split; [intros [?|[?|?%free_at_nil]]; [lia|lia|done]|]. lia.
  - split; [constructor|done].
  - intros a. rewrite !free_at_cons. unfold covers. rewrite !piece_end by (done || lia). cbn [pr_start].
    split; [intros [?|?%free_at_nil]; [lia|done]|]. lia.
  - split; [constructor|done].
  - intros a. rewrite !free_at_cons. unfold covers. rewrite !piece_end by (done || lia). cbn [pr_start].
    split; [intros [?|?%free_at_nil]; [lia|done]|]. lia.
  - done.
  - intros a. split; [by intros ?%free_at_nil|]. unfold covers. lia.
Qed.

Lemma pieces_length r : (length (pieces r) <= 1 + (if holdsb r then 1 else 0))%nat.
Proof. unfold pieces, holdsb. destruct (_ <? s), (e <? _); cbn; lia. Qed.

Lemma pieces_all l : Forall rng_ok l -> disjoint_ranges l ->
  Forall rng_ok (l ≫= pieces) /\ disjoint_ranges (l ≫= pieces) /\
  (forall a, free_at (l ≫= pieces) a <-> free_at l a /\ ~ s <= a < e).
Proof.
  induction l as [|r l IH]; intros Hl Hd.
  { split_and!; [constructor|done|]. intros a. split; [by intros ?%free_at_nil|by intros [?%free_at_nil _]]. }
  apply Forall_cons_1 in Hl as [Hr Hl]. destruct Hd as [Hd1 Hd2]. destruct (IH Hl Hd2) as (I1 & I2 & I3).
  destruct (pieces_ok r Hr) as (P1 & P2 & P3). cbn [mbind list_bind].
  assert (Ha : forall a, free_at (pieces r ++ (l ≫= pieces)) a <-> free_at (r :: l) a /\ ~ s <= a < e).
  { intros a. rewrite free_at_app, P3, I3, free_at_cons. tauto. }
  split_and!; [by apply Forall_app| |done]. apply disjoint_app. split_and!; [done|done|].
  apply Forall_elem. intros p Hp. assert (Hpk : rng_ok p) by (rewrite Forall_elem in P1; auto).
  apply apart_free; [done|done|]. intros a Hc [Hf _]%I3.
  assert (Hcr : covers r a). { apply P3. apply list.Exists_exists. eauto. }
  revert Hf. by apply (apart_free r l Hr Hl).
Qed.

Lemma nholds_disjoint l : Forall rng_ok l -> disjoint_ranges l -> (nholds l <= 1)%nat.
Proof.
  induction l as [|r l IH]; cbn; [lia|]. intros [Hr Hl]%Forall_cons_1 [Hd1 Hd2]. specialize (IH Hl Hd2).
  destruct (holdsb r) eqn:E; [|lia]. enough (nholds l = 0%nat) by lia. unfold holdsb in *. bool_prop. clear IH Hd2 Hl.
  induction l as [|t l IH]; [done|]. cbn. apply Forall_cons_1 in Hd1 as [Ha Hd1]. rewrite IH by done.
  unfold holdsb. destruct (Z.ltb_spec (pr_start t) s); [|done]. destruct (Z.ltb_spec e (r_end t)); [|done].
  unfold apart_ranges in Ha. lia.
Qed.

Lemma pieces_count l : (length (l ≫= pieces) <= length l + nholds l)%nat.
Proof.
  induction l as [|r l IH]; [done|]. change ((r :: l) ≫= pieces) with (pieces r ++ (l ≫= pieces)).
  rewrite length_app. cbn [nholds length]. pose proof (pieces_length r). lia.
Qed.

Lemma nholds_app l k : nholds (l ++ k) = (nholds l + nholds k)%nat.
Proof. induction l as [|r l IH]; cbn; [done|]. rewrite IH. lia. Qed.

(** The loop puts the pieces in place of every range it has not seen yet. *)
Lemma reserve_loop_ok fuel before rest : Forall rng_ok (before ++ rest) ->
  pages_of (before ++ rest) < 4503599627370496 ->
  (nholds rest + length rest <= fuel)%nat -> (nholds rest + length (before ++ rest) <= 128)%nat ->
  exists l', reserve_loop fuel s e before rest (pages_of (before ++ rest)) (pages_of (before ++ rest)) = (l', pages_of l', pages_of l') /\
    l' ≡ₚ before ++ (rest ≫= pieces).
Proof.
  revert before rest. induction fuel as [|fuel IH]; intros before [|r rest] Hok Hb Hf Hroom; cbn [reserve_loop]; try (cbn in Hf; lia).
  1,2: exists (before ++ []); split; [reflexivity|cbn; done].
  pose proof Hok as [Hok1 [Hr Hok2]%Forall_cons_1]%Forall_app. rewrite range_end_eq by done.
  pose proof (r_end_align _ Hr) as Hra. pose proof (pages_nonneg _ Hok1). pose proof (pages_nonneg _ Hok2).
  pose proof (pieces_ok r Hr) as (P1 & _ & _). pose proof Hr as [R1 R2 R3 R4].
  assert (Hlt : pr_start r < r_end r) by (unfold r_end; lia).
  assert (Hpg : pages_of (before ++ r :: rest) = pages_of before + pr_pages r + pages_of rest) by (rewrite pages_app; unfold pages_of; cbn [foldr]; lia).
  rewrite Hpg in Hb |- *. cbn [nholds length] in Hf, Hroom. rewrite length_app in Hroom. cbn [length] in Hroom.
  cbn [mbind list_bind].
  (* the shape shared by the rounds that keep the length *)
  assert (Hnext : forall p, pieces r = p -> (length p <= 1)%nat -> forall t, t = pages_of before + pages_of p + pages_of rest ->
    exists l', reserve_loop fuel s e (before ++ p) rest t t = (l', pages_of l', pages_of l') /\ l' ≡ₚ before ++ pieces r ++ (rest ≫= pieces)).
  { intros p Ep Hlp t ->. rewrite Ep in P1. assert (Hp : 0 <= pages_of p <= pr_pages r).
    { split; [by apply pages_nonneg|]. rewrite <- Ep. unfold pieces, r_end in *.
      destruct (Z.ltb_spec (pr_start r) s), (Z.ltb_spec e (pr_start r + pr_pages r * 4096)); cbn; cdiv. }
    destruct (IH (before ++ p) rest) as (l' & Hl' & Hperm).
    - rewrite !Forall_app. done.
    - rewrite !pages_app. lia.
    - lia.
    - rewrite !length_app. lia.
    - exists l'. rewrite Ep. rewrite !pages_app in Hl'. split; [exact Hl'|]. by rewrite Hperm, <- app_assoc. }
  destruct (overlaps (pr_start r) (r_end r) s e) eqn:Eo; unfold overlaps in Eo; cbn [negb].
  2:{ assert (Ho : outside r) by (unfold outside; apply andb_false_iff in Eo as [?|?]; bool_prop; lia).
      apply Hnext; [by apply pieces_outside|done|]. cbn. lia. }
  bool_prop. destruct (Z.leb_spec s (pr_start r)) as [L|L]; cbn [andb].
  - destruct (Z.leb_spec (r_end r) e) as [R|R].
    + rewrite u64_small by (unfold is_u64; lia). specialize (Hnext []). rewrite app_nil_r in Hnext.
      apply Hnext; [|cbn; lia|cbn; lia]. unfold pieces. by rewrite (proj2 (Z.ltb_ge _ _)), (proj2 (Z.ltb_ge _ _)) by lia.
    + unfold KMEM_PAGE_SIZE. rewrite (u64_small (e - pr_start r)) by cint.
      assert (Hrem : (e - pr_start r) / 4096 * 4096 = e - pr_start r) by cdiv. rewrite Hrem.
      assert (Hle : 0 <= (e - pr_start r) / 4096 < pr_pages r) by (unfold r_end in *; lia).
      rewrite !u64_small by (unfold is_u64, r_end in *; lia).
      apply Hnext; [|done|rewrite pages_piece; cbn; lia]. unfold pieces.
      rewrite (proj2 (Z.ltb_ge _ _)), (proj2 (Z.ltb_lt _ _)) by lia. rewrite Z.max_l by lia. cbn [app]. repeat f_equal; unfold r_end in *; cdiv.
  - destruct (Z.leb_spec (r_end r) e) as [R|R].
    + unfold KMEM_PAGE_SIZE. rewrite (u64_small (r_end r - s)) by cint.
      assert (Hrem : (r_end r - s) / 4096 * 4096 = r_end r - s) by cdiv.
      assert (Hle : 0 <= (r_end r - s) / 4096 < pr_pages r) by (unfold r_end in *; lia).
      rewrite !u64_small by (unfold is_u64, r_end in *; lia).
      apply Hnext; [|done|rewrite pages_piece; cbn; lia]. unfold pieces.
      rewrite (proj2 (Z.ltb_lt _ _)), (proj2 (Z.ltb_ge _ _)) by lia. rewrite Z.min_l by lia. cbn [app]. repeat f_equal; unfold r_end in *; cdiv.
    + assert (Hh : holdsb r = true) by (unfold holdsb; rewrite (proj2 (Z.ltb_lt _ _)), (proj2 (Z.ltb_lt _ _)) by lia; done).
      rewrite Hh in Hf, Hroom. rewrite length_app. cbn [length]. unfold KMEM_MAX_RANGES.
      rewrite (proj2 (Nat.ltb_lt _ _)) by lia. unfold KMEM_PAGE_SIZE. rewrite (u64_small (s - pr_start r)), (u64_small (r_end r - e)), (u64_small (e - s)) by cint.
      set (left := PageRange (pr_start r) ((s - pr_start r) / 4096)). set (right := PageRange e ((r_end r - e) / 4096)).
      assert (Ep : pieces r = [left; right]).
      { unfold pieces. rewrite (proj2 (Z.ltb_lt _ _)), (proj2 (Z.ltb_lt _ _)) by lia. by rewrite Z.min_l, Z.max_l by lia. }
      rewrite Ep in P1 |- *. apply Forall_cons_1 in P1 as [P1 [P2 _]%Forall_cons_1].
      assert (Hsum : pages_of [left] + pages_of [right] = pr_pages r - (e - s) / 4096) by (cbn; unfold r_end in *; cdiv).
      pose proof (rk_pages _ P1). pose proof (rk_pages _ P2). rewrite !u64_small by (unfold is_u64; cbn in *; cdiv).
      assert (Hout : outside right) by (right; cbn; lia).
      assert (Hnh : holdsb right = false) by (unfold holdsb; cbn [pr_start right]; by rewrite (proj2 (Z.ltb_ge _ _)) by lia).
      destruct (IH (before ++ [left]) (rest ++ [right])) as (l' & Hl' & Hperm).
      * rewrite !Forall_app. split_and!; try done; by apply Forall_singleton.
      * rewrite !pages_app. cbn in *. cdiv.
      * rewrite nholds_app, length_app. cbn. rewrite Hnh. lia.
      * rewrite nholds_app, !length_app. cbn. rewrite Hnh. lia.
      * exists l'. rewrite !pages_app in Hl'.
        replace (pages_of before + pr_pages r + pages_of rest - (e - s) / 4096)
          with (pages_of before + pages_of [left] + (pages_of rest + pages_of [right])) by lia.
        split; [exact Hl'|]. rewrite Hperm, bind_app. cbn [mbind list_bind].
        rewrite (pieces_outside right P2 Hout), app_nil_r, <- app_assoc. f_equiv. cbn. f_equiv. by rewrite Permutation_app_comm.
Qed.
End cut.

(** ** [reserve_range] *)

(** While booting every page is counted as free. *)
Definition boot_ok (k : kmem) : Prop := kmem_ok k /\ total_page_count k = free_page_count k.

(** The pages that contain the block of [size] bytes at [base]. *)
Definition page_block (base size a : Z) : Prop := align_down64 base 4096 <= a < align_up64 (base + size) 4096.

Lemma align_up_dma v : align_up64 v 4096 = Dma.align_up64 v 4096.
Proof. reflexivity. Qed.

Lemma align_up_page v : 0 <= v -> v + 4095 < 18446744073709551616 ->
  v <= align_up64 v 4096 <= v + 4095 /\ align_up64 v 4096 mod 4096 = 0.
Proof.
  intros Hv Hb. rewrite align_up_dma. pose proof (align_up_ge v 4096 Hv ltac:(lia)) as H. pose proof (align_up_pow2 v 12 Hv ltac:(lia)) as H2.
  rewrite pow_2_64 in *. change (2 ^ 12) with 4096 in H2. split; [lia|]. apply H2. lia.
Qed.

Lemma align_down_page v : is_u64 v -> v - 4095 <= align_down64 v 4096 <= v /\ align_down64 v 4096 mod 4096 = 0 /\ 0 <= align_down64 v 4096.
Proof.
  intros Hv. unfold align_down64. rewrite land_complement by cint. change (4096 - 1) with (Z.ones 12).
  rewrite Z.ldiff_ones_r, Z.shiftl_mul_pow2, Z.shiftr_div_pow2 by lia. change (2 ^ 12) with 4096. cdiv.
Qed.

Lemma align_down_aligned v : is_u64 v -> v mod 4096 = 0 -> align_down64 v 4096 = v.
Proof. intros Hv Hm. destruct (align_down_page v Hv) as (H1 & H2 & H3). cdiv. Qed.

Lemma align_up_aligned v : 0 <= v -> v + 4095 < 18446744073709551616 -> v mod 4096 = 0 -> align_up64 v 4096 = v.
Proof. intros Hv Hb Hm. destruct (align_up_page v Hv Hb) as [H1 H2]. cdiv. Qed.

Lemma reserve_range_ok base size k : boot_ok k -> (length (free_ranges k) < 128)%nat ->
  0 <= base -> 0 <= size -> base + size + 4095 < 18446744073709551616 ->
  let k' := reserve_range base (u64 (base + size)) k in
  boot_ok k' /\ (length (free_ranges k') <= S (length (free_ranges k)))%nat /\
  (forall a, free k' a <-> free k a /\ ~ page_block base size a) /\ kmem_memory k' = kmem_memory k.
Proof.
  intros [[K1 K2 K3 K4] Ht] Hl Hb Hs Hend. rewrite u64_small by cint. unfold reserve_range. change KMEM_PAGE_SIZE with 4096.
  destruct (align_up_page (base + size)) as [U1 U2]; [lia|lia|]. destruct (align_down_page base) as (D1 & D2 & D3); [cint|].
  set (s := align_down64 base 4096) in *. set (e := align_up64 (base + size) 4096) in *.
  assert (Hse : 0 <= s <= e) by lia. assert (He : e < 18446744073709551616) by lia.
  pose proof (nholds_disjoint s e Hse _ K1 K2) as Hn.
  destruct (reserve_loop_ok s e Hse He D2 U2 (2 * length (free_ranges k)) [] (free_ranges k)) as (l' & Hl' & Hp); cbn [app].
  { done. } { by apply pages_bound. } { destruct (free_ranges k); cbn in *; lia. } { lia. }
  cbn [app] in Hl'. rewrite Ht, K4, Hl'. cbn [app] in Hp.
  destruct (pieces_all s e Hse He D2 U2 _ K1 K2) as (P1 & P2 & P3).
  split_and!; unfold boot_ok; cbn [free_ranges total_page_count free_page_count kmem_memory set_ranges]; [|..|done].
  - split; [|done]. split; cbn [free_ranges free_page_count set_ranges].
    + by rewrite Hp.
    + by eapply disjoint_perm; [symmetry; exact Hp|].
    + rewrite Hp. etrans; [|exact Hl]. etrans; [apply (pieces_count s e)|]. lia.
    + done.
  - rewrite Hp. etrans; [apply (pieces_count s e)|]. lia.
  - intros a. unfold free, page_block. cbn [free_ranges set_ranges]. fold s e. rewrite <- P3. split; apply free_at_perm; by rewrite Hp.
Qed.

(** With a full table a range that would have to be split is left as it is. *)
Lemma reserve_loop_full s e fuel before rest t f : s <= e -> Forall rng_ok rest ->
  (128 <= length (before ++ rest))%nat -> Forall (fun r => outside s e r \/ holdsb s e r = true) rest ->
  reserve_loop fuel s e before rest t f = (before ++ rest, t, f).
Proof.
  intros Hse. revert before rest. induction fuel as [|fuel IH]; intros before rest Hok Hl Hr; [done|].
  destruct rest as [|r rest]; [done|]. cbn [reserve_loop]. apply Forall_cons_1 in Hok as [Hrk Hok], Hr as [Hr1 Hr].
  rewrite range_end_eq by done. assert (Hsame : before ++ r :: rest = (before ++ [r]) ++ rest) by by rewrite <- app_assoc.
  assert (Hnext : reserve_loop fuel s e (before ++ [r]) rest t f = (before ++ r :: rest, t, f)).
  { rewrite Hsame. apply IH; [done|by rewrite <- Hsame|done]. }
  destruct (overlaps (pr_start r) (r_end r) s e) eqn:Eo; cbn [negb]; [|done]. unfold overlaps in Eo. bool_prop.
  destruct Hr1 as [Ho|Hh]; [unfold outside in Ho; lia|]. unfold holdsb in Hh. bool_prop.
  destruct (Z.leb_spec s (pr_start r)); [lia|]. cbn [andb]. destruct (Z.leb_spec (r_end r) e); [lia|].
  unfold KMEM_MAX_RANGES. by rewrite (proj2 (Nat.ltb_ge _ _)) by done.
Qed.

Lemma reserve_range_full base size r k : kmem_ok k -> length (free_ranges k) = 128%nat -> r ∈ free_ranges k ->
  0 <= base -> 0 <= size -> base + size + 4095 < 18446744073709551616 ->
  pr_start r < align_down64 base 4096 -> align_up64 (base + size) 4096 < r_end r ->
  reserve_range base (u64 (base + size)) k = k.
Proof.
  intros [K1 K2 K3 K4] Hl Hr Hb Hs Hend H1 H2. rewrite u64_small by cint. unfold reserve_range. change KMEM_PAGE_SIZE with 4096.
  destruct (align_up_page (base + size)) as [U1 U2]; [lia|lia|]. destruct (align_down_page base) as (D1 & D2 & D3); [cint|].
  set (s := align_down64 base 4096) in *. set (e := align_up64 (base + size) 4096) in *.
  rewrite reserve_loop_full; [by destruct k|lia|done|cbn; lia|]. apply list_elem_of_split in Hr as (l1 & l2 & E). rewrite E in *.
  apply disjoint_app in K2 as (_ & [K5 _] & K6). apply Forall_app. split; [|constructor].
  - eapply list.Forall_impl; [exact K6|]. intros t [Ht _]%Forall_cons_1. left. unfold apart_ranges, outside in *. lia.
  - right. unfold holdsb. by rewrite (proj2 (Z.ltb_lt _ _)), (proj2 (Z.ltb_lt _ _)) by lia.
  - eapply list.Forall_impl; [exact K5|]. intros t Ht. left. unfold apart_ranges, outside in *. lia.
Qed.

(** ** [kmem_init] *)

(** The whole pages a descriptor offers above 1 MiB. *)
Definition conv (desc : efi_memory_descriptor) : option page_range :=
  if negb (ed_type desc =? EFI_CONVENTIONAL_MEMORY) then None
  else
    let start := Z.max (align_up64 (ed_physical_start desc) 4096) KMEM_MIN_ADDRESS in
    let end_ := align_down64 (ed_physical_start desc + ed_number_of_pages desc * 4096) 4096 in
    if start <? end_ then Some (PageRange start ((end_ - start) / 4096)) else None.

Lemma conv_ok desc r : desc_ok desc -> conv desc = Some r -> rng_ok r.
Proof.
  intros (D1 & D2 & D3) H. rewrite pow_2_64 in D3. unfold conv in H. destruct (negb _); [done|].
  destruct (align_up_page (ed_physical_start desc)) as [U1 U2]; [lia|lia|].
  destruct (align_down_page (ed_physical_start desc + ed_number_of_pages desc * 4096)) as (A1 & A2 & A3); [cint|].
  unfold KMEM_MIN_ADDRESS in H. destruct (Z.ltb_spec (Z.max (align_up64 (ed_physical_start desc) 4096) 1048576)
    (align_down64 (ed_physical_start desc + ed_number_of_pages desc * 4096) 4096)); [|done].
  injection H as <-. apply piece_ok; [|done|lia|lia]. destruct (Z.max_spec (align_up64 (ed_physical_start desc) 4096) 1048576) as [[_ ->]|[_ ->]]; done.
Qed.

(** For a page-aligned descriptor these are all its addresses above 1 MiB. *)
Lemma conv_covers desc a : desc_ok desc -> ed_physical_start desc mod 4096 = 0 ->
  (exists r, conv desc = Some r /\ covers r a) <->
  ed_type desc = EFI_CONVENTIONAL_MEMORY /\ 0x100000 <= a /\ in_block a (ed_physical_start desc) (ed_number_of_pages desc * 4096).
Proof.
  intros Hd Hal. pose proof Hd as (D1 & D2 & D3). rewrite pow_2_64 in D3. unfold conv, KMEM_MIN_ADDRESS, in_block.
  rewrite align_up_aligned, align_down_aligned by (cint || cdiv).
  set (x := Z.max (ed_physical_start desc) 1048576). set (y := ed_physical_start desc + ed_number_of_pages desc * 4096).
  assert (Hx : x mod 4096 = 0) by (unfold x; destruct (Z.max_spec (ed_physical_start desc) 1048576) as [[_ ->]|[_ ->]]; done).
  assert (Hy : y mod 4096 = 0) by (unfold y; cdiv).
  destruct (Z.eqb_spec (ed_type desc) EFI_CONVENTIONAL_MEMORY) as [E|E]; cbn [negb].
  - destruct (Z.ltb_spec x y) as [Hlt|Hge].
    + split.
      * intros (r & [= <-] & Hc). unfold covers in Hc. rewrite piece_end in Hc by (done || lia). cbn [pr_start] in Hc. unfold x, y in *. split_and!; [done|lia|lia|lia].
      * intros (_ & H1 & H2). eexists. split; [reflexivity|]. unfold covers. rewrite piece_end by (done || lia). cbn [pr_start]. unfold x, y in *. lia.
    + split; [by intros (r & ? & _)|]. unfold x, y in *. lia.
  - split; [by intros (r & ? & _)|]. by intros [? _].
Qed.

Lemma add_descriptor_conv desc k : desc_ok desc ->
  add_descriptor desc k = match conv desc with Some r => add_free_range (pr_start r) (pr_pages r) k | None => k end.
Proof.
  intros (D1 & D2 & D3). rewrite pow_2_64 in D3. unfold add_descriptor, conv. destruct (negb _); [done|].
  change KMEM_PAGE_SIZE with 4096. rewrite (u64_small (ed_number_of_pages desc * 4096)), u64_small by cint.
  set (x := align_up64 _ _). set (y := align_down64 _ _).
  replace (if x <? KMEM_MIN_ADDRESS then KMEM_MIN_ADDRESS else x) with (Z.max x KMEM_MIN_ADDRESS)
    by (destruct (Z.ltb_spec x KMEM_MIN_ADDRESS); lia).
  by destruct (_ <? y).
Qed.

(** The descriptors of the map, in order. *)
Definition descriptor_count (info : boot_info) : nat :=
  Z.to_nat ((bi_memory_map_size info - SIZEOF_DESCRIPTOR) / bi_memory_map_descriptor_size info + 1).
Definition descriptors (info : boot_info) : list efi_memory_descriptor :=
  (fun i => bi_descriptor info (Z.of_nat i * bi_memory_map_descriptor_size info)) <$> seq 0 (descriptor_count info).

(** A memory map as the firmware hands it over. *)
Record map_ok (info : boot_info) : Prop := {
  mo_info : info_ok info;
  mo_stride : SIZEOF_DESCRIPTOR <= bi_memory_map_descriptor_size info < 4294967296;
  mo_size : 0 < bi_memory_map_size info < 9223372036854775808;
  mo_desc desc : desc ∈ descriptors info -> desc_ok desc /\ ed_physical_start desc mod 4096 = 0;
  mo_disjoint : disjoint_ranges (omap conv (descriptors info));
  mo_room : (length (omap conv (descriptors info)) <= 123)%nat
}.

Lemma scan_map_fold info n i fuel k : map_ok info -> (i + n = descriptor_count info)%nat -> (n <= fuel)%nat ->
  scan_map fuel info (Z.of_nat i * bi_memory_map_descriptor_size info) k =
  foldl (fun k desc => add_descriptor desc k) k
    ((fun i => bi_descriptor info (Z.of_nat i * bi_memory_map_descriptor_size info)) <$> seq i n).
Proof.
  intros [_ Hs Hm _ _ _]. unfold SIZEOF_DESCRIPTOR, descriptor_count in *. set (ds := bi_memory_map_descriptor_size info) in *.
  set (ms := bi_memory_map_size info) in *. assert (Hq : ds * ((ms - 40) / ds) <= ms - 40 < ds * ((ms - 40) / ds) + ds).
  { pose proof (Z.div_mod (ms - 40) ds ltac:(lia)). pose proof (Z.mod_pos_bound (ms - 40) ds ltac:(lia)). lia. }
  unfold SIZEOF_DESCRIPTOR in *. set (q := (ms - 40) / ds) in *. clearbody q.
  revert i fuel k. induction n as [|n IH]; intros i fuel k Hi Hf; destruct fuel as [|fuel]; cbn [scan_map seq fmap list_fmap foldl]; try done; try lia.
  - fold ds ms. unfold SIZEOF_DESCRIPTOR. assert (Z.of_nat i * ds >= ds * q + ds) by nia.
    rewrite u64_small; [by rewrite (proj2 (Z.leb_gt _ _)) by nia|]. unfold is_u64. nia.
  - fold ds ms. unfold SIZEOF_DESCRIPTOR. assert (Z.of_nat i * ds <= ds * q) by nia.
    rewrite (u64_small (Z.of_nat i * ds + 40)) by (unfold is_u64; nia). rewrite (proj2 (Z.leb_le _ _)) by nia.
    rewrite u64_small by (unfold is_u64; nia). replace (Z.of_nat i * ds + ds) with (Z.of_nat (S i) * ds) by lia.
    rewrite IH by lia. done.
Qed.

Lemma add_all_ok descs k : boot_ok k -> (forall desc, desc ∈ descs -> desc_ok desc) ->
  disjoint_ranges (free_ranges k ++ omap conv descs) -> (length (free_ranges k ++ omap conv descs) <= 128)%nat ->
  let k' := foldl (fun k desc => add_descriptor desc k) k descs in
  boot_ok k' /\ free_ranges k' = free_ranges k ++ omap conv descs /\ kmem_memory k' = kmem_memory k.
Proof.
  revert k. induction descs as [|desc descs IH]; intros k Hk Hd Hdis Hl; cbn [foldl].
  { cbn [omap list_omap]. rewrite app_nil_r. done. }
  rewrite add_descriptor_conv by (apply Hd; left). cbn [omap list_omap] in *.
  destruct (conv desc) as [r|] eqn:Ec; [|apply IH; [done|intros; apply Hd; by right|done|done]].
  assert (Hr : rng_ok r) by (apply (conv_ok desc); [apply Hd; left|done]).
  change (r :: omap conv descs) with ([r] ++ omap conv descs) in Hdis, Hl. rewrite app_assoc in Hdis, Hl.
  destruct Hk as [[K1 K2 K3 K4] Ht].
  assert (Hadd : add_free_range (pr_start r) (pr_pages r) k =
    set_ranges k (free_ranges k ++ [r]) (pages_of (free_ranges k ++ [r])) (pages_of (free_ranges k ++ [r]))).
  { unfold add_free_range, KMEM_MAX_RANGES. destruct (Z.eqb_spec (pr_pages r) 0) as [Ez|_]; [destruct Hr; lia|].
    rewrite !length_app in Hl. cbn [length] in Hl. rewrite (proj2 (Nat.leb_gt _ _)) by lia. cbn [orb].
    apply disjoint_app in Hdis as (Hdis & _). assert (Hall : Forall rng_ok (free_ranges k ++ [r])) by (rewrite Forall_app; auto).
    pose proof (pages_bound _ Hall Hdis) as Hpb. rewrite pages_app in *. replace (pages_of [r]) with (pr_pages r) in * by (cbn; lia).
    rewrite Ht, K4, u64_small by cint. by destruct r. }
  rewrite Hadd. destruct (IH (set_ranges k (free_ranges k ++ [r]) (pages_of (free_ranges k ++ [r])) (pages_of (free_ranges k ++ [r])))) as (I1 & I2 & I3);
    cbn [free_ranges set_ranges] in *.
  - split; [|done]. split; cbn [free_ranges free_page_count set_ranges]; [rewrite Forall_app; auto|by apply disjoint_app in Hdis as (? & _)|rewrite length_app in Hl; lia|done].
  - intros; apply Hd; by right.
  - done.
  - done.
  - split_and!; [done|by rewrite I2, <- app_assoc|done].
Qed.

(** The blocks [kmem_init] takes out. *)
Definition reserved (info : boot_info) (extra : boot_extra) (d : dma) (a : Z) : Prop :=
  page_block (bi_kernel_base info) (bi_kernel_size info) a \/
  page_block (bi_memory_map info) (bi_memory_map_size info) a \/
  (bi_rsdp extra <> 0 /\ page_block (bi_rsdp extra) 4096 a) \/
  (bi_framebuffer_base extra <> 0 /\ bi_framebuffer_height extra <> 0 /\ bi_framebuffer_pixels_per_scanline extra <> 0 /\
   page_block (bi_framebuffer_base extra) (bi_framebuffer_height extra * bi_framebuffer_pixels_per_scanline extra * 4) a) \/
  (dma_pool_base_addr d <> 0 /\ dma_pool_size_bytes d <> 0 /\ page_block (dma_pool_base_addr d) (dma_pool_size_bytes d) a).

(** Blocks that lie in the address space. *)
Definition block_ok (base size : Z) : Prop := 0 <= base /\ 0 <= size /\ base + size + 4095 < 18446744073709551616.

Record extra_ok (info : boot_info) (extra : boot_extra) (d : dma) : Prop := {
  eo_kernel : block_ok (bi_kernel_base info) (bi_kernel_size info);
  eo_map : block_ok (bi_memory_map info) (bi_memory_map_size info);
  eo_rsdp : block_ok (bi_rsdp extra) 4096;
  eo_fb : is_u32 (bi_framebuffer_height extra) /\ is_u32 (bi_framebuffer_pixels_per_scanline extra) /\
    block_ok (bi_framebuffer_base extra) (bi_framebuffer_height extra * bi_framebuffer_pixels_per_scanline extra * 4);
  eo_dma : block_ok (dma_pool_base_addr d) (dma_pool_size_bytes d)
}.

(** One step of the boot sequence: a block removed when a condition holds. *)
Definition carved (k k' : kmem) (P : Z -> Prop) : Prop :=
  boot_ok k' /\ (length (free_ranges k') <= S (length (free_ranges k)))%nat /\
  (forall a, free k' a <-> free k a /\ ~ P a) /\ kmem_memory k' = kmem_memory k.

Lemma reserve_if (c : bool) base size k : boot_ok k -> (length (free_ranges k) < 128)%nat -> block_ok base size ->
  carved k (if c then reserve_range base (u64 (base + size)) k else k) (fun a => c = true /\ page_block base size a).
Proof.
  intros Hk Hl (H1 & H2 & H3). destruct c.
  - destruct (reserve_range_ok base size k Hk Hl H1 H2 H3) as (R1 & R2 & R3 & R4). split_and!; [done|done| |done].
    intros a. rewrite R3. intuition.
  - split_and!; [done|lia| |done]. intros a. split; [intros H; split; [done|intros [? _]; done]|by intros [? _]].
Qed.

Lemma negb_eqb_true x y : negb (x =? y) = true <-> x <> y.
Proof. rewrite negb_true_iff. apply Z.eqb_neq. Qed.

Lemma scan_map_all info k : map_ok info ->
  scan_map (Z.to_nat (bi_memory_map_size info / SIZEOF_DESCRIPTOR + 1)) info 0 k =
  foldl (fun k desc => add_descriptor desc k) k (descriptors info).
Proof.
  intros Hm. pose proof Hm as [_ M2 M3 _ _ _]. unfold descriptors, SIZEOF_DESCRIPTOR in *.
  rewrite <- (scan_map_fold info (descriptor_count info) 0 (Z.to_nat (bi_memory_map_size info / 40 + 1)) k); [done|done|done|].
  unfold descriptor_count, SIZEOF_DESCRIPTOR. apply Z2Nat.inj_le; [|apply Z.add_nonneg_nonneg; [apply Z.div_pos; lia|lia]|].
  - pose proof (Z.div_le_lower_bound (bi_memory_map_size info - 40) (bi_memory_map_descriptor_size info) (-1) ltac:(lia) ltac:(lia)). lia.
  - apply Z.add_le_mono_r. destruct (decide (bi_memory_map_size info < 40)).
    + assert ((bi_memory_map_size info - 40) / bi_memory_map_descriptor_size info < 0) by (apply Z.div_lt_upper_bound; lia).
      pose proof (Z.div_pos (bi_memory_map_size info) 40 ltac:(lia) ltac:(lia)). lia.
    + etrans; [apply (Z.div_le_compat_l _ 40); lia|]. apply Z.div_le_mono; lia.
Qed.

Lemma framebuffer_size h p : is_u32 h -> is_u32 p -> 0 <= h * p * 4 < 18446744073709551616 -> u64 (u64 (h * p) * 4) = h * p * 4.
Proof. intros Hh Hp Hb. rewrite (u64_small (h * p)) by (unfold is_u64; lia). by rewrite u64_small by (unfold is_u64; lia). Qed.

(** After boot the free pages are the conventional memory above 1 MiB
    without the reserved blocks. *)
Lemma kmem_init_ok info extra d k : map_ok info -> bi_memory_map info <> 0 -> extra_ok info extra d ->
  let k' := kmem_init (Some (info, extra)) d k in
  kmem_ok k' /\ spaced (free_ranges k') /\ total_page_count k' = kmem_free_pages k' /\ kmem_memory k' = kmem_memory k /\
  (forall a, free k' a <->
    (exists desc, desc ∈ descriptors info /\ ed_type desc = EFI_CONVENTIONAL_MEMORY /\ 0x100000 <= a /\
      in_block a (ed_physical_start desc) (ed_number_of_pages desc * 4096)) /\ ~ reserved info extra d a).
Proof.
  intros Hm Hmz [X1 X2 X3 (X4 & X5 & X6) X7]. pose proof Hm as [M1 M2 M3 M4 M5 M6]. unfold kmem_init.
  unfold SIZEOF_DESCRIPTOR in M2. rewrite (proj2 (Z.eqb_neq _ _)), (proj2 (Z.eqb_neq _ _)), (proj2 (Z.ltb_ge _ _)) by (unfold SIZEOF_DESCRIPTOR; lia).
  cbn [orb]. set (k0 := Kmem [] 0 0 0 _ _ _).
  assert (Hk0 : boot_ok k0) by (split; [split; cbn; [constructor|done|lia|done]|done]).
  rewrite scan_map_all by done. destruct (add_all_ok (descriptors info) k0) as (A1 & A2 & A3);
    [done|intros; by apply M4|done|cbn [free_ranges k0 app]; lia|]. cbn [free_ranges k0 app] in A2. cbv zeta.
  set (k1 := foldl _ k0 _) in *. assert (L1 : (length (free_ranges k1) <= 123)%nat) by by rewrite A2.
  destruct (reserve_if true _ _ k1 A1 ltac:(lia) X1) as (B1 & B2 & B3 & B4). set (k2 := reserve_range _ _ k1) in *.
  destruct (reserve_if true _ _ k2 B1 ltac:(lia) X2) as (C1 & C2 & C3 & C4). set (k3 := reserve_range _ _ k2) in *.
  destruct (reserve_if (negb (bi_rsdp extra =? 0)) _ _ k3 C1 ltac:(lia) X3) as (D1 & D2 & D3 & D4).
  change KMEM_PAGE_SIZE with 4096. set (k4 := if negb (bi_rsdp extra =? 0) then _ else k3) in *.
  rewrite framebuffer_size by (try done; destruct X6; lia).
  destruct (reserve_if (negb (bi_framebuffer_base extra =? 0) && negb (bi_framebuffer_height extra =? 0) &&
    negb (bi_framebuffer_pixels_per_scanline extra =? 0)) _ _ k4 D1 ltac:(lia) X6) as (E1 & E2 & E3 & E4).
  set (k5 := if _ && _ && _ then _ else k4) in *.
  destruct (reserve_if (negb (dma_pool_base d =? 0) && negb (dma_pool_size d =? 0)) _ _ k5 E1 ltac:(lia) X7) as (F1 & F2 & F3 & F4).
  unfold dma_pool_base, dma_pool_size in *. set (k6 := if _ && _ then _ else k5) in *.
  destruct F1 as [[K1 K2 K3 K4] Ht]. destruct (coalesce_ranges_ok _ K1) as (G1 & G2 & G3 & G4 & G5).
  unfold kmem_free_pages, free. cbn [free_ranges total_page_count free_page_count kmem_memory set_ranges].
  split_and!; [|done|done|..].
  - split; cbn [free_ranges free_page_count set_ranges]; [done|by apply spaced_disjoint|lia|]. by rewrite G5.
  - by rewrite F4, E4, D4, C4, B4, A3.
  - intros a. rewrite G3. change (free_at (free_ranges k6) a) with (free k6 a).
    rewrite F3, E3, D3, C3, B3, !andb_true_iff, !negb_eqb_true. unfold free at 1. rewrite A2.
    assert (Hc : free_at (omap conv (descriptors info)) a <-> (exists desc, desc ∈ descriptors info /\
      ed_type desc = EFI_CONVENTIONAL_MEMORY /\ 0x100000 <= a /\ in_block a (ed_physical_start desc) (ed_number_of_pages desc * 4096))).
    { unfold free_at. rewrite list.Exists_exists. split.
      - intros (r & (desc & Hd & Hr)%list_elem_of_omap & Ha). exists desc. split; [done|]. destruct (M4 desc Hd) as [Hd1 Hd2].
        apply conv_covers; [done|done|eauto].
      - intros (desc & Hd & Hc). destruct (M4 desc Hd) as [Hd1 Hd2]. apply conv_covers in Hc as (r & Hr & Ha); [|done|done].
        exists r. split; [|done]. apply list_elem_of_omap. eauto. }
    rewrite Hc. unfold reserved. tauto.
Qed.
