(* ===== verification/KernelTheorems.v ===== *)
(** The theorems about the storage layer, the registry, the DMA pool and the
    page allocator. *)
From Stdlib Require Import ZArith Lia.
From stdpp Require Import base tactics option list numbers gmap relations.
From S2P Require Import Prelude.
From S2P Require Import StorageApi.
From S2P Require Import Storage.
From S2P Require Import StorageSpec.
From S2P Require Import LainfsCache.
From S2P Require Import LainfsDemo.
From S2P Require Import Registry.
From S2P Require Import Dma.
From S2P Require Import Kmem.
From S2P Require Import KmemSpec.
From S2P Require Import KmemBoot.
#[local] Open Scope Z_scope.

Lemma bytes_replicate n v : is_u8 v -> bytes (replicate n v).
Proof. intros Hv. by apply Forall_replicate. Qed.

(** ** Storage *)

(** C13: a write inside a partition goes through, is read back from there,
    changes no other block of the partition and no block of a partition that
    does not overlap it, on any driver that keeps its laws. *)
Theorem partition_io {E} `{!ExtDrivers E, !ExtLaws E} (st : storage E) p part lba n bs :
  media_ok st -> part_live st p -> storage_get_partition st p = Some part ->
  0 <= lba -> 0 <= n -> lba + n <= pt_block_count part -> length bs = (512 * Z.to_nat n)%nat -> bytes bs ->
  exists st', storage_write_partition p lba n bs st = (inr tt, st') /\ media_ok st' /\
    storage_read_partition st' p lba n = Some bs /\
    (forall l, 0 <= l < pt_block_count part -> ~ lba <= l < lba + n -> part_sector st' p l = part_sector st p l) /\
    (forall q partq l, part_live st q -> storage_get_partition st q = Some partq ->
       part_disjoint st p q -> 0 <= l < pt_block_count partq -> part_sector st' q l = part_sector st q l).
Proof.
  intros Hm Hl Hg Hlba Hn Hend Hlen Hb.
  destruct (part_write_spec st p part lba n bs) as (st' & Hw & Hm' & Hl' & _ & Hs & Ho); [done..|].
  assert (Hg' : storage_get_partition st' p = Some part).
  { apply write_partition_tables in Hw. rewrite (proj1 (tables_partition _ _ Hw)). done. }
  exists st'. split_and!; [done|done| | |done].
  - rewrite (part_read_spec st' p part lba n) by (try done; by apply Hl'). f_equal. rewrite <- (concat_blocks lba n bs) by done. f_equal.
    apply list_fmap_ext. intros i l Hl0. apply list_elem_of_lookup_2, elem_of_seqZ in Hl0. rewrite Hs by lia. by rewrite decide_True by lia.
  - intros l Hr Hout. rewrite Hs by done. by rewrite decide_False.
Qed.

Lemma partition_io_witness : exists st', storage_write_partition 0 260 1 (replicate 512 9) (demo_storage 300) = (inr tt, st') /\
  storage_read_partition st' 0 260 1 = Some (replicate 512 9).
Proof.
  destruct (partition_io (demo_storage 300) 0 (demo_partition 2048 300) 260 1 (replicate 512 9)) as (st' & H1 & _ & H2 & _);
    [apply demo_media|apply demo_live; [lia|by left]|reflexivity|lia|lia|cbn; lia|apply length_replicate|by apply bytes_replicate|].
  exists st'. split; [exact H1|exact H2].
Defined.

(** C14: whatever bytes the MBR and the GPT hold, after a scan every partition
    of the table is present, not empty and inside its device, every mount
    that is left points at the partition it names, and the devices and their
    contents are untouched. *)
Theorem discovery_in_bounds {E} `{!ExtDrivers E} (st : storage E) :
  length (partitions st) = STORAGE_MAX_PARTITIONS -> driver_bytes st -> 0 <= block_device_count st ->
  let st' := storage_discover_partitions st in
  scan_inv st' /\ Forall (mount_fresh st') (mounts st') /\
  block_devices st' = block_devices st /\ block_device_count st' = block_device_count st /\ ramdisk st' = ramdisk st /\ ext st' = ext st.
Proof. apply discover_ok. Qed.

(** The machine after power-on, before the scan: one ramdisk with its MBR. *)
Definition fresh_storage : storage unit :=
  Storage [BlockDevice true (replicate 8 0) 512 RAMDISK_BLOCKS (Some drv_ramdisk) (Some drv_ramdisk) 0]
    (replicate STORAGE_MAX_PARTITIONS zero_partition) (replicate STORAGE_MAX_MOUNTS zero_mount) 1 0 (Ramdisk create_demo_mbr ∅) tt.

Lemma fresh_bytes : driver_bytes fresh_storage.
Proof.
  intros dev lba n bs H. unfold dev_read in H. destruct (bd_read dev) as [[|id]|]; [|done|done].
  unfold ramdisk_read in H. destruct (_ =? 0); [by injection H as <-|]. destruct (_ <? _); [done|]. injection H as <-.
  apply Forall_concat, Forall_elem. intros l (i & -> & _)%list_elem_of_fmap.
  apply ramdisk_sector_ok. split; [|apply map_Forall_empty]. split; [reflexivity|]. 
  unfold create_demo_mbr. cbn. repeat (constructor; [by split|]). constructor.
Qed.

Lemma discovery_in_bounds_witness : scan_inv (storage_discover_partitions fresh_storage).
Proof.
  destruct (discovery_in_bounds fresh_storage) as [H _]; [reflexivity|apply fresh_bytes|cbn; lia|exact H].
Defined.

(** ** Registry *)

(** C15: the registry is a map from names to values. Setting a key is refused
    with the code of the first test that fails and nothing changes, or the
    key afterwards has that value, every other key the value it had, and the
    save hook runs unless suspended; and enumerating by index gives key and
    value of every binding and nothing else. *)
Theorem registry_is_a_map r key value : reg_inv r ->
  set_outcome r key value (registry_set key value r) /\
  (forall k, cstr <$> registry_get (snd (registry_set key value r)) k =
    if decide (fst (fst (registry_set key value r)) = REGISTRY_OK /\ cstr k = cstr key) then Some (cstr value) else cstr <$> registry_get r k) /\
  (forall i, 0 <= i < registry_count r -> exists k v, registry_key_at r i = Some k /\ registry_value_at r i = Some v /\
     reg_map r (cstr k) = Some (cstr v)) /\
  (forall k v, reg_map r k = Some v -> exists i k', 0 <= i < registry_count r /\ registry_key_at r i = Some k' /\ cstr k' = k).
Proof.
  intros Hr. pose proof (registry_set_ok r key value Hr) as Ho. split; [exact Ho|].
  split; [|split; [intros i Hi; by apply enumerate_sound|intros k v; by apply enumerate_complete]]. intros k. rewrite !registry_get_map.
  destruct (registry_set key value r) as [[c saved] r']. cbn [fst snd]. unfold set_outcome in Ho.
  destruct Ho as [(-> & _ & _ & _ & _ & _ & H)|[(-> & _ & _ & ->)|[(-> & _ & _ & ->)|(-> & _ & _ & _ & ->)]]].
  - rewrite H. destruct (decide (cstr k = cstr key)); [by rewrite decide_True|]. rewrite decide_False by tauto. done.
  - rewrite decide_False; [done|]. intros [? _]. done.
  - rewrite decide_False; [done|]. intros [? _]. done.
  - rewrite decide_False; [done|]. intros [? _]. done.
Qed.

Lemma registry_is_a_map_witness : cstr <$> registry_get (snd (registry_set [97; 0] [98; 0] zero_registry)) [97; 0] = Some [98].
Proof.
  destruct (registry_is_a_map zero_registry [97; 0] [98; 0]) as (_ & H & _); [apply zero_registry_inv|].
  etransitivity; [apply (H [97; 0])|vm_compute; reflexivity].
Defined.

(** Numbers in the registry are read as written, in decimal and in
    hexadecimal, modulo 2^32. *)
Lemma registry_numbers ds hs : ds <> [] -> Forall (fun d => 0 <= d <= 9) ds -> hs <> [] -> Forall (fun d => 0 <= d < 16) hs ->
  registry_parse_u32 ((fun d => 48 + d) <$> ds) = Some (u32 (number 10 ds)) /\
  registry_parse_u32 (48 :: 120 :: (hex_char <$> hs)) = Some (u32 (number 16 hs)).
Proof. intros H1 H2 H3 H4. split; [by apply parse_decimal|by apply parse_hex]. Qed.

(** ** DMA pool *)

(** The blocks of any run of allocations lie in the pool, one behind the
    other; each is zeroed and, for an alignment that is a power of two up to
    a page, aligned. *)
Theorem dma_blocks_apart reqs d : dma_ok d -> Forall (fun q => is_u32 (fst q) /\ is_u32 (snd q)) reqs ->
  (let '(rs, d') := dma_alloc_all reqs d in
   dma_ok d' /\ dma_pool_base_addr d' = dma_pool_base_addr d /\ dma_pool_offset d <= dma_pool_offset d' /\
   (forall i q a, reqs !! i = Some q -> rs !! i = Some (Some a) ->
      dma_pool_base_addr d + dma_pool_offset d <= a /\ a + fst q <= dma_pool_base_addr d + dma_pool_offset d') /\
   (forall i j qi qj a b, (i < j)%nat -> reqs !! i = Some qi -> reqs !! j = Some qj ->
      rs !! i = Some (Some a) -> rs !! j = Some (Some b) -> a + fst qi <= b)) /\
  (forall q, q ∈ reqs -> alloc_outcome (fst q) (snd q) d (dma_alloc (fst q) (snd q) d)).
Proof.
  intros Hd Hq. split; [by apply dma_alloc_all_ok|]. intros q Hin. rewrite Forall_elem in Hq. destruct (Hq q Hin). by apply dma_alloc_ok.
Qed.

Definition demo_dma : dma := Dma 0x2000000 DMA_POOL_SIZE 0 (fun _ => 7).

Lemma demo_dma_ok : dma_ok demo_dma.
Proof. right. unfold DMA_POOL_SIZE, DMA_POOL_LIMIT. cbn. split_and!; (done || lia). Qed.

Lemma dma_blocks_apart_witness : fst (dma_alloc_all [(100, 16); (4096, 4096)] demo_dma) = [Some 0x2000000; Some 0x2001000] /\
  dma_ok (snd (dma_alloc_all [(100, 16); (4096, 4096)] demo_dma)).
Proof.
  split; [vm_compute; reflexivity|].
  destruct (dma_blocks_apart [(100, 16); (4096, 4096)] demo_dma) as [H _];
    [apply demo_dma_ok|repeat apply Forall_cons_2; try apply Forall_nil_2; split; by split|].
  destruct (dma_alloc_all [(100, 16); (4096, 4096)] demo_dma) as [rs d']. apply H.
Defined.

(** At boot the pool, if there is one, is four megabytes of one
    conventional descriptor between 16 MiB and 4 GiB, page aligned and clear
    of the kernel and of the memory map; and there is one when a descriptor of
    the map can offer it. *)
Theorem dma_pool_good info d : info_ok info -> (forall o, desc_ok (bi_descriptor info o)) ->
  bi_memory_map info <> 0 -> SIZEOF_DESCRIPTOR <= bi_memory_map_descriptor_size info < 2 ^ 32 -> bi_memory_map_size info < 2 ^ 63 ->
  let d' := dma_init (Some info) d in
  dma_ok d' /\ dma_memory d' = dma_memory d /\
  (dma_pool_base d' = 0 \/
   (dma_pool_offset d' = 0 /\ dma_pool_size d' = DMA_POOL_SIZE /\ exists o, good_pool info (bi_descriptor info o) (dma_pool_base d'))) /\
  (forall n, Z.of_nat n * bi_memory_map_descriptor_size info + SIZEOF_DESCRIPTOR <= bi_memory_map_size info ->
     pool_of info (bi_descriptor info (Z.of_nat n * bi_memory_map_descriptor_size info)) <> None -> dma_pool_base d' <> 0).
Proof.
  intros Hi Hd Hm Hs Hsz d'. destruct (dma_init_ok info d Hi Hd) as (H1 & H2 & H3). split_and!; [exact H1|exact H2|exact H3|].
  intros n Hn Hp. by apply (dma_init_finds info d n).
Qed.

(** One descriptor: 64 MiB of conventional memory at 32 MiB, the kernel at
    2 MiB. *)
Definition demo_info : boot_info :=
  BootInfo 0x300000 40 40 0x200000 0x80000 (fun _ => EfiMemoryDescriptor 7 0x2000000 16384).

Lemma demo_info_ok : info_ok demo_info /\ (forall o, desc_ok (bi_descriptor demo_info o)).
Proof. unfold info_ok, desc_ok. rewrite pow_2_64. cbn. split; [|intros _]; split_and!; lia. Qed.

Lemma dma_pool_good_witness : dma_pool_base (dma_init (Some demo_info) demo_dma) = 0x2000000 /\ dma_ok (dma_init (Some demo_info) demo_dma).
Proof.
  split; [vm_compute; reflexivity|]. destruct (dma_pool_good demo_info demo_dma) as [H _];
    [apply demo_info_ok|apply demo_info_ok|done|by split|reflexivity|exact H].
Defined.

(** ** Pages *)

(** C16: after boot the free pages are exactly the conventional memory of the
    map above 1 MiB without the kernel, the map, the RSDP page, the
    framebuffer and the DMA pool, kept as ordered ranges with gaps between
    them, and counted right. This holds for memory maps whose descriptors
    start on pages and lie in the address space, and whose conventional
    ranges above 1 MiB are disjoint and at most 123 ([map_ok]), and for
    reserved blocks that lie in the address space ([extra_ok]): each of the
    five blocks may split a range, and when the table of 128 ranges is full
    [reserve_range] gives up and leaves the block free
    ([reserve_full_is_ignored]). *)
Theorem kmem_init_free_set info extra d k : map_ok info -> bi_memory_map info <> 0 -> extra_ok info extra d ->
  let k' := kmem_init (Some (info, extra)) d k in
  kmem_ok k' /\ spaced (free_ranges k') /\ total_page_count k' = kmem_free_pages k' /\ kmem_memory k' = kmem_memory k /\
  (forall a, free k' a <->
    (exists desc, desc ∈ descriptors info /\ ed_type desc = EFI_CONVENTIONAL_MEMORY /\ 0x100000 <= a /\
      in_block a (ed_physical_start desc) (ed_number_of_pages desc * 4096)) /\ ~ reserved info extra d a).
Proof. apply kmem_init_ok. Qed.

Definition demo_extra : boot_extra := BootExtra 0x400000 0x80000000 768 1024.
Definition no_kmem : kmem := Kmem [] 0 0 0 zero_heap [] (fun _ => 1).

Lemma demo_map_ok : map_ok demo_info.
Proof.
  assert (Hc : omap conv (descriptors demo_info) = [PageRange 0x2000000 16384]) by (vm_compute; reflexivity).
  split; [apply demo_info_ok|by split|by split| |rewrite Hc; split; [apply Forall_nil_2|done]|rewrite Hc; cbn [length]; lia].
  intros desc (i & -> & _)%list_elem_of_fmap. split; [apply (proj2 demo_info_ok 0)|reflexivity].
Qed.

Lemma demo_extra_ok : extra_ok demo_info demo_extra demo_dma.
Proof. split; unfold block_ok, is_u32; cbn; unfold DMA_POOL_SIZE; split_and!; lia. Qed.

Lemma kmem_init_free_set_witness : let k := kmem_init (Some (demo_info, demo_extra)) demo_dma no_kmem in
  kmem_ok k /\ free_ranges k = [PageRange 0x2400000 15360].
Proof.
  split; [|vm_compute; reflexivity].
  destruct (kmem_init_free_set demo_info demo_extra demo_dma no_kmem) as [H _]; [apply demo_map_ok|done|apply demo_extra_ok|exact H].
Defined.

(** Three ranges of four pages. *)
Definition demo_kmem : kmem :=
  Kmem [PageRange 0x200000 4; PageRange 0x300000 4; PageRange 0x400000 4] 12 12 0 zero_heap [] (fun _ => 1).

Lemma ranges_good l : forallb (fun r => (0 <? pr_start r) && (pr_start r mod 4096 =? 0) && (0 <? pr_pages r) && (r_end r <? 18446744073709551616)) l = true ->
  Forall rng_ok l.
Proof.
  intros H. apply Forall_elem. intros r Hr. rewrite forallb_forall in H. apply list_elem_of_In in Hr. specialize (H r Hr).
  bool_prop. by split.
Qed.

Lemma demo_kmem_ok : kmem_ok demo_kmem.
Proof.
  split; [by apply ranges_good| |cbn; lia|reflexivity].
  unfold demo_kmem. cbn [free_ranges disjoint_ranges].
  split_and!; try done; repeat apply Forall_cons_2; try apply Forall_nil_2; unfold apart_ranges, r_end; cbn; lia.
Qed.

(** C17: However clients interleave requests and returns, the blocks in use
    never overlap each other or the free pages, and all memory handed out was
    free at the start. *)
Theorem page_clients_safe k0 k owned : kmem_ok k0 -> rtc page_step (k0, []) (k, owned) -> pages_inv k0 (k, owned).
Proof. intros Hk Hr. eapply page_run_inv; [by apply start_inv|exact Hr]. Qed.

Lemma page_clients_safe_witness :
  pages_inv demo_kmem (snd (page_alloc 2 demo_kmem), [PageRange 0x200000 2]).
Proof.
  apply (page_clients_safe demo_kmem); [apply demo_kmem_ok|]. apply rtc_once.
  apply (step_alloc 2 demo_kmem [] 0x200000); [by split|reflexivity|discriminate].
Defined.

(** A request for pages fails only when no range is long enough, and
    then only the failure counter moves; else it returns an aligned block of
    free pages, zeroed, takes exactly that block out of the free set and out
    of the count, and touches no other memory; and returning the block
    restores the free set and the count, as long as the table of ranges is
    not full. *)
Theorem page_alloc_exact n k : kmem_ok k -> is_u32 n ->
  alloc_pages_outcome n k (page_alloc n k) /\
  (forall addr k', page_alloc n k = (addr, k') -> addr <> 0 -> (length (free_ranges k') < 128)%nat ->
     kmem_ok (page_free addr n k') /\ (forall a, free (page_free addr n k') a <-> free k a) /\
     kmem_free_pages (page_free addr n k') = kmem_free_pages k).
Proof.
  intros Hk Hn. pose proof (page_alloc_ok n k Hk Hn) as Ho. split; [exact Ho|]. intros addr k' E Ha Hl. rewrite E in Ho. destruct Ho as [Hk' Ho].
  rewrite decide_False in Ho by done. destruct Ho as (O1 & O2 & O3 & O4 & O5 & O6 & _).
  assert (Hn0 : 0 < n). { destruct (decide (n = 0)) as [->|]; [|unfold is_u32 in *; lia]. by inversion E. }
  destruct (page_free_ok addr n k') as (F1 & _ & F3 & F4 & _); [done|split; unfold r_end; cbn [pr_start pr_pages]; (done || lia)|done| |].
  { intros a Hi Hf. by apply O5 in Hf as [_ ?]. }
  split_and!; [done| |lia]. intros a. rewrite F3, O5. split; [intros [[? _]|Hi]; auto|]. intros Hf.
  destruct (decide (in_block a addr (n * 4096))) as [|]; auto.
Qed.

Lemma page_alloc_exact_witness : fst (page_alloc 3 demo_kmem) = 0x200000 /\ alloc_pages_outcome 3 demo_kmem (page_alloc 3 demo_kmem) /\
  kmem_free_pages (page_free 0x200000 3 (snd (page_alloc 3 demo_kmem))) = 12.
Proof.
  split; [reflexivity|]. destruct (page_alloc_exact 3 demo_kmem) as [H1 H2]; [apply demo_kmem_ok|by split|].
  split; [exact H1|]. apply (H2 0x200000 (snd (page_alloc 3 demo_kmem))); [reflexivity|discriminate|vm_compute; lia].
Defined.

(** When the table of ranges is full, reserving a block in the middle of
    a free range has no effect: its pages stay free to be handed out. *)
Theorem reserve_full_is_ignored base size r k a : kmem_ok k -> length (free_ranges k) = 128%nat -> r ∈ free_ranges k ->
  0 <= base -> 0 <= size -> base + size + 4095 < 18446744073709551616 ->
  pr_start r < align_down64 base 4096 -> align_up64 (base + size) 4096 < r_end r -> page_block base size a ->
  reserve_range base (u64 (base + size)) k = k /\ free (reserve_range base (u64 (base + size)) k) a.
Proof.
  intros Hk Hl Hr Hb Hs He H1 H2 Ha. rewrite (reserve_range_full base size r k) by done. split; [done|].
  unfold free, free_at. apply list.Exists_exists. exists r. split; [done|]. unfold page_block, covers in *. lia.
Qed.

(** A full table: 128 ranges of four pages. *)
Definition full_kmem : kmem :=
  Kmem ((fun i => PageRange (0x200000 + Z.of_nat i * 0x10000) 4) <$> seq 0 128) 512 512 0 zero_heap [] (fun _ => 0).

Lemma full_kmem_ok : kmem_ok full_kmem.
Proof.
  split; [by apply ranges_good| |vm_compute; lia|reflexivity].
  unfold full_kmem. cbn [free_ranges]. generalize 128%nat as n. generalize 0%nat as i. intros i n. revert i.
  induction n as [|n IH]; intros i; cbn [seq fmap list_fmap disjoint_ranges]; [done|]. split; [|apply IH].
  apply Forall_elem. intros r (j & -> & Hj)%list_elem_of_fmap. apply elem_of_seq in Hj. left. unfold r_end. cbn [pr_start pr_pages]. lia.
Qed.

Lemma reserve_full_is_ignored_witness : reserve_range 0x201000 (u64 (0x201000 + 0x1000)) full_kmem = full_kmem.
Proof.
  apply (reserve_full_is_ignored 0x201000 0x1000 (PageRange 0x200000 4) full_kmem 0x201000);
    [apply full_kmem_ok|reflexivity|left|lia|lia|lia|vm_compute; reflexivity|vm_compute; reflexivity|].
  vm_compute. split; congruence.
Defined.
