(* ===== verification/Memory.v ===== *)
(** Byte memory: what the heap and the C library share.

    A memory maps addresses to bytes. Integers are stored little-endian; a
    C object of [n] bytes at address [a] is the block [a, a + n). Two lemmas
    carry most proofs: a load sees the last store to its block, and nothing
    else; and disjoint blocks do not hold more bytes than there are. *)
From Stdlib Require Import ZArith Lia.
From stdpp Require Import base tactics option list numbers.
From S2P Require Import Prelude.
#[local] Open Scope Z_scope.

Definition mem : Type := Z -> Z.

(** The integer of [n] bytes at [a]. *)
Fixpoint load (n : nat) (m : mem) (a : Z) : Z :=
  match n with
  | O => 0
  | S n' => m a + 256 * load n' m (a + 1)
  end.

(** [*(intN_t * )a = v]. *)
Definition store (n : nat) (m : mem) (a v : Z) : mem :=
  fun x => if (a <=? x) && (x <? a + Z.of_nat n) then (v / 256 ^ (x - a)) mod 256 else m x.

(** [n] bytes of value [v]. *)
Definition fill (m : mem) (a n v : Z) : mem :=
  fun x => if (a <=? x) && (x <? a + n) then v else m x.

(** The bytes of a block. *)
Fixpoint mem_list (n : nat) (m : mem) (a : Z) : list Z :=
  match n with
  | O => []
  | S n' => m a :: mem_list n' m (a + 1)
  end.

(** [m] and [m'] agree on the block of [n] bytes at [a]. *)
Definition same_on (a n : Z) (m m' : mem) : Prop := forall x, a <= x < a + n -> m' x = m x.

(** [m'] differs from [m] at most inside the block. *)
Definition same_off (a n : Z) (m m' : mem) : Prop := forall x, ~ (a <= x < a + n) -> m' x = m x.

Lemma load_ext n m m' a : same_on a (Z.of_nat n) m m' -> load n m' a = load n m a.
Proof.
  revert a. induction n as [|n IH]; intros a Hs; [done|]. cbn [load]. rewrite (Hs a) by lia.
  rewrite (IH (a + 1)); [done|]. intros x Hx. apply Hs. lia.
Qed.

Lemma mem_list_ext n m m' a : same_on a (Z.of_nat n) m m' -> mem_list n m' a = mem_list n m a.
Proof.
  revert a. induction n as [|n IH]; intros a Hs; [done|]. cbn [mem_list]. rewrite (Hs a) by lia.
  rewrite (IH (a + 1)); [done|]. intros x Hx. apply Hs. lia.
Qed.

Lemma length_mem_list n m a : length (mem_list n m a) = n.
Proof. revert a. induction n; intros; cbn; auto. Qed.

Lemma lookup_mem_list n m a i : (i < n)%nat -> mem_list n m a !! i = Some (m (a + Z.of_nat i)).
Proof.
  revert a i. induction n as [|n IH]; intros a i Hi; [lia|]. destruct i as [|i]; cbn [mem_list lookup list_lookup].
  - by rewrite Z.add_0_r.
  - rewrite IH by lia. do 2 f_equal. lia.
Qed.

Lemma mem_list_app n j m a : mem_list (n + j) m a = mem_list n m a ++ mem_list j m (a + Z.of_nat n).
Proof.
  revert a. induction n as [|n IH]; intros a; cbn [Nat.add mem_list app]; [by rewrite Z.add_0_r|].
  rewrite IH. do 3 f_equal. lia.
Qed.

Lemma mem_list_fill n m a v : mem_list n (fill m a (Z.of_nat n) v) a = replicate n v.
Proof.
  apply list_eq_same_length with n; [by rewrite length_replicate|by rewrite length_mem_list|].
  intros i x y Hi. rewrite lookup_mem_list, lookup_replicate_2 by done. unfold fill.
  rewrite (proj2 (Z.leb_le _ _)), (proj2 (Z.ltb_lt _ _)) by lia. cbn. congruence.
Qed.

Lemma store_off n m a v : same_off a (Z.of_nat n) m (store n m a v).
Proof. intros x Hx. unfold store. destruct (Z.leb_spec a x), (Z.ltb_spec x (a + Z.of_nat n)); cbn; (done || lia). Qed.

Lemma fill_off m a n v : same_off a n m (fill m a n v).
Proof. intros x Hx. unfold fill. destruct (Z.leb_spec a x), (Z.ltb_spec x (a + n)); cbn; (done || lia). Qed.

Lemma load_range n m a : (forall x, is_u8 (m x)) -> 0 <= load n m a < 256 ^ Z.of_nat n.
Proof.
  intros Hm. revert a. induction n as [|n IH]; intros a; cbn [load]; [done|].
  specialize (IH (a + 1)). specialize (Hm a). rewrite Nat2Z.inj_succ, Z.pow_succ_r by lia. cint.
Qed.

(** A load of what was stored. *)
Lemma load_store_same n m a v : 0 <= v < 256 ^ Z.of_nat n -> load n (store n m a v) a = v.
Proof.
  enough (Hgen : forall n m a w j, 0 <= j -> 0 <= w < 256 ^ Z.of_nat n ->
    (forall x, a <= x < a + Z.of_nat n -> m x = (w / 256 ^ (x - a)) mod 256) -> load n m a = w).
  { intros Hv. apply (Hgen n _ a v 0); [lia|done|]. intros x Hx. unfold store.
    by rewrite (proj2 (Z.leb_le _ _)), (proj2 (Z.ltb_lt _ _)) by lia. }
  clear. intros n m. induction n as [|n IH]; intros a w j Hj Hw Hm; cbn [load]; [change (256 ^ Z.of_nat 0) with 1 in Hw; lia|].
  rewrite Nat2Z.inj_succ, Z.pow_succ_r in Hw by lia.
  rewrite (IH (a + 1) (w / 256) 0); [|lia| |].
  - rewrite Hm by lia. rewrite Z.sub_diag, Z.pow_0_r, Z.div_1_r. pose proof (Z.div_mod w 256). lia.
  - split; [apply Z.div_pos; lia|apply Z.div_lt_upper_bound; lia].
  - intros x Hx. rewrite Hm by lia. rewrite Z.div_div by (try apply Z.pow_pos_nonneg; lia).
    replace (x - a) with (1 + (x - (a + 1))) by lia. by rewrite Z.pow_add_r, Z.pow_1_r by lia.
Qed.

(** Loads and lists of a block are not changed by writes elsewhere. *)
Lemma off_on a n b l m m' : same_off b l m m' -> a + n <= b \/ b + l <= a -> same_on a n m m'.
Proof. intros Hs Hd x Hx. apply Hs. lia. Qed.

Lemma same_on_sub a n b l m m' : same_on a n m m' -> a <= b -> b + l <= a + n -> same_on b l m m'.
Proof. intros Hs H1 H2 x Hx. apply Hs. lia. Qed.

Lemma same_off_sub a n b l m m' : same_off b l m m' -> a <= b -> b + l <= a + n -> same_off a n m m'.
Proof. intros Hs H1 H2 x Hx. apply Hs. lia. Qed.

Lemma same_off_trans a n m1 m2 m3 : same_off a n m1 m2 -> same_off a n m2 m3 -> same_off a n m1 m3.
Proof. intros H1 H2 x Hx. rewrite H2, H1; done. Qed.

Lemma same_off_refl a n m : same_off a n m m.
Proof. by intros x Hx. Qed.

Lemma load_store_other n m a v j b : a + Z.of_nat n <= b \/ b + Z.of_nat j <= a -> load j (store n m a v) b = load j m b.
Proof. intros Hd. apply load_ext, (off_on _ _ a (Z.of_nat n)); [apply store_off|lia]. Qed.

Lemma load_fill_other m a n v j b : a + n <= b \/ b + Z.of_nat j <= a -> load j (fill m a n v) b = load j m b.
Proof. intros Hd. apply load_ext, (off_on _ _ a n); [apply fill_off|lia]. Qed.

(** Read back through a sequence of writes. *)
Ltac mload :=
  repeat first [rewrite load_store_same by (cbn; lia) | rewrite load_store_other by lia | rewrite load_fill_other by lia].

(** ** Families of things that are pairwise apart *)

Section pairwise.
Context {A : Type} (R : A -> A -> Prop).

Fixpoint pairwise (l : list A) : Prop :=
  match l with
  | [] => True
  | x :: l' => Forall (R x) l' /\ pairwise l'
  end.

Lemma pairwise_app l k : pairwise (l ++ k) <-> pairwise l /\ pairwise k /\ Forall (fun x => Forall (R x) k) l.
Proof.
  induction l as [|x l IH]; cbn [pairwise app].
  - split; [intros; split; [done|split; [done|constructor]]|tauto].
  - rewrite IH, Forall_app. split.
    + intros [[H1 H2] (H3 & H4 & H5)]. split; [done|split; [done|by constructor]].
    + intros ([H1 H3] & H4 & H5). apply Forall_cons_1 in H5 as [H2 H5]. done.
Qed.

Context (R_sym : forall x y, R x y -> R y x).

Lemma pairwise_perm l k : l ≡ₚ k -> pairwise l -> pairwise k.
Proof using R_sym.
  induction 1 as [|x l k Hp IH|x y l|l1 l2 l3 _ IH1 _ IH2]; cbn [pairwise]; auto.
  - intros [H1 H2]. split; [by rewrite <- Hp|auto].
  - intros [[H1 H2]%Forall_cons_1 [H3 H4]]. split; [constructor; auto|done].
Qed.
End pairwise.

(** A block: its address and its length. *)
Definition blk : Type := Z * Z.
Definition in_blk (b : blk) (x : Z) : Prop := fst b <= x < fst b + snd b.
Definition apart (b c : blk) : Prop := fst b + snd b <= fst c \/ fst c + snd c <= fst b.

Lemma apart_sym b c : apart b c -> apart c b.
Proof. unfold apart. tauto. Qed.
#[export] Hint Resolve apart_sym : cint.

#[export] Instance pairwise_apart_proper : Proper (Permutation ==> iff) (pairwise apart).
Proof. intros l k Hlk. split; apply pairwise_perm; auto using apart_sym; by symmetry. Qed.

Definition total_len (l : list blk) : Z := foldr (fun b n => snd b + n) 0 l.

Lemma total_len_app l k : total_len (l ++ k) = total_len l + total_len k.
Proof. unfold total_len. induction l as [|b l IH]; cbn [app foldr]; lia. Qed.

Lemma total_len_perm l k : l ≡ₚ k -> total_len l = total_len k.
Proof. unfold total_len. induction 1; cbn [foldr]; lia. Qed.

#[export] Instance total_len_proper : Proper (Permutation ==> eq) total_len.
Proof. intros l k Hlk. by apply total_len_perm. Qed.

(** Blocks apart, all inside [lo, hi), have at most [hi - lo] bytes. *)
Lemma total_len_bound n l lo hi : (length l <= n)%nat -> lo <= hi -> pairwise apart l ->
  Forall (fun b => lo <= fst b /\ 0 < snd b /\ fst b + snd b <= hi) l -> 0 <= total_len l <= hi - lo.
Proof.
  revert l lo hi. induction n as [|n IH]; intros l lo hi Hn Hlh Hp Hb.
  { destruct l; [cbn; lia|cbn in Hn; lia]. }
  destruct l as [|b l]; [cbn; lia|]. cbn in Hn. destruct Hp as [Hp Hl]. apply Forall_cons_1 in Hb as [(B1 & B2 & B3) Hb].
  set (left := filter (fun c : blk => fst c + snd c <= fst b) l).
  set (right := filter (fun c : blk => ~ (fst c + snd c <= fst b)) l).
  assert (Hperm : left ++ right ≡ₚ l).
  { apply filter_app_complement. }
  assert (Hpw := Hl). rewrite <- Hperm in Hpw.
  apply pairwise_app in Hpw as (P1 & P2 & _).
  assert (Hlen : (length left + length right = length l)%nat) by (rewrite <- length_app; by rewrite Hperm).
  rewrite Forall_elem in Hp, Hb.
  destruct (IH left lo (fst b)) as [? ?]; [lia|lia|done| |].
  { apply Forall_elem. intros c [Hc1 Hc2]%list_elem_of_filter. specialize (Hb c Hc2). cbn beta in *. lia. }
  destruct (IH right (fst b + snd b) hi) as [? ?]; [lia|lia|done| |].
  { apply Forall_elem. intros c [Hc1 Hc2]%list_elem_of_filter. specialize (Hb c Hc2). specialize (Hp c Hc2). cbn beta in *.
    unfold apart in Hp. lia. }
  assert (Ht := total_len_app left right). rewrite Hperm in Ht.
  change (total_len (b :: l)) with (snd b + total_len l). lia.
Qed.
