(* ===== verification/Heap.v ===== *)
(** The kernel heap: kernel/core/kmem.c, lines 333-616.

    Blocks up to 4096 bytes come in eight size classes, cut from single pages
    and kept in linked lists that run through the free blocks themselves;
    larger ones are whole pages. A block starts with a header of 24 bytes and
    has a guard word behind the bytes the caller asked for. The state is the
    record [kmem] of Kmem.v: [small_free] holds the heads of the lists and
    [kmem_memory] the bytes, so that a free list is what the memory says it
    is. A walk along a list has fuel; [None] is a walk that did not end. *)
From Stdlib Require Import ZArith Lia.
From stdpp Require Import base tactics option list numbers.
From S2P Require Import Prelude.
From S2P Require Import Memory.
From S2P Require Import Kmem.
#[local] Open Scope Z_scope.

Definition KMEM_ALLOC_MAGIC : Z := 0x4B4D454D48454150.
Definition KMEM_FREED_MAGIC : Z := 0x4B4D454D46524545.
Definition KMEM_GUARD_MAGIC : Z := 0xC0FFEE42.

(** [sizeof(kmalloc_header_t)]. *)
Definition HEADER_SIZE : Z := 24.

(** ** Fields of the state *)

Definition set_memory (m : mem) (k : kmem) : kmem :=
  Kmem (free_ranges k) (total_page_count k) (free_page_count k) (allocation_failures k) (heap k) (small_free k) m.
Definition set_heap (h : heap_counters) (k : kmem) : kmem :=
  Kmem (free_ranges k) (total_page_count k) (free_page_count k) (allocation_failures k) h (small_free k) (kmem_memory k).
Definition set_small (l : list Z) (k : kmem) : kmem :=
  Kmem (free_ranges k) (total_page_count k) (free_page_count k) (allocation_failures k) (heap k) l (kmem_memory k).
Definition count_failure (k : kmem) : kmem :=
  Kmem (free_ranges k) (total_page_count k) (free_page_count k) (u64 (allocation_failures k + 1)) (heap k) (small_free k) (kmem_memory k).

(** [small_free[c]] and [small_class_sizes[c]]. *)
Definition small_head (k : kmem) (c : nat) : Z := default 0 (small_free k !! c).
Definition class_size (c : nat) : Z := default 0 (small_class_sizes !! c).

Definition count_invalid (h : heap_counters) : heap_counters :=
  HeapCounters (heap_used_bytes h) (allocation_count h) (free_count h) (live_allocations h) (peak_live_allocations h)
    (u64 (invalid_frees h + 1)) (double_frees h) (guard_failures h).
Definition count_double (h : heap_counters) : heap_counters :=
  HeapCounters (heap_used_bytes h) (allocation_count h) (free_count h) (live_allocations h) (peak_live_allocations h)
    (invalid_frees h) (u64 (double_frees h + 1)) (guard_failures h).
Definition count_guard (h : heap_counters) : heap_counters :=
  HeapCounters (heap_used_bytes h) (allocation_count h) (free_count h) (live_allocations h) (peak_live_allocations h)
    (invalid_frees h) (double_frees h) (u64 (guard_failures h + 1)).

(** ** The header: [kmalloc_header_t] at address [h] *)

Definition hdr_magic (m : mem) (h : Z) : Z := load 8 m h.
Definition hdr_bytes (m : mem) (h : Z) : Z := load 4 m (h + 8).
Definition hdr_allocated (m : mem) (h : Z) : Z := load 4 m (h + 12).
Definition hdr_class (m : mem) (h : Z) : Z := load 2 m (h + 16).
Definition hdr_pages (m : mem) (h : Z) : Z := load 2 m (h + 18).

Definition kmalloc_guard_for_header (m : mem) (h : Z) : Z := h + HEADER_SIZE + hdr_bytes m h.

(** The assignments that set up a header and its guard. *)
Definition write_header (m : mem) (h bytes allocated class_index page_count : Z) : mem :=
  let m := store 8 m h KMEM_ALLOC_MAGIC in
  let m := store 4 m (h + 8) bytes in
  let m := store 4 m (h + 12) allocated in
  let m := store 2 m (h + 16) class_index in
  let m := store 2 m (h + 18) page_count in
  let m := store 4 m (h + 20) 0 in
  store 4 m (kmalloc_guard_for_header m h) KMEM_GUARD_MAGIC.

(** ** Free lists *)

(** The loop of [populate_class] from offset [off] on: memory and list head. *)
Fixpoint populate_loop (fuel : nat) (page block_size off head : Z) (m : mem) : Z * mem :=
  match fuel with
  | O => (head, m)
  | S fuel' =>
      if off + block_size <=? KMEM_PAGE_SIZE
      then populate_loop fuel' page block_size (off + block_size) (page + off) (store 8 m (page + off) head)
      else (head, m)
  end.

(** A page holds at most 128 blocks. *)
Definition populate_class (c : nat) (k : kmem) : kmem :=
  let '(page, k) := page_alloc 1 k in
  if page =? 0 then k
  else
    let '(head, m) := populate_loop 129 page (class_size c) 0 (small_head k c) (kmem_memory k) in
    set_memory m (set_small (<[c := head]> (small_free k)) k).

Fixpoint list_contains (fuel : nat) (m : mem) (it block : Z) : option bool :=
  match fuel with
  | O => None
  | S fuel' =>
      if it =? 0 then Some false
      else if it =? block then Some true
      else list_contains fuel' m (load 8 m it) block
  end.

Fixpoint any_list_contains (fuel : nat) (m : mem) (heads : list Z) (block : Z) : option bool :=
  match heads with
  | [] => Some false
  | it :: heads' =>
      found ← list_contains fuel m it block;
      if found : bool then Some true else any_list_contains fuel m heads' block
  end.

Definition small_free_list_contains (fuel : nat) (k : kmem) (block : Z) : option bool :=
  any_list_contains fuel (kmem_memory k) (small_free k) block.

(** ** Counters *)

Definition kmalloc_note_alloc (charged_bytes : Z) (h : heap_counters) : heap_counters :=
  let live := u64 (live_allocations h + 1) in
  HeapCounters (u64 (heap_used_bytes h + charged_bytes)) (u64 (allocation_count h + 1)) (free_count h) live
    (if peak_live_allocations h <? live then live else peak_live_allocations h)
    (invalid_frees h) (double_frees h) (guard_failures h).

Definition kmalloc_note_free (charged_bytes : Z) (h : heap_counters) : heap_counters :=
  HeapCounters (if charged_bytes <=? heap_used_bytes h then heap_used_bytes h - charged_bytes else 0)
    (allocation_count h) (u64 (free_count h + 1))
    (if 0 <? live_allocations h then live_allocations h - 1 else live_allocations h)
    (peak_live_allocations h) (invalid_frees h) (double_frees h) (guard_failures h).

(** ** Allocation *)

(** The branch of [kmalloc] for a size class. *)
Definition kmalloc_small (c : nat) (size : Z) (k : kmem) : Z * kmem :=
  let k := if small_head k c =? 0 then populate_class c k else k in
  let block := small_head k c in
  if block =? 0 then (0, count_failure k)
  else
    let k := set_small (<[c := load 8 (kmem_memory k) block]> (small_free k)) k in
    let m := write_header (kmem_memory k) block size (class_size c) (Z.of_nat c) 0 in
    let m := fill m (block + HEADER_SIZE) size 0xA5 in
    (block + HEADER_SIZE, set_heap (kmalloc_note_alloc (class_size c) (heap k)) (set_memory m k)).

(** The branch for whole pages. *)
Definition kmalloc_large (size : Z) (k : kmem) : Z * kmem :=
  if 0xffffffff - KMALLOC_OVERHEAD - (KMEM_PAGE_SIZE - 1) <? size then (0, count_failure k)
  else
    let pages := u32 (size + KMALLOC_OVERHEAD + KMEM_PAGE_SIZE - 1) / KMEM_PAGE_SIZE in
    if 0xffff <? pages then (0, count_failure k)
    else
      let '(header, k) := page_alloc pages k in
      if header =? 0 then (0, k)
      else
        let m := write_header (kmem_memory k) header size (u32 (pages * KMEM_PAGE_SIZE)) 0xffff pages in
        (header + HEADER_SIZE, set_heap (kmalloc_note_alloc (u64 (pages * KMEM_PAGE_SIZE)) (heap k)) (set_memory m k)).

(** The address, 0 for failure. *)
Definition kmalloc (size : Z) (k : kmem) : Z * kmem :=
  if size =? 0 then (0, k)
  else match class_for_size size with
       | Some c => kmalloc_small c size k
       | None => kmalloc_large size k
       end.

Definition kzalloc (size : Z) (k : kmem) : Z * kmem :=
  let '(ptr, k) := kmalloc size k in
  if ptr =? 0 then (ptr, k) else (ptr, set_memory (fill (kmem_memory k) ptr size 0) k).

(** ** Release *)

(** [kfree] of a block whose header names a size class. *)
Definition kfree_small (header : Z) (k : kmem) : kmem :=
  let c := Z.to_nat (hdr_class (kmem_memory k) header) in
  let m := kmem_memory k in
  let m := store 4 m (kmalloc_guard_for_header m header) 0 in
  let m := fill m (header + HEADER_SIZE) (hdr_bytes m header) 0xDD in
  let m := store 8 m header KMEM_FREED_MAGIC in
  let m := store 8 m header (small_head k c) in
  set_heap (kmalloc_note_free (class_size c) (heap k)) (set_small (<[c := header]> (small_free k)) (set_memory m k)).

Definition kfree_large (header : Z) (k : kmem) : kmem :=
  let pages := hdr_pages (kmem_memory k) header in
  let m := store 8 (kmem_memory k) header KMEM_FREED_MAGIC in
  let m := store 4 m (kmalloc_guard_for_header m header) 0 in
  let m := fill m (header + HEADER_SIZE) (hdr_bytes m header) 0xDD in
  page_free header pages (set_heap (kmalloc_note_free (u64 (pages * KMEM_PAGE_SIZE)) (heap k)) (set_memory m k)).

Definition kfree (fuel : nat) (ptr : Z) (k : kmem) : option kmem :=
  if ptr =? 0 then Some k
  else
    let header := ptr - HEADER_SIZE in
    let m := kmem_memory k in
    if negb (hdr_magic m header =? KMEM_ALLOC_MAGIC) then
      if hdr_magic m header =? KMEM_FREED_MAGIC then Some (set_heap (count_double (heap k)) k)
      else
        found ← small_free_list_contains fuel k header;
        Some (set_heap (if found : bool then count_double (heap k) else count_invalid (heap k)) k)
    else
      let k := if load 4 m (kmalloc_guard_for_header m header) =? KMEM_GUARD_MAGIC then k
               else set_heap (count_guard (heap k)) k in
      if hdr_class m header =? 0xffff then Some (kfree_large header k)
      else if hdr_class m header <? Z.of_nat KMEM_SMALL_CLASS_COUNT then Some (kfree_small header k)
      else Some (set_heap (count_invalid (heap k)) k).

Definition kmalloc_size (ptr : Z) (k : kmem) : Z :=
  if ptr =? 0 then 0
  else
    let header := ptr - HEADER_SIZE in
    let m := kmem_memory k in
    if negb (hdr_magic m header =? KMEM_ALLOC_MAGIC) then 0
    else if negb (load 4 m (kmalloc_guard_for_header m header) =? KMEM_GUARD_MAGIC) then 0
    else hdr_bytes m header.

(** ** Statistics *)

Record kmem_stats : Type := KmemStats {
  st_total_pages : Z;
  st_free_pages : Z;
  st_heap_used_bytes : Z;
  st_small_free_blocks : Z;
  st_free_ranges : Z;
  st_largest_free_range_pages : Z;
  st_smallest_free_range_pages : Z;
  st_allocation_failures : Z;
  st_fragmentation_percent : Z;
  st_allocation_count : Z;
  st_free_count : Z;
  st_live_allocations : Z;
  st_peak_live_allocations : Z;
  st_invalid_frees : Z;
  st_double_frees : Z;
  st_guard_failures : Z
}.

Fixpoint list_count (fuel : nat) (m : mem) (block n : Z) : option Z :=
  match fuel with
  | O => None
  | S fuel' => if block =? 0 then Some n else list_count fuel' m (load 8 m block) (u64 (n + 1))
  end.

Fixpoint lists_count (fuel : nat) (m : mem) (heads : list Z) (n : Z) : option Z :=
  match heads with
  | [] => Some n
  | block :: heads' => n ← list_count fuel m block n; lists_count fuel m heads' n
  end.

(** The loop over the free ranges: the largest and the smallest seen. *)
Fixpoint range_extremes (l : list page_range) (largest smallest : Z) : Z * Z :=
  match l with
  | [] => (largest, smallest)
  | r :: l' =>
      range_extremes l' (if largest <? pr_pages r then pr_pages r else largest)
        (if (smallest =? 0) || (pr_pages r <? smallest) then pr_pages r else smallest)
  end.

Definition kmem_get_stats (fuel : nat) (k : kmem) : option kmem_stats :=
  let '(largest, smallest) := range_extremes (free_ranges k) 0 0 in
  small_blocks ← lists_count fuel (kmem_memory k) (small_free k) 0;
  let free := free_page_count k in
  let h := heap k in
  Some (KmemStats (total_page_count k) free (heap_used_bytes h) small_blocks (Z.of_nat (length (free_ranges k)))
          largest smallest (allocation_failures k)
          (if (free =? 0) || (free <=? largest) then 0 else u32 (u64 ((free - largest) * 100) / free))
          (allocation_count h) (free_count h) (live_allocations h) (peak_live_allocations h)
          (invalid_frees h) (double_frees h) (guard_failures h)).

Definition kmem_fault_total (stats : kmem_stats) : Z :=
  u64 (u64 (st_invalid_frees stats + st_double_frees stats) + st_guard_failures stats).
