(* ===== verification/HeapSpec.v ===== *)
(** The heap of Heap.v: its invariant, and what each operation does.

    A heap is described by the blocks in its free lists and the blocks in
    use ([ghost]); the invariant [heap_ok] ties them to the memory. Nothing
    in it is stored by the program: the lists, headers and guards are read
    back from the bytes. *)
From Stdlib Require Import ZArith Lia.
From stdpp Require Import base tactics option list numbers.
From S2P Require Import Prelude.
From S2P Require Import Memory.
From S2P Require Import Dma.
From S2P Require Import Kmem.
From S2P Require Import KmemSpec.
From S2P Require Import Heap.
#[local] Open Scope Z_scope.

(** ** Blocks in use *)

(** A block in use: its header, the bytes asked for, and its class. *)
Record alloc : Type := Alloc {
  al_hdr : Z;
  al_size : Z;
  al_class : option nat
}.

Definition al_ptr (a : alloc) : Z := al_hdr a + HEADER_SIZE.
Definition pages_for (size : Z) : Z := (size + 28 + 4095) / 4096.
Definition al_len (a : alloc) : Z :=
  match al_class a with Some c => class_size c | None => pages_for (al_size a) * 4096 end.
Definition al_blk (a : alloc) : blk := (al_hdr a, al_len a).

Definition alloc_wf (a : alloc) : Prop :=
  0 < al_size a /\ al_size a + 28 <= al_len a /\
  match al_class a with
  | Some c => (c < 8)%nat
  | None => al_hdr a mod 4096 = 0 /\ 0 < pages_for (al_size a) <= 0xffff
  end.

(** What the header and the guard of a block in use say. *)
Record hdr_ok (m : mem) (a : alloc) : Prop := {
  hk_magic : hdr_magic m (al_hdr a) = KMEM_ALLOC_MAGIC;
  hk_bytes : hdr_bytes m (al_hdr a) = al_size a;
  hk_allocated : hdr_allocated m (al_hdr a) = al_len a;
  hk_class : hdr_class m (al_hdr a) = match al_class a with Some c => Z.of_nat c | None => 0xffff end;
  hk_pages : hdr_pages m (al_hdr a) = match al_class a with Some _ => 0 | None => pages_for (al_size a) end;
  hk_guard : load 4 m (al_ptr a + al_size a) = KMEM_GUARD_MAGIC
}.

Lemma hdr_ok_ext m m' a : alloc_wf a -> same_on (al_hdr a) (al_len a) m m' -> hdr_ok m a -> hdr_ok m' a.
Proof.
  intros (W1 & W2 & _) Hs [H1 H2 H3 H4 H5 H6].
  assert (Hl : forall n b, al_hdr a <= b -> b + Z.of_nat n <= al_hdr a + al_len a -> load n m' b = load n m b).
  { intros n b Hb1 Hb2. apply load_ext. eapply same_on_sub; [exact Hs|done|done]. }
  unfold hdr_magic, hdr_bytes, hdr_allocated, hdr_class, hdr_pages, al_ptr, HEADER_SIZE in *.
  split; unfold hdr_magic, hdr_bytes, hdr_allocated, hdr_class, hdr_pages, al_ptr, HEADER_SIZE; by rewrite Hl by lia.
Qed.

(** The header [kmalloc] writes. *)
Lemma write_header_ok m a : alloc_wf a -> al_len a < 4294967296 ->
  let m' := write_header m (al_hdr a) (al_size a) (al_len a) (match al_class a with Some c => Z.of_nat c | None => 0xffff end)
              (match al_class a with Some _ => 0 | None => pages_for (al_size a) end) in
  hdr_ok m' a /\ same_off (al_hdr a) (al_size a + 28) m m' /\ same_on (al_ptr a) (al_size a) m m'.
Proof.
  intros (W1 & W2 & W3) Hl. set (cls := match al_class a with Some c => Z.of_nat c | None => 0xffff end).
  set (pgs := match al_class a with Some _ => 0 | None => pages_for (al_size a) end).
  assert (Hc : 0 <= cls < 65536) by (unfold cls; destruct (al_class a); lia).
  assert (Hp : 0 <= pgs < 65536) by (unfold pgs; destruct (al_class a); lia).
  unfold write_header, kmalloc_guard_for_header, hdr_bytes, HEADER_SIZE, KMEM_ALLOC_MAGIC, KMEM_GUARD_MAGIC.
  set (h := al_hdr a) in *. set (sz := al_size a) in *. set (len := al_len a) in *. cbn zeta.
  assert (Eb : load 4 (store 4 (store 2 (store 2 (store 4 (store 4 (store 8 m h 0x4B4D454D48454150) (h + 8) sz) (h + 12) len) (h + 16) cls) (h + 18) pgs) (h + 20) 0) (h + 8) = sz)
    by (mload; done).
  rewrite Eb. split; [|split].
  - split; unfold hdr_magic, hdr_bytes, hdr_allocated, hdr_class, hdr_pages, al_ptr, HEADER_SIZE, KMEM_ALLOC_MAGIC, KMEM_GUARD_MAGIC; fold h sz len; mload; done.
  - repeat (eapply same_off_trans; [|eapply same_off_sub; [apply store_off|lia|lia]]). apply same_off_refl.
  - intros x Hx. unfold al_ptr, HEADER_SIZE in Hx. fold h sz in Hx. by rewrite !(store_off _ _ _ _ x) by (cbn; lia).
Qed.

(** ** Free lists *)

(** The list in memory from [head] on is [l]. *)
Fixpoint chain (m : mem) (head : Z) (l : list Z) : Prop :=
  match l with
  | [] => head = 0
  | a :: l' => head = a /\ a <> 0 /\ chain m (load 8 m a) l'
  end.

Lemma chain_ext m m' head l : Forall (fun a => same_on a 8 m m') l -> chain m head l -> chain m' head l.
Proof.
  revert head. induction l as [|a l IH]; intros head Hs Hc; cbn [chain] in *; [done|].
  apply Forall_cons_1 in Hs as [Ha Hs]. destruct Hc as (-> & Hn & Hc). split; [done|split; [done|]].
  rewrite (load_ext 8 m m' a Ha). auto.
Qed.

(** Walks along a list end, and see all of it. *)
Lemma list_contains_chain fuel m head l block : chain m head l -> (length l < fuel)%nat ->
  list_contains fuel m head block = Some (bool_decide (block ∈ l)).
Proof.
  revert fuel head. induction l as [|a l IH]; intros fuel head Hc Hf; cbn [chain length] in *; (destruct fuel as [|fuel]; [lia|]); cbn [list_contains].
  - subst head. by rewrite bool_decide_false by (intros ?%elem_of_nil; done).
  - destruct Hc as (-> & Hn & Hc). destruct (Z.eqb_spec a 0); [done|]. destruct (Z.eqb_spec a block) as [->|Hne].
    + rewrite bool_decide_true by apply elem_of_cons, or_introl, eq_refl. done.
    + rewrite IH by (done || lia). f_equal. apply bool_decide_ext. rewrite elem_of_cons. split; [by right|intros [->|?]; done].
Qed.

Lemma list_count_chain fuel m head l n : chain m head l -> (length l < fuel)%nat -> 0 <= n ->
  n + Z.of_nat (length l) < 18446744073709551616 -> list_count fuel m head n = Some (n + Z.of_nat (length l)).
Proof.
  revert fuel head n. induction l as [|a l IH]; intros fuel head n Hc Hf Hn Hb; cbn [chain length] in *; (destruct fuel as [|fuel]; [lia|]); cbn [list_count].
  - subst head. cbn. f_equal. lia.
  - destruct Hc as (-> & Ha & Hc). destruct (Z.eqb_spec a 0); [done|]. rewrite u64_small by cint.
    rewrite IH; [f_equal; lia|done|lia|lia|lia].
Qed.

(** ** The invariant *)

(** The blocks of the free lists, by class, and the blocks in use. *)
Record ghost : Type := Ghost {
  gh_free : list (list Z);
  gh_live : list alloc
}.

Definition class_blks (c : nat) (l : list Z) : list blk := map (fun a => (a, class_size c)) l.
Fixpoint free_blks (c : nat) (fl : list (list Z)) : list blk :=
  match fl with
  | [] => []
  | l :: fl' => class_blks c l ++ free_blks (S c) fl'
  end.
Definition live_blks (live : list alloc) : list blk := map al_blk live.
Definition heap_blks (g : ghost) : list blk := free_blks 0 (gh_free g) ++ live_blks (gh_live g).

Definition blk_ok (b : blk) : Prop := 0 < fst b /\ 32 <= snd b /\ fst b + snd b < 18446744073709551616 /\ fst b mod 32 = 0.

Record heap_ok (k : kmem) (g : ghost) : Prop := {
  ho_pages : kmem_ok k;
  ho_classes : length (small_free k) = 8%nat;
  ho_chains : Forall2 (chain (kmem_memory k)) (small_free k) (gh_free g);
  ho_apart : pairwise apart (heap_blks g);
  ho_blks : Forall blk_ok (heap_blks g);
  ho_used b a : b ∈ heap_blks g -> in_blk b a -> ~ free k a;
  ho_live : Forall (fun a => alloc_wf a /\ hdr_ok (kmem_memory k) a) (gh_live g);
  ho_count : live_allocations (heap k) = Z.of_nat (length (gh_live g));
  ho_bytes : heap_used_bytes (heap k) = total_len (live_blks (gh_live g))
}.

(** All memory the heap and the page allocator have. *)
Definition space (k : kmem) (g : ghost) (a : Z) : Prop := free k a \/ exists b, b ∈ heap_blks g /\ in_blk b a.

Lemma class_size_ok c : (c < 8)%nat -> 32 <= class_size c <= 4096.
Proof. intros Hc. do 8 (destruct c as [|c]; [cbn; lia|]). lia. Qed.

Lemma class_size_aligned c : (c < 8)%nat -> class_size c mod 32 = 0.
Proof. intros Hc. do 8 (destruct c as [|c]; [done|]). lia. Qed.

(** The number of blocks of a page. *)
Lemma class_size_divides c : (c < 8)%nat -> exists n, (0 < n <= 128)%nat /\ Z.of_nat n * class_size c = 4096.
Proof.
  intros Hc. exists (Z.to_nat (4096 / class_size c)).
  do 8 (destruct c as [|c]; [split; [vm_compute; lia|reflexivity]|]). lia.
Qed.

Lemma free_blks_insert c0 c fl l x : fl !! c = Some l ->
  free_blks c0 (<[c := x :: l]> fl) ≡ₚ (x, class_size (c0 + c)) :: free_blks c0 fl.
Proof.
  revert c0 c. induction fl as [|l0 fl IH]; intros c0 c Hl; [done|]. destruct c as [|c].
  - injection Hl as ->. rewrite Nat.add_0_r. reflexivity.
  - cbn [lookup list_lookup] in Hl. change (<[S c := x :: l]> (l0 :: fl)) with (l0 :: <[c := x :: l]> fl). cbn [free_blks].
    rewrite (IH (S c0) c Hl). replace (c0 + S c)%nat with (S c0 + c)%nat by lia. symmetry. apply Permutation_middle.
Qed.

Lemma free_blks_app c0 c fl l new : fl !! c = Some l ->
  free_blks c0 (<[c := new ++ l]> fl) ≡ₚ class_blks (c0 + c) new ++ free_blks c0 fl.
Proof.
  intros Hl. induction new as [|x new IH]; cbn [app class_blks map].
  - by rewrite list_insert_id.
  - rewrite <- IH. rewrite <- (free_blks_insert c0 c (<[c := new ++ l]> fl) (new ++ l)).
    + by rewrite list_insert_insert_eq.
    + apply list_lookup_insert_eq. by eapply lookup_lt_Some.
Qed.

(** Memory that differs only outside some blocks keeps what they say. *)
Definition undisturbed (m m' : mem) (bs : list blk) : Prop := Forall (fun b => same_on (fst b) (snd b) m m') bs.

Lemma undisturbed_off b m m' bs : same_off (fst b) (snd b) m m' -> Forall (apart b) bs -> undisturbed m m' bs.
Proof.
  intros Hs Ha. eapply list.Forall_impl; [exact Ha|]. intros c Hc. eapply off_on; [exact Hs|]. unfold apart in Hc. lia.
Qed.

Lemma undisturbed_app m m' bs cs : undisturbed m m' (bs ++ cs) <-> undisturbed m m' bs /\ undisturbed m m' cs.
Proof. apply Forall_app. Qed.

Lemma undisturbed_perm m m' bs cs : bs ≡ₚ cs -> undisturbed m m' bs -> undisturbed m m' cs.
Proof. unfold undisturbed. by intros ->. Qed.

Lemma chains_same m m' c heads fl : (c + length fl <= 8)%nat -> undisturbed m m' (free_blks c fl) ->
  Forall2 (chain m) heads fl -> Forall2 (chain m') heads fl.
Proof.
  intros Hc Hu Hch. revert c Hc Hu. induction Hch as [|head l heads fl Hl _ IH]; intros c Hc Hu; [constructor|].
  cbn [free_blks length] in *. apply undisturbed_app in Hu as [Hu1 Hu2].
  constructor; [|by apply (IH (S c)); [lia|]]. eapply chain_ext; [|exact Hl]. apply Forall_elem. intros a Ha.
  unfold undisturbed in Hu1. rewrite Forall_elem in Hu1. specialize (Hu1 (a, class_size c)). cbn [fst snd] in Hu1.
  assert (Hsz := class_size_ok c). eapply same_on_sub; [apply Hu1|lia|lia].
  apply list_elem_of_fmap. exists a. done.
Qed.

Lemma live_same m m' live : undisturbed m m' (live_blks live) ->
  Forall (fun a => alloc_wf a /\ hdr_ok m a) live -> Forall (fun a => alloc_wf a /\ hdr_ok m' a) live.
Proof.
  intros Hu Hl. rewrite Forall_elem in *. intros a Ha. destruct (Hl a Ha) as [Hw Hh]. split; [done|].
  eapply hdr_ok_ext; [done| |exact Hh]. unfold undisturbed in Hu. rewrite Forall_elem in Hu.
  apply (Hu (al_blk a)). apply list_elem_of_fmap. by exists a.
Qed.

(** ** Cutting a page *)

(** [n] blocks of [bs] bytes from address [a], the last one first. *)
Fixpoint cut (n : nat) (a bs : Z) : list Z :=
  match n with
  | O => []
  | S n' => cut n' (a + bs) bs ++ [a]
  end.

Lemma cut_inside n a bs x : 0 < bs -> x ∈ cut n a bs -> a <= x /\ x + bs <= a + Z.of_nat n * bs.
Proof.
  intros Hbs. revert a. induction n as [|n IH]; intros a; cbn [cut]; [by intros ?%elem_of_nil|].
  rewrite elem_of_app, list_elem_of_singleton. intros [Hx%IH| ->]; nia.
Qed.

Lemma cut_aligned n a bs x : a mod 32 = 0 -> bs mod 32 = 0 -> x ∈ cut n a bs -> x mod 32 = 0.
Proof.
  intros Ha Hbs. revert a Ha. induction n as [|n IH]; intros a Ha; cbn [cut]; [by intros ?%elem_of_nil|].
  rewrite elem_of_app, list_elem_of_singleton. intros [Hx| ->]; [|done]. apply (IH (a + bs)); [|done]. by rewrite Z.add_mod, Ha, Hbs by lia.
Qed.

Lemma cut_apart n a bs : 0 < bs -> pairwise apart (map (fun x => (x, bs)) (cut n a bs)).
Proof.
  intros Hbs. revert a. induction n as [|n IH]; intros a; cbn [cut]; [done|].
  rewrite map_app. apply pairwise_app. split; [apply IH|split; [by split; [constructor|]|]].
  apply Forall_elem. intros b Hb. apply list_elem_of_fmap in Hb as (x & -> & Hx).
  apply (cut_inside _ _ _ _ Hbs) in Hx. constructor; [|constructor]. unfold apart. cbn [fst snd]. lia.
Qed.

(** The blocks cover the page. *)
Lemma cut_covers n a bs y : 0 < bs -> a <= y < a + Z.of_nat n * bs -> exists x, x ∈ cut n a bs /\ x <= y < x + bs.
Proof.
  intros Hbs. revert a. induction n as [|n IH]; intros a Hy; [lia|]. cbn [cut].
  destruct (decide (y < a + bs)) as [Hlt|Hge].
  - exists a. rewrite elem_of_app, list_elem_of_singleton. split; [by right|lia].
  - destruct (IH (a + bs)) as (x & Hx & Hy'); [nia|]. exists x. rewrite elem_of_app. split; [by left|done].
Qed.

Lemma populate_loop_ok n fuel page bs off head m l : (n < fuel)%nat -> off + Z.of_nat n * bs = 4096 -> 8 <= bs -> 0 <= off ->
  0 < page -> page + 4096 < 18446744073709551616 -> is_u64 head ->
  chain m head l -> Forall (fun x => x + 8 <= page + off \/ page + 4096 <= x) l ->
  let '(head', m') := populate_loop fuel page bs off head m in
  chain m' head' (cut n (page + off) bs ++ l) /\ same_off (page + off) (Z.of_nat n * bs) m m'.
Proof.
  revert fuel off head m l. induction n as [|n IH]; intros fuel off head m l Hf Ho Hbs H0 Hp1 Hp2 Hh Hc Hl;
    (destruct fuel as [|fuel]; [lia|]); cbn [populate_loop]; unfold KMEM_PAGE_SIZE.
  - destruct (Z.leb_spec (off + bs) 4096); [lia|]. split; [done|apply same_off_refl].
  - rewrite Nat2Z.inj_succ, Z.mul_succ_l in *. assert (0 <= Z.of_nat n * bs) by nia.
    destruct (Z.leb_spec (off + bs) 4096); [|lia].
    specialize (IH fuel (off + bs) (page + off) (store 8 m (page + off) head) ((page + off) :: l)).
    destruct (populate_loop fuel page bs (off + bs) (page + off) (store 8 m (page + off) head)) as [head' m'].
    destruct IH as [Q1 Q2]; [lia|lia|done|lia|done|done|cint| | |].
    + cbn [chain]. split; [done|split; [lia|]]. rewrite load_store_same by (change (256 ^ Z.of_nat 8) with 18446744073709551616; cint).
      eapply chain_ext; [|exact Hc]. eapply list.Forall_impl; [exact Hl|]. cbn beta. intros x Hx. eapply off_on; [apply store_off|lia].
    + constructor; [left; lia|]. eapply list.Forall_impl; [exact Hl|]. cbn beta. lia.
    + rewrite Z.add_assoc in Q1, Q2. split; [cbn [cut]; by rewrite <- app_assoc|].
      apply (same_off_trans _ _ _ (store 8 m (page + off) head)); eapply same_off_sub; [apply store_off|lia|lia|exact Q2|lia|lia].
Qed.

(** ** The page allocator as the heap sees it *)

Lemma kmem_ok_same k k' : free_ranges k' = free_ranges k -> free_page_count k' = free_page_count k -> kmem_ok k -> kmem_ok k'.
Proof. intros E1 E2 [H1 H2 H3 H4]. split; congruence. Qed.

(** [page_alloc] leaves the heap's own variables alone. *)
Lemma page_alloc_frame n k : heap (snd (page_alloc n k)) = heap k /\ small_free (snd (page_alloc n k)) = small_free k /\
  total_page_count (snd (page_alloc n k)) = total_page_count k /\
  (fst (page_alloc n k) <> 0 -> allocation_failures (snd (page_alloc n k)) = allocation_failures k).
Proof.
  unfold page_alloc. destruct (n =? 0); [done|]. destruct (find_index _ _) as [i|].
  - destruct (pr_start _ =? 0) eqn:E; cbn; [split_and!; congruence|done].
  - cbn. split_and!; (done || congruence).
Qed.

Lemma page_free_frame addr n k : heap (page_free addr n k) = heap k /\ small_free (page_free addr n k) = small_free k /\
  kmem_memory (page_free addr n k) = kmem_memory k /\ allocation_failures (page_free addr n k) = allocation_failures k.
Proof. unfold page_free. destruct (_ || _ || _); [done|]. destruct (_ <? _)%nat; done. Qed.

Lemma apart_pointwise b c : 0 < snd b -> 0 < snd c -> (forall x, in_blk b x -> ~ in_blk c x) -> apart b c.
Proof.
  intros Hb Hc Hx. unfold apart. specialize (Hx (Z.max (fst b) (fst c))). unfold in_blk in Hx. lia.
Qed.

(** A block of free pages is apart from every block of the heap. *)
Lemma heap_ok_fresh k g addr n : heap_ok k g -> 0 < n -> (forall a, in_blk (addr, n) a -> free k a) ->
  Forall (apart (addr, n)) (heap_blks g).
Proof.
  intros Hok Hn Hf. apply Forall_elem. intros b Hb. pose proof (ho_blks _ _ Hok) as Hbs. rewrite Forall_elem in Hbs.
  destruct (Hbs b Hb) as (_ & Hb2 & _). apply apart_pointwise; [done|lia|]. intros x Hx Hx'. by eapply (ho_used _ _ Hok b x), Hf.
Qed.

Lemma live_sub g : Forall (fun b => b ∈ heap_blks g) (live_blks (gh_live g)).
Proof. apply Forall_elem. intros b Hb. unfold heap_blks. rewrite elem_of_app. by right. Qed.

Lemma undisturbed_heap m m' g : undisturbed m m' (heap_blks g) ->
  undisturbed m m' (free_blks 0 (gh_free g)) /\ undisturbed m m' (live_blks (gh_live g)).
Proof. apply undisturbed_app. Qed.

Lemma ho_free_length k g : heap_ok k g -> length (gh_free g) = 8%nat.
Proof. intros Hok. by rewrite <- (Forall2_length (ho_chains _ _ Hok)), (ho_classes _ _ Hok). Qed.

(** The invariant needs the blocks to be left alone, and nothing else of memory. *)
Lemma heap_ok_memory k k' g : heap_ok k g -> free_ranges k' = free_ranges k -> free_page_count k' = free_page_count k ->
  small_free k' = small_free k -> live_allocations (heap k') = live_allocations (heap k) ->
  heap_used_bytes (heap k') = heap_used_bytes (heap k) ->
  undisturbed (kmem_memory k) (kmem_memory k') (heap_blks g) -> heap_ok k' g.
Proof.
  intros Hok E1 E2 E3 E4 E5 Hu. pose proof (ho_free_length _ _ Hok) as Hlen. destruct Hok as [H1 H2 H3 H4 H5 H6 H7 H8 H9].
  apply undisturbed_heap in Hu as [Hu1 Hu2].
  split; [by eapply kmem_ok_same|by rewrite E3| |done|done| |by eapply live_same|congruence|congruence].
  - rewrite E3. eapply (chains_same _ _ 0); [lia|done|done].
  - unfold free in *. rewrite E1. done.
Qed.

Lemma free_blks_elem c0 c fl l x : fl !! c = Some l -> x ∈ l -> (x, class_size (c0 + c)) ∈ free_blks c0 fl.
Proof.
  revert c0 c. induction fl as [|l0 fl IH]; intros c0 c Hl Hx; [done|]. cbn [free_blks]. rewrite elem_of_app. destruct c as [|c].
  - injection Hl as ->. left. rewrite Nat.add_0_r. apply list_elem_of_fmap. by exists x.
  - right. replace (c0 + S c)%nat with (S c0 + c)%nat by lia. by apply IH.
Qed.

Lemma heap_list k g c : heap_ok k g -> (c < 8)%nat -> exists l, gh_free g !! c = Some l /\
  small_free k !! c = Some (small_head k c) /\ chain (kmem_memory k) (small_head k c) l /\ is_u64 (small_head k c).
Proof.
  intros Hok Hc. pose proof (ho_chains _ _ Hok) as Hch. destruct (lookup_lt_is_Some_2 (small_free k) c) as [head Hh]; [by rewrite (ho_classes _ _ Hok)|].
  destruct (Forall2_lookup_l _ _ _ _ _ Hch Hh) as (l & Hl & Hcl). exists l. unfold small_head. rewrite Hh. change (default 0 (Some head)) with head.
  split; [done|split; [done|split; [done|]]]. destruct l as [|a l]; cbn [chain] in Hcl.
  - subst. cint.
  - destruct Hcl as (-> & _ & _). pose proof (ho_blks _ _ Hok) as Hb. rewrite Forall_elem in Hb.
    destruct (Hb (a, class_size c)) as (B1 & B2 & B3 & _); [|cbn [fst snd] in *; cint].
    unfold heap_blks. rewrite elem_of_app. left. apply (free_blks_elem 0 c _ (a :: l)); [done|]. apply elem_of_cons. by left.
Qed.

(** What [page_alloc] gives the heap: a block apart from all of its blocks. *)
Lemma heap_page_alloc n k g addr k' : heap_ok k g -> is_u32 n -> 0 < n -> page_alloc n k = (addr, k') -> addr <> 0 ->
  heap_ok k' g /\ 0 < addr /\ addr mod 4096 = 0 /\ addr + n * 4096 < 18446744073709551616 /\
  Forall (apart (addr, n * 4096)) (heap_blks g) /\
  (forall a, in_blk (addr, n * 4096) a -> free k a /\ kmem_memory k' a = 0) /\
  (forall a, free k' a <-> free k a /\ ~ in_blk (addr, n * 4096) a) /\
  undisturbed (kmem_memory k) (kmem_memory k') (heap_blks g) /\
  heap k' = heap k /\ small_free k' = small_free k /\ allocation_failures k' = allocation_failures k.
Proof.
  intros Hok Hn Hn0 E Ha. pose proof (page_alloc_ok n k (ho_pages _ _ Hok) Hn) as Ho. pose proof (page_alloc_frame n k) as Hf.
  rewrite E in Ho, Hf. cbn [fst snd] in Hf. destruct Ho as [Hk' Ho]. rewrite decide_False in Ho by done.
  destruct Ho as (O1 & O2 & O3 & O4 & O5 & O6 & O7 & O8). destruct Hf as (F1 & F2 & _ & F3). specialize (F3 Ha).
  assert (Hap : Forall (apart (addr, n * 4096)) (heap_blks g)) by (apply (heap_ok_fresh k); [done|lia|exact O4]).
  assert (Hu : undisturbed (kmem_memory k) (kmem_memory k') (heap_blks g)).
  { apply (undisturbed_off (addr, n * 4096)); [|done]. intros x Hx. by apply O8. }
  split; [|repeat (split; [done|]); split; [|split; [exact O5|done]]; intros a Hin; split; [by apply O4|by apply O7]].
  pose proof (ho_free_length _ _ Hok) as Hlen. destruct Hok as [H1 H2 H3 H4 H5 H6 H7 H8 H9]. apply undisturbed_heap in Hu as [Hu1 Hu2].
  split; [done|by rewrite F2| |done|done| |by eapply live_same|congruence|congruence].
  - rewrite F2. eapply (chains_same _ _ 0); [lia|done|done].
  - intros b a Hb Hin [Hfr _]%O5. by eapply H6.
Qed.

Lemma page_alloc_none n k k' : kmem_ok k -> is_u32 n -> 0 < n -> page_alloc n k = (0, k') ->
  free_ranges k' = free_ranges k /\ kmem_memory k' = kmem_memory k /\ kmem_ok k' /\ free_page_count k' = free_page_count k /\
  allocation_failures k' = u64 (allocation_failures k + 1) /\ (forall r, r ∈ free_ranges k -> pr_pages r < n).
Proof.
  intros Hk Hn Hn0 E. pose proof (page_alloc_ok n k Hk Hn) as Ho. rewrite E in Ho. destruct Ho as [Hk' Ho]. rewrite decide_True in Ho by done.
  destruct Ho as (O1 & O2 & [O3|[O3 O4]]); [lia|]. repeat (split; [done|]). split; [|done].
  by rewrite (ko_count _ Hk'), (ko_count _ Hk), O1.
Qed.

(** The page of a class, cut into its list. *)
Lemma heap_ok_cut k g c l addr head m : heap_ok k g -> (c < 8)%nat -> gh_free g !! c = Some l -> small_free k !! c = Some (small_head k c) ->
  chain (kmem_memory k) (small_head k c) l -> is_u64 (small_head k c) ->
  0 < addr -> addr mod 4096 = 0 -> addr + 4096 < 18446744073709551616 -> Forall (apart (addr, 4096)) (heap_blks g) ->
  (forall a, in_blk (addr, 4096) a -> ~ free k a) ->
  populate_loop 129 addr (class_size c) 0 (small_head k c) (kmem_memory k) = (head, m) ->
  exists n, (0 < n)%nat /\ Z.of_nat n * class_size c = 4096 /\ same_off addr 4096 (kmem_memory k) m /\
    heap_ok (set_memory m (set_small (<[c := head]> (small_free k)) k))
      (Ghost (<[c := cut n addr (class_size c) ++ l]> (gh_free g)) (gh_live g)).
Proof.
  intros Hok Hc Hl Hsf Hch Hu A1 A0 A2 A3 A4 E. destruct (class_size_divides c Hc) as (n & Hn & Hd). pose proof (class_size_ok c Hc) as Hcs.
  pose proof (populate_loop_ok n 129 addr (class_size c) 0 (small_head k c) (kmem_memory k) l) as Hp. rewrite E, Z.add_0_r, Hd in Hp.
  assert (Hel : forall x, x ∈ l -> (x, class_size c) ∈ heap_blks g).
  { intros x Hx. unfold heap_blks. rewrite elem_of_app. left. by apply (free_blks_elem 0 c _ l). }
  rewrite Forall_elem in A3. destruct Hp as [P1 P2]; [lia|lia|lia|lia|done|done|done|done| |].
  { apply Forall_elem. intros x Hx. specialize (A3 _ (Hel x Hx)). unfold apart in A3. cbn [fst snd] in A3. lia. }
  exists n. split; [lia|split; [done|split; [done|]]].
  assert (Hund : undisturbed (kmem_memory k) m (heap_blks g)) by (apply (undisturbed_off (addr, 4096)); [done|by apply Forall_elem]).
  set (new := cut n addr (class_size c)).
  assert (Hblk : heap_blks (Ghost (<[c := new ++ l]> (gh_free g)) (gh_live g)) ≡ₚ class_blks c new ++ heap_blks g).
  { unfold heap_blks. cbn [gh_free gh_live]. by rewrite (free_blks_app 0 c _ l), app_assoc. }
  assert (Hnew : forall b, b ∈ class_blks c new -> addr <= fst b /\ fst b + snd b <= addr + 4096 /\ 32 <= snd b /\ fst b mod 32 = 0).
  { intros b (x & -> & Hx)%list_elem_of_fmap. pose proof (cut_aligned n addr (class_size c) x) as Hal. specialize (Hal ltac:(cdiv) (class_size_aligned c Hc) Hx).
    apply cut_inside in Hx; [|lia]. cbn [fst snd]. lia. }
  pose proof (ho_free_length _ _ Hok) as Hlen. destruct Hok as [H1 H2 H3 H4 H5 H6 H7 H8 H9]. apply undisturbed_heap in Hund as [Hu1 Hu2].
  split; cbn [set_memory set_small free_ranges free_page_count small_free kmem_memory heap gh_free gh_live];
    [by eapply kmem_ok_same; [| |exact H1]|by rewrite length_insert| | | | |by eapply live_same|done|done].
  - apply Forall2_insert; [|done]. eapply (chains_same _ _ 0); [lia|done|done].
  - rewrite Hblk. apply pairwise_app. split; [apply cut_apart; lia|split; [done|]].
    apply Forall_elem. intros b Hb. apply Forall_elem. intros b' Hb'. specialize (Hnew b Hb). specialize (A3 b' Hb').
    unfold apart in *. cbn [fst snd] in A3. lia.
  - rewrite Hblk. apply Forall_app. split; [|done]. apply Forall_elem. intros b Hb. specialize (Hnew b Hb). unfold blk_ok. lia.
  - intros b a. rewrite Hblk, elem_of_app. intros [Hb|Hb] Hin; [|by eapply H6].
    apply A4. specialize (Hnew b Hb). unfold in_blk in *. cbn [fst snd]. lia.
Qed.

(** Memory only moves between the page allocator and the heap. *)
Definition same_space (k : kmem) (g : ghost) (k' : kmem) (g' : ghost) : Prop := forall a, space k' g' a <-> space k g a.

(** What [populate_class] does to the list [l] of its class. *)
Record populated (c : nat) (l : list Z) (k : kmem) (g : ghost) (k' : kmem) (new : list Z) : Prop := {
  pp_ok : heap_ok k' (Ghost (<[c := new ++ l]> (gh_free g)) (gh_live g));
  pp_live : undisturbed (kmem_memory k) (kmem_memory k') (live_blks (gh_live g));
  pp_space : same_space k g k' (Ghost (<[c := new ++ l]> (gh_free g)) (gh_live g));
  pp_heap : heap k' = heap k;
  pp_none : new = [] -> free_ranges k = [] /\ free_ranges k' = [] /\ kmem_memory k' = kmem_memory k /\
                        allocation_failures k' = u64 (allocation_failures k + 1);
  pp_some : new <> [] -> allocation_failures k' = allocation_failures k
}.

Lemma populate_class_ok c l k g : heap_ok k g -> (c < 8)%nat -> gh_free g !! c = Some l ->
  exists new, populated c l k g (populate_class c k) new.
Proof.
  intros Hok Hc Hl. unfold populate_class. destruct (page_alloc 1 k) as [addr k1] eqn:E. destruct (Z.eqb_spec addr 0) as [->|Ha].
  - exists []. pose proof (page_alloc_frame 1 k) as Hf. rewrite E in Hf. cbn [fst snd] in Hf. destruct Hf as (F1 & F2 & _ & _).
    destruct (page_alloc_none 1 k k1 (ho_pages _ _ Hok)) as (N1 & N2 & N3 & N4 & N5 & N6); [cint|lia|done|].
    assert (Hg : Ghost (<[c := [] ++ l]> (gh_free g)) (gh_live g) = g) by (cbn; rewrite list_insert_id by done; by destruct g).
    assert (Hnil : free_ranges k = []).
    { destruct (free_ranges k) as [|r rs] eqn:Er; [done|]. exfalso. pose proof (ko_ranges _ (ho_pages _ _ Hok)) as Hr.
      rewrite Er in Hr. apply Forall_cons_1 in Hr as [Hr _]. pose proof (rk_pages _ Hr). assert (pr_pages r < 1) by (apply N6, elem_of_cons; by left). lia. }
    split; rewrite ?Hg; [| | |done| |done].
    + eapply heap_ok_memory; [exact Hok|done|done|done|congruence|congruence|]. rewrite N2. apply Forall_elem. by intros b _ x.
    + rewrite N2. apply Forall_elem. by intros b _ x.
    + intros a. unfold space, free. by rewrite N1.
    + intros _. split; [done|split; [congruence|done]].
  - destruct (heap_page_alloc 1 k g addr k1 Hok) as (K & A1 & A2 & A3 & A4 & A5 & A6 & A7 & A8 & A9 & A10); [cint|lia|done|done|].
    change (1 * 4096) with 4096 in *. destruct (heap_list k1 g c K Hc) as (l' & L1 & L2 & L3 & L4). rewrite Hl in L1. injection L1 as <-.
    destruct (populate_loop _ _ _ _ _ _) as [head m] eqn:Ep.
    destruct (heap_ok_cut k1 g c l addr head m K Hc Hl L2 L3 L4 A1 A2 A3 A4) as (n & Hn0 & Hnd & Hoff & Hok'); [|done|].
    { intros a Ha' [_ Hn]%A6. done. }
    pose proof (class_size_ok c Hc) as Hcs. exists (cut n addr (class_size c)). split; [done| | | | |].
    + apply undisturbed_heap in A7 as [_ A7]. cbn [kmem_memory set_memory]. unfold undisturbed in *. rewrite Forall_elem in *.
      intros b Hb x Hx. rewrite <- (A7 b Hb x Hx). apply Hoff. specialize (A4 b). unfold apart in A4. cbn [fst snd] in A4.
      pose proof (live_sub g) as Hs. rewrite Forall_elem in Hs. specialize (A4 (Hs b Hb)). lia.
    + intros a. unfold space. change (free (set_memory m (set_small (<[c:=head]> (small_free k1)) k1)) a) with (free k1 a). rewrite A6. unfold heap_blks. cbn [gh_free gh_live].
      setoid_rewrite (free_blks_app 0 c _ l _ Hl). setoid_rewrite <- app_assoc. setoid_rewrite elem_of_app at 1. split.
      * intros [[Hf _]|(b & [Hb|Hb] & Hin)]; [by left| |by right; exists b]. left. apply A5.
        apply list_elem_of_fmap in Hb as (x & -> & Hx). apply cut_inside in Hx; [|lia]. unfold in_blk in *. change (0 + c)%nat with c in *. cbn [fst snd] in *. lia.
      * intros [Hf|(b & Hb & Hin)]; [|right; exists b; auto]. destruct (decide (addr <= a < addr + 4096)) as [Hin|Hout]; [|by left].
        right. destruct (cut_covers n addr (class_size c) a) as (x & Hx & Hax); [lia|lia|]. exists (x, class_size c).
        split; [left; apply list_elem_of_fmap; by exists x|done].
    + done.
    + intros Hnil. exfalso. destruct n as [|n]; [lia|]. cbn [cut] in Hnil. by apply app_eq_nil in Hnil as [_ ?].
    + done.
Qed.

(** ** Allocation *)

(** The number and the bytes of blocks in use fit their counters. *)
Lemma live_bound g : pairwise apart (heap_blks g) -> Forall blk_ok (heap_blks g) ->
  32 * Z.of_nat (length (gh_live g)) <= total_len (live_blks (gh_live g)) < 18446744073709551616.
Proof.
  intros Hp Hb. unfold heap_blks in *. apply pairwise_app in Hp as (_ & Hp & _). apply Forall_app in Hb as [_ Hb].
  split.
  - clear Hp. unfold live_blks in *. induction (gh_live g) as [|a l IH]; [cbn; lia|].
    cbn [map length] in *. apply Forall_cons_1 in Hb as [(_ & Hb & _) Hl]. specialize (IH Hl).
    change (total_len (al_blk a :: map al_blk l)) with (al_len a + total_len (map al_blk l)). cbn [al_blk snd] in Hb. lia.
  - destruct (total_len_bound (length (live_blks (gh_live g))) (live_blks (gh_live g)) 1 18446744073709551616) as [_ ?]; [lia|lia|done| |lia].
    eapply list.Forall_impl; [exact Hb|]. intros b (B1 & B2 & B3 & _). lia.
Qed.

Definition faults (h : heap_counters) : Z * Z * Z := (invalid_frees h, double_frees h, guard_failures h).

Lemma note_alloc_ok n h live : live_allocations h = live -> 0 <= live < 18446744073709551615 -> 0 <= n -> 0 <= heap_used_bytes h ->
  heap_used_bytes h + n < 18446744073709551616 ->
  live_allocations (kmalloc_note_alloc n h) = live + 1 /\ heap_used_bytes (kmalloc_note_alloc n h) = heap_used_bytes h + n /\
  faults (kmalloc_note_alloc n h) = faults h.
Proof. intros <- Hl Hn H0 Hb. unfold kmalloc_note_alloc. cbn [live_allocations heap_used_bytes]. rewrite !u64_small by cint. done. Qed.

Lemma note_free_ok n h live : live_allocations h = live -> 0 < live -> n <= heap_used_bytes h ->
  live_allocations (kmalloc_note_free n h) = live - 1 /\ heap_used_bytes (kmalloc_note_free n h) = heap_used_bytes h - n /\
  faults (kmalloc_note_free n h) = faults h.
Proof.
  intros <- Hl Hn. unfold kmalloc_note_free. cbn [live_allocations heap_used_bytes].
  rewrite (proj2 (Z.leb_le _ _)), (proj2 (Z.ltb_lt _ _)) by lia. done.
Qed.

(** A new block in use, from memory the invariant accounts for. *)
Lemma heap_ok_alloc k g k' fl al : heap_ok k g -> heap_blks (Ghost fl (al :: gh_live g)) ≡ₚ al_blk al :: free_blks 0 fl ++ live_blks (gh_live g) ->
  kmem_ok k' -> length (small_free k') = 8%nat -> length fl = 8%nat ->
  Forall2 (chain (kmem_memory k)) (small_free k') fl ->
  pairwise apart (al_blk al :: free_blks 0 fl ++ live_blks (gh_live g)) ->
  Forall blk_ok (al_blk al :: free_blks 0 fl ++ live_blks (gh_live g)) ->
  (forall b a, b ∈ al_blk al :: free_blks 0 fl ++ live_blks (gh_live g) -> in_blk b a -> ~ free k' a) ->
  same_off (al_hdr al) (al_len al) (kmem_memory k) (kmem_memory k') -> alloc_wf al -> hdr_ok (kmem_memory k') al ->
  heap k' = kmalloc_note_alloc (al_len al) (heap k) ->
  heap_ok k' (Ghost fl (al :: gh_live g)) /\ undisturbed (kmem_memory k) (kmem_memory k') (live_blks (gh_live g)) /\
  faults (heap k') = faults (heap k).
Proof.
  intros Hok Hperm K1 K2 K3 K4 K5 K6 K7 K8 K9 K10 K11.
  pose proof (live_bound (Ghost fl (al :: gh_live g))) as Hb. rewrite Hperm in Hb.
  specialize (Hb K5 K6). cbn [gh_live length] in Hb.
  change (total_len (live_blks (al :: gh_live g))) with (al_len al + total_len (live_blks (gh_live g))) in Hb.
  destruct (live_bound g (ho_apart _ _ Hok) (ho_blks _ _ Hok)) as [Hb0 _]. assert (32 <= al_len al) by (apply Forall_cons_1 in K6 as [(_ & ? & _) _]; done).
  destruct (note_alloc_ok (al_len al) (heap k) _ (ho_count _ _ Hok)) as (N1 & N2 & N3);
    [lia|lia|rewrite (ho_bytes _ _ Hok); lia|rewrite (ho_bytes _ _ Hok); lia|].
  assert (Hu : undisturbed (kmem_memory k) (kmem_memory k') (free_blks 0 fl ++ live_blks (gh_live g)))
    by (apply (undisturbed_off (al_blk al)); [done|by destruct K5]).
  apply undisturbed_app in Hu as [Hu1 Hu2]. split; [|split; [done|by rewrite K11]].
  split; cbn [gh_free gh_live]; [done|done| | | | | | |].
  - eapply (chains_same _ _ 0); [lia|done|done].
  - by rewrite Hperm.
  - by rewrite Hperm.
  - intros b a. rewrite Hperm. apply K7.
  - constructor; [done|]. eapply live_same; [done|]. apply (ho_live _ _ Hok).
  - rewrite K11, N1. cbn [length]. lia.
  - rewrite K11, N2, (ho_bytes _ _ Hok). change (total_len (live_blks (al :: gh_live g))) with (al_len al + total_len (live_blks (gh_live g))). lia.
Qed.
