(* ===== verification/HeapAlloc.v ===== *)
(** What kmalloc, kzalloc, kfree, kmalloc_size and kmem_get_stats do to a heap
    that satisfies the invariant of HeapSpec.v, on every branch. *)
From Stdlib Require Import ZArith Lia.
From stdpp Require Import base tactics option list numbers.
From S2P Require Import Prelude.
From S2P Require Import Memory.
From S2P Require Import Dma.
From S2P Require Import Kmem.
From S2P Require Import KmemSpec.
From S2P Require Import Heap.
From S2P Require Import HeapSpec.
#[local] Open Scope Z_scope.

(** ** kmalloc *)

(** When a request is refused: it is empty or too large, or no memory is left
    that could serve it. *)
Definition refused (size : Z) (k : kmem) (g : ghost) : Prop :=
  size = 0 \/
  match class_for_size size with
  | Some c => gh_free g !! c = Some [] /\ free_ranges k = []
  | None => 0xffff < pages_for size \/ forall r, r ∈ free_ranges k -> pr_pages r < pages_for size
  end.

(** The byte a new block is filled with. *)
Definition fresh_byte (size : Z) : Z := match class_for_size size with Some _ => 0xA5 | None => 0 end.

(** What [kmalloc] may answer. *)
Definition kmalloc_outcome (byte size : Z) (k : kmem) (g : ghost) (res : Z * kmem) : Prop :=
  let '(p, k') := res in
  exists g', heap_ok k' g' /\ same_space k g k' g' /\
    undisturbed (kmem_memory k) (kmem_memory k') (live_blks (gh_live g)) /\ faults (heap k') = faults (heap k) /\
    if decide (p = 0) then g' = g /\ kmem_memory k' = kmem_memory k /\ heap k' = heap k /\ refused size k g
    else exists al, gh_live g' = al :: gh_live g /\ al_ptr al = p /\ al_size al = size /\ al_class al = class_for_size size /\
           (forall x, p <= x < p + size -> kmem_memory k' x = byte) /\ allocation_failures k' = allocation_failures k.

Lemma undisturbed_refl m bs : undisturbed m m bs.
Proof. apply Forall_elem. by intros b _ x. Qed.

Lemma undisturbed_trans m1 m2 m3 bs : undisturbed m1 m2 bs -> undisturbed m2 m3 bs -> undisturbed m1 m3 bs.
Proof. unfold undisturbed. rewrite !Forall_elem. intros H1 H2 b Hb x Hx. rewrite (H2 b Hb x Hx). by apply (H1 b Hb). Qed.

Lemma same_space_refl k g : same_space k g k g.
Proof. by intros a. Qed.

Lemma same_space_trans k1 g1 k2 g2 k3 g3 : same_space k1 g1 k2 g2 -> same_space k2 g2 k3 g3 -> same_space k1 g1 k3 g3.
Proof. intros H1 H2 a. rewrite (H2 a). apply H1. Qed.

(** Taking the first block of a list: the part of [kmalloc_small] behind the
    choice of the block. *)
Definition take_block (c : nat) (size block : Z) (k : kmem) : kmem :=
  let k := set_small (<[c := load 8 (kmem_memory k) block]> (small_free k)) k in
  set_heap (kmalloc_note_alloc (class_size c) (heap k))
    (set_memory (fill (write_header (kmem_memory k) block size (class_size c) (Z.of_nat c) 0) (block + HEADER_SIZE) size 0xA5) k).

Lemma take_block_ok c size x l k g : heap_ok k g -> (c < 8)%nat -> gh_free g !! c = Some (x :: l) -> 0 < size -> size + 28 <= class_size c ->
  let k' := take_block c size x k in
  let g' := Ghost (<[c := l]> (gh_free g)) (Alloc x size (Some c) :: gh_live g) in
  heap_ok k' g' /\ same_space k g k' g' /\ undisturbed (kmem_memory k) (kmem_memory k') (live_blks (gh_live g)) /\
  faults (heap k') = faults (heap k) /\ (forall y, x + 24 <= y < x + 24 + size -> kmem_memory k' y = 0xA5).
Proof.
  intros Hok Hc Hl Hs1 Hs2 k' g'. set (al := Alloc x size (Some c)). pose proof (class_size_ok c Hc) as Hcs.
  pose proof (ho_free_length _ _ Hok) as Hlen. destruct (heap_list k g c Hok Hc) as (l0 & L1 & L2 & L3 & _). rewrite Hl in L1. injection L1 as <-.
  destruct L3 as (Hx & Hx0 & Hch).
  assert (Hpf : al_blk al :: free_blks 0 (<[c := l]> (gh_free g)) ≡ₚ free_blks 0 (gh_free g)).
  { rewrite <- (list_insert_id (gh_free g) c (x :: l)) at 2 by done. rewrite <- (list_insert_insert_eq (gh_free g) c (x :: l) l).
    rewrite (free_blks_insert 0 c _ l x); [done|]. apply list_lookup_insert_eq. lia. }
  assert (Hperm : al_blk al :: free_blks 0 (<[c := l]> (gh_free g)) ++ live_blks (gh_live g) ≡ₚ heap_blks g)
    by (unfold heap_blks; rewrite <- Hpf; done).
  assert (Hperm' : heap_blks g' ≡ₚ al_blk al :: free_blks 0 (<[c := l]> (gh_free g)) ++ live_blks (gh_live g))
    by (unfold heap_blks, g'; cbn [gh_free gh_live live_blks map]; symmetry; apply Permutation_middle).
  assert (Hwf : alloc_wf al) by (unfold alloc_wf, al_len; cbn; lia).
  destruct (write_header_ok (kmem_memory k) al Hwf) as (W1 & W2 & W3); [cbn; lia|]. cbn [al_hdr al_size al_len al_class al] in W1, W2.
  set (m1 := write_header (kmem_memory k) x size (class_size c) (Z.of_nat c) 0) in *.
  assert (Hh : hdr_ok (kmem_memory k') al).
  { destruct W1 as [V1 V2 V3 V4 V5 V6]. unfold hdr_magic, hdr_bytes, hdr_allocated, hdr_class, hdr_pages, al_ptr, HEADER_SIZE in *. cbn [al_hdr al_size al_class al] in *.
    split; unfold hdr_magic, hdr_bytes, hdr_allocated, hdr_class, hdr_pages, al_ptr, HEADER_SIZE; cbn [k' take_block set_heap set_memory kmem_memory set_small];
      fold m1; unfold HEADER_SIZE; cbn [al_hdr al_size al_class al]; rewrite load_fill_other by lia; done. }
  assert (Hoff : same_off x (class_size c) (kmem_memory k) (kmem_memory k')).
  { cbn [k' take_block set_heap set_memory kmem_memory set_small]. apply (same_off_trans _ _ _ m1).
    - eapply same_off_sub; [exact W2|lia|lia].
    - eapply same_off_sub; [apply fill_off|unfold HEADER_SIZE; lia|unfold HEADER_SIZE; lia]. }
  destruct (heap_ok_alloc k g k' (<[c := l]> (gh_free g)) al Hok Hperm') as (R1 & R2 & R3); try done.
  - eapply kmem_ok_same; [| |apply (ho_pages _ _ Hok)]; done.
  - cbn. by rewrite length_insert, (ho_classes _ _ Hok).
  - by rewrite length_insert.
  - cbn [k' take_block set_heap set_memory small_free set_small]. apply Forall2_insert; [apply (ho_chains _ _ Hok)|done].
  - rewrite Hperm. apply (ho_apart _ _ Hok).
  - rewrite Hperm. apply (ho_blks _ _ Hok).
  - intros b a. rewrite Hperm. apply (ho_used _ _ Hok).
  - split; [done|split; [|split; [done|split; [done|]]]].
    + intros a. unfold space. change (free k' a) with (free k a). by setoid_rewrite Hperm'; setoid_rewrite Hperm.
    + intros y Hy. cbn [k' take_block set_heap set_memory kmem_memory set_small]. unfold fill, HEADER_SIZE.
      by rewrite (proj2 (Z.leb_le _ _)), (proj2 (Z.ltb_lt _ _)) by lia.
Qed.

Lemma class_for_size_some size c : is_u32 size -> class_for_size size = Some c -> (c < 8)%nat /\ size + 28 <= class_size c.
Proof.
  intros Hs E. pose proof (class_for_size_ok size Hs) as Hc. rewrite E in Hc. destruct Hc as (b & Hb & Hle & _).
  unfold class_size, KMALLOC_OVERHEAD in *. rewrite Hb. split; [by apply lookup_lt_Some in Hb|done].
Qed.

(** The choice of the block in [kmalloc_small]. *)
Lemma kmalloc_small_eq c size k : let k1 := if small_head k c =? 0 then populate_class c k else k in
  kmalloc_small c size k = if small_head k1 c =? 0 then (0, count_failure k1) else (small_head k1 c + HEADER_SIZE, take_block c size (small_head k1 c) k1).
Proof. done. Qed.

Lemma heap_ok_count_failure k g : heap_ok k g -> heap_ok (count_failure k) g.
Proof. intros Hok. eapply heap_ok_memory; [exact Hok|done|done|done|done|done|apply undisturbed_refl]. Qed.

Lemma ghost_insert_id g c l : gh_free g !! c = Some l -> Ghost (<[c := l]> (gh_free g)) (gh_live g) = g.
Proof. intros Hl. rewrite list_insert_id by done. by destruct g. Qed.

(** The list of the class after an empty one has been filled. *)
Lemma refill_ok c k g : heap_ok k g -> (c < 8)%nat -> let k1 := if small_head k c =? 0 then populate_class c k else k in
  exists l, let g1 := Ghost (<[c := l]> (gh_free g)) (gh_live g) in
  heap_ok k1 g1 /\ same_space k g k1 g1 /\ undisturbed (kmem_memory k) (kmem_memory k1) (live_blks (gh_live g)) /\ heap k1 = heap k /\
  (l = [] -> g1 = g /\ gh_free g !! c = Some [] /\ free_ranges k = [] /\ kmem_memory k1 = kmem_memory k) /\
  (l <> [] -> allocation_failures k1 = allocation_failures k).
Proof.
  intros Hok Hc. destruct (heap_list k g c Hok Hc) as (l & L1 & L2 & L3 & L4). cbn zeta.
  destruct (Z.eqb_spec (small_head k c) 0) as [E|E].
  - destruct l as [|x l]; [|destruct L3 as (? & ? & _); congruence].
    destruct (populate_class_ok c [] k g Hok Hc L1) as [new [P1 P2 P3 P4 P5 P6]]. rewrite app_nil_r in P1, P3. exists new.
    split_and!; try done. intros ->. destruct (P5 eq_refl) as (Q1 & Q2 & Q3 & Q4). split_and!; try done. by apply ghost_insert_id.
  - exists l. rewrite (ghost_insert_id g c l L1). split_and!; try (done || apply undisturbed_refl || apply same_space_refl).
    intros ->. by cbn in L3.
Qed.

Lemma kmalloc_small_ok c size k g : heap_ok k g -> is_u32 size -> 0 < size -> class_for_size size = Some c ->
  kmalloc_outcome 0xA5 size k g (kmalloc_small c size k).
Proof.
  intros Hok Hs Hs0 Hcls. destruct (class_for_size_some size c Hs Hcls) as [Hc Hsz]. rewrite kmalloc_small_eq. cbn zeta.
  destruct (refill_ok c k g Hok Hc) as (l & H1 & H2 & H3 & H4 & H5 & H6). set (k1 := if small_head k c =? 0 then _ else _) in *.
  assert (L1 : gh_free (Ghost (<[c := l]> (gh_free g)) (gh_live g)) !! c = Some l).
  { apply list_lookup_insert_eq. rewrite (ho_free_length _ _ Hok). done. }
  destruct (heap_list k1 _ c H1 Hc) as (l' & L1' & _ & L3 & _). rewrite L1 in L1'. injection L1' as <-.
  destruct l as [|x l].
  - destruct (H5 eq_refl) as (Q1 & Q2 & Q3 & Q4). rewrite Q1 in H1, H2. cbn [chain] in L3. rewrite L3. cbn [Z.eqb]. exists g.
    split; [by apply heap_ok_count_failure|]. split; [exact H2|]. split; [done|]. split; [by cbn; rewrite H4|].
    rewrite decide_True by done. split; [done|]. split; [done|]. split; [done|]. right. rewrite Hcls. done.
  - destruct L3 as (L3 & L4 & _). rewrite L3. destruct (Z.eqb_spec x 0); [done|].
    destruct (take_block_ok c size x l k1 _ H1 Hc L1 Hs0 Hsz) as (T1 & T2 & T3 & T4 & T5). cbn [gh_free gh_live] in *.
    eexists. split; [exact T1|]. split; [by eapply same_space_trans|]. split; [by eapply undisturbed_trans|]. split; [congruence|].
    assert (0 < x). { pose proof (ho_blks _ _ T1) as Hb. unfold heap_blks in Hb. cbn [gh_live live_blks map] in Hb.
      apply Forall_app in Hb as [_ Hb]. by apply Forall_cons_1 in Hb as [(? & _) _]. }
    unfold HEADER_SIZE. rewrite decide_False by lia. eexists. split; [reflexivity|]. cbn [al_size al_class]. split; [done|]. split; [done|].
    split; [done|]. split; [done|]. by apply H6.
Qed.

Lemma pages_for_ok size : 0 < size -> 0 < pages_for size /\ size + 28 <= pages_for size * 4096 < size + 28 + 4096.
Proof. intros Hs. unfold pages_for. Z.div_mod_to_equations. lia. Qed.

Lemma refused_large k g size k' : heap_ok k g -> heap_ok k' g -> free_ranges k' = free_ranges k -> kmem_memory k' = kmem_memory k -> heap k' = heap k ->
  refused size k g -> kmalloc_outcome 0 size k g (0, k').
Proof.
  intros Hok Hok' E1 E2 E3 Hr. exists g. rewrite E2, E3. split; [done|]. split; [intros a; unfold space, free; by rewrite E1|].
  split; [apply undisturbed_refl|]. split; [done|]. by rewrite decide_True.
Qed.

Lemma kmalloc_large_ok size k g : heap_ok k g -> is_u32 size -> 0 < size -> class_for_size size = None ->
  kmalloc_outcome 0 size k g (kmalloc_large size k).
Proof.
  intros Hok Hs Hs0 Hcls. destruct (pages_for_ok size Hs0) as [P1 P2]. unfold kmalloc_large, KMALLOC_OVERHEAD, KMEM_PAGE_SIZE.
  assert (Hrf : 0xffff < pages_for size -> kmalloc_outcome 0 size k g (0, count_failure k)).
  { intros Hp. eapply refused_large; [done|by apply heap_ok_count_failure|done|done|done|]. right. rewrite Hcls. by left. }
  destruct (Z.ltb_spec (4294967295 - 28 - (4096 - 1)) size) as [Hbig|Hsmall].
  { apply Hrf. cint. }
  rewrite u32_small by cint. replace (size + 28 + 4096 - 1) with (size + 28 + 4095) by lia. change ((size + 28 + 4095) / 4096) with (pages_for size).
  destruct (Z.ltb_spec 65535 (pages_for size)) as [Hp|Hp]; [by apply Hrf|]. clear Hrf.
  destruct (page_alloc (pages_for size) k) as [addr k1] eqn:E. pose proof (page_alloc_frame (pages_for size) k) as Hf. rewrite E in Hf. cbn [fst snd] in Hf.
  destruct Hf as (F1 & F2 & _ & _). destruct (Z.eqb_spec addr 0) as [->|Ha].
  { destruct (page_alloc_none (pages_for size) k k1 (ho_pages _ _ Hok)) as (N1 & N2 & N3 & N4 & N5 & N6); [cint|lia|done|].
    apply refused_large; [done| |done|done|done|right; rewrite Hcls; by right].
    eapply heap_ok_memory; [exact Hok|done|done|done|congruence|congruence|rewrite N2; apply undisturbed_refl]. }
  destruct (heap_page_alloc (pages_for size) k g addr k1 Hok) as (K & A1 & A2 & A3 & A4 & A5 & A6 & A7 & A8 & A9 & A10); [cint|lia|done|done|].
  set (al := Alloc addr size None). rewrite u32_small, u64_small by cint.
  assert (Hwf : alloc_wf al) by (unfold alloc_wf, al_len, al; cbn [al_class al_size al_hdr]; lia).
  destruct (write_header_ok (kmem_memory k1) al Hwf) as (W1 & W2 & W3); [cbn; lia|]. cbn [al_hdr al_size al_len al_class al] in W1, W2.
  set (k2 := set_heap _ _).
  assert (Hperm : heap_blks (Ghost (gh_free g) (al :: gh_live g)) ≡ₚ al_blk al :: heap_blks g) by (symmetry; apply Permutation_middle).
  destruct (heap_ok_alloc k1 g k2 (gh_free g) al K Hperm) as (R1 & R2 & R3); try done.
  - eapply kmem_ok_same; [| |apply (ho_pages _ _ K)]; done.
  - apply (ho_classes _ _ K).
  - apply (ho_free_length _ _ Hok).
  - apply (ho_chains _ _ K).
  - split; [exact A4|apply (ho_apart _ _ K)].
  - constructor; [unfold blk_ok, al_blk, al_len, al; cbn [fst snd al_hdr al_class al_size]; split; [lia|split; [lia|split; [lia|cdiv]]]|apply (ho_blks _ _ K)].
  - intros b a. rewrite elem_of_cons. intros [->|Hb] Hin; [|by apply (ho_used _ _ K b)]. change (free k2 a) with (free k1 a). intros [_ Hn]%A6. done.
  - cbn [k2 set_heap set_memory kmem_memory]. eapply same_off_sub; [exact W2|unfold al; cbn [al_hdr]; lia|unfold al_len, al; cbn [al_class al_size al_hdr]; lia].
  - eexists. split; [exact R1|]. split; [|split; [|split; [congruence|]]].
    + intros a. unfold space. change (free k2 a) with (free k1 a). setoid_rewrite A6. setoid_rewrite Hperm. setoid_rewrite elem_of_cons. split.
      * intros [[? _]|(b & [->|Hb] & Hin)]; [by left|left; by apply A5|right; by exists b].
      * intros [Hfr|(b & Hb & Hin)]; [|right; exists b; auto].
        destruct (decide (addr <= a < addr + pages_for size * 4096)) as [Hin|Hout]; [right; exists (al_blk al); auto|by left].
    + apply undisturbed_heap in A7 as [_ A7]. by eapply undisturbed_trans.
    + rewrite decide_False by (unfold HEADER_SIZE; lia). exists al. do 4 (split; [done|]). split; [|done].
      unfold HEADER_SIZE. intros x Hx. cbn [k2 set_heap set_memory kmem_memory]. etrans; [exact (W3 x Hx)|].
      apply A5. unfold in_blk. cbn [fst snd]. lia.
Qed.

Lemma kmalloc_ok size k g : heap_ok k g -> is_u32 size -> kmalloc_outcome (fresh_byte size) size k g (kmalloc size k).
Proof.
  intros Hok Hs. unfold kmalloc. destruct (Z.eqb_spec size 0) as [->|Hs0].
  - exists g. split; [done|]. split; [apply same_space_refl|]. split; [apply undisturbed_refl|]. split; [done|].
    rewrite decide_True by done. repeat (split; [done|]). by left.
  - unfold fresh_byte. destruct (class_for_size size) as [c|] eqn:E; [apply kmalloc_small_ok|apply kmalloc_large_ok]; try done; cint.
Qed.

(** Writing inside the bytes of a block in use. *)
Lemma heap_ok_write k g al m : heap_ok k g -> al ∈ gh_live g -> same_off (al_ptr al) (al_size al) (kmem_memory k) m -> heap_ok (set_memory m k) g.
Proof.
  intros Hok Hal Hm. pose proof (ho_free_length _ _ Hok) as Hlen. destruct Hok as [H1 H2 H3 H4 H5 H6 H7 H8 H9].
  apply list_elem_of_split in Hal as (l1 & l2 & El).
  assert (Hperm : heap_blks g ≡ₚ al_blk al :: free_blks 0 (gh_free g) ++ live_blks (l1 ++ l2)).
  { unfold heap_blks. rewrite El. unfold live_blks. rewrite !map_app. cbn [map]. rewrite !app_assoc. symmetry. apply Permutation_middle. }
  rewrite Hperm in H4. destruct H4 as [H4 H4']. rewrite El in H7. pose proof H7 as H7'. apply Forall_app in H7' as [_ [[Hw Hh] _]%Forall_cons_1].
  pose proof Hw as (W1 & W2 & _). unfold al_ptr, HEADER_SIZE in Hm.
  assert (Hu : undisturbed (kmem_memory k) m (free_blks 0 (gh_free g) ++ live_blks (l1 ++ l2))).
  { apply (undisturbed_off (al_blk al)); [|done]. cbn [al_blk fst snd]. eapply same_off_sub; [exact Hm|lia|lia]. }
  apply undisturbed_app in Hu as [Hu1 Hu2].
  split; cbn [set_memory free_ranges small_free kmem_memory heap]; [by eapply kmem_ok_same; [| |exact H1]|done| |by rewrite Hperm|done|done| |done|done].
  - eapply (chains_same _ _ 0); [lia|done|done].
  - assert (Hl : Forall (fun a => alloc_wf a /\ hdr_ok m a) (l1 ++ l2)).
    { eapply live_same; [done|]. apply Forall_app in H7 as [? [_ ?]%Forall_cons_1]. by apply Forall_app. }
    apply Forall_app in Hl as [Hl1 Hl2]. rewrite El. apply Forall_app. split; [done|]. constructor; [|done]. split; [done|].
    destruct Hh as [V1 V2 V3 V4 V5 V6]. unfold hdr_magic, hdr_bytes, hdr_allocated, hdr_class, hdr_pages, al_ptr, HEADER_SIZE in *.
    split; unfold hdr_magic, hdr_bytes, hdr_allocated, hdr_class, hdr_pages, al_ptr, HEADER_SIZE;
      (etrans; [|eassumption]); apply load_ext; (eapply off_on; [exact Hm|lia]).
Qed.

Lemma kzalloc_ok size k g : heap_ok k g -> is_u32 size -> kmalloc_outcome 0 size k g (kzalloc size k).
Proof.
  intros Hok Hs. unfold kzalloc. pose proof (kmalloc_ok size k g Hok Hs) as Ho. destruct (kmalloc size k) as [p k1].
  destruct Ho as (g' & H1 & H2 & H3 & H4 & H5). destruct (Z.eqb_spec p 0) as [->|Hp]; [by exists g'|].
  rewrite decide_False in H5 by done. destruct H5 as (al & A1 & A2 & A3 & A4 & A5 & A6). exists g'.
  assert (Hoff : same_off (al_ptr al) (al_size al) (kmem_memory k1) (fill (kmem_memory k1) p size 0)) by (rewrite A2, A3; apply fill_off).
  split; [eapply heap_ok_write; [done| |exact Hoff]; rewrite A1; apply elem_of_cons; by left|].
  split; [done|]. split; [|split; [done|]].
  - eapply undisturbed_trans; [exact H3|]. cbn [set_memory kmem_memory]. apply (undisturbed_off (al_blk al)).
    + pose proof (ho_live _ _ H1) as Hl. rewrite A1 in Hl. apply Forall_cons_1 in Hl as [[(W1 & W2 & _) _] _].
      cbn [al_blk fst snd]. unfold al_ptr, HEADER_SIZE in Hoff. eapply same_off_sub; [exact Hoff|lia|lia].
    + pose proof (ho_apart _ _ H1) as Hap. unfold heap_blks in Hap. apply pairwise_app in Hap as (_ & Hap & _). rewrite A1 in Hap. by destruct Hap.
  - rewrite decide_False by done. exists al. do 4 (split; [done|]). split; [|done]. intros x Hx. cbn [set_memory kmem_memory]. unfold fill.
    by rewrite (proj2 (Z.leb_le _ _)), (proj2 (Z.ltb_lt _ _)) by lia.
Qed.

(** ** kfree *)

Lemma live_split_perm g l1 al l2 : gh_live g = l1 ++ al :: l2 -> heap_blks g ≡ₚ al_blk al :: free_blks 0 (gh_free g) ++ live_blks (l1 ++ l2).
Proof.
  intros El. unfold heap_blks. rewrite El. unfold live_blks. rewrite !map_app. cbn [map]. rewrite !app_assoc. symmetry. apply Permutation_middle.
Qed.

Lemma total_len_nonneg bs : Forall blk_ok bs -> 0 <= total_len bs.
Proof.
  induction 1 as [|b bs (_ & Hb & _) _ IH]; [done|]. change (total_len (b :: bs)) with (snd b + total_len bs). lia.
Qed.

(** What releasing a block does to the counters. *)
Lemma note_free_live k g l1 al l2 : heap_ok k g -> gh_live g = l1 ++ al :: l2 ->
  let h := kmalloc_note_free (al_len al) (heap k) in
  live_allocations h = Z.of_nat (length (l1 ++ l2)) /\ heap_used_bytes h = total_len (live_blks (l1 ++ l2)) /\ faults h = faults (heap k).
Proof.
  intros Hok El h. assert (Ht : total_len (live_blks (gh_live g)) = al_len al + total_len (live_blks (l1 ++ l2))).
  { rewrite El. unfold live_blks. rewrite !map_app. cbn [map]. rewrite !total_len_app.
    change (total_len (al_blk al :: map al_blk l2)) with (al_len al + total_len (map al_blk l2)). lia. }
  assert (Hn : 0 <= total_len (live_blks (l1 ++ l2))).
  { pose proof (ho_blks _ _ Hok) as Hb. rewrite (live_split_perm _ _ _ _ El) in Hb. apply Forall_cons_1 in Hb as [_ Hb]. apply Forall_app in Hb as [_ Hb].
    by apply total_len_nonneg. }
  destruct (note_free_ok (al_len al) (heap k) _ (ho_count _ _ Hok)) as (N1 & N2 & N3); [rewrite El, length_app; cbn [length]; lia|rewrite (ho_bytes _ _ Hok); lia|].
  unfold h. rewrite N1, N2, (ho_bytes _ _ Hok), Ht, El, !length_app. cbn [length]. split; [lia|split; [lia|done]].
Qed.

(** The header of a block in use, as [kfree] finds it. *)
Lemma live_header k g al : heap_ok k g -> al ∈ gh_live g ->
  alloc_wf al /\ hdr_ok (kmem_memory k) al /\ 0 < al_hdr al /\ load 4 (kmem_memory k) (kmalloc_guard_for_header (kmem_memory k) (al_hdr al)) = KMEM_GUARD_MAGIC.
Proof.
  intros Hok Hal. pose proof (ho_live _ _ Hok) as Hl. rewrite Forall_elem in Hl. destruct (Hl al Hal) as [Hw Hh]. split; [done|]. split; [done|].
  pose proof (ho_blks _ _ Hok) as Hb. rewrite Forall_elem in Hb. pose proof (live_sub g) as Hs. rewrite Forall_elem in Hs.
  destruct (Hb (al_blk al)) as (B1 & _); [apply Hs, list_elem_of_fmap; by exists al|]. split; [done|].
  unfold kmalloc_guard_for_header. rewrite (hk_bytes _ _ Hh). apply (hk_guard _ _ Hh).
Qed.

Lemma kfree_small_ok k g l1 al l2 c l : heap_ok k g -> gh_live g = l1 ++ al :: l2 -> al_class al = Some c -> gh_free g !! c = Some l ->
  let k' := kfree_small (al_hdr al) k in
  let g' := Ghost (<[c := al_hdr al :: l]> (gh_free g)) (l1 ++ l2) in
  heap_ok k' g' /\ same_space k g k' g' /\ undisturbed (kmem_memory k) (kmem_memory k') (live_blks (l1 ++ l2)) /\
  faults (heap k') = faults (heap k) /\ load 8 (kmem_memory k') (al_hdr al) = small_head k c.
Proof.
  intros Hok El Hcls Hl k' g'. assert (Hal : al ∈ gh_live g) by (rewrite El, elem_of_app, elem_of_cons; auto).
  destruct (live_header k g al Hok Hal) as ((W1 & W2 & W3) & Hh & Hpos & _). rewrite Hcls in W3.
  pose proof (class_size_ok c W3) as Hcs. assert (Elen : al_len al = class_size c) by (unfold al_len; by rewrite Hcls). rewrite Elen in W2.
  destruct (heap_list k g c Hok W3) as (l0 & L1 & L2 & L3 & L4). rewrite Hl in L1. injection L1 as <-.
  pose proof (hk_class _ _ Hh) as Ecls. rewrite Hcls in Ecls. pose proof (hk_bytes _ _ Hh) as Eb.
  set (h := al_hdr al) in *. set (sz := al_size al) in *. set (m := kmem_memory k) in *.
  assert (Em : kmem_memory k' = store 8 (store 8 (fill (store 4 m (h + 24 + sz) 0) (h + 24) sz 0xDD) h KMEM_FREED_MAGIC) h (small_head k c) /\
               heap k' = kmalloc_note_free (al_len al) (heap k) /\ small_free k' = <[c := h]> (small_free k)).
  { unfold k', kfree_small. fold m h. rewrite Ecls, Nat2Z.id. unfold kmalloc_guard_for_header, HEADER_SIZE. rewrite Eb.
    assert (Eb' : hdr_bytes (store 4 m (h + 24 + sz) 0) h = sz) by (unfold hdr_bytes in *; by rewrite load_store_other by lia).
    rewrite Eb', Elen. done. }
  destruct Em as (Em & Eh & Es).
  assert (Hoff : same_off h (class_size c) m (kmem_memory k')).
  { rewrite Em. repeat (eapply same_off_trans; [|eapply same_off_sub; [apply store_off|lia|lia]]).
    eapply same_off_trans; [|eapply same_off_sub; [apply fill_off|lia|lia]]. eapply same_off_sub; [apply store_off|lia|lia]. }
  assert (Hperm := live_split_perm _ _ _ _ El). unfold al_blk in Hperm. rewrite Elen in Hperm. fold h in Hperm.
  assert (Hperm' : heap_blks g' ≡ₚ (h, class_size c) :: free_blks 0 (gh_free g) ++ live_blks (l1 ++ l2)).
  { unfold heap_blks, g'. cbn [gh_free gh_live]. by rewrite (free_blks_insert 0 c _ l h Hl). }
  pose proof (note_free_live k g l1 al l2 Hok El) as (N1 & N2 & N3). rewrite <- Eh in N1, N2, N3.
  pose proof (ho_apart _ _ Hok) as Hap. pose proof (ho_blks _ _ Hok) as Hbs. rewrite Hperm in Hap, Hbs.
  assert (Hu := undisturbed_off (h, class_size c) m (kmem_memory k') _ Hoff (proj1 Hap)). apply undisturbed_app in Hu as [Hu1 Hu2].
  assert (Hnext : load 8 (kmem_memory k') h = small_head k c).
  { rewrite Em. rewrite load_store_same; [done|]. change (256 ^ Z.of_nat 8) with 18446744073709551616. cint. }
  split; [|split; [|split; [done|split; [done|done]]]].
  - split; cbn [gh_free gh_live g'].
    + eapply kmem_ok_same; [| |apply (ho_pages _ _ Hok)]; done.
    + by rewrite Es, length_insert, (ho_classes _ _ Hok).
    + rewrite Es. apply Forall2_insert; [eapply (chains_same _ _ 0); [rewrite (ho_free_length _ _ Hok); lia|exact Hu1|apply (ho_chains _ _ Hok)]|].
      cbn [chain]. split; [done|split; [lia|]]. rewrite Hnext.
      pose proof (chains_same _ _ 0 _ _ ltac:(rewrite (ho_free_length _ _ Hok); lia) Hu1 (ho_chains _ _ Hok)) as Hch.
      apply (Forall2_lookup_lr _ _ _ c _ _ Hch L2 Hl).
    + by rewrite Hperm'.
    + by rewrite Hperm'.
    + intros b a. rewrite Hperm', <- Hperm. apply (ho_used _ _ Hok).
    + eapply live_same; [exact Hu2|]. pose proof (ho_live _ _ Hok) as Hlv. rewrite El in Hlv.
      apply Forall_app in Hlv as [? [_ ?]%Forall_cons_1]. by apply Forall_app.
    + done.
    + done.
  - intros a. unfold space. change (free k' a) with (free k a). by setoid_rewrite Hperm'; setoid_rewrite Hperm.
Qed.

(** A block in use that is taken out of the heap, its memory staying within it. *)
Lemma heap_ok_drop k g l1 al l2 k1 : heap_ok k g -> gh_live g = l1 ++ al :: l2 ->
  free_ranges k1 = free_ranges k -> free_page_count k1 = free_page_count k -> small_free k1 = small_free k ->
  heap k1 = kmalloc_note_free (al_len al) (heap k) -> same_off (al_hdr al) (al_len al) (kmem_memory k) (kmem_memory k1) ->
  heap_ok k1 (Ghost (gh_free g) (l1 ++ l2)) /\ undisturbed (kmem_memory k) (kmem_memory k1) (live_blks (l1 ++ l2)) /\
  faults (heap k1) = faults (heap k).
Proof.
  intros Hok El E1 E2 E3 E4 Hoff. assert (Hperm := live_split_perm _ _ _ _ El).
  pose proof (note_free_live k g l1 al l2 Hok El) as (N1 & N2 & N3). rewrite <- E4 in N1, N2, N3.
  pose proof (ho_apart _ _ Hok) as Hap. pose proof (ho_blks _ _ Hok) as Hbs. rewrite Hperm in Hap, Hbs. destruct Hap as [Hap1 Hap2].
  assert (Hu := undisturbed_off (al_blk al) (kmem_memory k) (kmem_memory k1) _ Hoff Hap1). apply undisturbed_app in Hu as [Hu1 Hu2].
  split; [|done]. split; cbn [gh_free gh_live].
  - eapply kmem_ok_same; [| |apply (ho_pages _ _ Hok)]; done.
  - by rewrite E3, (ho_classes _ _ Hok).
  - rewrite E3. eapply (chains_same _ _ 0); [rewrite (ho_free_length _ _ Hok); lia|exact Hu1|apply (ho_chains _ _ Hok)].
  - done.
  - by apply Forall_cons_1 in Hbs as [_ ?].
  - intros b a Hb Hin. unfold free. rewrite E1. apply (ho_used _ _ Hok b); [|done]. rewrite Hperm. apply elem_of_cons. by right.
  - eapply live_same; [exact Hu2|]. pose proof (ho_live _ _ Hok) as Hlv. rewrite El in Hlv.
    apply Forall_app in Hlv as [? [_ ?]%Forall_cons_1]. by apply Forall_app.
  - done.
  - done.
Qed.

(** Returning pages that belong to no block. *)
Lemma heap_page_free a n k g : heap_ok k g -> rng_ok (PageRange a n) -> (forall x, in_blk (a, n * 4096) x -> ~ free k x) ->
  (forall b x, b ∈ heap_blks g -> in_blk b x -> ~ in_blk (a, n * 4096) x) ->
  heap_ok (page_free a n k) g /\
  ((length (free_ranges k) < 128)%nat -> forall x, free (page_free a n k) x <-> free k x \/ in_blk (a, n * 4096) x).
Proof.
  intros Hok Hr Hnf Hb. destruct (decide (length (free_ranges k) < 128)%nat) as [Hl|Hl].
  - destruct (page_free_ok a n k (ho_pages _ _ Hok) Hr Hl Hnf) as (P1 & _ & P3 & _ & P5). split; [|intros _; exact P3].
    destruct (page_free_frame a n k) as (F1 & F2 & _ & _). destruct Hok as [H1 H2 H3 H4 H5 H6 H7 H8 H9].
    split; rewrite ?F1, ?F2, ?P5; try done. intros b x Hbe Hin [Hf|Hf]%P3; [by eapply H6|by eapply Hb].
  - rewrite page_free_full by lia. split; [done|intros ?; done].
Qed.

(** Pages go back to the page allocator, unless its table is full. *)
Lemma kfree_large_ok k g l1 al l2 : heap_ok k g -> gh_live g = l1 ++ al :: l2 -> al_class al = None ->
  let k' := kfree_large (al_hdr al) k in
  let g' := Ghost (gh_free g) (l1 ++ l2) in
  heap_ok k' g' /\ ((length (free_ranges k) < 128)%nat -> same_space k g k' g') /\
  undisturbed (kmem_memory k) (kmem_memory k') (live_blks (l1 ++ l2)) /\ faults (heap k') = faults (heap k).
Proof.
  intros Hok El Hcls k' g'. assert (Hal : al ∈ gh_live g) by (rewrite El, elem_of_app, elem_of_cons; auto).
  destruct (live_header k g al Hok Hal) as ((W1 & W2 & W3) & Hh & Hpos & _). rewrite Hcls in W3. destruct W3 as [W3 W4].
  assert (Elen : al_len al = pages_for (al_size al) * 4096) by (unfold al_len; by rewrite Hcls).
  pose proof (hk_pages _ _ Hh) as Epg. rewrite Hcls in Epg. pose proof (hk_bytes _ _ Hh) as Eb.
  pose proof (ho_blks _ _ Hok) as Hbs. rewrite (live_split_perm _ _ _ _ El) in Hbs. apply Forall_cons_1 in Hbs as [(B1 & B2 & B3 & _) _]. cbn [al_blk fst snd] in B1, B2, B3.
  set (h := al_hdr al) in *. set (sz := al_size al) in *. set (m := kmem_memory k) in *.
  set (m2 := fill (store 4 (store 8 m h KMEM_FREED_MAGIC) (h + 24 + sz) 0) (h + 24) sz 0xDD).
  set (k1 := set_heap (kmalloc_note_free (al_len al) (heap k)) (set_memory m2 k)).
  assert (Ek : k' = page_free h (pages_for sz) k1).
  { unfold k', kfree_large. fold m. rewrite Epg. unfold kmalloc_guard_for_header, HEADER_SIZE, KMEM_PAGE_SIZE.
    assert (Eb1 : hdr_bytes (store 8 m h KMEM_FREED_MAGIC) h = sz) by (unfold hdr_bytes in *; by rewrite load_store_other by lia).
    rewrite Eb1. assert (Eb2 : hdr_bytes (store 4 (store 8 m h KMEM_FREED_MAGIC) (h + 24 + sz) 0) h = sz)
      by (unfold hdr_bytes in *; by rewrite !load_store_other by lia).
    rewrite Eb2, u64_small by cint. by rewrite <- Elen. }
  assert (Hoff : same_off h (al_len al) m m2).
  { unfold m2. eapply same_off_trans; [|eapply same_off_sub; [apply fill_off|lia|lia]].
    eapply same_off_trans; [|eapply same_off_sub; [apply store_off|lia|lia]]. eapply same_off_sub; [apply store_off|lia|lia]. }
  destruct (heap_ok_drop k g l1 al l2 k1 Hok El) as (D1 & D2 & D3); [done|done|done|done|exact Hoff|].
  destruct (page_free_frame h (pages_for sz) k1) as (F1 & F2 & F3 & F4). rewrite <- Ek in F1, F2, F3, F4.
  pose proof (ho_apart _ _ Hok) as Hap. assert (Hperm := live_split_perm _ _ _ _ El). rewrite Hperm in Hap. destruct Hap as [Hap _]. rewrite Forall_elem in Hap.
  assert (Hblk : al_blk al = (h, pages_for sz * 4096)) by (unfold al_blk; by rewrite Elen).
  assert (Hin : al_blk al ∈ heap_blks g) by (rewrite Hperm; apply elem_of_cons; by left).
  destruct (heap_page_free h (pages_for sz) k1 _ D1) as [P1 P2].
  - split; unfold r_end; cbn [pr_start pr_pages]; lia.
  - rewrite <- Hblk. intros x Hx. change (free k1 x) with (free k x). by apply (ho_used _ _ Hok (al_blk al)).
  - rewrite <- Hblk. intros b x Hb Hx Hx'. specialize (Hap b Hb). unfold apart, in_blk in *. lia.
  - rewrite <- Ek in P1, P2. rewrite F1, F3. split; [done|split; [|done]]. intros Hl a. unfold space. rewrite (P2 Hl), <- Hblk.
    change (free k1 a) with (free k a). setoid_rewrite Hperm. setoid_rewrite elem_of_cons. unfold heap_blks. cbn [gh_free gh_live g']. split.
    + intros [[Hf|Hx]|(b & Hb & Hx)]; [by left|right; exists (al_blk al); auto|right; exists b; auto].
    + intros [Hf|(b & [->|Hb] & Hx)]; [by left; left|by left; right|right; by exists b].
Qed.

Lemma live_apart k g i j a b : heap_ok k g -> gh_live g !! i = Some a -> gh_live g !! j = Some b -> i <> j -> apart (al_blk a) (al_blk b).
Proof.
  intros Hok Ha Hb Hij. pose proof (ho_apart _ _ Hok) as Hp. unfold heap_blks in Hp. apply pairwise_app in Hp as (_ & Hp & _). clear Hok.
  revert i j Ha Hb Hij. induction (gh_live g) as [|c l IH]; intros i j Ha Hb Hij; [done|]. destruct Hp as [Hp1 Hp2]. rewrite Forall_elem in Hp1.
  destruct i as [|i], j as [|j]; cbn in Ha, Hb; [done| | |by apply (IH Hp2 i j); [..|lia]].
  - injection Ha as ->. apply Hp1, list_elem_of_fmap. exists b. split; [done|by eapply list_elem_of_lookup_2].
  - injection Hb as ->. apply apart_sym, Hp1, list_elem_of_fmap. exists a. split; [done|by eapply list_elem_of_lookup_2].
Qed.

(** Releasing a block in use. *)
Lemma kfree_ok k g l1 al l2 : heap_ok k g -> gh_live g = l1 ++ al :: l2 ->
  exists k' g', (forall fuel, kfree fuel (al_ptr al) k = Some k') /\ heap_ok k' g' /\ gh_live g' = l1 ++ l2 /\
    (al_class al <> None \/ (length (free_ranges k) < 128)%nat -> same_space k g k' g') /\
    undisturbed (kmem_memory k) (kmem_memory k') (live_blks (l1 ++ l2)) /\ faults (heap k') = faults (heap k).
Proof.
  intros Hok El. assert (Hal : al ∈ gh_live g) by (rewrite El, elem_of_app, elem_of_cons; auto).
  destruct (live_header k g al Hok Hal) as ((W1 & W2 & W3) & Hh & Hpos & Hg).
  assert (Ep : al_ptr al - HEADER_SIZE = al_hdr al) by (unfold al_ptr; lia). unfold kfree. rewrite Ep.
  destruct (Z.eqb_spec (al_ptr al) 0) as [E0|_]; [unfold al_ptr, HEADER_SIZE in E0; lia|].
  rewrite (hk_magic _ _ Hh), Hg, (hk_class _ _ Hh), !Z.eqb_refl. cbn [negb].
  destruct (al_class al) as [c|] eqn:Hcls.
  - destruct (Z.eqb_spec (Z.of_nat c) 65535); [lia|]. unfold KMEM_SMALL_CLASS_COUNT. destruct (Z.ltb_spec (Z.of_nat c) (Z.of_nat 8)); [|lia].
    destruct (heap_list k g c Hok W3) as (l & Hl & _). destruct (kfree_small_ok k g l1 al l2 c l Hok El Hcls Hl) as (K1 & K2 & K3 & K4 & _).
    eexists _, _. split; [done|]. split; [exact K1|]. done.
  - cbn [Z.eqb Pos.eqb]. destruct (kfree_large_ok k g l1 al l2 Hok El Hcls) as (K1 & K2 & K3 & K4).
    eexists _, _. split; [done|]. split; [exact K1|]. split; [done|]. split; [|done]. intros [?|Hl]; [done|]. by apply K2.
Qed.

Lemma any_list_contains_ok fuel m heads fl block : Forall2 (chain m) heads fl -> Forall (fun l => (length l < fuel)%nat) fl ->
  any_list_contains fuel m heads block = Some (bool_decide (block ∈ concat fl)).
Proof.
  intros Hch. induction Hch as [|head l heads fl Hl _ IH]; intros Hf; cbn [any_list_contains concat].
  - by rewrite bool_decide_false by (intros ?%elem_of_nil; done).
  - apply Forall_cons_1 in Hf as [Hf1 Hf2]. rewrite (list_contains_chain _ _ _ l) by done. cbn [mbind option_bind].
    destruct (bool_decide_reflect (block ∈ l)) as [Hin|Hin].
    + by rewrite bool_decide_true by (apply elem_of_app; by left).
    + rewrite IH by done. f_equal. apply bool_decide_ext. rewrite elem_of_app. tauto.
Qed.

Lemma concat_free_blks c fl x : x ∈ concat fl -> exists c', (x, class_size c') ∈ free_blks c fl.
Proof.
  revert c. induction fl as [|l fl IH]; intros c; cbn [concat free_blks]; [by intros ?%elem_of_nil|].
  rewrite elem_of_app. setoid_rewrite elem_of_app. intros [Hx|Hx].
  - exists c. left. apply list_elem_of_fmap. by exists x.
  - destruct (IH (S c) Hx) as [c' Hc']. exists c'. by right.
Qed.

(** The first word of a free block is a block address or 0, never a magic number. *)
Lemma chain_next m head l x : chain m head l -> x ∈ l -> load 8 m x = 0 \/ load 8 m x ∈ l.
Proof.
  revert head. induction l as [|a l IH]; intros head Hc Hx; [by apply elem_of_nil in Hx|]. destruct Hc as (-> & _ & Hc).
  rewrite elem_of_cons. apply elem_of_cons in Hx as [->|Hx].
  - destruct l as [|b l]; cbn [chain] in Hc; [by left|]. destruct Hc as (Hc & _). right. right. apply elem_of_cons. by left.
  - destruct (IH _ Hc Hx) as [?|?]; auto.
Qed.

Lemma free_block_magic k g x : heap_ok k g -> x ∈ concat (gh_free g) -> hdr_magic (kmem_memory k) x mod 32 = 0.
Proof.
  intros Hok Hx. apply list_elem_of_In, in_concat in Hx as (l & Hl%list_elem_of_In & Hx%list_elem_of_In). apply list_elem_of_lookup_1 in Hl as [c Hc].
  destruct (heap_list k g c Hok) as (l' & L1 & _ & L3 & _). { apply lookup_lt_Some in Hc. by rewrite (ho_free_length _ _ Hok) in Hc. }
  rewrite Hc in L1. injection L1 as <-. unfold hdr_magic. destruct (chain_next _ _ _ _ L3 Hx) as [->|Hn]; [done|].
  pose proof (ho_blks _ _ Hok) as Hb. rewrite Forall_elem in Hb.
  destruct (Hb (load 8 (kmem_memory k) x, class_size c)) as (_ & _ & _ & ?); [|done].
  unfold heap_blks. rewrite elem_of_app. left. by apply (free_blks_elem 0 c _ l).
Qed.

(** Releasing a block of a free list again is noticed and does nothing. *)
Lemma kfree_double fuel k g x : heap_ok k g -> x ∈ concat (gh_free g) -> Forall (fun l => (length l < fuel)%nat) (gh_free g) ->
  kfree fuel (x + HEADER_SIZE) k = Some (set_heap (count_double (heap k)) k).
Proof.
  intros Hok Hx Hf. pose proof (free_block_magic k g x Hok Hx) as Hm.
  destruct (concat_free_blks 0 _ _ Hx) as [c Hc]. pose proof (ho_blks _ _ Hok) as Hb. rewrite Forall_elem in Hb.
  destruct (Hb (x, class_size c)) as (Hpos & _); [unfold heap_blks; rewrite elem_of_app; by left|]. cbn [fst] in Hpos.
  unfold kfree. replace (x + HEADER_SIZE - HEADER_SIZE) with x by lia.
  destruct (Z.eqb_spec (x + HEADER_SIZE) 0) as [E|_]; [unfold HEADER_SIZE in E; lia|].
  destruct (Z.eqb_spec (hdr_magic (kmem_memory k) x) KMEM_ALLOC_MAGIC) as [E|_]; [by rewrite E in Hm|]. cbn [negb].
  destruct (Z.eqb_spec (hdr_magic (kmem_memory k) x) KMEM_FREED_MAGIC) as [E|_]; [done|].
  unfold small_free_list_contains. rewrite (any_list_contains_ok _ _ _ _ _ (ho_chains _ _ Hok) Hf), bool_decide_true by done. done.
Qed.

(** ** kmalloc_size *)

Lemma kmalloc_size_live k g al : heap_ok k g -> al ∈ gh_live g -> kmalloc_size (al_ptr al) k = al_size al.
Proof.
  intros Hok Hal. destruct (live_header k g al Hok Hal) as ((W1 & W2 & W3) & Hh & Hpos & Hg). unfold kmalloc_size.
  assert (Ep : al_ptr al - HEADER_SIZE = al_hdr al) by (unfold al_ptr; lia). rewrite Ep.
  destruct (Z.eqb_spec (al_ptr al) 0) as [E0|_]; [unfold al_ptr, HEADER_SIZE in E0; lia|].
  rewrite (hk_magic _ _ Hh), Hg, !Z.eqb_refl. apply (hk_bytes _ _ Hh).
Qed.

Lemma kmalloc_size_free k g x : heap_ok k g -> x ∈ concat (gh_free g) -> kmalloc_size (x + HEADER_SIZE) k = 0.
Proof.
  intros Hok Hx. pose proof (free_block_magic k g x Hok Hx) as Hm. unfold kmalloc_size. replace (x + HEADER_SIZE - HEADER_SIZE) with x by lia.
  destruct (_ =? 0); [done|]. destruct (Z.eqb_spec (hdr_magic (kmem_memory k) x) KMEM_ALLOC_MAGIC) as [E|_]; [by rewrite E in Hm|done].
Qed.

(** Walks along finitely many lists have a bound. *)
Lemma enough_fuel (ls : list (list Z)) : exists n, forall fuel, (n <= fuel)%nat -> Forall (fun l => (length l < fuel)%nat) ls.
Proof.
  exists (S (foldr (fun l n => Nat.max (length l) n) 0%nat ls)). intros fuel Hf. apply Forall_elem. intros l Hl.
  enough (length l <= foldr (fun l n => Nat.max (length l) n) 0 ls)%nat by lia. clear Hf.
  induction ls as [|l' ls IH]; [by apply elem_of_nil in Hl|]. cbn [foldr]. apply elem_of_cons in Hl as [->|Hl]; [lia|]. specialize (IH Hl). lia.
Qed.

(** ** Faults *)

Lemma kfree_foreign fuel k g p : heap_ok k g -> Forall (fun l => (length l < fuel)%nat) (gh_free g) -> p <> 0 ->
  p - HEADER_SIZE ∉ concat (gh_free g) -> hdr_magic (kmem_memory k) (p - HEADER_SIZE) <> KMEM_ALLOC_MAGIC ->
  hdr_magic (kmem_memory k) (p - HEADER_SIZE) <> KMEM_FREED_MAGIC -> kfree fuel p k = Some (set_heap (count_invalid (heap k)) k).
Proof.
  intros Hok Hf Hp Hn H1 H2. unfold kfree. rewrite !(proj2 (Z.eqb_neq _ _)) by done. cbn [negb].
  unfold small_free_list_contains. rewrite (any_list_contains_ok _ _ _ _ _ (ho_chains _ _ Hok) Hf), bool_decide_false by done. done.
Qed.

(** A client wrote over the guard of its block. *)
Lemma kfree_overrun fuel k g al m : heap_ok k g -> al ∈ gh_live g -> load 4 m (al_ptr al + al_size al) <> KMEM_GUARD_MAGIC ->
  same_off (al_ptr al) (al_size al + 4) (kmem_memory k) m ->
  exists k', kfree fuel (al_ptr al) (set_memory m k) = Some k' /\ guard_failures (heap k') = u64 (guard_failures (heap k) + 1) /\
    invalid_frees (heap k') = invalid_frees (heap k) /\ double_frees (heap k') = double_frees (heap k) /\ kmalloc_size (al_ptr al) (set_memory m k) = 0.
Proof.
  intros Hok Hal Hg Hm. destruct (live_header k g al Hok Hal) as ((W1 & W2 & W3) & Hh & Hpos & _). unfold al_ptr, HEADER_SIZE in Hm.
  assert (Hl : forall n b, al_hdr al <= b -> b + Z.of_nat n <= al_hdr al + 24 -> load n m b = load n (kmem_memory k) b).
  { intros n b Hb1 Hb2. apply load_ext. eapply off_on; [exact Hm|lia]. }
  destruct Hh as [V1 V2 V3 V4 V5 _]. unfold hdr_magic, hdr_bytes, hdr_class, hdr_pages in *.
  assert (Ep : al_ptr al - HEADER_SIZE = al_hdr al) by (unfold al_ptr; lia). unfold kfree, kmalloc_size, kmalloc_guard_for_header, hdr_magic, hdr_bytes, hdr_class.
  rewrite Ep. cbn [set_memory kmem_memory]. rewrite (Hl 8%nat (al_hdr al)), (Hl 4%nat (al_hdr al + 8)), (Hl 2%nat (al_hdr al + 16)), V1, V2, V4 by lia. change (al_hdr al + HEADER_SIZE + al_size al) with (al_ptr al + al_size al).
  rewrite (proj2 (Z.eqb_neq (al_ptr al) 0)), (proj2 (Z.eqb_neq (load 4 m _) _)), Z.eqb_refl by (done || (unfold al_ptr, HEADER_SIZE; lia)). cbn [negb].
  destruct (al_class al) as [c|].
  - rewrite (proj2 (Z.eqb_neq _ _)), (proj2 (Z.ltb_lt _ _)) by (unfold KMEM_SMALL_CLASS_COUNT; lia). by eexists.
  - rewrite Z.eqb_refl. eexists. split; [done|]. unfold kfree_large. by rewrite !(proj1 (page_free_frame _ _ _)).
Qed.

(** ** kmem_get_stats *)

Lemma lists_count_ok fuel m heads fl n : Forall2 (chain m) heads fl -> Forall (fun l => (length l < fuel)%nat) fl -> 0 <= n ->
  n + Z.of_nat (length (concat fl)) < 18446744073709551616 -> lists_count fuel m heads n = Some (n + Z.of_nat (length (concat fl))).
Proof.
  intros Hch. revert n. induction Hch as [|head l heads fl Hl _ IH]; intros n Hf Hn Hb; cbn [lists_count concat length] in *.
  - f_equal. lia.
  - apply Forall_cons_1 in Hf as [Hf1 Hf2]. rewrite length_app in *. rewrite (list_count_chain _ _ _ l) by (done || lia). cbn [mbind option_bind].
    rewrite IH by (done || lia). f_equal. lia.
Qed.

Lemma length_free_blks c fl : length (free_blks c fl) = length (concat fl).
Proof. revert c. induction fl as [|l fl IH]; intros c; cbn [free_blks concat]; [done|]. unfold class_blks. by rewrite !length_app, length_map, IH. Qed.

Lemma total_len_count bs : Forall blk_ok bs -> 32 * Z.of_nat (length bs) <= total_len bs.
Proof.
  induction 1 as [|b bs (_ & Hb & _) _ IH]; [done|]. change (total_len (b :: bs)) with (snd b + total_len bs). cbn [length]. lia.
Qed.

Lemma free_count_bound k g : heap_ok k g -> Z.of_nat (length (concat (gh_free g))) < 18446744073709551616.
Proof.
  intros Hok. pose proof (ho_apart _ _ Hok) as Hp. pose proof (ho_blks _ _ Hok) as Hb. unfold heap_blks in *.
  apply pairwise_app in Hp as (Hp & _ & _). apply Forall_app in Hb as [Hb _]. rewrite <- (length_free_blks 0). pose proof (total_len_count _ Hb).
  destruct (total_len_bound (length (free_blks 0 (gh_free g))) (free_blks 0 (gh_free g)) 1 18446744073709551616) as [_ ?]; [lia|lia|done| |lia].
  eapply list.Forall_impl; [exact Hb|]. intros b (B1 & B2 & B3 & _). lia.
Qed.

(** The largest and the smallest range, 0 when there is none. *)
Lemma range_extremes_ok l largest smallest : Forall rng_ok l -> 0 <= largest -> 0 <= smallest ->
  let '(hi, lo) := range_extremes l largest smallest in
  (largest <= hi /\ Forall (fun r => pr_pages r <= hi) l /\ (hi = largest \/ exists r, r ∈ l /\ pr_pages r = hi)) /\
  (smallest <> 0 -> lo <= smallest) /\ (smallest <> 0 \/ l <> [] -> 0 < lo) /\ Forall (fun r => lo <= pr_pages r) l /\ (lo = smallest \/ exists r, r ∈ l /\ pr_pages r = lo).
Proof.
  revert largest smallest. induction l as [|r l IH]; intros largest smallest Hr H1 H2; cbn [range_extremes].
  - split; [split; [lia|split; [constructor|by left]]|]. split; [lia|]. split; [intros [?|?]; [lia|done]|]. split; [constructor|by left].
  - apply Forall_cons_1 in Hr as [[_ _ Hp _] Hr].
    set (hi' := if largest <? pr_pages r then _ else _). set (lo' := if (smallest =? 0) || _ then _ else _).
    assert (Hhi : largest <= hi' /\ pr_pages r <= hi' /\ (hi' = largest \/ hi' = pr_pages r)) by (unfold hi'; destruct (Z.ltb_spec largest (pr_pages r)); lia).
    assert (Hlo : 0 < lo' <= pr_pages r /\ (smallest <> 0 -> lo' <= smallest) /\ (lo' = smallest \/ lo' = pr_pages r)).
    { unfold lo'. destruct (Z.eqb_spec smallest 0), (Z.ltb_spec (pr_pages r) smallest); cbn [orb]; lia. }
    specialize (IH hi' lo' Hr). destruct (range_extremes l hi' lo') as [hi lo]. destruct IH as ((I1 & I2 & I3) & I4 & I7 & I5 & I6); [lia|lia|].
    assert (Hlo0 : lo' <> 0) by lia. specialize (I4 Hlo0). specialize (I7 (or_introl Hlo0)).
    split; [split; [lia|split; [constructor; [lia|done]|]]|split; [intros Hs; lia|split; [done|split; [constructor; [lia|done]|]]]].
    + destruct I3 as [->|(s & Hs & Hs')]; [|right; exists s; rewrite elem_of_cons; auto]. destruct Hhi as (_ & _ & [?|?]); [by left|].
      right. exists r. rewrite elem_of_cons. auto.
    + destruct I6 as [->|(s & Hs & Hs')]; [|right; exists s; rewrite elem_of_cons; auto]. destruct Hlo as (_ & _ & [?|?]); [by left|].
      right. exists r. rewrite elem_of_cons. auto.
Qed.

(** Every field of the statistics that is computed and not copied. *)
Record stats_exact (k : kmem) (g : ghost) (st : kmem_stats) : Prop := {
  se_blocks : st_small_free_blocks st = Z.of_nat (length (concat (gh_free g)));
  se_free : st_free_pages st = pages_of (free_ranges k);
  se_live : st_live_allocations st = Z.of_nat (length (gh_live g));
  se_used : st_heap_used_bytes st = total_len (live_blks (gh_live g));
  se_largest : Forall (fun r => pr_pages r <= st_largest_free_range_pages st) (free_ranges k);
  se_smallest : Forall (fun r => st_smallest_free_range_pages st <= pr_pages r) (free_ranges k);
  se_attained : free_ranges k <> [] -> (exists r, r ∈ free_ranges k /\ pr_pages r = st_largest_free_range_pages st) /\
                                       (exists r, r ∈ free_ranges k /\ pr_pages r = st_smallest_free_range_pages st);
  se_percent : 0 <= st_fragmentation_percent st < 100;
  se_fragmentation : st_fragmentation_percent st * st_free_pages st <= 100 * (st_free_pages st - st_largest_free_range_pages st) \/
                     st_free_pages st = 0
}.

Lemma pages_of_elem l r : Forall rng_ok l -> r ∈ l -> 0 < pr_pages r <= pages_of l.
Proof.
  induction 1 as [|s l Hs Hl IH]; [by intros ?%elem_of_nil|]. change (pages_of (s :: l)) with (pr_pages s + pages_of l).
  pose proof (rk_pages _ Hs). pose proof (pages_nonneg _ Hl). intros [->|Hr]%elem_of_cons; [lia|]. specialize (IH Hr). lia.
Qed.

Lemma kmem_get_stats_ok k g : heap_ok k g ->
  exists st, (forall fuel, Forall (fun l => (length l < fuel)%nat) (gh_free g) -> kmem_get_stats fuel k = Some st) /\ stats_exact k g st /\
    (st_invalid_frees st, st_double_frees st, st_guard_failures st) = faults (heap k).
Proof.
  intros Hok. pose proof (ko_ranges _ (ho_pages _ _ Hok)) as Hr. pose proof (ko_count _ (ho_pages _ _ Hok)) as Hc.
  pose proof (pages_bound _ Hr (ko_disjoint _ (ho_pages _ _ Hok))) as Hpb.
  unfold kmem_get_stats. pose proof (range_extremes_ok (free_ranges k) 0 0 Hr ltac:(lia) ltac:(lia)) as He.
  destruct (range_extremes (free_ranges k) 0 0) as [hi lo]. destruct He as ((E1 & E2 & E3) & _ & E4 & E5 & E6).
  pose proof (free_count_bound k g Hok) as Hb. eexists. split.
  { intros fuel Hf. rewrite (lists_count_ok _ _ _ (gh_free g)) by (apply (ho_chains _ _ Hok) || done || lia). reflexivity. }
  split; [|done]. rewrite Hc.
  assert (Hat : free_ranges k <> [] -> (exists r, r ∈ free_ranges k /\ pr_pages r = hi) /\ (exists r, r ∈ free_ranges k /\ pr_pages r = lo) /\ 0 < hi).
  { intros Hne. specialize (E4 (or_intror Hne)). destruct (free_ranges k) as [|r l] eqn:El; [done|]. pose proof (rk_pages _ (Forall_inv Hr)).
    apply Forall_cons_1 in E2 as [E2 _]. split; [destruct E3 as [?|?]; [lia|done]|]. split; [destruct E6 as [?|?]; [lia|done]|lia]. }
  assert (Hhi : hi <= pages_of (free_ranges k)).
  { destruct E3 as [->|(r & Hr' & <-)]; [lia|]. by apply pages_of_elem. }
  set (fp := pages_of (free_ranges k)) in *.
  assert (Hpos : fp <> 0 -> 0 < hi) by (intros Hne; apply Hat; intros En; apply Hne; unfold fp; by rewrite En).
  assert (Hpct : let pc := if (fp =? 0) || (fp <=? hi) then 0 else u32 (u64 ((fp - hi) * 100) / fp) in
    0 <= pc < 100 /\ (pc * fp <= 100 * (fp - hi) \/ fp = 0)).
  { cbn zeta. destruct (Z.eqb_spec fp 0) as [E|E]; cbn [orb]; [lia|]. specialize (Hpos E). destruct (Z.leb_spec fp hi); [lia|].
    rewrite (u64_small ((fp - hi) * 100)) by cint. assert (0 <= (fp - hi) * 100 / fp < 100).
    { split; [apply Z.div_pos; lia|apply Z.div_lt_upper_bound; lia]. }
    rewrite u32_small by cint. split; [done|]. left. pose proof (Z.mul_div_le ((fp - hi) * 100) fp). lia. }
  destruct Hpct as [Hp1 Hp2].
  split; cbn [st_small_free_blocks st_free_pages st_live_allocations st_heap_used_bytes st_largest_free_range_pages st_smallest_free_range_pages st_fragmentation_percent].
  - done.
  - done.
  - apply (ho_count _ _ Hok).
  - apply (ho_bytes _ _ Hok).
  - done.
  - done.
  - intros Hne. destruct (Hat Hne) as (? & ? & _). done.
  - done.
  - done.
Qed.
