(* ===== verification/HeapClients.v ===== *)
(** The heap as its clients see it: a finite map from addresses to objects.

    [objects] is the abstract heap, a map from the address of each block in
    use to its bytes; [spec_step] says what an operation may do to it. The
    relation [represents] ties it to the memory, and every operation of the
    heap is shown to simulate its specification: a new block is a new object,
    a released block disappears, and no operation changes another object. *)
From Stdlib Require Import ZArith Lia.
From stdpp Require Import base tactics option list numbers gmap.
From S2P Require Import Prelude.
From S2P Require Import Memory.
From S2P Require Import Dma.
From S2P Require Import Kmem.
From S2P Require Import KmemSpec.
From S2P Require Import Heap.
From S2P Require Import HeapSpec.
From S2P Require Import HeapAlloc.
#[local] Open Scope Z_scope.

(** ** The specification *)

Abbreviation objects := (gmap Z (list Z)).

(** What a client does: ask for bytes, release a block, store a byte. *)
Inductive heap_op : Type :=
  | OpMalloc (size : Z)
  | OpZalloc (size : Z)
  | OpFree (ptr : Z)
  | OpWrite (ptr : Z) (i : nat) (v : Z).

(** Clients release and write only what they hold. *)
Definition op_ok (o : objects) (op : heap_op) : Prop :=
  match op with
  | OpMalloc size | OpZalloc size => is_u32 size
  | OpFree p => p = 0 \/ is_Some (o !! p)
  | OpWrite p i v => exists bs, o !! p = Some bs /\ (i < length bs)%nat
  end.

(** A new object of [size] bytes at [r], or a refusal. *)
Definition new_object (size byte : Z) (o : objects) (r : Z) (o' : objects) : Prop :=
  (r = 0 /\ o' = o) \/ (0 < r /\ 0 < size /\ o !! r = None /\ o' = <[r := replicate (Z.to_nat size) byte]> o).

Definition spec_step (op : heap_op) (o : objects) (r : Z) (o' : objects) : Prop :=
  match op with
  | OpMalloc size => new_object size (fresh_byte size) o r o'
  | OpZalloc size => new_object size 0 o r o'
  | OpFree p => r = 0 /\ o' = delete p o
  | OpWrite p i v => r = 0 /\ exists bs, o !! p = Some bs /\ o' = <[p := <[i := v]> bs]> o
  end.

(** ** The operations *)

Definition heap_exec (fuel : nat) (op : heap_op) (k : kmem) : option (Z * kmem) :=
  match op with
  | OpMalloc size => Some (kmalloc size k)
  | OpZalloc size => Some (kzalloc size k)
  | OpFree p => k' ← kfree fuel p k; Some (0, k')
  | OpWrite p i v => Some (0, set_memory (fun x => if x =? p + Z.of_nat i then v else kmem_memory k x) k)
  end.

(** ** The relation *)

Definition object (m : mem) (a : alloc) : Z * list Z := (al_ptr a, mem_list (Z.to_nat (al_size a)) m (al_ptr a)).
Definition objects_of (m : mem) (live : list alloc) : objects := list_to_map (map (object m) live).

Definition represents (k : kmem) (o : objects) : Prop := exists g, heap_ok k g /\ o = objects_of (kmem_memory k) (gh_live g).

Lemma ptrs_nodup k g m : heap_ok k g -> NoDup (map (object m) (gh_live g)).*1.
Proof.
  intros Hok. pose proof (ho_apart _ _ Hok) as Hp. pose proof (ho_blks _ _ Hok) as Hb. unfold heap_blks in *.
  apply pairwise_app in Hp as (_ & Hp & _). apply Forall_app in Hb as [_ Hb]. clear Hok.
  induction (gh_live g) as [|a l IH]; [constructor|]. cbn [live_blks map fmap list_fmap] in *. destruct Hp as [Hp1 Hp2].
  apply Forall_cons_1 in Hb as [(_ & Hb & _) Hbl]. constructor; [|by apply IH].
  intros Hin. apply list_elem_of_fmap in Hin as ([p bs] & Hp & Hin). apply list_elem_of_fmap in Hin as (c & Hc & Hin). cbn [fst object] in Hp. subst p.
  injection Hc as Hc _. rewrite Forall_elem in Hp1. rewrite Forall_elem in Hbl. assert (Hcb : al_blk c ∈ live_blks l) by (apply list_elem_of_fmap; by exists c).
  specialize (Hp1 _ Hcb). destruct (Hbl _ Hcb) as (_ & Hb' & _). unfold apart, al_blk, al_ptr in *. cbn [fst snd] in *. lia.
Qed.

Lemma objects_same m m' live : Forall alloc_wf live -> undisturbed m m' (live_blks live) -> objects_of m' live = objects_of m live.
Proof.
  intros Hw Hu. unfold objects_of. f_equal. apply map_ext_in. intros a Ha%list_elem_of_In. unfold object. f_equal. apply mem_list_ext.
  unfold undisturbed in Hu. rewrite Forall_elem in Hu. rewrite Forall_elem in Hw. destruct (Hw a Ha) as (W1 & W2 & _).
  assert (Hs : same_on (al_hdr a) (al_len a) m m') by (apply (Hu (al_blk a)), list_elem_of_fmap; by exists a).
  eapply same_on_sub; [exact Hs|unfold al_ptr, HEADER_SIZE; lia|unfold al_ptr, HEADER_SIZE; lia].
Qed.

Lemma objects_remove k g m l1 al l2 : heap_ok k g -> gh_live g = l1 ++ al :: l2 ->
  objects_of m (l1 ++ l2) = delete (al_ptr al) (objects_of m (gh_live g)).
Proof.
  intros Hok El. pose proof (ptrs_nodup k g m Hok) as Hn.
  assert (Hp : map (object m) (gh_live g) ≡ₚ object m al :: map (object m) (l1 ++ l2)).
  { rewrite El, !map_app. cbn [map]. symmetry. apply Permutation_middle. }
  unfold objects_of. rewrite (list_to_map_proper _ _ Hn Hp). cbn [list_to_map foldr object fst snd uncurry]. cbn. rewrite delete_insert_id; [done|].
  apply not_elem_of_list_to_map. rewrite Hp in Hn. cbn in Hn. by apply NoDup_cons in Hn as [? _].
Qed.

Lemma objects_lookup k g m p bs : heap_ok k g -> objects_of m (gh_live g) !! p = Some bs ->
  exists al, al ∈ gh_live g /\ al_ptr al = p /\ bs = mem_list (Z.to_nat (al_size al)) m p.
Proof.
  intros Hok Hp. apply elem_of_list_to_map in Hp; [|by eapply ptrs_nodup]. apply list_elem_of_fmap in Hp as (al & E & Hin).
  injection E as -> ->. by exists al.
Qed.

(** ** The simulation *)

Lemma live_wf k g : heap_ok k g -> Forall alloc_wf (gh_live g).
Proof. intros Hok. eapply list.Forall_impl; [apply (ho_live _ _ Hok)|]. by intros a [? _]. Qed.

Lemma mem_list_const n m a v : (forall x, a <= x < a + Z.of_nat n -> m x = v) -> mem_list n m a = replicate n v.
Proof.
  revert a. induction n as [|n IH]; intros a Hm; cbn [mem_list replicate]; [done|]. rewrite Hm by lia. f_equal. apply IH. intros x Hx. apply Hm. lia.
Qed.

(** A block handed out is a new object. *)
Lemma alloc_simulates byte size k g r k' : heap_ok k g -> is_u32 size -> kmalloc_outcome byte size k g (r, k') ->
  exists o', new_object size byte (objects_of (kmem_memory k) (gh_live g)) r o' /\ represents k' o' /\ faults (heap k') = faults (heap k).
Proof.
  intros Hok Hs (g' & H1 & H2 & H3 & H4 & H5). exists (objects_of (kmem_memory k') (gh_live g')).
  split; [|split; [by exists g'|done]]. pose proof (objects_same _ _ _ (live_wf _ _ Hok) H3) as Hsame.
  destruct (decide (r = 0)) as [->|Hr].
  - left. destruct H5 as (-> & H5 & _). split; [done|]. by rewrite Hsame.
  - right. destruct H5 as (al & A1 & A2 & A3 & A4 & A5 & A6).
    pose proof (ptrs_nodup k' g' (kmem_memory k') H1) as Hn. rewrite A1 in Hn |- *. cbn [map] in Hn. cbn in Hn. apply NoDup_cons in Hn as [Hn _].
    assert (Hal : al ∈ gh_live g') by (rewrite A1; apply elem_of_cons; by left).
    destruct (live_header k' g' al H1 Hal) as ((W1 & _) & _ & Hpos & _).
    unfold al_ptr, HEADER_SIZE in A2. split; [lia|]. split; [lia|].
    assert (Hobj : object (kmem_memory k') al = (r, replicate (Z.to_nat size) byte)).
    { unfold object, al_ptr, HEADER_SIZE. rewrite A2, A3. f_equal. apply mem_list_const. intros x Hx. apply A5. lia. }
    split.
    + rewrite <- Hsame. apply not_elem_of_list_to_map. change (al_ptr al) with (al_hdr al + 24) in Hn. rewrite A2 in Hn. exact Hn.
    + rewrite <- Hsame. unfold objects_of. cbn [map]. rewrite Hobj. done.
Qed.

Lemma free_simulates fuel k g p : heap_ok k g -> is_Some (objects_of (kmem_memory k) (gh_live g) !! p) ->
  exists k', kfree fuel p k = Some k' /\ represents k' (delete p (objects_of (kmem_memory k) (gh_live g))) /\ faults (heap k') = faults (heap k).
Proof.
  intros Hok [bs Hp]. destruct (objects_lookup k g _ p bs Hok Hp) as (al & Hal & <- & _). apply list_elem_of_split in Hal as (l1 & l2 & El).
  destruct (kfree_ok k g l1 al l2 Hok El) as (k' & g' & K1 & K2 & K3 & _ & K5 & K6). exists k'. split; [done|]. split; [|done].
  exists g'. split; [done|]. rewrite K3, <- (objects_remove k g _ l1 al l2 Hok El). symmetry. apply objects_same; [|done].
  rewrite <- K3. by eapply live_wf.
Qed.

Lemma mem_list_update n m a i v : (i < n)%nat ->
  mem_list n (fun x => if x =? a + Z.of_nat i then v else m x) a = <[i := v]> (mem_list n m a).
Proof.
  revert a i. induction n as [|n IH]; intros a i Hi; [lia|]. destruct i as [|i]; cbn [mem_list].
  - rewrite Z.add_0_r, Z.eqb_refl. change (<[0%nat := v]> (m a :: mem_list n m (a + 1))) with (v :: mem_list n m (a + 1)). f_equal.
    apply mem_list_ext. intros x Hx. by rewrite (proj2 (Z.eqb_neq _ _)) by lia.
  - rewrite (proj2 (Z.eqb_neq _ _)) by lia. change (<[S i := v]> (m a :: mem_list n m (a + 1))) with (m a :: <[i := v]> (mem_list n m (a + 1))).
    f_equal. rewrite <- IH by lia. by replace (a + Z.of_nat (S i)) with (a + 1 + Z.of_nat i) by lia.
Qed.

(** Writing inside an object changes that object only. *)
Lemma block_write_simulates k g p bs m' : heap_ok k g -> objects_of (kmem_memory k) (gh_live g) !! p = Some bs ->
  same_off p (Z.of_nat (length bs)) (kmem_memory k) m' ->
  represents (set_memory m' k) (<[p := mem_list (length bs) m' p]> (objects_of (kmem_memory k) (gh_live g))).
Proof.
  intros Hok Hp Hoff. destruct (objects_lookup k g _ p bs Hok Hp) as (al & Hal & <- & ->). rewrite length_mem_list in *.
  pose proof (live_wf _ _ Hok) as Hwf. rewrite Forall_elem in Hwf. destruct (Hwf al Hal) as (W1 & W2 & _). rewrite Z2Nat.id in Hoff by lia.
  pose proof (heap_ok_write k g al m' Hok Hal Hoff) as Hok'. exists g. split; [done|]. cbn [set_memory kmem_memory].
  apply list_elem_of_split in Hal as (l1 & l2 & El). pose proof (ptrs_nodup _ _ m' Hok') as Hn'. pose proof (ptrs_nodup _ _ (kmem_memory k) Hok) as Hn.
  assert (Hp1 : forall m, map (object m) (gh_live g) ≡ₚ object m al :: map (object m) (l1 ++ l2)).
  { intros m. rewrite El, !map_app. cbn [map]. symmetry. apply Permutation_middle. }
  unfold objects_of. rewrite (list_to_map_proper _ _ Hn (Hp1 _)), (list_to_map_proper _ _ Hn' (Hp1 _)).
  change (list_to_map (object ?m al :: ?l)) with (<[al_ptr al := mem_list (Z.to_nat (al_size al)) m (al_ptr al)]> (list_to_map l : objects)).
  rewrite insert_insert_eq. f_equal.
  assert (Hrest : objects_of m' (l1 ++ l2) = objects_of (kmem_memory k) (l1 ++ l2)); [|by unfold objects_of in Hrest].
  apply objects_same.
  - pose proof (live_wf _ _ Hok) as Hw. rewrite El in Hw. apply Forall_app in Hw as [? [_ ?]%Forall_cons_1]. by apply Forall_app.
  - pose proof (ho_apart _ _ Hok) as Hap. rewrite (live_split_perm _ _ _ _ El) in Hap. destruct Hap as [Hap _]. apply Forall_app in Hap as [_ Hap].
    apply (undisturbed_off (al_blk al)); [|done].
    unfold al_ptr, HEADER_SIZE in Hoff. cbn [al_blk fst snd]. eapply same_off_sub; [exact Hoff|lia|lia].
Qed.

Lemma write_simulates k g p i v bs : heap_ok k g -> objects_of (kmem_memory k) (gh_live g) !! p = Some bs -> (i < length bs)%nat ->
  represents (set_memory (fun x => if x =? p + Z.of_nat i then v else kmem_memory k x) k)
    (<[p := <[i := v]> bs]> (objects_of (kmem_memory k) (gh_live g))).
Proof.
  intros Hok Hp Hi. set (m' := fun x => _).
  assert (Hoff : same_off p (Z.of_nat (length bs)) (kmem_memory k) m').
  { intros x Hx. unfold m'. rewrite (proj2 (Z.eqb_neq _ _)) by lia. done. }
  pose proof (block_write_simulates k g p bs m' Hok Hp Hoff) as Hw.
  destruct (objects_lookup k g _ p bs Hok Hp) as (al & Hal & <- & ->). rewrite length_mem_list in *.
  unfold m' in Hw at 2. by rewrite mem_list_update in Hw.
Qed.

(** Every operation ends and does what the specification allows. *)
Lemma heap_exec_simulates fuel op k o : represents k o -> op_ok o op ->
  exists r k' o', heap_exec fuel op k = Some (r, k') /\ spec_step op o r o' /\ represents k' o' /\ faults (heap k') = faults (heap k).
Proof.
  intros (g & Hok & ->) Hop. destruct op as [size|size|p|p i v]; cbn [heap_exec op_ok spec_step] in *.
  - pose proof (kmalloc_ok size k g Hok Hop) as Ho. destruct (kmalloc size k) as [r k'].
    destruct (alloc_simulates _ _ _ _ _ _ Hok Hop Ho) as (o' & H1 & H2 & H3). by exists r, k', o'.
  - pose proof (kzalloc_ok size k g Hok Hop) as Ho. destruct (kzalloc size k) as [r k'].
    destruct (alloc_simulates _ _ _ _ _ _ Hok Hop Ho) as (o' & H1 & H2 & H3). by exists r, k', o'.
  - destruct Hop as [->|Hp].
    + cbn. exists 0, k, (objects_of (kmem_memory k) (gh_live g)). split; [done|]. split; [|split; [by exists g|done]]. split; [done|].
      symmetry. apply delete_id. destruct (objects_of _ _ !! 0) as [bs|] eqn:E; [|done]. exfalso.
      destruct (objects_lookup k g _ 0 bs Hok E) as (al & Hal & Hz & _). destruct (live_header k g al Hok Hal) as (_ & _ & Hpos & _).
      unfold al_ptr, HEADER_SIZE in Hz. lia.
    + destruct (free_simulates fuel k g p Hok Hp) as (k' & K1 & K2 & K3). rewrite K1. cbn.
      exists 0, k', (delete p (objects_of (kmem_memory k) (gh_live g))). done.
  - destruct Hop as (bs & Hp & Hi). eexists 0, _, _. split; [done|]. split; [split; [done|by exists bs]|].
    split; [by apply write_simulates|done].
Qed.

(** ** Clients *)

(** A client chooses its next operation from the results it has seen. *)
Fixpoint heap_run (fuel n : nat) (client : list Z -> heap_op) (seen : list Z) (k : kmem) : option (list Z * kmem) :=
  match n with
  | O => Some (seen, k)
  | S n' => '(r, k) ← heap_exec fuel (client seen) k; heap_run fuel n' client (r :: seen) k
  end.

Inductive spec_run (client : list Z -> heap_op) : list Z -> objects -> list Z -> objects -> Prop :=
  | run_refl seen o : spec_run client seen o seen o
  | run_step seen o r o1 seen' o' : spec_step (client seen) o r o1 -> spec_run client (r :: seen) o1 seen' o' ->
      spec_run client seen o seen' o'.

(** A client that never breaks the rules, whatever the specification answers. *)
Definition well_behaved (client : list Z -> heap_op) (seen : list Z) (o : objects) : Prop :=
  forall seen' o', spec_run client seen o seen' o' -> op_ok o' (client seen').

Lemma heap_run_simulates fuel client n seen k o : represents k o -> well_behaved client seen o ->
  exists seen' k' o', heap_run fuel n client seen k = Some (seen', k') /\ spec_run client seen o seen' o' /\
    represents k' o' /\ faults (heap k') = faults (heap k).
Proof.
  revert seen k o. induction n as [|n IH]; intros seen k o Hr Hw; cbn [heap_run].
  - exists seen, k, o. split; [done|]. split; [constructor|done].
  - destruct (heap_exec_simulates fuel (client seen) k o Hr) as (r & k1 & o1 & E1 & S1 & R1 & F1); [apply Hw; constructor|].
    rewrite E1. cbn [mbind option_bind]. destruct (IH (r :: seen) k1 o1 R1) as (seen' & k' & o' & E & S & R & F).
    { intros seen2 o2 H2. apply Hw. econstructor; eauto. }
    exists seen', k', o'. split; [done|]. split; [econstructor; eauto|]. split; [done|congruence].
Qed.

(** ** The heap at boot *)

Lemma heap_boot k : kmem_ok k -> small_free k = replicate 8 0 -> heap k = zero_heap -> heap_ok k (Ghost (replicate 8 []) []).
Proof.
  intros Hk Hs Hh. assert (Hb : heap_blks (Ghost (replicate 8 []) []) = []) by reflexivity.
  split; cbn [gh_free gh_live]; rewrite ?Hb, ?Hs, ?Hh; try done.
  - repeat constructor.
  - intros b a Hn. by apply elem_of_nil in Hn.
Qed.

Lemma reserve_range_heap s e k : small_free (reserve_range s e k) = small_free k /\ heap (reserve_range s e k) = heap k.
Proof. unfold reserve_range. by destruct (reserve_loop _ _ _ _ _ _ _) as [[l' t] f]. Qed.

Lemma scan_map_heap fuel info off k : small_free (scan_map fuel info off k) = small_free k /\ heap (scan_map fuel info off k) = heap k.
Proof.
  revert off k. induction fuel as [|fuel IH]; intros off k; cbn [scan_map]; [done|]. destruct (_ <=? _); [|done].
  destruct (IH (u64 (off + bi_memory_map_descriptor_size info)) (add_descriptor (bi_descriptor info off) k)) as [-> ->].
  unfold add_descriptor, add_free_range. destruct (negb _); [done|]. destruct (_ <? _); [|done]. by destruct (_ || _).
Qed.

(** [kmem_init] leaves an empty heap. *)
Lemma kmem_init_heap info d k : small_free (kmem_init info d k) = replicate 8 0 /\ heap (kmem_init info d k) = zero_heap.
Proof.
  unfold kmem_init. destruct info as [[info extra]|]; [|done]. destruct (_ || _ || _); [done|]. cbn [set_ranges small_free heap].
  repeat match goal with |- context [if ?b then _ else _] => destruct b end;
  repeat match goal with |- context [reserve_range ?s ?e ?k] => destruct (reserve_range_heap s e k) as [-> ->] end;
  match goal with |- context [scan_map ?f ?i ?o ?k] => destruct (scan_map_heap f i o k) as [-> ->] end; done.
Qed.
