(* ===== verification/HeapTest.v ===== *)
(** The heap's own tests: kernel/core/kmem.c, lines 618-880.

    [kmem_run_selftest] and [kmem_run_soaktest] allocate and release blocks of
    many sizes and compare the statistics before and after. On a heap that
    satisfies its invariant they end, leave every object of their callers as
    it was, and report success exactly when none of their requests was
    refused. *)
From Stdlib Require Import ZArith Lia.
From stdpp Require Import base tactics option list numbers gmap.
From S2P Require Import Prelude.
From S2P Require Import Memory.
From S2P Require Import Dma.
From S2P Require Import Kmem.
From S2P Require Import KmemSpec.
From S2P Require Import Heap.
From S2P Require Import HeapSpec.
From S2P Require Import HeapAlloc.
From S2P Require Import HeapClients.
#[local] Open Scope Z_scope.

(** ** The tests *)

(** The counters of the requests and the flag [bad]; the soak test alone
    reports [unexpected_failures]. *)
Record tally : Type := Tally {
  alloc_attempts : Z;
  alloc_successes : Z;
  unexpected_failures : Z;
  bad : bool
}.

(** [kmalloc] with the bookkeeping around it. *)
Definition tally_alloc (p : Z) (t : tally) : tally :=
  let attempts := u32 (alloc_attempts t + 1) in
  if p =? 0 then Tally attempts (alloc_successes t) (u32 (unexpected_failures t + 1)) true
  else Tally attempts (u32 (alloc_successes t + 1)) (unexpected_failures t) (bad t).

Fixpoint alloc_each (sizes : list Z) (s : tally * kmem) : list Z * (tally * kmem) :=
  match sizes with
  | [] => ([], s)
  | size :: sizes' =>
      let '(p, k) := kmalloc size (snd s) in
      let '(ps, s') := alloc_each sizes' (tally_alloc p (fst s), k) in
      (p :: ps, s')
  end.

(** [kfree(blocks[i]); blocks[i] = 0;] for the indices the loop visits. *)
Fixpoint free_where (fuel : nat) (visits : Z -> bool) (i : Z) (blocks : list Z) (k : kmem) : option (list Z * kmem) :=
  match blocks with
  | [] => Some ([], k)
  | p :: blocks' =>
      if visits i then
        k ← kfree fuel p k;
        '(ps, k) ← free_where fuel visits (i + 1) blocks' k;
        Some (0 :: ps, k)
      else
        '(ps, k) ← free_where fuel visits (i + 1) blocks' k;
        Some (p :: ps, k)
  end.

Fixpoint free_each (fuel : nat) (blocks : list Z) (k : kmem) : option kmem :=
  match blocks with
  | [] => Some k
  | p :: blocks' => k ← kfree fuel p k; free_each fuel blocks' k
  end.

(** The indices of [for (i = start; i < n; i += stride)]. *)
Definition from_by (start stride i : Z) : bool := (start <=? i) && ((i - start) mod stride =? 0).

Definition selftest_sizes : list Z :=
  [1; 7; 16; 24; 33; 48; 63; 80; 96; 127; 160; 191; 224; 255; 300; 384;
   511; 600; 700; 900; 1023; 1200; 1500; 1800; 2040; 2500; 3000; 3500; 4090; 5000; 7000; 9000;
   12000; 32; 64; 128; 256; 512; 1024; 2048; 3072; 4096; 8192; 12288; 5; 17; 65; 129;
   257; 513; 1025; 1536; 2049; 4097; 6144; 10000; 31; 62; 124; 248; 496; 992; 1984; 3968].

Definition gap_sizes : list Z := map (fun i => 96 + Z.of_nat i * 37) (seq 0 16).

(** The fields of [kmem_test_result_t] that are not copies of statistics. *)
Record kmem_test_result : Type := TestResult {
  tr_passed : bool;
  tr_tally : tally;
  tr_expected_failures : Z;
  tr_unexpected_successes : Z;
  tr_before : kmem_stats;
  tr_after : kmem_stats
}.

(** A request that must fail: the number of unexpected successes. *)
Definition probe_large (fuel : nat) (k : kmem) : option (Z * kmem) :=
  let '(p, k) := kmalloc 0xfffffff0 k in
  if p =? 0 then Some (0, k) else k ← kfree fuel p k; Some (1, k).

Definition probe_pages (free_pages : Z) (k : kmem) : Z * kmem :=
  let n := if free_pages <? 0xffffffff then u32 (u32 free_pages + 1) else 0xffffffff in
  let '(p, k) := page_alloc n k in
  if p =? 0 then (0, k) else (1, page_free p n k).

(** The block of zeros, tested byte by byte and released. *)
Definition test_zero_block (fuel : nat) (s : tally * kmem) : option (tally * kmem) :=
  let '(p, k) := kzalloc 257 (snd s) in
  let t := tally_alloc p (fst s) in
  if p =? 0 then Some (t, k)
  else
    let t := if forallb (Z.eqb 0) (mem_list 257 (kmem_memory k) p) then t
             else Tally (alloc_attempts t) (alloc_successes t) (unexpected_failures t) true in
    k ← kfree fuel p k;
    Some (t, k).

Definition same_totals (before after : kmem_stats) : bool :=
  (st_live_allocations after =? st_live_allocations before) && (st_heap_used_bytes after =? st_heap_used_bytes before) &&
  (kmem_fault_total after =? kmem_fault_total before).

Definition kmem_run_selftest (fuel : nat) (k : kmem) : option (kmem_test_result * kmem) :=
  before ← kmem_get_stats fuel k;
  '(u1, k) ← probe_large fuel k;
  let '(u2, k) := probe_pages (st_free_pages before) k in
  s ← test_zero_block fuel (Tally 0 0 0 false, k);
  let '(blocks, s) := alloc_each selftest_sizes s in
  '(blocks, k) ← free_where fuel (from_by 0 2) 0 blocks (snd s);
  let '(gaps, s) := alloc_each gap_sizes (fst s, k) in
  k ← free_each fuel gaps (snd s);
  k ← free_each fuel blocks k;
  after ← kmem_get_stats fuel k;
  let t := fst s in
  Some (TestResult (negb (bad t) && (u1 + u2 =? 0) && same_totals before after) t 2 (u1 + u2) before after, k).

(** ** The soak test *)

Definition soak_sizes : list Z :=
  [24; 40; 56; 72; 96; 120; 160; 192; 240; 300; 384; 480; 600; 760; 900; 1000;
   1200; 1500; 1800; 2040; 2300; 2800; 3400; 4080; 5000; 6500; 8192; 11000; 31; 63; 127; 255;
   511; 1023; 2047; 4095; 17; 33; 65; 129; 257; 513; 1025; 2049; 4097; 6144; 9000; 12000;
   88; 144; 208; 272; 336; 448; 704; 832; 1152; 1408; 1664; 1920; 2560; 3072; 3584; 3968;
   48; 80; 112; 176; 224; 288; 352; 416; 544; 672; 800; 960; 1184; 1472; 1984; 3008;
   3904; 4500; 5500; 7000; 8500; 10000; 12; 28; 44; 68; 108; 188; 252; 508; 768; 1536].

Definition workload_sizes : list Z := [32768; 65536; 65537; 131072; 262144; 262145; 393216; 524288].

Definition size_at (sizes : list Z) (index : Z) : Z := default 0 (sizes !! Z.to_nat index).

(** The sizes the loops of one cycle ask for. *)
Definition cycle_blocks (cycle : Z) : list Z :=
  map (fun i => size_at soak_sizes (u32 (Z.of_nat i * 17 + cycle * 7) mod 96)) (seq 0 96).
Definition cycle_workload (cycle : Z) : list Z :=
  map (fun i => size_at workload_sizes (u32 (Z.of_nat i + cycle) mod 8)) (seq 0 8).
Definition cycle_scratch (cycle : Z) : list Z :=
  map (fun i => 80 + u32 (Z.of_nat i * 113 + cycle * 29) mod 3000) (seq 0 24).

Definition soak_cycle (fuel : nat) (before : kmem_stats) (cycle : Z) (s : tally * Z * kmem) : option (tally * Z * kmem) :=
  let '(t, worst, k) := s in
  let '(blocks, s) := alloc_each (cycle_blocks cycle) (t, k) in
  let '(workload, s) := alloc_each (cycle_workload cycle) s in
  '(blocks, k) ← free_where fuel (from_by (cycle mod 3) 3) 0 blocks (snd s);
  let '(scratch, s) := alloc_each (cycle_scratch cycle) (fst s, k) in
  k ← free_each fuel scratch (snd s);
  '(workload, k) ← free_where fuel (from_by (cycle mod 2) 2) 0 workload k;
  k ← free_each fuel blocks k;
  k ← free_each fuel workload k;
  sample ← kmem_get_stats fuel k;
  let t := fst s in
  let worst := if worst <? st_fragmentation_percent sample then st_fragmentation_percent sample else worst in
  let t := if same_totals before sample then t
           else Tally (alloc_attempts t) (alloc_successes t) (unexpected_failures t) true in
  Some (t, worst, k).

Fixpoint soak_cycles (n : nat) (fuel : nat) (before : kmem_stats) (cycle : Z) (s : tally * Z * kmem) : option (tally * Z * kmem) :=
  match n with
  | O => Some s
  | S n' => s ← soak_cycle fuel before cycle s; soak_cycles n' fuel before (u32 (cycle + 1)) s
  end.

(** The fields of [kmem_soak_result_t] that are not copies of statistics. *)
Record kmem_soak_result : Type := SoakResult {
  sr_passed : bool;
  sr_cycles : Z;
  sr_tally : tally;
  sr_worst_fragmentation : Z;
  sr_before : kmem_stats;
  sr_after : kmem_stats
}.

Definition kmem_run_soaktest (fuel : nat) (cycles : Z) (k : kmem) : option (kmem_soak_result * kmem) :=
  let cycles := if cycles =? 0 then 1 else cycles in
  before ← kmem_get_stats fuel k;
  '(t, worst, k) ← soak_cycles (Z.to_nat cycles) fuel before 0 (Tally 0 0 0 false, st_fragmentation_percent before, k);
  after ← kmem_get_stats fuel k;
  Some (SoakResult (negb (bad t) && (unexpected_failures t =? 0) && same_totals before after) cycles t worst before after, k).

(** ** What the tests keep *)

(** The heap [k] holds the blocks [held] of the test and the blocks [base]
    of others, which are as they were in [k0]. *)
Definition kept (k0 : kmem) (base : list alloc) (k : kmem) (held : list alloc) : Prop :=
  exists g, heap_ok k g /\ gh_live g ≡ₚ held ++ base /\
    undisturbed (kmem_memory k0) (kmem_memory k) (live_blks base) /\ faults (heap k) = faults (heap k0).

Lemma kept_start k g : heap_ok k g -> kept k (gh_live g) k [].
Proof. intros Hok. exists g. split; [done|]. split; [done|]. split; [apply undisturbed_refl|done]. Qed.

#[export] Instance kept_proper k0 base k : Proper (Permutation ==> iff) (kept k0 base k).
Proof. intros h h' Hh. unfold kept. split; intros (g & H1 & H2 & H3); exists g; [rewrite <- Hh|rewrite Hh]; done. Qed.

Lemma undisturbed_sub m m' l k : l ⊆ k -> undisturbed m m' (live_blks k) -> undisturbed m m' (live_blks l).
Proof.
  unfold undisturbed. rewrite !Forall_elem. intros Hlk Hu b Hb. apply list_elem_of_fmap in Hb as (a & -> & Ha).
  apply Hu, list_elem_of_fmap. exists a. auto.
Qed.

Lemma kept_outcome k0 base k held byte size p k' : kept k0 base k held ->
  (forall g, heap_ok k g -> kmalloc_outcome byte size k g (p, k')) ->
  (p = 0 /\ kept k0 base k' held) \/
  (p <> 0 /\ (forall x, p <= x < p + size -> kmem_memory k' x = byte) /\ exists al, al_ptr al = p /\ kept k0 base k' (al :: held)).
Proof.
  intros (g & H1 & H2 & H3 & H4) Ho. destruct (Ho g H1) as (g' & G1 & _ & G3 & G4 & G5).
  assert (Hu : undisturbed (kmem_memory k0) (kmem_memory k') (live_blks base)).
  { eapply undisturbed_trans; [exact H3|]. eapply undisturbed_sub; [|exact G3]. intros a Ha. rewrite H2, elem_of_app. by right. }
  destruct (decide (p = 0)) as [Hp|Hp].
  - left. destruct G5 as (-> & _). split; [done|]. exists g. split; [done|]. split; [done|]. split; [done|congruence].
  - right. destruct G5 as (al & A1 & A2 & _ & _ & A5 & _). split; [done|]. split; [done|]. exists al. split; [done|]. exists g'. split; [done|].
    split; [|split; [done|congruence]]. rewrite A1, H2. done.
Qed.

Lemma kept_kfree k0 base k l1 al l2 : kept k0 base k (l1 ++ al :: l2) ->
  exists k', (forall fuel, kfree fuel (al_ptr al) k = Some k') /\ kept k0 base k' (l1 ++ l2).
Proof.
  intros (g & H1 & H2 & H3 & H4). assert (Hal : al ∈ gh_live g) by (rewrite H2, !elem_of_app, elem_of_cons; auto).
  apply list_elem_of_split in Hal as (m1 & m2 & El). destruct (kfree_ok k g m1 al m2 H1 El) as (k' & g' & K1 & K2 & K3 & _ & K5 & K6).
  exists k'. split; [done|]. exists g'. split; [done|].
  assert (Hp : m1 ++ m2 ≡ₚ (l1 ++ l2) ++ base).
  { apply (Permutation_cons_inv (a := al)). rewrite Permutation_middle, <- El, H2, <- !app_assoc. cbn [app]. symmetry. apply Permutation_middle. }
  split; [by rewrite K3|]. split; [|congruence]. eapply undisturbed_trans; [exact H3|]. eapply undisturbed_sub; [|exact K5].
  intros a Ha. rewrite Hp, elem_of_app. by right.
Qed.

(** The blocks an array of pointers holds. *)
Definition points (ptrs : list Z) (held : list alloc) : Prop := map al_ptr held = filter (fun p => p <> 0) ptrs.

Lemma kept_ptr_pos k0 base k l1 al l2 : kept k0 base k (l1 ++ al :: l2) -> al_ptr al <> 0.
Proof.
  intros (g & H1 & H2 & _). assert (Hal : al ∈ gh_live g) by (rewrite H2, !elem_of_app, elem_of_cons; auto).
  destruct (live_header k g al H1 Hal) as (_ & _ & Hpos & _). unfold al_ptr, HEADER_SIZE. lia.
Qed.

Lemma points_cons p ptrs held : points (p :: ptrs) held ->
  (p = 0 /\ points ptrs held) \/ (exists al held', p = al_ptr al /\ held = al :: held' /\ points ptrs held').
Proof.
  unfold points. rewrite filter_cons. destruct (decide (p <> 0)) as [Hp|Hp].
  - intros Hm. right. destruct held as [|al held']; [done|]. injection Hm as Hm1 Hm2. by exists al, held'.
  - intros Hm. left. split; [lia|done].
Qed.

Lemma points_zero ptrs held : points ptrs held -> points (0 :: ptrs) held.
Proof. unfold points. rewrite filter_cons, decide_False by lia. done. Qed.

Lemma points_push al ptrs held : al_ptr al <> 0 -> points ptrs held -> points (al_ptr al :: ptrs) (al :: held).
Proof. unfold points. intros Hp Hm. rewrite filter_cons, decide_True by done. cbn [map]. by rewrite Hm. Qed.

Lemma free_each_kept k0 base ptrs k held rest : points ptrs held -> kept k0 base k (held ++ rest) ->
  exists k', (forall fuel, free_each fuel ptrs k = Some k') /\ kept k0 base k' rest.
Proof.
  revert k held. induction ptrs as [|p ptrs IH]; intros k held Hp Hk; cbn [free_each].
  - unfold points in Hp. cbn in Hp. destruct held; [|done]. by exists k.
  - destruct (points_cons _ _ _ Hp) as [[-> Hp']|(al & held' & -> & -> & Hp')].
    + destruct (IH k held Hp' Hk) as (k' & K1 & K2). exists k'. split; [|done]. intros fuel. unfold kfree. cbn [Z.eqb mbind option_bind]. apply K1.
    + destruct (kept_kfree k0 base k [] al (held' ++ rest) Hk) as (k1 & K1 & K2). destruct (IH k1 held' Hp' K2) as (k' & K3 & K4).
      exists k'. split; [|done]. intros fuel. rewrite K1. cbn [mbind option_bind]. apply K3.
Qed.

Lemma free_where_kept k0 base visits i ptrs k held rest : points ptrs held -> kept k0 base k (held ++ rest) ->
  exists ptrs' held' k', (forall fuel, free_where fuel visits i ptrs k = Some (ptrs', k')) /\ points ptrs' held' /\ kept k0 base k' (held' ++ rest).
Proof.
  revert i k held rest. induction ptrs as [|p ptrs IH]; intros i k held rest Hp Hk; cbn [free_where].
  - by exists [], held, k.
  - destruct (points_cons _ _ _ Hp) as [[-> Hp']|(al & held' & -> & -> & Hp')].
    + destruct (IH (i + 1) k held rest Hp' Hk) as (ptrs' & held' & k' & K1 & K2 & K3). exists (0 :: ptrs'), held', k'.
      split; [|split; [by apply points_zero|done]]. intros fuel. unfold kfree. cbn [Z.eqb mbind option_bind]. rewrite K1. by destruct (visits i).
    + destruct (visits i).
      * destruct (kept_kfree k0 base k [] al (held' ++ rest) Hk) as (k1 & K1 & K2).
        destruct (IH (i + 1) k1 held' rest Hp' K2) as (ptrs' & held2 & k' & K3 & K4 & K5). exists (0 :: ptrs'), held2, k'.
        split; [|split; [by apply points_zero|done]]. intros fuel. rewrite K1. cbn [mbind option_bind]. by rewrite K3.
      * assert (Hk' : kept k0 base k (held' ++ al :: rest)) by (by rewrite <- Permutation_middle).
        destruct (IH (i + 1) k held' (al :: rest) Hp' Hk') as (ptrs' & held2 & k' & K3 & K4 & K5). exists (al_ptr al :: ptrs'), (al :: held2), k'.
        split; [intros fuel; by rewrite K3|]. split; [apply points_push; [|done]; by eapply (kept_ptr_pos k0 base k [])|].
        by rewrite <- Permutation_middle in K5.
Qed.

(** The counters after [n] requests; [bad] says whether one was refused. *)
Record tally_ok (n : Z) (t : tally) : Prop := {
  ty_attempts : alloc_attempts t = n;
  ty_sum : alloc_successes t + unexpected_failures t = n;
  ty_pos : 0 <= alloc_successes t /\ 0 <= unexpected_failures t;
  ty_bad : bad t = negb (unexpected_failures t =? 0)
}.

Lemma tally_alloc_ok n t p : tally_ok n t -> 0 <= n < 4294967295 -> tally_ok (n + 1) (tally_alloc p t).
Proof.
  intros [T1 T2 [T3 T3'] T4] Hn. unfold tally_alloc. rewrite (u32_small (alloc_attempts t + 1)) by cint.
  destruct (p =? 0); [rewrite (u32_small (unexpected_failures t + 1)) by cint|rewrite (u32_small (alloc_successes t + 1)) by cint];
    (split; cbn [alloc_attempts alloc_successes unexpected_failures bad]; [lia|lia|lia|]); [|done].
  by rewrite (proj2 (Z.eqb_neq _ _)) by lia.
Qed.

Lemma alloc_each_kept k0 base sizes n t k held : tally_ok n t -> 0 <= n -> n + Z.of_nat (length sizes) < 4294967296 ->
  Forall is_u32 sizes -> kept k0 base k held ->
  let '(ps, (t', k')) := alloc_each sizes (t, k) in
  tally_ok (n + Z.of_nat (length sizes)) t' /\ exists new, points ps new /\ kept k0 base k' (new ++ held).
Proof.
  revert n t k held. induction sizes as [|size sizes IH]; intros n t k held Ht Hn0 Hn Hs Hk; cbn [alloc_each length fst snd].
  - rewrite Z.add_0_r. split; [done|]. by exists [].
  - cbn [length] in Hn. apply Forall_cons_1 in Hs as [Hs1 Hs2].
    pose proof (fun g Hg => kmalloc_ok size k g Hg Hs1) as Ho. destruct (kmalloc size k) as [p k1].
    assert (Ht1 := tally_alloc_ok n t p Ht ltac:(lia)). replace (n + Z.of_nat (S (length sizes))) with (n + 1 + Z.of_nat (length sizes)) by lia.
    destruct (kept_outcome k0 base k held (fresh_byte size) size p k1 Hk Ho) as [[-> Hk1]|(Hp & _ & al & <- & Hk1)].
    + specialize (IH (n + 1) (tally_alloc 0 t) k1 held Ht1 ltac:(lia) ltac:(lia) Hs2 Hk1).
      destruct (alloc_each sizes (tally_alloc 0 t, k1)) as [ps [t' k']]. destruct IH as (I1 & new & I2 & I3).
      split; [done|]. exists new. split; [by apply points_zero|done].
    + specialize (IH (n + 1) (tally_alloc (al_ptr al) t) k1 (al :: held) Ht1 ltac:(lia) ltac:(lia) Hs2 Hk1).
      destruct (alloc_each sizes (tally_alloc (al_ptr al) t, k1)) as [ps [t' k']]. destruct IH as (I1 & new & I2 & I3).
      split; [done|]. exists (al :: new). split; [by apply points_push|]. by rewrite <- Permutation_middle in I3.
Qed.

(** Statistics before and after agree when the same blocks are in use. *)
Lemma kept_stats k0 g0 k held : heap_ok k0 g0 -> kept k0 (gh_live g0) k held ->
  exists n st0 st, (forall fuel, (n <= fuel)%nat -> kmem_get_stats fuel k0 = Some st0 /\ kmem_get_stats fuel k = Some st) /\ st_free_pages st0 = pages_of (free_ranges k0) /\
    0 <= st_fragmentation_percent st < 100 /\ 0 <= st_fragmentation_percent st0 < 100 /\ (held = [] -> same_totals st0 st = true).
Proof.
  intros Hok (g & H1 & H2 & H3 & H4).
  destruct (enough_fuel (gh_free g0)) as [n0 Hn0]. destruct (enough_fuel (gh_free g)) as [n1 Hn1]. 
  destruct (kmem_get_stats_ok k0 g0 Hok) as (st0 & E0 & S0 & F0). destruct (kmem_get_stats_ok k g H1) as (st & E1 & S1 & F1).
  exists (Nat.max n0 n1), st0, st. split; [intros fuel Hf; split; [apply E0, Hn0; lia|apply E1, Hn1; lia]|]. split; [apply (se_free _ _ _ S0)|]. split; [apply (se_percent _ _ _ S1)|]. split; [apply (se_percent _ _ _ S0)|].
  intros ->. cbn [app] in H2. unfold same_totals, kmem_fault_total.
  rewrite (se_live _ _ _ S0), (se_live _ _ _ S1), (se_used _ _ _ S0), (se_used _ _ _ S1).
  assert (El : length (gh_live g) = length (gh_live g0)) by (by rewrite H2).
  assert (Et : total_len (live_blks (gh_live g)) = total_len (live_blks (gh_live g0))) by (unfold live_blks; by rewrite H2).
  rewrite El, Et, !Z.eqb_refl. cbn [andb]. rewrite <- F1, <- F0 in H4. injection H4 as -> -> ->. apply Z.eqb_refl.
Qed.

Lemma kept_count_failure k0 base k held : kept k0 base k held -> kept k0 base (count_failure k) held.
Proof. intros (g & H1 & H2). exists g. split; [by apply heap_ok_count_failure|done]. Qed.

Lemma probe_large_ok fuel k : probe_large fuel k = Some (0, count_failure k).
Proof. reflexivity. Qed.

(** More pages than are free are refused. *)
Lemma probe_pages_ok k0 base k held n : kept k0 base k held -> n = free_page_count k -> n < 0xffffffff ->
  exists k', probe_pages n k = (0, k') /\ kept k0 base k' held.
Proof.
  intros (g & H1 & H2 & H3 & H4) -> Hn. pose proof (ho_pages _ _ H1) as Hk. pose proof (pages_nonneg _ (ko_ranges _ Hk)) as Hp. rewrite <- (ko_count _ Hk) in Hp.
  unfold probe_pages. rewrite (proj2 (Z.ltb_lt _ _)) by lia. rewrite (u32_small (free_page_count k)), u32_small by cint.
  destruct (page_alloc (free_page_count k + 1) k) as [p k'] eqn:E. pose proof (page_alloc_ok (free_page_count k + 1) k Hk ltac:(cint)) as Ho.
  rewrite E in Ho. destruct Ho as [Hk' Ho]. destruct (Z.eqb_spec p 0) as [->|Hp0].
  - exists k'. split; [done|]. pose proof (page_alloc_frame (free_page_count k + 1) k) as Hf. rewrite E in Hf. cbn [fst snd] in Hf. destruct Hf as (F1 & F2 & _).
    destruct (page_alloc_none (free_page_count k + 1) k k' Hk ltac:(cint) ltac:(lia) E) as (N1 & N2 & _ & N4 & _). exists g.
    split; [|split; [done|]]; [|by rewrite N2, F1]. eapply heap_ok_memory; [exact H1|done|done|done|congruence|congruence|]. rewrite N2. apply undisturbed_refl.
  - exfalso. rewrite decide_False in Ho by done. destruct Ho as (_ & _ & _ & _ & _ & Hc & _). unfold kmem_free_pages in Hc.
    pose proof (pages_nonneg _ (ko_ranges _ Hk')) as Hp'. rewrite <- (ko_count _ Hk') in Hp'. lia.
Qed.

Lemma test_zero_block_ok k0 base k t : tally_ok 0 t -> kept k0 base k [] ->
  exists t' k', (forall fuel, test_zero_block fuel (t, k) = Some (t', k')) /\ tally_ok 1 t' /\ kept k0 base k' [].
Proof.
  intros Ht Hk. unfold test_zero_block. cbn [fst snd]. pose proof (fun g Hg => kzalloc_ok 257 k g Hg ltac:(cint)) as Ho. destruct (kzalloc 257 k) as [p k1].
  assert (Ht1 := tally_alloc_ok 0 t p Ht ltac:(lia)). destruct (kept_outcome k0 base k [] 0 257 p k1 Hk Ho) as [[-> Hk1]|(Hp & Hz & al & <- & Hk1)].
  - eexists _, k1. split; [by intros fuel|]. done.
  - destruct (Z.eqb_spec (al_ptr al) 0) as [|_]; [done|]. destruct (kept_kfree k0 base k1 [] al [] Hk1) as (k' & K1 & K2).
    eexists _, k'. split; [intros fuel; rewrite K1; reflexivity|]. split; [|done].
    rewrite (mem_list_const 257 _ _ 0) by done. exact Ht1.
Qed.

Lemma selftest_sizes_ok : Forall is_u32 selftest_sizes /\ Forall is_u32 gap_sizes.
Proof. split; apply (bool_decide_unpack _); vm_compute; exact I. Qed.

(** The self-test ends, keeps everybody else's blocks, and passes exactly when
    no request was refused. *)
Lemma selftest_ok k g : heap_ok k g -> free_page_count k < 0xffffffff ->
  exists n r k', (forall fuel, (n <= fuel)%nat -> kmem_run_selftest fuel k = Some (r, k')) /\ kept k (gh_live g) k' [] /\
    alloc_attempts (tr_tally r) = 81 /\ tr_unexpected_successes r = 0 /\
    tr_passed r = bool_decide (alloc_successes (tr_tally r) = 81).
Proof.
  intros Hok Hfp. pose proof (kept_start k g Hok) as K0.
  destruct (probe_pages_ok _ _ _ _ (free_page_count k) (kept_count_failure _ _ _ _ K0) eq_refl Hfp) as (k1 & E1 & K1).
  destruct (test_zero_block_ok k (gh_live g) k1 (Tally 0 0 0 false)) as (t2 & k2 & E2 & T2 & K2); [done|done|].
  destruct selftest_sizes_ok as [S1 S2].
  pose proof (alloc_each_kept k (gh_live g) selftest_sizes 1 t2 k2 [] T2 ltac:(lia) ltac:(cbn; lia) S1 K2) as A3.
  destruct (alloc_each selftest_sizes (t2, k2)) as [ps3 [t3 k3]] eqn:E3. destruct A3 as (T3 & new3 & P3 & K3).
  destruct (free_where_kept k (gh_live g) (from_by 0 2) 0 ps3 k3 new3 [] P3 K3) as (ps4 & held4 & k4 & E4 & P4 & K4).
  pose proof (alloc_each_kept k (gh_live g) gap_sizes _ t3 k4 _ T3 ltac:(cbn; lia) ltac:(cbn; lia) S2 K4) as A5.
  destruct (alloc_each gap_sizes (t3, k4)) as [ps5 [t5 k5]] eqn:E5. destruct A5 as (T5 & new5 & P5 & K5).
  destruct (free_each_kept _ _ ps5 k5 new5 _ P5 K5) as (k6 & E6 & K6).
  destruct (free_each_kept _ _ ps4 k6 held4 [] P4 K6) as (k7 & E7 & K7).
  destruct (kept_stats k g k7 [] Hok K7) as (n & st0 & st & Hst & Q3 & _ & _ & Q5).
  exists n. eexists _, k7. split.
  { intros fuel Hf. destruct (Hst fuel Hf) as [Q1 Q2]. unfold kmem_run_selftest. rewrite Q1. cbn [mbind option_bind]. rewrite probe_large_ok. cbn [mbind option_bind]. rewrite Q3, <- (ko_count _ (ho_pages _ _ Hok)), E1.
    rewrite E2. cbn [mbind option_bind]. rewrite E3. cbn [fst snd]. rewrite E4. cbn [mbind option_bind]. rewrite E5. cbn [fst snd].
    rewrite E6. cbn [mbind option_bind]. rewrite E7. cbn [mbind option_bind]. rewrite Q2. reflexivity. }
  cbn [tr_tally tr_unexpected_successes tr_passed]. destruct T5 as [Y1 Y2 Y3 Y4]. change (1 + Z.of_nat (length selftest_sizes) + Z.of_nat (length gap_sizes)) with 81 in *.
  split; [done|]. split; [done|]. split; [done|]. rewrite Y4, (Q5 eq_refl), negb_involutive, !andb_true_r.
  destruct (Z.eqb_spec (unexpected_failures t5) 0); [by rewrite bool_decide_true by lia|by rewrite bool_decide_false by lia].
Qed.

Lemma map_size_ok (f : nat -> Z) n : (forall i, is_u32 (f i)) -> Forall is_u32 (map f (seq 0 n)).
Proof. intros Hf. apply Forall_elem. intros x (i & -> & _)%list_elem_of_fmap. apply Hf. Qed.

Lemma size_at_ok sizes i : Forall is_u32 sizes -> is_u32 (size_at sizes i).
Proof.
  intros Hs. unfold size_at. destruct (sizes !! Z.to_nat i) as [x|] eqn:E; [|cbn; cint]. rewrite Forall_elem in Hs. apply Hs. by eapply list_elem_of_lookup_2.
Qed.

Lemma cycle_sizes_ok cycle : Forall is_u32 (cycle_blocks cycle) /\ Forall is_u32 (cycle_workload cycle) /\ Forall is_u32 (cycle_scratch cycle).
Proof.
  split; [|split]; apply map_size_ok; intros i; [apply size_at_ok, (bool_decide_unpack _); vm_compute; exact I..|].
  assert (Hm := Z.mod_pos_bound (u32 (Z.of_nat i * 113 + cycle * 29)) 3000 ltac:(lia)). cint.
Qed.

(** One cycle leaves the heap as it found it. *)
Lemma soak_cycle_ok k0 g0 before n0 n t worst k cycle : heap_ok k0 g0 -> (forall fuel, (n0 <= fuel)%nat -> kmem_get_stats fuel k0 = Some before) ->
  tally_ok n t -> 0 <= n -> n + 128 < 4294967296 -> 0 <= worst < 100 -> kept k0 (gh_live g0) k [] ->
  exists m t' worst' k', (forall fuel, (m <= fuel)%nat -> soak_cycle fuel before cycle (t, worst, k) = Some (t', worst', k')) /\
    tally_ok (n + 128) t' /\ worst <= worst' < 100 /\ kept k0 (gh_live g0) k' [].
Proof.
  intros Hok Hbefore Ht Hn0 Hn Hw Hk. destruct (cycle_sizes_ok cycle) as (S1 & S2 & S3).
  assert (L1 : length (cycle_blocks cycle) = 96%nat) by apply length_map. assert (L2 : length (cycle_workload cycle) = 8%nat) by apply length_map.
  assert (L3 : length (cycle_scratch cycle) = 24%nat) by apply length_map.
  pose proof (alloc_each_kept k0 _ (cycle_blocks cycle) n t k [] Ht Hn0 ltac:(lia) S1 Hk) as A1. rewrite L1 in A1.
  destruct (alloc_each (cycle_blocks cycle) (t, k)) as [ps1 [t1 k1]] eqn:E1. destruct A1 as (T1 & new1 & P1 & K1). rewrite app_nil_r in K1.
  pose proof (alloc_each_kept k0 _ (cycle_workload cycle) _ t1 k1 _ T1 ltac:(lia) ltac:(lia) S2 K1) as A2. rewrite L2 in A2.
  destruct (alloc_each (cycle_workload cycle) (t1, k1)) as [ps2 [t2 k2]] eqn:E2. destruct A2 as (T2 & new2 & P2 & K2). rewrite Permutation_app_comm in K2.
  destruct (free_where_kept k0 _ (from_by (cycle mod 3) 3) 0 ps1 k2 new1 new2 P1 K2) as (ps3 & held3 & k3 & E3 & P3 & K3).
  pose proof (alloc_each_kept k0 _ (cycle_scratch cycle) _ t2 k3 _ T2 ltac:(lia) ltac:(lia) S3 K3) as A4. rewrite L3 in A4.
  destruct (alloc_each (cycle_scratch cycle) (t2, k3)) as [ps4 [t4 k4]] eqn:E4. destruct A4 as (T4 & new4 & P4 & K4).
  destruct (free_each_kept k0 _ ps4 k4 new4 _ P4 K4) as (k5 & E5 & K5). rewrite Permutation_app_comm in K5.
  destruct (free_where_kept k0 _ (from_by (cycle mod 2) 2) 0 ps2 k5 new2 held3 P2 K5) as (ps6 & held6 & k6 & E6 & P6 & K6).
  rewrite Permutation_app_comm in K6. destruct (free_each_kept k0 _ ps3 k6 held3 held6 P3 K6) as (k7 & E7 & K7).
  rewrite <- (app_nil_r held6) in K7. destruct (free_each_kept k0 _ ps6 k7 held6 [] P6 K7) as (k8 & E8 & K8).
  destruct (kept_stats k0 g0 k8 [] Hok K8) as (m & st0 & st & Hst & _ & Q4 & _ & Q5).
  assert (st0 = before) as ->.
  { destruct (Hst (Nat.max m n0) ltac:(lia)) as [Q1 _]. rewrite Hbefore in Q1 by lia. congruence. }
  exists m. eexists _, _, k8. split.
  { intros fuel Hf. destruct (Hst fuel Hf) as [_ Q2]. unfold soak_cycle. rewrite E1, E2. cbn [fst snd]. rewrite E3. cbn [mbind option_bind]. rewrite E4. cbn [fst snd].
    rewrite E5. cbn [mbind option_bind]. rewrite E6. cbn [mbind option_bind]. rewrite E7. cbn [mbind option_bind]. rewrite E8. cbn [mbind option_bind].
    rewrite Q2. cbn [mbind option_bind]. rewrite (Q5 eq_refl). reflexivity. }
  split; [|split; [|done]].
  - replace (n + 128) with (n + Z.of_nat 96 + Z.of_nat 8 + Z.of_nat 24) by lia. exact T4.
  - destruct (Z.ltb_spec worst (st_fragmentation_percent st)); lia.
Qed.

Lemma soak_cycles_ok k0 g0 before n0 c n t worst k cycle : heap_ok k0 g0 -> (forall fuel, (n0 <= fuel)%nat -> kmem_get_stats fuel k0 = Some before) ->
  tally_ok n t -> 0 <= n -> n + 128 * Z.of_nat c < 4294967296 -> 0 <= worst < 100 -> kept k0 (gh_live g0) k [] ->
  exists m t' worst' k', (forall fuel, (m <= fuel)%nat -> soak_cycles c fuel before cycle (t, worst, k) = Some (t', worst', k')) /\
    tally_ok (n + 128 * Z.of_nat c) t' /\ worst <= worst' < 100 /\ kept k0 (gh_live g0) k' [].
Proof.
  intros Hok Hbefore. revert n t worst k cycle. induction c as [|c IH]; intros n t worst k cycle Ht Hn0 Hn Hw Hk; cbn [soak_cycles].
  - rewrite Z.mul_0_r, Z.add_0_r. exists 0%nat, t, worst, k. split; [done|]. split; [done|]. split; [lia|done].
  - destruct (soak_cycle_ok k0 g0 before n0 n t worst k cycle Hok Hbefore Ht Hn0 ltac:(lia) Hw Hk) as (m1 & t1 & w1 & k1 & E1 & T1 & W1 & K1).
    destruct (IH (n + 128) t1 w1 k1 (u32 (cycle + 1)) T1 ltac:(lia) ltac:(lia) ltac:(lia) K1) as (m2 & t2 & w2 & k2 & E2 & T2 & W2 & K2).
    exists (Nat.max m1 m2), t2, w2, k2. split; [|split; [|split; [lia|done]]].
    + intros fuel Hf. rewrite E1 by lia. cbn [mbind option_bind]. apply E2. lia.
    + by replace (n + 128 * Z.of_nat (S c)) with (n + 128 + 128 * Z.of_nat c) by lia.
Qed.

(** The same for the soak test of [cycles] rounds. *)
Lemma soaktest_ok cycles k g : heap_ok k g -> 0 < cycles -> 128 * cycles < 4294967296 ->
  exists n r k', (forall fuel, (n <= fuel)%nat -> kmem_run_soaktest fuel cycles k = Some (r, k')) /\ kept k (gh_live g) k' [] /\
    alloc_attempts (sr_tally r) = 128 * cycles /\ 0 <= sr_worst_fragmentation r < 100 /\
    sr_passed r = bool_decide (alloc_successes (sr_tally r) = 128 * cycles).
Proof.
  intros Hok Hc Hb. pose proof (kept_start k g Hok) as K0. destruct (kept_stats k g k [] Hok K0) as (n0 & st0 & st1 & Hst0 & _ & _ & Hp0 & _).
  destruct (soak_cycles_ok k g st0 n0 (Z.to_nat cycles) 0 (Tally 0 0 0 false) (st_fragmentation_percent st0) k 0 Hok) as (m & t & w & k1 & E & T & W & K1);
    [by intros fuel Hf; apply Hst0|done|lia|lia|done|done|].
  destruct (kept_stats k g k1 [] Hok K1) as (n2 & st0' & st & Hst & _ & _ & _ & Q5).
  assert (st0' = st0) as ->.
  { destruct (Hst (Nat.max n0 n2) ltac:(lia)) as [Q1 _]. destruct (Hst0 (Nat.max n0 n2) ltac:(lia)) as [Q2 _]. congruence. }
  rewrite Z.add_0_l, Z2Nat.id in T by lia. exists (Nat.max (Nat.max n0 n2) m). eexists _, k1. split.
  { intros fuel Hf. unfold kmem_run_soaktest. rewrite (proj2 (Z.eqb_neq _ _)) by lia. destruct (Hst0 fuel ltac:(lia)) as [Q1 _]. rewrite Q1. cbn [mbind option_bind].
    rewrite E by lia. cbn [mbind option_bind]. destruct (Hst fuel ltac:(lia)) as [_ Q2]. rewrite Q2. reflexivity. }
  cbn [sr_tally sr_passed sr_worst_fragmentation]. destruct T as [Y1 Y2 Y3 Y4]. split; [done|]. split; [done|]. split; [lia|].
  rewrite Y4, (Q5 eq_refl), negb_involutive, andb_true_r, andb_diag.
  destruct (Z.eqb_spec (unexpected_failures t) 0); [by rewrite bool_decide_true by lia|by rewrite bool_decide_false by lia].
Qed.

(** Other clients see the objects they had. *)
Lemma kept_objects k g k' : heap_ok k g -> kept k (gh_live g) k' [] ->
  represents k' (objects_of (kmem_memory k) (gh_live g)) /\ faults (heap k') = faults (heap k).
Proof.
  intros Hok (g' & H1 & H2 & H3 & H4). split; [|done]. exists g'. split; [done|]. cbn [app] in H2.
  rewrite <- (objects_same _ _ _ (live_wf _ _ Hok) H3). symmetry. unfold objects_of. apply list_to_map_proper; [by eapply ptrs_nodup|]. by rewrite H2.
Qed.
