(* ===== verification/HeapTheorems.v ===== *)
(** The theorems about the kernel heap. *)
From Stdlib Require Import ZArith Lia.
From stdpp Require Import base tactics option list numbers gmap.
From S2P Require Import Prelude.
From S2P Require Import Memory.
From S2P Require Import Dma.
From S2P Require Import Kmem.
From S2P Require Import KmemSpec.
From S2P Require Import KmemBoot.
From S2P Require Import Heap.
From S2P Require Import HeapSpec.
From S2P Require Import HeapAlloc.
From S2P Require Import HeapClients.
From S2P Require Import HeapTest.
#[local] Open Scope Z_scope.

(** A heap right after boot, with 64 free pages. *)
Definition demo_heap : kmem :=
  Kmem [PageRange 0x200000 64] 64 64 0 zero_heap (replicate 8 0) (fun _ => 1).
Definition empty_ghost : ghost := Ghost (replicate 8 []) [].

Lemma demo_heap_ok : heap_ok demo_heap empty_ghost.
Proof.
  apply heap_boot; [|done|done]. split; cbn [free_ranges demo_heap].
  - constructor; [|constructor]. by split.
  - split; [constructor|done].
  - cbn. lia.
  - done.
Qed.

Lemma demo_heap_empty : represents demo_heap ∅.
Proof. exists empty_ghost. split; [apply demo_heap_ok|done]. Qed.

(** C18: The heap implements a map of objects. Whatever a client does that
    releases and writes only what it holds, every operation ends, a new block
    is a new object with its initial bytes, a released block is gone, and no
    operation touches another object or is counted as a fault. *)
Theorem heap_implements_objects fuel client n k o : represents k o -> well_behaved client [] o ->
  exists seen k' o', heap_run fuel n client [] k = Some (seen, k') /\ spec_run client [] o seen o' /\
    represents k' o' /\ faults (heap k') = faults (heap k).
Proof. apply heap_run_simulates. Qed.

(** A client that asks for 100 bytes, releases them, and asks for pages. *)
Definition demo_client (seen : list Z) : heap_op :=
  match seen with [] => OpMalloc 100 | [p] => OpFree p | _ => OpZalloc 5000 end.

Lemma spec_run_length client seen o seen' o' : spec_run client seen o seen' o' -> (length seen <= length seen')%nat.
Proof. induction 1; cbn in *; lia. Qed.

Lemma demo_client_behaves : well_behaved demo_client [] ∅.
Proof.
  intros seen' o' Hr. destruct seen' as [|p [|q l]]; [cbn; cint| |cbn; cint].
  inversion Hr as [|? ? r o1 ? ? Hs Hr']; subst. inversion Hr' as [|? ? r2 o2 ? ? Hs2 Hr2]; subst.
  - destruct Hs as [[-> _]|(_ & _ & _ & ->)]; [by left|right]. rewrite lookup_insert_eq. by eexists.
  - apply spec_run_length in Hr2. cbn in Hr2. lia.
Qed.

Lemma heap_implements_objects_witness : exists seen k' o', heap_run 10 3 demo_client [] demo_heap = Some (seen, k') /\
  spec_run demo_client [] ∅ seen o' /\ represents k' o' /\ faults (heap k') = (0, 0, 0).
Proof. apply (heap_implements_objects 10 demo_client 3 demo_heap ∅ demo_heap_empty demo_client_behaves). Defined.

(** [kmalloc] and [kzalloc] refuse a request only when it is empty, needs
    more than 65535 pages or finds no free block or pages, and then change
    nothing; else the block is new, has room for its header, its bytes and
    its guard, is filled with 0xA5 or zeros, and is apart from all others.
    [kmalloc_size] answers the size asked for, for every block in use. *)
Theorem kmalloc_exact size k g : heap_ok k g -> is_u32 size ->
  kmalloc_outcome (fresh_byte size) size k g (kmalloc size k) /\ kmalloc_outcome 0 size k g (kzalloc size k) /\
  (forall al, al ∈ gh_live g -> kmalloc_size (al_ptr al) k = al_size al) /\
  (forall i j a b, gh_live g !! i = Some a -> gh_live g !! j = Some b -> i <> j ->
     apart (al_ptr a, al_size a + 4) (al_ptr b, al_size b + 4)).
Proof.
  intros Hok Hs. split; [by apply kmalloc_ok|]. split; [by apply kzalloc_ok|]. split; [intros al; by apply kmalloc_size_live|].
  intros i j a b Ha Hb Hij. pose proof (live_apart k g i j a b Hok Ha Hb Hij) as Hap.
  pose proof (live_wf _ _ Hok) as Hw. rewrite Forall_elem in Hw.
  destruct (Hw a) as (A1 & A2 & _); [by eapply list_elem_of_lookup_2|]. destruct (Hw b) as (B1 & B2 & _); [by eapply list_elem_of_lookup_2|].
  unfold apart, al_blk, al_ptr, HEADER_SIZE in *. cbn [fst snd] in *. lia.
Qed.

Lemma kmalloc_exact_witness : fst (kmalloc 100 demo_heap) = 0x200f98 /\ kmalloc_outcome (fresh_byte 100) 100 demo_heap empty_ghost (kmalloc 100 demo_heap).
Proof. split; [vm_compute; reflexivity|]. destruct (kmalloc_exact 100 demo_heap empty_ghost demo_heap_ok) as [H _]; [cint|exact H]. Defined.

(** Faults are noticed and counted. A block released twice, a pointer that
    is no block and a block whose guard was overwritten each move exactly one
    counter; the first two change nothing else, and a released block has no
    size any more. *)
Theorem kfree_faults fuel k g : heap_ok k g -> Forall (fun l => (length l < fuel)%nat) (gh_free g) ->
  (forall x, x ∈ concat (gh_free g) -> kfree fuel (x + HEADER_SIZE) k = Some (set_heap (count_double (heap k)) k) /\
     kmalloc_size (x + HEADER_SIZE) k = 0) /\
  (forall p, p <> 0 -> p - HEADER_SIZE ∉ concat (gh_free g) -> hdr_magic (kmem_memory k) (p - HEADER_SIZE) <> KMEM_ALLOC_MAGIC ->
     hdr_magic (kmem_memory k) (p - HEADER_SIZE) <> KMEM_FREED_MAGIC -> kfree fuel p k = Some (set_heap (count_invalid (heap k)) k)) /\
  (forall al m, al ∈ gh_live g -> load 4 m (al_ptr al + al_size al) <> KMEM_GUARD_MAGIC ->
     same_off (al_ptr al) (al_size al + 4) (kmem_memory k) m ->
     exists k', kfree fuel (al_ptr al) (set_memory m k) = Some k' /\ guard_failures (heap k') = u64 (guard_failures (heap k) + 1) /\
       invalid_frees (heap k') = invalid_frees (heap k) /\ double_frees (heap k') = double_frees (heap k) /\ kmalloc_size (al_ptr al) (set_memory m k) = 0).
Proof.
  intros Hok Hf. split; [|split].
  - intros x Hx. split; [by eapply kfree_double|by eapply kmalloc_size_free].
  - intros p. by apply kfree_foreign with (g := g).
  - intros al m. by apply kfree_overrun with (g := g).
Qed.

(** A heap with one block in use, at the end of its page, and one page cut up. *)
Definition demo_block : alloc := Alloc 0x200f80 100 (Some 2%nat).
Definition used_heap : kmem := snd (kmalloc 100 demo_heap).

Lemma demo_kmalloc : kmalloc 100 demo_heap = (0x200f98, used_heap).
Proof.
  assert (E : fst (kmalloc 100 demo_heap) = 0x200f98) by (vm_compute; reflexivity).
  unfold used_heap. rewrite <- E. apply surjective_pairing.
Qed.

Lemma used_heap_ok : exists g, heap_ok used_heap g /\ gh_live g = [demo_block].
Proof.
  pose proof (kmalloc_ok 100 demo_heap empty_ghost demo_heap_ok ltac:(cint)) as Ho. rewrite demo_kmalloc in Ho.
  destruct Ho as (g & H1 & _ & _ & _ & H5). rewrite decide_False in H5 by done. destruct H5 as (al & A1 & A2 & A3 & A4 & _).
  exists g. split; [done|]. rewrite A1. destruct al as [h s c]. unfold al_ptr, HEADER_SIZE in A2. cbn [al_hdr al_size al_class] in *.
  assert (h = 0x200f80) as -> by lia. rewrite A3, A4. reflexivity.
Qed.

Lemma kfree_faults_witness : exists fuel k',
  kfree fuel 0x200f98 (set_memory (fill (kmem_memory used_heap) 0x200ffc 4 0) used_heap) = Some k' /\
  guard_failures (heap k') = u64 (guard_failures (heap used_heap) + 1).
Proof.
  destruct used_heap_ok as (g & Hok & El). destruct (enough_fuel (gh_free g)) as [n Hn]. exists n.
  destruct (kfree_faults n used_heap g Hok (Hn n (Nat.le_refl n))) as (_ & _ & H).
  destruct (H demo_block (fill (kmem_memory used_heap) 0x200ffc 4 0)) as (k' & K1 & K2 & _).
  - rewrite El. apply elem_of_cons. by left.
  - discriminate.
  - eapply same_off_sub; [apply fill_off|vm_compute; discriminate|vm_compute; discriminate].
  - exists k'. split; [exact K1|exact K2].
Defined.

(** The statistics are exact: the walk over the free lists ends and counts
    every block, the largest and smallest ranges are those of the table, the
    use counters agree with the blocks in use, and the fragmentation is a
    percentage below 100 that no multiplication overflows. *)
Theorem stats_are_exact k g : heap_ok k g ->
  exists st, (forall fuel, Forall (fun l => (length l < fuel)%nat) (gh_free g) -> kmem_get_stats fuel k = Some st) /\
    stats_exact k g st /\ (st_invalid_frees st, st_double_frees st, st_guard_failures st) = faults (heap k).
Proof. apply kmem_get_stats_ok. Qed.

Lemma stats_are_exact_witness : exists st, kmem_get_stats 1 demo_heap = Some st /\ st_fragmentation_percent st < 100.
Proof.
  destruct (stats_are_exact demo_heap empty_ghost demo_heap_ok) as (st & E & [_ _ _ _ _ _ _ Hp _] & _). exists st. split; [|lia].
  apply E. repeat constructor.
Defined.

(** The heap's self-test and soak test end on every good heap, leave every
    object of other clients as it was, cause no fault, and pass exactly when
    none of their requests was refused. *)
Theorem heap_tests_pass k o cycles : represents k o -> free_page_count k < 0xffffffff -> 0 < cycles -> 128 * cycles < 4294967296 ->
  (exists n r k', (forall fuel, (n <= fuel)%nat -> kmem_run_selftest fuel k = Some (r, k')) /\ represents k' o /\ faults (heap k') = faults (heap k) /\
     alloc_attempts (tr_tally r) = 81 /\ tr_unexpected_successes r = 0 /\ tr_passed r = bool_decide (alloc_successes (tr_tally r) = 81)) /\
  (exists n r k', (forall fuel, (n <= fuel)%nat -> kmem_run_soaktest fuel cycles k = Some (r, k')) /\ represents k' o /\ faults (heap k') = faults (heap k) /\
     0 <= sr_worst_fragmentation r < 100 /\ sr_passed r = bool_decide (alloc_successes (sr_tally r) = 128 * cycles)).
Proof.
  intros (g & Hok & ->) Hf Hc Hb. split.
  - destruct (selftest_ok k g Hok Hf) as (n & r & k' & E & K & R1 & R2 & R3). exists n, r, k'. split; [done|].
    destruct (kept_objects k g k' Hok K) as [O1 O2]. done.
  - destruct (soaktest_ok cycles k g Hok Hc Hb) as (n & r & k' & E & K & R1 & R2 & R3). exists n, r, k'. split; [done|].
    destruct (kept_objects k g k' Hok K) as [O1 O2]. done.
Qed.

Lemma heap_tests_pass_witness : exists n r k', kmem_run_selftest n demo_heap = Some (r, k') /\ represents k' ∅ /\
  tr_passed r = bool_decide (alloc_successes (tr_tally r) = 81).
Proof.
  destruct (heap_tests_pass demo_heap ∅ 1 demo_heap_empty) as [(n & r & k' & E & R & _ & _ & _ & P) _]; [cbn; lia|lia|lia|].
  exists n, r, k'. split; [apply E, Nat.le_refl|]. split; [exact R|exact P].
Defined.
