(* ===== verification/Topology.v ===== *)
(** How many cores there are: kernel/core/cpu.c, from cpu_cpuid_logical_count
    to cpu_detect_topology.

    The kernel looks for the table of interrupt controllers among the ACPI
    tables, which are found by following addresses through physical memory. It
    trusts none of them: an address is followed only into memory that the map
    of the firmware describes. Reads of tables go through [rd8], which fails
    outside that memory, so that a result means that nothing else was read. *)
From Stdlib Require Import ZArith Lia String.
From stdpp Require Import base tactics option list numbers.
From S2P Require Import Prelude.
From S2P Require Import LainfsOps.
From S2P Require Import Dma.
From S2P Require Import Kmem.
From S2P Require Import KmemBoot.
From S2P Require Import Memory.
#[local] Open Scope Z_scope.

Definition CPU_MAX_CORES : nat := 32.
Definition ACPI_MADT_TYPE_LOCAL_APIC : Z := 0.
Definition ACPI_MADT_TYPE_LOCAL_APIC_ADDRESS_OVERRIDE : Z := 5.
Definition ACPI_MADT_TYPE_LOCAL_X2APIC : Z := 9.
Definition ACPI_CPU_ENABLED : Z := 1.
Definition ACPI_MAX_TABLE_LENGTH : Z := 1024 * 1024.

(** The instruction CPUID, in assembler in the source: eax, ebx, ecx and edx
    for a leaf and a subleaf. *)
Class Cpuid : Type := cpuid : Z -> Z -> Z * Z * Z * Z.

(** The static variables. *)
Record topology : Type := Topology {
  detected_core_count : Z;
  detected_lapic_ids : list Z;
  detected_lapic_base : Z
}.

(** ** Memory that the firmware describes *)

Definition described_by (x : Z) (d : efi_memory_descriptor) : bool :=
  (ed_physical_start d <=? x) && (x <? ed_physical_start d + ed_number_of_pages d * 4096).

Definition described (info : boot_info) (x : Z) : bool := existsb (described_by x) (descriptors info).

(** The loop of [acpi_range_in_memory_map]. *)
Fixpoint map_loop (fuel : nat) (info : boot_info) (address end_ offset : Z) : bool :=
  match fuel with
  | O => false
  | S fuel' =>
      if u64 (offset + SIZEOF_DESCRIPTOR) <=? bi_memory_map_size info then
        let desc := bi_descriptor info offset in
        let start := ed_physical_start desc in
        let desc_end := u64 (start + u64 (ed_number_of_pages desc * 4096)) in
        if desc_end <? start then map_loop fuel' info address end_ (u64 (offset + bi_memory_map_descriptor_size info))
        else if (start <=? address) && (end_ <=? desc_end) then true
        else map_loop fuel' info address end_ (u64 (offset + bi_memory_map_descriptor_size info))
      else false
  end.

(** The rounds are enough as in [dma_init]. *)
Definition acpi_range_in_memory_map (info : boot_info) (address length : Z) : bool :=
  if (address =? 0) || (length =? 0) || (bi_memory_map info =? 0) || (bi_memory_map_size info =? 0) ||
     (bi_memory_map_descriptor_size info <? SIZEOF_DESCRIPTOR) then false
  else
    let end_ := u64 (address + length) in
    if end_ <? address then false
    else map_loop (Z.to_nat (bi_memory_map_size info / SIZEOF_DESCRIPTOR + 1)) info address end_ 0.

Definition acpi_pointer_valid (info : boot_info) (ptr length : Z) : bool := acpi_range_in_memory_map info ptr length.

(** ** Tables *)

Section acpi.
Context (info : boot_info) (m : mem).

(** A byte, and an integer of [n] bytes. *)
Definition rd8 (a : Z) : option Z := if described info a then Some (m a) else None.

Fixpoint rdn (n : nat) (a : Z) : option Z :=
  match n with
  | O => Some 0
  | S n' => b ← rd8 a; r ← rdn n' (a + 1); Some (b + 256 * r)
  end.

Fixpoint acpi_mem_equals (a : Z) (b : list Z) : option bool :=
  match b with
  | [] => Some true
  | c :: b' => x ← rd8 a; if x =? c then acpi_mem_equals (a + 1) b' else Some false
  end.

Fixpoint checksum_loop (n : nat) (a sum : Z) : option Z :=
  match n with
  | O => Some sum
  | S n' => b ← rd8 a; checksum_loop n' (a + 1) (u8 (sum + b))
  end.

Definition acpi_checksum (ptr len : Z) : option Z := checksum_loop (Z.to_nat len) ptr 0.

(** Offsets and sizes of the packed structures. *)
Definition SIZEOF_RSDP_V1 : Z := 20.
Definition SIZEOF_RSDP_V2 : Z := 36.
Definition SIZEOF_SDT_HEADER : Z := 36.
Definition SIZEOF_MADT : Z := 44.

Definition sdt_length (header : Z) : option Z := rdn 4 (header + 4).

Definition acpi_sdt_valid (header : Z) (signature : string) : option bool :=
  if (header =? 0) || negb (acpi_pointer_valid info header SIZEOF_SDT_HEADER) then Some false
  else
    len ← sdt_length header;
    if len <? SIZEOF_SDT_HEADER then Some false
    else if (ACPI_MAX_TABLE_LENGTH <? len) || negb (acpi_pointer_valid info header len) then Some false
    else
      eq ← acpi_mem_equals header (text signature);
      if negb eq then Some false
      else sum ← acpi_checksum header len; Some (sum =? 0).

(** The loop over the [n] addresses of [width] bytes from [a] on; 0 is null. *)
Fixpoint find_loop (n : nat) (width : nat) (a : Z) (signature : string) : option Z :=
  match n with
  | O => Some 0
  | S n' =>
      header ← rdn width a;
      valid ← (if acpi_pointer_valid info header SIZEOF_SDT_HEADER then acpi_sdt_valid header signature else Some false);
      if (valid : bool) then Some header else find_loop n' width (a + Z.of_nat width) signature
  end.

Definition acpi_find_table_in_xsdt (xsdt : Z) (signature : string) : option Z :=
  valid ← acpi_sdt_valid xsdt "XSDT"%string;
  if negb valid then Some 0
  else
    len ← sdt_length xsdt;
    find_loop (Z.to_nat ((len - SIZEOF_SDT_HEADER) / 8)) 8 (xsdt + SIZEOF_SDT_HEADER) signature.

Definition acpi_find_table_in_rsdt (rsdt : Z) (signature : string) : option Z :=
  valid ← acpi_sdt_valid rsdt "RSDT"%string;
  if negb valid then Some 0
  else
    len ← sdt_length rsdt;
    find_loop (Z.to_nat ((len - SIZEOF_SDT_HEADER) / 4)) 4 (rsdt + SIZEOF_SDT_HEADER) signature.

(** The table of 64-bit addresses of a version 2 pointer, 0 when it is not to
    be used. *)
Definition rsdp_xsdt (rsdp : Z) : option Z :=
  revision ← rd8 (rsdp + 15);
  if revision <? 2 then Some 0
  else
    len ← rdn 4 (rsdp + 20);
    if (len <? SIZEOF_RSDP_V2) || (4096 <? len) || negb (acpi_pointer_valid info rsdp len) then Some 0
    else
      sum ← acpi_checksum rsdp len;
      if negb (sum =? 0) then Some 0 else rdn 8 (rsdp + 24).

Definition acpi_find_table (rsdp : Z) (signature : string) : option Z :=
  if rsdp =? 0 then Some 0
  else if negb (acpi_pointer_valid info rsdp SIZEOF_RSDP_V1) then Some 0
  else
    eq ← acpi_mem_equals rsdp (text "RSD PTR ");
    if negb eq then Some 0
    else
      sum ← acpi_checksum rsdp SIZEOF_RSDP_V1;
      if negb (sum =? 0) then Some 0
      else
        xsdt ← rsdp_xsdt rsdp;
        found ← (if xsdt =? 0 then Some 0 else acpi_find_table_in_xsdt xsdt signature);
        if negb (found =? 0) then Some found
        else
          rsdt ← rdn 4 (rsdp + 16);
          if rsdt =? 0 then Some 0 else acpi_find_table_in_rsdt rsdt signature.

(** ** Cores *)

Definition cpu_record_lapic_id (id : Z) (t : topology) : topology :=
  if Z.of_nat CPU_MAX_CORES <=? detected_core_count t then t
  else if existsb (fun x => x =? id) (take (Z.to_nat (detected_core_count t)) (detected_lapic_ids t)) then t
  else Topology (detected_core_count t + 1) (<[Z.to_nat (detected_core_count t) := id]> (detected_lapic_ids t)) (detected_lapic_base t).

Definition cpu_acpi_cpu_usable (flags : Z) : bool := negb (Z.land flags ACPI_CPU_ENABLED =? 0).

Definition set_base (v : Z) (t : topology) : topology := Topology (detected_core_count t) (detected_lapic_ids t) v.

(** The body of the loop over the entries of the table. *)
Definition madt_entry (entry type len : Z) (t : topology) : option topology :=
  if (type =? ACPI_MADT_TYPE_LOCAL_APIC) && (8 <=? len) then
    flags ← rdn 4 (entry + 4);
    if cpu_acpi_cpu_usable flags then id ← rd8 (entry + 3); Some (cpu_record_lapic_id id t) else Some t
  else if (type =? ACPI_MADT_TYPE_LOCAL_APIC_ADDRESS_OVERRIDE) && (12 <=? len) then
    base ← rdn 8 (entry + 4);
    Some (set_base base t)
  else if (type =? ACPI_MADT_TYPE_LOCAL_X2APIC) && (16 <=? len) then
    flags ← rdn 4 (entry + 8);
    if cpu_acpi_cpu_usable flags then id ← rdn 4 (entry + 4); Some (cpu_record_lapic_id id t) else Some t
  else Some t.

(** An entry has at least two bytes, so a table of [n] bytes has fewer than
    [n] entries. *)
Fixpoint madt_loop (fuel : nat) (entry end_ : Z) (t : topology) : option topology :=
  match fuel with
  | O => None
  | S fuel' =>
      if entry + 2 <=? end_ then
        type ← rd8 entry;
        len ← rd8 (entry + 1);
        if (len <? 2) || (end_ <? entry + len) then Some t
        else t' ← madt_entry entry type len t; madt_loop fuel' (entry + len) end_ t'
      else Some t
  end.
End acpi.

Section topology.
Context `{Cpuid}.

Definition cpu_cpuid_logical_count : Z :=
  let '(max_leaf, _, _, _) := cpuid 0 0 in
  if max_leaf <? 1 then 1
  else
    let '(_, ebx, _, edx) := cpuid 1 0 in
    if Z.land edx (Z.shiftl 1 9) =? 0 then 1
    else
      let count := Z.land (Z.shiftr ebx 16) 0xFF in
      let count := if count =? 0 then 1 else count in
      if Z.of_nat CPU_MAX_CORES <? count then Z.of_nat CPU_MAX_CORES else count.

Definition cpu_use_cpuid_fallback_topology (t : topology) : topology :=
  let count := cpu_cpuid_logical_count in
  Topology count ((fun i => if Z.of_nat i <? count then Z.of_nat i else 0) <$> seq 0 CPU_MAX_CORES) (detected_lapic_base t).

(** [info] is not null here; [rsdp] is its field. *)
Definition cpu_detect_topology (info : boot_info) (rsdp : Z) (m : mem) (t : topology) : option topology :=
  madt ← acpi_find_table info m rsdp "APIC"%string;
  let t := Topology 1 (<[0%nat := 0]> (detected_lapic_ids t)) 0xFEE00000 in
  if madt =? 0 then Some (cpu_use_cpuid_fallback_topology t)
  else
    len ← sdt_length info m madt;
    if len <? SIZEOF_MADT then Some (cpu_use_cpuid_fallback_topology t)
    else
      base ← rdn info m 4 (madt + SIZEOF_SDT_HEADER);
      t ← madt_loop info m (Z.to_nat len) (madt + SIZEOF_MADT) (madt + len) (Topology 0 (detected_lapic_ids t) base);
      Some (if detected_core_count t =? 0 then cpu_use_cpuid_fallback_topology t else t).
End topology.

(** ** Reads of described memory *)

(** Sizes of a memory map for which its offsets do not wrap. *)
Record offsets_ok (info : boot_info) : Prop := {
  oo_stride : bi_memory_map_descriptor_size info < 4294967296;
  oo_size : 0 <= bi_memory_map_size info < 9223372036854775808;
  oo_desc : forall d, d ∈ descriptors info -> 0 <= ed_physical_start d /\ 0 <= ed_number_of_pages d
}.

Lemma u64_le x : 0 <= x -> u64 x <= x.
Proof. intros Hx. unfold u64. apply Z.mod_le; lia. Qed.

Section reads.
Context (info : boot_info) (m : mem).
Context (Hinfo : offsets_ok info) (Hm : forall x, is_u8 (m x)).

Definition covered (a n : Z) : Prop := forall x, a <= x < a + n -> described info x = true.

Lemma covered_sub a n b k : covered a n -> a <= b -> b + k <= a + n -> covered b k.
Proof. intros H H1 H2 x Hx. apply H. lia. Qed.

Lemma map_loop_sound fuel a e i : SIZEOF_DESCRIPTOR <= bi_memory_map_descriptor_size info ->
  map_loop fuel info a e (Z.of_nat i * bi_memory_map_descriptor_size info) = true ->
  Z.of_nat i * bi_memory_map_descriptor_size info <= bi_memory_map_size info + bi_memory_map_descriptor_size info ->
  exists d, d ∈ descriptors info /\ ed_physical_start d <= a /\ e <= ed_physical_start d + ed_number_of_pages d * 4096.
Proof.
  intros Hs. destruct Hinfo as [H1 H2 H3]. set (ds := bi_memory_map_descriptor_size info) in *. set (ms := bi_memory_map_size info) in *. unfold SIZEOF_DESCRIPTOR in *.
  revert i. induction fuel as [|fuel IH]; intros i; [done|]. cbn [map_loop]. fold ds ms. unfold SIZEOF_DESCRIPTOR. intros H Hi.
  rewrite (u64_small (Z.of_nat i * ds + 40)) in H by (unfold is_u64; nia). destruct (Z.leb_spec (Z.of_nat i * ds + 40) ms) as [Hle|]; [|done].
  rewrite (u64_small (Z.of_nat i * ds + ds)) in H by (unfold is_u64; nia). replace (Z.of_nat i * ds + ds) with (Z.of_nat (S i) * ds) in H by lia.
  assert (Z.of_nat (S i) * ds <= ms + ds) as Hi' by lia. set (d := bi_descriptor info (Z.of_nat i * ds)) in *.
  destruct (_ <? ed_physical_start d); [by apply (IH (S i))|]. destruct ((ed_physical_start d <=? a) && _) eqn:E; [|by apply (IH (S i))]. bool_prop.
  assert (d ∈ descriptors info) as Hd.
  { unfold descriptors. apply list_elem_of_fmap. exists i. split; [done|]. apply elem_of_seq. unfold descriptor_count. fold ds ms. unfold SIZEOF_DESCRIPTOR.
    assert (Z.of_nat i <= (ms - 40) / ds) by (apply Z.div_le_lower_bound; lia). lia. }
  exists d. destruct (H3 d Hd). split_and!; [done|done|]. etrans; [eassumption|]. pose proof (u64_le (ed_number_of_pages d * 4096)). pose proof (u64_range (ed_number_of_pages d * 4096)) as [? _]. pose proof (u64_le (ed_physical_start d + u64 (ed_number_of_pages d * 4096))). lia.
Qed.

Lemma pointer_valid_covered a n : is_u64 a -> is_u64 n -> acpi_pointer_valid info a n = true -> covered a n /\ a + n < 18446744073709551616.
Proof.
  intros Ha Hn. unfold acpi_pointer_valid, acpi_range_in_memory_map. destruct (_ || _) eqn:E; [done|]. bool_prop. destruct (Z.ltb_spec (u64 (a + n)) a) as [|Hw]; [done|]. intros Hl.
  assert (a + n < 18446744073709551616) as Hb. { destruct (Z.ltb_spec (a + n) 18446744073709551616) as [|Hge]; [done|]. unfold is_u64 in *. assert (u64 (a + n) = a + n - 18446744073709551616) as Eq by (unfold u64; symmetry; apply (Z.mod_unique _ _ 1); lia). lia. }
  split; [|done]. rewrite u64_small in Hl by (unfold is_u64 in *; lia). destruct (map_loop_sound _ a (a + n) 0 ltac:(lia) Hl) as (d & Hd & Hd1 & Hd2); [unfold SIZEOF_DESCRIPTOR in *; destruct Hinfo; lia|].
  intros x Hx. unfold described. apply existsb_exists. exists d. split; [by apply list_elem_of_In|]. unfold described_by. by rewrite (proj2 (Z.leb_le _ _)), (proj2 (Z.ltb_lt _ _)) by lia.
Qed.

Lemma rd8_ok a n b : covered a n -> a <= b < a + n -> rd8 info m b = Some (m b).
Proof. intros H Hb. unfold rd8. by rewrite (H b Hb). Qed.

Lemma rdn_ok n a : covered a (Z.of_nat n) -> rdn info m n a = Some (load n m a).
Proof.
  revert a. induction n as [|n IH]; intros a H; [done|]. cbn [rdn load]. rewrite (rd8_ok a _ a H) by lia. cbn. rewrite IH; [done|]. apply (covered_sub a _ _ _ H); lia.
Qed.

Lemma mem_equals_ok a b : covered a (Z.of_nat (length b)) -> acpi_mem_equals info m a b = Some (bool_decide (mem_list (length b) m a = b)).
Proof.
  revert a. induction b as [|c b IH]; intros a H; [done|]. cbn [acpi_mem_equals length mem_list]. rewrite (rd8_ok a _ a H) by (cbn; lia). cbn [mbind option_bind]. destruct (Z.eqb_spec (m a) c) as [->|Hne].
  - rewrite IH by (apply (covered_sub a _ _ _ H); cbn; lia). f_equal. apply bool_decide_ext. split; [by intros ->|congruence].
  - rewrite bool_decide_false; [done|]. congruence.
Qed.

(** The sum of bytes that is zero for a good table. *)
Definition byte_sum (l : list Z) : Z := foldr Z.add 0 l mod 256.

Lemma checksum_loop_ok k sum a : is_u8 sum -> covered a (Z.of_nat k) -> checksum_loop info m k a sum = Some ((sum + foldr Z.add 0 (mem_list k m a)) mod 256).
Proof.
  revert sum a. induction k as [|k IH]; intros sum a H0 H'; cbn [checksum_loop mem_list foldr].
  - rewrite Z.add_0_r. unfold is_u8 in H0. by rewrite Z.mod_small by lia.
  - rewrite (rd8_ok a _ a H') by lia. cbn [mbind option_bind]. rewrite IH; [|unfold u8, is_u8; apply Z.mod_pos_bound; lia|apply (covered_sub a _ _ _ H'); lia]. f_equal. unfold u8. rewrite Zplus_mod_idemp_l. f_equal. lia.
Qed.

Lemma checksum_ok a n : 0 <= n -> covered a n -> acpi_checksum info m a n = Some (byte_sum (mem_list (Z.to_nat n) m a)).
Proof. intros Hn H. unfold acpi_checksum. rewrite checksum_loop_ok; [done|unfold is_u8; lia|by rewrite Z2Nat.id]. Qed.

(** A table that the kernel takes: inside described memory, of a sensible
    size, with its signature and checksum. *)
Record good_table (h : Z) (signature : string) : Prop := {
  gt_address : 0 < h;
  gt_length : SIZEOF_SDT_HEADER <= load 4 m (h + 4) <= ACPI_MAX_TABLE_LENGTH;
  gt_covered : covered h (load 4 m (h + 4));
  gt_signature : mem_list (length (text signature)) m h = text signature;
  gt_checksum : byte_sum (mem_list (Z.to_nat (load 4 m (h + 4))) m h) = 0
}.

Lemma load_u64 n a : (n <= 8)%nat -> is_u64 (load n m a).
Proof.
  intros Hn. pose proof (load_range n m a Hm) as [H1 H2]. unfold is_u64. split; [done|]. eapply Z.lt_le_trans; [exact H2|]. change 18446744073709551616 with (256 ^ Z.of_nat 8). apply Z.pow_le_mono_r; lia.
Qed.

Lemma sdt_length_ok h : covered h SIZEOF_SDT_HEADER -> sdt_length info m h = Some (load 4 m (h + 4)).
Proof. intros H. unfold sdt_length. apply rdn_ok, (covered_sub h _ _ _ H); unfold SIZEOF_SDT_HEADER; lia. Qed.

Lemma sdt_valid_ok h signature : is_u64 h -> length (text signature) = 4%nat -> exists b, acpi_sdt_valid info m h signature = Some b /\ (b = true -> good_table h signature).
Proof.
  intros Hh Hs. unfold acpi_sdt_valid. destruct (_ || _) eqn:E1; [by exists false|]. bool_prop. destruct (pointer_valid_covered h SIZEOF_SDT_HEADER Hh) as [C1 _]; [unfold is_u64, SIZEOF_SDT_HEADER; lia|done|].
  rewrite (sdt_length_ok h C1). cbn [mbind option_bind]. pose proof (load_u64 4 (h + 4) ltac:(lia)) as Hl. set (len := load 4 m (h + 4)) in *. destruct (Z.ltb_spec len SIZEOF_SDT_HEADER); [by exists false|].
  destruct (_ || _) eqn:E2; [by exists false|]. bool_prop. destruct (pointer_valid_covered h len Hh Hl) as [C2 _]; [done|].
  rewrite mem_equals_ok by (rewrite Hs; apply (covered_sub h _ _ _ C1); unfold SIZEOF_SDT_HEADER; lia). cbn [mbind option_bind]. case_bool_decide as E3; cbn [negb]; [|by exists false].
  rewrite checksum_ok by (done || (unfold is_u64 in Hl; lia)). cbn [mbind option_bind]. eexists. split; [done|]. intros E4%Z.eqb_eq. split; try done. unfold is_u64 in Hh. lia.
Qed.

Lemma find_loop_ok n width a signature : (0 < width <= 8)%nat -> covered a (Z.of_nat n * Z.of_nat width) -> length (text signature) = 4%nat ->
  exists r, find_loop info m n width a signature = Some r /\ (r = 0 \/ good_table r signature).
Proof.
  intros Hw. revert a. induction n as [|n IH]; intros a Hc Hs; [exists 0; auto|]. cbn [find_loop]. rewrite rdn_ok by (apply (covered_sub a _ _ _ Hc); nia). cbn [mbind option_bind].
  pose proof (load_u64 width a ltac:(lia)) as Hh. set (h := load width m a) in *. destruct (IH (a + Z.of_nat width)) as (r & Hr & Hg); [apply (covered_sub a _ _ _ Hc); nia|done|].
  destruct (acpi_pointer_valid info h SIZEOF_SDT_HEADER); cbn [mbind option_bind]; [|by exists r]. destruct (sdt_valid_ok h signature Hh Hs) as ([|] & -> & Hb); cbn [mbind option_bind]; [exists h; auto|by exists r].
Qed.

Lemma sdt_entries h signature n width : good_table h signature -> (0 < width)%nat -> n = Z.to_nat ((load 4 m (h + 4) - SIZEOF_SDT_HEADER) / Z.of_nat width) -> covered (h + SIZEOF_SDT_HEADER) (Z.of_nat n * Z.of_nat width).
Proof.
  intros [G1 G2 G3 _ _] Hw ->. apply (covered_sub h _ _ _ G3); [unfold SIZEOF_SDT_HEADER; lia|]. rewrite Z2Nat.id by (apply Z.div_pos; lia). pose proof (Z.mul_div_le (load 4 m (h + 4) - SIZEOF_SDT_HEADER) (Z.of_nat width) ltac:(lia)). lia.
Qed.

Lemma find_in_xsdt_ok h signature : is_u64 h -> length (text signature) = 4%nat -> exists r, acpi_find_table_in_xsdt info m h signature = Some r /\ (r = 0 \/ good_table r signature).
Proof.
  intros Hh Hs. unfold acpi_find_table_in_xsdt. destruct (sdt_valid_ok h "XSDT" Hh eq_refl) as ([|] & -> & Hb); cbn [mbind option_bind negb]; [|exists 0; auto].
  specialize (Hb eq_refl). rewrite sdt_length_ok by (apply (covered_sub h _ _ _ (gt_covered _ _ Hb)); [lia|destruct Hb; lia]). cbn [mbind option_bind]. apply find_loop_ok; [lia|apply (sdt_entries h "XSDT" _ 8 Hb); [lia|reflexivity]|done].
Qed.

Lemma find_in_rsdt_ok h signature : is_u64 h -> length (text signature) = 4%nat -> exists r, acpi_find_table_in_rsdt info m h signature = Some r /\ (r = 0 \/ good_table r signature).
Proof.
  intros Hh Hs. unfold acpi_find_table_in_rsdt. destruct (sdt_valid_ok h "RSDT" Hh eq_refl) as ([|] & -> & Hb); cbn [mbind option_bind negb]; [|exists 0; auto].
  specialize (Hb eq_refl). rewrite sdt_length_ok by (apply (covered_sub h _ _ _ (gt_covered _ _ Hb)); [lia|destruct Hb; lia]). cbn [mbind option_bind]. apply find_loop_ok; [lia|apply (sdt_entries h "RSDT" _ 4 Hb); [lia|reflexivity]|done].
Qed.

(** The length of a version 2 pointer is read before it is known that there is
    memory behind the 20 bytes of version 1. *)
Definition rsdp_tail (rsdp : Z) : Prop := covered rsdp SIZEOF_RSDP_V1 -> covered rsdp (SIZEOF_RSDP_V1 + 4).

Lemma rsdp_xsdt_ok rsdp : is_u64 rsdp -> rsdp_tail rsdp -> covered rsdp SIZEOF_RSDP_V1 -> exists r, rsdp_xsdt info m rsdp = Some r /\ is_u64 r.
Proof.
  intros Hr Ht Hc. specialize (Ht Hc). unfold rsdp_xsdt. rewrite (rd8_ok rsdp _ _ Hc) by (unfold SIZEOF_RSDP_V1; lia). cbn [mbind option_bind]. destruct (_ <? 2); [by exists 0|].
  rewrite (rdn_ok 4) by (apply (covered_sub rsdp _ _ _ Ht); unfold SIZEOF_RSDP_V1; lia). cbn [mbind option_bind]. pose proof (load_u64 4 (rsdp + 20) ltac:(lia)) as Hl. set (len := load 4 m (rsdp + 20)) in *.
  destruct (_ || _) eqn:E; [by exists 0|]. bool_prop. destruct (pointer_valid_covered rsdp len Hr Hl) as [C _]; [done|]. rewrite checksum_ok by (done || (unfold is_u64 in Hl; lia)). cbn [mbind option_bind]. destruct (negb _); [by exists 0|].
  rewrite rdn_ok by (apply (covered_sub rsdp _ _ _ C); unfold SIZEOF_RSDP_V2 in *; lia). eexists. split; [done|]. apply load_u64. lia.
Qed.

Lemma find_table_ok rsdp signature : is_u64 rsdp -> rsdp_tail rsdp -> length (text signature) = 4%nat -> exists r, acpi_find_table info m rsdp signature = Some r /\ (r = 0 \/ good_table r signature).
Proof.
  intros Hr Ht Hs. unfold acpi_find_table. destruct (rsdp =? 0); [exists 0; auto|]. destruct (acpi_pointer_valid info rsdp SIZEOF_RSDP_V1) eqn:E; cbn [negb]; [|exists 0; auto].
  destruct (pointer_valid_covered rsdp SIZEOF_RSDP_V1 Hr) as [C _]; [unfold is_u64, SIZEOF_RSDP_V1; lia|done|]. rewrite mem_equals_ok by (apply (covered_sub rsdp _ _ _ C); unfold SIZEOF_RSDP_V1; cbn; lia). cbn [mbind option_bind]. destruct (negb _); [exists 0; auto|].
  rewrite checksum_ok by (done || (unfold SIZEOF_RSDP_V1; lia)). cbn [mbind option_bind]. destruct (negb _); [exists 0; auto|]. destruct (rsdp_xsdt_ok rsdp Hr Ht C) as (xsdt & -> & Hx). cbn [mbind option_bind].
  assert (exists r, (if xsdt =? 0 then Some 0 else acpi_find_table_in_xsdt info m xsdt signature) = Some r /\ (r = 0 \/ good_table r signature)) as (r & -> & Hg) by (destruct (xsdt =? 0); [exists 0; auto|by apply find_in_xsdt_ok]).
  cbn [mbind option_bind]. destruct (Z.eqb_spec r 0) as [->|Hne]; cbn [negb]; [|exists r; split; [done|]; by destruct Hg; [|right]].
  rewrite rdn_ok by (apply (covered_sub rsdp _ _ _ C); unfold SIZEOF_RSDP_V1; lia). cbn [mbind option_bind]. destruct (_ =? 0); [exists 0; auto|]. apply find_in_rsdt_ok; [apply load_u64; lia|done].
Qed.
End reads.

(** ** The entries of the table, on lists of bytes *)

(** A little-endian number. *)
Definition le_value (l : list Z) : Z := foldr (fun b r => b + 256 * r) 0 l.

Fixpoint madt_entries (fuel : nat) (l : list Z) : list (list Z) :=
  match fuel, l with
  | S fuel', _ :: len :: _ =>
      if (len <? 2) || (Z.of_nat (length l) <? len) then []
      else take (Z.to_nat len) l :: madt_entries fuel' (drop (Z.to_nat len) l)
  | _, _ => []
  end.

(** The core of an entry, if it is one that can be used. *)
Definition cpu_of (e : list Z) : option Z :=
  type ← e !! 0%nat;
  if (type =? ACPI_MADT_TYPE_LOCAL_APIC) && (8 <=? length e)%nat then
    if cpu_acpi_cpu_usable (le_value (take 4 (drop 4 e))) then e !! 3%nat else None
  else if (type =? ACPI_MADT_TYPE_LOCAL_X2APIC) && (16 <=? length e)%nat then
    if cpu_acpi_cpu_usable (le_value (take 4 (drop 8 e))) then Some (le_value (take 4 (drop 4 e))) else None
  else None.

(** The address of the interrupt controllers that an entry gives. *)
Definition base_of (e : list Z) : option Z :=
  type ← e !! 0%nat;
  if (type =? ACPI_MADT_TYPE_LOCAL_APIC_ADDRESS_OVERRIDE) && (12 <=? length e)%nat then Some (le_value (take 8 (drop 4 e))) else None.

(** The first 32 different ids. *)
Definition add_id (acc : list Z) (id : Z) : list Z := if (CPU_MAX_CORES <=? length acc)%nat || existsb (fun x => x =? id) acc then acc else acc ++ [id].
Definition first_ids (l : list Z) : list Z := foldl add_id [] l.

(** The last of some numbers. *)
Definition last_of (d : Z) (l : list Z) : Z := foldl (fun _ b => b) d l.

Definition apply_entry (t : topology) (e : list Z) : topology :=
  match base_of e, cpu_of e with
  | Some b, _ => set_base b t
  | None, Some id => cpu_record_lapic_id id t
  | None, None => t
  end.

Lemma load_le n m a : load n m a = le_value (mem_list n m a).
Proof. revert a. induction n as [|n IH]; intros a; [done|]. cbn [load mem_list le_value foldr]. by rewrite IH. Qed.

Lemma mem_list_slice N m a k n : (k + n <= N)%nat -> take n (drop k (mem_list N m a)) = mem_list n m (a + Z.of_nat k).
Proof.
  intros H. replace N with (k + (n + (N - k - n)))%nat by lia. rewrite mem_list_app, drop_app_length' by (by rewrite length_mem_list). rewrite mem_list_app, take_app_length' by (by rewrite length_mem_list). done.
Qed.

Section entries.
Context (info : boot_info) (m : mem).
Context (Hinfo : offsets_ok info) (Hm : forall x, is_u8 (m x)).

Lemma madt_entry_ok entry len t : 2 <= len -> covered info entry len -> madt_entry info m entry (m entry) len t = Some (apply_entry t (mem_list (Z.to_nat len) m entry)).
Proof.
  intros Hl Hc. set (e := mem_list (Z.to_nat len) m entry). assert (length e = Z.to_nat len) as Hle by apply length_mem_list.
  assert (e !! 0%nat = Some (m entry)) as He0 by (unfold e; rewrite lookup_mem_list by lia; by rewrite Z.add_0_r).
  assert (forall z k n, z = Z.of_nat k -> (k + n <= Z.to_nat len)%nat -> load n m (entry + z) = le_value (take n (drop k e))) as Hs by (intros z k n -> Hk; unfold e; by rewrite mem_list_slice, load_le).
  assert (forall k : nat, (k <=? length e)%nat = (Z.of_nat k <=? len)) as Hk by (intros k; rewrite Hle; destruct (Z.leb_spec (Z.of_nat k) len), (Nat.leb_spec k (Z.to_nat len)); done || lia).
  unfold madt_entry, apply_entry, base_of, cpu_of, ACPI_MADT_TYPE_LOCAL_APIC, ACPI_MADT_TYPE_LOCAL_APIC_ADDRESS_OVERRIDE, ACPI_MADT_TYPE_LOCAL_X2APIC. rewrite He0, !Hk. cbn [mbind option_bind]. cbv [Z.of_nat Pos.of_succ_nat Pos.succ].
  destruct (Z.eqb_spec (m entry) 0) as [E0|E0]; [|destruct (Z.eqb_spec (m entry) 5) as [E5|E5]; [|destruct (Z.eqb_spec (m entry) 9) as [E9|E9]]].
  - rewrite E0. cbn [Z.eqb andb]. destruct (Z.leb_spec 8 len) as [H8|H8]; [|done]. rewrite (rdn_ok info m 4) by (apply (covered_sub info entry _ _ _ Hc); lia). cbn [mbind option_bind].
    rewrite (Hs 4 4%nat 4%nat) by lia. destruct (cpu_acpi_cpu_usable _); [|done]. rewrite (rd8_ok info m entry _ _ Hc) by lia. unfold e. rewrite lookup_mem_list by lia. done.
  - rewrite E5. cbn [Z.eqb Pos.eqb andb]. destruct (Z.leb_spec 12 len) as [H8|H8]; [|done]. rewrite (rdn_ok info m 8) by (apply (covered_sub info entry _ _ _ Hc); lia). cbn [mbind option_bind]. by rewrite (Hs 4 4%nat 8%nat) by lia.
  - cbn [andb]. destruct (Z.leb_spec 16 len) as [H8|H8]; [|done]. rewrite (rdn_ok info m 4 (entry + 8)) by (apply (covered_sub info entry _ _ _ Hc); lia). cbn [mbind option_bind].
    rewrite (Hs 8 8%nat 4%nat) by lia. destruct (cpu_acpi_cpu_usable _); [|done]. rewrite (rdn_ok info m 4) by (apply (covered_sub info entry _ _ _ Hc); lia). cbn [mbind option_bind]. by rewrite (Hs 4 4%nat 4%nat) by lia.
  - done.
Qed.

Lemma madt_loop_ok fuel fuel' entry end_ t : entry <= end_ -> end_ - entry < Z.of_nat fuel -> end_ - entry < Z.of_nat fuel' -> covered info entry (end_ - entry) ->
  madt_loop info m fuel entry end_ t = Some (foldl apply_entry t (madt_entries fuel' (mem_list (Z.to_nat (end_ - entry)) m entry))).
Proof.
  revert fuel' entry t. induction fuel as [|fuel IH]; intros fuel' entry t He Hf Hf' Hc; [lia|]. destruct fuel' as [|fuel']; [lia|]. cbn [madt_loop madt_entries]. destruct (Z.leb_spec (entry + 2) end_) as [H2|H2].
  - rewrite (rd8_ok info m entry _ entry Hc) by lia. cbn [mbind option_bind]. rewrite (rd8_ok info m entry _ (entry + 1) Hc) by lia. cbn [mbind option_bind].
    set (l := mem_list (Z.to_nat (end_ - entry)) m entry). assert (length l = Z.to_nat (end_ - entry)) as Hl by apply length_mem_list. assert (exists rest, l = m entry :: m (entry + 1) :: rest) as [rest El] by (unfold l; replace (Z.to_nat (end_ - entry)) with (S (S (Z.to_nat (end_ - entry - 2)))) by lia; by eexists).
    rewrite El. rewrite <- El. rewrite Hl, Z2Nat.id by lia. set (len := m (entry + 1)). replace (end_ - entry <? len) with (end_ <? entry + len) by (destruct (Z.ltb_spec end_ (entry + len)), (Z.ltb_spec (end_ - entry) len); done || lia).
    destruct (_ || _) eqn:E; [done|]. bool_prop. rewrite madt_entry_ok by (done || (apply (covered_sub info entry _ _ _ Hc); lia)). cbn [mbind option_bind foldl].
    replace (take (Z.to_nat len) l) with (mem_list (Z.to_nat len) m entry) by (unfold l; pose proof (mem_list_slice (Z.to_nat (end_ - entry)) m entry 0 (Z.to_nat len) ltac:(lia)) as Hx; rewrite drop_0, Z.add_0_r in Hx; done).
    replace (drop (Z.to_nat len) l) with (mem_list (Z.to_nat (end_ - (entry + len))) m (entry + len)).
    + apply IH; [lia|lia|lia|]. apply (covered_sub info entry _ _ _ Hc); lia.
    + unfold l. replace (Z.to_nat (end_ - entry)) with (Z.to_nat len + Z.to_nat (end_ - (entry + len)))%nat by lia. rewrite mem_list_app, drop_app_length' by (by rewrite length_mem_list). rewrite Z2Nat.id by lia. done.
  - assert (Z.to_nat (end_ - entry) = 0%nat \/ Z.to_nat (end_ - entry) = 1%nat) as [-> | ->] by lia; done.
Qed.
End entries.

(** ** Recording ids *)

(** [detected_lapic_ids] with the ids [ids] recorded. *)
Record records (ids : list Z) (t : topology) : Prop := {
  rc_count : detected_core_count t = Z.of_nat (length ids);
  rc_size : length (detected_lapic_ids t) = CPU_MAX_CORES;
  rc_room : (length ids <= CPU_MAX_CORES)%nat;
  rc_ids : take (length ids) (detected_lapic_ids t) = ids
}.

Lemma record_id_ok id ids t : records ids t -> records (add_id ids id) (cpu_record_lapic_id id t) /\ detected_lapic_base (cpu_record_lapic_id id t) = detected_lapic_base t.
Proof.
  intros [R1 R2 R3 R4]. unfold cpu_record_lapic_id, add_id. rewrite R1, Nat2Z.id, R4. replace (Z.of_nat CPU_MAX_CORES <=? Z.of_nat (length ids)) with (CPU_MAX_CORES <=? length ids)%nat by (destruct (Nat.leb_spec CPU_MAX_CORES (length ids)), (Z.leb_spec (Z.of_nat CPU_MAX_CORES) (Z.of_nat (length ids))); done || lia).
  destruct (Nat.leb_spec CPU_MAX_CORES (length ids)); cbn [orb]; [done|]. destruct (existsb _ ids); [done|]. split; [|done]. split; cbn [detected_core_count detected_lapic_ids]; rewrite ?length_app; cbn [length].
  - lia.
  - by rewrite length_insert.
  - lia.
  - rewrite Nat.add_1_r, (take_S_r _ _ id) by (apply list_lookup_insert_eq; lia). by rewrite take_insert_ge, R4 by lia.
Qed.

Lemma apply_entry_ok ids t e : records ids t -> records (foldl add_id ids (option_list (match base_of e with Some _ => None | None => cpu_of e end))) (apply_entry t e) /\ detected_lapic_base (apply_entry t e) = default (detected_lapic_base t) (base_of e).
Proof.
  intros R. unfold apply_entry. destruct (base_of e) as [b|]; [by destruct R|]. destruct (cpu_of e) as [id|]; [|done]. by apply record_id_ok.
Qed.

(** An entry is not both. *)
Lemma base_or_cpu e : is_Some (base_of e) -> cpu_of e = None.
Proof.
  unfold base_of, cpu_of, ACPI_MADT_TYPE_LOCAL_APIC, ACPI_MADT_TYPE_LOCAL_APIC_ADDRESS_OVERRIDE, ACPI_MADT_TYPE_LOCAL_X2APIC. destruct (e !! 0%nat) as [type|]; [|done]. cbn [mbind option_bind]. intros [b H].
  destruct (Z.eqb_spec type 5) as [->|]; [done|]. done.
Qed.

Lemma entries_ok (es : list (list Z)) ids t : records ids t -> records (foldl add_id ids (omap cpu_of es)) (foldl apply_entry t es) /\
  detected_lapic_base (foldl apply_entry t es) = last_of (detected_lapic_base t) (omap base_of es).
Proof.
  revert ids t. induction es as [|e es IH]; intros ids t R; [done|]. cbn [foldl]. destruct (apply_entry_ok ids t e R) as [R' B']. destruct (IH _ _ R') as [R2 B2]. rewrite B2, B'. cbn [omap list_omap].
  destruct (base_of e) as [b|] eqn:Eb.
  - rewrite (base_or_cpu e) by (by rewrite Eb). done.
  - cbn [default] in *. destruct (cpu_of e) as [id|]; done.
Qed.

Lemma add_id_nodup ids id : NoDup ids -> NoDup (add_id ids id).
Proof.
  intros H. unfold add_id. destruct (_ || _) eqn:E; [done|]. bool_prop. apply list.NoDup_app. split_and!; [done| |apply NoDup_singleton]. intros x Hx ->%list_elem_of_singleton.
  assert (existsb (fun y => y =? id) ids = true) as Ht by (apply existsb_exists; exists id; split; [by apply list_elem_of_In|apply Z.eqb_refl]). congruence.
Qed.

Lemma first_ids_nodup l : NoDup (first_ids l).
Proof. unfold first_ids. assert (NoDup (@nil Z)) as H by constructor. revert H. generalize (@nil Z). induction l as [|id l IH]; intros acc H; [done|]. by apply IH, add_id_nodup. Qed.

Lemma first_ids_nonempty l : l <> [] -> first_ids l <> [].
Proof.
  assert (forall l acc, acc <> [] -> foldl add_id acc l <> []) as H. { clear l. induction l as [|id l IH]; intros acc Ha; [done|]. apply IH. unfold add_id. destruct (_ || _); [done|]. by destruct acc. }
  destruct l as [|id l]; [done|]. intros _. unfold first_ids. cbn [foldl]. by apply H.
Qed.

(** ** Results *)

Section fallback.
Context `{Cpuid}.

Lemma logical_count_range : 1 <= cpu_cpuid_logical_count <= 32.
Proof.
  unfold cpu_cpuid_logical_count. destruct (cpuid 0 0) as [[[a b] c] d]. destruct (a <? 1); [lia|]. destruct (cpuid 1 0) as [[[a' ebx] c'] edx]. destruct (_ =? 0); [lia|].
  assert (0 <= Z.land (Z.shiftr ebx 16) 0xFF) by (apply Z.land_nonneg; by right). destruct (Z.eqb_spec (Z.land (Z.shiftr ebx 16) 0xFF) 0); change (Z.of_nat CPU_MAX_CORES) with 32; destruct (_ <? _) eqn:E; bool_prop; lia.
Qed.

(** Without a table: cores 0, 1, ... as many as CPUID says. *)
Lemma fallback_ok t : records (Z.of_nat <$> seq 0 (Z.to_nat cpu_cpuid_logical_count)) (cpu_use_cpuid_fallback_topology t).
Proof.
  pose proof logical_count_range as Hc. unfold cpu_use_cpuid_fallback_topology. set (n := cpu_cpuid_logical_count) in *. split; cbn [detected_core_count detected_lapic_ids]; rewrite ?length_fmap, ?length_seq.
  - lia.
  - done.
  - unfold CPU_MAX_CORES. lia.
  - rewrite <- fmap_take, take_seq, Nat.min_l by (unfold CPU_MAX_CORES; lia). apply list_fmap_ext. intros i x Hx%list_elem_of_lookup_2%elem_of_seq. by rewrite (proj2 (Z.ltb_lt _ _)) by lia.
Qed.

Lemma numbers_nodup n : NoDup (Z.of_nat <$> seq 0 n).
Proof. apply NoDup_fmap; [apply _|]. apply NoDup_seq. Qed.
End fallback.

(** C21: Whatever physical memory holds, the search for the cores ends and
    reads no table outside the memory that the firmware's map describes, if
    there are four bytes more behind the pointer to the tables; it finds at
    least one and at most 32 cores with different ids. They are the usable
    cores of the entries of a table that is inside described memory and has
    its signature and checksum, in order, with the address that its last
    override gives; or 0, 1, ... as many as CPUID counts, when no such table is
    found or it has no usable core. *)
Theorem topology_exact `{Cpuid} info rsdp m t0 :
  offsets_ok info -> (forall x, is_u8 (m x)) -> is_u64 rsdp -> rsdp_tail info rsdp -> length (detected_lapic_ids t0) = CPU_MAX_CORES ->
  exists t ids, cpu_detect_topology info rsdp m t0 = Some t /\ records ids t /\ ids <> [] /\ NoDup ids /\
  let plain := Z.of_nat <$> seq 0 (Z.to_nat cpu_cpuid_logical_count) in
  ((ids = plain /\ detected_lapic_base t = 0xFEE00000) \/
   exists madt, good_table info m madt "APIC" /\
     let len := load 4 m (madt + 4) in
     let es := madt_entries (S (Z.to_nat len)) (mem_list (Z.to_nat (len - SIZEOF_MADT)) m (madt + SIZEOF_MADT)) in
     ids = (if decide (omap cpu_of es = []) then plain else first_ids (omap cpu_of es)) /\
     detected_lapic_base t = last_of (load 4 m (madt + SIZEOF_SDT_HEADER)) (omap base_of es)).
Proof.
  intros Hi Hm Hr Ht Hl. pose proof logical_count_range as Hc. set (plain := Z.of_nat <$> seq 0 (Z.to_nat cpu_cpuid_logical_count)).
  assert (plain <> []) as Hp by (unfold plain; destruct (Z.to_nat cpu_cpuid_logical_count) eqn:E; [lia|done]). assert (NoDup plain) as Hpn by apply numbers_nodup.
  unfold cpu_detect_topology. destruct (find_table_ok info m Hi Hm rsdp "APIC" Hr Ht eq_refl) as (madt & -> & Hg). cbn [mbind option_bind]. set (t1 := Topology 1 _ _).
  destruct (Z.eqb_spec madt 0) as [->|Hne]; [exists (cpu_use_cpuid_fallback_topology t1), plain; split_and!; try done; [apply fallback_ok|by left]|].
  destruct Hg as [?|Hg]; [done|]. pose proof Hg as [G1 G2 G3 G4 G5]. set (len := load 4 m (madt + 4)) in *. rewrite (sdt_length_ok info m madt) by (apply (covered_sub info madt _ _ _ G3); lia). fold len. cbn [mbind option_bind].
  destruct (Z.ltb_spec len SIZEOF_MADT) as [|Hlen]; [exists (cpu_use_cpuid_fallback_topology t1), plain; split_and!; try done; [apply fallback_ok|by left]|]. unfold SIZEOF_MADT in Hlen.
  rewrite (rdn_ok info m 4) by (apply (covered_sub info madt _ _ _ G3); unfold SIZEOF_SDT_HEADER; lia). cbn [mbind option_bind].
  rewrite (madt_loop_ok info m (Z.to_nat len) (S (Z.to_nat len))); [|unfold SIZEOF_MADT; lia..|apply (covered_sub info madt _ _ _ G3); unfold SIZEOF_MADT; lia]. cbn [mbind option_bind].
  replace (madt + len - (madt + SIZEOF_MADT)) with (len - SIZEOF_MADT) by lia. set (es := madt_entries _ _). set (t2 := Topology 0 _ _).
  destruct (entries_ok es [] t2) as [R B]; [split; [done|by rewrite <- Hl; cbn; rewrite length_insert|cbn; lia|done]|]. change (foldl add_id [] (omap cpu_of es)) with (first_ids (omap cpu_of es)) in R. set (t3 := foldl apply_entry t2 es) in *.
  destruct (decide (omap cpu_of es = [])) as [E|E].
  - rewrite E in R. destruct R as [R1 _ _ _]. change (Z.of_nat (length (first_ids []))) with 0 in R1. rewrite R1. cbn [Z.eqb]. exists (cpu_use_cpuid_fallback_topology t3), plain. split_and!; try done; [apply fallback_ok|]. right. exists madt. split; [done|]. cbv zeta. fold len es. rewrite decide_True by done. done.
  - assert (first_ids (omap cpu_of es) <> []) as Hf by (by apply first_ids_nonempty). destruct (Z.eqb_spec (detected_core_count t3) 0) as [E0|E0]; [destruct R; destruct (first_ids _); [done|cbn in *; lia]|].
    exists t3, (first_ids (omap cpu_of es)). split_and!; try done; [apply first_ids_nodup|]. right. exists madt. split; [done|]. cbv zeta. fold len es. rewrite decide_False by done. done.
Qed.

(** ** A machine with two usable cores *)

(** The byte at [i] is set so that the sum is zero. *)
Definition with_sum (i : nat) (l : list Z) : list Z := <[i := (- foldr Z.add 0 l) mod 256]> l.

Definition table (signature : string) (body : list Z) : list Z :=
  with_sum 9 (text signature ++ write_le32 (36 + Z.of_nat (length body)) ++ replicate 28 0 ++ body).

Definition demo_rsdp (revision : Z) : list Z := with_sum 8 (text "RSD PTR " ++ replicate 7 0 ++ [revision] ++ write_le32 4128).

Definition demo_bytes : list Z :=
  demo_rsdp 0 ++ replicate 12 0 ++ table "RSDT" (write_le32 4168) ++
  table "APIC" (write_le32 0xFEE00000 ++ replicate 4 0 ++ [0; 8; 0; 5; 1; 0; 0; 0] ++ [0; 8; 1; 6; 0; 0; 0; 0] ++ [0; 8; 2; 7; 1; 0; 0; 0]).

Definition bytes_at (base : Z) (l : list Z) (x : Z) : Z := if base <=? x then default 0 (l !! Z.to_nat (x - base)) else 0.

(** One page of memory. *)
Definition demo_info : boot_info := BootInfo 0x10000 40 40 0 0 (fun _ => EfiMemoryDescriptor 7 4096 1).

#[local] Instance demo_cpuid : Cpuid := fun _ _ => (0, 0, 0, 0).

Lemma bytes_at_u8 base l : forallb (fun b => (0 <=? b) && (b <? 256)) l = true -> forall x, is_u8 (bytes_at base l x).
Proof.
  intros H x. unfold bytes_at. destruct (base <=? x); [|by unfold is_u8]. destruct (l !! _) as [b|] eqn:E; [|by unfold is_u8]. cbn. apply list_elem_of_lookup_2, list_elem_of_In in E. apply (proj1 (forallb_forall _ _) H) in E. bool_prop. unfold is_u8. lia.
Qed.

Lemma demo_offsets : offsets_ok demo_info.
Proof. split; cbn; [lia|lia|]. intros d Hd. change (descriptors demo_info) with [EfiMemoryDescriptor 7 4096 1] in Hd. apply list_elem_of_singleton in Hd as ->. cbn. lia. Qed.

Lemma demo_described x : described demo_info x = (4096 <=? x) && (x <? 8192).
Proof. change (described demo_info x) with (((4096 <=? x) && (x <? 8192)) || false). apply orb_false_r. Qed.

Lemma topology_exact_witness :
  (exists t ids, cpu_detect_topology demo_info 4096 (bytes_at 4096 demo_bytes) (Topology 1 (replicate 32 0) 0) = Some t /\ records ids t /\ ids <> [] /\ NoDup ids) /\
  (fun t => (detected_core_count t, take 2 (detected_lapic_ids t))) <$> cpu_detect_topology demo_info 4096 (bytes_at 4096 demo_bytes) (Topology 1 (replicate 32 0) 0) = Some (2, [5; 7]).
Proof.
  split; [|vm_compute; reflexivity]. destruct (topology_exact demo_info 4096 (bytes_at 4096 demo_bytes) (Topology 1 (replicate 32 0) 0)) as (t & ids & H1 & H2 & H3 & H4 & _).
  - apply demo_offsets.
  - apply bytes_at_u8. vm_compute. reflexivity.
  - split; reflexivity || discriminate.
  - intros _ x Hx. rewrite demo_described. unfold SIZEOF_RSDP_V1 in Hx. by rewrite (proj2 (Z.leb_le _ _)), (proj2 (Z.ltb_lt _ _)) by lia.
  - reflexivity.
  - exists t, ids. auto.
Defined.

(** The length of a version 2 pointer is read before the check that covers it:
    a pointer of 20 bytes at the end of described memory whose revision says 2
    makes the kernel read four bytes that are not described. *)
Lemma rsdp_read_behind : acpi_pointer_valid demo_info 8172 SIZEOF_RSDP_V1 = true /\ acpi_find_table demo_info (bytes_at 8172 (demo_rsdp 2)) 8172 "APIC" = None.
Proof. split; vm_compute; reflexivity. Qed.
