(* ===== verification/Tasks.v ===== *)
(** The work queue of the cores and the kernel tasks on top of it:
    kernel/core/cpu.c, from smp_lock to kernel_task_snapshot.

    Cores run at the same time and share the two tables. A core is a stack of
    frames, one for each function it is in; a frame is a point between two
    critical sections of its function. What a core does under a lock, or with
    one atomic access, is one step, and cores take steps in any order. The
    functions that tasks call are arbitrary: a frame [User] may call any function
    of the interface, any number of times, and may return at any time.

    The write of CPU_SMP_WORK_DONE at the end of smp_run_one_work_item is not
    under the lock; the sections that read states under it look at one slot
    each, so that each of them agrees with a write before or behind it
    (smp_pending_work_count, which counts several, is a snapshot here). A read
    of the clock outside a lock belongs to the step before or behind it. A call
    of kernel_task_snapshot without a buffer is one with room for nothing;
    kernel_task_submit is kernel_task_submit_named with the name "task". The
    interrupt that wakes the other cores has no effect here, as they may take
    a step at any time. *)
From Stdlib Require Import ZArith Lia String.
From stdpp Require Import base tactics option list numbers.
From S2P Require Import Prelude.
From S2P Require Import LainfsOps.
From S2P Require Import Topology.
#[local] Open Scope Z_scope.

Definition CPU_SMP_WORK_SLOTS : Z := 64.
Definition CPU_SMP_WORK_FREE : Z := 0.
Definition CPU_SMP_WORK_QUEUED : Z := 1.
Definition CPU_SMP_WORK_RUNNING : Z := 2.
Definition CPU_SMP_WORK_DONE : Z := 3.
Definition CPU_TASK_SLOTS : Z := 32.
Definition CPU_TASK_FREE : Z := 0.
Definition CPU_TASK_QUEUED : Z := 1.
Definition CPU_TASK_RUNNING : Z := 2.
Definition CPU_TASK_DONE : Z := 3.
Definition KERNEL_TASK_NAME_SIZE : Z := 32.

(** ** State *)

(** A function pointer: null, [kernel_task_worker], or another function. *)
Inductive fnptr : Type := FnNull | FnWorker | FnUser (f : Z).

Record work_slot : Type := WorkSlot {
  ws_state : Z;
  ws_id : Z;
  ws_fn : fnptr;
  ws_arg : Z
}.

Record task_slot : Type := TaskSlot {
  ts_state : Z;
  ts_id : Z;
  ts_smp_id : Z;
  ts_submitted : Z;
  ts_started : Z;
  ts_finished : Z;
  ts_fn : Z;
  ts_arg : Z;
  ts_name : list Z
}.

Record sched : Type := Sched {
  smp_work_slots : list work_slot;
  smp_next_work_id : Z;
  kernel_task_slots : list task_slot;
  kernel_task_next_id : Z;
  online_core_count : Z;
  ticks : Z;
  busy_ticks : list Z
}.

Definition set_work (v : list work_slot) (s : sched) : sched := Sched v (smp_next_work_id s) (kernel_task_slots s) (kernel_task_next_id s) (online_core_count s) (ticks s) (busy_ticks s).
Definition set_next_work (v : Z) (s : sched) : sched := Sched (smp_work_slots s) v (kernel_task_slots s) (kernel_task_next_id s) (online_core_count s) (ticks s) (busy_ticks s).
Definition set_tasks (v : list task_slot) (s : sched) : sched := Sched (smp_work_slots s) (smp_next_work_id s) v (kernel_task_next_id s) (online_core_count s) (ticks s) (busy_ticks s).
Definition set_next_task (v : Z) (s : sched) : sched := Sched (smp_work_slots s) (smp_next_work_id s) (kernel_task_slots s) v (online_core_count s) (ticks s) (busy_ticks s).
Definition set_ticks (v : Z) (s : sched) : sched := Sched (smp_work_slots s) (smp_next_work_id s) (kernel_task_slots s) (kernel_task_next_id s) (online_core_count s) v (busy_ticks s).
Definition set_busy (v : list Z) (s : sched) : sched := Sched (smp_work_slots s) (smp_next_work_id s) (kernel_task_slots s) (kernel_task_next_id s) (online_core_count s) (ticks s) v.

Definition set_ws_state (v : Z) (w : work_slot) : work_slot := WorkSlot v (ws_id w) (ws_fn w) (ws_arg w).
Definition set_ts_state (v : Z) (t : task_slot) : task_slot := TaskSlot v (ts_id t) (ts_smp_id t) (ts_submitted t) (ts_started t) (ts_finished t) (ts_fn t) (ts_arg t) (ts_name t).
Definition set_ts_smp_id (v : Z) (t : task_slot) : task_slot := TaskSlot (ts_state t) (ts_id t) v (ts_submitted t) (ts_started t) (ts_finished t) (ts_fn t) (ts_arg t) (ts_name t).
Definition set_ts_started (v : Z) (t : task_slot) : task_slot := TaskSlot (ts_state t) (ts_id t) (ts_smp_id t) (ts_submitted t) v (ts_finished t) (ts_fn t) (ts_arg t) (ts_name t).
Definition set_ts_finished (v : Z) (t : task_slot) : task_slot := TaskSlot (ts_state t) (ts_id t) (ts_smp_id t) (ts_submitted t) (ts_started t) v (ts_fn t) (ts_arg t) (ts_name t).

(** [id = next++; if (id == 0u) id = next++]: the id and the new counter. *)
Definition fresh_id (next : Z) : Z * Z :=
  let id := next in
  let next := u32 (next + 1) in
  if id =? 0 then (next, u32 (next + 1)) else (id, next).

(** ** Critical sections of the work queue *)

Definition is_null (fn : fnptr) : bool := match fn with FnNull => true | FnWorker => false | FnUser f => f =? 0 end.

(** Index, function and argument of the item that is taken. *)
Definition smp_take_work (s : sched) : option (nat * fnptr * Z) * sched :=
  match find_index (fun w => (ws_state w =? CPU_SMP_WORK_QUEUED) && negb (is_null (ws_fn w))) (smp_work_slots s) with
  | None => (None, s)
  | Some i =>
      match smp_work_slots s !! i with
      | None => (None, s)
      | Some w => (Some (i, ws_fn w, ws_arg w), set_work (<[i := set_ws_state CPU_SMP_WORK_RUNNING w]> (smp_work_slots s)) s)
      end
  end.

Definition cpu_record_busy_ticks (core t : Z) (s : sched) : sched :=
  if (Z.of_nat CPU_MAX_CORES <=? core) || (t =? 0) then s
  else set_busy (alter (fun b => u64 (b + t)) (Z.to_nat core) (busy_ticks s)) s.

(** [smp_work_slots\[slot\].state = CPU_SMP_WORK_DONE] *)
Definition smp_finish (slot : nat) (s : sched) : sched := set_work (alter (set_ws_state CPU_SMP_WORK_DONE) slot (smp_work_slots s)) s.

Definition smp_submit_work (fn : fnptr) (arg : Z) (s : sched) : Z * sched :=
  if is_null fn || (online_core_count s <=? 1) then (0, s)
  else match find_index (fun w => ws_state w =? CPU_SMP_WORK_FREE) (smp_work_slots s) with
       | None => (0, s)
       | Some i =>
           let '(id, next) := fresh_id (smp_next_work_id s) in
           (id, set_next_work next (set_work (<[i := WorkSlot CPU_SMP_WORK_QUEUED id fn arg]> (smp_work_slots s)) s))
       end.

Definition smp_work_done (id : Z) (s : sched) : bool :=
  if id =? 0 then true
  else match find_index (fun w => ws_id w =? id) (smp_work_slots s) with
       | None => false
       | Some i => match smp_work_slots s !! i with Some w => ws_state w =? CPU_SMP_WORK_DONE | None => false end
       end.

Definition smp_release_work (id : Z) (s : sched) : sched :=
  if id =? 0 then s
  else match find_index (fun w => (ws_id w =? id) && (ws_state w =? CPU_SMP_WORK_DONE)) (smp_work_slots s) with
       | None => s
       | Some i => set_work (<[i := WorkSlot CPU_SMP_WORK_FREE 0 FnNull 0]> (smp_work_slots s)) s
       end.

Definition is_pending (state : Z) : bool := (state =? CPU_SMP_WORK_QUEUED) || (state =? CPU_SMP_WORK_RUNNING).

Definition smp_pending_work_count (s : sched) : Z := Z.of_nat (length (filter (fun w => is_pending (ws_state w) = true) (smp_work_slots s))).

(** ** Critical sections of the tasks *)

Definition task_name (nm : option (list Z)) : list Z :=
  match nm with
  | Some (c :: s) => if c =? 0 then text "task" else c :: s
  | _ => text "task"
  end.

Definition cpu_copy_task_name (dst src : list Z) : list Z := copy_str dst src (length dst).

(** The slot of a new task, and its id. *)
Definition task_alloc (fn arg : Z) (nm : option (list Z)) (s : sched) : option (nat * Z) * sched :=
  match find_index (fun t => ts_state t =? CPU_TASK_FREE) (kernel_task_slots s) with
  | None => (None, s)
  | Some i =>
      match kernel_task_slots s !! i with
      | None => (None, s)
      | Some t =>
          let '(id, next) := fresh_id (kernel_task_next_id s) in
          let slot := TaskSlot CPU_TASK_RUNNING id 0 (ticks s) 0 0 fn arg (cpu_copy_task_name (ts_name t) (task_name nm)) in
          (Some (i, id), set_next_task next (set_tasks (<[i := slot]> (kernel_task_slots s)) s))
      end
  end.

(** [if (slot->id == id) slot->smp_id = smp_id] *)
Definition task_set_smp (slot : nat) (id smp_id : Z) (s : sched) : sched :=
  set_tasks (alter (fun t => if ts_id t =? id then set_ts_smp_id smp_id t else t) slot (kernel_task_slots s)) s.

(** Back to the queue, when no core can be asked. *)
Definition task_requeue (slot : nat) (id : Z) (s : sched) : sched :=
  set_tasks (alter (fun t => if (ts_id t =? id) && (ts_state t =? CPU_TASK_RUNNING) then set_ts_state CPU_TASK_QUEUED t else t) slot (kernel_task_slots s)) s.

(** The slot as kernel_task_release leaves it. *)
Definition cleared_task (t : task_slot) : task_slot := TaskSlot CPU_TASK_FREE 0 0 0 0 0 0 0 (<[0%nat := 0]> (ts_name t)).

Definition task_undo (slot : nat) (id : Z) (s : sched) : sched :=
  set_tasks (alter (fun t => if (ts_id t =? id) && (ts_state t =? CPU_TASK_RUNNING) then cleared_task t else t) slot (kernel_task_slots s)) s.

(** The first section of kernel_task_worker: function and argument to call. *)
Definition worker_begin (slot : nat) (s : sched) : option (Z * Z) * sched :=
  match kernel_task_slots s !! slot with
  | None => (None, s)
  | Some t =>
      if (ts_state t =? CPU_TASK_QUEUED) || (ts_state t =? CPU_TASK_RUNNING) then
        let t1 := set_ts_state CPU_TASK_RUNNING t in
        let t2 := if ts_started t1 =? 0 then set_ts_started (ticks s) t1 else t1 in
        (if ts_fn t =? 0 then None else Some (ts_fn t, ts_arg t), set_tasks (<[slot := t2]> (kernel_task_slots s)) s)
      else (None, s)
  end.

Definition worker_end (slot : nat) (s : sched) : sched :=
  set_tasks (alter (fun t => if ts_state t =? CPU_TASK_RUNNING then set_ts_state CPU_TASK_DONE (set_ts_finished (ticks s) t) else t) slot (kernel_task_slots s)) s.

(** The id of the work item of a finished task. *)
Definition finished_smp_id (i : nat) (s : sched) : Z :=
  match kernel_task_slots s !! i with
  | Some t => if (ts_state t =? CPU_TASK_DONE) && negb (ts_smp_id t =? 0) then ts_smp_id t else 0
  | None => 0
  end.

Definition task_clear_smp (i : nat) (smp_id : Z) (s : sched) : sched :=
  set_tasks (alter (fun t => if ts_smp_id t =? smp_id then set_ts_smp_id 0 t else t) i (kernel_task_slots s)) s.

Definition task_release_slot (id : Z) (s : sched) : sched :=
  match find_index (fun t => (ts_id t =? id) && (ts_state t =? CPU_TASK_DONE)) (kernel_task_slots s) with
  | None => s
  | Some i => set_tasks (alter cleared_task i (kernel_task_slots s)) s
  end.

Definition task_poll_take (s : sched) : option nat * sched :=
  match find_index (fun t => ts_state t =? CPU_TASK_QUEUED) (kernel_task_slots s) with
  | None => (None, s)
  | Some i => (Some i, set_tasks (alter (set_ts_state CPU_TASK_RUNNING) i (kernel_task_slots s)) s)
  end.

Definition task_done_read (id : Z) (s : sched) : bool :=
  match find_index (fun t => ts_id t =? id) (kernel_task_slots s) with
  | None => false
  | Some i => match kernel_task_slots s !! i with Some t => (ts_state t =? CPU_TASK_DONE) && (ts_smp_id t =? 0) | None => false end
  end.

Definition task_pending_count (s : sched) : Z := Z.of_nat (length (filter (fun t => is_pending (ts_state t) = true) (kernel_task_slots s))).

(** id, state, smp_id, the three times and the name of what is copied out. *)
Definition task_snapshot (max_count : Z) (s : sched) : list task_slot :=
  take (Z.to_nat max_count) (filter (fun t => negb (ts_state t =? CPU_TASK_FREE) = true) (kernel_task_slots s)).

(** ** Frames *)

(** A function that a core is in, and how far it is. Pointers to task slots are
    the index plus one, 0 is null. *)
Inductive frame : Type :=
(* smp_run_one_work_item: before taking, in fn, behind fn, before the last write *)
| RunOne (core : Z)
| RunCalled (core : Z) (slot : nat) (start_ticks : Z)
| RunBack (core : Z) (slot : nat) (start_ticks : Z)
| RunFinish (slot : nat)
(* smp_submit_work, smp_work_done, smp_release_work, smp_pending_work_count *)
| SubmitWork (fn : fnptr) (arg : Z)
| WorkDone (id : Z)
| ReleaseWork (id : Z)
| PendingWork
(* smp_wait_work: at the test, in smp_work_done, behind a test that failed, in
   the run of an item, behind a test that went through, in the release *)
| WaitWork (id : Z)
| WaitTested (id : Z)
| WaitRun (id : Z)
| WaitRan (id : Z)
| WaitRelease (id : Z)
| WaitReleased
(* kernel_task_worker: before the first section, in fn, before the second *)
| Worker (arg : Z)
| WorkerCalled (slot : nat)
| WorkerEnd (slot : nat)
(* kernel_task_release_finished_smp: at slot i, in smp_work_done, behind it, in
   smp_wait_work, before the second section *)
| Sweep (i : nat)
| SweepTested (i : nat) (smp_id : Z)
| SweepWait (i : nat) (smp_id : Z)
| SweepWaited (i : nat) (smp_id : Z)
| SweepClear (i : nat) (smp_id : Z)
(* kernel_task_release *)
| TaskRelease (id : Z)
| TaskReleaseSwept (id : Z)
| TaskReleaseSlot (id : Z)
(* kernel_task_submit_named and kernel_task_submit_async_named *)
| TaskSubmit (async : bool) (fn arg : Z) (nm : option (list Z))
| TaskSubmitted (async : bool) (slot : nat) (id : Z)
| TaskSetSmp (slot : nat) (id smp_id : Z)
| TaskRequeue (slot : nat) (id : Z)
| TaskUndo (slot : nat) (id : Z)
(* kernel_task_poll *)
| Poll
| PollSwept
| PollTake
| PollRan
(* kernel_task_done *)
| TaskDone (id : Z)
| TaskDoneSwept (id : Z)
| TaskDoneRead (id : Z)
(* kernel_task_wait *)
| TaskWait (id : Z)
| TaskWaitTested (id : Z)
| TaskWaitPoll (id : Z)
| TaskWaitPolled (id : Z)
| TaskWaitRelease (id : Z)
| TaskWaitReleased
(* kernel_task_pending_count, kernel_task_snapshot *)
| TaskPending
| TaskPendingSwept
| TaskPendingCount
| Snapshot (max_count : Z)
| SnapshotSwept (max_count : Z)
| SnapshotRead (max_count : Z)
(* the loop of cpu_ap_entry *)
| ApLoop (core : Z)
| ApRan (core : Z)
(* any other code *)
| User (f arg : Z).

(** What a step of a frame does: go on, call, return. *)
Inductive action : Type :=
| Goto (f : frame) (s : sched)
| Call (callee caller : frame) (s : sched)
| Return (v : Z) (s : sched).

Definition b2z (b : bool) : Z := if b then 1 else 0.

(** The call of a function pointer. *)
Definition call_of (fn : fnptr) (arg : Z) : frame :=
  match fn with
  | FnWorker => Worker arg
  | FnUser f => User f arg
  | FnNull => User 0 arg
  end.

Definition run_work (f : frame) (s : sched) : option action :=
  match f with
  | RunOne core =>
      let '(r, s) := smp_take_work s in
      Some (match r with
            | None => Return 0 s
            | Some (slot, fn, arg) => Call (call_of fn arg) (RunCalled core slot (ticks s)) s
            end)
  | RunBack core slot start_ticks =>
      let elapsed := u64 (ticks s - start_ticks) in
      Some (Goto (RunFinish slot) (cpu_record_busy_ticks core (if elapsed =? 0 then 1 else elapsed) s))
  | RunFinish slot => Some (Return 1 (smp_finish slot s))
  | SubmitWork fn arg => let '(id, s) := smp_submit_work fn arg s in Some (Return id s)
  | WorkDone id => Some (Return (b2z (smp_work_done id s)) s)
  | ReleaseWork id => Some (Return 0 (smp_release_work id s))
  | PendingWork => Some (Return (smp_pending_work_count s) s)
  | WaitWork id => Some (if id =? 0 then Return 0 s else Call (WorkDone id) (WaitTested id) s)
  | WaitRun id => Some (Call (RunOne 0) (WaitRan id) s)
  | WaitRelease id => Some (Call (ReleaseWork id) WaitReleased s)
  | WaitReleased => Some (Return 0 s)
  | _ => None
  end.

Definition run_task (f : frame) (s : sched) : option action :=
  match f with
  | Worker arg =>
      if arg =? 0 then Some (Return 0 s)
      else
        let slot := Z.to_nat (arg - 1) in
        let '(r, s) := worker_begin slot s in
        Some (match r with Some (fn, fn_arg) => Call (User fn fn_arg) (WorkerCalled slot) s | None => Goto (WorkerEnd slot) s end)
  | WorkerEnd slot => Some (Return 0 (worker_end slot s))
  | Sweep i =>
      if (Z.to_nat CPU_TASK_SLOTS <=? i)%nat then Some (Return 0 s)
      else
        let smp_id := finished_smp_id i s in
        Some (if smp_id =? 0 then Goto (Sweep (S i)) s else Call (WorkDone smp_id) (SweepTested i smp_id) s)
  | SweepWait i smp_id => Some (Call (WaitWork smp_id) (SweepWaited i smp_id) s)
  | SweepClear i smp_id => Some (Goto (Sweep (S i)) (task_clear_smp i smp_id s))
  | TaskRelease id => Some (if id =? 0 then Return 0 s else Call (Sweep 0) (TaskReleaseSwept id) s)
  | TaskReleaseSlot id => Some (Return 0 (task_release_slot id s))
  | TaskSubmit async fn arg nm =>
      if (fn =? 0) || (async && (online_core_count s <=? 1)) then Some (Return 0 s)
      else
        let '(r, s) := task_alloc fn arg nm s in
        Some (match r with
              | None => Return 0 s
              | Some (slot, id) => Call (SubmitWork FnWorker (Z.of_nat slot + 1)) (TaskSubmitted async slot id) s
              end)
  | TaskSetSmp slot id smp_id => Some (Return id (task_set_smp slot id smp_id s))
  | TaskRequeue slot id => Some (Return id (task_requeue slot id s))
  | TaskUndo slot id => Some (Return 0 (task_undo slot id s))
  | Poll => Some (Call (Sweep 0) PollSwept s)
  | PollTake =>
      let '(r, s) := task_poll_take s in
      Some (match r with None => Return 0 s | Some slot => Call (Worker (Z.of_nat slot + 1)) PollRan s end)
  | PollRan => Some (Return 1 s)
  | TaskDone id => Some (if id =? 0 then Return 1 s else Call (Sweep 0) (TaskDoneSwept id) s)
  | TaskDoneRead id => Some (Return (b2z (task_done_read id s)) s)
  | TaskWait id => Some (if id =? 0 then Return 0 s else Call (TaskDone id) (TaskWaitTested id) s)
  | TaskWaitPoll id => Some (Call Poll (TaskWaitPolled id) s)
  | TaskWaitRelease id => Some (Call (TaskRelease id) TaskWaitReleased s)
  | TaskWaitReleased => Some (Return 0 s)
  | TaskPending => Some (Call (Sweep 0) TaskPendingSwept s)
  | TaskPendingCount => Some (Return (task_pending_count s) s)
  | Snapshot max_count => Some (Call (Sweep 0) (SnapshotSwept max_count) s)
  | SnapshotRead max_count => Some (Return (if max_count =? 0 then 0 else Z.of_nat (length (task_snapshot max_count s))) s)
  | ApLoop core => Some (Call (RunOne core) (ApRan core) s)
  | _ => None
  end.

(** [None]: a frame that waits for a call, or code that is not modelled. *)
Definition run (f : frame) (s : sched) : option action :=
  match run_work f s with Some a => Some a | None => run_task f s end.

(** Where a caller goes on with the value returned. *)
Definition resume (f : frame) (v : Z) : frame :=
  match f with
  | RunCalled core slot start_ticks => RunBack core slot start_ticks
  | WaitTested id => if v =? 0 then WaitRun id else WaitRelease id
  | WaitRan id => WaitWork id
  | WorkerCalled slot => WorkerEnd slot
  | SweepTested i smp_id => if v =? 0 then Sweep (S i) else SweepWait i smp_id
  | SweepWaited i smp_id => SweepClear i smp_id
  | TaskReleaseSwept id => TaskReleaseSlot id
  | TaskSubmitted async slot id =>
      if negb (v =? 0) then TaskSetSmp slot id v else if async then TaskUndo slot id else TaskRequeue slot id
  | PollSwept => PollTake
  | TaskDoneSwept id => TaskDoneRead id
  | TaskWaitTested id => if v =? 0 then TaskWaitPoll id else TaskWaitRelease id
  | TaskWaitPolled id => TaskWait id
  | TaskPendingSwept => TaskPendingCount
  | SnapshotSwept max_count => SnapshotRead max_count
  | ApRan core => ApLoop core
  | _ => f
  end.

(** ** The machine *)

(** What happens to work items and tasks: they get an id, their function is
    called, it has returned. *)
Inductive event : Type :=
| EvNewWork (id : Z)
| EvNewTask (id : Z)
| EvWork (id : Z)
| EvWorkEnd (id : Z)
| EvTask (id : Z)
| EvTaskEnd (id : Z).

Definition events (f : frame) (s : sched) : list event :=
  match f with
  | RunOne _ =>
      match fst (smp_take_work s) with
      | Some (slot, _, _) => match smp_work_slots s !! slot with Some w => [EvWork (ws_id w)] | None => [] end
      | None => []
      end
  | SubmitWork fn arg => let id := fst (smp_submit_work fn arg s) in if id =? 0 then [] else [EvNewWork id]
  | TaskSubmit async fn arg nm =>
      if (fn =? 0) || (async && (online_core_count s <=? 1)) then []
      else match fst (task_alloc fn arg nm s) with Some (_, id) => [EvNewTask id] | None => [] end
  | RunFinish slot => match smp_work_slots s !! slot with Some w => [EvWorkEnd (ws_id w)] | None => [] end
  | Worker arg =>
      if arg =? 0 then []
      else match fst (worker_begin (Z.to_nat (arg - 1)) s), kernel_task_slots s !! Z.to_nat (arg - 1) with
           | Some _, Some t => [EvTask (ts_id t)]
           | _, _ => []
           end
  | WorkerEnd slot => match kernel_task_slots s !! slot with Some t => if ts_state t =? CPU_TASK_RUNNING then [EvTaskEnd (ts_id t)] else [] | None => [] end
  | _ => []
  end.

(** The functions other code may call; [kernel_task_worker] is static. *)
Definition is_api (f : frame) : bool :=
  match f with
  | SubmitWork FnWorker _ => false
  | SubmitWork _ _ | WorkDone _ | WaitWork _ | PendingWork | TaskRelease _ | TaskSubmit _ _ _ _ | Poll | TaskDone _ | TaskWait _ | TaskPending | Snapshot _ => true
  | _ => false
  end.

Record machine : Type := Machine {
  m_sched : sched;
  m_cores : list (list frame);
  m_trace : list event
}.

(** A core makes a step; other code on a core calls or returns; time passes. *)
Inductive label : Type :=
| LRun (core : nat)
| LCall (core : nat) (callee : frame)
| LRet (core : nat) (v : Z)
| LTick.

(** The stack below a return. *)
Definition return_to (v : Z) (rest : list frame) : list frame :=
  match rest with
  | [] => []
  | f :: rest' => resume f v :: rest'
  end.

Definition exec (l : label) (m : machine) : option machine :=
  match l with
  | LTick => Some (Machine (set_ticks (u64 (ticks (m_sched m) + 1)) (m_sched m)) (m_cores m) (m_trace m))
  | LRun core =>
      match m_cores m !! core with
      | Some (f :: rest) =>
          a ← run f (m_sched m);
          let '(stack, s) := match a with
                             | Goto f' s => (f' :: rest, s)
                             | Call g f' s => (g :: f' :: rest, s)
                             | Return v s => (return_to v rest, s)
                             end in
          Some (Machine s (<[core := stack]> (m_cores m)) (m_trace m ++ events f (m_sched m)))
      | _ => None
      end
  | LCall core callee =>
      match m_cores m !! core with
      | Some (User f arg :: rest) => if is_api callee then Some (Machine (m_sched m) (<[core := callee :: User f arg :: rest]> (m_cores m)) (m_trace m)) else None
      | _ => None
      end
  | LRet core v =>
      match m_cores m !! core with
      | Some (User f arg :: rest) => Some (Machine (m_sched m) (<[core := return_to v rest]> (m_cores m)) (m_trace m))
      | _ => None
      end
  end.

Fixpoint execs (ls : list label) (m : machine) : option machine :=
  match ls with
  | [] => Some m
  | l :: ls' => m' ← exec l m; execs ls' m'
  end.

(** After boot: core 0 runs the kernel's main code, the others the loop of
    cpu_ap_entry. *)
Definition boot (cores : nat) : machine :=
  Machine
    (Sched (replicate (Z.to_nat CPU_SMP_WORK_SLOTS) (WorkSlot 0 0 FnNull 0)) 1
           (replicate (Z.to_nat CPU_TASK_SLOTS) (TaskSlot 0 0 0 0 0 0 0 0 (replicate (Z.to_nat KERNEL_TASK_NAME_SIZE) 0))) 1
           (Z.of_nat cores) 0 (replicate CPU_MAX_CORES 0))
    ([User 0 0] :: ((fun i => [ApLoop (Z.of_nat i)]) <$> seq 1 (cores - 1))) [].
