(* ===== verification/TasksSpec.v ===== *)
(** The work queue and the kernel tasks, what holds between the steps.

    Both tables are tables of slots with a state and an id, and are treated
    alike by [tab_inv]: an id that was handed out is in at most one slot, a slot
    that runs has exactly one holder, and the events recorded for an id
    (handed out, called, returned) agree with the state of its slot. *)
From Stdlib Require Import ZArith Lia.
From stdpp Require Import base tactics option list numbers.
From S2P Require Import Prelude.
From S2P Require Import Tasks.
#[local] Open Scope Z_scope.

#[export] Instance event_eq_dec : EqDecision event.
Proof. solve_decision. Defined.

(** ** Counting *)

Definition b2n (b : bool) : nat := if b then 1%nat else 0%nat.

(** How often an event happened. *)
Definition cnt (e : event) (tr : list event) : nat := sum_list_with (fun x => b2n (bool_decide (x = e))) tr.

Lemma cnt_app e tr tr' : cnt e (tr ++ tr') = (cnt e tr + cnt e tr')%nat.
Proof. apply sum_list_with_app. Qed.

Lemma cnt_one e e' : cnt e [e'] = b2n (bool_decide (e' = e)).
Proof. unfold cnt. cbn. lia. Qed.

Lemma tab_out_insert {A} (l : list A) i j x : <[i := x]> l !! j = None -> l !! j = None.
Proof. rewrite !lookup_ge_None. by rewrite length_insert. Qed.

(** ** A table of slots *)

Section table.
(** State and id of each slot; how many hold the slot's token, how many of
    them have called its function; how often each id was handed out, called,
    and came back. *)
Record tab_inv (tb : list (Z * Z)) (next : Z) (K R : nat -> nat) (new run fin : Z -> nat) : Prop := {
  ti_slot : forall i st id, tb !! i = Some (st, id) ->
    0 <= st <= 3 /\ (st = 0 <-> id = 0) /\ K i = b2n (st =? 2) /\ (R i <= K i)%nat /\
    (id <> 0 -> new id = 1%nat /\ run id = (R i + b2n (st =? 3)%Z)%nat /\ fin id = b2n (st =? 3));
  ti_out : forall i, tb !! i = None -> K i = 0%nat /\ R i = 0%nat;
  ti_unique : forall i j st st' id, tb !! i = Some (st, id) -> tb !! j = Some (st', id) -> id <> 0 -> i = j;
  ti_new : forall id, (new id <= 1)%nat /\ (new id = 1%nat -> 0 < id < next);
  ti_ids : forall id, (fin id <= run id <= new id)%nat;
  ti_gone : forall id, (forall i st, tb !! i <> Some (st, id)) -> run id = fin id;
  ti_next : 0 < next
}.

Variable tb : list (Z * Z).
Variable next : Z.
Variables K R : nat -> nat.
Variables new run fin : Z -> nat.
Hypothesis I : tab_inv tb next K R new run fin.

Lemma tab_ext K' R' new' run' fin' :
  (forall i, K' i = K i) -> (forall i, R' i = R i) -> (forall id, new' id = new id) -> (forall id, run' id = run id) -> (forall id, fin' id = fin id) ->
  tab_inv tb next K' R' new' run' fin'.
Proof.
  intros HK HR Hn Hr Hf. destruct I as [I1 I2 I3 I4 I5 I6 I7]. split; try done.
  - intros i st id Hi. rewrite HK, HR, Hn, Hr, Hf. by apply I1.
  - intros i. rewrite HK, HR. apply I2.
  - intros id. rewrite Hn. apply I4.
  - intros id. rewrite Hn, Hr, Hf. apply I5.
  - intros id. rewrite Hr, Hf. apply I6.
Qed.

Lemma tab_zero : run 0 = fin 0.
Proof. destruct (ti_new _ _ _ _ _ _ _ I 0) as [? Hx], (ti_ids _ _ _ _ _ _ _ I 0). destruct (new 0) as [|[|]]; [lia|specialize (Hx eq_refl); lia|lia]. Qed.

Lemma tab_same_ids i st st' id : tb !! i = Some (st, id) -> forall j st1 id1, <[i := (st', id)]> tb !! j = Some (st1, id1) -> exists st2, tb !! j = Some (st2, id1).
Proof.
  intros Hi j st1 id1 Hj. destruct (decide (j = i)) as [->|Hne].
  - rewrite list_lookup_insert_eq in Hj by (by eapply lookup_lt_Some). injection Hj as <- <-. by exists st.
  - rewrite list_lookup_insert_ne in Hj by done. by exists st1.
Qed.

(** A free slot gets a new id. *)
Lemma tab_alloc i id0 st K' new' :
  tb !! i = Some (0, id0) -> st = 1 \/ st = 2 ->
  (forall j, K' j = (K j + b2n (bool_decide (j = i) && (st =? 2)%Z))%nat) -> (forall id, new' id = (new id + b2n (bool_decide (id = next)))%nat) ->
  tab_inv (<[i := (st, next)]> tb) (next + 1) K' R new' run fin.
Proof.
  intros Hi Hst HK Hn. destruct I as [I1 I2 I3 I4 I5 I6 I7]. pose proof (lookup_lt_Some _ _ _ Hi) as Hl.
  assert (new next = 0%nat) as Hn0 by (destruct (I4 next) as [? Hx]; destruct (new next) as [|[|]]; [done|specialize (Hx eq_refl); lia|lia]).
  assert (forall j st id, tb !! j = Some (st, id) -> id <> next) as Hfr by (intros j st' id Hj ->; destruct (I1 _ _ _ Hj) as (_ & _ & _ & _ & Hx); destruct Hx as [Hx _]; lia).
  split.
  - intros j st' id Hj. rewrite HK, Hn. destruct (decide (j = i)) as [->|Hne].
    + rewrite list_lookup_insert_eq in Hj by done. injection Hj as <- <-. destruct (I1 _ _ _ Hi) as (_ & _ & HK0 & HR0 & _). cbn in HK0.
      rewrite !bool_decide_true by done. rewrite HK0, Hn0. destruct (I5 next) as [? ?]. destruct Hst as [->| ->]; cbn; split_and!; lia.
    + rewrite list_lookup_insert_ne in Hj by done. rewrite (bool_decide_false (j = i)) by done. specialize (I1 _ _ _ Hj) as (A & B & C & D & E). rewrite (bool_decide_false (id = next)) by (by eapply Hfr). cbn. split_and!; lia.
  - intros j Hj. apply tab_out_insert in Hj. rewrite HK. destruct (I2 j Hj). rewrite bool_decide_false by congruence. cbn. lia.
  - intros j k st1 st2 id Hj Hk Hid. destruct (decide (j = i)) as [->|Hj'], (decide (k = i)) as [->|Hk']; [done|..].
    + rewrite list_lookup_insert_eq in Hj by done. rewrite list_lookup_insert_ne in Hk by done. injection Hj as <- <-. by destruct (Hfr _ _ _ Hk).
    + rewrite list_lookup_insert_eq in Hk by done. rewrite list_lookup_insert_ne in Hj by done. injection Hk as <- <-. by destruct (Hfr _ _ _ Hj).
    + rewrite list_lookup_insert_ne in Hj, Hk by done. by eapply I3.
  - intros id. rewrite Hn. destruct (I4 id) as [A B]. case_bool_decide as E; [subst id|]; cbn; [rewrite Hn0; lia|]. split; [lia|]. intros Hx. assert (new id = 1%nat) as Hy by lia. specialize (B Hy). lia.
  - intros id. rewrite Hn. destruct (I5 id). lia.
  - intros id Hg. destruct (decide (id = next)) as [->|Hne]; [destruct (I5 next); lia|]. destruct (decide (id = 0)) as [->|Hid]; [by apply tab_zero|].
    apply I6. intros j st' Hj. destruct (decide (j = i)) as [->|Hji].
    + rewrite Hi in Hj. injection Hj as <- <-. destruct (I1 _ _ _ Hi) as (_ & [Hz _] & _). by apply Hid, Hz.
    + apply (Hg j st'). by rewrite list_lookup_insert_ne.
  - lia.
Qed.

(** A slot stays in use. *)
Lemma tab_put i st id st' K' R' run' fin' :
  tb !! i = Some (st, id) -> id <> 0 -> 1 <= st' <= 3 ->
  K' i = b2n (st' =? 2) -> (R' i <= K' i)%nat -> run' id = (R' i + b2n (st' =? 3)%Z)%nat -> fin' id = b2n (st' =? 3) ->
  (forall j, j <> i -> K' j = K j /\ R' j = R j) -> (forall id', id' <> id -> run' id' = run id' /\ fin' id' = fin id') ->
  tab_inv (<[i := (st', id)]> tb) next K' R' new run' fin'.
Proof.
  intros Hi Hid Hst' HK HR Hru Hfi Hj Hr. destruct I as [I1 I2 I3 I4 I5 I6 I7]. pose proof (lookup_lt_Some _ _ _ Hi) as Hl.
  destruct (I1 _ _ _ Hi) as (_ & Hz & _ & _ & Hc). specialize (Hc Hid) as (C1 & _ & _).
  split.
  - intros j st1 id1 Hl1. destruct (decide (j = i)) as [->|Hne].
    + rewrite list_lookup_insert_eq in Hl1 by done. injection Hl1 as <- <-. split; [lia|]. split; [lia|]. done.
    + rewrite list_lookup_insert_ne in Hl1 by done. destruct (Hj j Hne) as [-> ->]. specialize (I1 _ _ _ Hl1) as (A & B & C & D & F). do 4 (split; [done|]).
      intros Hid1. destruct (Hr id1) as [-> ->]; [|by apply F]. intros ->. apply Hne. by eapply I3.
  - intros j Hl1. apply tab_out_insert in Hl1. destruct (Hj j) as [-> ->]; [congruence|]. by apply I2.
  - intros j k st1 st2 id1 Hj1 Hk1 Hid1. apply (tab_same_ids _ _ _ _ Hi) in Hj1 as [st1' Hj1]. apply (tab_same_ids _ _ _ _ Hi) in Hk1 as [st2' Hk1]. by eapply I3.
  - apply I4.
  - intros id1. destruct (decide (id1 = id)) as [->|Hne]; [|by destruct (Hr id1 Hne) as [-> ->]]. rewrite Hru, Hfi, C1. rewrite HK in HR. destruct (st' =? 2) eqn:E2, (st' =? 3) eqn:E3; cbn in *; lia.
  - intros id1 Hg. assert (id1 <> id) as Hne by (intros ->; apply (Hg i st'); by rewrite list_lookup_insert_eq). destruct (Hr id1 Hne) as [-> ->]. apply I6.
    intros j st1 Hj1. destruct (decide (j = i)) as [->|Hji]; [congruence|]. apply (Hg j st1). by rewrite list_lookup_insert_ne.
  - done.
Qed.

(** A slot is given back: its function has returned, or was not called. *)
Lemma tab_free i st id K' :
  tb !! i = Some (st, id) -> id <> 0 -> R i = 0%nat -> K' i = 0%nat -> (forall j, j <> i -> K' j = K j) ->
  tab_inv (<[i := (0, 0)]> tb) next K' R new run fin.
Proof.
  intros Hi Hid HR HK Hj. destruct I as [I1 I2 I3 I4 I5 I6 I7]. pose proof (lookup_lt_Some _ _ _ Hi) as Hl.
  destruct (I1 _ _ _ Hi) as (_ & _ & _ & _ & Hc). specialize (Hc Hid) as (C1 & C2 & C3).
  assert (forall j st1 id1, id1 <> 0 -> <[i := (0, 0)]> tb !! j = Some (st1, id1) -> j <> i /\ tb !! j = Some (st1, id1)) as Hin.
  { intros j st1 id1 Hid1 Hj1. destruct (decide (j = i)) as [->|Hne]; [rewrite list_lookup_insert_eq in Hj1 by done; congruence|]. by rewrite list_lookup_insert_ne in Hj1 by done. }
  split.
  - intros j st1 id1 Hl1. destruct (decide (j = i)) as [->|Hne].
    + rewrite list_lookup_insert_eq in Hl1 by done. injection Hl1 as <- <-. rewrite HR, HK. by split_and!.
    + rewrite list_lookup_insert_ne in Hl1 by done. rewrite (Hj j Hne). by apply I1.
  - intros j Hl1. apply tab_out_insert in Hl1. rewrite (Hj j); [|congruence]. by apply I2.
  - intros j k st1 st2 id1 Hj1 Hk1 Hid1. apply Hin in Hj1 as [_ Hj1]; [|done]. apply Hin in Hk1 as [_ Hk1]; [|done]. by eapply I3.
  - apply I4.
  - apply I5.
  - intros id1 Hg. destruct (decide (id1 = 0)) as [->|Hz]; [by apply tab_zero|]. destruct (decide (id1 = id)) as [->|Hne]; [lia|].
    apply I6. intros j st1 Hj1. destruct (decide (j = i)) as [->|Hji]; [congruence|]. apply (Hg j st1). by rewrite list_lookup_insert_ne.
  - done.
Qed.

(** What the slot of an id says of it. *)
Lemma tab_done i id : tb !! i = Some (3, id) -> id <> 0 -> fin id = 1%nat.
Proof. intros Hi Hid. destruct (ti_slot _ _ _ _ _ _ _ I _ _ _ Hi) as (_ & _ & _ & _ & Hc). by destruct (Hc Hid) as (_ & _ & ->). Qed.
End table.

(** ** The invariant of the two tables *)

Definition is_new_work (e : event) : bool := match e with EvNewWork _ => true | _ => false end.
Definition is_new_task (e : event) : bool := match e with EvNewTask _ => true | _ => false end.

(** How many ids were handed out. *)
Definition works (tr : list event) : Z := Z.of_nat (sum_list_with (fun e => b2n (is_new_work e)) tr).
Definition tasks (tr : list event) : Z := Z.of_nat (sum_list_with (fun e => b2n (is_new_task e)) tr).

(** The token of task slot [i] is in the queue. *)
Definition queued (i : nat) (w : work_slot) : nat :=
  match ws_fn w with FnWorker => b2n ((ws_state w =? CPU_SMP_WORK_QUEUED) && (ws_arg w =? Z.of_nat i + 1)) | _ => 0%nat end.

Definition in_queue (ws : list work_slot) (i : nat) : nat := sum_list_with (queued i) ws.

Definition wtab (ws : list work_slot) : list (Z * Z) := (fun w => (ws_state w, ws_id w)) <$> ws.
Definition ttab (ts : list task_slot) : list (Z * Z) := (fun t => (ts_state t, ts_id t)) <$> ts.

Definition work_inv (ws : list work_slot) (next : Z) (O : nat -> nat) (tr : list event) : Prop :=
  tab_inv (wtab ws) next O O (fun id => cnt (EvNewWork id) tr) (fun id => cnt (EvWork id) tr) (fun id => cnt (EvWorkEnd id) tr).

Definition task_inv (ts : list task_slot) (next : Z) (K R : nat -> nat) (tr : list event) : Prop :=
  tab_inv (ttab ts) next K R (fun id => cnt (EvNewTask id) tr) (fun id => cnt (EvTask id) tr) (fun id => cnt (EvTaskEnd id) tr).

(** With the number of cores in the function of each work item, the number of
    tokens of each task slot on the cores, and of cores in its function. *)
Record core_inv (s : sched) (O T R : nat -> nat) (tr : list event) : Prop := {
  ci_work : work_inv (smp_work_slots s) (smp_next_work_id s) O tr;
  ci_args : forall i w, smp_work_slots s !! i = Some w -> ws_fn w = FnWorker -> 1 <= ws_arg w;
  ci_task : task_inv (kernel_task_slots s) (kernel_task_next_id s) (fun i => (T i + in_queue (smp_work_slots s) i)%nat) R tr;
  ci_fns : forall i t, kernel_task_slots s !! i = Some t -> ts_state t <> 0 -> ts_fn t <> 0;
  ci_works : smp_next_work_id s = 1 + works tr;
  ci_tasks : kernel_task_next_id s = 1 + tasks tr
}.

Lemma cnt_snoc e tr e' : cnt e (tr ++ [e']) = (cnt e tr + b2n (bool_decide (e' = e)))%nat.
Proof. by rewrite cnt_app, cnt_one. Qed.

Lemma works_app tr tr' : works (tr ++ tr') = works tr + works tr'.
Proof. unfold works. rewrite sum_list_with_app. lia. Qed.
Lemma tasks_app tr tr' : tasks (tr ++ tr') = tasks tr + tasks tr'.
Proof. unfold tasks. rewrite sum_list_with_app. lia. Qed.

Lemma sum_insert {A} (g : A -> nat) (l : list A) i x y : l !! i = Some x -> (sum_list_with g (<[i := y]> l) + g x = sum_list_with g l + g y)%nat.
Proof. revert i. induction l as [|z l IH]; intros [|i] H; simplify_eq/=; [lia|]. specialize (IH i H). lia. Qed.

Lemma alter_some {A} (f : A -> A) (l : list A) i x : l !! i = Some x -> alter f i l = <[i := f x]> l.
Proof. intros H. rewrite list_insert_alter. apply list_alter_ext; [intros y Hy; congruence|done]. Qed.

Lemma alter_none {A} (f : A -> A) (l : list A) i : l !! i = None -> alter f i l = l.
Proof. intros H. apply list_eq. intros j. destruct (decide (i = j)) as [->|Hne]; [by rewrite list_lookup_alter_eq, H|by rewrite list_lookup_alter_ne]. Qed.

Lemma wtab_lookup ws i w : ws !! i = Some w -> wtab ws !! i = Some (ws_state w, ws_id w).
Proof. intros H. unfold wtab. by rewrite list_lookup_fmap, H. Qed.
Lemma ttab_lookup ts i t : ts !! i = Some t -> ttab ts !! i = Some (ts_state t, ts_id t).
Proof. intros H. unfold ttab. by rewrite list_lookup_fmap, H. Qed.
Lemma wtab_insert ws i w : wtab (<[i := w]> ws) = <[i := (ws_state w, ws_id w)]> (wtab ws).
Proof. apply (list_fmap_insert (fun w => (ws_state w, ws_id w))). Qed.
Lemma ttab_insert ts i t : ttab (<[i := t]> ts) = <[i := (ts_state t, ts_id t)]> (ttab ts).
Proof. apply (list_fmap_insert (fun t => (ts_state t, ts_id t))). Qed.

Lemma fresh_small next : 0 < next < 4294967295 -> fresh_id next = (next, next + 1).
Proof. intros H. unfold fresh_id. rewrite (proj2 (Z.eqb_neq _ _)) by lia. rewrite u32_small by (unfold is_u32; lia). done. Qed.

(** Events of the other kind, or none, leave a table as it is. *)
Lemma work_ext ws next O O' tr tr' :
  work_inv ws next O tr -> (forall i, O' i = O i) -> (forall id, cnt (EvNewWork id) tr' = cnt (EvNewWork id) tr) -> (forall id, cnt (EvWork id) tr' = cnt (EvWork id) tr) -> (forall id, cnt (EvWorkEnd id) tr' = cnt (EvWorkEnd id) tr) ->
  work_inv ws next O' tr'.
Proof. intros H **. by eapply tab_ext. Qed.

Lemma task_ext ts next K K' R R' tr tr' :
  task_inv ts next K R tr -> (forall i, K' i = K i) -> (forall i, R' i = R i) -> (forall id, cnt (EvNewTask id) tr' = cnt (EvNewTask id) tr) -> (forall id, cnt (EvTask id) tr' = cnt (EvTask id) tr) -> (forall id, cnt (EvTaskEnd id) tr' = cnt (EvTaskEnd id) tr) ->
  task_inv ts next K' R' tr'.
Proof. intros H **. by eapply tab_ext. Qed.

Ltac other_event := intros; rewrite cnt_snoc, bool_decide_false by done; apply Nat.add_0_r.

(** ** What the critical sections do to it *)

Section sections.
Variable s : sched.
Variables O T R : nat -> nat.
Variable tr : list event.
Hypothesis I : core_inv s O T R tr.

(** Same tables, same holders. *)
Lemma core_same s' O' T' R' :
  smp_work_slots s' = smp_work_slots s -> smp_next_work_id s' = smp_next_work_id s -> kernel_task_slots s' = kernel_task_slots s -> kernel_task_next_id s' = kernel_task_next_id s ->
  (forall i, O' i = O i) -> (forall i, T' i = T i) -> (forall i, R' i = R i) -> core_inv s' O' T' R' tr.
Proof.
  intros E1 E2 E3 E4 HO HT HR. destruct I as [I1 I2 I3 I4 I5 I6]. split; rewrite ?E1, ?E2, ?E3, ?E4; try done.
  - by apply (work_ext _ _ O _ tr).
  - eapply task_ext; [exact I3|..]; try done. intros i. cbn. by rewrite HT.
Qed.

Lemma work_slot_ok i w : smp_work_slots s !! i = Some w ->
  0 <= ws_state w <= 3 /\ (ws_state w = 0 <-> ws_id w = 0) /\ O i = b2n (ws_state w =? 2) /\
  (ws_id w <> 0 -> cnt (EvWork (ws_id w)) tr = (O i + b2n (ws_state w =? 3)%Z)%nat /\ cnt (EvWorkEnd (ws_id w)) tr = b2n (ws_state w =? 3)).
Proof. intros Hi. apply wtab_lookup in Hi. destruct (ti_slot _ _ _ _ _ _ _ (ci_work _ _ _ _ _ I) _ _ _ Hi) as (A & B & C & D & E). do 3 (split; [done|]). intros Hid. by destruct (E Hid) as (_ & ? & ?). Qed.

Lemma task_slot_ok i t : kernel_task_slots s !! i = Some t ->
  0 <= ts_state t <= 3 /\ (ts_state t = 0 <-> ts_id t = 0) /\ (T i + in_queue (smp_work_slots s) i)%nat = b2n (ts_state t =? 2) /\ (R i <= T i + in_queue (smp_work_slots s) i)%nat /\
  (ts_id t <> 0 -> cnt (EvTask (ts_id t)) tr = (R i + b2n (ts_state t =? 3)%Z)%nat /\ cnt (EvTaskEnd (ts_id t)) tr = b2n (ts_state t =? 3)).
Proof. intros Hi. apply ttab_lookup in Hi. destruct (ti_slot _ _ _ _ _ _ _ (ci_task _ _ _ _ _ I) _ _ _ Hi) as (A & B & C & D & E). do 4 (split; [done|]). intros Hid. by destruct (E Hid) as (_ & ? & ?). Qed.

Lemma args_insert k w : (ws_fn w = FnWorker -> 1 <= ws_arg w) -> forall i w', <[k := w]> (smp_work_slots s) !! i = Some w' -> ws_fn w' = FnWorker -> 1 <= ws_arg w'.
Proof. intros H i w' [(_ & -> & _)|(_ & Hi)]%list_lookup_insert_Some; [done|]. by apply (ci_args _ _ _ _ _ I _ _ Hi). Qed.

Lemma queue_insert k w w' i : smp_work_slots s !! k = Some w -> (in_queue (<[k := w']> (smp_work_slots s)) i + queued i w = in_queue (smp_work_slots s) i + queued i w')%nat.
Proof. apply sum_insert. Qed.

Lemma queued_zero i w : ws_state w <> 1 -> queued i w = 0%nat.
Proof. intros H. unfold queued. destruct (ws_fn w); try done. by rewrite (proj2 (Z.eqb_neq _ _)). Qed.

(** A change in the work queue. *)
Lemma core_work ws next O' T' e :
  work_inv ws next O' (tr ++ [e]) -> (forall i w, ws !! i = Some w -> ws_fn w = FnWorker -> 1 <= ws_arg w) ->
  (forall i, (T' i + in_queue ws i = T i + in_queue (smp_work_slots s) i)%nat) -> next = 1 + works (tr ++ [e]) ->
  (match e with EvNewWork _ | EvWork _ | EvWorkEnd _ => True | _ => False end) ->
  core_inv (set_next_work next (set_work ws s)) O' T' R (tr ++ [e]).
Proof.
  intros H1 H2 H3 H4 He. destruct I as [I1 I2 I3 I4 I5 I6]. split; cbn; try done.
  - eapply task_ext; [exact I3|intros i; cbn; apply H3|done|..]; destruct e; try done; other_event.
  - rewrite tasks_app, I6. destruct e; done || (unfold tasks; cbn; lia).
Qed.

Lemma core_take k w O' T' :
  smp_work_slots s !! k = Some w -> ws_state w = 1 -> (forall j, O' j = (O j + b2n (j =? k)%nat)%nat) -> (forall i, T' i = (T i + queued i w)%nat) ->
  core_inv (set_work (<[k := set_ws_state CPU_SMP_WORK_RUNNING w]> (smp_work_slots s)) s) O' T' R (tr ++ [EvWork (ws_id w)]).
Proof.
  intros Hk Hs HO HT. destruct (work_slot_ok k w Hk) as (A & B & C & D). rewrite Hs in *. cbn in C. assert (ws_id w <> 0) as Hid by lia. specialize (D Hid) as [D1 D2]. cbn in D1, D2.
  replace (set_work _ s) with (set_next_work (smp_next_work_id s) (set_work (<[k := set_ws_state CPU_SMP_WORK_RUNNING w]> (smp_work_slots s)) s)) by done.
  apply core_work; [..|done].
  - unfold work_inv. rewrite wtab_insert. cbn [set_ws_state ws_state ws_id].
    eapply tab_ext; [eapply (tab_put _ _ O O _ _ _ (ci_work _ _ _ _ _ I) k (ws_state w) (ws_id w) CPU_SMP_WORK_RUNNING O' O' (fun id => cnt (EvWork id) (tr ++ [EvWork (ws_id w)])) (fun id => cnt (EvWorkEnd id) tr))|..]; try done.
    + by apply wtab_lookup.
    + rewrite HO, C, Nat.eqb_refl. done.
    + cbn. rewrite cnt_snoc, bool_decide_true, HO, Nat.eqb_refl by done. cbn. lia.
    + intros j Hj. rewrite HO, (proj2 (Nat.eqb_neq _ _)) by done. cbn. lia.
    + intros id' Hne. rewrite cnt_snoc, bool_decide_false by congruence. cbn. lia.
    + other_event.
    + other_event.
  - apply args_insert. apply (ci_args _ _ _ _ _ I _ _ Hk).
  - intros i. rewrite HT. pose proof (queue_insert k w (set_ws_state CPU_SMP_WORK_RUNNING w) i Hk) as E. rewrite (queued_zero i (set_ws_state _ w)) in E by done. lia.
  - rewrite works_app, (ci_works _ _ _ _ _ I). unfold works. cbn. lia.
Qed.

Lemma core_finish k w O' :
  smp_work_slots s !! k = Some w -> (1 <= O k)%nat -> (forall j, (O' j + b2n (j =? k)%nat = O j)%nat) ->
  core_inv (smp_finish k s) O' T R (tr ++ [EvWorkEnd (ws_id w)]).
Proof.
  intros Hk Ho HO. destruct (work_slot_ok k w Hk) as (A & B & C & D). destruct (Z.eqb_spec (ws_state w) 2) as [Hs|Hs]; [|cbn in C; lia]. cbn in C. assert (ws_id w <> 0) as Hid by lia. specialize (D Hid) as [D1 D2]. rewrite Hs in D1, D2. cbn in D1, D2.
  unfold smp_finish. rewrite (alter_some _ _ _ _ Hk).
  replace (set_work _ s) with (set_next_work (smp_next_work_id s) (set_work (<[k := set_ws_state CPU_SMP_WORK_DONE w]> (smp_work_slots s)) s)) by done.
  assert (O' k = 0%nat) as HOk by (specialize (HO k); rewrite Nat.eqb_refl in HO; cbn in HO; lia).
  apply core_work; [..|done].
  - unfold work_inv. rewrite wtab_insert. cbn [set_ws_state ws_state ws_id].
    eapply tab_ext; [eapply (tab_put _ _ O O _ _ _ (ci_work _ _ _ _ _ I) k (ws_state w) (ws_id w) CPU_SMP_WORK_DONE O' O' (fun id => cnt (EvWork id) tr) (fun id => cnt (EvWorkEnd id) (tr ++ [EvWorkEnd (ws_id w)])))|..]; try done.
    + by apply wtab_lookup.
    + cbn. lia.
    + cbn. rewrite cnt_snoc, bool_decide_true by done. cbn. lia.
    + intros j Hj. specialize (HO j). rewrite (proj2 (Nat.eqb_neq _ _)) in HO by done. cbn in HO. lia.
    + intros id' Hne. rewrite cnt_snoc, bool_decide_false by congruence. cbn. lia.
    + other_event.
    + other_event.
  - apply args_insert. apply (ci_args _ _ _ _ _ I _ _ Hk).
  - intros i. pose proof (queue_insert k w (set_ws_state CPU_SMP_WORK_DONE w) i Hk) as E. rewrite !queued_zero in E by (done || lia). lia.
  - rewrite works_app, (ci_works _ _ _ _ _ I). unfold works. cbn. lia.
Qed.

Lemma core_submit fn arg T' id s' :
  smp_submit_work fn arg s = (id, s') -> id <> 0 -> works tr + 1 < 4294967295 -> (fn = FnWorker -> 1 <= arg) ->
  (forall i, (T' i + queued i (WorkSlot CPU_SMP_WORK_QUEUED id fn arg) = T i)%nat) ->
  core_inv s' O T' R (tr ++ [EvNewWork id]).
Proof.
  unfold smp_submit_work. intros Hs Hid Hb Ha HT. destruct (_ || _); [simplify_eq|]. destruct (find_index _ _) as [k|] eqn:Ek; [|simplify_eq].
  apply find_index_Some in Ek as (w & Hk & Hw & _). bool_prop. change CPU_SMP_WORK_FREE with 0 in Hw. pose proof (ti_next _ _ _ _ _ _ _ (ci_work _ _ _ _ _ I)) as Hn. pose proof (ci_works _ _ _ _ _ I) as Hn'.
  rewrite fresh_small in Hs by lia. injection Hs as <- <-. apply core_work; [..|done].
  - unfold work_inv. rewrite wtab_insert. cbn [ws_state ws_id].
    eapply tab_ext; [eapply (tab_alloc _ _ O O _ _ _ (ci_work _ _ _ _ _ I) k (ws_id w) CPU_SMP_WORK_QUEUED O (fun id => cnt (EvNewWork id) (tr ++ [EvNewWork (smp_next_work_id s)])))|..]; try done.
    + rewrite <- Hw. by apply wtab_lookup.
    + by left.
    + intros j. cbn. rewrite andb_false_r. cbn. lia.
    + intros id'. rewrite cnt_snoc. f_equal. f_equal. apply bool_decide_ext. split; congruence.
    + other_event.
    + other_event.
  - by apply args_insert.
  - intros i. pose proof (queue_insert k w (WorkSlot CPU_SMP_WORK_QUEUED (smp_next_work_id s) fn arg) i Hk) as E. rewrite (queued_zero i w) in E by lia. specialize (HT i). lia.
  - rewrite works_app. change (works [EvNewWork (smp_next_work_id s)]) with 1. lia.
Qed.

Lemma core_release id : core_inv (smp_release_work id s) O T R tr.
Proof.
  unfold smp_release_work. destruct (Z.eqb_spec id 0) as [|Hid]; [done|]. destruct (find_index _ _) as [k|] eqn:Ek; [|done].
  apply find_index_Some in Ek as (w & Hk & Hw & _). bool_prop. change CPU_SMP_WORK_DONE with 3 in *. destruct (work_slot_ok k w Hk) as (A & B & C & D).
  destruct I as [I1 I2 I3 I4 I5 I6]. split; cbn [set_work smp_work_slots smp_next_work_id kernel_task_slots kernel_task_next_id]; try done.
  - unfold work_inv. rewrite wtab_insert. cbn [ws_state ws_id]. assert (O k = 0%nat) as Ok by (rewrite C; by replace (ws_state w) with 3).
    eapply (tab_free _ _ _ _ _ _ _ I1 k (ws_state w) (ws_id w)); try done; [by apply wtab_lookup|congruence].
  - by apply args_insert.
  - eapply task_ext; [exact I3|..]; try done. intros i. cbv beta. pose proof (queue_insert k w (WorkSlot CPU_SMP_WORK_FREE 0 FnNull 0) i Hk) as E. rewrite !queued_zero in E by (done || lia). lia.
Qed.

(** A change of one task slot. *)
Lemma core_task k t next T' R' tr' :
  task_inv (<[k := t]> (kernel_task_slots s)) next (fun i => (T' i + in_queue (smp_work_slots s) i)%nat) R' tr' ->
  (ts_state t <> 0 -> ts_fn t <> 0) -> next = 1 + tasks tr' ->
  tr' = tr \/ (exists e, tr' = tr ++ [e] /\ match e with EvNewTask _ | EvTask _ | EvTaskEnd _ => True | _ => False end) ->
  core_inv (set_next_task next (set_tasks (<[k := t]> (kernel_task_slots s)) s)) O T' R' tr'.
Proof.
  intros H1 H2 H3 Htr. destruct I as [I1 I2 I3 I4 I5 I6]. split; cbn [set_tasks set_next_task smp_work_slots smp_next_work_id kernel_task_slots kernel_task_next_id]; try done.
  - destruct Htr as [->|(e & -> & He)]; [done|]. apply (work_ext _ _ O _ tr); [done..| | |]; destruct e; try done; other_event.
  - intros i t' [(_ & <- & _)|(_ & Hi)]%list_lookup_insert_Some; [done|]. by apply (I4 i).
  - destruct Htr as [->|(e & -> & He)]; [done|]. rewrite works_app, I5. destruct e; done || (unfold works; cbn; lia).
Qed.

(** The fields that are not of the table do not matter. *)
Lemma core_task_fields k t t' :
  kernel_task_slots s !! k = Some t -> ts_state t' = ts_state t -> ts_id t' = ts_id t -> ts_fn t' = ts_fn t ->
  core_inv (set_tasks (<[k := t']> (kernel_task_slots s)) s) O T R tr.
Proof.
  intros Hk E1 E2 E3. replace (set_tasks _ s) with (set_next_task (kernel_task_next_id s) (set_tasks (<[k := t']> (kernel_task_slots s)) s)) by done.
  apply core_task; [| |by apply (ci_tasks _ _ _ _ _ I)|by left].
  - unfold task_inv. rewrite ttab_insert, E1, E2, list_insert_id by (by apply ttab_lookup). apply (ci_task _ _ _ _ _ I).
  - rewrite E1, E3. by apply (ci_fns _ _ _ _ _ I k).
Qed.

Lemma core_alloc fn arg nm k id s' T' :
  task_alloc fn arg nm s = (Some (k, id), s') -> fn <> 0 -> tasks tr + 1 < 4294967295 -> (forall i, T' i = (T i + b2n (i =? k)%nat)%nat) ->
  core_inv s' O T' R (tr ++ [EvNewTask id]) /\ exists t, kernel_task_slots s' !! k = Some t /\ ts_id t = id.
Proof.
  unfold task_alloc. intros Hs Hfn Hb HT. destruct (find_index _ _) as [j|] eqn:Ek; [|simplify_eq]. apply find_index_Some in Ek as (t & Hk & Hw & _). bool_prop. change CPU_TASK_FREE with 0 in Hw. rewrite Hk in Hs.
  pose proof (ti_next _ _ _ _ _ _ _ (ci_task _ _ _ _ _ I)) as Hn. pose proof (ci_tasks _ _ _ _ _ I) as Hn'. rewrite fresh_small in Hs by lia. injection Hs as <- <- <-.
  split; [apply core_task|].
  - unfold task_inv. rewrite ttab_insert. cbn [ts_state ts_id].
    eapply tab_ext; [eapply (tab_alloc _ _ _ R _ _ _ (ci_task _ _ _ _ _ I) j (ts_id t) CPU_TASK_RUNNING (fun i => (T' i + in_queue (smp_work_slots s) i)%nat) (fun id => cnt (EvNewTask id) (tr ++ [EvNewTask (kernel_task_next_id s)])))|..]; try done.
    + rewrite <- Hw. by apply ttab_lookup.
    + by right.
    + intros i. cbv beta. rewrite HT, andb_true_r. replace (bool_decide (i = j)) with (i =? j)%nat; [lia|]. by case_bool_decide as E; [apply Nat.eqb_eq|apply Nat.eqb_neq].
    + intros id'. rewrite cnt_snoc. f_equal. f_equal. apply bool_decide_ext. split; congruence.
    + other_event.
    + other_event.
  - done.
  - rewrite tasks_app. change (tasks [EvNewTask (kernel_task_next_id s)]) with 1. lia.
  - right. by eexists.
  - eexists. split; [cbn; by rewrite list_lookup_insert_eq by (by eapply lookup_lt_Some)|done].
Qed.

(** A task keeps its slot. *)
Lemma core_task_put k t t' T' R' tr' :
  kernel_task_slots s !! k = Some t -> ts_id t' = ts_id t -> ts_fn t' = ts_fn t -> ts_state t <> 0 -> 1 <= ts_state t' <= 3 ->
  (T' k + in_queue (smp_work_slots s) k)%nat = b2n (ts_state t' =? 2) -> (R' k <= T' k)%nat ->
  cnt (EvTask (ts_id t)) tr' = (R' k + b2n (ts_state t' =? 3)%Z)%nat -> cnt (EvTaskEnd (ts_id t)) tr' = b2n (ts_state t' =? 3) ->
  (forall j, j <> k -> T' j = T j /\ R' j = R j) ->
  tr' = tr \/ tr' = tr ++ [EvTask (ts_id t)] \/ tr' = tr ++ [EvTaskEnd (ts_id t)] ->
  core_inv (set_tasks (<[k := t']> (kernel_task_slots s)) s) O T' R' tr'.
Proof.
  intros Hk E1 E2 Hs Hs' HT HR C1 C2 Hj Htr. replace (set_tasks _ s) with (set_next_task (kernel_task_next_id s) (set_tasks (<[k := t']> (kernel_task_slots s)) s)) by done.
  destruct (task_slot_ok k t Hk) as (A & B & _). assert (forall id, cnt (EvNewTask id) tr' = cnt (EvNewTask id) tr) as Hnew by (intros id; destruct Htr as [->|[->| ->]]; [done|other_event|other_event]).
  apply core_task.
  - unfold task_inv. rewrite ttab_insert, E1.
    eapply tab_ext; [eapply (tab_put _ _ _ R _ _ _ (ci_task _ _ _ _ _ I) k (ts_state t) (ts_id t) (ts_state t') (fun i => (T' i + in_queue (smp_work_slots s) i)%nat) R' (fun id => cnt (EvTask id) tr') (fun id => cnt (EvTaskEnd id) tr'))|..]; try done.
    + by apply ttab_lookup.
    + lia.
    + lia.
    + intros j Hne. cbv beta. by destruct (Hj j Hne) as [-> ->].
    + intros id' Hne. destruct Htr as [->|[->| ->]]; [done|..]; rewrite !cnt_snoc, !bool_decide_false by congruence; cbn; lia.
  - rewrite E2. intros _. by apply (ci_fns _ _ _ _ _ I k).
  - rewrite (ci_tasks _ _ _ _ _ I). destruct Htr as [->|[->| ->]]; [done|..]; rewrite tasks_app; unfold tasks; cbn; lia.
  - destruct Htr as [->|[->| ->]]; [by left|right; by eexists..].
Qed.

(** A task gives its slot back. *)
Lemma core_task_free k t T' :
  kernel_task_slots s !! k = Some t -> ts_state t <> 0 -> (R k <= T' k)%nat -> (T' k + in_queue (smp_work_slots s) k)%nat = 0%nat -> (forall j, j <> k -> T' j = T j) ->
  core_inv (set_tasks (<[k := cleared_task t]> (kernel_task_slots s)) s) O T' R tr.
Proof.
  intros Hk Hs HR HT Hj. replace (set_tasks _ s) with (set_next_task (kernel_task_next_id s) (set_tasks (<[k := cleared_task t]> (kernel_task_slots s)) s)) by done.
  destruct (task_slot_ok k t Hk) as (A & B & _). apply core_task; [|done|by apply (ci_tasks _ _ _ _ _ I)|by left].
  unfold task_inv. rewrite ttab_insert. cbn [ts_state ts_id cleared_task].
  eapply (tab_free _ _ _ _ _ _ _ (ci_task _ _ _ _ _ I) k (ts_state t) (ts_id t)); [by apply ttab_lookup|lia|lia|done|].
  intros j Hne. cbv beta. by rewrite Hj.
Qed.
End sections.
