(* ===== verification/TasksTheorems.v ===== *)
(** The work queue and the kernel tasks on any number of cores. *)
From Stdlib Require Import ZArith Lia.
From stdpp Require Import base tactics option list numbers.
From S2P Require Import Prelude.
From S2P Require Import Tasks.
From S2P Require Import TasksSpec.
#[local] Open Scope Z_scope.

(** ** Holders *)

(** The core is in the function of the work item in slot [i]. *)
Definition owner (i : nat) (f : frame) : nat :=
  match f with
  | RunCalled _ j _ | RunBack _ j _ | RunFinish j => b2n (i =? j)%nat
  | _ => 0%nat
  end.

(** The core has the token of task slot [i]. *)
Definition token (i : nat) (f : frame) : nat :=
  match f with
  | SubmitWork FnWorker a | Worker a => b2n (a =? Z.of_nat i + 1)
  | WorkerCalled j | WorkerEnd j | TaskRequeue j _ | TaskUndo j _ => b2n (i =? j)%nat
  | _ => 0%nat
  end.

(** The core has called the function of the task in slot [i]. *)
Definition started (i : nat) (f : frame) : nat :=
  match f with WorkerCalled j | WorkerEnd j => b2n (i =? j)%nat | _ => 0%nat end.

(** The frames of a stack, or of all cores, weighed. *)
Definition weigh (g : frame -> nat) (st : list frame) : nat := sum_list_with g st.
Definition total (g : frame -> nat) (cores : list (list frame)) : nat := sum_list_with (weigh g) cores.

Lemma started_token i f : (started i f <= token i f)%nat.
Proof. destruct f; cbn; lia. Qed.

Lemma weigh_le g h st : (forall f, (g f <= h f)%nat) -> (weigh g st <= weigh h st)%nat.
Proof. intros H. unfold weigh. induction st as [|f st IH]; cbn; [lia|]. specialize (H f). lia. Qed.

Lemma total_mono g h cores : (forall f, (g f <= h f)%nat) -> (total g cores <= total h cores)%nat.
Proof. intros H. unfold total. induction cores as [|st cores IH]; cbn; [lia|]. pose proof (weigh_le g h st H). lia. Qed.

Lemma total_le g cores c st : cores !! c = Some st -> (weigh g st <= total g cores)%nat.
Proof. unfold total. revert c. induction cores as [|x cores IH]; intros [|c] H; simplify_eq/=; [lia|]. specialize (IH c H). lia. Qed.

Lemma total_two g cores c c' st st' : c <> c' -> cores !! c = Some st -> cores !! c' = Some st' -> (weigh g st + weigh g st' <= total g cores)%nat.
Proof.
  revert c c'. induction cores as [|x cores IH]; intros [|c] [|c'] Hn H H'; simplify_eq/=.
  - pose proof (total_le g cores c' st' H'). unfold total in *. cbn. lia.
  - pose proof (total_le g cores c st H). unfold total in *. cbn. lia.
  - specialize (IH c c' ltac:(lia) H H'). unfold total in *. cbn. lia.
Qed.

(** ** One step of a frame *)

Definition after (a : action) : sched := match a with Goto _ s | Call _ _ s | Return _ s => s end.

(** The frames an action leaves above the caller. *)
Definition left (a : action) : list frame := match a with Goto f _ => [f] | Call g f _ => [g; f] | Return _ _ => [] end.

(** The slot still has the id that its submitter was given. *)
Definition claim (ts : list task_slot) (j : nat) (id : Z) : Prop := exists t, ts !! j = Some t /\ ts_id t = id.

Definition frame_ok (ts : list task_slot) (f : frame) : Prop :=
  match f with
  | TaskRequeue j id | TaskUndo j id => claim ts j id
  | Worker a => 1 <= a
  | _ => True
  end.

Definition submits_worker (f : frame) : bool := match f with SubmitWork FnWorker _ => true | _ => false end.

Section step.
Variable s : sched.
Variables O T R O' T' R' : nat -> nat.
Variable tr : list event.
Hypothesis I : core_inv s O T R tr.

(** The holders before and behind the step of a frame. *)
Definition moved (f : frame) (a : action) : Prop :=
  (forall i, (O' i + owner i f = O i + weigh (owner i) (left a))%nat) /\
  (forall i, (T' i + token i f = T i + weigh (token i) (left a))%nat) /\
  (forall i, (R' i + started i f = R i + weigh (started i) (left a))%nat) /\
  (forall i, (owner i f <= O i)%nat /\ (token i f <= T i)%nat /\ (started i f <= R i)%nat /\ (R' i <= T' i)%nat).

Lemma step_same f a : moved f a -> (forall i, owner i f = weigh (owner i) (left a)) -> (forall i, token i f = weigh (token i) (left a)) -> (forall i, started i f = weigh (started i) (left a)) ->
  smp_work_slots (after a) = smp_work_slots s -> smp_next_work_id (after a) = smp_next_work_id s -> kernel_task_slots (after a) = kernel_task_slots s -> kernel_task_next_id (after a) = kernel_task_next_id s ->
  core_inv (after a) O' T' R' (tr ++ []).
Proof.
  intros (M1 & M2 & M3 & _) E1 E2 E3 F1 F2 F3 F4. rewrite app_nil_r. eapply core_same; [exact I|done..| | |]; intros i.
  - specialize (M1 i). specialize (E1 i). lia.
  - specialize (M2 i). specialize (E2 i). lia.
  - specialize (M3 i). specialize (E3 i). lia.
Qed.

Lemma core_holders s' tr' Oa Ta Ra : core_inv s' Oa Ta Ra tr' -> (forall i, O' i = Oa i) -> (forall i, T' i = Ta i) -> (forall i, R' i = Ra i) -> core_inv s' O' T' R' tr'.
Proof. intros H **. by eapply core_same. Qed.

Lemma step_take core a : moved (RunOne core) a -> run (RunOne core) s = Some a -> core_inv (after a) O' T' R' (tr ++ events (RunOne core) s).
Proof.
  intros M. unfold run, run_work, events, smp_take_work. destruct (find_index _ _) as [k|] eqn:Ek; [|cbn; intros [= <-]; by apply (step_same _ _ M)].
  apply find_index_Some in Ek as (w & Hk & Hw & _). bool_prop. rewrite Hk. cbn. rewrite Hk. intros [= <-]. destruct M as (M1 & M2 & M3 & _). cbn in M1, M2, M3.
  eapply core_holders; [apply (core_take s O T R tr I k w (fun j => (O j + b2n (j =? k)%nat)%nat) (fun i => (T i + queued i w)%nat) Hk)|..]; try done; intros i; cbn.
  - specialize (M1 i). assert (owner i (call_of (ws_fn w) (ws_arg w)) = 0%nat) by (by destruct (ws_fn w)). lia.
  - specialize (M2 i). assert (token i (call_of (ws_fn w) (ws_arg w)) = queued i w) by (unfold queued; rewrite (proj2 (Z.eqb_eq (ws_state w) CPU_SMP_WORK_QUEUED)) by done; by destruct (ws_fn w)). lia.
  - specialize (M3 i). assert (started i (call_of (ws_fn w) (ws_arg w)) = 0%nat) by (by destruct (ws_fn w)). lia.
Qed.

Lemma step_finish k a : moved (RunFinish k) a -> run (RunFinish k) s = Some a -> core_inv (after a) O' T' R' (tr ++ events (RunFinish k) s).
Proof.
  intros (M1 & M2 & M3 & M4). cbn. intros [= <-]. cbn in *. destruct (M4 k) as (Hk & _). rewrite Nat.eqb_refl in Hk. cbn in Hk. destruct (smp_work_slots s !! k) as [w|] eqn:Ew.
  - eapply core_holders; [apply (core_finish s O T R tr I k w O' Ew Hk)|done|..]; intros i; [specialize (M1 i)|specialize (M2 i)|specialize (M3 i)]; lia.
  - exfalso. assert (O k = 0%nat); [|lia]. apply (ti_out _ _ _ _ _ _ _ (ci_work _ _ _ _ _ I)). unfold wtab. by rewrite list_lookup_fmap, Ew.
Qed.

(** A submission hands the token to the queue, or leaves it. *)
Lemma step_submit fn arg : works (tr ++ events (SubmitWork fn arg) s) < 4294967295 -> (fn = FnWorker -> 1 <= arg) ->
  let r := smp_submit_work fn arg s in
  (forall i, O' i = O i) -> (forall i, R' i = R i) -> (forall i, (T' i + queued i (WorkSlot CPU_SMP_WORK_QUEUED (fst r) fn arg) * (if (fst r =? 0)%Z then 0 else 1) = T i)%nat) ->
  core_inv (snd r) O' T' R' (tr ++ events (SubmitWork fn arg) s).
Proof.
  unfold events. destruct (smp_submit_work fn arg s) as [id s'] eqn:Es. cbn. intros Hb Ha M1 M3 M2. destruct (Z.eqb_spec id 0) as [->|Hid].
  - assert (s' = s) as -> by (revert Es; unfold smp_submit_work; destruct (_ || _); [congruence|]; destruct (find_index _ _); [|congruence]; unfold fresh_id; destruct (Z.eqb_spec (smp_next_work_id s) 0); intros [= E1 E2]; [|done];
      rewrite e in E1; discriminate E1).
    rewrite app_nil_r. eapply core_holders; [exact I|..]; intros i; [done| |done]. specialize (M2 i). lia.
  - rewrite works_app in Hb. change (works [EvNewWork id]) with 1 in Hb. eapply core_holders; [eapply (core_submit s O T R tr I fn arg T' id s' Es Hid Hb Ha)|..]; try done. intros i. specialize (M2 i). lia.
Qed.

(** A core with the token of a slot finds it running. *)
Lemma token_running k t : kernel_task_slots s !! k = Some t -> (1 <= T k)%nat -> ts_state t = 2 /\ T k = 1%nat /\ in_queue (smp_work_slots s) k = 0%nat /\ ts_id t <> 0.
Proof. intros Hk Ht. destruct (task_slot_ok s O T R tr I k t Hk) as (A & B & C & _). destruct (Z.eqb_spec (ts_state t) 2); cbn in C; lia. Qed.

Lemma token_slot k : (1 <= T k)%nat -> exists t, kernel_task_slots s !! k = Some t.
Proof.
  intros Ht. destruct (kernel_task_slots s !! k) as [t|] eqn:E; [by exists t|]. exfalso.
  destruct (ti_out _ _ _ _ _ _ _ (ci_task _ _ _ _ _ I) k) as [H _]; [unfold ttab; by rewrite list_lookup_fmap, E|]. lia.
Qed.

Lemma step_worker arg a : 1 <= arg -> moved (Worker arg) a -> run (Worker arg) s = Some a -> core_inv (after a) O' T' R' (tr ++ events (Worker arg) s).
Proof.
  intros Ha (M1 & M2 & M3 & M4). unfold run, run_work, run_task, events. rewrite (proj2 (Z.eqb_neq arg 0)) by lia. set (k := Z.to_nat (arg - 1)).
  assert (forall i, (arg =? Z.of_nat i + 1) = (i =? k)%nat) as Hki by (intros i; destruct (Z.eqb_spec arg (Z.of_nat i + 1)), (Nat.eqb_spec i k); unfold k in *; done || lia).
  assert (1 <= T k)%nat as Ht by (destruct (M4 k) as (_ & Hx & _); cbn in Hx; rewrite Hki, Nat.eqb_refl in Hx; done).
  destruct (token_slot k Ht) as [t Hk]. destruct (token_running k t Hk Ht) as (Hs & HT & HQ & Hid). destruct (task_slot_ok s O T R tr I k t Hk) as (_ & _ & _ & _ & C). specialize (C Hid) as [C1 C2]. rewrite Hs in C1, C2. cbn in C1, C2.
  unfold worker_begin. rewrite Hk, Hs. cbn [fst snd Z.eqb orb]. pose proof (ci_fns _ _ _ _ _ I k t Hk ltac:(lia)) as Hfn. rewrite (proj2 (Z.eqb_neq (ts_fn t) 0)) by done. cbn.
  intros [= <-]. cbn in *. assert (R' k = 1%nat /\ T' k = 1%nat) as [HR' HT']. { specialize (M2 k). specialize (M3 k). destruct (M4 k) as (_ & _ & _ & Hx). rewrite ?Hki, Nat.eqb_refl in *. cbn in *. lia. }
  eapply (core_holders _ _ O T' R'); [|intros i; specialize (M1 i); lia|done|done].
  eapply (core_task_put s O T R tr I k t); try done.
  - by destruct (_ =? 0).
  - by destruct (_ =? 0).
  - lia.
  - by destruct (_ =? 0).
  - rewrite HT', HQ. by destruct (_ =? 0).
  - lia.
  - rewrite cnt_snoc, bool_decide_true by done. assert (R k = 0%nat) by (specialize (M3 k); rewrite Nat.eqb_refl in M3; cbn in M3; lia). rewrite HR'. destruct (_ =? 0); cbn; lia.
  - rewrite cnt_snoc, bool_decide_false by done. destruct (_ =? 0); cbn; lia.
  - intros j Hne. specialize (M2 j). specialize (M3 j). rewrite ?Hki, (proj2 (Nat.eqb_neq j k)) in * by done. cbn in *. lia.
  - right. by left.
Qed.

Lemma step_worker_end k a : moved (WorkerEnd k) a -> run (WorkerEnd k) s = Some a -> core_inv (after a) O' T' R' (tr ++ events (WorkerEnd k) s).
Proof.
  intros (M1 & M2 & M3 & M4) Ha. cbn in Ha. injection Ha as <-. cbn in *. destruct (M4 k) as (_ & Ht & Hr & _). rewrite Nat.eqb_refl in Ht, Hr. cbn in Ht, Hr.
  destruct (token_slot k Ht) as [t Hk]. destruct (token_running k t Hk Ht) as (Hs & HT & HQ & Hid). destruct (task_slot_ok s O T R tr I k t Hk) as (_ & _ & _ & D & C). specialize (C Hid) as [C1 C2]. rewrite Hs in C1, C2. cbn in C1, C2.
  unfold worker_end. rewrite (alter_some _ _ _ _ Hk), Hk, Hs. cbn.
  assert (R' k = 0%nat /\ T' k = 0%nat) as [HR' HT']. { specialize (M2 k). specialize (M3 k). rewrite Nat.eqb_refl in *. cbn in *. lia. }
  eapply (core_holders _ _ O T' R'); [|intros i; specialize (M1 i); lia|done|done].
  eapply (core_task_put s O T R tr I k t); try done.
  - lia.
  - by rewrite HT', HQ.
  - lia.
  - rewrite cnt_snoc, bool_decide_false by done. rewrite HR'. cbn. lia.
  - rewrite cnt_snoc, bool_decide_true by done. cbn. lia.
  - intros j Hne. specialize (M2 j). specialize (M3 j). rewrite (proj2 (Nat.eqb_neq j k)) in * by done. cbn in *. lia.
  - right. by right.
Qed.

(** The submitter gets the token of a new task. *)
Lemma step_alloc async fn arg nm a : tasks (tr ++ events (TaskSubmit async fn arg nm) s) < 4294967295 -> moved (TaskSubmit async fn arg nm) a -> run (TaskSubmit async fn arg nm) s = Some a ->
  core_inv (after a) O' T' R' (tr ++ events (TaskSubmit async fn arg nm) s).
Proof.
  unfold run, run_work, run_task, events. intros Hb M. destruct (_ || _) eqn:E; [intros [= <-]; by apply (step_same _ _ M)|]. bool_prop.
  destruct (task_alloc fn arg nm s) as [[[k id]|] s'] eqn:Ea; cbn; intros [= <-]; cbn in *.
  - destruct M as (M1 & M2 & M3 & M4). cbn in *. destruct (core_alloc s O T R tr I fn arg nm k id s' (fun i => (T i + b2n (i =? k)%nat)%nat) Ea) as [J1 _]; [done|rewrite tasks_app in Hb; change (tasks [EvNewTask id]) with 1 in Hb; lia|done|].
    eapply core_holders; [exact J1|..]; intros i; cbn; [specialize (M1 i)|specialize (M2 i)|specialize (M3 i)]; try lia.
    destruct (Z.eqb_spec (Z.of_nat k + 1) (Z.of_nat i + 1)), (Nat.eqb_spec i k); cbn in *; lia.
  - assert (s' = s) as -> by (revert Ea; unfold task_alloc; destruct (find_index _ _); [|congruence]; destruct (kernel_task_slots s !! _); [|congruence]; destruct (fresh_id _); done). by apply (step_same _ _ M).
Qed.

Lemma alloc_claim async fn arg nm g f' s' : tasks (tr ++ events (TaskSubmit async fn arg nm) s) < 4294967295 -> run (TaskSubmit async fn arg nm) s = Some (Call g f' s') ->
  exists k id, g = SubmitWork FnWorker (Z.of_nat k + 1) /\ f' = TaskSubmitted async k id /\ claim (kernel_task_slots s') k id.
Proof.
  unfold run, run_work, run_task, events. intros Hb. destruct (_ || _) eqn:E; [done|]. bool_prop. destruct (task_alloc fn arg nm s) as [[[k id]|] s1] eqn:Ea; cbn; intros [= <- <- <-]; cbn in *.
  destruct (core_alloc s O T R tr I fn arg nm k id s1 (fun i => (T i + b2n (i =? k)%nat)%nat) Ea) as [_ J2]; [done|rewrite tasks_app in Hb; change (tasks [EvNewTask id]) with 1 in Hb; lia|done|]. by exists k, id.
Qed.

Lemma step_requeue k id a : claim (kernel_task_slots s) k id -> moved (TaskRequeue k id) a -> run (TaskRequeue k id) s = Some a -> core_inv (after a) O' T' R' (tr ++ events (TaskRequeue k id) s).
Proof.
  intros (t & Hk & Hid) (M1 & M2 & M3 & M4) Ha. cbn in Ha. injection Ha as <-. cbn in *. destruct (M4 k) as (_ & Ht & _ & Hr). rewrite Nat.eqb_refl in Ht. cbn in Ht.
  destruct (token_running k t Hk Ht) as (Hs & HT & HQ & Hid0). destruct (task_slot_ok s O T R tr I k t Hk) as (_ & _ & _ & D & C). specialize (C Hid0) as [C1 C2]. rewrite Hs in C1, C2. cbn in C1, C2.
  unfold task_requeue. rewrite (alter_some _ _ _ _ Hk), Hid, Hs, Z.eqb_refl. cbn. rewrite app_nil_r.
  assert (T' k = 0%nat) as HT' by (specialize (M2 k); rewrite Nat.eqb_refl in M2; cbn in *; lia). pose proof (M3 k) as HR'.
  eapply (core_holders _ _ O T' R'); [|intros i; specialize (M1 i); lia|done|done].
  eapply (core_task_put s O T R tr I k t); try done; try lia.
  - cbn. lia.
  - cbn. lia.
  - intros j Hne. specialize (M2 j). specialize (M3 j). rewrite (proj2 (Nat.eqb_neq j k)) in * by done. cbn in *. lia.
  - by left.
Qed.

Lemma step_undo k id a : claim (kernel_task_slots s) k id -> moved (TaskUndo k id) a -> run (TaskUndo k id) s = Some a -> core_inv (after a) O' T' R' (tr ++ events (TaskUndo k id) s).
Proof.
  intros (t & Hk & Hid) (M1 & M2 & M3 & M4) Ha. cbn in Ha. injection Ha as <-. cbn in *. destruct (M4 k) as (_ & Ht & _ & Hr). rewrite Nat.eqb_refl in Ht. cbn in Ht.
  destruct (token_running k t Hk Ht) as (Hs & HT & HQ & _).
  unfold task_undo. rewrite (alter_some _ _ _ _ Hk), Hid, Hs, Z.eqb_refl. cbn [andb Z.eqb CPU_TASK_RUNNING Pos.eqb]. rewrite app_nil_r.
  assert (T' k = 0%nat) as HT' by (specialize (M2 k); rewrite Nat.eqb_refl in M2; cbn in *; lia). pose proof (M3 k) as HR'.
  eapply (core_holders _ _ O T' R); [|intros i; specialize (M1 i); lia|done|intros i; specialize (M3 i); lia].
  apply (core_task_free s O T R tr I k t); try done; try lia.
  intros j Hne. specialize (M2 j). rewrite (proj2 (Nat.eqb_neq j k)) in M2 by done. cbn in *. lia.
Qed.

Lemma step_release id a : moved (TaskReleaseSlot id) a -> run (TaskReleaseSlot id) s = Some a -> core_inv (after a) O' T' R' (tr ++ []).
Proof.
  intros M Ha. cbn in Ha. injection Ha as <-. destruct M as (M1 & M2 & M3 & M4). cbn in *. rewrite app_nil_r. unfold task_release_slot.
  eapply (core_holders _ _ O T R); [|intros i; specialize (M1 i); lia|intros i; specialize (M2 i); lia|intros i; specialize (M3 i); lia].
  destruct (find_index _ _) as [k|] eqn:Ek; [|done]. apply find_index_Some in Ek as (t & Hk & Hw & _). bool_prop. rewrite (alter_some _ _ _ _ Hk). change CPU_TASK_DONE with 3 in *.
  destruct (task_slot_ok s O T R tr I k t Hk) as (_ & _ & C & D & _). assert ((ts_state t =? 2) = false) as E by lia. rewrite E in C. cbn in C.
  apply (core_task_free s O T R tr I k t); try done; lia.
Qed.

Lemma step_poll a : moved PollTake a -> run PollTake s = Some a -> core_inv (after a) O' T' R' (tr ++ []).
Proof.
  unfold run, run_work, run_task, task_poll_take. intros M. destruct (find_index _ _) as [k|] eqn:Ek; cbn; intros [= <-]; [|by apply (step_same _ _ M)].
  apply find_index_Some in Ek as (t & Hk & Hw & _). bool_prop. change CPU_TASK_QUEUED with 1 in Hw. destruct M as (M1 & M2 & M3 & M4). cbn in *. rewrite app_nil_r, (alter_some _ _ _ _ Hk).
  assert (forall i, (Z.of_nat k + 1 =? Z.of_nat i + 1) = (i =? k)%nat) as Hki by (intros i; destruct (Z.eqb_spec (Z.of_nat k + 1) (Z.of_nat i + 1)), (Nat.eqb_spec i k); done || lia).
  destruct (task_slot_ok s O T R tr I k t Hk) as (_ & B & C & D & F). assert (ts_id t <> 0) as Hid by lia. specialize (F Hid) as [F1 F2]. rewrite Hw in *. cbn in C, F1, F2. pose proof (M2 k) as M2k. pose proof (M3 k) as M3k. rewrite Hki, Nat.eqb_refl in M2k. cbn in M2k.
  eapply (core_holders _ _ O T' R'); [|intros i; specialize (M1 i); lia|done|done].
  eapply (core_task_put s O T R tr I k t); try done; try lia.
  - cbn. lia.
  - cbn. lia.
  - intros j Hne. specialize (M2 j). specialize (M3 j). rewrite Hki, (proj2 (Nat.eqb_neq j k)) in M2 by done. cbn in *. lia.
  - by left.
Qed.

Lemma step_fields k (g : task_slot -> task_slot) f a : (forall t, ts_state (g t) = ts_state t /\ ts_id (g t) = ts_id t /\ ts_fn (g t) = ts_fn t) ->
  moved f a -> (forall i, owner i f = weigh (owner i) (left a)) -> (forall i, token i f = weigh (token i) (left a)) -> (forall i, started i f = weigh (started i) (left a)) ->
  after a = set_tasks (alter g k (kernel_task_slots s)) s -> core_inv (after a) O' T' R' (tr ++ []).
Proof.
  intros Hg (M1 & M2 & M3 & _) E1 E2 E3 ->. rewrite app_nil_r. eapply (core_holders _ _ O T R).
  - destruct (kernel_task_slots s !! k) as [t|] eqn:Hk; [|rewrite (alter_none _ _ _ Hk); by destruct s]. rewrite (alter_some _ _ _ _ Hk). destruct (Hg t) as (? & ? & ?). by apply (core_task_fields s O T R tr I k t).
  - intros i. specialize (M1 i). specialize (E1 i). lia.
  - intros i. specialize (M2 i). specialize (E2 i). lia.
  - intros i. specialize (M3 i). specialize (E3 i). lia.
Qed.

(** Every step of a frame but the submission of a task. *)
Lemma step_ok f a : frame_ok (kernel_task_slots s) f -> submits_worker f = false -> works (tr ++ events f s) < 4294967295 -> tasks (tr ++ events f s) < 4294967295 ->
  moved f a -> run f s = Some a -> core_inv (after a) O' T' R' (tr ++ events f s).
Proof.
  intros Hok Hsub Hw Ht M Ha. destruct f; try discriminate Ha; try (by apply (step_same _ a M); revert Ha; cbn; repeat (destruct (_ =? _)); intros [= <-]).
  - by apply step_take.
  - revert Ha. cbn. intros [= <-]. apply (step_same _ _ M); try done; cbn; unfold cpu_record_busy_ticks; by destruct (_ || _).
  - by apply step_finish.
  - unfold run, run_work in Ha. destruct (smp_submit_work fn arg s) as [id s'] eqn:Es. injection Ha as <-. destruct M as (M1 & M2 & M3 & _). cbn in M1, M2, M3.
    assert (fn <> FnWorker) as Hfn by (by intros ->). replace (after (Return id s')) with (snd (smp_submit_work fn arg s)) by (by rewrite Es).
    assert (forall i, token i (SubmitWork fn arg) = 0%nat) as Hz by (by destruct fn). apply step_submit; [done|done|intros i; specialize (M1 i); lia|intros i; specialize (M3 i); lia|].
    intros i. specialize (M2 i). specialize (Hz i). cbn in Hz. assert (queued i (WorkSlot CPU_SMP_WORK_QUEUED (fst (smp_submit_work fn arg s)) fn arg) = 0%nat) as -> by (by destruct fn). lia.
  - revert Ha. cbn. intros [= <-]. destruct M as (M1 & M2 & M3 & _). cbn in *. rewrite app_nil_r. eapply (core_holders _ _ O T R); [by apply core_release|..]; intros i; [specialize (M1 i)|specialize (M2 i)|specialize (M3 i)]; lia.
  - by apply step_worker.
  - by apply step_worker_end.
  - revert Ha. unfold run, run_work, run_task. destruct (_ <=? _)%nat; [|destruct (_ =? 0)]; intros [= <-]; by apply (step_same _ _ M).
  - eapply (step_fields i (fun t => if ts_smp_id t =? smp_id then set_ts_smp_id 0 t else t) _ a); [| exact M|..]; revert Ha; cbn; intros [= <-]; try done. intros t. by destruct (_ =? _).
  - by eapply step_release.
  - by apply step_alloc.
  - eapply (step_fields slot (fun t => if ts_id t =? id then set_ts_smp_id smp_id t else t) _ a); [| exact M|..]; revert Ha; cbn; intros [= <-]; try done. intros t. by destruct (_ =? _).
  - by apply step_requeue.
  - by apply step_undo.
  - by apply step_poll.
Qed.

(** A slot whose token another frame has keeps its id. *)
Lemma claim_insert k t t' j id : kernel_task_slots s !! k = Some t -> (k = j -> ts_id t' = ts_id t) -> claim (kernel_task_slots s) j id -> claim (<[k := t']> (kernel_task_slots s)) j id.
Proof.
  intros Hk Hid (x & Hx & Ex). destruct (decide (j = k)) as [->|Hne].
  - exists t'. rewrite list_lookup_insert_eq by (by eapply lookup_lt_Some). split; [done|]. rewrite Hid by done. congruence.
  - exists x. by rewrite list_lookup_insert_ne by done.
Qed.

Lemma claim_alter k g j id : (forall t, kernel_task_slots s !! k = Some t -> k = j -> ts_id (g t) = ts_id t) -> claim (kernel_task_slots s) j id -> claim (alter g k (kernel_task_slots s)) j id.
Proof. intros Hg Hc. destruct (kernel_task_slots s !! k) as [t|] eqn:Hk; [|by rewrite (alter_none _ _ _ Hk)]. rewrite (alter_some _ _ _ _ Hk). by apply (claim_insert k t); [|apply Hg|]. Qed.

Lemma token_not_free j t : kernel_task_slots s !! j = Some t -> (1 <= T j)%nat -> ts_state t <> 2 -> False.
Proof. intros Hj Ht Hs. by destruct (token_running j t Hj Ht) as [? _]. Qed.

Lemma claim_kept f a j id : run f s = Some a -> (token j f < T j)%nat -> claim (kernel_task_slots s) j id -> claim (kernel_task_slots (after a)) j id.
Proof.
  intros Ha Ht Hc. destruct f; try discriminate Ha; try (by revert Ha; cbn; repeat (destruct (_ =? _)); intros [= <-]).
  all: revert Ha; unfold run, run_work, run_task.
  - unfold smp_take_work. destruct (find_index _ _); [destruct (smp_work_slots s !! _)|]; by intros [= <-].
  - intros [= <-]. cbn. unfold cpu_record_busy_ticks. by destruct (_ || _).
  - unfold smp_submit_work. destruct (_ || _); [by intros [= <-]|]. destruct (find_index _ _); [destruct (fresh_id _)|]; by intros [= <-].
  - intros [= <-]. cbn. unfold smp_release_work. destruct (_ =? 0); [done|]. by destruct (find_index _ _).
  - destruct (arg =? 0); [by intros [= <-]|]. unfold worker_begin. destruct (kernel_task_slots s !! _) as [t|] eqn:Hk; [|by intros [= <-]].
    destruct (_ || _); [|by intros [= <-]]. destruct (ts_fn t =? 0); intros [= <-]; cbn; (eapply claim_insert; [exact Hk| |done]); by destruct (_ =? 0).
  - intros [= <-]. cbn. apply claim_alter; [|done]. intros t _ _. by destruct (_ =? _).
  - destruct (_ <=? _)%nat; [|destruct (_ =? 0)]; by intros [= <-].
  - intros [= <-]. cbn. apply claim_alter; [|done]. intros t _ _. by destruct (_ =? _).
  - intros [= <-]. cbn. unfold task_release_slot. destruct (find_index _ _) as [k|] eqn:Ek; [|done]. apply claim_alter; [|done]. intros t Hk ->.
    apply find_index_Some in Ek as (t' & Hk' & Hw & _). rewrite Hk in Hk'. injection Hk' as <-. bool_prop. change CPU_TASK_DONE with 3 in *. destruct (token_not_free j t Hk); lia.
  - destruct (_ || _); [by intros [= <-]|]. unfold task_alloc. destruct (find_index _ _) as [k|] eqn:Ek; [|by intros [= <-]]. apply find_index_Some in Ek as (t & Hk & Hw & _). bool_prop. change CPU_TASK_FREE with 0 in *.
    rewrite Hk. destruct (fresh_id _). intros [= <-]. cbn. apply (claim_insert k t); [done| |done]. intros ->. destruct (token_not_free j t Hk); lia.
  - intros [= <-]. cbn. apply claim_alter; [|done]. intros t _ _. by destruct (_ =? _).
  - intros [= <-]. cbn. apply claim_alter; [|done]. intros t _ _. by destruct (_ && _).
  - intros [= <-]. cbn. apply claim_alter; [|done]. intros t Hk ->. exfalso. cbn in Ht. rewrite Nat.eqb_refl in Ht. cbn in Ht. destruct (token_running j t Hk ltac:(lia)) as (_ & ? & _). lia.
  - unfold task_poll_take. destruct (find_index _ _) as [k|]; intros [= <-]; [|done]. cbn. by apply claim_alter.
Qed.
End step.

(** ** The stacks of the cores *)

(** Frames that wait for a call. *)
Definition waits (f : frame) : bool :=
  match f with
  | RunCalled _ _ _ | WaitTested _ | WaitRan _ | WaitReleased | WorkerCalled _ | SweepTested _ _ | SweepWaited _ _ | TaskReleaseSwept _ | PollSwept | PollRan
  | TaskDoneSwept _ | TaskWaitTested _ | TaskWaitPolled _ | TaskWaitReleased | TaskPendingSwept | SnapshotSwept _ | ApRan _ | User _ _ => true
  | _ => false
  end.

Definition stack_ok (ts : list task_slot) (st : list frame) : Prop :=
  match st with
  | SubmitWork FnWorker arg :: TaskSubmitted _ j id :: rest => arg = Z.of_nat j + 1 /\ claim ts j id /\ Forall (fun f => waits f = true) rest
  | f :: rest => submits_worker f = false /\ frame_ok ts f /\ Forall (fun f => waits f = true) rest
  | [] => True
  end.

Definition inv (m : machine) : Prop :=
  core_inv (m_sched m) (fun i => total (owner i) (m_cores m)) (fun i => total (token i) (m_cores m)) (fun i => total (started i) (m_cores m)) (m_trace m) /\
  forall c st, m_cores m !! c = Some st -> stack_ok (kernel_task_slots (m_sched m)) st.

Lemma resume_waits f v : waits f = true -> (forall i, owner i (resume f v) = owner i f /\ token i (resume f v) = token i f /\ started i (resume f v) = started i f) /\ submits_worker (resume f v) = false /\ forall ts, frame_ok ts (resume f v).
Proof. by destruct f; cbn; repeat (destruct (_ =? _)). Qed.

Lemma total_insert g cores c st st' : cores !! c = Some st -> (total g (<[c := st']> cores) + weigh g st = total g cores + weigh g st')%nat.
Proof. apply sum_insert. Qed.

Lemma stack_cons ts f rest : submits_worker f = false -> frame_ok ts f -> Forall (fun f => waits f = true) rest -> stack_ok ts (f :: rest).
Proof. intros. destruct f; try done. by destruct fn. Qed.

(** ** Every step keeps the invariant *)

Definition stack_after (a : action) (rest : list frame) : list frame :=
  match a with Goto f _ => f :: rest | Call g f _ => g :: f :: rest | Return v _ => return_to v rest end.

Lemma exec_run c m m' : exec (LRun c) m = Some m' ->
  exists f rest a, m_cores m !! c = Some (f :: rest) /\ run f (m_sched m) = Some a /\
    m' = Machine (after a) (<[c := stack_after a rest]> (m_cores m)) (m_trace m ++ events f (m_sched m)).
Proof.
  cbn. destruct (m_cores m !! c) as [[|f rest]|] eqn:Ec; try done. destruct (run f (m_sched m)) as [a|] eqn:Ea; [|done]. cbn. intros H. exists f, rest, a. split_and!; try done. by destruct a; injection H as <-.
Qed.

Lemma stack_kept ts ts' st : stack_ok ts st -> (forall j id, claim ts j id -> (1 <= weigh (token j) st)%nat -> claim ts' j id) -> stack_ok ts' st.
Proof.
  intros H Hc. destruct st as [|f st]; [done|]. destruct f; try done.
  - destruct fn; try done. destruct st as [|g st]; [done|]. destruct g; try done. destruct H as (-> & H & ?). split_and!; try done. apply Hc; [done|]. cbn. rewrite Z.eqb_refl. cbn. lia.
  - destruct H as (_ & H & ?). split_and!; try done. cbn. apply Hc; [done|]. cbn. rewrite Nat.eqb_refl. cbn. lia.
  - destruct H as (_ & H & ?). split_and!; try done. cbn. apply Hc; [done|]. cbn. rewrite Nat.eqb_refl. cbn. lia.
Qed.

Lemma action_shape s O T R tr f a : core_inv s O T R tr -> run f s = Some a ->
  match a with
  | Goto f' _ => submits_worker f' = false /\ forall ts, frame_ok ts f'
  | Call g f' _ => (waits f' = true /\ submits_worker g = false /\ forall ts, frame_ok ts g) \/ exists async fn arg nm, f = TaskSubmit async fn arg nm
  | Return _ _ => True
  end.
Proof.
  intros I Ha. destruct f; try discriminate Ha; try (by revert Ha; cbn; repeat (destruct (_ =? _)); intros [= <-]; done || (left; split_and!; done)). all: revert Ha; unfold run, run_work, run_task.
  - unfold smp_take_work. destruct (find_index _ _) as [k|]; [|by intros [= <-]]. destruct (smp_work_slots s !! k) as [w|] eqn:Hk; [|by intros [= <-]]. intros [= <-]. left. pose proof (ci_args _ _ _ _ _ I k w Hk) as H. destruct (ws_fn w); cbn; auto.
  - destruct (smp_submit_work fn arg s). by intros [= <-].
  - destruct (arg =? 0); [by intros [= <-]|]. destruct (worker_begin _ s) as [[[fn fn_arg]|] s']; intros [= <-]; done || (left; split_and!; done).
  - destruct (_ <=? _)%nat; [|destruct (_ =? 0)]; intros [= <-]; done || (left; split_and!; done).
  - destruct a; [|intros _; right; by do 4 eexists|done]. destruct (_ || _); [done|]. by destruct (task_alloc _ _ _ _) as [[[? ?]|] ?].
  - destruct (task_poll_take s) as [[k|] s']; intros [= <-]; [left|done]. cbn. split_and!; try done. lia.
Qed.

Lemma weigh_return g v rest : Forall (fun f => waits f = true) rest -> (forall f, waits f = true -> g (resume f v) = g f) -> weigh g (return_to v rest) = weigh g rest.
Proof. intros H Hg. destruct H as [|f rest Hf H]; [done|]. cbn. by rewrite Hg. Qed.

Lemma weigh_after g a rest : Forall (fun f => waits f = true) rest -> (forall f v, waits f = true -> g (resume f v) = g f) -> weigh g (stack_after a rest) = (weigh g (left a) + weigh g rest)%nat.
Proof. intros H Hg. destruct a; [unfold weigh; cbn; lia|unfold weigh; cbn; lia|]. apply (weigh_return g v rest H). intros f. apply Hg. Qed.

Lemma stack_ok_cons ts f rest : submits_worker f = false -> stack_ok ts (f :: rest) -> frame_ok ts f /\ Forall (fun f => waits f = true) rest.
Proof. intros Hf H. destruct f; try (by destruct H as (_ & ? & ?)). destruct fn; [|done|]; by destruct H as (_ & ? & ?). Qed.

Lemma stack_after_ok s O T R tr f a rest : core_inv s O T R tr -> tasks (tr ++ events f s) < 4294967295 -> Forall (fun f => waits f = true) rest -> run f s = Some a ->
  stack_ok (kernel_task_slots (after a)) (stack_after a rest).
Proof.
  intros I Ht Hrest Ha. pose proof (action_shape s O T R tr f a I Ha) as Hsh. destruct a as [f' s'|g f' s'|v s']; cbn [stack_after after].
  - destruct Hsh as [H1 H2]. by apply stack_cons.
  - destruct Hsh as [(H1 & H2 & H3)|(async & fn & arg & nm & ->)]; [apply stack_cons; [done..|]; by apply Forall_cons|].
    destruct (alloc_claim s O T R tr I async fn arg nm g f' s' Ht Ha) as (k & id & -> & -> & Hc). by split_and!.
  - destruct Hrest as [|g rest Hg Hrest]; [done|]. cbn. destruct (resume_waits g v Hg) as (_ & ? & ?). by apply stack_cons.
Qed.

Lemma submit_keeps_inv c f rest a m : inv m -> m_cores m !! c = Some (f :: rest) -> submits_worker f = true -> run f (m_sched m) = Some a ->
  works (m_trace m ++ events f (m_sched m)) < 4294967295 ->
  inv (Machine (after a) (<[c := stack_after a rest]> (m_cores m)) (m_trace m ++ events f (m_sched m))).
Proof.
  intros [I HS] Hc Hsub Ha Hw. destruct f; try done. destruct fn; try done. pose proof (HS _ _ Hc) as Hst. destruct rest as [|g rest]; [by destruct Hst|]. destruct g; try (by destruct Hst). destruct Hst as (-> & Hcl & Hrest).
  unfold run, run_work in Ha. destruct (smp_submit_work FnWorker (Z.of_nat slot + 1) (m_sched m)) as [v s'] eqn:Es. injection Ha as <-. cbn [after stack_after return_to].
  assert (kernel_task_slots s' = kernel_task_slots (m_sched m)) as Ets by (revert Es; unfold smp_submit_work; destruct (_ || _); [by intros [= <- <-]|]; destruct (find_index _ _); [destruct (fresh_id _)|]; by intros [= <- <-]).
  set (f' := resume (TaskSubmitted async slot id) v). set (cores' := <[c := f' :: rest]> (m_cores m)).
  assert (f' = if v =? 0 then if async then TaskUndo slot id else TaskRequeue slot id else TaskSetSmp slot id v) as Ef by (unfold f'; cbn; by destruct (v =? 0)).
  assert (forall i, owner i f' = 0%nat /\ started i f' = 0%nat /\ token i f' = if v =? 0 then b2n (i =? slot)%nat else 0%nat) as Hw' by (intros i; rewrite Ef; by destruct (v =? 0), async).
  split; cbn [m_sched m_cores m_trace].
  - replace s' with (snd (smp_submit_work FnWorker (Z.of_nat slot + 1) (m_sched m))) by (by rewrite Es).
    apply (step_submit _ _ _ _ _ _ _ _ I); [done|lia|..]; rewrite ?Es; cbn [fst]; intros i.
    + pose proof (total_insert (owner i) _ c _ (f' :: rest) Hc) as E. destruct (Hw' i) as (W & _). unfold cores', weigh in *. cbn [sum_list_with owner] in E. rewrite W in E. lia.
    + pose proof (total_insert (started i) _ c _ (f' :: rest) Hc) as E. destruct (Hw' i) as (_ & W & _). unfold cores', weigh in *. cbn [sum_list_with started] in E. rewrite W in E. lia.
    + pose proof (total_insert (token i) _ c _ (f' :: rest) Hc) as E. destruct (Hw' i) as (_ & _ & W). unfold cores', weigh in *. cbn [sum_list_with token] in E. rewrite W in E. cbn [queued ws_fn ws_state ws_arg CPU_SMP_WORK_QUEUED Z.eqb Pos.eqb andb].
      assert ((Z.of_nat slot + 1 =? Z.of_nat i + 1) = (i =? slot)%nat) as Hi by (destruct (Z.eqb_spec (Z.of_nat slot + 1) (Z.of_nat i + 1)), (Nat.eqb_spec i slot); done || lia). rewrite Hi in E |- *. destruct (v =? 0); lia.
  - rewrite Ets. intros c' st' [(<- & <- & _)|(_ & Hc')]%list_lookup_insert_Some; [|by eapply HS]. apply stack_cons; [..|done]; rewrite Ef; by destruct (v =? 0), async.
Qed.

Lemma run_keeps_inv c m m' : inv m -> exec (LRun c) m = Some m' -> works (m_trace m') < 4294967295 -> tasks (m_trace m') < 4294967295 -> inv m'.
Proof.
  intros [I HS] (f & rest & a & Hc & Ha & ->)%exec_run Hw Ht. cbn in Hw, Ht. pose proof (HS _ _ Hc) as Hst. destruct (submits_worker f) eqn:Esub.
  { eapply submit_keeps_inv; [by split|exact Hc|exact Esub|exact Ha|exact Hw]. }
  destruct (stack_ok_cons _ _ _ Esub Hst) as [Hf Hrest]. set (cores' := <[c := stack_after a rest]> (m_cores m)).
  assert (core_inv (after a) (fun i => total (owner i) cores') (fun i => total (token i) cores') (fun i => total (started i) cores') (m_trace m ++ events f (m_sched m))) as I'.
  { eapply step_ok; try done. unfold moved. split_and!; intros i.
    - pose proof (total_insert (owner i) _ c _ (stack_after a rest) Hc) as E. rewrite (weigh_after _ a rest Hrest) in E by (intros g v Hg; by apply resume_waits). unfold cores', weigh in *. cbn in E. lia.
    - pose proof (total_insert (token i) _ c _ (stack_after a rest) Hc) as E. rewrite (weigh_after _ a rest Hrest) in E by (intros g v Hg; by apply resume_waits). unfold cores', weigh in *. cbn in E. lia.
    - pose proof (total_insert (started i) _ c _ (stack_after a rest) Hc) as E. rewrite (weigh_after _ a rest Hrest) in E by (intros g v Hg; by apply resume_waits). unfold cores', weigh in *. cbn in E. lia.
    - pose proof (total_le (owner i) _ _ _ Hc) as E1. pose proof (total_le (token i) _ _ _ Hc) as E2. pose proof (total_le (started i) _ _ _ Hc) as E3. pose proof (total_mono (started i) (token i) cores' (started_token i)). unfold weigh in *. cbn in E1, E2, E3. lia. }
  split; [exact I'|]. cbn. intros c' st' Hc'. unfold cores' in Hc'. apply list_lookup_insert_Some in Hc' as [(<- & <- & _)|(Hne & Hc')].
  - exact (stack_after_ok _ _ _ _ _ f a rest I Ht Hrest Ha).
  - apply (stack_kept (kernel_task_slots (m_sched m))); [by eapply HS|]. intros j id Hcl Hj. eapply claim_kept; [exact I|exact Ha| |done].
    pose proof (total_two (token j) _ c c' _ _ Hne Hc Hc') as E. unfold weigh in *. cbn in E. lia.
Qed.

Lemma call_keeps_inv c callee m m' : inv m -> exec (LCall c callee) m = Some m' -> inv m'.
Proof.
  intros [I HS]. cbn. destruct (m_cores m !! c) as [[|f rest]|] eqn:Hc; try done. destruct f; try done. destruct (is_api callee) eqn:Ea; [|done]. intros [= <-]. split; cbn [m_sched m_cores m_trace].
  - eapply core_same; [exact I|done..| | |]; intros i.
    + pose proof (total_insert (owner i) _ c _ (callee :: User f arg :: rest) Hc) as E. unfold weigh in E. cbn in E. assert (owner i callee = 0%nat) by (by destruct callee). lia.
    + pose proof (total_insert (token i) _ c _ (callee :: User f arg :: rest) Hc) as E. unfold weigh in E. cbn in E. assert (token i callee = 0%nat) by (destruct callee; try done; by destruct fn). lia.
    + pose proof (total_insert (started i) _ c _ (callee :: User f arg :: rest) Hc) as E. unfold weigh in E. cbn in E. assert (started i callee = 0%nat) by (by destruct callee). lia.
  - intros c' st' [(<- & <- & _)|(_ & Hc')]%list_lookup_insert_Some; [|by eapply HS]. pose proof (HS _ _ Hc) as (_ & _ & Hrest). apply stack_cons; [destruct callee; try done; by destruct fn|by destruct callee|by apply Forall_cons].
Qed.

Lemma ret_keeps_inv c v m m' : inv m -> exec (LRet c v) m = Some m' -> inv m'.
Proof.
  intros [I HS]. cbn. destruct (m_cores m !! c) as [[|f rest]|] eqn:Hc; try done. destruct f; try done. intros [= <-]. pose proof (HS _ _ Hc) as (_ & _ & Hrest). split; cbn [m_sched m_cores m_trace].
  - eapply core_same; [exact I|done..| | |]; intros i.
    + pose proof (total_insert (owner i) _ c _ (return_to v rest) Hc) as E. rewrite (weigh_return (owner i) v rest Hrest) in E by (intros g Hg; by apply resume_waits). unfold weigh in E. cbn in E. lia.
    + pose proof (total_insert (token i) _ c _ (return_to v rest) Hc) as E. rewrite (weigh_return (token i) v rest Hrest) in E by (intros g Hg; by apply resume_waits). unfold weigh in E. cbn in E. lia.
    + pose proof (total_insert (started i) _ c _ (return_to v rest) Hc) as E. rewrite (weigh_return (started i) v rest Hrest) in E by (intros g Hg; by apply resume_waits). unfold weigh in E. cbn in E. lia.
  - intros c' st' [(<- & <- & _)|(_ & Hc')]%list_lookup_insert_Some; [|by eapply HS]. destruct Hrest as [|g rest Hg Hrest]; [done|]. destruct (resume_waits g v Hg) as (_ & ? & ?). by apply stack_cons.
Qed.

Lemma exec_keeps_inv l m m' : inv m -> exec l m = Some m' -> works (m_trace m') < 4294967295 -> tasks (m_trace m') < 4294967295 -> inv m'.
Proof.
  intros H E Hw Ht. destruct l as [c|c callee|c v|].
  - by eapply run_keeps_inv.
  - by eapply call_keeps_inv.
  - by eapply ret_keeps_inv.
  - injection E as <-. destruct H as [I HS]. split; [|done]. by eapply core_same.
Qed.

Lemma exec_trace l m m' : exec l m = Some m' -> exists evs, m_trace m' = m_trace m ++ evs.
Proof.
  destruct l as [c|c callee|c v|]; intros E.
  - apply exec_run in E as (f & rest & a & _ & _ & ->). by eexists.
  - cbn in E. destruct (m_cores m !! c) as [[|f rest]|]; try done. destruct f; try done. destruct (is_api callee); [|done]. injection E as <-. exists []. by rewrite app_nil_r.
  - cbn in E. destruct (m_cores m !! c) as [[|f rest]|]; try done. destruct f; try done. injection E as <-. exists []. by rewrite app_nil_r.
  - injection E as <-. exists []. by rewrite app_nil_r.
Qed.

Lemma execs_trace ls m m' : execs ls m = Some m' -> works (m_trace m) <= works (m_trace m') /\ tasks (m_trace m) <= tasks (m_trace m').
Proof.
  revert m. induction ls as [|l ls IH]; intros m E; [injection E as <-; done|]. cbn in E. destruct (exec l m) as [m1|] eqn:E1; [|done]. cbn in E.
  destruct (IH m1 E) as [A B]. destruct (exec_trace l m m1 E1) as [evs Ee]. rewrite Ee, works_app, tasks_app in *. unfold works, tasks in *. lia.
Qed.

Lemma execs_keep_inv ls m m' : inv m -> execs ls m = Some m' -> works (m_trace m') < 4294967295 -> tasks (m_trace m') < 4294967295 -> inv m'.
Proof.
  revert m. induction ls as [|l ls IH]; intros m H E Hw Ht; [by injection E as <-|]. cbn in E. destruct (exec l m) as [m1|] eqn:E1; [|done]. cbn in E.
  destruct (execs_trace ls m1 m' E) as [A B]. eapply (IH m1); [|done..]. eapply exec_keeps_inv; [done..|lia|lia].
Qed.

Lemma tab_boot tb K R new run fin : (forall i x, tb !! i = Some x -> x = (0, 0)) -> (forall i, K i = 0%nat) -> (forall i, R i = 0%nat) ->
  (forall id, new id = 0%nat) -> (forall id, run id = 0%nat) -> (forall id, fin id = 0%nat) -> tab_inv tb 1 K R new run fin.
Proof.
  intros H HK HR Hn Hr Hf. split.
  - intros i st id [= -> ->]%H. rewrite HK, HR. by split_and!.
  - intros i _. by rewrite HK, HR.
  - intros i j st st' id [= _ ->]%H _ Hid. done.
  - intros id. rewrite Hn. split; [lia|done].
  - intros id. rewrite Hn, Hr, Hf. lia.
  - intros id _. by rewrite Hr, Hf.
  - lia.
Qed.

Lemma total_zero g cores : Forall (fun st => weigh g st = 0%nat) cores -> total g cores = 0%nat.
Proof. unfold total. induction 1 as [|st cores H _ IH]; [done|]. cbn. lia. Qed.

Lemma boot_total g n : g (User 0 0) = 0%nat -> (forall c, g (ApLoop c) = 0%nat) -> total g (m_cores (boot n)) = 0%nat.
Proof.
  intros H1 H2. apply total_zero. cbn. constructor; [unfold weigh; cbn; lia|]. apply Forall_fmap, Forall_forall. intros c _. unfold weigh. cbn. rewrite H2. lia.
Qed.

Lemma queue_zero ws i : (forall w, w ∈ ws -> ws_state w <> 1) -> in_queue ws i = 0%nat.
Proof.
  intros H. unfold in_queue. induction ws as [|w ws IH]; [done|]. cbn. rewrite queued_zero by (apply H; by left). apply IH. intros x Hx. apply H. by right.
Qed.

Lemma boot_inv n : inv (boot n).
Proof.
  split.
  - split; cbn -[total in_queue CPU_SMP_WORK_SLOTS CPU_TASK_SLOTS KERNEL_TASK_NAME_SIZE].
    + apply tab_boot; try done; try (intros i; by apply (boot_total (owner i) n)). intros i x. unfold wtab. rewrite list_lookup_fmap. intros (w & [-> _]%lookup_replicate & ->)%fmap_Some. done.
    + by intros i w [-> _]%lookup_replicate.
    + apply tab_boot; try done; try (intros i; by apply (boot_total (started i) n)).
      * intros i x. unfold ttab. rewrite list_lookup_fmap. intros (w & [-> _]%lookup_replicate & ->)%fmap_Some. done.
      * intros i. rewrite queue_zero by (by intros w [-> _]%elem_of_replicate). rewrite Nat.add_0_r. by apply (boot_total (token i) n).
    + by intros i t [-> _]%lookup_replicate.
    + done.
    + done.
  - unfold boot. cbn [m_cores]. intros [|c] st; [intros [= <-]; by split_and!|]. rewrite lookup_cons, list_lookup_fmap. intros (k & _ & ->)%fmap_Some. by split_and!.
Qed.

(** ** What the table says is true *)

Lemma work_done_sound s O T R tr id : core_inv s O T R tr -> id <> 0 -> smp_work_done id s = true -> cnt (EvWorkEnd id) tr = 1%nat.
Proof.
  intros I Hid. unfold smp_work_done. rewrite (proj2 (Z.eqb_neq id 0)) by done. destruct (find_index _ _) as [i|] eqn:Ei; [|done]. apply find_index_Some in Ei as (w & Hw & He & _). rewrite Hw. bool_prop. intros E%Z.eqb_eq.
  change CPU_SMP_WORK_DONE with 3 in E. apply (tab_done _ _ _ _ _ _ _ (ci_work _ _ _ _ _ I) i); [|done]. rewrite <- E, <- He. by apply wtab_lookup.
Qed.

Lemma task_done_sound s O T R tr id : core_inv s O T R tr -> id <> 0 -> task_done_read id s = true -> cnt (EvTaskEnd id) tr = 1%nat.
Proof.
  intros I Hid. unfold task_done_read. destruct (find_index _ _) as [i|] eqn:Ei; [|done]. apply find_index_Some in Ei as (w & Hw & He & _). rewrite Hw. intros E. bool_prop.
  change CPU_TASK_DONE with 3 in *. apply (tab_done _ _ _ _ _ _ _ (ci_task _ _ _ _ _ I) i); [|done]. replace 3 with (ts_state w). rewrite <- He. by apply ttab_lookup.
Qed.

(** ** Waiting ends only behind the function *)

(** [g] is the call that the frame [f] waits for. *)
Definition above (g f : frame) : Prop :=
  match f with
  | WaitTested id => id <> 0 /\ g = WorkDone id
  | TaskWaitTested id => id <> 0 /\ (g = TaskDone id \/ g = TaskDoneSwept id \/ g = TaskDoneRead id)
  | _ => True
  end.

Fixpoint linked (st : list frame) : Prop :=
  match st with
  | g :: (f :: _) as rest => above g f /\ linked rest
  | _ => True
  end.

(** A core that left the loop of smp_wait_work or kernel_task_wait. *)
Definition left_loop (tr : list event) (f : frame) : Prop :=
  match f with
  | WaitRelease id => cnt (EvWorkEnd id) tr = 1%nat
  | TaskWaitRelease id => cnt (EvTaskEnd id) tr = 1%nat
  | _ => True
  end.

Definition wait_inv (tr : list event) (st : list frame) : Prop := linked st /\ match st with f :: _ => left_loop tr f | [] => True end.

Lemma linked_cons g f rest : linked (g :: f :: rest) <-> above g f /\ linked (f :: rest).
Proof. done. Qed.

Lemma linked_tail f rest : linked (f :: rest) -> linked rest.
Proof. destruct rest; [done|]. by intros [_ ?]. Qed.

Lemma above_resume f v f2 : above f f2 -> above (resume f v) f2.
Proof. destruct f2; try done; cbn; [intros [? ->]; done|]. intros [? [->|[->| ->]]]; cbn; auto. Qed.

Lemma linked_resume f v rest : linked (f :: rest) -> linked (resume f v :: rest).
Proof. destruct rest as [|f2 rest]; [done|]. rewrite !linked_cons. intros [? ?]. split; [by apply above_resume|done]. Qed.

(** The frames that an action puts there wait for what is above them. *)
Lemma action_above f f2 s a : above f f2 -> run f s = Some a -> match a with Goto f' _ => above f' f2 | Call g f' _ => above f' f2 | Return _ _ => True end.
Proof.
  intros Ha. destruct f2; try (intros; by destruct a); destruct Ha as [Hid Ha].
  - subst f. cbn. by intros [= <-].
  - destruct Ha as [->|[->| ->]]; cbn; [|done|by intros [= <-]]. rewrite (proj2 (Z.eqb_neq id 0)) by done. intros [= <-]. auto.
Qed.

Lemma call_above f s g f' s' : run f s = Some (Call g f' s') -> above g f'.
Proof.
  destruct f; try discriminate; unfold run, run_work, run_task; try (by intros [= <- <- <-]).
  - destruct (smp_take_work s) as [[[[slot fn] arg]|] s1]; by intros [= <- <- <-].
  - by destruct (smp_submit_work fn arg s).
  - destruct (Z.eqb_spec id 0); by intros [= <- <- <-].
  - destruct (arg =? 0); [done|]. destruct (worker_begin _ s) as [[[fn fn_arg]|] s1]; by intros [= <- <- <-].
  - destruct (_ <=? _)%nat; [done|]. destruct (_ =? 0); by intros [= <- <- <-].
  - destruct (id =? 0); by intros [= <- <- <-].
  - destruct (_ || _); [done|]. destruct (task_alloc fn arg nm s) as [[[slot id]|] s1]; by intros [= <- <- <-].
  - destruct (task_poll_take s) as [[slot|] s1]; by intros [= <- <- <-].
  - destruct (id =? 0); by intros [= <- <- <-].
  - destruct (Z.eqb_spec id 0); intros [= <- <- <-]. split; auto.
Qed.

Definition at_release (f : frame) : bool := match f with WaitRelease _ | TaskWaitRelease _ => true | _ => false end.

Lemma left_loop_other tr f : at_release f = false -> left_loop tr f.
Proof. by destruct f. Qed.

Lemma new_frames_before f s a : run f s = Some a -> match a with Goto g _ | Call g _ _ => at_release g = false | Return _ _ => True end.
Proof.
  destruct f; try discriminate; unfold run, run_work, run_task; try (by intros [= <-]); try (destruct (id =? 0); by intros [= <-]).
  - destruct (smp_take_work s) as [[[[slot fn] arg]|] s1]; intros [= <-]; [by destruct fn|done].
  - destruct (smp_submit_work fn arg s). by intros [= <-].
  - destruct (arg =? 0); [by intros [= <-]|]. destruct (worker_begin _ s) as [[[fn fn_arg]|] s1]; by intros [= <-].
  - destruct (_ <=? _)%nat; [by intros [= <-]|]. destruct (_ =? 0); by intros [= <-].
  - destruct (_ || _); [by intros [= <-]|]. destruct (task_alloc fn arg nm s) as [[[slot id]|] s1]; by intros [= <-].
  - destruct (task_poll_take s) as [[slot|] s1]; by intros [= <-].
Qed.

Lemma b2z_true b : (b2z b =? 0) = negb b.
Proof. by destruct b. Qed.

Lemma return_left_loop s O T R tr f v s' f2 : core_inv s O T R tr -> above f f2 -> at_release f2 = false -> run f s = Some (Return v s') -> left_loop (tr ++ events f s) (resume f2 v).
Proof.
  intros I Ha Hr Hrun. destruct f2; try (apply left_loop_other; done || (cbn; by repeat (destruct (_ =? 0) || destruct async))).
  - destruct Ha as [Hid ->]. cbn in Hrun. injection Hrun as <- <-. cbn. rewrite b2z_true, app_nil_r. destruct (smp_work_done id s) eqn:E; [|done]. by apply (work_done_sound s O T R tr id I).
  - destruct Ha as [Hid [->|[->| ->]]]; cbn in Hrun; [by rewrite (proj2 (Z.eqb_neq id 0)) in Hrun|done|]. injection Hrun as <- <-. cbn. rewrite b2z_true, app_nil_r. destruct (task_done_read id s) eqn:E; [|done]. by apply (task_done_sound s O T R tr id I).
Qed.

Lemma wait_run s O T R tr f rest a : core_inv s O T R tr -> wait_inv tr (f :: rest) -> match rest with f2 :: _ => at_release f2 = false | [] => True end -> run f s = Some a ->
  wait_inv (tr ++ events f s) (stack_after a rest).
Proof.
  intros I [Hl _] Hr Ha. pose proof (new_frames_before f s a Ha) as Hn. destruct rest as [|f2 rest].
  - destruct a as [f' s'|g f' s'|v s']; cbn; [split; [done|by apply left_loop_other]| |done]. split; [split; [by eapply call_above|done]|by apply left_loop_other].
  - destruct Hl as [Ha2 Hl]. pose proof (action_above f f2 s a Ha2 Ha) as Hab. destruct a as [f' s'|g f' s'|v s']; (split; [|try by apply left_loop_other]).
    + by split.
    + split; [by eapply call_above|by split].
    + by apply linked_resume.
    + by eapply return_left_loop.
Qed.

Lemma wait_grows tr evs st : (forall id, cnt (EvWorkEnd id) (tr ++ evs) <= 1 /\ cnt (EvTaskEnd id) (tr ++ evs) <= 1)%nat -> wait_inv tr st -> wait_inv (tr ++ evs) st.
Proof.
  intros H [Hl Ht]. split; [done|]. destruct st as [|f st]; [done|]. destruct f; try done; cbn in *; specialize (H id); rewrite !cnt_app in *; lia.
Qed.

Lemma inv_ends m : inv m -> forall id, (cnt (EvWorkEnd id) (m_trace m) <= 1 /\ cnt (EvTaskEnd id) (m_trace m) <= 1)%nat.
Proof.
  intros [I _] id. pose proof (ti_ids _ _ _ _ _ _ _ (ci_work _ _ _ _ _ I) id). pose proof (ti_new _ _ _ _ _ _ _ (ci_work _ _ _ _ _ I) id). pose proof (ti_ids _ _ _ _ _ _ _ (ci_task _ _ _ _ _ I) id). pose proof (ti_new _ _ _ _ _ _ _ (ci_task _ _ _ _ _ I) id). lia.
Qed.

Lemma waits_no_release f : waits f = true -> at_release f = false.
Proof. by destruct f. Qed.

Lemma stack_no_release ts f rest : stack_ok ts (f :: rest) -> match rest with f2 :: _ => at_release f2 = false | [] => True end.
Proof.
  intros H. destruct rest as [|f2 rest]; [done|]. destruct (submits_worker f) eqn:E.
  - destruct f; try done. destruct fn; try done. destruct f2; by destruct H.
  - apply stack_ok_cons in H as [_ H]; [|done]. inversion H. by apply waits_no_release.
Qed.

Definition wait_ok (m : machine) : Prop := forall c st, m_cores m !! c = Some st -> wait_inv (m_trace m) st.

Lemma exec_wait_ok l m m' : inv m -> inv m' -> wait_ok m -> exec l m = Some m' -> wait_ok m'.
Proof.
  intros Hi Hi' Hw E. destruct l as [k|k callee|k v|].
  - apply exec_run in E as (f & rest & a & Hk & Ha & ->). pose proof (inv_ends _ Hi') as He. cbn in He. intros c st. cbn. intros [(<- & <- & _)|(_ & Hc)]%list_lookup_insert_Some.
    + destruct Hi as [I HS]. eapply wait_run; [exact I|by apply (Hw k)|by eapply stack_no_release, (HS k)|done].
    + apply wait_grows; [done|by apply (Hw c)].
  - cbn in E. destruct (m_cores m !! k) as [[|f rest]|] eqn:Hk; try done. destruct f; try done. destruct (is_api callee) eqn:Ea; [|done]. injection E as <-. intros c st. cbn. intros [(<- & <- & _)|(_ & Hc)]%list_lookup_insert_Some; [|by apply (Hw c)].
    destruct (Hw k _ Hk) as [Hl _]. split; [by split|]. by destruct callee.
  - cbn in E. destruct (m_cores m !! k) as [[|f rest]|] eqn:Hk; try done. destruct f; try done. injection E as <-. intros c st. cbn. intros [(<- & <- & _)|(_ & Hc)]%list_lookup_insert_Some; [|by apply (Hw c)].
    destruct (Hw k _ Hk) as [Hl _]. destruct rest as [|f2 rest]; [done|]. destruct Hl as [Ha Hl]. split; [by apply linked_resume|]. pose proof (stack_no_release _ _ _ (proj2 Hi k _ Hk)) as Hr.
    destruct f2; try (apply left_loop_other; done || (cbn; by repeat (destruct (_ =? 0) || destruct async))); [by destruct Ha|]. by destruct Ha as [_ [?|[?|?]]].
  - injection E as <-. exact Hw.
Qed.

Lemma execs_wait_ok ls m m' : inv m -> wait_ok m -> execs ls m = Some m' -> works (m_trace m') < 4294967295 -> tasks (m_trace m') < 4294967295 -> wait_ok m'.
Proof.
  revert m. induction ls as [|l ls IH]; intros m H Hk E Hw Ht; [by injection E as <-|]. cbn in E. destruct (exec l m) as [m1|] eqn:E1; [|done]. cbn in E.
  destruct (execs_trace ls m1 m' E) as [A B]. assert (inv m1) as H1 by (apply (exec_keeps_inv l m m1 H E1); lia). exact (IH m1 H1 (exec_wait_ok l m m1 H H1 Hk E1) E Hw Ht).
Qed.

Lemma boot_wait_ok n : wait_ok (boot n).
Proof. intros [|c] st; unfold boot; cbn [m_cores]; [by intros [= <-]|]. rewrite lookup_cons, list_lookup_fmap. by intros (k & _ & ->)%fmap_Some. Qed.

(** ** An item that is gone is waited for without end *)

(** The id was handed out, and its item was released. *)
Definition gone (id : Z) (s : sched) : Prop := 0 < id < smp_next_work_id s /\ forall i w, smp_work_slots s !! i = Some w -> ws_id w <> id.

Lemma gone_not_done id s : gone id s -> smp_work_done id s = false.
Proof.
  intros [Hid Hg]. unfold smp_work_done. rewrite (proj2 (Z.eqb_neq id 0)) by lia. destruct (find_index _ _) as [i|] eqn:Ei; [|done]. apply find_index_Some in Ei as (w & Hw & He & _). bool_prop. by destruct (Hg i w Hw).
Qed.

Lemma gone_insert id s k w : gone id s -> ws_id w <> id -> gone id (set_work (<[k := w]> (smp_work_slots s)) s).
Proof. intros [Hid Hg] Hw. split; [done|]. cbn. intros i w' [(_ & <- & _)|(_ & Hi)]%list_lookup_insert_Some; [done|by eapply Hg]. Qed.

Lemma gone_same id s s' : gone id s -> smp_work_slots s' = smp_work_slots s -> smp_next_work_id s' = smp_next_work_id s -> gone id s'.
Proof. unfold gone. by intros ? -> ->. Qed.

Lemma gone_run id f s a : gone id s -> 0 < smp_next_work_id s < 4294967295 -> run f s = Some a -> gone id (after a).
Proof.
  intros Hg Hn Ha. destruct f; try discriminate Ha; try (by revert Ha; cbn; repeat (destruct (_ =? _)); intros [= <-]); revert Ha; unfold run, run_work, run_task.
  - unfold smp_take_work. destruct (find_index _ _) as [k|]; [|by intros [= <-]]. destruct (smp_work_slots s !! k) as [w|] eqn:Hk; intros [= <-]; [|done]. apply gone_insert; [done|]. exact (proj2 Hg k w Hk).
  - intros [= <-]. apply (gone_same id s); [done|..]; cbn; unfold cpu_record_busy_ticks; by destruct (_ || _).
  - intros [= <-]. cbn. unfold smp_finish. destruct (smp_work_slots s !! slot) as [w|] eqn:Hk; [|rewrite (alter_none _ _ _ Hk); by apply (gone_same id s)]. rewrite (alter_some _ _ _ _ Hk). apply gone_insert; [done|]. exact (proj2 Hg slot w Hk).
  - unfold smp_submit_work. destruct (_ || _); [by intros [= <-]|]. destruct (find_index _ _) as [k|]; [|by intros [= <-]]. rewrite fresh_small by lia. intros [= <-]. destruct Hg as [Hid Hg]. split; [cbn; lia|]. cbn.
    intros i w' [(_ & <- & _)|(_ & Hi)]%list_lookup_insert_Some; [cbn; lia|by eapply Hg].
  - intros [= <-]. cbn. unfold smp_release_work. destruct (_ =? 0); [done|]. destruct (find_index _ _); [|done]. apply gone_insert; [done|]. destruct Hg. cbn. lia.
  - unfold worker_begin. destruct (_ =? 0); [by intros [= <-]|]. destruct (kernel_task_slots s !! _) as [t|]; [|by intros [= <-]]. destruct (_ || _); [|by intros [= <-]]. destruct (ts_fn t =? 0); by intros [= <-].
  - destruct (_ <=? _)%nat; [|destruct (_ =? 0)]; by intros [= <-].
  - intros [= <-]. cbn. unfold task_release_slot. by destruct (find_index _ _).
  - destruct (_ || _); [by intros [= <-]|]. unfold task_alloc. destruct (find_index _ _); [|by intros [= <-]]. destruct (kernel_task_slots s !! _); [|by intros [= <-]]. destruct (fresh_id _). by intros [= <-].
  - unfold task_poll_take. destruct (find_index _ _); by intros [= <-].
Qed.

(** In smp_wait_work, called from [base]. *)
Definition waiting_in (id : Z) (base st : list frame) : Prop :=
  st = WaitWork id :: base \/ st = WorkDone id :: WaitTested id :: base \/ st = WaitRun id :: base \/ exists f top, st = f :: top ++ WaitRan id :: base.

Lemma waiting_pop id base v top : waiting_in id base (return_to v (top ++ WaitRan id :: base)).
Proof. destruct top as [|g top]; [by left|]. right. right. right. by eexists _, top. Qed.

Lemma waiting_run id base f rest s a : gone id s -> waiting_in id base (f :: rest) -> run f s = Some a -> waiting_in id base (stack_after a rest).
Proof.
  intros Hg [[= -> ->]|[[= -> ->]|[[= -> ->]|(g & top & [= <- ->])]]] Ha.
  - cbn in Ha. rewrite (proj2 (Z.eqb_neq id 0)) in Ha by (destruct Hg; lia). injection Ha as <-. by right; left.
  - cbn in Ha. rewrite gone_not_done in Ha by done. injection Ha as <-. by right; right; left.
  - cbn in Ha. injection Ha as <-. right; right; right. by exists (RunOne 0), [].
  - destruct a as [f' s'|g f' s'|v s']; [right; right; right; by exists f', top|right; right; right; by exists g, (f' :: top)|apply waiting_pop].
Qed.

Lemma waiting_exec id base c l m m' : inv m -> works (m_trace m) < 4294967294 -> gone id (m_sched m) -> (exists st, m_cores m !! c = Some st /\ waiting_in id base st) -> exec l m = Some m' ->
  gone id (m_sched m') /\ exists st, m_cores m' !! c = Some st /\ waiting_in id base st.
Proof.
  intros [I _] Hb Hg (st & Hc & Hw) E. pose proof (ci_works _ _ _ _ _ I) as Hn. pose proof (ti_next _ _ _ _ _ _ _ (ci_work _ _ _ _ _ I)) as Hp. destruct l as [k|k callee|k v|].
  - apply exec_run in E as (f & rest & a & Hk & Ha & ->). cbn. split; [eapply gone_run; [done| |done]; lia|]. destruct (decide (k = c)) as [->|Hne].
    + rewrite Hk in Hc. injection Hc as <-. exists (stack_after a rest). rewrite list_lookup_insert_eq by (by eapply lookup_lt_Some). split; [done|]. by eapply waiting_run.
    + exists st. by rewrite list_lookup_insert_ne by done.
  - cbn in E. destruct (m_cores m !! k) as [[|f rest]|] eqn:Hk; try done. destruct f; try done. destruct (is_api callee); [|done]. injection E as <-. cbn. split; [done|]. destruct (decide (k = c)) as [->|Hne].
    + rewrite Hk in Hc. injection Hc as <-. eexists. rewrite list_lookup_insert_eq by (by eapply lookup_lt_Some). split; [done|]. destruct Hw as [[=]|[[=]|[[=]|(g & top & [= <- ->])]]]. right; right; right. by exists callee, (User f arg :: top).
    + exists st. by rewrite list_lookup_insert_ne by done.
  - cbn in E. destruct (m_cores m !! k) as [[|f rest]|] eqn:Hk; try done. destruct f; try done. injection E as <-. cbn. split; [done|]. destruct (decide (k = c)) as [->|Hne].
    + rewrite Hk in Hc. injection Hc as <-. eexists. rewrite list_lookup_insert_eq by (by eapply lookup_lt_Some). split; [done|]. destruct Hw as [[=]|[[=]|[[=]|(g & top & [= <- ->])]]]. apply waiting_pop.
    + exists st. by rewrite list_lookup_insert_ne by done.
  - injection E as <-. cbn. split; [by apply (gone_same id (m_sched m))|by exists st].
Qed.

Lemma waiting_execs id base c ls m m' : inv m -> works (m_trace m') < 4294967294 -> tasks (m_trace m') < 4294967295 -> gone id (m_sched m) -> (exists st, m_cores m !! c = Some st /\ waiting_in id base st) -> execs ls m = Some m' ->
  exists st, m_cores m' !! c = Some st /\ waiting_in id base st.
Proof.
  revert m. induction ls as [|l ls IH]; intros m H Hw Ht Hg Hc E; [by injection E as <-|]. cbn in E. destruct (exec l m) as [m1|] eqn:E1; [|done]. cbn in E.
  destruct (execs_trace ls m1 m' E) as [A B]. destruct (execs_trace [l] m m1) as [A' B']; [cbn; by rewrite E1|]. destruct (waiting_exec id base c l m m1) as [Hg1 Hc1]; [done|lia|done..|].
  apply (IH m1); [|exact Hw|exact Ht|exact Hg1|exact Hc1|exact E]. apply (exec_keeps_inv l m m1 H E1); lia.
Qed.

(** ** Results *)

(** C19: However the cores interleave, and whatever the functions of work items
    and tasks do, as long as fewer than 2^32 - 1 items and tasks were submitted:
    each work item and each task is called at most once and only after it was
    submitted, and returns at most once; a work item that runs has exactly one
    core in its function; a task that runs has exactly one holder, that is the
    core that is submitting it, the work queue, or the core that runs it, so
    that no task is lost or run by two cores; when smp_work_done or
    kernel_task_done answer yes the function has returned, and smp_wait_work and
    kernel_task_wait leave their loops only after that. *)
Theorem tasks_run_once n ls m :
  execs ls (boot n) = Some m -> works (m_trace m) < 4294967295 -> tasks (m_trace m) < 4294967295 ->
  (forall id, (cnt (EvWorkEnd id) (m_trace m) <= cnt (EvWork id) (m_trace m) <= cnt (EvNewWork id) (m_trace m))%nat /\ (cnt (EvNewWork id) (m_trace m) <= 1)%nat) /\
  (forall id, (cnt (EvTaskEnd id) (m_trace m) <= cnt (EvTask id) (m_trace m) <= cnt (EvNewTask id) (m_trace m))%nat /\ (cnt (EvNewTask id) (m_trace m) <= 1)%nat) /\
  (forall i w, smp_work_slots (m_sched m) !! i = Some w -> total (owner i) (m_cores m) = b2n (ws_state w =? CPU_SMP_WORK_RUNNING)) /\
  (forall i t, kernel_task_slots (m_sched m) !! i = Some t -> (total (token i) (m_cores m) + in_queue (smp_work_slots (m_sched m)) i)%nat = b2n (ts_state t =? CPU_TASK_RUNNING)) /\
  (forall id, id <> 0 -> smp_work_done id (m_sched m) = true -> cnt (EvWorkEnd id) (m_trace m) = 1%nat) /\
  (forall id, id <> 0 -> task_done_read id (m_sched m) = true -> cnt (EvTaskEnd id) (m_trace m) = 1%nat) /\
  (forall c id rest, m_cores m !! c = Some (WaitRelease id :: rest) -> cnt (EvWorkEnd id) (m_trace m) = 1%nat) /\
  (forall c id rest, m_cores m !! c = Some (TaskWaitRelease id :: rest) -> cnt (EvTaskEnd id) (m_trace m) = 1%nat).
Proof.
  intros E Hw Ht. destruct (execs_keep_inv ls (boot n) m (boot_inv n) E Hw Ht) as [I _]. pose proof (execs_wait_ok ls (boot n) m (boot_inv n) (boot_wait_ok n) E Hw Ht) as W. split_and!.
  - intros id. split; [apply (ti_ids _ _ _ _ _ _ _ (ci_work _ _ _ _ _ I))|apply (ti_new _ _ _ _ _ _ _ (ci_work _ _ _ _ _ I))].
  - intros id. split; [apply (ti_ids _ _ _ _ _ _ _ (ci_task _ _ _ _ _ I))|apply (ti_new _ _ _ _ _ _ _ (ci_task _ _ _ _ _ I))].
  - intros i w Hi. by destruct (work_slot_ok _ _ _ _ _ I i w Hi) as (_ & _ & ? & _).
  - intros i t Hi. by destruct (task_slot_ok _ _ _ _ _ I i t Hi) as (_ & _ & ? & _).
  - intros id. by apply (work_done_sound _ _ _ _ _ _ I).
  - intros id. by apply (task_done_sound _ _ _ _ _ _ I).
  - intros c id rest Hc. by destruct (W c _ Hc).
  - intros c id rest Hc. by destruct (W c _ Hc).
Qed.

Definition runs (core n : nat) : list label := replicate n (LRun core).

(** Two tasks: the first has run on core 1, the second runs on core 2. *)
Definition two_tasks : list label :=
  [LCall 0 (TaskSubmit false 7 0 None)] ++ runs 0 3 ++ [LCall 0 (TaskSubmit false 8 0 None)] ++ runs 0 3 ++
  runs 1 3 ++ [LRet 1 0] ++ runs 1 3 ++ runs 2 3.

Lemma tasks_run_once_witness :
  exists m, execs two_tasks (boot 3) = Some m /\ cnt (EvTask 1) (m_trace m) = 1%nat /\ task_done_read 2 (m_sched m) = false /\
    (forall id, (cnt (EvTaskEnd id) (m_trace m) <= cnt (EvTask id) (m_trace m) <= cnt (EvNewTask id) (m_trace m))%nat /\ (cnt (EvNewTask id) (m_trace m) <= 1)%nat).
Proof.
  eexists. split; [vm_compute; reflexivity|]. split; [reflexivity|]. split; [reflexivity|].
  refine (proj1 (proj2 (tasks_run_once 3 two_tasks _ _ _ _))); [vm_compute; reflexivity|reflexivity|reflexivity].
Defined.

(** Both core 2, from the function of the second task, and core 0 call
    kernel_task_poll and see that the first task's item is done; core 0
    releases it first. *)
Definition release_race : list label :=
  two_tasks ++ [LCall 2 Poll] ++ runs 2 3 ++ [LCall 0 Poll] ++ runs 0 8 ++ runs 2 1.

Definition hung_base : list frame :=
  [SweepWaited 0 1; PollSwept; User 8 0; WorkerCalled 1; RunCalled 2 1 0; ApRan 2].

(** C20: Two cores in kernel_task_release_finished_smp can both find the work
    item of a finished task done and both go on to smp_wait_work. The one that
    comes second waits for an id that is no longer in the table, for which
    smp_work_done answers no: it never comes back, whatever the cores do,
    unless ids wrap around. *)
Theorem release_race_hangs :
  exists m, execs release_race (boot 3) = Some m /\ m_cores m !! 2%nat = Some (WaitWork 1 :: hung_base) /\
  forall ls m', execs ls m = Some m' -> works (m_trace m') < 4294967294 -> tasks (m_trace m') < 4294967295 ->
    exists f top, m_cores m' !! 2%nat = Some (f :: top ++ hung_base).
Proof.
  eexists. split; [vm_compute; reflexivity|]. split; [reflexivity|]. intros ls m' E Hw Ht.
  match type of E with execs _ ?m = _ => destruct (waiting_execs 1 hung_base 2 ls m m') as (st & Hc & Hst); [..|exact E|] end.
  - eapply (execs_keep_inv release_race (boot 3)); [apply boot_inv|vm_compute; reflexivity|reflexivity|reflexivity].
  - exact Hw.
  - exact Ht.
  - split; [split; reflexivity|]. intros i w. apply (Forall_lookup_1 (fun w => ws_id w <> 1) _ i w). cbn [m_sched smp_work_slots]. repeat (constructor; [discriminate|]). constructor.
  - eexists. split; [reflexivity|]. by left.
  - rewrite Hc. destruct Hst as [->|[->|[->|(f & top & ->)]]]; [by exists (WaitWork 1), []|by exists (WorkDone 1), [WaitTested 1]|by exists (WaitRun 1), []|].
    exists f, (top ++ [WaitRan 1]). by rewrite <- app_assoc.
Qed.
