(* ===== verification/LibcString.v ===== *)
(** Memory and string functions of the C library: kernel/core/libc.c,
    lines 18-217.

    The functions work on the byte memory of Memory.v, with pointers as
    addresses and 0 as the null pointer. Loops over a length are structural;
    loops that run to a terminator have fuel, and [None] is a loop that did
    not end. A C string is described by [cstring]. *)
From Stdlib Require Import ZArith Lia.
From stdpp Require Import base tactics option list numbers.
From S2P Require Import Prelude.
From S2P Require Import Memory.
#[local] Open Scope Z_scope.

(** [*(uint8_t * )a = v]. *)
Definition put (m : mem) (a v : Z) : mem := fun x => if x =? a then v else m x.

(** ** Blocks of memory *)

(** [for (i = ...; i < len; ++i) d[i] = s[i];] *)
Fixpoint copy_up (n : nat) (i dst src : Z) (m : mem) : mem :=
  match n with
  | O => m
  | S n' => copy_up n' (i + 1) dst src (put m (dst + i) (m (src + i)))
  end.

(** [for (i = len; i > 0; --i) d[i - 1] = s[i - 1];] *)
Fixpoint copy_down (n : nat) (dst src : Z) (m : mem) : mem :=
  match n with
  | O => m
  | S n' => copy_down n' dst src (put m (dst + Z.of_nat n') (m (src + Z.of_nat n')))
  end.

Definition memcpy (dst src : Z) (len : nat) (m : mem) : mem := copy_up len 0 dst src m.

Fixpoint memset_loop (n : nat) (i dst value : Z) (m : mem) : mem :=
  match n with
  | O => m
  | S n' => memset_loop n' (i + 1) dst value (put m (dst + i) (u8 value))
  end.

Definition memset (dst value : Z) (len : nat) (m : mem) : mem := memset_loop len 0 dst value m.

Definition memmove (dst src : Z) (len : nat) (m : mem) : mem :=
  if (dst =? src) || (len =? 0)%nat then m
  else if dst <? src then copy_up len 0 dst src m
  else copy_down len dst src m.

Fixpoint memcmp (len : nat) (m : mem) (a b : Z) : Z :=
  match len with
  | O => 0
  | S len' => if negb (m a =? m b) then m a - m b else memcmp len' m (a + 1) (b + 1)
  end.

(** ** Strings *)

Fixpoint strlen_loop (fuel : nat) (m : mem) (s len : Z) : option Z :=
  match fuel with
  | O => None
  | S fuel' => if m (s + len) =? 0 then Some len else strlen_loop fuel' m s (len + 1)
  end.

Definition strlen (fuel : nat) (m : mem) (s : Z) : option Z := strlen_loop fuel m s 0.

(** Copy bytes up to and including the terminator. *)
Fixpoint copy_string (fuel : nat) (dst src : Z) (m : mem) : option mem :=
  match fuel with
  | O => None
  | S fuel' =>
      let c := m src in
      let m := put m dst c in
      if c =? 0 then Some m else copy_string fuel' (dst + 1) (src + 1) m
  end.

Definition strcpy (fuel : nat) (dst src : Z) (m : mem) : option mem := copy_string fuel dst src m.

(** The first loop of [strncpy], then the second. *)
Fixpoint strncpy (n : nat) (dst src : Z) (m : mem) : mem :=
  match n with
  | O => m
  | S n' =>
      if m src =? 0 then memset_loop n 0 dst 0 m
      else strncpy n' (dst + 1) (src + 1) (put m dst (m src))
  end.

Fixpoint string_end (fuel : nat) (m : mem) (s : Z) : option Z :=
  match fuel with
  | O => None
  | S fuel' => if m s =? 0 then Some s else string_end fuel' m (s + 1)
  end.

Definition strcat (fuel : nat) (dst src : Z) (m : mem) : option mem :=
  e ← string_end fuel m dst;
  copy_string fuel e src m.

Fixpoint strcmp (fuel : nat) (m : mem) (a b : Z) : option Z :=
  match fuel with
  | O => None
  | S fuel' =>
      if negb (m a =? 0) && negb (m b =? 0) && (m a =? m b) then strcmp fuel' m (a + 1) (b + 1)
      else Some (m a - m b)
  end.

Fixpoint strncmp (n : nat) (m : mem) (a b : Z) : Z :=
  match n with
  | O => 0
  | S n' =>
      if negb (m a =? m b) || (m a =? 0) || (m b =? 0) then m a - m b
      else strncmp n' m (a + 1) (b + 1)
  end.

Definition tolower (ch : Z) : Z := if (65 <=? ch) && (ch <=? 90) then ch + 32 else ch.
Definition toupper (ch : Z) : Z := if (97 <=? ch) && (ch <=? 122) then ch - 32 else ch.

(** [int] values; the most negative one has no opposite. *)
Definition abs (value : Z) : Z := if value =? -2147483648 then value else if value <? 0 then - value else value.

Fixpoint strcasecmp (fuel : nat) (m : mem) (a b : Z) : option Z :=
  match fuel with
  | O => None
  | S fuel' =>
      if negb (m a =? 0) && negb (m b =? 0) then
        if negb (tolower (m a) =? tolower (m b)) then Some (tolower (m a) - tolower (m b))
        else strcasecmp fuel' m (a + 1) (b + 1)
      else Some (tolower (m a) - tolower (m b))
  end.

Fixpoint strncasecmp (n : nat) (m : mem) (a b : Z) : Z :=
  match n with
  | O => 0
  | S n' =>
      let ca := tolower (m a) in
      let cb := tolower (m b) in
      if negb (ca =? cb) || (ca =? 0) || (cb =? 0) then ca - cb
      else strncasecmp n' m (a + 1) (b + 1)
  end.

Fixpoint strchr (fuel : nat) (m : mem) (s ch : Z) : option Z :=
  match fuel with
  | O => None
  | S fuel' =>
      if negb (m s =? 0) then
        if m s =? u8 ch then Some s else strchr fuel' m (s + 1) ch
      else Some (if u8 ch =? 0 then s else 0)
  end.

Fixpoint strrchr_loop (fuel : nat) (m : mem) (s ch last : Z) : option Z :=
  match fuel with
  | O => None
  | S fuel' =>
      let last := if m s =? u8 ch then s else last in
      if negb (m s =? 0) then strrchr_loop fuel' m (s + 1) ch last else Some last
  end.

Definition strrchr (fuel : nat) (m : mem) (s ch : Z) : option Z := strrchr_loop fuel m s ch 0.

Fixpoint strstr_loop (fuel : nat) (m : mem) (haystack needle : Z) (needle_len : nat) : option Z :=
  match fuel with
  | O => None
  | S fuel' =>
      if negb (m haystack =? 0) then
        if (m haystack =? m needle) && (memcmp needle_len m haystack needle =? 0) then Some haystack
        else strstr_loop fuel' m (haystack + 1) needle needle_len
      else Some 0
  end.

Definition strstr (fuel : nat) (m : mem) (haystack needle : Z) : option Z :=
  needle_len ← strlen fuel m needle;
  if needle_len =? 0 then Some haystack else strstr_loop fuel m haystack needle (Z.to_nat needle_len).

(** ** Copies *)

Lemma put_eq m a v : put m a v a = v.
Proof. unfold put. by rewrite Z.eqb_refl. Qed.

Lemma put_ne m a v x : x <> a -> put m a v x = m x.
Proof. intros Hx. unfold put. by rewrite (proj2 (Z.eqb_neq _ _)) by done. Qed.

(** A copy upwards is right unless it overwrites bytes it has yet to read. *)
Lemma copy_up_ok n i dst src m x : dst <= src \/ src + i + Z.of_nat n <= dst + i ->
  copy_up n i dst src m x = if (dst + i <=? x) && (x <? dst + i + Z.of_nat n) then m (src + (x - dst)) else m x.
Proof.
  revert i m. induction n as [|n IH]; intros i m Hd; cbn [copy_up].
  - destruct (Z.leb_spec (dst + i) x), (Z.ltb_spec x (dst + i + Z.of_nat 0)); cbn [andb]; (done || lia).
  - rewrite IH by lia. destruct (Z.eq_dec x (dst + i)) as [->|Hne].
    + destruct (Z.leb_spec (dst + (i + 1)) (dst + i)), (Z.leb_spec (dst + i) (dst + i)), (Z.ltb_spec (dst + i) (dst + i + Z.of_nat (S n))); try lia.
      cbn [andb]. rewrite put_eq. f_equal. lia.
    + destruct (Z.leb_spec (dst + (i + 1)) x), (Z.ltb_spec x (dst + (i + 1) + Z.of_nat n)), (Z.leb_spec (dst + i) x), (Z.ltb_spec x (dst + i + Z.of_nat (S n)));
        cbn [andb]; try lia; apply put_ne; lia.
Qed.

Lemma copy_down_ok n dst src m x : src <= dst ->
  copy_down n dst src m x = if (dst <=? x) && (x <? dst + Z.of_nat n) then m (src + (x - dst)) else m x.
Proof.
  revert m. induction n as [|n IH]; intros m Hd; cbn [copy_down].
  - destruct (Z.leb_spec dst x), (Z.ltb_spec x (dst + Z.of_nat 0)); cbn [andb]; (done || lia).
  - rewrite IH by lia. destruct (Z.eq_dec x (dst + Z.of_nat n)) as [->|Hne].
    + destruct (Z.leb_spec dst (dst + Z.of_nat n)), (Z.ltb_spec (dst + Z.of_nat n) (dst + Z.of_nat n)), (Z.ltb_spec (dst + Z.of_nat n) (dst + Z.of_nat (S n))); try lia.
      cbn [andb]. rewrite put_eq. f_equal. lia.
    + destruct (Z.leb_spec dst x), (Z.ltb_spec x (dst + Z.of_nat n)), (Z.ltb_spec x (dst + Z.of_nat (S n))); cbn [andb]; try lia; apply put_ne; lia.
Qed.

Lemma memset_loop_ok n i dst v m x :
  memset_loop n i dst v m x = if (dst + i <=? x) && (x <? dst + i + Z.of_nat n) then u8 v else m x.
Proof.
  revert i m. induction n as [|n IH]; intros i m; cbn [memset_loop].
  - destruct (Z.leb_spec (dst + i) x), (Z.ltb_spec x (dst + i + Z.of_nat 0)); cbn [andb]; (done || lia).
  - rewrite IH. destruct (Z.eq_dec x (dst + i)) as [->|Hne].
    + destruct (Z.leb_spec (dst + (i + 1)) (dst + i)), (Z.leb_spec (dst + i) (dst + i)), (Z.ltb_spec (dst + i) (dst + i + Z.of_nat (S n))); try lia.
      cbn [andb]. by rewrite put_eq.
    + destruct (Z.leb_spec (dst + (i + 1)) x), (Z.ltb_spec x (dst + (i + 1) + Z.of_nat n)), (Z.leb_spec (dst + i) x), (Z.ltb_spec x (dst + i + Z.of_nat (S n)));
        cbn [andb]; try lia; try done; apply put_ne; lia.
Qed.

(** The block [dst] holds what [src] held, and nothing else changed. *)
Definition copied (dst src : Z) (n : nat) (m m' : mem) : Prop :=
  mem_list n m' dst = mem_list n m src /\ same_off dst (Z.of_nat n) m m'.

Lemma copied_pointwise dst src n m m' :
  (forall x, m' x = if (dst <=? x) && (x <? dst + Z.of_nat n) then m (src + (x - dst)) else m x) -> copied dst src n m m'.
Proof.
  intros Hm. split.
  - apply list_eq_same_length with n; [by rewrite length_mem_list|by rewrite length_mem_list|].
    intros i x y Hi. rewrite !lookup_mem_list by done. rewrite Hm, (proj2 (Z.leb_le _ _)), (proj2 (Z.ltb_lt _ _)) by lia. cbn [andb].
    replace (dst + Z.of_nat i - dst) with (Z.of_nat i) by lia. congruence.
  - intros x Hx. rewrite Hm. destruct (Z.leb_spec dst x), (Z.ltb_spec x (dst + Z.of_nat n)); cbn [andb]; (done || lia).
Qed.

Lemma memcpy_ok dst src n m : dst <= src \/ src + Z.of_nat n <= dst -> copied dst src n m (memcpy dst src n m).
Proof. intros Hd. apply copied_pointwise. intros x. unfold memcpy. rewrite copy_up_ok by lia. by rewrite Z.add_0_r. Qed.

(** [memmove] is right for every overlap. *)
Lemma memmove_ok dst src n m : copied dst src n m (memmove dst src n m).
Proof.
  unfold memmove. destruct (Z.eqb_spec dst src) as [->|Hne]; cbn [orb].
  { split; [done|apply same_off_refl]. }
  destruct (Nat.eqb_spec n 0) as [->|Hn]; [split; [done|apply same_off_refl]|]. destruct (Z.ltb_spec dst src).
  - apply copied_pointwise. intros x. rewrite copy_up_ok by lia. by rewrite Z.add_0_r.
  - apply copied_pointwise. intros x. by rewrite copy_down_ok by lia.
Qed.

Lemma memset_ok dst v n m : mem_list n (memset dst v n m) dst = replicate n (u8 v) /\ same_off dst (Z.of_nat n) m (memset dst v n m).
Proof.
  split.
  - rewrite <- (mem_list_fill n m dst (u8 v)). apply mem_list_ext. intros x Hx. unfold memset, fill. by rewrite memset_loop_ok, Z.add_0_r.
  - intros x Hx. unfold memset. rewrite memset_loop_ok, Z.add_0_r. destruct (Z.leb_spec dst x), (Z.ltb_spec x (dst + Z.of_nat n)); cbn [andb]; (done || lia).
Qed.

(** ** Strings in memory *)

(** The bytes [x], none of them 0, and a terminator at [s]. *)
Fixpoint cstring (m : mem) (s : Z) (x : list Z) : Prop :=
  match x with
  | [] => m s = 0
  | c :: x' => c <> 0 /\ m s = c /\ cstring m (s + 1) x'
  end.

Lemma cstring_ext m m' s x : same_on s (Z.of_nat (length x) + 1) m m' -> cstring m s x -> cstring m' s x.
Proof.
  revert s. induction x as [|c x IH]; intros s Hs Hx; cbn [cstring length] in *.
  - by rewrite Hs by lia.
  - destruct Hx as (H1 & H2 & H3). split; [done|]. split; [by rewrite Hs by lia|]. apply IH; [|done]. eapply same_on_sub; [exact Hs|lia|lia].
Qed.

Lemma cstring_list m s x : cstring m s x -> mem_list (length x) m s = x /\ m (s + Z.of_nat (length x)) = 0 /\ Forall (fun c => c <> 0) x.
Proof.
  revert s. induction x as [|c x IH]; intros s Hx; cbn [cstring length mem_list] in *.
  - rewrite Z.add_0_r. done.
  - destruct Hx as (H1 & H2 & H3). destruct (IH _ H3) as (I1 & I2 & I3). rewrite H2, I1. split; [done|].
    split; [|by constructor]. rewrite <- I2. f_equal. lia.
Qed.

Lemma cstring_of_list m s x : mem_list (length x) m s = x -> m (s + Z.of_nat (length x)) = 0 -> Forall (fun c => c <> 0) x -> cstring m s x.
Proof.
  revert s. induction x as [|c x IH]; intros s Hx Hz Hn; cbn [cstring length mem_list] in *.
  - by rewrite Z.add_0_r in Hz.
  - injection Hx as H1 H2. apply Forall_cons_1 in Hn as [Hn1 Hn2]. split; [done|]. split; [done|]. apply IH; [done| |done].
    rewrite <- Hz. f_equal. lia.
Qed.

(** A string in memory is one string. *)
Lemma cstring_inj m s x y : cstring m s x -> cstring m s y -> x = y.
Proof.
  revert s y. induction x as [|c x IH]; intros s y Hx Hy; destruct y as [|d y]; cbn [cstring] in *; [done| | |].
  - destruct Hy as (H1 & H2 & _). congruence.
  - destruct Hx as (H1 & H2 & _). congruence.
  - destruct Hx as (H1 & H2 & H3), Hy as (H4 & H5 & H6). f_equal; [congruence|]. by apply (IH (s + 1)).
Qed.

Lemma strlen_ok fuel m s x : cstring m s x -> (length x < fuel)%nat -> strlen fuel m s = Some (Z.of_nat (length x)).
Proof.
  intros Hx Hf. unfold strlen. enough (Hg : forall n, cstring m (s + n) x -> strlen_loop fuel m s n = Some (n + Z.of_nat (length x))).
  { rewrite Hg; [done|]. by rewrite Z.add_0_r. }
  clear Hx. revert fuel Hf. induction x as [|c x IH]; intros fuel Hf n Hx; (destruct fuel as [|fuel]; [cbn in Hf; lia|]); cbn [strlen_loop cstring length] in *.
  - rewrite Hx. cbn. f_equal. lia.
  - destruct Hx as (H1 & H2 & H3). rewrite H2, (proj2 (Z.eqb_neq _ _)) by done. rewrite IH; [f_equal; lia|lia|]. by rewrite Z.add_assoc.
Qed.

Lemma string_end_ok fuel m s x : cstring m s x -> (length x < fuel)%nat -> string_end fuel m s = Some (s + Z.of_nat (length x)).
Proof.
  revert fuel s. induction x as [|c x IH]; intros fuel s Hx Hf; (destruct fuel as [|fuel]; [cbn in Hf; lia|]); cbn [string_end cstring length] in *.
  - rewrite Hx. cbn. f_equal. lia.
  - destruct Hx as (H1 & H2 & H3). rewrite H2, (proj2 (Z.eqb_neq _ _)) by done. rewrite IH; [f_equal; lia|done|lia].
Qed.

(** Copying a string to a place that does not overlap it. *)
Lemma copy_string_ok fuel dst src m x : cstring m src x -> (length x < fuel)%nat ->
  dst <= src \/ src + Z.of_nat (length x) + 1 <= dst ->
  exists m', copy_string fuel dst src m = Some m' /\ cstring m' dst x /\ same_off dst (Z.of_nat (length x) + 1) m m'.
Proof.
  revert fuel dst src m. induction x as [|c x IH]; intros fuel dst src m Hx Hf Hd; (destruct fuel as [|fuel]; [cbn in Hf; lia|]); cbn [copy_string cstring length] in *.
  - rewrite Hx. cbn. eexists. split; [done|]. split; [by rewrite put_eq|]. intros y Hy. apply put_ne. lia.
  - destruct Hx as (H1 & H2 & H3). rewrite H2, (proj2 (Z.eqb_neq _ _)) by done.
    destruct (IH fuel (dst + 1) (src + 1) (put m dst c)) as (m' & E & C & O); [|lia|lia|].
    { destruct Hd as [Hd|Hd]; (eapply cstring_ext; [|exact H3]); intros y Hy; apply put_ne; lia. }
    exists m'. split; [done|]. split.
    + split; [done|]. split; [|done]. rewrite O by lia. apply put_eq.
    + intros y Hy. rewrite O by lia. apply put_ne. lia.
Qed.

Lemma strncpy_ok n dst src m x : cstring m src x -> dst + Z.of_nat n <= src \/ src + Z.of_nat (length x) + 1 <= dst ->
  mem_list n (strncpy n dst src m) dst = take n (x ++ replicate n 0) /\ same_off dst (Z.of_nat n) m (strncpy n dst src m).
Proof.
  revert dst src m x. induction n as [|n IH]; intros dst src m x Hx Hd; cbn [strncpy].
  { split; [done|apply same_off_refl]. }
  destruct x as [|c x]; cbn [cstring length] in *.
  - rewrite Hx. cbn [Z.eqb app]. rewrite take_ge by (by rewrite length_replicate). apply (memset_ok dst 0 (S n) m).
  - destruct Hx as (H1 & H2 & H3). rewrite H2, (proj2 (Z.eqb_neq _ _)) by done.
    destruct (IH (dst + 1) (src + 1) (put m dst c) x) as [I1 I2]; [eapply cstring_ext; [|exact H3]; intros y Hy; apply put_ne; lia|lia|].
    split.
    + cbn [mem_list app take]. rewrite I1, I2, put_eq by lia. f_equal.
      rewrite !take_app, !take_replicate. do 2 f_equal. lia.
    + intros y Hy. rewrite I2 by lia. apply put_ne. lia.
Qed.

(** [strcat] needs room behind [dst] that does not overlap the source. *)
Lemma strcat_ok fuel dst src m x y : cstring m dst x -> cstring m src y -> (length x < fuel)%nat -> (length y < fuel)%nat ->
  dst + Z.of_nat (length x) + Z.of_nat (length y) + 1 <= src \/ src + Z.of_nat (length y) + 1 <= dst ->
  exists m', strcat fuel dst src m = Some m' /\ cstring m' dst (x ++ y) /\ same_off dst (Z.of_nat (length (x ++ y)) + 1) m m'.
Proof.
  intros Hx Hy Hf1 Hf2 Hd. unfold strcat. rewrite (string_end_ok _ _ _ x) by done. cbn [mbind option_bind].
  destruct (copy_string_ok fuel (dst + Z.of_nat (length x)) src m y Hy Hf2) as (m' & E & C & O); [lia|].
  exists m'. split; [done|]. split.
  - destruct (cstring_list _ _ _ Hx) as (X1 & _ & X3). destruct (cstring_list _ _ _ C) as (C1 & C2 & C3).
    apply cstring_of_list; [|by rewrite length_app, Nat2Z.inj_add, Z.add_assoc|by apply Forall_app].
    rewrite length_app, mem_list_app. f_equal; [|done]. rewrite <- X1 at 2. apply mem_list_ext. intros z Hz. apply O. lia.
  - eapply same_off_sub; [exact O|lia|]. rewrite length_app. lia.
Qed.

(** ** Comparison *)

(** The difference of the first bytes in which two strings differ; a string
    that ends is continued by 0. *)
Fixpoint str_diff (x y : list Z) : Z :=
  match x, y with
  | [], [] => 0
  | [], b :: _ => - b
  | a :: _, [] => a
  | a :: x', b :: y' => if a =? b then str_diff x' y' else a - b
  end.

Lemma memcmp_ok n m a b : memcmp n m a b = str_diff (mem_list n m a) (mem_list n m b).
Proof.
  revert a b. induction n as [|n IH]; intros a b; cbn [memcmp mem_list str_diff]; [done|]. destruct (m a =? m b); cbn [negb]; [apply IH|done].
Qed.

Lemma strcmp_ok fuel m a b x y : cstring m a x -> cstring m b y -> (length x < fuel)%nat -> strcmp fuel m a b = Some (str_diff x y).
Proof.
  revert fuel a b y. induction x as [|c x IH]; intros fuel a b y Hx Hy Hf; (destruct fuel as [|fuel]; [cbn in Hf; lia|]); cbn [strcmp cstring length] in *.
  - rewrite Hx. cbn [Z.eqb negb andb]. destruct y as [|d y]; cbn [cstring str_diff] in *; [by rewrite Hy|]. destruct Hy as (_ & -> & _). done.
  - destruct Hx as (H1 & H2 & H3). rewrite H2, (proj2 (Z.eqb_neq c 0)) by done. cbn [negb andb]. destruct y as [|d y]; cbn [cstring str_diff] in *.
    + rewrite Hy. cbn [Z.eqb negb andb]. f_equal. lia.
    + destruct Hy as (H4 & H5 & H6). rewrite H5, (proj2 (Z.eqb_neq d 0)) by done. cbn [negb andb]. destruct (c =? d); [|done]. apply IH; [done|done|lia].
Qed.

Lemma strncmp_ok n m a b x y : cstring m a x -> cstring m b y -> strncmp n m a b = str_diff (take n x) (take n y).
Proof.
  revert a b x y. induction n as [|n IH]; intros a b x y Hx Hy; cbn [strncmp]; [done|].
  destruct x as [|c x], y as [|d y]; cbn [cstring take str_diff] in *.
  - by rewrite Hx, Hy.
  - destruct Hy as (H4 & H5 & H6). rewrite Hx, H5. by rewrite (proj2 (Z.eqb_neq 0 d)) by done.
  - destruct Hx as (H1 & H2 & H3). rewrite Hy, H2. rewrite (proj2 (Z.eqb_neq c 0)) by done. cbn [negb orb]. lia.
  - destruct Hx as (H1 & H2 & H3), Hy as (H4 & H5 & H6). rewrite H2, H5, (proj2 (Z.eqb_neq c 0)), (proj2 (Z.eqb_neq d 0)) by done.
    rewrite !orb_false_r. destruct (c =? d); cbn [negb]; [by apply IH|done].
Qed.

Lemma tolower_zero c : tolower c = 0 <-> c = 0.
Proof. unfold tolower. destruct (Z.leb_spec 65 c), (Z.leb_spec c 90); cbn [andb]; lia. Qed.

Lemma strcasecmp_ok fuel m a b x y : cstring m a x -> cstring m b y -> (length x < fuel)%nat ->
  strcasecmp fuel m a b = Some (str_diff (map tolower x) (map tolower y)).
Proof.
  revert fuel a b y. induction x as [|c x IH]; intros fuel a b y Hx Hy Hf; (destruct fuel as [|fuel]; [cbn in Hf; lia|]); cbn [strcasecmp cstring length map] in *.
  - rewrite Hx. cbn [Z.eqb negb andb]. destruct y as [|d y]; cbn [cstring str_diff map] in *; [by rewrite Hy|]. destruct Hy as (_ & -> & _). done.
  - destruct Hx as (H1 & H2 & H3). rewrite H2, (proj2 (Z.eqb_neq c 0)) by done. cbn [negb andb]. destruct y as [|d y]; cbn [cstring str_diff map] in *.
    + rewrite Hy. cbn [Z.eqb negb andb]. f_equal. change (tolower 0) with 0. lia.
    + destruct Hy as (H4 & H5 & H6). rewrite H5, (proj2 (Z.eqb_neq d 0)) by done. cbn [negb andb].
      destruct (tolower c =? tolower d); cbn [negb]; [|done]. apply IH; [done|done|lia].
Qed.

Lemma strncasecmp_ok n m a b x y : cstring m a x -> cstring m b y ->
  strncasecmp n m a b = str_diff (map tolower (take n x)) (map tolower (take n y)).
Proof.
  revert a b x y. induction n as [|n IH]; intros a b x y Hx Hy; cbn [strncasecmp]; [done|]. cbn zeta.
  destruct x as [|c x], y as [|d y]; cbn [cstring take map str_diff] in *.
  - by rewrite Hx, Hy.
  - destruct Hy as (H4 & H5 & H6). rewrite Hx, H5. change (tolower 0) with 0. cbn [Z.eqb]. rewrite ?orb_true_r. cbn [orb]. lia.
  - destruct Hx as (H1 & H2 & H3). rewrite Hy, H2. change (tolower 0) with 0. cbn [Z.eqb]. rewrite ?orb_true_r. cbn [orb]. lia.
  - destruct Hx as (H1 & H2 & H3), Hy as (H4 & H5 & H6). rewrite H2, H5, (proj2 (Z.eqb_neq (tolower c) 0)), (proj2 (Z.eqb_neq (tolower d) 0)) by (by rewrite tolower_zero).
    rewrite !orb_false_r. destruct (tolower c =? tolower d); cbn [negb]; [by apply IH|done].
Qed.

(** The difference orders strings: it is 0 for equal ones, changes its sign
    with its arguments and is transitive. *)
Lemma str_diff_sym x y : str_diff y x = - str_diff x y.
Proof.
  revert y. induction x as [|a x IH]; intros [|b y]; cbn [str_diff]; try lia. destruct (Z.eqb_spec a b) as [->|Hn].
  - by rewrite Z.eqb_refl.
  - rewrite (proj2 (Z.eqb_neq _ _)) by done. lia.
Qed.

Lemma str_diff_zero x y : Forall (fun c => 0 < c) x -> Forall (fun c => 0 < c) y -> str_diff x y = 0 <-> x = y.
Proof.
  revert y. induction x as [|a x IH]; intros [|b y] Hx Hy; cbn [str_diff].
  - done.
  - apply Forall_cons_1 in Hy as [Hb _]. split; [lia|done].
  - apply Forall_cons_1 in Hx as [Ha _]. split; [lia|done].
  - apply Forall_cons_1 in Hx as [Ha Hx]. apply Forall_cons_1 in Hy as [Hb Hy]. destruct (Z.eqb_spec a b) as [->|Hn].
    + rewrite IH by done. split; [by intros ->|by intros [= ->]].
    + split; [lia|]. intros [= -> _]. done.
Qed.

Lemma str_diff_trans x y z : Forall (fun c => 0 < c) x -> Forall (fun c => 0 < c) y -> Forall (fun c => 0 < c) z ->
  str_diff x y < 0 -> str_diff y z < 0 -> str_diff x z < 0.
Proof.
  revert y z. induction x as [|a x IH]; intros [|b y] [|c z] Hx Hy Hz H1 H2; cbn [str_diff] in *; inv_Forall; try lia.
  destruct (Z.eqb_spec a b), (Z.eqb_spec b c), (Z.eqb_spec a c); try lia. by apply (IH y z).
Qed.

(** ** Search *)

Lemma strchr_ok fuel m s ch x : cstring m s x -> (length x < fuel)%nat ->
  strchr fuel m s ch = Some (match find_index (Z.eqb (u8 ch)) (x ++ [0]) with Some i => s + Z.of_nat i | None => 0 end).
Proof.
  revert fuel s. induction x as [|c x IH]; intros fuel s Hx Hf; (destruct fuel as [|fuel]; [cbn in Hf; lia|]); cbn [strchr cstring length app find_index] in *.
  - rewrite Hx. cbn [Z.eqb negb]. destruct (u8 ch =? 0); [|done]. f_equal. lia.
  - destruct Hx as (H1 & H2 & H3). rewrite H2, (proj2 (Z.eqb_neq c 0)), Z.eqb_sym by done. cbn [negb]. destruct (u8 ch =? c); [f_equal; lia|].
    rewrite IH by (done || lia). f_equal. destruct (find_index _ (x ++ [0])); cbn [fmap option_fmap option_map]; [lia|done].
Qed.

(** The index found is the first one. *)
Lemma find_index_first c a l : let r := match find_index (Z.eqb c) l with Some i => a + Z.of_nat i | None => 0 end in
  r = 0 /\ c ∉ l \/ exists l1 l2, l = l1 ++ c :: l2 /\ (c ∉ l1) /\ r = a + Z.of_nat (length l1).
Proof.
  cbn zeta. enough (H : match find_index (Z.eqb c) l with None => c ∉ l | Some i => exists l1 l2, l = l1 ++ c :: l2 /\ (c ∉ l1) /\ i = length l1 end).
  { destruct (find_index (Z.eqb c) l) as [i|]; [right|by left]. destruct H as (l1 & l2 & H1 & H2 & ->). by exists l1, l2. }
  induction l as [|b l IH]; cbn [find_index]; [apply not_elem_of_nil|]. destruct (Z.eqb_spec c b) as [->|Hne]; [exists [], l; split; [done|split; [apply not_elem_of_nil|done]]|].
  destruct (find_index (Z.eqb c) l) as [i|]; cbn [fmap option_fmap option_map].
  - destruct IH as (l1 & l2 & -> & H2 & ->). exists (b :: l1), l2. split; [done|]. split; [|done]. rewrite elem_of_cons. intros [?|?]; done.
  - rewrite elem_of_cons. intros [?|?]; done.
Qed.

(** The last place of a byte in a list, from place [i] on. *)
Fixpoint last_index (c i : Z) (l : list Z) (last : option Z) : option Z :=
  match l with
  | [] => last
  | a :: l' => last_index c (i + 1) l' (if a =? c then Some i else last)
  end.

Lemma last_index_ok c l i last : match last_index c i l last with
  | None => last = None /\ c ∉ l
  | Some j => (last = Some j /\ c ∉ l) \/ exists l1 l2, l = l1 ++ c :: l2 /\ j = i + Z.of_nat (length l1) /\ c ∉ l2
  end.
Proof.
  revert i last. induction l as [|a l IH]; intros i last; cbn [last_index].
  - destruct last; [left|]; (split; [done|by intros ?%elem_of_nil]).
  - specialize (IH (i + 1) (if a =? c then Some i else last)). destruct (last_index _ _ _ _) as [j|].
    + destruct IH as [[E Hn]|(l1 & l2 & -> & -> & Hn)].
      * destruct (Z.eqb_spec a c) as [->|Ha]; [|left; split; [done|]; by rewrite not_elem_of_cons].
        injection E as <-. right. exists [], l. split; [done|]. split; [cbn; lia|done].
      * right. exists (a :: l1), l2. split; [done|]. split; [cbn [length]; lia|done].
    + destruct IH as [E Hn]. destruct (Z.eqb_spec a c) as [->|Ha]; [done|]. split; [done|]. by rewrite not_elem_of_cons.
Qed.

Lemma strrchr_ok fuel m s ch x : cstring m s x -> (length x < fuel)%nat ->
  strrchr fuel m s ch = Some (default 0 (last_index (u8 ch) s (x ++ [0]) None)).
Proof.
  intros Hx Hf. unfold strrchr. enough (Hg : forall last, strrchr_loop fuel m s ch (default 0 last) = Some (default 0 (last_index (u8 ch) s (x ++ [0]) last))) by apply (Hg None).
  revert fuel s Hx Hf. induction x as [|c x IH]; intros fuel s Hx Hf last; (destruct fuel as [|fuel]; [cbn in Hf; lia|]); cbn [strrchr_loop cstring length app last_index] in *.
  - rewrite Hx. change (negb (0 =? 0)) with false. by destruct (0 =? u8 ch).
  - destruct Hx as (H1 & H2 & H3). rewrite H2, (proj2 (Z.eqb_neq c 0)) by done. cbn [negb].
    rewrite <- (IH fuel (s + 1)) by (done || lia). by destruct (c =? u8 ch).
Qed.

(** [memcmp] against a string tells whether it starts with the needle. *)
Lemma memcmp_prefix m h n x y : cstring m h x -> cstring m n y -> memcmp (length y) m h n = 0 <-> y `prefix_of` x.
Proof.
  revert h n x. induction y as [|d y IH]; intros h n x Hx Hy; cbn [memcmp length cstring] in *.
  - split; [intros _; apply prefix_nil|done].
  - destruct Hy as (H4 & H5 & H6). rewrite H5. destruct x as [|c x]; cbn [cstring] in Hx.
    + rewrite Hx, (proj2 (Z.eqb_neq 0 d)) by done. cbn [negb]. split; [lia|]. intros Hp. by apply prefix_nil_not in Hp.
    + destruct Hx as (H1 & H2 & H3). rewrite H2. destruct (Z.eqb_spec c d) as [->|Hn]; cbn [negb].
      * rewrite IH by done. split; [apply prefix_cons|apply prefix_cons_inv_2].
      * split; [lia|]. intros Hp. apply prefix_cons_inv_1 in Hp. congruence.
Qed.

(** The first place at which a list contains another one. *)
Fixpoint occurrence (y x : list Z) : option nat :=
  match x with
  | [] => None
  | _ :: x' => if decide (y `prefix_of` x) then Some 0%nat else S <$> occurrence y x'
  end.

Lemma occurrence_ok y x : y <> [] -> match occurrence y x with
  | None => forall i, ~ y `prefix_of` drop i x
  | Some i => y `prefix_of` drop i x /\ forall j, (j < i)%nat -> ~ y `prefix_of` drop j x
  end.
Proof.
  intros Hy. induction x as [|c x IH]; cbn [occurrence].
  - intros i. rewrite drop_nil. intros Hp. apply prefix_nil_inv in Hp. done.
  - destruct (decide (y `prefix_of` c :: x)) as [Hp|Hp]; [split; [done|lia]|]. destruct (occurrence y x) as [i|]; cbn [fmap option_fmap option_map].
    + destruct IH as [I1 I2]. split; [done|]. intros [|j] Hj; [done|]. apply I2. lia.
    + intros [|i]; [done|]. apply IH.
Qed.

Lemma strstr_ok fuel m h n x y : cstring m h x -> cstring m n y -> (length x < fuel)%nat -> (length y < fuel)%nat ->
  strstr fuel m h n = Some (if decide (y = []) then h else match occurrence y x with Some i => h + Z.of_nat i | None => 0 end).
Proof.
  intros Hx Hy Hf1 Hf2. unfold strstr. rewrite (strlen_ok _ _ _ y) by done. cbn [mbind option_bind]. destruct (decide (y = [])) as [->|Hne]; [done|].
  rewrite (proj2 (Z.eqb_neq _ _)) by (destruct y; [done|cbn; lia]). rewrite Nat2Z.id. clear Hf2.
  revert fuel h Hx Hf1. induction x as [|c x IH]; intros fuel h Hx Hf; (destruct fuel as [|fuel]; [cbn in Hf; lia|]); cbn [strstr_loop length occurrence].
  - cbn in Hx. by rewrite Hx.
  - pose proof (memcmp_prefix m h n (c :: x) y Hx Hy) as Hp. cbn [cstring] in Hx. destruct Hx as (H1 & H2 & H3).
    rewrite H2, (proj2 (Z.eqb_neq c 0)) by done. cbn [negb].
    destruct (decide (y `prefix_of` c :: x)) as [Hyp|Hyp].
    + destruct y as [|d y]; [done|]. assert (Hd : m n = d) by (by destruct Hy as (_ & ? & _)). pose proof (prefix_cons_inv_1 _ _ _ _ Hyp) as ->.
      rewrite (proj2 Hp Hyp), Hd, Z.eqb_refl. cbn. f_equal. lia.
    + rewrite (proj2 (Z.eqb_neq (memcmp _ _ _ _) 0)), andb_false_r by tauto. cbn [length] in Hf. rewrite IH by (done || lia). f_equal.
      destruct (occurrence y x); cbn [fmap option_fmap option_map]; [lia|done].
Qed.
