(* ===== verification/LibcNumber.v ===== *)
(** Reading numbers: kernel/core/libc.c, lines 297-464.

    [strtol] and [strtoul] are compared with a reference on lists of bytes:
    white space, a sign, a prefix that chooses the base, the longest run of
    digits, and the mathematical value of that run, clamped to the range of
    the type. *)
From Stdlib Require Import ZArith Lia.
From stdpp Require Import base tactics option list numbers.
From S2P Require Import Prelude.
From S2P Require Import Memory.
From S2P Require Import LibcString.
#[local] Open Scope Z_scope.

Definition LIBC_ENOMEM : Z := 12.
Definition LIBC_EINVAL : Z := 22.
Definition LIBC_ERANGE : Z := 34.

Definition LONG_MAX : Z := 0x7fffffffffffffff.
Definition LONG_MIN : Z := - 0x8000000000000000.
Definition ULONG_MAX : Z := 0xffffffffffffffff.

(** ** The code *)

Definition libc_isspace (ch : Z) : bool :=
  (ch =? 32) || (ch =? 12) || (ch =? 10) || (ch =? 13) || (ch =? 9) || (ch =? 11).

(** [-1] when [ch] is no digit. *)
Definition libc_digit_value (ch : Z) : Z :=
  if (48 <=? ch) && (ch <=? 57) then ch - 48
  else if (65 <=? ch) && (ch <=? 90) then ch - 65 + 10
  else if (97 <=? ch) && (ch <=? 122) then ch - 97 + 10
  else -1.

Definition hex_digit (ch : Z) : bool := (0 <=? libc_digit_value ch) && (libc_digit_value ch <? 16).

(** The start of the digits and the base. *)
Definition libc_strto_prefix (m : mem) (s base : Z) : Z * Z :=
  if base =? 0 then
    if (m s =? 48) && ((m (s + 1) =? 120) || (m (s + 1) =? 88)) && hex_digit (m (s + 2)) then (s + 2, 16)
    else if m s =? 48 then (s, 8)
    else (s, 10)
  else if (base =? 16) && (m s =? 48) && ((m (s + 1) =? 120) || (m (s + 1) =? 88)) && hex_digit (m (s + 2)) then (s + 2, base)
  else (s, base).

Fixpoint skip_spaces (fuel : nat) (m : mem) (s : Z) : option Z :=
  match fuel with
  | O => None
  | S fuel' => if libc_isspace (m s) then skip_spaces fuel' m (s + 1) else Some s
  end.

(** The optional sign: whether it is a minus, and where the rest starts. *)
Definition strto_sign (m : mem) (s : Z) : bool * Z :=
  if (m s =? 45) || (m s =? 43) then (m s =? 45, s + 1) else (false, s).

(** The variables of the loop over the digits. *)
Record digits_state : Type := DigitsState {
  ds_pos : Z;
  ds_acc : Z;
  ds_any : bool;
  ds_overflow : bool
}.

Fixpoint strto_digits (fuel : nat) (m : mem) (base cutoff cutlim : Z) (d : digits_state) : option digits_state :=
  match fuel with
  | O => None
  | S fuel' =>
      let c := m (ds_pos d) in
      if c =? 0 then Some d
      else
        let digit := libc_digit_value c in
        if (digit <? 0) || (base <=? digit) then Some d
        else
          let acc := ds_acc d in
          let d' := if (cutoff <? acc) || ((acc =? cutoff) && (cutlim <? digit))
                    then DigitsState (ds_pos d + 1) acc true true
                    else if negb (ds_overflow d) then DigitsState (ds_pos d + 1) (u64 (acc * base + digit)) true (ds_overflow d)
                    else DigitsState (ds_pos d + 1) acc true (ds_overflow d) in
          strto_digits fuel' m base cutoff cutlim d'
  end.

(** The value returned, what [endptr] receives, and [errno] if it is set. *)
Record strto_result : Type := StrtoResult {
  so_value : Z;
  so_end : Z;
  so_errno : option Z
}.

Definition bad_base (base : Z) : bool := negb (base =? 0) && ((base <? 2) || (36 <? base)).

Definition strtol (fuel : nat) (m : mem) (nptr base : Z) : option strto_result :=
  if bad_base base then Some (StrtoResult 0 nptr (Some LIBC_EINVAL))
  else
    s ← skip_spaces fuel m nptr;
    let '(neg, s) := strto_sign m s in
    let '(s, base) := libc_strto_prefix m s base in
    let limit := if neg : bool then LONG_MAX + 1 else LONG_MAX in
    d ← strto_digits fuel m base (limit / base) (limit mod base) (DigitsState s 0 false false);
    Some (if negb (ds_any d) then StrtoResult 0 nptr None
          else if ds_overflow d then StrtoResult (if neg then LONG_MIN else LONG_MAX) (ds_pos d) (Some LIBC_ERANGE)
          else if neg then StrtoResult (if ds_acc d =? LONG_MAX + 1 then LONG_MIN else - ds_acc d) (ds_pos d) None
          else StrtoResult (ds_acc d) (ds_pos d) None).

Definition strtoul (fuel : nat) (m : mem) (nptr base : Z) : option strto_result :=
  if bad_base base then Some (StrtoResult 0 nptr (Some LIBC_EINVAL))
  else
    s ← skip_spaces fuel m nptr;
    let '(neg, s) := strto_sign m s in
    let '(s, base) := libc_strto_prefix m s base in
    d ← strto_digits fuel m base (ULONG_MAX / base) (ULONG_MAX mod base) (DigitsState s 0 false false);
    Some (if negb (ds_any d) then StrtoResult 0 nptr None
          else if ds_overflow d then StrtoResult ULONG_MAX (ds_pos d) (Some LIBC_ERANGE)
          else StrtoResult (if neg : bool then u64 (0 - ds_acc d) else ds_acc d) (ds_pos d) None).

(** ** The reference *)

Fixpoint take_while (f : Z -> bool) (x : list Z) : list Z :=
  match x with
  | c :: x' => if f c then c :: take_while f x' else []
  | [] => []
  end.

Fixpoint drop_while (f : Z -> bool) (x : list Z) : list Z :=
  match x with
  | c :: x' => if f c then drop_while f x' else x
  | [] => []
  end.

(** The sign and what follows it. *)
Definition list_sign (x : list Z) : bool * list Z :=
  match x with
  | c :: x' => if (c =? 45) || (c =? 43) then (c =? 45, x') else (false, x)
  | [] => (false, [])
  end.

(** Whether [x] starts with [0x] and a hexadecimal digit. *)
Definition hex_prefix (x : list Z) : bool :=
  match x with
  | a :: b :: c :: _ => (a =? 48) && ((b =? 120) || (b =? 88)) && hex_digit c
  | _ => false
  end.

(** The base in force and the string from the digits on. *)
Definition list_prefix (base : Z) (x : list Z) : Z * list Z :=
  if ((base =? 0) || (base =? 16)) && hex_prefix x then (16, drop 2 x)
  else if base =? 0 then (match x with c :: _ => if c =? 48 then 8 else 10 | [] => 10 end, x)
  else (base, x).

Definition is_digit (base c : Z) : bool := (0 <=? libc_digit_value c) && (libc_digit_value c <? base).

(** The number a run of digits denotes. *)
Definition digits_value (base : Z) (ds : list Z) : Z := foldl (fun acc c => acc * base + libc_digit_value c) 0 ds.

(** What a string says: sign, base, digits, and the number of bytes up to
    the end of the digits. *)
Record numeral : Type := Numeral {
  nm_neg : bool;
  nm_base : Z;
  nm_digits : list Z;
  nm_length : nat
}.

Definition read_numeral (base : Z) (x : list Z) : numeral :=
  let '(neg, x2) := list_sign (drop_while libc_isspace x) in
  let '(b, x3) := list_prefix base x2 in
  let ds := take_while (is_digit b) x3 in
  Numeral neg b ds (length x - length x3 + length ds).

Definition strtol_spec (base : Z) (x : list Z) (nptr : Z) : strto_result :=
  if bad_base base then StrtoResult 0 nptr (Some LIBC_EINVAL)
  else
    let n := read_numeral base x in
    let v := if nm_neg n then - digits_value (nm_base n) (nm_digits n) else digits_value (nm_base n) (nm_digits n) in
    let e := nptr + Z.of_nat (nm_length n) in
    match nm_digits n with
    | [] => StrtoResult 0 nptr None
    | _ => if v <? LONG_MIN then StrtoResult LONG_MIN e (Some LIBC_ERANGE)
           else if LONG_MAX <? v then StrtoResult LONG_MAX e (Some LIBC_ERANGE)
           else StrtoResult v e None
    end.

Definition strtoul_spec (base : Z) (x : list Z) (nptr : Z) : strto_result :=
  if bad_base base then StrtoResult 0 nptr (Some LIBC_EINVAL)
  else
    let n := read_numeral base x in
    let v := digits_value (nm_base n) (nm_digits n) in
    let e := nptr + Z.of_nat (nm_length n) in
    match nm_digits n with
    | [] => StrtoResult 0 nptr None
    | _ => if ULONG_MAX <? v then StrtoResult ULONG_MAX e (Some LIBC_ERANGE)
           else StrtoResult (if nm_neg n then u64 (- v) else v) e None
    end.

(** ** The proofs *)

(** The string behind the first [n] bytes. *)
Definition tail_at (m : mem) (s : Z) (x y : list Z) : Prop := (length y <= length x)%nat /\ cstring m (s + Z.of_nat (length x - length y)) y.

Lemma tail_refl m s x : cstring m s x -> tail_at m s x x.
Proof. intros Hx. split; [lia|]. by rewrite Nat.sub_diag, Z.add_0_r. Qed.

Lemma tail_trans m s x y z : tail_at m s x y -> tail_at m (s + Z.of_nat (length x - length y)) y z -> tail_at m s x z.
Proof. intros [H1 H2] [H3 H4]. split; [lia|]. by replace (s + Z.of_nat (length x - length z)) with (s + Z.of_nat (length x - length y) + Z.of_nat (length y - length z)) by lia. Qed.

Lemma skip_spaces_ok fuel m s x : cstring m s x -> (length x < fuel)%nat -> let y := drop_while libc_isspace x in
  skip_spaces fuel m s = Some (s + Z.of_nat (length x - length y)) /\ tail_at m s x y.
Proof.
  revert fuel s. induction x as [|c x IH]; intros fuel s Hx Hf; (destruct fuel as [|fuel]; [cbn in Hf; lia|]); cbn [skip_spaces drop_while length] in *.
  - cbn in Hx. rewrite Hx. split; [cbn; f_equal; lia|by apply tail_refl].
  - pose proof Hx as (H1 & H2 & H3). rewrite H2. destruct (libc_isspace c).
    + destruct (IH fuel (s + 1) H3 ltac:(lia)) as [-> [I2 I3]]. split; [f_equal; lia|]. split; [cbn [length]; lia|].
      cbn [length]. by replace (s + Z.of_nat (S (length x) - length (drop_while libc_isspace x))) with (s + 1 + Z.of_nat (length x - length (drop_while libc_isspace x))) by lia.
    + cbn [length]. rewrite Nat.sub_diag, Z.add_0_r. split; [done|by apply tail_refl].
Qed.

Lemma strto_sign_ok m s x : cstring m s x -> let '(neg, y) := list_sign x in
  strto_sign m s = (neg, s + Z.of_nat (length x - length y)) /\ tail_at m s x y.
Proof.
  intros Hx. unfold strto_sign. destruct x as [|c x].
  - cbn in Hx. rewrite Hx. cbn. rewrite Z.add_0_r. split; [done|by apply tail_refl].
  - cbn [list_sign]. pose proof Hx as (H1 & H2 & H3). rewrite H2. destruct ((c =? 45) || (c =? 43)).
    + cbn [length]. replace (S (length x) - length x)%nat with 1%nat by lia. split; [done|]. split; [cbn; lia|].
      cbn [length]. by replace (S (length x) - length x)%nat with 1%nat by lia.
    + cbn [length]. rewrite Nat.sub_diag, Z.add_0_r. split; [done|by apply tail_refl].
Qed.

(** The test for the prefix, in memory and on the list. *)
Lemma hex_prefix_ok m s x : cstring m s x ->
  (m s =? 48) && ((m (s + 1) =? 120) || (m (s + 1) =? 88)) && hex_digit (m (s + 2)) = hex_prefix x.
Proof.
  intros Hx. destruct x as [|a [|b l]].
  - cbn in Hx. by rewrite Hx.
  - destruct Hx as (_ & _ & H3). cbn in H3. rewrite H3. cbn [Z.eqb orb]. by rewrite andb_false_r.
  - destruct Hx as (_ & H2 & _ & H4 & H5). rewrite H2, H4. rewrite <- Z.add_assoc in H5. change (1 + 1) with 2 in H5. destruct l as [|d l]; cbn [cstring hex_prefix] in *.
    + rewrite H5. by rewrite andb_false_r.
    + destruct H5 as (_ & H6 & _). by rewrite H6.
Qed.

Lemma libc_strto_prefix_ok m s base x : cstring m s x -> let '(b, y) := list_prefix base x in
  libc_strto_prefix m s base = (s + Z.of_nat (length x - length y), b) /\ tail_at m s x y.
Proof.
  intros Hx. pose proof (hex_prefix_ok m s x Hx) as Hh. unfold libc_strto_prefix, list_prefix. rewrite <- !andb_assoc in *. rewrite Hh.
  assert (Hdrop : hex_prefix x = true -> s + 2 = s + Z.of_nat (length x - length (drop 2 x)) /\ tail_at m s x (drop 2 x)).
  { intros E. destruct x as [|a [|b x]]; [done|done|]. destruct Hx as (_ & _ & _ & _ & Hx).
    change (drop 2 (a :: b :: x)) with x. cbn [length]. split; [lia|]. split; [cbn [length]; lia|]. cbn [length].
    replace (Z.of_nat (S (S (length x)) - length x)) with (1 + 1) by lia. by rewrite Z.add_assoc. }
  assert (Hself : s = s + Z.of_nat (length x - length x)) by (rewrite Nat.sub_diag; lia). pose proof (tail_refl m s x Hx) as Ht.
  destruct (Z.eqb_spec base 0) as [->|H0]; cbn [orb andb Z.eqb].
  - destruct (hex_prefix x); [destruct (Hdrop eq_refl) as [<- ?]; done|]. rewrite <- Hself. split; [|done].
    destruct x as [|c x]; [cbn in Hx; rewrite Hx; done|]. destruct Hx as (_ & -> & _). by destruct (c =? 48).
  - destruct (Z.eqb_spec base 16) as [->|H16]; cbn [andb]; [|by rewrite <- Hself].
    destruct (hex_prefix x); [destruct (Hdrop eq_refl) as [<- ?]; done|]. by rewrite <- Hself.
Qed.

Definition value_from (base acc : Z) (ds : list Z) : Z := foldl (fun acc c => acc * base + libc_digit_value c) acc ds.

Lemma value_from_mono base acc ds : 2 <= base -> 0 <= acc -> Forall (fun c => 0 <= libc_digit_value c) ds -> acc <= value_from base acc ds.
Proof.
  intros Hb. revert acc. induction ds as [|c ds IH]; intros acc Ha Hd; cbn [value_from foldl]; [lia|]. apply Forall_cons_1 in Hd as [Hc Hd].
  specialize (IH (acc * base + libc_digit_value c)). unfold value_from in IH. assert (acc <= acc * base) by nia. specialize (IH ltac:(lia) Hd). lia.
Qed.

Lemma take_while_all f x : Forall (fun c => f c = true) (take_while f x).
Proof. induction x as [|c x IH]; cbn [take_while]; [constructor|]. destruct (f c) eqn:E; [by constructor|constructor]. Qed.

Lemma digits_nonneg base x : Forall (fun c => 0 <= libc_digit_value c) (take_while (is_digit base) x).
Proof. eapply list.Forall_impl; [apply take_while_all|]. intros c Hc. unfold is_digit in Hc. bool_prop. lia. Qed.

(** What the loop has read: the exact value while it fits the limit, and the
    overflow flag as soon as it does not. *)
Definition read_ok (limit v : Z) (acc : Z) (overflow : bool) : Prop := if overflow then limit < v else acc = v /\ 0 <= v <= limit.

Lemma strto_digits_ok fuel m base limit x pos acc any overflow v : cstring m pos x -> (length x < fuel)%nat -> 2 <= base <= 36 -> 0 <= limit < 18446744073709551616 ->
  0 <= v -> read_ok limit v acc overflow ->
  let ds := take_while (is_digit base) x in
  exists d, strto_digits fuel m base (limit / base) (limit mod base) (DigitsState pos acc any overflow) = Some d /\
    ds_pos d = pos + Z.of_nat (length ds) /\ ds_any d = any || (match ds with [] => false | _ => true end) /\
    read_ok limit (value_from base v ds) (ds_acc d) (ds_overflow d).
Proof.
  intros Hx Hf Hb Hl. revert fuel pos acc any overflow v Hx Hf. induction x as [|c x IH]; intros fuel pos acc any overflow v Hx Hf Hv Hr;
    (destruct fuel as [|fuel]; [cbn in Hf; lia|]); cbn [strto_digits take_while ds_pos ds_acc ds_overflow length] in *.
  - cbn in Hx. rewrite Hx. eexists. split; [done|]. cbn [ds_pos ds_acc ds_any ds_overflow length value_from foldl]. rewrite orb_false_r. split; [lia|done].
  - destruct Hx as (H1 & H2 & H3). rewrite H2, (proj2 (Z.eqb_neq c 0)) by done. change (is_digit base c) with ((0 <=? libc_digit_value c) && (libc_digit_value c <? base)). set (dg := libc_digit_value c).
    destruct (Z.ltb_spec dg 0) as [Hn|Hn]; cbn [orb].
    { rewrite (proj2 (Z.leb_gt 0 dg)) by lia. cbn [andb]. eexists. split; [done|]. cbn [ds_pos ds_acc ds_any ds_overflow length value_from foldl]. rewrite orb_false_r. split; [lia|done]. }
    destruct (Z.leb_spec base dg) as [Hg|Hg].
    { rewrite (proj2 (Z.leb_le 0 dg)), (proj2 (Z.ltb_ge dg base)) by lia. cbn [andb]. eexists. split; [done|]. cbn [ds_pos ds_acc ds_any ds_overflow length value_from foldl]. rewrite orb_false_r. split; [lia|done]. }
    rewrite (proj2 (Z.leb_le 0 dg)), (proj2 (Z.ltb_lt dg base)) by lia. cbn [andb].
    assert (Hbig : limit < v -> limit < v * base + dg) by nia.
    assert (Hcut : (limit / base <? acc) || ((acc =? limit / base) && (limit mod base <? dg)) = (limit <? acc * base + dg)).
    { pose proof (Z.div_mod limit base ltac:(lia)) as Hdm. pose proof (Z.mod_pos_bound limit base ltac:(lia)) as Hmb.
      destruct (Z.ltb_spec (limit / base) acc) as [Hq|Hq]; cbn [orb]; [symmetry; apply Z.ltb_lt; nia|].
      destruct (Z.eqb_spec acc (limit / base)) as [->|Hne]; cbn [andb].
      - destruct (Z.ltb_spec (limit mod base) dg), (Z.ltb_spec limit (limit / base * base + dg)); (done || lia).
      - symmetry. apply Z.ltb_ge. nia. }
    rewrite Hcut. set (d' := if limit <? acc * base + dg then _ else _).
    assert (Hd' : exists acc' o', d' = DigitsState (pos + 1) acc' true o' /\ read_ok limit (v * base + dg) acc' o').
    { unfold d'. destruct (Z.ltb_spec limit (acc * base + dg)) as [Ho|Ho].
      - eexists _, true. split; [done|]. cbn. destruct overflow; cbn in Hr; [lia|]. destruct Hr as [-> _]. done.
      - destruct overflow; cbn [negb]; cbn in Hr; [eexists _, true; split; [done|]; cbn; lia|]. destruct Hr as [-> Hr].
        eexists _, false. split; [done|]. cbn. assert (0 <= v * base) by nia. rewrite u64_small by cint. lia. }
    destruct Hd' as (acc' & o' & -> & Hr').
    destruct (IH fuel (pos + 1) acc' true o' (v * base + dg) H3) as (d & E & D1 & D2 & D3); [lia|nia|done|].
    exists d. split; [done|]. cbn [length]. split; [lia|]. split; [by rewrite D2, orb_true_r|]. exact D3.
Qed.

Lemma prefix_base base x : bad_base base = false -> 2 <= fst (list_prefix base x) <= 36.
Proof.
  unfold bad_base, list_prefix. intros Hb. destruct (_ && hex_prefix x); [cbn; lia|]. destruct (Z.eqb_spec base 0) as [->|H0]; cbn [fst].
  - destruct x as [|c x]; [lia|]. destruct (c =? 48); lia.
  - cbn [negb andb] in Hb. apply orb_false_iff in Hb as [H1 H2]. bool_prop. lia.
Qed.

(** The part the two functions share: where the digits are, and the loop over
    them. *)
Lemma strto_read fuel m nptr base x : cstring m nptr x -> (length x < fuel)%nat -> bad_base base = false ->
  let n := read_numeral base x in
  exists s1 s2 s3, skip_spaces fuel m nptr = Some s1 /\ strto_sign m s1 = (nm_neg n, s2) /\ libc_strto_prefix m s2 base = (s3, nm_base n) /\
    2 <= nm_base n <= 36 /\ Forall (fun c => 0 <= libc_digit_value c) (nm_digits n) /\
    forall limit, 0 <= limit < 18446744073709551616 ->
      exists d, strto_digits fuel m (nm_base n) (limit / nm_base n) (limit mod nm_base n) (DigitsState s3 0 false false) = Some d /\
        ds_pos d = nptr + Z.of_nat (nm_length n) /\ ds_any d = (match nm_digits n with [] => false | _ => true end) /\
        read_ok limit (digits_value (nm_base n) (nm_digits n)) (ds_acc d) (ds_overflow d).
Proof.
  intros Hx Hf Hb. unfold read_numeral. destruct (skip_spaces_ok fuel m nptr x Hx Hf) as [E1 [T1 C1]]. set (x1 := drop_while libc_isspace x) in *.
  pose proof (strto_sign_ok m _ x1 C1) as H2. destruct (list_sign x1) as [neg x2]. destruct H2 as [E2 T2].
  pose proof (tail_trans m nptr x x1 x2 (conj T1 C1) T2) as T2'. pose proof T2 as [L2 C2].
  pose proof (libc_strto_prefix_ok m _ base x2 C2) as H3. pose proof (prefix_base base x2 Hb) as Hpb. destruct (list_prefix base x2) as [b x3]. destruct H3 as [E3 T3].
  pose proof T3 as [L3 C3]. cbn [nm_neg nm_base nm_digits nm_length fst] in *.
  eexists _, _, _. split; [exact E1|]. split; [exact E2|]. split; [exact E3|]. split; [exact Hpb|]. split; [apply digits_nonneg|].
  intros limit Hl. destruct (strto_digits_ok fuel m b limit x3 _ 0 false false 0 C3) as (d & D1 & D2 & D3 & D4); [lia|lia|lia|lia|cbn; lia|].
  exists d. split; [exact D1|]. split; [rewrite D2; lia|]. split; [exact D3|exact D4].
Qed.

Lemma digits_value_nonneg b ds : 2 <= b -> Forall (fun c => 0 <= libc_digit_value c) ds -> 0 <= digits_value b ds.
Proof. intros Hb Hd. apply (value_from_mono b 0 ds); [done|lia|done]. Qed.

Lemma strtol_ok fuel m nptr base x : cstring m nptr x -> (length x < fuel)%nat -> strtol fuel m nptr base = Some (strtol_spec base x nptr).
Proof.
  intros Hx Hf. unfold strtol, strtol_spec. destruct (bad_base base) eqn:Hb; [done|].
  destruct (strto_read fuel m nptr base x Hx Hf Hb) as (s1 & s2 & s3 & E1 & E2 & E3 & Hbr & Hd & Hl). set (n := read_numeral base x) in *.
  rewrite E1. cbn [mbind option_bind]. rewrite E2, E3. pose proof (digits_value_nonneg (nm_base n) _ (proj1 Hbr) Hd) as Hv0. set (v := digits_value (nm_base n) (nm_digits n)) in *.
  destruct (Hl (if nm_neg n then LONG_MAX + 1 else LONG_MAX)) as (d & D1 & D2 & D3 & D4); [unfold LONG_MAX; destruct (nm_neg n); lia|].
  rewrite D1. cbn [mbind option_bind]. f_equal. rewrite D3, D2. destruct (nm_digits n) as [|c ds]; cbn [negb]; [done|].
  unfold read_ok, LONG_MAX, LONG_MIN in *. destruct (ds_overflow d), (nm_neg n).
  - destruct (Z.ltb_spec (- v) (- 0x8000000000000000)); [done|lia].
  - destruct (Z.ltb_spec v (- 0x8000000000000000)); [lia|]. destruct (Z.ltb_spec 0x7fffffffffffffff v); [done|lia].
  - destruct D4 as [-> D4]. destruct (Z.ltb_spec (- v) (- 0x8000000000000000)); [lia|]. destruct (Z.ltb_spec 0x7fffffffffffffff (- v)); [lia|].
    f_equal. destruct (Z.eqb_spec v (0x7fffffffffffffff + 1)); [lia|done].
  - destruct D4 as [-> D4]. destruct (Z.ltb_spec v (- 0x8000000000000000)); [lia|]. destruct (Z.ltb_spec 0x7fffffffffffffff v); [lia|done].
Qed.

Lemma strtoul_ok fuel m nptr base x : cstring m nptr x -> (length x < fuel)%nat -> strtoul fuel m nptr base = Some (strtoul_spec base x nptr).
Proof.
  intros Hx Hf. unfold strtoul, strtoul_spec. destruct (bad_base base) eqn:Hb; [done|].
  destruct (strto_read fuel m nptr base x Hx Hf Hb) as (s1 & s2 & s3 & E1 & E2 & E3 & Hbr & Hd & Hl). set (n := read_numeral base x) in *.
  rewrite E1. cbn [mbind option_bind]. rewrite E2, E3. pose proof (digits_value_nonneg (nm_base n) _ (proj1 Hbr) Hd) as Hv0. set (v := digits_value (nm_base n) (nm_digits n)) in *.
  destruct (Hl ULONG_MAX) as (d & D1 & D2 & D3 & D4); [unfold ULONG_MAX; lia|].
  rewrite D1. cbn [mbind option_bind]. f_equal. rewrite D3, D2. destruct (nm_digits n) as [|c ds]; cbn [negb]; [done|].
  unfold read_ok, ULONG_MAX in *. destruct (ds_overflow d).
  - rewrite (proj2 (Z.ltb_lt _ v)) by lia. done.
  - destruct D4 as [-> D4]. rewrite (proj2 (Z.ltb_ge _ v)) by lia. by rewrite Z.sub_0_l.
Qed.
