(* ===== verification/LibcFormat.v ===== *)
(** Formatted output: kernel/core/libc.c, lines 466-818 (vsnprintf, snprintf,
    sprintf and their helpers).

    A format is the list of its bytes without the terminator. Variadic
    arguments are tagged, because fetching one with the wrong type is
    undefined: [None] is a missing or wrong argument, or a string that does
    not end. Widths, precisions and lengths are [int]s and wrap at 32 bits; the
    reference reads them as numbers and has no text for a format that asks
    for a field an [int] cannot hold ([field_ok]). *)
From Stdlib Require Import ZArith Lia.
From stdpp Require Import base tactics option list numbers.
From S2P Require Import Prelude.
From S2P Require Import Memory.
From S2P Require Import LibcString.
From S2P Require Import LibcNumber.
#[local] Open Scope Z_scope.

Definition INT_MAX : Z := 2147483647.

(** ** Output *)

(** [libc_format_out_t] and the memory it writes to. *)
Record format_out : Type := FormatOut {
  fo_dst : Z;
  fo_size : Z;
  fo_written : Z;
  fo_mem : mem
}.

Definition libc_format_putc (ch : Z) (out : format_out) : format_out :=
  let m := if negb (fo_dst out =? 0) && negb (fo_size out =? 0) && (fo_written out <? fo_size out - 1)
           then put (fo_mem out) (fo_dst out + fo_written out) ch else fo_mem out in
  FormatOut (fo_dst out) (fo_size out) (u64 (fo_written out + 1)) m.

Fixpoint pad_loop (n : nat) (ch : Z) (out : format_out) : format_out :=
  match n with O => out | S n' => pad_loop n' ch (libc_format_putc ch out) end.

Definition libc_format_pad (ch count : Z) (out : format_out) : format_out := pad_loop (Z.to_nat count) ch out.

(** [for (i ...) putc(text[i])] for an array that is not in memory. *)
Fixpoint put_chars (l : list Z) (out : format_out) : format_out :=
  match l with [] => out | c :: l' => put_chars l' (libc_format_putc c out) end.

(** The byte [s[i]] of a string argument; a null pointer stands for (null). *)
Definition null_text : list Z := [40; 110; 117; 108; 108; 41].
Definition char_at (m : mem) (s i : Z) : Z := if s =? 0 then default 0 (null_text !! Z.to_nat i) else m (s + i).

Fixpoint put_string (n : nat) (i s : Z) (out : format_out) : format_out :=
  match n with O => out | S n' => put_string n' (i + 1) s (libc_format_putc (char_at (fo_mem out) s i) out) end.

(** ** Numbers *)

Definition lower_digits : list Z := [48; 49; 50; 51; 52; 53; 54; 55; 56; 57; 97; 98; 99; 100; 101; 102].
Definition upper_digits : list Z := [48; 49; 50; 51; 52; 53; 54; 55; 56; 57; 65; 66; 67; 68; 69; 70].

Definition digit_char (uppercase : bool) (d : Z) : Z :=
  default 0 ((if uppercase then upper_digits else lower_digits) !! Z.to_nat d).

(** The digits are found last first; [tmp] has room for 65. *)
Fixpoint uint_loop (fuel : nat) (value base : Z) (uppercase : bool) (tmp : list Z) : list Z :=
  match fuel with
  | O => tmp
  | S fuel' => if value =? 0 then tmp else uint_loop fuel' (value / base) base uppercase (digit_char uppercase (value mod base) :: tmp)
  end.

Definition libc_format_uint (value base : Z) (uppercase : bool) : list Z :=
  if value =? 0 then [48] else uint_loop 65 value base uppercase [].

Fixpoint strnlen_loop (fuel : nat) (m : mem) (s precision len : Z) : option Z :=
  match fuel with
  | O => None
  | S fuel' =>
      if negb (char_at m s len =? 0) && ((precision <? 0) || (len <? precision)) then strnlen_loop fuel' m s precision (s32 (len + 1))
      else Some len
  end.

Definition libc_format_strnlen (fuel : nat) (m : mem) (s precision : Z) : option Z := strnlen_loop fuel m s precision 0.

Definition zlen (l : list Z) : Z := Z.of_nat (length l).

Definition libc_format_write_number (value : Z) (negative : bool) (base : Z) (uppercase alt pointer plus space left zero : bool)
    (width precision : Z) (out : format_out) : format_out :=
  let digits := if (precision =? 0) && (value =? 0) then [] else libc_format_uint value base uppercase in
  let sign := if negative then [45] else if plus then [43] else if space then [32] else [] in
  let prefix := if pointer then [48; 120]
                else if alt && negb (value =? 0) then
                  if base =? 16 then if uppercase then [48; 88] else [48; 120]
                  else if base =? 8 then [48] else []
                else [] in
  let precision_zeroes := if zlen digits <? precision then s32 (precision - zlen digits) else 0 in
  let body_len := s32 (zlen sign + zlen prefix + precision_zeroes + zlen digits) in
  let zero_width := if zero && negb left && (precision <? 0) && (body_len <? width) then s32 (width - body_len) else 0 in
  let pad := s32 (width - body_len - zero_width) in
  let out := if negb left then libc_format_pad 32 pad out else out in
  let out := put_chars sign out in
  let out := put_chars prefix out in
  let out := libc_format_pad 48 (s32 (zero_width + precision_zeroes)) out in
  let out := put_chars digits out in
  if left then libc_format_pad 32 pad out else out.

(** ** Directives *)

Record directive : Type := Directive {
  dr_left : bool;
  dr_plus : bool;
  dr_space : bool;
  dr_alt : bool;
  dr_zero : bool;
  dr_width : Z;
  dr_precision : Z;
  dr_length : Z
}.

Definition no_flags : directive := Directive false false false false false 0 (-1) 0.
Definition with_width (left : bool) (w : Z) (d : directive) : directive :=
  Directive left (dr_plus d) (dr_space d) (dr_alt d) (dr_zero d) w (dr_precision d) (dr_length d).
Definition with_precision (p : Z) (d : directive) : directive :=
  Directive (dr_left d) (dr_plus d) (dr_space d) (dr_alt d) (dr_zero d) (dr_width d) p (dr_length d).
Definition with_length (l : Z) (d : directive) : directive :=
  Directive (dr_left d) (dr_plus d) (dr_space d) (dr_alt d) (dr_zero d) (dr_width d) (dr_precision d) l.

(** A variadic argument: an integer or a pointer. *)
Inductive va_arg : Type :=
  | ArgInt (v : Z)
  | ArgPtr (p : Z).

Definition next_int (ap : list va_arg) : option (Z * list va_arg) :=
  match ap with ArgInt v :: ap' => Some (v, ap') | _ => None end.
Definition next_ptr (ap : list va_arg) : option (Z * list va_arg) :=
  match ap with ArgPtr p :: ap' => Some (u64 p, ap') | _ => None end.

Fixpoint parse_flags (fmt : list Z) (d : directive) : directive * list Z :=
  match fmt with
  | [] => (d, [])
  | c :: fmt' =>
      if c =? 45 then parse_flags fmt' (Directive true (dr_plus d) (dr_space d) (dr_alt d) (dr_zero d) (dr_width d) (dr_precision d) (dr_length d))
      else if c =? 43 then parse_flags fmt' (Directive (dr_left d) true (dr_space d) (dr_alt d) (dr_zero d) (dr_width d) (dr_precision d) (dr_length d))
      else if c =? 32 then parse_flags fmt' (Directive (dr_left d) (dr_plus d) true (dr_alt d) (dr_zero d) (dr_width d) (dr_precision d) (dr_length d))
      else if c =? 35 then parse_flags fmt' (Directive (dr_left d) (dr_plus d) (dr_space d) true (dr_zero d) (dr_width d) (dr_precision d) (dr_length d))
      else if c =? 48 then parse_flags fmt' (Directive (dr_left d) (dr_plus d) (dr_space d) (dr_alt d) true (dr_width d) (dr_precision d) (dr_length d))
      else (d, fmt)
  end.

Fixpoint parse_int (fmt : list Z) (n : Z) : Z * list Z :=
  match fmt with
  | c :: fmt' => if (48 <=? c) && (c <=? 57) then parse_int fmt' (s32 (n * 10 + (c - 48))) else (n, fmt)
  | [] => (n, [])
  end.

Definition first_is (c : Z) (fmt : list Z) : bool := match fmt with a :: _ => a =? c | [] => false end.

Definition parse_width (fmt : list Z) (ap : list va_arg) (d : directive) : option (directive * list Z * list va_arg) :=
  if first_is 42 fmt then
    '(w, ap) ← next_int ap;
    let w := s32 w in
    Some (if w <? 0 then with_width true (s32 (- w)) d else with_width (dr_left d) w d, drop 1 fmt, ap)
  else
    let '(w, fmt) := parse_int fmt 0 in Some (with_width (dr_left d) w d, fmt, ap).

Definition parse_precision (fmt : list Z) (ap : list va_arg) (d : directive) : option (directive * list Z * list va_arg) :=
  if first_is 46 fmt then
    let fmt := drop 1 fmt in
    if first_is 42 fmt then
      '(p, ap) ← next_int ap;
      let p := s32 p in
      Some (with_precision (if p <? 0 then -1 else p) d, drop 1 fmt, ap)
    else
      let '(p, fmt) := parse_int fmt 0 in Some (with_precision p d, fmt, ap)
  else Some (d, fmt, ap).

Definition parse_length (fmt : list Z) (d : directive) : directive * list Z :=
  if first_is 104 fmt then
    let fmt := drop 1 fmt in
    if first_is 104 fmt then (with_length (-2) d, drop 1 fmt) else (with_length (-1) d, fmt)
  else if first_is 108 fmt then
    let fmt := drop 1 fmt in
    if first_is 108 fmt then (with_length 2 d, drop 1 fmt) else (with_length 1 d, fmt)
  else if first_is 122 fmt then (with_length 3 d, drop 1 fmt)
  else if first_is 116 fmt then (with_length 4 d, drop 1 fmt)
  else (d, fmt).

(** Everything between the percent sign and the conversion character. *)
Definition parse_directive (fmt : list Z) (ap : list va_arg) : option (directive * list Z * list va_arg) :=
  let '(d, fmt) := parse_flags fmt no_flags in
  '(d, fmt, ap) ← parse_width fmt ap d;
  '(d, fmt, ap) ← parse_precision fmt ap d;
  let '(d, fmt) := parse_length fmt d in
  Some (d, fmt, ap).

(** The values of integer conversions. *)
Definition signed_arg (length v : Z) : Z :=
  if (length =? 2) || (length =? 1) || (length =? 3) || (length =? 4) then s64 v
  else if length =? -1 then s16 (s32 v) else if length =? -2 then s8 (s32 v) else s32 v.

Definition unsigned_arg (length v : Z) : Z :=
  if (length =? 2) || (length =? 1) || (length =? 3) || (length =? 4) then u64 v
  else if length =? -1 then u16 (u32 v) else if length =? -2 then u8 (u32 v) else u32 v.

(** [value < 0 ? (uint64_t)(-(value + 1)) + 1u : (uint64_t)value]. *)
Definition magnitude (value : Z) : Z := if value <? 0 then u64 (u64 (- (value + 1)) + 1) else u64 value.

(** The branches on the conversion character. *)
Definition format_spec (fuel : nat) (spec : Z) (d : directive) (ap : list va_arg) (out : format_out) : option (list va_arg * format_out) :=
  let width := dr_width d in
  if spec =? 115 then
    '(s, ap) ← next_ptr ap;
    len ← libc_format_strnlen fuel (fo_mem out) s (dr_precision d);
    let pad := s32 (width - len) in
    let out := if negb (dr_left d) then libc_format_pad 32 pad out else out in
    let out := put_string (Z.to_nat len) 0 s out in
    Some (ap, if dr_left d then libc_format_pad 32 pad out else out)
  else if spec =? 99 then
    '(ch, ap) ← next_int ap;
    let pad := s32 (width - 1) in
    let out := if negb (dr_left d) then libc_format_pad 32 pad out else out in
    let out := libc_format_putc (u8 ch) out in
    Some (ap, if dr_left d then libc_format_pad 32 pad out else out)
  else if (spec =? 100) || (spec =? 105) then
    '(v, ap) ← next_int ap;
    let value := signed_arg (dr_length d) v in
    Some (ap, libc_format_write_number (magnitude value) (value <? 0) 10 false (dr_alt d) false (dr_plus d) (dr_space d) (dr_left d) (dr_zero d) width (dr_precision d) out)
  else if (spec =? 117) || (spec =? 120) || (spec =? 88) || (spec =? 111) then
    '(v, ap) ← next_int ap;
    let base := if spec =? 111 then 8 else if spec =? 117 then 10 else 16 in
    Some (ap, libc_format_write_number (unsigned_arg (dr_length d) v) false base (spec =? 88) (dr_alt d) false false false (dr_left d) (dr_zero d) width (dr_precision d) out)
  else if spec =? 112 then
    '(p, ap) ← next_ptr ap;
    Some (ap, libc_format_write_number p false 16 false false true false false (dr_left d) (dr_zero d) width (dr_precision d) out)
  else if spec =? 37 then
    let out := if negb (dr_left d) && negb (dr_zero d) then libc_format_pad 32 (s32 (width - 1)) out else out in
    let out := if negb (dr_left d) && dr_zero d then libc_format_pad 48 (s32 (width - 1)) out else out in
    let out := libc_format_putc 37 out in
    Some (ap, if dr_left d then libc_format_pad 32 (s32 (width - 1)) out else out)
  else Some (ap, libc_format_putc spec (libc_format_putc 37 out)).

Fixpoint format_loop (n fuel : nat) (fmt : list Z) (ap : list va_arg) (out : format_out) : option format_out :=
  match n, fmt with
  | _, [] => Some out
  | O, _ => None
  | S n', c :: fmt' =>
      if negb (c =? 37) then format_loop n' fuel fmt' ap (libc_format_putc c out)
      else
        '(d, fmt, ap) ← parse_directive fmt' ap;
        match fmt with
        | [] => Some out
        | spec :: fmt => '(ap, out) ← format_spec fuel spec d ap out; format_loop n' fuel fmt ap out
        end
  end.

(** Every round takes a byte of the format. *)
Definition vsnprintf (fuel : nat) (str size : Z) (fmt : list Z) (ap : list va_arg) (m : mem) : option (Z * mem) :=
  out ← format_loop (length fmt) fuel fmt ap (FormatOut str size 0 m);
  let written := fo_written out in
  let m := if negb (str =? 0) && negb (size =? 0)
           then put (fo_mem out) (str + (if written <? size then written else size - 1)) 0 else fo_mem out in
  Some (if INT_MAX <? written then INT_MAX else written, m).

Definition snprintf := vsnprintf.
Definition sprintf (fuel : nat) (str : Z) := vsnprintf fuel str 0xffffffffffffffff.

(** ** The reference: the text a format denotes *)

(** Widths and precisions as the numbers they spell. *)
Fixpoint read_decimal (fmt : list Z) (n : Z) : Z * list Z :=
  match fmt with
  | c :: fmt' => if (48 <=? c) && (c <=? 57) then read_decimal fmt' (n * 10 + (c - 48)) else (n, fmt)
  | [] => (n, [])
  end.

Definition read_width (fmt : list Z) (ap : list va_arg) (d : directive) : option (directive * list Z * list va_arg) :=
  if first_is 42 fmt then
    '(w, ap) ← next_int ap; Some (with_width (dr_left d || (s32 w <? 0)) (Z.abs (s32 w)) d, drop 1 fmt, ap)
  else let '(w, fmt) := read_decimal fmt 0 in Some (with_width (dr_left d) w d, fmt, ap).

Definition read_precision (fmt : list Z) (ap : list va_arg) (d : directive) : option (directive * list Z * list va_arg) :=
  if first_is 46 fmt then
    let fmt := drop 1 fmt in
    if first_is 42 fmt then '(p, ap) ← next_int ap; Some (with_precision (Z.max (-1) (s32 p)) d, drop 1 fmt, ap)
    else let '(p, fmt) := read_decimal fmt 0 in Some (with_precision p d, fmt, ap)
  else Some (d, fmt, ap).

(** A field whose columns, with a sign and a prefix, fit an [int]. *)
Definition field_ok (d : directive) : bool := (dr_width d <=? INT_MAX) && (dr_precision d <=? INT_MAX - 3).

Definition read_directive (fmt : list Z) (ap : list va_arg) : option (directive * list Z * list va_arg) :=
  let '(d, fmt) := parse_flags fmt no_flags in
  '(d, fmt, ap) ← read_width fmt ap d;
  '(d, fmt, ap) ← read_precision fmt ap d;
  let '(d, fmt) := parse_length fmt d in
  if field_ok d then Some (d, fmt, ap) else None.

Definition spaces (n : Z) : list Z := replicate (Z.to_nat n) 32.
Definition zeroes (n : Z) : list Z := replicate (Z.to_nat n) 48.

(** [l] in a field of [width] columns. *)
Definition justify (left : bool) (width : Z) (l : list Z) : list Z :=
  if left then l ++ spaces (width - zlen l) else spaces (width - zlen l) ++ l.

(** A number: sign, prefix and digits, with zeros in front of the digits up to
    the precision, or up to the width if the flag [0] says so. *)
Definition number_text (sign prefix digits : list Z) (left zero : bool) (width precision : Z) : list Z :=
  let wanted := if zero && negb left && (precision <? 0) then width - zlen sign - zlen prefix else precision in
  justify left width (sign ++ prefix ++ zeroes (wanted - zlen digits) ++ digits).

Definition sign_text (negative plus space : bool) : list Z :=
  if negative then [45] else if plus then [43] else if space then [32] else [].

Definition alt_text (value base : Z) (uppercase alt : bool) : list Z :=
  if alt && negb (value =? 0) then
    if base =? 16 then if uppercase then [48; 88] else [48; 120] else if base =? 8 then [48] else []
  else [].

Definition digits_text (value base : Z) (uppercase : bool) (precision : Z) : list Z :=
  if (precision =? 0) && (value =? 0) then [] else libc_format_uint value base uppercase.

(** [strs] gives the string each pointer points to. *)
Definition string_text (strs : Z -> list Z) (p precision : Z) : list Z :=
  let x := if p =? 0 then null_text else strs p in if precision <? 0 then x else take (Z.to_nat precision) x.

Definition spec_text (strs : Z -> list Z) (spec : Z) (d : directive) (ap : list va_arg) : option (list va_arg * list Z) :=
  let number (value : Z) (negative : bool) (base : Z) (uppercase alt plus space prefix : bool) :=
    number_text (sign_text negative plus space) (if prefix then [48; 120] else alt_text value base uppercase alt)
      (digits_text value base uppercase (dr_precision d)) (dr_left d) (dr_zero d) (dr_width d) (dr_precision d) in
  if spec =? 115 then
    '(s, ap) ← next_ptr ap; Some (ap, justify (dr_left d) (dr_width d) (string_text strs s (dr_precision d)))
  else if spec =? 99 then
    '(ch, ap) ← next_int ap; Some (ap, justify (dr_left d) (dr_width d) [u8 ch])
  else if (spec =? 100) || (spec =? 105) then
    '(v, ap) ← next_int ap;
    let value := signed_arg (dr_length d) v in
    Some (ap, number (Z.abs value) (value <? 0) 10 false (dr_alt d) (dr_plus d) (dr_space d) false)
  else if (spec =? 117) || (spec =? 120) || (spec =? 88) || (spec =? 111) then
    '(v, ap) ← next_int ap;
    let base := if spec =? 111 then 8 else if spec =? 117 then 10 else 16 in
    Some (ap, number (unsigned_arg (dr_length d) v) false base (spec =? 88) (dr_alt d) false false false)
  else if spec =? 112 then
    '(p, ap) ← next_ptr ap; Some (ap, number p false 16 false false false false true)
  else if spec =? 37 then
    Some (ap, if dr_left d then 37 :: spaces (dr_width d - 1)
              else (if dr_zero d then zeroes (dr_width d - 1) else spaces (dr_width d - 1)) ++ [37])
  else Some (ap, [37; spec]).

Fixpoint text_loop (n : nat) (strs : Z -> list Z) (fmt : list Z) (ap : list va_arg) : option (list Z) :=
  match n, fmt with
  | _, [] => Some []
  | O, _ => None
  | S n', c :: fmt' =>
      if negb (c =? 37) then t ← text_loop n' strs fmt' ap; Some (c :: t)
      else
        '(d, fmt, ap) ← read_directive fmt' ap;
        match fmt with
        | [] => Some []
        | spec :: fmt => '(ap, t1) ← spec_text strs spec d ap; t ← text_loop n' strs fmt ap; Some (t1 ++ t)
        end
  end.

Definition format_text (strs : Z -> list Z) (fmt : list Z) (ap : list va_arg) : option (list Z) := text_loop (length fmt) strs fmt ap.

(** Where the reference has a field, the code reads the same one. *)
Lemma read_decimal_le fmt n : 0 <= n -> n <= fst (read_decimal fmt n).
Proof.
  revert n. induction fmt as [|c fmt IH]; intros n Hn; cbn [read_decimal]; [done|]. destruct (_ && _) eqn:E; [|done]. bool_prop.
  specialize (IH (n * 10 + (c - 48))). lia.
Qed.

Lemma parse_int_ok fmt n : 0 <= n -> fst (read_decimal fmt n) <= INT_MAX -> parse_int fmt n = read_decimal fmt n.
Proof.
  revert n. induction fmt as [|c fmt IH]; intros n Hn; cbn [read_decimal parse_int]; [done|]. destruct (_ && _) eqn:E; [|done]. intros Hm. bool_prop.
  pose proof (read_decimal_le fmt (n * 10 + (c - 48)) ltac:(lia)). unfold INT_MAX in Hm. rewrite s32_small by lia. apply IH; [lia|done].
Qed.

Lemma read_width_ok fmt ap d d' fmt' ap' : read_width fmt ap d = Some (d', fmt', ap') ->
  0 <= dr_width d' /\ dr_precision d' = dr_precision d /\ (dr_width d' <= INT_MAX -> parse_width fmt ap d = Some (d', fmt', ap')).
Proof.
  unfold read_width, parse_width. destruct (first_is 42 fmt).
  - destruct (next_int ap) as [[w ap1]|]; [|done]. cbn [mbind option_bind]. intros [= <- <- <-]. cbn [with_width dr_width dr_precision]. split; [lia|]. split; [done|].
    unfold INT_MAX. intros Hw. destruct (Z.ltb_spec (s32 w) 0).
    + rewrite orb_true_r, (s32_small (- s32 w)), Z.abs_neq by lia. done.
    + by rewrite orb_false_r, Z.abs_eq by lia.
  - pose proof (read_decimal_le fmt 0) as Hle. pose proof (parse_int_ok fmt 0) as Hp. destruct (read_decimal fmt 0) as [w fmt1]. cbn [fst] in *. intros [= <- <- <-].
    cbn [with_width dr_width dr_precision]. split; [lia|]. split; [done|]. intros Hw. by rewrite Hp.
Qed.

Lemma read_precision_ok fmt ap d d' fmt' ap' : -1 <= dr_precision d -> read_precision fmt ap d = Some (d', fmt', ap') ->
  -1 <= dr_precision d' /\ dr_width d' = dr_width d /\ (dr_precision d' <= INT_MAX -> parse_precision fmt ap d = Some (d', fmt', ap')).
Proof.
  intros Hd. unfold read_precision, parse_precision. destruct (first_is 46 fmt); [|by intros [= <- <- <-]]. destruct (first_is 42 (drop 1 fmt)).
  - destruct (next_int ap) as [[p ap1]|]; [|done]. cbn [mbind option_bind]. intros [= <- <- <-]. cbn [with_precision dr_width dr_precision]. split; [lia|]. split; [done|].
    intros _. do 4 f_equal. destruct (Z.ltb_spec (s32 p) 0); lia.
  - pose proof (read_decimal_le (drop 1 fmt) 0) as Hle. pose proof (parse_int_ok (drop 1 fmt) 0) as Hp. destruct (read_decimal (drop 1 fmt) 0) as [p fmt1]. cbn [fst] in *.
    intros [= <- <- <-]. cbn [with_precision dr_width dr_precision]. split; [lia|]. split; [done|]. intros Hw. by rewrite Hp.
Qed.

Lemma parse_flags_fields fmt d : dr_width (fst (parse_flags fmt d)) = dr_width d /\ dr_precision (fst (parse_flags fmt d)) = dr_precision d.
Proof.
  revert d. induction fmt as [|c fmt IH]; intros d; cbn [parse_flags]; [done|].
  repeat match goal with |- context [if ?b then _ else _] => destruct b; [exact (IH _)|] end. done.
Qed.

Lemma parse_length_fields fmt d : dr_width (fst (parse_length fmt d)) = dr_width d /\ dr_precision (fst (parse_length fmt d)) = dr_precision d.
Proof. unfold parse_length. by repeat case_match. Qed.

Lemma read_directive_ok fmt ap d fmt' ap' : read_directive fmt ap = Some (d, fmt', ap') ->
  parse_directive fmt ap = Some (d, fmt', ap') /\ 0 <= dr_width d <= INT_MAX /\ -1 <= dr_precision d <= INT_MAX - 3.
Proof.
  unfold read_directive, parse_directive. destruct (parse_flags_fields fmt no_flags) as [_ Ef]. destruct (parse_flags fmt no_flags) as [d1 fmt1]. cbn [fst] in Ef.
  destruct (read_width fmt1 ap d1) as [[[d2 fmt2] ap2]|] eqn:Ew; [|done]. cbn [mbind option_bind]. apply read_width_ok in Ew as (W1 & W2 & W3).
  destruct (read_precision fmt2 ap2 d2) as [[[d3 fmt3] ap3]|] eqn:Ep; [|done]. cbn [mbind option_bind]. apply read_precision_ok in Ep as (P1 & P2 & P3); [|rewrite W2, Ef; done].
  destruct (parse_length_fields fmt3 d3) as [L1 L2]. destruct (parse_length fmt3 d3) as [d4 fmt4] eqn:El. cbn [fst] in *. unfold field_ok. destruct (_ && _) eqn:E; [|done].
  intros [= <- <- <-]. bool_prop. rewrite W3 by lia. cbn [mbind option_bind]. rewrite P3 by (unfold INT_MAX in *; lia). cbn [mbind option_bind]. rewrite El. split; [done|]. unfold INT_MAX in *. lia.
Qed.

Lemma uint_loop_length fuel value base up tmp : (length (uint_loop fuel value base up tmp) <= fuel + length tmp)%nat.
Proof.
  revert value tmp. induction fuel as [|fuel IH]; intros value tmp; cbn [uint_loop]; [lia|]. destruct (value =? 0); [lia|]. etrans; [apply IH|]. cbn [length]. lia.
Qed.

Lemma digits_text_length value base up precision : zlen (digits_text value base up precision) <= 65.
Proof.
  unfold digits_text, libc_format_uint. destruct (_ && _); [unfold zlen; cbn; lia|]. destruct (value =? 0); [unfold zlen; cbn; lia|]. pose proof (uint_loop_length 65 value base up []) as H. unfold zlen. cbn [length] in H. lia.
Qed.

Lemma sign_text_length negative plus space : zlen (sign_text negative plus space) <= 1.
Proof. unfold zlen. destruct negative, plus, space; cbn; lia. Qed.

Lemma alt_text_length value base up alt : zlen (alt_text value base up alt) <= 2.
Proof. unfold alt_text, zlen. destruct (_ && _), (base =? 16), up, (base =? 8); cbn; lia. Qed.

(** ** The buffer *)

(** After the text [t] the buffer holds its first [size - 1] bytes, and no
    other byte of memory has changed. *)
Definition buffer_byte (m0 : mem) (dst size : Z) (t : list Z) (x : Z) : Z :=
  if negb (dst =? 0) && negb (size =? 0) && (dst <=? x) && (x <? dst + Z.min (zlen t) (size - 1))
  then default 0 (t !! Z.to_nat (x - dst)) else m0 x.

Record holds (m0 : mem) (dst size : Z) (t : list Z) (out : format_out) : Prop := {
  hd_dst : fo_dst out = dst;
  hd_size : fo_size out = size;
  hd_written : fo_written out = zlen t;
  hd_mem x : fo_mem out x = buffer_byte m0 dst size t x
}.

Section buffer.
Context (m0 : mem) (dst size : Z) (Hsize : is_u64 size).

Lemma zlen_app l k : zlen (l ++ k) = zlen l + zlen k.
Proof. unfold zlen. rewrite length_app. lia. Qed.

Lemma putc_holds c t out : holds m0 dst size t out -> zlen t + 1 < 18446744073709551616 ->
  holds m0 dst size (t ++ [c]) (libc_format_putc c out).
Proof using Hsize.
  intros [H1 H2 H3 H4] Hl. assert (H0 : 0 <= zlen t) by (unfold zlen; lia). assert (Hn : zlen (t ++ [c]) = zlen t + 1) by (rewrite zlen_app; done).
  unfold libc_format_putc. split; cbn [fo_dst fo_size fo_written fo_mem]; [done|done|by rewrite H3, u64_small by cint|].
  intros x. rewrite H1, H2, H3. unfold buffer_byte. rewrite Hn.
  destruct (Z.eqb_spec dst 0) as [Hd|Hd]; cbn [negb andb]; [rewrite H4; unfold buffer_byte; by rewrite Hd|].
  destruct (Z.eqb_spec size 0) as [Hs|Hs]; cbn [negb andb]; [rewrite H4; unfold buffer_byte; by rewrite Hs, andb_false_r|].
  assert (Hold : fo_mem out x = if (dst <=? x) && (x <? dst + Z.min (zlen t) (size - 1)) then default 0 (t !! Z.to_nat (x - dst)) else m0 x).
  { rewrite H4. unfold buffer_byte. by rewrite (proj2 (Z.eqb_neq dst 0)), (proj2 (Z.eqb_neq size 0)) by done. }
  assert (Hlk : forall i, (i < length t)%nat -> (t ++ [c]) !! i = t !! i) by (intros; by rewrite lookup_app_l).
  destruct (Z.ltb_spec (zlen t) (size - 1)) as [Hw|Hw].
  - unfold put. destruct (Z.eqb_spec x (dst + zlen t)) as [->|Hx].
    + destruct (Z.leb_spec dst (dst + zlen t)), (Z.ltb_spec (dst + zlen t) (dst + Z.min (zlen t + 1) (size - 1))); cbn [andb]; try lia.
      replace (Z.to_nat (dst + zlen t - dst)) with (length t) by (unfold zlen; lia). rewrite lookup_app_r, Nat.sub_diag by lia. done.
    + rewrite Hold. destruct (Z.leb_spec dst x), (Z.ltb_spec x (dst + Z.min (zlen t) (size - 1))), (Z.ltb_spec x (dst + Z.min (zlen t + 1) (size - 1))); cbn [andb]; try lia; try done.
      rewrite Hlk; [done|]. unfold zlen in *. lia.
  - rewrite Hold. rewrite (Z.min_r (zlen t)), (Z.min_r (zlen t + 1)) by lia. destruct (Z.leb_spec dst x), (Z.ltb_spec x (dst + (size - 1))); cbn [andb]; try done.
    rewrite Hlk; [done|]. unfold zlen in *. lia.
Qed.

Lemma put_chars_holds l t out : holds m0 dst size t out -> zlen t + zlen l < 18446744073709551616 ->
  holds m0 dst size (t ++ l) (put_chars l out).
Proof using Hsize.
  revert t out. induction l as [|c l IH]; intros t out Ht Hl; cbn [put_chars]; [by rewrite app_nil_r|].
  replace (t ++ c :: l) with ((t ++ [c]) ++ l) by (by rewrite <- app_assoc). assert (zlen (c :: l) = 1 + zlen l) by (unfold zlen; cbn [length]; lia).
  apply IH; [|rewrite zlen_app; unfold zlen at 2; cbn [length]; lia]. apply putc_holds; [done|]. unfold zlen in *. lia.
Qed.

Lemma pad_holds ch n t out : holds m0 dst size t out -> zlen t + Z.max 0 n < 18446744073709551616 ->
  holds m0 dst size (t ++ replicate (Z.to_nat n) ch) (libc_format_pad ch n out).
Proof using Hsize.
  intros Ht Hl. assert (E : forall k out, pad_loop k ch out = put_chars (replicate k ch) out) by (induction k; intros; cbn; auto).
  unfold libc_format_pad. rewrite E. apply put_chars_holds; [done|]. unfold zlen in *. rewrite length_replicate. lia.
Qed.

Lemma zlen_pad n ch : zlen (replicate (Z.to_nat n) ch) = Z.max 0 n.
Proof. unfold zlen. rewrite length_replicate. lia. Qed.

Lemma zlen_nonneg l : 0 <= zlen l.
Proof. unfold zlen. lia. Qed.

(** The number printed is the number of the reference. *)
Lemma write_number_holds value negative base uppercase alt (pointer : bool) plus space left zero width precision t out :
  let text := number_text (sign_text negative plus space) (if pointer then [48; 120] else alt_text value base uppercase alt)
                (digits_text value base uppercase precision) left zero width precision in
  0 <= width <= INT_MAX -> -1 <= precision <= INT_MAX - 3 -> holds m0 dst size t out -> zlen t + zlen text < 18446744073709551616 ->
  holds m0 dst size (t ++ text) (libc_format_write_number value negative base uppercase alt pointer plus space left zero width precision out).
Proof using Hsize.
  intros text Hwd Hpr Ht Hl. unfold INT_MAX in Hwd, Hpr. unfold libc_format_write_number. fold (sign_text negative plus space) (alt_text value base uppercase alt) (digits_text value base uppercase precision).
  unfold text, number_text in *. set (sg := sign_text negative plus space) in *. set (pf := if pointer then [48; 120] else alt_text value base uppercase alt) in *.
  set (dg := digits_text value base uppercase precision) in *. cbn zeta.
  pose proof (zlen_nonneg sg). pose proof (zlen_nonneg pf). pose proof (zlen_nonneg dg). pose proof (zlen_nonneg t).
  assert (Hsg : zlen sg <= 1) by apply sign_text_length. assert (Hdg : zlen dg <= 65) by apply digits_text_length.
  assert (Hpf : zlen pf <= 2) by (unfold pf; destruct pointer; [done|apply alt_text_length]).
  rewrite (s32_small (precision - zlen dg)) by lia. set (pz := if zlen dg <? precision then precision - zlen dg else 0).
  assert (Hpz : 0 <= pz /\ pz + zlen dg <= 2147483644) by (unfold pz; destruct (Z.ltb_spec (zlen dg) precision); lia).
  rewrite (s32_small (zlen sg + zlen pf + pz + zlen dg)) by lia. set (body := zlen sg + zlen pf + pz + zlen dg).
  rewrite (s32_small (width - body)) by lia. set (zw := if zero && negb left && (precision <? 0) && (body <? width) then width - body else 0).
  assert (Hzw : 0 <= zw /\ (0 < zw -> pz = 0 /\ zw = width - body)).
  { unfold zw. destruct (zero && negb left && (precision <? 0) && (body <? width)) eqn:Ew; [|lia]. bool_prop. unfold pz. destruct (Z.ltb_spec (zlen dg) precision); lia. }
  rewrite (s32_small (width - body - zw)), (s32_small (zw + pz)) by lia.
  set (wanted := if zero && negb left && (precision <? 0) then width - zlen sg - zlen pf else precision) in *.
  assert (Hz : zw + pz = Z.max 0 (wanted - zlen dg)).
  { unfold zw, wanted. destruct (zero && negb left && (precision <? 0)) eqn:Ef; cbn [andb].
    - bool_prop. unfold pz in *. destruct (Z.ltb_spec (zlen dg) precision); [lia|]. unfold body. destruct (Z.ltb_spec (zlen sg + zlen pf + 0 + zlen dg) width); lia.
    - unfold pz. destruct (Z.ltb_spec (zlen dg) precision); lia. }
  set (core := sg ++ pf ++ zeroes (wanted - zlen dg) ++ dg) in *.
  assert (Hcore : zlen core = body + zw) by (unfold core, zeroes; rewrite !zlen_app, zlen_pad; unfold body; lia).
  assert (Hcz : zeroes (wanted - zlen dg) = replicate (Z.to_nat (zw + pz)) 48) by (unfold zeroes; f_equal; lia).
  assert (Hpad : width - body - zw = width - zlen core) by lia. rewrite Hpad.
  assert (Hcore_holds : forall t out, holds m0 dst size t out -> zlen t + zlen core < 18446744073709551616 ->
    holds m0 dst size (t ++ core) (put_chars dg (libc_format_pad 48 (zw + pz) (put_chars pf (put_chars sg out))))).
  { intros t' out' Ht' Hl'. unfold core. rewrite Hcz, !app_assoc. pose proof (zlen_nonneg t').
    apply put_chars_holds; [apply pad_holds; [apply put_chars_holds; [apply put_chars_holds; [done|]|]|]|];
      rewrite ?zlen_app, ?zlen_pad; lia. }
  unfold justify in *. destruct left; cbn [negb] in *; rewrite zlen_app in Hl; unfold spaces in *; rewrite zlen_pad in Hl.
  - rewrite app_assoc. apply pad_holds; [|rewrite zlen_app; lia]. apply Hcore_holds; [done|lia].
  - rewrite app_assoc. apply Hcore_holds; [|rewrite zlen_app, zlen_pad; lia]. apply pad_holds; [done|lia].
Qed.

(** ** Strings *)

Lemma holds_outside t out x : holds m0 dst size t out -> ~ (dst <= x < dst + size) -> fo_mem out x = m0 x.
Proof using Hsize.
  intros [_ _ _ H4] Hx. rewrite H4. unfold buffer_byte. destruct (Z.eqb_spec dst 0); [done|]. destruct (Z.eqb_spec size 0); [done|]. cbn [negb andb].
  destruct (Z.leb_spec dst x), (Z.ltb_spec x (dst + Z.min (zlen t) (size - 1))); cbn [andb]; (done || lia).
Qed.

(** The bytes of the argument [s] in memory [m] are [x]. *)
Definition reads (m : mem) (s : Z) (x : list Z) : Prop :=
  Forall (fun c => c <> 0) x /\ forall i, (i <= length x)%nat -> char_at m s (Z.of_nat i) = default 0 (x !! i).

Lemma reads_null m : reads m 0 null_text.
Proof. split; [apply (bool_decide_unpack _); vm_compute; exact I|]. intros i Hi. unfold char_at. cbn [Z.eqb]. by rewrite Nat2Z.id. Qed.

Lemma reads_cstring m s x : s <> 0 -> cstring m s x -> reads m s x.
Proof.
  intros Hs Hx. destruct (cstring_list m s x Hx) as (H1 & H2 & H3). split; [done|]. intros i Hi. unfold char_at. rewrite (proj2 (Z.eqb_neq _ _)) by done.
  destruct (decide (i < length x)%nat) as [Hlt|Hge].
  - rewrite <- H1, lookup_mem_list by done. done.
  - replace i with (length x) by lia. rewrite H2, lookup_ge_None_2 by lia. done.
Qed.

(** The text of a string with a precision, as a prefix of it. *)
Definition cut_text (precision : Z) (x : list Z) : list Z := if precision <? 0 then x else take (Z.to_nat precision) x.

Lemma cut_text_length precision x : zlen (cut_text precision x) <= zlen x.
Proof. unfold cut_text, zlen. destruct (precision <? 0); [done|]. rewrite length_take. lia. Qed.

Lemma strnlen_ok fuel m s precision x : reads m s x -> (length x < fuel)%nat -> zlen x <= INT_MAX ->
  libc_format_strnlen fuel m s precision = Some (zlen (cut_text precision x)).
Proof.
  intros [Hnz Hr] Hf Hx. unfold INT_MAX in Hx. unfold libc_format_strnlen.
  enough (Hg : forall n k, (k + n = length x)%nat -> (n < fuel)%nat -> Z.of_nat k <= zlen (cut_text precision x) ->
    strnlen_loop fuel m s precision (Z.of_nat k) = Some (zlen (cut_text precision x))).
  { apply (Hg (length x) 0%nat); [lia|lia|unfold zlen; lia]. }
  assert (Hlen : zlen (cut_text precision x) = if precision <? 0 then zlen x else Z.min precision (zlen x)).
  { unfold cut_text. destruct (Z.ltb_spec precision 0); [done|]. unfold zlen. rewrite length_take. lia. }
  rewrite Hlen. clear Hf. intros n. revert fuel. induction n as [|n IH]; intros fuel k Hk Hf Hle; (destruct fuel as [|fuel]; [lia|]); cbn [strnlen_loop].
  - rewrite Hr by lia. rewrite lookup_ge_None_2 by lia. cbn [default from_option Z.eqb negb andb]. f_equal. unfold zlen in *. destruct (precision <? 0); lia.
  - rewrite Hr by lia. destruct (lookup_lt_is_Some_2 x k ltac:(lia)) as [c Hc]. rewrite Hc. change (default 0 (Some c)) with c.
    rewrite Forall_elem in Hnz. rewrite (proj2 (Z.eqb_neq c 0)) by (apply Hnz; by eapply list_elem_of_lookup_2). cbn [negb andb].
    destruct (Z.ltb_spec precision 0) as [Hp|Hp]; cbn [orb].
    + rewrite s32_small by (unfold zlen in Hx; lia). replace (Z.of_nat k + 1) with (Z.of_nat (S k)) by lia. apply IH; [lia|lia|unfold zlen; lia].
    + destruct (Z.ltb_spec (Z.of_nat k) precision) as [Hkp|Hkp].
      * rewrite s32_small by (unfold zlen in Hx; lia). replace (Z.of_nat k + 1) with (Z.of_nat (S k)) by lia. apply IH; [lia|lia|unfold zlen; lia].
      * f_equal. unfold zlen in *. lia.
Qed.

(** A string the output buffer does not overlap. *)
Definition string_apart (s : Z) (x : list Z) : Prop := reads m0 s x /\ (s = 0 \/ s + zlen x + 1 <= dst \/ dst + size <= s).

Lemma string_apart_reads s x t out : string_apart s x -> holds m0 dst size t out -> reads (fo_mem out) s x.
Proof using Hsize.
  intros [[Hn Hr] Hd] Ht. split; [done|]. intros i Hi. rewrite <- (Hr i Hi). unfold char_at. destruct (Z.eqb_spec s 0); [done|].
  apply (holds_outside t out); [done|]. unfold zlen in Hd. lia.
Qed.

Lemma put_string_holds s x n i t out : string_apart s x -> (i + n <= length x)%nat -> holds m0 dst size t out ->
  zlen t + Z.of_nat n < 18446744073709551616 -> holds m0 dst size (t ++ take n (drop i x)) (put_string n (Z.of_nat i) s out).
Proof using Hsize.
  intros Hs. revert i t out. induction n as [|n IH]; intros i t out Hi Ht Hl; cbn [put_string]; [by rewrite take_0, app_nil_r|].
  destruct (string_apart_reads s x t out Hs Ht) as [_ Hr]. rewrite Hr by lia. destruct (lookup_lt_is_Some_2 x i ltac:(lia)) as [c Hc]. rewrite Hc. change (default 0 (Some c)) with c.
  rewrite (drop_S x c i Hc). cbn [take]. replace (t ++ c :: take n (drop (S i) x)) with ((t ++ [c]) ++ take n (drop (S i) x)) by (by rewrite <- app_assoc).
  replace (Z.of_nat i + 1) with (Z.of_nat (S i)) by lia. apply IH; [lia| |rewrite zlen_app; change (zlen [c]) with 1; lia]. apply putc_holds; [done|lia].
Qed.

(** Strings in a field. *)
Lemma string_holds s x precision (left : bool) width t out : string_apart s x -> holds m0 dst size t out ->
  zlen t + zlen (justify left width (cut_text precision x)) < 18446744073709551616 ->
  let len := zlen (cut_text precision x) in
  let out1 := if negb left then libc_format_pad 32 (width - len) out else out in
  let out2 := put_string (Z.to_nat len) 0 s out1 in
  holds m0 dst size (t ++ justify left width (cut_text precision x)) (if left then libc_format_pad 32 (width - len) out2 else out2).
Proof using Hsize.
  intros Hs Ht Hl len out1 out2. set (y := cut_text precision x) in *. pose proof (zlen_nonneg t). pose proof (zlen_nonneg y).
  assert (Hy : y = take (Z.to_nat len) (drop 0 x) /\ (Z.to_nat len <= length x)%nat).
  { unfold len, y, cut_text, zlen. rewrite drop_0. destruct (precision <? 0); rewrite Nat2Z.id.
    - by rewrite take_ge by lia.
    - rewrite length_take. split; [|lia]. by rewrite <- take_take, (take_ge x (length x)) by lia. }
  destruct Hy as [Hy Hly].
  assert (Hput : forall t out, holds m0 dst size t out -> zlen t + zlen y < 18446744073709551616 -> holds m0 dst size (t ++ y) (put_string (Z.to_nat len) 0 s out)).
  { intros t' out' Ht' Hl'. rewrite Hy. apply (put_string_holds s x _ 0); [done|lia|done|]. unfold len, zlen in *. lia. }
  unfold justify in *. fold len in Hl |- *. unfold out2, out1. destruct left; cbn [negb]; rewrite zlen_app in Hl; unfold spaces in *; rewrite zlen_pad in Hl.
  - rewrite app_assoc. apply pad_holds; [|rewrite zlen_app; lia]. apply Hput; [done|lia].
  - rewrite app_assoc. apply Hput; [|rewrite zlen_app, zlen_pad; lia]. apply pad_holds; [done|lia].
Qed.

(** ** Directives *)

Context (strs : Z -> list Z) (fuel : nat).

Definition pointed (p : Z) : list Z := if p =? 0 then null_text else strs p.
Definition arg_ok (a : va_arg) : Prop :=
  match a with ArgInt _ => True | ArgPtr p => string_apart (u64 p) (pointed (u64 p)) /\ (length (pointed (u64 p)) < fuel)%nat /\ zlen (pointed (u64 p)) <= INT_MAX end.

Lemma next_int_inv ap v ap' : next_int ap = Some (v, ap') -> ap = ArgInt v :: ap'.
Proof. destruct ap as [|[w|p] ap0]; cbn; congruence. Qed.

Lemma next_ptr_inv ap p ap' : next_ptr ap = Some (p, ap') -> exists q, ap = ArgPtr q :: ap' /\ p = u64 q.
Proof. destruct ap as [|[w|q] ap0]; cbn; try congruence. intros [= <- <-]. by exists q. Qed.

Lemma magnitude_abs v : - 9223372036854775808 <= v < 9223372036854775808 -> magnitude v = Z.abs v.
Proof. intros Hv. unfold magnitude. destruct (Z.ltb_spec v 0); rewrite !u64_small; try cint; rewrite ?u64_small by cint; cint. Qed.

Lemma signed_arg_range len v : - 9223372036854775808 <= signed_arg len v < 9223372036854775808.
Proof.
  unfold signed_arg, s64, s32, s16, s8. pose proof (u64_range v) as H1. assert (H2 : forall x, 0 <= u16 x < 65536) by (intros; apply Z.mod_pos_bound; lia).
  assert (H3 : forall x, 0 <= u8 x < 256) by (intros; apply Z.mod_pos_bound; lia). assert (H4 : forall x, 0 <= u32 x < 4294967296) by (intros; apply Z.mod_pos_bound; lia).
  unfold is_u64 in H1.
  destruct (_ || _ || _ || _); [destruct (Z.ltb_spec (u64 v) 9223372036854775808); lia|]. set (w := if u32 v <? 2147483648 then u32 v else u32 v - 4294967296).
  destruct (len =? -1); [specialize (H2 w); destruct (Z.ltb_spec (u16 w) 32768); lia|]. destruct (len =? -2); [specialize (H3 w); destruct (Z.ltb_spec (u8 w) 128); lia|].
  unfold w. specialize (H4 v). destruct (Z.ltb_spec (u32 v) 2147483648); lia.
Qed.

Lemma char_holds c (left : bool) width t out : holds m0 dst size t out -> zlen t + zlen (justify left width [c]) < 18446744073709551616 ->
  let out1 := if negb left then libc_format_pad 32 (width - 1) out else out in
  let out2 := libc_format_putc c out1 in
  holds m0 dst size (t ++ justify left width [c]) (if left then libc_format_pad 32 (width - 1) out2 else out2).
Proof using Hsize.
  intros Ht Hl. cbn zeta. pose proof (zlen_nonneg t). unfold justify in *. change (zlen [c]) with 1 in *.
  destruct left; cbn [negb] in *; rewrite app_assoc; rewrite zlen_app in Hl; unfold spaces in *; rewrite zlen_pad in Hl; change (zlen [c]) with 1 in *.
  - apply pad_holds; [|rewrite zlen_app; change (zlen [c]) with 1; lia]. apply putc_holds; [done|lia].
  - apply putc_holds; [|rewrite zlen_app, zlen_pad; lia]. apply pad_holds; [done|lia].
Qed.

Lemma percent_holds (left zero : bool) width t out :
  let text := if left then 37 :: spaces (width - 1) else (if zero then zeroes (width - 1) else spaces (width - 1)) ++ [37] in
  holds m0 dst size t out -> zlen t + zlen text < 18446744073709551616 ->
  let out1 := if negb left && negb zero then libc_format_pad 32 (width - 1) out else out in
  let out2 := if negb left && zero then libc_format_pad 48 (width - 1) out1 else out1 in
  let out3 := libc_format_putc 37 out2 in
  holds m0 dst size (t ++ text) (if left then libc_format_pad 32 (width - 1) out3 else out3).
Proof using Hsize.
  intros text Ht Hl. cbn zeta. pose proof (zlen_nonneg t). unfold text, spaces, zeroes in *. destruct left; cbn [negb andb].
  - change (37 :: replicate (Z.to_nat (width - 1)) 32) with ([37] ++ replicate (Z.to_nat (width - 1)) 32) in *. rewrite app_assoc. rewrite zlen_app, zlen_pad in Hl.
    change (zlen [37]) with 1 in Hl. apply pad_holds; [|rewrite zlen_app; change (zlen [37]) with 1; lia]. apply putc_holds; [done|lia].
  - rewrite zlen_app in Hl. change (zlen [37]) with 1 in Hl. rewrite app_assoc.
    destruct zero; cbn [negb]; rewrite zlen_pad in Hl; (apply putc_holds; [|rewrite zlen_app, zlen_pad; lia]); (apply pad_holds; [done|lia]).
Qed.

Lemma format_spec_ok spec d ap ap' text t out : 0 <= dr_width d <= INT_MAX -> -1 <= dr_precision d <= INT_MAX - 3 -> Forall arg_ok ap -> spec_text strs spec d ap = Some (ap', text) ->
  holds m0 dst size t out -> zlen t + zlen text < 18446744073709551616 ->
  exists out', format_spec fuel spec d ap out = Some (ap', out') /\ holds m0 dst size (t ++ text) out' /\ Forall arg_ok ap'.
Proof using Hsize.
  intros Hwd Hpr Ha E Ht Hl. unfold spec_text, format_spec in *. cbn zeta in E. rewrite (s32_small (dr_width d - 1)) by (unfold INT_MAX in Hwd; lia).
  destruct (spec =? 115).
  { destruct (next_ptr ap) as [[s ap1]|] eqn:En; [|done]. cbn [mbind option_bind] in *. injection E as <- <-.
    apply next_ptr_inv in En as (q & -> & ->). apply Forall_cons_1 in Ha as [(Ha1 & Ha2 & Ha3) Ha].
    rewrite (strnlen_ok _ _ _ _ (pointed (u64 q))) by (done || by eapply string_apart_reads). cbn [mbind option_bind].
    rewrite s32_small by (pose proof (cut_text_length (dr_precision d) (pointed (u64 q))); pose proof (zlen_nonneg (cut_text (dr_precision d) (pointed (u64 q)))); unfold INT_MAX in *; lia).
    eexists. split; [done|]. split; [|done]. by apply (string_holds (u64 q) (pointed (u64 q))). }
  destruct (spec =? 99).
  { destruct (next_int ap) as [[v ap1]|] eqn:En; [|done]. cbn [mbind option_bind] in *. injection E as <- <-.
    apply next_int_inv in En as ->. apply Forall_cons_1 in Ha as [_ Ha]. eexists. split; [done|]. split; [|done]. by apply char_holds. }
  destruct ((spec =? 100) || (spec =? 105)).
  { destruct (next_int ap) as [[v ap1]|] eqn:En; [|done]. cbn [mbind option_bind] in *. injection E as <- <-.
    apply next_int_inv in En as ->. apply Forall_cons_1 in Ha as [_ Ha]. eexists. split; [done|]. split; [|done].
    rewrite magnitude_abs by apply signed_arg_range. apply write_number_holds with (pointer := false); [exact Hwd|exact Hpr|exact Ht|exact Hl]. }
  destruct ((spec =? 117) || (spec =? 120) || (spec =? 88) || (spec =? 111)).
  { destruct (next_int ap) as [[v ap1]|] eqn:En; [|done]. cbn [mbind option_bind] in *. injection E as <- <-.
    apply next_int_inv in En as ->. apply Forall_cons_1 in Ha as [_ Ha]. eexists. split; [done|]. split; [|done].
    apply write_number_holds with (pointer := false) (negative := false) (plus := false) (space := false); [exact Hwd|exact Hpr|exact Ht|exact Hl]. }
  destruct (spec =? 112).
  { destruct (next_ptr ap) as [[s ap1]|] eqn:En; [|done]. cbn [mbind option_bind] in *. injection E as <- <-.
    apply next_ptr_inv in En as (q & -> & ->). apply Forall_cons_1 in Ha as [_ Ha]. eexists. split; [done|]. split; [|done].
    apply write_number_holds with (pointer := true) (negative := false) (plus := false) (space := false) (alt := false); [exact Hwd|exact Hpr|exact Ht|exact Hl]. }
  destruct (spec =? 37).
  { injection E as <- <-. eexists. split; [done|]. split; [|done]. by apply percent_holds. }
  injection E as <- <-. eexists. split; [done|]. split; [|done]. change [37; spec] with ([37] ++ [spec]) in *. rewrite app_assoc. rewrite zlen_app in Hl.
  change (zlen [37]) with 1 in *. change (zlen [spec]) with 1 in *. pose proof (zlen_nonneg t).
  apply putc_holds; [|rewrite zlen_app; change (zlen [37]) with 1; lia]. apply putc_holds; [done|lia].
Qed.

(** ** The loop over the format *)

(** A directive takes some arguments and leaves a shorter format. *)
Lemma parse_width_inv fmt ap d d' fmt' ap' : parse_width fmt ap d = Some (d', fmt', ap') -> (exists l, ap = l ++ ap') /\ (length fmt' <= length fmt)%nat.
Proof.
  unfold parse_width. destruct (first_is 42 fmt).
  - destruct (next_int ap) as [[w ap1]|] eqn:En; [|done]. intros [= _ <- <-]. apply next_int_inv in En as ->. split; [by exists [ArgInt w]|]. rewrite length_drop. lia.
  - assert (Hp : forall n, (length (snd (parse_int fmt n)) <= length fmt)%nat).
    { induction fmt as [|c fmt IH]; intros n; cbn [parse_int]; [cbn; lia|]. destruct (_ && _); [etrans; [apply IH|cbn; lia]|cbn; lia]. }
    specialize (Hp 0). destruct (parse_int fmt 0) as [w fmt1]. intros [= _ <- <-]. split; [by exists []|done].
Qed.

Lemma parse_precision_inv fmt ap d d' fmt' ap' : parse_precision fmt ap d = Some (d', fmt', ap') -> (exists l, ap = l ++ ap') /\ (length fmt' <= length fmt)%nat.
Proof.
  unfold parse_precision. destruct (first_is 46 fmt); [|intros [= _ <- <-]; split; [by exists []|done]]. destruct (first_is 42 (drop 1 fmt)).
  - destruct (next_int ap) as [[w ap1]|] eqn:En; [|done]. intros [= _ <- <-]. apply next_int_inv in En as ->. split; [by exists [ArgInt w]|]. rewrite !length_drop. lia.
  - assert (Hp : forall l n, (length (snd (parse_int l n)) <= length l)%nat).
    { induction l as [|c l IH]; intros n; cbn [parse_int]; [cbn; lia|]. destruct (_ && _); [etrans; [apply IH|cbn; lia]|cbn; lia]. }
    specialize (Hp (drop 1 fmt) 0). destruct (parse_int (drop 1 fmt) 0) as [w fmt1]. intros [= _ <- <-]. split; [by exists []|].
    cbn [snd] in Hp. rewrite length_drop in Hp. lia.
Qed.

Lemma parse_flags_length fmt d : (length (snd (parse_flags fmt d)) <= length fmt)%nat.
Proof.
  revert d. induction fmt as [|c fmt IH]; intros d; cbn [parse_flags]; [done|].
  repeat match goal with |- context [if ?b then _ else _] => destruct b; [etrans; [apply IH|cbn; lia]|] end. done.
Qed.

Lemma parse_length_length fmt d : (length (snd (parse_length fmt d)) <= length fmt)%nat.
Proof. unfold parse_length. repeat case_match; cbn [snd]; rewrite ?length_drop; lia. Qed.

Lemma parse_directive_inv fmt ap d fmt' ap' : parse_directive fmt ap = Some (d, fmt', ap') -> (exists l, ap = l ++ ap') /\ (length fmt' <= length fmt)%nat.
Proof.
  unfold parse_directive. pose proof (parse_flags_length fmt no_flags) as L1. destruct (parse_flags fmt no_flags) as [d1 fmt1]. cbn [snd] in L1.
  destruct (parse_width fmt1 ap d1) as [[[d2 fmt2] ap2]|] eqn:E2; [|done]. apply parse_width_inv in E2 as [(l2 & ->) L2]. cbn [mbind option_bind].
  destruct (parse_precision fmt2 ap2 d2) as [[[d3 fmt3] ap3]|] eqn:E3; [|done]. apply parse_precision_inv in E3 as [(l3 & ->) L3]. cbn [mbind option_bind].
  pose proof (parse_length_length fmt3 d3) as L4. destruct (parse_length fmt3 d3) as [d4 fmt4]. cbn [snd] in L4. intros [= _ <- <-].
  split; [exists (l2 ++ l3); by rewrite <- app_assoc|lia].
Qed.

Lemma format_loop_ok n fmt ap text t out : Forall arg_ok ap -> text_loop n strs fmt ap = Some text -> holds m0 dst size t out ->
  zlen t + zlen text < 18446744073709551616 -> exists out', format_loop n fuel fmt ap out = Some out' /\ holds m0 dst size (t ++ text) out'.
Proof using Hsize.
  revert fmt ap text t out. induction n as [|n IH]; intros fmt ap text t out Ha E Ht Hl; destruct fmt as [|c fmt]; cbn [text_loop format_loop] in *.
  - injection E as <-. exists out. by rewrite app_nil_r.
  - done.
  - injection E as <-. exists out. by rewrite app_nil_r.
  - destruct (c =? 37); cbn [negb] in *.
    + destruct (read_directive fmt ap) as [[[d fmt1] ap1]|] eqn:Er; [|done]. apply read_directive_ok in Er as (Ep & Hwd & Hpr). rewrite Ep. cbn [mbind option_bind] in *.
      apply parse_directive_inv in Ep as [(l & ->) _]. apply Forall_app in Ha as [_ Ha]. destruct fmt1 as [|spec fmt1].
      { injection E as <-. exists out. by rewrite app_nil_r. }
      destruct (spec_text strs spec d ap1) as [[ap2 t1]|] eqn:Es; [|done]. cbn [mbind option_bind] in *.
      destruct (text_loop n strs fmt1 ap2) as [t2|] eqn:El; [|done]. cbn [mbind option_bind] in *. injection E as <-. rewrite zlen_app in Hl.
      pose proof (zlen_nonneg t2). destruct (format_spec_ok spec d ap1 ap2 t1 t out Hwd Hpr Ha Es Ht) as (out1 & F1 & F2 & F3); [lia|].
      rewrite F1. cbn [mbind option_bind]. destruct (IH fmt1 ap2 t2 (t ++ t1) out1 F3 El F2) as (out' & I1 & I2); [rewrite zlen_app; lia|].
      exists out'. split; [done|]. by rewrite app_assoc.
    + destruct (text_loop n strs fmt ap) as [t2|] eqn:El; [|done]. cbn [mbind option_bind] in *. injection E as <-.
      change (c :: t2) with ([c] ++ t2) in *. rewrite zlen_app in Hl. change (zlen [c]) with 1 in Hl. pose proof (zlen_nonneg t2).
      destruct (IH fmt ap t2 (t ++ [c]) (libc_format_putc c out) Ha El) as (out' & I1 & I2);
        [apply putc_holds; [done|lia]|rewrite zlen_app; change (zlen [c]) with 1; lia|].
      exists out'. split; [done|]. by rewrite app_assoc.
Qed.

(** The terminator goes behind what fits. *)
Lemma holds_terminated t out : holds m0 dst size t out -> dst <> 0 -> size <> 0 -> let n := Z.min (zlen t) (size - 1) in
  let m' := put (fo_mem out) (dst + n) 0 in
  same_off dst (Z.min (zlen t + 1) size) m0 m' /\ mem_list (Z.to_nat n) m' dst = take (Z.to_nat n) t /\ m' (dst + n) = 0.
Proof using Hsize.
  intros [_ _ _ D4] E0 Es n m'. unfold is_u64 in Hsize. pose proof (zlen_nonneg t) as H0.
  assert (Hbb : forall x, fo_mem out x = if (dst <=? x) && (x <? dst + n) then default 0 (t !! Z.to_nat (x - dst)) else m0 x).
  { intros x. rewrite D4. unfold buffer_byte. by rewrite (proj2 (Z.eqb_neq dst 0)), (proj2 (Z.eqb_neq size 0)) by done. }
  unfold m'. split; [|split; [|apply put_eq]].
  - intros x Hx. rewrite put_ne by lia. rewrite Hbb. destruct (Z.leb_spec dst x), (Z.ltb_spec x (dst + n)); cbn [andb]; (done || lia).
  - assert (Hn : (Z.to_nat n <= length t)%nat) by (unfold n, zlen in *; lia).
    apply list_eq_same_length with (Z.to_nat n); [rewrite length_take; lia|apply length_mem_list|]. intros i x y Hi. rewrite lookup_mem_list, lookup_take_lt by done.
    rewrite put_ne by lia. rewrite Hbb. destruct (Z.leb_spec dst (dst + Z.of_nat i)), (Z.ltb_spec (dst + Z.of_nat i) (dst + n)); cbn [andb]; try lia.
    replace (Z.to_nat (dst + Z.of_nat i - dst)) with i by lia. destruct (lookup_lt_is_Some_2 t i ltac:(lia)) as [c Hc]. rewrite Hc. cbn. congruence.
Qed.

Lemma vsnprintf_ok fmt ap text : Forall arg_ok ap -> format_text strs fmt ap = Some text -> zlen text < 18446744073709551616 -> 0 <= dst ->
  exists m', vsnprintf fuel dst size fmt ap m0 = Some (Z.min (zlen text) INT_MAX, m') /\
    same_off dst (if dst =? 0 then 0 else Z.min (zlen text + 1) size) m0 m' /\
    (dst <> 0 -> 0 < size -> let n := Z.to_nat (Z.min (zlen text) (size - 1)) in mem_list n m' dst = take n text /\ m' (dst + Z.of_nat n) = 0).
Proof using Hsize.
  intros Ha E Hl Hd. unfold vsnprintf. unfold format_text in E.
  destruct (format_loop_ok (length fmt) fmt ap text [] (FormatOut dst size 0 m0) Ha E) as (out & F1 & F2); [|unfold zlen at 1; cbn [length]; lia|].
  { split; [done|done|done|]. intros x. unfold buffer_byte. destruct (negb _ && negb (size =? 0) && (dst <=? x) && _) eqn:Eb; [|done]. bool_prop. change (zlen []) with 0 in *. lia. }
  rewrite F1. cbn [mbind option_bind app] in *. destruct F2 as [D1 D2 D3 D4]. rewrite D3. pose proof (zlen_nonneg text) as H0. unfold is_u64 in Hsize.
  eexists. split; [f_equal; f_equal; destruct (Z.ltb_spec INT_MAX (zlen text)); lia|]. destruct (Z.eqb_spec dst 0) as [E0|E0]; cbn [negb andb].
  { split; [|done]. intros x _. rewrite D4. unfold buffer_byte. by rewrite E0. }
  destruct (Z.eqb_spec size 0) as [Es|Es]; cbn [negb andb].
  { split; [|lia]. intros x _. rewrite D4. unfold buffer_byte. by rewrite Es, andb_false_r. }
  pose proof (holds_terminated text out (Build_holds _ _ _ _ _ D1 D2 D3 D4) E0 Es) as (T1 & T2 & T3). cbn zeta in *.
  replace (if zlen text <? size then zlen text else size - 1) with (Z.min (zlen text) (size - 1)) by (destruct (Z.ltb_spec (zlen text) size); lia).
  split; [done|]. intros _ _. rewrite Z2Nat.id by lia. done.
Qed.
End buffer.

(** The rounds of the loop are enough: more change nothing. *)
Lemma format_loop_rounds n1 n2 fuel fmt ap out : (length fmt <= n1)%nat -> (length fmt <= n2)%nat ->
  format_loop n1 fuel fmt ap out = format_loop n2 fuel fmt ap out.
Proof.
  revert n2 fmt ap out. induction n1 as [|n1 IH]; intros n2 fmt ap out H1 H2; destruct fmt as [|c fmt]; cbn [length] in *; try lia; [by destruct n2|by destruct n2|].
  destruct n2 as [|n2]; [lia|]. cbn [format_loop]. destruct (negb (c =? 37)); [apply IH; lia|].
  destruct (parse_directive fmt ap) as [[[d fmt1] ap1]|] eqn:Ep; [|done]. cbn [mbind option_bind]. apply parse_directive_inv in Ep as [_ Hl].
  destruct fmt1 as [|spec fmt1]; [done|]. cbn [length] in Hl. destruct (format_spec fuel spec d ap1 out) as [[ap2 out2]|]; [|done]. cbn [mbind option_bind]. apply IH; lia.
Qed.

(** Beyond an [int] the width wraps: a field of 3000000000 columns is
    printed without any padding. *)
Lemma wide_field_lost m : vsnprintf 1 0 0 [37; 51; 48; 48; 48; 48; 48; 48; 48; 48; 48; 100] [ArgInt 5] m = Some (1, m) /\
  read_width [51; 48; 48; 48; 48; 48; 48; 48; 48; 48; 100] [] no_flags = Some (with_width false 3000000000 no_flags, [100], []).
Proof. done. Qed.

(** ** Printed numbers are read back *)

Lemma digit_char_value up d : 0 <= d < 16 -> libc_digit_value (digit_char up d) = d.
Proof.
  intros Hd. assert (Hc : forall i, (i < 16)%nat -> libc_digit_value (digit_char up (Z.of_nat i)) = Z.of_nat i).
  { intros i Hi. do 16 (destruct i as [|i]; [by destruct up|]). lia. }
  specialize (Hc (Z.to_nat d)). rewrite Z2Nat.id in Hc by lia. apply Hc. lia.
Qed.

(** A run of digits of [value], most significant first. *)
Record numeral_of (base value : Z) (ds : list Z) : Prop := {
  no_value : digits_value base ds = value;
  no_digits : Forall (fun c => is_digit base c = true) ds;
  no_nonempty : ds <> []
}.

Lemma uint_loop_ok fuel value base up tmp : 2 <= base <= 16 -> 0 < value -> value < base ^ Z.of_nat fuel ->
  exists ds, uint_loop fuel value base up tmp = ds ++ tmp /\ numeral_of base value ds /\ (length ds <= fuel)%nat.
Proof.
  intros Hb. revert value tmp. induction fuel as [|fuel IH]; intros value tmp Hv Hf.
  { change (base ^ Z.of_nat 0) with 1 in Hf. lia. }
  cbn [uint_loop]. rewrite (proj2 (Z.eqb_neq value 0)) by lia. rewrite Nat2Z.inj_succ, Z.pow_succ_r in Hf by lia.
  pose proof (Z.mod_pos_bound value base ltac:(lia)) as Hm. set (c := digit_char up (value mod base)).
  assert (Hc : libc_digit_value c = value mod base) by (apply digit_char_value; lia).
  assert (Hcd : is_digit base c = true) by (unfold is_digit; rewrite Hc; apply andb_true_iff; split; [apply Z.leb_le|apply Z.ltb_lt]; lia).
  pose proof (Z.div_mod value base ltac:(lia)) as Hdm. assert (0 <= value / base) by (apply Z.div_pos; lia).
  destruct (Z.eq_dec (value / base) 0) as [E|E].
  - exists [c]. split; [|split; [split; [|by constructor|done]|cbn; lia]].
    + rewrite E. by destruct fuel.
    + cbn. rewrite Hc. lia.
  - destruct (IH (value / base) (c :: tmp)) as (ds & E1 & [D1 D2 D3] & D4); [lia|apply Z.div_lt_upper_bound; lia|].
    exists (ds ++ [c]). split; [by rewrite E1, <- app_assoc|]. split; [split|rewrite length_app; cbn; lia].
    + unfold digits_value in *. rewrite foldl_app, D1. cbn. rewrite Hc. lia.
    + apply Forall_app. split; [done|by constructor].
    + destruct ds; done.
Qed.

Lemma uint_loop_zero fuel base up tmp : uint_loop fuel 0 base up tmp = tmp.
Proof. by destruct fuel. Qed.

Lemma uint_loop_stable fuel value base up tmp : 2 <= base -> 0 <= value < base ^ Z.of_nat fuel ->
  uint_loop (S fuel) value base up tmp = uint_loop fuel value base up tmp.
Proof.
  intros Hb. revert value tmp. induction fuel as [|fuel IH]; intros value tmp Hv.
  - change (base ^ Z.of_nat 0) with 1 in Hv. replace value with 0 by lia. done.
  - rewrite Nat2Z.inj_succ, Z.pow_succ_r in Hv by lia. cbn [uint_loop]. destruct (value =? 0); [done|].
    apply (IH (value / base)). split; [apply Z.div_pos; lia|apply Z.div_lt_upper_bound; lia].
Qed.

(** [libc_format_uint] writes the digits of the value and never more than the
    64 its buffers have room for. *)
Lemma format_uint_ok value base up : 2 <= base <= 16 -> is_u64 value ->
  numeral_of base value (libc_format_uint value base up) /\ (length (libc_format_uint value base up) <= 64)%nat.
Proof.
  intros Hb Hv. unfold libc_format_uint. destruct (Z.eqb_spec value 0) as [->|Hn].
  - split; [|cbn; lia]. split; [done| |done]. constructor; [|constructor]. unfold is_digit. cbn. apply Z.ltb_lt. lia.
  - unfold is_u64 in Hv. assert (Hpos : 0 < value) by lia. assert (Hb2 : 2 <= base) by lia.
    assert (Hp : value < base ^ Z.of_nat 64).
    { apply Z.lt_le_trans with (2 ^ Z.of_nat 64); [exact (proj2 Hv)|]. apply Z.pow_le_mono_l. lia. }
    destruct (uint_loop_ok 64 value base up [] Hb Hpos Hp) as (ds & E & D & L). rewrite app_nil_r in E.
    pose proof (uint_loop_stable 64 value base up [] Hb2 (conj (proj1 Hv) Hp)) as E65.
    rewrite E65, E. exact (conj D L).
Qed.

Lemma take_while_id f x : Forall (fun c => f c = true) x -> take_while f x = x.
Proof. induction 1 as [|c x Hc _ IH]; cbn [take_while]; [done|]. by rewrite Hc, IH. Qed.

Lemma digit_range c : 0 <= libc_digit_value c -> 48 <= c <= 57 \/ 65 <= c <= 90 \/ 97 <= c <= 122.
Proof.
  unfold libc_digit_value. destruct (Z.leb_spec 48 c), (Z.leb_spec c 57), (Z.leb_spec 65 c), (Z.leb_spec c 90), (Z.leb_spec 97 c), (Z.leb_spec c 122); cbn [andb]; lia.
Qed.

Lemma digit_plain base c : is_digit base c = true -> libc_isspace c = false /\ c <> 45 /\ c <> 43.
Proof.
  unfold is_digit. intros Hc. bool_prop. destruct (digit_range c) as [?|[?|?]]; [lia|..]; (split; [|lia]); unfold libc_isspace;
    rewrite !(proj2 (Z.eqb_neq c _)) by lia; done.
Qed.

Lemma no_hex_prefix base ds : base <= 16 -> Forall (fun c => is_digit base c = true) ds -> hex_prefix ds = false.
Proof.
  intros Hb Hd. destruct ds as [|a [|b [|c ds]]]; try done. apply Forall_cons_1 in Hd as [_ Hd]. apply Forall_cons_1 in Hd as [Hd _].
  cbn [hex_prefix]. unfold is_digit in Hd. bool_prop. destruct (Z.eqb_spec b 120) as [->|]; [cbn in *; lia|]. destruct (Z.eqb_spec b 88) as [->|]; [cbn in *; lia|].
  cbn [orb]. by rewrite andb_false_r.
Qed.

(** A sign and digits are read as they were written. *)
Lemma read_numeral_text (neg : bool) base value ds : 2 <= base <= 16 -> numeral_of base value ds ->
  read_numeral base ((if neg then [45] else []) ++ ds) = Numeral neg base ds (length ((if neg then [45] else []) ++ ds)).
Proof.
  intros Hb [_ H2 H3]. assert (Hpre : list_prefix base ds = (base, ds)).
  { unfold list_prefix. rewrite (no_hex_prefix base ds) by (done || lia). rewrite andb_false_r. by rewrite (proj2 (Z.eqb_neq base 0)) by lia. }
  destruct ds as [|c ds]; [done|]. pose proof (Forall_inv H2) as Hc. cbn beta in Hc. destruct (digit_plain base c Hc) as (Hs & H45 & H43).
  unfold read_numeral. destruct neg.
  - change (drop_while libc_isspace ([45] ++ c :: ds)) with (45 :: c :: ds). cbn [list_sign]. cbn [Z.eqb Pos.eqb orb]. rewrite Hpre, take_while_id by done.
    f_equal. cbn [length app]. lia.
  - cbn [app drop_while]. rewrite Hs. cbn [list_sign]. rewrite (proj2 (Z.eqb_neq c 45)), (proj2 (Z.eqb_neq c 43)) by done. cbn [orb].
    rewrite Hpre, take_while_id by done. f_equal. cbn [length]. lia.
Qed.

(** [strtol] of [%ld] and [strtoul] of [%lu], [%lo] and [%lx] give the number back. *)
Lemma signed_roundtrip v nptr : exists text, format_text (fun _ => []) [37; 108; 100] [ArgInt v] = Some text /\
  strtol_spec 10 text nptr = StrtoResult (s64 v) (nptr + zlen text) None /\ (length text <= 65)%nat.
Proof.
  pose proof (signed_arg_range 1 v) as Hr. change (signed_arg 1 v) with (s64 v) in Hr.
  destruct (format_uint_ok (Z.abs (s64 v)) 10 false ltac:(lia) ltac:(cint)) as [Hn Hlen]. set (ds := libc_format_uint (Z.abs (s64 v)) 10 false) in *.
  set (sg := if s64 v <? 0 then [45] else []).
  assert (Et : format_text (fun _ => []) [37; 108; 100] [ArgInt v] = Some (sg ++ ds)).
  { transitivity (Some (number_text sg [] ds false false 0 (-1) ++ [])); [|f_equal; rewrite app_nil_r; unfold number_text, justify, spaces, zeroes].
    - assert (Er : read_directive [108; 100] [ArgInt v] = Some (Directive false false false false false 0 (-1) 1, [100], [ArgInt v])) by reflexivity.
      unfold format_text. cbn [length text_loop Z.eqb Pos.eqb negb]. rewrite Er. unfold sg, ds. by destruct (s64 v <? 0) eqn:Es; cbn; change (signed_arg 1 v) with (s64 v); rewrite Es.
    - pose proof (zlen_nonneg ds). cbn [andb]. rewrite (Z2Nat.nonpos (-1 - zlen ds)) by lia. cbn [replicate app].
      rewrite Z2Nat.nonpos by (pose proof (zlen_nonneg (sg ++ ds)); lia). done. }
  exists (sg ++ ds). split; [done|]. split; [|rewrite length_app; unfold sg; destruct (_ <? _); cbn; lia].
  unfold strtol_spec. change (bad_base 10) with false. cbn iota. unfold sg. rewrite (read_numeral_text _ 10 _ ds ltac:(lia) Hn). cbn [nm_neg nm_base nm_digits nm_length].
  pose proof Hn as [N1 _ N3]. rewrite N1. unfold zlen, LONG_MIN, LONG_MAX. destruct ds as [|c ds']; [done|].
  destruct (Z.ltb_spec (s64 v) 0); cbn iota.
  - destruct (Z.ltb_spec (- Z.abs (s64 v)) (- 0x8000000000000000)); [lia|]. destruct (Z.ltb_spec 0x7fffffffffffffff (- Z.abs (s64 v))); [lia|]. f_equal. lia.
  - destruct (Z.ltb_spec (Z.abs (s64 v)) (- 0x8000000000000000)); [lia|]. destruct (Z.ltb_spec 0x7fffffffffffffff (Z.abs (s64 v))); [lia|]. f_equal. lia.
Qed.

Lemma unsigned_roundtrip spec base v nptr : (spec, base) ∈ [(117, 10); (111, 8); (120, 16); (88, 16)] ->
  exists text, format_text (fun _ => []) [37; 108; spec] [ArgInt v] = Some text /\
    strtoul_spec base text nptr = StrtoResult (u64 v) (nptr + zlen text) None /\ (length text <= 64)%nat.
Proof.
  intros Hin. assert (Hb : 2 <= base <= 16).
  { rewrite !elem_of_cons, elem_of_nil in Hin. destruct Hin as [[= _ ->]|[[= _ ->]|[[= _ ->]|[[= _ ->]|[]]]]]; lia. }
  pose proof (u64_range v) as Hr. set (up := spec =? 88).
  destruct (format_uint_ok (u64 v) base up Hb Hr) as [Hn Hlen]. set (ds := libc_format_uint (u64 v) base up) in *.
  assert (Et : format_text (fun _ => []) [37; 108; spec] [ArgInt v] = Some ds).
  { transitivity (Some (number_text [] [] ds false false 0 (-1) ++ [])); [|f_equal; rewrite app_nil_r; unfold number_text, justify, spaces, zeroes].
    - unfold ds, up. rewrite !elem_of_cons, elem_of_nil in Hin. by destruct Hin as [[= -> ->]|[[= -> ->]|[[= -> ->]|[[= -> ->]|[]]]]].
    - pose proof (zlen_nonneg ds). cbn [andb]. rewrite (Z2Nat.nonpos (-1 - zlen ds)) by lia. cbn [replicate app].
      rewrite Z2Nat.nonpos by lia. done. }
  exists ds. split; [done|]. split; [|done].
  assert (Hbb : bad_base base = false).
  { unfold bad_base. rewrite (proj2 (Z.eqb_neq base 0)), (proj2 (Z.ltb_ge base 2)), (proj2 (Z.ltb_ge 36 base)) by lia. done. }
  unfold strtoul_spec. rewrite Hbb. pose proof (read_numeral_text false base _ ds Hb Hn) as Er. cbn [app] in Er. rewrite Er. cbn [nm_neg nm_base nm_digits nm_length].
  pose proof Hn as [N1 _ N3]. rewrite N1. unfold zlen. destruct ds as [|c ds']; [done|]. unfold ULONG_MAX, is_u64 in *.
  destruct (Z.ltb_spec 0xffffffffffffffff (u64 v)); [lia|done].
Qed.
