(* ===== verification/LibcTime.v ===== *)
(** Calendar time: kernel/core/libc.c, lines 1039-1254 (gmtime_r, mktime,
    strftime, strptime and their helpers).

    Times are seconds since 1970 in 64 bits; the year and the fields of a
    date are [int]s, whose arithmetic wraps at 32 bits here. The calendar is
    compared with the closed formula of the Gregorian calendar, for times
    within 6*10^16 seconds (1.9 billion years) of 1970: a later one wraps the
    year. *)
From Stdlib Require Import ZArith Lia.
From stdpp Require Import base tactics option list numbers.
From S2P Require Import Prelude.
From S2P Require Import Memory.
From S2P Require Import LibcString.
From S2P Require Import LibcNumber.
From S2P Require Import LibcFormat.
#[local] Open Scope Z_scope.

(** ** The code *)

Record tm : Type := Tm {
  tm_sec : Z;
  tm_min : Z;
  tm_hour : Z;
  tm_mday : Z;
  tm_mon : Z;
  tm_year : Z;
  tm_wday : Z;
  tm_yday : Z;
  tm_isdst : Z
}.

Definition libc_is_leap_year (year : Z) : bool :=
  ((Z.rem year 4 =? 0) && negb (Z.rem year 100 =? 0)) || (Z.rem year 400 =? 0).

Definition month_days : list Z := [31; 28; 31; 30; 31; 30; 31; 31; 30; 31; 30; 31].

Definition libc_days_in_month (year month : Z) : Z :=
  if (month =? 1) && libc_is_leap_year year then 29
  else if (month <? 0) || (12 <=? month) then 30
  else default 0 (month_days !! Z.to_nat month).

Definition year_days (year : Z) : Z := if libc_is_leap_year year then 366 else 365.

(** The loops of [libc_days_before_year]: [n] years from [y] on. *)
Fixpoint sum_years (n : nat) (y : Z) : Z :=
  match n with O => 0 | S n' => year_days y + sum_years n' (y + 1) end.

Definition libc_days_before_year (year : Z) : Z :=
  if 1970 <=? year then sum_years (Z.to_nat (year - 1970)) 1970 else - sum_years (Z.to_nat (1970 - year)) year.

(** [while (days >= year_days(year))] and [while (days < 0)]. *)
Fixpoint years_up (fuel : nat) (days year : Z) : Z * Z :=
  match fuel with
  | O => (days, year)
  | S fuel' => if year_days year <=? days then years_up fuel' (days - year_days year) (s32 (year + 1)) else (days, year)
  end.

Fixpoint years_down (fuel : nat) (days year : Z) : Z * Z :=
  match fuel with
  | O => (days, year)
  | S fuel' => if days <? 0 then years_down fuel' (days + year_days (s32 (year - 1))) (s32 (year - 1)) else (days, year)
  end.

Fixpoint months_up (fuel : nat) (year days mon : Z) : Z * Z :=
  match fuel with
  | O => (days, mon)
  | S fuel' => if libc_days_in_month year mon <=? days then months_up fuel' year (days - libc_days_in_month year mon) (mon + 1) else (days, mon)
  end.

(** A year has at least 365 days and 12 months. *)
Definition gmtime_r (timer : Z) : tm :=
  let days := Z.quot timer 86400 in
  let day_seconds := Z.rem timer 86400 in
  let '(days, day_seconds) := if day_seconds <? 0 then (days - 1, day_seconds + 86400) else (days, day_seconds) in
  let '(days, year) := years_up (Z.to_nat (days / 365 + 1)) days 1970 in
  let '(days, year) := years_down (Z.to_nat (- days / 365 + 1)) days year in
  let '(rest, mon) := months_up 12 year days 0 in
  let wday := Z.rem (4 + Z.quot timer 86400) 7 in
  Tm (Z.rem day_seconds 60) (Z.rem (Z.quot day_seconds 60) 60) (Z.quot day_seconds 3600) (rest + 1) mon (s32 (year - 1900))
    (if wday <? 0 then wday + 7 else wday) days 0.

Definition localtime_r := gmtime_r.

(** [for (month = 0; month < n; ++month) days += ...]. *)
Fixpoint sum_months (n : nat) (year month : Z) : Z :=
  match n with O => 0 | S n' => libc_days_in_month year month + sum_months n' year (month + 1) end.

Definition mktime (t : tm) : Z :=
  let year := s32 (tm_year t + 1900) in
  let days := libc_days_before_year year + sum_months (Z.to_nat (tm_mon t)) year 0 + s32 (tm_mday t - 1) in
  s64 (days * 86400 + s32 (tm_hour t * 3600) + s32 (tm_min t * 60) + tm_sec t).

(** ** Formatting *)

(** [if (pos + 1u < max) s[pos] = c; ++pos;] *)
Definition strftime_putc (s max c : Z) (st : Z * mem) : Z * mem :=
  let '(pos, m) := st in
  (u64 (pos + 1), if u64 (pos + 1) <? max then put m (s + pos) c else m).

Fixpoint libc_strftime_append (s max : Z) (text : list Z) (st : Z * mem) : Z * mem :=
  match text with [] => st | c :: text' => libc_strftime_append s max text' (strftime_putc s max c st) end.

(** The digits of [value] and leading zeros, the last digit first; [tmp] has
    room for 16. *)
Fixpoint strftime_digits (fuel : nat) (value : Z) : list Z :=
  match fuel with
  | O => []
  | S fuel' => (48 + Z.rem value 10) :: (if Z.quot value 10 =? 0 then [] else strftime_digits fuel' (Z.quot value 10))
  end.

Definition libc_strftime_number (s max value width : Z) (st : Z * mem) : Z * mem :=
  let value := if value <? 0 then s32 (- value) else value in
  let tmp := strftime_digits 16 value in
  let tmp := tmp ++ replicate (Z.to_nat (Z.min width 16 - zlen tmp)) 48 in
  libc_strftime_append s max (rev tmp) st.

(** One conversion of [strftime]. *)
Definition strftime_spec (s max : Z) (t : tm) (c : Z) (st : Z * mem) : Z * mem :=
  let number := libc_strftime_number s max in
  let append := libc_strftime_append s max in
  if c =? 89 then number (s32 (tm_year t + 1900)) 4 st
  else if c =? 109 then number (s32 (tm_mon t + 1)) 2 st
  else if c =? 100 then number (tm_mday t) 2 st
  else if c =? 72 then number (tm_hour t) 2 st
  else if c =? 77 then number (tm_min t) 2 st
  else if c =? 83 then number (tm_sec t) 2 st
  else if c =? 70 then
    number (tm_mday t) 2 (append [45] (number (s32 (tm_mon t + 1)) 2 (append [45] (number (s32 (tm_year t + 1900)) 4 st))))
  else if c =? 84 then
    number (tm_sec t) 2 (append [58] (number (tm_min t) 2 (append [58] (number (tm_hour t) 2 st))))
  else if c =? 115 then number (s32 (mktime t)) 1 st
  else if c =? 37 then append [37] st
  else strftime_putc s max c (append [37] st).

Fixpoint strftime_loop (s max : Z) (format : list Z) (t : tm) (st : Z * mem) : Z * mem :=
  match format with
  | [] => st
  | c :: format' =>
      if negb (c =? 37) then strftime_loop s max format' t (strftime_putc s max c st)
      else match format' with
           | [] => st
           | d :: format'' => strftime_loop s max format'' t (strftime_spec s max t d st)
           end
  end.

Definition strftime (s max : Z) (format : list Z) (t : tm) (m : mem) : Z * mem :=
  if max =? 0 then (0, m)
  else
    let '(pos, m) := strftime_loop s max format t (0, m) in
    if max <=? pos then (0, put m (s + (max - 1)) 0) else (pos, put m (s + pos) 0).

(** [strptime] reads the format "%s" only: the result pointer, 0 for none,
    and the time; [None] is a null pointer. *)
Definition strptime (fuel : nat) (m : mem) (s : Z) (format : option (list Z)) (t : option tm) : option (Z * option tm) :=
  match format, t with
  | Some format, Some _ =>
      if s =? 0 then Some (0, t)
      else if negb (str_diff format [37; 115] =? 0) then Some (s, t)
      else
        r ← strtol fuel m s 10;
        if so_end r =? s then Some (0, t) else Some (so_end r, Some (gmtime_r (so_value r)))
  | _, _ => Some (0, t)
  end.

(** ** The calendar *)

(** Leap years up to year [y]. *)
Definition leaps (y : Z) : Z := y / 4 - y / 100 + y / 400.

(** Days from the epoch to the start of year [y]. *)
Definition days_to_year (y : Z) : Z := 365 * (y - 1970) + (leaps (y - 1) - leaps 1969).

Lemma rem_zero a b : 0 < b -> (Z.rem a b =? 0) = (a mod b =? 0).
Proof.
  intros Hb. destruct (Z.eqb_spec (Z.rem a b) 0) as [E|E], (Z.eqb_spec (a mod b) 0) as [F|F]; try done; exfalso.
  - apply F. apply Z.mod_divide; [lia|]. by apply Z.rem_divide in E; [|lia].
  - apply E. apply Z.rem_divide; [lia|]. by apply Z.mod_divide in F; [|lia].
Qed.

Lemma year_days_leaps y : year_days y = 365 + (leaps y - leaps (y - 1)).
Proof.
  unfold year_days, libc_is_leap_year, leaps. rewrite !rem_zero by lia.
  destruct (Z.eqb_spec (y mod 4) 0), (Z.eqb_spec (y mod 100) 0), (Z.eqb_spec (y mod 400) 0); cbn [andb orb negb]; Z.div_mod_to_equations; lia.
Qed.

Lemma year_days_bounds y : 365 <= year_days y <= 366.
Proof. unfold year_days. destruct (libc_is_leap_year y); lia. Qed.

Lemma days_to_year_next y : days_to_year (y + 1) = days_to_year y + year_days y.
Proof. rewrite year_days_leaps. unfold days_to_year. replace (y + 1 - 1) with y by lia. lia. Qed.

Lemma sum_years_ok n y : sum_years n y = days_to_year (y + Z.of_nat n) - days_to_year y.
Proof.
  revert y. induction n as [|n IH]; intros y; cbn [sum_years]; [rewrite Z.add_0_r; lia|].
  rewrite IH. replace (y + Z.of_nat (S n)) with (y + 1 + Z.of_nat n) by lia. pose proof (days_to_year_next y). lia.
Qed.

(** The loop agrees with the formula. *)
Lemma days_before_year_ok y : libc_days_before_year y = days_to_year y.
Proof.
  assert (H0 : days_to_year 1970 = 0) by done. unfold libc_days_before_year. destruct (Z.leb_spec 1970 y); rewrite sum_years_ok.
  - replace (1970 + Z.of_nat (Z.to_nat (y - 1970))) with y by lia. lia.
  - replace (y + Z.of_nat (Z.to_nat (1970 - y))) with 1970 by lia. lia.
Qed.

(** The loops over the years end in the year that holds the day. *)
Lemma years_up_ok fuel days year : days / 365 < Z.of_nat fuel -> - 2147483648 <= year -> year + days / 365 + 1 < 2147483648 -> let '(d, y) := years_up fuel days year in
  days_to_year y + d = days_to_year year + days /\ year <= y /\ y <= year + Z.max 0 (days / 365 + 1) /\ (0 <= days -> 0 <= d) /\ (days < 0 -> d = days /\ y = year) /\ d < year_days y.
Proof.
  revert days year. induction fuel as [|fuel IH]; intros days year Hf Hy Hb; cbn [years_up].
  { pose proof (year_days_bounds year). assert (days < 0) by (Z.div_mod_to_equations; lia). split_and!; (done || lia). }
  pose proof (year_days_bounds year). destruct (Z.leb_spec (year_days year) days) as [Hle|Hgt]; [|split_and!; (done || lia)].
  assert (1 <= days / 365) by (Z.div_mod_to_equations; lia). rewrite s32_small by lia.
  assert ((days - year_days year) / 365 <= days / 365 - 1) by (Z.div_mod_to_equations; lia).
  specialize (IH (days - year_days year) (year + 1)). destruct (years_up fuel (days - year_days year) (year + 1)) as [d y].
  destruct IH as (I1 & I2 & I3 & I4 & I5 & I6); [lia|lia|lia|]. pose proof (days_to_year_next year). split_and!; (done || lia).
Qed.

Lemma years_down_ok fuel days year : - days / 365 < Z.of_nat fuel -> days < year_days year -> year < 2147483648 -> - 2147483647 <= year - Z.max 0 (- days / 365 + 1) -> let '(d, y) := years_down fuel days year in
  days_to_year y + d = days_to_year year + days /\ year - Z.max 0 (- days / 365 + 1) <= y <= year /\ 0 <= d < year_days y.
Proof.
  revert days year. induction fuel as [|fuel IH]; intros days year Hf Hd Hy Hb; cbn [years_down].
  { assert (0 < days) by (Z.div_mod_to_equations; lia). lia. }
  destruct (Z.ltb_spec days 0) as [Hlt|Hge]; [|lia]. assert (0 <= - days / 365) by (Z.div_mod_to_equations; lia). rewrite s32_small by lia.
  pose proof (year_days_bounds (year - 1)). assert (- (days + year_days (year - 1)) / 365 <= - days / 365 - 1) by (Z.div_mod_to_equations; lia).
  specialize (IH (days + year_days (year - 1)) (year - 1)). destruct (years_down fuel (days + year_days (year - 1)) (year - 1)) as [d y].
  destruct IH as (I1 & I2 & I3); [lia|lia|lia|lia|]. pose proof (days_to_year_next (year - 1)) as Hn. replace (year - 1 + 1) with year in Hn by lia. lia.
Qed.

Lemma days_to_year_mono y1 y2 : y1 <= y2 -> days_to_year y1 + 365 * (y2 - y1) <= days_to_year y2.
Proof.
  intros Hy. pose proof (sum_years_ok (Z.to_nat (y2 - y1)) y1) as Hs. replace (y1 + Z.of_nat (Z.to_nat (y2 - y1))) with y2 in Hs by lia.
  assert (Hge : forall n y, 365 * Z.of_nat n <= sum_years n y).
  { induction n as [|n IH]; intros y; cbn [sum_years]; [lia|]. pose proof (year_days_bounds y). specialize (IH (y + 1)). lia. }
  specialize (Hge (Z.to_nat (y2 - y1)) y1). lia.
Qed.

(** A day belongs to one year. *)
Lemma year_unique y1 d1 y2 d2 : days_to_year y1 + d1 = days_to_year y2 + d2 -> 0 <= d1 < year_days y1 -> 0 <= d2 < year_days y2 -> y1 = y2 /\ d1 = d2.
Proof.
  intros E H1 H2. pose proof (days_to_year_next y1). pose proof (days_to_year_next y2).
  destruct (Z.lt_trichotomy y1 y2) as [Hlt|[->|Hlt]]; [|lia|].
  - pose proof (days_to_year_mono (y1 + 1) y2 ltac:(lia)). lia.
  - pose proof (days_to_year_mono (y2 + 1) y1 ltac:(lia)). lia.
Qed.

Lemma days_in_month_bounds y m : 28 <= libc_days_in_month y m <= 31.
Proof.
  unfold libc_days_in_month. destruct (_ && _); [lia|]. destruct (Z.ltb_spec m 0), (Z.leb_spec 12 m); cbn [orb]; try lia.
  assert (Hm : forall i, (i < 12)%nat -> 28 <= default 0 (month_days !! i) <= 31).
  { intros i Hi. do 12 (destruct i as [|i]; [cbn; lia|]). lia. }
  apply Hm. lia.
Qed.

Lemma year_months y : sum_months 12 y 0 = year_days y.
Proof. unfold year_days. cbn. unfold libc_days_in_month. by destruct (libc_is_leap_year y). Qed.

Lemma sum_months_app a b y m : sum_months (a + b) y m = sum_months a y m + sum_months b y (m + Z.of_nat a).
Proof.
  revert m. induction a as [|a IH]; intros m; cbn [Nat.add sum_months]; [by rewrite Z.add_0_r|]. rewrite IH.
  replace (m + 1 + Z.of_nat a) with (m + Z.of_nat (S a)) by lia. lia.
Qed.

Lemma sum_months_nonneg n y m : 28 * Z.of_nat n <= sum_months n y m.
Proof. revert m. induction n as [|n IH]; intros m; cbn [sum_months]; [lia|]. pose proof (days_in_month_bounds y m). specialize (IH (m + 1)). lia. Qed.

Lemma sum_months_year n y : (n <= 12)%nat -> 0 <= sum_months n y 0 <= 366.
Proof.
  intros Hn. pose proof (year_months y) as E. pose proof (year_days_bounds y). pose proof (sum_months_nonneg n y 0). replace 12%nat with (n + (12 - n))%nat in E by lia.
  rewrite sum_months_app in E. pose proof (sum_months_nonneg (12 - n) y (0 + Z.of_nat n)). lia.
Qed.

Lemma months_up_ok fuel year days mon : 0 <= days < sum_months fuel year mon -> let '(d, m) := months_up fuel year days mon in
  mon <= m < mon + Z.of_nat fuel /\ 0 <= d < libc_days_in_month year m /\ sum_months (Z.to_nat (m - mon)) year mon + d = days.
Proof.
  revert days mon. induction fuel as [|fuel IH]; intros days mon Hd; cbn [months_up sum_months] in *; [lia|].
  destruct (Z.leb_spec (libc_days_in_month year mon) days) as [Hle|Hgt]; [|rewrite Z.sub_diag; change (Z.to_nat 0) with 0%nat; cbn [sum_months]; lia].
  specialize (IH (days - libc_days_in_month year mon) (mon + 1)). destruct (months_up fuel year (days - libc_days_in_month year mon) (mon + 1)) as [d m].
  destruct IH as (I1 & I2 & I3); [lia|]. split; [lia|]. split; [done|]. replace (Z.to_nat (m - mon)) with (S (Z.to_nat (m - (mon + 1)))) by lia. cbn [sum_months]. lia.
Qed.

(** The broken-down time of a day and a second of it. *)
Record time_ok (t : tm) : Prop := {
  to_sec : 0 <= tm_sec t < 60;
  to_min : 0 <= tm_min t < 60;
  to_hour : 0 <= tm_hour t < 24;
  to_mon : 0 <= tm_mon t < 12;
  to_mday : 1 <= tm_mday t <= libc_days_in_month (tm_year t + 1900) (tm_mon t);
  to_yday : tm_yday t = sum_months (Z.to_nat (tm_mon t)) (tm_year t + 1900) 0 + (tm_mday t - 1)
}.

Lemma split_seconds timer : let days := Z.quot timer 86400 in let day_seconds := Z.rem timer 86400 in
  (if day_seconds <? 0 then (days - 1, day_seconds + 86400) else (days, day_seconds)) = (timer / 86400, timer mod 86400).
Proof.
  cbn zeta. pose proof (Z.quot_rem timer 86400 ltac:(lia)) as E. pose proof (Z.div_mod timer 86400 ltac:(lia)) as F. pose proof (Z.mod_pos_bound timer 86400 ltac:(lia)).
  pose proof (Z.rem_bound_abs timer 86400 ltac:(lia)). destruct (Z.ltb_spec (Z.rem timer 86400) 0); f_equal; lia.
Qed.

(** The times whose year and the dates whose time stay within [int] and
    [int64_t]. *)
Definition time_range (timer : Z) : Prop := - 60000000000000000 <= timer <= 60000000000000000.
Definition date_range (t : tm) : Prop := - 1900000000 <= tm_year t <= 1900000000.

Lemma gmtime_ok timer : time_range timer -> let g := gmtime_r timer in
  time_ok g /\ days_to_year (tm_year g + 1900) + tm_yday g = timer / 86400 /\ 0 <= tm_yday g < year_days (tm_year g + 1900) /\
  tm_hour g * 3600 + tm_min g * 60 + tm_sec g = timer mod 86400.
Proof.
  unfold time_range. intros Ht. unfold gmtime_r. rewrite split_seconds.
  assert (HD : - 694444444445 <= timer / 86400 <= 694444444444) by (Z.div_mod_to_equations; lia). set (D := timer / 86400) in *.
  assert (HD' : - 1902587521 <= D / 365 <= 1902587519) by (clearbody D; Z.div_mod_to_equations; lia). set (S := timer mod 86400). assert (HS : 0 <= S < 86400) by (apply Z.mod_pos_bound; lia).
  pose proof (years_up_ok (Z.to_nat (D / 365 + 1)) D 1970) as Hu. destruct (years_up _ D 1970) as [d1 y1]. destruct Hu as (U1 & U2 & Ub & U3 & U4 & U5); [lia|lia|lia|].
  assert (Hd1 : - d1 / 365 + 1 <= 1902587523) by (destruct (Z.lt_ge_cases D 0) as [Hn|Hn]; [destruct (U4 Hn); subst d1|specialize (U3 Hn)]; clearbody D; Z.div_mod_to_equations; lia).
  pose proof (years_down_ok (Z.to_nat (- d1 / 365 + 1)) d1 y1) as Hd. destruct (years_down _ d1 y1) as [d2 y2]. destruct Hd as (V1 & V2 & V3); [lia|done|lia|lia|].
  pose proof (months_up_ok 12 y2 d2 0) as Hm. rewrite year_months in Hm. destruct (months_up 12 y2 d2 0) as [d3 mon]. destruct Hm as (M1 & M2 & M3); [done|].
  rewrite Z.sub_0_r in M3. cbn zeta. cbn [tm_sec tm_min tm_hour tm_mday tm_mon tm_year tm_yday]. rewrite (s32_small (y2 - 1900)) by lia. replace (y2 - 1900 + 1900) with y2 by lia.
  rewrite !Z.quot_div_nonneg, !Z.rem_mod_nonneg by (try apply Z.div_pos; lia).
  change (days_to_year 1970) with 0 in U1.
  split; [|split; [lia|split; [done|Z.div_mod_to_equations; lia]]].
  split; cbn [tm_sec tm_min tm_hour tm_mday tm_mon tm_year tm_yday]; replace (y2 - 1900 + 1900) with y2 by lia; try lia; Z.div_mod_to_equations; lia.
Qed.

(** The year fits an [int] for every time within 1.9 billion years. *)
Lemma gmtime_bounds timer : time_range timer ->
  - 2147483648 <= tm_year (gmtime_r timer) <= 2147481747 /\ 0 <= tm_yday (gmtime_r timer) <= 365.
Proof.
  intros Ht. destruct (gmtime_ok timer Ht) as (_ & E1 & E2 & _). unfold time_range in Ht. pose proof (year_days_bounds (tm_year (gmtime_r timer) + 1900)). split; [|lia].
  set (y := tm_year (gmtime_r timer) + 1900) in *. assert (Hq : - 694444444445 <= timer / 86400 <= 694444444444) by (Z.div_mod_to_equations; lia).
  assert (days_to_year 1970 = 0) by done. destruct (Z.le_gt_cases 1970 y) as [Hy|Hy].
  - pose proof (days_to_year_mono 1970 y Hy). unfold y in *. lia.
  - pose proof (days_to_year_mono y 1970 ltac:(lia)). unfold y in *. lia.
Qed.

Lemma days_to_year_bound y : - 1900000000 <= y - 1900 <= 1900000000 -> - 693961000000 <= days_to_year y <= 693961000000.
Proof. unfold days_to_year, leaps. intros Hy. Z.div_mod_to_equations. lia. Qed.

(** No part of the sum of [mktime] wraps. *)
Lemma mktime_days t : time_ok t -> - 2147483648 <= tm_year t < 2147481748 -> mktime t = (days_to_year (tm_year t + 1900) + sum_months (Z.to_nat (tm_mon t)) (tm_year t + 1900) 0 + (tm_mday t - 1)) * 86400 +
  (tm_hour t * 3600 + tm_min t * 60 + tm_sec t).
Proof.
  intros [H1 H2 H3 H4 H5 _] Hy. unfold mktime. pose proof (days_in_month_bounds (tm_year t + 1900) (tm_mon t)). rewrite !(s32_small _) by lia. rewrite days_before_year_ok.
  assert (Hd : - 800000000000 <= days_to_year (tm_year t + 1900) <= 800000000000) by (unfold days_to_year, leaps; Z.div_mod_to_equations; lia).
  pose proof (sum_months_year (Z.to_nat (tm_mon t)) (tm_year t + 1900) ltac:(lia)). rewrite s64_id; lia.
Qed.

Lemma mktime_gmtime timer : time_range timer -> mktime (gmtime_r timer) = timer.
Proof.
  intros Ht. destruct (gmtime_ok timer Ht) as (Hok & H2 & _ & H4). pose proof (gmtime_bounds timer Ht). rewrite mktime_days, H4 by (done || lia). rewrite (to_yday _ Hok) in H2.
  pose proof (Z.div_mod timer 86400 ltac:(lia)). lia.
Qed.

(** A place in the year is one month and one day. *)
Lemma month_unique y m1 d1 m2 d2 : 0 <= m1 -> 0 <= m2 -> 0 <= d1 < libc_days_in_month y m1 -> 0 <= d2 < libc_days_in_month y m2 ->
  sum_months (Z.to_nat m1) y 0 + d1 = sum_months (Z.to_nat m2) y 0 + d2 -> m1 = m2 /\ d1 = d2.
Proof.
  assert (Hlt : forall m1 d1 m2 d2, 0 <= m1 < m2 -> 0 <= d1 < libc_days_in_month y m1 -> 0 <= d2 -> sum_months (Z.to_nat m1) y 0 + d1 < sum_months (Z.to_nat m2) y 0 + d2).
  { intros a d b e Hab Hd He. replace (Z.to_nat b) with (Z.to_nat a + (1 + Z.to_nat (b - a - 1)))%nat by lia. rewrite sum_months_app, (sum_months_app 1).
    rewrite Z2Nat.id by lia. cbn [sum_months]. rewrite Z.add_0_l. pose proof (sum_months_nonneg (Z.to_nat (b - a - 1)) y (a + Z.of_nat 1)). lia. }
  intros H1 H2 Hd1 Hd2 E. destruct (Z.lt_trichotomy m1 m2) as [H|[->|H]]; [|lia|].
  - specialize (Hlt m1 d1 m2 d2). lia.
  - specialize (Hlt m2 d2 m1 d1). lia.
Qed.

Lemma yday_range t : time_ok t -> 0 <= tm_yday t < year_days (tm_year t + 1900).
Proof.
  intros [_ _ _ H4 H5 H6]. rewrite H6. pose proof (sum_months_nonneg (Z.to_nat (tm_mon t)) (tm_year t + 1900) 0). split; [lia|].
  rewrite <- year_months. replace 12%nat with (Z.to_nat (tm_mon t) + (1 + Z.to_nat (11 - tm_mon t)))%nat by lia. rewrite sum_months_app, (sum_months_app 1).
  rewrite Z2Nat.id by lia. cbn [sum_months]. rewrite Z.add_0_l. pose proof (sum_months_nonneg (Z.to_nat (11 - tm_mon t)) (tm_year t + 1900) (tm_mon t + Z.of_nat 1)). lia.
Qed.

Lemma mktime_range t : time_ok t -> date_range t -> time_range (mktime t).
Proof.
  unfold date_range, time_range. intros Ht Hr. rewrite mktime_days by (done || lia). pose proof (yday_range t Ht) as Hy. rewrite (to_yday t Ht) in Hy.
  pose proof (year_days_bounds (tm_year t + 1900)). pose proof (days_to_year_bound (tm_year t + 1900) ltac:(lia)). destruct Ht as [H1 H2 H3 _ _ _]. lia.
Qed.

(** [gmtime_r] inverts [mktime] on every well-formed date. *)
Lemma gmtime_mktime t : time_ok t -> date_range t -> let g := gmtime_r (mktime t) in
  tm_sec g = tm_sec t /\ tm_min g = tm_min t /\ tm_hour g = tm_hour t /\ tm_mday g = tm_mday t /\ tm_mon g = tm_mon t /\ tm_year g = tm_year t /\ tm_yday g = tm_yday t.
Proof.
  intros Ht Hr g. pose proof (yday_range t Ht) as Hy. pose proof (mktime_range t Ht Hr) as Hm. pose proof (mktime_days t Ht ltac:(unfold date_range in Hr; lia)) as Em.
  destruct Ht as [H1 H2 H3 H4 H5 H6]. destruct (gmtime_ok (mktime t) Hm) as ([G1 G2 G3 G4 G5 G6] & E1 & E2 & E3). fold g in G1, G2, G3, G4, G5, G6, E1, E2, E3.
  set (sec := tm_hour t * 3600 + tm_min t * 60 + tm_sec t) in *. assert (Hs : 0 <= sec < 86400) by (unfold sec; lia).
  assert (Eday : mktime t / 86400 = days_to_year (tm_year t + 1900) + tm_yday t).
  { rewrite Em, H6. symmetry. apply Z.div_unique with sec; lia. }
  assert (Esec : mktime t mod 86400 = sec).
  { rewrite Em. rewrite Z.add_comm, Z.mod_add by lia. by apply Z.mod_small. }
  rewrite Eday in E1. destruct (year_unique _ _ _ _ E1 E2 Hy) as [Ey Eyd]. rewrite Ey in *.
  destruct (month_unique (tm_year t + 1900) (tm_mon g) (tm_mday g - 1) (tm_mon t) (tm_mday t - 1)) as [Emon Emd]; [lia|lia|lia|lia|lia|].
  unfold sec in *. lia.
Qed.

(** The weekday: 0 is Sunday, and 1970-01-01 was a Thursday. *)
Definition weekday (timer : Z) : Z := (4 + timer / 86400) mod 7.

Lemma gmtime_wday_eq timer : tm_wday (gmtime_r timer) = (4 + Z.quot timer 86400) mod 7.
Proof.
  unfold gmtime_r. destruct (if _ <? 0 then _ else _) as [a b]. destruct (years_up _ _ _) as [c d]. destruct (years_down _ _ _) as [e f]. destruct (months_up _ _ _ _) as [u v].
  cbn [tm_wday]. set (x := 4 + Z.quot timer 86400). pose proof (Z.quot_rem x 7 ltac:(lia)) as E. pose proof (Z.rem_bound_abs x 7 ltac:(lia)) as B.
  destruct (Z.ltb_spec (Z.rem x 7) 0); [apply Z.mod_unique with (Z.quot x 7 - 1)|apply Z.mod_unique with (Z.quot x 7)]; lia.
Qed.

(** It is right from the epoch on, and one day late before it, except at midnight. *)
Lemma gmtime_wday_ok timer : 0 <= timer \/ timer mod 86400 = 0 -> tm_wday (gmtime_r timer) = weekday timer.
Proof.
  intros Ht. rewrite gmtime_wday_eq. unfold weekday. do 2 f_equal. destruct Ht as [Ht|Ht].
  - by rewrite Z.quot_div_nonneg by lia.
  - apply Z.quot_div_exact; [lia|]. apply Z.mod_divide; [lia|done].
Qed.

Lemma gmtime_wday_late timer : timer < 0 -> timer mod 86400 <> 0 -> tm_wday (gmtime_r timer) = (weekday timer + 1) mod 7 /\ tm_wday (gmtime_r timer) <> weekday timer.
Proof.
  intros Ht Hm. assert (E : Z.quot timer 86400 = timer / 86400 + 1).
  { pose proof (split_seconds timer) as Hs. cbn zeta in Hs. destruct (Z.ltb_spec (Z.rem timer 86400) 0) as [Hr|Hr]; [injection Hs; lia|].
    exfalso. apply Hm. apply Z.mod_divide; [lia|]. apply Z.rem_divide; [lia|]. pose proof (Z.rem_nonpos timer 86400 ltac:(lia)). lia. }
  assert (Ew : tm_wday (gmtime_r timer) = (weekday timer + 1) mod 7).
  { rewrite gmtime_wday_eq, E. unfold weekday. rewrite Z.add_mod_idemp_l by lia. f_equal. lia. }
  split; [done|]. rewrite Ew. pose proof (Z.mod_pos_bound (4 + timer / 86400) 7 ltac:(lia)). unfold weekday. Z.div_mod_to_equations. lia.
Qed.

(** ** Formatted times *)

(** The text of a number: its decimal digits without a sign, with leading
    zeros up to [width] columns. *)
Definition time_number (value width : Z) : list Z :=
  let ds := libc_format_uint (Z.abs value) 10 false in zeroes (width - zlen ds) ++ ds.

Definition time_text (t : tm) (c : Z) : list Z :=
  let date := time_number (tm_year t + 1900) 4 ++ [45] ++ time_number (tm_mon t + 1) 2 ++ [45] ++ time_number (tm_mday t) 2 in
  let clock := time_number (tm_hour t) 2 ++ [58] ++ time_number (tm_min t) 2 ++ [58] ++ time_number (tm_sec t) 2 in
  if c =? 89 then time_number (tm_year t + 1900) 4
  else if c =? 109 then time_number (tm_mon t + 1) 2
  else if c =? 100 then time_number (tm_mday t) 2
  else if c =? 72 then time_number (tm_hour t) 2
  else if c =? 77 then time_number (tm_min t) 2
  else if c =? 83 then time_number (tm_sec t) 2
  else if c =? 70 then date
  else if c =? 84 then clock
  else if c =? 115 then time_number (s32 (mktime t)) 1
  else if c =? 37 then [37]
  else [37; c].

Fixpoint strftime_text (format : list Z) (t : tm) : list Z :=
  match format with
  | [] => []
  | c :: format' =>
      if negb (c =? 37) then c :: strftime_text format' t
      else match format' with [] => [] | d :: format'' => time_text t d ++ strftime_text format'' t end
  end.

Lemma digits_rev n f v tmp : 0 < v < 10 ^ Z.of_nat n -> (n <= f)%nat -> uint_loop f v 10 false tmp = rev (strftime_digits n v) ++ tmp.
Proof.
  revert f v tmp. induction n as [|n IH]; intros f v tmp Hv Hf; [change (10 ^ Z.of_nat 0) with 1 in Hv; lia|].
  destruct f as [|f]; [lia|]. cbn [uint_loop strftime_digits]. rewrite (proj2 (Z.eqb_neq v 0)), Z.rem_mod_nonneg, Z.quot_div_nonneg by lia.
  assert (Hc : digit_char false (v mod 10) = 48 + v mod 10).
  { assert (Hg : forall i, (i < 10)%nat -> digit_char false (Z.of_nat i) = 48 + Z.of_nat i) by (intros i Hi; do 10 (destruct i as [|i]; [done|]); lia).
    pose proof (Z.mod_pos_bound v 10 ltac:(lia)). specialize (Hg (Z.to_nat (v mod 10))). rewrite Z2Nat.id in Hg by lia. apply Hg. lia. }
  rewrite Hc. rewrite Nat2Z.inj_succ, Z.pow_succ_r in Hv by lia. assert (0 <= v / 10) by (apply Z.div_pos; lia).
  destruct (Z.eqb_spec (v / 10) 0) as [E|E]; cbn [rev].
  - rewrite E, uint_loop_zero. done.
  - rewrite IH; [|split; [lia|apply Z.div_lt_upper_bound; lia]|lia]. by rewrite <- app_assoc.
Qed.

Lemma strftime_digits_ok v : 0 <= v < 10000000000000000 -> rev (strftime_digits 16 v) = libc_format_uint v 10 false /\ (length (strftime_digits 16 v) <= 16)%nat.
Proof.
  intros Hv. split.
  - unfold libc_format_uint. destruct (Z.eqb_spec v 0) as [->|Hn]; [done|]. rewrite (digits_rev 16) by (cbn; lia). by rewrite app_nil_r.
  - assert (Hl : forall n w, (length (strftime_digits n w) <= n)%nat).
    { induction n as [|n IH]; intros w; cbn [strftime_digits length]; [lia|]. destruct (_ =? 0); cbn [length]; [lia|]. specialize (IH (Z.quot w 10)). lia. }
    apply Hl.
Qed.

(** The reversed digits and the zeros behind them are the number text. *)
Lemma strftime_number_eq s max value width st : 0 <= width <= 16 -> - 2147483648 < value < 2147483648 ->
  libc_strftime_number s max value width st = libc_strftime_append s max (time_number value width) st.
Proof.
  intros Hw Hv. unfold libc_strftime_number, time_number. assert (Ea : (if value <? 0 then s32 (- value) else value) = Z.abs value) by (destruct (Z.ltb_spec value 0); [rewrite s32_small|]; lia).
  rewrite Ea. destruct (strftime_digits_ok (Z.abs value)) as [Er Hl]; [lia|]. f_equal. rewrite rev_app_distr, Er. f_equal.
  assert (El : zlen (libc_format_uint (Z.abs value) 10 false) = zlen (strftime_digits 16 (Z.abs value))) by (unfold zlen; by rewrite <- Er, length_rev).
  rewrite El, Z.min_l by lia. unfold zeroes. clear. generalize (Z.to_nat (width - zlen (strftime_digits 16 (Z.abs value)))). induction n as [|n IH]; [done|].
  cbn [replicate rev]. rewrite IH. symmetry. apply replicate_cons_app.
Qed.

(** The numbers printed are [int]s whose sign can be dropped without overflow. *)
Definition int_fields (t : tm) : Prop :=
  Forall (fun v => - 2147483647 <= v <= 2147483647) [tm_sec t; tm_min t; tm_hour t; tm_mday t; tm_mon t + 1; tm_year t + 1900; s32 (mktime t)].

Lemma strftime_append_app s max a b st : libc_strftime_append s max (a ++ b) st = libc_strftime_append s max b (libc_strftime_append s max a st).
Proof. revert st. induction a as [|c a IH]; intros st; [done|]. apply IH. Qed.

(** Every conversion appends its text. *)
Lemma strftime_spec_eq s max tt c st : int_fields tt -> strftime_spec s max tt c st = libc_strftime_append s max (time_text tt c) st.
Proof.
  intros Hi. unfold int_fields in Hi. inv_Forall. unfold strftime_spec, time_text. cbn zeta. rewrite (s32_small (tm_year tt + 1900)), (s32_small (tm_mon tt + 1)) by lia.
  rewrite !strftime_number_eq by lia.
  repeat match goal with |- context [if c =? ?k then _ else _] => destruct (c =? k) end; by rewrite ?strftime_append_app.
Qed.

Lemma strftime_loop_eq s max format tt st : int_fields tt -> strftime_loop s max format tt st = libc_strftime_append s max (strftime_text format tt) st.
Proof.
  intros Hi. remember (length format) as n eqn:En. revert format st En. induction n as [n IH] using lt_wf_ind. intros [|c format] st ->; [done|].
  cbn [strftime_loop strftime_text]. destruct (c =? 37); cbn [negb].
  - destruct format as [|d format]; [done|]. rewrite (IH (length format)), strftime_append_app, strftime_spec_eq by (cbn [length]; (done || lia)). done.
  - by rewrite (IH (length format)) by (cbn [length]; (done || lia)).
Qed.

Section strftime.
Context (m0 : mem) (s max : Z) (Hmax : is_u64 max) (Hmax0 : max <> 0) (Hs : s <> 0).

(** What has been written, as in vsnprintf. *)
Definition wrote (t : list Z) (st : Z * mem) : Prop := holds m0 s max t (FormatOut s max (fst st) (snd st)).

Lemma strftime_putc_wrote c t st : wrote t st -> zlen t + 1 < 18446744073709551616 -> wrote (t ++ [c]) (strftime_putc s max c st).
Proof using All.
  intros Ht Hl. pose proof (putc_holds m0 s max Hmax c t _ Ht Hl) as Hp. pose proof (hd_written _ _ _ _ _ Ht) as Hw. cbn [fo_written] in Hw.
  unfold wrote in *. destruct st as [pos m]. cbn [fst snd strftime_putc] in *. unfold libc_format_putc in Hp. cbn [fo_dst fo_size fo_written fo_mem] in Hp.
  rewrite (proj2 (Z.eqb_neq s 0)), (proj2 (Z.eqb_neq max 0)) in Hp by done. cbn [negb andb] in Hp. pose proof (zlen_nonneg t).
  rewrite (u64_small (pos + 1)) in * by cint. replace (pos + 1 <? max) with (pos <? max - 1); [done|]. destruct (Z.ltb_spec pos (max - 1)), (Z.ltb_spec (pos + 1) max); (done || lia).
Qed.

Lemma strftime_append_wrote l t st : wrote t st -> zlen t + zlen l < 18446744073709551616 -> wrote (t ++ l) (libc_strftime_append s max l st).
Proof using All.
  revert t st. induction l as [|c l IH]; intros t st Ht Hl; cbn [libc_strftime_append]; [by rewrite app_nil_r|].
  change (c :: l) with ([c] ++ l) in *. rewrite zlen_app in Hl. change (zlen [c]) with 1 in Hl. pose proof (zlen_nonneg l). rewrite app_assoc.
  apply IH; [|rewrite zlen_app; change (zlen [c]) with 1; lia]. apply strftime_putc_wrote; [done|lia].
Qed.


Lemma strftime_ok format tt : int_fields tt -> let text := strftime_text format tt in zlen text < 18446744073709551616 ->
  exists m', strftime s max format tt m0 = (if zlen text <? max then zlen text else 0, m') /\ same_off s (Z.min (zlen text + 1) max) m0 m' /\
    let n := Z.min (zlen text) (max - 1) in mem_list (Z.to_nat n) m' s = take (Z.to_nat n) text /\ m' (s + n) = 0.
Proof using All.
  intros Hi text Hl. unfold strftime. rewrite (proj2 (Z.eqb_neq max 0)), strftime_loop_eq by done. fold text.
  assert (H0 : wrote [] (0, m0)).
  { split; [done|done|done|]. intros x. unfold buffer_byte. cbn [fo_mem snd]. destruct (negb _ && negb (max =? 0) && (s <=? x) && _) eqn:Eb; [|done]. bool_prop. change (zlen []) with 0 in *. lia. }
  pose proof (strftime_append_wrote text [] _ H0 Hl) as Hw. cbn [app] in Hw. destruct (libc_strftime_append s max text (0, m0)) as [pos m]. unfold wrote in Hw. cbn [fst snd] in Hw.
  pose proof (hd_written _ _ _ _ _ Hw) as Hp. cbn [fo_written] in Hp. pose proof (holds_terminated m0 s max Hmax _ _ Hw Hs Hmax0) as (T1 & T2 & T3). cbn [fo_mem] in *. cbn zeta in *.
  rewrite Hp. destruct (Z.leb_spec max (zlen text)), (Z.ltb_spec (zlen text) max); try lia.
  - eexists. split; [done|]. rewrite (Z.min_r (zlen text) (max - 1)) in * by lia. done.
  - eexists. split; [done|]. rewrite (Z.min_l (zlen text) (max - 1)) in * by lia. done.
Qed.
End strftime.

(** ** Seconds printed and read back *)

Lemma seconds_text timer : 0 <= timer < 2147483648 -> strftime_text [37; 115] (gmtime_r timer) = libc_format_uint timer 10 false.
Proof.
  intros Ht. transitivity (time_number (s32 (mktime (gmtime_r timer))) 1 ++ []); [done|]. rewrite app_nil_r, mktime_gmtime, s32_small by (unfold time_range; lia).
  unfold time_number. rewrite Z.abs_eq by lia. destruct (format_uint_ok timer 10 false ltac:(lia) ltac:(cint)) as [[_ _ Hn] _].
  unfold zeroes. rewrite Z2Nat.nonpos; [done|]. destruct (libc_format_uint timer 10 false); [done|]. unfold zlen. cbn [length]. lia.
Qed.

Lemma seconds_roundtrip fuel m s timer t : 0 <= timer < 2147483648 -> s <> 0 -> let text := strftime_text [37; 115] (gmtime_r timer) in
  cstring m s text -> (length text < fuel)%nat -> strptime fuel m s (Some [37; 115]) (Some t) = Some (s + zlen text, Some (gmtime_r timer)).
Proof.
  intros Ht Hs text Hx Hf. unfold strptime. rewrite (proj2 (Z.eqb_neq s 0)) by done. change (negb (str_diff [37; 115] [37; 115] =? 0)) with false. cbn iota.
  rewrite (strtol_ok fuel m s 10 text Hx Hf). cbn [mbind option_bind]. unfold text in *. rewrite seconds_text in * by done.
  destruct (format_uint_ok timer 10 false ltac:(lia) ltac:(cint)) as [Hn _]. set (ds := libc_format_uint timer 10 false) in *.
  unfold strtol_spec. change (bad_base 10) with false. cbn iota. pose proof (read_numeral_text false 10 timer ds ltac:(lia) Hn) as Er. cbn [app] in Er. rewrite Er.
  cbn [nm_neg nm_base nm_digits nm_length]. destruct Hn as [N1 _ N3]. rewrite N1. unfold LONG_MIN, LONG_MAX, zlen. destruct ds as [|c ds]; [done|].
  destruct (Z.ltb_spec timer (- 0x8000000000000000)); [lia|]. destruct (Z.ltb_spec 0x7fffffffffffffff timer); [lia|]. cbn [so_end so_value].
  rewrite (proj2 (Z.eqb_neq _ s)) by (cbn [length]; lia). done.
Qed.

(** From 2038 on the cast to [int] and the dropped sign show. *)
Lemma seconds_2038 : strftime_text [37; 115] (gmtime_r 2147483649) = strftime_text [37; 115] (gmtime_r 2147483647).
Proof. vm_compute. done. Qed.
