(* ===== verification/LibcAlloc.v ===== *)
(** The allocation functions of the C library: kernel/core/libc.c, lines
    1256-1375 (bsearch, malloc, free, calloc, realloc, strdup).

    They sit on the kernel heap of Heap.v and set [libc_errno]; the state
    [libc] is both. The theorems are about the abstract heap of
    HeapClients.v: what each call does to the map of objects. *)
From Stdlib Require Import ZArith Lia.
From stdpp Require Import base tactics option list numbers gmap.
From S2P Require Import Prelude.
From S2P Require Import Memory.
From S2P Require Import Dma.
From S2P Require Import Kmem.
From S2P Require Import KmemSpec.
From S2P Require Import Heap.
From S2P Require Import HeapSpec.
From S2P Require Import HeapAlloc.
From S2P Require Import HeapClients.
From S2P Require Import LibcString.
From S2P Require Import LibcNumber.
#[local] Open Scope Z_scope.

(** ** The code *)

Record libc : Type := Libc {
  lc_kmem : kmem;
  libc_errno : Z
}.

Definition malloc (size : Z) (l : libc) : Z * libc :=
  if (size =? 0) || (0xffffffff <? size) then (0, if 0xffffffff <? size then Libc (lc_kmem l) LIBC_ENOMEM else l)
  else
    let '(ptr, k) := kmalloc (u32 size) (lc_kmem l) in
    (ptr, Libc k (if ptr =? 0 then LIBC_ENOMEM else libc_errno l)).

Definition free (fuel : nat) (ptr : Z) (l : libc) : option libc :=
  k ← kfree fuel ptr (lc_kmem l); Some (Libc k (libc_errno l)).

Definition set_lc_memory (m : mem) (l : libc) : libc := Libc (set_memory m (lc_kmem l)) (libc_errno l).

Definition calloc (count size : Z) (l : libc) : Z * libc :=
  if negb (count =? 0) && (0xffffffffffffffff / count <? size) then (0, Libc (lc_kmem l) LIBC_ENOMEM)
  else
    let bytes := u64 (count * size) in
    if 0xffffffff <? bytes then (0, Libc (lc_kmem l) LIBC_ENOMEM)
    else
      let '(ptr, l) := malloc bytes l in
      if ptr =? 0 then (ptr, l) else (ptr, set_lc_memory (memset ptr 0 (Z.to_nat bytes) (kmem_memory (lc_kmem l))) l).

Definition realloc (fuel : nat) (ptr size : Z) (l : libc) : option (Z * libc) :=
  if ptr =? 0 then Some (malloc size l)
  else if size =? 0 then l ← free fuel ptr l; Some (0, l)
  else if 0xffffffff <? size then Some (0, Libc (lc_kmem l) LIBC_ENOMEM)
  else
    let old_size := kmalloc_size ptr (lc_kmem l) in
    if old_size =? 0 then Some (0, l)
    else if size <=? old_size then Some (ptr, l)
    else
      let '(new_ptr, l) := malloc size l in
      if new_ptr =? 0 then Some (0, Libc (lc_kmem l) LIBC_ENOMEM)
      else
        l ← free fuel ptr (set_lc_memory (memcpy new_ptr ptr (Z.to_nat old_size) (kmem_memory (lc_kmem l))) l);
        Some (new_ptr, l).

Definition strdup (fuel : nat) (s : Z) (l : libc) : option (Z * libc) :=
  len ← strlen fuel (kmem_memory (lc_kmem l)) s;
  let '(copy, l) := malloc (u64 (len + 1)) l in
  if copy =? 0 then Some (0, Libc (lc_kmem l) LIBC_ENOMEM)
  else Some (copy, set_lc_memory (memcpy copy s (Z.to_nat (len + 1)) (kmem_memory (lc_kmem l))) l).

(** The loop of [bsearch]; each round halves the range, so [nmemb] rounds do. *)
Fixpoint bsearch_loop (fuel : nat) (compar : Z -> Z) (items size low high : Z) : Z :=
  match fuel with
  | O => 0
  | S fuel' =>
      if low <? high then
        let mid := u64 (low + (high - low) / 2) in
        let item := u64 (items + mid * size) in
        let cmp := compar item in
        if cmp =? 0 then item
        else if cmp <? 0 then bsearch_loop fuel' compar items size low mid
        else bsearch_loop fuel' compar items size (u64 (mid + 1)) high
      else 0
  end.

(** [compar] is the caller's comparison, [None] a null pointer. *)
Definition bsearch (key base nmemb size : Z) (compar : option (Z -> Z -> Z)) : Z :=
  match compar with
  | None => 0
  | Some compar =>
      if (key =? 0) || (base =? 0) || (size =? 0) then 0 else bsearch_loop (S (Z.to_nat nmemb)) (compar key) base size 0 nmemb
  end.

(** ** The specification *)

(** The error number after an allocation: set when one was refused for want
    of memory. *)
Definition errno_after (size r : Z) (l l' : libc) : Prop :=
  libc_errno l' = if (r =? 0) && negb (size =? 0) then LIBC_ENOMEM else libc_errno l.

Definition calloc_spec (count size : Z) (o : objects) (r : Z) (o' : objects) : Prop :=
  if 0xffffffff <? count * size then r = 0 /\ o' = o else new_object (count * size) 0 o r o'.

Definition realloc_spec (ptr size : Z) (o : objects) (r : Z) (o' : objects) : Prop :=
  if ptr =? 0 then new_object size (fresh_byte size) o r o'
  else exists bs, o !! ptr = Some bs /\
    if size =? 0 then r = 0 /\ o' = delete ptr o
    else if size <=? Z.of_nat (length bs) then r = ptr /\ o' = o
    else (r = 0 /\ o' = o) \/
         (0 < r /\ o !! r = None /\ o' = <[r := bs ++ replicate (Z.to_nat size - length bs) (fresh_byte size)]> (delete ptr o)).

Definition strdup_spec (x : list Z) (o : objects) (r : Z) (o' : objects) : Prop :=
  (r = 0 /\ o' = o) \/ (0 < r /\ o !! r = None /\ o' = <[r := x ++ [0]]> o).

(** [l'] holds the objects [o'], and no fault was counted on the way. *)
Definition leads_to (l l' : libc) (o' : objects) : Prop :=
  represents (lc_kmem l') o' /\ faults (heap (lc_kmem l')) = faults (heap (lc_kmem l)).

(** ** The proofs *)

Lemma malloc_simulates size l o : represents (lc_kmem l) o -> 0 <= size -> exists o', let '(r, l') := malloc size l in
  new_object size (fresh_byte size) o r o' /\ leads_to l l' o' /\ errno_after size r l l'.
Proof.
  intros Hr Hs. unfold malloc, errno_after, leads_to. destruct (Z.eqb_spec size 0) as [->|Hs0]; cbn [orb].
  { exists o. split; [by left|]. done. }
  destruct (Z.ltb_spec 0xffffffff size) as [Hbig|Hsm]; [exists o; split; [by left|]; done|]. rewrite (u32_small size) by cint.
  destruct (heap_exec_simulates 0 (OpMalloc size) (lc_kmem l) o Hr) as (r & k' & o' & E & S & R & F); [cbn; cint|].
  cbn [heap_exec] in E. injection E as E. rewrite E. exists o'. split; [done|]. split; [done|]. cbn [libc_errno]. rewrite andb_true_r. done.
Qed.

Lemma new_object_lookup size byte o r o' : new_object size byte o r o' -> r <> 0 -> o' !! r = Some (replicate (Z.to_nat size) byte) /\ 0 < size /\ 0 < r.
Proof. intros [[H _]|(H1 & H2 & _ & ->)] Hr; [done|]. by rewrite lookup_insert_eq. Qed.

(** Filling an object: what block writes do to the state. *)
Lemma write_leads l o p bs m' : represents (lc_kmem l) o -> o !! p = Some bs -> same_off p (Z.of_nat (length bs)) (kmem_memory (lc_kmem l)) m' ->
  represents (lc_kmem (set_lc_memory m' l)) (<[p := mem_list (length bs) m' p]> o).
Proof. intros (g & Hok & ->) Hp Hm. cbn [set_lc_memory lc_kmem]. by apply block_write_simulates. Qed.

(** The bytes of an object are in memory. *)
Lemma object_bytes k o p bs : represents k o -> o !! p = Some bs -> mem_list (length bs) (kmem_memory k) p = bs /\ 0 < p /\ bs <> [] /\ is_u32 (Z.of_nat (length bs)) /\
  kmalloc_size p k = Z.of_nat (length bs).
Proof.
  intros (g & Hok & ->) Hp. destruct (objects_lookup k g _ p bs Hok Hp) as (al & Hal & <- & Eb). destruct (live_header k g al Hok Hal) as ((W1 & W2 & W3) & Hh & Hpos & _).
  assert (El : length bs = Z.to_nat (al_size al)) by (by rewrite Eb, length_mem_list). rewrite (kmalloc_size_live k g al Hok Hal), El. split; [by rewrite <- Eb at 1|].
  split; [unfold al_ptr, HEADER_SIZE; lia|]. split; [destruct bs; [cbn in El; lia|done]|].
  split; [|lia]. rewrite Z2Nat.id by lia. unfold al_len in W2. destruct (al_class al) as [c|]; [|cint].
  pose proof (class_size_ok c W3). cint.
Qed.

(** Two objects do not overlap. *)
Lemma objects_apart k o p q a b : represents k o -> o !! p = Some a -> o !! q = Some b -> p <> q ->
  p + Z.of_nat (length a) <= q \/ q + Z.of_nat (length b) <= p.
Proof.
  intros (g & Hok & ->) Hp Hq Hne. destruct (objects_lookup k g _ p a Hok Hp) as (al & Hal & <- & ->). destruct (objects_lookup k g _ q b Hok Hq) as (bl & Hbl & <- & ->).
  rewrite !length_mem_list. destruct (live_header k g al Hok Hal) as ((W1 & W2 & _) & _). destruct (live_header k g bl Hok Hbl) as ((V1 & V2 & _) & _).
  apply list_elem_of_lookup in Hal as [i Hi]. apply list_elem_of_lookup in Hbl as [j Hj].
  assert (Hij : i <> j) by (intros ->; rewrite Hi in Hj; by injection Hj as ->).
  pose proof (live_apart k g i j al bl Hok Hi Hj Hij) as Hap. unfold apart, al_blk, al_ptr, HEADER_SIZE in *. cbn [fst snd] in Hap. lia.
Qed.

Lemma free_leads fuel l o p : represents (lc_kmem l) o -> is_Some (o !! p) ->
  exists l', free fuel p l = Some l' /\ leads_to l l' (delete p o) /\ libc_errno l' = libc_errno l.
Proof.
  intros (g & Hok & ->) Hp. destruct (free_simulates fuel (lc_kmem l) g p Hok Hp) as (k' & K1 & K2 & K3). unfold free. rewrite K1. cbn [mbind option_bind]. by eexists.
Qed.

(** A product that does not fit 64 bits is caught, and only such a product. *)
Lemma calloc_overflow count size : is_u64 count -> is_u64 size ->
  negb (count =? 0) && (0xffffffffffffffff / count <? size) = (0xffffffffffffffff <? count * size).
Proof.
  intros Hc Hs. unfold is_u64 in *. destruct (Z.eqb_spec count 0) as [->|Hn]; cbn [negb andb]; [symmetry; apply Z.ltb_ge; lia|].
  pose proof (Z.div_mod 0xffffffffffffffff count ltac:(lia)) as Hd. pose proof (Z.mod_pos_bound 0xffffffffffffffff count ltac:(lia)).
  destruct (Z.ltb_spec (0xffffffffffffffff / count) size), (Z.ltb_spec 0xffffffffffffffff (count * size)); try done; nia.
Qed.

Lemma calloc_simulates count size l o : represents (lc_kmem l) o -> is_u64 count -> is_u64 size -> exists o', let '(r, l') := calloc count size l in
  calloc_spec count size o r o' /\ leads_to l l' o' /\ errno_after (count * size) r l l'.
Proof.
  intros Hr Hc Hs. unfold calloc, calloc_spec. rewrite calloc_overflow by done. unfold is_u64 in *. assert (Hp : 0 <= count * size) by nia.
  assert (Href : 0xffffffff < count * size -> exists o', (0 = 0 /\ o' = o) /\ leads_to l (Libc (lc_kmem l) LIBC_ENOMEM) o' /\
            errno_after (count * size) 0 l (Libc (lc_kmem l) LIBC_ENOMEM)).
  { intros Hb. exists o. split; [done|]. split; [done|]. unfold errno_after. by rewrite (proj2 (Z.eqb_neq (count * size) 0)) by lia. }
  destruct (Z.ltb_spec 0xffffffffffffffff (count * size)); [rewrite (proj2 (Z.ltb_lt 0xffffffff _)) by lia; apply Href; lia|].
  rewrite (u64_small (count * size)) by cint. destruct (Z.ltb_spec 0xffffffff (count * size)); [by apply Href|].
  destruct (malloc_simulates (count * size) l o Hr Hp) as (o1 & Hm). destruct (malloc (count * size) l) as [r l1]. destruct Hm as (M1 & [M2 M2'] & M3).
  destruct (Z.eqb_spec r 0) as [->|Hr0].
  { exists o1. split; [|done]. destruct M1 as [M1|[M1 _]]; [by left|lia]. }
  destruct (new_object_lookup _ _ _ _ _ M1 Hr0) as (Hl & Hsz & Hrp). set (n := Z.to_nat (count * size)) in *.
  destruct (memset_ok r 0 n (kmem_memory (lc_kmem l1))) as [S1 S2].
  exists (<[r := replicate n 0]> o1). split; [|split].
  - destruct M1 as [[? _]|(_ & _ & N1 & ->)]; [done|]. right. by rewrite insert_insert_eq.
  - split; [|done]. pose proof (write_leads l1 o1 r _ (memset r 0 n (kmem_memory (lc_kmem l1))) M2 Hl) as Hw. rewrite length_replicate, S1 in Hw. by apply Hw.
  - unfold errno_after in *. by rewrite (proj2 (Z.eqb_neq r 0)) in * by done.
Qed.

Lemma mem_list_add n1 n2 m a : mem_list (n1 + n2) m a = mem_list n1 m a ++ mem_list n2 m (a + Z.of_nat n1).
Proof.
  revert a. induction n1 as [|n1 IH]; intros a; cbn [Nat.add mem_list app]; [by rewrite Z.add_0_r|]. rewrite IH. do 3 f_equal. lia.
Qed.

(** Copying to the front of an object from a source outside it. *)
Lemma memcpy_leads l o p bs src n : represents (lc_kmem l) o -> o !! p = Some bs -> (n <= length bs)%nat -> p <= src \/ src + Z.of_nat n <= p ->
  represents (lc_kmem (set_lc_memory (memcpy p src n (kmem_memory (lc_kmem l))) l))
    (<[p := mem_list n (kmem_memory (lc_kmem l)) src ++ drop n bs]> o).
Proof.
  intros Hr Hp Hn Hd. set (m := kmem_memory (lc_kmem l)). destruct (memcpy_ok p src n m Hd) as [C1 C2]. fold m in C1, C2.
  assert (Hoff : same_off p (Z.of_nat (length bs)) m (memcpy p src n m)) by (eapply same_off_sub; [exact C2|lia|lia]).
  pose proof (write_leads l o p bs _ Hr Hp Hoff) as Hw. destruct (object_bytes _ _ _ _ Hr Hp) as (Hb & _). fold m in Hb.
  enough (E : mem_list (length bs) (memcpy p src n m) p = mem_list n m src ++ drop n bs) by (by rewrite E in Hw).
  replace (length bs) with (n + (length bs - n))%nat by lia. rewrite mem_list_add, C1. f_equal.
  rewrite <- Hb at 2. replace (length bs) with (n + (length bs - n))%nat at 2 by lia. rewrite mem_list_add, drop_app_length'; [|by rewrite length_mem_list].
  apply mem_list_ext. intros x Hx. apply C2. lia.
Qed.

Lemma realloc_simulates fuel ptr size l o : represents (lc_kmem l) o -> 0 <= size -> ptr = 0 \/ is_Some (o !! ptr) ->
  exists r l' o', realloc fuel ptr size l = Some (r, l') /\ realloc_spec ptr size o r o' /\ leads_to l l' o' /\
    (libc_errno l' = if (r =? 0) && negb (size =? 0) then LIBC_ENOMEM else libc_errno l).
Proof.
  intros Hr Hs Hp. unfold realloc, realloc_spec. destruct (Z.eqb_spec ptr 0) as [->|Hp0].
  { destruct (malloc_simulates size l o Hr Hs) as (o' & Hm). destruct (malloc size l) as [r l']. by exists r, l', o'. }
  destruct Hp as [?|[bs Hp]]; [done|]. destruct (object_bytes _ _ _ _ Hr Hp) as (Hb & Hpp & Hne & Hu & Hk). unfold is_u32 in Hu.
  destruct (Z.eqb_spec size 0) as [->|Hs0].
  { destruct (free_leads fuel l o ptr Hr ltac:(by exists bs)) as (l' & F1 & F2 & F3). rewrite F1. exists 0, l', (delete ptr o). split; [done|]. split; [by exists bs|]. done. }
  cbn [negb]. destruct (Z.ltb_spec 0xffffffff size) as [Hbig|Hsm].
  { eexists 0, _, o. split; [done|]. split; [|done]. exists bs. split; [done|]. destruct (Z.leb_spec size (Z.of_nat (length bs))); [lia|by left]. }
  rewrite Hk. destruct (Z.eqb_spec (Z.of_nat (length bs)) 0); [destruct bs; [done|cbn in *; lia]|].
  destruct (Z.leb_spec size (Z.of_nat (length bs))) as [Hle|Hgt].
  { exists ptr, l, o. split; [done|]. split; [exists bs; by rewrite (proj2 (Z.leb_le _ _))|]. split; [done|]. by rewrite (proj2 (Z.eqb_neq ptr 0)). }
  destruct (malloc_simulates size l o Hr Hs) as (o1 & Hm). destruct (malloc size l) as [r l1]. destruct Hm as (M1 & [M2 M2'] & M3).
  destruct (Z.eqb_spec r 0) as [->|Hr0].
  { exists 0, (Libc (lc_kmem l1) LIBC_ENOMEM), o1. split; [done|]. split; [|done]. exists bs. split; [done|]. rewrite (proj2 (Z.leb_gt _ _)) by lia. left. destruct M1 as [M1|[M1 _]]; [done|lia]. }
  destruct (new_object_lookup _ _ _ _ _ M1 Hr0) as (Hl & _ & Hrp). destruct M1 as [[? _]|(_ & _ & Hfresh & Eo)]; [done|].
  assert (Hpr : ptr <> r) by (intros ->; by rewrite Hp in Hfresh).
  assert (Hp1 : o1 !! ptr = Some bs) by (by rewrite Eo, lookup_insert_ne). rewrite Nat2Z.id.
  pose proof (objects_apart _ _ _ _ _ _ M2 Hl Hp1 (not_eq_sym Hpr)) as Hap.
  destruct (object_bytes _ _ _ _ M2 Hp1) as (Hb1 & _).
  pose proof (memcpy_leads l1 o1 r _ ptr (length bs) M2 Hl) as Hc. rewrite length_replicate, drop_replicate, Hb1 in Hc.
  specialize (Hc ltac:(lia) ltac:(lia)). set (l2 := set_lc_memory _ l1) in *.
  destruct (free_leads fuel l2 _ ptr Hc) as (l' & F1 & [F2 F2'] & F3); [rewrite lookup_insert_ne by done; by exists bs|]. rewrite F1. cbn [mbind option_bind].
  eexists r, l', _. split; [done|]. split; [|split; [split; [exact F2|]|]].
  - exists bs. split; [done|]. rewrite (proj2 (Z.leb_gt _ _)) by lia. right. split; [done|]. split; [done|]. rewrite Eo, insert_insert_eq, delete_insert_ne by done. done.
  - rewrite F2'. done.
  - rewrite F3. cbn [l2 set_lc_memory libc_errno]. unfold errno_after in M3. by rewrite (proj2 (Z.eqb_neq r 0)) in * by done.
Qed.

(** The string is part of an object. *)
Lemma strdup_simulates fuel s l o p bs i x : represents (lc_kmem l) o -> o !! p = Some bs -> s = p + Z.of_nat i -> (i <= length bs)%nat ->
  x ++ [0] `prefix_of` drop i bs -> Forall (fun c => c <> 0) x -> (length x < fuel)%nat ->
  exists r l' o', strdup fuel s l = Some (r, l') /\ strdup_spec x o r o' /\ leads_to l l' o' /\
    (libc_errno l' = if r =? 0 then LIBC_ENOMEM else libc_errno l).
Proof.
  intros Hr Hp -> Hi [rest Hpre] Hx Hf. destruct (object_bytes _ _ _ _ Hr Hp) as (Hb & Hpp & _ & Hu & _). unfold is_u32 in Hu.
  assert (Hlen : (length bs = i + (length (x ++ [0%Z]) + length rest))%nat).
  { rewrite <- length_app, <- Hpre, length_drop. lia. } rewrite length_app in Hlen. cbn [length] in Hlen.
  assert (Hstr : forall k, mem_list (length bs) (kmem_memory k) p = bs -> mem_list (length x + 1) (kmem_memory k) (p + Z.of_nat i) = x ++ [0]).
  { intros k Hk. assert (Ed : mem_list (length x + 1 + length rest) (kmem_memory k) (p + Z.of_nat i) = (x ++ [0]) ++ rest).
    { rewrite <- Hpre. transitivity (drop i (mem_list (length bs) (kmem_memory k) p)); [|by rewrite Hk].
      replace (length bs) with (i + (length x + 1 + length rest))%nat by lia. rewrite (mem_list_add i). rewrite drop_app_length'; [done|by rewrite length_mem_list]. }
    rewrite mem_list_add in Ed. apply app_inj_1 in Ed as [Ed _]; [done|]. rewrite length_mem_list, length_app. done. }
  pose proof (Hstr _ Hb) as H0. rewrite mem_list_add in H0. apply app_inj_1 in H0 as [H0 H1]; [|by rewrite length_mem_list].
  assert (Hcs : cstring (kmem_memory (lc_kmem l)) (p + Z.of_nat i) x) by (apply cstring_of_list; [done| |done]; cbn [mem_list] in H1; congruence).
  unfold strdup. rewrite (strlen_ok fuel _ _ x Hcs Hf). cbn [mbind option_bind]. rewrite u64_small by cint.
  destruct (malloc_simulates (Z.of_nat (length x) + 1) l o Hr ltac:(lia)) as (o1 & Hm). destruct (malloc (Z.of_nat (length x) + 1) l) as [r l1]. destruct Hm as (M1 & [M2 M2'] & M3).
  destruct (Z.eqb_spec r 0) as [->|Hr0].
  { exists 0, (Libc (lc_kmem l1) LIBC_ENOMEM), o1. split; [done|]. split; [|done]. left. destruct M1 as [M1|[M1 _]]; [done|lia]. }
  destruct (new_object_lookup _ _ _ _ _ M1 Hr0) as (Hl & _ & Hrp). destruct M1 as [[? _]|(_ & _ & Hfresh & Eo)]; [done|].
  assert (Hpr : p <> r) by (intros ->; by rewrite Hp in Hfresh). assert (Hp1 : o1 !! p = Some bs) by (by rewrite Eo, lookup_insert_ne).
  pose proof (objects_apart _ _ _ _ _ _ M2 Hl Hp1 (not_eq_sym Hpr)) as Hap. rewrite length_replicate in Hap. destruct (object_bytes _ _ _ _ M2 Hp1) as (Hb1 & _).
  pose proof (memcpy_leads l1 o1 r _ (p + Z.of_nat i) (length x + 1) M2 Hl) as Hc. rewrite length_replicate, (Hstr _ Hb1) in Hc.
  specialize (Hc ltac:(lia) ltac:(lia)). replace (Z.to_nat (Z.of_nat (length x) + 1)) with (length x + 1)%nat in * by lia.
  rewrite drop_ge, app_nil_r in Hc by (rewrite length_replicate; lia). eexists r, _, _. split; [done|]. split; [|split; [split; [exact Hc|done]|]].
  - right. split; [done|]. split; [done|]. by rewrite Eo, insert_insert_eq.
  - unfold errno_after in M3. cbn [set_lc_memory libc_errno]. by rewrite (proj2 (Z.eqb_neq r 0)) in * by done.
Qed.

(** ** Binary search *)

(** The comparison agrees with the order of the array: the items before the
    key come first, the items behind it last. *)
Definition sorted_for (f : Z -> Z) (n : Z) : Prop :=
  forall i j, 0 <= i < j -> j < n -> (f i < 0 -> f j < 0) /\ (0 < f j -> 0 < f i).

Lemma bsearch_loop_ok fuel compar items size low high n : let f i := compar (items + i * size) in
  0 <= items -> 0 < size -> items + n * size < 18446744073709551616 -> sorted_for f n -> 0 <= low <= high -> high <= n -> high - low < Z.of_nat fuel ->
  (forall i, 0 <= i < low -> f i <> 0) -> (forall i, high <= i < n -> f i <> 0) ->
  let r := bsearch_loop fuel compar items size low high in
  (exists i, 0 <= i < n /\ r = items + i * size /\ f i = 0) \/ (r = 0 /\ forall i, 0 <= i < n -> f i <> 0).
Proof.
  intros f Hi Hs Hfit Hsort. revert low high. induction fuel as [|fuel IH]; intros low high Hl Hh Hf Hlo Hhi; [lia|]. cbn [bsearch_loop].
  destruct (Z.ltb_spec low high) as [Hlt|Hge]; [|right; split; [done|]; intros i Hi'; destruct (Z.lt_ge_cases i low); [apply Hlo|apply Hhi]; lia].
  set (mid0 := low + (high - low) / 2). assert (Hmid : low <= mid0 < high) by (unfold mid0; Z.div_mod_to_equations; lia).
  assert (Hn : n < 18446744073709551616) by nia. rewrite (u64_small mid0) by cint.
  assert (Hitem : 0 <= items + mid0 * size < 18446744073709551616) by nia. rewrite (u64_small (items + mid0 * size)) by cint.
  change (compar (items + mid0 * size)) with (f mid0). destruct (Z.eqb_spec (f mid0) 0) as [E|E]; [left; exists mid0; split; [lia|done]|].
  destruct (Z.ltb_spec (f mid0) 0) as [Hneg|Hpos].
  - apply IH; [lia|lia|lia|done|]. intros i Hi'. destruct (Z.eq_dec i mid0) as [->|Hne]; [done|]. specialize (Hsort mid0 i). lia.
  - rewrite u64_small by cint. apply IH; [lia|lia|lia| |done]. intros i Hi'. destruct (Z.eq_dec i mid0) as [->|Hne]; [done|]. specialize (Hsort i mid0). lia.
Qed.

Lemma bsearch_ok key base nmemb size compar : let f i := compar key (base + i * size) in
  0 < key -> 0 < base -> 0 < size -> 0 <= nmemb -> base + nmemb * size < 18446744073709551616 -> sorted_for f nmemb ->
  let r := bsearch key base nmemb size (Some compar) in
  (exists i, 0 <= i < nmemb /\ r = base + i * size /\ f i = 0) \/ (r = 0 /\ forall i, 0 <= i < nmemb -> f i <> 0).
Proof.
  intros f Hk Hb Hs Hn Hfit Hsort. unfold bsearch. rewrite !(proj2 (Z.eqb_neq _ 0)) by lia. cbn [orb].
  apply bsearch_loop_ok; try done; lia.
Qed.
