(* ===== verification/LibcTheorems.v ===== *)
(** The theorems about the C library. *)
From Stdlib Require Import ZArith Lia.
From stdpp Require Import base tactics option list numbers gmap.
From S2P Require Import Prelude.
From S2P Require Import Memory.
From S2P Require Import Dma.
From S2P Require Import Kmem.
From S2P Require Import KmemSpec.
From S2P Require Import Heap.
From S2P Require Import HeapSpec.
From S2P Require Import HeapAlloc.
From S2P Require Import HeapClients.
From S2P Require Import HeapTheorems.
From S2P Require Import LibcString.
From S2P Require Import LibcNumber.
From S2P Require Import LibcFormat.
From S2P Require Import LibcTime.
From S2P Require Import LibcAlloc.
#[local] Open Scope Z_scope.

(** ** Memory and strings *)

(** C24: copies write the destination and nothing else. [memmove] gives the
    old source for every overlap, on both sides, [memcpy] for every overlap but
    a destination inside the source, [memset] fills; [strncpy], [strcpy] and
    [strcat] of strings that do not overlap the destination end, write the bytes
    and the terminator (or the padding), and stay inside what C promises. *)
Theorem copies_exact m dst src n v :
  copied dst src n m (memmove dst src n m) /\
  (dst <= src \/ src + Z.of_nat n <= dst -> copied dst src n m (memcpy dst src n m)) /\
  mem_list n (memset dst v n m) dst = replicate n (u8 v) /\ same_off dst (Z.of_nat n) m (memset dst v n m) /\
  (forall x, cstring m src x -> dst + Z.of_nat n <= src \/ src + Z.of_nat (length x) + 1 <= dst ->
     mem_list n (strncpy n dst src m) dst = take n (x ++ replicate n 0) /\ same_off dst (Z.of_nat n) m (strncpy n dst src m)) /\
  (forall fuel x, cstring m src x -> (length x < fuel)%nat -> dst + Z.of_nat (length x) + 1 <= src \/ src + Z.of_nat (length x) + 1 <= dst ->
     exists m', strcpy fuel dst src m = Some m' /\ cstring m' dst x /\ same_off dst (Z.of_nat (length x) + 1) m m') /\
  (forall fuel x y, cstring m src x -> cstring m dst y -> (length x < fuel)%nat -> (length y < fuel)%nat ->
     dst + Z.of_nat (length y) + Z.of_nat (length x) + 1 <= src \/ src + Z.of_nat (length x) + 1 <= dst ->
     exists m', strcat fuel dst src m = Some m' /\ cstring m' dst (y ++ x) /\ same_off dst (Z.of_nat (length (y ++ x)) + 1) m m').
Proof.
  split; [apply memmove_ok|]. split; [apply memcpy_ok|]. destruct (memset_ok dst v n m) as [S1 S2]. split; [done|]. split; [done|].
  split; [intros x Hx Hd; apply strncpy_ok; (done || lia)|]. split; [intros fuel x Hx Hf Hd; apply copy_string_ok; (done || lia)|].
  intros fuel x y Hx Hy Hfx Hfy Hd. apply strcat_ok; (done || lia).
Qed.

(** "ab" at 100 and "c" at 200. *)
Definition two_strings : mem := fun x => if x =? 100 then 97 else if x =? 101 then 98 else if x =? 200 then 99 else 0.

Lemma copies_exact_witness : (exists m', strcat 5 100 200 two_strings = Some m' /\ cstring m' 100 [97; 98; 99]) /\ copied 99 100 2 two_strings (memmove 99 100 2 two_strings).
Proof.
  destruct (copies_exact two_strings 100 200 2 0) as (_ & _ & _ & _ & _ & _ & H). destruct (H 5%nat [99] [97; 98]) as (m' & H1 & H2 & _);
    [split; [lia|]; split; reflexivity|split; [lia|]; split; [reflexivity|]; split; [lia|]; split; reflexivity|cbn; lia|cbn; lia|cbn; lia|].
  split; [exists m'; split; [exact H1|exact H2]|]. exact (proj1 (copies_exact two_strings 99 100 2 0)).
Defined.

(** The string functions that only read, on any two strings in memory:
    all of them end; [strlen] is the length; the comparisons are the sign of
    the first difference (of the folded characters), which is zero just for
    equal strings, antisymmetric and transitive; [strchr] and [strstr] find
    the first occurrence and [strrchr] the last, the terminator included. *)
Theorem string_reads_exact fuel m a b x y ch n : cstring m a x -> cstring m b y -> (length x < fuel)%nat -> (length y < fuel)%nat ->
  Forall (fun c => 0 < c) x -> Forall (fun c => 0 < c) y ->
  strlen fuel m a = Some (Z.of_nat (length x)) /\
  strcmp fuel m a b = Some (str_diff x y) /\ strncmp n m a b = str_diff (take n x) (take n y) /\
  strcasecmp fuel m a b = Some (str_diff (map tolower x) (map tolower y)) /\
  strncasecmp n m a b = str_diff (map tolower (take n x)) (map tolower (take n y)) /\
  (str_diff x y = 0 <-> x = y) /\ str_diff y x = - str_diff x y /\
  (forall z, Forall (fun c => 0 < c) z -> str_diff x y < 0 -> str_diff y z < 0 -> str_diff x z < 0) /\
  (exists r, strchr fuel m a ch = Some r /\
     (r = 0 /\ u8 ch ∉ x ++ [0] \/ exists l1 l2, x ++ [0] = l1 ++ u8 ch :: l2 /\ (u8 ch ∉ l1) /\ r = a + Z.of_nat (length l1))) /\
  (exists r, strrchr fuel m a ch = Some r /\
     (r = 0 /\ u8 ch ∉ x ++ [0] \/ exists l1 l2, x ++ [0] = l1 ++ u8 ch :: l2 /\ (u8 ch ∉ l2) /\ r = a + Z.of_nat (length l1))) /\
  (y <> [] -> exists r, strstr fuel m a b = Some r /\
     (r = 0 /\ (forall i, ~ y `prefix_of` drop i x) \/
      exists i, r = a + Z.of_nat i /\ y `prefix_of` drop i x /\ forall j, (j < i)%nat -> ~ y `prefix_of` drop j x)).
Proof.
  intros Hx Hy Hfx Hfy Px Py. split; [by apply strlen_ok|]. split; [by apply strcmp_ok|]. split; [by apply strncmp_ok|]. split; [by apply strcasecmp_ok|].
  split; [by apply strncasecmp_ok|]. split; [by apply str_diff_zero|]. split; [apply str_diff_sym|]. split; [intros z Pz; by apply str_diff_trans|]. split; [|split].
  - eexists. split; [by apply strchr_ok|]. apply find_index_first.
  - eexists. split; [by apply strrchr_ok|]. pose proof (last_index_ok (u8 ch) (x ++ [0]) a None) as Hl. destruct (last_index (u8 ch) a (x ++ [0]) None) as [j|]; cbn [default].
    + right. destruct Hl as [[? _]|(l1 & l2 & E & -> & Hn)]; [done|]. by exists l1, l2.
    + left. by destruct Hl.
  - intros Hne. eexists. split; [by apply strstr_ok|]. rewrite decide_False by done. pose proof (occurrence_ok y x Hne) as Ho. destruct (occurrence y x) as [i|]; [right; exists i; by destruct Ho|by left].
Qed.

Lemma string_reads_exact_witness : strcmp 5 two_strings 100 200 = Some (-2) /\ exists r, strchr 5 two_strings 100 98 = Some r.
Proof.
  destruct (string_reads_exact 5 two_strings 100 200 [97; 98] [99] 98 2) as (_ & H1 & _ & _ & _ & _ & _ & _ & (r & H2 & _) & _);
    [split; [lia|]; split; [reflexivity|]; split; [lia|]; split; reflexivity|split; [lia|]; split; reflexivity|cbn; lia|cbn; lia
    |repeat constructor|repeat constructor|].
  split; [exact H1|]. exists r. exact H2.
Defined.

(** ** Numbers *)

(** C25: [strtol] and [strtoul] agree with the reading of a numeral as sign,
    prefix and digits, whatever the string and the base: bad bases give
    EINVAL, no digits give 0 and the start, too large values are clamped
    with ERANGE, and the end pointer is behind the last digit. *)
Theorem strto_exact fuel m nptr base x : cstring m nptr x -> (length x < fuel)%nat ->
  strtol fuel m nptr base = Some (strtol_spec base x nptr) /\ strtoul fuel m nptr base = Some (strtoul_spec base x nptr).
Proof. intros Hx Hf. split; [by apply strtol_ok|by apply strtoul_ok]. Qed.

(** "-0x1f" at 100. *)
Definition hex_string : mem := fun x =>
  if x =? 100 then 45 else if x =? 101 then 48 else if x =? 102 then 120 else if x =? 103 then 49 else if x =? 104 then 102 else 0.

Lemma hex_string_ok : cstring hex_string 100 [45; 48; 120; 49; 102].
Proof. repeat (split; [lia|]; split; [reflexivity|]). reflexivity. Qed.

Lemma strto_exact_witness : strtol 10 hex_string 100 0 = Some (StrtoResult (-31) 105 None).
Proof. destruct (strto_exact 10 hex_string 100 0 _ hex_string_ok) as [H _]; [cbn; lia|]. rewrite H. reflexivity. Defined.

(** Numbers printed by [%ld], [%lu], [%lo], [%lx] and [%lX] are read back
    by [strtol] and [strtoul] in the base they were printed in, and never
    have more than 64 digits, the room of the conversion buffer. *)
Theorem numbers_roundtrip v nptr :
  (exists text, format_text (fun _ => []) [37; 108; 100] [ArgInt v] = Some text /\
     strtol_spec 10 text nptr = StrtoResult (s64 v) (nptr + zlen text) None /\ (length text <= 65)%nat) /\
  (forall spec base, (spec, base) ∈ [(117, 10); (111, 8); (120, 16); (88, 16)] ->
     exists text, format_text (fun _ => []) [37; 108; spec] [ArgInt v] = Some text /\
       strtoul_spec base text nptr = StrtoResult (u64 v) (nptr + zlen text) None /\ (length text <= 64)%nat).
Proof. split; [apply signed_roundtrip|intros spec base; apply unsigned_roundtrip]. Qed.

Lemma numbers_roundtrip_witness : exists text, format_text (fun _ => []) [37; 108; 120] [ArgInt 255] = Some text /\
  strtoul_spec 16 text 100 = StrtoResult 255 (100 + zlen text) None.
Proof.
  destruct (numbers_roundtrip 255 100) as [_ H]. destruct (H 120 16) as (text & H1 & H2 & _); [right; right; left|].
  exists text. split; [exact H1|exact H2].
Defined.

(** ** Formatted output *)

(** C26: [vsnprintf] ends, returns the length of the whole text (at most
    INT_MAX), puts as much of it as fits before a terminator, and writes no
    byte outside the buffer; the text is that of the reference formatter. The
    reference has a text when every directive has its arguments, a width of
    at most INT_MAX and a precision of at most INT_MAX - 3 ([field_ok]; wider
    fields wrap, see [wide_field_lost]); a pointer argument is null or a
    string of at most INT_MAX bytes that does not overlap the buffer, and the
    whole text is shorter than 2^64 bytes. *)
Theorem vsnprintf_exact m0 dst size strs fuel fmt ap text : is_u64 size -> 0 <= dst -> Forall (arg_ok m0 dst size strs fuel) ap ->
  format_text strs fmt ap = Some text -> zlen text < 18446744073709551616 ->
  exists m', vsnprintf fuel dst size fmt ap m0 = Some (Z.min (zlen text) INT_MAX, m') /\
    same_off dst (if dst =? 0 then 0 else Z.min (zlen text + 1) size) m0 m' /\
    (dst <> 0 -> 0 < size -> let n := Z.to_nat (Z.min (zlen text) (size - 1)) in mem_list n m' dst = take n text /\ m' (dst + Z.of_nat n) = 0).
Proof. intros Hs Hd Ha Ht Hl. by apply (vsnprintf_ok m0 dst size Hs strs). Qed.

(** "%5d" of -42 into a buffer of four bytes. *)
Lemma vsnprintf_exact_witness : exists m', vsnprintf 10 1000 4 [37; 53; 100] [ArgInt (-42)] (fun _ => 7) = Some (5, m') /\
  mem_list 3 m' 1000 = [32; 32; 45] /\ m' 1003 = 0 /\ m' 1004 = 7.
Proof.
  destruct (vsnprintf_exact (fun _ => 7) 1000 4 (fun _ => []) 10 [37; 53; 100] [ArgInt (-42)] [32; 32; 45; 52; 50]) as (m' & H1 & H2 & H3);
    [cint|lia|repeat constructor|reflexivity|reflexivity|].
  exists m'. split; [exact H1|]. destruct (H3 ltac:(lia) ltac:(lia)) as [H4 H5]. split; [exact H4|]. split; [exact H5|]. apply H2. cbn. lia.
Defined.

(** ** Calendar *)

(** C27: [mktime] and [gmtime_r] are inverse on the times within 6*10^16
    seconds of 1970 and the years within 1.9 billion of 1900, for which the
    [int] year does not wrap: every such time is split into a well-formed
    date of the Gregorian calendar and read back, and every such well-formed
    date comes back from its time. The weekday is right from 1970 on; before,
    it is one day late except at midnight. *)
Theorem calendar_exact timer t : - 60000000000000000 <= timer <= 60000000000000000 -> time_ok t -> - 1900000000 <= tm_year t <= 1900000000 ->
  mktime (gmtime_r timer) = timer /\ time_ok (gmtime_r timer) /\
  days_to_year (tm_year (gmtime_r timer) + 1900) + tm_yday (gmtime_r timer) = timer / 86400 /\
  (let g := gmtime_r (mktime t) in
   tm_sec g = tm_sec t /\ tm_min g = tm_min t /\ tm_hour g = tm_hour t /\ tm_mday g = tm_mday t /\ tm_mon g = tm_mon t /\ tm_year g = tm_year t /\ tm_yday g = tm_yday t) /\
  (0 <= timer \/ timer mod 86400 = 0 -> tm_wday (gmtime_r timer) = weekday timer) /\
  (timer < 0 -> timer mod 86400 <> 0 -> tm_wday (gmtime_r timer) = (weekday timer + 1) mod 7 /\ tm_wday (gmtime_r timer) <> weekday timer).
Proof.
  intros Hr Ht Hd. destruct (gmtime_ok timer Hr) as (G1 & G2 & _). split; [by apply mktime_gmtime|]. split; [done|]. split; [done|]. split; [by apply gmtime_mktime|].
  split; [apply gmtime_wday_ok|apply gmtime_wday_late].
Qed.

Definition new_year_2000 : tm := Tm 59 59 23 31 11 99 5 364 0.

Lemma calendar_exact_witness : mktime (gmtime_r (-1)) = -1 /\ tm_wday (gmtime_r (-1)) = 4 /\ weekday (-1) = 3 /\ tm_mday (gmtime_r (mktime new_year_2000)) = 31.
Proof.
  destruct (calendar_exact (-1) new_year_2000) as (H1 & _ & _ & (_ & _ & _ & H2 & _) & _ & H3); [lia| |vm_compute; split; congruence|].
  { split; vm_compute; try (split; congruence); try congruence; reflexivity. }
  split; [exact H1|]. split; [destruct (H3 eq_refl) as [H _]; [vm_compute; congruence|exact H]|]. split; [reflexivity|exact H2].
Defined.

(** [strftime] writes the text of its conversions as far as it fits, with
    its terminator and inside the buffer, and returns its length, or 0 when
    it does not fit; and seconds printed with "%s" are read back by
    [strptime] for every time before 2038. *)
Theorem strftime_exact m0 s max format t timer fuel m : is_u64 max -> max <> 0 -> s <> 0 -> int_fields t ->
  0 <= timer < 2147483648 ->
  let text := strftime_text format t in
  let seconds := strftime_text [37; 115] (gmtime_r timer) in
  zlen text < 18446744073709551616 -> cstring m s seconds -> (length seconds < fuel)%nat ->
  (exists m', strftime s max format t m0 = (if zlen text <? max then zlen text else 0, m') /\ same_off s (Z.min (zlen text + 1) max) m0 m' /\
     let n := Z.min (zlen text) (max - 1) in mem_list (Z.to_nat n) m' s = take (Z.to_nat n) text /\ m' (s + n) = 0) /\
  strptime fuel m s (Some [37; 115]) (Some t) = Some (s + zlen seconds, Some (gmtime_r timer)).
Proof. intros H1 H2 H3 H4 H5 text seconds H6 H7 H8. split; [by apply strftime_ok|by apply seconds_roundtrip]. Qed.

(** "17" at 100. *)
Definition seventeen : mem := fun x => if x =? 100 then 49 else if x =? 101 then 55 else 0.

Lemma strftime_exact_witness : exists m', strftime 100 20 [37; 70] new_year_2000 (fun _ => 0) = (10, m') /\
  mem_list 10 m' 100 = [49; 57; 57; 57; 45; 49; 50; 45; 51; 49] /\ strptime 9 seventeen 100 (Some [37; 115]) (Some new_year_2000) = Some (102, Some (gmtime_r 17)).
Proof.
  destruct (strftime_exact (fun _ => 0) 100 20 [37; 70] new_year_2000 17 9 seventeen) as [(m' & H1 & _ & H2 & _) H3];
    [cint|done|done|repeat apply Forall_cons_2; try apply Forall_nil_2; vm_compute; split; congruence|lia|reflexivity
    |vm_compute; split_and!; congruence|vm_compute; lia|].
  exists m'. split; [exact H1|]. split; [exact H2|exact H3].
Defined.

(** ** Allocation *)

(** C28: the allocation functions on the kernel heap: [malloc] makes a new
    object or refuses; [calloc] makes a zeroed one and refuses every product
    that does not fit 32 bits; [realloc] keeps the contents, releases the old
    block only when the new one is there, and leaves everything as it was
    when memory is short; [free] removes the object. No other object
    changes, nothing counts as a fault, and errno is ENOMEM exactly after a
    refusal. *)
Theorem malloc_family_refines fuel l o count size ptr bs : represents (lc_kmem l) o -> is_u64 count -> is_u64 size -> o !! ptr = Some bs ->
  (exists o', let '(r, l') := malloc size l in new_object size (fresh_byte size) o r o' /\ leads_to l l' o' /\ errno_after size r l l') /\
  (exists o', let '(r, l') := calloc count size l in calloc_spec count size o r o' /\ leads_to l l' o' /\ errno_after (count * size) r l l') /\
  (exists r l' o', realloc fuel ptr size l = Some (r, l') /\ realloc_spec ptr size o r o' /\ leads_to l l' o' /\ errno_after size r l l') /\
  (exists l', free fuel ptr l = Some l' /\ leads_to l l' (delete ptr o) /\ libc_errno l' = libc_errno l).
Proof.
  intros Hr Hc Hs Hp. assert (0 <= size) by (unfold is_u64 in Hs; lia). split; [by apply malloc_simulates|]. split; [by apply calloc_simulates|].
  split; [by apply realloc_simulates; [..|right; exists bs]|by apply free_leads; [|exists bs]].
Qed.

Lemma used_heap_represents : exists bs, represents used_heap {[0x200f98 := bs]} /\ length bs = 100%nat.
Proof.
  destruct used_heap_ok as (g & Hok & El). eexists. split; [exists g; split; [exact Hok|]; rewrite El; reflexivity|]. apply length_mem_list.
Qed.

Lemma malloc_family_refines_witness : exists bs r l' o', realloc 10 0x200f98 200 (Libc used_heap 0) = Some (r, l') /\
  realloc_spec 0x200f98 200 {[0x200f98 := bs]} r o' /\ represents (lc_kmem l') o'.
Proof.
  destruct used_heap_represents as (bs & Hr & _).
  destruct (malloc_family_refines 10 (Libc used_heap 0) {[0x200f98 := bs]} 3 200 0x200f98 bs Hr) as (_ & _ & (r & l' & o' & H1 & H2 & [H3 _] & _) & _);
    [cint|cint|reflexivity|]. exists bs, r, l', o'. split; [exact H1|]. split; [exact H2|exact H3].
Defined.

(** [bsearch] ends and returns an item that compares equal when the
    sorted array has one, and null just when it has none; it stays inside
    the array. *)
Theorem bsearch_exact key base nmemb size compar : let f i := compar key (base + i * size) in
  0 < key -> 0 < base -> 0 < size -> 0 <= nmemb -> base + nmemb * size < 18446744073709551616 -> sorted_for f nmemb ->
  let r := bsearch key base nmemb size (Some compar) in
  (exists i, 0 <= i < nmemb /\ r = base + i * size /\ f i = 0) \/ (r = 0 /\ forall i, 0 <= i < nmemb -> f i <> 0).
Proof. apply bsearch_ok. Qed.

Lemma bsearch_exact_witness : let compar key item := 1028 - item in
  bsearch 5 1000 10 4 (Some compar) = 1028 /\ exists i, 0 <= i < 10 /\ 1028 = 1000 + i * 4.
Proof.
  intros compar. destruct (bsearch_exact 5 1000 10 4 compar) as [(i & H1 & H2 & _)|[H _]]; [lia|lia|lia|lia|lia| |split; [reflexivity|exists i; split; [exact H1|exact H2]]|discriminate].
  intros i j Hij Hj. unfold compar. lia.
Defined.
