(* ===== verification/Buffer.v ===== *)
(** Checked access to buffers, and computations that may go wrong.

    A buffer is a list of bytes. [rd8], [rd_block], [wr8] and [wr_block] read
    and write it; they give [None] outside it, which stands for the undefined
    behaviour of C. [gives o P] says that a computation ends without such a
    fault in a value with [P].

    [C S A] is a C function over a state [S] that may fault, return early with
    a code, or go on with a value; [runs] and [only] are its two logics, with
    and without the absence of faults. *)
From Stdlib Require Import ZArith Lia String Ascii.
From stdpp Require Import base tactics option list numbers.
From S2P Require Import Prelude.
#[local] Open Scope Z_scope.

(** ** Texts *)

(** The bytes of a literal. *)
Definition chars (s : string) : list Z := map (fun c => Z.of_N (N_of_ascii c)) (list_ascii_of_string s).

(** [a] and [b] point to the rest of their buffers; behind the end is a fault. *)
Fixpoint raw_streq (a b : list Z) : option bool :=
  match a, b with
  | x :: a', y :: b' => if negb (x =? 0) && negb (y =? 0) && (x =? y) then raw_streq a' b' else Some ((x =? 0) && (y =? 0))
  | _, _ => None
  end.

(** The part of a buffer up to its terminator, which has to be there. *)
Definition terminated (p : list Z) : Prop := 0 ∈ p.

Lemma cstr_cons c p : c <> 0 -> cstr (c :: p) = c :: cstr p.
Proof. intros Hc. cbn. by rewrite (proj2 (Z.eqb_neq c 0)). Qed.

Lemma raw_streq_cstr a b : terminated a -> terminated b -> raw_streq a b = Some (bool_decide (cstr a = cstr b)).
Proof.
  unfold terminated. revert b. induction a as [|x a IH]; intros b Ha Hb; [by apply elem_of_nil in Ha|]. destruct b as [|y b]; [by apply elem_of_nil in Hb|]. cbn [raw_streq].
  destruct (Z.eqb_spec x 0) as [->|Hx]; cbn [negb andb].
  - destruct (Z.eqb_spec y 0) as [->|Hy]; cbn; [done|]. by rewrite (proj2 (Z.eqb_neq y 0)).
  - destruct (Z.eqb_spec y 0) as [->|Hy]; cbn [negb andb]; [rewrite (cstr_cons x) by done; done|]. rewrite !cstr_cons by done.
    apply elem_of_cons in Ha as [?|Ha]; [congruence|]. apply elem_of_cons in Hb as [?|Hb]; [congruence|].
    destruct (Z.eqb_spec x y) as [->|Hxy].
    + rewrite (IH b Ha Hb). f_equal. apply bool_decide_ext. split; congruence.
    + f_equal. symmetry. apply bool_decide_eq_false. congruence.
Qed.

(** ** Reads and writes *)

Definition rd8 (l : list Z) (i : Z) : option Z := if i <? 0 then None else l !! Z.to_nat i.

(** [n] bytes from [i] on. *)
Definition rd_block (l : list Z) (i n : Z) : option (list Z) :=
  if (i <? 0) || (n <? 0) || (Z.of_nat (length l) <? i + n) then None else Some (take (Z.to_nat n) (drop (Z.to_nat i) l)).

(** A checked write. *)
Definition wr8 (l : list Z) (i v : Z) : option (list Z) :=
  if (i <? 0) || (Z.of_nat (length l) <=? i) then None else Some (<[Z.to_nat i := v]> l).

(** A checked write of several bytes. *)
Definition wr_block (l : list Z) (i : Z) (bs : list Z) : option (list Z) :=
  if (i <? 0) || (Z.of_nat (length l) <? i + Z.of_nat (length bs)) then None
  else Some (take (Z.to_nat i) l ++ bs ++ drop (Z.to_nat i + length bs) l).

Lemma rd8_app_l l k i : 0 <= i < Z.of_nat (length l) -> rd8 (l ++ k) i = rd8 l i.
Proof. intros Hi. unfold rd8. destruct (Z.ltb_spec i 0); [done|]. apply lookup_app_l. lia. Qed.

Lemma rd8_app_r l k i : Z.of_nat (length l) <= i -> rd8 (l ++ k) i = rd8 k (i - Z.of_nat (length l)).
Proof.
  intros Hi. unfold rd8. destruct (Z.ltb_spec i 0), (Z.ltb_spec (i - Z.of_nat (length l)) 0); try lia. rewrite lookup_app_r by lia. f_equal. lia.
Qed.

Lemma rd8_some l i : 0 <= i < Z.of_nat (length l) -> exists v, rd8 l i = Some v /\ v ∈ l.
Proof.
  intros Hi. unfold rd8. destruct (Z.ltb_spec i 0); [lia|]. destruct (lookup_lt_is_Some_2 l (Z.to_nat i) ltac:(lia)) as [v Hv].
  exists v. split; [done|]. by eapply list_elem_of_lookup_2.
Qed.

Lemma rd8_byte l i v : bytes l -> rd8 l i = Some v -> is_u8 v.
Proof. intros Hl. unfold rd8. destruct (i <? 0); [done|]. intros Hv. rewrite Forall_elem in Hl. apply Hl. by eapply list_elem_of_lookup_2. Qed.

Lemma bytes_zeros n : bytes (replicate n 0).
Proof. apply Forall_replicate. unfold is_u8. lia. Qed.

Lemma rd_block_some l i n : 0 <= i -> 0 <= n -> i + n <= Z.of_nat (length l) -> rd_block l i n = Some (take (Z.to_nat n) (drop (Z.to_nat i) l)).
Proof.
  intros Hi Hn Hl. unfold rd_block. destruct (Z.ltb_spec i 0), (Z.ltb_spec n 0), (Z.ltb_spec (Z.of_nat (length l)) (i + n)); cbn [orb]; (done || lia).
Qed.

(** ** Computations without faults *)

Definition gives {A} (o : option A) (P : A -> Prop) : Prop := match o with Some a => P a | None => False end.

Lemma gives_bind {A B} (o : option A) (f : A -> option B) (P : A -> Prop) (Q : B -> Prop) :
  gives o P -> (forall a, P a -> gives (f a) Q) -> gives (o ≫= f) Q.
Proof. destruct o; cbn; [|done]. intros Ha Hf. by apply Hf. Qed.

Lemma gives_mono {A} (o : option A) (P Q : A -> Prop) : gives o P -> (forall a, P a -> Q a) -> gives o Q.
Proof. destruct o; cbn; [|done]. eauto. Qed.

Lemma gives_iff {A} (o : option A) (P : A -> Prop) : gives o P <-> exists a, o = Some a /\ P a.
Proof. destruct o as [a|]; cbn; split; [eauto|intros (b & [= <-] & Hb); done|done|by intros (b & ? & _)]. Qed.

Lemma gives_rd8 l i : bytes l -> 0 <= i < Z.of_nat (length l) -> gives (rd8 l i) is_u8.
Proof. intros Hl Hi. destruct (rd8_some l i Hi) as (v & -> & Hv). cbn. rewrite Forall_elem in Hl. by apply Hl. Qed.

Lemma gives_rd_block l i n : bytes l -> 0 <= i -> 0 <= n -> i + n <= Z.of_nat (length l) ->
  gives (rd_block l i n) (fun b => bytes b /\ Z.of_nat (length b) = n).
Proof.
  intros Hl Hi Hn Hle. rewrite rd_block_some by done. cbn. split; [by apply Forall_take, Forall_drop|]. rewrite length_take, length_drop. lia.
Qed.

Lemma gives_wr8 l i v : 0 <= i < Z.of_nat (length l) -> gives (wr8 l i v) (fun l' => length l' = length l).
Proof.
  intros Hi. unfold wr8. destruct (Z.ltb_spec i 0), (Z.leb_spec (Z.of_nat (length l)) i); cbn [orb gives]; try lia. apply length_insert.
Qed.

Lemma gives_wr_block l i b : 0 <= i -> i + Z.of_nat (length b) <= Z.of_nat (length l) -> gives (wr_block l i b) (fun l' => length l' = length l).
Proof.
  intros H0 Hi. unfold wr_block. destruct (Z.ltb_spec i 0), (Z.ltb_spec (Z.of_nat (length l)) (i + Z.of_nat (length b))); cbn [orb gives]; try lia.
  rewrite !length_app, length_take, length_drop. lia.
Qed.

(** A buffer of the same size that still holds bytes. *)
Definition same_buffer (o o' : option (list Z)) : Prop :=
  match o, o' with Some b, Some b' => length b' = length b /\ (bytes b -> bytes b') | None, None => True | _, _ => False end.

Lemma same_buffer_refl o : same_buffer o o.
Proof. by destruct o. Qed.

Lemma same_buffer_trans a b c : same_buffer a b -> same_buffer b c -> same_buffer a c.
Proof. destruct a, b, c; cbn; try done. intros [E1 B1] [E2 B2]. split; [congruence|auto]. Qed.

Lemma wr8_Some l i v : 0 <= i < Z.of_nat (length l) -> wr8 l i v = Some (<[Z.to_nat i := v]> l).
Proof. intros Hi. unfold wr8. destruct (Z.ltb_spec i 0), (Z.leb_spec (Z.of_nat (length l)) i); cbn [orb]; (done || lia). Qed.

Lemma wr_block_Some l i b : 0 <= i -> i + Z.of_nat (length b) <= Z.of_nat (length l) ->
  wr_block l i b = Some (take (Z.to_nat i) l ++ b ++ drop (Z.to_nat i + length b) l).
Proof. intros H0 Hi. unfold wr_block. destruct (Z.ltb_spec i 0), (Z.ltb_spec (Z.of_nat (length l)) (i + Z.of_nat (length b))); cbn [orb]; (done || lia). Qed.

(** Writes keep a buffer. *)
Lemma wr8_same l i v : 0 <= i < Z.of_nat (length l) -> is_u8 v -> gives (wr8 l i v) (fun l' => same_buffer (Some l) (Some l')).
Proof. intros Hi Hv. rewrite wr8_Some by done. cbn. split; [apply length_insert|]. intros Hl. by apply Forall_insert. Qed.

Lemma wr_block_same l i b : 0 <= i -> i + Z.of_nat (length b) <= Z.of_nat (length l) -> bytes b -> gives (wr_block l i b) (fun l' => same_buffer (Some l) (Some l')).
Proof.
  intros H0 Hi Hb. rewrite wr_block_Some by done. cbn. split; [rewrite !length_app, length_take, length_drop; lia|].
  intros Hl. repeat apply Forall_app_2; [by apply Forall_take|done|by apply Forall_drop].
Qed.

(** ** C functions over a state

    [None] is a fault, [inl c] an early [return c], [inr a] the value the
    function goes on with. *)

Definition C (S A : Type) : Type := S -> option ((Z + A) * S).

#[export] Instance C_ret S : MRet (C S) := fun A a s => Some (inr a, s).
#[export] Instance C_bind S : MBind (C S) := fun A B k m s =>
  match m s with
  | Some (inr a, s') => k a s'
  | Some (inl c, s') => Some (inl c, s')
  | None => None
  end.

Definition stop {S A} (c : Z) : C S A := fun s => Some (inl c, s).
Definition chk {S A} (o : option A) : C S A := fun s => match o with Some a => Some (inr a, s) | None => None end.
Definition need {S} (b : bool) (c : Z) : C S unit := fun s => if b then Some (inr tt, s) else Some (inl c, s).
Definition some_or {S A} (o : option A) (c : Z) : C S A := fun s => match o with Some a => Some (inr a, s) | None => Some (inl c, s) end.
Definition look {S A} (f : S -> A) : C S A := fun s => Some (inr (f s), s).
Definition change {S} (f : S -> S) : C S unit := fun s => Some (inr tt, f s).

(** The body of a loop over the items of a list. *)
Fixpoint each {S A} (l : list A) (f : A -> C S unit) : C S unit :=
  match l with [] => mret tt | a :: l' => _ ← f a; each l' f end.

(** The numbers below [n], which a counting loop goes through. *)
Definition below (n : Z) : list Z := seqZ 0 n.

(** [m] ends without a fault, with [Q] behind a value and [E] behind an early
    return. *)
Definition runs {S A} (m : C S A) (s : S) (Q : A -> S -> Prop) (E : Z -> S -> Prop) : Prop :=
  gives (m s) (fun '(r, s') => match r with inr a => Q a s' | inl c => E c s' end).

Section runs.
Context {S A B : Type}.
Implicit Types (s : S) (Q : A -> S -> Prop) (E : Z -> S -> Prop).

Lemma runs_ret (a : A) s Q E : Q a s -> runs (mret a) s Q E.
Proof. done. Qed.
Lemma runs_stop c s Q E : E c s -> runs (stop c) s Q E.
Proof. done. Qed.
Lemma runs_chk (o : option A) s Q E : gives o (fun a => Q a s) -> runs (chk o) s Q E.
Proof. unfold runs, chk. by destruct o. Qed.
Lemma runs_some_or (o : option A) c s Q E : match o with Some a => Q a s | None => E c s end -> runs (some_or o c) s Q E.
Proof. unfold runs, some_or. by destruct o. Qed.
Lemma runs_look (f : S -> A) s Q E : Q (f s) s -> runs (look f) s Q E.
Proof. done. Qed.

Lemma runs_mono (m : C S A) s Q Q' E E' : runs m s Q E -> (forall a s', Q a s' -> Q' a s') -> (forall c s', E c s' -> E' c s') -> runs m s Q' E'.
Proof. unfold runs. destruct (m s) as [[[c|a] s']|]; cbn; auto. Qed.

Lemma runs_bind (m : C S A) (k : A -> C S B) s (P : A -> S -> Prop) (Q : B -> S -> Prop) E :
  runs m s P E -> (forall a s', P a s' -> runs (k a) s' Q E) -> runs (m ≫= k) s Q E.
Proof. unfold runs, mbind, C_bind. destruct (m s) as [[[c|a] s']|]; cbn; auto. Qed.

(** The same with another reading of an early return of [m]. *)
Lemma runs_bind_to (m : C S A) (k : A -> C S B) s (P : A -> S -> Prop) (Q : B -> S -> Prop) E' E :
  runs m s P E' -> (forall c s', E' c s' -> E c s') -> (forall a s', P a s' -> runs (k a) s' Q E) -> runs (m ≫= k) s Q E.
Proof. intros Hm He Hk. eapply runs_bind; [|exact Hk]. eapply runs_mono; [exact Hm|done|exact He]. Qed.
End runs.

Lemma runs_need {S} b c (s : S) (Q : unit -> S -> Prop) (E : Z -> S -> Prop) : (b = true -> Q tt s) -> (b = false -> E c s) -> runs (need b c) s Q E.
Proof. unfold runs, need. destruct b; cbn; auto. Qed.
Lemma runs_change {S} (f : S -> S) s (Q : unit -> S -> Prop) (E : Z -> S -> Prop) : Q tt (f s) -> runs (change f) s Q E.
Proof. done. Qed.

(** An invariant of a loop over a list, in what is done so far. *)
Lemma runs_each {S A} (l : list A) (f : A -> C S unit) (P : list A -> S -> Prop) (E : Z -> S -> Prop) : forall done s,
  P done s -> (forall d a rest s', done ++ l = d ++ a :: rest -> P d s' -> runs (f a) s' (fun _ s2 => P (d ++ [a]) s2) E) ->
  runs (each l f) s (fun _ s' => P (done ++ l) s') E.
Proof.
  induction l as [|a l IH]; intros dn s H0 Hf; cbn [each]; [by rewrite app_nil_r|].
  eapply runs_bind; [by apply (Hf dn a l)|]. intros u s' Hs. cbv beta in Hs. clear u. replace (dn ++ a :: l) with ((dn ++ [a]) ++ l) by (by rewrite <- app_assoc).
  apply IH; [done|]. intros d b rest s2 Heq. apply (Hf d b rest). rewrite <- Heq. by rewrite <- app_assoc.
Qed.
