(* ===== verification/Keyboard.v ===== *)
(** The keyboards: kernel/drivers/keyboard.c.

    A PS/2 keyboard sends scancodes, a USB keyboard sends reports of the keys
    that are down; both become key events, the second kind through a queue.
    What arrives, and when, is a list of inputs; reading a key takes inputs
    until there is a key. The console and the mouse that the file calls are the
    class [Console] and the list of bytes that were handed to the mouse. *)
From Stdlib Require Import ZArith Lia String Ascii.
From stdpp Require Import base tactics option list numbers.
From S2P Require Import Prelude.
From S2P Require Import Buffer.
#[local] Open Scope Z_scope.

Definition PS2_STATUS_AUX_DATA : Z := 0x20.
Definition SC_LSHIFT : Z := 0x2A.
Definition SC_RSHIFT : Z := 0x36.
Definition SC_RALT : Z := 0x38.
Definition SC_CAPSLOCK : Z := 0x3A.
Definition KEYBOARD_QUEUE_SIZE : Z := 32.

Inductive key_type : Type :=
| KEY_NONE | KEY_CHAR | KEY_ENTER | KEY_BACKSPACE | KEY_TAB | KEY_ESC | KEY_LEFT | KEY_RIGHT | KEY_UP | KEY_DOWN
| KEY_CTRL_E | KEY_CTRL_S | KEY_CTRL_Q | KEY_CTRL_W.

#[export] Instance key_type_eq_dec : EqDecision key_type.
Proof. solve_decision. Defined.

Record key_event : Type := Key { ke_type : key_type; ke_ch : Z }.

Inductive keyboard_layout : Type := KEYBOARD_LAYOUT_US | KEYBOARD_LAYOUT_DE.

Record keyboard : Type := Keyboard {
  shift_down : bool;
  caps_lock_on : bool;
  ctrl_down : bool;
  altgr_down : bool;
  extended_scancode : bool;
  current_layout : keyboard_layout;
  key_queue : list key_event;
  key_queue_head : Z;
  key_queue_tail : Z;
  usb_last_report : list Z;
  mouse_on : bool;
  mouse_bytes : list Z
}.

Definition set_modifiers (shift ctrl altgr : bool) (k : keyboard) : keyboard := Keyboard shift (caps_lock_on k) ctrl altgr (extended_scancode k) (current_layout k) (key_queue k) (key_queue_head k) (key_queue_tail k) (usb_last_report k) (mouse_on k) (mouse_bytes k).
Definition set_caps (caps : bool) (k : keyboard) : keyboard := Keyboard (shift_down k) caps (ctrl_down k) (altgr_down k) (extended_scancode k) (current_layout k) (key_queue k) (key_queue_head k) (key_queue_tail k) (usb_last_report k) (mouse_on k) (mouse_bytes k).
Definition set_extended (ext : bool) (k : keyboard) : keyboard := Keyboard (shift_down k) (caps_lock_on k) (ctrl_down k) (altgr_down k) ext (current_layout k) (key_queue k) (key_queue_head k) (key_queue_tail k) (usb_last_report k) (mouse_on k) (mouse_bytes k).
Definition keyboard_set_layout (layout : keyboard_layout) (k : keyboard) : keyboard := Keyboard (shift_down k) (caps_lock_on k) (ctrl_down k) (altgr_down k) (extended_scancode k) layout (key_queue k) (key_queue_head k) (key_queue_tail k) (usb_last_report k) (mouse_on k) (mouse_bytes k).
Definition set_queue (q : list key_event) (head tail : Z) (k : keyboard) : keyboard := Keyboard (shift_down k) (caps_lock_on k) (ctrl_down k) (altgr_down k) (extended_scancode k) (current_layout k) q head tail (usb_last_report k) (mouse_on k) (mouse_bytes k).
Definition set_report (r : list Z) (k : keyboard) : keyboard := Keyboard (shift_down k) (caps_lock_on k) (ctrl_down k) (altgr_down k) (extended_scancode k) (current_layout k) (key_queue k) (key_queue_head k) (key_queue_tail k) r (mouse_on k) (mouse_bytes k).
(** The byte goes to mouse_handle_byte of mouse.c. *)
Definition to_mouse (b : Z) (k : keyboard) : keyboard := Keyboard (shift_down k) (caps_lock_on k) (ctrl_down k) (altgr_down k) (extended_scancode k) (current_layout k) (key_queue k) (key_queue_head k) (key_queue_tail k) (usb_last_report k) (mouse_on k) (mouse_bytes k ++ [b]).

Definition keyboard_get_layout (k : keyboard) : keyboard_layout := current_layout k.
Definition keyboard_layout_name (l : keyboard_layout) : string := match l with KEYBOARD_LAYOUT_DE => "de" | KEYBOARD_LAYOUT_US => "us" end.

(** ** Characters *)

Definition c (a : ascii) : Z := Z.of_N (N_of_ascii a).
#[local] Arguments c a%_char.
Definition quote : Z := 34.

(** A switch: the value of the first case that fits. *)
Fixpoint switch {A} (x : Z) (cases : list (Z * A)) (d : A) : A :=
  match cases with
  | [] => d
  | (y, a) :: cases' => if x =? y then a else switch x cases' d
  end.

Definition apply_alpha_case (k : keyboard) (ch : Z) : Z :=
  if (ch <? c "a") || (c "z" <? ch) then ch else if xorb (shift_down k) (caps_lock_on k) then ch - c "a" + c "A" else ch.

Definition scancode_to_ascii_us (k : keyboard) (sc : Z) : Z :=
  let sh (a b : Z) := if shift_down k then a else b in
  let alpha := apply_alpha_case k in
  switch sc
    [(0x02, sh (c "!") (c "1")); (0x03, sh (c "@") (c "2")); (0x04, sh (c "#") (c "3")); (0x05, sh (c "$") (c "4")); (0x06, sh (c "%") (c "5"));
     (0x07, sh (c "^") (c "6")); (0x08, sh (c "&") (c "7")); (0x09, sh (c "*") (c "8")); (0x0A, sh (c "(") (c "9")); (0x0B, sh (c ")") (c "0"));
     (0x10, alpha (c "q")); (0x11, alpha (c "w")); (0x12, alpha (c "e")); (0x13, alpha (c "r")); (0x14, alpha (c "t")); (0x15, alpha (c "y"));
     (0x16, alpha (c "u")); (0x17, alpha (c "i")); (0x18, alpha (c "o")); (0x19, alpha (c "p")); (0x1E, alpha (c "a")); (0x1F, alpha (c "s"));
     (0x20, alpha (c "d")); (0x21, alpha (c "f")); (0x22, alpha (c "g")); (0x23, alpha (c "h")); (0x24, alpha (c "j")); (0x25, alpha (c "k"));
     (0x26, alpha (c "l")); (0x2C, alpha (c "z")); (0x2D, alpha (c "x")); (0x2E, alpha (c "c")); (0x2F, alpha (c "v")); (0x30, alpha (c "b"));
     (0x31, alpha (c "n")); (0x32, alpha (c "m")); (0x39, c " ");
     (0x0C, sh (c "_") (c "-")); (0x0D, sh (c "+") (c "=")); (0x1A, sh (c "{") (c "[")); (0x1B, sh (c "}") (c "]")); (0x27, sh (c ":") (c ";"));
     (0x28, sh quote (c "'")); (0x29, sh (c "~") (c "`")); (0x2B, sh (c "|") (c "\")); (0x33, sh (c "<") (c ",")); (0x34, sh (c ">") (c "."));
     (0x35, sh (c "?") (c "/")); (0x1C, 10); (0x0E, 8); (0x0F, 9)] 0.

Definition scancode_to_ascii_de (k : keyboard) (sc : Z) : Z :=
  let sh (a b : Z) := if shift_down k then a else b in
  let alpha := apply_alpha_case k in
  if altgr_down k then
    switch sc [(0x08, c "{"); (0x09, c "["); (0x0A, c "]"); (0x0B, c "}"); (0x0C, c "\"); (0x10, c "@"); (0x1B, c "~"); (0x56, c "|")] 0
  else
  switch sc
    [(0x02, sh (c "!") (c "1")); (0x03, sh quote (c "2")); (0x04, sh (c "#") (c "3")); (0x05, sh (c "$") (c "4")); (0x06, sh (c "%") (c "5"));
     (0x07, sh (c "&") (c "6")); (0x08, sh (c "/") (c "7")); (0x09, sh (c "(") (c "8")); (0x0A, sh (c ")") (c "9")); (0x0B, sh (c "=") (c "0"));
     (0x10, alpha (c "q")); (0x11, alpha (c "w")); (0x12, alpha (c "e")); (0x13, alpha (c "r")); (0x14, alpha (c "t")); (0x15, alpha (c "z"));
     (0x16, alpha (c "u")); (0x17, alpha (c "i")); (0x18, alpha (c "o")); (0x19, alpha (c "p")); (0x1E, alpha (c "a")); (0x1F, alpha (c "s"));
     (0x20, alpha (c "d")); (0x21, alpha (c "f")); (0x22, alpha (c "g")); (0x23, alpha (c "h")); (0x24, alpha (c "j")); (0x25, alpha (c "k"));
     (0x26, alpha (c "l")); (0x2C, alpha (c "y")); (0x2D, alpha (c "x")); (0x2E, alpha (c "c")); (0x2F, alpha (c "v")); (0x30, alpha (c "b"));
     (0x31, alpha (c "n")); (0x32, alpha (c "m")); (0x39, c " ");
     (0x0C, sh (c "?") 0); (0x0D, sh (c "`") (c "'")); (0x1A, 0); (0x1B, sh (c "*") (c "+")); (0x27, 0); (0x28, 0); (0x29, c "^");
     (0x2B, sh (c "'") (c "#")); (0x33, sh (c ";") (c ",")); (0x34, sh (c ":") (c ".")); (0x35, sh (c "_") (c "-")); (0x56, sh (c ">") (c "<"));
     (0x1C, 10); (0x0E, 8); (0x0F, 9)] 0.

Definition scancode_to_ascii (k : keyboard) (sc : Z) : Z :=
  match current_layout k with KEYBOARD_LAYOUT_DE => scancode_to_ascii_de k sc | KEYBOARD_LAYOUT_US => scancode_to_ascii_us k sc end.

(** ** The queue *)

Definition keyboard_queue_push (key : key_event) (k : keyboard) : Z * keyboard :=
  if decide (ke_type key = KEY_NONE) then (0, k)
  else
    let next := (key_queue_head k + 1) mod KEYBOARD_QUEUE_SIZE in
    if next =? key_queue_tail k then (-1, k)
    else (0, set_queue (<[Z.to_nat (key_queue_head k) := key]> (key_queue k)) next (key_queue_tail k) k).

Definition keyboard_queue_pop (k : keyboard) : option key_event * keyboard :=
  if key_queue_tail k =? key_queue_head k then (None, k)
  else (key_queue k !! Z.to_nat (key_queue_tail k), set_queue (key_queue k) (key_queue_head k) ((key_queue_tail k + 1) mod KEYBOARD_QUEUE_SIZE) k).

(** ** USB *)

Definition letters : list Z :=
  [0x1E; 0x30; 0x2E; 0x20; 0x12; 0x21; 0x22; 0x23; 0x17; 0x24; 0x25; 0x26; 0x32; 0x31; 0x18; 0x19; 0x10; 0x13; 0x1F; 0x14; 0x16; 0x2F; 0x11; 0x2D; 0x15; 0x2C].
Definition digits : list Z := [0x02; 0x03; 0x04; 0x05; 0x06; 0x07; 0x08; 0x09; 0x0A; 0x0B].

Definition usb_hid_to_set1_scancode (code : Z) : Z :=
  if (0x04 <=? code) && (code <=? 0x1D) then default 0 (letters !! Z.to_nat (code - 0x04))
  else if (0x1E <=? code) && (code <=? 0x27) then default 0 (digits !! Z.to_nat (code - 0x1E))
  else switch code
    [(0x28, 0x1C); (0x29, 0x01); (0x2A, 0x0E); (0x2B, 0x0F); (0x2C, 0x39); (0x2D, 0x0C); (0x2E, 0x0D); (0x2F, 0x1A); (0x30, 0x1B); (0x31, 0x2B);
     (0x32, 0x2B); (0x33, 0x27); (0x34, 0x28); (0x35, 0x29); (0x36, 0x33); (0x37, 0x34); (0x38, 0x35); (0x39, SC_CAPSLOCK)] 0.

Definition usb_report_contains_key (report : list Z) (code : Z) : bool := existsb (fun x => x =? code) (take 6 (drop 2 report)).

(** [None]: the function returns 0. *)
Definition usb_hid_key_to_event (hid_code : Z) (k : keyboard) : option key_event * keyboard :=
  match switch hid_code [(0x4F, Some KEY_RIGHT); (0x50, Some KEY_LEFT); (0x51, Some KEY_DOWN); (0x52, Some KEY_UP)] None with
  | Some t => (Some (Key t 0), k)
  | None =>
      let code := usb_hid_to_set1_scancode hid_code in
      if code =? 0 then (None, k)
      else if code =? SC_CAPSLOCK then (None, set_caps (negb (caps_lock_on k)) k)
      else
        match (if ctrl_down k then switch code [(0x12, Some KEY_CTRL_E); (0x1F, Some KEY_CTRL_S); (0x10, Some KEY_CTRL_Q); (0x11, Some KEY_CTRL_W)] None else None) with
        | Some t => (Some (Key t 0), k)
        | None =>
            match switch code [(0x01, Some (Key KEY_ESC 0)); (0x1C, Some (Key KEY_ENTER 10)); (0x0E, Some (Key KEY_BACKSPACE 8)); (0x0F, Some (Key KEY_TAB 9))] None with
            | Some e => (Some e, k)
            | None => let ch := scancode_to_ascii k code in if ch =? 0 then (None, k) else (Some (Key KEY_CHAR ch), k)
            end
        end
  end.

(** The body of the loop over the keys of a report. *)
Definition usb_key (k : keyboard) (code : Z) : keyboard :=
  if (code =? 0) || (code =? 1) || usb_report_contains_key (usb_last_report k) code then k
  else match usb_hid_key_to_event code k with
       | (Some key, k) => snd (keyboard_queue_push key k)
       | (None, k) => k
       end.

Definition normalized (report : list Z) : list Z := take 8 report ++ replicate (8 - length report) 0.

Definition keyboard_apply_usb_boot_report (report : list Z) (k : keyboard) : keyboard :=
  if (length report <? 3)%nat then k
  else
    let n := normalized report in
    let m := byte_at n 0 in
    let k := set_modifiers (negb (Z.land m 0x22 =? 0)) (negb (Z.land m 0x11 =? 0)) (negb (Z.land m 0x40 =? 0)) k in
    set_report n (foldl usb_key k (drop 2 n)).

(** ** PS/2 *)

Definition keyboard_decode_event (status sc : Z) (k : keyboard) : option key_event * keyboard :=
  if negb (Z.land status PS2_STATUS_AUX_DATA =? 0) then (None, if mouse_on k then to_mouse sc k else k)
  else if sc =? 0xE0 then (None, set_extended true k)
  else
    let extended := extended_scancode k in
    let k := set_extended false k in
    let released := negb (Z.land sc 0x80 =? 0) in
    let code := Z.land sc 0x7F in
    if extended && (code =? SC_RALT) then (None, set_modifiers (shift_down k) (ctrl_down k) (negb released) k)
    else if negb extended && ((code =? SC_LSHIFT) || (code =? SC_RSHIFT)) then (None, set_modifiers (negb released) (ctrl_down k) (altgr_down k) k)
    else if code =? 0x1D then (None, set_modifiers (shift_down k) (negb released) (altgr_down k) k)
    else if negb extended && (code =? SC_CAPSLOCK) && negb released then (None, set_caps (negb (caps_lock_on k)) k)
    else if released then (None, k)
    else if extended then
      (Some (Key (switch code [(0x4B, KEY_LEFT); (0x4D, KEY_RIGHT); (0x48, KEY_UP); (0x50, KEY_DOWN)] KEY_NONE) 0), k)
    else
      let ctrl := if ctrl_down k then switch code [(0x12, KEY_CTRL_E); (0x1F, KEY_CTRL_S); (0x10, KEY_CTRL_Q); (0x11, KEY_CTRL_W)] KEY_NONE else KEY_NONE in
      if negb (bool_decide (ctrl = KEY_NONE)) then (Some (Key ctrl 0), k)
      else if code =? 0x01 then (Some (Key KEY_ESC 0), k)
      else if code =? 0x1C then (Some (Key KEY_ENTER 10), k)
      else if code =? 0x0E then (Some (Key KEY_BACKSPACE 8), k)
      else if code =? 0x0F then (Some (Key KEY_TAB 9), k)
      else
        let ch := scancode_to_ascii k code in
        if negb (ch =? 0) then (Some (Key KEY_CHAR ch), k) else (None, k).

(** The bytes that wait in the controller are read and dropped. *)
Definition keyboard_init (ps2 : list (Z * Z)) (k : keyboard) : keyboard * list (Z * Z) :=
  (Keyboard false false false false false KEYBOARD_LAYOUT_US (key_queue k) 0 0 (replicate 8 0) (mouse_on k) (mouse_bytes k), []).

(** The loop over the bytes that wait, with their status; the rest stays. *)
Fixpoint poll_loop (ps2 : list (Z * Z)) (k : keyboard) : option key_event * keyboard * list (Z * Z) :=
  match ps2 with
  | [] => (None, k, [])
  | (status, sc) :: rest =>
      match keyboard_decode_event status sc k with
      | (Some key, k) => (Some key, k, rest)
      | (None, k) => poll_loop rest k
      end
  end.

Definition keyboard_poll_key (ps2 : list (Z * Z)) (k : keyboard) : option key_event * keyboard * list (Z * Z) :=
  match keyboard_queue_pop k with
  | (Some key, k) => (Some key, k, ps2)
  | (None, k) => poll_loop ps2 k
  end.

(** ** Reading keys and lines *)

(** A byte that waits in the PS/2 controller, with the status; or a call of
    usb_poll that delivers reports. *)
Inductive input : Type :=
| Ps2 (status sc : Z)
| UsbPoll (reports : list (list Z)).

(** [None]: the inputs are used up and the function waits. *)
Fixpoint keyboard_read_key (inputs : list input) (k : keyboard) : option (key_event * keyboard * list input) :=
  match keyboard_queue_pop k with
  | (Some key, k) => Some (key, k, inputs)
  | (None, k) =>
      match inputs with
      | [] => None
      | Ps2 status sc :: rest =>
          match keyboard_decode_event status sc k with
          | (Some key, k) => Some (key, k, rest)
          | (None, k) => keyboard_read_key rest k
          end
      | UsbPoll reports :: rest => keyboard_read_key rest (foldl (flip keyboard_apply_usb_boot_report) k reports)
      end
  end.

(** The console: its state and the functions of console.c that are called. *)
Class Console : Type := {
  con : Type;
  console_split_enabled : con -> bool;
  console_split_enable : con -> Z * con;
  console_split_disable : con -> con;
  console_split_focus_next : con -> con;
  console_active_pane : con -> Z;
  console_cursor_enable : bool -> con -> con;
  console_puts : list Z -> con -> con
}.

Section line.
Context `{Console}.

(** The loop before the first key: the length of what the buffer holds. *)
Fixpoint line_start (fuel : nat) (buffer : list Z) (max_len len : Z) : option Z :=
  match fuel with
  | O => None
  | S fuel' =>
      if len + 1 <? max_len then ch ← rd8 buffer len; if ch =? 0 then Some len else line_start fuel' buffer max_len (len + 1)
      else Some len
  end.

(** Going on with a buffer and a length, or returning a code. *)
Inductive line_step : Type :=
| Continue (buffer : list Z) (len : Z) (s : con)
| Return (code : Z) (buffer : list Z) (s : con).

(** The body of the loop, for one key. *)
Definition line_key (max_len : Z) (key : key_event) (buffer : list Z) (len : Z) (s : con) : option line_step :=
  let insert (ch : Z) :=
    if max_len <=? len + 1 then Some (Continue buffer len s)
    else
      buffer ← wr8 buffer len ch;
      buffer ← wr8 buffer (len + 1) 0;
      Some (Continue buffer (len + 1) (console_puts [ch] s)) in
  match ke_type key with
  | KEY_CTRL_W =>
      if negb (console_split_enabled s) then
        let '(r, s) := console_split_enable s in
        if negb (r =? 0) then Some (Continue buffer len s)
        else Some (Return 3 buffer (console_cursor_enable false (console_split_focus_next s)))
      else Some (Return 1 buffer (console_cursor_enable false (console_split_focus_next s)))
  | KEY_CTRL_E =>
      if console_split_enabled s && negb (console_active_pane s =? 0) then Some (Return 2 buffer (console_cursor_enable false (console_split_disable s)))
      else Some (Continue buffer len s)
  | KEY_ENTER => buffer ← wr8 buffer len 0; Some (Return 0 buffer (console_cursor_enable false (console_puts [10] s)))
  | KEY_BACKSPACE =>
      if 0 <? len then buffer ← wr8 buffer (len - 1) 0; Some (Continue buffer (len - 1) (console_puts [8] s)) else Some (Continue buffer len s)
  | KEY_TAB => insert (c " ")
  | KEY_CHAR => insert (ke_ch key)
  | _ => Some (Continue buffer len s)
  end.

(** What a call has come to: it returned, or waits for input. *)
Inductive line_result : Type :=
| Returned (code : Z) (buffer : list Z) (s : con) (k : keyboard) (rest : list input)
| Waiting (buffer : list Z) (len : Z) (s : con).

Fixpoint line_loop (fuel : nat) (max_len : Z) (buffer : list Z) (len : Z) (inputs : list input) (k : keyboard) (s : con) : option line_result :=
  match fuel with
  | O => None
  | S fuel' =>
      match keyboard_read_key inputs k with
      | None => Some (Waiting buffer len s)
      | Some (key, k, inputs) =>
          r ← line_key max_len key buffer len s;
          match r with
          | Continue buffer len s => line_loop fuel' max_len buffer len inputs k s
          | Return code buffer s => Some (Returned code buffer s k inputs)
          end
      end
  end.

(** A report makes at most six keys, and the queue has room for 31. *)
Definition input_keys (i : input) : nat := match i with Ps2 _ _ => 1 | UsbPoll reports => 6 * length reports end.

Definition line_fuel (inputs : list input) : nat := sum_list_with input_keys inputs + 32.

Definition console_read_line (buffer : list Z) (max_len : Z) (inputs : list input) (k : keyboard) (s : con) : option line_result :=
  if max_len =? 0 then Some (Returned 0 buffer s k inputs)
  else
    len ← line_start (Z.to_nat max_len) buffer max_len 0;
    '(buffer, len) ← (if max_len <=? len + 1 then buffer ← wr8 buffer (max_len - 1) 0; Some (buffer, max_len - 1) else Some (buffer, len));
    line_loop (line_fuel inputs) max_len buffer len inputs k (console_cursor_enable true s).
End line.

(** ** The queue is a bounded queue *)

Definition no_key : key_event := Key KEY_NONE 0.

Definition queue_length (k : keyboard) : nat := Z.to_nat ((key_queue_head k - key_queue_tail k) mod KEYBOARD_QUEUE_SIZE).

(** The keys that wait, the oldest first. *)
Definition queue_items (k : keyboard) : list key_event :=
  (fun i => default no_key (key_queue k !! Z.to_nat ((key_queue_tail k + Z.of_nat i) mod KEYBOARD_QUEUE_SIZE))) <$> seq 0 (queue_length k).

Record queue_ok (k : keyboard) : Prop := {
  qo_size : length (key_queue k) = 32%nat;
  qo_head : 0 <= key_queue_head k < 32;
  qo_tail : 0 <= key_queue_tail k < 32
}.

Lemma length_items k : length (queue_items k) = queue_length k.
Proof. unfold queue_items. by rewrite length_fmap, length_seq. Qed.

Lemma queue_room k : queue_ok k -> (length (queue_items k) <= 31)%nat.
Proof. intros [_ H1 H2]. rewrite length_items. unfold queue_length, KEYBOARD_QUEUE_SIZE. pose proof (Z.mod_pos_bound (key_queue_head k - key_queue_tail k) 32). lia. Qed.

Lemma wrap_eq x a : 0 <= x < 32 -> 0 <= a < 64 -> a mod 32 = x <-> a = x \/ a = x + 32.
Proof. intros Hx Ha. Z.div_mod_to_equations. lia. Qed.

Lemma diff_mod a b : 0 <= a < 32 -> 0 <= b < 32 -> (a - b) mod 32 = if b <=? a then a - b else a - b + 32.
Proof. intros Ha Hb. destruct (Z.leb_spec b a); [by rewrite Z.mod_small by lia|]. symmetry. apply (Z.mod_unique _ _ (-1)); lia. Qed.

Lemma pop_ok k : queue_ok k ->
  match queue_items k with
  | [] => keyboard_queue_pop k = (None, k)
  | key :: rest => exists k', keyboard_queue_pop k = (Some key, k') /\ queue_items k' = rest /\ queue_ok k'
  end.
Proof.
  intros [H1 H2 H3]. unfold keyboard_queue_pop, queue_items, queue_length, KEYBOARD_QUEUE_SIZE. rewrite diff_mod by done. destruct (Z.eqb_spec (key_queue_tail k) (key_queue_head k)) as [E|E].
  - rewrite E, Z.leb_refl, Z.sub_diag. done.
  - set (n := if key_queue_tail k <=? key_queue_head k then _ else _). assert (exists m, Z.to_nat n = S m) as [m Em] by (exists (Z.to_nat n - 1)%nat; unfold n; destruct (Z.leb_spec (key_queue_tail k) (key_queue_head k)); lia).
    rewrite Em. cbn [seq fmap list_fmap]. rewrite Z.add_0_r, (Z.mod_small (key_queue_tail k)) by lia. destruct (lookup_lt_is_Some_2 (key_queue k) (Z.to_nat (key_queue_tail k)) ltac:(lia)) as [key Hk]. rewrite Hk.
    eexists. split; [done|]. cbn [key_queue key_queue_head key_queue_tail set_queue]. set (t' := (key_queue_tail k + 1) mod 32). assert (0 <= t' < 32) as Ht' by (apply Z.mod_pos_bound; lia).
    assert (t' = key_queue_tail k + 1 \/ t' = key_queue_tail k + 1 - 32) as Et by (pose proof (proj1 (wrap_eq t' (key_queue_tail k + 1) Ht' ltac:(lia)) eq_refl); lia).
    split; [|split; cbn; done]. rewrite diff_mod by lia.
    replace (Z.to_nat (if t' <=? key_queue_head k then key_queue_head k - t' else key_queue_head k - t' + 32)) with m by (unfold n in Em; destruct (Z.leb_spec t' (key_queue_head k)), (Z.leb_spec (key_queue_tail k) (key_queue_head k)); lia).
    rewrite <- (fmap_S_seq 0 m), <- list_fmap_compose. apply list_fmap_ext. intros i x _. cbn [compose]. unfold t'. rewrite Zplus_mod_idemp_l. do 4 f_equal. lia.
Qed.

Lemma push_ok key k : queue_ok k -> ke_type key <> KEY_NONE ->
  if (length (queue_items k) <? 31)%nat then exists k', keyboard_queue_push key k = (0, k') /\ queue_items k' = queue_items k ++ [key] /\ queue_ok k' /\ usb_last_report k' = usb_last_report k
  else keyboard_queue_push key k = (-1, k).
Proof.
  intros [H1 H2 H3] Hn. rewrite length_items. unfold keyboard_queue_push, queue_items, queue_length, KEYBOARD_QUEUE_SIZE. rewrite decide_False by done. rewrite diff_mod by done.
  set (h' := (key_queue_head k + 1) mod 32). assert (0 <= h' < 32) as Hh' by (apply Z.mod_pos_bound; lia). pose proof (proj1 (wrap_eq h' (key_queue_head k + 1) Hh' ltac:(lia)) eq_refl) as Eh.
  set (n := if key_queue_tail k <=? key_queue_head k then _ else _). destruct (Nat.ltb_spec (Z.to_nat n) 31) as [Hl|Hl].
  - rewrite (proj2 (Z.eqb_neq _ _)) by (unfold n in Hl; destruct (Z.leb_spec (key_queue_tail k) (key_queue_head k)); lia). eexists. split; [done|]. cbn [key_queue key_queue_head key_queue_tail set_queue usb_last_report]. rewrite diff_mod by done.
    replace (Z.to_nat (if key_queue_tail k <=? h' then h' - key_queue_tail k else h' - key_queue_tail k + 32)) with (Z.to_nat n + 1)%nat by (unfold n in *; destruct (Z.leb_spec (key_queue_tail k) h'), (Z.leb_spec (key_queue_tail k) (key_queue_head k)); lia).
    split; [|split; [split; cbn; [by rewrite length_insert|done|done]|done]]. rewrite seq_app, fmap_app. f_equal.
    + apply list_fmap_ext. intros i x Hi%list_elem_of_lookup_2%elem_of_seq. rewrite list_lookup_insert_ne; [done|]. intros E.
      assert ((key_queue_tail k + Z.of_nat x) mod 32 = key_queue_head k) as E' by (pose proof (Z.mod_pos_bound (key_queue_tail k + Z.of_nat x) 32); lia). apply wrap_eq in E'; [|done|unfold n in *; destruct (Z.leb_spec (key_queue_tail k) (key_queue_head k)); lia]. unfold n in *; destruct (Z.leb_spec (key_queue_tail k) (key_queue_head k)); lia.
    + cbn. f_equal. replace ((key_queue_tail k + Z.of_nat (Z.to_nat n)) mod 32) with (key_queue_head k); [by rewrite list_lookup_insert_eq by lia|]. symmetry. apply wrap_eq; [done|unfold n in *; destruct (Z.leb_spec (key_queue_tail k) (key_queue_head k)); lia|unfold n in *; destruct (Z.leb_spec (key_queue_tail k) (key_queue_head k)); lia].
  - rewrite (proj2 (Z.eqb_eq _ _)); [done|]. unfold n in Hl; destruct (Z.leb_spec (key_queue_tail k) (key_queue_head k)); lia.
Qed.

(** ** The keys that are read *)

Definition key_ok (e : key_event) : Prop := ke_type e = KEY_CHAR -> ke_ch e <> 0.

Record keyboard_ok (k : keyboard) : Prop := {
  ko_queue : queue_ok k;
  ko_keys : Forall key_ok (queue_items k)
}.

(** At the start the queue is empty. *)
Lemma init_ok ps2 k : length (key_queue k) = 32%nat -> keyboard_ok (fst (keyboard_init ps2 k)) /\ queue_items (fst (keyboard_init ps2 k)) = [].
Proof. intros Hl. split; [|done]. split; [|constructor]. split; cbn; [done|lia|lia]. Qed.

(** Everything but the queue. *)
Definition same_queue (k k' : keyboard) : Prop := key_queue k' = key_queue k /\ key_queue_head k' = key_queue_head k /\ key_queue_tail k' = key_queue_tail k.

Lemma same_queue_items k k' : same_queue k k' -> queue_items k' = queue_items k.
Proof. intros (E1 & E2 & E3). unfold queue_items, queue_length. by rewrite E1, E2, E3. Qed.

Lemma same_queue_ok k k' : same_queue k k' -> keyboard_ok k -> keyboard_ok k'.
Proof. intros E [[H1 H2 H3] H4]. split; [|by rewrite (same_queue_items k k' E)]. destruct E as (E1 & E2 & E3). split; by rewrite ?E1, ?E2, ?E3. Qed.

(** What a key of the main block means; both decoders have their own copy. *)
Definition ctrl_keys : list (Z * option key_type) := [(0x12, Some KEY_CTRL_E); (0x1F, Some KEY_CTRL_S); (0x10, Some KEY_CTRL_Q); (0x11, Some KEY_CTRL_W)].
Definition plain_keys : list (Z * option key_event) := [(0x01, Some (Key KEY_ESC 0)); (0x1C, Some (Key KEY_ENTER 10)); (0x0E, Some (Key KEY_BACKSPACE 8)); (0x0F, Some (Key KEY_TAB 9))].

Definition key_of_code (code : Z) (k : keyboard) : option key_event :=
  match (if ctrl_down k then switch code ctrl_keys None else None) with
  | Some t => Some (Key t 0)
  | None =>
      match switch code plain_keys None with
      | Some e => Some e
      | None => let ch := scancode_to_ascii k code in if ch =? 0 then None else Some (Key KEY_CHAR ch)
      end
  end.

Lemma usb_event hid k : usb_hid_key_to_event hid k =
  match switch hid [(0x4F, Some KEY_RIGHT); (0x50, Some KEY_LEFT); (0x51, Some KEY_DOWN); (0x52, Some KEY_UP)] None with
  | Some t => (Some (Key t 0), k)
  | None =>
      let code := usb_hid_to_set1_scancode hid in
      if code =? 0 then (None, k) else if code =? SC_CAPSLOCK then (None, set_caps (negb (caps_lock_on k)) k) else (key_of_code code k, k)
  end.
Proof.
  unfold usb_hid_key_to_event, key_of_code, ctrl_keys, plain_keys. destruct (switch hid _ None); [done|]. cbv zeta. set (code := usb_hid_to_set1_scancode hid). destruct (code =? 0); [done|]. destruct (code =? SC_CAPSLOCK); [done|].
  destruct (if ctrl_down k then _ else _); [done|]. destruct (switch code _ None); [done|]. by destruct (_ =? 0).
Qed.

Lemma ps2_tail code k :
  (let ctrl := if ctrl_down k then switch code [(0x12, KEY_CTRL_E); (0x1F, KEY_CTRL_S); (0x10, KEY_CTRL_Q); (0x11, KEY_CTRL_W)] KEY_NONE else KEY_NONE in
   if negb (bool_decide (ctrl = KEY_NONE)) then (Some (Key ctrl 0), k)
   else if code =? 0x01 then (Some (Key KEY_ESC 0), k)
   else if code =? 0x1C then (Some (Key KEY_ENTER 10), k)
   else if code =? 0x0E then (Some (Key KEY_BACKSPACE 8), k)
   else if code =? 0x0F then (Some (Key KEY_TAB 9), k)
   else
     let ch := scancode_to_ascii k code in
     if negb (ch =? 0) then (Some (Key KEY_CHAR ch), k) else (None, k)) = (key_of_code code k, k).
Proof.
  unfold key_of_code, ctrl_keys, plain_keys. cbn [switch].
  destruct (ctrl_down k); [destruct (code =? 0x12); [done|]; destruct (code =? 0x1F); [done|]; destruct (code =? 0x10); [done|]; destruct (code =? 0x11); [done|]|];
    (rewrite bool_decide_true by done; cbn [negb]; destruct (code =? 0x01); [done|]; destruct (code =? 0x1C); [done|]; destruct (code =? 0x0E); [done|]; destruct (code =? 0x0F); [done|]; by destruct (scancode_to_ascii k code =? 0)).
Qed.

Lemma key_of_code_ok code k e : key_of_code code k = Some e -> key_ok e /\ ke_type e <> KEY_NONE.
Proof.
  unfold key_of_code, key_ok. destruct (if ctrl_down k then _ else _) as [t|] eqn:Ec.
  - intros [= <-]. destruct (ctrl_down k); [|done]. cbn in Ec. repeat (destruct (_ =? _) in Ec; [injection Ec as <-; done|]). done.
  - destruct (switch code plain_keys None) as [e'|] eqn:Ep.
    + intros [= <-]. cbn in Ep. repeat (destruct (_ =? _) in Ep; [injection Ep as <-; done|]). done.
    + destruct (Z.eqb_spec (scancode_to_ascii k code) 0); [done|]. intros [= <-]. done.
Qed.

Lemma hid_ok hid k e k' : usb_hid_key_to_event hid k = (e, k') -> same_queue k k' /\ usb_last_report k' = usb_last_report k /\ (forall key, e = Some key -> key_ok key /\ ke_type key <> KEY_NONE).
Proof.
  rewrite usb_event. cbv zeta. destruct (switch hid _ None) as [t|] eqn:Et.
  - intros [= <- <-]. split_and!; try done. intros key [= <-]. cbn in Et. repeat (destruct (_ =? _) in Et; [injection Et as <-; done|]). done.
  - destruct (_ =? 0); [by intros [= <- <-]|]. destruct (_ =? SC_CAPSLOCK); [by intros [= <- <-]|]. intros [= <- <-]. split_and!; try done. intros key. apply key_of_code_ok.
Qed.

Lemma usb_key_ok k code : keyboard_ok k -> keyboard_ok (usb_key k code) /\ (length (queue_items (usb_key k code)) <= length (queue_items k) + 1)%nat.
Proof.
  intros Hk. unfold usb_key. destruct (_ || _); [split; [done|lia]|]. destruct (usb_hid_key_to_event code k) as [e k1] eqn:E. apply hid_ok in E as (Hs & _ & He). pose proof (same_queue_ok k k1 Hs Hk) as Hk1. rewrite <- (same_queue_items k k1 Hs).
  destruct e as [key|]; [|split; [done|lia]]. destruct (He key eq_refl) as [Hok Hty]. destruct Hk1 as [Hq Hf]. pose proof (push_ok key k1 Hq Hty) as Hp. destruct (_ <? 31)%nat.
  - destruct Hp as (k2 & -> & Hi & Hq2 & _). cbn [snd]. rewrite Hi, length_app. cbn. split; [|lia]. split; [done|]. rewrite Hi. apply Forall_app. split; [done|]. by constructor.
  - rewrite Hp. cbn [snd]. split; [by split|lia].
Qed.

Lemma usb_keys_ok codes k : keyboard_ok k -> keyboard_ok (foldl usb_key k codes) /\ (length (queue_items (foldl usb_key k codes)) <= length (queue_items k) + length codes)%nat.
Proof.
  revert k. induction codes as [|code codes IH]; intros k Hk; cbn; [split; [done|lia]|]. destruct (usb_key_ok k code Hk) as [H1 H2]. destruct (IH _ H1) as [H3 H4]. split; [done|lia].
Qed.

Lemma length_normalized r : length (normalized r) = 8%nat.
Proof. unfold normalized. rewrite length_app, length_take, length_replicate. lia. Qed.

Lemma report_ok r k : keyboard_ok k -> keyboard_ok (keyboard_apply_usb_boot_report r k) /\ (length (queue_items (keyboard_apply_usb_boot_report r k)) <= length (queue_items k) + 6)%nat.
Proof.
  intros Hk. unfold keyboard_apply_usb_boot_report. destruct (_ <? 3)%nat; [split; [done|lia]|]. set (k1 := set_modifiers _ _ _ k). assert (same_queue k k1) as Hs by done.
  destruct (usb_keys_ok (drop 2 (normalized r)) k1 (same_queue_ok k k1 Hs Hk)) as [H1 H2]. rewrite length_drop, length_normalized, (same_queue_items k k1 Hs) in H2.
  assert (same_queue (foldl usb_key k1 (drop 2 (normalized r))) (set_report (normalized r) (foldl usb_key k1 (drop 2 (normalized r))))) as Hs2 by done. split; [by eapply same_queue_ok|]. rewrite (same_queue_items _ _ Hs2). lia.
Qed.

Lemma reports_ok rs k : keyboard_ok k ->
  keyboard_ok (foldl (flip keyboard_apply_usb_boot_report) k rs) /\ (length (queue_items (foldl (flip keyboard_apply_usb_boot_report) k rs)) <= length (queue_items k) + 6 * length rs)%nat.
Proof.
  revert k. induction rs as [|r rs IH]; intros k Hk; cbn [foldl length]; [split; [done|lia]|]. destruct (report_ok r k Hk) as [H1 H2]. destruct (IH _ H1) as [H3 H4].
  change (flip keyboard_apply_usb_boot_report k r) with (keyboard_apply_usb_boot_report r k). split; [exact H3|lia].
Qed.

Lemma decode_ok status sc k e k' : keyboard_decode_event status sc k = (e, k') -> same_queue k k' /\ forall key, e = Some key -> key_ok key.
Proof.
  unfold keyboard_decode_event. destruct (negb _); [intros [= <- <-]; split; [by destruct (mouse_on k)|done]|]. destruct (_ =? 0xE0); [by intros [= <- <-]|].
  destruct (_ && _); [by intros [= <- <-]|]. destruct (_ && _); [by intros [= <- <-]|]. destruct (_ =? 0x1D); [by intros [= <- <-]|]. destruct (_ && _); [by intros [= <- <-]|]. destruct (negb _); [by intros [= <- <-]|].
  destruct (extended_scancode k).
  - intros [= <- <-]. split; [done|]. intros key [= <-]. unfold key_ok. cbn [ke_type switch]. repeat (destruct (_ =? _); [done|]). done.
  - rewrite ps2_tail. intros [= <- <-]. split; [done|]. intros key Hkey. by apply key_of_code_ok in Hkey as [? _].
Qed.

(** Every key that is read uses up something. *)
Lemma read_key_ok inputs k key k' rest : keyboard_ok k -> keyboard_read_key inputs k = Some (key, k', rest) ->
  keyboard_ok k' /\ key_ok key /\ (sum_list_with input_keys rest + length (queue_items k') < sum_list_with input_keys inputs + length (queue_items k))%nat.
Proof.
  revert k. induction inputs as [|i inputs IH]; intros k Hk; cbn [keyboard_read_key]; pose proof (pop_ok k (ko_queue k Hk)) as Hp; pose proof (ko_keys k Hk) as Hf; destruct (queue_items k) as [|key0 rest0] eqn:Ei.
  - rewrite Hp. done.
  - destruct Hp as (k1 & -> & Hi & Hq). intros [= <- <- <-]. apply Forall_cons_1 in Hf as [? ?]. split_and!; [split; [done|by rewrite Hi]|done|rewrite Hi; cbn; lia].
  - rewrite Hp. destruct i as [status sc|reports].
    + destruct (keyboard_decode_event status sc k) as [[e|] k1] eqn:Ed; apply decode_ok in Ed as [Hs He].
      * intros [= <- <- <-]. split_and!; [by eapply same_queue_ok|by apply He|]. rewrite (same_queue_items k k1 Hs), Ei. cbn. lia.
      * intros Hr. apply IH in Hr as (? & ? & Hl); [|by eapply same_queue_ok]. rewrite (same_queue_items k k1 Hs), Ei in Hl. split_and!; [done..|]. cbn in *. lia.
    + destruct (reports_ok reports k Hk) as [Hk1 Hl1]. intros Hr. apply IH in Hr as (? & ? & Hl); [|done]. rewrite Ei in Hl1. split_and!; [done..|]. cbn in *. lia.
  - destruct Hp as (k1 & -> & Hi & Hq). intros [= <- <- <-]. apply Forall_cons_1 in Hf as [? ?]. split_and!; [split; [done|by rewrite Hi]|done|rewrite Hi; cbn; lia].
Qed.

(** ** C strings in buffers *)

Lemma cstr_prefix l : exists t, l = cstr l ++ t.
Proof. induction l as [|x l [t Et]]; [by exists []|]. cbn. destruct (x =? 0); [by eexists|]. exists t. cbn. by f_equal. Qed.

Lemma cstr_end l : (length (cstr l) < length l)%nat -> l !! length (cstr l) = Some 0.
Proof. induction l as [|x l IH]; cbn; [lia|]. destruct (Z.eqb_spec x 0) as [->|]; cbn; [done|]. intros Hl. apply IH. lia. Qed.

Lemma take_min_length {A} n (l : list A) : take (Nat.min n (length l)) l = take n l.
Proof. destruct (Nat.le_ge_cases n (length l)); [by rewrite Nat.min_l by lia|]. rewrite Nat.min_r by lia. by rewrite !take_ge by lia. Qed.

(** ** A line editor *)

Section editor.
Context `{Console}.

(** All keys that the inputs give. *)
Fixpoint key_stream (fuel : nat) (inputs : list input) (k : keyboard) : list key_event :=
  match fuel with
  | O => []
  | S fuel' => match keyboard_read_key inputs k with None => [] | Some (key, k, rest) => key :: key_stream fuel' rest k end
  end.

(** What a key does to a line of at most [room] characters: the line, the
    console, and the code when the line is done. *)
Definition edit_key (room : nat) (key : key_event) (line : list Z) (s : con) : option Z * list Z * con :=
  let insert (ch : Z) := if (length line <? room)%nat then (None, line ++ [ch], console_puts [ch] s) else (None, line, s) in
  match ke_type key with
  | KEY_CTRL_W =>
      if negb (console_split_enabled s) then
        let '(r, s) := console_split_enable s in
        if negb (r =? 0) then (None, line, s) else (Some 3, line, console_cursor_enable false (console_split_focus_next s))
      else (Some 1, line, console_cursor_enable false (console_split_focus_next s))
  | KEY_CTRL_E =>
      if console_split_enabled s && negb (console_active_pane s =? 0) then (Some 2, line, console_cursor_enable false (console_split_disable s)) else (None, line, s)
  | KEY_ENTER => (Some 0, line, console_cursor_enable false (console_puts [10] s))
  | KEY_BACKSPACE => match line with [] => (None, [], s) | _ => (None, take (length line - 1) line, console_puts [8] s) end
  | KEY_TAB => insert (c " ")
  | KEY_CHAR => insert (ke_ch key)
  | _ => (None, line, s)
  end.

Fixpoint edit (room : nat) (keys : list key_event) (line : list Z) (s : con) : option Z * list Z * con :=
  match keys with
  | [] => (None, line, s)
  | key :: keys' => match edit_key room key line s with (None, line, s) => edit room keys' line s | r => r end
  end.

(** The buffer holds the line; from [max] on it is as it was. *)
Record holds_line (max : nat) (buf0 buf line : list Z) : Prop := {
  hl_size : length buf = length buf0;
  hl_room : (length line < max <= length buf0)%nat;
  hl_line : take (length line) buf = line;
  hl_end : buf !! length line = Some 0;
  hl_nonzero : Forall (fun ch => ch <> 0) line;
  hl_rest : drop max buf = drop max buf0
}.

Lemma holds_cstr max buf0 buf line : holds_line max buf0 buf line -> cstr buf = line.
Proof.
  intros [H1 H2 H3 H4 H5 H6]. rewrite <- (take_drop (length line) buf), H3. rewrite (drop_S buf 0 (length line)) by done. by apply cstr_app_nul.
Qed.

Lemma wr8_in l i v : (i < length l)%nat -> wr8 l (Z.of_nat i) v = Some (<[i := v]> l).
Proof. intros Hi. unfold wr8. destruct (Z.ltb_spec (Z.of_nat i) 0), (Z.leb_spec (Z.of_nat (length l)) (Z.of_nat i)); cbn [orb]; try lia. by rewrite Nat2Z.id. Qed.

Lemma holds_insert max buf0 buf line ch : holds_line max buf0 buf line -> (length line + 1 < max)%nat -> ch <> 0 -> holds_line max buf0 (<[(length line + 1)%nat := 0]> (<[length line := ch]> buf)) (line ++ [ch]).
Proof.
  intros [H1 H2 H3 H4 H5 H6] Hl Hc. split; rewrite ?length_insert, ?length_app; cbn [length]; try done; try lia.
  - rewrite take_insert_ge by lia. rewrite Nat.add_1_r, (take_S_r _ _ ch) by (apply list_lookup_insert_eq; lia). by rewrite take_insert_ge, H3 by lia.
  - apply list_lookup_insert_eq. rewrite length_insert. lia.
  - apply Forall_app. split; [done|]. by constructor.
  - by rewrite !drop_insert_lt by lia.
Qed.

Lemma holds_back max buf0 buf line : holds_line max buf0 buf line -> line <> [] -> holds_line max buf0 (<[(length line - 1)%nat := 0]> buf) (take (length line - 1) line).
Proof.
  intros [H1 H2 H3 H4 H5 H6] Hl. assert (0 < length line)%nat as Hp by (destruct line; [done|cbn; lia]). split; rewrite ?length_insert, ?length_take, ?Nat.min_l by lia; try done; try lia.
  - rewrite take_insert_ge by lia. transitivity (take (length line - 1) (take (length line) buf)); [by rewrite take_take, Nat.min_l by lia|by rewrite H3].
  - apply list_lookup_insert_eq. lia.
  - by apply Forall_take.
  - by rewrite drop_insert_lt by lia.
Qed.

Lemma line_holds_end max buf0 buf line : holds_line max buf0 buf line -> holds_line max buf0 (<[length line := 0]> buf) line.
Proof. intros Hh. rewrite list_insert_id; [done|]. apply (hl_end _ _ _ _ Hh). Qed.

(** One key does to the buffer what it does to the line. *)
Lemma line_key_ok (max : nat) key buf0 buf line s : holds_line max buf0 buf line -> key_ok key ->
  gives (line_key (Z.of_nat max) key buf (Z.of_nat (length line)) s) (fun r =>
    let '(code, line', s') := edit_key (max - 1) key line s in
    match r with
    | Continue buf' len' s1 => code = None /\ s1 = s' /\ len' = Z.of_nat (length line') /\ holds_line max buf0 buf' line'
    | Return code1 buf' s1 => code = Some code1 /\ s1 = s' /\ holds_line max buf0 buf' line'
    end).
Proof.
  intros Hh Hk. pose proof Hh as [H1 H2 H3 H4 H5 H6]. assert (forall ch, ch <> 0 ->
    gives (if Z.of_nat max <=? Z.of_nat (length line) + 1 then Some (Continue buf (Z.of_nat (length line)) s)
      else buffer ← wr8 buf (Z.of_nat (length line)) ch; buffer ← wr8 buffer (Z.of_nat (length line) + 1) 0; Some (Continue buffer (Z.of_nat (length line) + 1) (console_puts [ch] s)))
    (fun r => let '(code, line', s') := if (length line <? max - 1)%nat then (None, line ++ [ch], console_puts [ch] s) else (None, line, s) in
      match r with
      | Continue buf' len' s1 => code = None /\ s1 = s' /\ len' = Z.of_nat (length line') /\ holds_line max buf0 buf' line'
      | Return code1 buf' s1 => code = Some code1 /\ s1 = s' /\ holds_line max buf0 buf' line'
      end)) as Hins.
  { intros ch Hch. destruct (Z.leb_spec (Z.of_nat max) (Z.of_nat (length line) + 1)), (Nat.ltb_spec (length line) (max - 1)); try lia; [done|].
    rewrite wr8_in by lia. cbn [mbind option_bind]. replace (Z.of_nat (length line) + 1) with (Z.of_nat (length line + 1)) by lia. rewrite wr8_in by (rewrite length_insert; lia). cbn [mbind option_bind gives].
    split_and!; [done|done|rewrite length_app; cbn; lia|]. apply holds_insert; [done|lia|done]. }
  unfold line_key, edit_key. destruct (ke_type key) eqn:Et; try done.
  - apply Hins. by apply Hk.
  - rewrite wr8_in by lia. cbn. split_and!; try done. by apply line_holds_end.
  - destruct (Z.ltb_spec 0 (Z.of_nat (length line))) as [Hp|Hp].
    + replace (Z.of_nat (length line) - 1) with (Z.of_nat (length line - 1)) by lia. rewrite wr8_in by lia. cbn [mbind option_bind gives]. destruct line as [|x line]; [cbn in Hp; lia|]. split_and!; [done|done|rewrite length_take; lia|]. by apply holds_back.
    + destruct line; [done|cbn in Hp; lia].
  - by apply Hins.
  - destruct (console_split_enabled s && _); done.
  - destruct (console_split_enabled s); cbn [negb]; [done|]. destruct (console_split_enable s) as [r s1]. destruct (r =? 0); done.
Qed.

Definition result_ok (max : nat) (buf0 : list Z) (e : option Z * list Z * con) (o : line_result) : Prop :=
  let '(code, line, s) := e in
  match o with
  | Returned code1 buf s1 k _ => code = Some code1 /\ s1 = s /\ holds_line max buf0 buf line /\ keyboard_ok k
  | Waiting buf len s1 => code = None /\ s1 = s /\ holds_line max buf0 buf line /\ len = Z.of_nat (length line)
  end.

Lemma line_loop_ok fuel max buf0 buf line inputs k s : keyboard_ok k -> holds_line max buf0 buf line -> (sum_list_with input_keys inputs + length (queue_items k) < fuel)%nat ->
  gives (line_loop fuel (Z.of_nat max) buf (Z.of_nat (length line)) inputs k s) (result_ok max buf0 (edit (max - 1) (key_stream fuel inputs k) line s)).
Proof.
  revert buf line inputs k s. induction fuel as [|fuel IH]; intros buf line inputs k s Hk Hh Hf; [lia|]. cbn [line_loop key_stream]. destruct (keyboard_read_key inputs k) as [[[key k1] rest]|] eqn:Er; [|by cbn].
  apply read_key_ok in Er as (Hk1 & Hkey & Hl); [|done]. cbn [edit]. eapply gives_bind; [by apply line_key_ok|]. intros r Hr. cbn beta in Hr. destruct (edit_key (max - 1) key line s) as [[code line'] s'].
  destruct r as [buf' len' s1|code1 buf' s1].
  - destruct Hr as (-> & -> & -> & Hh'). apply IH; [done|done|lia].
  - destruct Hr as (-> & -> & Hh'). cbn. done.
Qed.

Lemma cstr_first l n : (forall i, (i < n)%nat -> l !! i <> Some 0) -> l !! n = Some 0 -> cstr l = take n l.
Proof.
  intros Hn H0. rewrite <- (take_drop n l) at 1. rewrite (drop_S l 0 n) by done. apply cstr_app_nul. apply Forall_lookup_2. intros i x Hi ->. apply lookup_take_Some in Hi as [Hi Hlt]. by apply (Hn i).
Qed.

Lemma cstr_long l n : (n <= length l)%nat -> (forall i, (i < n)%nat -> l !! i <> Some 0) -> take n (cstr l) = take n l.
Proof.
  revert n. induction l as [|x l IH]; intros n Hl Hn; [done|]. destruct n as [|n]; [done|]. cbn. destruct (Z.eqb_spec x 0) as [->|Hx]; [by destruct (Hn 0%nat ltac:(lia))|]. cbn. f_equal. apply IH; [cbn in Hl; lia|]. intros i Hi. apply (Hn (S i)). lia.
Qed.

Lemma line_start_ok fuel buf (max len : nat) : (1 <= max <= length buf)%nat -> (len <= max - 1)%nat -> (max <= fuel + len)%nat -> (forall i, (i < len)%nat -> buf !! i <> Some 0) ->
  line_start fuel buf (Z.of_nat max) (Z.of_nat len) = Some (Z.of_nat (length (take (max - 1) (cstr buf)))).
Proof.
  revert len. induction fuel as [|fuel IH]; intros len Hm Hl Hf Hn; [lia|]. cbn [line_start]. destruct (Z.ltb_spec (Z.of_nat len + 1) (Z.of_nat max)).
  - unfold rd8. rewrite (proj2 (Z.ltb_ge _ _)) by lia. rewrite Nat2Z.id. destruct (lookup_lt_is_Some_2 buf len ltac:(lia)) as [x Hx]. rewrite Hx. cbn [mbind option_bind]. destruct (Z.eqb_spec x 0) as [->|Hne].
    + rewrite (cstr_first buf len Hn Hx), take_take, length_take. do 2 f_equal. lia.
    + replace (Z.of_nat len + 1) with (Z.of_nat (S len)) by lia. apply IH; [done|lia|lia|]. intros i Hi. destruct (decide (i = len)) as [->|]; [congruence|]. apply Hn. lia.
  - assert (len = max - 1)%nat as -> by lia. rewrite cstr_long, length_take by (done || lia). do 2 f_equal. lia.
Qed.

(** The line that the buffer holds at the beginning. *)
Lemma first_line (max : nat) buf : (1 <= max <= length buf)%nat ->
  let line := take (max - 1) (cstr buf) in
  if (max <=? length line + 1)%nat then holds_line max buf (<[(max - 1)%nat := 0]> buf) line else holds_line max buf buf line.
Proof.
  intros Hm line. assert (Forall (fun ch => ch <> 0) line) as Hnz by apply Forall_take, cstr_nonzero. assert (length line <= max - 1)%nat as Hle by (unfold line; rewrite length_take; lia).
  assert (take (length line) buf = line) as Ht. { unfold line. pose proof (cstr_prefix buf) as [t Et]. rewrite Et at 2. rewrite take_app_le by (rewrite length_take; lia). rewrite length_take. apply take_min_length. }
  destruct (Nat.leb_spec max (length line + 1)).
  - split; rewrite ?length_insert; try done; try lia.
    + rewrite take_insert_ge by lia. done.
    + replace (length line) with (max - 1)%nat by lia. apply list_lookup_insert_eq. lia.
    + by rewrite drop_insert_lt by lia.
  - split; try done; try lia. unfold line in *. rewrite length_take in *. replace (Nat.min (max - 1) (length (cstr buf))) with (length (cstr buf)) by lia. apply cstr_end. lia.
Qed.
End editor.

(** ** Both keyboards *)

(** The codes a USB key can be translated to are keys of the main block. *)
Lemma set1_range hid : 0 <= hid < 256 -> let code := usb_hid_to_set1_scancode hid in
  code = 0 \/ (1 <= code < 0x80 /\ code <> SC_LSHIFT /\ code <> SC_RSHIFT /\ code <> 0x1D).
Proof.
  intros Hh code. assert (forallb (fun h => let x := usb_hid_to_set1_scancode h in (x =? 0) || ((1 <=? x) && (x <? 0x80) && negb (x =? SC_LSHIFT) && negb (x =? SC_RSHIFT) && negb (x =? 0x1D))) (seqZ 0 256) = true) as Hall by (vm_compute; reflexivity).
  rewrite forallb_forall in Hall. specialize (Hall hid ltac:(apply list_elem_of_In, elem_of_seqZ; lia)). cbv zeta in Hall. fold code in Hall. apply orb_true_iff in Hall as [E|E]; bool_prop; [by left|right]. lia.
Qed.

(** A main key that is pressed on the PS/2 keyboard. *)
Lemma decode_main code k : 1 <= code < 0x80 -> code <> SC_LSHIFT -> code <> SC_RSHIFT -> code <> 0x1D -> extended_scancode k = false ->
  keyboard_decode_event 0 code k = if code =? SC_CAPSLOCK then (None, set_caps (negb (caps_lock_on k)) k) else (key_of_code code k, k).
Proof.
  intros Hc H1 H2 H3 He. assert (set_extended false k = k) as Hk by (destruct k; cbn in *; by subst). unfold keyboard_decode_event. rewrite Hk, He. cbn [Z.land negb andb].
  rewrite (proj2 (Z.eqb_neq code 0xE0)) by lia. assert (Z.land code 0x80 = 0 /\ Z.land code 0x7F = code) as [E1 E2].
  { split; [|change 0x7F with (Z.ones 7); rewrite Z.land_ones by lia; apply Z.mod_small; lia]. apply Z.bits_inj'. intros n Hn. rewrite Z.land_spec, Z.bits_0. change 0x80 with (2 ^ 7). rewrite Z.pow2_bits_eqb by lia. destruct (Z.eqb_spec 7 n) as [<-|]; [|apply andb_false_r].
    rewrite <- (Z.mod_small code (2 ^ 7)) by lia. rewrite Z.mod_pow2_bits_high by lia. done. }
  rewrite E1, E2. cbn [Z.eqb negb]. rewrite (proj2 (Z.eqb_neq code SC_LSHIFT)), (proj2 (Z.eqb_neq code SC_RSHIFT)), (proj2 (Z.eqb_neq code 0x1D)) by done. cbn [orb andb]. rewrite andb_true_r, ps2_tail. done.
Qed.

(** Letters and digits on a USB keyboard. *)
Lemma usb_plain hid k : current_layout k = KEYBOARD_LAYOUT_US -> shift_down k = false -> caps_lock_on k = false -> ctrl_down k = false ->
  (0x04 <= hid <= 0x1D -> usb_hid_key_to_event hid k = (Some (Key KEY_CHAR (c "a" + (hid - 0x04))), k)) /\
  (0x1E <= hid <= 0x27 -> usb_hid_key_to_event hid k = (Some (Key KEY_CHAR (c "0" + (hid - 0x1E + 1) mod 10)), k)).
Proof.
  intros Hl H1 H2 H3. destruct k as [sh ca ct al ex la q h t r mo mb]. cbn in *. subst sh ca ct la. split; intros Hh.
  - assert (exists i, (i < 26)%nat /\ hid = 0x04 + Z.of_nat i) as (i & Hi & ->) by (exists (Z.to_nat (hid - 0x04)); lia). do 26 (destruct i as [|i]; [vm_compute; reflexivity|]). lia.
  - assert (exists i, (i < 10)%nat /\ hid = 0x1E + Z.of_nat i) as (i & Hi & ->) by (exists (Z.to_nat (hid - 0x1E)); lia). do 10 (destruct i as [|i]; [vm_compute; reflexivity|]). lia.
Qed.

(** C22: A key has the same meaning on both keyboards: in any state of the
    modifiers, with no prefix pending, and for either layout, a key that is pressed on a USB keyboard
    has the effect of the scancode it is translated to, when that scancode
    comes from the PS/2 keyboard, and an arrow key that of its prefix and its
    scancode. With the US layout and no modifier the codes that the USB standard
    gives to the letters and digits are these letters and digits. *)
Theorem keyboards_agree hid k :
  0 <= hid < 256 -> extended_scancode k = false ->
  (usb_hid_to_set1_scancode hid <> 0 -> usb_hid_key_to_event hid k = keyboard_decode_event 0 (usb_hid_to_set1_scancode hid) k) /\
  (forall sc, (hid, sc) ∈ [(0x4F, 0x4D); (0x50, 0x4B); (0x51, 0x50); (0x52, 0x48)] ->
     keyboard_decode_event 0 0xE0 k = (None, set_extended true k) /\ usb_hid_key_to_event hid k = keyboard_decode_event 0 sc (set_extended true k)) /\
  (current_layout k = KEYBOARD_LAYOUT_US -> shift_down k = false -> caps_lock_on k = false -> ctrl_down k = false ->
     (0x04 <= hid <= 0x1D -> usb_hid_key_to_event hid k = (Some (Key KEY_CHAR (c "a" + (hid - 0x04))), k)) /\
     (0x1E <= hid <= 0x27 -> usb_hid_key_to_event hid k = (Some (Key KEY_CHAR (c "0" + (hid - 0x1E + 1) mod 10)), k))).
Proof.
  intros Hh He. split; [|split; [|intros Hl H1 H2 H3; by apply usb_plain]].
  - intros Hc. destruct (set1_range hid Hh) as [?|(H1 & H2 & H3 & H4)]; [done|]. rewrite decode_main by done. rewrite usb_event. cbv zeta.
    assert (switch hid [(0x4F, Some KEY_RIGHT); (0x50, Some KEY_LEFT); (0x51, Some KEY_DOWN); (0x52, Some KEY_UP)] None = None) as ->.
    { cbn. destruct (Z.eqb_spec hid 0x4F) as [->|]; [by destruct Hc|]. destruct (Z.eqb_spec hid 0x50) as [->|]; [by destruct Hc|]. destruct (Z.eqb_spec hid 0x51) as [->|]; [by destruct Hc|]. destruct (Z.eqb_spec hid 0x52) as [->|]; [by destruct Hc|]. done. }
    by rewrite (proj2 (Z.eqb_neq _ 0)) by done.
  - assert (set_extended false (set_extended true k) = k) as Hk by (destruct k; cbn in *; by subst).
    intros sc Hin. split; [done|]. repeat (apply elem_of_cons in Hin as [[= -> ->]|Hin]; [unfold keyboard_decode_event; rewrite Hk; reflexivity|]). by apply elem_of_nil in Hin.
Qed.

Lemma push_modifiers key k : shift_down (snd (keyboard_queue_push key k)) = shift_down k /\ ctrl_down (snd (keyboard_queue_push key k)) = ctrl_down k /\ altgr_down (snd (keyboard_queue_push key k)) = altgr_down k.
Proof. unfold keyboard_queue_push. destruct (decide _); [done|]. by destruct (_ =? _). Qed.

(** A key that stays down makes no second event: the same report again changes
    nothing. *)
Lemma report_again r k : keyboard_apply_usb_boot_report r (keyboard_apply_usb_boot_report r k) = keyboard_apply_usb_boot_report r k.
Proof.
  unfold keyboard_apply_usb_boot_report. destruct (_ <? 3)%nat eqn:E; [done|]. set (n := normalized r). set (k0 := set_modifiers _ _ _ k). set (k1 := foldl usb_key k0 (drop 2 n)).
  assert (forall codes k2, usb_last_report k2 = n -> Forall (fun x => x ∈ drop 2 n) codes -> foldl usb_key k2 codes = k2) as Hno.
  { induction codes as [|code codes IH]; intros k2 Hr Hf; [done|]. apply Forall_cons_1 in Hf as [Hc Hf]. cbn [foldl]. assert (usb_key k2 code = k2) as ->; [|by apply IH].
    unfold usb_key. rewrite Hr. assert (usb_report_contains_key n code = true) as ->; [|by rewrite orb_true_r]. unfold usb_report_contains_key. apply existsb_exists. exists code. split; [|apply Z.eqb_refl]. apply list_elem_of_In. rewrite take_ge by (rewrite length_drop; unfold n; rewrite length_normalized; lia). done. }
  rewrite Hno; [|done|by apply Forall_elem].
  assert (forall codes k2, shift_down (foldl usb_key k2 codes) = shift_down k2 /\ ctrl_down (foldl usb_key k2 codes) = ctrl_down k2 /\ altgr_down (foldl usb_key k2 codes) = altgr_down k2) as Hmod.
  { induction codes as [|code codes IH]; intros k2; [done|]. cbn [foldl]. destruct (IH (usb_key k2 code)) as (-> & -> & ->). unfold usb_key. destruct (_ || _); [done|]. rewrite usb_event. cbv zeta. destruct (switch code _ None) as [t|]; [apply push_modifiers|].
    cbv zeta. destruct (usb_hid_to_set1_scancode code =? 0); [done|]. destruct (_ =? SC_CAPSLOCK); [done|]. destruct (key_of_code _ _) as [key|]; [|done]. apply push_modifiers. }
  destruct (Hmod (drop 2 n) k0) as (M1 & M2 & M3). fold k1 in M1, M2, M3. unfold k0 in M1, M2, M3. cbn [shift_down ctrl_down altgr_down set_modifiers] in M1, M2, M3.
  rewrite <- M1, <- M2, <- M3. by destruct k1.
Qed.

(** The key next to the left shift of a German keyboard has the USB code 0x64,
    which is not translated: no key of a USB keyboard gives these characters. *)
Lemma german_usb_lacks k hid key : current_layout k = KEYBOARD_LAYOUT_DE -> 0 <= hid < 256 -> fst (usb_hid_key_to_event hid k) = Some key -> ke_ch key <> c "<" /\ ke_ch key <> c ">" /\ ke_ch key <> c "|".
Proof.
  intros Hl Hh Hk. assert (Hall : forall sh ca ct al, forallb (fun h => match fst (usb_hid_key_to_event h (Keyboard sh ca ct al false KEYBOARD_LAYOUT_DE [] 0 0 [] false [])) with Some e => negb (ke_ch e =? c "<") && negb (ke_ch e =? c ">") && negb (ke_ch e =? c "|") | None => true end) (seqZ 0 256) = true) by (intros [] [] [] []; vm_compute; reflexivity).
  specialize (Hall (shift_down k) (caps_lock_on k) (ctrl_down k) (altgr_down k)). rewrite forallb_forall in Hall. specialize (Hall hid ltac:(apply list_elem_of_In, elem_of_seqZ; lia)).
  replace (fst (usb_hid_key_to_event hid (Keyboard (shift_down k) (caps_lock_on k) (ctrl_down k) (altgr_down k) false KEYBOARD_LAYOUT_DE [] 0 0 [] false []))) with (fst (usb_hid_key_to_event hid k)) in Hall.
  - rewrite Hk in Hall. bool_prop. done.
  - rewrite !usb_event. cbv zeta. destruct (switch hid _ None); [done|]. destruct (_ =? 0); [done|]. destruct (_ =? SC_CAPSLOCK); [done|]. cbn [fst]. unfold key_of_code, scancode_to_ascii. rewrite Hl. cbn [current_layout ctrl_down]. reflexivity.
Qed.

(** ** Lines *)

(** C23: Reading a line is editing it. Whatever the keyboards send and whatever
    the buffer held, console_read_line takes keys until it returns or the input
    ends, and the buffer then holds the line that the keys make of the one that
    was there: characters are added while there is room for them and a
    terminator, backspace takes the last one away, enter and the keys that
    switch panes end it with their code. Nothing outside the first [max_len]
    bytes is written, and nothing outside the buffer is read. *)
Theorem read_line_exact `{Console} buffer (max : nat) inputs k s :
  keyboard_ok k -> (1 <= max <= length buffer)%nat ->
  let line0 := take (max - 1) (cstr buffer) in
  let '(code, line, s') := edit (max - 1) (key_stream (line_fuel inputs) inputs k) line0 (console_cursor_enable true s) in
  gives (console_read_line buffer (Z.of_nat max) inputs k s) (fun o =>
    match o with
    | Returned code1 buf s1 k1 _ => code = Some code1 /\ s1 = s' /\ keyboard_ok k1 /\ cstr buf = line /\ (length line < max)%nat /\ length buf = length buffer /\ drop max buf = drop max buffer
    | Waiting buf len s1 => code = None /\ s1 = s' /\ len = Z.of_nat (length line) /\ cstr buf = line /\ (length line < max)%nat /\ length buf = length buffer /\ drop max buf = drop max buffer
    end).
Proof.
  intros Hk Hm line0. pose proof (queue_room k (ko_queue k Hk)) as Hr. unfold console_read_line. rewrite (proj2 (Z.eqb_neq _ 0)) by lia. rewrite (line_start_ok _ buffer max 0) by (lia || (rewrite Nat2Z.id; lia)). cbn [mbind option_bind]. fold line0.
  pose proof (first_line max buffer Hm) as Hf. cbv zeta in Hf. fold line0 in Hf.
  assert (exists buf, (if Z.of_nat max <=? Z.of_nat (length line0) + 1 then buffer ← wr8 buffer (Z.of_nat max - 1) 0; Some (buffer, Z.of_nat max - 1) else Some (buffer, Z.of_nat (length line0))) = Some (buf, Z.of_nat (length line0)) /\ holds_line max buffer buf line0) as (buf & -> & Hh).
  { destruct (Nat.leb_spec max (length line0 + 1)) as [Hl|Hl].
    - rewrite (proj2 (Z.leb_le _ _)) by lia. replace (Z.of_nat max - 1) with (Z.of_nat (max - 1)) by lia. rewrite wr8_in by lia. cbn [mbind option_bind]. eexists. split; [|exact Hf]. do 2 f_equal. destruct Hf. lia.
    - rewrite (proj2 (Z.leb_gt _ _)) by lia. by eexists. }
  cbn [mbind option_bind]. pose proof (line_loop_ok (line_fuel inputs) max buffer buf line0 inputs k (console_cursor_enable true s) Hk Hh) as Hloop. unfold result_ok in Hloop.
  destruct (edit _ _ line0 _) as [[code line] s']. eapply gives_mono; [apply Hloop; unfold line_fuel; lia|]. intros [code1 b s1 k1 rest|b len s1].
  - intros (H1 & H2 & H3 & H4). pose proof (holds_cstr _ _ _ _ H3) as H5. destruct H3. split_and!; done || lia.
  - intros (H1 & H2 & H3 & H4). pose proof (holds_cstr _ _ _ _ H3) as H5. destruct H3. split_and!; done || lia.
Qed.

(** A console that keeps what is written. *)
#[local] Instance plain_console : Console := {
  con := list Z; console_split_enabled _ := false; console_split_enable s := (1, s); console_split_disable s := s; console_split_focus_next s := s;
  console_active_pane _ := 0; console_cursor_enable _ s := s; console_puts t s := s ++ t }.

Definition demo_keyboard : keyboard := Keyboard false false false false false KEYBOARD_LAYOUT_US (replicate 32 no_key) 0 0 (replicate 8 0) false [].

(** Shift and h on USB, i on PS/2, x, backspace and enter. *)
Definition demo_inputs : list input := [UsbPoll [[0x02; 0; 0x0B]; [0; 0; 0]]; Ps2 1 0x17; Ps2 1 0x97; Ps2 1 0x2D; Ps2 1 0x0E; Ps2 1 0x1C].

Lemma read_line_exact_witness :
  (keyboard_ok demo_keyboard /\ gives (console_read_line (replicate 8 0) 4 demo_inputs demo_keyboard ([] : list Z)) (fun o => match o with Returned _ buf _ _ _ => length buf = 8%nat /\ cstr buf = chars "Hi" | Waiting _ _ _ => False end)).
Proof.
  assert (keyboard_ok demo_keyboard) as Hk by (split; [split; [reflexivity|cbn; lia|cbn; lia]|constructor]). split; [exact Hk|].
  pose proof (read_line_exact (replicate 8 0) 4 demo_inputs demo_keyboard ([] : list Z) Hk ltac:(cbn; lia)) as Ht. cbv zeta in Ht.
  assert (edit (4 - 1) (key_stream (line_fuel demo_inputs) demo_inputs demo_keyboard) (take (4 - 1) (cstr (replicate 8 0))) (console_cursor_enable true ([] : list Z)) = (Some 0, chars "Hi", chars "Hix" ++ [8; 10])) as E by (vm_compute; reflexivity).
  rewrite E in Ht. change (Z.of_nat 4) with 4 in Ht. eapply gives_mono; [exact Ht|]. intros [code buf s1 k1 rest|buf len s1]; cbn; [|by intros (? & _)]. intros (_ & _ & _ & H1 & _ & H2 & _). by split.
Defined.

Lemma keyboards_agree_witness :
  usb_hid_key_to_event 0x04 demo_keyboard = keyboard_decode_event 0 0x1E demo_keyboard /\ fst (usb_hid_key_to_event 0x04 demo_keyboard) = Some (Key KEY_CHAR (c "a")).
Proof.
  split; [|vm_compute; reflexivity]. destruct (keyboards_agree 0x04 demo_keyboard) as [H1 _]; [lia|reflexivity|]. apply H1. vm_compute. discriminate.
Defined.
