(* ===== verification/NetWire.v ===== *)
(** Bytes on the wire: kernel/drivers/net.c, lines 5-101 and 385-471 (byte
    order, checksums) and the headers the senders build (lines 601-827).

    A frame is a list of bytes. A header field is written by storing the
    swapped value as a little-endian number, as the code does through its
    packed structs; [put16] and [put32] are shown to be the bytes in network
    order. Reads are checked: [None] is a read outside the frame. *)
From Stdlib Require Import ZArith Lia.
From stdpp Require Import base tactics option list numbers.
From S2P Require Import Prelude.
From S2P Require Import Buffer.
#[local] Open Scope Z_scope.

(** ** Byte order *)

Definition net_bswap16 (value : Z) : Z := u16 (Z.lor (Z.shiftl value 8) (Z.shiftr value 8)).

Definition net_bswap32 (value : Z) : Z :=
  Z.lor (Z.lor (Z.lor (Z.shiftl (Z.land value 0x000000FF) 24) (Z.shiftl (Z.land value 0x0000FF00) 8))
    (Z.shiftr (Z.land value 0x00FF0000) 8)) (Z.shiftr (Z.land value 0xFF000000) 24).

Definition net_htons := net_bswap16.
Definition net_ntohs := net_bswap16.
Definition net_htonl := net_bswap32.
Definition net_ntohl := net_bswap32.

(** The bytes of a number in memory. *)
Definition le16 (v : Z) : list Z := [v mod 256; v / 256 mod 256].
Definition le32 (v : Z) : list Z := [v mod 256; v / 256 mod 256; v / 65536 mod 256; v / 16777216 mod 256].

Definition put16 (v : Z) : list Z := le16 (net_htons v).
Definition put32 (v : Z) : list Z := le32 (net_htonl v).

(** Checked reads of a field in network order. *)
Definition rd16 (l : list Z) (i : Z) : option Z :=
  a ← rd8 l i; b ← rd8 l (i + 1); Some (net_ntohs (a + 256 * b)).

Definition rd32 (l : list Z) (i : Z) : option Z :=
  a ← rd8 l i; b ← rd8 l (i + 1); c ← rd8 l (i + 2); d ← rd8 l (i + 3);
  Some (net_ntohl (a + 256 * b + 65536 * c + 16777216 * d)).

(** ** Checksums *)

Fixpoint finish_loop (fuel : nat) (sum : Z) : Z :=
  match fuel with
  | O => sum
  | S fuel' => if Z.shiftr sum 16 =? 0 then sum else finish_loop fuel' (u32 (Z.land sum 0xFFFF + Z.shiftr sum 16))
  end.

(** Three rounds reduce any 32-bit sum below 2^16. *)
Definition net_checksum_finish (sum : Z) : Z := u16 (Z.lnot (finish_loop 3 sum)).

Fixpoint net_checksum_add (sum : Z) (data : list Z) : Z :=
  match data with
  | a :: b :: data' => net_checksum_add (u32 (sum + Z.lor (Z.shiftl a 8) b)) data'
  | [a] => u32 (sum + Z.shiftl a 8)
  | [] => sum
  end.

Definition net_checksum (data : list Z) : Z := net_checksum_finish (net_checksum_add 0 data).

(** ** Headers *)

Definition NET_ETH_TYPE_ARP : Z := 0x0806.
Definition NET_ETH_TYPE_IPV4 : Z := 0x0800.
Definition NET_ETH_TYPE_VLAN : Z := 0x8100.
Definition NET_ETH_TYPE_QINQ : Z := 0x88A8.
Definition NET_IP_PROTO_TCP : Z := 6.
Definition NET_IP_PROTO_UDP : Z := 17.
Definition NET_ARP_OP_REQUEST : Z := 1.
Definition NET_ARP_OP_REPLY : Z := 2.
Definition NET_MIN_FRAME_SIZE : Z := 60.
Definition NET_MAX_FRAME_SIZE : Z := 1518.

Definition eth_header (dst src : list Z) (type : Z) : list Z := dst ++ src ++ put16 type.

Definition arp_packet (oper : Z) (sha : list Z) (spa : Z) (tha : list Z) (tpa : Z) : list Z :=
  put16 1 ++ put16 NET_ETH_TYPE_IPV4 ++ [6; 4] ++ put16 oper ++ sha ++ put32 spa ++ tha ++ put32 tpa.

Definition ipv4_header_with (checksum total id proto src dst : Z) : list Z :=
  [0x45; 0] ++ put16 total ++ put16 id ++ put16 0x4000 ++ [64; proto] ++ put16 checksum ++ put32 src ++ put32 dst.

Definition ipv4_header (total id proto src dst : Z) : list Z :=
  ipv4_header_with (net_checksum (ipv4_header_with 0 total id proto src dst)) total id proto src dst.

(** The sum over the pseudo header. *)
Definition pseudo_sum (src dst proto size : Z) : Z :=
  u32 (u16 (Z.shiftr src 16) + u16 (Z.land src 0xFFFF) + u16 (Z.shiftr dst 16) + u16 (Z.land dst 0xFFFF) + proto + size).

Definition udp_segment_with (checksum src_port dst_port : Z) (payload : list Z) : list Z :=
  put16 src_port ++ put16 dst_port ++ put16 (u16 (8 + Z.of_nat (length payload))) ++ put16 checksum ++ payload.

Definition udp_segment (src_ip dst_ip src_port dst_port : Z) (payload : list Z) : list Z :=
  let sum := pseudo_sum src_ip dst_ip NET_IP_PROTO_UDP (8 + Z.of_nat (length payload)) in
  udp_segment_with (net_checksum_finish (net_checksum_add sum (udp_segment_with 0 src_port dst_port payload))) src_port dst_port payload.

Definition tcp_segment_with (checksum src_port dst_port seq ack flags window : Z) (payload : list Z) : list Z :=
  put16 src_port ++ put16 dst_port ++ put32 seq ++ put32 ack ++ [0x50; flags] ++ put16 window ++ put16 checksum ++ put16 0 ++ payload.

Definition tcp_segment (src_ip dst_ip src_port dst_port seq ack flags window : Z) (payload : list Z) : list Z :=
  let sum := pseudo_sum src_ip dst_ip NET_IP_PROTO_TCP (20 + Z.of_nat (length payload)) in
  tcp_segment_with (net_checksum_finish (net_checksum_add sum (tcp_segment_with 0 src_port dst_port seq ack flags window payload)))
    src_port dst_port seq ack flags window payload.

(** Frames are padded with zeros to the minimal size. *)
Definition pad_frame (frame : list Z) : list Z := frame ++ replicate (Z.to_nat (NET_MIN_FRAME_SIZE - Z.of_nat (length frame))) 0.

(** ** Byte order, proved *)

Lemma lor_add_high a b n : 0 <= n -> 0 <= b < 2 ^ n -> Z.lor (a * 2 ^ n) b = a * 2 ^ n + b.
Proof. intros Hn Hb. rewrite Z.lor_comm, <- Z.shiftl_mul_pow2 by done. rewrite lor_shiftl_add by done. rewrite Z.shiftl_mul_pow2 by done. lia. Qed.

(** A byte of a number, picked by a mask. *)
Lemma land_byte v k : 0 <= k -> Z.land v (Z.shiftl 255 k) = Z.shiftl ((v / 2 ^ k) mod 256) k.
Proof.
  intros Hk. change 256 with (2 ^ 8). rewrite <- Z.land_ones by lia. change (Z.ones 8) with 255. rewrite <- Z.shiftr_div_pow2 by done.
  apply Z.bits_inj'. intros i Hi. rewrite Z.land_spec, !Z.shiftl_spec by done. destruct (Z.lt_ge_cases i k).
  - rewrite !(Z.testbit_neg_r _ (i - k)) by lia. by rewrite andb_false_r.
  - rewrite Z.land_spec, Z.shiftr_spec by lia. by replace (i - k + k) with i by lia.
Qed.

Lemma net_bswap16_eq v : 0 <= v < 65536 -> net_bswap16 v = v mod 256 * 256 + v / 256.
Proof.
  intros Hv. unfold net_bswap16. rewrite Z.shiftl_mul_pow2, Z.shiftr_div_pow2 by lia. change (2 ^ 8) with 256.
  change 256 with (2 ^ 8) at 1. rewrite (lor_add_high v (v / 256) 8) by (change (2 ^ 8) with 256; Z.div_mod_to_equations; lia).
  change (2 ^ 8) with 256. unfold u16. Z.div_mod_to_equations. lia.
Qed.

Lemma net_bswap32_eq v : is_u32 v ->
  net_bswap32 v = v mod 256 * 16777216 + v / 256 mod 256 * 65536 + v / 65536 mod 256 * 256 + v / 16777216.
Proof.
  intros Hv. unfold net_bswap32, is_u32 in *.
  change 0x000000FF with (Z.shiftl 255 0). change 0x0000FF00 with (Z.shiftl 255 8). change 0x00FF0000 with (Z.shiftl 255 16). change 0xFF000000 with (Z.shiftl 255 24).
  rewrite !land_byte by lia. change (2 ^ 0) with 1. change (2 ^ 8) with 256. change (2 ^ 16) with 65536. change (2 ^ 24) with 16777216. rewrite Z.div_1_r.
  rewrite !Z.shiftl_mul_pow2, !Z.shiftr_div_pow2 by lia. change (2 ^ 0) with 1. change (2 ^ 8) with 256. change (2 ^ 16) with 65536. change (2 ^ 24) with 16777216.
  set (a := v mod 256). set (b := v / 256 mod 256). set (c := v / 65536 mod 256). set (d := v / 16777216 mod 256).
  assert (Ha : 0 <= a < 256) by (apply Z.mod_pos_bound; lia). assert (Hb : 0 <= b < 256) by (apply Z.mod_pos_bound; lia).
  assert (Hc : 0 <= c < 256) by (apply Z.mod_pos_bound; lia). assert (Hd : d = v / 16777216) by (apply Z.mod_small; Z.div_mod_to_equations; lia).
  assert (Hd' : 0 <= d < 256) by (apply Z.mod_pos_bound; lia). rewrite <- Hd.
  replace (a * 1 * 16777216) with (a * 256 * 2 ^ 16) by (change (2 ^ 16) with 65536; lia). replace (b * 256 * 256) with (b * 2 ^ 16) by (change (2 ^ 16) with 65536; lia).
  replace (c * 65536 / 256) with (c * 2 ^ 8) by (change (2 ^ 8) with 256; Z.div_mod_to_equations; lia). replace (d * 16777216 / 16777216) with d by (Z.div_mod_to_equations; lia).
  assert (E1 : Z.lor (a * 256 * 2 ^ 16) (b * 2 ^ 16) = (a * 256 + b) * 2 ^ 16).
  { rewrite <- !Z.shiftl_mul_pow2, <- Z.shiftl_lor by lia. f_equal. change 256 with (2 ^ 8). apply lor_add_high; change (2 ^ 8) with 256; lia. }
  rewrite E1. rewrite (lor_add_high _ (c * 2 ^ 8) 16) by (change (2 ^ 8) with 256; change (2 ^ 16) with 65536; lia).
  replace ((a * 256 + b) * 2 ^ 16 + c * 2 ^ 8) with (((a * 256 + b) * 256 + c) * 2 ^ 8) by (change (2 ^ 8) with 256; change (2 ^ 16) with 65536; lia).
  rewrite lor_add_high by (change (2 ^ 8) with 256; lia). change (2 ^ 8) with 256. lia.
Qed.

(** The fields are in network order, and read back as written. *)
Lemma put16_eq v : 0 <= v < 65536 -> put16 v = [v / 256; v mod 256].
Proof. intros Hv. unfold put16, le16, net_htons. rewrite net_bswap16_eq by done. f_equal; [|f_equal]; Z.div_mod_to_equations; lia. Qed.

Lemma le32_of a b c d : is_u8 a -> is_u8 b -> is_u8 c -> is_u8 d -> le32 (a + 256 * b + 65536 * c + 16777216 * d) = [a; b; c; d].
Proof. unfold is_u8, le32. intros Ha Hb Hc Hd. repeat f_equal; Z.div_mod_to_equations; lia. Qed.

Lemma net_bswap32_bytes a b c d : is_u8 a -> is_u8 b -> is_u8 c -> is_u8 d ->
  net_bswap32 (a + 256 * b + 65536 * c + 16777216 * d) = d + 256 * c + 65536 * b + 16777216 * a.
Proof.
  intros Ha Hb Hc Hd. pose proof (le32_of a b c d Ha Hb Hc Hd) as E. unfold le32, is_u8 in *. injection E as E1 E2 E3 E4.
  rewrite net_bswap32_eq by cint. rewrite Z.mod_small in E4 by (Z.div_mod_to_equations; lia). rewrite E1, E2, E3, E4. lia.
Qed.

Lemma put32_eq v : is_u32 v -> put32 v = [v / 16777216; v / 65536 mod 256; v / 256 mod 256; v mod 256].
Proof.
  intros Hv. unfold put32, net_htonl. rewrite net_bswap32_eq by done. unfold is_u32 in Hv.
  rewrite <- le32_of by (unfold is_u8; Z.div_mod_to_equations; lia). f_equal. lia.
Qed.

Lemma length_put16 v : length (put16 v) = 2%nat.
Proof. done. Qed.
Lemma length_put32 v : length (put32 v) = 4%nat.
Proof. done. Qed.

Lemma rd16_some l i : bytes l -> 0 <= i -> i + 2 <= Z.of_nat (length l) -> exists v, rd16 l i = Some v /\ 0 <= v < 65536.
Proof.
  intros Hl H0 Hi. destruct (rd8_some l i) as (a & Ha & Hal); [lia|]. destruct (rd8_some l (i + 1)) as (b & Hb & Hbl); [lia|].
  unfold rd16. rewrite Ha, Hb. cbn [mbind option_bind]. eexists. split; [done|]. apply Z.mod_pos_bound. lia.
Qed.

Lemma rd32_some l i : bytes l -> 0 <= i -> i + 4 <= Z.of_nat (length l) -> exists v, rd32 l i = Some v /\ is_u32 v.
Proof.
  intros Hl H0 Hi. destruct (rd8_some l i) as (a & Ha & Hal); [lia|]. destruct (rd8_some l (i + 1)) as (b & Hb & Hbl); [lia|].
  destruct (rd8_some l (i + 2)) as (c & Hc & Hcl); [lia|]. destruct (rd8_some l (i + 3)) as (d & Hd & Hdl); [lia|].
  rewrite Forall_elem in Hl. apply Hl in Hal, Hbl, Hcl, Hdl. unfold rd32. rewrite Ha, Hb, Hc, Hd. cbn [mbind option_bind]. eexists. split; [done|].
  unfold net_ntohl. rewrite net_bswap32_bytes by done. cint.
Qed.

(** What is written at a place is read there. *)
Lemma rd16_put pre v post : 0 <= v < 65536 -> rd16 (pre ++ put16 v ++ post) (Z.of_nat (length pre)) = Some v.
Proof.
  intros Hv. unfold rd16. rewrite !(rd8_app_r pre) by lia. rewrite put16_eq by done. replace (Z.of_nat (length pre) + 1 - Z.of_nat (length pre)) with 1 by lia. rewrite Z.sub_diag.
  cbn [app]. change (rd8 (v / 256 :: v mod 256 :: post) 0) with (Some (v / 256)).
  change (rd8 (v / 256 :: v mod 256 :: post) 1) with (Some (v mod 256)). cbn [mbind option_bind]. f_equal. unfold net_ntohs.
  rewrite net_bswap16_eq by (Z.div_mod_to_equations; lia). Z.div_mod_to_equations. lia.
Qed.

Lemma rd32_put pre v post : is_u32 v -> rd32 (pre ++ put32 v ++ post) (Z.of_nat (length pre)) = Some v.
Proof.
  intros Hv. unfold rd32. rewrite !(rd8_app_r pre) by lia. rewrite put32_eq by done.
  replace (Z.of_nat (length pre) + 1 - Z.of_nat (length pre)) with 1 by lia. replace (Z.of_nat (length pre) + 2 - Z.of_nat (length pre)) with 2 by lia.
  replace (Z.of_nat (length pre) + 3 - Z.of_nat (length pre)) with 3 by lia. rewrite Z.sub_diag. cbn [app].
  set (x := v / 16777216). set (y := v / 65536 mod 256). set (z := v / 256 mod 256). set (w := v mod 256). set (l := x :: y :: z :: w :: post).
  change (rd8 l 0) with (Some x). change (rd8 l 1) with (Some y). change (rd8 l 2) with (Some z). change (rd8 l 3) with (Some w). cbn [mbind option_bind]. f_equal.
  unfold is_u32 in Hv. subst x y z w. unfold net_ntohl. rewrite net_bswap32_bytes by (unfold is_u8; Z.div_mod_to_equations; lia). Z.div_mod_to_equations. lia.
Qed.

(** ** Checksums, proved *)

(** The sum of the 16-bit words, an odd last byte padded with 0. *)
Fixpoint words (data : list Z) : Z :=
  match data with
  | a :: b :: data' => a * 256 + b + words data'
  | [a] => a * 256
  | [] => 0
  end.

(** The ones' complement sum. *)
Definition ones_sum (s : Z) : Z := if s =? 0 then 0 else (s - 1) mod 65535 + 1.

Lemma word_eq a b : is_u8 a -> is_u8 b -> Z.lor (Z.shiftl a 8) b = a * 256 + b.
Proof. intros Ha Hb. rewrite Z.shiftl_mul_pow2 by lia. apply lor_add_high; [lia|exact Hb]. Qed.

(** Induction on lists in steps of two. *)
Lemma list_pairs_ind (P : list Z -> Prop) : P [] -> (forall a, P [a]) -> (forall a b l, P l -> P (a :: b :: l)) -> forall l, P l.
Proof.
  intros H0 H1 H2 l. assert (H : P l /\ forall a, P (a :: l)); [|apply H]. induction l as [|b l IH]; [done|]. destruct IH as [I1 I2]. split; [apply I2|].
  intros a. apply H2, I1.
Qed.

Lemma net_checksum_add_eq sum data : bytes data -> net_checksum_add (u32 sum) data = u32 (sum + words data).
Proof.
  revert sum. induction data as [|a|a b data IH] using list_pairs_ind; intros sum Hd; cbn [net_checksum_add words].
  - by rewrite Z.add_0_r.
  - rewrite Z.shiftl_mul_pow2 by lia. change (2 ^ 8) with 256. unfold u32. by rewrite Z.add_mod_idemp_l by lia.
  - inv_Forall. rewrite word_eq by done. replace (u32 (u32 sum + (a * 256 + b))) with (u32 (sum + (a * 256 + b))) by (unfold u32; by rewrite Z.add_mod_idemp_l by lia).
    rewrite IH by done. f_equal. lia.
Qed.

Lemma words_nonneg data : bytes data -> 0 <= words data <= 65535 * Z.of_nat (length data).
Proof.
  induction data as [|a|a b data IH] using list_pairs_ind; intros Hd; cbn [words length]; [lia|inv_Forall; cint|].
  inv_Forall. specialize (IH ltac:(done)). cint.
Qed.

Lemma words_app k l : Nat.even (length k) = true -> words (k ++ l) = words k + words l.
Proof.
  induction k as [|a|a b k IH] using list_pairs_ind; intros He; [done|done|]. cbn [app words]. rewrite IH by done. lia.
Qed.

Lemma words_put16 v : 0 <= v < 65536 -> words (put16 v) = v.
Proof. intros Hv. rewrite put16_eq by done. cbn [words]. Z.div_mod_to_equations. lia. Qed.

Lemma finish_loop_ok sum : is_u32 sum -> finish_loop 3 sum = ones_sum sum /\ 0 <= ones_sum sum <= 65535.
Proof.
  intros Hs. unfold is_u32 in Hs.
  assert (Hsmall : forall s, 0 <= s < 65536 -> ones_sum s = s).
  { intros s Hr. unfold ones_sum. destruct (Z.eqb_spec s 0) as [->|]; [done|]. rewrite Z.mod_small by lia. lia. }
  assert (Hstep : forall s, 65536 <= s < 4294967296 -> let t := u32 (Z.land s 0xFFFF + Z.shiftr s 16) in
            t = s mod 65536 + s / 65536 /\ ones_sum t = ones_sum s).
  { intros s Hr t. assert (Et : t = s mod 65536 + s / 65536).
    { unfold t. change 0xFFFF with (Z.ones 16). rewrite Z.land_ones, Z.shiftr_div_pow2 by lia. change (2 ^ 16) with 65536. unfold u32. apply Z.mod_small. Z.div_mod_to_equations. lia. }
    split; [done|]. rewrite Et. unfold ones_sum. rewrite (proj2 (Z.eqb_neq s 0)) by lia. rewrite (proj2 (Z.eqb_neq _ 0)) by (Z.div_mod_to_equations; lia). f_equal.
    replace (s mod 65536 + s / 65536 - 1) with (s - 1 + - (s / 65536) * 65535) by (Z.div_mod_to_equations; lia). by rewrite Z.mod_add by lia. }
  assert (Hshr : forall s, 0 <= s -> (Z.shiftr s 16 =? 0) = (s <? 65536)).
  { intros s Hr. rewrite Z.shiftr_div_pow2 by lia. change (2 ^ 16) with 65536. destruct (Z.eqb_spec (s / 65536) 0), (Z.ltb_spec s 65536); try done; Z.div_mod_to_equations; lia. }
  split; [|unfold ones_sum; destruct (sum =? 0); [lia|]; pose proof (Z.mod_pos_bound (sum - 1) 65535 ltac:(lia)); lia].
  cbn [finish_loop]. rewrite Hshr by lia. destruct (Z.ltb_spec sum 65536) as [H1|H1]; [by rewrite Hsmall by lia|].
  destruct (Hstep sum ltac:(lia)) as [E1 O1]. set (t := u32 (Z.land sum 0xFFFF + Z.shiftr sum 16)) in *. assert (Ht : 1 <= t <= 131070) by (rewrite E1; Z.div_mod_to_equations; lia).
  rewrite Hshr by lia. destruct (Z.ltb_spec t 65536) as [H2|H2]; [by rewrite <- O1, Hsmall by lia|].
  destruct (Hstep t ltac:(lia)) as [E2 O2]. set (w := u32 (Z.land t 0xFFFF + Z.shiftr t 16)) in *. assert (Hw : 1 <= w < 65536) by (rewrite E2; Z.div_mod_to_equations; lia).
  rewrite Hshr by lia. destruct (Z.ltb_spec w 65536) as [H3|H3]; [|lia]. by rewrite <- O1, <- O2, Hsmall by lia.
Qed.

Lemma net_checksum_finish_eq sum : is_u32 sum -> net_checksum_finish sum = 65535 - ones_sum sum.
Proof.
  intros Hs. destruct (finish_loop_ok sum Hs) as [E B]. unfold net_checksum_finish. rewrite E. unfold Z.lnot, u16. Z.div_mod_to_equations. lia.
Qed.

(** Adding the checksum to the sum makes it check. *)
Lemma checksum_checks W : 0 <= W -> W + 65535 < 4294967296 -> net_checksum_finish (W + net_checksum_finish W) = 0.
Proof.
  intros H0 H1. destruct (finish_loop_ok W ltac:(cint)) as [_ B]. rewrite (net_checksum_finish_eq W) by cint. rewrite net_checksum_finish_eq by cint.
  enough (E : ones_sum (W + (65535 - ones_sum W)) = 65535) by lia. unfold ones_sum at 1. rewrite (proj2 (Z.eqb_neq _ 0)) by (unfold ones_sum in *; destruct (Z.eqb_spec W 0); lia).
  unfold ones_sum. destruct (Z.eqb_spec W 0) as [->|Hn]; [done|]. pose proof (Z.div_mod (W - 1) 65535 ltac:(lia)) as E.
  replace (W + (65535 - ((W - 1) mod 65535 + 1)) - 1) with (65534 + (W - 1) / 65535 * 65535) by lia. by rewrite Z.mod_add by lia.
Qed.

Lemma finish_range W : is_u32 W -> 0 <= net_checksum_finish W < 65536.
Proof. intros Hw. rewrite net_checksum_finish_eq by done. destruct (finish_loop_ok W Hw). lia. Qed.

(** The field: a zero word in an even place that becomes the checksum. *)
Lemma checksum_field sum pre post : bytes pre -> bytes post -> Nat.even (length pre) = true ->
  0 <= sum -> sum + 65535 * (Z.of_nat (length pre) + Z.of_nat (length post)) + 65535 < 4294967296 ->
  let c := net_checksum_finish (net_checksum_add (u32 sum) (pre ++ put16 0 ++ post)) in
  net_checksum_finish (net_checksum_add (u32 sum) (pre ++ put16 c ++ post)) = 0 /\ 0 <= c < 65536.
Proof.
  intros Hp Hq He Hs Hl c. pose proof (words_nonneg pre Hp). pose proof (words_nonneg post Hq).
  set (W := sum + (words pre + words post)). assert (HW : 0 <= W /\ W + 65535 < 4294967296) by (unfold W; lia).
  assert (Hw : forall v, 0 <= v < 65536 -> net_checksum_add (u32 sum) (pre ++ put16 v ++ post) = u32 (W + v)).
  { intros v Hv. rewrite net_checksum_add_eq.
    - rewrite words_app by done. rewrite words_app by done. rewrite words_put16 by done. unfold W. f_equal. lia.
    - apply Forall_app. split; [done|]. apply Forall_app. split; [|done]. rewrite put16_eq by done. constructor; [unfold is_u8; Z.div_mod_to_equations; lia|]. constructor; [|constructor].
      unfold is_u8. Z.div_mod_to_equations. lia. }
  assert (Ec : c = net_checksum_finish W) by (unfold c; rewrite Hw by lia; rewrite u32_small by cint; by rewrite Z.add_0_r).
  assert (Hc : 0 <= c < 65536) by (rewrite Ec; apply finish_range; cint). split; [|done]. rewrite Hw by done. rewrite u32_small by cint. rewrite Ec. apply checksum_checks; lia.
Qed.

Lemma bytes_put16 v : bytes (put16 v).
Proof. repeat constructor; apply Z.mod_pos_bound; lia. Qed.
Lemma bytes_put32 v : bytes (put32 v).
Proof. repeat constructor; apply Z.mod_pos_bound; lia. Qed.
#[export] Hint Resolve bytes_put16 bytes_put32 : cint.

(** The bytes of a concatenation of fields. *)
Ltac bytes_fields := repeat first [apply Forall_app; split | apply bytes_put16 | apply bytes_put32 | done | (constructor; [first [done | unfold is_u8; lia]|]) | constructor].

(** The headers that are sent check on the other side. *)
Lemma ipv4_header_checks total id proto src dst : is_u8 proto -> net_checksum (ipv4_header total id proto src dst) = 0.
Proof.
  intros Hp. unfold ipv4_header, net_checksum.
  set (pre := [0x45; 0] ++ put16 total ++ put16 id ++ put16 0x4000 ++ [64; proto]). set (post := put32 src ++ put32 dst).
  assert (E : forall c, ipv4_header_with c total id proto src dst = pre ++ put16 c ++ post) by done. rewrite !E.
  change 0 with (u32 0) at 1 2. apply checksum_field; [unfold pre; bytes_fields|unfold post; bytes_fields|done|lia|]. cbn. lia.
Qed.

Lemma pseudo_sum_eq src dst proto size : is_u32 src -> is_u32 dst -> 0 <= proto -> 0 <= size -> proto + size < 1000000 ->
  exists w, pseudo_sum src dst proto size = u32 w /\ 0 <= w < 1262141.
Proof.
  intros Hs Hd Hp Hz Hb. unfold pseudo_sum. eexists. split; [done|]. unfold u16. rewrite !Z.shiftr_div_pow2 by lia. change 0xFFFF with (Z.ones 16). rewrite !Z.land_ones by lia.
  change (2 ^ 16) with 65536. Z.div_mod_to_equations. lia.
Qed.

Lemma udp_segment_checks src_ip dst_ip src_port dst_port payload : is_u32 src_ip -> is_u32 dst_ip -> bytes payload -> Z.of_nat (length payload) <= 60000 ->
  net_checksum_finish (net_checksum_add (pseudo_sum src_ip dst_ip NET_IP_PROTO_UDP (8 + Z.of_nat (length payload))) (udp_segment src_ip dst_ip src_port dst_port payload)) = 0.
Proof.
  intros Hs Hd Hp Hl. unfold udp_segment. destruct (pseudo_sum_eq src_ip dst_ip NET_IP_PROTO_UDP (8 + Z.of_nat (length payload))) as (w & -> & Hw); [done|done|done|lia|unfold NET_IP_PROTO_UDP; lia|].
  set (pre := put16 src_port ++ put16 dst_port ++ put16 (u16 (8 + Z.of_nat (length payload)))).
  assert (E : forall c, udp_segment_with c src_port dst_port payload = pre ++ put16 c ++ payload) by done. rewrite !E.
  apply checksum_field; [unfold pre; bytes_fields|done|done|lia|]. change (length pre) with 6%nat. lia.
Qed.

Lemma tcp_segment_checks src_ip dst_ip src_port dst_port seq ack flags window payload : is_u32 src_ip -> is_u32 dst_ip -> is_u8 flags -> bytes payload -> Z.of_nat (length payload) <= 60000 ->
  net_checksum_finish (net_checksum_add (pseudo_sum src_ip dst_ip NET_IP_PROTO_TCP (20 + Z.of_nat (length payload)))
    (tcp_segment src_ip dst_ip src_port dst_port seq ack flags window payload)) = 0.
Proof.
  intros Hs Hd Hfl Hp Hl. unfold tcp_segment. destruct (pseudo_sum_eq src_ip dst_ip NET_IP_PROTO_TCP (20 + Z.of_nat (length payload))) as (w & -> & Hw); [done|done|done|lia|unfold NET_IP_PROTO_TCP; lia|].
  set (pre := put16 src_port ++ put16 dst_port ++ put32 seq ++ put32 ack ++ [0x50; flags] ++ put16 window).
  assert (E : forall c, tcp_segment_with c src_port dst_port seq ack flags window payload = pre ++ put16 c ++ put16 0 ++ payload) by done. rewrite !E.
  apply checksum_field; [unfold pre; bytes_fields|bytes_fields|done|lia|]. change (length pre) with 16%nat. rewrite length_app, length_put16. lia.
Qed.
