(* ===== verification/NetState.v ===== *)
(** The state of the network stack: kernel/drivers/net.c, lines 103-383, with
    net.h.

    The static variables are the record [net]. A network driver is a
    parameter, [NetDriver]: what it does with a frame that is sent, what it
    hands up when it is polled, and the clock; the code holds it as function
    pointers. [None] is a read or a write outside a buffer, or a wait that has
    used up its fuel. *)
From Stdlib Require Import ZArith Lia.
From stdpp Require Import base tactics option list numbers functions.
From S2P Require Import Prelude.
From S2P Require Import Buffer.
From S2P Require Import NetWire.
#[local] Open Scope Z_scope.

Definition NET_MAX_DEVICES : Z := 4.
Definition NET_MAC_SIZE : Z := 6.
Definition NET_TIMEOUT_TICKS : Z := 500.
Definition NET_TCP_DEFAULT_WINDOW : Z := 4096.
Definition NET_DEFAULT_IP : Z := 0x0A00020F.
Definition NET_DEFAULT_MASK : Z := 0xFFFFFF00.
Definition NET_DEFAULT_GATEWAY : Z := 0x0A000202.
Definition NET_DEFAULT_DNS : Z := 0x0A000203.
Definition NET_FALLBACK_DNS_PRIMARY : Z := 0x01010101.
Definition NET_FALLBACK_DNS_SECONDARY : Z := 0x08080808.
Definition NET_DHCP_CLIENT_PORT : Z := 68.
Definition NET_DHCP_SERVER_PORT : Z := 67.
Definition NET_DNS_PORT : Z := 53.
Definition NET_DNS_NAME_SIZE : Z := 128.

(** ** Drivers *)

(** The counters a driver keeps through net_record_rx and its siblings. *)
Inductive counter : Type := CountRx | CountRxDrop | CountTx | CountTxError.

(** What a poll hands up. *)
Inductive rx_event : Type :=
  | RxLink (link_up : bool)
  | RxCount (c : counter)
  | RxFrame (data : list Z).

(** [drv_send] and [drv_poll] take the context of the device and give the
    code they return; [timer_ticks] reads the clock. *)
Class NetDriver (E : Type) := {
  drv_send : Z -> list Z -> E -> Z * list counter * E;
  drv_poll : Z -> E -> Z * list rx_event * E;
  timer_ticks : E -> Z * E
}.

(** ** The static variables *)

(** [net_device_t]; the function pointers are those of the driver [nd_ctx]. *)
Record net_device : Type := NetDevice {
  nd_present : bool;
  nd_name : list Z;
  nd_driver : list Z;
  nd_mac : list Z;
  nd_vendor_id : Z;
  nd_device_id : Z;
  nd_link_up : bool;
  nd_rx_packets : Z;
  nd_tx_packets : Z;
  nd_rx_dropped : Z;
  nd_tx_errors : Z;
  nd_ctx : Z
}.

Definition set_nd_present (v : bool) (r : net_device) : net_device :=
  NetDevice v (nd_name r) (nd_driver r) (nd_mac r) (nd_vendor_id r) (nd_device_id r) (nd_link_up r) (nd_rx_packets r) (nd_tx_packets r) (nd_rx_dropped r) (nd_tx_errors r) (nd_ctx r).
Definition set_nd_link_up (v : bool) (r : net_device) : net_device :=
  NetDevice (nd_present r) (nd_name r) (nd_driver r) (nd_mac r) (nd_vendor_id r) (nd_device_id r) v (nd_rx_packets r) (nd_tx_packets r) (nd_rx_dropped r) (nd_tx_errors r) (nd_ctx r).
Definition set_nd_rx_packets (v : Z) (r : net_device) : net_device :=
  NetDevice (nd_present r) (nd_name r) (nd_driver r) (nd_mac r) (nd_vendor_id r) (nd_device_id r) (nd_link_up r) v (nd_tx_packets r) (nd_rx_dropped r) (nd_tx_errors r) (nd_ctx r).
Definition set_nd_tx_packets (v : Z) (r : net_device) : net_device :=
  NetDevice (nd_present r) (nd_name r) (nd_driver r) (nd_mac r) (nd_vendor_id r) (nd_device_id r) (nd_link_up r) (nd_rx_packets r) v (nd_rx_dropped r) (nd_tx_errors r) (nd_ctx r).
Definition set_nd_rx_dropped (v : Z) (r : net_device) : net_device :=
  NetDevice (nd_present r) (nd_name r) (nd_driver r) (nd_mac r) (nd_vendor_id r) (nd_device_id r) (nd_link_up r) (nd_rx_packets r) (nd_tx_packets r) v (nd_tx_errors r) (nd_ctx r).
Definition set_nd_tx_errors (v : Z) (r : net_device) : net_device :=
  NetDevice (nd_present r) (nd_name r) (nd_driver r) (nd_mac r) (nd_vendor_id r) (nd_device_id r) (nd_link_up r) (nd_rx_packets r) (nd_tx_packets r) (nd_rx_dropped r) v (nd_ctx r).

Record arp_wait_t : Type := ArpWait {
  aw_active : bool;
  aw_device : Z;
  aw_wanted_ip : Z;
  aw_mac : list Z;
  aw_found : bool
}.

Definition set_aw_active (v : bool) (r : arp_wait_t) : arp_wait_t :=
  ArpWait v (aw_device r) (aw_wanted_ip r) (aw_mac r) (aw_found r).
Definition set_aw_mac (v : list Z) (r : arp_wait_t) : arp_wait_t :=
  ArpWait (aw_active r) (aw_device r) (aw_wanted_ip r) v (aw_found r).
Definition set_aw_found (v : bool) (r : arp_wait_t) : arp_wait_t :=
  ArpWait (aw_active r) (aw_device r) (aw_wanted_ip r) (aw_mac r) v.

(** [net_http_info_t] without the field of the TLS client. *)
Record http_info : Type := HttpInfo {
  hi_status_code : Z;
  hi_content_length : Z;
  hi_body_size : Z;
  hi_header_size : Z;
  hi_flags : Z;
  hi_error : Z;
  hi_content_type : list Z;
  hi_location : list Z
}.

Definition set_hi_status_code (v : Z) (r : http_info) : http_info :=
  HttpInfo v (hi_content_length r) (hi_body_size r) (hi_header_size r) (hi_flags r) (hi_error r) (hi_content_type r) (hi_location r).
Definition set_hi_content_length (v : Z) (r : http_info) : http_info :=
  HttpInfo (hi_status_code r) v (hi_body_size r) (hi_header_size r) (hi_flags r) (hi_error r) (hi_content_type r) (hi_location r).
Definition set_hi_body_size (v : Z) (r : http_info) : http_info :=
  HttpInfo (hi_status_code r) (hi_content_length r) v (hi_header_size r) (hi_flags r) (hi_error r) (hi_content_type r) (hi_location r).
Definition set_hi_flags (v : Z) (r : http_info) : http_info :=
  HttpInfo (hi_status_code r) (hi_content_length r) (hi_body_size r) (hi_header_size r) v (hi_error r) (hi_content_type r) (hi_location r).
Definition set_hi_error (v : Z) (r : http_info) : http_info :=
  HttpInfo (hi_status_code r) (hi_content_length r) (hi_body_size r) (hi_header_size r) (hi_flags r) v (hi_content_type r) (hi_location r).
Definition set_hi_content_type (v : list Z) (r : http_info) : http_info :=
  HttpInfo (hi_status_code r) (hi_content_length r) (hi_body_size r) (hi_header_size r) (hi_flags r) (hi_error r) v (hi_location r).
Definition set_hi_location (v : list Z) (r : http_info) : http_info :=
  HttpInfo (hi_status_code r) (hi_content_length r) (hi_body_size r) (hi_header_size r) (hi_flags r) (hi_error r) (hi_content_type r) v.

(** [net_tcp_get_t]: the buffers are lists of their bytes. *)
Record tcp_get_t : Type := TcpGet {
  tg_active : bool;
  tg_device : Z;
  tg_remote_ip : Z;
  tg_local_port : Z;
  tg_remote_port : Z;
  tg_seq : Z;
  tg_ack : Z;
  tg_remote_mac : list Z;
  tg_connected : bool;
  tg_closed : bool;
  tg_reset : bool;
  tg_out : list Z;
  tg_out_capacity : Z;
  tg_out_size : Z;
  tg_header_done : bool;
  tg_full : bool;
  tg_header : list Z;
  tg_header_size : Z;
  tg_header_truncated : bool;
  tg_info : option http_info;
  tg_header_tail : list Z;
  tg_header_tail_count : Z
}.

Definition set_tg_active (v : bool) (r : tcp_get_t) : tcp_get_t :=
  TcpGet v (tg_device r) (tg_remote_ip r) (tg_local_port r) (tg_remote_port r) (tg_seq r) (tg_ack r) (tg_remote_mac r) (tg_connected r) (tg_closed r) (tg_reset r) (tg_out r) (tg_out_capacity r) (tg_out_size r) (tg_header_done r) (tg_full r) (tg_header r) (tg_header_size r) (tg_header_truncated r) (tg_info r) (tg_header_tail r) (tg_header_tail_count r).
Definition set_tg_seq (v : Z) (r : tcp_get_t) : tcp_get_t :=
  TcpGet (tg_active r) (tg_device r) (tg_remote_ip r) (tg_local_port r) (tg_remote_port r) v (tg_ack r) (tg_remote_mac r) (tg_connected r) (tg_closed r) (tg_reset r) (tg_out r) (tg_out_capacity r) (tg_out_size r) (tg_header_done r) (tg_full r) (tg_header r) (tg_header_size r) (tg_header_truncated r) (tg_info r) (tg_header_tail r) (tg_header_tail_count r).
Definition set_tg_ack (v : Z) (r : tcp_get_t) : tcp_get_t :=
  TcpGet (tg_active r) (tg_device r) (tg_remote_ip r) (tg_local_port r) (tg_remote_port r) (tg_seq r) v (tg_remote_mac r) (tg_connected r) (tg_closed r) (tg_reset r) (tg_out r) (tg_out_capacity r) (tg_out_size r) (tg_header_done r) (tg_full r) (tg_header r) (tg_header_size r) (tg_header_truncated r) (tg_info r) (tg_header_tail r) (tg_header_tail_count r).
Definition set_tg_connected (v : bool) (r : tcp_get_t) : tcp_get_t :=
  TcpGet (tg_active r) (tg_device r) (tg_remote_ip r) (tg_local_port r) (tg_remote_port r) (tg_seq r) (tg_ack r) (tg_remote_mac r) v (tg_closed r) (tg_reset r) (tg_out r) (tg_out_capacity r) (tg_out_size r) (tg_header_done r) (tg_full r) (tg_header r) (tg_header_size r) (tg_header_truncated r) (tg_info r) (tg_header_tail r) (tg_header_tail_count r).
Definition set_tg_closed (v : bool) (r : tcp_get_t) : tcp_get_t :=
  TcpGet (tg_active r) (tg_device r) (tg_remote_ip r) (tg_local_port r) (tg_remote_port r) (tg_seq r) (tg_ack r) (tg_remote_mac r) (tg_connected r) v (tg_reset r) (tg_out r) (tg_out_capacity r) (tg_out_size r) (tg_header_done r) (tg_full r) (tg_header r) (tg_header_size r) (tg_header_truncated r) (tg_info r) (tg_header_tail r) (tg_header_tail_count r).
Definition set_tg_reset (v : bool) (r : tcp_get_t) : tcp_get_t :=
  TcpGet (tg_active r) (tg_device r) (tg_remote_ip r) (tg_local_port r) (tg_remote_port r) (tg_seq r) (tg_ack r) (tg_remote_mac r) (tg_connected r) (tg_closed r) v (tg_out r) (tg_out_capacity r) (tg_out_size r) (tg_header_done r) (tg_full r) (tg_header r) (tg_header_size r) (tg_header_truncated r) (tg_info r) (tg_header_tail r) (tg_header_tail_count r).
Definition set_tg_out (v : list Z) (r : tcp_get_t) : tcp_get_t :=
  TcpGet (tg_active r) (tg_device r) (tg_remote_ip r) (tg_local_port r) (tg_remote_port r) (tg_seq r) (tg_ack r) (tg_remote_mac r) (tg_connected r) (tg_closed r) (tg_reset r) v (tg_out_capacity r) (tg_out_size r) (tg_header_done r) (tg_full r) (tg_header r) (tg_header_size r) (tg_header_truncated r) (tg_info r) (tg_header_tail r) (tg_header_tail_count r).
Definition set_tg_out_size (v : Z) (r : tcp_get_t) : tcp_get_t :=
  TcpGet (tg_active r) (tg_device r) (tg_remote_ip r) (tg_local_port r) (tg_remote_port r) (tg_seq r) (tg_ack r) (tg_remote_mac r) (tg_connected r) (tg_closed r) (tg_reset r) (tg_out r) (tg_out_capacity r) v (tg_header_done r) (tg_full r) (tg_header r) (tg_header_size r) (tg_header_truncated r) (tg_info r) (tg_header_tail r) (tg_header_tail_count r).
Definition set_tg_header_done (v : bool) (r : tcp_get_t) : tcp_get_t :=
  TcpGet (tg_active r) (tg_device r) (tg_remote_ip r) (tg_local_port r) (tg_remote_port r) (tg_seq r) (tg_ack r) (tg_remote_mac r) (tg_connected r) (tg_closed r) (tg_reset r) (tg_out r) (tg_out_capacity r) (tg_out_size r) v (tg_full r) (tg_header r) (tg_header_size r) (tg_header_truncated r) (tg_info r) (tg_header_tail r) (tg_header_tail_count r).
Definition set_tg_full (v : bool) (r : tcp_get_t) : tcp_get_t :=
  TcpGet (tg_active r) (tg_device r) (tg_remote_ip r) (tg_local_port r) (tg_remote_port r) (tg_seq r) (tg_ack r) (tg_remote_mac r) (tg_connected r) (tg_closed r) (tg_reset r) (tg_out r) (tg_out_capacity r) (tg_out_size r) (tg_header_done r) v (tg_header r) (tg_header_size r) (tg_header_truncated r) (tg_info r) (tg_header_tail r) (tg_header_tail_count r).
Definition set_tg_header (v : list Z) (r : tcp_get_t) : tcp_get_t :=
  TcpGet (tg_active r) (tg_device r) (tg_remote_ip r) (tg_local_port r) (tg_remote_port r) (tg_seq r) (tg_ack r) (tg_remote_mac r) (tg_connected r) (tg_closed r) (tg_reset r) (tg_out r) (tg_out_capacity r) (tg_out_size r) (tg_header_done r) (tg_full r) v (tg_header_size r) (tg_header_truncated r) (tg_info r) (tg_header_tail r) (tg_header_tail_count r).
Definition set_tg_header_size (v : Z) (r : tcp_get_t) : tcp_get_t :=
  TcpGet (tg_active r) (tg_device r) (tg_remote_ip r) (tg_local_port r) (tg_remote_port r) (tg_seq r) (tg_ack r) (tg_remote_mac r) (tg_connected r) (tg_closed r) (tg_reset r) (tg_out r) (tg_out_capacity r) (tg_out_size r) (tg_header_done r) (tg_full r) (tg_header r) v (tg_header_truncated r) (tg_info r) (tg_header_tail r) (tg_header_tail_count r).
Definition set_tg_header_truncated (v : bool) (r : tcp_get_t) : tcp_get_t :=
  TcpGet (tg_active r) (tg_device r) (tg_remote_ip r) (tg_local_port r) (tg_remote_port r) (tg_seq r) (tg_ack r) (tg_remote_mac r) (tg_connected r) (tg_closed r) (tg_reset r) (tg_out r) (tg_out_capacity r) (tg_out_size r) (tg_header_done r) (tg_full r) (tg_header r) (tg_header_size r) v (tg_info r) (tg_header_tail r) (tg_header_tail_count r).
Definition set_tg_info (v : option http_info) (r : tcp_get_t) : tcp_get_t :=
  TcpGet (tg_active r) (tg_device r) (tg_remote_ip r) (tg_local_port r) (tg_remote_port r) (tg_seq r) (tg_ack r) (tg_remote_mac r) (tg_connected r) (tg_closed r) (tg_reset r) (tg_out r) (tg_out_capacity r) (tg_out_size r) (tg_header_done r) (tg_full r) (tg_header r) (tg_header_size r) (tg_header_truncated r) v (tg_header_tail r) (tg_header_tail_count r).
Definition set_tg_header_tail (v : list Z) (r : tcp_get_t) : tcp_get_t :=
  TcpGet (tg_active r) (tg_device r) (tg_remote_ip r) (tg_local_port r) (tg_remote_port r) (tg_seq r) (tg_ack r) (tg_remote_mac r) (tg_connected r) (tg_closed r) (tg_reset r) (tg_out r) (tg_out_capacity r) (tg_out_size r) (tg_header_done r) (tg_full r) (tg_header r) (tg_header_size r) (tg_header_truncated r) (tg_info r) v (tg_header_tail_count r).
Definition set_tg_header_tail_count (v : Z) (r : tcp_get_t) : tcp_get_t :=
  TcpGet (tg_active r) (tg_device r) (tg_remote_ip r) (tg_local_port r) (tg_remote_port r) (tg_seq r) (tg_ack r) (tg_remote_mac r) (tg_connected r) (tg_closed r) (tg_reset r) (tg_out r) (tg_out_capacity r) (tg_out_size r) (tg_header_done r) (tg_full r) (tg_header r) (tg_header_size r) (tg_header_truncated r) (tg_info r) (tg_header_tail r) v.

Record tcp_stream_t : Type := TcpStream {
  ts_active : bool;
  ts_device : Z;
  ts_remote_ip : Z;
  ts_local_port : Z;
  ts_remote_port : Z;
  ts_seq : Z;
  ts_ack : Z;
  ts_tx_acked : Z;
  ts_remote_mac : list Z;
  ts_connected : bool;
  ts_closed : bool;
  ts_reset : bool;
  ts_rx_buffer : list Z;
  ts_rx_capacity : Z;
  ts_rx_size : Z
}.

Definition set_ts_active (v : bool) (r : tcp_stream_t) : tcp_stream_t :=
  TcpStream v (ts_device r) (ts_remote_ip r) (ts_local_port r) (ts_remote_port r) (ts_seq r) (ts_ack r) (ts_tx_acked r) (ts_remote_mac r) (ts_connected r) (ts_closed r) (ts_reset r) (ts_rx_buffer r) (ts_rx_capacity r) (ts_rx_size r).
Definition set_ts_seq (v : Z) (r : tcp_stream_t) : tcp_stream_t :=
  TcpStream (ts_active r) (ts_device r) (ts_remote_ip r) (ts_local_port r) (ts_remote_port r) v (ts_ack r) (ts_tx_acked r) (ts_remote_mac r) (ts_connected r) (ts_closed r) (ts_reset r) (ts_rx_buffer r) (ts_rx_capacity r) (ts_rx_size r).
Definition set_ts_ack (v : Z) (r : tcp_stream_t) : tcp_stream_t :=
  TcpStream (ts_active r) (ts_device r) (ts_remote_ip r) (ts_local_port r) (ts_remote_port r) (ts_seq r) v (ts_tx_acked r) (ts_remote_mac r) (ts_connected r) (ts_closed r) (ts_reset r) (ts_rx_buffer r) (ts_rx_capacity r) (ts_rx_size r).
Definition set_ts_tx_acked (v : Z) (r : tcp_stream_t) : tcp_stream_t :=
  TcpStream (ts_active r) (ts_device r) (ts_remote_ip r) (ts_local_port r) (ts_remote_port r) (ts_seq r) (ts_ack r) v (ts_remote_mac r) (ts_connected r) (ts_closed r) (ts_reset r) (ts_rx_buffer r) (ts_rx_capacity r) (ts_rx_size r).
Definition set_ts_connected (v : bool) (r : tcp_stream_t) : tcp_stream_t :=
  TcpStream (ts_active r) (ts_device r) (ts_remote_ip r) (ts_local_port r) (ts_remote_port r) (ts_seq r) (ts_ack r) (ts_tx_acked r) (ts_remote_mac r) v (ts_closed r) (ts_reset r) (ts_rx_buffer r) (ts_rx_capacity r) (ts_rx_size r).
Definition set_ts_closed (v : bool) (r : tcp_stream_t) : tcp_stream_t :=
  TcpStream (ts_active r) (ts_device r) (ts_remote_ip r) (ts_local_port r) (ts_remote_port r) (ts_seq r) (ts_ack r) (ts_tx_acked r) (ts_remote_mac r) (ts_connected r) v (ts_reset r) (ts_rx_buffer r) (ts_rx_capacity r) (ts_rx_size r).
Definition set_ts_reset (v : bool) (r : tcp_stream_t) : tcp_stream_t :=
  TcpStream (ts_active r) (ts_device r) (ts_remote_ip r) (ts_local_port r) (ts_remote_port r) (ts_seq r) (ts_ack r) (ts_tx_acked r) (ts_remote_mac r) (ts_connected r) (ts_closed r) v (ts_rx_buffer r) (ts_rx_capacity r) (ts_rx_size r).
Definition set_ts_rx_buffer (v : list Z) (r : tcp_stream_t) : tcp_stream_t :=
  TcpStream (ts_active r) (ts_device r) (ts_remote_ip r) (ts_local_port r) (ts_remote_port r) (ts_seq r) (ts_ack r) (ts_tx_acked r) (ts_remote_mac r) (ts_connected r) (ts_closed r) (ts_reset r) v (ts_rx_capacity r) (ts_rx_size r).
Definition set_ts_rx_size (v : Z) (r : tcp_stream_t) : tcp_stream_t :=
  TcpStream (ts_active r) (ts_device r) (ts_remote_ip r) (ts_local_port r) (ts_remote_port r) (ts_seq r) (ts_ack r) (ts_tx_acked r) (ts_remote_mac r) (ts_connected r) (ts_closed r) (ts_reset r) (ts_rx_buffer r) (ts_rx_capacity r) v.

Record dhcp_wait_t : Type := DhcpWait {
  dw_active : bool;
  dw_device : Z;
  dw_xid : Z;
  dw_wanted_type : Z;
  dw_found : bool;
  dw_offered_ip : Z;
  dw_server_ip : Z;
  dw_subnet_mask : Z;
  dw_router : Z;
  dw_dns : Z
}.

Definition set_dw_active (v : bool) (r : dhcp_wait_t) : dhcp_wait_t :=
  DhcpWait v (dw_device r) (dw_xid r) (dw_wanted_type r) (dw_found r) (dw_offered_ip r) (dw_server_ip r) (dw_subnet_mask r) (dw_router r) (dw_dns r).

Record dns_wait_t : Type := DnsWait {
  nw_active : bool;
  nw_device : Z;
  nw_id : Z;
  nw_local_port : Z;
  nw_found : bool;
  nw_cname_found : bool;
  nw_ip : Z;
  nw_cname : list Z
}.

Definition set_nw_active (v : bool) (r : dns_wait_t) : dns_wait_t :=
  DnsWait v (nw_device r) (nw_id r) (nw_local_port r) (nw_found r) (nw_cname_found r) (nw_ip r) (nw_cname r).
Definition set_nw_found (v : bool) (r : dns_wait_t) : dns_wait_t :=
  DnsWait (nw_active r) (nw_device r) (nw_id r) (nw_local_port r) v (nw_cname_found r) (nw_ip r) (nw_cname r).
Definition set_nw_cname_found (v : bool) (r : dns_wait_t) : dns_wait_t :=
  DnsWait (nw_active r) (nw_device r) (nw_id r) (nw_local_port r) (nw_found r) v (nw_ip r) (nw_cname r).
Definition set_nw_ip (v : Z) (r : dns_wait_t) : dns_wait_t :=
  DnsWait (nw_active r) (nw_device r) (nw_id r) (nw_local_port r) (nw_found r) (nw_cname_found r) v (nw_cname r).
Definition set_nw_cname (v : list Z) (r : dns_wait_t) : dns_wait_t :=
  DnsWait (nw_active r) (nw_device r) (nw_id r) (nw_local_port r) (nw_found r) (nw_cname_found r) (nw_ip r) v.

(** The fields of [net_debug_info_t]. *)
Inductive debug_field : Type :=
  | rx_arp | rx_ipv4 | rx_udp | rx_other
  | arp_requests | arp_replies | arp_mismatches | arp_tx_errors | udp_tx_errors
  | dhcp_tx | dhcp_rx | dns_tx | dns_rx
  | last_eth_type | last_inner_eth_type | last_arp_op | last_arp_requested_ip | last_arp_sender_ip | last_arp_target_ip
  | tcp_stream_rx | tcp_stream_tx | tcp_stream_last_error
  | tls_last_state | tls_last_error | tls_last_got | tls_last_body_size.

#[export] Instance debug_field_eq_dec : EqDecision debug_field.
Proof. solve_decision. Defined.

Record net (E : Type) : Type := Net {
  devices : list net_device;
  device_count : Z;
  arp_wait : arp_wait_t;
  tcp_get : tcp_get_t;
  tcp_stream : tcp_stream_t;
  dhcp_wait : dhcp_wait_t;
  dns_wait : dns_wait_t;
  next_ip_id : Z;
  next_local_port : Z;
  local_ip : Z;
  local_netmask : Z;
  local_gateway : Z;
  local_dns : Z;
  debug_info : debug_field -> Z;
  net_poll_lock : bool;
  env : E
}.
#[global] Arguments Net {E}.
#[global] Arguments devices {E}.
#[global] Arguments device_count {E}.
#[global] Arguments arp_wait {E}.
#[global] Arguments tcp_get {E}.
#[global] Arguments tcp_stream {E}.
#[global] Arguments dhcp_wait {E}.
#[global] Arguments dns_wait {E}.
#[global] Arguments next_ip_id {E}.
#[global] Arguments next_local_port {E}.
#[global] Arguments local_ip {E}.
#[global] Arguments local_netmask {E}.
#[global] Arguments local_gateway {E}.
#[global] Arguments local_dns {E}.
#[global] Arguments debug_info {E}.
#[global] Arguments net_poll_lock {E}.
#[global] Arguments env {E}.

Section net.
Context {E : Type} `{!NetDriver E}.

Definition set_devices (v : list net_device) (r : net E) : net E :=
  Net v (device_count r) (arp_wait r) (tcp_get r) (tcp_stream r) (dhcp_wait r) (dns_wait r) (next_ip_id r) (next_local_port r) (local_ip r) (local_netmask r) (local_gateway r) (local_dns r) (debug_info r) (net_poll_lock r) (env r).
Definition set_device_count (v : Z) (r : net E) : net E :=
  Net (devices r) v (arp_wait r) (tcp_get r) (tcp_stream r) (dhcp_wait r) (dns_wait r) (next_ip_id r) (next_local_port r) (local_ip r) (local_netmask r) (local_gateway r) (local_dns r) (debug_info r) (net_poll_lock r) (env r).
Definition set_arp_wait (v : arp_wait_t) (r : net E) : net E :=
  Net (devices r) (device_count r) v (tcp_get r) (tcp_stream r) (dhcp_wait r) (dns_wait r) (next_ip_id r) (next_local_port r) (local_ip r) (local_netmask r) (local_gateway r) (local_dns r) (debug_info r) (net_poll_lock r) (env r).
Definition set_tcp_get (v : tcp_get_t) (r : net E) : net E :=
  Net (devices r) (device_count r) (arp_wait r) v (tcp_stream r) (dhcp_wait r) (dns_wait r) (next_ip_id r) (next_local_port r) (local_ip r) (local_netmask r) (local_gateway r) (local_dns r) (debug_info r) (net_poll_lock r) (env r).
Definition set_tcp_stream (v : tcp_stream_t) (r : net E) : net E :=
  Net (devices r) (device_count r) (arp_wait r) (tcp_get r) v (dhcp_wait r) (dns_wait r) (next_ip_id r) (next_local_port r) (local_ip r) (local_netmask r) (local_gateway r) (local_dns r) (debug_info r) (net_poll_lock r) (env r).
Definition set_dhcp_wait (v : dhcp_wait_t) (r : net E) : net E :=
  Net (devices r) (device_count r) (arp_wait r) (tcp_get r) (tcp_stream r) v (dns_wait r) (next_ip_id r) (next_local_port r) (local_ip r) (local_netmask r) (local_gateway r) (local_dns r) (debug_info r) (net_poll_lock r) (env r).
Definition set_dns_wait (v : dns_wait_t) (r : net E) : net E :=
  Net (devices r) (device_count r) (arp_wait r) (tcp_get r) (tcp_stream r) (dhcp_wait r) v (next_ip_id r) (next_local_port r) (local_ip r) (local_netmask r) (local_gateway r) (local_dns r) (debug_info r) (net_poll_lock r) (env r).
Definition set_next_ip_id (v : Z) (r : net E) : net E :=
  Net (devices r) (device_count r) (arp_wait r) (tcp_get r) (tcp_stream r) (dhcp_wait r) (dns_wait r) v (next_local_port r) (local_ip r) (local_netmask r) (local_gateway r) (local_dns r) (debug_info r) (net_poll_lock r) (env r).
Definition set_next_local_port (v : Z) (r : net E) : net E :=
  Net (devices r) (device_count r) (arp_wait r) (tcp_get r) (tcp_stream r) (dhcp_wait r) (dns_wait r) (next_ip_id r) v (local_ip r) (local_netmask r) (local_gateway r) (local_dns r) (debug_info r) (net_poll_lock r) (env r).
Definition set_local_ip (v : Z) (r : net E) : net E :=
  Net (devices r) (device_count r) (arp_wait r) (tcp_get r) (tcp_stream r) (dhcp_wait r) (dns_wait r) (next_ip_id r) (next_local_port r) v (local_netmask r) (local_gateway r) (local_dns r) (debug_info r) (net_poll_lock r) (env r).
Definition set_local_netmask (v : Z) (r : net E) : net E :=
  Net (devices r) (device_count r) (arp_wait r) (tcp_get r) (tcp_stream r) (dhcp_wait r) (dns_wait r) (next_ip_id r) (next_local_port r) (local_ip r) v (local_gateway r) (local_dns r) (debug_info r) (net_poll_lock r) (env r).
Definition set_local_gateway (v : Z) (r : net E) : net E :=
  Net (devices r) (device_count r) (arp_wait r) (tcp_get r) (tcp_stream r) (dhcp_wait r) (dns_wait r) (next_ip_id r) (next_local_port r) (local_ip r) (local_netmask r) v (local_dns r) (debug_info r) (net_poll_lock r) (env r).
Definition set_local_dns (v : Z) (r : net E) : net E :=
  Net (devices r) (device_count r) (arp_wait r) (tcp_get r) (tcp_stream r) (dhcp_wait r) (dns_wait r) (next_ip_id r) (next_local_port r) (local_ip r) (local_netmask r) (local_gateway r) v (debug_info r) (net_poll_lock r) (env r).
Definition set_net_poll_lock (v : bool) (r : net E) : net E :=
  Net (devices r) (device_count r) (arp_wait r) (tcp_get r) (tcp_stream r) (dhcp_wait r) (dns_wait r) (next_ip_id r) (next_local_port r) (local_ip r) (local_netmask r) (local_gateway r) (local_dns r) (debug_info r) v (env r).
Definition set_env (v : E) (r : net E) : net E :=
  Net (devices r) (device_count r) (arp_wait r) (tcp_get r) (tcp_stream r) (dhcp_wait r) (dns_wait r) (next_ip_id r) (next_local_port r) (local_ip r) (local_netmask r) (local_gateway r) (local_dns r) (debug_info r) (net_poll_lock r) v.

(** Counters are 64-bit; the other fields record a value. *)
Definition bump (f : debug_field) (r : net E) : net E :=
  Net (devices r) (device_count r) (arp_wait r) (tcp_get r) (tcp_stream r) (dhcp_wait r) (dns_wait r) (next_ip_id r) (next_local_port r) (local_ip r) (local_netmask r) (local_gateway r) (local_dns r) (<[f := u64 (debug_info r f + 1)]> (debug_info r)) (net_poll_lock r) (env r).
Definition record (f : debug_field) (v : Z) (r : net E) : net E :=
  Net (devices r) (device_count r) (arp_wait r) (tcp_get r) (tcp_stream r) (dhcp_wait r) (dns_wait r) (next_ip_id r) (next_local_port r) (local_ip r) (local_netmask r) (local_gateway r) (local_dns r) (<[f := v]> (debug_info r)) (net_poll_lock r) (env r).

(** ** Devices *)

(** [copy_name] and [copy_driver]: as much of a string as fits the array [old]. *)
Fixpoint copy_text (room : nat) (src : list Z) : list Z :=
  match room, src with
  | S (S _ as room'), c :: src' => if c =? 0 then [0] else c :: copy_text room' src'
  | S _, _ => [0]
  | O, _ => []
  end.

Definition copy_into (old src : list Z) : list Z := let t := copy_text (length old) src in t ++ drop (length t) old.

Definition copy_name (old src : list Z) : list Z := copy_into old src.
Definition copy_driver (old src : list Z) : list Z := copy_into old src.

Definition zero_device : net_device := NetDevice false (replicate 8 0) (replicate 16 0) (replicate 6 0) 0 0 false 0 0 0 0 0.

Definition net_get_device (index : Z) (s : net E) : option net_device :=
  if device_count s <=? index then None
  else match devices s !! Z.to_nat index with
       | Some dev => if nd_present dev then Some dev else None
       | None => None
       end.

(** [None] for a name, driver or address is a null pointer. *)
Definition net_register_device (name driver : option (list Z)) (vendor_id device_id : Z) (mac : option (list Z)) (link_up : bool) (ctx : Z)
    (s : net E) : Z * net E :=
  match name, driver, mac with
  | Some name, Some driver, Some mac =>
      if NET_MAX_DEVICES <=? device_count s then (-1, s)
      else
        let index := device_count s in
        let old := default zero_device (devices s !! Z.to_nat index) in
        let dev := NetDevice true (copy_name (nd_name old) name) (copy_driver (nd_driver old) driver) (take 6 mac) vendor_id device_id
                     link_up 0 0 0 0 ctx in
        (index, set_devices (<[Z.to_nat index := dev]> (devices s)) (set_device_count (device_count s + 1) s))
  | _, _, _ => (-1, s)
  end.

Definition net_device_count (s : net E) : Z := device_count s.

Definition set_device (index : Z) (dev : net_device) (s : net E) : net E := set_devices (<[Z.to_nat index := dev]> (devices s)) s.

Definition net_set_link (index : Z) (link_up : bool) (s : net E) : net E :=
  match net_get_device index s with Some dev => set_device index (set_nd_link_up link_up dev) s | None => s end.

Definition net_record_rx (index : Z) (s : net E) : net E :=
  match net_get_device index s with Some dev => set_device index (set_nd_rx_packets (u64 (nd_rx_packets dev + 1)) dev) s | None => s end.
Definition net_record_rx_drop (index : Z) (s : net E) : net E :=
  match net_get_device index s with Some dev => set_device index (set_nd_rx_dropped (u64 (nd_rx_dropped dev + 1)) dev) s | None => s end.
Definition net_record_tx (index : Z) (s : net E) : net E :=
  match net_get_device index s with Some dev => set_device index (set_nd_tx_packets (u64 (nd_tx_packets dev + 1)) dev) s | None => s end.
Definition net_record_tx_error (index : Z) (s : net E) : net E :=
  match net_get_device index s with Some dev => set_device index (set_nd_tx_errors (u64 (nd_tx_errors dev + 1)) dev) s | None => s end.

Definition count_one (index : Z) (s : net E) (c : counter) : net E :=
  match c with
  | CountRx => net_record_rx index s
  | CountRxDrop => net_record_rx_drop index s
  | CountTx => net_record_tx index s
  | CountTxError => net_record_tx_error index s
  end.

Definition net_set_ipv4_config (address netmask gateway : Z) (s : net E) : net E :=
  set_local_gateway gateway (set_local_netmask netmask (set_local_ip address s)).
Definition net_ipv4_address (s : net E) : Z := local_ip s.
Definition net_ipv4_netmask (s : net E) : Z := local_netmask s.
Definition net_ipv4_gateway (s : net E) : Z := local_gateway s.
Definition net_set_dns_server (dns : Z) (s : net E) : net E := set_local_dns dns s.
Definition net_dns_server (s : net E) : Z := local_dns s.

Definition net_tls_debug_set (state error last_got body_size : Z) (s : net E) : net E :=
  record tls_last_body_size body_size (record tls_last_got last_got (record tls_last_error error (record tls_last_state state s))).

(** ** Sending

    A payload and its size are one list; the code's 32-bit sizes do not wrap
    for payloads that fit in memory with their headers. *)

Definition net_send_frame (index : Z) (data : list Z) (s : net E) : Z * net E :=
  match net_get_device index s with
  | None => (-1, s)
  | Some dev =>
      if (Z.of_nat (length data) <? NET_MIN_FRAME_SIZE) || (NET_MAX_FRAME_SIZE <? Z.of_nat (length data)) then (-1, s)
      else
        let '(code, counts, e) := drv_send (nd_ctx dev) data (env s) in
        (code, foldl (count_one index) (set_env e s) counts)
  end.

Definition ticks (s : net E) : Z * net E := let '(t, e) := timer_ticks (env s) in (t, set_env e s).

Definition broadcast_mac : list Z := replicate 6 0xFF.

Definition net_send_arp_request (index target_ip : Z) (s : net E) : Z * net E :=
  let s := record last_arp_requested_ip target_ip (bump arp_requests s) in
  match net_get_device index s with
  | None => (-1, bump arp_tx_errors s)
  | Some dev =>
      let frame := pad_frame (eth_header broadcast_mac (nd_mac dev) NET_ETH_TYPE_ARP ++
                              arp_packet NET_ARP_OP_REQUEST (nd_mac dev) (local_ip s) (replicate 6 0) target_ip) in
      let '(code, s) := net_send_frame index frame s in
      if code =? 0 then (0, s) else (-1, bump arp_tx_errors s)
  end.

Definition net_send_arp_reply (index : Z) (target_mac : list Z) (target_ip : Z) (s : net E) : Z * net E :=
  match net_get_device index s with
  | None => (-1, s)
  | Some dev =>
      net_send_frame index (pad_frame (eth_header target_mac (nd_mac dev) NET_ETH_TYPE_ARP ++
        arp_packet NET_ARP_OP_REPLY (nd_mac dev) (local_ip s) target_mac target_ip)) s
  end.

Definition net_send_udp (index : Z) (dst_mac : list Z) (dst_ip src_port dst_port : Z) (payload : list Z) (s : net E) : Z * net E :=
  let udp_size := 8 + Z.of_nat (length payload) in
  let ip_size := 20 + udp_size in
  match net_get_device index s with
  | None => (-1, bump udp_tx_errors s)
  | Some dev =>
      if NET_MAX_FRAME_SIZE <? 14 + ip_size then (-1, bump udp_tx_errors s)
      else
        let id := next_ip_id s in
        let frame := pad_frame (eth_header dst_mac (nd_mac dev) NET_ETH_TYPE_IPV4 ++
                                ipv4_header (u16 ip_size) id NET_IP_PROTO_UDP (local_ip s) dst_ip ++
                                udp_segment (local_ip s) dst_ip src_port dst_port payload) in
        let '(code, s) := net_send_frame index frame (set_next_ip_id (u16 (id + 1)) s) in
        if code =? 0 then (0, s) else (-1, bump udp_tx_errors s)
  end.

Definition net_send_tcp_window (index : Z) (dst_mac : list Z) (dst_ip src_port dst_port seq ack flags window : Z) (payload : list Z) (s : net E) : Z * net E :=
  let tcp_size := 20 + Z.of_nat (length payload) in
  let ip_size := 20 + tcp_size in
  match net_get_device index s with
  | None => (-1, s)
  | Some dev =>
      if NET_MAX_FRAME_SIZE <? 14 + ip_size then (-1, s)
      else
        let id := next_ip_id s in
        let frame := pad_frame (eth_header dst_mac (nd_mac dev) NET_ETH_TYPE_IPV4 ++
                                ipv4_header (u16 ip_size) id NET_IP_PROTO_TCP (local_ip s) dst_ip ++
                                tcp_segment (local_ip s) dst_ip src_port dst_port seq ack flags window payload) in
        net_send_frame index frame (set_next_ip_id (u16 (id + 1)) s)
  end.

Definition net_send_tcp (index : Z) (dst_mac : list Z) (dst_ip src_port dst_port seq ack flags : Z) (payload : list Z) (s : net E) : Z * net E :=
  net_send_tcp_window index dst_mac dst_ip src_port dst_port seq ack flags NET_TCP_DEFAULT_WINDOW payload s.

Definition net_tcp_stream_window (s : net E) : Z :=
  let t := tcp_stream s in
  if negb (ts_active t) || (ts_rx_capacity t <=? ts_rx_size t) then 0
  else let room := ts_rx_capacity t - ts_rx_size t in if 65535 <? room then 65535 else room.

Definition net_tcp_stream_send_packet (flags : Z) (payload : list Z) (s : net E) : Z * net E :=
  let t := tcp_stream s in
  net_send_tcp_window (ts_device t) (ts_remote_mac t) (ts_remote_ip t) (ts_local_port t) (ts_remote_port t) (ts_seq t) (ts_ack t) flags
    (net_tcp_stream_window s) payload s.
End net.
