(* ===== verification/NetHttp.v ===== *)
(** HTTP: kernel/drivers/net.c, lines 473-599 (addresses and URLs), 854-1103
    and 1166-1300 (header fields, chunked bodies, the gzip container), and
    2204-2250 (requests).

    A text with its size is the list of its bytes; reads behind the end are
    the end of the list. Buffers that are written are lists of their whole
    capacity, and a write outside one is [None]. *)
From Stdlib Require Import ZArith Lia String Ascii.
From stdpp Require Import base tactics option list numbers.
From S2P Require Import Prelude.
From S2P Require Import Buffer.
From S2P Require Import NetWire.
From S2P Require Import NetState.
#[local] Open Scope Z_scope.

Definition CR : Z := 13.
Definition LF : Z := 10.
Definition is_digit (c : Z) : bool := (48 <=? c) && (c <=? 57).
Definition lower (c : Z) : Z := if (65 <=? c) && (c <=? 90) then c + 32 else c.

(** ** Addresses and URLs: texts without their terminator *)

Fixpoint net_starts_with (text prefix : list Z) : bool :=
  match prefix with
  | [] => true
  | p :: prefix' => match text with c :: text' => if c =? p then net_starts_with text' prefix' else false | [] => false end
  end.

(** The digits of a number no larger than [limit]: the value, how many, and
    the rest; [None] for a larger one. *)
Fixpoint dec_loop (limit value digits : Z) (text : list Z) : option (Z * Z * list Z) :=
  match text with
  | c :: text' =>
      if is_digit c then
        let value := u32 (value * 10 + (c - 48)) in
        if limit <? value then None else dec_loop limit value (digits + 1) text'
      else Some (value, digits, text)
  | [] => Some (value, digits, text)
  end.

Definition net_parse_dec_octet (text : list Z) : option (Z * list Z) :=
  '(value, digits, rest) ← dec_loop 255 0 0 text;
  if digits =? 0 then None else Some (value, rest).

(** An octet and the dot behind it. *)
Definition octet_dot (text : list Z) : option (Z * list Z) :=
  '(v, rest) ← net_parse_dec_octet text;
  match rest with c :: rest' => if c =? 46 then Some (v, rest') else None | [] => None end.

Definition net_parse_ipv4 (text : list Z) : option (Z * list Z) :=
  '(a, text) ← octet_dot text;
  '(b, text) ← octet_dot text;
  '(c, text) ← octet_dot text;
  '(d, text) ← net_parse_dec_octet text;
  Some (Z.lor (Z.lor (Z.lor (Z.shiftl a 24) (Z.shiftl b 16)) (Z.shiftl c 8)) d, text).

Definition net_parse_ipv4_addr (text : option (list Z)) : option Z :=
  text ← text;
  '(ip, rest) ← net_parse_ipv4 text;
  match rest with [] => Some ip | _ => None end.

Definition net_hostname_is_ipv4 (name : list Z) : option Z :=
  '(ip, rest) ← net_parse_ipv4 name;
  match rest with [] => Some ip | _ => None end.

Definition net_parse_port (text : list Z) : option (Z * list Z) :=
  '(value, digits, rest) ← dec_loop 65535 0 0 text;
  if (digits =? 0) || (value =? 0) then None else Some (value, rest).

(** The host: up to a colon, a slash, the end or the room of the buffer. *)
Fixpoint host_part (room : nat) (text : list Z) : list Z * list Z :=
  match room, text with
  | S room', c :: text' => if (c =? 58) || (c =? 47) then ([], text) else let '(h, r) := host_part room' text' in (c :: h, r)
  | _, _ => ([], text)
  end.

Record url : Type := Url {
  url_ip : Z;
  url_port : Z;
  url_host : list Z;
  url_path : list Z;
  url_is_https : bool
}.

Definition net_parse_url (text : list Z) (host_capacity : Z) : option url :=
  '(https, s) ← (if net_starts_with text (chars "http://") then Some (false, drop 7 text)
                 else if net_starts_with text (chars "https://") then Some (true, drop 8 text) else None);
  let '(host, s) := host_part (Z.to_nat (host_capacity - 1)) s in
  match host with
  | [] => None
  | _ =>
      let ip := default 0 (net_hostname_is_ipv4 host) in
      '(port, s) ← (match s with
                    | c :: s' => if c =? 58 then net_parse_port s' else Some (if https : bool then 443 else 80, s)
                    | [] => Some (if https then 443 else 80, s)
                    end);
      match s with
      | [] => Some (Url ip port host [47] https)
      | c :: _ => if c =? 47 then Some (Url ip port host s https) else None
      end
  end.

(** ** Header fields *)

Fixpoint net_http_header_match_at (text needle : list Z) : bool :=
  match needle with
  | [] => true
  | b :: needle' => match text with a :: text' => if lower a =? b then net_http_header_match_at text' needle' else false | [] => false end
  end.

Fixpoint skip_blank (text : list Z) : list Z :=
  match text with c :: text' => if (c =? 32) || (c =? 9) then skip_blank text' else text | [] => [] end.

(** Digits with saturation: the value, whether there was a digit. *)
Fixpoint parse_uint_loop (value : Z) (saw : bool) (text : list Z) : Z * bool :=
  match text with
  | c :: text' =>
      if is_digit c then
        let digit := c - 48 in
        parse_uint_loop (if (429496729 <? value) || ((value =? 429496729) && (5 <? digit)) then 0xFFFFFFFF else u32 (value * 10 + digit)) true text'
      else (value, saw)
  | [] => (value, saw)
  end.

Definition net_http_parse_uint (text : list Z) : Z * bool := parse_uint_loop 0 false text.

Definition line_end (c : Z) : bool := (c =? CR) || (c =? LF).

Fixpoint contains_loop (needle : list Z) (match_ : nat) (text : list Z) : bool :=
  match text with
  | a :: text' =>
      if line_end a then false
      else if decide (needle !! match_ = Some (lower a)) then
        if (S match_ =? length needle)%nat then true else contains_loop needle (S match_) text'
      else contains_loop needle (if decide (needle !! 0%nat = Some (lower a)) then 1%nat else 0%nat) text'
  | [] => false
  end.

Definition net_http_header_value_contains (text needle : list Z) : bool := contains_loop needle 0 (skip_blank text).

(** The value copied: to the end of the line or of the room. *)
Fixpoint line_value (room : nat) (text : list Z) : list Z :=
  match room, text with
  | S room', c :: text' => if line_end c then [] else c :: line_value room' text'
  | _, _ => []
  end.

(** Without the blanks at its end. *)
Definition trimmed (v : list Z) : nat := length (skip_blank (rev v)).

Definition net_http_copy_header_value (text out : list Z) : list Z :=
  match out with
  | [] => out
  | _ =>
      let v := line_value (length out - 1) (skip_blank text) in
      <[trimmed v := 0]> (v ++ drop (length v) out)
  end.

Definition NET_HTTP_FLAG_TRUNCATED : Z := 0x1.
Definition NET_HTTP_FLAG_CONTENT_LENGTH : Z := 0x2.
Definition NET_HTTP_FLAG_HEADER_TRUNCATED : Z := 0x4.
Definition NET_HTTP_FLAG_CHUNKED : Z := 0x8.
Definition NET_HTTP_FLAG_DECHUNKED : Z := 0x10.
Definition NET_HTTP_FLAG_CHUNK_DECODE_ERROR : Z := 0x20.
Definition NET_HTTP_FLAG_GZIP : Z := 0x40.
Definition NET_HTTP_FLAG_DEFLATE : Z := 0x80.
Definition NET_HTTP_CONTENT_TYPE_SIZE : nat := 64.
Definition NET_HTTP_LOCATION_SIZE : nat := 1024.

Definition or_flag (f : Z) (i : http_info) : http_info := set_hi_flags (Z.lor (hi_flags i) f) i.

(** One header line, from its start on. *)
Definition header_line (line : list Z) (info : http_info) : http_info :=
  if net_http_header_match_at line (chars "content-length:") then
    let '(v, saw) := net_http_parse_uint (skip_blank (drop 15 line)) in
    let info := set_hi_content_length v info in
    if saw : bool then or_flag NET_HTTP_FLAG_CONTENT_LENGTH info else info
  else if net_http_header_match_at line (chars "content-type:") then
    set_hi_content_type (net_http_copy_header_value (drop 13 line) (hi_content_type info)) info
  else if net_http_header_match_at line (chars "location:") then
    set_hi_location (net_http_copy_header_value (drop 9 line) (hi_location info)) info
  else if net_http_header_match_at line (chars "transfer-encoding:") then
    if net_http_header_value_contains (drop 18 line) (chars "chunked") then or_flag NET_HTTP_FLAG_CHUNKED info else info
  else if net_http_header_match_at line (chars "content-encoding:") then
    if net_http_header_value_contains (drop 17 line) (chars "gzip") || net_http_header_value_contains (drop 17 line) (chars "x-gzip")
    then or_flag NET_HTTP_FLAG_GZIP info
    else if net_http_header_value_contains (drop 17 line) (chars "deflate") then or_flag NET_HTTP_FLAG_DEFLATE info else info
  else info.

(** [net_http_line_start] is the flag [start]. *)
Fixpoint header_lines (start : bool) (text : list Z) (info : http_info) : http_info :=
  match text with
  | [] => info
  | c :: text' => header_lines (c =? LF) text' (if start then header_line text info else info)
  end.

Fixpoint until_space (text : list Z) : list Z := match text with c :: text' => if c =? 32 then text else until_space text' | [] => [] end.
Fixpoint skip_space (text : list Z) : list Z := match text with c :: text' => if c =? 32 then skip_space text' else text | [] => [] end.

Definition status_code (header : list Z) : Z :=
  if (12 <=? Z.of_nat (length header)) && net_starts_with header (chars "HTTP") then
    let '(v, saw) := net_http_parse_uint (skip_space (until_space (drop 5 header))) in if saw : bool then v else 0
  else 0.

(** [header] is the text of [header_size] bytes, empty for a null pointer. *)
Definition net_http_parse_info (header : list Z) (body_size : Z) (body_truncated header_truncated : bool) (error : Z) : http_info :=
  let flags := Z.lor (if body_truncated then NET_HTTP_FLAG_TRUNCATED else 0) (if header_truncated then NET_HTTP_FLAG_HEADER_TRUNCATED else 0) in
  let info := HttpInfo 0 0 body_size (Z.of_nat (length header)) flags error (replicate NET_HTTP_CONTENT_TYPE_SIZE 0) (replicate NET_HTTP_LOCATION_SIZE 0) in
  header_lines true header (set_hi_status_code (status_code header) info).

(** ** Chunked bodies, decoded in place *)

Definition net_http_hex_value (ch : Z) : Z :=
  if is_digit ch then ch - 48
  else if (97 <=? ch) && (ch <=? 102) then ch - 97 + 10
  else if (65 <=? ch) && (ch <=? 70) then ch - 65 + 10
  else -1.

Fixpoint skip_newlines (text : list Z) : list Z :=
  match text with c :: text' => if line_end c then skip_newlines text' else text | [] => [] end.

(** The size of a chunk; [None] when it does not fit 32 bits. *)
Fixpoint chunk_digits (size : Z) (saw : bool) (text : list Z) : option (Z * bool * list Z) :=
  match text with
  | c :: text' =>
      let digit := net_http_hex_value c in
      if digit <? 0 then Some (size, saw, text)
      else if 0x0fffffff <? size then None
      else chunk_digits (Z.lor (u32 (Z.shiftl size 4)) digit) true text'
  | [] => Some (size, saw, text)
  end.

Fixpoint until_lf (text : list Z) : list Z := match text with c :: text' => if c =? LF then text else until_lf text' | [] => [] end.

(** [for (i = 0; i < n; ++i) body[write++] = body[read++];] *)
Fixpoint move_bytes (n : nat) (write read : Z) (body : list Z) : option (list Z) :=
  match n with
  | O => Some body
  | S n' => c ← rd8 body read; body ← wr8 body write c; move_bytes n' (write + 1) (read + 1) body
  end.

(** The bytes still to be read. *)
Definition unread (body : list Z) (in_size read : Z) : list Z := drop (Z.to_nat read) (take (Z.to_nat in_size) body).

(** The line end behind a chunk; [None] when something else is there. *)
Definition chunk_end (text : list Z) : option (list Z) :=
  let text := match text with c :: text' => if c =? CR then text' else text | [] => [] end in
  match text with c :: text' => if c =? LF then Some text' else None | [] => Some [] end.

(** The code returned, the buffer and the size of what was decoded. *)
Fixpoint chunk_loop (fuel : nat) (body : list Z) (in_size capacity read write : Z) : option (Z * list Z * Z) :=
  match fuel with
  | O => None
  | S fuel' =>
      match unread body in_size read with
      | [] => Some (-2, body, 0)
      | text =>
          match chunk_digits 0 false (skip_newlines text) with
          | None => Some (-1, body, 0)
          | Some (size, saw, text) =>
              if negb saw then Some (-1, body, 0)
              else match until_lf text with
              | [] => Some (-2, body, 0)
              | _ :: text =>
                  let read := in_size - Z.of_nat (length text) in
                  if size =? 0 then
                    body ← (if write <? capacity then wr8 body write 0 else Some body);
                    Some (0, body, write)
                  else if in_size - read <? size then Some (-2, body, 0)
                  else if (capacity <=? size) || (capacity - size - 1 <? write) then Some (-3, body, 0)
                  else
                    body ← move_bytes (Z.to_nat size) write read body;
                    match chunk_end (unread body in_size (read + size)) with
                    | None => Some (-1, body, 0)
                    | Some text => chunk_loop fuel' body in_size capacity (in_size - Z.of_nat (length text)) (write + size)
                    end
              end
          end
      end
  end.

(** Every round reads at least one byte. *)
Definition net_http_decode_chunked (body : list Z) (in_size capacity : Z) : option (Z * list Z * Z) :=
  if capacity =? 0 then Some (-1, body, 0) else chunk_loop (S (Z.to_nat in_size)) body in_size capacity 0 0.

(** ** The gzip container *)

(** Behind the next zero byte. *)
Fixpoint after_zero (text : list Z) : option (list Z) :=
  match text with c :: text' => if c =? 0 then Some text' else after_zero text' | [] => None end.

Definition has_flag (flags f : Z) : bool := negb (Z.land flags f =? 0).

(** The deflate data: its offset and its size. *)
Definition net_http_gzip_deflate_range (data : list Z) : option (option (Z * Z)) :=
  let in_size := Z.of_nat (length data) in
  if in_size <? 18 then Some None
  else
    d0 ← rd8 data 0; d1 ← rd8 data 1; d2 ← rd8 data 2; flags ← rd8 data 3;
    if negb (d0 =? 0x1f) || negb (d1 =? 0x8b) || negb (d2 =? 8) then Some None
    else if has_flag flags 0xe0 then Some None
    else
      r ← (if has_flag flags 4 then
             if in_size <? 12 then Some None
             else e0 ← rd8 data 10; e1 ← rd8 data 11;
                  let extra_len := Z.lor e0 (Z.shiftl e1 8) in
                  if in_size - 12 <? extra_len then Some None else Some (Some (drop (Z.to_nat (12 + extra_len)) data))
           else Some (Some (drop 10 data)));
      let rest := r ≫= fun t => (if has_flag flags 8 then after_zero t else Some t) ≫=
                      fun t => (if has_flag flags 0x10 then after_zero t else Some t) ≫=
                      fun t => (if has_flag flags 2 then if (length t <? 2)%nat then None else Some (drop 2 t) else Some t) ≫=
                      fun t => if (length t <? 8)%nat then None else Some t in
      match rest with
      | None => Some None
      | Some t => Some (Some (in_size - Z.of_nat (length t), Z.of_nat (length t) - 8))
      end.

(** ** One byte of a response *)

(** The last four bytes of the header. *)
Definition push_tail (ch : Z) (g : tcp_get_t) : option tcp_get_t :=
  if tg_header_tail_count g <? 4 then
    t ← wr8 (tg_header_tail g) (tg_header_tail_count g) ch;
    Some (set_tg_header_tail_count (tg_header_tail_count g + 1) (set_tg_header_tail t g))
  else Some (set_tg_header_tail (drop 1 (tg_header_tail g) ++ [ch]) g).

Definition store_info (g : tcp_get_t) : tcp_get_t :=
  match tg_info g with
  | None => g
  | Some _ => set_tg_info (Some (net_http_parse_info (take (Z.to_nat (tg_header_size g)) (tg_header g)) (tg_out_size g) (tg_full g) (tg_header_truncated g) 0)) g
  end.

Definition net_http_copy_body_byte (ch : Z) (g : tcp_get_t) : option tcp_get_t :=
  if negb (tg_header_done g) then
    g ← (if tg_header_size g + 1 <? 1024 then
           h ← wr8 (tg_header g) (tg_header_size g) ch;
           h ← wr8 h (tg_header_size g + 1) 0;
           Some (set_tg_header_size (tg_header_size g + 1) (set_tg_header h g))
         else Some (set_tg_header_truncated true g));
    g ← push_tail ch g;
    if (tg_header_tail_count g =? 4) && bool_decide (tg_header_tail g = [CR; LF; CR; LF]) then Some (store_info (set_tg_header_done true g)) else Some g
  else if tg_out_capacity g <=? tg_out_size g + 1 then Some (store_info (set_tg_full true g))
  else
    o ← wr8 (tg_out g) (tg_out_size g) ch;
    o ← wr8 o (tg_out_size g + 1) 0;
    Some (set_tg_out_size (tg_out_size g + 1) (set_tg_out o g)).

Fixpoint copy_body (data : list Z) (g : tcp_get_t) : option tcp_get_t :=
  match data with [] => Some g | ch :: data' => g ← net_http_copy_body_byte ch g; copy_body data' g end.

(** ** Requests *)

(** [APPEND_CH] for each byte; [None] when the buffer is full. *)
Fixpoint append_text (text : list Z) (request_size : Z) (acc : list Z) : option (list Z) :=
  match text with
  | [] => Some acc
  | c :: text' => if request_size <=? Z.of_nat (length acc) + 1 then None else append_text text' request_size (acc ++ [c])
  end.

Fixpoint dec_digits (fuel : nat) (v : Z) : list Z :=
  match fuel with
  | O => []
  | S fuel' => if v =? 0 then [] else dec_digits fuel' (v / 10) ++ [48 + v mod 10]
  end.

(** [APPEND_DEC]: at most ten digits. *)
Definition dec_text (v : Z) : list Z := if v =? 0 then [48] else dec_digits 10 v.

Definition ip_text (ip : Z) : list Z :=
  dec_text (Z.land (Z.shiftr ip 24) 0xFF) ++ [46] ++ dec_text (Z.land (Z.shiftr ip 16) 0xFF) ++ [46] ++
  dec_text (Z.land (Z.shiftr ip 8) 0xFF) ++ [46] ++ dec_text (Z.land ip 0xFF).

Definition request_tail : list Z :=
  [CR; LF] ++ chars "Accept: text/css,text/html,application/xhtml+xml,image/png,image/jpeg,image/gif,image/bmp,image/x-icon,image/vnd.microsoft.icon,image/svg+xml,*/*;q=0.5" ++
  [CR; LF] ++ chars "Accept-Encoding: identity" ++ [CR; LF] ++
  chars "User-Agent: Mozilla/5.0 (X11; LainOS x86_64) LainOS-ZBrowser/0.1 NetSurf/3.12 (+https://github.com/TennerL/LainOS)" ++
  [CR; LF] ++ chars "Connection: close" ++ [CR; LF; CR; LF].

Definition net_build_http_request (path : list Z) (ip : Z) (host : list Z) (request_size : Z) : option (list Z) :=
  if request_size <? 64 then None
  else
    append_text (chars "GET " ++ path ++ chars " HTTP/1.0" ++ [CR; LF] ++ chars "Host: " ++
                 (match host with [] => ip_text ip | _ => host end) ++ request_tail) request_size [].
