(* ===== verification/NetDns.v ===== *)
(** DNS messages: kernel/drivers/net.c, lines 1692-1869 and 2327-2366 (names
    with compression, responses, queries).

    [None] is an access outside the packet or a name buffer, or a name that
    did not end; the theorems show that neither happens. *)
From Stdlib Require Import ZArith Lia.
From stdpp Require Import base tactics option list numbers.
From S2P Require Import Prelude.
From S2P Require Import Buffer.
From S2P Require Import NetWire.
From S2P Require Import NetState.
From S2P Require Import NetHttp.
#[local] Open Scope Z_scope.

(** ** Names *)

(** Whether a name was read, where the message goes on behind it, and the
    buffer, [None] for a null pointer. *)
Record name_result : Type := NameResult {
  nr_ok : bool;
  nr_next : Z;
  nr_out : option (list Z)
}.

(** A label is put behind what is in the buffer: the buffer, where it ends,
    and whether there was room. *)
Definition put_label (buf : list Z) (out_pos : Z) (label : list Z) : option (list Z * Z * bool) :=
  let cap := Z.of_nat (length buf) in
  let len := Z.of_nat (length label) in
  if negb (out_pos =? 0) && (cap <=? out_pos + 1) then Some (buf, out_pos, false)
  else
    '(buf, out_pos) ← (if out_pos =? 0 then Some (buf, out_pos) else b ← wr8 buf out_pos 46; Some (b, out_pos + 1));
    if cap <=? out_pos + len then Some (buf, out_pos, false)
    else
      buf ← wr_block buf out_pos label;
      buf ← wr8 buf (out_pos + len) 0;
      Some (buf, out_pos + len, true).

Fixpoint name_loop (fuel : nat) (payload : list Z) (size pos : Z) (out : option (list Z)) (out_pos jump_count next : Z) : option name_result :=
  match fuel with
  | O => None
  | S fuel' =>
      if size <=? pos then Some (NameResult false 0 out)
      else
        len ← rd8 payload pos;
        let pos := pos + 1 in
        if len =? 0 then Some (NameResult true (if next =? 0 then pos else next) out)
        else if Z.land len 0xC0 =? 0xC0 then
          if size <=? pos then Some (NameResult false 0 out)
          else
            b ← rd8 payload pos;
            let pos := pos + 1 in
            let ptr := Z.lor (Z.shiftl (Z.land len 0x3F) 8) b in
            if (size <=? ptr) || (8 <=? jump_count) then Some (NameResult false 0 out)
            else name_loop fuel' payload size ptr out out_pos (jump_count + 1) (if next =? 0 then pos else next)
        else if negb (Z.land len 0xC0 =? 0) || (63 <? len) || (size <? pos + len) then Some (NameResult false 0 out)
        else
          match out with
          | Some ((_ :: _) as buf) =>
              label ← rd_block payload pos len;
              '(buf, out_pos, room) ← put_label buf out_pos label;
              if room : bool then name_loop fuel' payload size (pos + len) (Some buf) out_pos jump_count next
              else Some (NameResult false 0 (Some buf))
          | _ => name_loop fuel' payload size (pos + len) out out_pos jump_count next
          end
  end.

(** A name has at most [size] labels between two of its eight jumps. *)
Definition net_dns_read_name (payload : list Z) (size offset : Z) (out : option (list Z)) : option name_result :=
  if size <=? offset then Some (NameResult false 0 out)
  else
    let out := match out with Some (_ :: buf) => Some (0 :: buf) | _ => out end in
    name_loop (S (Z.to_nat (9 * (size + 1)))) payload size offset out 0 0 0.

Definition net_dns_skip_name (payload : list Z) (size offset : Z) : option Z :=
  r ← net_dns_read_name payload size offset None;
  Some (if nr_ok r then nr_next r else size).

(** Texts without their terminator. *)
Fixpoint net_dns_name_equal (a b : list Z) : bool :=
  match a, b with
  | ca :: a', cb :: b' => if lower ca =? lower cb then net_dns_name_equal a' b' else false
  | [], [] => true
  | _, _ => false
  end.

(** ** Responses *)

Fixpoint skip_questions (n : nat) (payload : list Z) (size offset : Z) : option (option Z) :=
  match n with
  | O => Some (Some offset)
  | S n' =>
      offset ← net_dns_skip_name payload size offset;
      if size <? offset + 4 then Some None else skip_questions n' payload size (offset + 4)
  end.

(** A field of two bytes, high byte first. *)
Definition rd_be16 (l : list Z) (i : Z) : option Z := a ← rd8 l i; b ← rd8 l (i + 1); Some (Z.lor (Z.shiftl a 8) b).
Definition rd_be32 (l : list Z) (i : Z) : option Z :=
  a ← rd8 l i; b ← rd8 l (i + 1); c ← rd8 l (i + 2); d ← rd8 l (i + 3);
  Some (Z.lor (Z.lor (Z.lor (Z.shiftl a 24) (Z.shiftl b 16)) (Z.shiftl c 8)) d).

(** The resource records, from number [i] on; the flag tells that an address
    was found. *)
Fixpoint dns_records (n : nat) (i : Z) (payload : list Z) (size offset answers authorities : Z) (w : dns_wait_t) : option (dns_wait_t * bool) :=
  match n with
  | O => Some (w, false)
  | S n' =>
      if size <=? offset then Some (w, false)
      else
        r ← net_dns_read_name payload size offset (Some (replicate (Z.to_nat NET_DNS_NAME_SIZE) 0));
        if negb (nr_ok r) || (size <? nr_next r + 10) then Some (w, false)
        else
          let offset := nr_next r in
          let record_name := cstr (default [] (nr_out r)) in
          type ← rd_be16 payload offset;
          class_code ← rd_be16 payload (offset + 2);
          rdlength ← rd_be16 payload (offset + 8);
          let offset := offset + 10 in
          if size <? offset + rdlength then Some (w, false)
          else
            let in_answer := i <? answers in
            let in_additional := answers + authorities <=? i in
            if (type =? 1) && (class_code =? 1) && (rdlength =? 4) &&
               (in_answer || (in_additional && nw_cname_found w && net_dns_name_equal record_name (cstr (nw_cname w)))) then
              ip ← rd_be32 payload offset;
              Some (set_nw_found true (set_nw_ip ip w), true)
            else
              w ← (if in_answer && (type =? 5) && (class_code =? 1) && negb (rdlength =? 0) then
                     c ← net_dns_read_name payload size offset (Some (nw_cname w));
                     let w := set_nw_cname (default [] (nr_out c)) w in
                     Some (if nr_ok c && negb (bool_decide (cstr (nw_cname w) = [])) then set_nw_cname_found true w else w)
                   else Some w);
              dns_records n' (i + 1) payload size (offset + rdlength) answers authorities w
  end.

(** The body of [net_handle_dns] behind the test of the header. *)
Definition dns_response (payload : list Z) (size : Z) (w : dns_wait_t) : option (dns_wait_t * bool) :=
  questions ← rd_be16 payload 4;
  answers ← rd_be16 payload 6;
  authorities ← rd_be16 payload 8;
  additional ← rd_be16 payload 10;
  offset ← skip_questions (Z.to_nat questions) payload size 12;
  match offset with
  | None => Some (w, false)
  | Some offset => dns_records (Z.to_nat (answers + authorities + additional)) 0 payload size offset answers authorities w
  end.

(** ** Queries *)

(** [acc] is the packet so far, [label] the label being collected. *)
Definition add_label (label acc : list Z) (capacity : Z) : option (list Z) :=
  let len := Z.of_nat (length label) in
  if (len =? 0) || (63 <? len) || (capacity <=? Z.of_nat (length acc) + 1 + len + 5) then None else Some (acc ++ len :: label).

Fixpoint query_loop (label name acc : list Z) (capacity : Z) : option (list Z) :=
  match name with
  | [] => add_label label acc capacity
  | c :: name' =>
      if c =? 46 then acc ← add_label label acc capacity; query_loop [] name' acc capacity
      else query_loop (label ++ [c]) name' acc capacity
  end.

Definition query_header (id : Z) : list Z := [u8 (Z.shiftr id 8); u8 id; 1; 0; 0; 1; 0; 0; 0; 0; 0; 0].

Definition net_build_dns_query (name : list Z) (id capacity : Z) : option (list Z) :=
  match name with
  | [] => None
  | _ => if capacity <? 32 then None else acc ← query_loop [] name (query_header id) capacity; Some (acc ++ [0; 0; 1; 0; 1])
  end.
