(* ===== verification/NetRecv.v ===== *)
(** Received frames and the waits: kernel/drivers/net.c, lines 361-383, 706-733,
    1302-1322, 1405-1690, 1796-1985 and 1987-2487.

    [net_receive_frame] and everything below it work on the list of the bytes
    of a frame; offsets that the code takes as pointers are offsets into that
    list, and every read is checked. *)
From Stdlib Require Import ZArith Lia.
From stdpp Require Import base tactics option list numbers functions.
From S2P Require Import Prelude.
From S2P Require Import Buffer.
From S2P Require Import NetWire.
From S2P Require Import NetState.
From S2P Require Import NetHttp.
From S2P Require Import NetDns.
#[local] Open Scope Z_scope.

(** ** Sequence numbers: [(int32_t)(a - b) < 0] and [> 0] *)

Definition to_i32 (x : Z) : Z := if u32 x <? 0x80000000 then u32 x else u32 x - 0x100000000.
Definition net_tcp_seq_before (a b : Z) : bool := to_i32 (a - b) <? 0.
Definition net_tcp_seq_after (a b : Z) : bool := 0 <? to_i32 (a - b).

(** ** DHCP options *)

Record dhcp_options : Type := DhcpOptions {
  do_type : Z;
  do_server : Z;
  do_mask : Z;
  do_router : Z;
  do_dns : Z
}.

Definition dhcp_option (code len : Z) (payload : list Z) (offset : Z) (o : dhcp_options) : option dhcp_options :=
  let '(DhcpOptions t sv mk rt dn) := o in
  if (code =? 53) && (1 <=? len) then v ← rd8 payload offset; Some (DhcpOptions v sv mk rt dn)
  else if (code =? 54) && (4 <=? len) then v ← rd_be32 payload offset; Some (DhcpOptions t v mk rt dn)
  else if (code =? 1) && (4 <=? len) then v ← rd_be32 payload offset; Some (DhcpOptions t sv v rt dn)
  else if (code =? 3) && (4 <=? len) then v ← rd_be32 payload offset; Some (DhcpOptions t sv mk v dn)
  else if (code =? 6) && (4 <=? len) then v ← rd_be32 payload offset; Some (DhcpOptions t sv mk rt v)
  else Some o.

Fixpoint dhcp_options_loop (fuel : nat) (payload : list Z) (size offset : Z) (o : dhcp_options) : option dhcp_options :=
  match fuel with
  | O => None
  | S fuel' =>
      if size <=? offset then Some o
      else
        code ← rd8 payload offset;
        let offset := offset + 1 in
        if code =? 0 then dhcp_options_loop fuel' payload size offset o
        else if (code =? 255) || (size <=? offset) then Some o
        else
          len ← rd8 payload offset;
          let offset := offset + 1 in
          if size <? offset + len then Some o
          else
            o ← dhcp_option code len payload offset o;
            dhcp_options_loop fuel' payload size (offset + len) o
  end.

Definition zero_options : dhcp_options := DhcpOptions 0 0 0 0 0.

(** [net_dhcp_add_option]: the options area is 312 bytes. *)
Definition net_dhcp_add_option (options : list Z) (code : Z) (data : list Z) : list Z :=
  if 312 <=? Z.of_nat (length options) + 2 + Z.of_nat (length data) then options
  else options ++ code :: Z.of_nat (length data) :: data.

(** The options of a request, the end mark included. *)
Definition dhcp_request_options (message_type : Z) (mac : list Z) (requested_ip server_ip : Z) : list Z :=
  let o := net_dhcp_add_option [] 53 [message_type] in
  let o := net_dhcp_add_option o 61 (1 :: mac) in
  let o := net_dhcp_add_option o 55 [1; 3; 6] in
  let o := if requested_ip =? 0 then o else net_dhcp_add_option o 50 (put32 requested_ip) in
  let o := if server_ip =? 0 then o else net_dhcp_add_option o 54 (put32 server_ip) in
  if Z.of_nat (length o) <? 312 then o ++ [255] else o.

Definition dhcp_packet (xid : Z) (mac options : list Z) : list Z :=
  [1; 1; 6; 0] ++ put32 xid ++ [0; 0] ++ put16 0x8000 ++ replicate 16 0 ++ (mac ++ replicate 10 0) ++ replicate 192 0 ++
  put32 0x63825363 ++ options ++ replicate (312 - length options) 0.

Section recv.
Context {E : Type} `{!NetDriver E}.

Definition net_send_dhcp (index message_type xid requested_ip server_ip : Z) (s : net E) : Z * net E :=
  match net_get_device index s with
  | None => (-1, s)
  | Some dev =>
      net_send_udp index broadcast_mac 0xFFFFFFFF NET_DHCP_CLIENT_PORT NET_DHCP_SERVER_PORT
        (dhcp_packet xid (nd_mac dev) (dhcp_request_options message_type (nd_mac dev) requested_ip server_ip)) (bump dhcp_tx s)
  end.

(** ** ARP *)

Definition net_handle_arp (index : Z) (payload : list Z) (size : Z) (s : net E) : option (net E) :=
  if size <? 28 then Some s
  else
    htype ← rd16 payload 0; ptype ← rd16 payload 2; hlen ← rd8 payload 4; plen ← rd8 payload 5;
    if negb (htype =? 1) || negb (ptype =? NET_ETH_TYPE_IPV4) || negb (hlen =? 6) || negb (plen =? 4) then Some s
    else
      sender_ip ← rd32 payload 14; target_ip ← rd32 payload 24; op ← rd16 payload 6; sha ← rd_block payload 8 6;
      let s := record last_arp_target_ip target_ip (record last_arp_sender_ip sender_ip (record last_arp_op op s)) in
      let s := if op =? NET_ARP_OP_REPLY then bump arp_replies s
               else if (op =? NET_ARP_OP_REQUEST) && (target_ip =? local_ip s) then snd (net_send_arp_reply index sha sender_ip s) else s in
      let w := arp_wait s in
      if aw_active w && (aw_device w =? index) && (aw_wanted_ip w =? sender_ip) && (op =? NET_ARP_OP_REPLY) then
        Some (set_arp_wait (set_aw_found true (set_aw_mac sha w)) s)
      else if aw_active w && (op =? NET_ARP_OP_REPLY) then Some (bump arp_mismatches s)
      else Some s.

(** ** TCP *)

Record segment : Type := Segment {
  sg_src_ip : Z;
  sg_src_port : Z;
  sg_dst_port : Z;
  sg_seq : Z;
  sg_ack : Z;
  sg_flags : Z;
  sg_payload : list Z
}.

(** The header of a segment and its payload, [Some None] when it is ignored. *)
Definition parse_segment (ip : list Z) (ip_header_size ip_total_size : Z) : option (option segment) :=
  if ip_total_size <? ip_header_size + 20 then Some None
  else
    data_offset ← rd8 ip (ip_header_size + 12);
    let tcp_header_size := Z.shiftr data_offset 4 * 4 in
    if (tcp_header_size <? 20) || (ip_total_size <? ip_header_size + tcp_header_size) then Some None
    else
      src_ip ← rd32 ip 12;
      src_port ← rd16 ip ip_header_size; dst_port ← rd16 ip (ip_header_size + 2);
      seq ← rd32 ip (ip_header_size + 4); ack ← rd32 ip (ip_header_size + 8); flags ← rd8 ip (ip_header_size + 13);
      payload ← rd_block ip (ip_header_size + tcp_header_size) (ip_total_size - ip_header_size - tcp_header_size);
      Some (Some (Segment src_ip src_port dst_port seq ack flags payload)).

Definition flag_set (flags f : Z) : bool := negb (Z.land flags f =? 0).

Definition for_stream (index : Z) (g : segment) (t : tcp_stream_t) : bool :=
  ts_active t && (ts_device t =? index) && (sg_src_ip g =? ts_remote_ip t) && (sg_src_port g =? ts_remote_port t) && (sg_dst_port g =? ts_local_port t).

Definition update_stream (f : tcp_stream_t -> tcp_stream_t) (s : net E) : net E := set_tcp_stream (f (tcp_stream s)) s.
Definition update_get (f : tcp_get_t -> tcp_get_t) (s : net E) : net E := set_tcp_get (f (tcp_get s)) s.

(** Whether a payload from [seq] on has the byte expected next. *)
Definition has_next (seq size ack : Z) : bool :=
  (seq =? ack) || (net_tcp_seq_before seq ack && net_tcp_seq_after (u32 (seq + size)) ack).

(** The new bytes of a payload go into the buffer as far as there is room. *)
Definition stream_payload (g : segment) (s : net E) : option (net E) :=
  let t := tcp_stream s in
  let size := Z.of_nat (length (sg_payload g)) in
  if size =? 0 then Some s
  else if has_next (sg_seq g) size (ts_ack t) then
    let offset := u32 (ts_ack t - sg_seq g) in
    let remaining := u32 (size - offset) in
    let room := u32 (ts_rx_capacity t - ts_rx_size t) in
    let copy_size := if remaining <? room then remaining else room in
    s ← (if copy_size =? 0 then Some s
         else
           data ← rd_block (sg_payload g) offset copy_size;
           buffer ← wr_block (ts_rx_buffer t) (ts_rx_size t) data;
           Some (bump tcp_stream_rx (set_tcp_stream (set_ts_ack (u32 (ts_ack t + copy_size))
                   (set_ts_rx_size (u32 (ts_rx_size t + copy_size)) (set_ts_rx_buffer buffer t))) s)));
    Some (snd (net_tcp_stream_send_packet 0x10 [] s))
  else if net_tcp_seq_after (sg_seq g) (ts_ack t) || net_tcp_seq_before (sg_seq g) (ts_ack t) then
    Some (snd (net_tcp_stream_send_packet 0x10 [] s))
  else Some s.

Definition stream_fin (g : segment) (s : net E) : net E :=
  let next := u32 (sg_seq g + Z.of_nat (length (sg_payload g))) in
  if flag_set (sg_flags g) 1 && (next =? ts_ack (tcp_stream s)) then
    let s := update_stream (fun t => set_ts_closed true (set_ts_ack (u32 (next + 1)) t)) s in
    let s := snd (net_tcp_stream_send_packet 0x11 [] s) in
    update_stream (fun t => set_ts_seq (u32 (ts_seq t + 1)) t) s
  else s.

Definition stream_segment (g : segment) (s : net E) : option (net E) :=
  if flag_set (sg_flags g) 4 then Some (update_stream (set_ts_reset true) s)
  else
    let s := if flag_set (sg_flags g) 0x10 && (ts_tx_acked (tcp_stream s) <? sg_ack g) then update_stream (set_ts_tx_acked (sg_ack g)) s else s in
    if negb (ts_connected (tcp_stream s)) && (Z.land (sg_flags g) 0x12 =? 0x12) then
      let s := update_stream (fun t => set_ts_connected true (set_ts_tx_acked (sg_ack g) (set_ts_ack (u32 (sg_seq g + 1)) t))) s in
      Some (snd (net_tcp_stream_send_packet 0x10 [] s))
    else
      s ← stream_payload g s;
      Some (stream_fin g s).

(** An acknowledgement on the connection of [net_http_get_ex]. *)
Definition get_send (index flags : Z) (s : net E) : net E :=
  let t := tcp_get s in
  snd (net_send_tcp index (tg_remote_mac t) (tg_remote_ip t) (tg_local_port t) (tg_remote_port t) (tg_seq t) (tg_ack t) flags [] s).

Definition get_payload (index : Z) (g : segment) (s : net E) : option (net E) :=
  let t := tcp_get s in
  let size := Z.of_nat (length (sg_payload g)) in
  if size =? 0 then Some s
  else if has_next (sg_seq g) size (tg_ack t) then
    let offset := u32 (tg_ack t - sg_seq g) in
    let remaining := u32 (size - offset) in
    data ← rd_block (sg_payload g) offset remaining;
    t ← copy_body data t;
    Some (get_send index 0x10 (set_tcp_get (set_tg_ack (u32 (tg_ack t + remaining)) t) s))
  else if net_tcp_seq_after (sg_seq g) (tg_ack t) || net_tcp_seq_before (sg_seq g) (tg_ack t) then Some (get_send index 0x10 s)
  else Some s.

Definition get_fin (index : Z) (g : segment) (s : net E) : net E :=
  let next := u32 (sg_seq g + Z.of_nat (length (sg_payload g))) in
  if flag_set (sg_flags g) 1 && (next =? tg_ack (tcp_get s)) then
    let s := get_send index 0x11 (update_get (fun t => set_tg_closed true (set_tg_ack (u32 (next + 1)) t)) s) in
    update_get (fun t => set_tg_seq (u32 (tg_seq t + 1)) t) s
  else s.

Definition get_segment (index : Z) (g : segment) (s : net E) : option (net E) :=
  let t := tcp_get s in
  if negb (tg_active t) || negb (tg_device t =? index) then Some s
  else if negb (sg_src_ip g =? tg_remote_ip t) || negb (sg_src_port g =? tg_remote_port t) || negb (sg_dst_port g =? tg_local_port t) then Some s
  else if flag_set (sg_flags g) 4 then Some (update_get (set_tg_reset true) s)
  else if negb (tg_connected t) && (Z.land (sg_flags g) 0x12 =? 0x12) then
    Some (get_send index 0x10 (update_get (fun t => set_tg_connected true (set_tg_ack (u32 (sg_seq g + 1)) t)) s))
  else
    s ← get_payload index g s;
    Some (get_fin index g s).

Definition net_handle_tcp (index : Z) (ip : list Z) (ip_header_size ip_total_size : Z) (s : net E) : option (net E) :=
  g ← parse_segment ip ip_header_size ip_total_size;
  match g with
  | None => Some s
  | Some g => if for_stream index g (tcp_stream s) then stream_segment g s else get_segment index g s
  end.

(** ** DHCP and DNS *)

Definition net_handle_dhcp (index : Z) (payload : list Z) (size : Z) (s : net E) : option (net E) :=
  let w := dhcp_wait s in
  if negb (dw_active w) || negb (dw_device w =? index) || (size <? 240) then Some s
  else
    op ← rd8 payload 0; htype ← rd8 payload 1; hlen ← rd8 payload 2; xid ← rd32 payload 4; magic ← rd32 payload 236;
    if negb (op =? 2) || negb (htype =? 1) || negb (hlen =? NET_MAC_SIZE) || negb (xid =? dw_xid w) || negb (magic =? 0x63825363) then Some s
    else
      o ← dhcp_options_loop (S (Z.to_nat size)) payload size 240 zero_options;
      if negb (do_type o =? dw_wanted_type w) then Some s
      else
        yiaddr ← rd32 payload 16;
        Some (set_dhcp_wait (DhcpWait (dw_active w) (dw_device w) (dw_xid w) (dw_wanted_type w) true yiaddr (do_server o) (do_mask o) (do_router o) (do_dns o))
                (bump dhcp_rx s)).

Definition net_handle_dns (index : Z) (payload : list Z) (size : Z) (s : net E) : option (net E) :=
  let w := dns_wait s in
  if negb (nw_active w) || negb (nw_device w =? index) || (size <? 12) then Some s
  else
    id ← rd_be16 payload 0; f2 ← rd8 payload 2; f3 ← rd8 payload 3;
    if negb (id =? nw_id w) || (Z.land f2 0x80 =? 0) || negb (Z.land f3 0x0F =? 0) then Some s
    else
      '(w, hit) ← dns_response payload size w;
      let s := set_dns_wait w s in
      Some (if hit : bool then bump dns_rx s else s).

(** ** UDP, IPv4, Ethernet *)

Definition net_handle_udp (index : Z) (ip : list Z) (ip_header_size ip_total_size : Z) (s : net E) : option (net E) :=
  if ip_total_size <? ip_header_size + 8 then Some s
  else
    src_port ← rd16 ip ip_header_size; dst_port ← rd16 ip (ip_header_size + 2); udp_length ← rd16 ip (ip_header_size + 4);
    if (udp_length <? 8) || (ip_total_size <? ip_header_size + udp_length) then Some s
    else
      let payload := drop (Z.to_nat (ip_header_size + 8)) ip in
      let s := bump rx_udp s in
      if (src_port =? NET_DHCP_SERVER_PORT) && (dst_port =? NET_DHCP_CLIENT_PORT) then net_handle_dhcp index payload (udp_length - 8) s
      else if (src_port =? NET_DNS_PORT) && nw_active (dns_wait s) && (dst_port =? nw_local_port (dns_wait s)) then net_handle_dns index payload (udp_length - 8) s
      else Some s.

Definition net_handle_ipv4 (index : Z) (payload : list Z) (size : Z) (s : net E) : option (net E) :=
  if size <? 20 then Some s
  else
    ver_ihl ← rd8 payload 0; ip_total_size ← rd16 payload 2; proto ← rd8 payload 9; dst ← rd32 payload 16;
    let ip_header_size := Z.land ver_ihl 0x0F * 4 in
    if negb (Z.shiftr ver_ihl 4 =? 4) || (ip_header_size <? 20) || (ip_total_size <? ip_header_size) || (size <? ip_total_size) then Some s
    else if negb (dst =? local_ip s) && negb (dst =? 0xFFFFFFFF) && negb ((local_ip s =? 0) && (proto =? NET_IP_PROTO_UDP)) then Some s
    else if proto =? NET_IP_PROTO_TCP then net_handle_tcp index payload ip_header_size ip_total_size s
    else if proto =? NET_IP_PROTO_UDP then net_handle_udp index payload ip_header_size ip_total_size s
    else Some s.

Definition net_receive_frame (index : Z) (frame : list Z) (s : net E) : option (net E) :=
  let size := Z.of_nat (length frame) in
  if (device_count s <=? index) || (size <? 14) then Some s
  else
    type ← rd16 frame 12;
    let s := record last_inner_eth_type type (record last_eth_type type s) in
    '(type, payload_offset, s) ←
      (if ((type =? NET_ETH_TYPE_VLAN) || (type =? NET_ETH_TYPE_QINQ)) && (18 <=? size) then
         inner ← rd_be16 frame 16; Some (inner, 18, record last_inner_eth_type inner s)
       else Some (type, 14, s));
    if size <? payload_offset then Some s
    else
      let payload := drop (Z.to_nat payload_offset) frame in
      if type =? NET_ETH_TYPE_ARP then net_handle_arp index payload (size - payload_offset) (bump rx_arp s)
      else if type =? NET_ETH_TYPE_IPV4 then net_handle_ipv4 index payload (size - payload_offset) (bump rx_ipv4 s)
      else Some (bump rx_other s).

(** ** Start *)

(** [e1000_init] finds the hardware and registers it. *)
Definition net_init (e1000_init : net E -> net E) (s : net E) : net E :=
  e1000_init (Net (map (set_nd_present false) (devices s)) 0 (arp_wait s) (tcp_get s) (tcp_stream s) (dhcp_wait s) (dns_wait s) (next_ip_id s)
    (next_local_port s) (local_ip s) (local_netmask s) (local_gateway s) (local_dns s) (fun _ => 0) (net_poll_lock s) (env s)).

(** ** Polling *)

Fixpoint rx_events (index : Z) (evs : list rx_event) (s : net E) : option (net E) :=
  match evs with
  | [] => Some s
  | RxLink up :: evs' => rx_events index evs' (net_set_link index up s)
  | RxCount c :: evs' => rx_events index evs' (count_one index s c)
  | RxFrame data :: evs' => s ← net_receive_frame index data s; rx_events index evs' s
  end.

Definition net_poll_device (index : Z) (s : net E) : option (Z * net E) :=
  match net_get_device index s with
  | None => Some (-1, s)
  | Some dev =>
      let '(code, evs, e) := drv_poll (nd_ctx dev) (env s) in
      s ← rx_events index evs (set_env e s);
      Some (code, s)
  end.

Fixpoint poll_each (n : nat) (index polled : Z) (s : net E) : option (Z * net E) :=
  match n with
  | O => Some (polled, s)
  | S n' => '(code, s) ← net_poll_device index s; poll_each n' (index + 1) (if code =? 0 then u32 (polled + 1) else polled) s
  end.

Definition net_poll_all_devices (s : net E) : option (Z * net E) :=
  if net_poll_lock s then Some (0, s)
  else
    '(polled, s) ← poll_each (Z.to_nat (device_count s)) 0 0 (set_net_poll_lock true s);
    Some (polled, set_net_poll_lock false s).

Definition net_progress_device (index : Z) (s : net E) : option (net E) :=
  if net_poll_lock s then Some s
  else
    '(_, s) ← net_poll_device index (set_net_poll_lock true s);
    Some (set_net_poll_lock false s).

(** [while (timer_ticks() - start < limit)] with a poll and a test in each
    round; -1 when the time is up. *)
Fixpoint wait_loop (fuel : nat) (index start limit : Z) (test : net E -> option Z) (s : net E) : option (Z * net E) :=
  match fuel with
  | O => None
  | S fuel' =>
      let '(now, s) := ticks s in
      if u64 (now - start) <? limit then
        s ← net_progress_device index s;
        match test s with
        | Some code => Some (code, s)
        | None => wait_loop fuel' index start limit test s
        end
      else Some (-1, s)
  end.

(** ** Waiting for an address *)

(** The code and the address found. *)
Definition net_arp_resolve (fuel : nat) (index ip : Z) (s : net E) : option (Z * list Z * net E) :=
  let '(start, s) := ticks s in
  let s := set_arp_wait (ArpWait true index ip (replicate 6 0) false) s in
  let '(code, s) := net_send_arp_request index ip s in
  if negb (code =? 0) then Some (-1, [], set_arp_wait (set_aw_active false (arp_wait s)) s)
  else
    '(code, s) ← wait_loop fuel index start NET_TIMEOUT_TICKS (fun s => if aw_found (arp_wait s) then Some 0 else None) s;
    Some (code, aw_mac (arp_wait s), set_arp_wait (set_aw_active false (arp_wait s)) s).

Definition net_arp_probe (fuel : nat) (index ip : Z) (s : net E) : option (Z * list Z * net E) :=
  if device_count s <=? index then Some (-1, [], s) else net_arp_resolve fuel index ip s.

(** The address to ask for: the host itself or the gateway. *)
Definition route (ip : Z) (s : net E) : Z :=
  if Z.land ip (local_netmask s) =? Z.land (local_ip s) (local_netmask s) then ip else local_gateway s.

(** ** Streams *)

Definition net_wait_for_tcp_connected (fuel : nat) (index : Z) (s : net E) : option (Z * net E) :=
  let '(start, s) := ticks s in
  wait_loop fuel index start NET_TIMEOUT_TICKS
    (fun s => if tg_connected (tcp_get s) then Some 0 else if tg_reset (tcp_get s) then Some (-1) else None) s.

Definition net_wait_for_tcp_stream_connected (fuel : nat) (index : Z) (s : net E) : option (Z * net E) :=
  let '(start, s) := ticks s in
  wait_loop fuel index start NET_TIMEOUT_TICKS
    (fun s => if ts_connected (tcp_stream s) then Some 0 else if ts_reset (tcp_stream s) then Some (-1) else None) s.

(** The deadline moves on while the body grows. *)
Fixpoint done_loop (fuel : nat) (index start last_size : Z) (s : net E) : option (Z * net E) :=
  match fuel with
  | O => None
  | S fuel' =>
      let '(now, s) := ticks s in
      if u64 (now - start) <? NET_TIMEOUT_TICKS then
        s ← net_progress_device index s;
        let t := tcp_get s in
        if tg_closed t then Some (0, s)
        else if tg_full t then Some (0, s)
        else if tg_reset t then Some (-1, s)
        else if negb (tg_out_size t =? last_size) then let '(start, s) := ticks s in done_loop fuel' index start (tg_out_size t) s
        else done_loop fuel' index start last_size s
      else Some (if tg_header_done (tcp_get s) then 0 else -1, s)
  end.

Definition net_wait_for_tcp_done (fuel : nat) (index : Z) (s : net E) : option (Z * net E) :=
  let '(start, s) := ticks s in done_loop fuel index start (tg_out_size (tcp_get s)) s.

Definition net_tcp_stream_connect (fuel : nat) (index ip port : Z) (rx_buffer : list Z) (rx_capacity : Z) (s : net E) : option (Z * net E) :=
  if (device_count s <=? index) || (ip =? 0) || (port =? 0) || (rx_capacity =? 0) then Some (-1, s)
  else
    let arp_ip := route ip s in
    if negb (Z.land ip (local_netmask s) =? Z.land (local_ip s) (local_netmask s)) && (local_gateway s =? 0) then Some (-7, s)
    else
      '(code, mac, s) ← net_arp_resolve fuel index arp_ip s;
      if negb (code =? 0) then Some (-3, s)
      else
        let local_port := next_local_port s in
        let s := set_next_local_port (u16 (local_port + 1)) s in
        let '(now, s) := ticks s in
        let seq := u32 (0x20000000 + now) in
        let s := set_tcp_stream (TcpStream true index ip local_port port seq 0 seq mac false false false rx_buffer rx_capacity 0) s in
        let '(code, s) := net_send_tcp_window index mac ip local_port port seq 0 2 (net_tcp_stream_window s) [] s in
        if negb (code =? 0) then Some (-4, update_stream (set_ts_active false) s)
        else
          let s := update_stream (fun t => set_ts_seq (u32 (ts_seq t + 1)) t) s in
          '(code, s) ← net_wait_for_tcp_stream_connected fuel index s;
          if negb (code =? 0) then Some (-5, update_stream (set_ts_active false) s) else Some (0, s).

(** The segments of [net_tcp_stream_send], at most 1200 bytes each. *)
Fixpoint send_loop (fuel : nat) (data : list Z) (s : net E) : option (Z * net E) :=
  match data with
  | [] => Some (0, record tcp_stream_last_error 0 s)
  | _ =>
      match fuel with
      | O => None
      | S fuel' =>
          let chunk := take 1200 data in
          let t := tcp_stream s in
          let '(code, s) := net_send_tcp_window (ts_device t) (ts_remote_mac t) (ts_remote_ip t) (ts_local_port t) (ts_remote_port t)
                              (ts_seq t) (ts_ack t) 0x18 (net_tcp_stream_window s) chunk s in
          if negb (code =? 0) then Some (-2, record tcp_stream_last_error 2 s)
          else
            let s := bump tcp_stream_tx (update_stream (fun t => set_ts_seq (u32 (ts_seq t + Z.of_nat (length chunk))) t) s) in
            s ← net_progress_device (ts_device (tcp_stream s)) s;
            if ts_reset (tcp_stream s) then Some (-3, record tcp_stream_last_error 3 s)
            else send_loop fuel' (drop 1200 data) s
      end
  end.

(** Each segment takes at least one byte. *)
Definition net_tcp_stream_send (data : list Z) (s : net E) : option (Z * net E) :=
  let t := tcp_stream s in
  if negb (ts_active t) || negb (ts_connected t) then Some (-1, record tcp_stream_last_error 1 s)
  else match data with [] => Some (0, s) | _ => send_loop (length data) data s end.

(** Waiting for data: [Some code] ends the call, [None] goes on to copy. *)
Fixpoint recv_loop (fuel : nat) (start timeout_ticks : Z) (s : net E) : option (option Z * net E) :=
  if negb (ts_rx_size (tcp_stream s) =? 0) then Some (None, s)
  else
    match fuel with
    | O => None
    | S fuel' =>
        s ← net_progress_device (ts_device (tcp_stream s)) s;
        if ts_reset (tcp_stream s) then Some (Some (-2), s)
        else if ts_closed (tcp_stream s) then Some (Some 0, s)
        else
          let '(now, s) := ticks s in
          if timeout_ticks <=? u64 (now - start) then Some (Some 0, s) else recv_loop fuel' start timeout_ticks s
    end.

(** Taking [n] bytes from the front of the buffer; the rest moves up. *)
Definition stream_take (n : Z) (s : net E) : option (list Z * net E) :=
  let t := tcp_stream s in
  data ← rd_block (ts_rx_buffer t) 0 n;
  rest ← rd_block (ts_rx_buffer t) n (ts_rx_size t - n);
  buffer ← wr_block (ts_rx_buffer t) 0 rest;
  Some (data, set_tcp_stream (set_ts_rx_size (ts_rx_size t - n) (set_ts_rx_buffer buffer t)) s).

(** The code and the bytes copied to the caller. *)
Definition net_tcp_stream_recv (fuel : nat) (capacity timeout_ticks : Z) (s : net E) : option (Z * list Z * net E) :=
  if negb (ts_active (tcp_stream s)) || (capacity =? 0) then Some (-1, [], s)
  else
    let '(start, s) := ticks s in
    '(code, s) ← recv_loop fuel start timeout_ticks s;
    match code with
    | Some code => Some (code, [], s)
    | None =>
        let size := ts_rx_size (tcp_stream s) in
        let copy_size := if size <? capacity then size else capacity in
        '(data, s) ← stream_take copy_size s;
        let t := tcp_stream s in
        let s := if ts_connected t && negb (ts_closed t) then snd (net_tcp_stream_send_packet 0x10 [] s) else s in
        Some (copy_size, data, s)
    end.

Definition net_tcp_stream_close (s : net E) : net E :=
  let t := tcp_stream s in
  let s := if ts_active t && ts_connected t && negb (ts_closed t) then
             update_stream (fun t => set_ts_seq (u32 (ts_seq t + 1)) t) (snd (net_tcp_stream_send_packet 0x11 [] s))
           else s in
  update_stream (set_ts_active false) s.

(** ** Configuration *)

Definition net_wait_for_dhcp (fuel : nat) (index : Z) (s : net E) : option (Z * net E) :=
  let '(start, s) := ticks s in
  wait_loop fuel index start NET_TIMEOUT_TICKS (fun s => if dw_found (dhcp_wait s) then Some 0 else None) s.

(** Sending a message and waiting for the answer of type [wanted]. *)
Definition dhcp_exchange (fuel : nat) (index message_type wanted xid requested_ip server_ip : Z) (s : net E) : option (Z * net E) :=
  let s := set_dhcp_wait (DhcpWait true index xid wanted false 0 0 0 0 0) s in
  let '(code, s) := net_send_dhcp index message_type xid requested_ip server_ip s in
  if negb (code =? 0) then Some (-1, s) else net_wait_for_dhcp fuel index s.

Definition dhcp_failed (old_ip code : Z) (s : net E) : Z * net E :=
  (code, set_local_ip old_ip (set_dhcp_wait (set_dw_active false (dhcp_wait s)) s)).

Definition net_dhcp_configure (fuel : nat) (index : Z) (s : net E) : option (Z * net E) :=
  if device_count s <=? index then Some (-1, s)
  else
    let old_ip := local_ip s in
    let s := set_local_ip 0 s in
    let '(now, s) := ticks s in
    let xid := Z.lxor 0x44484350 (u32 now) in
    '(code, s) ← dhcp_exchange fuel index 1 2 xid 0 0 s;
    if negb (code =? 0) then Some (dhcp_failed old_ip (-2) s)
    else
      let offered_ip := dw_offered_ip (dhcp_wait s) in
      let server_ip := dw_server_ip (dhcp_wait s) in
      '(code, s) ← dhcp_exchange fuel index 3 5 xid offered_ip server_ip s;
      if negb (code =? 0) then Some (dhcp_failed old_ip (-3) s)
      else
        let w := dhcp_wait s in
        let s := set_local_ip (dw_offered_ip w) s in
        let s := if dw_subnet_mask w =? 0 then s else set_local_netmask (dw_subnet_mask w) s in
        let s := if dw_router w =? 0 then s else set_local_gateway (dw_router w) s in
        let s := if dw_dns w =? 0 then s else set_local_dns (dw_dns w) s in
        Some (0, set_dhcp_wait (set_dw_active false w) s).

(** ** Names *)

(** What the wait for an answer ended with. *)
Inductive dns_answer : Type :=
  | DnsFound (ip : Z)
  | DnsCname (name : list Z)
  | DnsNone.

Fixpoint dns_wait_loop (fuel : nat) (index start : Z) (s : net E) : option (dns_answer * net E) :=
  match fuel with
  | O => None
  | S fuel' =>
      let '(now, s) := ticks s in
      if u64 (now - start) <? NET_TIMEOUT_TICKS then
        s ← net_progress_device index s;
        if nw_found (dns_wait s) then Some (DnsFound (nw_ip (dns_wait s)), s)
        else if nw_cname_found (dns_wait s) then Some (DnsCname (cstr (nw_cname (dns_wait s))), s)
        else dns_wait_loop fuel' index start s
      else Some (DnsNone, s)
  end.

(** How an attempt with one server ended: with the address, with another name
    to ask for, with an error, or with a name that makes no query. *)
Inductive dns_attempt : Type :=
  | AttemptFound (ip : Z)
  | AttemptRestart
  | AttemptFailed (error : Z)
  | AttemptBadName.

(** The attempt and [current_name] behind it. *)
Definition dns_ask (fuel : nat) (index server : Z) (current_name : list Z) (s : net E) : option (dns_attempt * list Z * net E) :=
  let arp_ip := route server s in
  if arp_ip =? 0 then Some (AttemptFailed 3, current_name, s)
  else
    '(code, mac, s) ← net_arp_resolve fuel index arp_ip s;
    if negb (code =? 0) then Some (AttemptFailed 3, current_name, s)
    else
      let local_port := next_local_port s in
      let s := set_next_local_port (u16 (local_port + 1)) s in
      let '(now, s) := ticks s in
      let id := u16 (Z.lxor (Z.lxor 0xD000 (u16 now)) local_port) in
      match net_build_dns_query current_name id 256 with
      | None => Some (AttemptBadName, current_name, s)
      | Some query =>
          let s := bump dns_tx (set_dns_wait (DnsWait true index id local_port false false 0 (replicate 128 0)) s) in
          let '(code, s) := net_send_udp index mac server local_port NET_DNS_PORT query s in
          if negb (code =? 0) then Some (AttemptFailed 5, current_name, set_dns_wait (set_nw_active false (dns_wait s)) s)
          else
            let '(start, s) := ticks s in
            '(answer, s) ← dns_wait_loop fuel index start s;
            let s' := set_dns_wait (set_nw_active false (dns_wait s)) s in
            match answer with
            | DnsFound ip => Some (AttemptFound ip, current_name, set_local_dns server s')
            | DnsCname name =>
                if bool_decide (name = []) || (127 <? Z.of_nat (length name)) then Some (AttemptFailed 6, take 127 name, s')
                else Some (AttemptRestart, name, set_local_dns server s')
            | DnsNone => Some (AttemptFailed 6, current_name, s')
            end
      end.

(** The servers in turn, without zeros and repetitions: [tried] holds the
    servers before. *)
Fixpoint dns_servers_loop (fuel : nat) (index : Z) (servers tried : list Z) (current_name : list Z) (last_error : Z) (s : net E) :
    option (dns_attempt * list Z * Z * net E) :=
  match servers with
  | [] => Some (AttemptFailed last_error, current_name, last_error, s)
  | server :: servers' =>
      if (server =? 0) || bool_decide (server ∈ tried) then dns_servers_loop fuel index servers' (tried ++ [server]) current_name last_error s
      else
        '(r, current_name, s) ← dns_ask fuel index server current_name s;
        match r with
        | AttemptFailed e => dns_servers_loop fuel index servers' (tried ++ [server]) current_name e s
        | _ => Some (r, current_name, last_error, s)
        end
  end.

Fixpoint dns_depth_loop (depth fuel : nat) (index : Z) (servers current_name : list Z) (last_error : Z) (s : net E) : option (Z * Z * net E) :=
  match depth with
  | O => Some (- last_error, 0, s)
  | S depth' =>
      '(r, current_name, last_error, s) ← dns_servers_loop fuel index servers [] current_name last_error s;
      match r with
      | AttemptFound ip => Some (0, ip, s)
      | AttemptBadName => Some (-4, 0, s)
      | AttemptFailed e => Some (- e, 0, s)
      | AttemptRestart => dns_depth_loop depth' fuel index servers current_name last_error s
      end
  end.

(** The code and the address. *)
Definition net_dns_resolve (fuel : nat) (index : Z) (name : list Z) (s : net E) : option (Z * Z * net E) :=
  if device_count s <=? index then Some (-1, 0, s)
  else match net_hostname_is_ipv4 name with
  | Some ip => Some (0, ip, s)
  | None =>
      if bool_decide (name = []) || (127 <? Z.of_nat (length name)) then Some (-4, 0, s)
      else
        let servers := [local_dns s; NET_FALLBACK_DNS_PRIMARY; NET_FALLBACK_DNS_SECONDARY] in
        dns_depth_loop 5 fuel index servers name (if local_dns s =? 0 then 2 else 6) s
  end.
End recv.
