(* ===== verification/NetGet.v ===== *)
(** A request over HTTP: kernel/drivers/net.c, lines 1105-1164
    (net_http_decode_content) and 2489-2676 (net_http_get, net_http_get_ex).

    The heap, the decompressor of the image library and the TLS client are
    parameters, the class [HttpLibs]: whether kmalloc grants a block, what the
    decompressor leaves in the buffer and returns, and the whole request over
    TLS (kernel/drivers/tls.c, which drives the vendored BearSSL), about which
    no theorem assumes anything. *)
From Stdlib Require Import ZArith Lia.
From stdpp Require Import base tactics option list numbers functions.
From S2P Require Import Prelude.
From S2P Require Import Buffer.
From S2P Require Import NetWire.
From S2P Require Import NetState.
From S2P Require Import NetHttp.
From S2P Require Import NetDns.
From S2P Require Import NetRecv.
#[local] Open Scope Z_scope.

Definition NET_HTTP_HOST_SIZE : Z := 256.
Definition NET_HTTP_REQUEST_SIZE : Z := 4608.
Definition NET_HTTP_FLAG_DECOMPRESSED : Z := 0x100.
Definition NET_HTTP_FLAG_DECOMPRESS_ERROR : Z := 0x200.

(** What a request leaves with the caller: the code, the buffer, the size of
    the body and the information, [None] when the caller wants none. *)
Record http_result : Type := HttpResult {
  hr_code : Z;
  hr_out : list Z;
  hr_out_size : Z;
  hr_info : option http_info
}.

(** [zlib_decode header out capacity data] is stbi_zlib_decode_buffer, or
    stbi_zlib_decode_noheader_buffer without [header]: the size or -1, and the
    buffer behind the call. *)
Class HttpLibs (E : Type) := {
  kmalloc_grants : Z -> E -> bool * E;
  zlib_decode : bool -> list Z -> Z -> list Z -> Z * list Z;
  net_tls_http_get : Z -> Z -> Z -> list Z -> list Z -> list Z -> bool -> net E -> option (http_result * net E)
}.

Section get.
Context {E : Type} `{!NetDriver E} `{!HttpLibs E}.

Definition net_kmalloc (size : Z) (s : net E) : bool * net E := let '(ok, e) := kmalloc_grants size (env s) in (ok, set_env e s).

(** The decompressor for the flags; the code, the buffer. *)
Definition decode_flags (flags : Z) (body : list Z) (decode_capacity : Z) (compressed : list Z) : option (Z * list Z) :=
  if has_flag flags NET_HTTP_FLAG_GZIP then
    r ← net_http_gzip_deflate_range compressed;
    match r with
    | Some (gzip_offset, gzip_size) =>
        if gzip_size <=? 0x7fffffff then
          data ← rd_block compressed gzip_offset gzip_size;
          Some (zlib_decode false body decode_capacity data)
        else Some (-1, body)
    | None => Some (-1, body)
    end
  else if has_flag flags NET_HTTP_FLAG_DEFLATE then
    let '(decoded, body) := zlib_decode true body decode_capacity compressed in
    Some (if decoded <? 0 then zlib_decode false body decode_capacity compressed else (decoded, body))
  else Some (-1, body).

(** The code, the buffer and the size. *)
Definition net_http_decode_content (body : list Z) (in_size flags : Z) (s : net E) : option (Z * list Z * Z * net E) :=
  let capacity := Z.of_nat (length body) in
  if Z.land flags (Z.lor NET_HTTP_FLAG_GZIP NET_HTTP_FLAG_DEFLATE) =? 0 then Some (1, body, in_size, s)
  else if (in_size =? 0) || (capacity <=? 1) || (0x7fffffff <? in_size) || (0x7fffffff <? capacity) then Some (-1, body, in_size, s)
  else
    let '(granted, s) := net_kmalloc in_size s in
    if negb granted then Some (-2, body, in_size, s)
    else
      compressed ← rd_block body 0 in_size;
      '(decoded, body) ← decode_flags flags body (capacity - 1) compressed;
      if decoded <? 0 then Some (-3, body, in_size, s)
      else
        body ← wr8 body decoded 0;
        Some (0, body, decoded, s).

(** The information of a request that ended early, and of one with a response. *)
Definition fail_info (error : Z) (want : bool) : option http_info := if want then Some (net_http_parse_info [] 0 false false error) else None.
Definition response_info (error : Z) (g : tcp_get_t) : http_info :=
  net_http_parse_info (take (Z.to_nat (tg_header_size g)) (tg_header g)) (tg_out_size g) (tg_full g) (tg_header_truncated g) error.

Definition http_failed (code : Z) (out : list Z) (want : bool) (s : net E) : http_result * net E := (HttpResult code out 0 (fail_info code want), s).

(** Giving up a request that was started. *)
Definition get_failed (code : Z) (want : bool) (s : net E) : http_result * net E :=
  let g := tcp_get s in
  (HttpResult code (tg_out g) 0 (if want then Some (response_info code g) else None), update_get (set_tg_active false) s).

(** The body behind a response: chunks, then compression. *)
Definition finish_body (want : bool) (s : net E) : option (http_result * net E) :=
  let g := tcp_get s in
  let info := response_info 0 g in
  let capacity := tg_out_capacity g in
  '(out, size, info) ←
    (if has_flag (hi_flags info) NET_HTTP_FLAG_CHUNKED then
       '(code, out, size) ← net_http_decode_chunked (tg_out g) (tg_out_size g) capacity;
       Some (if code =? 0 then (out, size, set_hi_body_size size (or_flag NET_HTTP_FLAG_DECHUNKED info))
             else (out, tg_out_size g, or_flag NET_HTTP_FLAG_CHUNK_DECODE_ERROR info))
     else Some (tg_out g, tg_out_size g, info));
  '(code, out, size, info, s) ←
    (if has_flag (hi_flags info) (Z.lor NET_HTTP_FLAG_GZIP NET_HTTP_FLAG_DEFLATE) then
       '(code, out, decoded, s) ← net_http_decode_content out size (hi_flags info) s;
       Some (if code =? 0 then (0, out, decoded, set_hi_body_size decoded (or_flag NET_HTTP_FLAG_DECOMPRESSED info), s)
             else (-15, out, size, set_hi_error (-15) (or_flag NET_HTTP_FLAG_DECOMPRESS_ERROR info), s))
     else Some (0, out, size, info, s));
  let s := set_tcp_get (set_tg_active false (set_tg_out_size size (set_tg_out out (tcp_get s)))) s in
  Some (HttpResult code out (if code =? 0 then size else 0) (if want : bool then Some info else None), s).

(** [tcp_get] when the request starts; zeros elsewhere. *)
Definition new_get (index ip local_port port seq : Z) (mac out : list Z) (want : bool) : tcp_get_t :=
  TcpGet true index ip local_port port seq 0 mac false false false out (Z.of_nat (length out)) 0 false false (replicate 1024 0) 0 false
    (if want then Some (net_http_parse_info [] 0 false false 0) else None) (replicate 4 0) 0.

(** From the first packet on. *)
Definition get_exchange (fuel : nat) (index ip port : Z) (mac request out : list Z) (want : bool) (s : net E) : option (http_result * net E) :=
  let local_port := next_local_port s in
  let s := set_next_local_port (u16 (local_port + 1)) s in
  let '(now, s) := ticks s in
  let seq := u32 (0x10000000 + now) in
  let s := set_tcp_get (new_get index ip local_port port seq mac out want) s in
  let '(code, s) := net_send_tcp index mac ip local_port port seq 0 2 [] s in
  if negb (code =? 0) then
    Some (HttpResult (-4) out 0 (fail_info (-4) want), update_get (set_tg_active false) s)
  else
    let s := update_get (fun g => set_tg_seq (u32 (tg_seq g + 1)) g) s in
    '(code, s) ← net_wait_for_tcp_connected fuel index s;
    if negb (code =? 0) then Some (get_failed (-5) want s)
    else
      let g := tcp_get s in
      let '(code, s) := net_send_tcp index mac ip (tg_local_port g) port (tg_seq g) (tg_ack g) 0x18 request s in
      if negb (code =? 0) then Some (get_failed (-4) want s)
      else
        let s := update_get (fun g => set_tg_seq (u32 (tg_seq g + Z.of_nat (length request))) g) s in
        '(code, s) ← net_wait_for_tcp_done fuel index s;
        if negb (code =? 0) then Some (get_failed (-6) want s) else finish_body want s.

(** [None] for the URL or the buffer is a null pointer. *)
Definition net_http_get_ex (fuel : nat) (index : Z) (url out : option (list Z)) (want : bool) (s : net E) : option (http_result * net E) :=
  match url, out with
  | Some url, Some out =>
      if (Z.of_nat (length out) =? 0) || (device_count s <=? index) then Some (http_failed (-1) out want s)
      else
        out ← wr8 out 0 0;
        match net_parse_url url NET_HTTP_HOST_SIZE with
        | None => Some (http_failed (-2) out want s)
        | Some u =>
            '(code, ip, s) ← (if url_ip u =? 0 then net_dns_resolve fuel index (url_host u) s else Some (0, url_ip u, s));
            if negb (code =? 0) then Some (http_failed (-8) out want s)
            else if url_is_https u then net_tls_http_get index ip (url_port u) (url_host u) (url_path u) out want s
            else if negb (Z.land ip (local_netmask s) =? Z.land (local_ip s) (local_netmask s)) && (local_gateway s =? 0) then Some (http_failed (-7) out want s)
            else
              '(code, mac, s) ← net_arp_resolve fuel index (route ip s) s;
              if negb (code =? 0) then Some (http_failed (-3) out want s)
              else
                let '(granted, s) := net_kmalloc NET_HTTP_REQUEST_SIZE s in
                if negb granted then Some (http_failed (-11) out want s)
                else match net_build_http_request (url_path u) ip (url_host u) NET_HTTP_REQUEST_SIZE with
                     | None => Some (http_failed (-2) out want s)
                     | Some request => get_exchange fuel index ip (url_port u) mac request out want s
                     end
        end
  | _, _ => Some (http_failed (-1) (default [] out) want s)
  end.

Definition net_http_get (fuel : nat) (index : Z) (url out : option (list Z)) (s : net E) : option (http_result * net E) :=
  net_http_get_ex fuel index url out false s.
End get.
