(* ===== verification/NetSafe.v ===== *)
(** Received frames are safe: whatever bytes arrive, every access of
    [net_receive_frame] and of the functions below it stays inside its buffer,
    the loops end, and the buffers of the stack keep their shape.

    [gives o P] says that a computation ends without a fault in a value with
    [P]; the lemmas of the database [net] are its rules for the checked reads
    and writes. *)
From Stdlib Require Import ZArith Lia.
From stdpp Require Import base tactics option list numbers functions.
From S2P Require Import Prelude.
From S2P Require Import Buffer.
From S2P Require Import NetWire.
From S2P Require Import NetState.
From S2P Require Import NetHttp.
From S2P Require Import NetDns.
From S2P Require Import NetRecv.
#[local] Open Scope Z_scope.

Create HintDb net discriminated.

Lemma gives_rd16 l i : bytes l -> 0 <= i -> i + 2 <= Z.of_nat (length l) -> gives (rd16 l i) (fun v => 0 <= v < 65536).
Proof. intros Hl H0 Hi. by destruct (rd16_some l i Hl H0 Hi) as (v & -> & Hv). Qed.

Lemma gives_rd32 l i : bytes l -> 0 <= i -> i + 4 <= Z.of_nat (length l) -> gives (rd32 l i) is_u32.
Proof. intros Hl H0 Hi. by destruct (rd32_some l i Hl H0 Hi) as (v & -> & Hv). Qed.

Lemma gives_rd_be16 l i : bytes l -> 0 <= i -> i + 2 <= Z.of_nat (length l) -> gives (rd_be16 l i) (fun v => 0 <= v < 65536).
Proof.
  intros Hl H0 Hi. unfold rd_be16. eapply gives_bind; [apply gives_rd8; [done|lia]|]. intros a Ha. eapply gives_bind; [apply gives_rd8; [done|lia]|].
  intros b Hb. cbn. rewrite word_eq by done. cint.
Qed.

Lemma be32_eq a b c d : is_u8 a -> is_u8 b -> is_u8 c -> is_u8 d ->
  Z.lor (Z.lor (Z.lor (Z.shiftl a 24) (Z.shiftl b 16)) (Z.shiftl c 8)) d = ((a * 256 + b) * 256 + c) * 256 + d.
Proof.
  unfold is_u8. intros Ha Hb Hc Hd. change 24 with (8 + 16). rewrite <- Z.shiftl_shiftl by lia. rewrite <- Z.shiftl_lor. rewrite word_eq by done.
  change 16 with (8 + 8). rewrite <- Z.shiftl_shiftl by lia. rewrite <- Z.shiftl_lor.
  rewrite (Z.shiftl_mul_pow2 (a * 256 + b) 8), (lor_add_high (a * 256 + b) c 8) by (try change (2 ^ 8) with 256; lia).
  rewrite Z.shiftl_mul_pow2, lor_add_high by (try change (2 ^ 8) with 256; lia). change (2 ^ 8) with 256. lia.
Qed.

Lemma gives_rd_be32 l i : bytes l -> 0 <= i -> i + 4 <= Z.of_nat (length l) -> gives (rd_be32 l i) is_u32.
Proof.
  intros Hl H0 Hi. unfold rd_be32. do 4 (eapply gives_bind; [apply gives_rd8; [done|lia]|]; intros ? ?). cbn [gives]. rewrite be32_eq by done. cint.
Qed.

#[export] Hint Resolve same_buffer_refl gives_rd8 gives_rd16 gives_rd32 gives_rd_block gives_rd_be16 gives_rd_be32 gives_wr8 gives_wr_block : net.

(** ** Names of DNS *)

Definition label_put (buf : list Z) (r : list Z * Z * bool) : Prop :=
  let '(buf', out_pos', room) := r in same_buffer (Some buf) (Some buf') /\ (room = true -> 0 <= out_pos' < Z.of_nat (length buf)).

Lemma put_label_safe buf out_pos label : 0 <= out_pos < Z.of_nat (length buf) -> bytes label -> gives (put_label buf out_pos label) (label_put buf).
Proof.
  intros Hp Hl. unfold put_label. set (cap := Z.of_nat (length buf)) in *. set (len := Z.of_nat (length label)).
  destruct (negb (out_pos =? 0) && (cap <=? out_pos + 1)) eqn:Er; [cbn; split; [by split|done]|].
  apply (gives_bind _ _ (fun '(b, p) => same_buffer (Some buf) (Some b) /\ 0 <= p < cap)).
  - destruct (Z.eqb_spec out_pos 0); [cbn; split; [by split|lia]|]. cbn [negb andb] in Er. bool_prop.
    eapply gives_bind; [apply (wr8_same buf); [lia|unfold is_u8; lia]|]. intros b Hb. cbn. split; [done|lia].
  - intros [b p] (Hb & Hpos). destruct (Z.leb_spec cap (p + len)); [cbn; split; done|]. pose proof Hb as [Hlen _].
    eapply gives_bind; [apply (wr_block_same b); [lia| |done]; fold len; lia|]. intros b1 Hb1. pose proof Hb1 as [Hlen1 _].
    eapply gives_bind; [apply (wr8_same b1); [lia|unfold is_u8; lia]|]. intros b2 Hb2. cbn [gives label_put].
    split; [exact (same_buffer_trans (Some _) (Some _) (Some _) Hb (same_buffer_trans (Some _) (Some _) (Some _) Hb1 Hb2))|]. intros _. fold cap. lia.
Qed.

Definition name_read (size : Z) (out : option (list Z)) (r : name_result) : Prop :=
  (nr_ok r = true -> 0 < nr_next r <= size) /\ same_buffer out (nr_out r).

Definition out_fits (out : option (list Z)) (out_pos : Z) : Prop := match out with Some ((_ :: _) as b) => 0 <= out_pos < Z.of_nat (length b) | _ => True end.

(** The loop ends: a label moves forward, and there are at most eight jumps. *)
Lemma name_loop_safe fuel payload size pos out out_pos jump_count next :
  bytes payload -> 0 <= size <= Z.of_nat (length payload) -> 0 <= pos <= size -> 0 <= jump_count <= 8 -> 0 <= next <= size -> out_fits out out_pos ->
  (8 - jump_count) * (size + 1) + (size + 1 - pos) <= Z.of_nat fuel ->
  gives (name_loop fuel payload size pos out out_pos jump_count next) (name_read size out).
Proof.
  intros Hb Hs. revert pos out out_pos jump_count next. induction fuel as [|fuel IH]; intros pos out out_pos jump_count next Hp Hj Hn Ho Hf; [nia|].
  assert (Hstop : name_read size out (NameResult false 0 out)) by (split; [done|apply same_buffer_refl]).
  cbn [name_loop]. destruct (Z.leb_spec size pos); [done|]. eapply gives_bind; [apply gives_rd8; [done|lia]|]. intros len Hlen.
  destruct (Z.eqb_spec len 0). { cbn. split; [|apply same_buffer_refl]. intros _. cbn. destruct (Z.eqb_spec next 0); lia. }
  destruct (Z.land len 0xC0 =? 0xC0).
  { destruct (Z.leb_spec size (pos + 1)); [done|]. eapply gives_bind; [apply gives_rd8; [done|lia]|]. intros b Hbb.
    destruct (Z.leb_spec size (Z.lor (Z.shiftl (Z.land len 0x3F) 8) b)); [done|]. destruct (Z.leb_spec 8 jump_count); [done|]. cbn [orb].
    assert (0 <= Z.lor (Z.shiftl (Z.land len 0x3F) 8) b).
    { apply Z.lor_nonneg. split; [|cint]. apply Z.shiftl_nonneg, Z.land_nonneg. lia. }
    apply IH; [lia|lia|destruct (Z.eqb_spec next 0); lia|done|nia]. }
  destruct (negb (Z.land len 0xC0 =? 0) || (63 <? len) || (size <? pos + 1 + len)) eqn:Eb; [done|]. bool_prop. unfold is_u8 in Hlen.
  destruct out as [[|c buf]|]; [apply IH; (lia || done)| |apply IH; (lia || done)].
  eapply gives_bind; [apply gives_rd_block; (lia || done)|]. intros label [Hl _]. eapply gives_bind; [apply put_label_safe; done|].
  intros [[buf' p'] room] [Hsame Hroom]. destruct room; [|cbn; split; [done|exact Hsame]].
  eapply gives_mono; [apply IH; [lia|lia|lia| |lia]|].
  - destruct buf' as [|c' b']; [done|]. cbn [out_fits]. destruct Hsame as [E _]. rewrite E. by apply Hroom.
  - intros r [Hr1 Hr2]. split; [done|]. by eapply same_buffer_trans.
Qed.

Lemma net_dns_read_name_safe payload size offset out : bytes payload -> 0 <= size <= Z.of_nat (length payload) -> 0 <= offset ->
  gives (net_dns_read_name payload size offset out) (name_read size out).
Proof.
  intros Hb Hs Ho. unfold net_dns_read_name. destruct (Z.leb_spec size offset); [cbn; split; [done|apply same_buffer_refl]|].
  set (out' := match out with Some (_ :: buf) => Some (0 :: buf) | _ => out end).
  assert (E : same_buffer out out').
  { destruct out as [[|c buf]|]; cbn; try done. split; [done|]. intros B. inv_Forall. constructor; [unfold is_u8; lia|done]. }
  eapply gives_mono; [apply name_loop_safe; [done|done|lia|lia|lia| |lia]|].
  - destruct out as [[|c buf]|]; cbn; (done || lia).
  - intros r [H1 H2]. split; [done|]. by eapply same_buffer_trans.
Qed.

Lemma skip_questions_safe n payload size offset : bytes payload -> 0 <= size <= Z.of_nat (length payload) -> 0 <= offset ->
  gives (skip_questions n payload size offset) (fun o => match o with Some offset' => 0 <= offset' | None => True end).
Proof.
  intros Hb Hs. revert offset. induction n as [|n IH]; intros offset Ho; cbn [skip_questions]; [done|].
  apply (gives_bind _ _ (fun v => 0 <= v)).
  - unfold net_dns_skip_name. eapply gives_bind; [by apply net_dns_read_name_safe|]. intros r [H1 _]. cbn. destruct (nr_ok r); [specialize (H1 eq_refl)|]; lia.
  - intros v Hv. destruct (size <? v + 4); [done|]. apply IH. lia.
Qed.

(** The wait keeps its identity; only the answer changes. *)
Definition same_wait (w w' : dns_wait_t) : Prop :=
  nw_active w' = nw_active w /\ nw_device w' = nw_device w /\ nw_id w' = nw_id w /\ nw_local_port w' = nw_local_port w /\
  same_buffer (Some (nw_cname w)) (Some (nw_cname w')).

Lemma same_wait_refl w : same_wait w w.
Proof. by repeat split. Qed.
Lemma same_wait_trans a b c : same_wait a b -> same_wait b c -> same_wait a c.
Proof. intros (A1&A2&A3&A4&[A5 A6]) (B1&B2&B3&B4&[B5 B6]). repeat split; try congruence. auto. Qed.

Lemma dns_records_safe n i payload size offset answers authorities w : bytes payload -> 0 <= size <= Z.of_nat (length payload) -> 0 <= offset ->
  gives (dns_records n i payload size offset answers authorities w) (fun '(w', _) => same_wait w w').
Proof.
  intros Hb Hs. revert i offset w. induction n as [|n IH]; intros i offset w Ho; cbn [dns_records]; [apply same_wait_refl|].
  destruct (Z.leb_spec size offset); [apply same_wait_refl|]. eapply gives_bind; [by apply net_dns_read_name_safe|]. intros r [H1 _].
  destruct (nr_ok r); [|apply same_wait_refl]. specialize (H1 eq_refl). cbn [negb orb]. destruct (Z.ltb_spec size (nr_next r + 10)); [apply same_wait_refl|].
  do 3 (eapply gives_bind; [apply gives_rd_be16; (done || lia)|]; intros ? ?).
  destruct (Z.ltb_spec size (nr_next r + 10 + a1)); [apply same_wait_refl|].
  match goal with |- gives (if ?c then _ else _) _ => destruct c eqn:Ec end.
  { eapply gives_bind; [apply gives_rd_be32; [done|lia|bool_prop; lia]|]. intros ip _. by repeat split. }
  apply (gives_bind _ _ (fun w' => same_wait w w')).
  - match goal with |- gives (if ?c then _ else _) _ => destruct c end; [|apply same_wait_refl].
    eapply gives_bind; [apply net_dns_read_name_safe; (done || lia)|]. intros c [_ Hc]. destruct (nr_out c) as [b|]; [|done]. cbn [default].
    match goal with |- gives (Some (if ?c then _ else _)) _ => destruct c end; repeat split; apply Hc.
  - intros w' Hw. cbn beta in *. eapply gives_mono; [apply IH; lia|]. intros [w2 h] Hw2. by eapply same_wait_trans.
Qed.

Lemma dns_response_safe payload size w : bytes payload -> 12 <= size <= Z.of_nat (length payload) ->
  gives (dns_response payload size w) (fun '(w', _) => same_wait w w').
Proof.
  intros Hb Hs. unfold dns_response. do 4 (eapply gives_bind; [apply gives_rd_be16; (done || lia)|]; intros ? ?).
  eapply gives_bind; [apply skip_questions_safe; (done || lia)|]. intros [offset|] Ho; [apply dns_records_safe; (done || lia)|apply same_wait_refl].
Qed.

(** ** DHCP options *)

Definition u32_options (o : dhcp_options) : Prop :=
  is_u32 (do_server o) /\ is_u32 (do_mask o) /\ is_u32 (do_router o) /\ is_u32 (do_dns o).

Lemma dhcp_option_safe code len payload offset o : bytes payload -> 0 <= offset -> offset + len <= Z.of_nat (length payload) -> u32_options o ->
  gives (dhcp_option code len payload offset o) u32_options.
Proof.
  intros Hb H0 Hl Ho. destruct o as [t sv mk rt dn]. unfold dhcp_option. destruct Ho as (H1 & H2 & H3 & H4).
  destruct ((code =? 53) && (1 <=? len)) eqn:E1. { bool_prop. eapply gives_bind; [apply gives_rd8; (done || lia)|]. intros v Hv. (do 3 (split; [done|]); done). }
  repeat match goal with |- gives (if ?c then _ else _) _ => let E := fresh in destruct c eqn:E;
    [bool_prop; eapply gives_bind; [apply gives_rd_be32; (done || lia)|]; intros ? ?; (do 3 (split; [done|]); done)|] end.
  (do 3 (split; [done|]); done).
Qed.

(** Every option read moves the offset on. *)
Lemma dhcp_options_loop_safe fuel payload size offset o : bytes payload -> size <= Z.of_nat (length payload) -> 0 <= offset <= size -> u32_options o ->
  size - offset < Z.of_nat fuel -> gives (dhcp_options_loop fuel payload size offset o) u32_options.
Proof.
  intros Hb Hs. revert offset o. induction fuel as [|fuel IH]; intros offset o H0 Ho Hf; [lia|]. cbn [dhcp_options_loop].
  destruct (Z.leb_spec size offset); [done|]. eapply gives_bind; [apply gives_rd8; (done || lia)|]. intros code Hcode.
  destruct (code =? 0); [apply IH; (done || lia)|]. destruct (code =? 255); [done|]. cbn [orb]. destruct (Z.leb_spec size (offset + 1)); [done|].
  eapply gives_bind; [apply gives_rd8; (done || lia)|]. intros len Hlen. unfold is_u8 in Hlen. destruct (Z.ltb_spec size (offset + 1 + 1 + len)); [done|].
  eapply gives_bind; [apply dhcp_option_safe; (done || lia)|]. intros o' Ho'. apply IH; (done || lia).
Qed.

(** ** The response of [net_http_get_ex] *)

(** The buffers of the request: the header array, the last four bytes of the
    header, and the buffer of the caller while the request is active. *)
Definition get_ok (g : tcp_get_t) : Prop :=
  length (tg_header g) = 1024%nat /\ 0 <= tg_header_size g <= 1023 /\ length (tg_header_tail g) = 4%nat /\ 0 <= tg_header_tail_count g <= 4 /\
  (tg_active g = true -> Z.of_nat (length (tg_out g)) = tg_out_capacity g /\ 0 <= tg_out_size g < tg_out_capacity g /\ bytes (tg_out g)).

Lemma store_info_ok g : get_ok g -> get_ok (store_info g).
Proof. intros Hg. unfold store_info. by destruct (tg_info g). Qed.

Lemma push_tail_safe ch g : get_ok g -> gives (push_tail ch g) (fun g' => get_ok g' /\ tg_active g' = tg_active g).
Proof.
  intros (H1 & H2 & H3 & H4 & H5). unfold push_tail. destruct (Z.ltb_spec (tg_header_tail_count g) 4).
  - eapply gives_bind; [apply gives_wr8; rewrite H3; lia|]. intros t Ht. cbn beta in Ht. split; [|done]. split; [done|]. split; [done|]. split; [cbn; congruence|].
    split; [cbn; lia|done].
  - cbn [gives]. split; [|done]. split; [done|]. split; [done|]. split; [|done]. cbn. rewrite length_app, length_drop, H3. done.
Qed.

Lemma net_http_copy_body_byte_safe ch g : is_u8 ch -> get_ok g -> tg_active g = true ->
  gives (net_http_copy_body_byte ch g) (fun g' => get_ok g' /\ tg_active g' = tg_active g).
Proof.
  intros Hch Hg Ha. pose proof Hg as (H1 & H2 & H3 & H4 & H5). unfold net_http_copy_body_byte. destruct (tg_header_done g); cbn [negb].
  - destruct (Z.leb_spec (tg_out_capacity g) (tg_out_size g + 1)).
    + cbn [gives]. split; [by apply store_info_ok|]. unfold store_info. by destruct (tg_info _).
    + destruct (H5 Ha) as (E1 & E2 & E3). eapply gives_bind; [apply wr8_same; [lia|done]|]. intros o [Eo Bo]. eapply gives_bind; [apply wr8_same; [lia|unfold is_u8; lia]|]. intros o' [Eo' Bo'].
      split; [|done]. do 4 (split; [done|]). intros _. cbn. split; [congruence|]. split; [lia|auto].
  - apply (gives_bind _ _ (fun g' => get_ok g' /\ tg_active g' = tg_active g)).
    + destruct (Z.ltb_spec (tg_header_size g + 1) 1024); [|by split].
      eapply gives_bind; [apply gives_wr8; lia|]. intros o Eo. cbn beta in Eo. eapply gives_bind; [apply gives_wr8; lia|]. intros o' Eo'. cbn beta in *.
      split; [|done]. split; [cbn; congruence|]. split; [cbn; lia|done].
    + intros g1 [Hg1 A1]. eapply gives_bind; [by apply push_tail_safe|]. intros g2 [Hg2 A2].
      match goal with |- gives (if ?c then _ else _) _ => destruct c end; cbn [gives].
      * split; [by apply store_info_ok|]. unfold store_info. destruct (tg_info _); cbn; congruence.
      * split; [done|congruence].
Qed.

Lemma copy_body_safe data g : bytes data -> get_ok g -> tg_active g = true -> gives (copy_body data g) (fun g' => get_ok g' /\ tg_active g' = tg_active g).
Proof.
  intros Hd. revert g. induction Hd as [|ch data Hch Hd IH]; intros g Hg Ha; cbn [copy_body]; [done|].
  eapply gives_bind; [by apply net_http_copy_body_byte_safe|]. intros g1 [Hg1 A1]. eapply gives_mono; [apply IH; [done|congruence]|].
  intros g2 [Hg2 A2]. split; [done|congruence].
Qed.

(** The window of a stream onto the buffer of its owner. *)
Definition stream_ok (t : tcp_stream_t) : Prop :=
  Z.of_nat (length (ts_rx_buffer t)) = ts_rx_capacity t /\ 0 <= ts_rx_size t <= ts_rx_capacity t /\ is_u32 (ts_rx_capacity t) /\ is_u32 (ts_ack t).

(** ** The state without its counters *)

Definition device_id (d : net_device) : bool * list Z * list Z * list Z * Z * Z * Z :=
  (nd_present d, nd_name d, nd_driver d, nd_mac d, nd_vendor_id d, nd_device_id d, nd_ctx d).

(** What sending a frame leaves alone. *)
Record net_core : Type := NetCore {
  co_devices : list (bool * list Z * list Z * list Z * Z * Z * Z);
  co_device_count : Z;
  co_arp_wait : arp_wait_t;
  co_tcp_get : tcp_get_t;
  co_tcp_stream : tcp_stream_t;
  co_dhcp_wait : dhcp_wait_t;
  co_dns_wait : dns_wait_t;
  co_next_local_port : Z;
  co_local_ip : Z;
  co_local_netmask : Z;
  co_local_gateway : Z;
  co_local_dns : Z;
  co_poll_lock : bool
}.

Section core.
Context {E : Type} `{!NetDriver E}.
Implicit Types s : net E.

Definition core (s : net E) : net_core :=
  NetCore (map device_id (devices s)) (device_count s) (arp_wait s) (tcp_get s) (tcp_stream s) (dhcp_wait s) (dns_wait s) (next_local_port s)
    (local_ip s) (local_netmask s) (local_gateway s) (local_dns s) (net_poll_lock s).

Lemma core_set_device index dev dev' s : devices s !! Z.to_nat index = Some dev -> device_id dev' = device_id dev -> core (set_device index dev' s) = core s.
Proof.
  intros Hl Hd. unfold core, set_device. cbn. f_equal. rewrite list_fmap_insert, Hd. apply list_insert_id. by rewrite list_lookup_fmap, Hl.
Qed.

Lemma net_get_device_Some index s dev : net_get_device index s = Some dev -> devices s !! Z.to_nat index = Some dev.
Proof. unfold net_get_device. destruct (_ <=? _); [done|]. destruct (devices s !! Z.to_nat index) as [d|]; [|done]. by destruct (nd_present d). Qed.

Lemma core_count_one index s c : core (count_one index s c) = core s.
Proof.
  destruct c; cbn [count_one]; unfold net_record_rx, net_record_rx_drop, net_record_tx, net_record_tx_error;
    (destruct (net_get_device index s) as [dev|] eqn:Ed; [|done]; eapply core_set_device; [by apply net_get_device_Some|done]).
Qed.

Lemma core_net_set_link index up s : core (net_set_link index up s) = core s.
Proof. unfold net_set_link. destruct (net_get_device index s) as [dev|] eqn:Ed; [|done]. eapply core_set_device; [by apply net_get_device_Some|done]. Qed.

Lemma core_counts index s cs : core (foldl (count_one index) s cs) = core s.
Proof. revert s. induction cs as [|c cs IH]; intros s; cbn [foldl]; [done|]. by rewrite IH, core_count_one. Qed.

(** What the device goes through while frames are sent and polled, the clock
    not being read. *)
Inductive quiet (e : E) : E -> Prop :=
  | quiet_refl : quiet e e
  | quiet_send ctx data e1 code counts e2 : quiet e e1 -> drv_send ctx data e1 = (code, counts, e2) -> quiet e e2
  | quiet_poll ctx e1 code evs e2 : quiet e e1 -> drv_poll ctx e1 = (code, evs, e2) -> quiet e e2.

Lemma quiet_trans e1 e2 e3 : quiet e1 e2 -> quiet e2 e3 -> quiet e1 e3.
Proof. intros H1 H2. induction H2; [done|by eapply quiet_send|by eapply quiet_poll]. Qed.

(** A step that only counts and sends. *)
Definition silent (s s' : net E) : Prop := core s' = core s /\ quiet (env s) (env s').

#[export] Instance silent_preorder : PreOrder silent.
Proof.
  split; [split; [done|apply quiet_refl]|]. intros s1 s2 s3 [C1 Q1] [C2 Q2]. split; [congruence|by eapply quiet_trans].
Qed.

Lemma silent_env s s' : core s' = core s -> env s' = env s -> silent s s'.
Proof. intros Hc He. split; [done|]. rewrite He. apply quiet_refl. Qed.

Lemma env_count_one index s c : env (count_one index s c) = env s.
Proof. destruct c; cbn [count_one]; unfold net_record_rx, net_record_rx_drop, net_record_tx, net_record_tx_error; by destruct (net_get_device index s). Qed.

Lemma env_counts index s cs : env (foldl (count_one index) s cs) = env s.
Proof. revert s. induction cs as [|c cs IH]; intros s; cbn [foldl]; [done|]. by rewrite IH, env_count_one. Qed.

Lemma silent_bump f s : silent s (bump f s).
Proof. by apply silent_env. Qed.
Lemma silent_record f v s : silent s (record f v s).
Proof. by apply silent_env. Qed.
Lemma silent_count_one index s c : silent s (count_one index s c).
Proof. apply silent_env; [apply core_count_one|apply env_count_one]. Qed.
Lemma silent_net_set_link index up s : silent s (net_set_link index up s).
Proof. apply silent_env; [apply core_net_set_link|]. unfold net_set_link. by destruct (net_get_device index s). Qed.

Lemma silent_net_send_frame index data s : silent s (snd (net_send_frame index data s)).
Proof.
  unfold net_send_frame. destruct (net_get_device index s) as [dev|]; [|done]. destruct (_ || _); [done|]. destruct (drv_send _ _ _) as [[code counts] e] eqn:Es. cbn [snd].
  split; [by rewrite core_counts|]. rewrite env_counts. eapply quiet_send; [apply quiet_refl|exact Es].
Qed.

(** Sending a frame and counting an error. *)
Lemma silent_send_or f s0 index data s : silent s0 s ->
  silent s0 (snd (let '(code, s') := net_send_frame index data s in if code =? 0 then (0, s') else (-1, bump f s'))).
Proof.
  intros H0. pose proof (silent_net_send_frame index data s) as H. destruct (net_send_frame index data s) as [code s']. cbn [snd] in H.
  transitivity s; [done|]. destruct (code =? 0); cbn [snd]; [done|]. transitivity s'; [done|apply silent_bump].
Qed.

Lemma silent_net_send_arp_request index ip s : silent s (snd (net_send_arp_request index ip s)).
Proof. unfold net_send_arp_request. destruct (net_get_device _ _); [|by apply silent_env]. apply silent_send_or. by apply silent_env. Qed.

Lemma silent_net_send_arp_reply index mac ip s : silent s (snd (net_send_arp_reply index mac ip s)).
Proof. unfold net_send_arp_reply. destruct (net_get_device _ _); [|done]. apply silent_net_send_frame. Qed.

Lemma silent_net_send_udp index mac ip sp dp payload s : silent s (snd (net_send_udp index mac ip sp dp payload s)).
Proof.
  unfold net_send_udp. destruct (net_get_device _ _); [|apply silent_bump]. destruct (_ <? _); [apply silent_bump|]. apply silent_send_or. by apply silent_env.
Qed.

Lemma silent_net_send_tcp_window index mac ip sp dp seq ack flags window payload s :
  silent s (snd (net_send_tcp_window index mac ip sp dp seq ack flags window payload s)).
Proof.
  unfold net_send_tcp_window. destruct (net_get_device _ _); [|done]. destruct (_ <? _); [done|]. etransitivity; [|apply silent_net_send_frame]. by apply silent_env.
Qed.

Lemma silent_net_tcp_stream_send_packet flags payload s : silent s (snd (net_tcp_stream_send_packet flags payload s)).
Proof. apply silent_net_send_tcp_window. Qed.

Lemma silent_get_send index flags s : silent s (get_send index flags s).
Proof. apply silent_net_send_tcp_window. Qed.

Lemma silent_net_send_dhcp index ty xid ip sv s : silent s (snd (net_send_dhcp index ty xid ip sv s)).
Proof. unfold net_send_dhcp. destruct (net_get_device _ _); [|done]. etransitivity; [|apply silent_net_send_udp]. apply silent_bump. Qed.

Lemma silent_stream s s' : silent s s' -> tcp_stream s' = tcp_stream s.
Proof. intros [Hc _]. exact (f_equal co_tcp_stream Hc). Qed.

Lemma silent_dhcp s s' : silent s s' -> dhcp_wait s' = dhcp_wait s.
Proof. intros [Hc _]. exact (f_equal co_dhcp_wait Hc). Qed.

Lemma silent_get s s' : silent s s' -> tcp_get s' = tcp_get s.
Proof. intros [Hc _]. exact (f_equal co_tcp_get Hc). Qed.

Lemma core_ticks s : core (snd (ticks s)) = core s.
Proof. unfold ticks. by destruct (timer_ticks (env s)). Qed.
End core.

#[export] Hint Resolve silent_bump silent_record silent_count_one silent_net_set_link silent_net_send_frame silent_net_send_arp_request silent_net_send_arp_reply
  silent_net_send_udp silent_net_send_tcp_window silent_net_tcp_stream_send_packet silent_get_send silent_net_send_dhcp : net.
