(* ===== verification/NetInvariant.v ===== *)
(** The invariant of the network stack and its preservation by every frame
    that can be received, and by polling and waiting. *)
From Stdlib Require Import ZArith Lia.
From stdpp Require Import base tactics option list numbers functions.
From S2P Require Import Prelude.
From S2P Require Import Buffer.
From S2P Require Import NetWire.
From S2P Require Import NetState.
From S2P Require Import NetHttp.
From S2P Require Import NetDns.
From S2P Require Import NetRecv.
From S2P Require Import NetSafe.
#[local] Open Scope Z_scope.

(** ** The invariant *)

Definition mac_ok (m : list Z) : Prop := length m = 6%nat /\ bytes m.
Definition is_port (p : Z) : Prop := 0 <= p < 65536.

Definition dhcp_ok (w : dhcp_wait_t) : Prop :=
  is_u32 (dw_offered_ip w) /\ is_u32 (dw_server_ip w) /\ is_u32 (dw_subnet_mask w) /\ is_u32 (dw_router w) /\ is_u32 (dw_dns w).

Record core_ok (c : net_core) : Prop := CoreOk {
  ok_devices : length (co_devices c) = 4%nat /\ 0 <= co_device_count c <= NET_MAX_DEVICES;
  ok_macs : Forall (fun '(_, _, _, mac, _, _, _) => mac_ok mac) (co_devices c);
  ok_arp : mac_ok (aw_mac (co_arp_wait c));
  ok_get : get_ok (co_tcp_get c) /\ is_u32 (tg_ack (co_tcp_get c));
  ok_stream : stream_ok (co_tcp_stream c);
  ok_dhcp : dhcp_ok (co_dhcp_wait c);
  ok_cname : length (nw_cname (co_dns_wait c)) = 128%nat /\ bytes (nw_cname (co_dns_wait c));
  ok_local_port : is_port (co_next_local_port c);
  ok_config : is_u32 (co_local_ip c) /\ is_u32 (co_local_netmask c) /\ is_u32 (co_local_gateway c) /\ is_u32 (co_local_dns c)
}.

(** What a received frame does not change: the devices, the configuration,
    the lock, and who is waiting for what. *)
Record kept (c c' : net_core) : Prop := Kept {
  kept_devices : co_devices c' = co_devices c;
  kept_count : co_device_count c' = co_device_count c;
  kept_port : co_next_local_port c' = co_next_local_port c;
  kept_ip : co_local_ip c' = co_local_ip c;
  kept_netmask : co_local_netmask c' = co_local_netmask c;
  kept_gateway : co_local_gateway c' = co_local_gateway c;
  kept_dns : co_local_dns c' = co_local_dns c;
  kept_lock : co_poll_lock c' = co_poll_lock c;
  kept_arp : let w := co_arp_wait c in let w' := co_arp_wait c' in aw_active w' = aw_active w /\ aw_device w' = aw_device w /\ aw_wanted_ip w' = aw_wanted_ip w;
  kept_dhcp : let w := co_dhcp_wait c in let w' := co_dhcp_wait c' in
    dw_active w' = dw_active w /\ dw_device w' = dw_device w /\ dw_xid w' = dw_xid w /\ dw_wanted_type w' = dw_wanted_type w;
  kept_dns_wait : same_wait (co_dns_wait c) (co_dns_wait c');
  kept_stream : let t := co_tcp_stream c in let t' := co_tcp_stream c' in
    ts_active t' = ts_active t /\ ts_device t' = ts_device t /\ ts_remote_ip t' = ts_remote_ip t /\ ts_local_port t' = ts_local_port t /\
    ts_remote_port t' = ts_remote_port t /\ ts_remote_mac t' = ts_remote_mac t /\ ts_rx_capacity t' = ts_rx_capacity t
}.

Lemma kept_refl c : kept c c.
Proof. by constructor; repeat split. Qed.

Lemma kept_trans a b c : kept a b -> kept b c -> kept a c.
Proof.
  intros [A1 A2 A3 A4 A5 A6 A7 A8 A9 A10 A11 A12] [B1 B2 B3 B4 B5 B6 B7 B8 B9 B10 B11 B12]. constructor; try congruence.
  - destruct A9 as (? & ? & ?), B9 as (? & ? & ?). repeat split; congruence.
  - destruct A10 as (? & ? & ? & ?), B10 as (? & ? & ? & ?). repeat split; congruence.
  - by eapply same_wait_trans.
  - destruct A12 as (? & ? & ? & ? & ? & ? & ?), B12 as (? & ? & ? & ? & ? & ? & ?). repeat split; congruence.
Qed.

#[export] Instance kept_preorder : PreOrder kept.
Proof. split; [exact kept_refl|exact kept_trans]. Qed.

(** ** Sequence numbers *)

Lemma to_i32_small x y : u32 x = u32 y -> -0x80000000 <= y < 0x80000000 -> to_i32 x = y.
Proof. unfold to_i32. intros -> Hy. unfold u32. destruct (Z.ltb_spec (y mod 4294967296) 0x80000000); Z.div_mod_to_equations; lia. Qed.

(** The byte expected next is in the payload, at the offset computed. *)
Lemma has_next_iff seq size ack : is_u32 seq -> is_u32 ack -> 0 < size < 0x80000000 -> has_next seq size ack = true <-> u32 (ack - seq) < size.
Proof.
  intros Hs Ha Hz. unfold has_next, net_tcp_seq_before, net_tcp_seq_after. pose proof (u32_range (ack - seq)) as Ho. set (o := u32 (ack - seq)) in *.
  assert (Eo : exists q, ack - seq = o + q * 4294967296). { exists ((ack - seq) / 4294967296). unfold o, u32. Z.div_mod_to_equations. lia. } destruct Eo as [q Eq].
  assert (E1 : forall y, u32 (seq - ack + y) = u32 (y - o)). { intros y. unfold u32. replace (seq - ack + y) with (y - o + (- q) * 4294967296) by lia. by rewrite Z.mod_add by lia. }
  assert (E2 : u32 (u32 (seq + size) - ack) = u32 (size - o)). { rewrite <- E1. unfold u32. rewrite Zminus_mod_idemp_l. f_equal. lia. }
  specialize (E1 0). rewrite Z.add_0_r in E1. unfold is_u32 in *. split.
  - intros H. apply orb_true_iff in H as [H|H]; [apply Z.eqb_eq in H; assert (o = 0) by (unfold o; rewrite H, Z.sub_diag; done); lia|]. bool_prop.
    destruct (Z.le_gt_cases o 0x80000000) as [Hl|Hl].
    + rewrite (to_i32_small _ _ E2) in * by lia. lia.
    + assert (E3 : to_i32 (seq - ack) = 4294967296 - o); [|lia]. apply to_i32_small; [|lia]. rewrite E1. unfold u32.
      replace (4294967296 - o) with (0 - o + 1 * 4294967296) by lia. by rewrite Z.mod_add by lia.
  - intros H. destruct (Z.eqb_spec seq ack) as [|Hne]; [done|]. cbn [orb]. rewrite (to_i32_small _ _ E1) by lia. rewrite (to_i32_small _ _ E2) by lia.
    assert (o <> 0). { intros E0. assert (q = 0) by lia. lia. } apply andb_true_iff. split; apply Z.ltb_lt; lia.
Qed.

(** The next test of the code. *)
Ltac case_if := match goal with |- gives (if ?c then _ else _) _ => destruct c eqn:? end.

Section invariant.
Context {E : Type} `{!NetDriver E}.
Implicit Types s : net E.

Definition net_ok s : Prop := core_ok (core s).

(** A state that is still good, with everything [kept] and the device reached
    by sends and polls. *)
Definition stays (s s' : net E) : Prop := net_ok s' /\ kept (core s) (core s') /\ quiet (env s) (env s').

Lemma stays_intro s s' : net_ok s' -> kept (core s) (core s') -> env s' = env s -> stays s s'.
Proof. intros H1 H2 H3. split; [done|]. split; [done|]. rewrite H3. apply quiet_refl. Qed.

Lemma stays_refl s : net_ok s -> stays s s.
Proof. intros Hs. by apply stays_intro. Qed.

Lemma stays_silent s s' : net_ok s -> silent s s' -> stays s s'.
Proof. intros Hs [Hc Hq]. unfold stays, net_ok. rewrite Hc. by split. Qed.

Lemma stays_trans s s' s'' : stays s s' -> stays s' s'' -> stays s s''.
Proof. intros (_ & K1 & Q1) (O2 & K2 & Q2). split; [done|]. split; [by etransitivity|by eapply quiet_trans]. Qed.

Lemma silent_ok s s' : silent s s' -> net_ok s -> net_ok s'.
Proof. unfold net_ok. by intros [-> _]. Qed.

(** Silent steps before and after. *)
Lemma stays_silent_l s t s' : silent s t -> stays t s' -> stays s s'.
Proof. intros [Hc Hq] (H1 & H2 & H3). rewrite Hc in H2. split; [done|]. split; [done|by eapply quiet_trans]. Qed.
Lemma stays_silent_r s t s' : silent t s' -> stays s t -> stays s s'.
Proof. intros [Hc Hq] (H1 & H2 & H3). unfold stays, net_ok. rewrite Hc. split; [done|]. split; [done|by eapply quiet_trans]. Qed.

Lemma gives_stays_silent o s t : silent s t -> gives o (stays t) -> gives o (stays s).
Proof. intros Hc Ho. eapply gives_mono; [exact Ho|]. intros s'. by apply stays_silent_l. Qed.

(** ** Updates of one wait *)

Lemma stays_set_arp_wait w s : net_ok s -> mac_ok (aw_mac w) ->
  aw_active w = aw_active (arp_wait s) -> aw_device w = aw_device (arp_wait s) -> aw_wanted_ip w = aw_wanted_ip (arp_wait s) -> stays s (set_arp_wait w s).
Proof. intros [] Hm E1 E2 E3. apply stays_intro; [by constructor|by constructor|done]. Qed.

Lemma stays_set_dns_wait w s : net_ok s -> same_wait (dns_wait s) w -> stays s (set_dns_wait w s).
Proof.
  intros [] Hw. apply stays_intro; [|by constructor|done]. constructor; try done. cbn. destruct Hw as (_ & _ & _ & _ & [El Eb]). rewrite El. cbn in ok_cname0. destruct ok_cname0. auto.
Qed.

Lemma stays_set_dhcp_wait w s : net_ok s -> dhcp_ok w -> dw_active w = dw_active (dhcp_wait s) -> dw_device w = dw_device (dhcp_wait s) ->
  dw_xid w = dw_xid (dhcp_wait s) -> dw_wanted_type w = dw_wanted_type (dhcp_wait s) -> stays s (set_dhcp_wait w s).
Proof. intros [] Hd E1 E2 E3 E4. apply stays_intro; [by constructor|by constructor|done]. Qed.

Definition same_stream (t t' : tcp_stream_t) : Prop :=
  ts_active t' = ts_active t /\ ts_device t' = ts_device t /\ ts_remote_ip t' = ts_remote_ip t /\ ts_local_port t' = ts_local_port t /\
  ts_remote_port t' = ts_remote_port t /\ ts_remote_mac t' = ts_remote_mac t /\ ts_rx_capacity t' = ts_rx_capacity t.

Lemma stays_set_tcp_stream t s : net_ok s -> stream_ok t -> same_stream (tcp_stream s) t -> stays s (set_tcp_stream t s).
Proof. intros [] Ht Hs. apply stays_intro; [by constructor|by constructor|done]. Qed.

Lemma stays_set_tcp_get t s : net_ok s -> get_ok t -> is_u32 (tg_ack t) -> stays s (set_tcp_get t s).
Proof. intros [] Ht Ha. apply stays_intro; by constructor. Qed.

(** ** ARP *)

Lemma net_handle_arp_safe index payload size s : bytes payload -> size <= Z.of_nat (length payload) -> net_ok s ->
  gives (net_handle_arp index payload size s) (stays s).
Proof.
  intros Hb Hs Hok. unfold net_handle_arp. destruct (Z.ltb_spec size 28); [by apply stays_refl|].
  do 2 (eapply gives_bind; [apply gives_rd16; (done || lia)|]; intros ? ?). do 2 (eapply gives_bind; [apply gives_rd8; (done || lia)|]; intros ? ?).
  destruct (_ || _); [by apply stays_refl|]. do 2 (eapply gives_bind; [apply gives_rd32; (done || lia)|]; intros ? ?).
  eapply gives_bind; [apply gives_rd16; (done || lia)|]; intros op ?. eapply gives_bind; [apply gives_rd_block; (done || lia)|]; intros sha [Hsha Hlen].
  match goal with |- gives (if aw_active (arp_wait ?t) && _ && _ && _ then _ else _) _ => set (s1 := t) end.
  assert (Hc : silent s s1).
  { subst s1. destruct (op =? NET_ARP_OP_REPLY); [by apply silent_env|]. destruct (_ && _); [|by apply silent_env].
    etransitivity; [|apply silent_net_send_arp_reply]. by apply silent_env. }
  pose proof (silent_ok _ _ Hc Hok) as Hok1. clearbody s1. case_if; [|case_if]; cbn [gives].
  - eapply stays_silent_l; [exact Hc|]. by apply stays_set_arp_wait; [|split; [cbn; lia|]|..].
  - eapply stays_silent; [done|]. etransitivity; [exact Hc|apply silent_bump].
  - by apply stays_silent.
Qed.

(** ** TCP *)

Definition segment_ok (g : segment) : Prop := bytes (sg_payload g) /\ is_u32 (sg_seq g) /\ is_u32 (sg_ack g) /\ Z.of_nat (length (sg_payload g)) < 65536.

Lemma parse_segment_safe ip hs total : bytes ip -> 20 <= hs -> 0 <= total < 65536 -> total <= Z.of_nat (length ip) ->
  gives (parse_segment ip hs total) (fun o => match o with Some g => segment_ok g | None => True end).
Proof.
  intros Hb Hh Ht Hl. unfold parse_segment. destruct (Z.ltb_spec total (hs + 20)); [done|].
  eapply gives_bind; [apply gives_rd8; (done || lia)|]. intros d Hd. set (th := Z.shiftr d 4 * 4).
  destruct (Z.ltb_spec th 20); [done|]. cbn [orb]. destruct (Z.ltb_spec total (hs + th)); [done|].
  eapply gives_bind; [apply gives_rd32; (done || lia)|]; intros ? ?. do 2 (eapply gives_bind; [apply gives_rd16; (done || lia)|]; intros ? ?).
  do 2 (eapply gives_bind; [apply gives_rd32; (done || lia)|]; intros ? ?). eapply gives_bind; [apply gives_rd8; (done || lia)|]; intros ? ?.
  eapply gives_bind; [apply gives_rd_block; (done || lia)|]. intros pl [Hp Hlp]. cbn [gives]. do 3 (split; [done|]). cbn. lia.
Qed.

Lemma stream_payload_safe g s : segment_ok g -> net_ok s -> gives (stream_payload g s) (stays s).
Proof.
  intros (Hp & Hs & _ & Hl) Hok. pose proof (ok_stream _ Hok) as Hst. cbn in Hst. pose proof Hst as (Hbuf & Hsz & Hcap & Hack). unfold stream_payload.
  set (t := tcp_stream s) in *. set (size := Z.of_nat (length (sg_payload g))) in *.
  destruct (Z.eqb_spec size 0) as [|Hne]; [by apply stays_refl|]. assert (Hsize : 0 < size < 65536) by lia.
  case_if; [|case_if; [apply stays_silent; [done|apply silent_net_tcp_stream_send_packet]|by apply stays_refl]].
  apply has_next_iff in Heqb; [|done|done|lia]. pose proof (u32_range (ts_ack t - sg_seq g)) as Ho. set (o := u32 (ts_ack t - sg_seq g)) in *.
  rewrite (u32_small (size - o)) by cint. rewrite (u32_small (ts_rx_capacity t - ts_rx_size t)) by cint.
  set (n := if size - o <? ts_rx_capacity t - ts_rx_size t then size - o else ts_rx_capacity t - ts_rx_size t).
  assert (Hn : 0 <= n <= size - o /\ n <= ts_rx_capacity t - ts_rx_size t) by (unfold n; destruct (Z.ltb_spec (size - o) (ts_rx_capacity t - ts_rx_size t)); cint).
  clearbody n. apply (gives_bind _ _ (stays s)).
  - destruct (Z.eqb_spec n 0); [by apply stays_refl|].
    eapply gives_bind; [apply gives_rd_block; (done || cint)|]. intros data [Hd Hdl]. eapply gives_bind; [apply gives_wr_block; lia|]. intros b Hb. cbn beta in Hb. cbn [gives].
    eapply stays_silent_r; [apply silent_bump|]. apply stays_set_tcp_stream; [done| |by repeat split].
    split; [cbn; lia|]. split; [cbn; rewrite u32_small by cint; lia|]. split; [done|]. apply u32_range.
  - intros s1 H1. cbn [gives]. eapply stays_silent_r; [apply silent_net_tcp_stream_send_packet|done].
Qed.

Lemma stays_update_stream f s : net_ok s -> (stream_ok (tcp_stream s) -> stream_ok (f (tcp_stream s))) -> same_stream (tcp_stream s) (f (tcp_stream s)) ->
  stays s (update_stream f s).
Proof. intros Hok Hf Hs. apply stays_set_tcp_stream; [done| |done]. apply Hf. apply (ok_stream _ Hok). Qed.

(** The state behind a packet that is sent. *)
Lemma stays_ok s s' : stays s s' -> net_ok s'.
Proof. by intros (? & _). Qed.

Lemma send_packet_ok flags payload s : net_ok s -> net_ok (snd (net_tcp_stream_send_packet flags payload s)).
Proof. apply silent_ok, silent_net_tcp_stream_send_packet. Qed.

Lemma stream_fin_safe g s : net_ok s -> stays s (stream_fin g s).
Proof.
  intros Hok. unfold stream_fin. destruct (_ && _); [|by apply stays_refl].
  assert (H1 : stays s (update_stream (fun t => set_ts_closed true (set_ts_ack (u32 (u32 (sg_seq g + Z.of_nat (length (sg_payload g))) + 1)) t)) s)).
  { apply stays_update_stream; [done| |by repeat split]. intros (? & ? & ? & ?). do 3 (split; [done|]). apply u32_range. }
  eapply stays_trans; [exact H1|]. eapply stays_silent_l; [apply (silent_net_tcp_stream_send_packet 0x11 [])|].
  apply stays_update_stream; [by apply send_packet_ok, (stays_ok _ _ H1)|done|by repeat split].
Qed.

Lemma stream_segment_safe g s : segment_ok g -> net_ok s -> gives (stream_segment g s) (stays s).
Proof.
  intros Hg Hok. unfold stream_segment. destruct (flag_set (sg_flags g) 4); [apply stays_update_stream; [done|done|by repeat split]|].
  match goal with |- context [negb (ts_connected (tcp_stream ?t))] => set (s1 := t) end.
  assert (H1 : stays s s1). { unfold s1. destruct (_ && _); [|by apply stays_refl]. apply stays_update_stream; [done|done|by repeat split]. } clearbody s1.
  pose proof (stays_ok _ _ H1) as Hok1. case_if; cbn [gives].
  - eapply stays_silent_r; [apply silent_net_tcp_stream_send_packet|]. eapply stays_trans; [exact H1|]. apply stays_update_stream; [done| |by repeat split].
    intros (? & ? & ? & ?). do 3 (split; [done|]). apply u32_range.
  - eapply gives_bind; [by apply stream_payload_safe|]. intros s2 H2. cbn [gives]. eapply stays_trans; [exact H1|]. eapply stays_trans; [exact H2|].
    apply stream_fin_safe. by eapply stays_ok.
Qed.

Lemma get_send_ok index flags s : net_ok s -> net_ok (get_send index flags s).
Proof. apply silent_ok, silent_get_send. Qed.

Lemma get_payload_safe index g s : segment_ok g -> tg_active (tcp_get s) = true -> net_ok s -> gives (get_payload index g s) (stays s).
Proof.
  intros (Hp & Hs & _ & Hl) Hact Hok. pose proof (ok_get _ Hok) as [Hg Hack]. cbn in Hg, Hack. unfold get_payload. set (t := tcp_get s) in *. set (size := Z.of_nat (length (sg_payload g))) in *.
  destruct (Z.eqb_spec size 0) as [|Hne]; [by apply stays_refl|]. assert (Hsize : 0 < size < 65536) by lia.
  case_if; [|case_if; [apply stays_silent; [done|apply silent_get_send]|by apply stays_refl]].
  apply has_next_iff in Heqb; [|done|done|lia]. pose proof (u32_range (tg_ack t - sg_seq g)) as Ho. set (o := u32 (tg_ack t - sg_seq g)) in *.
  rewrite (u32_small (size - o)) by cint. eapply gives_bind; [apply gives_rd_block; (done || cint)|]. intros data [Hdb _].
  eapply gives_bind; [by apply copy_body_safe|]. intros t' [Ht' _]. cbn [gives]. eapply stays_silent_r; [apply silent_get_send|]. apply stays_set_tcp_get; [done|done|apply u32_range].
Qed.

Lemma get_segment_safe index g s : segment_ok g -> net_ok s -> gives (get_segment index g s) (stays s).
Proof.
  intros Hg Hok. pose proof (ok_get _ Hok) as [Hget Hack]. cbn in Hget, Hack. unfold get_segment. set (t := tcp_get s) in *.
  destruct (tg_active t) eqn:Ha; [|by apply stays_refl]. cbn [negb orb]. case_if; [by apply stays_refl|]. case_if; [by apply stays_refl|].
  case_if; [by apply stays_set_tcp_get|]. case_if; cbn [gives].
  - eapply stays_silent_r; [apply silent_get_send|]. apply stays_set_tcp_get; [done|done|apply u32_range].
  - eapply gives_bind; [by apply get_payload_safe|]. intros s1 H1. cbn [gives]. eapply stays_trans; [exact H1|]. pose proof (stays_ok _ _ H1) as Hok1.
    pose proof (ok_get _ Hok1) as [Hg1 Ha1]. cbn in Hg1, Ha1. clear Heqb2. unfold get_fin. destruct (_ && _); [|by apply stays_refl].
    match goal with |- stays _ (update_get ?f (get_send ?i ?fl ?u)) => assert (H2 : stays s1 u) by (apply stays_set_tcp_get; [done|done|apply u32_range]);
      assert (H3 : stays s1 (get_send i fl u)) by (eapply stays_silent_r; [apply silent_get_send|done]) end.
    eapply stays_trans; [exact H3|]. pose proof (stays_ok _ _ H3) as Hok3. pose proof (ok_get _ Hok3) as [Hg3 Ha3]. cbn in Hg3, Ha3. by apply stays_set_tcp_get.
Qed.

Lemma net_handle_tcp_safe index ip hs total s : bytes ip -> 20 <= hs -> 0 <= total < 65536 -> total <= Z.of_nat (length ip) -> net_ok s ->
  gives (net_handle_tcp index ip hs total s) (stays s).
Proof.
  intros Hb Hh Ht Hl Hok. unfold net_handle_tcp. eapply gives_bind; [by apply parse_segment_safe|]. intros [g|] Hg; [|by apply stays_refl].
  case_if; [by apply stream_segment_safe|by apply get_segment_safe].
Qed.

(** ** UDP *)

Lemma net_handle_dhcp_safe index payload size s : bytes payload -> size <= Z.of_nat (length payload) -> net_ok s ->
  gives (net_handle_dhcp index payload size s) (stays s).
Proof.
  intros Hb Hs Hok. unfold net_handle_dhcp. case_if; [by apply stays_refl|]. bool_prop.
  do 3 (eapply gives_bind; [apply gives_rd8; (done || lia)|]; intros ? ?). do 2 (eapply gives_bind; [apply gives_rd32; (done || lia)|]; intros ? ?).
  case_if; [by apply stays_refl|]. eapply gives_bind; [apply dhcp_options_loop_safe; [done|lia|lia|by repeat split|lia]|]. intros o (O1 & O2 & O3 & O4).
  case_if; [by apply stays_refl|]. eapply gives_bind; [apply gives_rd32; (done || lia)|]. intros y Hy. cbn [gives].
  apply (stays_silent_l s (bump dhcp_rx s)); [apply silent_bump|]. apply stays_set_dhcp_wait; [done|by repeat (split; [done|])|done..].
Qed.

Lemma net_handle_dns_safe index payload size s : bytes payload -> size <= Z.of_nat (length payload) -> net_ok s ->
  gives (net_handle_dns index payload size s) (stays s).
Proof.
  intros Hb Hs Hok. unfold net_handle_dns. case_if; [by apply stays_refl|]. bool_prop. eapply gives_bind; [apply gives_rd_be16; (done || lia)|]; intros ? ?.
  do 2 (eapply gives_bind; [apply gives_rd8; (done || lia)|]; intros ? ?). case_if; [by apply stays_refl|].
  eapply gives_bind; [apply dns_response_safe; (done || lia)|]. intros [w hit] Hw. cbn [gives].
  assert (Hst : stays s (set_dns_wait w s)) by by apply stays_set_dns_wait. destruct hit; [eapply stays_silent_r; [apply silent_bump|]|]; done.
Qed.

Lemma net_handle_udp_safe index ip hs total s : bytes ip -> 0 <= hs -> total <= Z.of_nat (length ip) -> net_ok s ->
  gives (net_handle_udp index ip hs total s) (stays s).
Proof.
  intros Hb Hh Hl Hok. unfold net_handle_udp. case_if; [by apply stays_refl|]. bool_prop. do 3 (eapply gives_bind; [apply gives_rd16; (done || lia)|]; intros ? ?).
  case_if; [by apply stays_refl|]. bool_prop. case_if; [|case_if].
  - eapply gives_stays_silent; [apply (silent_bump rx_udp)|]. apply net_handle_dhcp_safe; [by apply bytes_drop|rewrite length_drop; lia|done].
  - eapply gives_stays_silent; [apply (silent_bump rx_udp)|]. apply net_handle_dns_safe; [by apply bytes_drop|rewrite length_drop; lia|done].
  - by apply stays_silent; [|apply silent_bump].
Qed.

(** ** Frames *)

Lemma net_handle_ipv4_safe index payload size s : bytes payload -> size <= Z.of_nat (length payload) -> net_ok s ->
  gives (net_handle_ipv4 index payload size s) (stays s).
Proof.
  intros Hb Hs Hok. unfold net_handle_ipv4. case_if; [by apply stays_refl|]. bool_prop. eapply gives_bind; [apply gives_rd8; (done || lia)|]; intros ? ?.
  eapply gives_bind; [apply gives_rd16; (done || lia)|]; intros total ?. eapply gives_bind; [apply gives_rd8; (done || lia)|]; intros ? ?.
  eapply gives_bind; [apply gives_rd32; (done || lia)|]; intros ? ?. case_if; [by apply stays_refl|]. bool_prop. cbn beta in *. case_if; [by apply stays_refl|].
  case_if; [apply net_handle_tcp_safe; (done || lia)|]. case_if; [apply net_handle_udp_safe; (done || lia)|by apply stays_refl].
Qed.

Lemma net_receive_frame_safe index frame s : bytes frame -> net_ok s -> gives (net_receive_frame index frame s) (stays s).
Proof.
  intros Hb Hok. unfold net_receive_frame. case_if; [by apply stays_refl|]. bool_prop. eapply gives_bind; [apply gives_rd16; (done || lia)|]; intros ty ?.
  apply (gives_bind _ _ (fun '(_, off, s1) => silent s s1 /\ 0 <= off)).
  - case_if; [|cbn; split; [by apply silent_env|lia]]. bool_prop. eapply gives_bind; [apply gives_rd_be16; (done || lia)|]. intros inner _. cbn. split; [by apply silent_env|lia].
  - intros [[ty' off] s1] [Hc Ho]. pose proof (silent_ok _ _ Hc Hok) as Hok1. assert (Hb1 : forall f, silent s (bump f s1)) by (intros f; etransitivity; [exact Hc|apply silent_bump]).
    case_if; [by apply stays_silent|]. bool_prop. case_if; [|case_if].
    + eapply (gives_stays_silent _ s (bump rx_arp s1)); [done|]. apply net_handle_arp_safe; [by apply bytes_drop|rewrite length_drop; lia|done].
    + eapply (gives_stays_silent _ s (bump rx_ipv4 s1)); [done|]. apply net_handle_ipv4_safe; [by apply bytes_drop|rewrite length_drop; lia|done].
    + by apply stays_silent.
Qed.
End invariant.
