(* ===== verification/NetSession.v ===== *)
(** Sessions: polling the driver and waiting with a time limit, against the
    interface [NetPeer] of a device and its clock; the frames of a peer on the
    wire, and the calls of the owner of a stream (net_tcp_stream_connect, send,
    recv, close and polling) in any order. *)
From Stdlib Require Import ZArith Lia.
From stdpp Require Import base tactics option list numbers functions.
From S2P Require Import Prelude.
From S2P Require Import Buffer.
From S2P Require Import NetWire.
From S2P Require Import NetState.
From S2P Require Import NetHttp.
From S2P Require Import NetDns.
From S2P Require Import NetRecv.
From S2P Require Import NetSafe.
From S2P Require Import NetInvariant.
#[local] Open Scope Z_scope.

(** * Polling and waiting. What the stack relies on from the driver and the
    clock is the class [NetPeer]: the device stays in its states [I], the
    frames it hands up satisfy [P], and time passes. Against this interface
    every wait ends, and every property [Q] of the stream, of the configuration wait and of
    the request that the frames in [P] keep holds throughout. *)


(** ** The interface *)

Section expires.
Context {E : Type} `{!NetDriver E}.

(** From the device state [e] on, the clock shows [limit] ticks behind [start]
    after at most [n] readings that show less, whatever is sent and polled in
    between. *)
Fixpoint expires (start limit : Z) (n : nat) (e : E) : Prop :=
  forall e1, quiet e e1 ->
  let '(t, e2) := timer_ticks e1 in limit <= u64 (t - start) \/ match n with O => False | S n' => expires start limit n' e2 end.

Lemma expires_quiet start limit n e e' : quiet e e' -> expires start limit n e -> expires start limit n e'.
Proof. intros Hq. destruct n; cbn [expires]; intros H e1 Hq1; apply H; by eapply quiet_trans. Qed.

Definition event_sat (P : list Z -> Prop) (ev : rx_event) : Prop := match ev with RxFrame data => P data | _ => True end.
End expires.

(** [rounds limit] readings of the clock are enough for [limit] ticks; a wait
    of the code is at most [NET_TIMEOUT_TICKS], or what the caller gives. *)
Class NetPeer {E : Type} `{!NetDriver E} (I : E -> Prop) (P : list Z -> Prop) (rounds : Z -> nat) : Prop := {
  peer_send : forall ctx data e code counts e', I e -> drv_send ctx data e = (code, counts, e') -> I e';
  peer_poll : forall ctx e code evs e', I e -> drv_poll ctx e = (code, evs, e') -> I e' /\ Forall (event_sat P) evs;
  peer_ticks : forall e t e', I e -> timer_ticks e = (t, e') -> I e' /\ forall limit, 0 <= limit < 2 ^ 32 -> expires t limit (rounds limit) e';
  peer_bytes : forall data, P data -> bytes data
}.

Section peer.
Context {E : Type} `{!NetDriver E} {I : E -> Prop} {P : list Z -> Prop} {rounds : Z -> nat} `{!NetPeer I P rounds}.
Context (Q : tcp_stream_t -> dhcp_wait_t -> tcp_get_t -> Prop).
Implicit Types s : net E.

(** Frames keep the property of the waits. *)
Hypothesis Q_frame : forall index frame s s',
  P frame -> net_ok s -> Q (tcp_stream s) (dhcp_wait s) (tcp_get s) -> net_receive_frame index frame s = Some s' -> Q (tcp_stream s') (dhcp_wait s') (tcp_get s').

Lemma peer_quiet e e' : I e -> quiet e e' -> I e'.
Proof. intros He Hq. induction Hq as [|? ? ? ? ? ? Hq IH Hs|? ? ? ? ? Hq IH Hp]; [done|by eapply peer_send|by destruct (peer_poll _ _ _ _ _ IH Hp)]. Qed.

Definition good s : Prop := net_ok s /\ I (env s) /\ Q (tcp_stream s) (dhcp_wait s) (tcp_get s).

Definition follows s s' : Prop := good s' /\ kept (core s) (core s') /\ quiet (env s) (env s').

Lemma follows_refl s : good s -> follows s s.
Proof. intros Hs. split; [done|]. split; [done|apply quiet_refl]. Qed.

Lemma follows_trans s1 s2 s3 : follows s1 s2 -> follows s2 s3 -> follows s1 s3.
Proof. intros (_ & K1 & Q1) (O2 & K2 & Q2). split; [done|]. split; [by etransitivity|by eapply quiet_trans]. Qed.

Lemma good_silent s s' : good s -> silent s s' -> good s'.
Proof.
  intros (Hok & Hi & Hq) Hs. split; [by eapply silent_ok|]. destruct (Hs) as [_ Hquiet]. split; [by eapply peer_quiet|]. by rewrite (silent_stream _ _ Hs), (silent_dhcp _ _ Hs), (silent_get _ _ Hs).
Qed.

Lemma follows_silent s s' : good s -> silent s s' -> follows s s'.
Proof.
  intros Hg Hs. split; [by eapply good_silent|]. destruct Hs as [Hc Hq]. by rewrite Hc.
Qed.

(** ** Polling *)

Lemma receive_follows index frame s : P frame -> good s -> gives (net_receive_frame index frame s) (follows s).
Proof.
  intros Hp (Hok & Hi & Hq). pose proof (net_receive_frame_safe index frame s (peer_bytes _ Hp) Hok) as H.
  destruct (net_receive_frame index frame s) as [s'|] eqn:Er; [|done]. destruct H as (Hok' & Hk & Hqt). split; [|done].
  split; [done|]. split; [by eapply peer_quiet|exact (Q_frame _ _ _ _ Hp Hok Hq Er)].
Qed.

Lemma rx_events_follows index evs s : Forall (event_sat P) evs -> good s -> gives (rx_events index evs s) (follows s).
Proof.
  intros He. revert s. induction He as [|ev evs Hev He IH]; intros s Hg; [by apply follows_refl|]. destruct ev as [up|c|data]; cbn [rx_events].
  - pose proof (follows_silent s _ Hg (silent_net_set_link index up s)) as Hf. eapply gives_mono; [apply IH, Hf|]. intros s'. by eapply follows_trans.
  - pose proof (follows_silent s _ Hg (silent_count_one index s c)) as Hf. eapply gives_mono; [apply IH, Hf|]. intros s'. by eapply follows_trans.
  - eapply gives_bind; [by apply receive_follows|]. intros s1 Hf. eapply gives_mono; [apply IH, Hf|]. intros s'. by eapply follows_trans.
Qed.

Lemma net_poll_device_follows index s : good s -> gives (net_poll_device index s) (fun '(_, s') => follows s s').
Proof.
  intros Hg. unfold net_poll_device. destruct (net_get_device index s) as [dev|]; [|by apply follows_refl].
  destruct (drv_poll (nd_ctx dev) (env s)) as [[code evs] e] eqn:Ep. pose proof Hg as (Hok & Hi & Hq). destruct (peer_poll _ _ _ _ _ Hi Ep) as [Hi' Hev].
  assert (Hs : silent s (set_env e s)) by (split; [done|]; eapply quiet_poll; [apply quiet_refl|exact Ep]).
  eapply gives_bind; [apply rx_events_follows; [done|by eapply good_silent]|]. intros s' Hf. cbn [gives]. eapply follows_trans; [|exact Hf]. by apply follows_silent.
Qed.

Lemma poll_each_follows n index polled s : good s -> gives (poll_each n index polled s) (fun '(_, s') => follows s s').
Proof.
  revert index polled s. induction n as [|n IH]; intros index polled s Hg; cbn [poll_each]; [by apply follows_refl|].
  eapply gives_bind; [by apply net_poll_device_follows|]. intros [code s1] Hf. eapply gives_mono; [apply IH, Hf|]. intros [p s2]. by eapply follows_trans.
Qed.

(** Polling under the lock. *)
Lemma locked_follows s s' : net_poll_lock s = false -> follows (set_net_poll_lock true s) s' -> follows s (set_net_poll_lock false s').
Proof.
  intros Hl (([] & Hi & Hq) & [] & Hqt). split; [|split; [|done]].
  - split; [by constructor|done].
  - by constructor.
Qed.

Lemma good_lock b s : good s -> good (set_net_poll_lock b s).
Proof. intros ([] & Hi & Hq). split; [by constructor|done]. Qed.

Lemma net_progress_device_follows index s : good s -> gives (net_progress_device index s) (follows s).
Proof.
  intros Hg. unfold net_progress_device. destruct (net_poll_lock s) eqn:El; [by apply follows_refl|].
  eapply gives_bind; [by apply net_poll_device_follows, good_lock|]. intros [c s'] Hf. by apply locked_follows.
Qed.

Lemma net_poll_all_devices_follows s : good s -> gives (net_poll_all_devices s) (fun '(_, s') => follows s s').
Proof.
  intros Hg. unfold net_poll_all_devices. destruct (net_poll_lock s) eqn:El; [by apply follows_refl|].
  eapply gives_bind; [by apply poll_each_follows, good_lock|]. intros [c s'] Hf. by apply locked_follows.
Qed.

(** ** The clock *)

(** A state reached also by reading the clock. *)
Definition later s s' : Prop := good s' /\ kept (core s) (core s').

Lemma later_refl s : good s -> later s s.
Proof. by split. Qed.
Lemma later_trans s1 s2 s3 : later s1 s2 -> later s2 s3 -> later s1 s3.
Proof. intros [_ K1] [O2 K2]. split; [done|]. by etransitivity. Qed.
Lemma follows_later s s' : follows s s' -> later s s'.
Proof. intros (H1 & H2 & _). by split. Qed.

Lemma ticks_later s : good s -> let '(t, s') := ticks s in later s s' /\ forall limit, 0 <= limit < 2 ^ 32 -> expires t limit (rounds limit) (env s').
Proof.
  intros (Hok & Hi & Hq). unfold ticks. destruct (timer_ticks (env s)) as [t e] eqn:Et. destruct (peer_ticks _ _ _ Hi Et) as [Hi' Hexp]. by split; [split|].
Qed.

(** A reading in a wait: the time is up, or less of it is left. *)
Lemma ticks_expires start limit n s : good s -> expires start limit n (env s) ->
  let '(t, s') := ticks s in later s s' /\ (limit <= u64 (t - start) \/ exists n', n = S n' /\ expires start limit n' (env s')).
Proof.
  intros (Hok & Hi & Hq) Hx. unfold ticks. destruct (timer_ticks (env s)) as [t e] eqn:Et. destruct (peer_ticks _ _ _ Hi Et) as [Hi' _].
  split; [by split|]. destruct n as [|n]; cbn [expires] in Hx; specialize (Hx _ (quiet_refl _)); rewrite Et in Hx.
  - left. destruct Hx as [|[]]. done.
  - destruct Hx; [by left|right; eauto].
Qed.

(** Waits end, with the code of the test or with -1. *)
Lemma wait_loop_ends fuel n index start limit test s : good s -> expires start limit n (env s) -> (n < fuel)%nat ->
  gives (wait_loop fuel index start limit test s) (fun '(code, s') => later s s' /\ (code = -1 \/ test s' = Some code)).
Proof.
  revert n s. induction fuel as [|fuel IH]; intros n s Hg Hx Hn; [lia|]. cbn [wait_loop].
  pose proof (ticks_expires start limit n s Hg Hx) as Ht. destruct (ticks s) as [now s1]. destruct Ht as [Hl1 Ht].
  destruct (Z.ltb_spec (u64 (now - start)) limit); [|cbn; split; [done|by left]]. destruct Ht as [?|(n' & -> & Hx1)]; [lia|].
  eapply gives_bind; [apply net_progress_device_follows, Hl1|]. intros s2 Hf. assert (Hl2 : later s s2) by (eapply later_trans; [done|by apply follows_later]).
  destruct (test s2) as [code|] eqn:Etest; [cbn; split; [done|by right]|]. eapply gives_mono; [eapply (IH n')|].
  - apply Hl2.
  - eapply expires_quiet; [apply Hf|done].
  - lia.
  - intros [code s3] [Hl3 Hc]. split; [by eapply later_trans|done].
Qed.

(** Waiting from now on. *)
Lemma wait_ends fuel index limit test s : good s -> 0 <= limit < 2 ^ 32 -> (rounds limit < fuel)%nat ->
  gives (let '(start, s) := ticks s in wait_loop fuel index start limit test s) (fun '(code, s') => later s s' /\ (code = -1 \/ test s' = Some code)).
Proof.
  intros Hg Hlim Hf. pose proof (ticks_later s Hg) as Ht. destruct (ticks s) as [start s1]. destruct Ht as [Hl Hx].
  eapply gives_mono; [eapply wait_loop_ends; [apply Hl|by apply Hx|done]|]. intros [code s2] [Hl2 Hc]. split; [by eapply later_trans|done].
Qed.
End peer.

(** * TCP streams deliver in order: a peer sends the bytes of [data] from the
    initial sequence number [isn] on, in segments that may be cut anywhere,
    repeated, reordered and lost; what is handed to the caller, followed by
    what is in the buffer, is always a prefix of [data]. *)

(** ** What a peer sends *)

Section honest.
Context (isn : Z) (data : list Z).

(** A segment of the peer: a reset, the answer to the first packet, or a piece
    of the data, with a FIN at its end at most. *)
Inductive honest (g : segment) : Prop :=
  | honest_reset : flag_set (sg_flags g) 4 = true -> honest g
  | honest_syn : sg_seq g = u32 isn -> Z.land (sg_flags g) 0x12 = 0x12 -> flag_set (sg_flags g) 1 = false -> sg_payload g = [] -> honest g
  | honest_data o : 0 <= o -> o + Z.of_nat (length (sg_payload g)) <= Z.of_nat (length data) -> sg_seq g = u32 (isn + 1 + o) ->
      sg_payload g = take (length (sg_payload g)) (drop (Z.to_nat o) data) -> (Z.land (sg_flags g) 0x12 =? 0x12) = false ->
      (flag_set (sg_flags g) 1 = true -> o + Z.of_nat (length (sg_payload g)) = Z.of_nat (length data)) -> honest g.

(** [k] bytes have arrived in order, [consumed] were handed out. *)
Definition received (consumed : list Z) (t : tcp_stream_t) (k : Z) : Prop :=
  0 <= k <= Z.of_nat (length data) /\ (ts_closed t = true -> k = Z.of_nat (length data)) /\
  ts_ack t = u32 (isn + 1 + k + (if ts_closed t then 1 else 0)) /\
  consumed ++ take (Z.to_nat (ts_rx_size t)) (ts_rx_buffer t) = take (Z.to_nat k) data.

Definition established (consumed : list Z) (t : tcp_stream_t) : Prop := ts_connected t = true /\ exists k, received consumed t k.

(** Before the answer of the peer. *)
Definition opening (t : tcp_stream_t) : Prop := ts_connected t = false /\ ts_ack t = 0 /\ ts_rx_size t = 0 /\ ts_closed t = false.
End honest.

Lemma u32_shift a b c : u32 (u32 a - u32 b + c) = u32 (a - b + c).
Proof. unfold u32. rewrite <- (Zplus_mod_idemp_l (a mod _ - _)), <- Zminus_mod, Zplus_mod_idemp_l. done. Qed.

(** The offset of the expected byte, whatever the sequence numbers wrap to. *)
Lemma offset_eq isn k o : u32 (u32 (isn + 1 + k) - u32 (isn + 1 + o)) = u32 (k - o).
Proof. rewrite <- (Z.add_0_r (u32 _ - _)), u32_shift. f_equal. lia. Qed.

Lemma u32_neg x : -4294967296 <= x < 0 -> u32 x = x + 4294967296.
Proof. intros Hx. unfold u32. rewrite <- (Z.mod_add _ 1) by lia. apply Z.mod_small. lia. Qed.

Lemma u32_inj_near a x y : 0 <= x < 4294967296 -> 0 <= y < 4294967296 -> u32 (a + x) = u32 (a + y) -> x = y.
Proof. unfold u32. intros Hx Hy E. Z.div_mod_to_equations. nia. Qed.

(** New bytes behind a prefix make a longer prefix. *)
Lemma prefix_grows (data : list Z) k o n len : 0 <= o <= k -> 0 <= n -> k + n <= o + Z.of_nat len ->
  take (Z.to_nat k) data ++ take (Z.to_nat n) (drop (Z.to_nat (k - o)) (take len (drop (Z.to_nat o) data))) = take (Z.to_nat (k + n)) data.
Proof.
  intros Ho Hn Hl. rewrite skipn_firstn_comm, take_take, drop_drop. replace (Z.to_nat o + Z.to_nat (k - o))%nat with (Z.to_nat k) by lia.
  replace (Z.to_nat n `min` (len - Z.to_nat (k - o)))%nat with (Z.to_nat n) by lia. rewrite take_take_drop. f_equal. lia.
Qed.

(** What was in the buffer, with the new bytes behind it. *)
Lemma take_wr_block l i b l' : 0 <= i -> wr_block l i b = Some l' -> i + Z.of_nat (length b) <= Z.of_nat (length l) ->
  take (Z.to_nat (i + Z.of_nat (length b))) l' = take (Z.to_nat i) l ++ b.
Proof.
  intros Hi Hw Hl. rewrite wr_block_Some in Hw by done. injection Hw as <-. rewrite app_assoc. apply take_app_length'. rewrite length_app, length_take. lia.
Qed.

Section stream.
Context {E : Type} `{!NetDriver E} (isn : Z) (data : list Z).
Implicit Types s : net E.
Hypothesis data_small : Z.of_nat (length data) < 0x7ffffffe.

Lemma send_stream flags payload s : tcp_stream (snd (net_tcp_stream_send_packet flags payload s)) = tcp_stream s.
Proof. apply silent_stream, silent_net_tcp_stream_send_packet. Qed.

(** What the payload of a segment does to the stream. *)
Lemma payload_received g s s' o c k : segment_ok g -> stream_ok (tcp_stream s) -> received isn data c (tcp_stream s) k ->
  0 <= o -> o + Z.of_nat (length (sg_payload g)) <= Z.of_nat (length data) -> sg_seq g = u32 (isn + 1 + o) ->
  sg_payload g = take (length (sg_payload g)) (drop (Z.to_nat o) data) -> stream_payload g s = Some s' ->
  (exists k', received isn data c (tcp_stream s') k') /\ ts_connected (tcp_stream s') = ts_connected (tcp_stream s).
Proof.
  intros (Hb & Hseq & _ & Hl) (Hbuf & Hsz & Hcap & Hack) (Hk & Hcl & Hak & Hc) Ho Hol Hsq Hpl. unfold stream_payload.
  set (t := tcp_stream s) in *. set (size := Z.of_nat (length (sg_payload g))) in *.
  assert (Hsame : (exists k', received isn data c t k') /\ ts_connected t = ts_connected t) by (split; [exists k; exact (conj Hk (conj Hcl (conj Hak Hc)))|done]).
  destruct (Z.eqb_spec size 0) as [|Hne]; [by intros [= <-]|]. destruct (has_next _ _ _) eqn:Hn.
  2:{ destruct (_ || _); intros [= <-]; [rewrite send_stream|]; exact Hsame. }
  apply has_next_iff in Hn; [|done|done|lia]. rewrite Hak, Hsq in Hn |- *. set (f := if ts_closed t then 1 else 0) in *.
  replace (isn + 1 + k + f) with (isn + 1 + (k + f)) in Hn |- * by lia. rewrite offset_eq in Hn |- *.
  assert (Hf : 0 <= f <= 1) by (unfold f; destruct (ts_closed t); lia).
  destruct (Z.lt_ge_cases (k + f) o) as [Hlt|Hge]; [rewrite u32_neg in Hn by lia; lia|]. rewrite (u32_small (k + f - o)) in Hn |- * by cint.
  assert (Hopen : ts_closed t = false) by (destruct (ts_closed t); [specialize (Hcl eq_refl); unfold f in *; lia|done]).
  assert (Ef : f = 0) by (unfold f; by rewrite Hopen). clearbody f. subst f. rewrite Z.add_0_r in *.
  rewrite (u32_small (size - (k - o))) by cint. rewrite (u32_small (ts_rx_capacity t - ts_rx_size t)) by cint.
  set (n := if size - (k - o) <? ts_rx_capacity t - ts_rx_size t then size - (k - o) else ts_rx_capacity t - ts_rx_size t).
  assert (Hn2 : 0 <= n <= size - (k - o) /\ n <= ts_rx_capacity t - ts_rx_size t) by (unfold n; destruct (Z.ltb_spec (size - (k - o)) (ts_rx_capacity t - ts_rx_size t)); cint).
  clearbody n. destruct (Z.eqb_spec n 0); [intros [= <-]; rewrite send_stream; exact Hsame|].
  rewrite rd_block_some by lia. cbn [mbind option_bind]. destruct (wr_block _ _ _) as [b|] eqn:Hw; [|done]. cbn [mbind option_bind]. intros [= <-]. rewrite send_stream.
  split; [|done]. exists (k + n). split; [lia|]. split; [cbn; congruence|]. split.
  - cbn. rewrite Hopen, Z.add_0_r. unfold u32. rewrite Zplus_mod_idemp_l. f_equal. lia.
  - cbn. rewrite u32_small by cint. set (d := take (Z.to_nat n) (drop (Z.to_nat (k - o)) (sg_payload g))) in *.
    assert (Hd : Z.of_nat (length d) = n) by (unfold d; rewrite length_take, length_drop; lia). rewrite <- Hd at 1.
    rewrite (take_wr_block _ _ _ _ (proj1 Hsz) Hw) by lia. rewrite app_assoc, Hc. unfold d. rewrite Hpl. apply prefix_grows; lia.
Qed.

Lemma fin_received g s o c k : received isn data c (tcp_stream s) k -> 0 <= o -> o + Z.of_nat (length (sg_payload g)) <= Z.of_nat (length data) ->
  sg_seq g = u32 (isn + 1 + o) -> (flag_set (sg_flags g) 1 = true -> o + Z.of_nat (length (sg_payload g)) = Z.of_nat (length data)) ->
  (exists k', received isn data c (tcp_stream (stream_fin g s)) k') /\ ts_connected (tcp_stream (stream_fin g s)) = ts_connected (tcp_stream s).
Proof.
  intros Hr Ho Hol Hsq Hfin. pose proof Hr as (Hk & Hcl & Hak & Hc). unfold stream_fin. rewrite Hsq.
  set (L := Z.of_nat (length (sg_payload g))) in *. assert (En : u32 (u32 (isn + 1 + o) + L) = u32 (isn + 1 + (o + L))) by (unfold u32; rewrite Zplus_mod_idemp_l; f_equal; lia).
  rewrite En. destruct (flag_set (sg_flags g) 1); [|by eauto]. specialize (Hfin eq_refl). cbn [andb].
  destruct (Z.eqb_spec (u32 (isn + 1 + (o + L))) (ts_ack (tcp_stream s))) as [Ha|]; [|by eauto].
  rewrite Hak in Ha. replace (isn + 1 + k + _) with (isn + 1 + (k + (if ts_closed (tcp_stream s) then 1 else 0))) in Ha by lia.
  apply u32_inj_near in Ha; [|lia|destruct (ts_closed (tcp_stream s)); lia].
  assert (Hopen : ts_closed (tcp_stream s) = false) by (destruct (ts_closed (tcp_stream s)); [specialize (Hcl eq_refl); lia|done]). rewrite Hopen in *.
  unfold update_stream. cbn [tcp_stream set_tcp_stream]. rewrite !send_stream. cbn [tcp_stream set_tcp_stream]. split; [|done].
  exists (Z.of_nat (length data)). split; [lia|]. split; [done|]. rewrite Z.add_0_r in Ha. subst k. cbn. split; [|by rewrite Hc, Hfin].
  rewrite Hfin. unfold u32. rewrite Zplus_mod_idemp_l. done.
Qed.

(** ** Established streams *)

Lemma established_segment g s s' c : segment_ok g -> honest isn data g -> net_ok s -> established isn data c (tcp_stream s) ->
  stream_segment g s = Some s' -> established isn data c (tcp_stream s').
Proof.
  intros Hg Hh Hok (Hcon & k & Hr). unfold stream_segment. destruct (flag_set (sg_flags g) 4) eqn:Er; [intros [= <-]; split; [done|by exists k]|].
  match goal with |- context [negb (ts_connected (tcp_stream ?u))] => set (s1 := u) end.
  assert (H1 : stream_ok (tcp_stream s1) /\ ts_connected (tcp_stream s1) = true /\ received isn data c (tcp_stream s1) k).
  { pose proof (ok_stream _ Hok) as Hst. unfold s1. by destruct (_ && _). }
  clearbody s1. destruct H1 as (Hst & Hcon1 & Hr1). rewrite Hcon1. cbn [negb andb]. destruct (stream_payload g s1) as [s2|] eqn:Ep; [|done]. cbn [mbind option_bind]. intros [= <-].
  destruct Hh as [Hrst|Hs1 Hs2 Hs3 Hs4|o Ho Hol Hsq Hpl Hsyn Hfin]; [congruence| |].
  - unfold stream_payload in Ep. rewrite Hs4 in Ep. injection Ep as <-. unfold stream_fin. rewrite Hs3. cbn [andb]. split; [done|by exists k].
  - destruct (payload_received g s1 s2 o c k) as [[k' Hk'] Hc']; [done..|]. destruct (fin_received g s2 o c k') as [Hk'' Hc'']; [done..|]. split; [congruence|done].
Qed.

(** ** Opening a stream: neither the data nor the FIN have the number 0, which
    a stream without an answer expects *)

Lemma opening_segment g s s' : segment_ok g -> honest isn data g -> 0 <= isn -> isn + 1 + Z.of_nat (length data) < 4294967296 -> net_ok s -> opening (tcp_stream s) ->
  stream_segment g s = Some s' -> opening (tcp_stream s') \/ established isn data [] (tcp_stream s').
Proof.
  intros Hg Hh Hi Hw Hok Hop. unfold stream_segment. destruct (flag_set (sg_flags g) 4) eqn:Er; [intros [= <-]; by left|].
  match goal with |- context [negb (ts_connected (tcp_stream ?u))] => set (s1 := u) end.
  assert (H1 : opening (tcp_stream s1)) by (unfold s1; by destruct (_ && _)).
  clearbody s1. destruct H1 as (Hc1 & Ha1 & Hz1 & Hl1). rewrite Hc1. cbn [negb andb]. destruct Hh as [Hrst|Hs1 Hs2 Hs3 Hs4|o Ho Hol Hsq Hpl Hsyn Hfin]; [congruence| |].
  - rewrite Hs2. intros [= <-]. rewrite send_stream. right. split; [done|]. exists 0. split; [lia|]. split; [cbn; congruence|]. cbn. rewrite Hl1, Hz1, Hs1. split; [|done].
    unfold u32. rewrite Zplus_mod_idemp_l. f_equal. lia.
  - rewrite Hsyn. set (L := Z.of_nat (length (sg_payload g))) in *. assert (Es : sg_seq g = isn + 1 + o) by (rewrite Hsq; apply u32_small; cint).
    assert (Ep : forall s2, stream_payload g s1 = Some s2 -> tcp_stream s2 = tcp_stream s1).
    { intros s2. unfold stream_payload. fold L. destruct (Z.eqb_spec L 0) as [|Hne]; [by intros [= <-]|]. destruct (has_next _ _ _) eqn:Hn.
      - apply has_next_iff in Hn; [|apply Hg|rewrite Ha1; cint|lia]. rewrite Ha1, Es, u32_neg in Hn by lia. lia.
      - destruct (_ || _); intros [= <-]; [apply send_stream|done]. }
    destruct (stream_payload g s1) as [s2|]; [|done]. specialize (Ep s2 eq_refl). cbn [mbind option_bind]. intros [= <-].
    unfold stream_fin. rewrite Ep, Ha1, Es. fold L. rewrite (u32_small (isn + 1 + o + L)) by cint. rewrite (proj2 (Z.eqb_neq (isn + 1 + o + L) 0)) by lia. rewrite andb_false_r.
    left. by rewrite Ep.
Qed.
End stream.

(** * Sessions *)

(** ** From frames to segments *)

(** The segment that a frame carries. *)
Definition frame_segment (frame : list Z) : option segment :=
  type ← rd16 frame 12;
  '(type, off) ← (if ((type =? NET_ETH_TYPE_VLAN) || (type =? NET_ETH_TYPE_QINQ)) && (18 <=? Z.of_nat (length frame)) then inner ← rd_be16 frame 16; Some (inner, 18)
                  else Some (type, 14));
  if type =? NET_ETH_TYPE_IPV4 then
    let ip := drop (Z.to_nat off) frame in
    ver_ihl ← rd8 ip 0; total ← rd16 ip 2;
    mjoin (parse_segment ip (Z.land ver_ihl 0x0F * 4) total)
  else None.

(** ** Results of computations that end *)

Definition yields {A} (o : option A) (P : A -> Prop) : Prop := forall a, o = Some a -> P a.

Lemma yields_bind {A B} (o : option A) (f : A -> option B) P : (forall a, o = Some a -> yields (f a) P) -> yields (o ≫= f) P.
Proof. intros H b Hb. destruct o as [a|]; [|done]. exact (H a eq_refl b Hb). Qed.
Lemma yields_then {A B} (P : A -> Prop) (o : option A) (f : A -> option B) Q : yields o P -> (forall a, P a -> yields (f a) Q) -> yields (o ≫= f) Q.
Proof. intros Ho Hf b Hb. destruct o as [a|]; [|done]. exact (Hf a (Ho a eq_refl) b Hb). Qed.
Lemma yields_some {A} (a : A) (P : A -> Prop) : P a -> yields (Some a) P.
Proof. by intros H b [= <-]. Qed.
Lemma yields_if {A} (c : bool) (a b : option A) P : (c = true -> yields a P) -> (c = false -> yields b P) -> yields (if c then a else b) P.
Proof. destruct c; auto. Qed.

Ltac yields_step :=
  match goal with
  | |- yields (_ ≫= _) _ => apply yields_bind; intros ? ?
  | |- yields (if _ then _ else _) _ => apply yields_if; intros ?
  | |- yields (Some _) _ => apply yields_some; try done
  end.
Ltac yields_steps := cbv zeta; repeat yields_step.

Section frames.
Context {E : Type} `{!NetDriver E}.
Implicit Types s : net E.

(** The other handlers leave the stream alone. *)
Lemma arp_stream index payload size s : yields (net_handle_arp index payload size s) (fun s' => tcp_stream s' = tcp_stream s).
Proof.
  unfold net_handle_arp. yields_steps; cbn [tcp_stream set_arp_wait bump].
  all: repeat match goal with |- context [tcp_stream (if ?c then _ else _)] => destruct c end; try done.
  all: by rewrite (silent_stream _ _ (silent_net_send_arp_reply _ _ _ _)).
Qed.

Lemma get_send_stream index flags s : tcp_stream (get_send index flags s) = tcp_stream s.
Proof. apply silent_stream, silent_get_send. Qed.

Lemma get_segment_stream index g s : yields (get_segment index g s) (fun s' => tcp_stream s' = tcp_stream s).
Proof.
  unfold get_segment. yields_steps; [by rewrite get_send_stream|]. rename a into s1, H3 into Hp.
  assert (Hs1 : tcp_stream s1 = tcp_stream s).
  { revert Hp. generalize s1. change (yields (get_payload index g s) (fun s' => tcp_stream s' = tcp_stream s)). unfold get_payload. yields_steps; by rewrite get_send_stream. }
  rewrite <- Hs1. unfold get_fin. match goal with |- context [if ?c then _ else _] => destruct c end; [|done]. cbn [update_get tcp_stream set_tcp_get]. by rewrite get_send_stream.
Qed.

Lemma dhcp_stream index payload size s : yields (net_handle_dhcp index payload size s) (fun s' => tcp_stream s' = tcp_stream s).
Proof. unfold net_handle_dhcp. yields_steps. Qed.

Lemma dns_stream index payload size s : yields (net_handle_dns index payload size s) (fun s' => tcp_stream s' = tcp_stream s).
Proof. unfold net_handle_dns. yields_steps. destruct a2 as [w hit]. apply yields_some. by destruct hit. Qed.

Lemma udp_stream index ip hs total s : yields (net_handle_udp index ip hs total s) (fun s' => tcp_stream s' = tcp_stream s).
Proof. unfold net_handle_udp. cbv zeta. repeat first [apply (dhcp_stream _ _ _ (bump rx_udp s)) | apply (dns_stream _ _ _ (bump rx_udp s)) | yields_step]. Qed.

(** The stream is left alone, or the frame carries a segment for it. *)
Definition stream_step (index : Z) (frame : list Z) s s' : Prop :=
  tcp_stream s' = tcp_stream s \/
  exists g s1, frame_segment frame = Some g /\ segment_ok g /\ for_stream index g (tcp_stream s) = true /\ silent s s1 /\ stream_segment g s1 = Some s'.

Lemma ipv4_stream index frame off s0 s : let ip := drop (Z.to_nat off) frame in
  0 <= off -> bytes ip -> silent s0 s -> (forall ver total, rd8 ip 0 = Some ver -> rd16 ip 2 = Some total -> frame_segment frame = mjoin (parse_segment ip (Z.land ver 0x0F * 4) total)) ->
  yields (net_handle_ipv4 index ip (Z.of_nat (length frame) - off) s) (stream_step index frame s0).
Proof.
  intros ip Hoff Hb Hs Hf. unfold stream_step. rewrite <- (silent_stream _ _ Hs). unfold net_handle_ipv4. yields_steps; try by left.
  - unfold net_handle_tcp. yields_steps. destruct a3 as [g|]; [|apply yields_some; by left]. apply yields_if; intros Hfor; [|intros s' Hg; left; by eapply get_segment_stream].
    intros s' Hg. right. exists g, s. rewrite (Hf _ _ H0 H1), H7. split; [done|]. split; [|done].
    bool_prop. assert (Ht : 0 <= a0 < 65536). { unfold rd16 in H1. destruct (rd8 ip 2), (rd8 ip (2 + 1)); try done. injection H1 as <-. apply Z.mod_pos_bound. lia. }
    assert (Hl : a0 <= Z.of_nat (length ip)) by (unfold ip; rewrite length_drop; lia).
    pose proof (parse_segment_safe ip (Z.land a 15 * 4) a0 Hb ltac:(lia) Ht Hl) as Hseg. by rewrite H7 in Hseg.
  - intros s' Hu. left. exact (udp_stream _ _ _ _ _ _ Hu).
Qed.
Lemma receive_stream index frame s : bytes frame -> yields (net_receive_frame index frame s) (stream_step index frame s).
Proof.
  intros Hb. unfold net_receive_frame. apply yields_if; intros Hg; [apply yields_some; by left|]. apply yields_bind. intros ty Hty. cbv zeta.
  apply yields_bind. intros [[ty' off] s1] Hin. assert (Hv : silent s s1 /\ 0 <= off /\
    forall A (f : Z * Z -> option A), ((if ((ty =? NET_ETH_TYPE_VLAN) || (ty =? NET_ETH_TYPE_QINQ)) && (18 <=? Z.of_nat (length frame)) then inner ← rd_be16 frame 16; Some (inner, 18) else Some (ty, 14)) ≫= f) = f (ty', off)).
  { destruct (_ && _); [destruct (rd_be16 frame 16); [|done]|]; injection Hin as <- <- <-; (split; [by apply silent_env|]; split; [lia|done]). }
  destruct Hv as (Hs & Ho & Hf). apply yields_if; intros Hsize; [apply yields_some; left; by apply silent_stream|]. apply yields_if; intros Harp; [|apply yields_if; intros Hip].
  - intros s' Ha. left. rewrite (arp_stream _ _ _ _ _ Ha). apply (silent_stream s s1 Hs).
  - apply ipv4_stream; [done|by apply bytes_drop|by etransitivity; [exact Hs|apply silent_bump]|].
    intros ver total Hver Htot. unfold frame_segment. rewrite Hty. cbn [mbind option_bind]. rewrite Hf, Hip, Hver, Htot. done.
  - apply yields_some. left. by apply (silent_stream s s1).
Qed.
End frames.

(** ** The frames of a peer *)

Section session.
Context {E : Type} `{!NetDriver E} {I : E -> Prop} {P : list Z -> Prop} {rounds : Z -> nat} `{!NetPeer I P rounds}.
Context (isn : Z) (data : list Z) (rip rport lport : Z).
Implicit Types s : net E.

(** Segments of the connection are the peer's; all other frames are free. *)
Definition peer_frame (frame : list Z) : Prop :=
  bytes frame /\ forall g, frame_segment frame = Some g -> sg_src_ip g = rip -> sg_src_port g = rport -> sg_dst_port g = lport -> honest isn data g.

Hypothesis data_small : Z.of_nat (length data) < 0x7ffffffe.
Hypothesis P_honest : forall frame, P frame -> peer_frame frame.

Definition peer_of (t : tcp_stream_t) : Prop := ts_remote_ip t = rip /\ ts_remote_port t = rport /\ ts_local_port t = lport.

(** [c] was handed out. *)
Definition in_order (c : list Z) (t : tcp_stream_t) : Prop := peer_of t /\ established isn data c t.
Definition in_opening (t : tcp_stream_t) : Prop := peer_of t /\ (opening t \/ established isn data [] t).

Lemma kept_peer s s' : kept (core s) (core s') -> peer_of (tcp_stream s) -> peer_of (tcp_stream s').
Proof. intros K (H1 & H2 & H3). destruct (kept_stream _ _ K) as (_ & _ & K1 & K2 & K3 & _ & _). cbn in K1, K2, K3. split; [congruence|]. split; congruence. Qed.

(** A property of the stream that the peer's segments keep is kept by frames. *)
Lemma frame_keeps (R : tcp_stream_t -> Prop) :
  (forall g s s', segment_ok g -> honest isn data g -> net_ok s -> R (tcp_stream s) -> stream_segment g s = Some s' -> R (tcp_stream s')) ->
  forall index frame s s', P frame -> net_ok s -> peer_of (tcp_stream s) /\ R (tcp_stream s) -> net_receive_frame index frame s = Some s' ->
  peer_of (tcp_stream s') /\ R (tcp_stream s').
Proof.
  intros HR index frame s s' Hp Hok (Hpeer & Hr) Hrec. destruct (P_honest _ Hp) as [Hb Hh].
  pose proof (net_receive_frame_safe index frame s Hb Hok) as Hsafe. rewrite Hrec in Hsafe. destruct Hsafe as (_ & K & _). split; [by eapply kept_peer|].
  destruct (receive_stream index frame s Hb s' Hrec) as [->|(g & s1 & Hg & Hgo & Hfor & Hsil & Hseg)]; [done|].
  unfold for_stream in Hfor. bool_prop. destruct Hpeer as (P1 & P2 & P3).
  eapply (HR g s1); [done|apply Hh; congruence|by eapply silent_ok|by rewrite (silent_stream _ _ Hsil)|done].
Qed.

Lemma in_order_frame c index frame s s' : P frame -> net_ok s -> in_order c (tcp_stream s) -> net_receive_frame index frame s = Some s' -> in_order c (tcp_stream s').
Proof. apply (frame_keeps (established isn data c)). intros g s0 s0' Hg Hh Hok He. by eapply established_segment. Qed.

Lemma in_opening_frame index frame s s' : 0 <= isn -> isn + 1 + Z.of_nat (length data) < 4294967296 -> P frame -> net_ok s -> in_opening (tcp_stream s) ->
  net_receive_frame index frame s = Some s' -> in_opening (tcp_stream s').
Proof.
  intros Hi Hw. apply (frame_keeps (fun t => opening t \/ established isn data [] t)). intros g s0 s0' Hg Hh Hok [Ho|He] Hs.
  - by eapply opening_segment.
  - right. by eapply established_segment.
Qed.

(** ** Receiving *)

Lemma recv_loop_ends Q (QF : forall index frame s s', P frame -> net_ok s -> Q (tcp_stream s) (dhcp_wait s) (tcp_get s) -> net_receive_frame index frame s = Some s' -> Q (tcp_stream s') (dhcp_wait s') (tcp_get s'))
    fuel n start limit s : good (I := I) Q s -> expires start limit n (env s) -> (n < fuel)%nat ->
  gives (recv_loop fuel start limit s) (fun '(code, s') => later (I := I) Q s s' /\ match code with None => ts_rx_size (tcp_stream s') <> 0 | Some c => c = -2 \/ c = 0 end).
Proof.
  revert n s. induction fuel as [|fuel IH]; intros n s Hg Hx Hn; [lia|]. cbn [recv_loop].
  destruct (Z.eqb_spec (ts_rx_size (tcp_stream s)) 0); cbn [negb]; [|by split; [apply later_refl|]].
  eapply gives_bind; [by apply net_progress_device_follows|]. intros s1 Hf. pose proof (follows_later Q _ _ Hf) as Hl1. case_if; [split; [done|by left]|]. case_if; [split; [done|by right]|].
  assert (Hx1 : expires start limit n (env s1)) by (eapply expires_quiet; [apply Hf|done]).
  pose proof (ticks_expires Q start limit n s1 (proj1 Hl1) Hx1) as Ht. destruct (ticks s1) as [now s2]. destruct Ht as [Hl2 Ht].
  assert (Hl : later Q s s2) by by eapply later_trans. destruct (Z.leb_spec limit (u64 (now - start))); [split; [done|by right]|].
  destruct Ht as [?|(n' & -> & Hx2)]; [lia|]. eapply gives_mono; [eapply (IH n'); [apply Hl|done|lia]|]. intros [code s3] [Hl3 Hc]. split; [by eapply later_trans|done].
Qed.

Lemma take_wr_front l (b : list Z) l' : wr_block l 0 b = Some l' -> take (length b) l' = b.
Proof. unfold wr_block. destruct (_ || _); [done|]. intros [= <-]. cbn. by rewrite take_app_length. Qed.

(** Taking bytes from the front of the buffer. *)
Lemma stream_take_in_order c n s : net_ok s -> in_order c (tcp_stream s) -> 0 <= n <= ts_rx_size (tcp_stream s) ->
  gives (stream_take n s) (fun '(d, s') => stays s s' /\ in_order (c ++ d) (tcp_stream s') /\ Z.of_nat (length d) = n).
Proof.
  intros Hok (Hp & Hcon & k & Hk & Hcl & Hak & Hc) Hn. pose proof (ok_stream _ Hok) as (Hbuf & Hsz & Hcap & Hack). cbn in Hbuf, Hsz, Hcap, Hack. unfold stream_take. set (t := tcp_stream s) in *.
  rewrite !rd_block_some by lia. cbn [mbind option_bind drop]. rewrite drop_0. set (d := take (Z.to_nat n) (ts_rx_buffer t)). set (r := take (Z.to_nat (ts_rx_size t - n)) (drop (Z.to_nat n) (ts_rx_buffer t))).
  assert (Hd : Z.of_nat (length d) = n) by (unfold d; rewrite length_take; lia). assert (Hr : Z.of_nat (length r) = ts_rx_size t - n) by (unfold r; rewrite length_take, length_drop; lia).
  destruct (wr_block (ts_rx_buffer t) 0 r) as [b|] eqn:Hw; [|rewrite wr_block_Some in Hw by lia; done]. pose proof Hw as Hw2. rewrite wr_block_Some in Hw2 by lia. injection Hw2 as Hb2.
  cbn [mbind option_bind gives]. split; [|split; [|done]].
  - apply stays_set_tcp_stream; [done| |by repeat split]. split; [|split; [cbn; lia|done]]. cbn. rewrite <- Hb2, length_app, length_drop. lia.
  - split; [done|]. split; [done|]. exists k. split; [done|]. split; [done|]. split; [done|]. cbn. replace (Z.to_nat (ts_rx_size t - n)) with (length r) by lia.
    rewrite (take_wr_front _ _ _ Hw), <- app_assoc. unfold d, r. rewrite take_take_drop. rewrite <- Hc. do 2 f_equal. lia.
Qed.

Definition delivers (c : list Z) (t : tcp_stream_t) (_ : dhcp_wait_t) (_ : tcp_get_t) : Prop := in_order c t.

Lemma delivers_frame c index frame s s' : P frame -> net_ok s -> delivers c (tcp_stream s) (dhcp_wait s) (tcp_get s) -> net_receive_frame index frame s = Some s' ->
  delivers c (tcp_stream s') (dhcp_wait s') (tcp_get s').
Proof. apply in_order_frame. Qed.

(** A call of [net_tcp_stream_recv]. *)
Lemma recv_in_order c fuel capacity timeout s : good (I := I) (delivers c) s -> 0 <= capacity -> 0 <= timeout < 2 ^ 32 -> (rounds timeout < fuel)%nat ->
  gives (net_tcp_stream_recv fuel capacity timeout s) (fun '(code, out, s') => later (I := I) (delivers (c ++ out)) s s' /\
    (code = Z.of_nat (length out) /\ 0 < code <= capacity \/ out = [] /\ code <= 0)).
Proof.
  intros Hg Hcap Ht Hf. unfold net_tcp_stream_recv. case_if; [split; [rewrite app_nil_r; by apply later_refl|right; split; [done|lia]]|]. bool_prop.
  pose proof (ticks_later (delivers c) s Hg) as Htk. destruct (ticks s) as [start s1]. destruct Htk as [Hl Hx].
  eapply gives_bind; [eapply recv_loop_ends; [apply delivers_frame|apply Hl|by apply Hx|done]|]. intros [[code|] s2] [Hl2 Hc]; cbn beta iota.
  - split; [rewrite app_nil_r; by eapply later_trans|]. right. split; [done|]. destruct Hc; lia.
  - assert (Hl3 : later (delivers c) s s2) by by eapply later_trans. destruct Hl3 as [(Hok2 & Hi2 & Hq2) K2]. pose proof (ok_stream _ Hok2) as (_ & Hsz & _). cbn in Hsz.
    set (m := if ts_rx_size (tcp_stream s2) <? capacity then ts_rx_size (tcp_stream s2) else capacity).
    assert (Hm : 0 < m <= capacity /\ m <= ts_rx_size (tcp_stream s2)) by (unfold m; destruct (Z.ltb_spec (ts_rx_size (tcp_stream s2)) capacity); lia).
    eapply gives_bind; [apply (stream_take_in_order c); [done|done|lia]|]. intros [d s3] ((Hok3 & K3 & Qt3) & Hin3 & Hd). cbn [gives].
    assert (Hg3 : good (delivers (c ++ d)) s3) by (split; [done|]; split; [by eapply peer_quiet|done]).
    split; [|left; split; [done|lia]].
    assert (Hl4 : later (delivers (c ++ d)) s s3) by (split; [done|by etransitivity]).
    destruct (_ && _); [|done]. eapply later_trans; [exact Hl4|]. apply follows_later, follows_silent; [done|]. apply silent_net_tcp_stream_send_packet.
Qed.

(** ** Sending *)

Lemma good_update Q f s : good (I := I) Q s -> stream_ok (f (tcp_stream s)) -> same_stream (tcp_stream s) (f (tcp_stream s)) -> Q (f (tcp_stream s)) (dhcp_wait s) (tcp_get s) ->
  follows (I := I) Q s (update_stream f s).
Proof.
  intros (Hok & Hi & Hq) Hst Hsame HQ. pose proof (stays_set_tcp_stream _ _ Hok Hst Hsame) as (H1 & H2 & H3). split; [|done]. by split; [|split].
Qed.

(** Sending does not touch what is received: [Q] does not depend on the
    sequence number of the sender. *)
Lemma send_loop_ends Q (QF : forall index frame s s', P frame -> net_ok s -> Q (tcp_stream s) (dhcp_wait s) (tcp_get s) -> net_receive_frame index frame s = Some s' -> Q (tcp_stream s') (dhcp_wait s') (tcp_get s'))
    (QS : forall v t w g, Q t w g -> Q (set_ts_seq v t) w g) fuel out s : good (I := I) Q s -> (length out <= fuel)%nat ->
  gives (send_loop fuel out s) (fun '(code, s') => later (I := I) Q s s' /\ -3 <= code <= 0).
Proof.
  revert out s. induction fuel as [|fuel IH]; intros [|b out] s Hg Hl; cbn [length] in Hl; try lia.
  1,2: cbn; split; [by apply follows_later, follows_silent, silent_record|lia].
  cbn [send_loop]. match goal with |- context [net_send_tcp_window ?a1 ?a2 ?a3 ?a4 ?a5 ?a6 ?a7 ?a8 ?a9 ?a10 ?a11] =>
    pose proof (silent_net_send_tcp_window a1 a2 a3 a4 a5 a6 a7 a8 a9 a10 a11) as Hs; destruct (net_send_tcp_window a1 a2 a3 a4 a5 a6 a7 a8 a9 a10 a11) as [code s1] end. cbn [snd] in Hs.
  pose proof (follows_silent Q _ _ Hg Hs) as Hf1. case_if.
  { split; [|lia]. eapply later_trans; [by apply follows_later|]. apply follows_later, follows_silent; [apply Hf1|apply silent_record]. }
  set (f := fun t : tcp_stream_t => set_ts_seq (u32 (ts_seq t + Z.of_nat (length (take 1200 (b :: out))))) t).
  assert (Hf2 : follows (I := I) Q s1 (update_stream f s1)).
  { apply good_update; [apply Hf1|exact (ok_stream _ (proj1 (proj1 Hf1)))|by repeat split|]. apply QS. apply Hf1. }
  assert (Hf3 : follows (I := I) Q s (bump tcp_stream_tx (update_stream f s1))).
  { eapply follows_trans; [exact Hf1|]. eapply follows_trans; [exact Hf2|]. apply follows_silent; [apply Hf2|apply silent_bump]. }
  eapply gives_bind; [apply net_progress_device_follows; [done|apply Hf3]|]. intros s3 Hf4. assert (Hl4 : later (I := I) Q s s3) by (apply follows_later; by eapply follows_trans).
  case_if; [split; [|lia]; eapply later_trans; [exact Hl4|]; apply follows_later, follows_silent; [apply Hl4|apply silent_record]|].
  eapply gives_mono; [apply IH; [apply Hl4|]|].
  - rewrite length_drop. cbn [length]. lia.
  - intros [c s4] [Hl5 Hc]. split; [by eapply later_trans|done].
Qed.

Lemma send_in_order c out s : good (I := I) (delivers c) s -> gives (net_tcp_stream_send out s) (fun '(code, s') => later (I := I) (delivers c) s s' /\ -3 <= code <= 0).
Proof.
  intros Hg. unfold net_tcp_stream_send. case_if; [split; [|lia]; by apply follows_later, follows_silent, silent_record|].
  destruct out as [|b out]; [cbn; split; [by apply later_refl|lia]|]. apply send_loop_ends; [apply delivers_frame|done|done|done].
Qed.

(** ** Calls in any order *)

Inductive call : Type :=
  | CallSend (out : list Z)
  | CallRecv (capacity timeout : Z)
  | CallPoll.

(** The bytes handed to the caller, in the order of the calls. *)
Fixpoint run_calls (fuel : nat) (calls : list call) (s : net E) : option (list Z * net E) :=
  match calls with
  | [] => Some ([], s)
  | CallSend out :: calls' => '(_, s) ← net_tcp_stream_send out s; run_calls fuel calls' s
  | CallPoll :: calls' => '(_, s) ← net_poll_all_devices s; run_calls fuel calls' s
  | CallRecv capacity timeout :: calls' =>
      '(_, got, s) ← net_tcp_stream_recv fuel capacity timeout s;
      '(rest, s) ← run_calls fuel calls' s;
      Some (got ++ rest, s)
  end.

Definition call_ok (fuel : nat) (c : call) : Prop :=
  match c with CallRecv capacity timeout => 0 <= capacity /\ 0 <= timeout < 2 ^ 32 /\ (rounds timeout < fuel)%nat | _ => True end.

Lemma run_calls_in_order fuel calls c s : Forall (call_ok fuel) calls -> good (I := I) (delivers c) s ->
  gives (run_calls fuel calls s) (fun '(out, s') => later (I := I) (delivers (c ++ out)) s s').
Proof.
  intros Hc. revert c s. induction Hc as [|cl calls Hcl Hc IH]; intros c s Hg; cbn [run_calls]; [cbn; rewrite app_nil_r; by apply later_refl|]. destruct cl as [out|capacity timeout|].
  - eapply gives_bind; [by apply send_in_order|]. intros [code s1] [Hl _]. eapply gives_mono; [apply IH, Hl|]. intros [o s2] Hl2. split; [apply Hl2|]. etransitivity; [apply Hl|apply Hl2].
  - destruct Hcl as (H1 & H2 & H3). eapply gives_bind; [by apply recv_in_order|]. intros [[code got] s1] [Hl _]. eapply gives_bind; [apply IH, Hl|]. intros [rest s2] Hl2. cbn [gives].
    rewrite app_assoc. split; [apply Hl2|]. etransitivity; [apply Hl|apply Hl2].
  - eapply gives_bind; [apply net_poll_all_devices_follows; [apply delivers_frame|done]|]. intros [code s1] Hf. eapply gives_mono; [apply IH, Hf|].
    intros [o s2] Hl2. split; [apply Hl2|]. etransitivity; [apply Hf|apply Hl2].
Qed.
End session.
