(* ===== verification/NetDhcp.v ===== *)
(** The configuration by DHCP: with a server whose acknowledgements carry a
    lease, [net_dhcp_configure] either takes the lease or leaves the
    configuration as it was. *)
From Stdlib Require Import ZArith Lia.
From stdpp Require Import base tactics option list numbers functions.
From S2P Require Import Prelude.
From S2P Require Import Buffer.
From S2P Require Import NetWire.
From S2P Require Import NetState.
From S2P Require Import NetHttp.
From S2P Require Import NetDns.
From S2P Require Import NetRecv.
From S2P Require Import NetSafe.
From S2P Require Import NetInvariant.
From S2P Require Import NetSession.
#[local] Open Scope Z_scope.

(** * Addresses, connections, the configuration by DHCP and names: the calls that
    send a question and wait for the answer. Every call ends, keeps the
    invariant, and leaves what it does not configure as it was. *)

(** The devices, the configuration and the lock. *)
Definition config_of (c : net_core) :=
  (co_devices c, co_device_count c, (co_local_ip c, co_local_netmask c, co_local_gateway c, co_local_dns c), co_poll_lock c).

Lemma kept_config c c' : kept c c' -> config_of c' = config_of c.
Proof. intros []. unfold config_of. congruence. Qed.

Section calls.
Context {E : Type} `{!NetDriver E} {I : E -> Prop} {P : list Z -> Prop} {rounds : Z -> nat} `{!NetPeer I P rounds}.
Implicit Types s : net E.
Notation good := (good (I := I)).
Notation later := (later (I := I)).

(** The waits can be set up anew. *)
Lemma good_set_arp Q w s : good Q s -> mac_ok (aw_mac w) -> good Q (set_arp_wait w s).
Proof. intros ([] & Hi & Hq) Hm. split; [by constructor|done]. Qed.
Lemma good_set_port Q v s : good Q s -> is_port v -> good Q (set_next_local_port v s).
Proof. intros ([] & Hi & Hq) Hm. split; [by constructor|done]. Qed.
Lemma good_set_stream (Q Q' : tcp_stream_t -> dhcp_wait_t -> tcp_get_t -> Prop) t s : good Q s -> stream_ok t -> Q' t (dhcp_wait s) (tcp_get s) -> good Q' (set_tcp_stream t s).
Proof. intros ([] & Hi & Hq) Hm HQ. split; [by constructor|done]. Qed.
Lemma good_set_dhcp (Q Q' : tcp_stream_t -> dhcp_wait_t -> tcp_get_t -> Prop) w s : good Q s -> dhcp_ok w -> Q' (tcp_stream s) w (tcp_get s) -> good Q' (set_dhcp_wait w s).
Proof. intros ([] & Hi & Hq) Hm HQ. split; [by constructor|done]. Qed.
Lemma good_set_dns Q w s : good Q s -> length (nw_cname w) = 128%nat -> bytes (nw_cname w) -> good Q (set_dns_wait w s).
Proof. intros ([] & Hi & Hq) Hm HQ. split; [by constructor|done]. Qed.
Lemma good_set_ip Q v s : good Q s -> is_u32 v -> good Q (set_local_ip v s).
Proof. intros ([] & Hi & Hq) Hm. split; [constructor; try done; cbn; destruct ok_config as (_ & ? & ? & ?); by split|done]. Qed.
Lemma good_set_netmask Q v s : good Q s -> is_u32 v -> good Q (set_local_netmask v s).
Proof. intros ([] & Hi & Hq) Hm. split; [constructor; try done; cbn; destruct ok_config as (? & _ & ? & ?); by split|done]. Qed.
Lemma good_set_gateway Q v s : good Q s -> is_u32 v -> good Q (set_local_gateway v s).
Proof. intros ([] & Hi & Hq) Hm. split; [constructor; try done; cbn; destruct ok_config as (? & ? & _ & ?); by split|done]. Qed.
Lemma good_set_local_dns Q v s : good Q s -> is_u32 v -> good Q (set_local_dns v s).
Proof. intros ([] & Hi & Hq) Hm. split; [constructor; try done; cbn; destruct ok_config as (? & ? & ? & _); by split|done]. Qed.

Lemma good_mono (Q Q' : tcp_stream_t -> dhcp_wait_t -> tcp_get_t -> Prop) s : good Q s -> Q' (tcp_stream s) (dhcp_wait s) (tcp_get s) -> good Q' s.
Proof. intros (H1 & H2 & _) H3. by split; [|split]. Qed.

Definition keeps_frames (Q : tcp_stream_t -> dhcp_wait_t -> tcp_get_t -> Prop) : Prop :=
  forall index frame s s', P frame -> net_ok s -> Q (tcp_stream s) (dhcp_wait s) (tcp_get s) -> net_receive_frame index frame s = Some s' -> Q (tcp_stream s') (dhcp_wait s') (tcp_get s').

(** ** Addresses *)

Lemma net_arp_resolve_ends Q fuel index ip s : keeps_frames Q -> good Q s -> (rounds NET_TIMEOUT_TICKS < fuel)%nat ->
  gives (net_arp_resolve fuel index ip s) (fun '(code, mac, s') => good Q s' /\ config_of (core s') = config_of (core s) /\ next_local_port s' = next_local_port s /\
    same_stream (tcp_stream s) (tcp_stream s') /\ (code = 0 -> mac_ok mac) /\ -1 <= code <= 0).
Proof.
  intros QF Hg Hf. unfold net_arp_resolve. pose proof (ticks_later Q s Hg) as Ht. destruct (ticks s) as [start s1]. destruct Ht as [[Hg1 K1] Hx].
  set (s2 := set_arp_wait _ s1). assert (Hg2 : good Q s2) by (apply good_set_arp; [done|]; split; [done|by repeat constructor]).
  pose proof (silent_net_send_arp_request index ip s2) as Hs. destruct (net_send_arp_request index ip s2) as [code s3]. cbn [snd] in Hs.
  pose proof (good_silent Q _ _ Hg2 Hs) as Hg3. assert (C3 : config_of (core s3) = config_of (core s)) by (rewrite (proj1 Hs), <- (kept_config _ _ K1); done).
  assert (P3 : next_local_port s3 = next_local_port s) by (change (co_next_local_port (core s3) = next_local_port s); rewrite (proj1 Hs); exact (kept_port _ _ K1)).
  assert (S3 : same_stream (tcp_stream s) (tcp_stream s3)) by (rewrite (silent_stream _ _ Hs); exact (kept_stream _ _ K1)).
  destruct (negb (code =? 0)).
  { cbn [gives]. split; [apply good_set_arp; [done|]; exact (ok_arp _ (proj1 Hg3))|]. split; [done|]. split; [done|]. split; [done|]. split; [done|lia]. }
  eapply gives_bind; [eapply (wait_loop_ends Q QF); [done| |exact Hf]|].
  { eapply expires_quiet; [apply Hs|]. by apply Hx. }
  intros [code' s4] [[Hg4 K4] Hc]. cbn [gives]. pose proof (ok_arp _ (proj1 Hg4)) as Hmac. split; [by apply good_set_arp|].
  split; [rewrite <- C3; exact (kept_config _ _ K4)|]. split; [rewrite <- P3; exact (kept_port _ _ K4)|].
  split; [destruct S3 as (?&?&?&?&?&?&?), (kept_stream _ _ K4) as (?&?&?&?&?&?&?); cbn in *; repeat split; congruence|]. split; [done|].
  destruct Hc as [->|Hc]; [lia|]. destruct (aw_found (arp_wait s4)); [injection Hc as <-; lia|done].
Qed.

(** ** Connections *)

Lemma ok_local_port_of Q s : good Q s -> is_port (next_local_port s).
Proof. intros Hg. exact (ok_local_port _ (proj1 Hg)). Qed.

(** A new stream with the peer at [ip] and [port] on the next local port; the
    peer starts at [isn] and sends [data]. *)
Lemma net_tcp_stream_connect_opens isn data Q fuel index ip port buffer capacity s :
  Z.of_nat (length data) < 0x7ffffffe -> 0 <= isn -> isn + 1 + Z.of_nat (length data) < 4294967296 ->
  (forall frame, P frame -> peer_frame isn data ip port (next_local_port s) frame) ->
  keeps_frames Q -> good Q s -> (rounds NET_TIMEOUT_TICKS < fuel)%nat -> Z.of_nat (length buffer) = capacity -> is_u32 capacity ->
  gives (net_tcp_stream_connect fuel index ip port buffer capacity s) (fun '(code, s') => net_ok s' /\ I (env s') /\
    config_of (core s') = config_of (core s) /\
    (code = 0 -> ts_active (tcp_stream s') = true /\ in_order isn data ip port (next_local_port s) [] (tcp_stream s')) /\
    (ts_active (tcp_stream s') = true -> code = 0 \/ ts_active (tcp_stream s) = true)).
Proof.
  intros Hdata Hisn Hwrap HP QF Hg Hf Hb Hcap. unfold net_tcp_stream_connect.
  assert (Hstay : forall c, c <> 0 -> net_ok s /\ I (env s) /\ config_of (core s) = config_of (core s) /\
    (c = 0 -> ts_active (tcp_stream s) = true /\ in_order isn data ip port (next_local_port s) [] (tcp_stream s)) /\ (ts_active (tcp_stream s) = true -> c = 0 \/ ts_active (tcp_stream s) = true)).
  { intros c Hc. destruct Hg as (H1 & H2 & _). split; [done|]. split; [done|]. split; [done|]. split; [lia|by right]. }
  case_if; [by apply Hstay|]. case_if; [by apply Hstay|].
  eapply gives_bind; [by apply net_arp_resolve_ends|]. intros [[code mac] s1] (Hg1 & C1 & P1 & S1 & Hmac & Hcode). cbn beta iota.
  destruct (Z.eqb_spec code 0) as [->|]; cbn [negb gives].
  2:{ split; [apply Hg1|]. split; [apply Hg1|]. split; [done|]. split; [done|]. intros Ha. right. rewrite <- Ha. symmetry. apply S1. }
  set (s2 := set_next_local_port _ s1). assert (Hg2 : good Q s2) by (apply good_set_port; [done|]; apply Z.mod_pos_bound; lia).
  pose proof (ticks_later Q s2 Hg2) as Ht. destruct (ticks s2) as [now s3]. destruct Ht as [[Hg3 K3] _]. set (seq := u32 (0x20000000 + now)). rewrite P1.
  set (t := TcpStream _ _ _ _ _ _ _ _ _ _ _ _ _ _ _). set (O := fun t (_ : dhcp_wait_t) (_ : tcp_get_t) => in_opening isn data ip port (next_local_port s) t).
  assert (Hok_t : stream_ok t) by (split; [done|]; split; [cbn; cint|]; split; [done|cbn; cint]). set (s4 := set_tcp_stream t s3).
  assert (Hg4 : good O s4) by (eapply good_set_stream; [exact Hg3|done|split; [done|by left]]).
  match goal with |- context [net_send_tcp_window ?a1 ?a2 ?a3 ?a4 ?a5 ?a6 ?a7 ?a8 ?a9 ?a10 ?a11] =>
    pose proof (silent_net_send_tcp_window a1 a2 a3 a4 a5 a6 a7 a8 a9 a10 a11) as Hs; destruct (net_send_tcp_window a1 a2 a3 a4 a5 a6 a7 a8 a9 a10 a11) as [code s5] end. cbn [snd] in Hs.
  pose proof (good_silent O _ _ Hg4 Hs) as Hg5. assert (C5 : config_of (core s5) = config_of (core s)).
  { rewrite (proj1 Hs), <- C1. change (config_of (core s3) = config_of (core s2)). by apply kept_config. }
  assert (Hoff : forall u, good O u -> net_ok (update_stream (set_ts_active false) u) /\ I (env (update_stream (set_ts_active false) u))).
  { intros u Hu. destruct (good_set_stream O (fun _ _ _ => True) (set_ts_active false (tcp_stream u)) u Hu) as (H1 & H2 & _); [exact (ok_stream _ (proj1 Hu))|done|done]. }
  destruct (Z.eqb_spec code 0) as [->|]; cbn [negb gives].
  2:{ destruct (Hoff s5 Hg5) as [H1 H2]. split; [done|]. split; [done|]. split; [done|]. by split. }
  set (s6 := update_stream _ s5). assert (Hg6 : good O s6) by (eapply good_set_stream; [exact Hg5|exact (ok_stream _ (proj1 Hg5))|apply Hg5]).
  assert (OF : keeps_frames O) by (intros i f u u'; by apply in_opening_frame).
  eapply gives_bind; [apply (wait_ends O OF); [done|done|exact Hf]|]. intros [code s7] [[Hg7 K7] Hc].
  assert (C7 : config_of (core s7) = config_of (core s)) by (rewrite <- C5; exact (kept_config _ _ K7)).
  destruct (Z.eqb_spec code 0) as [->|]; cbn [negb gives].
  2:{ destruct (Hoff s7 Hg7) as [H1 H2]. split; [done|]. split; [done|]. split; [done|]. by split. }
  split; [apply Hg7|]. split; [apply Hg7|]. split; [done|]. split; [|by left]. intros _.
  destruct (kept_stream _ _ K7) as (A & _). split; [|split; [apply Hg7|]].
  - cbn in A. rewrite A. change (ts_active (tcp_stream s5) = true). by rewrite (silent_stream _ _ Hs).
  - destruct Hc as [?|Hc]; [done|]. destruct Hg7 as (_ & _ & (_ & [(Ho & _)|He])); [|done]. rewrite Ho in Hc. by destruct (ts_reset _).
Qed.

(** Closing gives the stream up. *)
Lemma net_tcp_stream_close_ok s : net_ok s -> I (env s) ->
  net_ok (net_tcp_stream_close s) /\ I (env (net_tcp_stream_close s)) /\ ts_active (tcp_stream (net_tcp_stream_close s)) = false /\ config_of (core (net_tcp_stream_close s)) = config_of (core s).
Proof.
  intros Hok Hi. assert (Hg : good (fun _ _ _ => True) s) by by split; [|split]. unfold net_tcp_stream_close.
  match goal with |- context [update_stream (set_ts_active false) ?u] => set (s1 := u) end.
  assert (H1 : good (fun _ _ _ => True) s1 /\ config_of (core s1) = config_of (core s)).
  { unfold s1. destruct (_ && _); [|done]. pose proof (silent_net_tcp_stream_send_packet 0x11 [] s) as Hs. pose proof (good_silent _ _ _ Hg Hs) as Hg2.
    split; [|by change (config_of (core (snd (net_tcp_stream_send_packet 0x11 [] s))) = config_of (core s)); rewrite (proj1 Hs)].
    eapply good_set_stream; [exact Hg2|exact (ok_stream _ (proj1 Hg2))|done]. }
  destruct H1 as [Hg1 C1]. clearbody s1.
  destruct (good_set_stream _ (fun _ _ _ => True) (set_ts_active false (tcp_stream s1)) s1 Hg1) as (H2 & H3 & _); [exact (ok_stream _ (proj1 Hg1))|done|]. by repeat split; try apply H2.
Qed.
End calls.

(** * The configuration by DHCP *)

(** ** What a frame says *)

(** The datagram of a frame: its ports, what follows its header, its size. *)
Definition frame_datagram (frame : list Z) : option (Z * Z * list Z * Z) :=
  type ← rd16 frame 12;
  '(type, off) ← (if ((type =? NET_ETH_TYPE_VLAN) || (type =? NET_ETH_TYPE_QINQ)) && (18 <=? Z.of_nat (length frame)) then inner ← rd_be16 frame 16; Some (inner, 18)
                  else Some (type, 14));
  if type =? NET_ETH_TYPE_IPV4 then
    let ip := drop (Z.to_nat off) frame in
    ver_ihl ← rd8 ip 0;
    let hs := Z.land ver_ihl 0x0F * 4 in
    src_port ← rd16 ip hs; dst_port ← rd16 ip (hs + 2); udp_length ← rd16 ip (hs + 4);
    Some (src_port, dst_port, drop (Z.to_nat (hs + 8)) ip, udp_length - 8)
  else None.

(** A reply of a server: its transaction, the address and the options. *)
Definition dhcp_reply (payload : list Z) (size : Z) : option (Z * Z * dhcp_options) :=
  if size <? 240 then None
  else
    op ← rd8 payload 0; htype ← rd8 payload 1; hlen ← rd8 payload 2; xid ← rd32 payload 4; magic ← rd32 payload 236;
    if negb (op =? 2) || negb (htype =? 1) || negb (hlen =? NET_MAC_SIZE) || negb (magic =? 0x63825363) then None
    else
      o ← dhcp_options_loop (S (Z.to_nat size)) payload size 240 zero_options;
      yiaddr ← rd32 payload 16;
      Some (xid, yiaddr, o).

(** What a lease configures; 0 for what it leaves alone. *)
Record lease : Type := Lease { le_ip : Z; le_mask : Z; le_router : Z; le_dns : Z }.

Definition lease_of (yiaddr : Z) (o : dhcp_options) : lease := Lease yiaddr (do_mask o) (do_router o) (do_dns o).

(** Every acknowledgement (type 5) carries the lease [l]. *)
Definition server_frame (l : lease) (frame : list Z) : Prop :=
  forall payload size xid yiaddr o, frame_datagram frame = Some (NET_DHCP_SERVER_PORT, NET_DHCP_CLIENT_PORT, payload, size) ->
  dhcp_reply payload size = Some (xid, yiaddr, o) -> do_type o = 5 -> lease_of yiaddr o = l.

(** The wait for an acknowledgement has found the lease. *)
Definition leased (l : lease) (w : dhcp_wait_t) : Prop :=
  dw_found w = true -> dw_wanted_type w = 5 -> Lease (dw_offered_ip w) (dw_subnet_mask w) (dw_router w) (dw_dns w) = l.

Section frames.
Context {E : Type} `{!NetDriver E}.
Implicit Types s : net E.

Lemma send_dhcp_wait flags payload s : dhcp_wait (snd (net_tcp_stream_send_packet flags payload s)) = dhcp_wait s.
Proof. apply silent_dhcp, silent_net_tcp_stream_send_packet. Qed.
Lemma get_send_dhcp_wait index flags s : dhcp_wait (get_send index flags s) = dhcp_wait s.
Proof. apply silent_dhcp, silent_get_send. Qed.

(** The other handlers leave the wait alone. *)
Lemma arp_dhcp index payload size s : yields (net_handle_arp index payload size s) (fun s' => dhcp_wait s' = dhcp_wait s).
Proof.
  unfold net_handle_arp. yields_steps; cbn [dhcp_wait set_arp_wait bump].
  all: repeat match goal with |- context [dhcp_wait (if ?c then _ else _)] => destruct c end; try done.
  all: by rewrite (silent_dhcp _ _ (silent_net_send_arp_reply _ _ _ _)).
Qed.

Lemma stream_segment_dhcp g s : yields (stream_segment g s) (fun s' => dhcp_wait s' = dhcp_wait s).
Proof.
  unfold stream_segment. cbv zeta. apply yields_if; intros _; [by apply yields_some|].
  match goal with |- context [negb (ts_connected (tcp_stream ?u))] => set (s1 := u) end. assert (H1 : dhcp_wait s1 = dhcp_wait s) by (unfold s1; by destruct (_ && _)). clearbody s1.
  rewrite <- H1. apply yields_if; intros _; [apply yields_some; by rewrite send_dhcp_wait|]. apply yields_bind. intros s2 Hp. apply yields_some.
  assert (H2 : dhcp_wait s2 = dhcp_wait s1).
  { revert s2 Hp. change (yields (stream_payload g s1) (fun s' => dhcp_wait s' = dhcp_wait s1)). unfold stream_payload. cbv zeta. yields_step; [by apply yields_some|].
    yields_step; [|yields_steps; by rewrite send_dhcp_wait]. apply (yields_then (fun s' => dhcp_wait s' = dhcp_wait s1)); [yields_steps|].
    intros s' Hs'. apply yields_some. by rewrite send_dhcp_wait. }
  rewrite <- H2. unfold stream_fin. match goal with |- context [if ?c then _ else _] => destruct c end; [|done]. unfold update_stream at 1. cbn [dhcp_wait set_tcp_stream]. by rewrite send_dhcp_wait.
Qed.

Lemma get_segment_dhcp index g s : yields (get_segment index g s) (fun s' => dhcp_wait s' = dhcp_wait s).
Proof.
  unfold get_segment. cbv zeta. do 4 (yields_step; [apply yields_some; try done; by rewrite get_send_dhcp_wait|]).
  apply (yields_then (fun s' => dhcp_wait s' = dhcp_wait s)); [unfold get_payload; yields_steps; by rewrite get_send_dhcp_wait|].
  intros s1 Hs1. apply yields_some. rewrite <- Hs1. unfold get_fin. match goal with |- context [if ?c then _ else _] => destruct c end; [|done]. cbn [update_get dhcp_wait set_tcp_get].
  by rewrite get_send_dhcp_wait.
Qed.

Lemma dns_dhcp index payload size s : yields (net_handle_dns index payload size s) (fun s' => dhcp_wait s' = dhcp_wait s).
Proof. unfold net_handle_dns. yields_steps. destruct a2 as [w hit]. apply yields_some. by destruct hit. Qed.

(** A reply that is waited for. *)
Definition answered (payload : list Z) (size : Z) (w w' : dhcp_wait_t) : Prop :=
  exists yiaddr o, dhcp_reply payload size = Some (dw_xid w, yiaddr, o) /\ do_type o = dw_wanted_type w /\ dw_active w = true /\
  w' = DhcpWait (dw_active w) (dw_device w) (dw_xid w) (dw_wanted_type w) true yiaddr (do_server o) (do_mask o) (do_router o) (do_dns o).

Lemma dhcp_handled index payload size s : yields (net_handle_dhcp index payload size s) (fun s' => dhcp_wait s' = dhcp_wait s \/ answered payload size (dhcp_wait s) (dhcp_wait s')).
Proof.
  unfold net_handle_dhcp. yields_steps; try by left. right. bool_prop. exists a5, a4. split; [|split; [congruence|done]].
  unfold dhcp_reply. rewrite (proj2 (Z.ltb_ge _ _)) by done. rewrite H0, H1, H2, H3, H4. cbn [mbind option_bind]. subst. cbn [Z.eqb Pos.eqb negb orb]. rewrite Z.eqb_refl. cbn [negb orb].
  rewrite H6. cbn [mbind option_bind]. rewrite H8. done.
Qed.

(** The wait is left alone, or the frame carries the reply. *)
Definition dhcp_step (frame : list Z) s s' : Prop :=
  dhcp_wait s' = dhcp_wait s \/
  exists payload size, frame_datagram frame = Some (NET_DHCP_SERVER_PORT, NET_DHCP_CLIENT_PORT, payload, size) /\ answered payload size (dhcp_wait s) (dhcp_wait s').

Lemma udp_dhcp index ip hs total s : yields (net_handle_udp index ip hs total s) (fun s' => dhcp_wait s' = dhcp_wait s \/
  exists len, rd16 ip hs = Some NET_DHCP_SERVER_PORT /\ rd16 ip (hs + 2) = Some NET_DHCP_CLIENT_PORT /\ rd16 ip (hs + 4) = Some len /\
  answered (drop (Z.to_nat (hs + 8)) ip) (len - 8) (dhcp_wait s) (dhcp_wait s')).
Proof.
  unfold net_handle_udp. cbv zeta. yields_step; [apply yields_some; by left|]. do 3 yields_step. yields_step; [apply yields_some; by left|]. yields_step; [|yields_step; [|apply yields_some; by left]].
  - intros s' Hs'. bool_prop. subst. destruct (dhcp_handled _ _ _ _ _ Hs') as [?|?]; [by left|]. right. eauto.
  - intros s' Hs'. left. exact (dns_dhcp _ _ _ _ _ Hs').
Qed.

Lemma receive_dhcp index frame s : yields (net_receive_frame index frame s) (dhcp_step frame s).
Proof.
  unfold net_receive_frame. apply yields_if; intros Hg; [apply yields_some; by left|]. apply yields_bind. intros ty Hty. cbv zeta.
  apply yields_bind. intros [[ty' off] s1] Hin. assert (Hv : dhcp_wait s1 = dhcp_wait s /\
    forall A (f : Z * Z -> option A), ((if ((ty =? NET_ETH_TYPE_VLAN) || (ty =? NET_ETH_TYPE_QINQ)) && (18 <=? Z.of_nat (length frame)) then inner ← rd_be16 frame 16; Some (inner, 18) else Some (ty, 14)) ≫= f) = f (ty', off)).
  { destruct (_ && _); [destruct (rd_be16 frame 16); [|done]|]; injection Hin as <- <- <-; done. }
  destruct Hv as (Hs & Hf). apply yields_if; intros Hsize; [apply yields_some; by left|]. apply yields_if; intros Harp; [|apply yields_if; intros Hip].
  - intros s' Ha. left. by rewrite (arp_dhcp _ _ _ _ _ Ha).
  - unfold dhcp_step. rewrite <- Hs. unfold net_handle_ipv4. cbv zeta. yields_step; [apply yields_some; by left|]. do 4 yields_step. do 2 (yields_step; [apply yields_some; by left|]).
    yields_step; [|yields_step; [|apply yields_some; by left]].
    + unfold net_handle_tcp. yields_step. destruct a3 as [g|]; [|apply yields_some; by left]. yields_step; intros s' Hs'; left; [by rewrite (stream_segment_dhcp _ _ _ Hs')|by rewrite (get_segment_dhcp _ _ _ _ Hs')].
    + intros s' Hs'. destruct (udp_dhcp _ _ _ _ _ _ Hs') as [?|(len & R1 & R2 & R3 & R4)]; [by left|]. right. eexists _, (len - 8). split; [|exact R4].
      unfold frame_datagram. rewrite Hty. cbn [mbind option_bind]. rewrite Hf, Hip. rewrite H0. cbn [mbind option_bind]. rewrite R1, R2, R3. done.
  - apply yields_some. by left.
Qed.

Lemma leased_frame l index frame s s' : server_frame l frame -> leased l (dhcp_wait s) -> net_receive_frame index frame s = Some s' -> leased l (dhcp_wait s').
Proof.
  intros Hl Hw Hr. destruct (receive_dhcp index frame s s' Hr) as [->|(payload & size & Hd & yi & o & Hrep & Hty & _ & ->)]; [done|].
  intros _ Hwt. cbn in Hwt. eapply Hl; [exact Hd|exact Hrep|congruence].
Qed.
End frames.

(** ** The exchange *)

(** The configuration with a lease: what is 0 in it stays. *)
Definition or_old (v old : Z) : Z := if v =? 0 then old else v.

Section configure.
Context {E : Type} `{!NetDriver E} {I : E -> Prop} {P : list Z -> Prop} {rounds : Z -> nat} `{!NetPeer I P rounds} (l : lease).
Implicit Types s : net E.
Notation good := (good (I := I)).
Hypothesis P_server : forall frame, P frame -> server_frame l frame.

Definition leasing (_ : tcp_stream_t) (w : dhcp_wait_t) (_ : tcp_get_t) : Prop := leased l w.

Lemma leasing_keeps : keeps_frames (P := P) leasing.
Proof. intros index frame s s' Hp _ Hw Hr. eapply leased_frame; [by apply P_server|exact Hw|exact Hr]. Qed.

(** One message and its answer. *)
Lemma dhcp_exchange_ends fuel index ty wanted xid rip sip s : good (fun _ _ _ => True) s -> (rounds NET_TIMEOUT_TICKS < fuel)%nat ->
  gives (dhcp_exchange fuel index ty wanted xid rip sip s) (fun '(code, s') => good leasing s' /\ config_of (core s') = config_of (core s) /\
    next_local_port s' = next_local_port s /\ (code = 0 -> dw_found (dhcp_wait s') = true /\ dw_wanted_type (dhcp_wait s') = wanted)).
Proof.
  intros Hg Hf. unfold dhcp_exchange. set (s1 := set_dhcp_wait _ s). assert (Hg1 : good leasing s1) by (eapply good_set_dhcp; [exact Hg|by repeat split|by intros ?]).
  pose proof (silent_net_send_dhcp index ty xid rip sip s1) as Hs. destruct (net_send_dhcp index ty xid rip sip s1) as [code s2]. cbn [snd] in Hs.
  pose proof (good_silent leasing _ _ Hg1 Hs) as Hg2. assert (C2 : config_of (core s2) = config_of (core s)) by (rewrite (proj1 Hs); done).
  assert (P2 : next_local_port s2 = next_local_port s) by exact (f_equal co_next_local_port (proj1 Hs)).
  destruct (Z.eqb_spec code 0) as [->|]; cbn [negb]; [|cbn; split; [done|]; split; [done|]; by split].
  eapply gives_mono; [apply (wait_ends leasing leasing_keeps); [done|done|exact Hf]|]. intros [code s3] [[Hg3 K3] Hc]. split; [done|].
  split; [rewrite <- C2; exact (kept_config _ _ K3)|]. split; [rewrite <- P2; exact (kept_port _ _ K3)|]. intros ->. destruct Hc as [?|Hc]; [done|].
  destruct (dw_found (dhcp_wait s3)); [|done]. split; [done|]. destruct (kept_dhcp _ _ K3) as (_ & _ & _ & Kw). cbn in Kw. by rewrite Kw, (silent_dhcp _ _ Hs).
Qed.

(** The lease is taken, or the configuration is what it was. *)
Definition configured (code : Z) s s' : Prop :=
  net_ok s' /\ I (env s') /\ -3 <= code <= 0 /\ next_local_port s' = next_local_port s /\ net_poll_lock s' = net_poll_lock s /\
  if code =? 0 then local_ip s' = le_ip l /\ local_netmask s' = or_old (le_mask l) (local_netmask s) /\
    local_gateway s' = or_old (le_router l) (local_gateway s) /\ local_dns s' = or_old (le_dns l) (local_dns s)
  else local_ip s' = local_ip s /\ local_netmask s' = local_netmask s /\ local_gateway s' = local_gateway s /\ local_dns s' = local_dns s.

Lemma net_dhcp_configure_ends fuel index s : good (fun _ _ _ => True) s -> (rounds NET_TIMEOUT_TICKS < fuel)%nat ->
  gives (net_dhcp_configure fuel index s) (fun '(code, s') => configured code s s').
Proof.
  intros Hg Hf. unfold net_dhcp_configure. case_if; [cbn; by repeat split; try apply Hg|].
  pose proof (ok_config _ (proj1 Hg)) as (Hip & _). cbn in Hip. set (s0 := set_local_ip 0 s). assert (Hg0 : good (fun _ _ _ => True) s0) by (apply good_set_ip; [done|cint]).
  pose proof (ticks_later (fun _ _ _ => True) s0 Hg0) as Ht. destruct (ticks s0) as [now s1]. destruct Ht as [[Hg1 K1] _].
  set (xid := Z.lxor 0x44484350 (u32 now)). assert (C1 := kept_config _ _ K1). assert (N1 := kept_port _ _ K1). cbn in N1.
  assert (Hfail : forall u code, good leasing u -> config_of (core u) = config_of (core s0) -> next_local_port u = next_local_port s -> -3 <= code < 0 ->
    let '(c, s') := dhcp_failed (local_ip s) code u in configured c s s').
  { intros u code Hu Cu Nu Hc. unfold dhcp_failed, configured. rewrite (proj2 (Z.eqb_neq code 0)) by lia.
    assert (Hu1 : good (fun _ _ _ => True) (set_local_ip (local_ip s) (set_dhcp_wait (set_dw_active false (dhcp_wait u)) u))).
    { apply good_set_ip; [|done]. eapply good_set_dhcp; [exact Hu| |done]. exact (ok_dhcp _ (proj1 Hu)). }
    injection Cu as _ _ _ Cm Cg Cd Cl. split; [apply Hu1|]. split; [apply Hu1|]. split; [lia|]. split; [done|]. split; [done|]. by repeat split. }
  eapply gives_bind; [apply dhcp_exchange_ends; [done|exact Hf]|]. intros [code s2] (Hg2 & C2 & N2 & Hc2). cbn beta iota.
  destruct (Z.eqb_spec code 0) as [->|]; cbn [negb gives]; [|apply Hfail; [done|congruence|congruence|lia]].
  assert (Hg2' : good (fun _ _ _ => True) s2) by (eapply good_mono; [exact Hg2|done]).
  eapply gives_bind; [apply dhcp_exchange_ends; [exact Hg2'|exact Hf]|]. intros [code s3] (Hg3 & C3 & N3 & Hc3). cbn beta iota.
  destruct (Z.eqb_spec code 0) as [->|]; cbn [negb gives]; [|apply Hfail; [done|congruence|congruence|lia]].
  destruct (Hc3 eq_refl) as [Hfound Hwant]. pose proof (proj2 (proj2 Hg3) Hfound Hwant) as Hlease. set (w := dhcp_wait s3) in *.
  assert (Cfg : config_of (core s3) = config_of (core s0)) by congruence. injection Cfg as _ _ _ Cm Cg Cd Cl.
  pose proof (ok_dhcp _ (proj1 Hg3)) as (O1 & _ & O2 & O3 & O4). unfold configured. rewrite <- Hlease. cbn [le_ip le_mask le_router le_dns]. unfold or_old.
  assert (Hfin : good (fun _ _ _ => True) (set_dhcp_wait (set_dw_active false w)
    (let s := set_local_ip (dw_offered_ip w) s3 in let s := if dw_subnet_mask w =? 0 then s else set_local_netmask (dw_subnet_mask w) s in
     let s := if dw_router w =? 0 then s else set_local_gateway (dw_router w) s in if dw_dns w =? 0 then s else set_local_dns (dw_dns w) s))).
  { cbv zeta. eapply (good_set_dhcp (fun _ _ _ => True)); [|exact (ok_dhcp _ (proj1 Hg3))|done].
    assert (Ha : good (fun _ _ _ => True) (set_local_ip (dw_offered_ip w) s3)) by (apply good_set_ip; [by eapply good_mono; [exact Hg3|]|done]).
    assert (Hb : good (fun _ _ _ => True) (if dw_subnet_mask w =? 0 then set_local_ip (dw_offered_ip w) s3 else set_local_netmask (dw_subnet_mask w) (set_local_ip (dw_offered_ip w) s3)))
      by (destruct (dw_subnet_mask w =? 0); [done|by apply good_set_netmask]).
    destruct (dw_router w =? 0), (dw_dns w =? 0); try (by apply good_set_local_dns); try (by apply good_set_gateway); try done. apply good_set_local_dns; [by apply good_set_gateway|done]. }
  cbv zeta in Hfin. split; [apply Hfin|]. split; [apply Hfin|]. split; [lia|]. cbn [Z.eqb].
  destruct (dw_subnet_mask w =? 0), (dw_router w =? 0), (dw_dns w =? 0); cbn; repeat split; congruence.
Qed.
End configure.
