(* ===== verification/NetFrames.v ===== *)
(** Lookups of names, and frames that are sent: they have a legal size, their checksums are right,
    and a receiver takes them apart into what was sent. *)
From Stdlib Require Import ZArith Lia.
From stdpp Require Import base tactics option list numbers functions.
From S2P Require Import Prelude.
From S2P Require Import Buffer.
From S2P Require Import NetWire.
From S2P Require Import NetState.
From S2P Require Import NetHttp.
From S2P Require Import NetDns.
From S2P Require Import NetRecv.
From S2P Require Import NetSafe.
From S2P Require Import NetInvariant.
From S2P Require Import NetSession.
From S2P Require Import NetDhcp.
#[local] Open Scope Z_scope.

(** * Names: a lookup ends, whatever the servers answer, and leaves the
    configuration alone but for the server that answered; a query that is
    built is read back as the name it was built for. *)


Section resolve.
Context {E : Type} `{!NetDriver E} {I : E -> Prop} {P : list Z -> Prop} {rounds : Z -> nat} `{!NetPeer I P rounds} (Q : tcp_stream_t -> dhcp_wait_t -> tcp_get_t -> Prop).
Implicit Types s : net E.
Hypothesis QF : keeps_frames (P := P) Q.

(** The configuration but for the server. *)
Definition addresses s := (map device_id (devices s), device_count s, local_ip s, local_netmask s, local_gateway s, net_poll_lock s).

Definition asked s s' : Prop := good (I := I) Q s' /\ addresses s' = addresses s.

Lemma asked_refl s : good (I := I) Q s -> asked s s.
Proof. by split. Qed.
Lemma asked_trans s1 s2 s3 : asked s1 s2 -> asked s2 s3 -> asked s1 s3.
Proof. intros [_ E1] [G2 E2]. split; [done|congruence]. Qed.

Lemma config_addresses s s' : config_of (core s') = config_of (core s) -> addresses s' = addresses s.
Proof. intros H. injection H as H1 H2 H3 H4 H5 H6 H7. unfold addresses. congruence. Qed.

Lemma later_asked s s' : later (I := I) Q s s' -> asked s s'.
Proof. intros [Hg K]. split; [done|]. by apply config_addresses, kept_config. Qed.

Lemma dns_wait_loop_ends fuel n index start s : good (I := I) Q s -> expires start NET_TIMEOUT_TICKS n (env s) -> (n < fuel)%nat ->
  gives (dns_wait_loop fuel index start s) (fun '(_, s') => later (I := I) Q s s').
Proof.
  revert n s. induction fuel as [|fuel IH]; intros n s Hg Hx Hn; [lia|]. cbn [dns_wait_loop].
  pose proof (ticks_expires Q start NET_TIMEOUT_TICKS n s Hg Hx) as Ht. destruct (ticks s) as [now s1]. destruct Ht as [Hl1 Ht].
  destruct (Z.ltb_spec (u64 (now - start)) NET_TIMEOUT_TICKS); [|done]. destruct Ht as [?|(n' & -> & Hx1)]; [lia|].
  eapply gives_bind; [apply net_progress_device_follows; [done|apply Hl1]|]. intros s2 Hf. assert (Hl2 : later (I := I) Q s s2) by (eapply later_trans; [done|by apply follows_later]).
  case_if; [done|]. case_if; [done|]. eapply gives_mono; [eapply (IH n'); [apply Hl2|eapply expires_quiet; [apply Hf|done]|lia]|]. intros [a s3] Hl3. by eapply later_trans.
Qed.

Lemma dns_ask_ends fuel index server name s : good (I := I) Q s -> is_u32 server -> (rounds NET_TIMEOUT_TICKS < fuel)%nat ->
  gives (dns_ask fuel index server name s) (fun '(r, _, s') => asked s s' /\ match r with AttemptFailed e => 3 <= e <= 6 | _ => True end).
Proof.
  intros Hg Hu Hf. unfold dns_ask. case_if; [split; [by apply asked_refl|lia]|].
  eapply gives_bind; [by apply net_arp_resolve_ends|]. intros [[code mac] s1] (Hg1 & C1 & _ & _ & _ & _). assert (A1 : asked s s1) by (split; [done|by apply config_addresses]).
  case_if; [split; [done|lia]|]. set (s2 := set_next_local_port _ s1). assert (Hg2 : good (I := I) Q s2) by (apply good_set_port; [done|]; apply Z.mod_pos_bound; lia).
  pose proof (ticks_later Q s2 Hg2) as Ht. destruct (ticks s2) as [now s3]. destruct Ht as [Hl3 _]. assert (A3 : asked s s3) by (eapply asked_trans; [exact A1|]; exact (later_asked s2 s3 Hl3)).
  destruct (net_build_dns_query _ _ _) as [query|]; [|by split].
  match goal with |- context [net_send_udp ?a1 ?a2 ?a3 ?a4 ?a5 ?a6 ?a7] => pose proof (silent_net_send_udp a1 a2 a3 a4 a5 a6 a7) as Hs; set (s4 := a7) in *; destruct (net_send_udp a1 a2 a3 a4 a5 a6 s4) as [code' s5] end.
  cbn [snd] in Hs. assert (Hg4 : good (I := I) Q s4). { eapply (good_silent Q); [|apply silent_bump]. by apply good_set_dns; [apply A3| |repeat constructor]. }
  assert (A5 : asked s s5). { split; [by eapply good_silent|]. rewrite (config_addresses s4 s5) by by rewrite (proj1 Hs). exact (proj2 A3). }
  assert (Hoff : forall u, asked s u -> asked s (set_dns_wait (set_nw_active false (dns_wait u)) u)).
  { intros u [Hgu Au]. pose proof (ok_cname _ (proj1 Hgu)) as [L1 L2]. split; [by apply good_set_dns|done]. }
  assert (Hserver : forall u, asked s u -> asked s (set_local_dns server u)) by (intros u [Hgu Au]; split; [by apply good_set_local_dns|done]).
  case_if; [split; [by apply Hoff|lia]|].
  pose proof (ticks_later Q s5 (proj1 A5)) as Ht. destruct (ticks s5) as [start s6]. destruct Ht as [Hl6 Hx].
  eapply gives_bind; [eapply dns_wait_loop_ends; [apply Hl6|by apply Hx|exact Hf]|]. intros [answer s7] Hl7.
  assert (A7 : asked s s7) by (eapply asked_trans; [exact A5|]; apply later_asked; by eapply later_trans). apply Hoff in A7.
  destruct answer as [ip|nm|]; [split; [by apply Hserver|done]| |split; [done|lia]]. case_if; [split; [done|lia]|split; [by apply Hserver|done]].
Qed.

Lemma dns_servers_loop_ends fuel index servers tried name e s : good (I := I) Q s -> Forall is_u32 servers -> (rounds NET_TIMEOUT_TICKS < fuel)%nat -> 0 <= e <= 6 ->
  gives (dns_servers_loop fuel index servers tried name e s) (fun '(r, _, e', s') => asked s s' /\ 0 <= e' <= 6 /\ match r with AttemptFailed e => 0 <= e <= 6 | _ => True end).
Proof.
  intros Hg Hs Hf. revert tried name e s Hg. induction Hs as [|sv servers Hsv Hs IH]; intros tried name e s Hg He; cbn [dns_servers_loop]; [by split; [apply asked_refl|]|].
  case_if; [by apply IH|]. eapply gives_bind; [by apply dns_ask_ends|]. intros [[r name'] s1] [A1 Hr]. destruct r as [ip| |e'|]; try (by split).
  eapply gives_mono; [apply IH; [apply A1|lia]|]. intros [[[r2 n2] e2] s2] [A2 H2]. split; [by eapply asked_trans|done].
Qed.

Lemma net_dns_resolve_ends fuel index name s : good (I := I) Q s -> (rounds NET_TIMEOUT_TICKS < fuel)%nat ->
  gives (net_dns_resolve fuel index name s) (fun '(code, _, s') => asked s s' /\ -6 <= code <= 0).
Proof.
  intros Hg Hf. unfold net_dns_resolve. case_if; [split; [by apply asked_refl|lia]|]. destruct (net_hostname_is_ipv4 name); [split; [by apply asked_refl|lia]|].
  case_if; [split; [by apply asked_refl|lia]|]. pose proof (ok_config _ (proj1 Hg)) as (_ & _ & _ & Hd). cbn in Hd.
  assert (Hs : Forall is_u32 [local_dns s; NET_FALLBACK_DNS_PRIMARY; NET_FALLBACK_DNS_SECONDARY]) by (repeat constructor; try apply Hd; done).
  generalize 5%nat as depth. intros depth. assert (He : 0 <= (if local_dns s =? 0 then 2 else 6) <= 6) by (destruct (local_dns s =? 0); lia).
  revert Hs He. generalize [local_dns s; NET_FALLBACK_DNS_PRIMARY; NET_FALLBACK_DNS_SECONDARY] as servers. generalize (if local_dns s =? 0 then 2 else 6) as e. clear Heqb Heqb0 Hd.
  intros e servers Hs He. revert name e s Hg He. induction depth as [|depth IH]; intros name e s Hg He; cbn [dns_depth_loop]; [split; [by apply asked_refl|lia]|].
  eapply gives_bind; [by apply dns_servers_loop_ends|]. intros [[[r name'] e'] s1] (A1 & He' & Hr). destruct r as [ip| |e2|]; try (split; [done|lia]).
  eapply gives_mono; [apply IH; [apply A1|done]|]. intros [[code ip] s2] [A2 Hc]. split; [by eapply asked_trans|done].
Qed.
End resolve.

(** ** Queries are read back *)

(** The labels of a name on the wire. *)
Definition enc_labels (ls : list (list Z)) : list Z := concat (map (fun l => Z.of_nat (length l) :: l) ls).

(** Labels behind a text, with dots between them. *)
Definition dotted (text l : list Z) : list Z := match text with [] => l | _ => text ++ 46 :: l end.
Definition join_labels (text : list Z) (ls : list (list Z)) : list Z := foldl dotted text ls.

Definition label_ok (l : list Z) : Prop := 1 <= Z.of_nat (length l) <= 63.

Lemma rd8_mid pre x post : rd8 (pre ++ x :: post) (Z.of_nat (length pre)) = Some x.
Proof. rewrite rd8_app_r by lia. by rewrite Z.sub_diag. Qed.

Lemma rd_block_mid pre l post : rd_block (pre ++ l ++ post) (Z.of_nat (length pre)) (Z.of_nat (length l)) = Some l.
Proof. rewrite rd_block_some by (rewrite ?length_app; lia). rewrite !Nat2Z.id, drop_app_length. by rewrite take_app_length. Qed.

(** A buffer that holds a text and its terminator. *)
Definition holds (buf text : list Z) : Prop := exists rest, buf = text ++ 0 :: rest.

Lemma put_terminated a r b : (length b < length r)%nat ->
  (buf ← wr_block (a ++ r) (Z.of_nat (length a)) b; wr8 buf (Z.of_nat (length a) + Z.of_nat (length b)) 0) = Some (a ++ b ++ 0 :: drop (S (length b)) r).
Proof.
  intros Hl. rewrite wr_block_Some by (rewrite ?length_app; lia). cbn [mbind option_bind]. rewrite Nat2Z.id, take_app_length, drop_app_add.
  destruct (lookup_lt_is_Some_2 r (length b) Hl) as [y Hy]. rewrite (drop_S _ _ _ Hy).
  rewrite wr8_Some by (rewrite !length_app; cbn [length]; lia). f_equal. replace (Z.to_nat _) with (length a + length b)%nat by lia. rewrite insert_app_r. f_equal.
  rewrite <- (Nat.add_0_r (length b)) at 1. by rewrite insert_app_r.
Qed.

Lemma put_label_holds buf text l : holds buf text -> l <> [] -> (length (dotted text l) < length buf)%nat ->
  exists buf', put_label buf (Z.of_nat (length text)) l = Some (buf', Z.of_nat (length (dotted text l)), true) /\ holds buf' (dotted text l) /\ length buf' = length buf.
Proof.
  intros [rest ->] Hne Hlen. unfold put_label. rewrite length_app in *. cbn [length] in *.
  destruct text as [|c text].
  - cbn [dotted length app] in *. change (Z.of_nat 0 =? 0) with true. cbn [negb andb mbind option_bind]. rewrite (proj2 (Z.leb_gt _ _)) by lia.
    pose proof (put_terminated [] (0 :: rest) l ltac:(cbn [length]; lia)) as Hput. cbn [length app Z.of_nat Z.add] in Hput.
    destruct (wr_block (0 :: rest) (Z.of_nat 0) l) as [b|]; [|done]. cbn [mbind option_bind] in Hput |- *. rewrite Hput. cbn [mbind option_bind]. eexists. split; [done|]. split; [by eexists|].
    rewrite length_app. cbn [length]. rewrite length_drop. cbn [length]. lia.
  - change (dotted (c :: text) l) with ((c :: text) ++ 46 :: l) in *. assert (Ht : (0 < length (c :: text))%nat) by (cbn; lia). revert Ht Hlen. generalize (c :: text) as t. intros t Ht Hlen.
    rewrite (proj2 (Z.eqb_neq _ 0)) by lia. cbn [negb andb]. rewrite length_app in Hlen. cbn [length] in Hlen. rewrite (proj2 (Z.leb_gt _ _)) by lia.
    rewrite wr8_Some by (rewrite length_app; cbn [length]; lia). cbn [mbind option_bind]. rewrite (proj2 (Z.leb_gt _ _)) by lia.
    assert (Hins : <[Z.to_nat (Z.of_nat (length t)) := 46]> (t ++ 0 :: rest) = (t ++ [46]) ++ rest).
    { rewrite Nat2Z.id, <- (Nat.add_0_r (length t)), insert_app_r, <- app_assoc. done. }
    rewrite Hins. replace (Z.of_nat (length t) + 1) with (Z.of_nat (length (t ++ [46]))) by (rewrite length_app; cbn [length]; lia).
    pose proof (put_terminated (t ++ [46]) rest l ltac:(lia)) as Hput. destruct (wr_block ((t ++ [46]) ++ rest) _ l) as [b|]; [|done]. cbn [mbind option_bind] in Hput |- *.
    rewrite Hput. cbn [mbind option_bind]. eexists. split; [|split; [eexists; by rewrite <- !app_assoc|]].
    + replace (Z.of_nat (length (t ++ [46])) + Z.of_nat (length l)) with (Z.of_nat (length (t ++ 46 :: l))) by (rewrite !length_app; cbn [length]; lia). rewrite <- !app_assoc. done.
    + rewrite !length_app. cbn [length]. rewrite length_drop. lia.
Qed.

Lemma land_label len : 1 <= len <= 63 -> Z.land len 0xC0 = 0.
Proof.
  intros Hl. apply Z.bits_inj'. intros i Hi. rewrite Z.land_spec, Z.bits_0. destruct (Z.lt_ge_cases i 6).
  - replace (Z.testbit 0xC0 i) with false; [apply andb_false_r|]. assert (i = 0 \/ i = 1 \/ i = 2 \/ i = 3 \/ i = 4 \/ i = 5) as [-> | [-> | [-> | [-> | [-> | ->]]]]] by lia; done.
  - rewrite (Z.bits_above_log2 len i); [done|lia|]. apply Z.log2_lt_pow2; [lia|]. assert (2 ^ 6 <= 2 ^ i) by (apply Z.pow_le_mono_r; lia). lia.
Qed.

Lemma length_join text ls : (length text <= length (join_labels text ls))%nat.
Proof.
  revert text. induction ls as [|l ls IH]; intros text; [done|]. change (join_labels text (l :: ls)) with (join_labels (dotted text l) ls). specialize (IH (dotted text l)).
  assert (length text <= length (dotted text l))%nat by (destruct text; cbn [dotted length]; [lia|rewrite length_app; cbn [length]; lia]). lia.
Qed.

Lemma name_loop_labels ls pre post buf text fuel : Forall label_ok ls -> holds buf text -> (length (join_labels text ls) < length buf)%nat -> (length ls < fuel)%nat ->
  let payload := pre ++ enc_labels ls ++ 0 :: post in
  exists buf', name_loop fuel payload (Z.of_nat (length payload)) (Z.of_nat (length pre)) (Some buf) (Z.of_nat (length text)) 0 0 =
    Some (NameResult true (Z.of_nat (length pre + length (enc_labels ls) + 1)) (Some buf')) /\ holds buf' (join_labels text ls) /\ length buf' = length buf.
Proof.
  intros Hls. revert pre buf text fuel. induction Hls as [|l ls Hl Hls IH]; intros pre buf text fuel Hb Hlen Hf; (destruct fuel as [|fuel]; [lia|]); cbn zeta; cbn [name_loop].
  - rewrite (proj2 (Z.leb_gt _ _)) by (rewrite !length_app; cbn [length]; lia). cbn [enc_labels map concat app]. rewrite rd8_mid. cbn [mbind option_bind]. exists buf. split; [|done].
    cbn [Z.eqb]. do 3 f_equal. cbn [length]. lia.
  - change (enc_labels (l :: ls)) with ((Z.of_nat (length l) :: l) ++ enc_labels ls). rewrite <- app_assoc. cbn [app]. set (rest := l ++ enc_labels ls ++ 0 :: post).
    rewrite (proj2 (Z.leb_gt _ _)) by (rewrite !length_app; cbn [length]; lia). rewrite rd8_mid. cbn [mbind option_bind]. unfold label_ok in Hl.
    rewrite (proj2 (Z.eqb_neq (Z.of_nat (length l)) 0)) by lia. rewrite land_label by done. cbn [Z.eqb negb orb]. rewrite (proj2 (Z.ltb_ge 63 _)) by lia. cbn [orb].
    rewrite (proj2 (Z.ltb_ge _ _)) by (rewrite !length_app; cbn [length]; unfold rest; rewrite length_app; lia). destruct buf as [|b0 buf0] eqn:Eb; [cbn [length] in Hlen; lia|]. rewrite <- Eb in *.
    replace (pre ++ Z.of_nat (length l) :: rest) with ((pre ++ [Z.of_nat (length l)]) ++ l ++ enc_labels ls ++ 0 :: post) by (unfold rest; by rewrite <- app_assoc).
    replace (Z.of_nat (length pre) + 1) with (Z.of_nat (length (pre ++ [Z.of_nat (length l)]))) by (rewrite length_app; cbn [length]; lia). rewrite rd_block_mid. cbn [mbind option_bind].
    change (join_labels text (l :: ls)) with (join_labels (dotted text l) ls) in *. pose proof (length_join (dotted text l) ls).
    destruct (put_label_holds buf text l) as (buf' & Hput & Hh & Hbl); [done|intros ->; cbn [length] in Hl; lia|lia|]. rewrite Hput. cbn [mbind option_bind].
    specialize (IH ((pre ++ [Z.of_nat (length l)]) ++ l) buf' (dotted text l) fuel Hh ltac:(lia) ltac:(cbn [length] in Hf; lia)). cbn zeta in IH. rewrite <- (app_assoc _ l) in IH.
    destruct IH as (buf2 & Hrun & Hh2 & Hbl2). exists buf2. split; [|split; [done|congruence]].
    replace (Z.of_nat (length (pre ++ [Z.of_nat (length l)])) + Z.of_nat (length l)) with (Z.of_nat (length ((pre ++ [Z.of_nat (length l)]) ++ l))) by (rewrite !length_app; lia).
    rewrite Hrun. do 3 f_equal. rewrite !length_app. cbn [length]. rewrite length_app. lia.
Qed.

Lemma query_loop_labels name label acc cap r : query_loop label name acc cap = Some r ->
  exists ls, r = acc ++ enc_labels ls /\ Forall label_ok ls /\ forall text, join_labels text ls = dotted text (label ++ name).
Proof.
  assert (Hadd : forall label acc r, add_label label acc cap = Some r -> r = acc ++ Z.of_nat (length label) :: label /\ label_ok label).
  { intros l a r'. unfold add_label. destruct (_ || _) eqn:Ec; [done|]. intros [= <-]. bool_prop. split; [done|]. unfold label_ok. lia. }
  revert label acc r. induction name as [|c name IH]; intros label acc r; cbn [query_loop].
  - intros H. apply Hadd in H as [-> Hl]. exists [label]. split; [cbn; by rewrite app_nil_r|]. split; [by constructor|]. intros text. by rewrite app_nil_r.
  - destruct (Z.eqb_spec c 46) as [->|].
    + destruct (add_label label acc cap) as [acc'|] eqn:Ea; [|done]. apply Hadd in Ea as [-> Hl]. intros H. apply IH in H as (ls & -> & Hls & Hj). exists (label :: ls).
      split; [by rewrite <- app_assoc|]. split; [by constructor|]. intros text. change (join_labels text (label :: ls)) with (join_labels (dotted text label) ls). rewrite Hj.
      assert (Hne : label <> []) by (intros ->; unfold label_ok in Hl; cbn in Hl; lia). destruct text as [|t0 text]; cbn [dotted app].
      * by destruct label.
      * by rewrite <- app_assoc.
    + intros H. apply IH in H as (ls & -> & Hls & Hj). exists ls. split; [done|]. split; [done|]. intros text. by rewrite Hj, <- app_assoc.
Qed.

Lemma length_enc_labels ls : Forall label_ok ls -> (length ls <= length (enc_labels ls))%nat.
Proof. induction 1 as [|l ls Hl Hls IH]; [done|]. cbn [enc_labels map concat length app]. rewrite length_app. unfold enc_labels in IH. lia. Qed.

(** The question of a query is its name, and behind it come type and class. *)
Lemma query_reads_back name id q : net_build_dns_query name id 256 = Some q -> (length name < 128)%nat ->
  exists buf, net_dns_read_name q (Z.of_nat (length q)) 12 (Some (replicate (Z.to_nat NET_DNS_NAME_SIZE) 0)) =
    Some (NameResult true (Z.of_nat (length q) - 4) (Some buf)) /\ holds buf name.
Proof.
  unfold net_build_dns_query. destruct name as [|c name]; [done|]. cbn [Z.ltb Z.compare]. destruct (query_loop [] (c :: name) (query_header id) 256) as [acc|] eqn:Eq; [|done].
  cbn [mbind option_bind]. intros [= <-] Hlen. apply query_loop_labels in Eq as (ls & -> & Hls & Hj). specialize (Hj []). cbn [dotted app] in Hj.
  rewrite <- app_assoc. pose proof (length_enc_labels ls Hls) as Hn.
  assert (Hq : length (query_header id ++ enc_labels ls ++ [0; 0; 1; 0; 1]) = (12 + length (enc_labels ls) + 5)%nat) by (rewrite !length_app; cbn; lia).
  destruct (name_loop_labels ls (query_header id) [0; 1; 0; 1] (0 :: replicate 127 0) [] (S (Z.to_nat (9 * (Z.of_nat (12 + length (enc_labels ls) + 5) + 1)))) Hls) as (buf & Hrun & Hh & _).
  - by eexists.
  - rewrite Hj. cbn [length] in *. rewrite length_replicate. lia.
  - lia.
  - exists buf. split; [|by rewrite <- Hj]. unfold net_dns_read_name. rewrite Hq in *. rewrite (proj2 (Z.leb_gt _ _)) by lia.
    change (Z.of_nat (length (query_header id))) with 12 in Hrun. change (Z.of_nat (length (@nil Z))) with 0 in Hrun. etransitivity; [exact Hrun|]. do 2 f_equal. change (length (query_header id)) with 12%nat. lia.
Qed.

(** * Frames *)


(** ** Reads behind a prefix *)

Lemma rd16_app_r l k i : Z.of_nat (length l) <= i -> rd16 (l ++ k) i = rd16 k (i - Z.of_nat (length l)).
Proof. intros Hi. unfold rd16. rewrite !(rd8_app_r l) by lia. by replace (i + 1 - Z.of_nat (length l)) with (i - Z.of_nat (length l) + 1) by lia. Qed.

Lemma rd32_app_r l k i : Z.of_nat (length l) <= i -> rd32 (l ++ k) i = rd32 k (i - Z.of_nat (length l)).
Proof.
  intros Hi. unfold rd32. rewrite !(rd8_app_r l) by lia. replace (i + 1 - Z.of_nat (length l)) with (i - Z.of_nat (length l) + 1) by lia.
  replace (i + 2 - Z.of_nat (length l)) with (i - Z.of_nat (length l) + 2) by lia. by replace (i + 3 - Z.of_nat (length l)) with (i - Z.of_nat (length l) + 3) by lia.
Qed.

Lemma rd_block_app_r l k i n : Z.of_nat (length l) <= i -> rd_block (l ++ k) i n = rd_block k (i - Z.of_nat (length l)) n.
Proof.
  intros Hi. unfold rd_block. rewrite length_app. destruct (Z.ltb_spec i 0), (Z.ltb_spec (i - Z.of_nat (length l)) 0); try lia. cbn [orb].
  destruct (Z.ltb_spec n 0); [done|]. cbn [orb]. destruct (Z.ltb_spec (Z.of_nat (length l + length k)) (i + n)), (Z.ltb_spec (Z.of_nat (length k)) (i - Z.of_nat (length l) + n)); try lia; [done|].
  f_equal. f_equal. rewrite skipn_app, (drop_ge l) by lia. cbn [app]. f_equal. lia.
Qed.

(** ** Headers *)

Section ip.
Context (total id proto src dst : Z) (seg : list Z).
Hypothesis Htotal : 0 <= total < 65536.
Hypothesis Hsrc : is_u32 src.
Hypothesis Hdst : is_u32 dst.

Definition packet : list Z := ipv4_header total id proto src dst ++ seg.

Lemma packet_version : rd8 packet 0 = Some 0x45.
Proof. done. Qed.
Lemma packet_total : rd16 packet 2 = Some total.
Proof. exact (rd16_put [0x45; 0] total _ Htotal). Qed.
Lemma packet_proto : rd8 packet 9 = Some proto.
Proof. done. Qed.
Lemma packet_src : rd32 packet 12 = Some src.
Proof. set (c := net_checksum (ipv4_header_with 0 total id proto src dst)). exact (rd32_put ([0x45; 0] ++ put16 total ++ put16 id ++ put16 0x4000 ++ [64; proto] ++ put16 c) src _ Hsrc). Qed.
Lemma packet_dst : rd32 packet 16 = Some dst.
Proof. set (c := net_checksum (ipv4_header_with 0 total id proto src dst)). exact (rd32_put ([0x45; 0] ++ put16 total ++ put16 id ++ put16 0x4000 ++ [64; proto] ++ put16 c ++ put32 src) dst _ Hdst). Qed.
End ip.

(** The payload of a frame. *)
Definition ip_frame (dst_mac src_mac ip : list Z) : list Z := pad_frame (eth_header dst_mac src_mac NET_ETH_TYPE_IPV4 ++ ip).

Lemma ip_frame_shape dst_mac src_mac ip : length dst_mac = 6%nat -> length src_mac = 6%nat ->
  exists pad, ip_frame dst_mac src_mac ip = eth_header dst_mac src_mac NET_ETH_TYPE_IPV4 ++ ip ++ pad /\ rd16 (ip_frame dst_mac src_mac ip) 12 = Some NET_ETH_TYPE_IPV4 /\
    drop 14 (ip_frame dst_mac src_mac ip) = ip ++ pad /\ bytes pad.
Proof.
  intros Hd Hs. unfold ip_frame, pad_frame. set (pad := replicate _ 0). exists pad. rewrite <- app_assoc. split; [done|]. unfold eth_header. split; [|split].
  - rewrite <- !app_assoc. rewrite (app_assoc dst_mac src_mac). replace 12 with (Z.of_nat (length (dst_mac ++ src_mac))) by (rewrite length_app; lia). by apply rd16_put.
  - apply drop_app_length'. rewrite !length_app, length_put16. lia.
  - apply Forall_replicate. unfold is_u8. lia.
Qed.

(** The size of a frame that holds an IP packet. *)
Lemma ip_frame_size dst_mac src_mac ip : length dst_mac = 6%nat -> length src_mac = 6%nat -> 14 + Z.of_nat (length ip) <= NET_MAX_FRAME_SIZE ->
  NET_MIN_FRAME_SIZE <= Z.of_nat (length (ip_frame dst_mac src_mac ip)) <= NET_MAX_FRAME_SIZE.
Proof.
  intros Hd Hs Hl. unfold ip_frame, pad_frame, eth_header, NET_MIN_FRAME_SIZE, NET_MAX_FRAME_SIZE in *. rewrite length_app, length_replicate, !length_app, length_put16. lia.
Qed.

Lemma bytes_ip_frame dst_mac src_mac ip : bytes dst_mac -> bytes src_mac -> bytes ip -> bytes (ip_frame dst_mac src_mac ip).
Proof.
  intros Hd Hs Hi. unfold ip_frame, pad_frame, eth_header. repeat apply Forall_app_2; try done; [apply bytes_put16|]. apply Forall_replicate. unfold is_u8. lia.
Qed.

Lemma bytes_ipv4_header total id proto src dst : is_u8 proto -> bytes (ipv4_header total id proto src dst).
Proof. intros Hp. unfold ipv4_header, ipv4_header_with. bytes_fields. Qed.

(** ** TCP *)

Section tcp.
Context (src_ip dst_ip src_port dst_port seq ack flags window id : Z) (payload pad : list Z).
Hypothesis Hsrc : is_u32 src_ip.
Hypothesis Hdst : is_u32 dst_ip.
Hypothesis Hsp : is_port src_port.
Hypothesis Hdp : is_port dst_port.
Hypothesis Hseq : is_u32 seq.
Hypothesis Hack : is_u32 ack.
Hypothesis Hlen : 40 + Z.of_nat (length payload) < 65536.

Lemma tcp_packet_segment : parse_segment (packet (40 + Z.of_nat (length payload)) id NET_IP_PROTO_TCP src_ip dst_ip (tcp_segment src_ip dst_ip src_port dst_port seq ack flags window payload) ++ pad)
    20 (40 + Z.of_nat (length payload)) = Some (Some (Segment src_ip src_port dst_port seq ack flags payload)).
Proof.
  unfold packet. set (hdr := ipv4_header _ _ _ _ _). assert (Hh : length hdr = 20%nat) by done. rewrite <- app_assoc. unfold tcp_segment. set (c := net_checksum_finish _). clearbody c.
  unfold parse_segment. rewrite (proj2 (Z.ltb_ge _ _)) by lia. rewrite (rd8_app_r hdr _ (20 + 12)) by (rewrite Hh; lia). rewrite Hh. change (20 + 12 - Z.of_nat 20) with 12.
  change (rd8 (tcp_segment_with c src_port dst_port seq ack flags window payload ++ pad) 12) with (Some 0x50). cbn [mbind option_bind]. change (Z.shiftr 0x50 4 * 4) with 20. change (20 <? 20) with false. cbn [orb].
  rewrite (proj2 (Z.ltb_ge _ _)) by lia. rewrite (packet_src (40 + Z.of_nat (length payload)) id NET_IP_PROTO_TCP src_ip dst_ip (tcp_segment_with c src_port dst_port seq ack flags window payload ++ pad) Hsrc : rd32 (hdr ++ _) 12 = _). cbn [mbind option_bind].
  rewrite !(rd16_app_r hdr), !(rd32_app_r hdr), (rd8_app_r hdr), rd_block_app_r by (rewrite Hh; lia). rewrite Hh.
  change (20 - Z.of_nat 20) with 0. change (20 + 2 - Z.of_nat 20) with 2. change (20 + 4 - Z.of_nat 20) with 4. change (20 + 8 - Z.of_nat 20) with 8. change (20 + 13 - Z.of_nat 20) with 13. change (20 + 20 - Z.of_nat 20) with 20.
  set (tail := [0x50; flags] ++ put16 window ++ put16 c ++ put16 0 ++ payload ++ pad).
  set (K := tcp_segment_with c src_port dst_port seq ack flags window payload ++ pad).
  assert (R1 : rd16 K 0 = Some src_port) by exact (rd16_put [] src_port (put16 dst_port ++ put32 seq ++ put32 ack ++ tail) Hsp).
  assert (R2 : rd16 K 2 = Some dst_port) by exact (rd16_put (put16 src_port) dst_port (put32 seq ++ put32 ack ++ tail) Hdp).
  assert (R3 : rd32 K 4 = Some seq) by exact (rd32_put (put16 src_port ++ put16 dst_port) seq (put32 ack ++ tail) Hseq).
  assert (R4 : rd32 K 8 = Some ack) by exact (rd32_put (put16 src_port ++ put16 dst_port ++ put32 seq) ack tail Hack).
  assert (R5 : rd8 K 13 = Some flags) by done.
  assert (R6 : rd_block K 20 (Z.of_nat (length payload)) = Some payload)
    by exact (rd_block_mid (put16 src_port ++ put16 dst_port ++ put32 seq ++ put32 ack ++ [0x50; flags] ++ put16 window ++ put16 c ++ put16 0) payload pad).
  replace (40 + Z.of_nat (length payload) - 20 - 20) with (Z.of_nat (length payload)) by lia. rewrite R1, R2. cbn [mbind option_bind]. rewrite R3, R4, R5, R6. done.
Qed.
End tcp.

(** ** UDP *)

Section udp.
Context (src_ip dst_ip src_port dst_port id : Z) (payload pad : list Z).
Hypothesis Hsp : is_port src_port.
Hypothesis Hdp : is_port dst_port.
Hypothesis Hlen : 28 + Z.of_nat (length payload) < 65536.

Let ip := packet (28 + Z.of_nat (length payload)) id NET_IP_PROTO_UDP src_ip dst_ip (udp_segment src_ip dst_ip src_port dst_port payload) ++ pad.

Lemma udp_packet_fields : rd16 ip 20 = Some src_port /\ rd16 ip 22 = Some dst_port /\ rd16 ip 24 = Some (8 + Z.of_nat (length payload)) /\ drop 28 ip = payload ++ pad.
Proof.
  unfold ip, packet. set (hdr := ipv4_header _ _ _ _ _). assert (Hh : length hdr = 20%nat) by done. rewrite <- app_assoc. unfold udp_segment. set (c := net_checksum_finish _). clearbody c.
  unfold udp_segment_with. assert (Hu : u16 (8 + Z.of_nat (length payload)) = 8 + Z.of_nat (length payload)) by (apply Z.mod_small; lia). rewrite Hu.
  rewrite !(rd16_app_r hdr) by (rewrite Hh; lia). rewrite Hh. change (20 - Z.of_nat 20) with 0. change (22 - Z.of_nat 20) with 2. change (24 - Z.of_nat 20) with 4.
  set (len := 8 + Z.of_nat (length payload)) in *. set (K := (put16 src_port ++ put16 dst_port ++ put16 len ++ put16 c ++ payload) ++ pad).
  split; [exact (rd16_put [] src_port (put16 dst_port ++ put16 len ++ put16 c ++ payload ++ pad) Hsp)|].
  split; [exact (rd16_put (put16 src_port) dst_port (put16 len ++ put16 c ++ payload ++ pad) Hdp)|].
  split; [apply (rd16_put (put16 src_port ++ put16 dst_port) len (put16 c ++ payload ++ pad)); unfold len; lia|].
  by change 28%nat with (20 + 8)%nat; rewrite <- Hh, drop_app_add.
Qed.
End udp.

(** ** Sending *)

Section send.
Context {E : Type} `{!NetDriver E}.
Implicit Types s : net E.

Lemma device_mac_ok index s dev : net_ok s -> net_get_device index s = Some dev -> mac_ok (nd_mac dev).
Proof.
  intros Hok Hd. apply net_get_device_Some in Hd. pose proof (ok_macs _ Hok) as Hm. rewrite Forall_elem in Hm.
  apply (Hm (device_id dev)). apply list_elem_of_fmap. exists dev. split; [done|by eapply list_elem_of_lookup_2].
Qed.

(** The checksums a receiver computes over a frame are 0. *)
Definition ip_checks (frame : list Z) : Prop := net_checksum (take 20 (drop 14 frame)) = 0.
Definition segment_checks (proto src dst size : Z) (frame : list Z) : Prop :=
  net_checksum_finish (net_checksum_add (pseudo_sum src dst proto size) (take (Z.to_nat size) (drop 34 frame))) = 0.

Definition frame_ok (frame : list Z) : Prop := bytes frame /\ NET_MIN_FRAME_SIZE <= Z.of_nat (length frame) <= NET_MAX_FRAME_SIZE /\ ip_checks frame.

Lemma ip_frame_ok dst_mac src_mac total id proto src dst seg : mac_ok dst_mac -> mac_ok src_mac -> is_u8 proto -> bytes seg -> 34 + Z.of_nat (length seg) <= NET_MAX_FRAME_SIZE ->
  let frame := ip_frame dst_mac src_mac (packet total id proto src dst seg) in
  frame_ok frame /\ exists pad, drop 14 frame = packet total id proto src dst seg ++ pad /\ take (length seg) (drop 34 frame) = seg /\ rd16 frame 12 = Some NET_ETH_TYPE_IPV4.
Proof.
  intros [D1 D2] [S1 S2] Hp Hb Hl frame. assert (Hh : length (ipv4_header total id proto src dst) = 20%nat) by done.
  destruct (ip_frame_shape dst_mac src_mac (packet total id proto src dst seg) D1 S1) as (pad & Hsh & Hty & Hdrop & Hpad). fold frame in Hsh, Hty, Hdrop.
  assert (H34 : drop 34 frame = seg ++ pad). { change 34%nat with (14 + 20)%nat. rewrite <- drop_drop, Hdrop. unfold packet. rewrite <- app_assoc. by apply drop_app_length'. }
  split; [split; [|split]|].
  - apply bytes_ip_frame; [done|done|]. apply Forall_app_2; [by apply bytes_ipv4_header|done].
  - apply ip_frame_size; [done|done|]. unfold packet. rewrite length_app, Hh. lia.
  - unfold ip_checks. rewrite Hdrop. unfold packet. rewrite <- app_assoc, take_app_length' by done. by apply ipv4_header_checks.
  - exists pad. split; [done|]. split; [|done]. rewrite H34. apply take_app_length.
Qed.

Lemma net_send_tcp_window_frame index dst_mac dst_ip sp dp seq ack flags window payload s dev :
  net_ok s -> net_get_device index s = Some dev -> mac_ok dst_mac -> is_u32 dst_ip -> is_port sp -> is_port dp -> is_u32 seq -> is_u32 ack -> is_u8 flags -> bytes payload ->
  54 + Z.of_nat (length payload) <= NET_MAX_FRAME_SIZE ->
  exists frame, net_send_tcp_window index dst_mac dst_ip sp dp seq ack flags window payload s = net_send_frame index frame (set_next_ip_id (u16 (next_ip_id s + 1)) s) /\
    frame_ok frame /\ segment_checks NET_IP_PROTO_TCP (local_ip s) dst_ip (20 + Z.of_nat (length payload)) frame /\
    frame_segment frame = Some (Segment (local_ip s) sp dp seq ack flags payload).
Proof.
  intros Hok Hd Hm Hip Hsp Hdp Hseq Hack Hfl Hb Hl. pose proof (device_mac_ok _ _ _ Hok Hd) as Hdm. pose proof (ok_config _ Hok) as (Hsrc & _). cbn in Hsrc. unfold NET_MAX_FRAME_SIZE in Hl.
  unfold net_send_tcp_window. rewrite Hd. rewrite (proj2 (Z.ltb_ge _ _)) by (unfold NET_MAX_FRAME_SIZE; lia).
  replace (u16 (20 + (20 + Z.of_nat (length payload)))) with (40 + Z.of_nat (length payload)) by (unfold u16; rewrite Z.mod_small; lia).
  set (seg := tcp_segment (local_ip s) dst_ip sp dp seq ack flags window payload). assert (Hsl : length seg = (20 + length payload)%nat) by done.
  assert (Hsb : bytes seg) by (unfold seg, tcp_segment, tcp_segment_with; bytes_fields).
  destruct (ip_frame_ok dst_mac (nd_mac dev) (40 + Z.of_nat (length payload)) (next_ip_id s) NET_IP_PROTO_TCP (local_ip s) dst_ip seg) as (Hfo & pad & Hdrop & Hseg & Hty);
    [done|done|unfold is_u8, NET_IP_PROTO_TCP; lia|done|rewrite Hsl; unfold NET_MAX_FRAME_SIZE; lia|].
  exists (ip_frame dst_mac (nd_mac dev) (packet (40 + Z.of_nat (length payload)) (next_ip_id s) NET_IP_PROTO_TCP (local_ip s) dst_ip seg)). split; [done|]. split; [exact Hfo|]. split.
  - unfold segment_checks. replace (Z.to_nat (20 + Z.of_nat (length payload))) with (length seg) by lia. rewrite Hseg. apply tcp_segment_checks; (done || lia).
  - unfold frame_segment. rewrite Hty. cbn [mbind option_bind]. change ((NET_ETH_TYPE_IPV4 =? NET_ETH_TYPE_VLAN) || (NET_ETH_TYPE_IPV4 =? NET_ETH_TYPE_QINQ)) with false. cbn [andb mbind option_bind].
    change (NET_ETH_TYPE_IPV4 =? NET_ETH_TYPE_IPV4) with true. cbn iota. change (Z.to_nat 14) with 14%nat. rewrite Hdrop.
    change (rd8 (packet (40 + Z.of_nat (length payload)) (next_ip_id s) NET_IP_PROTO_TCP (local_ip s) dst_ip seg ++ pad) 0) with (Some 0x45). cbn [mbind option_bind].
    assert (T : rd16 (packet (40 + Z.of_nat (length payload)) (next_ip_id s) NET_IP_PROTO_TCP (local_ip s) dst_ip seg ++ pad) 2 = Some (40 + Z.of_nat (length payload)))
      by (unfold packet; rewrite <- app_assoc; apply packet_total; lia). rewrite T. cbn [mbind option_bind].
    change (Z.land 0x45 0x0F * 4) with 20. unfold seg. rewrite tcp_packet_segment; (done || lia).
Qed.

Lemma net_send_udp_frame index dst_mac dst_ip sp dp payload s dev :
  net_ok s -> net_get_device index s = Some dev -> mac_ok dst_mac -> is_u32 dst_ip -> is_port sp -> is_port dp -> bytes payload -> 42 + Z.of_nat (length payload) <= NET_MAX_FRAME_SIZE ->
  exists frame pad, snd (net_send_udp index dst_mac dst_ip sp dp payload s) = (let '(code, s') := net_send_frame index frame (set_next_ip_id (u16 (next_ip_id s + 1)) s) in if code =? 0 then s' else bump udp_tx_errors s') /\
    frame_ok frame /\ segment_checks NET_IP_PROTO_UDP (local_ip s) dst_ip (8 + Z.of_nat (length payload)) frame /\
    frame_datagram frame = Some (sp, dp, payload ++ pad, Z.of_nat (length payload)).
Proof.
  intros Hok Hd Hm Hip Hsp Hdp Hb Hl. pose proof (device_mac_ok _ _ _ Hok Hd) as Hdm. pose proof (ok_config _ Hok) as (Hsrc & _). cbn in Hsrc. unfold NET_MAX_FRAME_SIZE in Hl.
  unfold net_send_udp. rewrite Hd. rewrite (proj2 (Z.ltb_ge _ _)) by (unfold NET_MAX_FRAME_SIZE; lia).
  replace (u16 (20 + (8 + Z.of_nat (length payload)))) with (28 + Z.of_nat (length payload)) by (unfold u16; rewrite Z.mod_small; lia).
  set (seg := udp_segment (local_ip s) dst_ip sp dp payload). assert (Hsl : length seg = (8 + length payload)%nat) by done.
  assert (Hsb : bytes seg) by (unfold seg, udp_segment, udp_segment_with; bytes_fields).
  destruct (ip_frame_ok dst_mac (nd_mac dev) (28 + Z.of_nat (length payload)) (next_ip_id s) NET_IP_PROTO_UDP (local_ip s) dst_ip seg) as (Hfo & pad & Hdrop & Hseg & Hty);
    [done|done|unfold is_u8, NET_IP_PROTO_UDP; lia|done|rewrite Hsl; unfold NET_MAX_FRAME_SIZE; lia|].
  exists (ip_frame dst_mac (nd_mac dev) (packet (28 + Z.of_nat (length payload)) (next_ip_id s) NET_IP_PROTO_UDP (local_ip s) dst_ip seg)), pad. split; [|split; [exact Hfo|split]].
  - unfold ip_frame, packet, seg. destruct (net_send_frame _ _ _) as [code s']. by destruct (code =? 0).
  - unfold segment_checks. replace (Z.to_nat (8 + Z.of_nat (length payload))) with (length seg) by lia. rewrite Hseg. apply udp_segment_checks; (done || lia).
  - unfold frame_datagram. rewrite Hty. cbn [mbind option_bind]. change ((NET_ETH_TYPE_IPV4 =? NET_ETH_TYPE_VLAN) || (NET_ETH_TYPE_IPV4 =? NET_ETH_TYPE_QINQ)) with false. cbn [andb mbind option_bind].
    change (NET_ETH_TYPE_IPV4 =? NET_ETH_TYPE_IPV4) with true. cbn iota. change (Z.to_nat 14) with 14%nat. rewrite Hdrop. set (ip := packet _ _ _ _ _ _ ++ pad).
    change (rd8 ip 0) with (Some 0x45). cbn [mbind option_bind]. change (Z.land 0x45 0x0F * 4) with 20. change (20 + 2) with 22. change (20 + 4) with 24. change (Z.to_nat (20 + 8)) with 28%nat.
    destruct (udp_packet_fields (local_ip s) dst_ip sp dp (next_ip_id s) payload pad Hsp Hdp ltac:(lia)) as (R1 & R2 & R3 & R4). fold seg in R1, R2, R3, R4. fold ip in R1, R2, R3, R4.
    rewrite R1, R2, R3, R4. cbn [mbind option_bind]. do 2 f_equal. lia.
Qed.
End send.
