(* ===== verification/NetBody.v ===== *)
(** Texts of HTTP: an address that is written is read back, a request is the
    whole text or nothing, and a chunked body is decoded in place to the data
    of its chunks. *)
From Stdlib Require Import ZArith Lia.
From stdpp Require Import base tactics option list numbers.
From S2P Require Import Prelude.
From S2P Require Import Buffer.
From S2P Require Import NetWire.
From S2P Require Import NetState.
From S2P Require Import NetHttp.
From S2P Require Import NetDns.
From S2P Require Import NetRecv.
From S2P Require Import NetSafe.
#[local] Open Scope Z_scope.

(** ** Addresses *)

Lemma dec_loop_app limit v d t c rest v' d' : is_digit c = false -> dec_loop limit v d t = Some (v', d', []) -> dec_loop limit v d (t ++ c :: rest) = Some (v', d', c :: rest).
Proof.
  intros Hc. revert v d. induction t as [|x t IH]; intros v d; cbn [dec_loop app]; [intros [= <- <-]; by rewrite Hc|].
  destruct (is_digit x); [|done]. destruct (_ <? _); [done|]. apply IH.
Qed.

(** Every octet, and its digits. *)
Definition octet_reads (v : Z) : bool := match dec_loop 255 0 0 (dec_text v) with Some (v', d, []) => (v' =? v) && negb (d =? 0) | _ => false end.

Lemma octets_read : forallb octet_reads (seqZ 0 256) = true.
Proof. vm_compute. reflexivity. Qed.

Lemma octet_text v : 0 <= v < 256 -> exists d, d <> 0 /\ dec_loop 255 0 0 (dec_text v) = Some (v, d, []).
Proof.
  intros Hv. pose proof octets_read as H. rewrite forallb_forall in H. specialize (H v ltac:(apply list_elem_of_In, elem_of_seqZ; lia)). unfold octet_reads in H.
  destruct (dec_loop 255 0 0 (dec_text v)) as [[[v' d] [|c r]]|]; try done. bool_prop. subst. eauto.
Qed.

Lemma octet_dot_text v rest : 0 <= v < 256 -> octet_dot (dec_text v ++ [46] ++ rest) = Some (v, rest).
Proof.
  intros Hv. destruct (octet_text v Hv) as (d & Hd & E). unfold octet_dot, net_parse_dec_octet. cbn [app]. rewrite (dec_loop_app 255 0 0 (dec_text v) 46 rest v d eq_refl E). cbn [mbind option_bind].
  by rewrite (proj2 (Z.eqb_neq d 0)).
Qed.

Lemma ip_text_parses ip : is_u32 ip -> net_parse_ipv4 (ip_text ip) = Some (ip, []).
Proof.
  intros Hip. unfold ip_text. set (a := Z.land (Z.shiftr ip 24) 255). set (b := Z.land (Z.shiftr ip 16) 255). set (c := Z.land (Z.shiftr ip 8) 255). set (d := Z.land ip 255).
  assert (Hr : forall x, 0 <= Z.land x 255 < 256) by (intros x; rewrite land_255; apply Z.mod_pos_bound; lia).
  unfold net_parse_ipv4. rewrite (octet_dot_text a) by apply Hr. cbn [mbind option_bind]. rewrite (octet_dot_text b) by apply Hr. cbn [mbind option_bind]. rewrite (octet_dot_text c) by apply Hr. cbn [mbind option_bind].
  destruct (octet_text d (Hr ip)) as (n & Hn & E). unfold net_parse_dec_octet. rewrite E. cbn [mbind option_bind]. rewrite (proj2 (Z.eqb_neq n 0)) by done. cbn [mbind option_bind].
  rewrite be32_eq by apply Hr. unfold a, b, c, d. rewrite !land_255, !Z.shiftr_div_pow2 by lia. change (2 ^ 24) with 16777216. change (2 ^ 16) with 65536. change (2 ^ 8) with 256.
  do 2 f_equal. unfold is_u32 in Hip. rewrite (Z.mod_small (ip / 16777216)) by (Z.div_mod_to_equations; lia). Z.div_mod_to_equations. lia.
Qed.

(** ** Requests *)

Lemma append_text_eq text n acc : append_text text n acc = if Z.of_nat (length acc) + Z.of_nat (length text) <? n then Some (acc ++ text) else match text with [] => Some acc | _ => None end.
Proof.
  revert acc. induction text as [|c text IH]; intros acc; cbn [append_text]; [rewrite app_nil_r; by destruct (_ <? _)|].
  destruct (Z.leb_spec n (Z.of_nat (length acc) + 1)) as [H|H].
  - destruct (Z.ltb_spec (Z.of_nat (length acc) + Z.of_nat (length (c :: text))) n); [cbn [length] in *; lia|done].
  - rewrite IH, length_app, <- app_assoc. cbn [length app]. destruct (Z.ltb_spec (Z.of_nat (length acc + 1) + Z.of_nat (length text)) n), (Z.ltb_spec (Z.of_nat (length acc) + Z.of_nat (S (length text))) n); try lia; [done|].
    destruct text; [cbn [length] in *; lia|done].
Qed.

(** ** Chunks *)

(** The size in hexadecimal, what else is on its line, the data. *)
Record chunk : Type := Chunk { ck_size : list Z; ck_ext : list Z; ck_data : list Z }.

Definition enc_line (c : chunk) : list Z := ck_size c ++ ck_ext c ++ [LF].
Definition enc_chunk (c : chunk) : list Z := enc_line c ++ ck_data c ++ [CR; LF].
Definition enc_chunks (cs : list chunk) : list Z := concat (map enc_chunk cs).

Definition hex_num (v : Z) (h : list Z) : Z := foldl (fun v c => v * 16 + net_http_hex_value c) v h.

(** Digits in either case, with leading zeros; the rest of the line does not
    go on with a digit and has no line feed. *)
Definition line_ok (c : chunk) (n : Z) : Prop :=
  ck_size c <> [] /\ Forall (fun x => 0 <= net_http_hex_value x) (ck_size c) /\ hex_num 0 (ck_size c) = n /\ n < 4294967296 /\
  Forall (fun x => x <> LF) (ck_ext c) /\ match ck_ext c with [] => True | x :: _ => net_http_hex_value x < 0 end.

Definition chunk_ok (c : chunk) : Prop := line_ok c (Z.of_nat (length (ck_data c))) /\ ck_data c <> [].

Lemma hex_value_range c : -1 <= net_http_hex_value c < 16.
Proof.
  unfold net_http_hex_value, is_digit. destruct ((48 <=? c) && (c <=? 57)) eqn:E1; [bool_prop; lia|]. destruct ((97 <=? c) && (c <=? 102)) eqn:E2; [bool_prop; lia|].
  destruct ((65 <=? c) && (c <=? 70)) eqn:E3; [bool_prop; lia|lia].
Qed.

Lemma hex_num_ge v h : 0 <= v -> Forall (fun x => 0 <= net_http_hex_value x) h -> v <= hex_num v h.
Proof.
  intros Hv Hh. revert v Hv. induction Hh as [|x h Hx Hh IH]; intros v Hv; [done|]. unfold hex_num in *. cbn [foldl]. specialize (IH (v * 16 + net_http_hex_value x) ltac:(lia)). lia.
Qed.

Lemma chunk_digits_eq h v saw rest : 0 <= v -> Forall (fun x => 0 <= net_http_hex_value x) h -> hex_num v h < 4294967296 ->
  match rest with [] => True | x :: _ => net_http_hex_value x < 0 end -> chunk_digits v saw (h ++ rest) = Some (hex_num v h, match h with [] => saw | _ => true end, rest).
Proof.
  intros Hv Hh. revert v saw Hv. induction Hh as [|x h Hx Hh IH]; intros v saw Hv Hn Hr.
  - cbn [app]. destruct rest as [|x rest]; cbn [chunk_digits]; [done|]. by rewrite (proj2 (Z.ltb_lt _ 0)).
  - cbn [app chunk_digits]. rewrite (proj2 (Z.ltb_ge _ 0)) by done. unfold hex_num in Hn |- *. cbn [foldl] in Hn |- *. pose proof (hex_value_range x) as Hxr. pose proof (hex_num_ge (v * 16 + net_http_hex_value x) h ltac:(lia) Hh) as Hge.
    unfold hex_num in Hge. rewrite (proj2 (Z.ltb_ge _ v)) by lia.
    assert (Es : Z.lor (u32 (Z.shiftl v 4)) (net_http_hex_value x) = v * 16 + net_http_hex_value x).
    { rewrite Z.shiftl_mul_pow2 by lia. change (2 ^ 4) with 16. rewrite u32_small by cint. change 16 with (2 ^ 4). apply lor_add_high; [lia|]. change (2 ^ 4) with 16. lia. }
    rewrite Es. rewrite IH by (done || lia). by destruct h.
Qed.

Lemma until_lf_eq ext rest : Forall (fun x => x <> LF) ext -> until_lf (ext ++ LF :: rest) = LF :: rest.
Proof. induction 1 as [|x ext Hx Hext IH]; [done|]. cbn [app until_lf]. by rewrite (proj2 (Z.eqb_neq x LF)). Qed.

(** The line of a chunk is taken off. *)
Lemma line_parses c n rest : line_ok c n ->
  chunk_digits 0 false (skip_newlines (enc_line c ++ rest)) = Some (n, true, ck_ext c ++ LF :: rest) /\ until_lf (ck_ext c ++ LF :: rest) = LF :: rest /\ enc_line c ++ rest <> [].
Proof.
  intros (H1 & H2 & H3 & H4 & H5 & H6). unfold enc_line. rewrite <- !app_assoc. cbn [app]. split; [|split; [by apply until_lf_eq|by destruct (ck_size c)]].
  assert (Hs : skip_newlines (ck_size c ++ ck_ext c ++ LF :: rest) = ck_size c ++ ck_ext c ++ LF :: rest).
  { destruct (ck_size c) as [|x h]; [done|]. cbn [app skip_newlines]. inv_Forall. destruct (line_end x) eqn:El; [|done]. exfalso. unfold line_end in El. apply orb_true_iff in El.
    destruct El as [El|El]; apply Z.eqb_eq in El; subst x; done. }
  rewrite Hs. rewrite chunk_digits_eq; [|lia|done|lia|by destruct (ck_ext c)]. rewrite H3. by destruct (ck_size c).
Qed.

(** Moving bytes to the front, the areas overlapping. *)
Lemma move_bytes_eq n write read (body : list Z) : 0 <= write <= read -> read + Z.of_nat n <= Z.of_nat (length body) ->
  move_bytes n write read body = Some (take (Z.to_nat write) body ++ take n (drop (Z.to_nat read) body) ++ drop (Z.to_nat write + n) body).
Proof.
  revert write read body. induction n as [|n IH]; intros write read body Hw Hl; cbn [move_bytes].
  - rewrite Nat.add_0_r. by rewrite take_0, app_nil_l, take_drop.
  - destruct (lookup_lt_is_Some_2 body (Z.to_nat read) ltac:(lia)) as [c Hc]. unfold rd8. rewrite (proj2 (Z.ltb_ge read 0)) by lia. rewrite Hc. cbn [mbind option_bind].
    rewrite wr8_Some by lia. cbn [mbind option_bind]. rewrite IH by (rewrite ?length_insert; lia). f_equal.
    replace (Z.to_nat (write + 1)) with (S (Z.to_nat write)) by lia. replace (Z.to_nat (read + 1)) with (S (Z.to_nat read)) by lia.
    rewrite (take_S_r _ _ c) by (apply list_lookup_insert_eq; lia). rewrite take_insert_ge by lia. rewrite !drop_insert_lt by lia. rewrite (drop_S _ _ _ Hc). cbn [take]. rewrite <- !app_assoc. cbn [app].
    do 4 f_equal. lia.
Qed.

Lemma unread_suffix body n r pre t : 0 <= r <= n -> n <= Z.of_nat (length body) -> unread body n r = pre ++ t -> unread body n (n - Z.of_nat (length t)) = t /\ r + Z.of_nat (length pre) = n - Z.of_nat (length t).
Proof.
  intros Hr Hn Hu. assert (Hl : length (unread body n r) = Z.to_nat (n - r)) by (unfold unread; rewrite length_drop, length_take; lia). rewrite Hu, length_app in Hl.
  split; [|lia]. unfold unread in *. replace (Z.to_nat (n - Z.of_nat (length t))) with (Z.to_nat r + length pre)%nat by lia. rewrite <- drop_drop, Hu. by rewrite drop_app_length.
Qed.

Lemma drop_take_unread body n r k : 0 <= r -> (k <= Z.to_nat (n - r))%nat -> take k (drop (Z.to_nat r) body) = take k (unread body n r).
Proof. intros Hr Hk. unfold unread. rewrite skipn_firstn_comm, take_take. f_equal. lia. Qed.

(** What is left to read is not touched by what is written. *)
Lemma unread_moved body n r (front : list Z) : Z.of_nat (length front) <= r -> r <= n -> n <= Z.of_nat (length body) ->
  unread (front ++ drop (length front) body) n r = unread body n r.
Proof.
  intros Hf Hr Hn. unfold unread. rewrite !skipn_firstn_comm. f_equal. rewrite skipn_app, (drop_ge front) by lia. cbn [app]. rewrite drop_drop. f_equal. lia.
Qed.

Definition chunk_data (cs : list chunk) : list Z := concat (map ck_data cs).

Lemma chunk_loop_decodes cs fuel last trailer body in_size read write (done : list Z) :
  Forall chunk_ok cs -> line_ok last 0 -> (length cs < fuel)%nat ->
  0 <= read <= in_size -> in_size <= Z.of_nat (length body) -> write = Z.of_nat (length done) -> write <= read -> take (length done) body = done ->
  write + Z.of_nat (length (chunk_data cs)) < Z.of_nat (length body) -> unread body in_size read = enc_chunks cs ++ enc_line last ++ trailer ->
  exists body', chunk_loop fuel body in_size (Z.of_nat (length body)) read write = Some (0, body', write + Z.of_nat (length (chunk_data cs))) /\
    take (length done + length (chunk_data cs)) body' = done ++ chunk_data cs.
Proof.
  intros Hcs Hlast. revert fuel body read write done. induction Hcs as [|c cs Hc Hcs IH]; intros fuel body read write dn Hfuel Hread Hin Hw Hwr Hdn Hcap Hun; (destruct fuel as [|fuel]; [lia|]); cbn [chunk_loop]; rewrite Hun.
  - cbn [enc_chunks map concat app]. destruct (line_parses last 0 trailer Hlast) as (P1 & P2 & P3). destruct (enc_line last ++ trailer) as [|x tx] eqn:Et; [done|]. rewrite P1. cbn [negb]. rewrite P2. cbn [Z.eqb].
    change (chunk_data []) with (@nil Z) in *. cbn [length Z.of_nat] in *. rewrite (proj2 (Z.ltb_lt _ _)) by lia. rewrite wr8_Some by lia. cbn [mbind option_bind].
    eexists. split; [by rewrite Z.add_0_r|]. rewrite Nat.add_0_r, app_nil_r. rewrite take_insert_ge by lia. done.
  - destruct Hc as [Hline Hne]. set (d := ck_data c) in *. set (more := enc_chunks cs ++ enc_line last ++ trailer).
    assert (Et : enc_chunks (c :: cs) ++ enc_line last ++ trailer = enc_line c ++ d ++ [CR; LF] ++ more) by (unfold enc_chunks, more, enc_chunk; cbn [map concat]; rewrite <- !app_assoc; done).
    rewrite Et in Hun |- *. destruct (line_parses c (Z.of_nat (length d)) (d ++ [CR; LF] ++ more) Hline) as (P1 & P2 & P3). destruct (enc_line c ++ d ++ [CR; LF] ++ more) as [|x tx] eqn:Ex; [done|]. rewrite <- Ex in *. clear Ex x tx.
    rewrite P1. cbn [negb]. rewrite P2. destruct (unread_suffix body in_size read (enc_line c) (d ++ [CR; LF] ++ more) Hread Hin Hun) as [Hu1 Hr1].
    set (read1 := in_size - Z.of_nat (length (d ++ [CR; LF] ++ more))) in *. assert (Hld : 0 < Z.of_nat (length d)) by (destruct d; [done|cbn; lia]).
    assert (Hlen : Z.of_nat (length (d ++ [CR; LF] ++ more)) = Z.of_nat (length d) + 2 + Z.of_nat (length more)) by (rewrite !length_app; cbn [length]; lia).
    assert (Hcd : length (chunk_data (c :: cs)) = (length d + length (chunk_data cs))%nat) by (unfold chunk_data; cbn [map concat]; by rewrite length_app). rewrite Hcd in *.
    rewrite (proj2 (Z.eqb_neq (Z.of_nat (length d)) 0)) by lia. rewrite (proj2 (Z.ltb_ge _ _)) by (unfold read1; lia). rewrite (proj2 (Z.leb_gt _ _)) by lia. cbn [orb]. rewrite (proj2 (Z.ltb_ge _ write)) by lia.
    rewrite move_bytes_eq by (unfold read1 in *; lia). cbn [mbind option_bind]. rewrite Nat2Z.id.
    assert (Hmv : take (length d) (drop (Z.to_nat read1) body) = d). { rewrite (drop_take_unread body in_size) by (unfold read1 in *; lia). rewrite Hu1. by rewrite take_app_length. }
    rewrite Hmv. replace (Z.to_nat write) with (length dn) by lia. rewrite Hdn. set (body1 := dn ++ d ++ drop (length dn + length d) body).
    assert (Eb : body1 = (dn ++ d) ++ drop (length (dn ++ d)) body) by (unfold body1; by rewrite length_app, <- app_assoc).
    assert (Hb1 : length body1 = length body) by (rewrite Eb, length_app, length_drop, length_app; lia).
    assert (Hu2 : unread body1 in_size (read1 + Z.of_nat (length d)) = [CR; LF] ++ more).
    { rewrite Eb, unread_moved by (rewrite ?length_app; unfold read1 in *; lia). destruct (unread_suffix body in_size read1 d ([CR; LF] ++ more)) as [Hs Hs2]; [unfold read1 in *; lia|done|done|]. rewrite <- Hs. f_equal. lia. }
    rewrite Hu2. change (chunk_end ([CR; LF] ++ more)) with (Some more). cbn iota.
    destruct (unread_suffix body1 in_size (read1 + Z.of_nat (length d)) [CR; LF] more) as [Hu3 Hr3]; [unfold read1 in *; lia|lia|done|].
    destruct (IH fuel body1 (in_size - Z.of_nat (length more)) (write + Z.of_nat (length d)) (dn ++ d)) as (body' & Hrun & Htake).
    + cbn [length] in Hfuel. lia.
    + unfold read1 in *. lia.
    + lia.
    + rewrite length_app. lia.
    + unfold read1 in *. lia.
    + rewrite Eb. by rewrite take_app_length.
    + rewrite Hb1. lia.
    + exact Hu3.
    + exists body'. rewrite Hb1 in Hrun. split; [rewrite Hrun; do 2 f_equal; lia|]. rewrite length_app in Htake. unfold chunk_data in *. cbn [map concat]. fold d. rewrite app_assoc, <- Htake. f_equal. lia.
Qed.

(** A body in a buffer that is larger than its data. *)
Lemma chunked_decodes cs last trailer (free : list Z) : Forall chunk_ok cs -> line_ok last 0 ->
  let text := enc_chunks cs ++ enc_line last ++ trailer in
  exists body', net_http_decode_chunked (text ++ free) (Z.of_nat (length text)) (Z.of_nat (length (text ++ free))) = Some (0, body', Z.of_nat (length (chunk_data cs))) /\
    take (length (chunk_data cs)) body' = chunk_data cs.
Proof.
  intros Hcs Hlast text. assert (Hdata : (length (chunk_data cs) + length cs <= length (enc_chunks cs))%nat).
  { clear text. induction Hcs as [|c cs Hc Hcs IH]; [done|]. unfold chunk_data, enc_chunks, enc_chunk in *. cbn [map concat length]. rewrite !length_app. cbn [length]. lia. }
  assert (Hl : (0 < length (enc_line last))%nat) by (unfold enc_line; rewrite !length_app; cbn [length]; lia).
  assert (Ht : length text = (length (enc_chunks cs) + length (enc_line last) + length trailer)%nat) by (unfold text; rewrite !length_app; lia).
  unfold net_http_decode_chunked. rewrite (proj2 (Z.eqb_neq _ 0)) by (rewrite length_app; lia).
  destruct (chunk_loop_decodes cs (S (Z.to_nat (Z.of_nat (length text)))) last trailer (text ++ free) (Z.of_nat (length text)) 0 0 []) as (body' & Hrun & Htake); try done; try lia.
  - rewrite length_app. lia.
  - rewrite length_app. lia.
  - unfold unread. rewrite Nat2Z.id, take_app_length. done.
  - exists body'. split; [exact Hrun|exact Htake].
Qed.

(** ** Any body *)

Lemma skip_newlines_length t : (length (skip_newlines t) <= length t)%nat.
Proof. induction t as [|c t IH]; cbn [skip_newlines length]; [lia|]. destruct (line_end c); cbn [length]; lia. Qed.

Lemma until_lf_length t : (length (until_lf t) <= length t)%nat.
Proof. induction t as [|c t IH]; cbn [until_lf length]; [lia|]. destruct (c =? LF); cbn [length]; lia. Qed.

Lemma chunk_digits_bounds t v saw : 0 <= v -> match chunk_digits v saw t with Some (n, _, t') => 0 <= n /\ (length t' <= length t)%nat | None => True end.
Proof.
  revert v saw. induction t as [|c t IH]; intros v saw Hv; cbn [chunk_digits]; [split; [done|lia]|]. pose proof (hex_value_range c). destruct (Z.ltb_spec (net_http_hex_value c) 0); [split; [done|lia]|].
  destruct (_ <? v); [done|]. specialize (IH (Z.lor (u32 (Z.shiftl v 4)) (net_http_hex_value c)) true ltac:(apply Z.lor_nonneg; split; [apply u32_range|done])).
  destruct (chunk_digits _ _ t) as [[[n b] t']|]; [|done]. destruct IH. split; [done|]. cbn [length]. lia.
Qed.

Lemma chunk_end_length t : match chunk_end t with Some t' => (length t' <= length t)%nat | None => True end.
Proof.
  unfold chunk_end. destruct t as [|a t]; [done|]. destruct (a =? CR).
  - destruct t as [|b t]; [cbn; lia|]. destruct (b =? LF); [cbn [length]; lia|done].
  - destruct (a =? LF); [cbn [length]; lia|done].
Qed.

(** Writing never gets ahead of reading, so the data fit where they came from. *)
Lemma chunk_loop_safe fuel body in_size read write : 0 <= write <= read -> read <= in_size -> in_size <= Z.of_nat (length body) -> in_size - read < Z.of_nat fuel ->
  gives (chunk_loop fuel body in_size (Z.of_nat (length body)) read write) (fun '(code, body', size) => (length body' = length body /\ (bytes body -> bytes body')) /\ -3 <= code <= 0 /\ 0 <= size <= in_size).
Proof.
  revert body read write. induction fuel as [|fuel IH]; intros body read write Hw Hr Hin Hf; [lia|]. cbn [chunk_loop].
  assert (Hu : Z.of_nat (length (unread body in_size read)) = in_size - read) by (unfold unread; rewrite length_drop, length_take; lia).
  assert (Hstop : forall c, -3 <= c <= 0 -> (length body = length body /\ (bytes body -> bytes body)) /\ -3 <= c <= 0 /\ 0 <= 0 <= in_size) by (intros c Hc; split; [done|]; lia).
  destruct (unread body in_size read) as [|x tx]; [apply Hstop; lia|]. pose proof (skip_newlines_length (x :: tx)) as Hs. pose proof (chunk_digits_bounds (skip_newlines (x :: tx)) 0 false ltac:(lia)) as Hd.
  destruct (chunk_digits 0 false (skip_newlines (x :: tx))) as [[[size saw] t1]|]; [|apply Hstop; lia]. destruct Hd as [Hsz Ht1]. destruct saw; cbn [negb]; [|apply Hstop; lia].
  pose proof (until_lf_length t1) as Hl. destruct (until_lf t1) as [|y t2]; [apply Hstop; lia|]. cbn [length] in Hl. set (read1 := in_size - Z.of_nat (length t2)). assert (Hr1 : read < read1 <= in_size) by (unfold read1; lia).
  destruct (Z.eqb_spec size 0).
  { rewrite (proj2 (Z.ltb_lt _ _)) by lia. rewrite wr8_Some by lia. cbn [mbind option_bind gives]. rewrite length_insert. split; [split; [done|]; intros Hb; apply Forall_insert; [done|unfold is_u8; lia]|]. lia. }
  destruct (Z.ltb_spec (in_size - read1) size); [apply Hstop; lia|]. destruct (_ || _); [apply Hstop; lia|].
  rewrite move_bytes_eq by lia. cbn [mbind option_bind]. set (body1 := take _ body ++ _). assert (Hb1 : length body1 = length body) by (unfold body1; rewrite !length_app, !length_take, !length_drop; lia).
  assert (Hbb : bytes body -> bytes body1) by (intros Hb; unfold body1; repeat apply Forall_app_2; repeat first [apply Forall_take | apply Forall_drop]; done).
  pose proof (chunk_end_length (unread body1 in_size (read1 + size))) as He. assert (Hu1 : Z.of_nat (length (unread body1 in_size (read1 + size))) = in_size - (read1 + size)) by (unfold unread; rewrite length_drop, length_take; lia).
  destruct (chunk_end (unread body1 in_size (read1 + size))) as [t3|]; [|cbn; split; [by split|lia]]. rewrite <- Hb1. eapply gives_mono; [apply IH; lia|].
  intros [[code body'] sz] ((H1 & H1') & H2 & H3). split; [split; [congruence|auto]|done].
Qed.

Lemma after_zero_length t : match after_zero t with Some t' => (length t' <= length t)%nat | None => True end.
Proof. induction t as [|c t IH]; cbn [after_zero]; [done|]. destruct (c =? 0); [cbn [length]; lia|]. destruct (after_zero t); [cbn [length]; lia|done]. Qed.

(** The range of the compressed data is inside the file, its trailer behind it. *)
Lemma gzip_range_safe data : bytes data ->
  gives (net_http_gzip_deflate_range data) (fun r => match r with Some (offset, size) => 0 <= offset /\ 0 <= size /\ offset + size + 8 = Z.of_nat (length data) | None => True end).
Proof.
  intros Hb. unfold net_http_gzip_deflate_range. destruct (Z.ltb_spec (Z.of_nat (length data)) 18); [done|]. do 4 (eapply gives_bind; [apply gives_rd8; (done || lia)|]; intros ? ?).
  destruct (_ || _); [done|]. destruct (has_flag a2 0xe0); [done|].
  apply (gives_bind _ _ (fun r => match r with Some t => (length t <= length data)%nat | None => True end)).
  - destruct (has_flag a2 4); [|cbn; rewrite length_drop; lia]. destruct (_ <? 12); [done|]. do 2 (eapply gives_bind; [apply gives_rd8; (done || lia)|]; intros ? ?).
    destruct (_ <? _); [done|]. cbn [gives]. rewrite length_drop. lia.
  - intros r Hr. match goal with |- gives (match ?x with _ => _ end) _ => assert (Hx : match x with Some t => (length t <= length data)%nat /\ (8 <= length t)%nat | None => True end) end.
    { destruct r as [t|]; [|done]. cbn [mbind option_bind].
      assert (Hz : forall f t, (length t <= length data)%nat -> match (if has_flag a2 f then after_zero t else Some t) with Some t' => (length t' <= length data)%nat | None => True end).
      { intros f u Hu. destruct (has_flag a2 f); [|done]. pose proof (after_zero_length u). destruct (after_zero u); [lia|done]. }
      pose proof (Hz 8 t Hr) as Hz1. destruct (if has_flag a2 8 then after_zero t else Some t) as [t1|]; [|done]. cbn [mbind option_bind].
      pose proof (Hz 0x10 t1 Hz1) as Hz2. destruct (if has_flag a2 0x10 then after_zero t1 else Some t1) as [t2|]; [|done]. cbn [mbind option_bind].
      destruct (has_flag a2 2); [destruct (Nat.ltb_spec (length t2) 2); [done|]|]; cbn [mbind option_bind].
      - destruct (Nat.ltb_spec (length (drop 2 t2)) 8); [done|]. rewrite length_drop in *. lia.
      - destruct (Nat.ltb_spec (length t2) 8); [done|]. lia. }
    destruct (r ≫= _) as [t|]; [|done]. cbn [gives]. lia.
Qed.
