(* ===== verification/NetDemo.v ===== *)
(** A network to run the stack on: a wire with a queue of frames that arrive
    one at each poll, and a clock that goes on by one at each reading. It
    discharges the interface [NetPeer]. *)
From Stdlib Require Import ZArith Lia.
From stdpp Require Import base tactics option list numbers functions.
From S2P Require Import Prelude.
From S2P Require Import Buffer.
From S2P Require Import NetWire.
From S2P Require Import NetState.
From S2P Require Import NetHttp.
From S2P Require Import NetDns.
From S2P Require Import NetRecv.
From S2P Require Import NetSafe.
From S2P Require Import NetInvariant.
From S2P Require Import NetSession.
From S2P Require Import NetDhcp.
From S2P Require Import NetFrames.
#[local] Open Scope Z_scope.

Record wire : Type := Wire { w_clock : Z; w_queue : list (list Z); w_sent : list (list Z) }.

#[export] Instance wire_driver : NetDriver wire := {
  drv_send _ data e := (0, [CountTx], Wire (w_clock e) (w_queue e) (w_sent e ++ [data]));
  drv_poll _ e := match w_queue e with
                  | [] => (0, [], e)
                  | f :: q => (1, [RxCount CountRx; RxFrame f], Wire (w_clock e) q (w_sent e))
                  end;
  timer_ticks e := (w_clock e, Wire (w_clock e + 1) (w_queue e) (w_sent e))
}.

Lemma wire_quiet_clock (e e' : wire) : quiet e e' -> w_clock e' = w_clock e.
Proof.
  induction 1 as [|ctx data e1 code counts e2 H IH Hs|ctx e1 code evs e2 H IH Hp]; [done| |].
  - injection Hs as <- <- <-. done.
  - cbn in Hp. destruct (w_queue e1); injection Hp as <- <- <-; done.
Qed.

Lemma wire_expires start limit n (e : wire) d : w_clock e = start + d -> 0 <= d < 2 ^ 33 -> limit < 2 ^ 32 -> limit <= d + Z.of_nat n -> expires start limit n e.
Proof.
  revert e d. induction n as [|n IH]; intros e d Hc Hd Hl Hn; cbn [expires]; intros e1 Hq; pose proof (wire_quiet_clock _ _ Hq) as Hk; cbn [timer_ticks wire_driver];
    replace (w_clock e1 - start) with d by lia; rewrite (u64_small d) by (unfold is_u64; lia); [left; lia|].
  destruct (Z.le_gt_cases limit d); [by left|]. right. apply (IH _ (d + 1)); cbn [w_clock]; lia.
Qed.

(** The frames in the queue are among [frames]. *)
Definition queued (frames : list (list Z)) (e : wire) : Prop := Forall (.∈ frames) (w_queue e).

Lemma wire_peer frames : Forall bytes frames -> NetPeer (queued frames) (.∈ frames) (fun limit => Z.to_nat limit).
Proof.
  intros Hb. split.
  - intros ctx data e code counts e' Hi [= <- <- <-]. exact Hi.
  - intros ctx e code evs e' Hi. cbn. unfold queued in *. destruct (w_queue e) as [|f q] eqn:Eq; intros [= <- <- <-]; [by rewrite Eq|]. apply Forall_cons_1 in Hi as [Hf Hq]. split; [done|]. by repeat constructor.
  - intros e t e' Hi [= <- <-]. split; [exact Hi|]. intros limit Hl. apply (wire_expires _ _ _ _ 1); cbn [w_clock]; lia.
  - intros f Hf. rewrite Forall_elem in Hb. by apply Hb.
Qed.

(** ** The start *)

Definition no_get : tcp_get_t :=
  TcpGet false 0 0 0 0 0 0 (replicate 6 0) false false false [] 0 0 false false (replicate 1024 0) 0 false None (replicate 4 0) 0.
Definition no_stream : tcp_stream_t := TcpStream false 0 0 0 0 0 0 0 (replicate 6 0) false false false [] 0 0.

(** The static variables before anything ran. *)
Definition net_start {E} (e : E) : net E :=
  Net (replicate 4 zero_device) 0 (ArpWait false 0 0 (replicate 6 0) false) no_get no_stream (DhcpWait false 0 0 0 false 0 0 0 0 0)
    (DnsWait false 0 0 0 false false 0 (replicate 128 0)) 1 49152 NET_DEFAULT_IP NET_DEFAULT_MASK NET_DEFAULT_GATEWAY NET_DEFAULT_DNS (fun _ => 0) false e.

Section start.
Context {E : Type} `{!NetDriver E}.

Lemma net_start_ok (e : E) : net_ok (net_start e).
Proof.
  constructor; cbn [core net_start co_devices co_device_count co_arp_wait co_tcp_get co_tcp_stream co_dhcp_wait co_dns_wait co_next_local_port co_local_ip co_local_netmask co_local_gateway co_local_dns
    devices device_count arp_wait tcp_get tcp_stream dhcp_wait dns_wait next_local_port local_ip local_netmask local_gateway local_dns aw_mac nw_cname].
  - split; [done|]. unfold NET_MAX_DEVICES. lia.
  - repeat (constructor; [split; [done|apply bytes_zeros]|]). constructor.
  - split; [done|apply bytes_zeros].
  - split; [|cbn; cint]. split; [done|]. split; [cbn; lia|]. split; [done|]. split; [cbn; lia|done].
  - split; [done|]. split; [cbn; lia|]. split; cbn; cint.
  - repeat split; cbn; lia.
  - split; [done|apply bytes_zeros].
  - unfold is_port. lia.
  - repeat split; done.
Qed.

(** A driver that is registered. *)
Lemma net_register_device_ok name driver vid did mac up ctx (s : net E) : net_ok s -> (6 <= length mac)%nat -> bytes mac ->
  net_ok (snd (net_register_device (Some name) (Some driver) vid did (Some mac) up ctx s)).
Proof.
  intros Hok Hl Hb. unfold net_register_device. destruct (Z.leb_spec NET_MAX_DEVICES (device_count s)); [done|]. cbn [snd]. destruct Hok. cbn in ok_devices, ok_macs.
  constructor; cbn; try done.
  - rewrite !length_map, length_insert in *. unfold NET_MAX_DEVICES in *. lia.
  - change (Forall (fun '(_, _, _, mac, _, _, _) => mac_ok mac) (device_id <$> <[Z.to_nat (device_count s) := NetDevice true
      (copy_name (nd_name (default zero_device (devices s !! Z.to_nat (device_count s)))) name) (copy_driver (nd_driver (default zero_device (devices s !! Z.to_nat (device_count s)))) driver)
      (take 6 mac) vid did up 0 0 0 0 ctx]> (devices s))).
    rewrite list_fmap_insert. apply Forall_insert; [done|]. cbn. split; [rewrite length_take; lia|by apply Forall_take].
Qed.
End start.

(** ** A host with one device *)

Definition my_mac : list Z := [2; 0; 0; 0; 0; 1].
Definition peer_mac : list Z := [2; 0; 0; 0; 0; 2].
Definition peer_ip : Z := 0x0A000202.

Definition host (e : wire) : net wire := snd (net_register_device (Some [101; 48]) (Some [110]) 0x8086 0x100E (Some my_mac) true 0 (net_start e)).

Lemma host_ok e : net_ok (host e).
Proof. apply net_register_device_ok; [apply net_start_ok|cbn; lia|]. unfold my_mac. repeat (constructor; [unfold is_u8; lia|]). constructor. Qed.

(** What the peer sends: an ARP reply, and TCP segments from its port 80. *)
Definition arp_frame : list Z := pad_frame (eth_header my_mac peer_mac NET_ETH_TYPE_ARP ++ arp_packet NET_ARP_OP_REPLY peer_mac peer_ip my_mac NET_DEFAULT_IP).

Definition tcp_frame (seq flags : Z) (payload : list Z) : list Z :=
  ip_frame my_mac peer_mac (packet (40 + Z.of_nat (length payload)) 7 NET_IP_PROTO_TCP peer_ip NET_DEFAULT_IP
    (tcp_segment peer_ip NET_DEFAULT_IP 80 49152 seq 0 flags 4096 payload)).

Definition page : list Z := [72; 101; 108; 108; 111].

(** The second half arrives before the first, and the first twice. *)
Definition page_frames : list (list Z) :=
  [arp_frame; tcp_frame 1000 0x12 []; tcp_frame 1004 0x19 [108; 111]; tcp_frame 1001 0x18 [72; 101; 108]; tcp_frame 1001 0x18 [72; 101; 108]; tcp_frame 1004 0x19 [108; 111]].

Definition page_wire : wire := Wire 0 page_frames [].

Definition bytesb (l : list Z) : bool := forallb (fun x => (0 <=? x) && (x <? 256)) l.
Lemma bytesb_ok l : bytesb l = true -> bytes l.
Proof. intros H. apply Forall_elem. intros x Hx. apply list_elem_of_In in Hx. unfold bytesb in H. rewrite forallb_forall in H. specialize (H x Hx). bool_prop. unfold is_u8. lia. Qed.

Lemma page_bytes : Forall bytes page_frames.
Proof. repeat (constructor; [apply bytesb_ok; vm_compute; reflexivity|]). constructor. Qed.

(** A segment of the peer, by its offset. *)
Lemma page_piece seq flags payload o : frame_segment (tcp_frame seq flags payload) = Some (Segment peer_ip 80 49152 seq 0 flags payload) ->
  0 <= o -> o + Z.of_nat (length payload) <= 5 -> seq = u32 (1000 + 1 + o) -> payload = take (length payload) (drop (Z.to_nat o) page) -> (Z.land flags 0x12 =? 0x12) = false ->
  (flag_set flags 1 = true -> o + Z.of_nat (length payload) = 5) -> forall g, frame_segment (tcp_frame seq flags payload) = Some g -> honest 1000 page g.
Proof. intros -> H1 H2 H3 H4 H5 H6 g [= <-]. by apply (honest_data _ _ _ o). Qed.

Lemma page_honest frame : frame ∈ page_frames -> peer_frame 1000 page peer_ip 80 49152 frame.
Proof.
  intros Hf. split; [exact (proj1 (Forall_elem _ _) page_bytes _ Hf)|]. intros g Hg _ _ _. unfold page_frames in Hf. repeat (apply elem_of_cons in Hf as [->|Hf]); [..|by apply elem_of_nil in Hf].
  - exfalso. revert Hg. vm_compute. done.
  - assert (E : frame_segment (tcp_frame 1000 0x12 []) = Some (Segment peer_ip 80 49152 1000 0 0x12 [])) by (vm_compute; reflexivity). rewrite E in Hg. injection Hg as <-. by apply honest_syn.
  - apply (page_piece 1004 0x19 [108; 111] 3) in Hg; (done || (cbn; lia) || (vm_compute; reflexivity)).
  - apply (page_piece 1001 0x18 [72; 101; 108] 0) in Hg; (done || (cbn; lia) || (vm_compute; reflexivity)).
  - apply (page_piece 1001 0x18 [72; 101; 108] 0) in Hg; (done || (cbn; lia) || (vm_compute; reflexivity)).
  - apply (page_piece 1004 0x19 [108; 111] 3) in Hg; (done || (cbn; lia) || (vm_compute; reflexivity)).
Qed.

(** What a client gets of the page. *)
Definition fetch (w : wire) : option (Z * list Z) :=
  '(code, s) ← net_tcp_stream_connect 600 0 peer_ip 80 (replicate 16 0) 16 (host w);
  '(out, _) ← run_calls 600 [CallRecv 2 100; CallPoll; CallRecv 10 100; CallRecv 10 100; CallRecv 10 3] s;
  Some (code, out).

Example fetch_page : fetch page_wire = Some (0, page).
Proof. vm_compute. reflexivity. Qed.

(** The same page with sequence numbers that wrap in the middle of it. *)
Definition wrap_frames : list (list Z) :=
  [arp_frame; tcp_frame 0xFFFFFFFD 0x12 []; tcp_frame 1 0x19 [108; 111]; tcp_frame 0xFFFFFFFE 0x18 [72; 101; 108]; tcp_frame 0xFFFFFFFE 0x18 [72; 101; 108]; tcp_frame 1 0x19 [108; 111]].

Example fetch_wraps : fetch (Wire 0 wrap_frames []) = Some (0, page).
Proof. vm_compute. reflexivity. Qed.

(** ** A DHCP server *)

Definition the_lease : lease := Lease 0xC0A80117 0xFFFFFF00 0xC0A80101 0.

(** A reply to the transaction of a host whose clock starts at 0. *)
Definition reply_payload (ty : Z) : list Z :=
  [2; 1; 6; 0] ++ put32 0x44484350 ++ replicate 8 0 ++ put32 (le_ip the_lease) ++ replicate 216 0 ++ put32 0x63825363 ++
  [53; 1; ty; 54; 4; 192; 168; 1; 1; 1; 4] ++ put32 (le_mask the_lease) ++ [3; 4] ++ put32 (le_router the_lease) ++ [255].

Definition dhcp_frame (ty : Z) : list Z :=
  ip_frame my_mac peer_mac (packet (28 + Z.of_nat (length (reply_payload ty))) 9 NET_IP_PROTO_UDP 0xC0A80101 0xFFFFFFFF
    (udp_segment 0xC0A80101 0xFFFFFFFF NET_DHCP_SERVER_PORT NET_DHCP_CLIENT_PORT (reply_payload ty))).

Definition server_frames : list (list Z) := [dhcp_frame 2; dhcp_frame 5].
Definition server_wire : wire := Wire 0 server_frames [].

Lemma server_bytes : Forall bytes server_frames.
Proof. repeat (constructor; [apply bytesb_ok; vm_compute; reflexivity|]). constructor. Qed.

Lemma server_honest frame : frame ∈ server_frames -> server_frame the_lease frame.
Proof.
  intros Hf payload size xid yi o Hd Hr Hty. unfold server_frames in Hf. repeat (apply elem_of_cons in Hf as [->|Hf]); [..|by apply elem_of_nil in Hf].
  - exfalso. vm_compute in Hd. injection Hd as <- <-. vm_compute in Hr. injection Hr as <- <- <-. done.
  - vm_compute in Hd. injection Hd as <- <-. vm_compute in Hr. injection Hr as <- <- <-. vm_compute. reflexivity.
Qed.

Definition lease_result : option (Z * Z * Z * Z * Z) :=
  '(code, s) ← net_dhcp_configure 600 0 (host server_wire);
  Some (code, local_ip s, local_netmask s, local_gateway s, local_dns s).

Example lease_taken : lease_result = Some (0, 0xC0A80117, 0xFFFFFF00, 0xC0A80101, NET_DEFAULT_DNS).
Proof. vm_compute. reflexivity. Qed.
