(* ===== verification/NetGetSafe.v ===== *)
(** A request over HTTP ends: whatever the server sends, every wait is bounded
    (the deadline moves on only while the body grows, and the body is bounded
    by the buffer), nothing is written outside the caller's buffer, and the
    size reported is within it. *)
From Stdlib Require Import ZArith Lia.
From stdpp Require Import base tactics option list numbers functions.
From S2P Require Import Prelude.
From S2P Require Import Buffer.
From S2P Require Import NetWire.
From S2P Require Import NetState.
From S2P Require Import NetHttp.
From S2P Require Import NetDns.
From S2P Require Import NetRecv.
From S2P Require Import NetGet.
From S2P Require Import NetSafe.
From S2P Require Import NetInvariant.
From S2P Require Import NetSession.
From S2P Require Import NetDhcp.
From S2P Require Import NetFrames.
From S2P Require Import NetBody.
#[local] Open Scope Z_scope.

(** ** The body only grows *)

Definition grows (g g' : tcp_get_t) : Prop :=
  tg_active g' = tg_active g /\ tg_out_capacity g' = tg_out_capacity g /\ tg_out_size g <= tg_out_size g'.

#[export] Instance grows_preorder : PreOrder grows.
Proof. split; [by intros g|]. intros a b c (A1 & A2 & A3) (B1 & B2 & B3). split; [congruence|]. split; [congruence|lia]. Qed.

Lemma store_info_grows g : grows g (store_info g).
Proof. unfold store_info. by destruct (tg_info g). Qed.

Lemma push_tail_grows ch g : yields (push_tail ch g) (grows g).
Proof. unfold push_tail. yields_steps. Qed.

Lemma copy_byte_grows ch g : yields (net_http_copy_body_byte ch g) (grows g).
Proof.
  unfold net_http_copy_body_byte. yields_step.
  - apply (yields_then (grows g)); [yields_steps|]. intros g1 H1. apply (yields_then (grows g)); [intros g2 Hg2; etransitivity; [exact H1|by eapply push_tail_grows]|].
    intros g2 H2. yields_step; apply yields_some; [|done]. etransitivity; [exact H2|]. etransitivity; [|apply store_info_grows]. done.
  - yields_step; [apply yields_some; etransitivity; [|apply store_info_grows]; done|]. yields_steps. split; [done|]. split; [done|]. cbn. lia.
Qed.

Lemma copy_body_grows data g : yields (copy_body data g) (grows g).
Proof.
  revert g. induction data as [|ch data IH]; intros g; cbn [copy_body]; [by apply yields_some|]. apply (yields_then (grows g)); [apply copy_byte_grows|].
  intros g1 H1 g2 H2. etransitivity; [exact H1|by eapply IH].
Qed.

Section frames.
Context {E : Type} `{!NetDriver E}.
Implicit Types s : net E.

Lemma get_send_get index flags s : tcp_get (get_send index flags s) = tcp_get s.
Proof. apply silent_get, silent_get_send. Qed.
Lemma send_packet_get flags payload s : tcp_get (snd (net_tcp_stream_send_packet flags payload s)) = tcp_get s.
Proof. apply silent_get, silent_net_tcp_stream_send_packet. Qed.

Lemma get_segment_grows index g s : yields (get_segment index g s) (fun s' => grows (tcp_get s) (tcp_get s')).
Proof.
  unfold get_segment. cbv zeta. do 4 (yields_step; [apply yields_some; try done; by rewrite get_send_get|]).
  apply (yields_then (fun s' => grows (tcp_get s) (tcp_get s'))).
  - unfold get_payload. cbv zeta. yields_step; [by apply yields_some|]. yields_step; [|yields_step; apply yields_some; [by rewrite get_send_get|done]].
    apply yields_bind. intros data _. apply (yields_then (grows (tcp_get s))); [apply copy_body_grows|]. intros t Ht. apply yields_some. rewrite get_send_get. exact Ht.
  - intros s1 Hs1. apply yields_some. unfold get_fin. match goal with |- context [if ?c then _ else _] => destruct c end; [|done]. etransitivity; [exact Hs1|].
    cbn [update_get tcp_get set_tcp_get]. rewrite get_send_get. done.
Qed.

Lemma stream_segment_get g s : yields (stream_segment g s) (fun s' => tcp_get s' = tcp_get s).
Proof.
  unfold stream_segment. cbv zeta. apply yields_if; intros _; [by apply yields_some|].
  match goal with |- context [negb (ts_connected (tcp_stream ?u))] => set (s1 := u) end. assert (H1 : tcp_get s1 = tcp_get s) by (unfold s1; by destruct (_ && _)). clearbody s1.
  rewrite <- H1. apply yields_if; intros _; [apply yields_some; by rewrite send_packet_get|]. apply (yields_then (fun s' => tcp_get s' = tcp_get s1)).
  - unfold stream_payload. cbv zeta. yields_step; [by apply yields_some|]. yields_step; [|yields_steps; by rewrite send_packet_get].
    apply (yields_then (fun s' => tcp_get s' = tcp_get s1)); [yields_steps|]. intros s' Hs'. apply yields_some. by rewrite send_packet_get.
  - intros s2 H2. apply yields_some. rewrite <- H2. unfold stream_fin. match goal with |- context [if ?c then _ else _] => destruct c end; [|done].
    unfold update_stream at 1. cbn [tcp_get set_tcp_stream]. by rewrite send_packet_get.
Qed.

Lemma arp_get index payload size s : yields (net_handle_arp index payload size s) (fun s' => tcp_get s' = tcp_get s).
Proof.
  unfold net_handle_arp. yields_steps; cbn [tcp_get set_arp_wait bump].
  all: repeat match goal with |- context [tcp_get (if ?c then _ else _)] => destruct c end; try done.
  all: by rewrite (silent_get _ _ (silent_net_send_arp_reply _ _ _ _)).
Qed.

Lemma udp_get index ip hs total s : yields (net_handle_udp index ip hs total s) (fun s' => tcp_get s' = tcp_get s).
Proof.
  unfold net_handle_udp. yields_steps; [unfold net_handle_dhcp; yields_steps|unfold net_handle_dns; yields_steps]. match goal with x : dns_wait_t * bool |- _ => destruct x as [w hit] end. apply yields_some. by destruct hit.
Qed.

Lemma receive_grows index frame s : yields (net_receive_frame index frame s) (fun s' => grows (tcp_get s) (tcp_get s')).
Proof.
  unfold net_receive_frame. cbv zeta. yields_step; [by apply yields_some|]. apply yields_bind. intros ty _. apply (yields_then (fun '(_, _, s1) => tcp_get s1 = tcp_get s)).
  { yields_steps. } intros [[ty' off] s1] H1. rewrite <- H1. yields_step; [by apply yields_some|]. yields_step; [|yields_step; [|by apply yields_some]].
  - intros s' Hs'. by rewrite (arp_get _ _ _ _ _ Hs').
  - unfold net_handle_ipv4. cbv zeta. yields_step; [by apply yields_some|]. do 4 yields_step. do 2 (yields_step; [by apply yields_some|]). yields_step; [|yields_step; [|by apply yields_some]].
    + unfold net_handle_tcp. yields_step. match goal with x : option segment |- _ => destruct x as [g|] end; [|by apply yields_some]. yields_step; intros s' Hs'.
      * by rewrite (stream_segment_get _ _ _ Hs').
      * exact (get_segment_grows _ _ _ _ Hs').
    + intros s' Hs'. by rewrite (udp_get _ _ _ _ _ _ Hs').
Qed.
End frames.

(** ** The interface of the libraries *)

(** What a request leaves: the caller's buffer keeps its size, and the body is
    inside it. *)
Definition result_ok (out : list Z) (r : http_result) : Prop :=
  length (hr_out r) = length out /\ 0 <= hr_out_size r <= Z.of_nat (length out) /\ -15 <= hr_code r <= 0 /\ (hr_code r <> 0 -> hr_out_size r = 0).

(** The decompressor stays in the buffer it is given, and gives the size of
    what it wrote. *)
Class HttpLibsOk {E : Type} `{!NetDriver E} `{!HttpLibs E} (I : E -> Prop) : Prop := {
  libs_kmalloc : forall size e, I e -> I (snd (kmalloc_grants size e));
  libs_zlib : forall header out capacity data, bytes out -> bytes data -> 0 <= capacity <= Z.of_nat (length out) ->
    let '(n, out') := zlib_decode header out capacity data in length out' = length out /\ bytes out' /\ n <= capacity
}.

Section get.
Context {E : Type} `{!NetDriver E} `{!HttpLibs E} {I : E -> Prop} {P : list Z -> Prop} {rounds : Z -> nat} `{!NetPeer I P rounds} `{!HttpLibsOk I}.
Implicit Types s : net E.
Notation good := (good (I := I)).
Notation later := (later (I := I)).

(** The request is active with a buffer of [C] bytes, [m] of which are there. *)
Definition fetching (C m : Z) (_ : tcp_stream_t) (_ : dhcp_wait_t) (g : tcp_get_t) : Prop := tg_active g = true /\ tg_out_capacity g = C /\ m <= tg_out_size g.

Lemma fetching_keeps C m : keeps_frames (P := P) (fetching C m).
Proof.
  intros index frame s s' _ _ (H1 & H2 & H3) Hr. destruct (receive_grows index frame s s' Hr) as (G1 & G2 & G3). split; [congruence|]. split; [congruence|lia].
Qed.

Lemma fetching_bound C m s : good (fetching C m) s -> tg_out_size (tcp_get s) < C /\ Z.of_nat (length (tg_out (tcp_get s))) = C /\ 0 <= tg_out_size (tcp_get s) /\ bytes (tg_out (tcp_get s)).
Proof. intros (Hok & _ & (Ha & Hc & _)). destruct (ok_get _ Hok) as [(_ & _ & _ & _ & Hg) _]. destruct (Hg Ha) as (G1 & G2 & G3). cbn in *. split; [lia|]. split; [lia|]. split; [lia|done]. Qed.

(** Each restart of the deadline has a longer body. *)
Lemma done_loop_ends C fuel n index start last s : good (fetching C last) s -> expires start NET_TIMEOUT_TICKS n (env s) -> last < C ->
  (C - last) * (Z.of_nat (rounds NET_TIMEOUT_TICKS) + 1) + Z.of_nat n < Z.of_nat fuel ->
  gives (done_loop fuel index start last s) (fun '(code, s') => good (fetching C last) s' /\ -1 <= code <= 0).
Proof.
  revert n start last s. induction fuel as [|fuel IH]; intros n start last s Hg Hx Hlast Hf; [nia|]. cbn [done_loop].
  pose proof (ticks_expires (fetching C last) start NET_TIMEOUT_TICKS n s Hg Hx) as Ht. destruct (ticks s) as [now s1]. destruct Ht as [Hl1 Ht].
  destruct (Z.ltb_spec (u64 (now - start)) NET_TIMEOUT_TICKS); [|cbn; split; [apply Hl1|destruct (tg_header_done _); lia]]. destruct Ht as [?|(n' & -> & Hx1)]; [lia|].
  eapply gives_bind; [apply (net_progress_device_follows (fetching C last)); [apply fetching_keeps|apply Hl1]|]. intros s2 Hf2. pose proof (proj1 Hf2) as Hg2.
  case_if; [split; [done|lia]|]. case_if; [split; [done|lia]|]. case_if; [split; [done|lia]|]. destruct (fetching_bound _ _ _ Hg2) as (Hb & _).
  destruct (Z.eqb_spec (tg_out_size (tcp_get s2)) last) as [Heq|Hne]; cbn [negb].
  - apply (IH n'); [done|eapply expires_quiet; [apply Hf2|done]|done|lia].
  - pose proof (proj2 (proj2 Hg2)) as (Q1 & Q2 & Q3). set (last' := tg_out_size (tcp_get s2)) in *.
    assert (Hg2' : good (fetching C last') s2) by (eapply good_mono; [exact Hg2|]; split; [done|]; split; [done|unfold last'; lia]).
    pose proof (ticks_later (fetching C last') s2 Hg2') as Ht2. destruct (ticks s2) as [start' s3]. destruct Ht2 as [Hl3 Hx3].
    eapply gives_mono; [apply (IH (rounds NET_TIMEOUT_TICKS)); [apply Hl3|by apply Hx3|done|nia]|].
    intros [code s4] [Hg4 Hc]. split; [|done]. eapply good_mono; [exact Hg4|]. destruct (proj2 (proj2 Hg4)) as (R1 & R2 & R3). split; [done|]. split; [done|lia].
Qed.

(** ** The body *)

Lemma net_kmalloc_good Q size s : good Q s -> good Q (snd (net_kmalloc size s)).
Proof. intros (H1 & H2 & H3). unfold net_kmalloc. pose proof (libs_kmalloc size (env s) H2) as Hk. destruct (kmalloc_grants size (env s)) as [ok e]. cbn in *. split; [exact H1|]. by split. Qed.

Definition body_ok (out : list Z) (r : list Z * Z) : Prop := length (fst r) = length out /\ bytes (fst r) /\ 0 <= snd r < Z.of_nat (length out).

Lemma decode_flags_safe flags body capacity compressed : bytes body -> bytes compressed -> 0 <= capacity <= Z.of_nat (length body) ->
  gives (decode_flags flags body capacity compressed) (fun '(n, body') => length body' = length body /\ bytes body' /\ n <= capacity).
Proof.
  intros Hb Hc Hcap. unfold decode_flags. case_if; [|case_if].
  - eapply gives_bind; [by apply gzip_range_safe|]. intros [[off sz]|] Hr; [|cbn; split; [done|]; split; [done|lia]]. case_if; [|cbn; split; [done|]; split; [done|lia]].
    eapply gives_bind; [apply gives_rd_block; (done || lia)|]. intros data [Hd _]. cbn [gives]. by apply libs_zlib.
  - pose proof (libs_zlib true body capacity compressed Hb Hc Hcap) as H1. destruct (zlib_decode true body capacity compressed) as [n body']. destruct H1 as (L1 & B1 & N1). cbn [gives].
    destruct (n <? 0); [|done]. pose proof (libs_zlib false body' capacity compressed B1 Hc ltac:(lia)) as H2. destruct (zlib_decode false body' capacity compressed) as [n2 b2]. destruct H2 as (L2 & B2 & N2).
    split; [congruence|done].
  - cbn. split; [done|]. split; [done|lia].
Qed.

Lemma net_http_decode_content_safe Q body in_size flags s : good Q s -> bytes body -> 0 <= in_size < Z.of_nat (length body) ->
  gives (net_http_decode_content body in_size flags s) (fun '(code, body', size, s') => good Q s' /\ body_ok body (body', size) /\ tcp_get s' = tcp_get s).
Proof.
  intros Hg Hb Hs. assert (Hsame : body_ok body (body, in_size)) by (split; [done|]; by split). unfold net_http_decode_content. case_if; [done|]. case_if; [done|]. bool_prop.
  assert (Hk : tcp_get (snd (net_kmalloc in_size s)) = tcp_get s) by (unfold net_kmalloc; by destruct (kmalloc_grants in_size (env s))).
  pose proof (net_kmalloc_good Q in_size s Hg) as Hg1. destruct (net_kmalloc in_size s) as [granted s1]. cbn [snd] in Hg1, Hk. case_if; [done|].
  eapply gives_bind; [apply gives_rd_block; (done || lia)|]. intros compressed [Hcb _]. eapply gives_bind; [apply decode_flags_safe; (done || lia)|]. intros [n body'] (L1 & B1 & N1).
  destruct (Z.ltb_spec n 0); [cbn; split; [done|]; split; [|done]; split; [done|]; by split; [|cbn; lia]|].
  eapply gives_bind; [apply wr8_same; [lia|unfold is_u8; lia]|]. intros b2 [L2 B2]. cbn. split; [done|]. split; [|done]. split; [cbn; congruence|]. split; [cbn; auto|cbn; lia].
Qed.

Lemma finish_body_safe C m want s : good (fetching C m) s ->
  gives (finish_body want s) (fun '(r, s') => net_ok s' /\ I (env s') /\ tg_active (tcp_get s') = false /\ result_ok (tg_out (tcp_get s)) r).
Proof.
  intros Hg. destruct (fetching_bound _ _ _ Hg) as (B1 & B2 & B3 & B4). pose proof (proj2 (proj2 Hg)) as (_ & Ecap & _). unfold finish_body. set (g := tcp_get s) in *. rewrite Ecap, <- B2.
  apply (gives_bind _ _ (fun '(out, size, _) => body_ok (tg_out g) (out, size))).
  { case_if; [|cbn; split; [done|]; split; [done|cbn; lia]]. unfold net_http_decode_chunked. rewrite (proj2 (Z.eqb_neq _ 0)) by lia.
    eapply gives_bind; [apply chunk_loop_safe; lia|]. intros [[code out'] size] ((L & Lb) & _ & Hsz). cbn [gives]. destruct (code =? 0); (split; [done|]; split; [cbn; auto|cbn; lia]). }
  intros [[out size] info] (L1 & L2 & L3). cbn [fst snd] in L1, L2, L3.
  apply (gives_bind _ _ (fun '(code, out', size', _, s') => good (fetching C m) s' /\ body_ok (tg_out g) (out', size') /\ tcp_get s' = g /\ (code = 0 \/ code = -15))).
  { case_if; [|cbn; split; [done|]; split; [done|]; by split; [|left]]. eapply gives_bind; [apply net_http_decode_content_safe; [exact Hg|done|lia]|].
    intros [[[code out'] size'] s'] (Hg' & (D1 & D2 & D3) & Eg). cbn [fst snd] in D1, D2, D3. cbn [gives]. destruct (code =? 0).
    - split; [done|]. split; [split; [cbn; congruence|]; split; [done|cbn; lia]|]. by split; [|left].
    - split; [done|]. split; [split; [cbn; congruence|]; split; [done|cbn; lia]|]. by split; [|right]. }
  intros [[[[code out'] size'] info'] s'] (Hg' & (D1 & D2 & D3) & Eg & Hcode). cbn [fst snd] in D1, D2, D3. cbn [gives]. destruct (ok_get _ (proj1 Hg')) as [(G1 & G2 & G3 & G4 & _) G6]. cbn [core co_tcp_get] in G1, G2, G3, G4, G6. rewrite Eg in *.
  split; [|split; [apply Hg'|split; [done|]]].
  - destruct Hg' as ([] & _). by constructor.
  - split; [cbn; congruence|]. cbn. destruct Hcode as [-> | ->]; cbn; lia.
Qed.

(** ** The exchange *)

Lemma good_set_get (Q' : tcp_stream_t -> dhcp_wait_t -> tcp_get_t -> Prop) Q g s : good Q s -> get_ok g -> is_u32 (tg_ack g) -> Q' (tcp_stream s) (dhcp_wait s) g -> good Q' (set_tcp_get g s).
Proof. intros ([] & Hi & Hq) Hg Ha HQ. split; [by constructor|done]. Qed.

(** Giving up. *)
Lemma inactive_ok C m s : good (fetching C m) s ->
  net_ok (update_get (set_tg_active false) s) /\ I (env (update_get (set_tg_active false) s)) /\ tg_active (tcp_get (update_get (set_tg_active false) s)) = false.
Proof.
  intros Hg. destruct (ok_get _ (proj1 Hg)) as [(G1 & G2 & G3 & G4 & _) G6]. cbn in *.
  destruct (good_set_get (fun _ _ _ => True) _ (set_tg_active false (tcp_get s)) s Hg) as (H1 & H2 & _); [by split; [|split; [|split; [|split]]]|done|done|]. by split.
Qed.

Lemma get_failed_ok C m code want s out : good (fetching C m) s -> Z.of_nat (length out) = C -> -15 <= code < 0 ->
  let '(r, s') := get_failed code want s in net_ok s' /\ I (env s') /\ tg_active (tcp_get s') = false /\ result_ok out r.
Proof.
  intros Hg Hout Hc. destruct (fetching_bound _ _ _ Hg) as (_ & B2 & _). destruct (inactive_ok _ _ _ Hg) as (H1 & H2 & H3). unfold get_failed. split; [done|]. split; [done|]. split; [done|].
  split; [cbn; lia|]. cbn. lia.
Qed.

Lemma get_exchange_ends fuel index ip port mac request out want s : good (fun _ _ _ => True) s -> bytes out -> out <> [] ->
  (Z.of_nat (length out) + 1) * (Z.of_nat (rounds NET_TIMEOUT_TICKS) + 1) < Z.of_nat fuel ->
  gives (get_exchange fuel index ip port mac request out want s) (fun '(r, s') => net_ok s' /\ I (env s') /\ tg_active (tcp_get s') = false /\ result_ok out r).
Proof.
  intros Hg Hb Hne Hf. unfold get_exchange. set (s1 := set_next_local_port _ s). assert (Hg1 : good (fun _ _ _ => True) s1) by (apply good_set_port; [done|]; apply Z.mod_pos_bound; lia).
  pose proof (ticks_later (fun _ _ _ => True) s1 Hg1) as Ht. destruct (ticks s1) as [now s2]. destruct Ht as [[Hg2 _] _]. set (seq := u32 _). set (C := Z.of_nat (length out)) in *.
  assert (HC : 0 < C) by (unfold C; destruct out; [done|cbn; lia]). set (F := fetching C 0). set (g0 := new_get _ _ _ _ _ _ _ _). set (s3 := set_tcp_get g0 s2).
  assert (Hg3 : good F s3). { eapply good_set_get; [exact Hg2| |cbn; cint|by split; [|split]]. split; [done|]. split; [cbn; lia|]. split; [done|]. split; [cbn; lia|]. intros _. cbn. split; [done|]. split; [cbn; lia|done]. }
  assert (Hupd : forall u f, good F u -> (forall g, get_ok g -> get_ok (f g)) -> (forall g, tg_ack (f g) = tg_ack g) -> (forall g, F (tcp_stream u) (dhcp_wait u) g -> F (tcp_stream u) (dhcp_wait u) (f g)) -> good F (update_get f u)).
  { intros u f Hu H1 H2 H3. destruct (ok_get _ (proj1 Hu)) as [G1 G2]. eapply good_set_get; [exact Hu|by apply H1|by rewrite H2|]. apply H3, Hu. }
  unfold net_send_tcp at 1. match goal with |- context [net_send_tcp_window ?a1 ?a2 ?a3 ?a4 ?a5 ?a6 ?a7 ?a8 ?a9 ?a10 ?a11] =>
    pose proof (silent_net_send_tcp_window a1 a2 a3 a4 a5 a6 a7 a8 a9 a10 a11) as Hs; destruct (net_send_tcp_window a1 a2 a3 a4 a5 a6 a7 a8 a9 a10 a11) as [code s4] end. cbn [snd] in Hs.
  pose proof (good_silent F _ _ Hg3 Hs) as Hg4. case_if. { destruct (inactive_ok _ _ _ Hg4) as (H1 & H2 & H3). split; [done|]. split; [done|]. split; [done|]. split; [done|]. cbn. lia. }
  set (s5 := update_get _ s4). assert (Hg5 : good F s5) by (apply Hupd; [done|by intros g ?|done|by intros g ?]).
  eapply gives_bind; [apply (wait_ends F); [apply fetching_keeps|done|done|nia]|]. intros [code6 s6] [[Hg6 _] _]. case_if; [by apply (get_failed_ok C 0)|].
  unfold net_send_tcp at 1. match goal with |- context [net_send_tcp_window ?a1 ?a2 ?a3 ?a4 ?a5 ?a6 ?a7 ?a8 ?a9 ?a10 ?a11] =>
    pose proof (silent_net_send_tcp_window a1 a2 a3 a4 a5 a6 a7 a8 a9 a10 a11) as Hs7; destruct (net_send_tcp_window a1 a2 a3 a4 a5 a6 a7 a8 a9 a10 a11) as [code7 s7] end. cbn [snd] in Hs7.
  pose proof (good_silent F _ _ Hg6 Hs7) as Hg7. case_if; [by apply (get_failed_ok C 0)|]. set (s8 := update_get _ s7). assert (Hg8 : good F s8) by (apply Hupd; [done|by intros g ?|done|by intros g ?]).
  apply (gives_bind _ _ (fun '(_, s') => good F s')).
  { unfold net_wait_for_tcp_done. pose proof (ticks_later F s8 Hg8) as Ht. destruct (ticks s8) as [start s9]. destruct Ht as [Hl9 Hx]. destruct (fetching_bound _ _ _ (proj1 Hl9)) as (B1 & _ & B3 & _).
    eapply gives_mono; [eapply (done_loop_ends C); [|by apply Hx|done|nia]|].
    - eapply good_mono; [apply Hl9|]. destruct (proj2 (proj2 (proj1 Hl9))) as (R1 & R2 & R3). split; [done|]. by split.
    - intros [c s'] [Hg' _]. eapply good_mono; [exact Hg'|]. destruct (proj2 (proj2 Hg')) as (R1 & R2 & R3). split; [done|]. split; [done|lia]. }
  intros [code9 s9] Hg9. case_if; [by apply (get_failed_ok C 0)|]. destruct (fetching_bound _ _ _ Hg9) as (_ & B2 & _). eapply gives_mono; [by apply (finish_body_safe C 0)|].
  intros [r s10] (H1 & H2 & H3 & (R1 & R2 & R3)). split; [done|]. split; [done|]. split; [done|]. split; [lia|]. split; [lia|done].
Qed.

(** ** The request *)

Lemma http_failed_ok code out0 out want s : net_ok s -> I (env s) -> length out = length out0 -> -15 <= code < 0 ->
  let '(r, s') := http_failed code out want s in net_ok s' /\ I (env s') /\ result_ok out0 r.
Proof. intros H1 H2 H3 Hc. split; [done|]. split; [done|]. split; [done|]. cbn. lia. Qed.

(** The request is over [https] and is handed to the TLS client, with the name
    looked up and the stack in order. *)
Definition handed_to_tls (index : Z) (url out : list Z) (want : bool) (o : option (http_result * net E)) : Prop :=
  exists u ip out' s', net_parse_url url NET_HTTP_HOST_SIZE = Some u /\ url_is_https u = true /\ length out' = length out /\ net_ok s' /\ I (env s') /\
    o = net_tls_http_get index ip (url_port u) (url_host u) (url_path u) out' want s'.

Local Ltac case_either := match goal with |- gives (if ?c then _ else _) _ \/ _ => destruct c eqn:? end.

Lemma net_http_get_ex_ends fuel index url out want s : net_ok s -> I (env s) -> bytes out ->
  (Z.of_nat (length out) + 1) * (Z.of_nat (rounds NET_TIMEOUT_TICKS) + 1) < Z.of_nat fuel ->
  let o := net_http_get_ex fuel index (Some url) (Some out) want s in
  gives o (fun '(r, s') => net_ok s' /\ I (env s') /\ result_ok out r) \/ handed_to_tls index url out want o.
Proof.
  intros Hok Hi Hb Hf. cbv zeta. assert (Hg : good (fun _ _ _ => True) s) by by split; [|split]. assert (HR : (rounds NET_TIMEOUT_TICKS < fuel)%nat) by nia. unfold net_http_get_ex.
  case_either; [left; by apply http_failed_ok|]. bool_prop.
  destruct (proj1 (gives_iff _ _) (wr8_same out 0 0 ltac:(lia) ltac:(unfold is_u8; lia))) as (out1 & -> & L1 & B1). specialize (B1 Hb). cbn [mbind option_bind].
  destruct (net_parse_url url NET_HTTP_HOST_SIZE) as [u|] eqn:Hu; [|left; by apply http_failed_ok].
  assert (Hr : gives (if url_ip u =? 0 then net_dns_resolve fuel index (url_host u) s else Some (0, url_ip u, s)) (fun '(_, _, s') => good (fun _ _ _ => True) s')).
  { case_if; [|done]. eapply gives_mono; [apply (net_dns_resolve_ends (fun _ _ _ => True)); done|]. intros [[code ip] s'] [[Hg' _] _]. done. }
  apply gives_iff in Hr as ([[code ip] s1] & -> & Hg1). cbn [mbind option_bind]. case_either; [left; apply http_failed_ok; (apply Hg1 || done)|].
  destruct (url_is_https u) eqn:Hhttps; [right; by exists u, ip, out1, s1; split_and!; try apply Hg1|left].
  case_if; [apply http_failed_ok; (apply Hg1 || done)|]. eapply gives_bind; [apply (net_arp_resolve_ends (fun _ _ _ => True)); done|]. intros [[code2 mac] s2] (Hg2 & _).
  case_if; [apply http_failed_ok; (apply Hg2 || done)|]. pose proof (net_kmalloc_good _ NET_HTTP_REQUEST_SIZE s2 Hg2) as Hg3. destruct (net_kmalloc NET_HTTP_REQUEST_SIZE s2) as [granted s3]. cbn [snd] in Hg3.
  case_if; [apply http_failed_ok; (apply Hg3 || done)|]. destruct (net_build_http_request _ _ _ _) as [request|]; [|apply http_failed_ok; (apply Hg3 || done)].
  eapply gives_mono; [apply get_exchange_ends; [exact Hg3|done|intros ->; cbn in L1; lia|rewrite L1; done]|].
  intros [r s4] (H1 & H2 & _ & (R1 & R2 & R3)). split; [done|]. split; [done|]. split; [congruence|]. split; [lia|done].
Qed.
End get.
