(* ===== verification/NetTheorems.v ===== *)
(** The properties of the network stack. *)
From Stdlib Require Import ZArith Lia.
From stdpp Require Import base tactics option list numbers functions.
From S2P Require Import Prelude.
From S2P Require Import Buffer.
From S2P Require Import NetWire.
From S2P Require Import NetState.
From S2P Require Import NetHttp.
From S2P Require Import NetDns.
From S2P Require Import NetRecv.
From S2P Require Import NetGet.
From S2P Require Import NetSafe.
From S2P Require Import NetInvariant.
From S2P Require Import NetSession.
From S2P Require Import NetDhcp.
From S2P Require Import NetFrames.
From S2P Require Import NetBody.
From S2P Require Import NetDemo.
From S2P Require Import NetGetSafe.
#[local] Open Scope Z_scope.

(** C29: Whatever bytes a frame has, [net_receive_frame] ends without reading or
    writing outside a buffer (the frame, the stream's buffer, the header and
    body buffers of a request, the name buffers; a name with compression
    pointers ends), keeps the invariant of the stack, and changes neither the
    devices, nor the configuration, nor who is waiting for what. *)
Theorem frames_are_safe {E} `{!NetDriver E} (index : Z) (frame : list Z) (s : net E) :
  bytes frame -> net_ok s -> exists s', net_receive_frame index frame s = Some s' /\ net_ok s' /\ kept (core s) (core s').
Proof.
  intros Hb Hok. destruct (proj1 (gives_iff _ _) (net_receive_frame_safe index frame s Hb Hok)) as (s' & Hs & H1 & H2 & _). eauto.
Qed.

Lemma frames_are_safe_witness : exists s', net_receive_frame 0 (dhcp_frame 5) (host server_wire) = Some s' /\ net_ok s' /\ kept (core (host server_wire)) (core s').
Proof. apply frames_are_safe; [apply (Forall_elem bytes server_frames); [exact server_bytes|right; left]|apply host_ok]. Defined.

(** Calls to send, receive and poll in any order end, and the bytes handed out,
    now behind [c], followed by those in the buffer, are the first [k] bytes of
    [data], all of them once the stream is closed. *)
Definition calls_in_order {E} `{!NetDriver E} (rounds : Z -> nat) (data : list Z) (fuel : nat) (c : list Z) (s : net E) : Prop :=
  forall calls, Forall (call_ok (rounds := rounds) fuel) calls ->
    exists out s' k, run_calls fuel calls s = Some (out, s') /\ net_ok s' /\
      (c ++ out) ++ take (Z.to_nat (ts_rx_size (tcp_stream s'))) (ts_rx_buffer (tcp_stream s')) = take (Z.to_nat k) data /\
      (ts_closed (tcp_stream s') = true -> k = Z.of_nat (length data)).

(** C30: A peer that starts at [isn] sends [data], less than 2 GiB, in segments
    that are cut, reordered, repeated and lost in any way; every other frame is
    arbitrary. An established stream with this peer, of which the bytes [c] were
    handed out, delivers in order whatever calls to send, receive and poll
    follow, and the calls end; the sequence numbers may wrap. And
    [net_tcp_stream_connect] ends and, when it succeeds, makes such a stream,
    provided that the numbers of the data and of the FIN stay below 2^32: a
    stream that still waits for the answer takes data numbered 0, see
    [early_data_repeated]. *)
Theorem tcp_in_order {E} `{!NetDriver E} (I : E -> Prop) (P : list Z -> Prop) (rounds : Z -> nat) `{!NetPeer I P rounds}
    (isn : Z) (data : list Z) (fuel : nat) (index ip port : Z) (buffer : list Z) (capacity : Z) (s : net E) :
  Z.of_nat (length data) < 0x7ffffffe -> (forall frame, P frame -> peer_frame isn data ip port (next_local_port s) frame) ->
  (forall c s1, net_ok s1 -> I (env s1) -> in_order isn data ip port (next_local_port s) c (tcp_stream s1) -> calls_in_order rounds data fuel c s1) /\
  (0 <= isn -> isn + 1 + Z.of_nat (length data) < 4294967296 ->
   net_ok s -> I (env s) -> (rounds NET_TIMEOUT_TICKS < fuel)%nat -> Z.of_nat (length buffer) = capacity -> is_u32 capacity ->
   exists code s1, net_tcp_stream_connect fuel index ip port buffer capacity s = Some (code, s1) /\ net_ok s1 /\ (code = 0 -> calls_in_order rounds data fuel [] s1)).
Proof.
  intros Hd HP.
  assert (Hcalls : forall c s1, net_ok s1 -> I (env s1) -> in_order isn data ip port (next_local_port s) c (tcp_stream s1) -> calls_in_order rounds data fuel c s1).
  { intros c s1 Hok1 He1 Hin calls Hcalls.
    pose proof (run_calls_in_order (I := I) isn data ip port (next_local_port s) Hd HP fuel calls c s1 Hcalls (conj Hok1 (conj He1 Hin))) as Hr.
    apply gives_iff in Hr as ([out s2] & Hout & ((Hok2 & _ & (_ & _ & k & Hk)) & _)). exists out, s2, k. destruct Hk as (_ & K2 & _ & K4). by split. }
  split; [exact Hcalls|]. intros Hi Hw Hok He Hf Hb Hc.
  pose proof (net_tcp_stream_connect_opens (I := I) (P := P) isn data (fun _ _ _ => True) fuel index ip port buffer capacity s Hd Hi Hw HP ltac:(done) (conj Hok (conj He Logic.I)) Hf Hb Hc) as H.
  apply gives_iff in H as ([code s1] & Hrun & Hok1 & He1 & _ & H0 & _). exists code, s1. split; [done|]. split; [done|]. intros ->. destruct (H0 eq_refl) as [_ Hin]. by apply Hcalls.
Qed.

Lemma tcp_in_order_witness : exists code s1, net_tcp_stream_connect 600 0 peer_ip 80 (replicate 16 0) 16 (host page_wire) = Some (code, s1) /\ net_ok s1 /\
    (code = 0 -> calls_in_order (fun limit => Z.to_nat limit) page 600 [] s1).
Proof.
  pose proof (wire_peer page_frames page_bytes) as Hp. apply (tcp_in_order (queued page_frames) (.∈ page_frames) (fun limit => Z.to_nat limit) 1000 page);
    [cbn; lia|exact page_honest|lia|cbn; lia|apply host_ok|apply Forall_elem; done|unfold NET_TIMEOUT_TICKS; lia|reflexivity|unfold is_u32; lia].
Defined.

(** C32: With a server whose acknowledgements carry a lease, [net_dhcp_configure]
    ends; with code 0 the address is the lease's, and so are mask, gateway and
    name server where the lease has them; with any other code the
    configuration is what it was before. *)
Theorem dhcp_takes_lease {E} `{!NetDriver E} (I : E -> Prop) (P : list Z -> Prop) (rounds : Z -> nat) `{!NetPeer I P rounds} (l : lease) (fuel : nat) (index : Z) (s : net E) :
  (forall frame, P frame -> server_frame l frame) -> net_ok s -> I (env s) -> (rounds NET_TIMEOUT_TICKS < fuel)%nat ->
  exists code s', net_dhcp_configure fuel index s = Some (code, s') /\ net_ok s' /\ -3 <= code <= 0 /\
    if code =? 0 then local_ip s' = le_ip l /\ local_netmask s' = or_old (le_mask l) (local_netmask s) /\
      local_gateway s' = or_old (le_router l) (local_gateway s) /\ local_dns s' = or_old (le_dns l) (local_dns s)
    else local_ip s' = local_ip s /\ local_netmask s' = local_netmask s /\ local_gateway s' = local_gateway s /\ local_dns s' = local_dns s.
Proof.
  intros HP Hok Hi Hf. pose proof (net_dhcp_configure_ends (I := I) (P := P) l HP fuel index s (conj Hok (conj Hi Logic.I)) Hf) as H.
  apply gives_iff in H as ([code s'] & Hrun & H1 & _ & H3 & _ & _ & H6). exists code, s'. by split.
Qed.

Lemma dhcp_takes_lease_witness : exists code s', net_dhcp_configure 600 0 (host server_wire) = Some (code, s') /\ net_ok s' /\ -3 <= code <= 0 /\
    if code =? 0 then local_ip s' = le_ip the_lease /\ local_netmask s' = or_old (le_mask the_lease) (local_netmask (host server_wire)) /\
      local_gateway s' = or_old (le_router the_lease) (local_gateway (host server_wire)) /\ local_dns s' = or_old (le_dns the_lease) (local_dns (host server_wire))
    else local_ip s' = local_ip (host server_wire) /\ local_netmask s' = local_netmask (host server_wire) /\
      local_gateway s' = local_gateway (host server_wire) /\ local_dns s' = local_dns (host server_wire).
Proof.
  pose proof (wire_peer server_frames server_bytes) as Hp. apply (dhcp_takes_lease (queued server_frames) (.∈ server_frames) (fun limit => Z.to_nat limit)).
  - exact server_honest.
  - apply host_ok.
  - apply Forall_elem. done.
  - unfold NET_TIMEOUT_TICKS. lia.
Defined.

(** [net_dns_resolve] ends whatever the servers answer (up to five names,
    three servers each, every wait bounded), with one of the documented codes;
    it leaves devices, address, mask, gateway and the lock alone and keeps the
    invariant. *)
Theorem lookups_end {E} `{!NetDriver E} (I : E -> Prop) (P : list Z -> Prop) (rounds : Z -> nat) `{!NetPeer I P rounds} (fuel : nat) (index : Z) (name : list Z) (s : net E) :
  net_ok s -> I (env s) -> (rounds NET_TIMEOUT_TICKS < fuel)%nat ->
  exists code ip s', net_dns_resolve fuel index name s = Some (code, ip, s') /\ -6 <= code <= 0 /\ net_ok s' /\ addresses s' = addresses s.
Proof.
  intros Hok Hi Hf. pose proof (net_dns_resolve_ends (I := I) (P := P) (fun _ _ _ => True) ltac:(done) fuel index name s (conj Hok (conj Hi Logic.I)) Hf) as H.
  apply gives_iff in H as ([[code ip] s'] & Hrun & [Hg Ha] & Hc). exists code, ip, s'. split; [done|]. split; [done|]. by split; [apply Hg|].
Qed.

Lemma lookups_end_witness : exists code ip s', net_dns_resolve 600 0 [97; 46; 98] (host server_wire) = Some (code, ip, s') /\ -6 <= code <= 0 /\ net_ok s' /\
  addresses s' = addresses (host server_wire).
Proof.
  pose proof (wire_peer server_frames server_bytes) as Hp. apply (lookups_end (queued server_frames) (.∈ server_frames) (fun limit => Z.to_nat limit)).
  - apply host_ok.
  - apply Forall_elem. done.
  - unfold NET_TIMEOUT_TICKS. lia.
Defined.

(** C33: A frame handed to the driver for a TCP segment has a legal size and
    right IP and TCP checksums, and [net_receive_frame]'s parser reads the
    segment back as it was sent; the same for UDP datagrams. *)
Theorem sent_frames_read_back {E} `{!NetDriver E} (index : Z) (dst_mac : list Z) (dst_ip sp dp seq ack flags window : Z) (payload : list Z) (s : net E) dev :
  net_ok s -> net_get_device index s = Some dev -> mac_ok dst_mac -> is_u32 dst_ip -> is_port sp -> is_port dp -> is_u32 seq -> is_u32 ack -> is_u8 flags -> bytes payload ->
  54 + Z.of_nat (length payload) <= NET_MAX_FRAME_SIZE ->
  (exists frame, net_send_tcp_window index dst_mac dst_ip sp dp seq ack flags window payload s = net_send_frame index frame (set_next_ip_id (u16 (next_ip_id s + 1)) s) /\
    frame_ok frame /\ segment_checks NET_IP_PROTO_TCP (local_ip s) dst_ip (20 + Z.of_nat (length payload)) frame /\
    frame_segment frame = Some (Segment (local_ip s) sp dp seq ack flags payload)) /\
  (exists frame pad, snd (net_send_udp index dst_mac dst_ip sp dp payload s) =
      (let '(code, s') := net_send_frame index frame (set_next_ip_id (u16 (next_ip_id s + 1)) s) in if code =? 0 then s' else bump udp_tx_errors s') /\
    frame_ok frame /\ segment_checks NET_IP_PROTO_UDP (local_ip s) dst_ip (8 + Z.of_nat (length payload)) frame /\
    frame_datagram frame = Some (sp, dp, payload ++ pad, Z.of_nat (length payload))).
Proof.
  intros H1 H2 H3 H4 H5 H6 H7 H8 H9 H10 H11. split; [by eapply net_send_tcp_window_frame|]. eapply net_send_udp_frame; try done. lia.
Qed.

Lemma sent_frames_read_back_witness : let s := host page_wire in
  (exists frame, net_send_tcp_window 0 peer_mac peer_ip 49152 80 5 6 0x18 4096 page s = net_send_frame 0 frame (set_next_ip_id (u16 (next_ip_id s + 1)) s) /\
    frame_ok frame /\ segment_checks NET_IP_PROTO_TCP (local_ip s) peer_ip (20 + Z.of_nat (length page)) frame /\
    frame_segment frame = Some (Segment (local_ip s) 49152 80 5 6 0x18 page)) /\
  (exists frame pad, snd (net_send_udp 0 peer_mac peer_ip 49152 80 page s) =
      (let '(code, s') := net_send_frame 0 frame (set_next_ip_id (u16 (next_ip_id s + 1)) s) in if code =? 0 then s' else bump udp_tx_errors s') /\
    frame_ok frame /\ segment_checks NET_IP_PROTO_UDP (local_ip s) peer_ip (8 + Z.of_nat (length page)) frame /\
    frame_datagram frame = Some (49152, 80, page ++ pad, Z.of_nat (length page))).
Proof.
  eapply (sent_frames_read_back 0 peer_mac peer_ip 49152 80 5 6 0x18 4096 page (host page_wire)); [apply host_ok|reflexivity|split; [done|apply bytesb_ok; reflexivity]|..];
    try (unfold is_u32, is_u8, is_port, peer_ip; lia); [apply bytesb_ok; reflexivity|cbn; unfold NET_MAX_FRAME_SIZE; lia].
Defined.

(** The name in a query that [net_build_dns_query] builds is read back by
    [net_dns_read_name] from the question of the query, up to the type and
    class behind it; an address that [ip_text] writes into a request is parsed
    by [net_parse_ipv4] to the address it was. *)
Theorem names_read_back (name : list Z) (id : Z) (q : list Z) (ip : Z) :
  net_build_dns_query name id 256 = Some q -> (length name < 128)%nat -> Forall (fun c => c <> 0) name -> is_u32 ip ->
  (exists buf, net_dns_read_name q (Z.of_nat (length q)) 12 (Some (replicate (Z.to_nat NET_DNS_NAME_SIZE) 0)) = Some (NameResult true (Z.of_nat (length q) - 4) (Some buf)) /\ cstr buf = name) /\
  net_parse_ipv4 (ip_text ip) = Some (ip, []).
Proof.
  intros Hq Hl Hz Hip. split; [|by apply ip_text_parses]. destruct (query_reads_back name id q Hq Hl) as (buf & Hr & rest & ->). exists (name ++ 0 :: rest). split; [done|]. by apply cstr_app_nul.
Qed.

Lemma names_read_back_witness : exists q,
  (exists buf, net_dns_read_name q (Z.of_nat (length q)) 12 (Some (replicate (Z.to_nat NET_DNS_NAME_SIZE) 0)) = Some (NameResult true (Z.of_nat (length q) - 4) (Some buf)) /\ cstr buf = [97; 46; 98; 99]) /\
  net_parse_ipv4 (ip_text peer_ip) = Some (peer_ip, []).
Proof.
  eexists. apply (names_read_back [97; 46; 98; 99] 77); [reflexivity|cbn; lia|repeat (constructor; [lia|]); constructor|unfold is_u32, peer_ip; lia].
Defined.

(** [net_http_decode_chunked] decodes a chunked body in place: behind the
    call the buffer starts with the data of the chunks, whatever their sizes,
    the case and leading zeros of the digits and the chunk extensions. *)
Theorem chunked_exact (cs : list chunk) (last : chunk) (trailer free : list Z) : Forall chunk_ok cs -> line_ok last 0 ->
  let text := enc_chunks cs ++ enc_line last ++ trailer in
  exists body', net_http_decode_chunked (text ++ free) (Z.of_nat (length text)) (Z.of_nat (length (text ++ free))) = Some (0, body', Z.of_nat (length (chunk_data cs))) /\
    take (length (chunk_data cs)) body' = chunk_data cs.
Proof. apply chunked_decodes. Qed.

Lemma chunked_exact_witness : let cs := [Chunk [48; 65] [59; 120; CR] [1; 2; 3; 4; 5; 6; 7; 8; 9; 10]; Chunk [50] [CR] [11; 12]] in
  let text := enc_chunks cs ++ enc_line (Chunk [48] [CR] []) ++ [CR; LF] in
  exists body', net_http_decode_chunked (text ++ []) (Z.of_nat (length text)) (Z.of_nat (length (text ++ []))) = Some (0, body', Z.of_nat (length (chunk_data cs))) /\
    take (length (chunk_data cs)) body' = chunk_data cs.
Proof.
  apply (chunked_exact _ (Chunk [48] [CR] []) [CR; LF] []).
  - repeat (constructor; [split; [split; [done|]; split; [repeat (constructor; [by vm_compute|]); constructor|]; split; [reflexivity|]; split; [cbn; lia|]; split; [repeat (constructor; [done|]); constructor|done]|done]|]). constructor.
  - split; [done|]. split; [repeat (constructor; [by vm_compute|]); constructor|]. split; [reflexivity|]. split; [lia|]. split; [repeat (constructor; [done|]); constructor|done].
Defined.

(** On any bytes in a buffer, [net_http_decode_chunked] ends without an
    access outside the buffer and gives a size within the input, and
    [net_http_gzip_deflate_range] finds a range inside the file with the
    trailer behind it, or none. *)
Theorem bodies_stay_inside (body : list Z) (in_size : Z) : bytes body -> 0 <= in_size <= Z.of_nat (length body) -> body <> [] ->
  (exists code body' size, net_http_decode_chunked body in_size (Z.of_nat (length body)) = Some (code, body', size) /\
    length body' = length body /\ -3 <= code <= 0 /\ 0 <= size <= in_size) /\
  (exists r, net_http_gzip_deflate_range body = Some r /\
    match r with Some (offset, size) => 0 <= offset /\ 0 <= size /\ offset + size + 8 = Z.of_nat (length body) | None => True end).
Proof.
  intros Hb Hs Hne. split.
  - unfold net_http_decode_chunked. assert (Hn : Z.of_nat (length body) <> 0) by (destruct body; [done|cbn; lia]). rewrite (proj2 (Z.eqb_neq _ 0)) by done.
    pose proof (chunk_loop_safe (S (Z.to_nat in_size)) body in_size 0 0 ltac:(lia) ltac:(lia) ltac:(lia) ltac:(lia)) as H. apply gives_iff in H as ([[code body'] size] & Hr & (H1 & _) & H2). eauto 10.
  - exact (proj1 (gives_iff _ _) (gzip_range_safe body Hb)).
Qed.

Lemma bodies_stay_inside_witness :
  (exists code body' size, net_http_decode_chunked [57; 10; 1] 3 (Z.of_nat 3) = Some (code, body', size) /\ length body' = 3%nat /\ -3 <= code <= 0 /\ 0 <= size <= 3) /\
  (exists r, net_http_gzip_deflate_range [57; 10; 1] = Some r /\ match r with Some (offset, size) => 0 <= offset /\ 0 <= size /\ offset + size + 8 = Z.of_nat 3 | None => True end).
Proof. apply (bodies_stay_inside [57; 10; 1] 3); [apply bytesb_ok; reflexivity|cbn; lia|done]. Defined.

(** Libraries for a request: memory is there, nothing is compressed, and the
    TLS client never returns. *)
#[local] Instance plain_libs : HttpLibs wire := {
  kmalloc_grants _ e := (true, e);
  zlib_decode _ out _ _ := (-1, out);
  net_tls_http_get _ _ _ _ _ _ _ _ := None
}.

Lemma plain_libs_ok frames : HttpLibsOk (queued frames).
Proof.
  split; [done|]. intros header out capacity data Hb _ Hc. split; [done|]. split; [done|lia].
Qed.

(** C31: A request for a page ends whatever the network does: the name is
    looked up, the hardware address asked for, the connection opened, the page
    fetched for as long as it grows and decoded in place, each wait with its
    deadline; the size handed to the caller is within the caller's buffer, which
    keeps its length, and the stack is in order for the next call. A request
    over https ends in the same way or is handed, with the name looked up and
    the stack in order, to the TLS client, of which nothing is assumed or
    claimed. The decompressor is that of [HttpLibs] and stays inside the buffer
    it is given. *)
Theorem http_get_ends {E} `{!NetDriver E} `{!HttpLibs E} (I : E -> Prop) (P : list Z -> Prop) (rounds : Z -> nat) `{!NetPeer I P rounds} `{!HttpLibsOk I}
    (fuel : nat) (index : Z) (url out : list Z) (want : bool) (s : net E) :
  net_ok s -> I (env s) -> bytes out -> (Z.of_nat (length out) + 1) * (Z.of_nat (rounds NET_TIMEOUT_TICKS) + 1) < Z.of_nat fuel ->
  (exists r s', net_http_get_ex fuel index (Some url) (Some out) want s = Some (r, s') /\ net_ok s' /\ result_ok out r) \/
  handed_to_tls (I := I) index url out want (net_http_get_ex fuel index (Some url) (Some out) want s).
Proof.
  intros Hok Hi Hb Hf. destruct (net_http_get_ex_ends (I := I) (P := P) fuel index url out want s Hok Hi Hb Hf) as [H|H]; [left|by right].
  apply gives_iff in H as ([r s'] & Hrun & H1 & _ & H2). eauto.
Qed.

Lemma http_get_ends_witness : exists r s', net_http_get_ex 3000 0 (Some [104; 116; 116; 112; 58; 47; 47; 49; 48; 46; 48; 46; 50; 46; 50; 47]) (Some (replicate 4 0)) true (host page_wire) = Some (r, s') /\
  net_ok s' /\ result_ok (replicate 4 0) r.
Proof.
  pose proof (wire_peer page_frames page_bytes) as Hp. pose proof (plain_libs_ok page_frames) as Hl.
  destruct (http_get_ends (queued page_frames) (.∈ page_frames) (fun limit => Z.to_nat limit) 3000 0 [104; 116; 116; 112; 58; 47; 47; 49; 48; 46; 48; 46; 50; 46; 50; 47]
    (replicate 4 0) true (host page_wire)) as [H|(u & ip & out & s & Hu & Hs & _)].
  - apply host_ok.
  - apply Forall_elem. done.
  - apply bytes_zeros.
  - unfold NET_TIMEOUT_TICKS. rewrite length_replicate. lia.
  - exact H.
  - exfalso. assert (Hf : url_is_https <$> net_parse_url [104; 116; 116; 112; 58; 47; 47; 49; 48; 46; 48; 46; 50; 46; 50; 47] NET_HTTP_HOST_SIZE = Some false) by reflexivity.
    rewrite Hu in Hf. cbn in Hf. congruence.
Defined.

(** ** Data before the answer of the peer *)

Definition early_data : segment := Segment peer_ip 80 49152 0 0 0x18 [1; 2].
Definition early_answer : segment := Segment peer_ip 80 49152 0xFFFFFFFF 0 0x12 [].

(** A stream that waits for the answer. *)
Definition waiting : net wire := set_tcp_stream (TcpStream true 0 peer_ip 49152 80 5 0 5 peer_mac false false false (replicate 8 0) 8 0) (host page_wire).

(** A stream that is not yet connected expects sequence number 0 and takes
    data there: when the peer starts at 2^32-1 and its first segment overtakes
    its answer, the segment is delivered twice. *)
Theorem early_data_repeated :
  honest 0xFFFFFFFF [1; 2] early_data /\ honest 0xFFFFFFFF [1; 2] early_answer /\
  exists s, (s1 ← stream_segment early_data waiting; s2 ← stream_segment early_answer s1; stream_segment early_data s2) = Some s /\
    take (Z.to_nat (ts_rx_size (tcp_stream s))) (ts_rx_buffer (tcp_stream s)) = [1; 2; 1; 2].
Proof.
  split; [by apply (honest_data _ _ _ 0)|]. split; [by apply honest_syn|]. eexists. split; [vm_compute; reflexivity|reflexivity].
Qed.
