(* ===== verification/ZLex.v ===== *)
(** The lexer of the Z compiler: kernel/z/zscript.c, characters, directives,
    blanks and tokens.

    The source is the list of its bytes, and a position in it is the rest of
    the source from there on: [pos < size] says that the rest is not empty. A
    text is the list of its characters up to the terminator, which is not in
    the list. A byte that C takes for negative is in no range that is tested,
    nor is the same byte taken for more than 127. A line number grows only
    with a byte that is read, and [size] has 32 bits, so that it does not wrap
    ([next_token_ok]). Of the tables of the compiler the lexer knows the
    constants, and the names of the globals and functions. *)
From Stdlib Require Import ZArith Lia String.
From stdpp Require Import base tactics option list numbers.
From S2P Require Import Prelude.
From S2P Require Import Buffer.
#[local] Open Scope Z_scope.

Definition Z_MAX_TOKEN_TEXT : Z := 128.
Definition Z_STRING_POOL_SIZE : Z := 65536.
Definition Z_MAX_CONSTANTS : Z := 512.
Definition ZSCRIPT_ERROR_NONE : Z := 0.
Definition ZSCRIPT_ERROR_SYNTAX : Z := 1.

Inductive z_token_type_t : Type :=
| Z_TOKEN_EOF | Z_TOKEN_IDENT | Z_TOKEN_NUMBER | Z_TOKEN_STRING | Z_TOKEN_LPAREN | Z_TOKEN_RPAREN | Z_TOKEN_LBRACE | Z_TOKEN_RBRACE
| Z_TOKEN_LBRACKET | Z_TOKEN_RBRACKET | Z_TOKEN_DOT | Z_TOKEN_SEMI | Z_TOKEN_COMMA | Z_TOKEN_QUESTION | Z_TOKEN_COLON | Z_TOKEN_ASSIGN
| Z_TOKEN_AMP | Z_TOKEN_AMP_ASSIGN | Z_TOKEN_AMP_AMP | Z_TOKEN_PIPE | Z_TOKEN_PIPE_ASSIGN | Z_TOKEN_PIPE_PIPE | Z_TOKEN_CARET
| Z_TOKEN_CARET_ASSIGN | Z_TOKEN_TILDE | Z_TOKEN_BANG | Z_TOKEN_PLUS | Z_TOKEN_PLUS_PLUS | Z_TOKEN_PLUS_ASSIGN | Z_TOKEN_MINUS
| Z_TOKEN_ARROW | Z_TOKEN_MINUS_MINUS | Z_TOKEN_MINUS_ASSIGN | Z_TOKEN_STAR | Z_TOKEN_STAR_ASSIGN | Z_TOKEN_SLASH | Z_TOKEN_SLASH_ASSIGN
| Z_TOKEN_PERCENT | Z_TOKEN_PERCENT_ASSIGN | Z_TOKEN_EQ | Z_TOKEN_NE | Z_TOKEN_LT | Z_TOKEN_LE | Z_TOKEN_SHIFT_LEFT
| Z_TOKEN_SHIFT_LEFT_ASSIGN | Z_TOKEN_GT | Z_TOKEN_GE | Z_TOKEN_SHIFT_RIGHT | Z_TOKEN_SHIFT_RIGHT_ASSIGN.

#[export] Instance z_token_type_eq_dec : EqDecision z_token_type_t.
Proof. intros a b. destruct a, b; (by left) || (by right). Defined.

Record z_token_t : Type := ZToken { tk_type : z_token_type_t; tk_number : Z; tk_text : list Z; tk_line : Z }.

Record z_constant_t : Type := ZConstant { zc_name : list Z; zc_value : Z }.

Record z_lexer : Type := ZLexer {
  zl_rest : list Z;
  zl_line : Z;
  zl_current : z_token_t;
  zl_error_line : Z;
  zl_error_code : Z;
  zscript_last_error_code : Z;
  zl_pool : list Z;
  zl_pool_used : Z;
  zl_constants : list z_constant_t;
  zl_globals : list (list Z);
  zl_functions : list (list Z)
}.

Definition set_pos (rest : list Z) (line : Z) (c : z_lexer) : z_lexer := ZLexer rest line (zl_current c) (zl_error_line c) (zl_error_code c) (zscript_last_error_code c) (zl_pool c) (zl_pool_used c) (zl_constants c) (zl_globals c) (zl_functions c).
Definition set_current (t : z_token_t) (c : z_lexer) : z_lexer := ZLexer (zl_rest c) (zl_line c) t (zl_error_line c) (zl_error_code c) (zscript_last_error_code c) (zl_pool c) (zl_pool_used c) (zl_constants c) (zl_globals c) (zl_functions c).
Definition set_errors (line code last : Z) (c : z_lexer) : z_lexer := ZLexer (zl_rest c) (zl_line c) (zl_current c) line code last (zl_pool c) (zl_pool_used c) (zl_constants c) (zl_globals c) (zl_functions c).
Definition set_pool (pool : list Z) (used : Z) (c : z_lexer) : z_lexer := ZLexer (zl_rest c) (zl_line c) (zl_current c) (zl_error_line c) (zl_error_code c) (zscript_last_error_code c) pool used (zl_constants c) (zl_globals c) (zl_functions c).
Definition set_constants (l : list z_constant_t) (c : z_lexer) : z_lexer := ZLexer (zl_rest c) (zl_line c) (zl_current c) (zl_error_line c) (zl_error_code c) (zscript_last_error_code c) (zl_pool c) (zl_pool_used c) l (zl_globals c) (zl_functions c).

(** ** Characters *)

Definition z_char_is_space (ch : Z) : bool := (ch =? 32) || (ch =? 9) || (ch =? 13) || (ch =? 10).
Definition z_char_is_line_space (ch : Z) : bool := (ch =? 32) || (ch =? 9) || (ch =? 13).
Definition z_char_is_digit (ch : Z) : bool := (48 <=? ch) && (ch <=? 57).
Definition z_char_is_hex_digit (ch : Z) : bool := ((48 <=? ch) && (ch <=? 57)) || ((97 <=? ch) && (ch <=? 102)) || ((65 <=? ch) && (ch <=? 70)).
Definition z_char_is_ident_start (ch : Z) : bool := ((97 <=? ch) && (ch <=? 122)) || ((65 <=? ch) && (ch <=? 90)) || (ch =? 95).
Definition z_char_is_ident_continue (ch : Z) : bool := z_char_is_ident_start ch || z_char_is_digit ch.

Definition z_hex_value (ch : Z) : Z :=
  if (48 <=? ch) && (ch <=? 57) then ch - 48
  else if (97 <=? ch) && (ch <=? 102) then ch - 97 + 10
  else if (65 <=? ch) && (ch <=? 70) then ch - 65 + 10
  else -1.

Fixpoint z_streq (a b : list Z) : bool :=
  match a, b with [], [] => true | x :: a', y :: b' => (x =? y) && z_streq a' b' | _, _ => false end.

(** A comparison with the next character, when there is one. *)
Definition next_is (ch : Z) (p : list Z) : bool := match p with x :: _ => x =? ch | [] => false end.

(** Both characters that follow. *)
Definition next_two (a b : Z) (p : list Z) : bool := match p with x :: y :: _ => (x =? a) && (y =? b) | _ => false end.

(** ** Errors *)

Definition z_set_error_code (line code : Z) (c : z_lexer) : z_lexer :=
  let line := if line =? 0 then if negb (tk_line (zl_current c) =? 0) then tk_line (zl_current c) else zl_line c else line in
  set_errors (if zl_error_line c =? 0 then line else zl_error_line c)
             (if zl_error_code c =? ZSCRIPT_ERROR_NONE then code else zl_error_code c)
             (if zscript_last_error_code c =? ZSCRIPT_ERROR_NONE then code else zscript_last_error_code c) c.

Definition z_set_error (line : Z) (c : z_lexer) : z_lexer := z_set_error_code line ZSCRIPT_ERROR_SYNTAX c.

(** ** Constants *)

Definition z_find_constant (c : z_lexer) (name : list Z) : option nat := find_index (fun x => z_streq (zc_name x) name) (zl_constants c).
Definition z_find_global (c : z_lexer) (name : list Z) : option nat := find_index (fun x => z_streq x name) (zl_globals c).
Definition z_find_function (c : z_lexer) (name : list Z) : option nat := find_index (fun x => z_streq x name) (zl_functions c).

Definition found (i : option nat) : bool := match i with Some _ => true | None => false end.

Definition z_add_constant (name : list Z) (value : Z) (c : z_lexer) : Z * z_lexer :=
  match z_find_constant c name with
  | Some i => (if default 0 (zc_value <$> zl_constants c !! i) =? value then 0 else -1, c)
  | None =>
      if (Z_MAX_CONSTANTS <=? Z.of_nat (length (zl_constants c))) || found (z_find_global c name) || found (z_find_function c name) then (-1, c)
      else (0, set_constants (zl_constants c ++ [ZConstant name value]) c)
  end.

(** ** Lines of directives. A line is the text up to its end. *)

Fixpoint z_skip_line_spaces_ptr (p : list Z) : list Z :=
  match p with ch :: p' => if z_char_is_line_space ch then z_skip_line_spaces_ptr p' else p | [] => [] end.

(** The line, and the rest from its end on. *)
Fixpoint z_line_end_ptr (p : list Z) : list Z * list Z :=
  match p with
  | [] => ([], [])
  | ch :: p' => if ch =? 10 then ([], p) else let '(line, rest) := z_line_end_ptr p' in (ch :: line, rest)
  end.

(** The digits, their value and what follows. *)
Fixpoint number_loop (base : Z) (value : Z) (saw_digit : bool) (p : list Z) : Z * bool * list Z :=
  match p with
  | [] => (value, saw_digit, [])
  | ch :: p' =>
      if base =? 16 then if z_char_is_hex_digit ch then number_loop base (u64 (value * base + z_hex_value ch)) true p' else (value, saw_digit, p)
      else if z_char_is_digit ch then number_loop base (u64 (value * base + (ch - 48))) true p' else (value, saw_digit, p)
  end.

Fixpoint skip_suffix (p : list Z) : list Z :=
  match p with ch :: p' => if (ch =? 117) || (ch =? 85) || (ch =? 108) || (ch =? 76) then skip_suffix p' else p | [] => [] end.

Definition z_parse_define_number_text (p : list Z) : option Z :=
  let p := z_skip_line_spaces_ptr p in
  let p := if next_is 40 p then z_skip_line_spaces_ptr (drop 1 p) else p in
  let negate := next_is 45 p in
  let p := if negate then drop 1 p else if next_is 43 p then drop 1 p else p in
  let hex := next_two 48 120 p || next_two 48 88 p in
  let p := if hex then drop 2 p else p in
  let '(value, saw_digit, p) := number_loop (if hex then 16 else 10) 0 false p in
  if negb saw_digit then None
  else
    let p := z_skip_line_spaces_ptr (skip_suffix p) in
    let p := if next_is 41 p then z_skip_line_spaces_ptr (drop 1 p) else p in
    let p := if next_two 47 47 p then [] else p in
    match p with [] => Some (if negate then u64 (0 - value) else value) | _ => None end.

(** The word and what follows; the word is longer than the buffer: [None]. *)
Fixpoint word_loop (len : Z) (p : list Z) : option (list Z) * list Z :=
  match p with
  | [] => (Some [], [])
  | ch :: p' =>
      if z_char_is_ident_continue ch then
        if Z_MAX_TOKEN_TEXT <=? len + 1 then (None, p)
        else let '(word, rest) := word_loop (len + 1) p' in ((fun w => ch :: w) <$> word, rest)
      else (Some [], p)
  end.

Definition z_read_directive_word (p : list Z) : option (list Z) * list Z :=
  let p := z_skip_line_spaces_ptr p in
  match p with
  | ch :: _ => if z_char_is_ident_start ch then word_loop 0 p else (None, p)
  | [] => (None, p)
  end.

Definition z_parse_if_number_text (p : list Z) : option Z :=
  let p := z_skip_line_spaces_ptr p in
  match p with
  | ch :: _ =>
      if z_char_is_ident_start ch then
        let '(name, p) := z_read_directive_word p in
        match name with
        | None => None
        | Some _ => match z_skip_line_spaces_ptr p with [] => Some 0 | _ => None end
        end
      else z_parse_define_number_text p
  | [] => z_parse_define_number_text p
  end.

(** To the end of a line and behind it. *)
Definition to_next_line (rest : list Z) (c : z_lexer) : z_lexer :=
  match rest with
  | ch :: rest' => if ch =? 10 then set_pos rest' (zl_line c + 1) c else set_pos rest (zl_line c) c
  | [] => set_pos rest (zl_line c) c
  end.

(** The directive of a line without its sign, and what follows. *)
Definition directive_of (s : list Z) : list Z * list Z :=
  let '(word, s) := z_read_directive_word s in (default [] word, s).

Fixpoint skip_block_loop (fuel : nat) (depth : Z) (stop_at_else : bool) (c : z_lexer) : option (Z * z_lexer) :=
  match fuel with
  | O => None
  | S fuel' =>
      match zl_rest c with
      | [] => Some (-1, z_set_error (zl_line c) c)
      | _ =>
          let '(line, rest) := z_line_end_ptr (zl_rest c) in
          let s := z_skip_line_spaces_ptr line in
          if next_is 35 s then
            let directive := fst (directive_of (drop 1 s)) in
            if z_streq directive (chars "ifndef") || z_streq directive (chars "ifdef") || z_streq directive (chars "if") then
              skip_block_loop fuel' (depth + 1) stop_at_else (to_next_line rest c)
            else if z_streq directive (chars "else") && (depth =? 1) && stop_at_else then Some (0, to_next_line rest c)
            else if z_streq directive (chars "endif") then
              if depth - 1 =? 0 then Some (0, to_next_line rest c)
              else skip_block_loop fuel' (depth - 1) stop_at_else (to_next_line rest c)
            else skip_block_loop fuel' depth stop_at_else (to_next_line rest c)
          else skip_block_loop fuel' depth stop_at_else (to_next_line rest c)
      end
  end.

Definition z_skip_preprocessor_block (stop_at_else : bool) (c : z_lexer) : option (Z * z_lexer) :=
  skip_block_loop (S (length (zl_rest c))) 1 stop_at_else c.

Definition z_handle_preprocessor_directive (c : z_lexer) : option (Z * z_lexer) :=
  let '(line, rest) := z_line_end_ptr (zl_rest c) in
  let at_end := set_pos rest (zl_line c) in
  if negb (next_is 35 line) then Some (0, c)
  else
    let '(directive, s) := directive_of (drop 1 line) in
    if z_streq directive (chars "define") then
      match z_read_directive_word s with
      | (None, _) => Some (-1, z_set_error (zl_line c) c)
      | (Some name, s) =>
          let s := z_skip_line_spaces_ptr s in
          if next_is 40 s && match drop 1 s with ch :: _ => z_char_is_ident_start ch | [] => false end then Some (0, at_end c)
          else
            let value := match s with
                         | [] => Some 1
                         | _ => if next_two 47 47 s then Some 1 else z_parse_define_number_text s
                         end in
            match value with
            | None => Some (0, at_end c)
            | Some value =>
                let '(r, c) := z_add_constant name value c in
                if negb (r =? 0) then Some (-1, z_set_error (zl_line c) c) else Some (0, at_end c)
            end
      end
    else if z_streq directive (chars "ifndef") || z_streq directive (chars "ifdef") then
      match z_read_directive_word s with
      | (None, _) => Some (-1, z_set_error (zl_line c) c)
      | (Some name, _) =>
          let defined := found (z_find_constant c name) in
          let should_skip := if z_streq directive (chars "ifndef") then defined else negb defined in
          let c := to_next_line rest c in
          if should_skip then z_skip_preprocessor_block true c else Some (0, c)
      end
    else if z_streq directive (chars "if") then
      match z_parse_if_number_text s with
      | None => Some (0, at_end c)
      | Some value =>
          let c := to_next_line rest c in
          if value =? 0 then z_skip_preprocessor_block true c else Some (0, c)
      end
    else if z_streq directive (chars "else") then z_skip_preprocessor_block false (to_next_line rest c)
    else Some (0, at_end c).

(** ** Blanks *)

Fixpoint z_skip_spaces (line : Z) (p : list Z) : Z * list Z :=
  match p with ch :: p' => if z_char_is_space ch then z_skip_spaces (if ch =? 10 then line + 1 else line) p' else (line, p) | [] => (line, []) end.

(** A comment up to its end mark, or up to the last byte of the source. *)
Fixpoint skip_comment (line : Z) (p : list Z) : Z * list Z :=
  match p with
  | ch :: ((ch2 :: _) as p') => if (ch =? 42) && (ch2 =? 47) then (line, p) else skip_comment (if ch =? 10 then line + 1 else line) p'
  | _ => (line, p)
  end.

Fixpoint skip_loop (fuel : nat) (c : z_lexer) : option z_lexer :=
  match fuel with
  | O => None
  | S fuel' =>
      let '(line, p) := z_skip_spaces (zl_line c) (zl_rest c) in
      let c := set_pos p line c in
      if next_two 47 47 p then skip_loop fuel' (set_pos (snd (z_line_end_ptr (drop 2 p))) line c)
      else if next_two 47 42 p then
        let '(line, p) := skip_comment line (drop 2 p) in
        let c := set_pos p line c in
        match p with
        | _ :: _ :: p' => skip_loop fuel' (set_pos p' line c)
        | _ => Some (z_set_error line c)
        end
      else if next_is 35 p then
        '(r, c) ← z_handle_preprocessor_directive c;
        if negb (r =? 0) then Some c else skip_loop fuel' c
      else Some c
  end.

Definition z_skip_ws_and_comments (c : z_lexer) : option z_lexer := skip_loop (S (length (zl_rest c))) c.

(** ** Tokens *)

Definition z_read_number (c : z_lexer) (token : z_token_t) : Z * z_lexer * z_token_t :=
  let p := zl_rest c in
  let hex := next_two 48 120 p || next_two 48 88 p in
  let p := if hex then drop 2 p else p in
  if hex && negb match p with ch :: _ => z_char_is_hex_digit ch | [] => false end then (-1, set_pos p (zl_line c) c, token)
  else
    let '(value, _, p) := number_loop (if hex then 16 else 10) 0 false p in
    (0, set_pos p (zl_line c) c, ZToken Z_TOKEN_NUMBER value (tk_text token) (tk_line token)).

Definition z_read_ident (c : z_lexer) (token : z_token_t) : Z * z_lexer * z_token_t :=
  match word_loop 0 (zl_rest c) with
  | (None, p) => (-1, set_pos p (zl_line c) c, token)
  | (Some text, p) => (0, set_pos p (zl_line c) c, ZToken Z_TOKEN_IDENT (tk_number token) text (tk_line token))
  end.

(** What stands for a character behind a backslash. *)
Definition unescape (ch : Z) : option Z :=
  if ch =? 110 then Some 10 else if ch =? 114 then Some 13 else if ch =? 116 then Some 9 else if ch =? 48 then Some 0
  else if negb (ch =? 34) && negb (ch =? 92) then None else Some ch.

(** The loop over the characters of a string, from the one behind the first
    quote on. *)
Fixpoint string_loop (start used : Z) (pool : list Z) (line : Z) (p : list Z) (c : z_lexer) (token : z_token_t) : option (Z * z_lexer * z_token_t) :=
  let error p pool line := Some (-1, z_set_error (tk_line token) (set_pool pool (zl_pool_used c) (set_pos p line c)), token) in
  let put ch p := fun (k : list Z -> Z -> option (Z * z_lexer * z_token_t)) =>
    let line := if ch =? 10 then line + 1 else line in
    if Z_STRING_POOL_SIZE <=? used + 1 then error p pool line else pool ← wr8 pool used ch; k pool line in
  match p with
  | [] => error [] pool line
  | ch :: p' =>
      if ch =? 34 then
        if Z_STRING_POOL_SIZE <=? used then error p' pool line
        else
          pool ← wr8 pool used 0;
          Some (0, set_pool pool (used + 1) (set_pos p' line c), ZToken Z_TOKEN_STRING start (tk_text token) (tk_line token))
      else if ch =? 92 then
        match p' with
        | [] => error [] pool line
        | ch :: p'' =>
            match unescape ch with
            | None => error p'' pool line
            | Some ch => put ch p'' (fun pool line => string_loop start (used + 1) pool line p'' c token)
            end
        end
      else put ch p' (fun pool line => string_loop start (used + 1) pool line p' c token)
  end.

Definition z_read_string (c : z_lexer) (token : z_token_t) : option (Z * z_lexer * z_token_t) :=
  string_loop (zl_pool_used c) (zl_pool_used c) (zl_pool c) (zl_line c) (drop 1 (zl_rest c)) c token.

(** The signs: their type and the rest behind them. *)
Definition z_sign (ch : Z) (p : list Z) : option (z_token_type_t * list Z) :=
  let rest := drop 1 p in
  if ch =? 40 then Some (Z_TOKEN_LPAREN, p) else if ch =? 41 then Some (Z_TOKEN_RPAREN, p)
  else if ch =? 123 then Some (Z_TOKEN_LBRACE, p) else if ch =? 125 then Some (Z_TOKEN_RBRACE, p)
  else if ch =? 91 then Some (Z_TOKEN_LBRACKET, p) else if ch =? 93 then Some (Z_TOKEN_RBRACKET, p)
  else if ch =? 46 then Some (Z_TOKEN_DOT, p) else if ch =? 59 then Some (Z_TOKEN_SEMI, p)
  else if ch =? 44 then Some (Z_TOKEN_COMMA, p) else if ch =? 63 then Some (Z_TOKEN_QUESTION, p)
  else if ch =? 58 then Some (Z_TOKEN_COLON, p)
  else if ch =? 43 then
    if next_is 43 p then Some (Z_TOKEN_PLUS_PLUS, rest) else if next_is 61 p then Some (Z_TOKEN_PLUS_ASSIGN, rest) else Some (Z_TOKEN_PLUS, p)
  else if ch =? 45 then
    if next_is 62 p then Some (Z_TOKEN_ARROW, rest) else if next_is 45 p then Some (Z_TOKEN_MINUS_MINUS, rest)
    else if next_is 61 p then Some (Z_TOKEN_MINUS_ASSIGN, rest) else Some (Z_TOKEN_MINUS, p)
  else if ch =? 42 then if next_is 61 p then Some (Z_TOKEN_STAR_ASSIGN, rest) else Some (Z_TOKEN_STAR, p)
  else if ch =? 47 then if next_is 61 p then Some (Z_TOKEN_SLASH_ASSIGN, rest) else Some (Z_TOKEN_SLASH, p)
  else if ch =? 37 then if next_is 61 p then Some (Z_TOKEN_PERCENT_ASSIGN, rest) else Some (Z_TOKEN_PERCENT, p)
  else if ch =? 61 then if next_is 61 p then Some (Z_TOKEN_EQ, rest) else Some (Z_TOKEN_ASSIGN, p)
  else if ch =? 38 then
    if next_is 38 p then Some (Z_TOKEN_AMP_AMP, rest) else if next_is 61 p then Some (Z_TOKEN_AMP_ASSIGN, rest) else Some (Z_TOKEN_AMP, p)
  else if ch =? 124 then
    if next_is 124 p then Some (Z_TOKEN_PIPE_PIPE, rest) else if next_is 61 p then Some (Z_TOKEN_PIPE_ASSIGN, rest) else Some (Z_TOKEN_PIPE, p)
  else if ch =? 94 then if next_is 61 p then Some (Z_TOKEN_CARET_ASSIGN, rest) else Some (Z_TOKEN_CARET, p)
  else if ch =? 126 then Some (Z_TOKEN_TILDE, p)
  else if ch =? 33 then if next_is 61 p then Some (Z_TOKEN_NE, rest) else Some (Z_TOKEN_BANG, p)
  else if ch =? 60 then
    if next_is 60 p then if next_is 61 rest then Some (Z_TOKEN_SHIFT_LEFT_ASSIGN, drop 1 rest) else Some (Z_TOKEN_SHIFT_LEFT, rest)
    else if next_is 61 p then Some (Z_TOKEN_LE, rest) else Some (Z_TOKEN_LT, p)
  else if ch =? 62 then
    if next_is 62 p then if next_is 61 rest then Some (Z_TOKEN_SHIFT_RIGHT_ASSIGN, drop 1 rest) else Some (Z_TOKEN_SHIFT_RIGHT, rest)
    else if next_is 61 p then Some (Z_TOKEN_GE, rest) else Some (Z_TOKEN_GT, p)
  else None.

(** The end of reading a token: it becomes the current one, or the line is
    marked. *)
Definition finish_token (r : Z * z_lexer * z_token_t) : Z * z_lexer :=
  let '(code, c, token) := r in
  if negb (code =? 0) then (-1, z_set_error (tk_line token) c) else (0, set_current token c).

Definition z_next_token (c : z_lexer) : option (Z * z_lexer) :=
  c ← z_skip_ws_and_comments c;
  if negb (zl_error_line c =? 0) then Some (-1, c)
  else
    let token := ZToken Z_TOKEN_EOF 0 [] (zl_line c) in
    match zl_rest c with
    | [] => Some (0, set_current token c)
    | ch :: p =>
        if z_char_is_ident_start ch then Some (finish_token (z_read_ident c token))
        else if z_char_is_digit ch then Some (finish_token (z_read_number c token))
        else if ch =? 34 then r ← z_read_string c token; Some (finish_token r)
        else
          match z_sign ch p with
          | Some (type, p) => Some (0, set_current (ZToken type 0 [] (zl_line c)) (set_pos p (zl_line c) c))
          | None => Some (-1, z_set_error (tk_line token) (set_pos p (zl_line c) c))
          end
    end.

Definition z_expect (type : z_token_type_t) (c : z_lexer) : option (Z * z_lexer) :=
  if decide (tk_type (zl_current c) = type) then z_next_token c else Some (-1, z_set_error (tk_line (zl_current c)) c).

(** The name that was expected, when there was one. *)
Definition z_expect_ident (c : z_lexer) : option (Z * option (list Z) * z_lexer) :=
  if decide (tk_type (zl_current c) = Z_TOKEN_IDENT) then '(r, c') ← z_next_token c; Some (r, Some (tk_text (zl_current c)), c')
  else Some (-1, None, z_set_error (tk_line (zl_current c)) c).

Definition z_parse_constant_literal (c : z_lexer) : option (Z * option Z * z_lexer) :=
  let negate := bool_decide (tk_type (zl_current c) = Z_TOKEN_MINUS) in
  '(r, c) ← (if negate then z_next_token c else Some (0, c));
  if negb (r =? 0) then Some (-1, None, c)
  else if decide (tk_type (zl_current c) = Z_TOKEN_NUMBER) then
    let value := if negate then u64 (0 - tk_number (zl_current c)) else tk_number (zl_current c) in
    '(r, c) ← z_next_token c; Some (r, Some value, c)
  else Some (-1, None, z_set_error (tk_line (zl_current c)) c).

(** The constants of an enumeration. *)
Fixpoint enum_loop (fuel : nat) (next_value : Z) (c : z_lexer) : option (Z * z_lexer) :=
  match fuel with
  | O => None
  | S fuel' =>
      if decide (tk_type (zl_current c) = Z_TOKEN_RBRACE) then Some (0, c)
      else if decide (tk_type (zl_current c) = Z_TOKEN_EOF) then Some (-1, c)
      else
        '(r, name, c) ← z_expect_ident c;
        match name with
        | None => Some (-1, c)
        | Some name =>
            if negb (r =? 0) then Some (-1, c)
            else
              '(r, value, c) ← (if decide (tk_type (zl_current c) = Z_TOKEN_ASSIGN) then
                                  '(r, c) ← z_next_token c;
                                  if negb (r =? 0) then Some (-1, None, c) else z_parse_constant_literal c
                                else Some (0, Some next_value, c));
              match value with
              | None => Some (-1, c)
              | Some value =>
                  if negb (r =? 0) then Some (-1, c)
                  else
                    let '(r, c) := z_add_constant name value c in
                    if negb (r =? 0) then Some (-1, z_set_error (tk_line (zl_current c)) c)
                    else if decide (tk_type (zl_current c) = Z_TOKEN_COMMA) then
                      '(r, c) ← z_next_token c;
                      if negb (r =? 0) then Some (-1, c) else enum_loop fuel' (u64 (value + 1)) c
                    else if decide (tk_type (zl_current c) = Z_TOKEN_RBRACE) then enum_loop fuel' (u64 (value + 1)) c
                    else Some (-1, z_set_error (tk_line (zl_current c)) c)
              end
        end
  end.

Definition z_current_starts_enum_definition (c : z_lexer) : bool := bool_decide (tk_type (zl_current c) = Z_TOKEN_IDENT) && z_streq (tk_text (zl_current c)) (chars "enum").

Definition z_parse_enum_definition (c : z_lexer) : option (Z * z_lexer) :=
  if negb (z_current_starts_enum_definition c) then Some (-1, c)
  else
    '(r, c) ← z_next_token c;
    if negb (r =? 0) then Some (-1, c)
    else
      '(r, c) ← (if decide (tk_type (zl_current c) = Z_TOKEN_IDENT) then z_next_token c else Some (0, c));
      if negb (r =? 0) then Some (-1, c)
      else
        '(r, c) ← z_expect Z_TOKEN_LBRACE c;
        if negb (r =? 0) then Some (-1, c)
        else
          '(r, c) ← enum_loop (S (S (length (zl_rest c)))) 0 c;
          if negb (r =? 0) then Some (-1, c)
          else
            '(r, c) ← z_expect Z_TOKEN_RBRACE c;
            if negb (r =? 0) then Some (-1, c)
            else '(r, c) ← z_expect Z_TOKEN_SEMI c; Some (if r =? 0 then 0 else -1, c).

(** ** Every source is read *)

Definition name_ok (s : list Z) : Prop := match s with ch :: _ => z_char_is_ident_start ch = true | [] => False end /\ Forall (fun ch => z_char_is_ident_continue ch = true) s /\ (length s <= 127)%nat.

Record lex_ok (c : z_lexer) : Prop := {
  lo_pool : length (zl_pool c) = Z.to_nat Z_STRING_POOL_SIZE;
  lo_used : 0 <= zl_pool_used c <= Z_STRING_POOL_SIZE;
  lo_line : 1 <= zl_line c;
  lo_names : Forall (fun x => name_ok (zc_name x) /\ is_u64 (zc_value x)) (zl_constants c);
  lo_once : NoDup (zc_name <$> zl_constants c);
  lo_room : Z.of_nat (length (zl_constants c)) <= Z_MAX_CONSTANTS
}.

(** [c'] is further on than [c]; a line needs a byte. *)
Record further (c c' : z_lexer) : Prop := {
  fu_rest : suffix (zl_rest c') (zl_rest c);
  fu_line : zl_line c <= zl_line c';
  fu_bytes : zl_line c' + Z.of_nat (length (zl_rest c')) <= zl_line c + Z.of_nat (length (zl_rest c))
}.

Lemma further_refl c : further c c.
Proof. split; [done|lia|lia]. Qed.

Lemma further_trans c1 c2 c3 : further c1 c2 -> further c2 c3 -> further c1 c3.
Proof. intros [A1 A2 A3] [B1 B2 B3]. split; [by etrans|lia|lia]. Qed.

Lemma further_pos c p line : suffix p (zl_rest c) -> zl_line c <= line -> line + Z.of_nat (length p) <= zl_line c + Z.of_nat (length (zl_rest c)) -> further c (set_pos p line c).
Proof. by split. Qed.

Lemma further_same c p : suffix p (zl_rest c) -> further c (set_pos p (zl_line c) c).
Proof. intros Hs. apply further_pos; [done|lia|]. pose proof (suffix_length _ _ Hs). lia. Qed.

(** What moving and marking an error keep. *)
Lemma lex_ok_pos p line c : 1 <= line -> lex_ok c -> lex_ok (set_pos p line c).
Proof. intros Hl []. by split. Qed.

Lemma lex_ok_error line c : lex_ok c -> lex_ok (z_set_error line c).
Proof. intros []. by split. Qed.

Lemma lex_ok_current t c : lex_ok c -> lex_ok (set_current t c).
Proof. intros []. by split. Qed.

Lemma further_error c line c' : further c c' -> further c (z_set_error line c').
Proof. intros []. by split. Qed.

Lemma error_marks line c : 1 <= line -> zl_error_line (z_set_error line c) <> 0.
Proof. intros Hl. unfold z_set_error, z_set_error_code. cbn. rewrite (proj2 (Z.eqb_neq line 0)) by lia. by destruct (Z.eqb_spec (zl_error_line c) 0); [lia|]. Qed.

(** ** Parts of a source *)

Lemma skip_line_spaces_suffix p : suffix (z_skip_line_spaces_ptr p) p.
Proof. induction p as [|ch p IH]; [done|]. cbn. destruct (z_char_is_line_space ch); [by apply suffix_cons_r|done]. Qed.

Lemma line_end_app p : fst (z_line_end_ptr p) ++ snd (z_line_end_ptr p) = p.
Proof. induction p as [|ch p IH]; [done|]. cbn. destruct (ch =? 10); [done|]. destruct (z_line_end_ptr p). cbn in *. by f_equal. Qed.

Lemma line_end_suffix p : suffix (snd (z_line_end_ptr p)) p.
Proof. exists (fst (z_line_end_ptr p)). by rewrite line_end_app. Qed.

Lemma word_loop_ok len p : 0 <= len -> match word_loop len p with
  | (Some w, p') => p = w ++ p' /\ Forall (fun ch => z_char_is_ident_continue ch = true) w /\ (w <> [] -> len + Z.of_nat (length w) < 128) /\ match p' with ch :: _ => z_char_is_ident_continue ch = false | [] => True end
  | (None, p') => suffix p' p
  end.
Proof.
  revert len. induction p as [|ch p IH]; intros len Hl; cbn [word_loop]; [done|]. destruct (z_char_is_ident_continue ch) eqn:E; [|by rewrite E].
  unfold Z_MAX_TOKEN_TEXT. destruct (Z.leb_spec 128 (len + 1)); [done|]. specialize (IH (len + 1) ltac:(lia)). destruct (word_loop (len + 1) p) as [[w|] p']; cbn [fmap option_fmap option_map].
  - destruct IH as (-> & Hf & Hw & Hn). split_and!; [done|by constructor|intros _; cbn|done]. destruct w as [|x w]; [cbn; lia|]. specialize (Hw ltac:(done)). cbn in *. lia.
  - by apply suffix_cons_r.
Qed.

Lemma number_loop_ok base value saw p : base = 10 \/ base = 16 -> is_u64 value -> let '(v, _, p') := number_loop base value saw p in is_u64 v /\ suffix p' p.
Proof.
  intros Hb. revert value saw. induction p as [|ch p IH]; intros value saw Hv; cbn [number_loop]; [done|]. destruct (base =? 16), (z_char_is_hex_digit ch), (z_char_is_digit ch); try (split; done);
    match goal with |- context [number_loop ?b ?v ?s ?q] => specialize (IH v s ltac:(apply u64_range)); destruct (number_loop b v s q) as [[? ?] ?] end; destruct IH as [? ?]; (split; [done|by apply suffix_cons_r]).
Qed.

Lemma define_number_ok p v : z_parse_define_number_text p = Some v -> is_u64 v.
Proof.
  unfold z_parse_define_number_text. set (p1 := if next_is 40 _ then _ else _). set (p2 := if next_is 45 p1 then _ else _). set (hex := _ || _). set (p3 := if hex then drop 2 p2 else p2).
  pose proof (number_loop_ok (if hex then 16 else 10) 0 false p3 ltac:(destruct hex; auto) ltac:(unfold is_u64; lia)) as Hn. destruct (number_loop _ 0 false p3) as [[value saw] p4]. destruct Hn as [Hv _].
  destruct saw; cbn [negb]; [|done]. set (p5 := if next_is 41 _ then _ else _). set (p6 := if next_two 47 47 p5 then [] else p5). destruct p6; [|done]. intros [= <-]. destruct (next_is 45 p1); [apply u64_range|done].
Qed.

Lemma z_streq_spec a b : z_streq a b = true <-> a = b.
Proof.
  revert b. induction a as [|x a IH]; intros [|y b]; cbn; try done. rewrite andb_true_iff, IH, Z.eqb_eq. split; [by intros [-> ->]|by intros [= -> ->]].
Qed.

Lemma directive_word_ok p w p' : z_read_directive_word p = (Some w, p') -> name_ok w /\ suffix p' p.
Proof.
  unfold z_read_directive_word. pose proof (skip_line_spaces_suffix p) as Hs. destruct (z_skip_line_spaces_ptr p) as [|ch q] eqn:Eq; [done|]. destruct (z_char_is_ident_start ch) eqn:Es; [|done]. intros E. pose proof (word_loop_ok 0 (ch :: q) ltac:(lia)) as Hw. rewrite E in Hw. destruct Hw as (Ew & Hf & Hl & Hn).
  assert (w <> []) as Hne by (intros ->; cbn in Ew; subst p'; unfold z_char_is_ident_continue in Hn; by rewrite Es in Hn). split; [|etrans; [by exists w|done]]. split; [|split; [done|specialize (Hl Hne); lia]]. destruct w as [|x w]; [done|]. by injection Ew as <- _.
Qed.

Lemma add_constant_ok name value c : lex_ok c -> name_ok name -> is_u64 value -> let '(r, c') := z_add_constant name value c in
  lex_ok c' /\ zl_rest c' = zl_rest c /\ zl_line c' = zl_line c /\ zl_error_line c' = zl_error_line c /\ (r = 0 \/ r = -1).
Proof.
  intros [H1 H2 H3 H4 H5 H6] Hn Hv. unfold z_add_constant. destruct (z_find_constant c name) as [i|] eqn:Ef.
  - split_and!; try done. destruct (_ =? value); auto.
  - destruct (Z.leb_spec Z_MAX_CONSTANTS (Z.of_nat (length (zl_constants c)))) as [|Hr]; cbn [orb]; [split_and!; auto; done|]. destruct (_ || _); [split_and!; auto; done|]. split_and!; auto. split; cbn; try done.
    + apply Forall_app. split; [done|]. by constructor.
    + rewrite fmap_app. apply list.NoDup_app. split_and!; [done| |cbn; apply NoDup_singleton]. intros x Hx Hx'. cbn in Hx'. apply list_elem_of_singleton in Hx' as ->. apply list_elem_of_fmap in Hx as (k & Ek & Hk). unfold z_find_constant in Ef. rewrite find_index_None in Ef. apply list_elem_of_lookup_1 in Hk as [i Hi]. specialize (Ef i k Hi). by rewrite (proj2 (z_streq_spec _ _) (eq_sym Ek)) in Ef.
    + rewrite length_app. cbn. lia.
Qed.

(** The result of a part of the lexer: it went on, or marked an error. *)
Definition lex_step (c : z_lexer) (r : Z) (c' : z_lexer) : Prop :=
  lex_ok c' /\ further c c' /\ ((r = 0 /\ zl_error_line c' = zl_error_line c) \/ (r = -1 /\ zl_error_line c' <> 0)).

Lemma step_error c c' line : lex_ok c' -> further c c' -> 1 <= line -> lex_step c (-1) (z_set_error line c').
Proof. intros Hc Hf Hl. split_and!; [by apply lex_ok_error|by apply further_error|right]. split; [done|by apply error_marks]. Qed.

Lemma step_trans c c1 r c2 : further c c1 -> zl_error_line c1 = zl_error_line c -> lex_step c1 r c2 -> lex_step c r c2.
Proof. intros Hf He (H1 & H2 & H3). split_and!; [done|by eapply further_trans|]. by rewrite <- He. Qed.

Lemma next_line_ok rest c : lex_ok c -> suffix rest (zl_rest c) ->
  lex_ok (to_next_line rest c) /\ further c (to_next_line rest c) /\ zl_error_line (to_next_line rest c) = zl_error_line c.
Proof.
  intros Hc Hs. pose proof (suffix_length _ _ Hs) as Hl. unfold to_next_line. destruct rest as [|ch rest]; [|destruct (ch =? 10)].
  - split_and!; [apply lex_ok_pos; [by destruct Hc|done]|by apply further_same|done].
  - split_and!; [apply lex_ok_pos; [destruct Hc; lia|done]| |done]. cbn in Hl. apply further_pos; [|lia|lia]. etrans; [|exact Hs]. by apply suffix_cons_r.
  - split_and!; [apply lex_ok_pos; [by destruct Hc|done]|by apply further_same|done].
Qed.

Lemma next_line_shorter c : zl_rest c <> [] -> (length (zl_rest (to_next_line (snd (z_line_end_ptr (zl_rest c))) c)) < length (zl_rest c))%nat.
Proof.
  destruct (zl_rest c) as [|ch p]; [done|]. intros _. cbn [z_line_end_ptr]. destruct (Z.eqb_spec ch 10) as [->|Hn]; [cbn; lia|]. pose proof (suffix_length _ _ (line_end_suffix p)) as Hl. destruct (z_line_end_ptr p) as [l rest]. cbn [snd] in *.
  unfold to_next_line. destruct rest as [|x rest]; cbn in *; [lia|]. destruct (x =? 10); cbn in *; lia.
Qed.

Lemma skip_block_ok fuel depth stop c : lex_ok c -> (length (zl_rest c) < fuel)%nat -> gives (skip_block_loop fuel depth stop c) (fun '(r, c') => lex_step c r c').
Proof.
  revert depth c. induction fuel as [|fuel IH]; intros depth c Hc Hf; [lia|]. cbn [skip_block_loop]. destruct (zl_rest c) as [|ch p] eqn:Er; [cbn; apply step_error; [done|apply further_refl|by destruct Hc]|]. 
  assert (zl_rest c <> []) as Hne by congruence. rewrite <- Er in Hf |- *. pose proof (next_line_shorter c Hne) as Hlt. pose proof (line_end_suffix (zl_rest c)) as Hs. destruct (z_line_end_ptr (zl_rest c)) as [line rest]. cbn [snd] in *.
  destruct (next_line_ok rest c Hc Hs) as (Hc1 & Hf1 & He1). assert (lex_step c 0 (to_next_line rest c)) as H0 by (split_and!; auto).
  assert (forall d, gives (skip_block_loop fuel d stop (to_next_line rest c)) (fun '(r, c') => lex_step c r c')) as Hgo.
  { intros d. eapply gives_mono; [apply IH; [done|lia]|]. intros [r c']. by apply step_trans. }
  destruct (next_is 35 _); [|apply Hgo]. destruct (_ || _); [apply Hgo|]. destruct (_ && stop); [exact H0|]. destruct (z_streq _ _); [|apply Hgo]. destruct (_ =? 0); [exact H0|apply Hgo].
Qed.

(** A directive is read, and not again. *)
Lemma directive_ok c : lex_ok c -> next_is 35 (zl_rest c) = true ->
  gives (z_handle_preprocessor_directive c) (fun '(r, c') => lex_step c r c' /\ (r = 0 -> (length (zl_rest c') < length (zl_rest c))%nat)).
Proof.
  intros Hc Hn. assert (zl_rest c <> []) as Hne by (destruct (zl_rest c); done). pose proof (next_line_shorter c Hne) as Hlt. pose proof (line_end_suffix (zl_rest c)) as Hs.
  assert (next_is 35 (fst (z_line_end_ptr (zl_rest c))) = true /\ (length (snd (z_line_end_ptr (zl_rest c))) < length (zl_rest c))%nat) as [Hn' Hlt2].
  { destruct (zl_rest c) as [|ch p]; [done|]. cbn in Hn. cbn [z_line_end_ptr]. apply Z.eqb_eq in Hn as ->. cbn [Z.eqb]. pose proof (suffix_length _ _ (line_end_suffix p)). destruct (z_line_end_ptr p). cbn in *. split; [done|lia]. }
  unfold z_handle_preprocessor_directive. destruct (z_line_end_ptr (zl_rest c)) as [line rest]. cbn [fst snd] in *. rewrite Hn'. cbn [negb].
  destruct (next_line_ok rest c Hc Hs) as (Hc1 & Hf1 & He1). assert (1 <= zl_line c) as Hl1 by by destruct Hc.
  assert (lex_step c 0 (set_pos rest (zl_line c) c) /\ (0 = 0 -> (length (zl_rest (set_pos rest (zl_line c) c)) < length (zl_rest c))%nat)) as Hend by (split; [split_and!; [by apply lex_ok_pos|by apply further_same|by left]|done]).
  assert (forall stop, gives (z_skip_preprocessor_block stop (to_next_line rest c)) (fun '(r, c') => lex_step c r c' /\ (r = 0 -> (length (zl_rest c') < length (zl_rest c))%nat))) as Hskip.
  { intros stop. eapply gives_mono; [apply skip_block_ok; [done|lia]|]. intros [r c'] Hst. split; [by eapply step_trans|]. intros _. destruct Hst as (_ & [Hsuf _ _] & _). apply suffix_length in Hsuf. lia. }
  assert (gives (Some (0, to_next_line rest c)) (fun '(r, c') => lex_step c r c' /\ (r = 0 -> (length (zl_rest c') < length (zl_rest c))%nat))) as Hnext by (split; [split_and!; auto|done]).
  assert (gives (Some (-1, z_set_error (zl_line c) c)) (fun '(r, c') => lex_step c r c' /\ (r = 0 -> (length (zl_rest c') < length (zl_rest c))%nat))) as Herr by (split; [apply step_error; [done|apply further_refl|done]|done]).
  destruct (directive_of (drop 1 line)) as [directive s]. destruct (z_streq directive (chars "define")); [|destruct (_ || _); [|destruct (z_streq directive (chars "if")); [|destruct (z_streq directive (chars "else"))]]].
  - destruct (z_read_directive_word s) as [[name|] s1] eqn:Ew; [|done]. apply directive_word_ok in Ew as [Hname _]. destruct (_ && _); [exact Hend|]. set (q := z_skip_line_spaces_ptr s1).
    destruct (match q with [] => Some 1 | _ => if next_two 47 47 q then Some 1 else z_parse_define_number_text q end) as [value|] eqn:Ev; [|exact Hend].
    assert (is_u64 value) as Hv. { assert (is_u64 1) by (unfold is_u64; lia). destruct q; [by injection Ev as <-|]. destruct (next_two 47 47 _); [by injection Ev as <-|]. by eapply define_number_ok. }
    pose proof (add_constant_ok name value c Hc Hname Hv) as Ha. destruct (z_add_constant name value c) as [r c2]. destruct Ha as (Hc2 & Er & El & Ee & [-> | ->]); cbn [Z.eqb negb].
    + split; [|done]. split_and!; [apply lex_ok_pos; [by rewrite ?El|done]| |by left]. split; cbn; rewrite ?Er, ?El; [done|lia|lia].
    + split; [|done]. apply step_error; [done| |by rewrite El]. split; rewrite ?Er, ?El; [done|lia|lia].
  - destruct (z_read_directive_word s) as [[name|] s1]; [|done]. destruct (if z_streq directive (chars "ifndef") then _ else _); [apply Hskip|exact Hnext].
  - destruct (z_parse_if_number_text s) as [v|]; [|exact Hend]. destruct (v =? 0); [apply Hskip|exact Hnext].
  - apply Hskip.
  - exact Hend.
Qed.

Lemma z_skip_spaces_ok line p : let '(line', p') := z_skip_spaces line p in suffix p' p /\ line <= line' /\ line' + Z.of_nat (length p') <= line + Z.of_nat (length p).
Proof.
  revert line. induction p as [|ch p IH]; intros line; cbn [z_skip_spaces]; [split; [done|cbn; lia]|]. destruct (z_char_is_space ch); [|split; [done|lia]]. specialize (IH (if ch =? 10 then line + 1 else line)).
  destruct (z_skip_spaces _ p) as [line' p']. destruct IH as (Hs & H1 & H2). split; [by apply suffix_cons_r|]. cbn [length]. destruct (ch =? 10); lia.
Qed.

Lemma skip_comment_ok line p : let '(line', p') := skip_comment line p in suffix p' p /\ line <= line' /\ line' + Z.of_nat (length p') <= line + Z.of_nat (length p).
Proof.
  revert line. induction p as [|ch p IH]; intros line; cbn [skip_comment]; [split; [done|cbn; lia]|]. destruct p as [|ch2 p]; [split; [done|cbn; lia]|]. destruct (_ && _); [split; [done|lia]|]. specialize (IH (if ch =? 10 then line + 1 else line)).
  destruct (skip_comment _ (ch2 :: p)) as [line' p']. destruct IH as (Hs & H1 & H2). split; [by apply suffix_cons_r|]. cbn [length] in *. destruct (ch =? 10); lia.
Qed.

Lemma skip_loop_ok fuel c : lex_ok c -> (length (zl_rest c) < fuel)%nat ->
  gives (skip_loop fuel c) (fun c' => lex_ok c' /\ further c c').
Proof.
  revert c. induction fuel as [|fuel IH]; intros c Hc Hf; [lia|]. cbn [skip_loop]. pose proof (z_skip_spaces_ok (zl_line c) (zl_rest c)) as Hsp. destruct (z_skip_spaces _ _) as [line p]. destruct Hsp as (Hs & Hl & Hb). pose proof (suffix_length _ _ Hs) as Hlen.
  assert (1 <= zl_line c) as H1 by by destruct Hc.
  assert (forall p' line', suffix p' p -> line <= line' -> line' + Z.of_nat (length p') <= line + Z.of_nat (length p) -> lex_ok (set_pos p' line' c) /\ further c (set_pos p' line' c)) as Hpos.
  { intros p' line' ? ? ?. split; [apply lex_ok_pos; [lia|done]|]. apply further_pos; [by etrans|lia|lia]. }
  assert (forall c1, lex_ok c1 -> further c c1 -> (length (zl_rest c1) < length (zl_rest c))%nat -> gives (skip_loop fuel c1) (fun c' => lex_ok c' /\ further c c')) as Hgo.
  { intros c1 Hc1 Hf1 Hlt. eapply gives_mono; [apply IH; [done|lia]|]. intros c' [? ?]. split; [done|by eapply further_trans]. }
  destruct (next_two 47 47 p) eqn:E1; [|destruct (next_two 47 42 p) eqn:E2; [|destruct (next_is 35 p) eqn:E3]].
  - destruct p as [|a [|b p]]; [done..|]. change (drop 2 (a :: b :: p)) with p. pose proof (line_end_suffix p) as Hs2. pose proof (suffix_length _ _ Hs2). cbn [length] in *.
    assert (suffix (snd (z_line_end_ptr p)) (a :: b :: p)) by (by apply suffix_cons_r, suffix_cons_r). destruct (Hpos (snd (z_line_end_ptr p)) line ltac:(done) ltac:(lia) ltac:(cbn [length zl_rest zl_line zl_pool_used set_pos set_pool] in *; lia)) as [? ?]. apply Hgo; [done|done|cbn [zl_rest set_pos]; lia].
  - destruct p as [|a [|b p]]; [done..|]. change (drop 2 (a :: b :: p)) with p. pose proof (skip_comment_ok line p) as Hcm. destruct (skip_comment line p) as [line2 p2]. destruct Hcm as (Hs2 & Hl2 & Hb2). pose proof (suffix_length _ _ Hs2). cbn [length] in *.
    assert (suffix p2 (a :: b :: p)) as Hs3 by (by apply suffix_cons_r, suffix_cons_r).
    assert (forall q, suffix q (a :: b :: p) -> line2 + Z.of_nat (length q) <= line + Z.of_nat (S (S (length p))) -> gives (Some (z_set_error line2 (set_pos q line2 (set_pos (a :: b :: p) line c)))) (fun c' => lex_ok c' /\ further c c')) as Herr.
    { intros q Hq Hbq. destruct (Hpos q line2 Hq ltac:(lia) Hbq) as [? ?]. split; [by apply lex_ok_error|by apply further_error]. }
    destruct p2 as [|x [|y p2]]; cbn [length] in *; [apply Herr; [done|cbn [length]; lia]..|].
    destruct (Hpos p2 line2 ltac:(etrans; [|exact Hs3]; by apply suffix_cons_r, suffix_cons_r) ltac:(lia) ltac:(lia)) as [? ?]. apply Hgo; [done|done|cbn [zl_rest set_pos]; lia].
  - destruct (Hpos p line ltac:(done) ltac:(lia) ltac:(lia)) as [Hc1 Hf1]. eapply gives_bind; [by apply directive_ok|]. intros [r c2] [(Hc2 & Hf2 & Hr) Hlt]. cbn [zl_rest set_pos] in Hlt.
    destruct (Z.eqb_spec r 0) as [->|Hne]; cbn [negb]; [|split; [done|by eapply further_trans]]. apply Hgo; [done|by eapply further_trans|]. specialize (Hlt eq_refl). lia.
  - destruct (Hpos p line ltac:(done) ltac:(lia) ltac:(lia)) as [Hc1 Hf1]. by cbn.
Qed.

Lemma gives_wr8_at l i v : 0 <= i < Z.of_nat (length l) -> gives (wr8 l i v) (fun l' => length l' = length l /\ l' !! Z.to_nat i = Some v).
Proof.
  intros Hi. unfold wr8. destruct (Z.ltb_spec i 0), (Z.leb_spec (Z.of_nat (length l)) i); cbn [orb gives]; try lia. split; [apply length_insert|]. apply list_lookup_insert_eq. lia.
Qed.

Definition token_ok (c : z_lexer) (t : z_token_t) : Prop :=
  1 <= tk_line t <= zl_line c /\
  match tk_type t with
  | Z_TOKEN_IDENT => name_ok (tk_text t)
  | Z_TOKEN_NUMBER => is_u64 (tk_number t)
  | Z_TOKEN_STRING => 0 <= tk_number t < zl_pool_used c /\ zl_pool c !! Z.to_nat (zl_pool_used c - 1) = Some 0
  | _ => True
  end.

Definition pool_step (c : z_lexer) (start : Z) (r : Z * z_lexer * z_token_t) : Prop :=
  let '(code, c', t') := r in
  lex_ok c' /\ further c c' /\
  ((code = 0 /\ zl_error_line c' = zl_error_line c /\ tk_type t' = Z_TOKEN_STRING /\ tk_number t' = start /\ start < zl_pool_used c' /\ zl_pool c' !! Z.to_nat (zl_pool_used c' - 1) = Some 0) \/
   (code = -1 /\ zl_error_line c' <> 0)).

Lemma string_loop_ok n start used pool line p c t : (length p <= n)%nat -> lex_ok c -> 0 <= start <= used -> used <= Z_STRING_POOL_SIZE -> length pool = length (zl_pool c) -> 1 <= tk_line t ->
  suffix p (zl_rest c) -> zl_line c <= line -> line + Z.of_nat (length p) <= zl_line c + Z.of_nat (length (zl_rest c)) ->
  gives (string_loop start used pool line p c t) (fun r => pool_step c start r /\ tk_line (snd r) = tk_line t /\ suffix (zl_rest (snd (fst r))) p).
Proof.
  intros Hn Hc. pose proof Hc as [C1 C2 C3 C4 C5 C6]. revert used pool line p Hn. induction n as [|n IH]; intros used pool line p Hn Hst Hus Hp Ht Hs Hl Hb.
  all: assert (forall q pool' line', suffix q p -> length pool' = length (zl_pool c) -> line <= line' -> line' + Z.of_nat (length q) <= line + Z.of_nat (length p) ->
    gives (Some (-1, z_set_error (tk_line t) (set_pool pool' (zl_pool_used c) (set_pos q line' c)), t)) (fun r => pool_step c start r /\ tk_line (snd r) = tk_line t /\ suffix (zl_rest (snd (fst r))) p)) as Herr
    by (intros q pool' line' Hq Hp' Hl' Hb'; split; [|split; [done|exact Hq]]; split; [|split]; [apply lex_ok_error; split; cbn; try done; [congruence|lia]|apply further_error; split; cbn; [by etrans|lia|lia]|right; split; [done|by apply error_marks]]).
  - destruct p; [|cbn in Hn; lia]. cbn [string_loop]. apply Herr; done || lia.
  - destruct p as [|ch p]; [cbn [string_loop]; apply Herr; done || lia|]. cbn [string_loop length] in *.
    assert (forall x q, suffix q (ch :: p) -> (length q < S (length p))%nat -> gives
      (let line0 := if x =? 10 then line + 1 else line in
       if Z_STRING_POOL_SIZE <=? used + 1 then Some (-1, z_set_error (tk_line t) (set_pool pool (zl_pool_used c) (set_pos q line0 c)), t)
       else pool0 ← wr8 pool used x; string_loop start (used + 1) pool0 line0 q c t) (fun r => pool_step c start r /\ tk_line (snd r) = tk_line t /\ suffix (zl_rest (snd (fst r))) (ch :: p))) as Hput.
    { intros x q Hq Hlt. cbv zeta. set (line' := if x =? 10 then line + 1 else line). assert (line <= line' /\ line' + Z.of_nat (length q) <= line + Z.of_nat (S (length p))) as [? ?] by (unfold line'; destruct (x =? 10); lia).
      destruct (Z.leb_spec Z_STRING_POOL_SIZE (used + 1)); [apply Herr; done || (cbn [length zl_rest zl_line zl_pool_used set_pos set_pool] in *; lia)|]. eapply gives_bind; [apply gives_wr8; rewrite Hp, C1; unfold Z_STRING_POOL_SIZE in *; lia|]. intros pool' Hp'. eapply gives_mono; [apply IH; try done; try lia; [congruence|by etrans]|]. intros r (? & ? & Hr). split_and!; [done|done|by etrans]. }
    destruct (ch =? 34).
    + destruct (Z.leb_spec Z_STRING_POOL_SIZE used); [apply Herr; [by apply suffix_cons_r|done|lia|cbn [length zl_rest zl_line zl_pool_used set_pos set_pool] in *; lia]|]. eapply gives_bind; [apply (gives_wr8_at pool used 0); rewrite Hp, C1; unfold Z_STRING_POOL_SIZE in *; lia|]. intros pool' [Hp' H0]. cbn. split; [|split; [done|by apply suffix_cons_r]]. split_and!.
      * split; cbn; try done; [congruence|lia..].
      * split; cbn; [etrans; [by apply suffix_cons_r|exact Hs]|lia|lia].
      * left. split_and!; try done; [cbn [length zl_rest zl_line zl_pool_used set_pos set_pool] in *; lia|]. cbn. by replace (used + 1 - 1) with used by lia.
    + destruct (ch =? 92); [|apply (Hput ch p); [by apply suffix_cons_r|lia]]. destruct p as [|ch2 p]; [apply Herr; [apply suffix_nil|done|lia|cbn [length zl_rest zl_line zl_pool_used set_pos set_pool] in *; lia]|]. cbn [length] in *.
      destruct (unescape ch2) as [x|]; [apply (Hput x p); [by apply suffix_cons_r, suffix_cons_r|lia]|]. apply Herr; [by apply suffix_cons_r, suffix_cons_r|done|lia|cbn [length zl_rest zl_line zl_pool_used set_pos set_pool] in *; lia].
Qed.

Definition is_sign (t : z_token_type_t) : bool := match t with Z_TOKEN_EOF | Z_TOKEN_IDENT | Z_TOKEN_NUMBER | Z_TOKEN_STRING => false | _ => true end.

Lemma drop_suffix {A} n (l : list A) : suffix (drop n l) l.
Proof. exists (take n l). by rewrite take_drop. Qed.

Lemma sign_ok ch p t p' : z_sign ch p = Some (t, p') -> suffix p' p /\ is_sign t = true.
Proof.
  unfold z_sign. assert (suffix (drop 1 (drop 1 p)) p) as H2 by (etrans; apply drop_suffix). pose proof (drop_suffix 1 p) as H1.
  repeat match goal with |- (if ?b then _ else _) = _ -> _ => destruct b end; intros [= <- <-]; done.
Qed.

(** What a call of z_next_token does: it moves on to a token, stays at the end,
    or marks an error. *)
Definition next_ok (c : z_lexer) (r : Z) (c' : z_lexer) : Prop :=
  lex_ok c' /\ further c c' /\
  ((r = 0 /\ zl_error_line c' = 0 /\ token_ok c' (zl_current c') /\
    (if decide (tk_type (zl_current c') = Z_TOKEN_EOF) then zl_rest c' = [] else (length (zl_rest c') < length (zl_rest c))%nat)) \/
   (r = -1 /\ zl_error_line c' <> 0)).

Lemma ident_at p : match p with ch :: _ => z_char_is_ident_start ch = true | [] => False end -> match word_loop 0 p with (Some w, p') => name_ok w /\ suffix p' p /\ (length p' < length p)%nat | (None, p') => suffix p' p end.
Proof.
  destruct p as [|ch p]; [done|]. intros Hs. pose proof (word_loop_ok 0 (ch :: p) ltac:(lia)) as Hw. destruct (word_loop 0 (ch :: p)) as [[w|] p']; [|done]. destruct Hw as (E & Hf & Hl & Hn). destruct w as [|x w]; cbn in E.
  - subst p'. unfold z_char_is_ident_continue in Hn. by rewrite Hs in Hn.
  - injection E as <- E. specialize (Hl ltac:(done)). split_and!; [split_and!; [done|done|lia]|exists (ch :: w); by rewrite E|rewrite E; cbn; rewrite length_app; lia].
Qed.

Lemma number_at c t : match zl_rest c with ch :: _ => z_char_is_digit ch = true | [] => False end ->
  let '(r, c', t') := z_read_number c t in exists p, c' = set_pos p (zl_line c) c /\ suffix p (zl_rest c) /\
    ((r = 0 /\ is_u64 (tk_number t') /\ tk_type t' = Z_TOKEN_NUMBER /\ tk_line t' = tk_line t /\ (length p < length (zl_rest c))%nat) \/ (r = -1 /\ t' = t)).
Proof.
  unfold z_read_number. destruct (zl_rest c) as [|ch p] eqn:Er; [done|]. intros Hd. set (hex := next_two 48 120 _ || _). destruct hex eqn:Eh; cbn [andb].
  - assert (exists x q, p = x :: q) as (x & q & ->) by (destruct p as [|x q]; [cbn in Eh; discriminate|eauto]). change (drop 2 (ch :: x :: q)) with q. assert (suffix q (ch :: x :: q)) as Hs by (by apply suffix_cons_r, suffix_cons_r).
    destruct (negb _); [exists q; split; [done|split; [done|by right]]|]. pose proof (number_loop_ok 16 0 false q ltac:(auto) ltac:(unfold is_u64; lia)) as Hn. destruct (number_loop 16 0 false q) as [[v b] p']. destruct Hn as [Hv Hs'].
    exists p'. split_and!; [done|by etrans|left]. apply suffix_length in Hs'. cbn. split_and!; try done. lia.
  - cbn [number_loop]. rewrite Hd. cbn [Z.eqb]. pose proof (number_loop_ok 10 (u64 (0 * 10 + (ch - 48))) true p ltac:(auto) ltac:(apply u64_range)) as Hn. destruct (number_loop 10 _ true p) as [[v b] p']. destruct Hn as [Hv Hs'].
    exists p'. split_and!; [done|by apply suffix_cons_r|left]. apply suffix_length in Hs'. cbn. split_and!; try done. lia.
Qed.

(** C35: Whatever a source holds, every call of z_next_token ends, and either
    marks an error on some line and returns -1 or returns 0 with a token: an
    identifier that fits with its terminator into the 128 bytes of its buffer,
    a number of 64 bits, a terminated string inside the pool of 65536 bytes, a
    sign, or the end of the source, and the end only when nothing is left. No
    call goes back, and every token but the last one takes bytes, so that a
    source of [n] bytes has at most [n] tokens before its end; lines are
    counted with bytes, so that the count does not wrap. Constants keep
    distinct names that fit into their table. *)
Theorem next_token_total c : lex_ok c -> gives (z_next_token c) (fun '(r, c') => next_ok c r c').
Proof.
  intros Hc. unfold z_next_token. eapply gives_bind; [by apply skip_loop_ok; [|lia]|]. intros c1 [Hc1 Hf1]. pose proof (suffix_length _ _ (fu_rest _ _ Hf1)) as Hlen1. pose proof (lo_line _ Hc1) as Hl1.
  destruct (Z.eqb_spec (zl_error_line c1) 0) as [He|He]; cbn [negb]; [|cbn; split_and!; auto].
  assert (forall c2 line, lex_ok c2 -> further c1 c2 -> 1 <= line -> next_ok c (-1) (z_set_error line c2)) as Herr.
  { intros c2 line Hc2 Hf2 Hl. split_and!; [by apply lex_ok_error|apply further_error; by eapply further_trans|right]. split; [done|by apply error_marks]. }
  assert (forall c2 t, lex_ok c2 -> further c1 c2 -> zl_error_line c2 = 0 -> token_ok c2 t -> tk_type t <> Z_TOKEN_EOF -> (length (zl_rest c2) < length (zl_rest c1))%nat -> next_ok c 0 (set_current t c2)) as Hgo.
  { intros c2 t Hc2 Hf2 He2 Ht Hne Hlt. split_and!; [by apply lex_ok_current|pose proof (further_trans _ _ _ Hf1 Hf2) as []; by split|left]. split_and!; [done|done|done|]. cbn. rewrite decide_False by done. lia. }
  destruct (zl_rest c1) as [|ch p] eqn:Er.
  - cbn. split_and!; [by apply lex_ok_current|destruct Hf1; by split|left]. split_and!; [done|done|split; [cbn; lia|done]|]. cbn. done.
  - destruct (z_char_is_ident_start ch) eqn:Ei; [|destruct (z_char_is_digit ch) eqn:Ed; [|destruct (Z.eqb_spec ch 34)]].
    + unfold z_read_ident. pose proof (ident_at (zl_rest c1)) as Hi. rewrite Er in Hi at 1. specialize (Hi Ei). destruct (word_loop 0 (zl_rest c1)) as [[w|] p']; cbn [finish_token Z.eqb negb gives].
      * destruct Hi as (Hn & Hs & Hlt). apply Hgo; [by apply lex_ok_pos|by apply further_same|done|split; [cbn; lia|done]|done|by rewrite <- Er].
      * apply Herr; [by apply lex_ok_pos|by apply further_same|done].
    + pose proof (number_at c1 (ZToken Z_TOKEN_EOF 0 [] (zl_line c1))) as Hn. rewrite Er in Hn at 1. specialize (Hn Ed). destruct (z_read_number c1 _) as [[r c2] t2]. destruct Hn as (p' & -> & Hs & [(-> & Hv & Ht & Htl & Hlt)|[-> ->]]); cbn [finish_token Z.eqb negb gives].
      * apply Hgo; [by apply lex_ok_pos|by apply further_same|done| |by rewrite Ht|by rewrite <- Er]. split; [cbn in *; lia|by rewrite Ht].
      * apply Herr; [by apply lex_ok_pos|by apply further_same|done].
    + unfold z_read_string. pose proof (lo_used _ Hc1). eapply gives_bind; [rewrite Er; change (drop 1 (ch :: p)) with p; apply (string_loop_ok (length p)); rewrite ?Er; cbn [length tk_line]; try done; try lia; by apply suffix_cons_r|]. intros [[r c2] t2] ((Hc2 & Hf2 & Hr) & Htl & Hs). cbn [fst snd tk_line] in *. apply suffix_length in Hs.
      destruct Hr as [(-> & He2 & Ht & Hst & Hu & H0)|[-> He2]]; cbn [finish_token Z.eqb negb gives]; [|rewrite Htl; by apply Herr]. apply Hgo; [done|done|congruence| |by rewrite Ht|cbn [length]; lia]. split; [rewrite Htl; destruct Hf2; lia|]. rewrite Ht, Hst. split; [lia|done].
    + destruct (z_sign ch p) as [[type p']|] eqn:Es; cbn [gives tk_line].
      * apply sign_ok in Es as [Hs Hsign]. assert (suffix p' (zl_rest c1)) as Hs1 by (rewrite Er; by apply suffix_cons_r). apply Hgo; [by apply lex_ok_pos|by apply further_same|done| |by destruct type|apply suffix_length in Hs; cbn [zl_rest set_pos length]; lia]. split; [cbn; lia|]. by destruct type.
      * assert (suffix p (zl_rest c1)) as Hs1 by (rewrite Er; by apply suffix_cons_r). apply Herr; [by apply lex_ok_pos|by apply further_same|done].
Qed.

(** A lexer at the beginning of a source. *)
Definition demo_lexer (t : z_token_t) (rest : list Z) : z_lexer := ZLexer rest 1 t 0 0 0 (replicate (Z.to_nat Z_STRING_POOL_SIZE) 0) 0 [] [] [].

Lemma demo_lexer_ok t rest : lex_ok (demo_lexer t rest).
Proof. split; cbn [zl_pool zl_pool_used zl_line zl_constants demo_lexer]; [apply length_replicate|unfold Z_STRING_POOL_SIZE; lia|lia|constructor|constructor|done]. Qed.

Definition no_token : z_token_t := ZToken Z_TOKEN_EOF 0 [] 0.

Lemma next_token_total_witness :
  (lex_ok (demo_lexer no_token (chars "#if 0")) /\ gives (z_next_token (demo_lexer no_token (chars "#if 0"))) (fun '(r, c') => next_ok (demo_lexer no_token (chars "#if 0")) r c')).
Proof. split; [apply demo_lexer_ok|]. apply next_token_total. apply demo_lexer_ok. Defined.
