(* ===== verification/ZLexSpec.v ===== *)
(** The lexer of the Z compiler reads what is written, and enumerations define
    their names; and where the lexer does not do what it means to. *)
From Stdlib Require Import ZArith Lia String.
From stdpp Require Import base tactics option list numbers.
From S2P Require Import Prelude.
From S2P Require Import Buffer.
From S2P Require Import ZLex.
#[local] Open Scope Z_scope.

(** ** What is written is read *)

(** The tokens as they are written. *)
Inductive lexeme : Type :=
| LIdent (s : list Z)
| LDec (digits : list Z)
| LHex (digits : list Z)
| LString (content : list Z)
| LSign (t : z_token_type_t).

Definition sign_text (t : z_token_type_t) : list Z :=
  chars match t with
  | Z_TOKEN_LPAREN => "(" | Z_TOKEN_RPAREN => ")" | Z_TOKEN_LBRACE => "{" | Z_TOKEN_RBRACE => "}" | Z_TOKEN_LBRACKET => "[" | Z_TOKEN_RBRACKET => "]"
  | Z_TOKEN_DOT => "." | Z_TOKEN_SEMI => ";" | Z_TOKEN_COMMA => "," | Z_TOKEN_QUESTION => "?" | Z_TOKEN_COLON => ":" | Z_TOKEN_ASSIGN => "="
  | Z_TOKEN_AMP => "&" | Z_TOKEN_AMP_ASSIGN => "&=" | Z_TOKEN_AMP_AMP => "&&" | Z_TOKEN_PIPE => "|" | Z_TOKEN_PIPE_ASSIGN => "|=" | Z_TOKEN_PIPE_PIPE => "||"
  | Z_TOKEN_CARET => "^" | Z_TOKEN_CARET_ASSIGN => "^=" | Z_TOKEN_TILDE => "~" | Z_TOKEN_BANG => "!" | Z_TOKEN_PLUS => "+" | Z_TOKEN_PLUS_PLUS => "++"
  | Z_TOKEN_PLUS_ASSIGN => "+=" | Z_TOKEN_MINUS => "-" | Z_TOKEN_ARROW => "->" | Z_TOKEN_MINUS_MINUS => "--" | Z_TOKEN_MINUS_ASSIGN => "-="
  | Z_TOKEN_STAR => "*" | Z_TOKEN_STAR_ASSIGN => "*=" | Z_TOKEN_SLASH => "/" | Z_TOKEN_SLASH_ASSIGN => "/=" | Z_TOKEN_PERCENT => "%"
  | Z_TOKEN_PERCENT_ASSIGN => "%=" | Z_TOKEN_EQ => "==" | Z_TOKEN_NE => "!=" | Z_TOKEN_LT => "<" | Z_TOKEN_LE => "<=" | Z_TOKEN_SHIFT_LEFT => "<<"
  | Z_TOKEN_SHIFT_LEFT_ASSIGN => "<<=" | Z_TOKEN_GT => ">" | Z_TOKEN_GE => ">=" | Z_TOKEN_SHIFT_RIGHT => ">>" | Z_TOKEN_SHIFT_RIGHT_ASSIGN => ">>="
  | _ => ""
  end.

Definition escape (ch : Z) : list Z :=
  if ch =? 10 then chars "\n" else if ch =? 13 then chars "\r" else if ch =? 9 then chars "\t" else if ch =? 0 then chars "\0"
  else if ch =? 34 then [92; 34] else if ch =? 92 then [92; 92] else [ch].

Definition spell (l : lexeme) : list Z :=
  match l with
  | LIdent s => s
  | LDec ds => ds
  | LHex ds => chars "0x" ++ ds
  | LString s => 34 :: concat (escape <$> s) ++ [34]
  | LSign t => sign_text t
  end.

(** The characters that would make a sign a longer one, or a comment. *)
Definition extends (t : z_token_type_t) : list Z :=
  chars match t with
  | Z_TOKEN_PLUS => "+=" | Z_TOKEN_MINUS => ">-=" | Z_TOKEN_SLASH => "=/*" | Z_TOKEN_AMP => "&=" | Z_TOKEN_PIPE => "|=" | Z_TOKEN_LT => "<=" | Z_TOKEN_GT => ">="
  | Z_TOKEN_STAR | Z_TOKEN_PERCENT | Z_TOKEN_ASSIGN | Z_TOKEN_CARET | Z_TOKEN_BANG | Z_TOKEN_SHIFT_LEFT | Z_TOKEN_SHIFT_RIGHT => "="
  | _ => ""
  end.

(** A text that cannot be taken for a part of the token before it. *)
Definition stops (l : lexeme) (rest : list Z) : bool :=
  match rest with
  | [] => true
  | ch :: _ =>
      match l with
      | LIdent _ | LDec _ | LHex _ => negb (z_char_is_ident_continue ch)
      | LString _ => true
      | LSign t => negb (existsb (fun x => ch =? x) (extends t))
      end
  end.

Definition lexeme_ok (l : lexeme) : Prop :=
  match l with
  | LIdent s => name_ok s
  | LDec ds => ds <> [] /\ Forall (fun ch => z_char_is_digit ch = true) ds
  | LHex ds => ds <> [] /\ Forall (fun ch => z_char_is_hex_digit ch = true) ds
  | LString _ => True
  | LSign t => is_sign t = true
  end.

(** The value of digits, modulo [2 ^ 64]. *)
Definition value (base : Z) (digit : Z -> Z) (ds : list Z) : Z := foldl (fun v ch => u64 (v * base + digit ch)) 0 ds.

(** The token that is read, on a line, when strings go to [used]. *)
Definition token_of (l : lexeme) (line used : Z) : z_token_t :=
  match l with
  | LIdent s => ZToken Z_TOKEN_IDENT 0 s line
  | LDec ds => ZToken Z_TOKEN_NUMBER (value 10 (fun ch => ch - 48) ds) [] line
  | LHex ds => ZToken Z_TOKEN_NUMBER (value 16 z_hex_value ds) [] line
  | LString _ => ZToken Z_TOKEN_STRING used [] line
  | LSign t => ZToken t 0 [] line
  end.

Definition pool_bytes (l : lexeme) : list Z := match l with LString s => s ++ [0] | _ => [] end.

(** The lines a token is counted for: also those that an escape stands for. *)
Definition newlines (s : list Z) : Z := Z.of_nat (length (filter (fun ch => ch = 10) s)).
Definition lexeme_lines (l : lexeme) : Z := match l with LString s => newlines s | _ => 0 end.

Lemma sign_read t rest : is_sign t = true -> stops (LSign t) rest = true ->
  match sign_text t with ch :: p => z_sign ch (p ++ rest) = Some (t, rest) | [] => False end.
Proof.
  intros Ht Hs. destruct rest as [|x rest]; [by destruct t|]. cbn [stops] in Hs. apply negb_true_iff in Hs.
  destruct t; try done;
    match goal with |- context [sign_text ?T] => let v := eval vm_compute in (sign_text T) in change (sign_text T) with v end;
    match type of Hs with context [extends ?T] => let v := eval vm_compute in (extends T) in change (extends T) with v in Hs end;
    cbn [existsb] in Hs; rewrite ?orb_false_iff in Hs; cbn; repeat match goal with H : _ /\ _ |- _ => destruct H end; repeat match goal with H : (_ =? _) = false |- _ => rewrite H; clear H end; reflexivity.
Qed.

Lemma word_read len w rest : Forall (fun ch => z_char_is_ident_continue ch = true) w -> len + Z.of_nat (length w) < 128 -> match rest with ch :: _ => z_char_is_ident_continue ch = false | [] => True end ->
  word_loop len (w ++ rest) = (Some w, rest).
Proof.
  intros Hw. revert len. induction Hw as [|ch w Hch Hw IH]; intros len Hl Hr; cbn [app word_loop].
  - destruct rest as [|x rest]; [done|]. by cbn [word_loop]; rewrite Hr.
  - rewrite Hch. cbn [length] in Hl. unfold Z_MAX_TOKEN_TEXT. rewrite (proj2 (Z.leb_gt _ _)) by lia. rewrite IH by (done || lia). done.
Qed.

Lemma number_read (base : Z) (good : Z -> bool) (digit : Z -> Z) v saw ds rest :
  (base = 10 /\ good = z_char_is_digit /\ digit = (fun ch => ch - 48)) \/ (base = 16 /\ good = z_char_is_hex_digit /\ digit = z_hex_value) ->
  Forall (fun ch => good ch = true) ds -> match rest with ch :: _ => good ch = false | [] => True end ->
  number_loop base v saw (ds ++ rest) = (foldl (fun v ch => u64 (v * base + digit ch)) v ds, saw || negb (bool_decide (ds = [])), rest).
Proof.
  intros Hb Hd Hr. revert v saw. induction Hd as [|ch ds Hch Hd IH]; intros v saw; cbn [app number_loop foldl].
  - rewrite bool_decide_true, orb_false_r by done. destruct rest as [|x rest]; [done|]. cbn [number_loop]. destruct Hb as [(-> & -> & ->)|(-> & -> & ->)]; cbn [Z.eqb Pos.eqb]; by rewrite Hr.
  - destruct Hb as [(-> & -> & ->)|(-> & -> & ->)]; cbn [Z.eqb Pos.eqb]; rewrite Hch, IH by auto; cbn [orb]; (rewrite bool_decide_false by done; cbn [negb]; by rewrite orb_true_r).
Qed.

Lemma digit_is_hex ch : z_char_is_digit ch = true -> z_char_is_hex_digit ch = true.
Proof. unfold z_char_is_digit, z_char_is_hex_digit. by intros ->. Qed.

Lemma digit_continues ch : z_char_is_ident_continue ch = false -> z_char_is_hex_digit ch = false /\ z_char_is_digit ch = false /\ ch <> 120 /\ ch <> 88.
Proof.
  unfold z_char_is_ident_continue, z_char_is_ident_start, z_char_is_digit, z_char_is_hex_digit. intros H. rewrite !orb_false_iff, !andb_false_iff, !Z.leb_gt, Z.eqb_neq in H. rewrite !orb_false_iff, !andb_false_iff, !Z.leb_gt. lia.
Qed.

(** A string goes to the pool, with its terminator. *)
Definition pool_after (pool : list Z) (used : Z) (bs : list Z) : list Z := take (Z.to_nat used) pool ++ bs ++ drop (Z.to_nat used + length bs) pool.

Lemma wr8_pool pool used ch bs : 0 <= used -> (Z.to_nat used + S (length bs) <= length pool)%nat ->
  exists pool', wr8 pool used ch = Some pool' /\ length pool' = length pool /\ pool_after pool' (used + 1) bs = pool_after pool used (ch :: bs).
Proof.
  intros Hu Hl. unfold wr8. rewrite (proj2 (Z.ltb_ge _ _)), (proj2 (Z.leb_gt _ _)) by lia. cbn [orb]. eexists. split; [done|]. split; [by rewrite length_insert|]. unfold pool_after. cbn [length].
  replace (Z.to_nat (used + 1)) with (S (Z.to_nat used)) by lia. rewrite drop_insert_lt by lia. rewrite (take_S_r _ _ ch) by (apply list_lookup_insert_eq; lia). rewrite take_insert_ge by lia. rewrite <- (assoc app). cbn. do 4 f_equal. lia.
Qed.

Lemma newlines_cons ch s : newlines (ch :: s) = (if ch =? 10 then 1 else 0) + newlines s.
Proof. unfold newlines. rewrite filter_cons. destruct (Z.eqb_spec ch 10) as [->|Hn]; [rewrite decide_True by done; cbn [length]; lia|by rewrite decide_False by done]. Qed.

Lemma string_read start s used pool line rest c t : 0 <= used -> length pool = Z.to_nat Z_STRING_POOL_SIZE -> used + Z.of_nat (length s) + 1 <= Z_STRING_POOL_SIZE ->
  string_loop start used pool line (concat (escape <$> s) ++ 34 :: rest) c t =
  Some (0, set_pool (pool_after pool used (s ++ [0])) (used + Z.of_nat (length s) + 1) (set_pos rest (line + newlines s) c), ZToken Z_TOKEN_STRING start (tk_text t) (tk_line t)).
Proof.
  revert used pool line. induction s as [|ch s IH]; intros used pool line Hu Hp Hs; cbn [fmap list_fmap concat app length] in *.
  - cbn [string_loop]. rewrite Z.eqb_refl. unfold Z_STRING_POOL_SIZE in *. rewrite (proj2 (Z.leb_gt _ _)) by lia. destruct (wr8_pool pool used 0 [] Hu ltac:(cbn; lia)) as (pool' & -> & Hp' & Hpa). cbn [mbind option_bind].
    do 3 f_equal. rewrite <- Hpa. unfold newlines. cbn [filter list_filter length]. replace (line + Z.of_nat 0) with line by lia. unfold pool_after. cbn [app length]. rewrite Nat.add_0_r, take_drop. f_equal. lia.
  - assert (forall q, q = concat (escape <$> s) ++ 34 :: rest -> (let line0 := if ch =? 10 then line + 1 else line in
       if Z_STRING_POOL_SIZE <=? used + 1 then Some (-1, z_set_error (tk_line t) (set_pool pool (zl_pool_used c) (set_pos q line0 c)), t)
       else pool0 ← wr8 pool used ch; string_loop start (used + 1) pool0 line0 q c t) = Some (0, set_pool (pool_after pool used ((ch :: s) ++ [0])) (used + Z.of_nat (S (length s)) + 1) (set_pos rest (line + newlines (ch :: s)) c), ZToken Z_TOKEN_STRING start (tk_text t) (tk_line t))) as Hput.
    { intros q ->. cbv zeta. unfold Z_STRING_POOL_SIZE in *. rewrite (proj2 (Z.leb_gt _ _)) by lia. destruct (wr8_pool pool used ch (s ++ [0]) Hu ltac:(rewrite length_app; cbn [length]; lia)) as (pool' & -> & Hp' & Hpa). cbn [mbind option_bind]. rewrite IH by (lia || congruence). rewrite Hpa, newlines_cons.
      do 3 f_equal. replace (used + 1 + Z.of_nat (length s) + 1) with (used + Z.of_nat (S (length s)) + 1) by lia. do 2 f_equal. destruct (ch =? 10); lia. }
    rewrite <- (assoc app). specialize (Hput _ eq_refl). revert Hput. generalize (concat (escape <$> s) ++ 34 :: rest). intros q Hput. unfold escape.
    destruct (Z.eqb_spec ch 10) as [->|N1]; [exact Hput|]. destruct (Z.eqb_spec ch 13) as [->|N2]; [exact Hput|]. destruct (Z.eqb_spec ch 9) as [->|N3]; [exact Hput|]. destruct (Z.eqb_spec ch 0) as [->|N4]; [exact Hput|].
    destruct (Z.eqb_spec ch 34) as [->|N5]; [exact Hput|]. destruct (Z.eqb_spec ch 92) as [->|N6]; [exact Hput|]. cbn [app string_loop]. rewrite (proj2 (Z.eqb_neq ch 34)), (proj2 (Z.eqb_neq ch 92)), (proj2 (Z.eqb_neq ch 10)) by done. exact Hput.
Qed.

(** The state behind a token. *)
Definition after_lexeme (l : lexeme) (rest : list Z) (c : z_lexer) : z_lexer :=
  set_current (token_of l (zl_line c) (zl_pool_used c))
    (set_pool (pool_after (zl_pool c) (zl_pool_used c) (pool_bytes l)) (zl_pool_used c + Z.of_nat (length (pool_bytes l))) (set_pos rest (zl_line c + lexeme_lines l) c)).

Lemma pool_after_nil pool used : pool_after pool used [] = pool.
Proof. unfold pool_after. cbn. by rewrite Nat.add_0_r, take_drop. Qed.

Lemma after_plain l rest c : pool_bytes l = [] -> lexeme_lines l = 0 -> after_lexeme l rest c = set_current (token_of l (zl_line c) (zl_pool_used c)) (set_pos rest (zl_line c) c).
Proof. intros E1 E2. unfold after_lexeme. rewrite E1, E2, pool_after_nil. cbn [length]. by rewrite !Z.add_0_r. Qed.

Lemma stops_not l rest : stops l rest = true -> match l with LIdent _ | LDec _ | LHex _ => match rest with ch :: _ => z_char_is_ident_continue ch = false | [] => True end | _ => True end.
Proof. unfold stops. destruct rest as [|ch rest]; [by destruct l|]. destruct l; try done; intros H; by apply negb_true_iff in H. Qed.

Lemma digit_not_start ch : z_char_is_digit ch = true -> z_char_is_ident_start ch = false.
Proof. unfold z_char_is_digit, z_char_is_ident_start. intros H. rewrite andb_true_iff, !Z.leb_le in H. rewrite !orb_false_iff, !andb_false_iff, !Z.leb_gt, Z.eqb_neq. lia. Qed.

Lemma sign_plain t : is_sign t = true -> match sign_text t with ch :: _ => z_char_is_ident_start ch = false /\ z_char_is_digit ch = false /\ (ch =? 34) = false | [] => False end.
Proof. by destruct t. Qed.

Lemma lexeme_read l rest c c1 : lexeme_ok l -> stops l rest = true -> z_skip_ws_and_comments c = Some c1 -> zl_error_line c1 = 0 -> zl_rest c1 = spell l ++ rest ->
  length (zl_pool c1) = Z.to_nat Z_STRING_POOL_SIZE -> 0 <= zl_pool_used c1 -> zl_pool_used c1 + Z.of_nat (length (pool_bytes l)) <= Z_STRING_POOL_SIZE ->
  z_next_token c = Some (0, after_lexeme l rest c1).
Proof.
  intros Hl Hst Hsk He Hr Hp Hu Hroom. pose proof (stops_not l rest Hst) as Hn. unfold z_next_token. rewrite Hsk. cbn [mbind option_bind]. rewrite He. cbn [Z.eqb negb]. destruct l as [s|ds|ds|s|t]; cbn [spell lexeme_ok pool_bytes] in *.
  - destruct s as [|ch s]; [by destruct Hl|]. destruct Hl as (Hs & Hf & Hlen). rewrite after_plain by done. unfold z_read_ident. rewrite Hr, (word_read 0 (ch :: s)) by (done || lia). cbn [app]. by rewrite Hs.
  - destruct Hl as [Hne Hd]. destruct ds as [|ch ds]; [done|]. pose proof (Forall_cons_1 _ _ _ Hd) as [Hch Hd']. rewrite after_plain by done. unfold z_read_number. rewrite Hr.
    assert (next_two 48 120 ((ch :: ds) ++ rest) || next_two 48 88 ((ch :: ds) ++ rest) = false) as ->.
    { assert (match ds ++ rest with y :: _ => y <> 120 /\ y <> 88 | [] => True end) as Hy.
      { destruct ds as [|y ds]; [destruct rest as [|y rest]; [done|]; apply digit_continues in Hn; cbn; tauto|]. apply Forall_cons_1 in Hd' as [Hy _]. unfold z_char_is_digit in Hy. cbn. lia. }
      cbn [app]. destruct (ds ++ rest) as [|y q]; [done|]. cbn. destruct Hy. rewrite (proj2 (Z.eqb_neq y 120)), (proj2 (Z.eqb_neq y 88)) by done. by rewrite !andb_false_r. }
    cbn [andb]. rewrite (number_read 10 z_char_is_digit (fun ch => ch - 48)); [|auto|done|destruct rest; [done|]; apply digit_continues in Hn; tauto]. cbn [app]. rewrite (digit_not_start ch Hch), Hch. done.
  - destruct Hl as [Hne Hd]. rewrite after_plain by done. unfold z_read_number. rewrite Hr. change (chars "0x" ++ ds) with (48 :: 120 :: ds). cbn [app next_two Z.eqb Pos.eqb andb orb drop]. change (z_char_is_ident_start 48) with false. change (z_char_is_digit 48) with true. cbn iota.
    rewrite drop_0. assert (match ds ++ rest with ch :: _ => z_char_is_hex_digit ch | [] => false end = true) as -> by (destruct ds; [done|]; by apply Forall_cons_1 in Hd as [? _]). cbn [negb].
    rewrite (number_read 16 z_char_is_hex_digit z_hex_value); [done|auto|done|]. destruct rest; [done|]. apply digit_continues in Hn. tauto.
  - unfold z_read_string. rewrite Hr. cbn [app]. change (z_char_is_ident_start 34) with false. change (z_char_is_digit 34) with false. cbn [Z.eqb Pos.eqb drop]. rewrite drop_0, <- (assoc app). cbn [app]. rewrite length_app in Hroom. cbn [length] in Hroom. rewrite string_read by (done || lia). cbn [mbind option_bind finish_token Z.eqb negb].
    unfold after_lexeme. cbn [pool_bytes lexeme_lines token_of tk_text tk_line]. rewrite length_app. cbn [length]. do 3 f_equal. f_equal. lia.
  - pose proof (sign_read t rest Hl Hst) as Hs. pose proof (sign_plain t Hl) as Hpl. destruct (sign_text t) as [|ch p]; [done|]. rewrite Hr. cbn [app]. destruct Hpl as (-> & -> & ->). rewrite Hs, after_plain by done. done.
Qed.

(** What stands between tokens: white space, comments and directives. A
    condition that holds and the end of a block are read like blanks; a block
    whose condition does not hold is one blank up to its end or its other
    part. *)
Inductive head : Type :=
| HIf (digits : list Z)
| HIfdef (name : list Z)
| HIfndef (name : list Z)
| HElse.

Inductive blank : Type :=
| BSpace (ch : Z)
| BLine (t : list Z)
| BBlock (t : list Z)
| BDefine (name digits : list Z)
| BOn (h : head)
| BOff (h : head) (lines : list (list Z)) (other : bool)
| BEndif.

Definition head_text (h : head) : list Z :=
  match h with
  | HIf ds => chars "#if " ++ ds
  | HIfdef n => chars "#ifdef " ++ n
  | HIfndef n => chars "#ifndef " ++ n
  | HElse => chars "#else"
  end.

Definition lines_text (ls : list (list Z)) : list Z := concat ((fun l => l ++ [10]) <$> ls).

Definition blank_text (b : blank) : list Z :=
  match b with
  | BSpace ch => [ch]
  | BLine t => chars "//" ++ t ++ [10]
  | BBlock t => chars "/*" ++ t ++ chars "*/"
  | BDefine n ds => chars "#define " ++ n ++ [32] ++ ds ++ [10]
  | BOn h => head_text h ++ [10]
  | BOff h ls other => head_text h ++ [10] ++ lines_text ls ++ chars (if other then "#else" else "#endif") ++ [10]
  | BEndif => chars "#endif" ++ [10]
  end.

Definition dec (ds : list Z) : Z := value 10 (fun ch => ch - 48) ds.

Definition holds_head (l : list z_constant_t) (h : head) : bool :=
  match h with
  | HIf ds => negb (dec ds =? 0)
  | HIfdef n => bool_decide (n ∈ (zc_name <$> l))
  | HIfndef n => bool_decide (n ∉ (zc_name <$> l))
  | HElse => false
  end.

Definition number_text (ds : list Z) : Prop := ds <> [] /\ Forall (fun ch => z_char_is_digit ch = true) ds.

Definition head_ok (h : head) : Prop := match h with HIf ds => number_text ds | HIfdef n | HIfndef n => name_ok n | HElse => True end.

(** The end of a comment is not in it. *)
Fixpoint no_end (t : list Z) : bool := match t with a :: t' => negb ((a =? 42) && next_is 47 t') && no_end t' | [] => true end.

Inductive line_kind : Type := KOpen | KElse | KClose | KOther.

Definition kind_of_line (l : list Z) : line_kind :=
  let s := z_skip_line_spaces_ptr l in
  if next_is 35 s then
    let d := fst (directive_of (drop 1 s)) in
    if z_streq d (chars "ifndef") || z_streq d (chars "ifdef") || z_streq d (chars "if") then KOpen
    else if z_streq d (chars "else") then KElse
    else if z_streq d (chars "endif") then KClose
    else KOther
  else KOther.

(** Lines whose inner blocks are closed, and that have no other part of their
    own. *)
Fixpoint closed (depth : nat) (ls : list (list Z)) : bool :=
  match ls with
  | [] => (depth =? 0)%nat
  | l :: ls' =>
      match kind_of_line l with
      | KOpen => closed (S depth) ls'
      | KElse => negb (depth =? 0)%nat && closed depth ls'
      | KClose => match depth with O => false | S d => closed d ls' end
      | KOther => closed depth ls'
      end
  end.

Definition blank_ok (names : list (list Z)) (l : list z_constant_t) (b : blank) : Prop :=
  match b with
  | BSpace ch => z_char_is_space ch = true
  | BLine t => 10 ∉ t
  | BBlock t => no_end t = true
  | BDefine n ds => name_ok n /\ number_text ds /\ (n ∉ (zc_name <$> l)) /\ (n ∉ names) /\ Z.of_nat (length l) < Z_MAX_CONSTANTS
  | BOn h => head_ok h /\ holds_head l h = true
  | BOff h ls other => head_ok h /\ holds_head l h = false /\ Forall (fun t => 10 ∉ t) ls /\ closed 0 ls = true /\ (other = true -> h <> HElse)
  | BEndif => True
  end.

Definition blank_constants (b : blank) : list z_constant_t := match b with BDefine n ds => [ZConstant n (dec ds)] | _ => [] end.

Definition blank_lines (b : blank) : Z := match b with BOff _ ls _ => Z.of_nat (length ls) + 2 | _ => newlines (blank_text b) end.

(** The state behind a blank. *)
Definition after_blank (b : blank) (rest : list Z) (c : z_lexer) : z_lexer := set_constants (zl_constants c ++ blank_constants b) (set_pos rest (zl_line c + blank_lines b) c).

Lemma line_end_read t rest : 10 ∉ t -> z_line_end_ptr (t ++ 10 :: rest) = (t, 10 :: rest).
Proof. induction t as [|ch t IH]; intros Hn; [done|]. cbn. rewrite (proj2 (Z.eqb_neq ch 10)) by (intros ->; apply Hn; left). rewrite IH; [done|]. intros ?. apply Hn. by right. Qed.

Lemma newlines_app s t : newlines (s ++ t) = newlines s + newlines t.
Proof. unfold newlines. rewrite list.filter_app, length_app. lia. Qed.

Lemma newlines_none s : 10 ∉ s -> newlines s = 0.
Proof. induction s as [|ch s IH]; intros Hn; [done|]. rewrite newlines_cons, IH by (intros ?; apply Hn; by right). rewrite (proj2 (Z.eqb_neq ch 10)); [done|]. intros ->. apply Hn. left. Qed.

Lemma name_no_newline n : name_ok n -> 10 ∉ n.
Proof. intros (_ & Hf & _) Hin. rewrite Forall_elem in Hf. specialize (Hf _ Hin). discriminate. Qed.

Lemma number_no_newline n : number_text n -> 10 ∉ n.
Proof. intros (_ & Hf) Hin. rewrite Forall_elem in Hf. specialize (Hf _ Hin). discriminate. Qed.

Lemma word_at w rest : name_ok w -> match rest with ch :: _ => z_char_is_ident_continue ch = false | [] => True end -> z_read_directive_word (w ++ rest) = (Some w, rest).
Proof.
  intros (Hs & Hf & Hl) Hr. destruct w as [|ch w]; [done|]. unfold z_read_directive_word. cbn [app z_skip_line_spaces_ptr]. assert (z_char_is_line_space ch = false) as ->.
  { unfold z_char_is_ident_start in Hs. unfold z_char_is_line_space. rewrite !orb_true_iff, !andb_true_iff, !Z.leb_le, Z.eqb_eq in Hs. rewrite !orb_false_iff, !Z.eqb_neq. lia. }
  rewrite Hs. apply (word_read 0 (ch :: w)); [done|lia|done].
Qed.

Lemma word_behind_space w rest : name_ok w -> match rest with ch :: _ => z_char_is_ident_continue ch = false | [] => True end -> z_read_directive_word (32 :: w ++ rest) = (Some w, rest).
Proof. intros Hw Hr. rewrite <- (word_at w rest Hw Hr). done. Qed.

Lemma define_digits ds : number_text ds -> z_parse_define_number_text ds = Some (dec ds).
Proof.
  intros [Hne Hd]. destruct ds as [|ch ds]; [done|]. pose proof (Forall_cons_1 _ _ _ Hd) as [Hch Hd']. assert (48 <= ch <= 57) as Hr by (unfold z_char_is_digit in Hch; lia).
  unfold z_parse_define_number_text. cbn [z_skip_line_spaces_ptr]. assert (z_char_is_line_space ch = false) as -> by (unfold z_char_is_line_space; rewrite !orb_false_iff, !Z.eqb_neq; lia). cbn [next_is].
  rewrite (proj2 (Z.eqb_neq ch 40)) by lia. cbn [next_is]. rewrite (proj2 (Z.eqb_neq ch 45)), (proj2 (Z.eqb_neq ch 43)) by lia.
  assert (next_two 48 120 (ch :: ds) || next_two 48 88 (ch :: ds) = false) as ->.
  { destruct ds as [|y ds]; [done|]. apply Forall_cons_1 in Hd' as [Hy _]. unfold z_char_is_digit in Hy. cbn. rewrite (proj2 (Z.eqb_neq y 120)), (proj2 (Z.eqb_neq y 88)) by lia. by rewrite !andb_false_r. }
  rewrite <- (app_nil_r (ch :: ds)). rewrite (number_read 10 z_char_is_digit (fun ch => ch - 48)); [|auto|done|done]. rewrite bool_decide_false by done. cbn [negb orb]. rewrite app_nil_r. done.
Qed.

Lemma if_digits ds : number_text ds -> z_parse_if_number_text (32 :: ds) = Some (dec ds).
Proof.
  intros Hn. rewrite <- (define_digits ds Hn). destruct Hn as [Hne Hd]. destruct ds as [|ch ds]; [done|]. apply Forall_cons_1 in Hd as [Hch _]. unfold z_parse_if_number_text. cbn [z_skip_line_spaces_ptr]. change (z_char_is_line_space 32) with true. cbn iota.
  assert (z_char_is_line_space ch = false) as E by (unfold z_char_is_digit in Hch; unfold z_char_is_line_space; rewrite !orb_false_iff, !Z.eqb_neq; lia). rewrite E, (digit_not_start ch Hch). done.
Qed.

Lemma comment_read line t rest : no_end t = true -> skip_comment line (t ++ 42 :: 47 :: rest) = (line + newlines t, 42 :: 47 :: rest).
Proof.
  revert line. induction t as [|a t IH]; intros line Hn; cbn [app].
  - cbn. f_equal. unfold newlines. cbn. lia.
  - cbn [no_end] in Hn. apply andb_true_iff in Hn as [Ha Hn]. apply negb_true_iff in Ha. rewrite newlines_cons.
    assert (exists b q, t ++ 42 :: 47 :: rest = b :: q /\ (a =? 42) && (b =? 47) = false) as (b & q & Eq & Hb).
    { destruct t as [|b t]; cbn [app]; [exists 42, (47 :: rest); split; [done|by rewrite andb_false_r]|]. exists b, (t ++ 42 :: 47 :: rest). split; [done|]. exact Ha. }
    specialize (IH (if a =? 10 then line + 1 else line) Hn). rewrite Eq in *. change (skip_comment line (a :: b :: q)) with (if (a =? 42) && (b =? 47) then (line, a :: b :: q) else skip_comment (if a =? 10 then line + 1 else line) (b :: q)). rewrite Hb, IH. f_equal. destruct (a =? 10); lia.
Qed.

Lemma skip_block_line fuel depth stop c l q : zl_rest c = l ++ 10 :: q -> 10 ∉ l ->
  skip_block_loop (S fuel) depth stop c =
  let c' := set_pos q (zl_line c + 1) c in
  match kind_of_line l with
  | KOpen => skip_block_loop fuel (depth + 1) stop c'
  | KElse => if (depth =? 1) && stop then Some (0, c') else skip_block_loop fuel depth stop c'
  | KClose => if depth - 1 =? 0 then Some (0, c') else skip_block_loop fuel (depth - 1) stop c'
  | KOther => skip_block_loop fuel depth stop c'
  end.
Proof.
  intros Hr Hl. cbn [skip_block_loop]. assert (forall {A} (a b : A), match zl_rest c with [] => a | _ :: _ => b end = b) as -> by (intros A a b; rewrite Hr; by destruct l). rewrite Hr, (line_end_read l q Hl). cbv zeta. change (to_next_line (10 :: q) c) with (set_pos q (zl_line c + 1) c).
  unfold kind_of_line. destruct (next_is 35 _); [|done]. cbv zeta. set (d := fst _). destruct (_ || _); [done|]. destruct (z_streq d (chars "else")) eqn:Ee; cbn [andb]; [|by destruct (z_streq d (chars "endif"))].
  apply z_streq_spec in Ee. destruct ((depth =? 1) && stop); [done|]. rewrite Ee. done.
Qed.

Lemma skip_lines fuel d stop c ls q : Forall (fun t => 10 ∉ t) ls -> closed d ls = true -> zl_rest c = lines_text ls ++ q -> (length ls <= fuel)%nat ->
  skip_block_loop fuel (Z.of_nat d + 1) stop c = skip_block_loop (fuel - length ls) 1 stop (set_pos q (zl_line c + Z.of_nat (length ls)) c).
Proof.
  intros Hf. revert fuel d c. induction Hf as [|l ls Hl Hf IH]; intros fuel d c Hcl Hr Hlen.
  - cbn in Hcl. apply Nat.eqb_eq in Hcl as ->. cbn [length]. rewrite Nat.sub_0_r, Z.add_0_r. f_equal. cbn in Hr. rewrite <- Hr. by destruct c.
  - cbn [length] in *. destruct fuel as [|fuel]; [lia|]. change (lines_text (l :: ls)) with ((l ++ [10]) ++ lines_text ls) in Hr. rewrite <- !(assoc app) in Hr. cbn [app] in Hr. rewrite (skip_block_line _ _ _ _ _ _ Hr Hl). cbv zeta. cbn [Nat.sub closed] in *.
    assert (forall d', closed d' ls = true -> skip_block_loop fuel (Z.of_nat d' + 1) stop (set_pos (lines_text ls ++ q) (zl_line c + 1) c) = skip_block_loop (fuel - length ls) 1 stop (set_pos q (zl_line c + Z.of_nat (S (length ls))) c)) as Hgo.
    { intros d' Hd'. rewrite (IH fuel d') by (done || lia). f_equal. cbn [zl_line set_pos]. replace (zl_line c + 1 + Z.of_nat (length ls)) with (zl_line c + Z.of_nat (S (length ls))) by lia. done. }
    destruct (kind_of_line l).
    + replace (Z.of_nat d + 1 + 1) with (Z.of_nat (S d) + 1) by lia. by apply Hgo.
    + apply andb_true_iff in Hcl as [Hd Hcl]. apply negb_true_iff, Nat.eqb_neq in Hd. rewrite (proj2 (Z.eqb_neq _ 1)) by lia. cbn [andb]. by apply Hgo.
    + destruct d as [|d]; [done|]. rewrite (proj2 (Z.eqb_neq _ 0)) by lia. replace (Z.of_nat (S d) + 1 - 1) with (Z.of_nat d + 1) by lia. by apply Hgo.
    + by apply Hgo.
Qed.

(** A block that is left out, up to its end or its other part. *)
Lemma skip_off (stop other : bool) c ls rest : Forall (fun t => 10 ∉ t) ls -> closed 0 ls = true -> (other = true -> stop = true) -> zl_rest c = lines_text ls ++ chars (if other then "#else" else "#endif") ++ 10 :: rest ->
  z_skip_preprocessor_block stop c = Some (0, set_pos rest (zl_line c + Z.of_nat (length ls) + 1) c).
Proof.
  intros Hf Hcl Ho Hr. unfold z_skip_preprocessor_block. assert (length ls <= length (lines_text ls))%nat as Hle.
  { clear. induction ls as [|l ls IH]; [done|]. change (lines_text (l :: ls)) with ((l ++ [10]) ++ lines_text ls). rewrite !length_app. cbn. lia. }
  rewrite (skip_lines _ 0 stop c ls _ Hf Hcl Hr) by (rewrite Hr, length_app; lia).
  replace (S (length (zl_rest c)) - length ls)%nat with (S (length (zl_rest c) - length ls)) by (rewrite Hr, length_app; lia).
  rewrite (skip_block_line _ _ _ _ (chars (if other then "#else" else "#endif")) rest) by (done || (destruct other; vm_compute; intros Hin; repeat (apply elem_of_cons in Hin as [Hin|Hin]; [discriminate|]); by apply elem_of_nil in Hin)).
  destruct other; [rewrite Ho by done|]; reflexivity.
Qed.

Lemma found_spec {A} (f : A -> list Z) (l : list A) n : found (find_index (fun x => z_streq (f x) n) l) = bool_decide (n ∈ (f <$> l)).
Proof.
  destruct (find_index _ l) as [i|] eqn:E; cbn [found]; symmetry.
  - apply find_index_Some in E as (x & Hx & Hs & _). apply bool_decide_eq_true. apply z_streq_spec in Hs as <-. apply list_elem_of_fmap_2. by eapply list_elem_of_lookup_2.
  - apply bool_decide_eq_false. intros (x & -> & Hx)%list_elem_of_fmap. apply list_elem_of_lookup_1 in Hx as [i Hi]. rewrite find_index_None in E. specialize (E i x Hi). by rewrite (proj2 (z_streq_spec _ _) eq_refl) in E.
Qed.

Ltac literal_name := split_and!; [reflexivity|repeat constructor|cbn; lia].
Ltac eval_literals :=
  repeat match goal with |- context [z_streq (chars ?a) (chars ?b)] => let v := eval vm_compute in (z_streq (chars a) (chars b)) in change (z_streq (chars a) (chars b)) with v end;
  repeat match goal with |- context [next_is 35 (chars ?a ++ ?b)] => change (next_is 35 (chars a ++ b)) with true end;
  cbn [orb negb].

Lemma chars_no_newline s : existsb (fun x => x =? 10) (chars s) = false -> 10 ∉ chars s.
Proof. intros H Hin. assert (existsb (fun x => x =? 10) (chars s) = true) as E; [|congruence]. apply existsb_exists. exists 10. split; [by apply list_elem_of_In|done]. Qed.

Lemma head_no_newline h : head_ok h -> 10 ∉ head_text h.
Proof.
  intros Hh. destruct h as [ds|n|n|]; cbn [head_text head_ok] in *; [..|by apply chars_no_newline]; rewrite elem_of_app; intros [Hin|Hin]; try (by apply chars_no_newline in Hin). 1: by apply number_no_newline in Hin. all: by apply name_no_newline in Hin.
Qed.

Lemma head_handled h q c : head_ok h -> zl_rest c = head_text h ++ 10 :: q ->
  z_handle_preprocessor_directive c =
  if holds_head (zl_constants c) h then Some (0, set_pos q (zl_line c + 1) c)
  else z_skip_preprocessor_block (match h with HElse => false | _ => true end) (set_pos q (zl_line c + 1) c).
Proof.
  intros Hh Hr. unfold z_handle_preprocessor_directive. rewrite Hr, (line_end_read _ q (head_no_newline h Hh)). change (to_next_line (10 :: q) c) with (set_pos q (zl_line c + 1) c). unfold directive_of. destruct h as [ds|n|n|]; cbn [head_text head_ok holds_head] in *.
  - change (drop 1 (chars "#if " ++ ds)) with (chars "if" ++ 32 :: ds). rewrite (word_at (chars "if")) by (done || literal_name). unfold default, id; eval_literals. rewrite (if_digits ds Hh). by destruct (dec ds =? 0).
  - change (drop 1 (chars "#ifdef " ++ n)) with (chars "ifdef" ++ 32 :: n). rewrite (word_at (chars "ifdef")) by (done || literal_name). unfold default, id; eval_literals. rewrite <- (app_nil_r n) at 1. rewrite (word_behind_space n []) by done.
    unfold z_find_constant. rewrite (found_spec zc_name). by destruct (bool_decide _).
  - change (drop 1 (chars "#ifndef " ++ n)) with (chars "ifndef" ++ 32 :: n). rewrite (word_at (chars "ifndef")) by (done || literal_name). unfold default, id; eval_literals. rewrite <- (app_nil_r n) at 1. rewrite (word_behind_space n []) by done.
    unfold z_find_constant. rewrite (found_spec zc_name). rewrite bool_decide_not. by destruct (bool_decide _).
  - reflexivity.
Qed.

Lemma add_fresh n v c : n ∉ (zc_name <$> zl_constants c) -> n ∉ zl_globals c ++ zl_functions c -> Z.of_nat (length (zl_constants c)) < Z_MAX_CONSTANTS ->
  z_add_constant n v c = (0, set_constants (zl_constants c ++ [ZConstant n v]) c).
Proof.
  intros Hfresh Hother Hroom. unfold z_add_constant. assert (z_find_constant c n = None) as ->.
  { pose proof (found_spec zc_name (zl_constants c) n) as Hf. rewrite bool_decide_false in Hf by done. unfold z_find_constant. by destruct (find_index _ _). }
  rewrite (proj2 (Z.leb_gt _ _)) by lia. rewrite not_elem_of_app in Hother. destruct Hother as [Hg Hfn].
  pose proof (found_spec id (zl_globals c) n) as Hf1. pose proof (found_spec id (zl_functions c) n) as Hf2. rewrite list_fmap_id in Hf1, Hf2. rewrite bool_decide_false in Hf1, Hf2 by done. unfold z_find_global, z_find_function. unfold id in Hf1, Hf2. by rewrite Hf1, Hf2.
Qed.

Lemma define_handled n ds q c : blank_ok (zl_globals c ++ zl_functions c) (zl_constants c) (BDefine n ds) -> zl_rest c = blank_text (BDefine n ds) ++ q ->
  z_handle_preprocessor_directive c = Some (0, set_pos (10 :: q) (zl_line c) (set_constants (zl_constants c ++ [ZConstant n (dec ds)]) c)).
Proof.
  intros (Hn & Hd & Hfresh & Hother & Hroom) Hr. cbn [blank_text] in Hr. assert (zl_rest c = (chars "#define " ++ n ++ [32] ++ ds) ++ 10 :: q) as Hr' by (rewrite Hr, <- !(assoc app); done). clear Hr.
  unfold z_handle_preprocessor_directive. rewrite Hr', line_end_read. 2:{ rewrite !elem_of_app. intros [Hin|[Hin|[Hin|Hin]]]; [by apply chars_no_newline in Hin|by apply name_no_newline in Hin|by apply list_elem_of_singleton in Hin|by apply number_no_newline in Hin]. }
  unfold directive_of. change (drop 1 (chars "#define " ++ n ++ [32] ++ ds)) with (chars "define" ++ 32 :: n ++ 32 :: ds). rewrite (word_at (chars "define")) by (done || literal_name). unfold default, id; eval_literals.
  rewrite (word_behind_space n (32 :: ds)) by done. pose proof (define_digits ds Hd) as Hdd. destruct Hd as [Hne Hd]. destruct ds as [|ch ds]; [done|]. apply Forall_cons_1 in Hd as [Hch _]. unfold z_char_is_digit in Hch. rewrite andb_true_iff, !Z.leb_le in Hch.
  assert (z_skip_line_spaces_ptr (32 :: ch :: ds) = ch :: ds) as ->. { cbn. assert (z_char_is_line_space ch = false) as -> by (unfold z_char_is_line_space; rewrite !orb_false_iff, !Z.eqb_neq; lia). done. }
  cbn [next_is]. rewrite (proj2 (Z.eqb_neq ch 40)) by lia. cbn [andb]. assert (next_two 47 47 (ch :: ds) = false) as -> by (destruct ds; [done|]; cbn; rewrite (proj2 (Z.eqb_neq ch 47)) by lia; done).
  by rewrite Hdd, (add_fresh n _ c Hfresh Hother Hroom).
Qed.

Lemma set_pos_id c : set_pos (zl_rest c) (zl_line c) c = c.
Proof. by destruct c. Qed.

Lemma set_pos_twice p line q line' c : set_pos p line (set_pos q line' c) = set_pos p line c.
Proof. done. Qed.

Lemma skip_space fuel ch p c : zl_rest c = ch :: p -> z_char_is_space ch = true ->
  skip_loop (S fuel) c = skip_loop (S fuel) (set_pos p (zl_line c + (if ch =? 10 then 1 else 0)) c).
Proof.
  intros Hr Hs. cbn [skip_loop]. rewrite Hr. cbn [z_skip_spaces zl_line zl_rest set_pos]. rewrite Hs. replace (if ch =? 10 then zl_line c + 1 else zl_line c) with (zl_line c + (if ch =? 10 then 1 else 0)) by (destruct (ch =? 10); lia). by destruct (z_skip_spaces _ p).
Qed.

(** A text that does not begin with white space. *)
Definition no_space (p : list Z) : bool := match p with ch :: _ => negb (z_char_is_space ch) | [] => true end.

Lemma skip_no_space line p : no_space p = true -> z_skip_spaces line p = (line, p).
Proof. destruct p as [|ch p]; [done|]. cbn. intros H. apply negb_true_iff in H. by rewrite H. Qed.

Lemma skip_directive fuel c c' : next_is 35 (zl_rest c) = true -> z_handle_preprocessor_directive c = Some (0, c') -> skip_loop (S fuel) c = skip_loop fuel c'.
Proof.
  intros Hn Hh. cbn [skip_loop]. destruct (zl_rest c) as [|ch p] eqn:Er; [done|]. cbn [next_is] in Hn. apply Z.eqb_eq in Hn as ->. rewrite skip_no_space by done. rewrite <- Er, set_pos_id, Er. destruct p as [|y p]; cbn [next_two next_is Z.eqb Pos.eqb andb]; rewrite Hh; done.
Qed.

Lemma head_sign h q : next_is 35 (head_text h ++ q) = true.
Proof. by destruct h. Qed.

Lemma space_newline fuel q c consts : skip_loop (S fuel) (set_pos (10 :: q) (zl_line c) (set_constants consts c)) = skip_loop (S fuel) (set_constants consts (set_pos q (zl_line c + 1) c)).
Proof. by rewrite (skip_space fuel 10 q). Qed.

Lemma skip_blank fuel b rest c : blank_ok (zl_globals c ++ zl_functions c) (zl_constants c) b -> zl_rest c = blank_text b ++ rest ->
  exists fuel', (S fuel <= fuel')%nat /\ skip_loop (S (S fuel)) c = skip_loop fuel' (after_blank b rest c).
Proof.
  intros Hb Hr. assert (forall p line, set_pos p line c = set_constants (zl_constants c ++ []) (set_pos p line c)) as Hnil by (intros; rewrite app_nil_r; done). unfold after_blank.
  destruct b as [ch|t|t|n ds|h|h ls other|]; cbn [blank_text blank_ok blank_constants blank_lines] in *; rewrite <- ?Hnil.
  - exists (S (S fuel)). split; [lia|]. rewrite (skip_space _ ch rest) by done. do 3 f_equal. rewrite newlines_cons. change (newlines []) with 0. destruct (ch =? 10); lia.
  - exists (S fuel). split; [lia|]. change (chars "//" ++ t ++ [10]) with (47 :: 47 :: (t ++ [10])) in *. cbn [app] in Hr. rewrite <- (assoc app) in Hr. cbn [app] in Hr. cbn [skip_loop]. rewrite Hr, skip_no_space by done. cbn [next_two Z.eqb Pos.eqb andb drop]. rewrite drop_0, line_end_read by done. cbn [snd].
    change (set_pos (10 :: rest) (zl_line c) (set_pos (47 :: 47 :: t ++ 10 :: rest) (zl_line c) c)) with (set_pos (10 :: rest) (zl_line c) c). change (skip_loop (S fuel) (set_pos (10 :: rest) (zl_line c) c) = skip_loop (S fuel) (set_pos rest (zl_line c + newlines (47 :: 47 :: (t ++ [10]))) c)). rewrite (skip_space fuel 10 rest) by done.
    rewrite set_pos_twice. cbn [zl_line set_pos]. do 3 f_equal. rewrite !newlines_cons, newlines_app, newlines_none by done. change (newlines [10]) with 1. cbn [Z.eqb Pos.eqb]. lia.
  - exists (S fuel). split; [lia|]. change (chars "/*" ++ t ++ chars "*/") with (47 :: 42 :: (t ++ [42; 47])) in *. cbn [app] in Hr. rewrite <- (assoc app) in Hr. cbn [app] in Hr.
    generalize (S fuel). intros f. cbn [skip_loop]. rewrite Hr, skip_no_space by done. cbn [next_two Z.eqb Pos.eqb andb drop]. rewrite drop_0, comment_read by done.
    f_equal. change (set_pos rest (zl_line c + newlines t) c = set_pos rest (zl_line c + newlines (47 :: 42 :: t ++ [42; 47])) c). f_equal. rewrite !newlines_cons, newlines_app. change (newlines [42; 47]) with 0. cbn [Z.eqb Pos.eqb]. lia.
  - exists (S fuel). split; [lia|]. rewrite (skip_directive _ _ _ ltac:(rewrite Hr; done) (define_handled n ds rest c Hb Hr)), space_newline. do 3 f_equal. destruct Hb as (Hn & Hd & _).
    rewrite !newlines_app, (newlines_none n), (newlines_none ds) by ((by apply name_no_newline) || (by apply number_no_newline)). done.
  - exists (S fuel). split; [lia|]. destruct Hb as [Hh Ht]. rewrite <- (assoc app) in Hr. cbn [app] in Hr. pose proof (head_handled h rest c Hh Hr) as Hx. rewrite Ht in Hx. rewrite (skip_directive _ _ _ ltac:(rewrite Hr; apply head_sign) Hx).
    do 3 f_equal. rewrite newlines_app, newlines_none by by apply head_no_newline. done.
  - exists (S fuel). split; [lia|]. destruct Hb as (Hh & Ht & Hf & Hcl & Ho). rewrite <- !(assoc app) in Hr. cbn [app] in Hr. pose proof (head_handled h _ c Hh Hr) as Hx. rewrite Ht in Hx.
    rewrite (skip_off _ other _ ls rest) in Hx; [|done|done|intros Hot; specialize (Ho Hot); by destruct h|done]. rewrite (skip_directive _ _ _ ltac:(rewrite Hr; apply head_sign) Hx). f_equal. cbn [zl_line set_pos]. change (set_pos rest (zl_line c + 1 + Z.of_nat (length ls) + 1) c = set_pos rest (zl_line c + (Z.of_nat (length ls) + 2)) c). f_equal. lia.
  - exists (S fuel). split; [lia|]. assert (z_handle_preprocessor_directive c = Some (0, set_pos (10 :: rest) (zl_line c) c)) as Hx.
    { unfold z_handle_preprocessor_directive. rewrite Hr. rewrite <- (assoc app). cbn [app]. rewrite line_end_read by by apply chars_no_newline. reflexivity. }
    rewrite (skip_directive _ _ _ ltac:(rewrite Hr; done) Hx). rewrite (skip_space fuel 10 rest) by done. done.
Qed.

Definition gap_text (g : list blank) : list Z := concat (blank_text <$> g).
Definition gap_lines (g : list blank) : Z := foldr (fun b n => blank_lines b + n) 0 g.
Definition gap_constants (g : list blank) : list z_constant_t := concat (blank_constants <$> g).

Fixpoint gap_ok (names : list (list Z)) (l : list z_constant_t) (g : list blank) : Prop :=
  match g with
  | [] => True
  | b :: g' => blank_ok names l b /\ gap_ok names (l ++ blank_constants b) g'
  end.

Definition after_gap (g : list blank) (rest : list Z) (c : z_lexer) : z_lexer := set_constants (zl_constants c ++ gap_constants g) (set_pos rest (zl_line c + gap_lines g) c).

Lemma skip_gap fuel g rest c : gap_ok (zl_globals c ++ zl_functions c) (zl_constants c) g -> zl_rest c = gap_text g ++ rest -> (length g < fuel)%nat ->
  exists fuel', (0 < fuel')%nat /\ skip_loop fuel c = skip_loop fuel' (after_gap g rest c).
Proof.
  revert fuel c. induction g as [|b g IH]; intros fuel c Hg Hr Hf; cbn [length] in *.
  - exists fuel. split; [lia|]. f_equal. unfold after_gap, gap_constants. cbn in Hr |- *. rewrite app_nil_r, Z.add_0_r, <- Hr. by destruct c.
  - destruct fuel as [|[|fuel]]; [lia..|]. destruct Hg as [Hb Hg]. change (gap_text (b :: g)) with (blank_text b ++ gap_text g) in Hr. rewrite <- (assoc app) in Hr. destruct (skip_blank fuel b _ c Hb Hr) as (f1 & Hf1 & ->).
    destruct (IH f1 (after_blank b (gap_text g ++ rest) c) Hg eq_refl ltac:(lia)) as (f2 & Hf2 & ->). exists f2. split; [done|]. f_equal. unfold after_gap, after_blank, gap_constants. cbn. rewrite <- (assoc app). by rewrite Z.add_assoc.
Qed.

Lemma blank_nonempty b : blank_text b <> [].
Proof. destruct b as [| | | |h|h|]; try done; by destruct h. Qed.

Lemma gap_length g : (length g <= length (gap_text g))%nat.
Proof.
  induction g as [|b g IH]; [done|]. change (gap_text (b :: g)) with (blank_text b ++ gap_text g). rewrite length_app. pose proof (blank_nonempty b). destruct (blank_text b); [done|]. cbn. lia.
Qed.

(** A text that no blank begins. *)
Definition no_blank (p : list Z) : bool := no_space p && negb (next_two 47 47 p) && negb (next_two 47 42 p) && negb (next_is 35 p).

Lemma skip_none fuel c : no_blank (zl_rest c) = true -> skip_loop (S fuel) c = Some c.
Proof.
  intros Hn. unfold no_blank in Hn. rewrite !andb_true_iff, !negb_true_iff in Hn. destruct Hn as (((H1 & H2) & H3) & H4). cbn [skip_loop]. rewrite skip_no_space by done. by rewrite H2, H3, H4, set_pos_id.
Qed.

Lemma plain_no_blank ch p : ch <> 47 -> ch <> 35 -> z_char_is_space ch = false -> no_blank (ch :: p) = true.
Proof.
  intros H1 H2 H3. unfold no_blank. cbn [no_space next_is]. rewrite H3, (proj2 (Z.eqb_neq ch 35)) by done. destruct p as [|y p]; [done|]. cbn [next_two]. by rewrite (proj2 (Z.eqb_neq ch 47)) by done.
Qed.

Lemma start_plain ch : z_char_is_ident_continue ch = true -> ch <> 47 /\ ch <> 35 /\ z_char_is_space ch = false.
Proof.
  unfold z_char_is_ident_continue, z_char_is_ident_start, z_char_is_digit, z_char_is_space. intros H. rewrite !orb_true_iff, !andb_true_iff, !Z.leb_le, Z.eqb_eq in H. rewrite !orb_false_iff, !Z.eqb_neq. lia.
Qed.

Lemma lexeme_no_blank l rest : lexeme_ok l -> stops l rest = true -> no_blank (spell l ++ rest) = true.
Proof.
  intros Hl Hs. destruct l as [s|ds|ds|s|t]; cbn [spell lexeme_ok] in *.
  - destruct Hl as (Hst & Hf & _). destruct s as [|ch s]; [done|]. apply Forall_cons_1 in Hf as [Hch _]. apply start_plain in Hch as (? & ? & ?). by apply plain_no_blank.
  - destruct Hl as [Hne Hd]. destruct ds as [|ch ds]; [done|]. apply Forall_cons_1 in Hd as [Hch _]. assert (z_char_is_ident_continue ch = true) as Hc by (unfold z_char_is_ident_continue; by rewrite Hch, orb_true_r). apply start_plain in Hc as (? & ? & ?). by apply plain_no_blank.
  - by apply plain_no_blank.
  - by apply plain_no_blank.
  - destruct rest as [|x rest]; [by destruct t|]. cbn [stops] in Hs. apply negb_true_iff in Hs.
    destruct t; try done; match type of Hs with context [extends ?T] => let v := eval vm_compute in (extends T) in change (extends T) with v in Hs end; try (by apply plain_no_blank).
    cbn [existsb] in Hs. rewrite !orb_false_iff in Hs. destruct Hs as (_ & H1 & H2 & _). change (sign_text Z_TOKEN_SLASH) with [47]. unfold no_blank. cbn [app no_space next_two next_is]. by rewrite H1, H2.
Qed.

(** ** Sources *)

Fixpoint source_text (items : list (list blank * lexeme)) (last : list blank) : list Z :=
  match items with
  | [] => gap_text last
  | (g, l) :: items' => gap_text g ++ spell l ++ source_text items' last
  end.

Fixpoint source_ok (names : list (list Z)) (consts : list z_constant_t) (items : list (list blank * lexeme)) (last : list blank) : Prop :=
  match items with
  | [] => gap_ok names consts last
  | (g, l) :: items' => gap_ok names consts g /\ lexeme_ok l /\ stops l (source_text items' last) = true /\ source_ok names (consts ++ gap_constants g) items' last
  end.

(** The tokens of a source, from a line on and with strings from [used] on. *)
Fixpoint source_tokens (line used : Z) (items : list (list blank * lexeme)) : list z_token_t :=
  match items with
  | [] => []
  | (g, l) :: items' => token_of l (line + gap_lines g) used :: source_tokens (line + gap_lines g + lexeme_lines l) (used + Z.of_nat (length (pool_bytes l))) items'
  end.

Definition source_pool (items : list (list blank * lexeme)) : list Z := concat ((fun x => pool_bytes (snd x)) <$> items).
Definition source_constants (items : list (list blank * lexeme)) : list z_constant_t := concat ((fun x => gap_constants (fst x)) <$> items).

(** The tokens that calls of z_next_token give. *)
Fixpoint lex_all (n : nat) (c : z_lexer) : option (list z_token_t * z_lexer) :=
  match n with
  | O => Some ([], c)
  | S n' =>
      '(r, c) ← z_next_token c;
      if negb (r =? 0) then None else '(ts, c') ← lex_all n' c; Some (zl_current c :: ts, c')
  end.

Lemma skip_to g rest c : gap_ok (zl_globals c ++ zl_functions c) (zl_constants c) g -> zl_rest c = gap_text g ++ rest -> no_blank rest = true -> z_skip_ws_and_comments c = Some (after_gap g rest c).
Proof.
  intros Hg Hr Hn. unfold z_skip_ws_and_comments. destruct (skip_gap (S (length (zl_rest c))) g rest c Hg Hr) as (f & Hf & ->); [rewrite Hr, length_app; pose proof (gap_length g); lia|]. destruct f as [|f]; [lia|]. by apply skip_none.
Qed.

Lemma next_item g l rest c : gap_ok (zl_globals c ++ zl_functions c) (zl_constants c) g -> lexeme_ok l -> stops l rest = true -> zl_rest c = gap_text g ++ spell l ++ rest -> zl_error_line c = 0 ->
  length (zl_pool c) = Z.to_nat Z_STRING_POOL_SIZE -> 0 <= zl_pool_used c -> zl_pool_used c + Z.of_nat (length (pool_bytes l)) <= Z_STRING_POOL_SIZE ->
  z_next_token c = Some (0, after_lexeme l rest (after_gap g (spell l ++ rest) c)).
Proof. intros Hg Hl Hs Hr He Hp Hu Hroom. apply lexeme_read; try done. apply skip_to; [done|done|by apply lexeme_no_blank]. Qed.

Lemma pool_after_app pool used a b : 0 <= used -> (Z.to_nat used + length a + length b <= length pool)%nat ->
  length (pool_after pool used a) = length pool /\ pool_after (pool_after pool used a) (used + Z.of_nat (length a)) b = pool_after pool used (a ++ b).
Proof.
  intros Hu Hl. unfold pool_after. split; [rewrite !length_app, length_take, length_drop; lia|]. replace (Z.to_nat (used + Z.of_nat (length a))) with (Z.to_nat used + length a)%nat by lia.
  rewrite take_app, length_take, (Nat.min_l (Z.to_nat used)) by lia. rewrite (take_ge (take _ _)) by (rewrite length_take; lia). replace (Z.to_nat used + length a - Z.to_nat used)%nat with (length a) by lia. rewrite take_app_length.
  rewrite drop_app, length_take, (Nat.min_l (Z.to_nat used)) by lia. rewrite (drop_ge (take _ _)) by (rewrite length_take; lia). rewrite drop_app_ge by lia. rewrite drop_drop. cbn [app]. rewrite <- !(assoc app). rewrite length_app. do 4 f_equal. lia.
Qed.

(** C34: What is written is read. Take any sequence of identifiers, numbers
    with decimal or hexadecimal digits, strings of arbitrary bytes written with
    escapes, and signs, with anything between them that separates: white
    space, comments, definitions of constants, conditions that hold, blocks
    that are left out with whatever they nest, or nothing where the next
    character cannot belong to the token. Reading it gives exactly these
    tokens, then the end: each number modulo [2 ^ 64], each string with its
    terminator in the pool, each definition as a constant, and as the line of a
    token one more than the line breaks before it, where every escaped line
    break inside a string also counts. *)
Theorem lex_reads_back c items last :
  lex_ok c -> zl_error_line c = 0 -> zl_pool_used c + Z.of_nat (length (source_pool items)) <= Z_STRING_POOL_SIZE ->
  zl_rest c = source_text items last -> source_ok (zl_globals c ++ zl_functions c) (zl_constants c) items last ->
  exists c1 c2,
    lex_all (length items) c = Some (source_tokens (zl_line c) (zl_pool_used c) items, c1) /\
    zl_pool c1 = pool_after (zl_pool c) (zl_pool_used c) (source_pool items) /\
    z_next_token c1 = Some (0, c2) /\ tk_type (zl_current c2) = Z_TOKEN_EOF /\ zl_rest c2 = [] /\
    zl_constants c2 = zl_constants c ++ source_constants items ++ gap_constants last.
Proof.
  intros [Hp Hu _ _ _ _] He Hroom Hr Hok. apply proj1 in Hu. revert c Hp Hu He Hroom Hr Hok. induction items as [|[g l] items IH]; intros c Hp Hu He Hroom Hr Hok; cbn [source_text source_ok length lex_all source_tokens] in *.
  - rewrite <- (app_nil_r (gap_text last)) in Hr. eexists c, _. split; [done|]. split; [by rewrite pool_after_nil|]. unfold z_next_token. rewrite (skip_to last [] c Hok Hr eq_refl). cbn [mbind option_bind]. change (zl_error_line (after_gap last [] c)) with (zl_error_line c). rewrite He. done.
  - destruct Hok as (Hg & Hl & Hs & Hok). change (source_pool ((g, l) :: items)) with (pool_bytes l ++ source_pool items) in *. rewrite length_app in Hroom. rewrite (next_item g l _ c Hg Hl Hs Hr He Hp Hu) by lia. cbn [mbind option_bind Z.eqb negb].
    set (c1 := after_lexeme l _ _). assert (Z.to_nat (zl_pool_used c) + length (pool_bytes l) + length (source_pool items) <= length (zl_pool c))%nat as Hfit by (rewrite Hp; unfold Z_STRING_POOL_SIZE in *; lia).
    destruct (pool_after_app (zl_pool c) (zl_pool_used c) (pool_bytes l) (source_pool items) Hu Hfit) as [Hlen Hpa].
    destruct (IH c1) as (c2 & c3 & Hall & Hpool & Hnext & Heof & Hrest & Hconst); [cbn in *; congruence|cbn; lia|done|cbn; lia|done|done|].
    rewrite Hall. cbn [mbind option_bind]. exists c2, c3. split; [done|]. split; [by rewrite Hpool, <- Hpa|]. split_and!; try done. rewrite Hconst. cbn. by rewrite <- !(assoc app).
Qed.

(** ** Enumerations *)

Record enumerator : Type := Enumerator { en_name : list Z; en_value : option (bool * list Z) }.

Definition enumerator_lexemes (e : enumerator) : list lexeme :=
  LIdent (en_name e) :: match en_value e with
                        | None => []
                        | Some (negative, ds) => LSign Z_TOKEN_ASSIGN :: (if negative then [LSign Z_TOKEN_MINUS] else []) ++ [LDec ds]
                        end.

Fixpoint enum_lexemes (es : list enumerator) (trailing : bool) : list lexeme :=
  match es with
  | [] => [LSign Z_TOKEN_RBRACE; LSign Z_TOKEN_SEMI]
  | e :: es' => enumerator_lexemes e ++ match es' with [] => if trailing then [LSign Z_TOKEN_COMMA] else [] | _ => [LSign Z_TOKEN_COMMA] end ++ enum_lexemes es' trailing
  end.

(** Numbers count on from the one before. *)
Fixpoint enum_constants (next : Z) (es : list enumerator) : list z_constant_t :=
  match es with
  | [] => []
  | e :: es' =>
      let v := match en_value e with None => next | Some (negative, ds) => if negative then u64 (0 - dec ds) else dec ds end in
      ZConstant (en_name e) v :: enum_constants (u64 (v + 1)) es'
  end.

(** Sources in which no directives stand between the tokens. *)
Definition plain_blank (b : blank) : Prop := match b with BSpace ch => z_char_is_space ch = true | BLine t => 10 ∉ t | BBlock t => no_end t = true | _ => False end.

Fixpoint plain_source (items : list (list blank * lexeme)) (last : list blank) : Prop :=
  match items with
  | [] => Forall plain_blank last
  | (g, l) :: items' => Forall plain_blank g /\ lexeme_ok l /\ stops l (source_text items' last) = true /\ plain_source items' last
  end.

Lemma plain_gap names consts g : Forall plain_blank g -> gap_ok names consts g /\ gap_constants g = [].
Proof.
  intros Hg. revert consts. induction Hg as [|b g Hb Hg IH]; intros consts; [done|]. assert (blank_constants b = []) as Eb by (by destruct b). destruct (IH (consts ++ blank_constants b)) as [H1 H2].
  split; [split; [by destruct b|done]|]. unfold gap_constants in *. cbn. by rewrite Eb, H2.
Qed.

(** The token [l] is read, and [items] come next. *)
Record reading (l : lexeme) (items : list (list blank * lexeme)) (last : list blank) (c : z_lexer) : Prop := {
  rg_token : exists line used, zl_current c = token_of l line used;
  rg_rest : zl_rest c = source_text items last;
  rg_plain : plain_source items last;
  rg_error : zl_error_line c = 0;
  rg_pool : length (zl_pool c) = Z.to_nat Z_STRING_POOL_SIZE;
  rg_used : 0 <= zl_pool_used c;
  rg_room : zl_pool_used c + Z.of_nat (length (source_pool items)) <= Z_STRING_POOL_SIZE
}.

(** The tables do not change. *)
Definition same_tables (c c' : z_lexer) : Prop := zl_constants c' = zl_constants c /\ zl_globals c' = zl_globals c /\ zl_functions c' = zl_functions c.

Lemma reading_next l0 g l items last c : reading l0 ((g, l) :: items) last c -> exists c', z_next_token c = Some (0, c') /\ reading l items last c' /\ same_tables c c'.
Proof.
  intros [_ Hr (Hg & Hl & Hs & Hpl) He Hp Hu Hroom]. change (source_pool ((g, l) :: items)) with (pool_bytes l ++ source_pool items) in Hroom. rewrite length_app in Hroom. destruct (plain_gap (zl_globals c ++ zl_functions c) (zl_constants c) g Hg) as [Hgo Hgc].
  eexists. split; [apply (next_item g l _ c Hgo Hl Hs Hr He Hp Hu); lia|]. assert (Z.to_nat (zl_pool_used c) + length (pool_bytes l) + length (@nil Z) <= length (zl_pool c))%nat as Hfit by (rewrite Hp; unfold Z_STRING_POOL_SIZE in *; cbn; lia).
  destruct (pool_after_app (zl_pool c) (zl_pool_used c) (pool_bytes l) [] Hu Hfit) as [Hlen _]. split; [split; cbn; try done; [by eexists _, _|congruence|lia|lia]|]. split_and!; try done. cbn. by rewrite Hgc, app_nil_r.
Qed.

Lemma reading_end l0 last c : reading l0 [] last c -> exists c', z_next_token c = Some (0, c') /\ same_tables c c'.
Proof.
  intros [_ Hr Hg He _ _ _]. cbn [source_text plain_source] in *. destruct (plain_gap (zl_globals c ++ zl_functions c) (zl_constants c) last Hg) as [Hgo Hgc]. rewrite <- (app_nil_r (gap_text last)) in Hr.
  unfold z_next_token. rewrite (skip_to last [] c Hgo Hr eq_refl). cbn [mbind option_bind]. change (zl_error_line (after_gap last [] c)) with (zl_error_line c). rewrite He. cbn [Z.eqb negb zl_rest after_gap set_constants set_pos]. eexists. split; [done|]. split_and!; try done. cbn. by rewrite Hgc, app_nil_r.
Qed.

Lemma reading_type l items last c : reading l items last c -> tk_type (zl_current c) = match l with LIdent _ => Z_TOKEN_IDENT | LDec _ | LHex _ => Z_TOKEN_NUMBER | LString _ => Z_TOKEN_STRING | LSign t => t end.
Proof. intros [(line & used & ->) _ _ _ _ _ _]. by destruct l. Qed.

Lemma expect_sign t items last c : reading (LSign t) items last c -> z_expect t c = z_next_token c.
Proof. intros Hc. unfold z_expect. by rewrite decide_True by by rewrite (reading_type _ _ _ _ Hc). Qed.

Lemma reading_constants l items last consts c : reading l items last c -> reading l items last (set_constants consts c).
Proof. intros []. by split. Qed.

Lemma same_trans c1 c2 c3 : same_tables c1 c2 -> same_tables c2 c3 -> same_tables c1 c3.
Proof. intros (H1 & H2 & H3) (H4 & H5 & H6). split_and!; congruence. Qed.

(** Reading on, when more is to come. *)
Lemma reading_step l0 items last c l ls : reading l0 items last c -> snd <$> items = l :: ls ->
  exists c' items', z_next_token c = Some (0, c') /\ reading l items' last c' /\ snd <$> items' = ls /\ same_tables c c'.
Proof.
  intros Hc Hi. destruct items as [|[g l1] items]; [done|]. injection Hi as -> <-. destruct (reading_next _ _ _ _ _ _ Hc) as (c' & H1 & H2 & H3). by exists c', items.
Qed.

Lemma literal_read (negative : bool) ds l items last c l' ls : reading l items last c -> l :: (snd <$> items) = (if negative then [LSign Z_TOKEN_MINUS] else []) ++ LDec ds :: l' :: ls ->
  exists c' items', z_parse_constant_literal c = Some (0, Some (if negative then u64 (0 - dec ds) else dec ds), c') /\ reading l' items' last c' /\ snd <$> items' = ls /\ same_tables c c'.
Proof.
  intros Hc Hl. unfold z_parse_constant_literal.
  assert (exists c1 items1, (if bool_decide (tk_type (zl_current c) = Z_TOKEN_MINUS) then z_next_token c else Some (0, c)) = Some (0, c1) /\ bool_decide (tk_type (zl_current c) = Z_TOKEN_MINUS) = negative /\ reading (LDec ds) items1 last c1 /\ snd <$> items1 = l' :: ls /\ same_tables c c1) as (c1 & items1 & -> & -> & Hc1 & Hi1 & Hs1).
  { rewrite (reading_type _ _ _ _ Hc). destruct negative; cbn [app] in Hl; injection Hl as -> Hl.
    - destruct (reading_step _ _ _ _ _ _ Hc Hl) as (c1 & items1 & -> & ? & ? & ?). by exists c1, items1.
    - by exists c, items. }
  cbn [mbind option_bind Z.eqb negb]. rewrite decide_True by by rewrite (reading_type _ _ _ _ Hc1). destruct (reading_step _ _ _ _ _ _ Hc1 Hi1) as (c2 & items2 & -> & Hc2 & Hi2 & Hs2). cbn [mbind option_bind].
  exists c2, items2. split_and!; [|done|done|by eapply same_trans]. destruct Hc1 as [(line & used & ->) _ _ _ _ _ _]. done.
Qed.

(** The names of an enumeration are new. *)
Definition names_fresh (es : list enumerator) (c : z_lexer) : Prop :=
  NoDup (en_name <$> es) /\ Forall (fun e => (en_name e ∉ (zc_name <$> zl_constants c)) /\ (en_name e ∉ zl_globals c ++ zl_functions c)) es /\
  Z.of_nat (length (zl_constants c)) + Z.of_nat (length es) <= Z_MAX_CONSTANTS.

Lemma enumerator_read e l items last c l' ls next : reading l items last c -> l :: (snd <$> items) = enumerator_lexemes e ++ l' :: ls -> l' = LSign Z_TOKEN_COMMA \/ l' = LSign Z_TOKEN_RBRACE ->
  exists c1 c2 items2 v, z_expect_ident c = Some (0, Some (en_name e), c1) /\
    (if decide (tk_type (zl_current c1) = Z_TOKEN_ASSIGN) then '(r, c) ← z_next_token c1; if negb (r =? 0) then Some (-1, None, c) else z_parse_constant_literal c else Some (0, Some next, c1)) = Some (0, Some v, c2) /\
    reading l' items2 last c2 /\ snd <$> items2 = ls /\ same_tables c c2 /\ v = match en_value e with None => next | Some (negative, ds) => if negative then u64 (0 - dec ds) else dec ds end.
Proof.
  intros Hc Hl Hl'. unfold enumerator_lexemes in Hl. cbn [app] in Hl. injection Hl as -> Hl. unfold z_expect_ident. rewrite decide_True by by rewrite (reading_type _ _ _ _ Hc). assert (tk_text (zl_current c) = en_name e) as Ht by (destruct Hc as [(line & used & ->) _ _ _ _ _ _]; done).
  destruct (en_value e) as [[negative ds]|] eqn:Ev; cbn [app] in Hl.
  - destruct (reading_step _ _ _ _ _ _ Hc Hl) as (c1 & items1 & -> & Hc1 & Hi1 & Hs1). cbn [mbind option_bind]. rewrite Ht. rewrite <- (assoc app) in Hi1. cbn [app] in Hi1. assert (exists l2 ls2, (if negative then [LSign Z_TOKEN_MINUS] else []) ++ LDec ds :: l' :: ls = l2 :: ls2) as (l2 & ls2 & E2) by (destruct negative; by eexists _, _).
    rewrite E2 in Hi1. destruct (reading_step _ _ _ _ _ _ Hc1 Hi1) as (c2 & items2 & Hn2 & Hc2 & Hi2 & Hs2). rewrite <- Hi2 in E2. symmetry in E2. destruct (literal_read negative ds l2 items2 last c2 l' ls Hc2 E2) as (c3 & items3 & Hlit & Hc3 & Hi3 & Hs3).
    exists c1, c3, items3, (if negative then u64 (0 - dec ds) else dec ds). split; [done|]. rewrite decide_True by by rewrite (reading_type _ _ _ _ Hc1). rewrite Hn2. cbn [mbind option_bind Z.eqb negb]. split_and!; try done. eapply same_trans; [done|]. by eapply same_trans.
  - destruct (reading_step _ _ _ _ _ _ Hc Hl) as (c1 & items1 & -> & Hc1 & Hi1 & Hs1). cbn [mbind option_bind]. rewrite Ht. exists c1, c1, items1, next. split; [done|]. rewrite decide_False by (rewrite (reading_type _ _ _ _ Hc1); by destruct Hl' as [-> | ->]). done.
Qed.

Lemma enum_head es trailing more : exists l ls, enum_lexemes es trailing ++ more = l :: ls.
Proof. destruct es; by eexists _, _. Qed.

Lemma fresh_tail e es v c c' : names_fresh (e :: es) c -> same_tables c c' -> names_fresh es (set_constants (zl_constants c' ++ [ZConstant (en_name e) v]) c').
Proof.
  intros (Hnd & Hf & Hroom) (E1 & E2 & E3). rewrite fmap_cons in Hnd. apply list.NoDup_cons in Hnd as [Hn Hnd]. apply Forall_cons_1 in Hf as [_ Hf]. split_and!; [done| |cbn in *; rewrite E1, length_app; cbn; lia].
  cbn. rewrite E1, E2, E3. rewrite Forall_elem in Hf |- *. intros x Hx. destruct (Hf x Hx) as [H1 H2]. split; [|done]. rewrite fmap_app, not_elem_of_app. split; [done|]. cbn. rewrite list_elem_of_singleton. intros E. apply Hn. rewrite <- E. by apply list_elem_of_fmap_2.
Qed.

Lemma enum_loop_ok es trailing more fuel next l items last c : reading l items last c -> l :: (snd <$> items) = enum_lexemes es trailing ++ more -> names_fresh es c -> (length es < fuel)%nat ->
  exists c' items', enum_loop fuel next c = Some (0, c') /\ reading (LSign Z_TOKEN_RBRACE) items' last c' /\ snd <$> items' = LSign Z_TOKEN_SEMI :: more /\
    zl_constants c' = zl_constants c ++ enum_constants next es.
Proof.
  revert fuel next l items c. induction es as [|e es IH]; intros fuel next l items c Hc Hl Hfr Hf; (destruct fuel as [|fuel]; [lia|]); cbn [enum_loop].
  - cbn in Hl. injection Hl as -> Hl. rewrite decide_True by by rewrite (reading_type _ _ _ _ Hc). exists c, items. split_and!; try done. by rewrite app_nil_r.
  - cbn [enum_lexemes length] in *. rewrite <- !(assoc app) in Hl. destruct (enum_head es trailing more) as (l2 & ls2 & E2).
    assert (exists l' ls, match es with [] => if trailing then [LSign Z_TOKEN_COMMA] else [] | _ :: _ => [LSign Z_TOKEN_COMMA] end ++ enum_lexemes es trailing ++ more = l' :: ls /\
      ((l' = LSign Z_TOKEN_COMMA /\ ls = enum_lexemes es trailing ++ more) \/ (l' = LSign Z_TOKEN_RBRACE /\ l' :: ls = enum_lexemes es trailing ++ more))) as (l' & ls & E' & Hl').
    { destruct es; [destruct trailing|]; eexists _, _; (split; [reflexivity|]); auto. }
    rewrite E' in Hl. destruct (enumerator_read e l items last c l' ls next Hc Hl ltac:(tauto)) as (c1 & c2 & items2 & v & He1 & He2 & Hc2 & Hi2 & Hs2 & Ev).
    assert (l = LIdent (en_name e)) as El by (by injection Hl). pose proof (reading_type _ _ _ _ Hc) as Ht. rewrite El in Ht. rewrite !decide_False by by rewrite Ht. rewrite He1. cbn [mbind option_bind Z.eqb negb]. rewrite He2. cbn [mbind option_bind Z.eqb negb].
    pose proof Hfr as (_ & Hff & Hroom). apply Forall_cons_1 in Hff as [[Hfc Hfo] _]. pose proof Hs2 as (Ec & Eg & Ef). rewrite add_fresh by (rewrite ?Ec, ?Eg, ?Ef; done || (cbn [length] in Hroom; lia)). cbn [Z.eqb negb]. set (c3 := set_constants _ c2).
    pose proof (reading_constants _ _ _ (zl_constants c2 ++ [ZConstant (en_name e) v]) _ Hc2) as Hc3. fold c3 in Hc3. pose proof (fresh_tail e es v c c2 Hfr Hs2) as Hfr3. fold c3 in Hfr3.
    assert (forall n c', zl_constants c' = zl_constants c3 ++ enum_constants n es -> n = u64 (v + 1) -> zl_constants c' = zl_constants c ++ enum_constants next (e :: es)) as Hfin.
    { intros n c' Hx ->. rewrite Hx. unfold c3. cbn [zl_constants set_constants]. rewrite Ec, <- (assoc app). cbn [app enum_constants]. by rewrite <- Ev. }
    destruct Hl' as [[-> Els]|[-> Els]]; pose proof (reading_type _ _ _ _ Hc3) as Ht3.
    + rewrite decide_True by done. rewrite Els, E2 in Hi2. destruct (reading_step _ _ _ _ _ _ Hc3 Hi2) as (c4 & items4 & -> & Hc4 & Hi4 & Hs4). cbn [mbind option_bind Z.eqb negb].
      destruct (IH fuel (u64 (v + 1)) l2 items4 c4 Hc4) as (c5 & items5 & H1 & H2 & H3 & H4); [by rewrite Hi4, <- E2| |lia|].
      { destruct Hs4 as (A1 & A2 & A3). destruct Hfr3 as (B1 & B2 & B3). unfold names_fresh. rewrite A1, A2, A3. done. }
      exists c5, items5. split_and!; try done. apply (Hfin (u64 (v + 1))); [|done]. by rewrite H4, (proj1 Hs4).
    + rewrite decide_False by by rewrite Ht3. rewrite decide_True by done. destruct (IH fuel (u64 (v + 1)) (LSign Z_TOKEN_RBRACE) items2 c3 Hc3) as (c5 & items5 & H1 & H2 & H3 & H4); [by rewrite Hi2|done|lia|].
      exists c5, items5. split_and!; try done. by apply (Hfin (u64 (v + 1))).
Qed.

(** Every token takes a byte, so that the rounds of the loop are enough. *)
Lemma spell_nonempty l : lexeme_ok l -> spell l <> [].
Proof. destruct l as [s|ds|ds|s|t]; cbn; try done; [by destruct s; intros []|by intros []|by destruct t]. Qed.

Lemma source_length items last : plain_source items last -> (length items <= length (source_text items last))%nat.
Proof.
  induction items as [|[g l] items IH]; cbn [plain_source source_text length]; [lia|]. intros (_ & Hl & _ & Hi). specialize (IH Hi). rewrite !length_app. pose proof (spell_nonempty l Hl). destruct (spell l); [done|]. cbn. lia.
Qed.

Lemma enum_fuel es trailing more l items last c : reading l items last c -> l :: (snd <$> items) = enum_lexemes es trailing ++ more -> (length es < S (S (length (zl_rest c))))%nat.
Proof.
  intros [_ -> Hpl _ _ _ _] Hl. pose proof (source_length items last Hpl). assert (length es <= length (enum_lexemes es trailing))%nat as Hle.
  { clear. induction es as [|e es IH]; [cbn; lia|]. cbn [enum_lexemes]. rewrite !length_app. cbn. lia. }
  apply (f_equal length) in Hl. rewrite length_app in Hl. cbn in Hl. rewrite length_fmap in Hl. lia.
Qed.

(** C36: An enumeration defines its names: read from any source that writes it,
    with or without a tag, with or without a comma behind the last name and
    with any white space and comments, it is accepted, and afterwards the
    constants are the old ones and one for each name, in order: its value
    modulo [2 ^ 64] where one is given, otherwise one more than the one
    before, beginning with 0; provided the names are new and fit into the
    table. *)
Theorem enum_defines es trailing tag more items last c :
  reading (LIdent (chars "enum")) items last c ->
  snd <$> items = (match tag with Some n => [LIdent n] | None => [] end) ++ LSign Z_TOKEN_LBRACE :: enum_lexemes es trailing ++ more ->
  names_fresh es c ->
  exists c', z_parse_enum_definition c = Some (0, c') /\ zl_constants c' = zl_constants c ++ enum_constants 0 es.
Proof.
  intros Hc Hi Hfr. unfold z_parse_enum_definition. assert (z_current_starts_enum_definition c = true) as -> by (destruct Hc as [(line & used & E) _ _ _ _ _ _]; unfold z_current_starts_enum_definition; rewrite E; reflexivity). cbn [negb].
  assert (exists c1 c2 items2, z_next_token c = Some (0, c1) /\ (if decide (tk_type (zl_current c1) = Z_TOKEN_IDENT) then z_next_token c1 else Some (0, c1)) = Some (0, c2) /\ reading (LSign Z_TOKEN_LBRACE) items2 last c2 /\ snd <$> items2 = enum_lexemes es trailing ++ more /\ same_tables c c2) as (c1 & c2 & items2 & -> & Hn & Hc2 & Hi2 & Hs2).
  { destruct tag as [n|]; cbn [app] in Hi; destruct (reading_step _ _ _ _ _ _ Hc Hi) as (c1 & items1 & -> & Hc1 & Hi1 & Hs1); pose proof (reading_type _ _ _ _ Hc1) as Ht.
    - destruct (reading_step _ _ _ _ _ _ Hc1 Hi1) as (c2 & items2 & H2 & Hc2 & Hi2 & Hs2). exists c1, c2, items2. rewrite decide_True by done. split_and!; try done. by eapply same_trans.
    - exists c1, c1, items1. rewrite decide_False by by rewrite Ht. done. }
  cbn [mbind option_bind Z.eqb negb]. rewrite Hn. cbn [mbind option_bind Z.eqb negb]. rewrite (expect_sign _ _ _ _ Hc2). destruct (enum_head es trailing more) as (l & ls & E). rewrite E in Hi2.
  destruct (reading_step _ _ _ _ _ _ Hc2 Hi2) as (c3 & items3 & -> & Hc3 & Hi3 & Hs3). cbn [mbind option_bind Z.eqb negb]. pose proof (same_trans _ _ _ Hs2 Hs3) as Hs.
  assert (length es < S (S (length (zl_rest c3))))%nat as Hf. { apply (enum_fuel es trailing more l items3 last c3 Hc3). by rewrite Hi3. }
  destruct (enum_loop_ok es trailing more _ 0 l items3 last c3 Hc3 ltac:(by rewrite Hi3) ltac:(unfold names_fresh; by destruct Hs as (-> & -> & ->)) Hf) as (c4 & items4 & -> & Hc4 & Hi4 & Hk). cbn [mbind option_bind Z.eqb negb].
  rewrite (expect_sign _ _ _ _ Hc4). destruct (reading_step _ _ _ _ _ _ Hc4 Hi4) as (c5 & items5 & -> & Hc5 & Hi5 & Hs5). cbn [mbind option_bind Z.eqb negb].
  rewrite (expect_sign _ _ _ _ Hc5).
  assert (exists c6, z_next_token c5 = Some (0, c6) /\ same_tables c5 c6) as (c6 & -> & Hs6). { destruct items5 as [|[g l5] items5]; [by eapply reading_end|]. destruct (reading_next _ _ _ _ _ _ Hc5) as (c6 & ? & _ & ?). eauto. }
  cbn [mbind option_bind Z.eqb]. exists c6. split; [done|]. by rewrite (proj1 Hs6), (proj1 Hs5), Hk, (proj1 Hs).
Qed.

(** ** Where the lexer is wrong *)

Lemma newlines_concat ls : newlines (concat ls) = foldr (fun l n => newlines l + n) 0 ls.
Proof. induction ls as [|l ls IH]; [done|]. cbn. by rewrite newlines_app, IH. Qed.

(** A string that is written on one line is counted for every line break that
    it holds. *)
Lemma escape_miscounts s : newlines (spell (LString s)) = 0 /\ lexeme_lines (LString s) = newlines s.
Proof.
  split; [|done]. cbn [spell]. rewrite newlines_cons, newlines_app, newlines_concat. change (newlines [34]) with 0. cbn [Z.eqb Pos.eqb]. assert (foldr (fun l n => newlines l + n) 0 (escape <$> s) = 0) as ->; [|done].
  induction s as [|ch s IH]; [done|]. rewrite fmap_cons. cbn [foldr]. rewrite IH, Z.add_0_r. unfold escape. repeat match goal with |- context [ch =? ?k] => destruct (Z.eqb_spec ch k) as [->|?]; [reflexivity|] end. rewrite newlines_cons, (proj2 (Z.eqb_neq ch 10)) by done. reflexivity.
Qed.

(** A condition that names a constant never holds, whatever the constant is. *)
Lemma if_name_never n q c : name_ok n -> zl_rest c = (chars "#if " ++ n) ++ 10 :: q -> z_handle_preprocessor_directive c = z_skip_preprocessor_block true (set_pos q (zl_line c + 1) c).
Proof.
  intros Hn Hr. unfold z_handle_preprocessor_directive. rewrite Hr, line_end_read by (rewrite elem_of_app; intros [Hin|Hin]; [by apply chars_no_newline in Hin|by apply name_no_newline in Hin]). change (to_next_line (10 :: q) c) with (set_pos q (zl_line c + 1) c). unfold directive_of.
  change (drop 1 (chars "#if " ++ n)) with (chars "if" ++ 32 :: n). rewrite (word_at (chars "if")) by (done || literal_name). unfold default, id; eval_literals. assert (z_parse_if_number_text (32 :: n) = Some 0) as ->; [|done].
  pose proof (word_at n [] Hn ltac:(done)) as Hw. rewrite app_nil_r in Hw. destruct Hn as (Hs & _ & _). destruct n as [|ch n]; [done|]. assert (z_char_is_ident_continue ch = true) as Hc by (unfold z_char_is_ident_continue; by rewrite Hs). apply start_plain in Hc as (_ & _ & Hsp).
  unfold z_parse_if_number_text. cbn [z_skip_line_spaces_ptr]. change (z_char_is_line_space 32) with true. assert (z_char_is_line_space ch = false) as Hls by (unfold z_char_is_space in Hsp; unfold z_char_is_line_space; rewrite orb_false_iff in Hsp; tauto). cbn iota. rewrite Hls, Hs, Hw. done.
Qed.

(** A definition with a comment in the old style behind it is dropped, and
    nothing is reported. *)
Lemma define_comment_dropped q c : zl_rest c = chars "#define SIZE 5 /* five */" ++ 10 :: q -> z_handle_preprocessor_directive c = Some (0, set_pos (10 :: q) (zl_line c) c).
Proof. intros Hr. unfold z_handle_preprocessor_directive. rewrite Hr, line_end_read by by apply chars_no_newline. reflexivity. Qed.

(** The middle part of a block is always read. *)
Lemma elif_ignored q c : zl_rest c = chars "#elif 0" ++ 10 :: q -> z_handle_preprocessor_directive c = Some (0, set_pos (10 :: q) (zl_line c) c).
Proof. intros Hr. unfold z_handle_preprocessor_directive. rewrite Hr, line_end_read by by apply chars_no_newline. reflexivity. Qed.

(** ** A source *)

Definition demo_items : list (list blank * lexeme) :=
  [([BDefine (chars "A") (chars "7"); BLine (chars " one")], LIdent (chars "x")); ([BSpace 32], LSign Z_TOKEN_SHIFT_LEFT_ASSIGN); ([], LHex (chars "1f")); ([], LSign Z_TOKEN_SEMI);
   ([BOn (HIfdef (chars "A")); BOff (HIfdef (chars "B")) [chars "junk"; chars "#if x"; chars "#endif"] true], LString [10; 34]); ([BBlock (chars "**")], LDec (chars "12"))].

Lemma lex_reads_back_witness :
  (exists c1 c2, lex_all 6 (demo_lexer no_token (source_text demo_items [BEndif; BEndif])) =
     Some ([ZToken Z_TOKEN_IDENT 0 (chars "x") 3; ZToken Z_TOKEN_SHIFT_LEFT_ASSIGN 0 [] 3; ZToken Z_TOKEN_NUMBER 31 [] 3; ZToken Z_TOKEN_SEMI 0 [] 3; ZToken Z_TOKEN_STRING 0 [] 9; ZToken Z_TOKEN_NUMBER 12 [] 10], c1) /\
     z_next_token c1 = Some (0, c2) /\ zl_constants c2 = [ZConstant (chars "A") 7]).
Proof.
  assert (name_ok (chars "A") /\ name_ok (chars "B") /\ name_ok (chars "x")) as (HA & HB & Hx) by (split_and!; repeat constructor; cbn; lia).
  destruct (lex_reads_back (demo_lexer no_token (source_text demo_items [BEndif; BEndif])) demo_items [BEndif; BEndif]) as (c1 & c2 & H1 & _ & H2 & _ & _ & H3); [apply demo_lexer_ok|done|cbn; unfold Z_STRING_POOL_SIZE; lia|done| |].
  - cbn [source_ok demo_items gap_ok blank_ok lexeme_ok head_ok]. split_and!; try done; try (by repeat constructor); try (by apply chars_no_newline); try apply not_elem_of_nil; try (by vm_compute).
    repeat (constructor; [by apply chars_no_newline|]). constructor.
  - exists c1, c2. split_and!; [exact H1|exact H2|exact H3].
Defined.

(** enum kind { A, B = -2, C, } ; *)
Definition demo_enum : list enumerator := [Enumerator (chars "A") None; Enumerator (chars "B") (Some (true, chars "2")); Enumerator (chars "C") None].

Definition demo_enum_items : list (list blank * lexeme) :=
  (fun l => ([BSpace 32], l)) <$> LIdent (chars "kind") :: LSign Z_TOKEN_LBRACE :: enum_lexemes demo_enum true.

Lemma enum_defines_witness :
  (exists c', z_parse_enum_definition (demo_lexer (ZToken Z_TOKEN_IDENT 0 (chars "enum") 1) (source_text demo_enum_items [])) = Some (0, c') /\
     zl_constants c' = [ZConstant (chars "A") 0; ZConstant (chars "B") 18446744073709551614; ZConstant (chars "C") 18446744073709551615]).
Proof.
  destruct (enum_defines demo_enum true (Some (chars "kind")) [] demo_enum_items [] (demo_lexer (ZToken Z_TOKEN_IDENT 0 (chars "enum") 1) (source_text demo_enum_items []))) as (c' & H1 & H2).
  - split; [by exists 1, 0|reflexivity| |done|apply length_replicate|done|done]. cbn [plain_source demo_enum_items fmap list_fmap enum_lexemes demo_enum enumerator_lexemes en_name en_value app lexeme_ok]. split_and!; try done; repeat constructor; cbn; lia.
  - reflexivity.
  - split_and!; [apply (bool_decide_unpack _); vm_compute; exact I| |cbn; unfold Z_MAX_CONSTANTS; lia]. repeat (constructor; [split; apply not_elem_of_nil|]). constructor.
  - exists c'. split; [exact H1|exact H2].
Defined.
