(* ===== verification/KernelExports.v ===== *)
(** The symbols a Z module finds in the kernel: kernel/core/kernel_exports.c.

    The addresses of the C symbols are those the compiler and the linker of the
    kernel give them, the class [KernelSymbols]. *)
From Stdlib Require Import ZArith Lia String.
From stdpp Require Import base tactics option list numbers strings.
From S2P Require Import Prelude.
From S2P Require Import Buffer.
#[local] Open Scope Z_scope.

(** [(uint64_t)(uintptr_t)symbol]. *)
Class KernelSymbols := {
  symbol_address : string -> Z;
  symbol_address_range : forall s, is_u64 (symbol_address s)
}.

(** The name of an export and the C symbol it stands for. *)
Definition KERNEL_EXPORT (name symbol : string) : string * string := (name, symbol).

Definition kernel_exports : list (string * string) := [
  KERNEL_EXPORT "puts" "console_puts";
  KERNEL_EXPORT "put_hex64" "console_put_hex64";
  KERNEL_EXPORT "put_dec64" "console_put_dec64";
  KERNEL_EXPORT "debug_puts" "debug_puts";
  KERNEL_EXPORT "debug_put_hex64" "debug_put_hex64";
  KERNEL_EXPORT "debug_put_dec64" "debug_put_dec64";
  KERNEL_EXPORT "ticks" "timer_ticks";
  KERNEL_EXPORT "clock_unix_time" "clock_unix_time";
  KERNEL_EXPORT "clock_get_rtc_time" "clock_get_rtc_time";
  KERNEL_EXPORT "status_memory_total_kb" "status_memory_total_kb";
  KERNEL_EXPORT "mem_total_kb" "status_memory_total_kb";
  KERNEL_EXPORT "status_memory_free_kb" "status_memory_free_kb";
  KERNEL_EXPORT "mem_free_kb" "status_memory_free_kb";
  KERNEL_EXPORT "status_memory_used_kb" "status_memory_used_kb";
  KERNEL_EXPORT "mem_used_kb" "status_memory_used_kb";
  KERNEL_EXPORT "kmalloc" "kmalloc";
  KERNEL_EXPORT "kzalloc" "kzalloc";
  KERNEL_EXPORT "kfree" "kfree";
  KERNEL_EXPORT "kmalloc_size" "kmalloc_size";
  KERNEL_EXPORT "malloc" "malloc";
  KERNEL_EXPORT "calloc" "calloc";
  KERNEL_EXPORT "realloc" "realloc";
  KERNEL_EXPORT "free" "free";
  KERNEL_EXPORT "abort" "abort";
  KERNEL_EXPORT "abs" "abs";
  KERNEL_EXPORT "time" "time";
  KERNEL_EXPORT "memcpy" "memcpy";
  KERNEL_EXPORT "memset" "memset";
  KERNEL_EXPORT "memmove" "memmove";
  KERNEL_EXPORT "memcmp" "memcmp";
  KERNEL_EXPORT "strlen" "strlen";
  KERNEL_EXPORT "strcpy" "strcpy";
  KERNEL_EXPORT "strncpy" "strncpy";
  KERNEL_EXPORT "strcat" "strcat";
  KERNEL_EXPORT "strcmp" "strcmp";
  KERNEL_EXPORT "strncmp" "strncmp";
  KERNEL_EXPORT "strcasecmp" "strcasecmp";
  KERNEL_EXPORT "strncasecmp" "strncasecmp";
  KERNEL_EXPORT "strchr" "strchr";
  KERNEL_EXPORT "strrchr" "strrchr";
  KERNEL_EXPORT "strstr" "strstr";
  KERNEL_EXPORT "strdup" "strdup";
  KERNEL_EXPORT "strtol" "strtol";
  KERNEL_EXPORT "strtoul" "strtoul";
  KERNEL_EXPORT "snprintf" "snprintf";
  KERNEL_EXPORT "vsnprintf" "vsnprintf";
  KERNEL_EXPORT "sprintf" "sprintf";
  KERNEL_EXPORT "floor" "floor";
  KERNEL_EXPORT "trunc" "trunc";
  KERNEL_EXPORT "fmod" "fmod";
  KERNEL_EXPORT "sqrt" "sqrt";
  KERNEL_EXPORT "sin" "sin";
  KERNEL_EXPORT "cos" "cos";
  KERNEL_EXPORT "tan" "tan";
  KERNEL_EXPORT "atan" "atan";
  KERNEL_EXPORT "atan2" "atan2";
  KERNEL_EXPORT "asin" "asin";
  KERNEL_EXPORT "acos" "acos";
  KERNEL_EXPORT "exp" "exp";
  KERNEL_EXPORT "log" "log";
  KERNEL_EXPORT "log2" "log2";
  KERNEL_EXPORT "log10" "log10";
  KERNEL_EXPORT "pow" "pow";
  KERNEL_EXPORT "cbrt" "cbrt";
  KERNEL_EXPORT "fabs" "fabs";
  KERNEL_EXPORT "difftime" "difftime";
  KERNEL_EXPORT "gmtime_r" "gmtime_r";
  KERNEL_EXPORT "localtime_r" "localtime_r";
  KERNEL_EXPORT "mktime" "mktime";
  KERNEL_EXPORT "strptime" "strptime";
  KERNEL_EXPORT "strftime" "strftime";
  KERNEL_EXPORT "setjmp" "setjmp";
  KERNEL_EXPORT "longjmp" "longjmp";
  KERNEL_EXPORT "tolower" "tolower";
  KERNEL_EXPORT "toupper" "toupper";
  KERNEL_EXPORT "bsearch" "bsearch";
  KERNEL_EXPORT "__errno_location" "__errno_location";
  KERNEL_EXPORT "errno_location" "errno_location";
  KERNEL_EXPORT "page_alloc" "page_alloc";
  KERNEL_EXPORT "page_free" "page_free";
  KERNEL_EXPORT "heap_used_bytes" "kmem_heap_used_bytes";
  KERNEL_EXPORT "registry_set" "registry_set";
  KERNEL_EXPORT "registry_get" "registry_get";
  KERNEL_EXPORT "registry_get_u32" "registry_get_u32";
  KERNEL_EXPORT "registry_count" "registry_count";
  KERNEL_EXPORT "registry_key_at" "registry_key_at";
  KERNEL_EXPORT "registry_value_at" "registry_value_at";
  KERNEL_EXPORT "status_cpu_core_count" "status_cpu_core_count";
  KERNEL_EXPORT "cpu_count" "status_cpu_core_count";
  KERNEL_EXPORT "cpu_usage" "status_cpu_usage_percent";
  KERNEL_EXPORT "cpu_local_timer_ticks" "cpu_core_local_timer_ticks";
  KERNEL_EXPORT "cpu_lapic_timer_frequency" "cpu_lapic_timer_frequency";
  KERNEL_EXPORT "smp_submit_work" "smp_submit_work";
  KERNEL_EXPORT "smp_work_done" "smp_work_done";
  KERNEL_EXPORT "smp_wait_work" "smp_wait_work";
  KERNEL_EXPORT "smp_pending_work_count" "smp_pending_work_count";
  KERNEL_EXPORT "kernel_task_submit" "kernel_task_submit";
  KERNEL_EXPORT "kernel_task_submit_named" "kernel_task_submit_named";
  KERNEL_EXPORT "kernel_task_submit_async_named" "kernel_task_submit_async_named";
  KERNEL_EXPORT "kernel_task_async_supported" "kernel_task_async_supported";
  KERNEL_EXPORT "kernel_task_done" "kernel_task_done";
  KERNEL_EXPORT "kernel_task_release" "kernel_task_release";
  KERNEL_EXPORT "kernel_task_wait" "kernel_task_wait";
  KERNEL_EXPORT "kernel_task_poll" "kernel_task_poll";
  KERNEL_EXPORT "kernel_task_pending_count" "kernel_task_pending_count";
  KERNEL_EXPORT "kernel_task_snapshot" "kernel_task_snapshot";
  KERNEL_EXPORT "put_pixel" "put_pixel";
  KERNEL_EXPORT "gfx_width" "graphics_width";
  KERNEL_EXPORT "gfx_height" "graphics_height";
  KERNEL_EXPORT "gfx_pitch" "graphics_pitch";
  KERNEL_EXPORT "gfx_format" "graphics_format";
  KERNEL_EXPORT "gfx_viewport_active" "graphics_viewport_active";
  KERNEL_EXPORT "gfx_viewport_x" "graphics_viewport_x";
  KERNEL_EXPORT "gfx_viewport_y" "graphics_viewport_y";
  KERNEL_EXPORT "gfx_smp_last_workers" "graphics_smp_last_workers";
  KERNEL_EXPORT "gfx_smp_jobs" "graphics_smp_jobs";
  KERNEL_EXPORT "gfx_smp_ops" "graphics_smp_ops";
  KERNEL_EXPORT "gfx_smp_pixels" "graphics_smp_pixels";
  KERNEL_EXPORT "gfx_get_pixel" "graphics_get_pixel";
  KERNEL_EXPORT "gfx_draw_rect_packed" "graphics_draw_rect_packed";
  KERNEL_EXPORT "gfx_fill_rect" "graphics_fill_rect";
  KERNEL_EXPORT "gfx_scroll_rect" "graphics_scroll_rect";
  KERNEL_EXPORT "gfx_draw_rect" "graphics_draw_rect";
  KERNEL_EXPORT "gfx_draw_line" "graphics_draw_line";
  KERNEL_EXPORT "gfx_clear" "graphics_clear";
  KERNEL_EXPORT "image_probe" "image_probe";
  KERNEL_EXPORT "image_decode_rgb24" "image_decode_rgb24";
  KERNEL_EXPORT "image_decode_rgba32" "image_decode_rgba32";
  KERNEL_EXPORT "image_decode_to_screen" "image_decode_to_screen";
  KERNEL_EXPORT "image_decode_to_screen_scaled" "image_decode_to_screen_scaled";
  KERNEL_EXPORT "image_decode_scaled_to_packed" "image_decode_scaled_to_packed";
  KERNEL_EXPORT "image_decode_to_screen_tiled" "image_decode_to_screen_tiled";
  KERNEL_EXPORT "image_supported_formats" "image_supported_formats";
  KERNEL_EXPORT "jpg_probe" "jpg_probe";
  KERNEL_EXPORT "jpg_decode_rgb24" "jpg_decode_rgb24";
  KERNEL_EXPORT "jpg_decode_to_screen" "jpg_decode_to_screen";
  KERNEL_EXPORT "jpg_entropy_error_detail" "jpg_entropy_error_detail";
  KERNEL_EXPORT "jpg_entropy_error_block" "jpg_entropy_error_block";
  KERNEL_EXPORT "jpg_huffman_code_count" "jpg_huffman_code_count";
  KERNEL_EXPORT "jpg_huffman_value" "jpg_huffman_value";
  KERNEL_EXPORT "jpg_entropy_probe_first" "jpg_entropy_probe_first";
  KERNEL_EXPORT "jpg_decode_first_block_probe" "jpg_decode_first_block_probe";
  KERNEL_EXPORT "jpg_decode_two_block_probe" "jpg_decode_two_block_probe";
  KERNEL_EXPORT "jpg_decode_first_ac_probe" "jpg_decode_first_ac_probe";
  KERNEL_EXPORT "jpg_debug_scan_offset" "jpg_debug_scan_offset";
  KERNEL_EXPORT "jpg_debug_stream_pos" "jpg_debug_stream_pos";
  KERNEL_EXPORT "jpg_debug_bits_left" "jpg_debug_bits_left";
  KERNEL_EXPORT "jpg_debug_zigzag" "jpg_debug_zigzag";
  KERNEL_EXPORT "jpg_debug_byte_at" "jpg_debug_byte_at";
  KERNEL_EXPORT "jpg_debug_first_entropy_bits" "jpg_debug_first_entropy_bits";
  KERNEL_EXPORT "draw_text_at_pixel" "console_draw_text_at_pixel";
  KERNEL_EXPORT "draw_text_scaled_at_pixel" "console_draw_text_scaled_at_pixel";
  KERNEL_EXPORT "draw_text_sized_at_pixel" "console_draw_text_sized_at_pixel";
  KERNEL_EXPORT "mouse_init" "mouse_init";
  KERNEL_EXPORT "mouse_enabled" "mouse_enabled";
  KERNEL_EXPORT "mouse_x" "mouse_x";
  KERNEL_EXPORT "mouse_y" "mouse_y";
  KERNEL_EXPORT "mouse_buttons" "mouse_buttons";
  KERNEL_EXPORT "mouse_dx" "mouse_dx";
  KERNEL_EXPORT "mouse_dy" "mouse_dy";
  KERNEL_EXPORT "mouse_wheel" "mouse_wheel";
  KERNEL_EXPORT "mouse_consume_wheel" "mouse_consume_wheel";
  KERNEL_EXPORT "put_char_at" "console_put_char_at";
  KERNEL_EXPORT "put_dec_at" "console_put_dec_at";
  KERNEL_EXPORT "put_char_at_screen" "console_put_char_at_screen";
  KERNEL_EXPORT "put_dec_at_screen" "console_put_dec_at_screen";
  KERNEL_EXPORT "set_margin" "console_set_margin";
  KERNEL_EXPORT "statusbar_enable" "statusbar_enable";
  KERNEL_EXPORT "os_mkdir" "shell_api_mkdir";
  KERNEL_EXPORT "os_delete" "shell_api_delete";
  KERNEL_EXPORT "os_write_file" "shell_api_write_file";
  KERNEL_EXPORT "os_cat_file" "shell_api_cat_file";
  KERNEL_EXPORT "os_file_size" "shell_api_file_size";
  KERNEL_EXPORT "os_read_file" "shell_api_read_file";
  KERNEL_EXPORT "os_load_file_shared" "shell_api_load_file_shared";
  KERNEL_EXPORT "os_file_buffer" "shell_api_file_buffer";
  KERNEL_EXPORT "os_http_get" "shell_api_http_get";
  KERNEL_EXPORT "os_http_get_ex" "shell_api_http_get_ex";
  KERNEL_EXPORT "os_rename" "shell_api_rename";
  KERNEL_EXPORT "os_copy_file" "shell_api_copy_file";
  KERNEL_EXPORT "os_strlen" "shell_api_strlen";
  KERNEL_EXPORT "os_strcmp" "shell_api_strcmp";
  KERNEL_EXPORT "os_starts_with" "shell_api_starts_with";
  KERNEL_EXPORT "os_atoi" "shell_api_atoi";
  KERNEL_EXPORT "os_list_dir" "shell_api_list_dir";
  KERNEL_EXPORT "os_chdir" "shell_api_chdir";
  KERNEL_EXPORT "os_dir_count" "shell_api_dir_count";
  KERNEL_EXPORT "os_dir_name" "shell_api_dir_name";
  KERNEL_EXPORT "os_dir_type" "shell_api_dir_type";
  KERNEL_EXPORT "os_dir_size" "shell_api_dir_size";
  KERNEL_EXPORT "os_zbuild" "shell_api_zbuild";
  KERNEL_EXPORT "os_ztest" "shell_api_ztest";
  KERNEL_EXPORT "os_zinstall" "shell_api_zinstall";
  KERNEL_EXPORT "os_zmod" "shell_api_zmod";
  KERNEL_EXPORT "os_zunload" "shell_api_zunload";
  KERNEL_EXPORT "os_zreload" "shell_api_zreload";
  KERNEL_EXPORT "os_open_editor" "desktop_api_open_editor";
  KERNEL_EXPORT "os_open_image" "desktop_api_open_image";
  KERNEL_EXPORT "os_open_module" "desktop_api_open_module";
  KERNEL_EXPORT "os_image_path" "desktop_api_image_path"
].

(** Names that are found even when the table does not have them. *)
Definition kernel_export_fallbacks : list (string * string) := [
  KERNEL_EXPORT "image_probe" "image_probe";
  KERNEL_EXPORT "image_decode_rgb24" "image_decode_rgb24";
  KERNEL_EXPORT "image_decode_rgba32" "image_decode_rgba32";
  KERNEL_EXPORT "image_decode_to_screen" "image_decode_to_screen";
  KERNEL_EXPORT "image_decode_to_screen_scaled" "image_decode_to_screen_scaled";
  KERNEL_EXPORT "gfx_draw_rect_packed" "graphics_draw_rect_packed";
  KERNEL_EXPORT "image_decode_scaled_to_packed" "image_decode_scaled_to_packed";
  KERNEL_EXPORT "image_decode_to_screen_tiled" "image_decode_to_screen_tiled"
].

Section exports.
Context {K : KernelSymbols}.

(** A name with its terminator. *)
Definition c_name (s : string) : list Z := chars s ++ [0].

Definition kernel_export_streq := raw_streq.

(** The loop of the table, and the comparisons behind it. *)
Fixpoint find_kernel_export (table : list (string * string)) (name : list Z) : option (option Z) :=
  match table with
  | [] => Some None
  | (n, symbol) :: table' =>
      eq ← kernel_export_streq (c_name n) name;
      if eq : bool then Some (Some (symbol_address symbol)) else find_kernel_export table' name
  end.

(** [None] outside is a name that runs out of its buffer, inside -1. *)
Definition kernel_export_value (name : list Z) : option (option Z) :=
  r ← find_kernel_export kernel_exports name;
  match r with
  | Some v => Some (Some v)
  | None => find_kernel_export kernel_export_fallbacks name
  end.

(** ** What is found *)

(** The symbol of a name. *)
Fixpoint export_symbol (table : list (string * string)) (name : list Z) : option string :=
  match table with
  | [] => None
  | (n, symbol) :: table' => if bool_decide (chars n = name) then Some symbol else export_symbol table' name
  end.

Definition kernel_symbol (name : list Z) : option Z := symbol_address <$> export_symbol (kernel_exports ++ kernel_export_fallbacks) name.

Lemma chars_nonzero n : forallb (fun c => negb (c =? 0)) (chars n) = true -> cstr (c_name n) = chars n.
Proof.
  unfold c_name. intros H. rewrite <- (app_nil_r (chars n)) at 2. change (@nil Z) with (cstr [0]). induction (chars n) as [|c l IH]; [done|].
  cbn in H. apply andb_true_iff in H as [Hc Hl]. cbn. destruct (c =? 0); [done|]. f_equal. by apply IH.
Qed.

(** No name of a table has a character 0. *)
Definition names_plain (table : list (string * string)) : bool := forallb (fun '(n, _) => forallb (fun c => negb (c =? 0)) (chars n)) table.

Lemma tables_plain : names_plain (kernel_exports ++ kernel_export_fallbacks) = true.
Proof. vm_compute. reflexivity. Qed.

Lemma find_export_symbol table name : names_plain table = true -> terminated name ->
  find_kernel_export table name = Some (symbol_address <$> export_symbol table (cstr name)).
Proof.
  intros Hp Ht. induction table as [|[n symbol] table IH]; [done|]. cbn in Hp. apply andb_true_iff in Hp as [Hn Hp]. cbn [find_kernel_export export_symbol].
  unfold kernel_export_streq. rewrite raw_streq_cstr; [|apply elem_of_app; right; left|done]. rewrite chars_nonzero by done. cbn [mbind option_bind].
  destruct (bool_decide_reflect (chars n = cstr name)); [done|]. by apply IH.
Qed.

Lemma export_symbol_app t1 t2 name : export_symbol (t1 ++ t2) name = match export_symbol t1 name with Some s => Some s | None => export_symbol t2 name end.
Proof. induction t1 as [|[n s] t1 IH]; [done|]. cbn. by case_bool_decide. Qed.

Lemma kernel_export_value_eq name : terminated name -> kernel_export_value name = Some (kernel_symbol (cstr name)).
Proof.
  intros Ht. pose proof tables_plain as Hp. unfold names_plain in Hp. rewrite forallb_app in Hp. apply andb_true_iff in Hp as [H1 H2].
  unfold kernel_export_value, kernel_symbol. rewrite !find_export_symbol by done. rewrite export_symbol_app. cbn [mbind option_bind].
  by destruct (export_symbol kernel_exports (cstr name)).
Qed.

Lemma kernel_symbol_range name v : kernel_symbol name = Some v -> is_u64 v.
Proof. unfold kernel_symbol. destruct (export_symbol _ _); [|done]. intros [= <-]. apply symbol_address_range. Qed.

(** Every entry of the table is found: no name is there twice. *)
Lemma exports_found n symbol : (n, symbol) ∈ kernel_exports -> kernel_symbol (chars n) = Some (symbol_address symbol).
Proof.
  assert (H : forallb (fun '(n, s) => bool_decide (export_symbol (kernel_exports ++ kernel_export_fallbacks) (chars n) = Some s)) kernel_exports = true) by (vm_compute; reflexivity).
  rewrite forallb_forall in H. intros Hin. apply list_elem_of_In in Hin. specialize (H _ Hin). cbv beta iota in H. apply bool_decide_eq_true in H. unfold kernel_symbol. by rewrite H.
Qed.
End exports.
