(* ===== verification/ZObject.v ===== *)
(** Object files of the Z toolchain: kernel/z/zobject.c, lines 1-230 (numbers,
    names, versions) and 412-673 (reading an object).

    An object is the list of its bytes. A pointer into it is an offset, or for
    a name the rest of the bytes from there on; a read behind the end is
    [None]. Where C returns -1 the inner result is [None]. *)
From Stdlib Require Import ZArith Lia.
From stdpp Require Import base tactics option list numbers.
From S2P Require Import Prelude.
From S2P Require Import Buffer.
#[local] Open Scope Z_scope.

Definition ZOBJECT_SYMBOL_NAME_SIZE : Z := 128.
Definition ZOBJECT_MAX_RESOLVED_SYMBOLS : Z := 16384.
Definition ZOBJECT_MAGIC : Z := 0x4F5A4E49.
Definition ZOBJECT_VERSION : Z := 6.
Definition ZOBJECT_VERSION_SHORT_SYMBOLS : Z := 5.
Definition ZOBJECT_VERSION_RELOC : Z := 4.
Definition ZOBJECT_VERSION_ASM : Z := 3.
Definition ZOBJECT_VERSION_LEGACY : Z := 2.
Definition ZOBJECT_LEGACY_SYMBOL_NAME_SIZE : Z := 32.
Definition ZOBJECT_ENTRY_SIZE : Z := 32.
Definition ZOBJECT_SYMBOL_RECORD_V4_SIZE : Z := 12 + ZOBJECT_SYMBOL_NAME_SIZE.
Definition ZOBJECT_RELOCATION_RECORD_SIZE : Z := 8 + ZOBJECT_SYMBOL_NAME_SIZE.
Definition ZOBJECT_SECTION_NAME_SIZE : Z := 8.
Definition ZOBJECT_SECTION_RECORD_SIZE : Z := 20 + ZOBJECT_SECTION_NAME_SIZE.
Definition ZOBJECT_HEADER_SIZE : Z := 16 + ZOBJECT_ENTRY_SIZE.
Definition ZOBJECT_V4_HEADER_SIZE : Z := 32.
Definition ZOBJECT_V5_HEADER_SIZE : Z := 36.
Definition ZOBJECT_LINK_ASM_SIZE : Z := 8 * 1024 * 1024.
Definition ZOBJECT_MAX_SYMBOLS : Z := 4096.
Definition ZOBJECT_MAX_RELOCATIONS : Z := 16384.
Definition ZOBJECT_MAX_OBJECTS : Z := 1024.
Definition ZOBJECT_MAX_SECTIONS : Z := 3.
Definition ZOBJECT_SYMBOL_EXPORT : Z := 1.
Definition ZOBJECT_SYMBOL_EXTERN : Z := 2.
Definition ZOBJECT_RELOC_ABS64 : Z := 1.
Definition ZOBJECT_RELOC_RELATIVE64 : Z := 2.
Definition ZOBJECT_RELOC_RIP32 : Z := 3.
Definition ZOBJECT_SECTION_TEXT : Z := 1.
Definition ZOBJECT_SECTION_DATA : Z := 2.
Definition ZOBJECT_SECTION_BSS : Z := 3.

(** ** Numbers and names *)

(** What zo_write_u32 and zo_write_u64 store. *)
Definition zo_u32 (value : Z) : list Z :=
  [Z.land value 0xFF; Z.land (Z.shiftr value 8) 0xFF; Z.land (Z.shiftr value 16) 0xFF; Z.land (Z.shiftr value 24) 0xFF].
Definition zo_u64 (value : Z) : list Z := map (fun i => Z.land (Z.shiftr value (i * 8)) 0xFF) [0; 1; 2; 3; 4; 5; 6; 7].

Definition zo_write_u32 (p : list Z) (offset value : Z) : option (list Z) := wr_block p offset (zo_u32 value).
Definition zo_write_u64 (p : list Z) (offset value : Z) : option (list Z) := wr_block p offset (zo_u64 value).

Definition zo_read_u32 (p : list Z) (offset : Z) : option Z :=
  a ← rd8 p offset; b ← rd8 p (offset + 1); c ← rd8 p (offset + 2); d ← rd8 p (offset + 3);
  Some (Z.lor (Z.lor (Z.lor a (Z.shiftl b 8)) (Z.shiftl c 16)) (Z.shiftl d 24)).

Definition zo_read_u64 (p : list Z) (offset : Z) : option Z :=
  foldl (fun value i => v ← value; b ← rd8 p (offset + i); Some (Z.lor v (Z.shiftl b (i * 8)))) (Some 0) [0; 1; 2; 3; 4; 5; 6; 7].

Definition zo_streq := raw_streq.

(** [prefix] is a literal, given without its terminator. *)
Fixpoint zo_starts_with (text prefix : list Z) : option bool :=
  match prefix with
  | [] => Some true
  | p :: prefix' => match text with [] => None | t :: text' => if t =? p then zo_starts_with text' prefix' else Some false end
  end.

Definition zo_name_char (ch : Z) : bool :=
  ((97 <=? ch) && (ch <=? 122)) || ((65 <=? ch) && (ch <=? 90)) || ((48 <=? ch) && (ch <=? 57)) || (ch =? 95).

(** [room] characters fit before the terminator. *)
Fixpoint copy_name_loop (room : nat) (src : list Z) {struct src} : option (list Z) :=
  match src with
  | [] => None
  | c :: src' =>
      if c =? 0 then Some [0]
      else match room with O => Some [0] | S room' => r ← copy_name_loop room' src'; Some (c :: r) end
  end.

(** The bytes written to a destination of [dst_size] bytes. *)
Definition zo_copy_name (dst_size : Z) (src : list Z) : option (list Z) :=
  if dst_size =? 0 then Some [] else copy_name_loop (Z.to_nat (dst_size - 1)) src.

(** ** Versions *)

Definition zo_version_has_relocations (version : Z) : bool :=
  (version =? ZOBJECT_VERSION) || (version =? ZOBJECT_VERSION_SHORT_SYMBOLS) || (version =? ZOBJECT_VERSION_RELOC).

Definition zo_version_has_sections (version : Z) : bool :=
  (version =? ZOBJECT_VERSION) || (version =? ZOBJECT_VERSION_SHORT_SYMBOLS).

Definition zo_symbol_name_size_for_version (version : Z) : Z :=
  if version =? ZOBJECT_VERSION then ZOBJECT_SYMBOL_NAME_SIZE else ZOBJECT_LEGACY_SYMBOL_NAME_SIZE.

Definition zo_symbol_record_size_for_version (version : Z) : Z :=
  if zo_version_has_relocations version then 12 + zo_symbol_name_size_for_version version
  else 4 + zo_symbol_name_size_for_version version.

Definition zo_relocation_record_size_for_version (version : Z) : Z := 8 + zo_symbol_name_size_for_version version.

(** ** Reading an object *)

Record zo_section_t : Type := ZoSection {
  sec_type : Z;
  sec_file_offset : Z;
  sec_load_offset : Z;
  sec_file_size : Z;
  sec_mem_size : Z;
  sec_name : list Z
}.

(** [oi_object] is the object the pointers of the structure point into. *)
Record zo_object_info_t : Type := ZoObjectInfo {
  oi_object : list Z;
  oi_version : Z;
  oi_asm_size : Z;
  oi_asm_offset : Z;
  oi_image_size : Z;
  oi_image_offset : Z;
  oi_entry_offset : Z;
  oi_reloc_count : Z;
  oi_symbol_count : Z;
  oi_section_count : Z;
  oi_entry_label : Z;
  oi_symbols : Z;
  oi_relocations : Z;
  oi_sections : Z
}.

(** The pointer [object + offset]. *)
Definition pointer (object : list Z) (offset : Z) : list Z := drop (Z.to_nat offset) object.

(** Versions with relocations, behind the reset of the fields. *)
Definition validate_reloc_object (object : list Z) (version : Z) : option (option zo_object_info_t) :=
  let object_size := Z.of_nat (length object) in
  let header_size := if zo_version_has_sections version then ZOBJECT_V5_HEADER_SIZE else ZOBJECT_V4_HEADER_SIZE in
  let symbol_record_size := zo_symbol_record_size_for_version version in
  let relocation_record_size := zo_relocation_record_size_for_version version in
  if object_size <? header_size then Some None
  else
    image_size ← zo_read_u32 object 8;
    symbol_count ← zo_read_u32 object 12;
    reloc_count ← zo_read_u32 object 16;
    entry_offset ← zo_read_u32 object 20;
    section_count ← (if zo_version_has_sections version then zo_read_u32 object 24 else Some 0);
    if (ZOBJECT_MAX_SYMBOLS <? symbol_count) || (ZOBJECT_MAX_RELOCATIONS <? reloc_count) ||
       (ZOBJECT_MAX_SECTIONS <? section_count) || (image_size <=? entry_offset) then Some None
    else
      let symbol_bytes := u32 (symbol_count * symbol_record_size) in
      let relocation_bytes := u32 (reloc_count * relocation_record_size) in
      let section_bytes := u32 (section_count * ZOBJECT_SECTION_RECORD_SIZE) in
      if negb (symbol_bytes / symbol_record_size =? symbol_count) || negb (relocation_bytes / relocation_record_size =? reloc_count) ||
         (negb (section_count =? 0) && negb (section_bytes / ZOBJECT_SECTION_RECORD_SIZE =? section_count)) ||
         (object_size <? symbol_bytes) || (u32 (object_size - symbol_bytes) <? relocation_bytes) ||
         (u32 (object_size - symbol_bytes - relocation_bytes) <? section_bytes) ||
         (u32 (object_size - symbol_bytes - relocation_bytes - section_bytes) <? header_size) then Some None
      else
        let image_offset := u32 (header_size + symbol_bytes + relocation_bytes + section_bytes) in
        if u32 (object_size - image_offset) <? image_size then Some None
        else Some (Some (ZoObjectInfo object version 0 0 image_size image_offset entry_offset reloc_count symbol_count section_count 0
               header_size (header_size + symbol_bytes) (header_size + symbol_bytes + relocation_bytes))).

(** Versions that hold assembler source. *)
Definition validate_asm_object (object : list Z) (version : Z) : option (option zo_object_info_t) :=
  let object_size := Z.of_nat (length object) in
  let record_size := zo_symbol_record_size_for_version version in
  asm_size ← zo_read_u32 object 8;
  symbol_count ← (if version =? ZOBJECT_VERSION_ASM then zo_read_u32 object 12 else Some 0);
  if ZOBJECT_MAX_SYMBOLS <? symbol_count then Some None
  else
    let symbol_bytes := u32 (symbol_count * record_size) in
    if negb (symbol_bytes / record_size =? symbol_count) || (object_size <? symbol_bytes) ||
       (u32 (object_size - symbol_bytes) <? ZOBJECT_HEADER_SIZE) then Some None
    else
      let asm_offset := u32 (ZOBJECT_HEADER_SIZE + symbol_bytes) in
      if u32 (object_size - asm_offset) <? asm_size then Some None
      else
        c ← rd8 object 16;
        if c =? 0 then Some None
        else Some (Some (ZoObjectInfo object version asm_size asm_offset 0 0 0 0 symbol_count 0 16 ZOBJECT_HEADER_SIZE 0 0)).

(** A null object is [None]; the size of an object is the length of its list. *)
Definition zo_validate_object (object : option (list Z)) : option (option zo_object_info_t) :=
  match object with
  | None => Some None
  | Some object =>
      if Z.of_nat (length object) <? ZOBJECT_HEADER_SIZE then Some None
      else
        version ← zo_read_u32 object 4;
        magic ← zo_read_u32 object 0;
        if negb (magic =? ZOBJECT_MAGIC) ||
           (negb (version =? ZOBJECT_VERSION) && negb (version =? ZOBJECT_VERSION_SHORT_SYMBOLS) && negb (version =? ZOBJECT_VERSION_RELOC) &&
            negb (version =? ZOBJECT_VERSION_ASM) && negb (version =? ZOBJECT_VERSION_LEGACY)) then Some None
        else if zo_version_has_relocations version then validate_reloc_object object version
        else validate_asm_object object version
  end.

(** The type and the name of a symbol. *)
Definition zo_symbol_at (info : zo_object_info_t) (index : Z) : option (option (Z * list Z)) :=
  if oi_symbol_count info <=? index then Some None
  else
    let record := oi_symbols info + index * zo_symbol_record_size_for_version (oi_version info) in
    type ← zo_read_u32 (oi_object info) record;
    let name := pointer (oi_object info) (record + (if zo_version_has_relocations (oi_version info) then 12 else 4)) in
    if negb (type =? ZOBJECT_SYMBOL_EXPORT) && negb (type =? ZOBJECT_SYMBOL_EXTERN) then Some None
    else
      c ← rd8 name 0;
      if c =? 0 then Some None else Some (Some (type, name)).

Definition zo_symbol_value_at (info : zo_object_info_t) (index : Z) : option (option Z) :=
  if oi_symbol_count info <=? index then Some None
  else if negb (zo_version_has_relocations (oi_version info)) then Some (Some 0)
  else
    value ← zo_read_u64 (oi_object info) (oi_symbols info + index * zo_symbol_record_size_for_version (oi_version info) + 4);
    Some (Some value).

(** The type, the offset and the name of a relocation. *)
Definition zo_relocation_at (info : zo_object_info_t) (index : Z) : option (option (Z * Z * list Z)) :=
  if negb (zo_version_has_relocations (oi_version info)) || (oi_reloc_count info <=? index) then Some None
  else
    let record := oi_relocations info + index * zo_relocation_record_size_for_version (oi_version info) in
    type ← zo_read_u32 (oi_object info) record;
    offset ← zo_read_u32 (oi_object info) (record + 4);
    let name := pointer (oi_object info) (record + 8) in
    if negb (type =? ZOBJECT_RELOC_ABS64) && negb (type =? ZOBJECT_RELOC_RELATIVE64) && negb (type =? ZOBJECT_RELOC_RIP32) then Some None
    else if (oi_image_size info <? offset) || (oi_image_size info - offset <? (if type =? ZOBJECT_RELOC_RIP32 then 4 else 8)) then Some None
    else Some (Some (type, offset, name)).

Definition zo_section_at (info : zo_object_info_t) (index : Z) : option (option zo_section_t) :=
  if oi_section_count info <=? index then Some None
  else
    let object := oi_object info in
    let record := oi_sections info + index * ZOBJECT_SECTION_RECORD_SIZE in
    type ← zo_read_u32 object record;
    file_offset ← zo_read_u32 object (record + 4);
    load_offset ← zo_read_u32 object (record + 8);
    file_size ← zo_read_u32 object (record + 12);
    mem_size ← zo_read_u32 object (record + 16);
    name ← rd_block object (record + 20) ZOBJECT_SECTION_NAME_SIZE;
    if negb (type =? ZOBJECT_SECTION_TEXT) && negb (type =? ZOBJECT_SECTION_DATA) && negb (type =? ZOBJECT_SECTION_BSS) then Some None
    else if (mem_size <? file_size) || (oi_image_size info <? file_offset) || (oi_image_size info - file_offset <? file_size) then Some None
    else if (oi_image_size info <? load_offset) || (0xFFFFFFFF - load_offset <? mem_size) then Some None
    else Some (Some (ZoSection type file_offset load_offset file_size mem_size (<[7%nat := 0]> name))).

(** [sections] is section_offsets beside the sections. *)
Fixpoint map_offset_loop (sections : list (zo_section_t * Z)) (original32 : Z) : option Z :=
  match sections with
  | [] => None
  | (section, section_offset) :: sections' =>
      let start := sec_load_offset section in
      let size := sec_mem_size section in
      if size =? 0 then map_offset_loop sections' original32
      else if (start <=? original32) && (original32 <? u32 (start + size)) then Some (u32 (section_offset + (original32 - start)))
      else map_offset_loop sections' original32
  end.

Definition zo_map_section_offset (sections : list (zo_section_t * Z)) (original : Z) : option Z :=
  if 0xFFFFFFFF <? original then None else map_offset_loop sections (u32 original).
