(* ===== verification/ZObjectSpec.v ===== *)
(** What reading an object gives: numbers are read back as written, a valid
    object has its tables and its image inside, and the checked accessors stay
    inside it as long as names have a terminator. *)
From Stdlib Require Import ZArith Lia.
From stdpp Require Import base tactics option list numbers.
From S2P Require Import Prelude.
From S2P Require Import Buffer.
From S2P Require Import ZObject.
#[local] Open Scope Z_scope.

(** ** Little-endian numbers *)

(** The number of a list of bytes, lowest byte first, and back. *)
Fixpoint le_num (bs : list Z) : Z := match bs with [] => 0 | b :: bs' => b + 256 * le_num bs' end.
Fixpoint le_bytes (n : nat) (v : Z) : list Z := match n with O => [] | S n' => v mod 256 :: le_bytes n' (v / 256) end.

Lemma length_le_bytes n v : length (le_bytes n v) = n.
Proof. revert v. induction n as [|n IH]; intros v; [done|]. cbn. by rewrite IH. Qed.

Lemma le_bytes_ok n v : bytes (le_bytes n v).
Proof. revert v. induction n as [|n IH]; intros v; cbn; constructor; [apply Z.mod_pos_bound; lia|done]. Qed.

Lemma le_num_range bs : bytes bs -> 0 <= le_num bs < 256 ^ Z.of_nat (length bs).
Proof.
  induction 1 as [|b bs Hb Hbs IH]; [done|]. cbn [le_num length]. rewrite Nat2Z.inj_succ, Z.pow_succ_r by lia. unfold is_u8 in Hb. nia.
Qed.

Lemma le_num_bytes n v : le_num (le_bytes n v) = v mod 256 ^ Z.of_nat n.
Proof.
  revert v. induction n as [|n IH]; intros v; [cbn; by rewrite Z.mod_1_r|]. cbn [le_bytes le_num]. rewrite IH, Nat2Z.inj_succ, Z.pow_succ_r by lia.
  assert (0 < 256 ^ Z.of_nat n) by (apply Z.pow_pos_nonneg; lia). rewrite Z.rem_mul_r by lia. lia.
Qed.

Lemma le_bytes_num bs : bytes bs -> le_bytes (length bs) (le_num bs) = bs.
Proof.
  induction 1 as [|b bs Hb Hbs IH]; [done|]. cbn [length le_num le_bytes]. unfold is_u8 in Hb.
  rewrite (Z.mul_comm 256), Z_mod_plus_full, Z.mod_small, Z_div_plus_full, Z.div_small, Z.add_0_l, IH by lia. done.
Qed.

Lemma byte_of v k : 0 <= k -> Z.land (Z.shiftr v k) 0xFF = v / 2 ^ k mod 256.
Proof. intros Hk. rewrite land_255. by rewrite Z.shiftr_div_pow2. Qed.

Lemma zo_u32_le v : zo_u32 v = le_bytes 4 v.
Proof.
  unfold zo_u32. rewrite land_255, !byte_of by lia. cbn [le_bytes]. rewrite !Z.div_div by lia. done.
Qed.

Lemma zo_u64_le v : zo_u64 v = le_bytes 8 v.
Proof.
  unfold zo_u64. cbn [map]. rewrite !byte_of by lia. cbn [le_bytes]. rewrite !Z.div_div by lia. change (0 * 8) with 0. change (2 ^ 0) with 1. rewrite Z.div_1_r. done.
Qed.

(** [n] bytes from [i] on, as far as a list has them. *)
Definition slice (l : list Z) (i n : Z) : list Z := take (Z.to_nat n) (drop (Z.to_nat i) l).

Lemma length_slice l i n : 0 <= i -> 0 <= n -> i + n <= Z.of_nat (length l) -> length (slice l i n) = Z.to_nat n.
Proof. intros. unfold slice. rewrite length_take, length_drop. lia. Qed.

Lemma slice_bytes l i n : bytes l -> bytes (slice l i n).
Proof. intros. by apply Forall_take, Forall_drop. Qed.

Lemma rd8_slice l i n k : 0 <= i -> 0 <= k < n -> rd8 l (i + k) = slice l i n !! Z.to_nat k.
Proof.
  intros Hi Hk. unfold rd8, slice. destruct (Z.ltb_spec (i + k) 0); [lia|]. rewrite lookup_take_lt by lia. rewrite lookup_drop. f_equal. lia.
Qed.

Lemma zo_read_u32_slice p i : bytes p -> 0 <= i -> i + 4 <= Z.of_nat (length p) -> zo_read_u32 p i = Some (le_num (slice p i 4)).
Proof.
  intros Hp Hi Hl. unfold zo_read_u32. rewrite <- (Z.add_0_r i) at 1. rewrite !(rd8_slice p i 4) by lia.
  pose proof (length_slice p i 4 Hi ltac:(lia) Hl) as Hlen. pose proof (slice_bytes p i 4 Hp) as Hb.
  destruct (slice p i 4) as [|a [|b [|c [|d [|]]]]] eqn:Es; try discriminate Hlen. inv_Forall. unfold is_u8 in *.
  change (Some (Z.lor (Z.lor (Z.lor a (Z.shiftl b 8)) (Z.shiftl c 16)) (Z.shiftl d 24)) = Some (le_num [a; b; c; d])). f_equal. cbn [le_num].
  rewrite (lor_shiftl_add _ _ 8), (lor_shiftl_add _ _ 16), (lor_shiftl_add _ _ 24) by lia. lia.
Qed.

Lemma zo_read_u64_slice p i : bytes p -> 0 <= i -> i + 8 <= Z.of_nat (length p) -> zo_read_u64 p i = Some (le_num (slice p i 8)).
Proof.
  intros Hp Hi Hl. unfold zo_read_u64. cbn [foldl]. rewrite !(rd8_slice p i 8) by lia.
  pose proof (length_slice p i 8 Hi ltac:(lia) Hl) as Hlen. pose proof (slice_bytes p i 8 Hp) as Hb.
  destruct (slice p i 8) as [|a [|b [|c [|d [|e [|f [|g [|h [|]]]]]]]]] eqn:Es; try discriminate Hlen. inv_Forall. unfold is_u8 in *.
  change (Some (Z.lor (Z.lor (Z.lor (Z.lor (Z.lor (Z.lor (Z.lor (Z.lor 0 (Z.shiftl a 0)) (Z.shiftl b 8)) (Z.shiftl c 16)) (Z.shiftl d 24)) (Z.shiftl e 32)) (Z.shiftl f 40)) (Z.shiftl g 48)) (Z.shiftl h 56))
    = Some (le_num [a; b; c; d; e; f; g; h])). f_equal. cbn [le_num].
  rewrite Z.shiftl_0_r, Z.lor_0_l, (lor_shiftl_add _ _ 8), (lor_shiftl_add _ _ 16), (lor_shiftl_add _ _ 24), (lor_shiftl_add _ _ 32), (lor_shiftl_add _ _ 40), (lor_shiftl_add _ _ 48), (lor_shiftl_add _ _ 56) by lia. lia.
Qed.

Lemma le_num_u32 p i : bytes p -> 0 <= i -> i + 4 <= Z.of_nat (length p) -> is_u32 (le_num (slice p i 4)).
Proof. intros Hp Hi Hl. pose proof (le_num_range _ (slice_bytes p i 4 Hp)) as H. rewrite length_slice in H by lia. exact H. Qed.

Lemma le_num_u64 p i : bytes p -> 0 <= i -> i + 8 <= Z.of_nat (length p) -> is_u64 (le_num (slice p i 8)).
Proof. intros Hp Hi Hl. pose proof (le_num_range _ (slice_bytes p i 8 Hp)) as H. rewrite length_slice in H by lia. exact H. Qed.

Lemma gives_read_u32 p i : bytes p -> 0 <= i -> i + 4 <= Z.of_nat (length p) -> gives (zo_read_u32 p i) is_u32.
Proof. intros. rewrite zo_read_u32_slice by done. by apply le_num_u32. Qed.

Lemma gives_read_u64 p i : bytes p -> 0 <= i -> i + 8 <= Z.of_nat (length p) -> gives (zo_read_u64 p i) is_u64.
Proof. intros. rewrite zo_read_u64_slice by done. by apply le_num_u64. Qed.

(** ** Valid objects *)

(** An object of version 5 or 6: header, symbols, relocations, sections and
    image lie behind each other. *)
Record reloc_layout (info : zo_object_info_t) (header_size : Z) : Prop := RelocLayout {
  rl_bytes : bytes (oi_object info);
  rl_version : zo_version_has_relocations (oi_version info) = true;
  rl_header : header_size = if zo_version_has_sections (oi_version info) then ZOBJECT_V5_HEADER_SIZE else ZOBJECT_V4_HEADER_SIZE;
  rl_symbol_count : 0 <= oi_symbol_count info <= ZOBJECT_MAX_SYMBOLS;
  rl_reloc_count : 0 <= oi_reloc_count info <= ZOBJECT_MAX_RELOCATIONS;
  rl_section_count : 0 <= oi_section_count info <= ZOBJECT_MAX_SECTIONS;
  rl_entry : 0 <= oi_entry_offset info < oi_image_size info;
  rl_symbols : oi_symbols info = header_size;
  rl_relocations : oi_relocations info = oi_symbols info + oi_symbol_count info * zo_symbol_record_size_for_version (oi_version info);
  rl_sections : oi_sections info = oi_relocations info + oi_reloc_count info * zo_relocation_record_size_for_version (oi_version info);
  rl_image : oi_image_offset info = oi_sections info + oi_section_count info * ZOBJECT_SECTION_RECORD_SIZE;
  rl_end : oi_image_offset info + oi_image_size info <= Z.of_nat (length (oi_object info))
}.

Lemma symbol_record_size version : zo_version_has_relocations version = true -> zo_symbol_record_size_for_version version = 140 \/ zo_symbol_record_size_for_version version = 44.
Proof.
  unfold zo_symbol_record_size_for_version, zo_symbol_name_size_for_version. intros ->. destruct (version =? ZOBJECT_VERSION); [by left|by right].
Qed.

Lemma relocation_record_size version : zo_relocation_record_size_for_version version = 136 \/ zo_relocation_record_size_for_version version = 40.
Proof. unfold zo_relocation_record_size_for_version, zo_symbol_name_size_for_version. destruct (version =? ZOBJECT_VERSION); [by left|by right]. Qed.

Lemma validate_reloc_object_ok object version : bytes object -> is_u32 (Z.of_nat (length object)) -> 48 <= Z.of_nat (length object) ->
  zo_version_has_relocations version = true ->
  gives (validate_reloc_object object version) (fun r => match r with
    | Some info => exists h, reloc_layout info h /\ oi_object info = object /\ oi_version info = version
    | None => True end).
Proof.
  intros Hb Hu Hl Hv. unfold validate_reloc_object. set (size := Z.of_nat (length object)) in *.
  set (h := if zo_version_has_sections version then ZOBJECT_V5_HEADER_SIZE else ZOBJECT_V4_HEADER_SIZE).
  assert (Hh : h = 36 \/ h = 32) by (unfold h; destruct (zo_version_has_sections version); auto).
  pose proof (symbol_record_size version Hv) as Hs. pose proof (relocation_record_size version) as Hr.
  destruct (Z.ltb_spec size h); [done|].
  eapply gives_bind; [apply (gives_read_u32 object 8 Hb); fold size; lia|]. intros image_size H1.
  eapply gives_bind; [apply (gives_read_u32 object 12 Hb); fold size; lia|]. intros symbol_count H2.
  eapply gives_bind; [apply (gives_read_u32 object 16 Hb); fold size; lia|]. intros reloc_count H3.
  eapply gives_bind; [apply (gives_read_u32 object 20 Hb); fold size; lia|]. intros entry_offset H4.
  apply (gives_bind _ _ is_u32); [destruct (zo_version_has_sections version); [apply (gives_read_u32 object 24 Hb); fold size; lia|cbn; cint]|]. intros section_count H5.
  destruct ((ZOBJECT_MAX_SYMBOLS <? symbol_count) || _ || _ || _) eqn:E1; [done|]. bool_prop.
  set (srs := zo_symbol_record_size_for_version version) in *. set (rrs := zo_relocation_record_size_for_version version) in *.
  unfold ZOBJECT_MAX_SYMBOLS, ZOBJECT_MAX_RELOCATIONS, ZOBJECT_MAX_SECTIONS, is_u32 in *. change ZOBJECT_SECTION_RECORD_SIZE with 28.
  rewrite (u32_small (symbol_count * srs)), (u32_small (reloc_count * rrs)), (u32_small (section_count * 28)) by (unfold is_u32; nia).
  destruct (_ || _) eqn:E2; [done|]. bool_prop.
  rewrite (u32_small (size - symbol_count * srs)) in * by (unfold is_u32; nia).
  rewrite (u32_small (size - symbol_count * srs - reloc_count * rrs)) in * by (unfold is_u32; nia).
  rewrite (u32_small (size - symbol_count * srs - reloc_count * rrs - section_count * 28)) in * by (unfold is_u32; nia).
  rewrite (u32_small (h + symbol_count * srs + reloc_count * rrs + section_count * 28)) by (unfold is_u32; nia).
  destruct (_ <? image_size) eqn:E3; [done|]. bool_prop.
  rewrite (u32_small (size - _)) in * by (unfold is_u32; nia).
  cbn [gives]. exists h. split; [|done].
  constructor; cbn; fold size srs rrs; unfold ZOBJECT_MAX_SYMBOLS, ZOBJECT_MAX_RELOCATIONS, ZOBJECT_MAX_SECTIONS; change ZOBJECT_SECTION_RECORD_SIZE with 28; (done || lia).
Qed.

Section layout.
Context {info : zo_object_info_t} {h : Z} (HL : reloc_layout info h).

Lemma layout_nonneg : 32 <= oi_symbols info /\ 32 <= oi_relocations info /\ 32 <= oi_sections info /\ 32 <= oi_image_offset info.
Proof.
  destruct HL as [_ Hv Hh Hs Hr Hc _ Hss Hrr Hcc Hi _]. pose proof (symbol_record_size _ Hv). pose proof (relocation_record_size (oi_version info)).
  assert (32 <= h) by (rewrite Hh; destruct (zo_version_has_sections (oi_version info)); done). change ZOBJECT_SECTION_RECORD_SIZE with 28 in *. nia.
Qed.

Lemma pointer_length i : 0 <= i <= Z.of_nat (length (oi_object info)) -> Z.of_nat (length (pointer (oi_object info) i)) = Z.of_nat (length (oi_object info)) - i.
Proof. intros Hi. unfold pointer. rewrite length_drop. lia. Qed.

(** A record of the table of symbols lies before the image. *)
Lemma symbol_record_end j : 0 <= j < oi_symbol_count info ->
  oi_symbols info + j * zo_symbol_record_size_for_version (oi_version info) + zo_symbol_record_size_for_version (oi_version info) <= oi_relocations info.
Proof. intros Hj. rewrite (rl_relocations _ _ HL). pose proof (symbol_record_size _ (rl_version _ _ HL)). nia. Qed.

Lemma relocation_record_end j : 0 <= j < oi_reloc_count info ->
  oi_relocations info + j * zo_relocation_record_size_for_version (oi_version info) + zo_relocation_record_size_for_version (oi_version info) <= oi_sections info.
Proof. intros Hj. rewrite (rl_sections _ _ HL). pose proof (relocation_record_size (oi_version info)). nia. Qed.

Lemma section_record_end j : 0 <= j < oi_section_count info -> oi_sections info + j * 28 + 28 <= oi_image_offset info.
Proof. intros Hj. rewrite (rl_image _ _ HL). change ZOBJECT_SECTION_RECORD_SIZE with 28. lia. Qed.

Lemma tables_inside : oi_relocations info <= Z.of_nat (length (oi_object info)) /\ oi_sections info <= Z.of_nat (length (oi_object info)) /\ oi_image_offset info <= Z.of_nat (length (oi_object info)).
Proof.
  destruct HL as [_ Hv Hh Hs Hr Hc He Hss Hrr Hcc Hi Hend]. pose proof (symbol_record_size _ Hv). pose proof (relocation_record_size (oi_version info)).
  change ZOBJECT_SECTION_RECORD_SIZE with 28 in *. nia.
Qed.

Definition symbol_type (t : Z) : Prop := t = ZOBJECT_SYMBOL_EXPORT \/ t = ZOBJECT_SYMBOL_EXTERN.

Lemma symbol_at_gives j : 0 <= j < oi_symbol_count info ->
  gives (zo_symbol_at info j) (fun r => match r with Some (type, name) => symbol_type type | None => True end).
Proof.
  intros Hj. unfold zo_symbol_at. rewrite (proj2 (Z.leb_gt _ _)) by lia. rewrite (rl_version _ _ HL).
  pose proof (symbol_record_end j Hj). pose proof (symbol_record_size _ (rl_version _ _ HL)). pose proof layout_nonneg. pose proof tables_inside.
  set (rs := zo_symbol_record_size_for_version (oi_version info)) in *. set (record := oi_symbols info + j * rs) in *. assert (0 <= record) by (unfold record; nia).
  eapply gives_bind; [apply gives_read_u32; [apply (rl_bytes _ _ HL)|lia|lia]|]. intros type Ht.
  destruct (negb (type =? ZOBJECT_SYMBOL_EXPORT) && negb (type =? ZOBJECT_SYMBOL_EXTERN)) eqn:Et; [done|].
  eapply gives_bind; [apply gives_rd8; [apply Forall_drop, (rl_bytes _ _ HL)|rewrite pointer_length; lia]|]. intros c _. destruct (c =? 0); [done|]. cbn.
  unfold symbol_type. destruct (Z.eqb_spec type ZOBJECT_SYMBOL_EXPORT); [by left|]. destruct (Z.eqb_spec type ZOBJECT_SYMBOL_EXTERN); [by right|done].
Qed.

Lemma symbol_value_at_gives j : 0 <= j < oi_symbol_count info -> gives (zo_symbol_value_at info j) (fun r => match r with Some v => is_u64 v | None => False end).
Proof.
  intros Hj. unfold zo_symbol_value_at. rewrite (proj2 (Z.leb_gt _ _)) by lia. rewrite (rl_version _ _ HL). cbn [negb].
  pose proof (symbol_record_end j Hj). pose proof (symbol_record_size _ (rl_version _ _ HL)). pose proof layout_nonneg. pose proof tables_inside.
  eapply gives_bind; [apply gives_read_u64; [apply (rl_bytes _ _ HL)|nia|nia]|]. done.
Qed.

Definition relocation_type (t : Z) : Prop := t = ZOBJECT_RELOC_ABS64 \/ t = ZOBJECT_RELOC_RELATIVE64 \/ t = ZOBJECT_RELOC_RIP32.

(** The bytes a relocation patches. *)
Definition field_size (t : Z) : Z := if t =? ZOBJECT_RELOC_RIP32 then 4 else 8.

Lemma relocation_at_gives j : 0 <= j < oi_reloc_count info ->
  gives (zo_relocation_at info j) (fun r => match r with
    | Some (type, offset, name) => relocation_type type /\ 0 <= offset /\ offset + field_size type <= oi_image_size info /\ (1 <= length name)%nat
    | None => True end).
Proof.
  intros Hj. unfold zo_relocation_at. rewrite (rl_version _ _ HL). rewrite (proj2 (Z.leb_gt _ _)) by lia. cbn [negb orb].
  pose proof (relocation_record_end j Hj). pose proof (relocation_record_size (oi_version info)). pose proof layout_nonneg. pose proof tables_inside.
  set (rs := zo_relocation_record_size_for_version (oi_version info)) in *. set (record := oi_relocations info + j * rs) in *. assert (0 <= record) by (unfold record; nia).
  eapply gives_bind; [apply gives_read_u32; [apply (rl_bytes _ _ HL)|lia|lia]|]. intros type Ht.
  eapply gives_bind; [apply gives_read_u32; [apply (rl_bytes _ _ HL)|lia|lia]|]. intros offset Ho. unfold is_u32 in Ho.
  destruct (negb _ && _ && _) eqn:Et; [done|]. destruct (_ || _) eqn:Es; [done|]. bool_prop. cbn [gives]. unfold field_size. split; [|split; [lia|split; [lia|]]].
  - unfold relocation_type. destruct (Z.eqb_spec type ZOBJECT_RELOC_ABS64); [by left|]. destruct (Z.eqb_spec type ZOBJECT_RELOC_RELATIVE64); [by right; left|].
    destruct (Z.eqb_spec type ZOBJECT_RELOC_RIP32); [by right; right|done].
  - pose proof (pointer_length (record + 8)). lia.
Qed.

(** The sections a link may use. *)
Record section_ok (s : zo_section_t) : Prop := SectionOk {
  so_type : sec_type s = ZOBJECT_SECTION_TEXT \/ sec_type s = ZOBJECT_SECTION_DATA \/ sec_type s = ZOBJECT_SECTION_BSS;
  so_file : 0 <= sec_file_offset s /\ 0 <= sec_file_size s /\ sec_file_offset s + sec_file_size s <= oi_image_size info;
  so_mem : sec_file_size s <= sec_mem_size s;
  so_load : 0 <= sec_load_offset s <= oi_image_size info /\ sec_load_offset s + sec_mem_size s < 4294967296
}.

Lemma section_at_gives j : 0 <= j < oi_section_count info ->
  gives (zo_section_at info j) (fun r => match r with Some s => section_ok s | None => True end).
Proof.
  intros Hj. unfold zo_section_at. rewrite (proj2 (Z.leb_gt _ _)) by lia. pose proof (section_record_end j Hj). pose proof layout_nonneg. pose proof tables_inside.
  change ZOBJECT_SECTION_RECORD_SIZE with 28. set (record := oi_sections info + j * 28) in *. assert (0 <= record) by (unfold record; lia). pose proof (rl_bytes _ _ HL) as Hb.
  eapply gives_bind; [apply gives_read_u32; [done|lia|lia]|]. intros type Ht.
  do 4 (eapply gives_bind; [apply gives_read_u32; [done|lia|lia]|]; intros ? ?).
  eapply gives_bind; [apply gives_rd_block; [done|lia|done|change ZOBJECT_SECTION_NAME_SIZE with 8; lia]|]. intros name _.
  destruct (negb _ && _ && _) eqn:Et; [done|]. destruct (_ || _) eqn:Es; [done|]. destruct (_ || _) eqn:Es2 in |- *; [done|]. bool_prop. unfold is_u32 in *. cbn [gives].
  constructor; cbn; [|lia|lia|lia].
  destruct (Z.eqb_spec type ZOBJECT_SECTION_TEXT); [auto|]. destruct (Z.eqb_spec type ZOBJECT_SECTION_DATA); [auto|]. destruct (Z.eqb_spec type ZOBJECT_SECTION_BSS); [auto|done].
Qed.
End layout.
#[global] Arguments section_ok : clear implicits.
