(* ===== verification/ZLink.v ===== *)
(** The linker of Z objects: kernel/z/zobject.c, lines 87-91, 137-151 and
    206-230 (work buffers, the last error, emitting text), 905-1014 (symbols)
    and 1016-1590 (linking).

    [linker] is what the functions change: the output buffer of the caller,
    the last error, the exports handed to the caller, the text put together
    for objects that hold assembler source, and the memory behind kmalloc.
    The capacity of the output buffer is the length of its list. *)
From Stdlib Require Import ZArith Lia String.
From stdpp Require Import base tactics option list numbers.
From S2P Require Import Prelude.
From S2P Require Import Buffer.
From S2P Require Import KernelExports.
From S2P Require Import ZObject.
#[local] Open Scope Z_scope.

Record zobject_resolved_symbol_t : Type := ResolvedSymbol { rs_name : list Z; rs_value : Z }.

(** ** The assembler, as the functions of this file use it *)

Record assembler_relocation_t : Type := AssemblerRelocation { ar_offset : Z; ar_type : Z; ar_name : list Z }.

Record asm_result : Type := AsmResult {
  as_code : Z;
  as_out : list Z;
  as_size : Z;
  as_error_line : Z;
  as_values : list Z;
  as_relocations : list assembler_relocation_t
}.

(** assembler_assemble_source_ex_relocs on a source, a buffer, a base address,
    external symbols, the names whose values are asked for, and the capacity of
    the table of relocations, if there is one;
    assembler_measure_source_ex_symbols: code, size, line of the error. *)
Class Assembler := {
  assemble_source_ex_relocs : list Z -> list Z -> Z -> list (list Z * Z) -> list (list Z) -> option Z -> asm_result;
  measure_source_ex_symbols : list Z -> list (list Z * Z) -> Z * Z * Z
}.

(** kmalloc, by what it grants. *)
Class ZMemory (E : Type) := { zo_kmalloc : Z -> E -> bool * E }.

Record linker (E : Type) : Type := Linker {
  lk_out : list Z;
  lk_reason : list Z;
  lk_symbol : list Z;
  lk_exported : option (list zobject_resolved_symbol_t);
  lk_error_line : Z;
  lk_link_asm : list Z;
  lk_have_asm : bool;
  lk_have_image : bool;
  lk_env : E
}.
#[global] Arguments Linker {E} _ _ _ _ _ _ _ _ _.
#[global] Arguments lk_out {E} _.
#[global] Arguments lk_reason {E} _.
#[global] Arguments lk_symbol {E} _.
#[global] Arguments lk_exported {E} _.
#[global] Arguments lk_error_line {E} _.
#[global] Arguments lk_link_asm {E} _.
#[global] Arguments lk_have_asm {E} _.
#[global] Arguments lk_have_image {E} _.
#[global] Arguments lk_env {E} _.

Section linker.
Context {E : Type} {ZM : ZMemory E} {KS : KernelSymbols} {AS : Assembler}.
Implicit Types l : linker E.

Definition set_lk_out (out : list Z) l : linker E :=
  Linker out (lk_reason l) (lk_symbol l) (lk_exported l) (lk_error_line l) (lk_link_asm l) (lk_have_asm l) (lk_have_image l) (lk_env l).
Definition set_lk_error (reason symbol : list Z) l : linker E :=
  Linker (lk_out l) reason symbol (lk_exported l) (lk_error_line l) (lk_link_asm l) (lk_have_asm l) (lk_have_image l) (lk_env l).
Definition set_lk_exported (exported : option (list zobject_resolved_symbol_t)) l : linker E :=
  Linker (lk_out l) (lk_reason l) (lk_symbol l) exported (lk_error_line l) (lk_link_asm l) (lk_have_asm l) (lk_have_image l) (lk_env l).
Definition set_lk_error_line (line : Z) l : linker E :=
  Linker (lk_out l) (lk_reason l) (lk_symbol l) (lk_exported l) line (lk_link_asm l) (lk_have_asm l) (lk_have_image l) (lk_env l).
Definition set_lk_link_asm (text : list Z) l : linker E :=
  Linker (lk_out l) (lk_reason l) (lk_symbol l) (lk_exported l) (lk_error_line l) text (lk_have_asm l) (lk_have_image l) (lk_env l).
Definition set_lk_buffers (have_asm have_image : bool) (e : E) l : linker E :=
  Linker (lk_out l) (lk_reason l) (lk_symbol l) (lk_exported l) (lk_error_line l) (lk_link_asm l) have_asm have_image e.

(** A write to the output buffer. *)
Definition store (w : list Z -> option (list Z)) : C (linker E) unit := fun l => out ← w (lk_out l); Some (inr tt, set_lk_out out l).
Definition out_capacity l : Z := Z.of_nat (length (lk_out l)).

(** ** Work buffers and the last error *)

Definition zo_ensure_work_buffers : C (linker E) unit := fun l =>
  let '(have_asm, e) := if lk_have_asm l then (true, lk_env l) else zo_kmalloc ZOBJECT_LINK_ASM_SIZE (lk_env l) in
  if negb have_asm then Some (inl (-1), set_lk_buffers false (lk_have_image l) e l)
  else
    let '(have_image, e) := if lk_have_image l then (true, e) else zo_kmalloc ZOBJECT_LINK_ASM_SIZE e in
    if negb have_image then Some (inl (-1), set_lk_buffers true false e l)
    else Some (inr tt, set_lk_buffers true true e l).

Definition zo_clear_last_error : C (linker E) unit := change (set_lk_error [0] [0]).

Definition zo_set_last_error (reason symbol : option (list Z)) : C (linker E) unit :=
  r ← chk (zo_copy_name 64 (default (c_name "link failed") reason));
  s ← chk (zo_copy_name ZOBJECT_SYMBOL_NAME_SIZE (default [0] symbol));
  change (set_lk_error r s).

Definition zobject_last_error_reason l : list Z := lk_reason l.
Definition zobject_last_error_symbol l : list Z := lk_symbol l.

(** [zo_set_last_error(reason, name); return -1;] *)
Definition link_error {A} (reason : string) (name : list Z) : C (linker E) A :=
  _ ← zo_set_last_error (Some (c_name reason)) (Some name); stop (-1).

(** ** Symbols *)

Fixpoint find_resolved (symbols : list zobject_resolved_symbol_t) (name : list Z) : option (option Z) :=
  match symbols with
  | [] => Some None
  | s :: symbols' => eq ← zo_streq (rs_name s) name; if eq : bool then Some (Some (rs_value s)) else find_resolved symbols' name
  end.

(** Whether an object exports a name: 1, 0, or -1 for a bad symbol. *)
Fixpoint symbols_export (info : zo_object_info_t) (js : list Z) (name : list Z) : option Z :=
  match js with
  | [] => Some 0
  | j :: js' =>
      sym ← zo_symbol_at info j;
      match sym with
      | None => Some (-1)
      | Some (type, symbol_name) =>
          if type =? ZOBJECT_SYMBOL_EXPORT then
            eq ← zo_streq symbol_name name;
            if eq : bool then Some 1 else symbols_export info js' name
          else symbols_export info js' name
      end
  end.

(** The result and the owner. *)
Fixpoint objects_export (i : Z) (infos : list zo_object_info_t) (name : list Z) : option (Z * Z) :=
  match infos with
  | [] => Some (0, 0)
  | info :: infos' =>
      r ← symbols_export info (below (oi_symbol_count info)) name;
      if r <? 0 then Some (-1, 0) else if 0 <? r then Some (1, i) else objects_export (i + 1) infos' name
  end.

Definition zo_export_exists (infos : list zo_object_info_t) (externals : list zobject_resolved_symbol_t) (name : list Z) : option (Z * Z) :=
  ext ← find_resolved externals name;
  match ext with Some _ => Some (1, ZOBJECT_MAX_OBJECTS) | None => objects_export 0 infos name end.

Definition check_symbol (infos : list zo_object_info_t) (externals : list zobject_resolved_symbol_t) (i : Z) (info : zo_object_info_t) (j : Z) : C (linker E) unit :=
  sym ← chk (zo_symbol_at info j);
  '(type, name) ← some_or sym (-1);
  if type =? ZOBJECT_SYMBOL_EXPORT then
    '(found, owner) ← chk (zo_export_exists infos externals name);
    if found <? 0 then link_error "bad symbol table" name
    else if (0 <? found) && negb (owner =? i) then link_error "duplicate export" name
    else
      kernel_value ← chk (kernel_export_value name);
      match kernel_value with Some _ => link_error "export conflicts with kernel" name | None => mret tt end
  else if type =? ZOBJECT_SYMBOL_EXTERN then
    '(found, _) ← chk (zo_export_exists infos externals name);
    if found <=? 0 then
      kernel_value ← chk (kernel_export_value name);
      match kernel_value with None => link_error "unresolved external" name | Some _ => mret tt end
    else mret tt
  else mret tt.

(** The objects with their numbers. *)
Definition numbered {A} (l : list A) : list (Z * A) := zip (below (Z.of_nat (length l))) l.

Definition zo_validate_link_symbols (infos : list zo_object_info_t) (externals : list zobject_resolved_symbol_t) : C (linker E) unit :=
  each (numbered infos) (fun '(i, info) => each (below (oi_symbol_count info)) (check_symbol infos externals i info)).

Definition zo_resolve_link_symbol (exports externals : list zobject_resolved_symbol_t) (name : list Z) : option (option Z) :=
  local ← find_resolved exports name;
  match local with
  | Some v => Some (Some v)
  | None =>
      ext ← find_resolved externals name;
      match ext with Some v => Some (Some v) | None => kernel_export_value name end
  end.

Definition zo_align_up_u32 (value alignment : Z) : Z := Z.land (u32 (value + alignment - 1)) (u32 (Z.lnot (alignment - 1))).

(** ** Objects with sections *)

(** An object with its sections and their places. *)
Definition placed_object : Type := zo_object_info_t * list (zo_section_t * Z).

Fixpoint read_sections (info : zo_object_info_t) (js : list Z) : C (linker E) (list (zo_section_t * Z)) :=
  match js with
  | [] => mret []
  | j :: js' =>
      sec ← chk (zo_section_at info j);
      section ← some_or sec (-1);
      rest ← read_sections info js';
      mret ((section, 0) :: rest)
  end.

Fixpoint read_objects (infos : list zo_object_info_t) : C (linker E) (list placed_object) :=
  match infos with
  | [] => mret []
  | info :: infos' =>
      _ ← need (negb (oi_section_count info =? 0)) (-1);
      sections ← read_sections info (below (oi_section_count info));
      rest ← read_objects infos';
      mret ((info, sections) :: rest)
  end.

(** [n] zeros from [offset] on. *)
Definition store_zeros (offset n : Z) : C (linker E) unit := store (fun out => wr_block out offset (replicate (Z.to_nat n) 0)).

(** The new place of the section, and the end of the output. *)
Definition place_section (info : zo_object_info_t) (section_type : Z) (placed : zo_section_t * Z) (output_offset : Z) : C (linker E) (Z * Z) :=
  let '(section, section_offset) := placed in
  if negb (sec_type section =? section_type) || (sec_mem_size section =? 0) then mret (section_offset, output_offset)
  else
    capacity ← look out_capacity;
    let aligned_offset := zo_align_up_u32 output_offset 16 in
    _ ← need (negb (capacity <? aligned_offset)) (-1);
    _ ← store_zeros output_offset (aligned_offset - output_offset);
    let output_offset := Z.max output_offset aligned_offset in
    _ ← need (negb ((capacity <? sec_mem_size section) || (capacity - sec_mem_size section <? output_offset))) (-1);
    _ ← store_zeros output_offset (sec_mem_size section);
    data ← chk (rd_block (oi_object info) (oi_image_offset info + sec_file_offset section) (sec_file_size section));
    _ ← store (fun out => wr_block out output_offset data);
    mret (output_offset, u32 (output_offset + sec_mem_size section)).

Fixpoint place_sections (info : zo_object_info_t) (section_type : Z) (sections : list (zo_section_t * Z)) (output_offset : Z) : C (linker E) (list (zo_section_t * Z) * Z) :=
  match sections with
  | [] => mret ([], output_offset)
  | placed :: sections' =>
      '(section_offset, output_offset) ← place_section info section_type placed output_offset;
      '(rest, output_offset) ← place_sections info section_type sections' output_offset;
      mret ((placed.1, section_offset) :: rest, output_offset)
  end.

Fixpoint place_objects (section_type : Z) (objects : list placed_object) (output_offset : Z) : C (linker E) (list placed_object * Z) :=
  match objects with
  | [] => mret ([], output_offset)
  | (info, sections) :: objects' =>
      '(sections, output_offset) ← place_sections info section_type sections output_offset;
      '(rest, output_offset) ← place_objects section_type objects' output_offset;
      mret ((info, sections) :: rest, output_offset)
  end.

Fixpoint place_types (types : list Z) (objects : list placed_object) (output_offset : Z) : C (linker E) (list placed_object * Z) :=
  match types with
  | [] => mret (objects, output_offset)
  | section_type :: types' =>
      '(objects, output_offset) ← place_objects section_type objects output_offset;
      place_types types' objects output_offset
  end.

(** [-2147483648 <= x <= 2147483647]. *)
Definition fits_rel32 (x : Z) : bool := (-2147483648 <=? x) && (x <=? 2147483647).

(** A call of rel32 at [call_offset]. *)
Definition store_call (base_address call_offset target : Z) : C (linker E) unit :=
  let diff := s64 (base_address + target) - s64 (base_address + (call_offset + 5)) in
  _ ← need (fits_rel32 diff) (-1);
  _ ← store (fun out => wr8 out call_offset 0xE8);
  store (fun out => zo_write_u32 out (call_offset + 1) (u32 diff)).

Definition write_entry (base_address entry_start_index : Z) (numbered_object : Z * placed_object) : C (linker E) unit :=
  let '(i, (info, sections)) := numbered_object in
  let call_offset := i * 5 in
  if i <? entry_start_index then store (fun out => wr_block out call_offset [0x90; 0x90; 0x90; 0x90; 0x90])
  else
    mapped_entry ← some_or (zo_map_section_offset sections (oi_entry_offset info)) (-1);
    store_call base_address call_offset mapped_entry.

(** The exports of an object, behind those found so far; exports outside all
    sections are left out. *)
Fixpoint collect_exports (base_address : Z) (object : placed_object) (js : list Z) (exports : list zobject_resolved_symbol_t) : C (linker E) (list zobject_resolved_symbol_t) :=
  match js with
  | [] => mret exports
  | j :: js' =>
      let '(info, sections) := object in
      sym ← chk (zo_symbol_at info j);
      '(type, name) ← some_or sym (-1);
      val ← chk (zo_symbol_value_at info j);
      value ← some_or val (-1);
      if negb (type =? ZOBJECT_SYMBOL_EXPORT) then collect_exports base_address object js' exports
      else if ZOBJECT_MAX_RESOLVED_SYMBOLS <=? Z.of_nat (length exports) then link_error "too many exports" name
      else
        match zo_map_section_offset sections value with
        | None => collect_exports base_address object js' exports
        | Some mapped_value =>
            export_name ← chk (zo_copy_name ZOBJECT_SYMBOL_NAME_SIZE name);
            collect_exports base_address object js' (exports ++ [ResolvedSymbol export_name (u64 (base_address + mapped_value))])
        end
  end.

Fixpoint collect_all_exports (base_address : Z) (objects : list placed_object) (exports : list zobject_resolved_symbol_t) : C (linker E) (list zobject_resolved_symbol_t) :=
  match objects with
  | [] => mret exports
  | object :: objects' =>
      exports ← collect_exports base_address object (below (oi_symbol_count object.1)) exports;
      collect_all_exports base_address objects' exports
  end.

(** Handing the exports to the caller, who asks for them with a capacity. *)
Definition hand_out_exports (asked : option Z) (exports : list zobject_resolved_symbol_t) : C (linker E) unit :=
  match asked with
  | None => mret tt
  | Some capacity =>
      _ ← need (Z.of_nat (length exports) <=? capacity) (-1);
      change (set_lk_exported (Some exports))
  end.

Definition read_out_u32 (offset : Z) : C (linker E) Z := out ← look lk_out; chk (zo_read_u32 out offset).
Definition read_out_u64 (offset : Z) : C (linker E) Z := out ← look lk_out; chk (zo_read_u64 out offset).

(** A name is given when its first character is not the terminator. *)
Definition has_name (name : list Z) : option bool := c ← rd8 name 0; Some (negb (c =? 0)).

Definition relocate_relative64 (base_address : Z) (sections : list (zo_section_t * Z)) (patch_offset : Z) : C (linker E) unit :=
  original ← read_out_u64 patch_offset;
  mapped_value ← some_or (zo_map_section_offset sections original) (-1);
  store (fun out => zo_write_u64 out patch_offset (u64 (base_address + mapped_value))).

Definition relocate_rip32 (base_address : Z) (exports externals : list zobject_resolved_symbol_t) (sections : list (zo_section_t * Z))
    (reloc_offset patch_offset : Z) (name : list Z) : C (linker E) unit :=
  old ← read_out_u32 patch_offset;
  let old_disp := s32 old in
  let original_target := reloc_offset + 4 + old_disp in
  named ← chk (has_name name);
  new_disp ← (if named : bool then
      v ← chk (zo_resolve_link_symbol exports externals name);
      match v with
      | None => link_error "unresolved relocation" name
      | Some value => mret (s64 value + old_disp - s64 (base_address + patch_offset))
      end
    else
      _ ← need (negb (original_target <? 0)) (-1);
      mapped_target ← some_or (zo_map_section_offset sections original_target) (-1);
      mret (mapped_target - u32 (patch_offset + 4)));
  if negb (fits_rel32 new_disp) then link_error "rip relocation out of range" name
  else store (fun out => zo_write_u32 out patch_offset (u32 new_disp)).

Definition relocate_abs64 (exports externals : list zobject_resolved_symbol_t) (patch_offset : Z) (name : list Z) : C (linker E) unit :=
  named ← chk (has_name name);
  addend ← (if named : bool then read_out_u64 patch_offset else mret 0);
  v ← chk (zo_resolve_link_symbol exports externals name);
  match v with
  | None => link_error "unresolved relocation" name
  | Some value => store (fun out => zo_write_u64 out patch_offset (u64 (s64 value + s64 addend)))
  end.

Definition apply_relocation (base_address : Z) (exports externals : list zobject_resolved_symbol_t) (object : placed_object) (j : Z) : C (linker E) unit :=
  let '(info, sections) := object in
  rel ← chk (zo_relocation_at info j);
  '(type, reloc_offset, name) ← some_or rel (-1);
  patch_offset ← some_or (zo_map_section_offset sections reloc_offset) (-1);
  if type =? ZOBJECT_RELOC_RELATIVE64 then relocate_relative64 base_address sections patch_offset
  else if type =? ZOBJECT_RELOC_RIP32 then relocate_rip32 base_address exports externals sections reloc_offset patch_offset name
  else relocate_abs64 exports externals patch_offset name.

(** The size of the output. *)
Definition link_sections (base_address : Z) (infos : list zo_object_info_t) (externals : list zobject_resolved_symbol_t) (asked : option Z) (entry_start_index : Z) : C (linker E) Z :=
  let count := Z.of_nat (length infos) in
  objects ← read_objects infos;
  '(objects, output_offset) ← place_types [ZOBJECT_SECTION_TEXT; ZOBJECT_SECTION_DATA; ZOBJECT_SECTION_BSS] objects (u32 (count * 5 + 1));
  _ ← each (numbered objects) (write_entry base_address entry_start_index);
  _ ← store (fun out => wr8 out (count * 5) 0xC3);
  exports ← collect_all_exports base_address objects [];
  _ ← hand_out_exports asked exports;
  _ ← each objects (fun object => each (below (oi_reloc_count object.1)) (apply_relocation base_address exports externals object));
  mret output_offset.

(** ** Objects with relocations only (version 4) *)

(** The objects with the places of their images, and the end of the output. *)
Fixpoint place_images (infos : list zo_object_info_t) (output_offset : Z) : C (linker E) (list (zo_object_info_t * Z) * Z) :=
  match infos with
  | [] => mret ([], output_offset)
  | info :: infos' =>
      capacity ← look out_capacity;
      let image_offset := zo_align_up_u32 output_offset 16 in
      _ ← need (negb ((capacity <? oi_image_size info) || (capacity - oi_image_size info <? image_offset))) (-1);
      '(rest, output_offset) ← place_images infos' (u32 (image_offset + oi_image_size info));
      mret ((info, image_offset) :: rest, output_offset)
  end.

Definition write_entry_v4 (base_address : Z) (numbered_object : Z * (zo_object_info_t * Z)) : C (linker E) unit :=
  let '(i, (info, image_offset)) := numbered_object in
  store_call base_address (i * 5) (image_offset + oi_entry_offset info).

Definition copy_image (object : zo_object_info_t * Z) : C (linker E) unit :=
  let '(info, image_offset) := object in
  data ← chk (rd_block (oi_object info) (oi_image_offset info) (oi_image_size info));
  store (fun out => wr_block out image_offset data).

Fixpoint collect_exports_v4 (base_address : Z) (object : zo_object_info_t * Z) (js : list Z) (exports : list zobject_resolved_symbol_t) : C (linker E) (list zobject_resolved_symbol_t) :=
  match js with
  | [] => mret exports
  | j :: js' =>
      let '(info, image_offset) := object in
      sym ← chk (zo_symbol_at info j);
      match sym with
      | None => link_error "bad symbol" [0]
      | Some (type, name) =>
          val ← chk (zo_symbol_value_at info j);
          match val with
          | None => link_error "bad symbol" [0]
          | Some value =>
              if negb (type =? ZOBJECT_SYMBOL_EXPORT) then collect_exports_v4 base_address object js' exports
              else
                _ ← need (Z.of_nat (length exports) <? ZOBJECT_MAX_RESOLVED_SYMBOLS) (-1);
                export_name ← chk (zo_copy_name ZOBJECT_SYMBOL_NAME_SIZE name);
                collect_exports_v4 base_address object js' (exports ++ [ResolvedSymbol export_name (u64 (base_address + image_offset + value))])
          end
      end
  end.

Fixpoint collect_all_exports_v4 (base_address : Z) (objects : list (zo_object_info_t * Z)) (exports : list zobject_resolved_symbol_t) : C (linker E) (list zobject_resolved_symbol_t) :=
  match objects with
  | [] => mret exports
  | object :: objects' =>
      exports ← collect_exports_v4 base_address object (below (oi_symbol_count object.1)) exports;
      collect_all_exports_v4 base_address objects' exports
  end.

Definition apply_relocation_v4 (base_address : Z) (exports externals : list zobject_resolved_symbol_t) (object : zo_object_info_t * Z) (j : Z) : C (linker E) unit :=
  let '(info, image_offset) := object in
  rel ← chk (zo_relocation_at info j);
  '(type, reloc_offset, name) ← some_or rel (-1);
  let patch_offset := image_offset + reloc_offset in
  value ← (if type =? ZOBJECT_RELOC_RELATIVE64 then
      old ← read_out_u64 patch_offset; mret (u64 (base_address + image_offset + old))
    else
      v ← chk (zo_resolve_link_symbol exports externals name);
      some_or v (-1));
  store (fun out => zo_write_u64 out patch_offset value).

Definition link_images (base_address : Z) (infos : list zo_object_info_t) (externals : list zobject_resolved_symbol_t) (asked : option Z) : C (linker E) Z :=
  let count := Z.of_nat (length infos) in
  '(objects, output_offset) ← place_images infos (u32 (count * 5 + 1));
  _ ← each (numbered objects) (write_entry_v4 base_address);
  _ ← store (fun out => wr8 out (count * 5) 0xC3);
  _ ← store_zeros (count * 5 + 1) (output_offset - (count * 5 + 1));
  _ ← each objects copy_image;
  exports ← collect_all_exports_v4 base_address objects [];
  _ ← hand_out_exports asked exports;
  _ ← each objects (fun object => each (below (oi_reloc_count object.1)) (apply_relocation_v4 base_address exports externals object));
  mret output_offset.

(** ** Objects that hold assembler source *)

Definition zo_emit_char (ch : Z) : C (linker E) unit := fun l =>
  if ZOBJECT_LINK_ASM_SIZE <=? Z.of_nat (length (lk_link_asm l)) then Some (inl (-1), l)
  else Some (inr tt, set_lk_link_asm (lk_link_asm l ++ [ch]) l).

(** [text] points to a string. *)
Fixpoint zo_emit_text (text : list Z) : C (linker E) unit :=
  match text with
  | [] => chk None
  | c :: text' => if c =? 0 then mret tt else _ ← zo_emit_char c; zo_emit_text text'
  end.

Definition zo_append_bytes (bytes : list Z) : C (linker E) unit := each bytes zo_emit_char.

(** A string that is handed to the assembler. *)
Fixpoint c_string (p : list Z) : option (list Z) :=
  match p with [] => None | c :: p' => if c =? 0 then Some [] else r ← c_string p'; Some (c :: r) end.

(** The names of the exports, behind those found so far. *)
Fixpoint collect_names (info : zo_object_info_t) (js : list Z) (names : list (list Z)) : C (linker E) (list (list Z)) :=
  match js with
  | [] => mret names
  | j :: js' =>
      sym ← chk (zo_symbol_at info j);
      '(type, name) ← some_or sym (-1);
      if negb (type =? ZOBJECT_SYMBOL_EXPORT) then collect_names info js' names
      else
        _ ← need (Z.of_nat (length names) <? ZOBJECT_MAX_RESOLVED_SYMBOLS) (-1);
        collect_names info js' (names ++ [name])
  end.

Fixpoint collect_all_names (infos : list zo_object_info_t) (names : list (list Z)) : C (linker E) (list (list Z)) :=
  match infos with
  | [] => mret names
  | info :: infos' =>
      names ← collect_names info (below (oi_symbol_count info)) names;
      collect_all_names infos' names
  end.

(** The symbols handed to the caller. *)
Fixpoint named_values (names : list (list Z)) (values : list Z) : option (list zobject_resolved_symbol_t) :=
  match names, values with
  | name :: names', v :: values' =>
      n ← zo_copy_name ZOBJECT_SYMBOL_NAME_SIZE name; rest ← named_values names' values'; Some (ResolvedSymbol n v :: rest)
  | _, _ => Some []
  end.

Definition emit_entry (info : zo_object_info_t) : C (linker E) unit :=
  _ ← zo_emit_text (c_name "    call ");
  _ ← zo_emit_text (pointer (oi_object info) (oi_entry_label info));
  zo_emit_char 10.

Definition emit_source (info : zo_object_info_t) : C (linker E) unit :=
  source ← chk (rd_block (oi_object info) (oi_asm_offset info) (oi_asm_size info));
  _ ← zo_append_bytes source;
  zo_emit_char 10.

(** A newline behind a literal. *)
Definition c_line (s : string) : list Z := chars s ++ [10; 0].

Definition link_sources (base_address : Z) (infos : list zo_object_info_t) (externals : list zobject_resolved_symbol_t) (asked : option Z) : C (linker E) Z :=
  assembler_externals ← chk (mapM (fun s => n ← c_string (rs_name s); Some (n, rs_value s)) externals);
  _ ← change (set_lk_link_asm []);
  _ ← zo_emit_text (c_line "bits 64");
  _ ← zo_emit_text (c_line "default rel");
  _ ← zo_emit_text (c_line "section .text");
  _ ← zo_emit_text (c_line "start:");
  _ ← each infos emit_entry;
  _ ← zo_emit_text (c_line "    ret");
  _ ← each infos emit_source;
  names ← collect_all_names infos [];
  export_names ← chk (mapM c_string names);
  source ← look lk_link_asm;
  out ← look lk_out;
  let r := assemble_source_ex_relocs source out base_address assembler_externals export_names None in
  _ ← change (fun l => set_lk_out (as_out r) (set_lk_error_line (as_error_line r) l));
  _ ← need (as_code r =? 0) (-1);
  _ ← match asked with
      | None => mret tt
      | Some capacity =>
          _ ← need (Z.of_nat (length names) <=? capacity) (-1);
          exports ← chk (named_values names (as_values r));
          change (set_lk_exported (Some exports))
      end;
  mret (as_size r).

(** ** Linking *)

(** The three kinds of objects: with sections, with relocations, with source. *)
Definition kind_of (info : zo_object_info_t) : Z :=
  if zo_version_has_sections (oi_version info) then 1 else if oi_version info =? ZOBJECT_VERSION_RELOC then 2 else 3.

Fixpoint validate_objects (objects : list (option (list Z))) : C (linker E) (list zo_object_info_t) :=
  match objects with
  | [] => mret []
  | object :: objects' =>
      v ← chk (zo_validate_object object);
      info ← some_or v (-1);
      rest ← validate_objects objects';
      mret (info :: rest)
  end.

(** [objects] is [None] for a null pointer, [have_out] that the buffer is
    there; [externals] with the count the caller says, [exports_wanted] the
    capacity of the caller's table when it gives a place for the count
    ([Some None]: a place for the count but no table). The result is the size
    of the output. *)
Definition zobject_link_flat_many_ex_entry_from (objects : option (list (option (list Z)))) (have_out : bool) (base_address : Z)
    (externals : option (list zobject_resolved_symbol_t)) (external_symbol_count : Z) (exports_wanted : option (option Z)) (entry_start_index : Z) : C (linker E) Z :=
  _ ← zo_clear_last_error;
  objects ← match objects with
            | Some ((_ :: _) as objects) => if have_out then mret objects else link_error "bad linker arguments" [0]
            | _ => link_error "bad linker arguments" [0]
            end;
  _ ← (fun l => match zo_ensure_work_buffers l with
               | Some (inl _, l') => link_error "out of linker memory" [0] l'
               | r => r
               end);
  let object_count := Z.of_nat (length objects) in
  _ ← need (negb ((ZOBJECT_MAX_OBJECTS <? object_count) || (ZOBJECT_MAX_RESOLVED_SYMBOLS <? external_symbol_count) || (object_count <? entry_start_index) ||
             (negb (external_symbol_count =? 0) && match externals with None => true | _ => false end) ||
             match exports_wanted with Some None => true | _ => false end)) (-1);
  _ ← match exports_wanted with Some _ => change (set_lk_exported (Some [])) | None => mret tt end;
  let externals := take (Z.to_nat external_symbol_count) (default [] externals) in
  let asked := mjoin exports_wanted in
  infos ← validate_objects objects;
  let have_v5 := existsb (fun info => kind_of info =? 1) infos in
  let have_v4_reloc := existsb (fun info => kind_of info =? 2) infos in
  let have_legacy := existsb (fun info => kind_of info =? 3) infos in
  _ ← need (negb ((have_v5 && (have_v4_reloc || have_legacy)) || (have_v4_reloc && have_legacy))) (-1);
  _ ← zo_validate_link_symbols infos externals;
  if have_v5 then link_sections base_address infos externals asked entry_start_index
  else if have_v4_reloc then link_images base_address infos externals asked
  else link_sources base_address infos externals asked.

Definition zobject_link_flat_many_ex objects have_out base_address externals external_symbol_count exports_wanted : C (linker E) Z :=
  zobject_link_flat_many_ex_entry_from objects have_out base_address externals external_symbol_count exports_wanted 0.

Definition zobject_link_flat_many objects have_out base_address : C (linker E) Z :=
  zobject_link_flat_many_ex objects have_out base_address None 0 None.

Definition zobject_link_flat (object : option (list Z)) have_out base_address : C (linker E) Z :=
  zobject_link_flat_many (Some [object]) have_out base_address.
End linker.
