(* ===== verification/ZLayout.v ===== *)
(** Where the linker puts sections. [plan] computes the places without writing;
    place_objects of ZLink.v follows it and stores every section at its place. *)
From Stdlib Require Import ZArith Lia.
From stdpp Require Import base tactics option list numbers.
From S2P Require Import Prelude.
From S2P Require Import Buffer.
From S2P Require Import KernelExports.
From S2P Require Import ZObject.
From S2P Require Import ZObjectSpec.
From S2P Require Import ZLink.
#[local] Open Scope Z_scope.

(** ** Parts of a buffer *)

(** [bs] is in the buffer at [i]. *)
Definition holds (l : list Z) (i : Z) (bs : list Z) : Prop := 0 <= i /\ slice l i (Z.of_nat (length bs)) = bs.

(** Only the bytes from [i] up to [j] may differ. *)
Definition grown (i j : Z) (l l' : list Z) : Prop :=
  length l' = length l /\ take (Z.to_nat i) l' = take (Z.to_nat i) l /\ drop (Z.to_nat j) l' = drop (Z.to_nat j) l.

Lemma grown_refl i j l : grown i j l l.
Proof. done. Qed.

Lemma take_le_eq {A} (n m : nat) (l l' : list A) : (n <= m)%nat -> take m l' = take m l -> take n l' = take n l.
Proof. intros Hn H. apply (f_equal (take n)) in H. rewrite !take_take in H. by rewrite Nat.min_l in H by lia. Qed.

Lemma drop_le_eq {A} (n m : nat) (l l' : list A) : (n <= m)%nat -> drop n l' = drop n l -> drop m l' = drop m l.
Proof. intros Hn H. apply (f_equal (drop (m - n))) in H. rewrite !drop_drop in H. by replace (n + (m - n))%nat with m in H by lia. Qed.

Lemma grown_weaken i j i' j' l l' : i' <= i -> j <= j' -> grown i j l l' -> grown i' j' l l'.
Proof. intros Hi Hj (H1 & H2 & H3). split; [done|]. split; [eapply take_le_eq; [|done]; lia|eapply drop_le_eq; [|done]; lia]. Qed.

Lemma grown_trans i j l l' l'' : grown i j l l' -> grown i j l' l'' -> grown i j l l''.
Proof. intros (A1 & A2 & A3) (B1 & B2 & B3). repeat split; congruence. Qed.

Lemma grown_length i j l l' : grown i j l l' -> length l' = length l.
Proof. by intros (H & _). Qed.

(** What lies outside the part that changes is still there. *)
Lemma holds_grown i j l l' k bs : grown i j l l' -> holds l k bs -> k + Z.of_nat (length bs) <= i \/ j <= k -> holds l' k bs.
Proof.
  intros (_ & Ht & Hd) [Hk Hs] Hor. split; [done|]. unfold slice in *. destruct Hor as [Hle|Hle].
  - etransitivity; [|exact Hs]. rewrite !take_drop_commute. f_equal. eapply take_le_eq; [|done]. lia.
  - etransitivity; [|exact Hs]. f_equal. eapply drop_le_eq; [|done]. lia.
Qed.

Lemma wr_block_grown l i bs l' : wr_block l i bs = Some l' -> grown i (i + Z.of_nat (length bs)) l l' /\ holds l' i bs.
Proof.
  unfold wr_block. destruct (Z.ltb_spec i 0); [done|]. destruct (Z.ltb_spec (Z.of_nat (length l)) (i + Z.of_nat (length bs))); [done|]. cbn [orb]. intros [= <-].
  assert (Hlt : length (take (Z.to_nat i) l) = Z.to_nat i) by (rewrite length_take; lia). split; [split; [|split]|split; [done|]].
  - rewrite !length_app, length_take, length_drop. lia.
  - by rewrite take_app_length' by done.
  - rewrite app_assoc, drop_app_length'; [f_equal; lia|]. rewrite length_app. lia.
  - unfold slice. rewrite drop_app_length' by done. by rewrite take_app_length' by lia.
Qed.

Lemma wr8_block l i v : wr8 l i v = wr_block l i [v].
Proof.
  unfold wr8, wr_block. cbn [length]. destruct (Z.ltb_spec i 0); [done|]. destruct (Z.leb_spec (Z.of_nat (length l)) i), (Z.ltb_spec (Z.of_nat (length l)) (i + Z.of_nat 1)); cbn [orb]; try (done || lia).
  rewrite insert_take_drop by lia. f_equal. cbn [app]. do 3 f_equal. lia.
Qed.

Lemma holds_app l i b1 b2 : 0 <= i -> holds l i b1 -> holds l (i + Z.of_nat (length b1)) b2 -> holds l i (b1 ++ b2).
Proof.
  intros Hi [_ H1] [_ H2]. split; [done|]. unfold slice in *. rewrite length_app.
  replace (Z.to_nat (Z.of_nat (length b1 + length b2))) with (Z.to_nat (Z.of_nat (length b1)) + length b2)%nat by lia.
  rewrite <- (take_take_drop _ (Z.to_nat (Z.of_nat (length b1))) (length b2)). rewrite H1. f_equal. rewrite drop_drop.
  replace (Z.to_nat i + Z.to_nat (Z.of_nat (length b1)))%nat with (Z.to_nat (i + Z.of_nat (length b1))) by lia. rewrite <- H2 at 2. f_equal. lia.
Qed.

Lemma holds_take l i b1 b2 : holds l i (b1 ++ b2) -> holds l i b1.
Proof.
  intros [Hi H]. split; [done|]. unfold slice in *. rewrite length_app in H. apply (f_equal (take (length b1))) in H. rewrite take_app_length, take_take in H.
  rewrite <- H at 2. f_equal. lia.
Qed.

Lemma holds_drop l i b1 b2 : holds l i (b1 ++ b2) -> holds l (i + Z.of_nat (length b1)) b2.
Proof.
  intros [Hi H]. split; [lia|]. unfold slice in *. rewrite length_app in H. apply (f_equal (drop (length b1))) in H. rewrite drop_app_length in H.
  rewrite <- H at 2. rewrite skipn_firstn_comm, drop_drop. f_equal; [lia|]. f_equal. lia.
Qed.

Lemma holds_end l i bs : bs <> [] -> holds l i bs -> i + Z.of_nat (length bs) <= Z.of_nat (length l).
Proof.
  intros Hne [Hi H]. unfold slice in H. apply (f_equal length) in H. rewrite length_take, length_drop in H. destruct bs; [done|]. cbn [length] in *. lia.
Qed.

Lemma slice_full l i n : 0 <= i -> 0 <= n -> i + n <= Z.of_nat (length l) -> l = take (Z.to_nat i) l ++ slice l i n ++ drop (Z.to_nat (i + n)) l.
Proof.
  intros Hi Hn Hl. unfold slice. rewrite <- (take_drop (Z.to_nat i) l) at 1. f_equal. rewrite <- (take_drop (Z.to_nat n) (drop (Z.to_nat i) l)) at 1. f_equal. rewrite drop_drop. f_equal. lia.
Qed.

Lemma grown_bytes i bs l l' : 0 <= i -> i + Z.of_nat (length bs) <= Z.of_nat (length l) -> grown i (i + Z.of_nat (length bs)) l l' -> holds l' i bs -> bytes l -> bytes bs -> bytes l'.
Proof.
  intros Hi Hle (HL & Ht & Hd) [_ Hs] Hb Hbs. rewrite (slice_full l' i (Z.of_nat (length bs))) by lia. rewrite Ht, Hd, Hs.
  apply Forall_app_2; [by apply Forall_take|]. apply Forall_app_2; [done|by apply Forall_drop].
Qed.

(** ** The plan *)

Definition align16 (o : Z) : Z := (o + 15) / 16 * 16.

Lemma align16_spec o : 0 <= o -> o <= align16 o < o + 16 /\ (16 | align16 o).
Proof. intros Ho. unfold align16. split; [Z.div_mod_to_equations; lia|]. by exists ((o + 15) / 16). Qed.

Lemma align_up_16 o : 0 <= o -> o + 15 < 4294967296 -> zo_align_up_u32 o 16 = align16 o.
Proof.
  intros H0 Ho. unfold zo_align_up_u32, align16. rewrite (u32_small (o + 16 - 1)) by (unfold is_u32; lia). change (u32 (Z.lnot (16 - 1))) with (Z.ldiff (Z.ones 32) (Z.ones 4)).
  replace (Z.land (o + 16 - 1) (Z.ldiff (Z.ones 32) (Z.ones 4))) with (Z.ldiff (o + 15) (Z.ones 4)).
  - rewrite Z.ldiff_ones_r by lia. rewrite Z.shiftl_mul_pow2, Z.shiftr_div_pow2 by lia. done.
  - apply Z.bits_inj'. intros i Hi. replace (o + 16 - 1) with (o + 15) by lia. rewrite Z.land_spec, !Z.ldiff_spec.
    destruct (Z.lt_ge_cases i 32).
    + by rewrite (Z.ones_spec_low 32) by lia.
    + rewrite (Z.bits_above_log2 (o + 15)) by (try (destruct (Z.eq_dec o 0); [subst; cbn; lia|]); try apply Z.lt_le_trans with 32; try (apply Z.log2_lt_pow2; lia); lia). done.
Qed.

Definition item : Type := zo_object_info_t * (zo_section_t * Z).

(** The sections of all objects, one behind the other. *)
Definition object_items (x : placed_object) : list item := map (pair x.1) x.2.
Definition flat (objects : list placed_object) : list item := concat (map object_items objects).

Definition item_section (x : item) : zo_section_t := x.2.1.
Definition item_place (x : item) : Z := x.2.2.

(** A section that is placed in the round of a type. *)
Definition used (t : Z) (s : zo_section_t) : bool := (sec_type s =? t) && negb (sec_mem_size s =? 0).

Fixpoint plan (t : Z) (items : list item) (o : Z) : list item * Z :=
  match items with
  | [] => ([], o)
  | (info, (s, place)) :: items' =>
      let '(place, o) := if used t s then (align16 o, align16 o + sec_mem_size s) else (place, o) in
      let '(rest, o) := plan t items' o in
      ((info, (s, place)) :: rest, o)
  end.

(** What a section is in memory. *)
Definition section_bytes (info : zo_object_info_t) (s : zo_section_t) : list Z :=
  slice (oi_object info) (oi_image_offset info + sec_file_offset s) (sec_file_size s) ++ replicate (Z.to_nat (sec_mem_size s - sec_file_size s)) 0.

Definition item_bytes (x : item) : list Z := section_bytes x.1 (item_section x).

(** An object the linker has read: its tables are inside, its sections good. *)
Definition object_read (x : placed_object) : Prop := (exists h, reloc_layout x.1 h) /\ Forall (fun p => section_ok x.1 p.1) x.2.
Definition item_read (x : item) : Prop := (exists h, reloc_layout x.1 h) /\ section_ok x.1 (item_section x).

Lemma item_bytes_length x : item_read x -> Z.of_nat (length (item_bytes x)) = sec_mem_size (item_section x).
Proof.
  intros [[h HL] [_ Hf Hm _]]. unfold item_bytes, section_bytes. pose proof (layout_nonneg HL). pose proof (rl_end _ _ HL). rewrite length_app, length_replicate, length_slice by lia. lia.
Qed.

Lemma flat_read objects : Forall object_read objects -> Forall item_read (flat objects).
Proof.
  induction 1 as [|[info sections] objects [Hh Hs] Ho IH]; [constructor|]. unfold flat. cbn [map concat]. apply Forall_app_2; [|done].
  unfold object_items. cbn [fst snd] in *. apply Forall_map. eapply Forall_impl; [|exact Hs]. intros p Hp. by split.
Qed.

Lemma plan_app t xs ys o : plan t (xs ++ ys) o = let '(xs', o1) := plan t xs o in let '(ys', o2) := plan t ys o1 in (xs' ++ ys', o2).
Proof.
  revert o. induction xs as [|[info [s place]] xs IH]; intros o; cbn [plan app]; [by destruct (plan t ys o)|].
  destruct (if used t s then _ else _) as [place' o']. rewrite IH. destruct (plan t xs o') as [xs' o1]. by destruct (plan t ys o1).
Qed.

(** A round moves the sections of its type only, one behind the other. *)
Definition moved (t : Z) (x y : item) : Prop := y.1 = x.1 /\ item_section y = item_section x /\ (used t (item_section x) = false -> item_place y = item_place x).
Definition fits (o o' : Z) (x : item) : Prop := o <= item_place x /\ (16 | item_place x) /\ item_place x + sec_mem_size (item_section x) <= o'.

Lemma plan_spec t items : forall o items' o', plan t items o = (items', o') -> 0 <= o -> Forall (fun x => 0 <= sec_mem_size (item_section x)) items ->
  o <= o' /\ Forall2 (moved t) items items' /\ Forall (fun x => used t (item_section x) = true -> fits o o' x) items' /\
  (forall i j x y, (i < j)%nat -> items' !! i = Some x -> items' !! j = Some y -> used t (item_section x) = true -> used t (item_section y) = true ->
    item_place x + sec_mem_size (item_section x) <= item_place y).
Proof.
  induction items as [|[info [s place]] items IH]; intros o items' o' Hp Ho Hm; cbn [plan] in Hp; [injection Hp as <- <-; split; [lia|split; [constructor|split; [constructor|intros i j x y _ Hi; by rewrite lookup_nil in Hi]]]|].
  apply Forall_cons_1 in Hm as [Hs Hm]. cbn [item_section fst snd] in Hs. pose proof (align16_spec o Ho) as [Ha Hd].
  set (pl := if used t s then align16 o else place). set (o1 := if used t s then align16 o + sec_mem_size s else o).
  assert (Hp' : (let '(rest, o2) := plan t items o1 in ((info, (s, pl)) :: rest, o2)) = (items', o')) by (unfold pl, o1; by destruct (used t s)). clear Hp.
  destruct (plan t items o1) as [rest o2] eqn:Er. injection Hp' as <- <-. assert (Ho1 : o <= o1) by (unfold o1; destruct (used t s); lia).
  destruct (IH o1 rest o2 Er ltac:(lia) Hm) as (H1 & H2 & H3 & H4).
  assert (Hx : used t s = true -> pl + sec_mem_size s = o1 /\ o <= pl /\ (16 | pl)) by (unfold pl, o1; intros ->; split; [done|split; [lia|done]]).
  split; [lia|]. split; [constructor; [split; [done|split; [done|cbn; unfold pl; by intros ->]]|done]|]. split.
  - constructor; [cbn; intros Hu; destruct (Hx Hu) as (X1 & X2 & X3); repeat split; cbn; [lia|done|lia]|].
    eapply Forall_impl; [|exact H3]. intros x Hf Hu. destruct (Hf Hu) as (F1 & F2 & F3). split; [lia|by split].
  - intros i j x y Hij Hi Hj Hux Huy. destruct j as [|j]; [lia|]. cbn in Hj. destruct i as [|i].
    + injection Hi as <-. cbn in *. destruct (Hx Hux) as (X1 & _). rewrite Forall_elem in H3. destruct (H3 y (list_elem_of_lookup_2 _ _ _ Hj) Huy) as (F1 & _). lia.
    + cbn in Hi. eapply (H4 i j); (done || lia).
Qed.

Lemma plan_read t items o items' o' : plan t items o = (items', o') -> 0 <= o -> Forall item_read items -> Forall item_read items'.
Proof.
  intros Hp Ho Hr. destruct (plan_spec t items o items' o' Hp Ho) as (_ & Hm & _); [eapply Forall_impl; [|exact Hr]; intros x [_ [_ Hf Hm _]]; cbn in *; lia|].
  rewrite Forall_lookup in *. intros i x' Hi. destruct (Forall2_lookup_r _ _ _ _ _ Hm Hi) as (x & Hx & M1 & M2 & _). destruct (Hr i x Hx) as [HL HS]. split; rewrite M1; [done|]. by rewrite M2.
Qed.

Section place.
Context {E : Type} {ZM : ZMemory E} {KS : KernelSymbols} {AS : Assembler}.
Implicit Types l : linker E.

(** A run that gave up: -1, and the buffer kept its size. *)
Definition gave_up l (c : Z) l' : Prop := c = -1 /\ length (lk_out l') = length (lk_out l).

Lemma runs_store w l (Q : unit -> linker E -> Prop) (X : Z -> linker E -> Prop) : gives (w (lk_out l)) (fun out => Q tt (set_lk_out out l)) -> runs (store w) l Q X.
Proof. unfold runs, store. destruct (w (lk_out l)); cbn; done. Qed.

Lemma runs_store_block i bs l (Q : unit -> linker E -> Prop) (X : Z -> linker E -> Prop) : 0 <= i -> i + Z.of_nat (length bs) <= out_capacity l ->
  (forall out, grown i (i + Z.of_nat (length bs)) (lk_out l) out -> holds out i bs -> Q tt (set_lk_out out l)) -> runs (store (fun out => wr_block out i bs)) l Q X.
Proof.
  intros Hn Hi HQ. apply runs_store. rewrite wr_block_Some by done. cbn [gives]. destruct (wr_block_grown (lk_out l) i bs _ (wr_block_Some _ _ _ Hn Hi)). by apply HQ.
Qed.

(** A place is filled. *)
Definition filled (out : list Z) (x : item) : Prop := holds out (item_place x) (item_bytes x).

(** What a round from [o] to [o'] does to the buffer. *)
Definition round_done (t o : Z) (items : list item) l (o' : Z) (items' : list item) l' : Prop :=
  exists out, l' = set_lk_out out l /\ plan t items o = (items', o') /\ o <= o' <= out_capacity l /\ grown o o' (lk_out l) out /\
    Forall (fun x => used t (item_section x) = true -> filled out x) items' /\ (bytes (lk_out l) -> bytes out).

(** There was no room for what is planned. *)
Definition no_room (t o : Z) (items : list item) l (c : Z) l' : Prop := gave_up l c l' /\ out_capacity l < (plan t items o).2.

Lemma plan_le t items : forall o, 0 <= o -> Forall item_read items -> o <= (plan t items o).2.
Proof.
  intros o Ho Hr. destruct (plan t items o) as [items' o'] eqn:Ep. destruct (plan_spec t items o items' o' Ep Ho) as [H _]; [|done].
  eapply Forall_impl; [|exact Hr]. intros x [_ [_ Hf Hm _]]. cbn in *. lia.
Qed.

Lemma no_room_app t o xs ys l o1 xs' l1 c l' : plan t xs o = (xs', o1) -> length (lk_out l1) = length (lk_out l) -> no_room t o1 ys l1 c l' -> no_room t o (xs ++ ys) l c l'.
Proof.
  intros Hp Hl [[-> Hc] Hn]. split; [split; [done|congruence]|]. rewrite plan_app, Hp. unfold out_capacity in *. destruct (plan t ys o1). cbn in *. lia.
Qed.

Lemma no_room_front t o xs ys l c l' : 0 <= o -> Forall item_read xs -> Forall item_read ys -> no_room t o xs l c l' -> no_room t o (xs ++ ys) l c l'.
Proof.
  intros Ho Hx Hy [Hg Hn]. split; [done|]. rewrite plan_app. pose proof (plan_le t xs o Ho Hx) as H1. destruct (plan t xs o) as [xs' o1]. pose proof (plan_le t ys o1 ltac:(cbn in *; lia) Hy) as H2.
  destruct (plan t ys o1). cbn in *. lia.
Qed.

Lemma place_section_runs info t s place o l : item_read (info, (s, place)) -> 0 <= o <= out_capacity l -> out_capacity l <= 0x7fffffff ->
  runs (place_section info t (s, place) o) l (fun '(place', o') l' => round_done t o [(info, (s, place))] l o' [(info, (s, place'))] l') (no_room t o [(info, (s, place))] l).
Proof.
  intros Hx Ho Hc. pose proof (item_bytes_length _ Hx) as Hlen. destruct Hx as [[h HL] [_ Hf Hm Hl]]. cbn [fst snd item_section] in *. unfold place_section.
  assert (Hu : used t s = negb (negb (sec_type s =? t) || (sec_mem_size s =? 0))) by (unfold used; by rewrite negb_orb, negb_involutive).
  destruct (negb (sec_type s =? t) || (sec_mem_size s =? 0)) eqn:Eu; cbn [negb] in Hu.
  { apply runs_ret. exists (lk_out l). cbn [plan]. rewrite Hu. split; [by destruct l|]. split; [done|]. split; [lia|]. split; [apply grown_refl|].
    split; [|done]. constructor; [|constructor]. cbn [item_section fst snd]. by rewrite Hu. }
  eapply runs_bind; [apply (runs_look _ _ (fun c l' => c = out_capacity l /\ l' = l)); done|]. intros c ? [-> ->].
  rewrite align_up_16 by lia. pose proof (align16_spec o ltac:(lia)) as [Ha _].
  eapply runs_bind; [apply (runs_need _ _ _ (fun _ l' => align16 o <= out_capacity l /\ l' = l)); intros Hb; bool_prop; [done|split; [by split|cbn [plan]; rewrite Hu; cbn; lia]]|]. intros _ ? [Hcap ->].
  set (a := align16 o) in *. unfold store_zeros.
  eapply runs_bind; [apply (runs_store_block _ _ _ (fun _ l' => exists out, l' = set_lk_out out l /\ grown o a (lk_out l) out /\ (bytes (lk_out l) -> bytes out))); [lia|rewrite length_replicate; lia|]|].
  { intros out Hg Hh. exists out. split; [done|]. split; [|intros Hb; eapply grown_bytes; [| |exact Hg|exact Hh|done|apply bytes_zeros]; [lia|rewrite length_replicate; unfold out_capacity in *; lia]].
    rewrite length_replicate in Hg. eapply grown_weaken; [| |exact Hg]; lia. }
  intros _ ? (out1 & -> & G1 & Y1). pose proof (grown_length _ _ _ _ G1) as L1. rewrite Z.max_r by lia.
  assert (Hsame : out_capacity (set_lk_out out1 l) = out_capacity l) by (unfold out_capacity; cbn [lk_out set_lk_out]; lia).
  eapply runs_bind; [apply (runs_need _ _ _ (fun _ l' => a + sec_mem_size s <= out_capacity l /\ l' = set_lk_out out1 l)); intros Hb; bool_prop; [split; [lia|done]|split; [split; [done|cbn; lia]|cbn [plan]; rewrite Hu; fold a; cbn; lia]]|].
  intros _ ? [Hfit ->].
  eapply runs_bind; [apply (runs_store_block _ _ _ (fun _ l' => exists out, l' = set_lk_out out l /\ grown a (a + sec_mem_size s) out1 out /\ holds out a (replicate (Z.to_nat (sec_mem_size s)) 0) /\ (bytes out1 -> bytes out)));
    [lia|rewrite length_replicate; lia|]|].
  { intros out Hg Hh. exists out. split; [done|]. split; [|split; [done|intros Hb; eapply (grown_bytes _ _ out1); [| |exact Hg|exact Hh|done|apply bytes_zeros]; [lia|rewrite length_replicate; unfold out_capacity in *; cbn in *; lia]]].
    rewrite length_replicate in Hg. eapply grown_weaken; [| |exact Hg]; lia. }
  intros _ ? (out2 & -> & G2 & Z2 & Y2). pose proof (grown_length _ _ _ _ G2) as L2.
  eapply runs_bind; [apply (runs_chk _ _ (fun d l' => d = slice (oi_object info) (oi_image_offset info + sec_file_offset s) (sec_file_size s) /\ l' = set_lk_out out2 l))|].
  { pose proof (layout_nonneg HL). pose proof (rl_end _ _ HL). rewrite rd_block_some by lia. done. }
  intros data ? [-> ->]. set (data := slice _ _ _). assert (Ld : Z.of_nat (length data) = sec_file_size s).
  { pose proof (layout_nonneg HL). pose proof (rl_end _ _ HL). unfold data. rewrite length_slice by lia. lia. }
  eapply runs_bind; [apply (runs_store_block _ _ _ (fun _ l' => exists out, l' = set_lk_out out l /\ grown a (a + sec_file_size s) out2 out /\ holds out a data /\ (bytes out2 -> bytes out))); [lia|unfold out_capacity in *; cbn in *; lia|]|].
  { intros out Hg Hh. exists out. split; [done|]. split; [by rewrite Ld in Hg|]. split; [done|]. intros Hb. eapply (grown_bytes _ _ out2); [| |exact Hg|exact Hh|done|]; [lia|unfold out_capacity in *; cbn in *; lia|apply slice_bytes, (rl_bytes _ _ HL)]. }
  intros _ ? (out3 & -> & G3 & H3 & Y3). apply runs_ret. unfold round_done.
  rewrite (u32_small (a + sec_mem_size s)) by (unfold is_u32; lia). exists out3. split; [done|]. cbn [plan]. rewrite Hu. fold a. split; [done|]. split; [lia|]. split.
  - eapply (grown_trans o (a + sec_mem_size s)); [eapply grown_weaken; [| |exact G1]; lia|]. eapply (grown_trans o (a + sec_mem_size s)); [eapply grown_weaken; [| |exact G2]; lia|].
    eapply grown_weaken; [| |exact G3]; lia.
  - split; [|auto]. constructor; [|constructor]. intros _. unfold filled, item_bytes, section_bytes. cbn [item_place item_section fst snd]. fold data. apply holds_app; [lia|done|]. rewrite Ld.
    replace (Z.to_nat (sec_mem_size s)) with (length data + Z.to_nat (sec_mem_size s - sec_file_size s))%nat in Z2 by lia. rewrite replicate_add in Z2.
    apply holds_drop in Z2. rewrite length_replicate, Ld in Z2. eapply holds_grown; [exact G3|exact Z2|]. right. lia.
Qed.

Lemma round_done_app t o xs l o1 xs' l1 ys o2 ys' l2 : 0 <= o -> Forall item_read xs -> length (lk_out l1) = length (lk_out l) ->
  round_done t o xs l o1 xs' l1 -> round_done t o1 ys l1 o2 ys' l2 -> round_done t o (xs ++ ys) l o2 (xs' ++ ys') l2.
Proof.
  intros Ho Hr Hlen (out1 & -> & P1 & B1 & G1 & F1 & Y1) (out2 & -> & P2 & B2 & G2 & F2 & Y2). exists out2. cbn in Hlen. unfold out_capacity in *. cbn [lk_out set_lk_out] in *.
  split; [done|]. split; [by rewrite plan_app, P1, P2|]. split; [lia|].
  assert (Hm : Forall (fun x => 0 <= sec_mem_size (item_section x)) xs) by (eapply Forall_impl; [|exact Hr]; intros x [_ [_ Hf Hm _]]; cbn in *; lia).
  destruct (plan_spec t xs o xs' o1 P1 Ho Hm) as (_ & Hmv & Hfit & _). split.
  - eapply (grown_trans o o2); [eapply grown_weaken; [| |exact G1]; lia|eapply grown_weaken; [| |exact G2]; lia].
  - split; [|auto]. apply Forall_app_2; [|done]. rewrite Forall_lookup in *. intros i x Hx Hu. destruct (Forall2_lookup_r _ _ _ _ _ Hmv Hx) as (x0 & Hx0 & M1 & M2 & _).
    eapply holds_grown; [exact G2|by apply (F1 i x)|]. left. destruct (Hfit i x Hx Hu) as (_ & _ & Hend).
    assert (Hrx : item_read x). { destruct (Hr i x0 Hx0) as [[h HL] HS]. split; rewrite M1; [eauto|]. by rewrite M2. }
    rewrite item_bytes_length by done. lia.
Qed.

Lemma place_sections_runs info t sections : forall o l, Forall item_read (map (pair info) sections) -> 0 <= o <= out_capacity l -> out_capacity l <= 0x7fffffff ->
  runs (place_sections info t sections o) l
    (fun '(sections', o') l' => length (lk_out l') = length (lk_out l) /\ map fst sections' = map fst sections /\
      round_done t o (map (pair info) sections) l o' (map (pair info) sections') l') (no_room t o (map (pair info) sections) l).
Proof.
  induction sections as [|[s place] sections IH]; intros o l Hr Ho Hc; cbn [place_sections].
  { apply runs_ret. split; [done|]. split; [done|]. exists (lk_out l). split; [by destruct l|]. split; [done|]. split; [lia|]. split; [apply grown_refl|]. split; [constructor|done]. }
  apply Forall_cons_1 in Hr as [Hx Hr]. eapply runs_bind_to; [by apply place_section_runs|intros c l'; apply (no_room_front t o [(info, (s, place))]); [lia|by constructor|done]|]. intros [place' o1] l1 HR1.
  pose proof HR1 as (out1 & -> & P1 & B1 & G1 & _). pose proof (grown_length _ _ _ _ G1) as L1.
  assert (Hsame : out_capacity (set_lk_out out1 l) = out_capacity l) by (unfold out_capacity; cbn; lia).
  eapply runs_bind_to; [apply IH; [done|lia|lia]| |].
  - intros c l2. by apply (no_room_app t o [(info, (s, place))] _ l o1 [(info, (s, place'))]).
  - intros [sections' o2] l2 (L2 & M2 & HR2). apply runs_ret. cbn in L2. split; [lia|]. cbn [map fst]. split; [by rewrite M2|].
    eapply (round_done_app t o [(info, (s, place))] l o1 [(info, (s, place'))] (set_lk_out out1 l) (map (pair info) sections) o2 (map (pair info) sections')); [lia|by constructor|exact L1|exact HR1|exact HR2].
Qed.

(** An object without the places of its sections. *)
Definition shape (x : placed_object) : zo_object_info_t * list zo_section_t := (x.1, map fst x.2).

Lemma place_objects_runs t objects : forall o l, Forall object_read objects -> 0 <= o <= out_capacity l -> out_capacity l <= 0x7fffffff ->
  runs (place_objects t objects o) l
    (fun '(objects', o') l' => length (lk_out l') = length (lk_out l) /\ map shape objects' = map shape objects /\ round_done t o (flat objects) l o' (flat objects') l') (no_room t o (flat objects) l).
Proof.
  induction objects as [|[info sections] objects IH]; intros o l Hr Ho Hc; cbn [place_objects].
  { apply runs_ret. split; [done|]. split; [done|]. exists (lk_out l). split; [by destruct l|]. split; [done|]. split; [lia|]. split; [apply grown_refl|]. split; [constructor|done]. }
  pose proof (flat_read _ Hr) as Hf. unfold flat in Hf. cbn [map concat] in Hf. apply Forall_app in Hf as [Hf1 Hf2]. apply Forall_cons_1 in Hr as [Hx Hr].
  eapply runs_bind_to; [by apply place_sections_runs|intros c l'; apply no_room_front; [lia|done|done]|]. intros [sections' o1] l1 (L1 & M1 & HR1).
  pose proof HR1 as (out1 & -> & P1 & B1 & _ & _). assert (Hsame : out_capacity (set_lk_out out1 l) = out_capacity l) by (unfold out_capacity; lia).
  eapply runs_bind_to; [apply IH; [done|lia|lia]| |].
  - intros c l2. by eapply no_room_app.
  - intros [objects' o2] l2 (L2 & M2 & HR2). apply runs_ret. split; [lia|]. split; [cbn [map]; rewrite M2; unfold shape; cbn [fst snd]; by rewrite M1|]. unfold flat. cbn [map concat].
    eapply round_done_app; [lia|exact Hf1|exact L1|exact HR1|exact HR2].
Qed.

(** ** All rounds *)

Definition in_types (ts : list Z) (x : item) : Prop := sec_type (item_section x) ∈ ts /\ sec_mem_size (item_section x) <> 0.

(** The sections of some types are placed between [lo] and [o]. *)
Record laid (ts : list Z) (lo o : Z) (out : list Z) (items : list item) : Prop := Laid {
  laid_in : forall x, x ∈ items -> in_types ts x -> fits lo o x /\ filled out x;
  laid_apart : forall i j x y, items !! i = Some x -> items !! j = Some y -> i <> j -> in_types ts x -> in_types ts y ->
    item_place x + sec_mem_size (item_section x) <= item_place y \/ item_place y + sec_mem_size (item_section y) <= item_place x
}.

Lemma used_spec t s : used t s = true <-> sec_type s = t /\ sec_mem_size s <> 0.
Proof. unfold used. rewrite andb_true_iff, Z.eqb_eq, negb_true_iff, Z.eqb_neq. done. Qed.

Lemma round_laid ts t lo o o' items items' l l' : 0 <= lo <= o -> Forall item_read items -> laid ts lo o (lk_out l) items -> round_done t o items l o' items' l' ->
  t ∉ ts -> Forall item_read items' /\ laid (t :: ts) lo o' (lk_out l') items'.
Proof.
  intros Ho Hr [HI HA] (out & -> & P & B & G & F & _) Hnt. cbn [lk_out set_lk_out].
  assert (Hm : Forall (fun x => 0 <= sec_mem_size (item_section x)) items) by (eapply Forall_impl; [|exact Hr]; intros x [_ [_ Hf Hm _]]; cbn in *; lia).
  destruct (plan_spec t items o items' o' P ltac:(lia) Hm) as (_ & Hmv & Hfit & Hord).
  assert (Hback : forall i x', items' !! i = Some x' -> in_types ts x' -> exists x, items !! i = Some x /\ in_types ts x /\ item_place x' = item_place x /\ item_section x' = item_section x /\ x'.1 = x.1).
  { intros i x' Hi [H1 H2]. destruct (Forall2_lookup_r _ _ _ _ _ Hmv Hi) as (x & Hx & M1 & M2 & M3). exists x. split; [done|]. rewrite M2 in H1, H2. split; [by split|]. split; [|done].
    apply M3. destruct (used t (item_section x)) eqn:Eu; [|done]. apply used_spec in Eu as [<- _]. done. }
  assert (Hr' : Forall item_read items').
  { rewrite Forall_lookup in *. intros i x' Hi. destruct (Forall2_lookup_r _ _ _ _ _ Hmv Hi) as (x & Hx & M1 & M2 & _). destruct (Hr i x Hx) as [HL HS]. split; rewrite M1; [done|]. by rewrite M2. }
  split; [done|]. rewrite Forall_lookup in Hfit, F. split.
  - intros x' Hin [Hty Hz]. apply list_elem_of_lookup in Hin as [i Hi]. apply elem_of_cons in Hty as [Hty|Hty].
    + pose proof (proj2 (used_spec t (item_section x')) (conj Hty Hz)) as Hu.
      destruct (Hfit i x' Hi Hu) as (F1 & F2 & F3). split; [|by apply (F i x')]. split; [lia|by split].
    + destruct (Hback i x' Hi (conj Hty Hz)) as (x & Hx & Hty2 & Ep & Es & E1). destruct (HI x (list_elem_of_lookup_2 _ _ _ Hx) Hty2) as [(F1 & F2 & F3) Hfil].
      split; [unfold fits; rewrite Ep, Es; split; [lia|split; [done|lia]]|]. unfold filled, item_bytes in *. rewrite Ep, Es, E1. eapply holds_grown; [exact G|exact Hfil|]. left.
      change (section_bytes x.1 (item_section x)) with (item_bytes x). rewrite item_bytes_length by (rewrite Forall_lookup in Hr; by apply (Hr i)). lia.
  - intros i j x y Hi Hj Hij [Hx Hzx] [Hy Hzy]. apply elem_of_cons in Hx as [Hx|Hx], Hy as [Hy|Hy].
    + pose proof (proj2 (used_spec t (item_section x)) (conj Hx Hzx)) as Hux. pose proof (proj2 (used_spec t (item_section y)) (conj Hy Hzy)) as Huy.
      destruct (Nat.lt_total i j) as [Hlt|[->|Hlt]]; [left; eapply (Hord i j); done|done|right; eapply (Hord j i); done].
    + pose proof (proj2 (used_spec t (item_section x)) (conj Hx Hzx)) as Hux. destruct (Hfit i x Hi Hux) as (F1 & _). right.
      destruct (Hback j y Hj (conj Hy Hzy)) as (y0 & Hy0 & Hty & Ep & Es & _). destruct (HI y0 (list_elem_of_lookup_2 _ _ _ Hy0) Hty) as [(_ & _ & Q3) _]. rewrite Ep, Es. lia.
    + pose proof (proj2 (used_spec t (item_section y)) (conj Hy Hzy)) as Huy. destruct (Hfit j y Hj Huy) as (F1 & _). left.
      destruct (Hback i x Hi (conj Hx Hzx)) as (x0 & Hx0 & Hty & Ep & Es & _). destruct (HI x0 (list_elem_of_lookup_2 _ _ _ Hx0) Hty) as [(_ & _ & Q3) _]. rewrite Ep, Es. lia.
    + destruct (Hback i x Hi (conj Hx Hzx)) as (x0 & Hx0 & Hty & Ep & Es & _). destruct (Hback j y Hj (conj Hy Hzy)) as (y0 & Hy0 & Hty2 & Ep2 & Es2 & _).
      rewrite Ep, Es, Ep2, Es2. by eapply (HA i j).
Qed.

Lemma laid_nil lo out items : laid [] lo lo out items.
Proof. split; [intros x _ [H _]|intros i j x y _ _ _ [H _]]; by apply elem_of_nil in H. Qed.

(** Reading is about the object and its sections, not about their places. *)
Lemma flat_read_inv objects : (forall x, x ∈ objects -> exists h, reloc_layout x.1 h) -> Forall item_read (flat objects) -> Forall object_read objects.
Proof.
  intros Hh Hf. apply Forall_elem. intros x Hx. split; [by apply Hh|]. rewrite Forall_elem in Hf. apply Forall_elem. intros p Hp.
  destruct (Hf (x.1, p)) as [_ Hs]; [|exact Hs]. unfold flat. apply list_elem_of_In, in_concat. exists (object_items x). split; [apply in_map; by apply list_elem_of_In|].
  unfold object_items. apply in_map. by apply list_elem_of_In.
Qed.

(** What placing all types gives: every section with bytes has its place. *)
Definition all_laid (lo o : Z) (out : list Z) (objects : list placed_object) : Prop := laid [3; 2; 1] lo o out (flat objects) /\ Forall object_read objects.

Lemma object_read_same objects objects' : map shape objects' = map shape objects -> Forall object_read objects -> Forall item_read (flat objects') -> Forall object_read objects'.
Proof.
  intros Hm Hr Hf. apply flat_read_inv; [|done]. intros x Hx. apply list_elem_of_In in Hx. apply (in_map shape) in Hx. rewrite Hm in Hx. apply in_map_iff in Hx as (y & Ey & Hy).
  injection Ey as Ey _. rewrite <- Ey. rewrite Forall_elem in Hr. apply Hr. by apply list_elem_of_In.
Qed.

(** The rounds of all types. *)
Definition plan_all (items : list item) (o : Z) : list item * Z :=
  let '(items, o) := plan ZOBJECT_SECTION_TEXT items o in let '(items, o) := plan ZOBJECT_SECTION_DATA items o in plan ZOBJECT_SECTION_BSS items o.

Lemma place_types_runs objects o l : Forall object_read objects -> 0 <= o <= out_capacity l -> out_capacity l <= 0x7fffffff ->
  runs (place_types [ZOBJECT_SECTION_TEXT; ZOBJECT_SECTION_DATA; ZOBJECT_SECTION_BSS] objects o) l
    (fun '(objects', o') l' => exists out, l' = set_lk_out out l /\ plan_all (flat objects) o = (flat objects', o') /\ grown o o' (lk_out l) out /\ o <= o' <= out_capacity l /\ map shape objects' = map shape objects /\ all_laid o o' out objects' /\ (bytes (lk_out l) -> bytes out))
    (fun c l' => gave_up l c l' /\ out_capacity l < (plan_all (flat objects) o).2).
Proof.
  intros Hr Ho Hc. pose proof (laid_nil o (lk_out l) (flat objects)) as HL0.
  unfold place_types, plan_all.
  eapply runs_bind_to; [by apply place_objects_runs| |].
  { intros c l' [Hg Hn]. split; [done|]. destruct (plan ZOBJECT_SECTION_TEXT (flat objects) o) as [it1 o1] eqn:P1. cbn [snd] in Hn. pose proof (plan_read _ _ _ _ _ P1 ltac:(lia) (flat_read _ Hr)) as Hr1.
    pose proof (plan_le 2 it1 o1 ltac:(lia) Hr1) as H2. destruct (plan ZOBJECT_SECTION_DATA it1 o1) as [it2 o2] eqn:P2. change (plan 2 it1 o1) with (plan ZOBJECT_SECTION_DATA it1 o1) in H2. rewrite P2 in H2. cbn [snd] in H2.
    pose proof (plan_le 3 it2 o2 ltac:(lia) (plan_read _ _ _ _ _ P2 ltac:(lia) Hr1)) as H3. change ZOBJECT_SECTION_BSS with 3. lia. }
  intros [ob1 o1] l1 (L1 & M1 & R1).
  destruct (round_laid [] 1 o o o1 _ _ l l1 ltac:(lia) (flat_read _ Hr) HL0 R1 ltac:(by intros H%elem_of_nil)) as [Hf1 HL1].
  pose proof (object_read_same _ _ M1 Hr Hf1) as Hr1. pose proof R1 as (out1 & -> & P1 & B1 & G1 & _ & Y1).
  assert (C1 : out_capacity (set_lk_out out1 l) = out_capacity l) by (unfold out_capacity; lia).
  eapply runs_bind_to; [apply place_objects_runs; [done|lia|lia]| |].
  { intros c l2 [[-> Hl2] Hn]. split; [split; [done|lia]|]. change ZOBJECT_SECTION_TEXT with 1 in *. rewrite P1. destruct (plan ZOBJECT_SECTION_DATA (flat ob1) o1) as [it2 o2] eqn:P2. cbn [snd] in Hn.
    pose proof (plan_le 3 it2 o2 ltac:(lia) (plan_read _ _ _ _ _ P2 ltac:(lia) Hf1)) as H3. change ZOBJECT_SECTION_BSS with 3. lia. }
  intros [ob2 o2] l2 (L2 & M2 & R2).
  destruct (round_laid [1] 2 o o1 o2 _ _ _ l2 ltac:(lia) Hf1 HL1 R2 ltac:(by intros H%list_elem_of_singleton)) as [Hf2 HL2].
  pose proof (object_read_same _ _ M2 Hr1 Hf2) as Hr2. pose proof R2 as (out2 & -> & P2 & B2 & G2 & _ & Y2).
  assert (C2 : out_capacity (set_lk_out out2 (set_lk_out out1 l)) = out_capacity l) by (unfold out_capacity in *; lia).
  eapply runs_bind_to; [apply place_objects_runs; [done|lia|lia]| |].
  { intros c l3 [[-> Hl3] Hn]. split; [split; [done|cbn in *; lia]|]. change ZOBJECT_SECTION_TEXT with 1 in *. change ZOBJECT_SECTION_DATA with 2 in *. rewrite P1, P2. lia. }
  intros [ob3 o3] l3 (L3 & M3 & R3).
  destruct (round_laid [2; 1] 3 o o2 o3 _ _ _ l3 ltac:(lia) Hf2 HL2 R3) as [Hf3 HL3].
  { intros H. apply elem_of_cons in H as [H|H]; [done|]. by apply list_elem_of_singleton in H. }
  pose proof (object_read_same _ _ M3 Hr2 Hf3) as Hr3. pose proof R3 as (out3 & -> & P3 & B3 & G3 & _ & Y3).
  apply runs_ret. exists out3. cbn [lk_out set_lk_out] in *. unfold out_capacity in *. cbn [lk_out set_lk_out] in *. split; [done|]. split; [by rewrite P1, P2|]. split.
  - eapply (grown_trans o o3); [eapply grown_weaken; [| |exact G1]; lia|]. eapply (grown_trans o o3); [eapply grown_weaken; [| |exact G2]; lia|]. eapply grown_weaken; [| |exact G3]; lia.
  - split; [lia|]. split; [congruence|]. split; [split; done|auto].
Qed.
End place.
