(* ===== verification/ZLinkSpec.v ===== *)
(** What linking objects with sections gives: the calls of the entries, the
    exports, and the relocated fields. *)
From Stdlib Require Import ZArith Lia.
From stdpp Require Import base tactics option list numbers.
From S2P Require Import Prelude.
From S2P Require Import Buffer.
From S2P Require Import KernelExports.
From S2P Require Import ZObject.
From S2P Require Import ZObjectSpec.
From S2P Require Import ZLink.
From S2P Require Import ZLayout.
#[local] Open Scope Z_scope.

(** ** Names *)

Lemma copy_name_terminated room src : terminated src -> copy_name_loop room src = Some (take room (cstr src) ++ [0]).
Proof.
  unfold terminated. revert room. induction src as [|c src IH]; intros room Ht; [by apply elem_of_nil in Ht|]. cbn [copy_name_loop].
  destruct (Z.eqb_spec c 0) as [->|Hc]; [by destruct room|]. apply elem_of_cons in Ht as [?|Ht]; [congruence|]. rewrite cstr_cons by done.
  destruct room as [|room]; [done|]. rewrite IH by done. done.
Qed.

Lemma zo_copy_name_terminated size src : terminated src -> 0 < size -> zo_copy_name size src = Some (take (Z.to_nat (size - 1)) (cstr src) ++ [0]).
Proof. intros Ht Hs. unfold zo_copy_name. rewrite (proj2 (Z.eqb_neq size 0)) by lia. by apply copy_name_terminated. Qed.

Lemma terminated_app l k : terminated k -> terminated (l ++ k).
Proof. intros Hk. apply elem_of_app. by right. Qed.

Lemma terminated_c_name s : terminated (c_name s).
Proof. apply terminated_app. by apply list_elem_of_singleton. Qed.

Lemma terminated_0 : terminated [0].
Proof. by apply list_elem_of_singleton. Qed.

Create HintDb zobj discriminated.
#[export] Hint Resolve terminated_c_name terminated_0 : zobj.

Section names.
Context {KS : KernelSymbols}.

Definition names_ok (symbols : list zobject_resolved_symbol_t) : Prop := Forall (fun s => terminated (rs_name s)) symbols.

(** The value of a name in a table of symbols. *)
Fixpoint value_of (symbols : list zobject_resolved_symbol_t) (name : list Z) : option Z :=
  match symbols with
  | [] => None
  | s :: symbols' => if bool_decide (cstr (rs_name s) = name) then Some (rs_value s) else value_of symbols' name
  end.

Lemma find_resolved_eq symbols name : names_ok symbols -> terminated name -> find_resolved symbols name = Some (value_of symbols (cstr name)).
Proof.
  intros Hs Hn. induction Hs as [|s symbols Hs _ IH]; [done|]. cbn [find_resolved value_of]. unfold zo_streq. rewrite raw_streq_cstr by done. cbn [mbind option_bind].
  by case_bool_decide.
Qed.

(** Exports come before the symbols of the caller, and these before the kernel's. *)
Definition resolve (exports externals : list zobject_resolved_symbol_t) (name : list Z) : option Z :=
  match value_of exports name with Some v => Some v | None => match value_of externals name with Some v => Some v | None => kernel_symbol name end end.

Lemma resolve_link_symbol_eq exports externals name : names_ok exports -> names_ok externals -> terminated name ->
  zo_resolve_link_symbol exports externals name = Some (resolve exports externals (cstr name)).
Proof.
  intros He Hx Hn. unfold zo_resolve_link_symbol, resolve. rewrite (find_resolved_eq exports), (find_resolved_eq externals) by done. cbn [mbind option_bind]. destruct (value_of exports (cstr name)); [done|].
  cbn [mbind option_bind]. destruct (value_of externals (cstr name)); [done|]. by apply kernel_export_value_eq.
Qed.
End names.

(** ** Good objects *)

(** The sections of an object, and the first one a place of the image is in. *)
Definition object_sections (info : zo_object_info_t) : list zo_section_t := omap (fun j => mjoin (zo_section_at info j)) (below (oi_section_count info)).

Fixpoint first_section (sections : list zo_section_t) (original : Z) : option (nat * zo_section_t) :=
  match sections with
  | [] => None
  | s :: sections' =>
      if negb (sec_mem_size s =? 0) && (sec_load_offset s <=? original) && (original <? sec_load_offset s + sec_mem_size s) then Some (O, s)
      else prod_map S id <$> first_section sections' original
  end.

(** All sections of an object can be read, and there is one; before a link they
    have no place. *)
Definition sections_readable (info : zo_object_info_t) : Prop := oi_section_count info <> 0 /\ forall j, 0 <= j < oi_section_count info -> zo_section_at info j <> Some None.
Definition unplaced (info : zo_object_info_t) : placed_object := (info, map (fun s => (s, 0)) (object_sections info)).

(** The relocations of an object: type, offset and name. *)
Definition relocation (info : zo_object_info_t) (j : Z) (type offset : Z) (name : list Z) : Prop :=
  0 <= j < oi_reloc_count info /\ zo_relocation_at info j = Some (Some (type, offset, name)).

(** An object as its producers make it: names have terminators; a field that is
    patched lies within one section, and two fields do not overlap. *)
Record object_good (info : zo_object_info_t) : Prop := ObjectGood {
  og_symbols : forall j type name, 0 <= j < oi_symbol_count info -> zo_symbol_at info j = Some (Some (type, name)) -> terminated name;
  og_relocations : forall j type offset name, relocation info j type offset name -> terminated name;
  og_fields : forall j type offset name k s, relocation info j type offset name -> first_section (object_sections info) offset = Some (k, s) ->
    offset + field_size type <= sec_load_offset s + sec_mem_size s;
  og_apart : forall j1 type1 offset1 name1 j2 type2 offset2 name2, relocation info j1 type1 offset1 name1 -> relocation info j2 type2 offset2 name2 -> j1 <> j2 ->
    offset1 + field_size type1 <= offset2 \/ offset2 + field_size type2 <= offset1
}.

(** ** Places *)

(** [(s, place)] is the section number [k] of a placed object, with bytes. *)
Definition section_of (sections : list (zo_section_t * Z)) (k : nat) (s : zo_section_t) (place : Z) : Prop := sections !! k = Some (s, place) /\ sec_mem_size s <> 0.

Lemma map_offset_some sections original m : Forall (fun p => 0 <= sec_load_offset p.1 /\ 0 <= sec_mem_size p.1 /\ sec_load_offset p.1 + sec_mem_size p.1 < 4294967296) sections ->
  zo_map_section_offset sections original = Some m -> 0 <= original ->
  exists k s place, section_of sections k s place /\ first_section (map fst sections) original = Some (k, s) /\
    sec_load_offset s <= original < sec_load_offset s + sec_mem_size s /\ m = u32 (place + (original - sec_load_offset s)).
Proof.
  intros Hs. unfold zo_map_section_offset. destruct (Z.ltb_spec 0xFFFFFFFF original); [done|]. intros Hm H0. rewrite u32_small in Hm by (unfold is_u32; lia).
  induction Hs as [|[s place] sections [Hp1 Hp2] Hs IH]; [done|]. cbn [map_offset_loop] in Hm. cbn [fst] in Hp1, Hp2. cbn [map first_section fst].
  destruct (Z.eqb_spec (sec_mem_size s) 0) as [Hz|Hz]; cbn [negb andb].
  - destruct (IH Hm) as (k & s' & place' & [A1 A2] & B & Hc). exists (S k), s', place'. split; [by split|]. split; [|done]. by rewrite B.
  - rewrite u32_small in Hm by (unfold is_u32; lia). destruct ((sec_load_offset s <=? original) && (original <? sec_load_offset s + sec_mem_size s)) eqn:Ein.
    + injection Hm as <-. bool_prop. exists O, s, place. repeat split; (done || lia).
    + destruct (IH Hm) as (k & s' & place' & [A1 A2] & B & Hc). exists (S k), s', place'. split; [by split|]. split; [|done]. by rewrite B.
Qed.

Lemma flat_lookup objects i info sections k p : objects !! i = Some (info, sections) -> sections !! k = Some p ->
  flat objects !! (length (flat (take i objects)) + k)%nat = Some (info, p).
Proof.
  revert i. induction objects as [|[info0 ss0] objects IH]; intros i Hi Hk; [by rewrite lookup_nil in Hi|]. unfold flat in *. destruct i as [|i].
  - injection Hi as -> ->. cbn [take map concat length Nat.add]. unfold object_items at 1. cbn [fst snd]. rewrite lookup_app_l; [|rewrite length_map; by eapply lookup_lt_Some].
    change (map (pair info) sections) with (pair info <$> sections). by rewrite list_lookup_fmap, Hk.
  - cbn in Hi. cbn [take map concat]. rewrite length_app, <- Nat.add_assoc. rewrite lookup_app_r by apply Nat.le_add_r. rewrite Nat.add_comm, Nat.add_sub. by apply IH.
Qed.

Lemma flat_take_le objects i j : (i <= j)%nat -> (length (flat (take i objects)) <= length (flat (take j objects)))%nat.
Proof.
  intros Hij. replace (take i objects) with (take i (take j objects)) by (rewrite take_take; f_equal; lia). rewrite <- (take_drop i (take j objects)) at 2.
  unfold flat. rewrite map_app, concat_app, length_app. lia.
Qed.

Lemma flat_take_S objects i info sections : objects !! i = Some (info, sections) -> length (flat (take (S i) objects)) = (length (flat (take i objects)) + length sections)%nat.
Proof.
  intros Hi. assert (Et : take (S i) objects = take i objects ++ [(info, sections)]) by (by apply take_S_r). rewrite Et. unfold flat. rewrite map_app, concat_app, length_app. cbn [map concat]. rewrite app_nil_r. unfold object_items. by rewrite length_map.
Qed.

(** Different sections are at different positions. *)
Lemma flat_index_inj objects i1 info1 ss1 k1 p1 i2 info2 ss2 k2 p2 : objects !! i1 = Some (info1, ss1) -> ss1 !! k1 = Some p1 -> objects !! i2 = Some (info2, ss2) -> ss2 !! k2 = Some p2 ->
  (length (flat (take i1 objects)) + k1)%nat = (length (flat (take i2 objects)) + k2)%nat -> i1 = i2 /\ k1 = k2.
Proof.
  intros H1 K1 H2 K2 He. apply lookup_lt_Some in K1, K2. pose proof (flat_take_S _ _ _ _ H1). pose proof (flat_take_S _ _ _ _ H2).
  destruct (Nat.lt_total i1 i2) as [Hlt|[->|Hlt]].
  - pose proof (flat_take_le objects (S i1) i2 ltac:(lia)). lia.
  - split; [done|]. lia.
  - pose proof (flat_take_le objects (S i2) i1 ltac:(lia)). lia.
Qed.

Section placed.
Context {lo o : Z} {out : list Z} {objects : list placed_object} (HA : all_laid lo o out objects).

(** A section of an object that was placed. *)
Lemma placed_section i info sections k s place : objects !! i = Some (info, sections) -> section_of sections k s place ->
  fits lo o (info, (s, place)) /\ filled out (info, (s, place)) /\ item_read (info, (s, place)).
Proof.
  intros Hi [Hk Hz]. destruct HA as [[HI _] Hr]. pose proof (flat_lookup _ _ _ _ _ _ Hi Hk) as Hf. rewrite Forall_elem in Hr. pose proof (flat_read _ (proj2 (Forall_elem _ _) Hr)) as Hfr.
  rewrite Forall_lookup in Hfr. pose proof (Hfr _ _ Hf) as Hx. destruct (HI _ (list_elem_of_lookup_2 _ _ _ Hf)) as [H1 H2]; [|by split].
  split; [|done]. destruct Hx as [_ [Ht _ _ _]]. cbn in *. unfold ZOBJECT_SECTION_TEXT, ZOBJECT_SECTION_DATA, ZOBJECT_SECTION_BSS in Ht.
  rewrite !elem_of_cons. tauto.
Qed.

Lemma sections_apart i1 info1 ss1 k1 s1 p1 i2 info2 ss2 k2 s2 p2 : objects !! i1 = Some (info1, ss1) -> section_of ss1 k1 s1 p1 -> objects !! i2 = Some (info2, ss2) -> section_of ss2 k2 s2 p2 ->
  i1 <> i2 \/ k1 <> k2 -> p1 + sec_mem_size s1 <= p2 \/ p2 + sec_mem_size s2 <= p1.
Proof.
  intros H1 [K1 Z1] H2 [K2 Z2] Hne. pose proof (placed_section _ _ _ _ _ _ H1 (conj K1 Z1)) as (_ & _ & [_ [T1 _ _ _]]). pose proof (placed_section _ _ _ _ _ _ H2 (conj K2 Z2)) as (_ & _ & [_ [T2 _ _ _]]).
  destruct HA as [[_ HP] _]. cbn in T1, T2. unfold ZOBJECT_SECTION_TEXT, ZOBJECT_SECTION_DATA, ZOBJECT_SECTION_BSS in T1, T2.
  eapply (HP _ _ (info1, (s1, p1)) (info2, (s2, p2))); [by eapply flat_lookup|by eapply flat_lookup| | |].
  - intros He. destruct (flat_index_inj _ _ _ _ _ _ _ _ _ _ _ H1 K1 H2 K2 He). lia.
  - split; [|done]. cbn. rewrite !elem_of_cons. tauto.
  - split; [|done]. cbn. rewrite !elem_of_cons. tauto.
Qed.

(** A place of the image goes where its section is. *)
Lemma placed_offset i info sections original m : objects !! i = Some (info, sections) -> 0 <= lo -> o <= 0x7fffffff -> 0 <= original ->
  zo_map_section_offset sections original = Some m ->
  exists k s place, section_of sections k s place /\ first_section (map fst sections) original = Some (k, s) /\
    sec_load_offset s <= original < sec_load_offset s + sec_mem_size s /\ m = place + (original - sec_load_offset s) /\ lo <= m < o.
Proof.
  intros Hi Hlo Ho H0 Hm. destruct HA as [_ Hr]. rewrite Forall_lookup in Hr. destruct (Hr _ _ Hi) as [_ Hs]. cbn [fst snd] in Hs.
  destruct (map_offset_some sections original m) as (k & s & place & Hk & Hf & Hc & ->); [|done|done|].
  { eapply Forall_impl; [|exact Hs]. intros p [_ Hfile Hmem Hload]. cbn. lia. }
  destruct (placed_section _ _ _ _ _ _ Hi Hk) as ((F1 & _ & F3) & _ & _). cbn [item_place item_section fst snd] in F1, F3.
  exists k, s, place. split; [done|]. split; [done|]. split; [done|]. rewrite u32_small by (unfold is_u32; lia). split; [done|]. lia.
Qed.
End placed.

Section link.
Context {E : Type} {ZM : ZMemory E} {KS : KernelSymbols} {AS : Assembler}.
Implicit Types l : linker E.

Lemma gave_up_refl l : gave_up l (-1) l.
Proof. done. Qed.

Lemma gave_up_set l out c l' : length out = length (lk_out l) -> gave_up (set_lk_out out l) c l' -> gave_up l c l'.
Proof. intros Hl [-> Hc]. split; [done|]. cbn in Hc. congruence. Qed.

(** A failed test. *)
Lemma runs_need_or b l : runs (need b (-1)) l (fun _ l' => b = true /\ l' = l) (gave_up l).
Proof. apply runs_need; intros ->; [done|apply gave_up_refl]. Qed.

Lemma runs_some_or_up {A} (o : option A) l : runs (some_or o (-1)) l (fun a l' => o = Some a /\ l' = l) (gave_up l).
Proof. apply runs_some_or. destruct o; [done|apply gave_up_refl]. Qed.

(** What link_error leaves as the last error. *)
Definition cut_name (size : Z) (name : list Z) : list Z := take (Z.to_nat (size - 1)) (cstr name) ++ [0].

Lemma runs_link_error_to {A} reason name l (Q : A -> linker E -> Prop) (X : Z -> linker E -> Prop) : terminated name ->
  X (-1) (set_lk_error (cut_name 64 (c_name reason)) (cut_name ZOBJECT_SYMBOL_NAME_SIZE name) l) -> runs (link_error reason name) l Q X.
Proof.
  intros Hn HX. unfold link_error, zo_set_last_error. cbn [default from_option id]. rewrite !zo_copy_name_terminated by (done || auto with zobj).
  exact HX.
Qed.

Lemma runs_link_error {A} reason name l (Q : A -> linker E -> Prop) : terminated name -> runs (link_error reason name) l Q (gave_up l).
Proof. intros Hn. by apply runs_link_error_to. Qed.

(** ** Reading the sections *)

Lemma read_sections_runs info h js l : reloc_layout info h -> Forall (fun j => 0 <= j < oi_section_count info) js ->
  runs (read_sections info js) l (fun sections l' => l' = l /\ Forall (fun p => section_ok info p.1) sections /\ map fst sections = omap (fun j => mjoin (zo_section_at info j)) js /\ Forall (fun p => p.2 = 0) sections)
    (fun c l' => gave_up l c l' /\ exists j, 0 <= j < oi_section_count info /\ zo_section_at info j = Some None).
Proof.
  intros HL Hj. induction Hj as [|j js Hj _ IH]; cbn [read_sections]; [by apply runs_ret|].
  eapply runs_bind; [apply (runs_chk _ _ (fun r l' => l' = l /\ zo_section_at info j = Some r /\ match r with Some s => section_ok info s | None => True end))|].
  { pose proof (section_at_gives HL j Hj) as Hg. destruct (zo_section_at info j); [by split|done]. }
  intros r ? (-> & Er & Hr). eapply runs_bind; [apply (runs_some_or _ _ _ (fun s l' => r = Some s /\ l' = l)); destruct r; [done|split; [done|by exists j]]|]. intros s ? [-> ->].
  eapply runs_bind; [apply IH|]. intros rest ? (-> & Hs & Hm & Hz). apply runs_ret. split; [done|]. split; [by constructor|]. split; [|by constructor].
  cbn [map fst]. rewrite Hm. cbn [omap list_omap]. by rewrite Er.
Qed.

Lemma below_range n : Forall (fun j => 0 <= j < n) (below n).
Proof. apply Forall_elem. intros j Hj. apply elem_of_seqZ in Hj. lia. Qed.

Lemma below_prefix n d a rest : below n = d ++ a :: rest -> a = Z.of_nat (length d) /\ 0 <= a < n.
Proof.
  intros Hb. assert (Hl : below n !! length d = Some a) by (rewrite Hb; by apply list_lookup_middle). unfold below in Hl. apply lookup_seqZ in Hl. lia.
Qed.

Lemma read_objects_runs infos l : Forall (fun info => exists h, reloc_layout info h) infos ->
  runs (read_objects infos) l (fun objects l' => l' = l /\ Forall object_read objects /\ objects = map unplaced infos)
    (fun c l' => gave_up l c l' /\ ~ Forall sections_readable infos).
Proof.
  intros Hi. induction Hi as [|info infos [h HL] _ IH]; cbn [read_objects]; [by apply runs_ret|].
  eapply runs_bind; [apply (runs_need _ _ _ (fun _ l' => l' = l)); [done|]|].
  { intros Hz. split; [done|]. intros [[Hn _] _]%Forall_cons_1. bool_prop. done. }
  intros _ ? ->. eapply runs_bind_to; [apply (read_sections_runs info h); [done|apply below_range]| |].
  { intros c l' [Hg (j & Hj & Hn)]. split; [done|]. intros [[_ Hall] _]%Forall_cons_1. by apply (Hall j Hj). }
  intros ss ? (-> & Hs & Hm & Hz). eapply runs_bind_to; [apply IH|intros c l' [Hg Hn]; split; [done|]; by intros [_ ?]%Forall_cons_1|].
  intros rest ? (-> & Hr & Hsh). apply runs_ret. split; [done|]. split; [constructor; [split; [eauto|done]|done]|].
  cbn [map]. rewrite Hsh. unfold unplaced at 2. f_equal. f_equal. unfold object_sections. rewrite <- Hm. rewrite map_map. clear -Hz. induction Hz as [|[s q] ss Hq _ IH]; [done|]. cbn in *. by rewrite <- IH, Hq.
Qed.

(** ** The calls of the entries *)

Lemma numbered_lookup {A} (l : list A) i : numbered l !! i = (fun x => (Z.of_nat i, x)) <$> l !! i.
Proof.
  unfold numbered, below. destruct (l !! i) as [x|] eqn:Hx; cbn.
  - apply lookup_zip_with_Some. exists (Z.of_nat i), x. split; [done|]. split; [|done]. apply lookup_lt_Some in Hx. by rewrite lookup_seqZ_lt by lia.
  - apply lookup_zip_with_None. by right.
Qed.

Lemma fits_rel32_spec x : fits_rel32 x = true <-> -2147483648 <= x <= 2147483647.
Proof. unfold fits_rel32. rewrite andb_true_iff, !Z.leb_le. done. Qed.

Lemma s32_u32 d : fits_rel32 d = true -> s32 (u32 d) = d.
Proof.
  rewrite fits_rel32_spec. intros Hd. assert (Hu : u32 (u32 d) = u32 d) by (apply Z.mod_mod; lia). unfold s32. rewrite Hu. unfold u32. destruct (Z.ltb_spec (d mod 4294967296) 2147483648); Z.div_mod_to_equations; lia.
Qed.

Lemma s64_small x : 0 <= x < 9223372036854775808 -> s64 x = x.
Proof. intros Hx. unfold s64. rewrite u64_small by (unfold is_u64; lia). by rewrite (proj2 (Z.ltb_lt _ _)) by lia. Qed.

(** What stands at the entry number [i]. *)
Definition entry_code (entry_start_index i : Z) (sections : list (zo_section_t * Z)) (entry_offset : Z) : option (list Z) :=
  if i <? entry_start_index then Some [0x90; 0x90; 0x90; 0x90; 0x90]
  else m ← zo_map_section_offset sections entry_offset; Some (0xE8 :: le_bytes 4 (m - (i * 5 + 5))).

Lemma le_bytes_mod n v : le_bytes n (v mod 256 ^ Z.of_nat n) = le_bytes n v.
Proof.
  rewrite <- (le_num_bytes n v). rewrite <- (length_le_bytes n v) at 1. apply le_bytes_num, le_bytes_ok.
Qed.

Lemma store_call_runs base call target l : 0 <= base -> 0 <= call -> 0 <= target -> target <= 0x7fffffff -> call + 5 <= 0x7fffffff -> base + 0x7fffffff < 9223372036854775808 -> call + 5 <= out_capacity l ->
  runs (store_call base call target) l (fun _ l' => exists out, l' = set_lk_out out l /\ grown call (call + 5) (lk_out l) out /\ holds out call (0xE8 :: le_bytes 4 (target - (call + 5)))) (fun _ _ => False).
Proof.
  intros Hb Hc0 Ht0 Ht Hc Hw Hcap. unfold store_call. rewrite !s64_small by lia. replace (base + target - (base + (call + 5))) with (target - (call + 5)) by lia.
  eapply runs_bind; [apply (runs_need _ _ _ (fun _ l' => l' = l)); [done|intros Hf; apply not_true_iff_false in Hf; apply Hf, fits_rel32_spec; lia]|]. intros _ ? ->.
  assert (Hlt : (Z.to_nat call < length (lk_out l))%nat) by (unfold out_capacity in Hcap; lia).
  eapply runs_bind; [apply (runs_store _ _ (fun _ l' => exists out, l' = set_lk_out out l /\ grown call (call + 1) (lk_out l) out /\ holds out call [0xE8]))|].
  { rewrite wr8_block. destruct (wr_block_grown (lk_out l) call [0xE8] _ (wr_block_Some (lk_out l) call [0xE8] Hc0 ltac:(cbn [length]; lia))) as [Hg Hh]. rewrite wr_block_Some by (cbn [length]; lia). by eexists. }
  intros _ ? (out1 & -> & G1 & H1). pose proof (grown_length _ _ _ _ G1) as L1. unfold zo_write_u32. rewrite zo_u32_le.
  apply runs_store_block; [lia|rewrite length_le_bytes; unfold out_capacity in *; cbn in *; lia|]. intros out2 G2 H2. cbn [lk_out set_lk_out] in G2. rewrite length_le_bytes in G2.
  exists out2. split; [done|]. split; [eapply (grown_trans _ _ _ out1); [eapply grown_weaken; [| |exact G1]; lia|eapply grown_weaken; [| |exact G2]; lia]|].
  change (0xE8 :: le_bytes 4 (target - (call + 5))) with ([0xE8] ++ le_bytes 4 (target - (call + 5))). apply holds_app; [lia| |].
  - eapply holds_grown; [exact G2|exact H1|left; cbn; lia].
  - cbn [length]. change (u32 ?x) with (x mod 256 ^ Z.of_nat 4) in H2. by rewrite le_bytes_mod in H2.
Qed.

Lemma entry_code_length start i sections entry code : entry_code start i sections entry = Some code -> length code = 5%nat.
Proof. unfold entry_code. destruct (i <? start); [by intros [= <-]|]. destruct (zo_map_section_offset sections entry); [|done]. by intros [= <-]. Qed.

Lemma entry_bytes start i sections entry code : entry_code start i sections entry = Some code -> bytes code.
Proof.
  unfold entry_code. destruct (i <? start); [intros [= <-]; by repeat (apply Forall_cons; [unfold is_u8; lia|])|]. destruct (zo_map_section_offset sections entry); [|done]. cbn [mbind option_bind].
  intros [= <-]. apply Forall_cons; [unfold is_u8; lia|apply (le_bytes_ok 4)].
Qed.

Definition entries_done (start : Z) (n : nat) (objects : list placed_object) (out : list Z) : Prop :=
  forall i info sections, (i < n)%nat -> objects !! i = Some (info, sections) ->
    exists code, entry_code start (Z.of_nat i) sections (oi_entry_offset info) = Some code /\ holds out (Z.of_nat i * 5) code /\ length code = 5%nat.

(** The entries that are called are inside their sections. *)
Definition entries_mapped (start : Z) (objects : list placed_object) : Prop :=
  forall i info sections, objects !! i = Some (info, sections) -> start <= Z.of_nat i -> is_Some (zo_map_section_offset sections (oi_entry_offset info)).

Lemma write_entries_runs base start lo o objects l : all_laid lo o (lk_out l) objects -> lo = Z.of_nat (length objects) * 5 + 1 -> o <= out_capacity l -> lo <= o -> out_capacity l <= 0x7fffffff ->
  0 <= base -> base + 0x7fffffff < 9223372036854775808 ->
  runs (each (numbered objects) (write_entry base start)) l
    (fun _ l' => exists out, l' = set_lk_out out l /\ grown 0 (lo - 1) (lk_out l) out /\ entries_done start (length objects) objects out /\ (bytes (lk_out l) -> bytes out))
    (fun c l' => gave_up l c l' /\ ~ entries_mapped start objects).
Proof.
  intros HA Hlo Hcap Hle Hc Hb Hw.
  eapply runs_mono; [apply (runs_each _ _ (fun dn l' => exists out, l' = set_lk_out out l /\ grown 0 (Z.of_nat (length dn) * 5) (lk_out l) out /\ entries_done start (length dn) objects out /\ (bytes (lk_out l) -> bytes out)) (fun c l' => gave_up l c l' /\ ~ entries_mapped start objects) [])| |done].
  - exists (lk_out l). split; [by destruct l|]. split; [apply grown_refl|]. split; [|done]. intros i ? ? Hi. cbn in Hi. lia.
  - intros d a rest l' Heq (out & -> & G & HE & HY). assert (Hd : numbered objects !! length d = Some a) by (cbn in Heq; rewrite Heq; apply list_lookup_middle; done).
    rewrite numbered_lookup in Hd. destruct (objects !! length d) as [[info ss]|] eqn:Ho; [|done]. injection Hd as <-. pose proof (lookup_lt_Some _ _ _ Ho) as Hlt. cbn [write_entry].
    pose proof (grown_length _ _ _ _ G) as LG. assert (Hcap2 : out_capacity (set_lk_out out l) = out_capacity l) by (unfold out_capacity; cbn; lia).
    assert (Hfin : forall code out2, entry_code start (Z.of_nat (length d)) ss (oi_entry_offset info) = Some code -> grown (Z.of_nat (length d) * 5) (Z.of_nat (length d) * 5 + 5) out out2 -> holds out2 (Z.of_nat (length d) * 5) code ->
      exists out3, set_lk_out out2 (set_lk_out out l) = set_lk_out out3 l /\ grown 0 (Z.of_nat (length (d ++ [(Z.of_nat (length d), (info, ss))])) * 5) (lk_out l) out3 /\ entries_done start (length (d ++ [(Z.of_nat (length d), (info, ss))])) objects out3 /\ (bytes (lk_out l) -> bytes out3)).
    { intros code out2 Hcode G2 H2. exists out2. split; [done|]. rewrite length_app. cbn [length]. split.
      - eapply grown_trans; [eapply grown_weaken; [| |exact G]; lia|eapply grown_weaken; [| |exact G2]; lia].
      - split; [|intros Hby; pose proof (entry_code_length _ _ _ _ _ Hcode) as Hcl; eapply (grown_bytes _ code out); [| |by rewrite Hcl|done|auto|by eapply entry_bytes]; rewrite ?Hcl; unfold out_capacity in *; cbn in *; lia].
        intros i info' ss' Hi Ho'. destruct (decide (i = length d)) as [->|Hne].
        + pose proof (eq_trans (eq_sym Ho) Ho') as Hsame. injection Hsame as <- <-. exists code. split; [done|]. split; [done|]. by eapply entry_code_length.
        + destruct (HE i info' ss' ltac:(lia) Ho') as (code' & E1 & E2 & E3). exists code'. split; [done|]. split; [|done]. eapply holds_grown; [exact G2|exact E2|left; lia]. }
    unfold entry_code in Hfin. destruct (Z.ltb_spec (Z.of_nat (length d)) start).
    + apply runs_store_block; [lia|rewrite Hcap2; cbn [length]; lia|]. intros out2 G2 H2. cbn [lk_out set_lk_out length] in G2. by eapply Hfin.
    + eapply runs_bind; [apply (runs_some_or _ _ _ (fun m l' => zo_map_section_offset ss (oi_entry_offset info) = Some m /\ l' = set_lk_out out l)); destruct (zo_map_section_offset ss (oi_entry_offset info)) eqn:Em; [done|]|].
      { split; [split; [done|cbn; lia]|]. intros Hem. destruct (Hem _ _ _ Ho ltac:(lia)). congruence. }
      intros m ? [Hm ->]. assert (HA' : all_laid lo o (lk_out l) objects) by done. assert (H0 : 0 <= oi_entry_offset info).
      { destruct HA as [_ Hr]. rewrite Forall_lookup in Hr. destruct (Hr _ _ Ho) as [[h HL] _]. pose proof (rl_entry _ _ HL). cbn in *. lia. }
      destruct (placed_offset HA' _ _ _ _ m Ho ltac:(lia) ltac:(lia) H0 Hm) as (k & s & pl & _ & _ & _ & _ & Hrange).
      eapply runs_mono; [apply store_call_runs; [lia..|rewrite Hcap2; lia]| |done].
      intros _ ? (out2 & -> & G2 & H2). cbn [lk_out set_lk_out] in G2. eapply Hfin; [by rewrite Hm|done|done].
  - intros _ l' (out & -> & G & HE & HY). assert (Hn : length ([] ++ numbered objects) = length objects).
    { cbn [app]. unfold numbered, below. rewrite length_zip_with, length_seqZ. lia. }
    rewrite Hn in *. exists out. split; [done|]. split; [|done]. eapply grown_weaken; [| |exact G]; lia.
Qed.

(** ** Exports *)

Definition export_of (base : Z) (object : placed_object) (j : Z) : option zobject_resolved_symbol_t :=
  match zo_symbol_at object.1 j, zo_symbol_value_at object.1 j with
  | Some (Some (type, name)), Some (Some value) =>
      if type =? ZOBJECT_SYMBOL_EXPORT then
        m ← zo_map_section_offset object.2 value; n ← zo_copy_name ZOBJECT_SYMBOL_NAME_SIZE name; Some (ResolvedSymbol n (u64 (base + m)))
      else None
  | _, _ => None
  end.

Definition object_exports (base : Z) (object : placed_object) : list zobject_resolved_symbol_t := omap (export_of base object) (below (oi_symbol_count object.1)).
Definition all_exports (base : Z) (objects : list placed_object) : list zobject_resolved_symbol_t := concat (map (object_exports base) objects).

Definition symbols_readable (info : zo_object_info_t) : Prop := forall j, 0 <= j < oi_symbol_count info -> zo_symbol_at info j <> Some None.

Lemma collect_exports_runs base info ss h js : forall exports l, reloc_layout info h -> object_good info -> Forall (fun j => 0 <= j < oi_symbol_count info) js ->
  runs (collect_exports base (info, ss) js exports) l (fun r l' => l' = l /\ r = exports ++ omap (export_of base (info, ss)) js)
    (fun c l' => gave_up l c l' /\ (ZOBJECT_MAX_RESOLVED_SYMBOLS < Z.of_nat (length exports + length js) \/ ~ symbols_readable info)).
Proof.
  induction js as [|j js IH]; intros exports l HL HG Hj; cbn [collect_exports]; [apply runs_ret; by rewrite app_nil_r|]. apply Forall_cons_1 in Hj as [Hj Hjs].
  eapply runs_bind; [apply (runs_chk _ _ (fun r l' => l' = l /\ zo_symbol_at info j = Some r))|].
  { pose proof (symbol_at_gives HL j Hj) as Hg. destruct (zo_symbol_at info j); [by split|done]. }
  intros sym ? [-> Es]. eapply runs_bind; [apply (runs_some_or _ _ _ (fun x l' => sym = Some x /\ l' = l)); destruct sym; [done|split; [done|right; intros Hr; by apply (Hr j)]]|].
  intros [type name] ? [-> ->]. pose proof (og_symbols _ HG _ _ _ Hj Es) as Hn.
  eapply runs_bind; [apply (runs_chk _ _ (fun r l' => l' = l /\ zo_symbol_value_at info j = Some r /\ is_Some r))|].
  { pose proof (symbol_value_at_gives HL j Hj) as Hg. destruct (zo_symbol_value_at info j) as [[v|]|]; [by repeat split|done|done]. }
  intros ? ? (-> & Ev & [value ->]). eapply runs_bind; [apply (runs_some_or (Some _) _ _ (fun v l' => v = value /\ l' = l)); done|]. intros ? ? [-> ->]. cbn [omap list_omap].
  assert (Hmore : forall exports' : list zobject_resolved_symbol_t, (length exports' <= S (length exports))%nat -> forall c l', gave_up l c l' /\ (ZOBJECT_MAX_RESOLVED_SYMBOLS < Z.of_nat (length exports' + length js) \/ ~ symbols_readable info) ->
    gave_up l c l' /\ (ZOBJECT_MAX_RESOLVED_SYMBOLS < Z.of_nat (length exports + length (j :: js)) \/ ~ symbols_readable info)).
  { intros exports' Hle c l' [Hg [H|H]]; (split; [done|]); [left; cbn [length]; lia|by right]. }
  assert (Ex : export_of base (info, ss) j = if type =? ZOBJECT_SYMBOL_EXPORT then m ← zo_map_section_offset ss value; n ← zo_copy_name ZOBJECT_SYMBOL_NAME_SIZE name; Some (ResolvedSymbol n (u64 (base + m))) else None)
    by (unfold export_of; cbn [fst snd]; by rewrite Es, Ev).
  rewrite Ex. clear Ex. destruct (type =? ZOBJECT_SYMBOL_EXPORT); cbn [negb]; [|eapply runs_mono; [by apply IH|done|apply Hmore; lia]].
  destruct (_ <=? _) eqn:Em; [apply runs_link_error_to; [done|]; split; [done|]; left; bool_prop; cbn [length]; lia|].
  destruct (zo_map_section_offset ss value) as [m|]; [|eapply runs_mono; [by apply IH|done|apply Hmore; lia]].
  rewrite zo_copy_name_terminated by done. cbn [mbind option_bind].
  eapply runs_bind; [apply (runs_chk (Some _) _ (fun n l' => l' = l /\ n = take (Z.to_nat (ZOBJECT_SYMBOL_NAME_SIZE - 1)) (cstr name) ++ [0])); done|].
  intros n ? [-> ->]. eapply runs_mono; [apply (IH _ l HL HG Hjs)| |apply Hmore; rewrite length_app; cbn [length]; lia]. intros r l' [-> ->]. split; [done|]. by rewrite <- app_assoc.
Qed.

(** The number of symbols of all objects. *)
Definition symbols_in (objects : list placed_object) : Z := foldr (fun x n => oi_symbol_count x.1 + n) 0 objects.

Lemma symbols_in_nonneg objects : Forall object_read objects -> 0 <= symbols_in objects.
Proof. induction 1 as [|[info ss] objects [[h HL] _] _ IH]; [done|]. cbn [symbols_in foldr fst]. fold (symbols_in objects). pose proof (rl_symbol_count _ _ HL). cbn in *. lia. Qed.

Lemma omap_length_le {A B} (f : A -> option B) (xs : list A) : (length (omap f xs) <= length xs)%nat.
Proof. induction xs as [|x xs IH]; [done|]. cbn [omap list_omap]. destruct (f x); cbn [length]; lia. Qed.

Lemma collect_all_exports_runs base objects : forall exports l, Forall object_read objects -> Forall (fun x => object_good x.1) objects ->
  runs (collect_all_exports base objects exports) l (fun r l' => l' = l /\ r = exports ++ all_exports base objects)
    (fun c l' => gave_up l c l' /\ (ZOBJECT_MAX_RESOLVED_SYMBOLS < Z.of_nat (length exports) + symbols_in objects \/ ~ Forall (fun x => symbols_readable x.1) objects)).
Proof.
  unfold all_exports. induction objects as [|[info ss] objects IH]; intros exports l Hr Hg; cbn [collect_all_exports]; [apply runs_ret; by rewrite app_nil_r|].
  apply Forall_cons_1 in Hr as [[[h HL] _] Hr]. apply Forall_cons_1 in Hg as [HG Hg]. cbn [fst] in *.
  pose proof (rl_symbol_count _ _ HL) as Hcount. assert (Hin : 0 <= symbols_in objects) by (by apply symbols_in_nonneg). assert (Hbl : length (below (oi_symbol_count info)) = Z.to_nat (oi_symbol_count info)) by apply length_seqZ.
  eapply runs_bind_to; [apply (collect_exports_runs _ _ _ h); [done|done|apply below_range]| |].
  { intros c l' [Hu [H|H]]; (split; [done|]); [left; cbn [symbols_in foldr fst]; fold (symbols_in objects); rewrite Hbl in H; lia|right; by intros [? _]%Forall_cons_1]. }
  intros r ? [-> ->]. eapply runs_mono; [by apply IH| |].
  2: { intros c l' [Hu [H|H]]; (split; [done|]); [left|right; by intros [_ ?]%Forall_cons_1]. cbn [symbols_in foldr fst]. fold (symbols_in objects). rewrite length_app in H.
    pose proof (omap_length_le (export_of base (info, ss)) (below (oi_symbol_count info))). lia. }
  intros r' l' [-> ->]. split; [done|]. cbn [map concat]. by rewrite <- app_assoc.
Qed.

Lemma terminated_cut n name : terminated (take n name ++ [0]).
Proof. apply terminated_app. auto with zobj. Qed.

Lemma all_exports_names base objects : Forall (fun x => object_good x.1) objects -> names_ok (all_exports base objects).
Proof.
  intros Hg. unfold names_ok, all_exports. apply Forall_concat. rewrite Forall_map. eapply Forall_impl; [|exact Hg]. intros [info ss] HG. cbn [fst] in HG.
  apply Forall_elem. intros s Hs. unfold object_exports in Hs. apply list_elem_of_omap in Hs as (j & Hjr & Hj). apply elem_of_seqZ in Hjr. unfold export_of in Hj. cbn [fst snd] in Hj.
  destruct (zo_symbol_at info j) as [[[type name]|]|] eqn:Es; try done. destruct (zo_symbol_value_at info j) as [[value|]|]; try done.
  destruct (type =? ZOBJECT_SYMBOL_EXPORT); [|done]. destruct (zo_map_section_offset ss value); [|done]. cbn [mbind option_bind] in Hj.
  rewrite zo_copy_name_terminated in Hj by (done || (eapply og_symbols; [done| |exact Es]; cbn in *; lia)). cbn [mbind option_bind] in Hj. injection Hj as <-. cbn [rs_name]. apply terminated_cut.
Qed.

(** ** Relocations *)

(** The new value of a field with the value [old]. *)
Definition field_value (base : Z) (exports externals : list zobject_resolved_symbol_t) (sections : list (zo_section_t * Z)) (type offset patch : Z) (name : list Z) (old : Z) : option Z :=
  if type =? ZOBJECT_RELOC_RELATIVE64 then m ← zo_map_section_offset sections old; Some (u64 (base + m))
  else if type =? ZOBJECT_RELOC_RIP32 then
    d ← (if bool_decide (cstr name = []) then
           if offset + 4 + s32 old <? 0 then None else m ← zo_map_section_offset sections (offset + 4 + s32 old); Some (m - (patch + 4))
         else v ← resolve exports externals (cstr name); Some (s64 v + s32 old - (base + patch)));
    if fits_rel32 d then Some (u32 d) else None
  else v ← resolve exports externals (cstr name); Some (u64 (s64 v + if bool_decide (cstr name = []) then 0 else s64 old)).

Lemma has_name_eq name : terminated name -> has_name name = Some (negb (bool_decide (cstr name = []))).
Proof.
  unfold has_name, terminated. destruct name as [|c name]; [by intros H%elem_of_nil|]. intros _. change (rd8 (c :: name) 0) with (Some c). cbn [mbind option_bind cstr]. by destruct (c =? 0).
Qed.

Lemma le_bytes_u32 v : le_bytes 4 (u32 v) = le_bytes 4 v.
Proof. exact (le_bytes_mod 4 v). Qed.
Lemma le_bytes_u64 v : le_bytes 8 (u64 v) = le_bytes 8 v.
Proof. exact (le_bytes_mod 8 v). Qed.

(** A field of [n] bytes gets a value, nothing else changes. *)
Definition field_set l (patch : Z) (n : nat) (v : Z) l' : Prop :=
  exists out, l' = set_lk_out out l /\ grown patch (patch + Z.of_nat n) (lk_out l) out /\ holds out patch (le_bytes n v).

Lemma write_u64_runs patch v l (X : Z -> linker E -> Prop) : 0 <= patch -> patch + 8 <= out_capacity l -> runs (store (fun out => zo_write_u64 out patch v)) l (fun _ l' => field_set l patch 8 v l') X.
Proof.
  intros Hp Hc. unfold zo_write_u64. rewrite zo_u64_le. apply runs_store_block; [lia|rewrite length_le_bytes; lia|]. intros out Hg Hh. rewrite length_le_bytes in Hg. by exists out.
Qed.

Lemma write_u32_runs patch v l (X : Z -> linker E -> Prop) : 0 <= patch -> patch + 4 <= out_capacity l -> runs (store (fun out => zo_write_u32 out patch v)) l (fun _ l' => field_set l patch 4 v l') X.
Proof.
  intros Hp Hc. unfold zo_write_u32. rewrite zo_u32_le. apply runs_store_block; [lia|rewrite length_le_bytes; lia|]. intros out Hg Hh. rewrite length_le_bytes in Hg. by exists out.
Qed.

Lemma read_out_u64_runs patch l (X : Z -> linker E -> Prop) : bytes (lk_out l) -> 0 <= patch -> patch + 8 <= out_capacity l -> runs (read_out_u64 patch) l (fun v l' => v = le_num (slice (lk_out l) patch 8) /\ l' = l) X.
Proof.
  intros Hb Hp Hc. unfold read_out_u64. eapply runs_bind; [apply (runs_look _ _ (fun o l' => o = lk_out l /\ l' = l)); done|]. intros o ? [-> ->]. apply runs_chk.
  rewrite zo_read_u64_slice by done. done.
Qed.

Lemma read_out_u32_runs patch l (X : Z -> linker E -> Prop) : bytes (lk_out l) -> 0 <= patch -> patch + 4 <= out_capacity l -> runs (read_out_u32 patch) l (fun v l' => v = le_num (slice (lk_out l) patch 4) /\ l' = l) X.
Proof.
  intros Hb Hp Hc. unfold read_out_u32. eapply runs_bind; [apply (runs_look _ _ (fun o l' => o = lk_out l /\ l' = l)); done|]. intros o ? [-> ->]. apply runs_chk.
  rewrite zo_read_u32_slice by done. done.
Qed.

Section one_relocation.
Context (base : Z) (exports externals : list zobject_resolved_symbol_t) (ss : list (zo_section_t * Z)) (offset patch : Z) (name : list Z) (l : linker E).
Context (Hn : terminated name) (He : names_ok exports) (Hx : names_ok externals) (Hp : 0 <= patch) (Hb : bytes (lk_out l)) (Hc : out_capacity l <= 0x7fffffff)
  (Hb0 : 0 <= base) (Hw : base + 0x7fffffff < 9223372036854775808).

(** The field has no new value. *)
Definition unresolved (type : Z) (c : Z) l' : Prop :=
  gave_up l c l' /\ field_value base exports externals ss type offset patch name (le_num (slice (lk_out l) patch (field_size type))) = None.

Lemma relative64_runs : patch + 8 <= out_capacity l -> runs (relocate_relative64 base ss patch) l
  (fun _ l' => exists v, field_value base exports externals ss ZOBJECT_RELOC_RELATIVE64 offset patch name (le_num (slice (lk_out l) patch 8)) = Some v /\ field_set l patch 8 v l') (unresolved ZOBJECT_RELOC_RELATIVE64).
Proof.
  intros Hcap. unfold relocate_relative64. eapply runs_bind; [by apply read_out_u64_runs|]. intros v ? [-> ->].
  eapply runs_bind; [apply (runs_some_or _ _ _ (fun m l' => zo_map_section_offset ss (le_num (slice (lk_out l) patch 8)) = Some m /\ l' = l)); destruct (zo_map_section_offset ss _) eqn:Em; [done|split; [done|]; unfold field_value; cbn; by rewrite Em]|].
  intros m ? [Hm ->].
  eapply runs_mono; [by apply write_u64_runs| |done]. intros ? l' Hf. eexists. split; [|exact Hf]. unfold field_value. cbn [Z.eqb ZOBJECT_RELOC_RELATIVE64 Pos.eqb]. by rewrite Hm.
Qed.

Lemma abs64_runs : patch + 8 <= out_capacity l -> runs (relocate_abs64 exports externals patch name) l
  (fun _ l' => exists v, field_value base exports externals ss ZOBJECT_RELOC_ABS64 offset patch name (le_num (slice (lk_out l) patch 8)) = Some v /\ field_set l patch 8 v l') (unresolved ZOBJECT_RELOC_ABS64).
Proof.
  intros Hcap. unfold relocate_abs64. rewrite has_name_eq, resolve_link_symbol_eq by done.
  eapply runs_bind; [apply (runs_chk (Some _) _ (fun b l' => b = negb (bool_decide (cstr name = [])) /\ l' = l)); done|]. intros b ? [-> ->].
  eapply runs_bind; [apply (runs_mono _ _ (fun a l' => a = (if bool_decide (cstr name = []) then 0 else le_num (slice (lk_out l) patch 8)) /\ l' = l) _ (fun _ _ => False)); [|intros a l' H; exact H|done]|].
  { destruct (bool_decide (cstr name = [])); cbn [negb]; [by apply runs_ret|by apply read_out_u64_runs]. }
  intros a ? [-> ->]. eapply runs_bind; [apply (runs_chk (Some _) _ (fun v l' => v = resolve exports externals (cstr name) /\ l' = l)); done|]. intros v ? [Hv ->].
  destruct v as [v|]; [|apply runs_link_error_to; [done|]; split; [done|]; unfold field_value; cbn; by rewrite <- Hv]. eapply runs_mono; [by apply write_u64_runs| |done]. intros ? l' Hf. eexists. split; [|exact Hf].
  unfold field_value. cbn [Z.eqb ZOBJECT_RELOC_RELATIVE64 ZOBJECT_RELOC_RIP32 ZOBJECT_RELOC_ABS64 Pos.eqb]. rewrite <- Hv. cbn [mbind option_bind]. by case_bool_decide.
Qed.

Lemma rip32_runs : patch + 4 <= out_capacity l -> runs (relocate_rip32 base exports externals ss offset patch name) l
  (fun _ l' => exists v, field_value base exports externals ss ZOBJECT_RELOC_RIP32 offset patch name (le_num (slice (lk_out l) patch 4)) = Some v /\ field_set l patch 4 v l') (unresolved ZOBJECT_RELOC_RIP32).
Proof.
  intros Hcap. unfold relocate_rip32. eapply runs_bind; [by apply read_out_u32_runs|]. intros old ? [Hold ->]. rewrite has_name_eq, resolve_link_symbol_eq by done.
  eapply runs_bind; [apply (runs_chk (Some _) _ (fun b l' => b = negb (bool_decide (cstr name = [])) /\ l' = l)); done|]. intros b ? [-> ->].
  apply (runs_bind _ _ _ (fun d l' => l' = l /\ (if bool_decide (cstr name = []) then
           if offset + 4 + s32 old <? 0 then None else m ← zo_map_section_offset ss (offset + 4 + s32 old); Some (m - (patch + 4))
         else v ← resolve exports externals (cstr name); Some (s64 v + s32 old - (base + patch))) = Some d)).
  { assert (Hnone : forall c l', (if bool_decide (cstr name = []) then if offset + 4 + s32 old <? 0 then None else m ← zo_map_section_offset ss (offset + 4 + s32 old); Some (m - (patch + 4))
         else v ← resolve exports externals (cstr name); Some (s64 v + s32 old - (base + patch))) = None -> gave_up l c l' -> unresolved ZOBJECT_RELOC_RIP32 c l').
    { intros c l' Hz Hg. split; [done|]. unfold field_value, field_size. cbn [Z.eqb ZOBJECT_RELOC_RELATIVE64 ZOBJECT_RELOC_RIP32 ZOBJECT_RELOC_ABS64 Pos.eqb]. rewrite <- Hold, Hz. done. }
    destruct (bool_decide (cstr name = [])) in Hnone |- *; cbn [negb].
    - apply (runs_bind _ _ _ (fun _ l' => (offset + 4 + s32 old <? 0) = false /\ l' = l)); [apply runs_need; intros Hneg; [by apply negb_true_iff in Hneg|]; apply negb_false_iff in Hneg; apply Hnone; [by rewrite Hneg|done]|].
      intros _ ? [Hneg ->]. rewrite Hneg. apply (runs_bind _ _ _ (fun m l' => zo_map_section_offset ss (offset + 4 + s32 old) = Some m /\ l' = l)).
      { apply runs_some_or. destruct (zo_map_section_offset ss (offset + 4 + s32 old)) eqn:Em; [done|]. apply Hnone; [by rewrite Hneg|done]. }
      intros m ? [Hm ->]. apply runs_ret.
      split; [done|]. rewrite Hm. cbn [mbind option_bind]. by rewrite u32_small by (unfold is_u32; lia).
    - eapply runs_bind; [apply (runs_chk (Some _) _ (fun v l' => v = resolve exports externals (cstr name) /\ l' = l)); done|]. intros v ? [Hv ->].
      destruct v as [v|]; [|apply runs_link_error_to; [done|]; apply Hnone; [by rewrite <- Hv|done]]. apply runs_ret. split; [done|]. rewrite <- Hv. cbn [mbind option_bind]. by rewrite (s64_small (base + patch)) by lia. }
  intros d ? [-> Hd]. destruct (fits_rel32 d) eqn:Ef; cbn [negb].
  2: { apply runs_link_error_to; [done|]. split; [done|]. unfold field_value, field_size. cbn [Z.eqb ZOBJECT_RELOC_RELATIVE64 ZOBJECT_RELOC_RIP32 ZOBJECT_RELOC_ABS64 Pos.eqb]. rewrite <- Hold, Hd. cbn [mbind option_bind]. by rewrite Ef. }
   eapply runs_mono; [by apply write_u32_runs| |done]. intros ? l' Hf. eexists. split; [|exact Hf].
  unfold field_value. cbn [Z.eqb ZOBJECT_RELOC_RELATIVE64 ZOBJECT_RELOC_RIP32 ZOBJECT_RELOC_ABS64 Pos.eqb]. rewrite <- Hold, Hd. cbn [mbind option_bind]. by rewrite Ef.
Qed.

(** One relocation of an object. *)
Lemma apply_relocation_runs info j type : relocation info j type offset name -> relocation_type type -> zo_map_section_offset ss offset = Some patch -> patch + field_size type <= out_capacity l ->
  runs (apply_relocation base exports externals (info, ss) j) l
    (fun _ l' => exists v, field_value base exports externals ss type offset patch name (le_num (slice (lk_out l) patch (field_size type))) = Some v /\
      field_set l patch (Z.to_nat (field_size type)) v l') (unresolved type).
Proof.
  intros [_ Hrel] Hty Hm Hcap. unfold apply_relocation.
  eapply runs_bind; [apply (runs_chk _ _ (fun r l' => l' = l /\ r = Some (type, offset, name))); by rewrite Hrel|]. intros r ? [-> ->].
  eapply runs_bind; [apply (runs_some_or (Some _) _ _ (fun r l' => r = (type, offset, name) /\ l' = l)); done|]. intros ? ? [-> ->]. cbv beta iota.
  eapply runs_bind; [apply (runs_some_or _ _ _ (fun p l' => p = patch /\ l' = l)); by rewrite Hm|]. intros p ? [-> ->].
  destruct Hty as [-> | [-> | ->]]; cbn [Z.eqb ZOBJECT_RELOC_ABS64 ZOBJECT_RELOC_RELATIVE64 ZOBJECT_RELOC_RIP32 Pos.eqb].
  - by apply abs64_runs.
  - by apply relative64_runs.
  - by apply rip32_runs.
Qed.
End one_relocation.
End link.
