(* ===== verification/ZLinkImage.v ===== *)
(** The whole image: the relocations of all objects, and what a link of objects
    with sections leaves in the buffer. *)
From Stdlib Require Import ZArith Lia.
From stdpp Require Import base tactics option list numbers.
From S2P Require Import Prelude.
From S2P Require Import Buffer.
From S2P Require Import KernelExports.
From S2P Require Import ZObject.
From S2P Require Import ZObjectSpec.
From S2P Require Import ZLink.
From S2P Require Import ZLayout.
From S2P Require Import ZLinkSpec.
#[local] Open Scope Z_scope.

Lemma all_laid_grown lo o out out' objects : grown 0 lo out out' -> all_laid lo o out objects -> all_laid lo o out' objects.
Proof.
  intros Hg [[HI HA] Hr]. split; [|done]. split; [|done]. intros x Hx Ht. destruct (HI x Hx Ht) as [Hf Hfl]. split; [done|]. eapply holds_grown; [exact Hg|exact Hfl|].
  right. apply Hf.
Qed.

Lemma grown_lookup i j l l' (n : nat) : grown i j l l' -> Z.of_nat n < i \/ j <= Z.of_nat n -> 0 <= j -> l' !! n = l !! n.
Proof.
  intros (_ & Ht & Hd) Hor Hj. destruct Hor as [Hlt|Hge].
  - rewrite <- (lookup_take_lt l' (Z.to_nat i) n), <- (lookup_take_lt l (Z.to_nat i) n) by lia. by rewrite Ht.
  - replace n with (Z.to_nat j + (n - Z.to_nat j))%nat by lia. rewrite <- !lookup_drop. by rewrite Hd.
Qed.

Lemma slice_ext l l' i n : 0 <= i -> 0 <= n -> length l' = length l -> (forall k, i <= Z.of_nat k < i + n -> l' !! k = l !! k) -> slice l' i n = slice l i n.
Proof.
  intros Hi Hn HL Hk. apply list_eq. intros k. unfold slice. destruct (Nat.lt_ge_cases k (Z.to_nat n)).
  - rewrite !lookup_take_lt by lia. rewrite !lookup_drop. apply Hk. lia.
  - rewrite !lookup_take_ge by lia. done.
Qed.

Lemma slice_holds l i bs d n : holds l i bs -> 0 <= d -> 0 <= n -> d + n <= Z.of_nat (length bs) -> slice l (i + d) n = slice bs d n.
Proof.
  intros [Hi Hs] Hd Hn Hle. rewrite <- Hs. unfold slice. rewrite skipn_firstn_comm, take_take, drop_drop. f_equal; [lia|]. f_equal. lia.
Qed.

(** What the object has in a field. *)
Definition field_original (info : zo_object_info_t) (type offset : Z) : Z :=
  match first_section (object_sections info) offset with
  | Some (_, s) => le_num (slice (section_bytes info s) (offset - sec_load_offset s) (field_size type))
  | None => 0
  end.

Section relocations.
Context {E : Type} {ZM : ZMemory E} {KS : KernelSymbols} {AS : Assembler}.
Implicit Types l : linker E.
Context (base lo o : Z) (exports externals : list zobject_resolved_symbol_t) (out0 : list Z) (objects : list placed_object).
Context (HA : all_laid lo o out0 objects) (HG : Forall (fun x => object_good x.1) objects) (HS : Forall (fun x => map fst x.2 = object_sections x.1) objects)
  (Hlo : 0 <= lo) (Ho : o <= Z.of_nat (length out0)) (Hc : Z.of_nat (length out0) <= 0x7fffffff) (Hb0 : 0 <= base) (Hw : base + 0x7fffffff < 9223372036854775808)
  (He : names_ok exports) (Hx : names_ok externals).

(** The field of the relocation number [j] of the object number [i]. *)
Definition field (i : nat) (j : Z) (info : zo_object_info_t) (ss : list (zo_section_t * Z)) (type offset : Z) (name : list Z) (patch : Z) : Prop :=
  objects !! i = Some (info, ss) /\ relocation info j type offset name /\ zo_map_section_offset ss offset = Some patch.

Lemma object_facts i info ss : objects !! i = Some (info, ss) -> (exists h, reloc_layout info h) /\ object_good info /\ map fst ss = object_sections info.
Proof.
  intros Hi. destruct HA as [_ Hr]. rewrite Forall_lookup in HG, HS, Hr. destruct (Hr _ _ Hi) as [Hh _]. split; [exact Hh|]. split; [exact (HG _ _ Hi)|exact (HS _ _ Hi)].
Qed.

Lemma field_size_range t : relocation_type t -> field_size t = 4 \/ field_size t = 8.
Proof. intros [-> | [-> | ->]]; [by right|by right|by left]. Qed.

Lemma relocation_facts info j type offset name : (exists h, reloc_layout info h) -> relocation info j type offset name -> relocation_type type /\ 0 <= offset.
Proof. intros [h HL] [Hj Hr]. pose proof (relocation_at_gives HL j Hj) as Hg. rewrite Hr in Hg. cbn in Hg. tauto. Qed.

(** A field lies within one section. *)
Lemma field_place i j info ss type offset name patch : field i j info ss type offset name patch ->
  exists k s pl, section_of ss k s pl /\ first_section (object_sections info) offset = Some (k, s) /\ sec_load_offset s <= offset /\ offset + field_size type <= sec_load_offset s + sec_mem_size s /\
    patch = pl + (offset - sec_load_offset s) /\ lo <= patch /\ patch + field_size type <= o.
Proof.
  intros (Hi & Hr & Hm). destruct (object_facts _ _ _ Hi) as (Hh & Hgood & Hsec). destruct (relocation_facts _ _ _ _ _ Hh Hr) as [Hty H0].
  destruct (placed_offset HA _ _ _ _ _ Hi Hlo ltac:(lia) H0 Hm) as (k & s & pl & Hk & Hf & Hin & -> & Hrange).
  rewrite Hsec in Hf. pose proof (og_fields _ Hgood _ _ _ _ _ _ Hr Hf) as Hend. destruct (placed_section HA _ _ _ _ _ _ Hi Hk) as ((F1 & _ & F3) & _ & _). cbn in F1, F3.
  exists k, s, pl. split; [done|]. split; [done|]. repeat split; lia.
Qed.

Lemma field_old i j info ss type offset name patch : field i j info ss type offset name patch -> le_num (slice out0 patch (field_size type)) = field_original info type offset.
Proof.
  intros HF. destruct (field_place _ _ _ _ _ _ _ _ HF) as (k & s & pl & Hk & Hf & A1 & A2 & -> & _). unfold field_original. rewrite Hf. f_equal.
  destruct HF as (Hi & Hr & _). destruct (object_facts _ _ _ Hi) as (Hh & _). destruct (relocation_facts _ _ _ _ _ Hh Hr) as [Hty _]. pose proof (field_size_range _ Hty).
  destruct (placed_section HA _ _ _ _ _ _ Hi Hk) as (_ & Hfl & Hread). pose proof (item_bytes_length _ Hread) as Hlen. cbn in Hlen.
  apply (slice_holds out0 pl (section_bytes info s)); [exact Hfl|lia|lia|]. unfold item_bytes in Hlen. cbn in Hlen. lia.
Qed.

(** Every field can be found and has a new value. *)
Definition relocatable : Prop := forall i j info ss, objects !! i = Some (info, ss) -> 0 <= j < oi_reloc_count info ->
  exists type offset name patch, field i j info ss type offset name patch /\ is_Some (field_value base exports externals ss type offset patch name (field_original info type offset)).

Lemma field_unique i j info ss type offset name patch info' ss' type' offset' name' patch' : field i j info ss type offset name patch -> field i j info' ss' type' offset' name' patch' ->
  info' = info /\ ss' = ss /\ type' = type /\ offset' = offset /\ name' = name /\ patch' = patch.
Proof.
  intros (H1 & [_ H2] & H3) (K1 & [_ K2] & K3). pose proof (eq_trans (eq_sym H1) K1) as Hs. injection Hs as <- <-. rewrite H2 in K2. injection K2 as <- <- <-. rewrite H3 in K3. by injection K3 as <-.
Qed.

Lemma fields_apart i j info ss type offset name patch i' j' info' ss' type' offset' name' patch' :
  field i j info ss type offset name patch -> field i' j' info' ss' type' offset' name' patch' -> i <> i' \/ j <> j' ->
  patch + field_size type <= patch' \/ patch' + field_size type' <= patch.
Proof.
  intros HF HF' Hne. destruct (field_place _ _ _ _ _ _ _ _ HF) as (k & s & pl & Hk & _ & A1 & A2 & -> & _). destruct (field_place _ _ _ _ _ _ _ _ HF') as (k' & s' & pl' & Hk' & _ & B1 & B2 & -> & _).
  destruct HF as (Hi & Hr & _), HF' as (Hi' & Hr' & _). destruct (decide (i = i' /\ k = k')) as [[<- <-]|Hd].
  - pose proof (eq_trans (eq_sym Hi) Hi') as Hs. injection Hs as <- <-. destruct Hk as [Hk _], Hk' as [Hk' _]. rewrite Hk in Hk'. injection Hk' as <- <-.
    destruct (object_facts _ _ _ Hi) as (_ & Hgood & _). destruct (og_apart _ Hgood _ _ _ _ _ _ _ _ Hr Hr'); [destruct Hne; [done|done]|lia|lia].
  - assert (i <> i' \/ k <> k') as Hne2 by (destruct (decide (i = i')), (decide (k = k')); tauto). pose proof (sections_apart HA _ _ _ _ _ _ _ _ _ _ _ _ Hi Hk Hi' Hk' Hne2). lia.
Qed.

(** The fields in [D] are patched, everything else is as it was. *)
Record patched (D : nat -> Z -> Prop) (out : list Z) : Prop := Patched {
  pa_length : length out = length out0;
  pa_bytes : bytes out;
  pa_exists : forall i j info ss, objects !! i = Some (info, ss) -> 0 <= j < oi_reloc_count info -> D i j -> exists type offset name patch, field i j info ss type offset name patch;
  pa_fields : forall i j info ss type offset name patch, field i j info ss type offset name patch -> D i j ->
    exists v, field_value base exports externals ss type offset patch name (field_original info type offset) = Some v /\ holds out patch (le_bytes (Z.to_nat (field_size type)) v);
  pa_rest : forall n, (forall i j info ss type offset name patch, field i j info ss type offset name patch -> D i j -> Z.of_nat n < patch \/ patch + field_size type <= Z.of_nat n) -> out !! n = out0 !! n
}.

Lemma patched_ext (D D' : nat -> Z -> Prop) out : (forall i j info ss, objects !! i = Some (info, ss) -> 0 <= j < oi_reloc_count info -> D i j <-> D' i j) -> patched D out -> patched D' out.
Proof.
  intros Hd [P1 P2 P3 P4 P5]. split; [done|done| | |].
  - intros i j info ss Hi Hj HD. apply (P3 _ _ _ _ Hi Hj). by eapply Hd.
  - intros i j info ss type offset name patch HF HD. apply (P4 i j info ss type offset name patch HF). destruct HF as (Hi & [Hj _] & _). by eapply Hd.
  - intros n Hn. apply P5. intros i j info ss type offset name patch HF HD. eapply Hn; [exact HF|]. destruct HF as (Hi & [Hj _] & _). by eapply Hd.
Qed.

(** One more field. *)
Lemma patched_step (D : nat -> Z -> Prop) i j info ss l : objects !! i = Some (info, ss) -> 0 <= j < oi_reloc_count info -> ~ D i j -> patched D (lk_out l) ->
  runs (apply_relocation base exports externals (info, ss) j) l
    (fun _ l' => exists out, l' = set_lk_out out l /\ patched (fun i' j' => D i' j' \/ (i' = i /\ j' = j)) out) (fun c l' => gave_up l c l' /\ ~ relocatable).
Proof.
  intros Hi Hj HD [P1 P2 P3 P4 P5]. destruct (object_facts _ _ _ Hi) as (Hh & Hgood & Hsec). pose proof Hh as [h HL].
  pose proof (relocation_at_gives HL j Hj) as Hg.
  destruct (zo_relocation_at info j) as [[[[type offset] name]|]|] eqn:Er; [| |done].
  2: { unfold apply_relocation. rewrite Er. split; [apply gave_up_refl|]. intros Hok. destruct (Hok _ _ _ _ Hi Hj) as (? & ? & ? & ? & (_ & [_ Hr] & _) & _). congruence. }
  cbn in Hg. destruct Hg as (Hty & H0 & _ & _). assert (Hrel : relocation info j type offset name) by (by split).
  destruct (zo_map_section_offset ss offset) as [patch|] eqn:Em.
  2: { unfold apply_relocation, runs, mbind, C_bind, chk. rewrite Er. unfold some_or. rewrite Em. split; [apply gave_up_refl|].
    intros Hok. destruct (Hok _ _ _ _ Hi Hj) as (? & ? & ? & ? & (_ & [_ Hr] & Hm) & _). congruence. }
  assert (HF : field i j info ss type offset name patch) by done.
  destruct (field_place _ _ _ _ _ _ _ _ HF) as (k & s & pl & _ & _ & _ & _ & _ & Hpl & Hpe). pose proof (field_size_range _ Hty) as Hfs.
  assert (Hold : slice (lk_out l) patch (field_size type) = slice out0 patch (field_size type)).
  { apply slice_ext; [lia|lia|done|]. intros n Hn. apply P5. intros i' j' info' ss' type' offset' name' patch' HF' HD'.
    destruct (fields_apart _ _ _ _ _ _ _ _ _ _ _ _ _ _ _ _ HF HF'); [|lia|lia]. destruct (decide (i = i' /\ j = j')) as [[-> ->]|Hn2]; [done|]. destruct (decide (i = i')), (decide (j = j')); tauto. }
  assert (Horig : le_num (slice (lk_out l) patch (field_size type)) = field_original info type offset) by (rewrite Hold; by eapply field_old).
  eapply runs_mono; [apply (apply_relocation_runs base exports externals ss offset patch name l); try done; [by eapply og_relocations|lia|unfold out_capacity; lia|unfold out_capacity; lia]| |].
  2: { intros c l' [Hgu Hnone]. split; [done|]. intros Hok. destruct (Hok _ _ _ _ Hi Hj) as (type' & offset' & name' & patch' & HF' & [v Hv]).
    destruct (field_unique _ _ _ _ _ _ _ _ _ _ _ _ _ _ HF HF') as (_ & _ & -> & -> & -> & ->). rewrite Horig in Hnone. congruence. }
  intros ? l' (v & Hv & out & -> & G & Hh2). rewrite Z2Nat.id in G by lia. exists out. split; [done|].
  rewrite Horig in Hv. split.
  - rewrite <- P1. by eapply grown_length.
  - eapply (grown_bytes patch (le_bytes (Z.to_nat (field_size type)) v) (lk_out l)); [lia|rewrite length_le_bytes; lia|rewrite length_le_bytes, Z2Nat.id by lia; exact G|exact Hh2|done|apply le_bytes_ok].
  - intros i' j' info' ss' Hi' Hj' [HD'|[-> ->]]; [by eapply P3|]. pose proof (eq_trans (eq_sym Hi) Hi') as Hs. injection Hs as <- <-. by exists type, offset, name, patch.
  - intros i' j' info' ss' type' offset' name' patch' HF' [HD'|[-> ->]].
    + destruct (P4 _ _ _ _ _ _ _ _ HF' HD') as (v' & Hv' & Hh'). exists v'. split; [done|]. eapply holds_grown; [exact G|exact Hh'|]. rewrite length_le_bytes.
      destruct (field_place _ _ _ _ _ _ _ _ HF') as (_ & _ & _ & _ & _ & _ & _ & _ & Hlow & _).
      assert (Hfs' : field_size type' = 4 \/ field_size type' = 8) by (destruct HF' as (Hi' & Hr' & _); destruct (object_facts _ _ _ Hi') as (Hhh & _); destruct (relocation_facts _ _ _ _ _ Hhh Hr'); by apply field_size_range).
      destruct (fields_apart _ _ _ _ _ _ _ _ _ _ _ _ _ _ _ _ HF HF'); [|lia|lia]. destruct (decide (i = i' /\ j = j')) as [[-> ->]|Hn2]; [done|]. destruct (decide (i = i')), (decide (j = j')); tauto.
    + destruct (field_unique _ _ _ _ _ _ _ _ _ _ _ _ _ _ HF HF') as (-> & -> & -> & -> & -> & ->). by exists v.
  - intros n Hn. rewrite (grown_lookup patch (patch + field_size type) (lk_out l) out n G); [|eapply (Hn i j); [exact HF|by right]|lia].
    apply P5. intros i' j' info' ss' type' offset' name' patch' HF' HD'. eapply (Hn i' j'); [exact HF'|by left].
Qed.

Lemma relocations_runs l : patched (fun _ _ => False) (lk_out l) ->
  runs (each objects (fun object => each (below (oi_reloc_count object.1)) (apply_relocation base exports externals object))) l
    (fun _ l' => exists out, l' = set_lk_out out l /\ patched (fun _ _ => True) out) (fun c l' => gave_up l c l' /\ ~ relocatable).
Proof.
  intros HP. eapply runs_mono; [apply (runs_each _ _ (fun dn l' => exists out, l' = set_lk_out out l /\ patched (fun i _ => (i < length dn)%nat) out) (fun c l' => gave_up l c l' /\ ~ relocatable) [])| |done].
  - exists (lk_out l). split; [by destruct l|]. eapply patched_ext; [|exact HP]. intros i j info ss _ _. cbn. lia.
  - intros d [info ss] rest l' Heq (out & -> & HPd). cbn [app] in Heq. assert (Hi : objects !! length d = Some (info, ss)) by (rewrite Heq; by apply list_lookup_middle).
    pose proof (pa_length _ _ HPd) as HLd. cbn [fst].
    eapply runs_mono; [apply (runs_each _ _ (fun dn l2 => exists out2, l2 = set_lk_out out2 l /\ patched (fun i j => (i < length d)%nat \/ (i = length d /\ j < Z.of_nat (length dn))) out2) (fun c l' => gave_up (set_lk_out out l) c l' /\ ~ relocatable) [])| |].
    + exists out. split; [done|]. eapply patched_ext; [|exact HPd]. intros i j info' ss' _ Hj. cbn. lia.
    + intros d2 a rest2 l2 Heq2 (out2 & -> & HP2). cbn [app] in Heq2. destruct (below_prefix _ _ _ _ Heq2) as [Ha Hrange].
      eapply runs_mono; [apply (patched_step (fun i j => (i < length d)%nat \/ (i = length d /\ j < Z.of_nat (length d2))) (length d) a info ss (set_lk_out out2 l) Hi Hrange); [lia|exact HP2]| |].
      * intros ? l3 (out3 & -> & HP3). exists out3. split; [done|]. eapply patched_ext; [|exact HP3]. intros i j info' ss' _ _. rewrite length_app. cbn [length]. lia.
      * intros c l3 [[-> Hlen] Hno]. split; [split; [done|]|done]. cbn in *. rewrite Hlen. pose proof (pa_length _ _ HP2). congruence.
    + intros ? l2 (out2 & -> & HP2). exists out2. split; [done|]. eapply patched_ext; [|exact HP2]. intros i j info' ss' Hi' Hj. rewrite !length_app. cbn [length app].
      unfold below. rewrite length_seqZ. split; [lia|]. intros Hlt. destruct (decide (i = length d)) as [->|Hne]; [|lia]. right. split; [done|].
      pose proof (eq_trans (eq_sym Hi) Hi') as Hs. injection Hs as <- <-. lia.
    + intros c l2 [[-> Hlen] Hno]. split; [split; [done|]|done]. cbn in Hlen. rewrite Hlen, HLd. pose proof (pa_length _ _ HP). done.
  - intros ? l' (out & -> & HPd). exists out. split; [done|]. eapply patched_ext; [|exact HPd]. intros i j info ss Hi _. split; [done|]. intros _. cbn [app]. by eapply lookup_lt_Some.
Qed.

(** Nothing but sections changes. *)
Lemma patched_grown D out : patched D out -> grown lo o out0 out.
Proof.
  intros [P1 _ _ _ P5].
  assert (Hrest : forall n : nat, Z.of_nat n < lo \/ o <= Z.of_nat n -> out !! n = out0 !! n).
  { intros n Hn. apply P5. intros i j info ss type offset name patch HF _. destruct (field_place _ _ _ _ _ _ _ _ HF) as (_ & _ & _ & _ & _ & _ & _ & _ & Hl & He2). lia. }
  split; [done|]. split; apply list_eq; intros k.
  - destruct (Nat.lt_ge_cases k (Z.to_nat lo)); [rewrite !lookup_take_lt by done; apply Hrest; lia|by rewrite !lookup_take_ge by done].
  - rewrite !lookup_drop. apply Hrest. lia.
Qed.
End relocations.

(** ** The image *)

Section image.
Context {E : Type} {ZM : ZMemory E} {KS : KernelSymbols} {AS : Assembler}.
Implicit Types l : linker E.
Context (base : Z) (externals : list zobject_resolved_symbol_t) (start : Z) (infos : list zo_object_info_t).
Context (Hb0 : 0 <= base) (Hw : base + 0x7fffffff < 9223372036854775808) (Hx : names_ok externals).

(** What a link leaves in [out], which was [before]: the entries, a return, the
    sections at their places with every field patched, and nothing else. *)
Record linked_image (before : list Z) (size : Z) (objects : list placed_object) (exports : list zobject_resolved_symbol_t) (out : list Z) : Prop := LinkedImage {
  li_objects : map shape objects = map (fun info => (info, object_sections info)) infos;
  li_size : Z.of_nat (length infos) * 5 + 1 <= size <= Z.of_nat (length before);
  li_behind : length out = length before /\ drop (Z.to_nat size) out = drop (Z.to_nat size) before;
  li_entries : entries_done start (length infos) objects out;
  li_return : holds out (Z.of_nat (length infos) * 5) [0xC3];
  li_exports : exports = all_exports base objects;
  li_sections : exists image, all_laid (Z.of_nat (length infos) * 5 + 1) size image objects /\ patched base exports externals image objects (fun _ _ => True) out
}.

Lemma shape_lengths objects : map shape objects = map (fun info => (info, object_sections info)) infos -> length objects = length infos.
Proof. intros H. apply (f_equal length) in H. by rewrite !length_map in H. Qed.

Lemma shape_good objects : map shape objects = map (fun info => (info, object_sections info)) infos -> Forall object_good infos ->
  Forall (fun x => object_good x.1) objects /\ Forall (fun x => map fst x.2 = object_sections x.1) objects.
Proof.
  intros Hs Hg. revert Hs. generalize infos Hg. induction objects as [|[info ss] objects IH]; intros infos' Hg' Hs; destruct infos' as [|info' infos']; try discriminate; [by split|].
  cbn [map] in Hs. unfold shape at 1 in Hs. injection Hs as <- Hss Hs. apply Forall_cons_1 in Hg' as [G1 G2]. cbn [fst snd] in *. destruct (IH infos' G2 Hs). split; by constructor.
Qed.

(** What a link needs: readable tables, room for the plan, entries and fields
    inside sections, names with values, and tables that are large enough. *)
Record link_possible (capacity : Z) (asked : option Z) (placed : list placed_object) (size : Z) : Prop := LinkPossible {
  lp_read : Forall sections_readable infos;
  lp_shape : map shape placed = map (fun info => (info, object_sections info)) infos;
  lp_plan : plan_all (flat (map unplaced infos)) (Z.of_nat (length infos) * 5 + 1) = (flat placed, size);
  lp_room : size <= capacity;
  lp_entries : entries_mapped start placed;
  lp_symbols : symbols_in placed <= ZOBJECT_MAX_RESOLVED_SYMBOLS /\ Forall (fun x => symbols_readable x.1) placed;
  lp_asked : match asked with Some cap => Z.of_nat (length (all_exports base placed)) <= cap | None => True end;
  lp_fields : relocatable base (all_exports base placed) externals placed
}.

Lemma hand_out_runs asked exports l : runs (hand_out_exports asked exports) l (fun _ l' => l' = match asked with None => l | Some _ => set_lk_exported (Some exports) l end)
  (fun c l' => gave_up l c l' /\ match asked with Some cap => cap < Z.of_nat (length exports) | None => False end).
Proof.
  destruct asked as [cap|]; [|by apply runs_ret]. unfold hand_out_exports. eapply runs_bind; [apply (runs_need _ _ _ (fun _ l' => l' = l)); [done|intros Hf; bool_prop; done]|]. intros _ ? ->. by apply runs_change.
Qed.

Lemma shape_unplaced : map shape (map unplaced infos) = map (fun info => (info, object_sections info)) infos.
Proof. rewrite map_map. apply map_ext. intros info. unfold shape, unplaced. cbn [fst snd]. by rewrite map_map, map_id. Qed.

(** Places and shapes determine the placed objects. *)
Lemma flat_inj a b : map shape a = map shape b -> flat a = flat b -> a = b.
Proof.
  revert b. induction a as [|[i1 s1] a IH]; intros [|[i2 s2] b] Hs Hf; try done. cbn [map] in Hs. unfold shape at 1 3 in Hs. cbn [fst snd] in Hs. injection Hs as <- Hs1 Hs.
  unfold flat in Hf. cbn [map concat] in Hf. unfold object_items at 1 3 in Hf. cbn [fst snd] in Hf.
  apply app_inj_1 in Hf as [H1 H2]; [|rewrite !length_map; apply (f_equal length) in Hs1; by rewrite !length_map in Hs1]. f_equal; [|by apply IH]. f_equal.
  apply (f_equal (map snd)) in H1. by rewrite !map_map, !map_id in H1.
Qed.

Lemma link_sections_runs asked l : Forall (fun info => exists h, reloc_layout info h) infos -> Forall object_good infos -> bytes (lk_out l) ->
  Z.of_nat (length infos) * 5 + 1 <= out_capacity l -> out_capacity l <= 0x7fffffff ->
  runs (link_sections base infos externals asked start) l
    (fun size l' => exists objects exports out, linked_image (lk_out l) size objects exports out /\
      l' = match asked with None => set_lk_out out l | Some _ => set_lk_exported (Some exports) (set_lk_out out l) end)
    (fun c l' => gave_up l c l' /\ forall placed size, ~ link_possible (out_capacity l) asked placed size).
Proof.
  intros Hr Hg Hb Hn Hc. unfold link_sections. set (n := Z.of_nat (length infos)) in *.
  eapply runs_bind_to; [by apply read_objects_runs|intros c l' [Hgu Hno]; split; [done|]; intros placed size HP; exact (Hno (lp_read _ _ _ _ HP))|].
  intros objects0 ? (-> & Hr0 & ->). pose proof shape_unplaced as Hs0.
  rewrite (u32_small (n * 5 + 1)) by (unfold is_u32; lia).
  eapply runs_bind_to; [apply place_types_runs; [done|lia|done]| |].
  { intros c l' [Hgu Hfull]. split; [done|]. intros placed size HP. pose proof (lp_plan _ _ _ _ HP) as Hpl. fold n in Hpl. rewrite Hpl in Hfull. pose proof (lp_room _ _ _ _ HP). cbn in Hfull. lia. }
  intros [objects o] ? (out1 & -> & Hplan & G1 & Ho & Hs & HA1 & Y1). rewrite Hs0 in Hs.
  assert (Hthe : forall placed size, link_possible (out_capacity l) asked placed size -> placed = objects).
  { intros placed size HP. pose proof (lp_plan _ _ _ _ HP) as Hpl. fold n in Hpl. rewrite Hplan in Hpl. injection Hpl as Hfl _. apply flat_inj; [|done]. rewrite Hs. exact (lp_shape _ _ _ _ HP). }
  pose proof (shape_lengths _ Hs) as HL. destruct (shape_good _ Hs Hg) as [HG HS]. pose proof (grown_length _ _ _ _ G1) as L1. unfold out_capacity in Ho, Hn, Hc.
  eapply runs_bind_to; [apply (write_entries_runs base start (n * 5 + 1) o); [exact HA1|unfold n; lia|unfold out_capacity; cbn; lia|lia|unfold out_capacity; cbn; lia|done|done]| |].
  { intros c l' [Hgu Hno]. split; [by eapply gave_up_set|]. intros placed size HP. pose proof (Hthe _ _ HP) as ->. exact (Hno (lp_entries _ _ _ _ HP)). }
  intros _ ? (out2 & -> & G2 & HE & Y2). cbn [lk_out set_lk_out] in G2, Y2. pose proof (grown_length _ _ _ _ G2) as L2. rewrite HL in HE.
  eapply runs_bind; [apply (runs_store _ _ (fun _ l' => exists out, l' = set_lk_out out l /\ grown (n * 5) (n * 5 + 1) out2 out /\ holds out (n * 5) [0xC3]))|].
  { cbn [lk_out set_lk_out]. rewrite wr8_block. destruct (wr_block_grown out2 (n * 5) [0xC3] _ (wr_block_Some out2 (n * 5) [0xC3] ltac:(lia) ltac:(cbn [length]; lia))) as [G H]. rewrite wr_block_Some by (cbn [length]; lia). by eexists. }
  intros _ ? (out3 & -> & G3 & HC3). pose proof (grown_length _ _ _ _ G3) as L3.
  assert (Y3 : bytes out3) by (eapply (grown_bytes _ [0xC3] out2); [| |exact G3|exact HC3|auto|by repeat constructor]; cbn; lia).
  assert (HA3 : all_laid (n * 5 + 1) o out3 objects).
  { eapply all_laid_grown; [eapply grown_weaken; [| |exact G3]; lia|]. eapply all_laid_grown; [eapply grown_weaken; [| |exact G2]; lia|done]. }
  eapply runs_bind_to; [apply collect_all_exports_runs; [apply HA3|done]| |].
  { intros c l' [Hgu Hno]. split; [eapply gave_up_set; [|exact Hgu]; lia|]. intros placed size HP. pose proof (Hthe _ _ HP) as ->. destruct (lp_symbols _ _ _ _ HP) as [Hmax Hre]. destruct Hno as [Hno|Hno]; [cbn in Hno; lia|done]. }
  intros exports ? [-> ->]. cbn [app].
  eapply runs_bind_to; [apply hand_out_runs| |].
  { intros c l' [Hgu Hno]. split; [eapply gave_up_set; [|exact Hgu]; lia|]. intros placed size HP. pose proof (Hthe _ _ HP) as ->. pose proof (lp_asked _ _ _ _ HP). destruct asked; [lia|done]. }
  intros ? l4 Hl4. cbv beta in Hl4. assert (Hout4 : lk_out l4 = out3) by (rewrite Hl4; by destruct asked).
  eapply runs_bind_to; [apply (relocations_runs base (n * 5 + 1) o (all_exports base objects) externals out3 objects HA3 HG HS)| |].
  - lia.
  - lia.
  - lia.
  - done.
  - done.
  - by apply all_exports_names.
  - done.
  - rewrite Hout4. split; [done|done|done|done|]. intros k _. done.
  - intros c l' [[-> Hl'] Hno]. split; [split; [done|rewrite Hl', Hout4; lia]|]. intros placed size HP. pose proof (Hthe _ _ HP) as ->. exact (Hno (lp_fields _ _ _ _ HP)).
  - intros _ ? (out & -> & HP). apply runs_ret. exists objects, (all_exports base objects), out. split; [|rewrite Hl4; by destruct asked].
    pose proof (patched_grown base (n * 5 + 1) o _ _ _ _ HA3 HG HS ltac:(lia) ltac:(lia) ltac:(lia) _ _ HP) as G4. split; [done|fold n; lia| | | |done|by exists out3].
    + split; [pose proof (grown_length _ _ _ _ G4); lia|]. destruct G4 as (_ & _ & ->), G1 as (_ & _ & D1), G2 as (_ & _ & D2), G3 as (_ & _ & D3).
      rewrite <- D1. rewrite (drop_le_eq (Z.to_nat (n * 5 + 1)) (Z.to_nat o) out2 out3); [|lia|done]. apply (drop_le_eq (Z.to_nat (n * 5 + 1 - 1))); [lia|done].
    + intros i info ss Hi Ho2. destruct (HE i info ss Hi Ho2) as (code & C1 & C2 & C3). exists code. split; [done|]. split; [|done].
      eapply holds_grown; [exact G4| |left; rewrite C3; lia]. eapply holds_grown; [exact G3|done|left; rewrite C3; lia].
    + eapply holds_grown; [exact G4|exact HC3|left; cbn; lia].
Qed.
End image.
