(* ===== verification/ZLinkCheck.v ===== *)
(** The checks before a link: objects are validated, exports are unique, and
    every external name has a value; and whole links. *)
From Stdlib Require Import ZArith Lia String.
From stdpp Require Import base tactics option list numbers.
From S2P Require Import Prelude.
From S2P Require Import Buffer.
From S2P Require Import KernelExports.
From S2P Require Import ZObject.
From S2P Require Import ZObjectSpec.
From S2P Require Import ZLink.
From S2P Require Import ZLayout.
From S2P Require Import ZLinkSpec.
From S2P Require Import ZLinkImage.
#[local] Open Scope Z_scope.

(** ** What the tables of symbols say *)

(** The symbol number [j] of an object. *)
Definition symbol (info : zo_object_info_t) (j : Z) (type : Z) (name : list Z) : Prop :=
  0 <= j < oi_symbol_count info /\ zo_symbol_at info j = Some (Some (type, name)).

Definition readable (info : zo_object_info_t) (j : Z) : Prop := exists type name, zo_symbol_at info j = Some (Some (type, name)).

Definition exports_name (info : zo_object_info_t) (name : list Z) : Prop := exists j n, symbol info j ZOBJECT_SYMBOL_EXPORT n /\ cstr n = name.

Definition all_readable (infos : list zo_object_info_t) : Prop := forall info j, info ∈ infos -> 0 <= j < oi_symbol_count info -> readable info j.

Section check.
Context {E : Type} {ZM : ZMemory E} {KS : KernelSymbols} {AS : Assembler}.
Implicit Types l : linker E.
Context (infos : list zo_object_info_t) (externals : list zobject_resolved_symbol_t).

(** A symbol of the object number [i] lets the link go on: an export has one
    definition, an external name has at least one. *)
Definition symbol_ok (i : nat) (info : zo_object_info_t) (j : Z) : Prop :=
  exists type name, zo_symbol_at info j = Some (Some (type, name)) /\
    (type = ZOBJECT_SYMBOL_EXPORT -> value_of externals (cstr name) = None /\ kernel_symbol (cstr name) = None /\
      forall k info', infos !! k = Some info' -> exports_name info' (cstr name) -> (i <= k)%nat) /\
    (type = ZOBJECT_SYMBOL_EXTERN -> is_Some (value_of externals (cstr name)) \/ (exists info', info' ∈ infos /\ exports_name info' (cstr name)) \/ is_Some (kernel_symbol (cstr name))).

Definition link_symbols_ok : Prop := forall i info j, infos !! i = Some info -> 0 <= j < oi_symbol_count info -> symbol_ok i info j.

(** No name is exported twice. *)
Lemma exports_unique i1 info1 i2 info2 name : link_symbols_ok -> infos !! i1 = Some info1 -> infos !! i2 = Some info2 -> exports_name info1 name -> exports_name info2 name -> i1 = i2.
Proof.
  intros Hok H1 H2 (j1 & n1 & [Hj1 S1] & E1) (j2 & n2 & [Hj2 S2] & E2).
  destruct (Hok i1 info1 j1 H1 Hj1) as (t & n & S & HE & _). rewrite S1 in S. injection S as <- <-. destruct (HE eq_refl) as (_ & _ & U1).
  destruct (Hok i2 info2 j2 H2 Hj2) as (t & n & S & HE2 & _). rewrite S2 in S. injection S as <- <-. destruct (HE2 eq_refl) as (_ & _ & U2).
  assert (i1 <= i2)%nat by (apply (U1 i2 info2 H2); exists j2, n2; split; [by split|congruence]). assert (i2 <= i1)%nat by (apply (U2 i1 info1 H1); exists j1, n1; split; [by split|congruence]). lia.
Qed.

Context (HR : Forall (fun info => exists h, reloc_layout info h) infos) (HG : Forall object_good infos) (HX : names_ok externals) (HC : Z.of_nat (length infos) <= ZOBJECT_MAX_OBJECTS).

Lemma object_both info : info ∈ infos -> (exists h, reloc_layout info h) /\ object_good info.
Proof. intros Hi. rewrite Forall_elem in HR, HG. auto. Qed.

Lemma symbols_export_gives info js name : info ∈ infos -> Forall (fun j => 0 <= j < oi_symbol_count info) js -> terminated name ->
  gives (symbols_export info js name) (fun r => all_readable infos ->
    (r = 1 /\ exports_name info (cstr name)) \/ (r = 0 /\ forall j n, j ∈ js -> symbol info j ZOBJECT_SYMBOL_EXPORT n -> cstr n <> cstr name)).
Proof.
  intros Hi Hj Hn. destruct (object_both info Hi) as [[h HL] HGo]. induction Hj as [|j js Hj _ IH]; cbn [symbols_export]; [intros _; right; split; [done|]; by intros j n Hin%elem_of_nil|].
  pose proof (symbol_at_gives HL j Hj) as Hg. destruct (zo_symbol_at info j) as [sym|] eqn:Es; [|done]. cbn [mbind option_bind].
  destruct sym as [[type sname]|]; [|intros Hall; destruct (Hall info j Hi Hj) as (? & ? & Hs); congruence]. pose proof (og_symbols _ HGo _ _ _ Hj Es) as Hsn.
  assert (Hskip : (type = ZOBJECT_SYMBOL_EXPORT -> cstr sname <> cstr name) -> gives (symbols_export info js name) (fun r => all_readable infos ->
    (r = 1 /\ exports_name info (cstr name)) \/ (r = 0 /\ forall k n, k ∈ j :: js -> symbol info k ZOBJECT_SYMBOL_EXPORT n -> cstr n <> cstr name))).
  { intros Hne. eapply gives_mono; [exact IH|]. intros r Hr Hall. destruct (Hr Hall) as [Hone|[Hz Hno]]; [by left|]. right. split; [done|]. intros k n Hk [Hk2 Hs].
    apply elem_of_cons in Hk as [->|Hk]; [|by apply (Hno k n Hk)]. rewrite Es in Hs. injection Hs as -> ->. by apply Hne. }
  destruct (Z.eqb_spec type ZOBJECT_SYMBOL_EXPORT) as [->|Hne]; [|by apply Hskip]. unfold zo_streq. rewrite raw_streq_cstr by done. cbn [mbind option_bind].
  case_bool_decide as Heq; [|by apply Hskip]. cbn. intros _. left. split; [done|]. by exists j, sname.
Qed.

Lemma objects_export_gives name : terminated name -> forall rest i, Forall (fun info => info ∈ infos) rest ->
  gives (objects_export i rest name) (fun '(r, owner) => all_readable infos ->
    (r = 1 /\ exists k info, owner = i + Z.of_nat k /\ rest !! k = Some info /\ exports_name info (cstr name) /\ forall k' info', rest !! k' = Some info' -> exports_name info' (cstr name) -> (k <= k')%nat) \/
    (r = 0 /\ forall info, info ∈ rest -> ~ exports_name info (cstr name))).
Proof.
  intros Hn rest. induction rest as [|info rest IH]; intros i Hi; cbn [objects_export]; [intros _; right; split; [done|]; by intros info ?%elem_of_nil|].
  apply Forall_cons_1 in Hi as [Hi Hrest]. eapply gives_bind; [apply (symbols_export_gives info); [done|apply below_range|done]|]. intros r Hr.
  destruct (Z.ltb_spec r 0); [cbn; intros Hall; destruct (Hr Hall) as [[-> _]|[-> _]]; lia|]. destruct (Z.ltb_spec 0 r).
  - cbn. intros Hall. destruct (Hr Hall) as [[-> Hex]|[-> _]]; [|lia]. left. split; [done|]. exists O, info. split; [lia|]. split; [done|]. split; [done|]. intros; lia.
  - eapply gives_mono; [by apply (IH (i + 1))|]. intros [r2 owner] H2 Hall. destruct (Hr Hall) as [[-> _]|[-> Hno]]; [lia|].
    assert (Hn2 : ~ exports_name info (cstr name)) by (intros (j & n & Hs & He); eapply (Hno j n); [apply elem_of_seqZ; destruct Hs; lia|done|done]).
    destruct (H2 Hall) as [[-> (k & info' & -> & Hk & He & Hmin)]|[-> Hno2]].
    + left. split; [done|]. exists (S k), info'. split; [lia|]. split; [done|]. split; [done|]. intros [|k'] info2 Hk' He'; [cbn in Hk'; by injection Hk' as ->|]. cbn in Hk'. pose proof (Hmin k' info2 Hk' He'). lia.
    + right. split; [done|]. intros info' Hin. apply elem_of_cons in Hin as [->|Hin]; [done|by apply Hno2].
Qed.


(** ** One symbol *)

(** A check that failed: -1, and the output is as it was. *)
Definition refused l (c : Z) l' : Prop := c = -1 /\ lk_out l' = lk_out l.

Lemma check_export_runs i info name l : infos !! i = Some info -> exports_name info (cstr name) -> terminated name ->
  runs ('(found, owner) ← chk (zo_export_exists infos externals name);
    if found <? 0 then link_error "bad symbol table" name
    else if (0 <? found) && negb (owner =? Z.of_nat i) then link_error "duplicate export" name
    else
      kernel_value ← chk (kernel_export_value name);
      match kernel_value with Some _ => link_error "export conflicts with kernel" name | None => mret tt end) l
    (fun _ l' => l' = l /\ (all_readable infos -> value_of externals (cstr name) = None /\ kernel_symbol (cstr name) = None /\
      forall k info', infos !! k = Some info' -> exports_name info' (cstr name) -> (i <= k)%nat))
    (fun c l' => refused l c l' /\ (all_readable infos -> ~ (value_of externals (cstr name) = None /\ kernel_symbol (cstr name) = None /\
      forall k info', infos !! k = Some info' -> exports_name info' (cstr name) -> (i <= k)%nat))).
Proof.
  intros Hi Hme Hn. unfold zo_export_exists. rewrite find_resolved_eq by done. cbn [mbind option_bind]. pose proof (lookup_lt_Some _ _ _ Hi) as Hlt.
  destruct (value_of externals (cstr name)) as [v|] eqn:Ev.
  - eapply runs_bind; [apply (runs_chk (Some _) _ (fun r l' => l' = l /\ r = (1, ZOBJECT_MAX_OBJECTS))); done|]. intros [found owner] ? [-> [= -> ->]]. cbn [Z.ltb Z.compare andb].
    rewrite (proj2 (Z.eqb_neq ZOBJECT_MAX_OBJECTS (Z.of_nat i))) by lia. cbn [negb]. apply runs_link_error_to; [done|]. split; [done|]. intros _ (H & _). done.
  - pose proof (objects_export_gives name Hn infos 0 (proj2 (Forall_elem _ _) (fun _ H => H))) as Hg. destruct (objects_export 0 infos name) as [[found owner]|]; [|done]. cbn [gives] in Hg.
    eapply runs_bind; [apply (runs_chk (Some _) _ (fun r l' => l' = l /\ r = (found, owner))); done|]. intros r ? [-> ->]. cbv beta iota.
    destruct (Z.ltb_spec found 0).
    { apply runs_link_error_to; [done|]. split; [done|]. intros Hall. destruct (Hg Hall) as [[-> _]|[-> _]]; lia. }
    destruct ((0 <? found) && negb (owner =? Z.of_nat i)) eqn:Ed.
    { bool_prop. apply runs_link_error_to; [done|]. split; [done|]. intros Hall (_ & _ & Hmin). destruct (Hg Hall) as [[-> (k & info' & -> & Hk & He & Hm)]|[-> _]]; [|lia].
      pose proof (Hmin k info' Hk He). pose proof (Hm i info Hi Hme). lia. }
    rewrite kernel_export_value_eq by done. eapply runs_bind; [apply (runs_chk (Some _) _ (fun r l' => l' = l /\ r = kernel_symbol (cstr name))); done|]. intros r ? [-> ->].
    destruct (kernel_symbol (cstr name)) as [v|]; [apply runs_link_error_to; [done|]; split; [done|]; intros _ (_ & H1 & _); done|]. apply runs_ret. split; [done|]. intros Hall. split; [done|]. split; [done|].
    destruct (Hg Hall) as [[-> (k & info' & -> & Hk & He & Hm)]|[-> Hno]]; [|destruct (Hno info (list_elem_of_lookup_2 _ _ _ Hi) Hme)].
    cbn in Ed. apply negb_false_iff, Z.eqb_eq in Ed. replace i with k by lia. done.
Qed.

Lemma check_extern_runs name l : terminated name ->
  runs ('(found, _) ← chk (zo_export_exists infos externals name);
    if found <=? 0 then
      kernel_value ← chk (kernel_export_value name);
      match kernel_value with None => link_error "unresolved external" name | Some _ => mret tt end
    else mret tt) l
    (fun _ l' => l' = l /\ (all_readable infos -> is_Some (value_of externals (cstr name)) \/ (exists info', info' ∈ infos /\ exports_name info' (cstr name)) \/ is_Some (kernel_symbol (cstr name))))
    (fun c l' => refused l c l' /\ (all_readable infos -> ~ (is_Some (value_of externals (cstr name)) \/ (exists info', info' ∈ infos /\ exports_name info' (cstr name)) \/ is_Some (kernel_symbol (cstr name))))).
Proof.
  intros Hn. unfold zo_export_exists. rewrite find_resolved_eq by done. cbn [mbind option_bind].
  destruct (value_of externals (cstr name)) as [v|] eqn:Ev.
  - eapply runs_bind; [apply (runs_chk (Some _) _ (fun r l' => l' = l /\ r = (1, ZOBJECT_MAX_OBJECTS))); done|]. intros [found owner] ? [-> [= -> ->]]. cbn [Z.leb Z.compare]. apply runs_ret. split; [done|]. intros _. by left.
  - pose proof (objects_export_gives name Hn infos 0 (proj2 (Forall_elem _ _) (fun _ H => H))) as Hg. destruct (objects_export 0 infos name) as [[found owner]|]; [|done]. cbn [gives] in Hg.
    eapply runs_bind; [apply (runs_chk (Some _) _ (fun r l' => l' = l /\ r = (found, owner))); done|]. intros r ? [-> ->]. cbv beta iota. destruct (Z.leb_spec found 0).
    + rewrite kernel_export_value_eq by done. eapply runs_bind; [apply (runs_chk (Some _) _ (fun r l' => l' = l /\ r = kernel_symbol (cstr name))); done|]. intros r ? [-> ->].
      destruct (kernel_symbol (cstr name)) as [v|]; [apply runs_ret; split; [done|]; intros _; right; by right|]. apply runs_link_error_to; [done|]. split; [done|].
      intros Hall [[? ?]|[(info' & Hin & He)|[? ?]]]; [done| |done]. destruct (Hg Hall) as [[-> _]|[-> Hno]]; [lia|]. by destruct (Hno info' Hin).
    + apply runs_ret. split; [done|]. intros Hall. destruct (Hg Hall) as [[-> (k & info' & -> & Hk & He & _)]|[-> _]]; [|lia]. right. left. exists info'. split; [by eapply list_elem_of_lookup_2|done].
Qed.

Lemma check_symbol_runs i info j l : infos !! i = Some info -> 0 <= j < oi_symbol_count info ->
  runs (check_symbol infos externals (Z.of_nat i) info j) l
    (fun _ l' => l' = l /\ readable info j /\ (all_readable infos -> symbol_ok i info j))
    (fun c l' => refused l c l' /\ (all_readable infos -> ~ symbol_ok i info j)).
Proof.
  intros Hi Hj. pose proof (list_elem_of_lookup_2 _ _ _ Hi) as Hin. destruct (object_both info Hin) as [[h HL] HGo]. unfold check_symbol.
  pose proof (symbol_at_gives HL j Hj) as Hg. destruct (zo_symbol_at info j) as [[[type name]|]|] eqn:Es; [| |done].
  2: { unfold chk, some_or, mbind, C_bind, runs. cbn. split; [done|]. intros Hall. destruct (Hall info j Hin Hj) as (? & ? & Hs). congruence. }
  eapply runs_bind; [apply (runs_chk (Some _) _ (fun r l' => l' = l /\ r = Some (type, name))); done|]. intros r ? [-> ->].
  eapply runs_bind; [apply (runs_some_or (Some _) _ _ (fun r l' => l' = l /\ r = (type, name))); done|]. intros r ? [-> ->]. cbv beta iota.
  pose proof (og_symbols _ HGo _ _ _ Hj Es) as Hn. cbn [gives] in Hg.
  assert (Hre : readable info j) by (by exists type, name).
  assert (Hok : forall P, (symbol_ok i info j <-> P) -> forall r l' , (l' = l /\ (all_readable infos -> P)) -> r = tt -> l' = l /\ readable info j /\ (all_readable infos -> symbol_ok i info j)).
  { intros P HP r l' [-> H] _. split; [done|]. split; [done|]. intros Hall. apply HP. auto. }
  destruct (Z.eqb_spec type ZOBJECT_SYMBOL_EXPORT) as [->|Hne].
  - assert (HP : symbol_ok i info j <-> value_of externals (cstr name) = None /\ kernel_symbol (cstr name) = None /\ forall k info', infos !! k = Some info' -> exports_name info' (cstr name) -> (i <= k)%nat).
    { split; [intros (t & n & S & He & _); rewrite Es in S; injection S as <- <-; by apply He|]. intros H. exists ZOBJECT_SYMBOL_EXPORT, name. split; [done|]. split; [done|]. done. }
    eapply runs_mono; [apply (check_export_runs i info name l Hi); [by exists j, name|done]| |].
    + intros [] l' H. by eapply Hok.
    + intros c l' [H1 H2]. split; [done|]. intros Hall Hs. apply (H2 Hall). by apply HP.
  - destruct Hg as [->|Hg]; [done|]. rewrite Hg in *. cbn [Z.eqb ZOBJECT_SYMBOL_EXTERN Pos.eqb].
    assert (HP : symbol_ok i info j <-> is_Some (value_of externals (cstr name)) \/ (exists info', info' ∈ infos /\ exports_name info' (cstr name)) \/ is_Some (kernel_symbol (cstr name))).
    { split; [intros (t & n & S & _ & He); rewrite Es in S; injection S as <- <-; by apply He|]. intros H. exists ZOBJECT_SYMBOL_EXTERN, name. split; [done|]. split; [done|]. done. }
    eapply runs_mono; [apply (check_extern_runs name l Hn)| |].
    + intros [] l' H. by eapply Hok.
    + intros c l' [H1 H2]. split; [done|]. intros Hall Hs. apply (H2 Hall). by apply HP.
Qed.

Lemma ok_readable : link_symbols_ok -> all_readable infos.
Proof. intros Hok info j Hin Hj. apply list_elem_of_lookup in Hin as [i Hi]. destruct (Hok i info j Hi Hj) as (t & n & S & _). by exists t, n. Qed.

(** The check lets exactly the good tables pass. *)
Lemma validate_link_symbols_runs l : runs (zo_validate_link_symbols infos externals) l (fun _ l' => l' = l /\ link_symbols_ok) (fun c l' => refused l c l' /\ ~ link_symbols_ok).
Proof.
  unfold zo_validate_link_symbols.
  set (ok := fun (i : nat) info j => readable info j /\ (all_readable infos -> symbol_ok i info j)).
  eapply runs_mono; [apply (runs_each _ _ (fun dn l' => l' = l /\ forall i info, (i < length dn)%nat -> infos !! i = Some info -> forall j, 0 <= j < oi_symbol_count info -> ok i info j) (fun c l' => refused l c l' /\ ~ link_symbols_ok) [])| |done].
  - split; [done|]. intros i info Hi. cbn in Hi. lia.
  - intros d [k info] rest l' Heq [-> Hd]. cbn [app] in Heq. assert (Hk : numbered infos !! length d = Some (k, info)) by (rewrite Heq; by apply list_lookup_middle).
    rewrite numbered_lookup in Hk. destruct (infos !! length d) as [info'|] eqn:Hi; [|done]. injection Hk as <- ->.
    eapply runs_mono; [apply (runs_each _ _ (fun dn l2 => l2 = l /\ forall j, 0 <= j < Z.of_nat (length dn) -> ok (length d) info j) (fun c l' => refused l c l' /\ ~ link_symbols_ok) [])| |done].
    + split; [done|]. intros j Hj. cbn in Hj. lia.
    + intros d2 a rest2 l2 Heq2 [-> Hd2]. cbn [app] in Heq2. destruct (below_prefix _ _ _ _ Heq2) as [Ha Hrange].
      eapply runs_mono; [by apply (check_symbol_runs (length d) info a l)| |].
      * intros ? l3 (-> & Hre & Hs). split; [done|]. intros j Hj. rewrite length_app in Hj. cbn [length] in Hj. destruct (decide (j = a)) as [->|Hne]; [by split|]. apply Hd2. lia.
      * intros c l3 [H1 H2]. split; [done|]. intros Hok. apply (H2 (ok_readable Hok)). by apply Hok.
    + intros ? l2 [-> Hd2]. split; [done|]. intros i info2 Hlt Hi2 j Hj. rewrite length_app in Hlt. cbn [length app] in *. destruct (decide (i = length d)) as [->|Hne].
      * rewrite Hi in Hi2. injection Hi2 as ->. apply Hd2. unfold below. rewrite length_seqZ. lia.
      * eapply Hd; [lia|done|done].
  - intros ? l' [-> Hd]. split; [done|]. cbn [app] in Hd.
    assert (Hall : forall i info j, infos !! i = Some info -> 0 <= j < oi_symbol_count info -> ok i info j).
    { intros i info j Hi Hj. eapply Hd; [|done|done]. apply lookup_lt_Some in Hi. unfold numbered, below. rewrite length_zip_with, length_seqZ. lia. }
    intros i info j Hi Hj. apply (Hall i info j Hi Hj). intros info' j' Hin Hj'. apply list_elem_of_lookup in Hin as [i' Hi']. by apply (Hall i' info' j').
Qed.
End check.

(** ** Reading all objects *)

Section validate.
Context {E : Type} {ZM : ZMemory E} {KS : KernelSymbols} {AS : Assembler}.
Implicit Types l : linker E.

(** A buffer that may hold an object. *)
Definition object_buffer (object : option (list Z)) : Prop := match object with Some o => bytes o /\ is_u32 (Z.of_nat (length o)) | None => True end.

(** What zo_validate_object says of one. *)
Definition valid_object (object : option (list Z)) (info : zo_object_info_t) : Prop := zo_validate_object object = Some (Some info).

Lemma validate_asm_object_gives object version : bytes object -> is_u32 (Z.of_nat (length object)) -> 48 <= Z.of_nat (length object) ->
  gives (validate_asm_object object version) (fun _ => True).
Proof.
  intros Hb Hu Hl. unfold validate_asm_object. eapply gives_bind; [apply (gives_read_u32 object 8 Hb); lia|]. intros asm_size _.
  apply (gives_bind _ _ (fun _ => True)); [destruct (version =? ZOBJECT_VERSION_ASM); [eapply gives_mono; [apply (gives_read_u32 object 12 Hb); lia|done]|done]|]. intros symbol_count _.
  destruct (_ <? symbol_count); [done|]. destruct (_ || _); [done|]. destruct (_ <? asm_size); [done|].
  eapply gives_bind; [apply (gives_rd8 object 16 Hb); lia|]. intros c _. by destruct (c =? 0).
Qed.

(** An object is validated without a fault; one with relocations has its tables inside. *)
Lemma validate_object_gives object : object_buffer object -> gives (zo_validate_object object) (fun r => match r with
  | Some info => zo_version_has_relocations (oi_version info) = true -> exists h, reloc_layout info h
  | None => True end).
Proof.
  destruct object as [object|]; [|done]. intros [Hb Hu]. cbn [zo_validate_object]. destruct (Z.ltb_spec (Z.of_nat (length object)) ZOBJECT_HEADER_SIZE) as [|Hl]; [done|].
  change ZOBJECT_HEADER_SIZE with 48 in Hl. eapply gives_bind; [apply (gives_read_u32 object 4 Hb); lia|]. intros version _. eapply gives_bind; [apply (gives_read_u32 object 0 Hb); lia|]. intros magic _.
  destruct (_ || _); [done|]. destruct (zo_version_has_relocations version) eqn:Ev.
  - eapply gives_mono; [by apply validate_reloc_object_ok|]. intros [info|]; [|done]. intros (h & HL & _ & _) _. by exists h.
  - pose proof (validate_asm_object_gives object version Hb Hu Hl) as Hg. unfold validate_asm_object in *.
    destruct (zo_read_u32 object 8); [|done]. cbn [mbind option_bind gives] in *. destruct (if version =? ZOBJECT_VERSION_ASM then _ else _); [|done]. cbn [mbind option_bind gives] in *.
    destruct (_ <? _); [done|]. destruct (_ || _); [done|]. destruct (_ <? _); [done|]. destruct (rd8 object 16) as [c|]; [|done]. cbn [mbind option_bind gives] in *. destruct (c =? 0); [done|]. cbn. by rewrite Ev.
Qed.

Lemma validate_objects_runs objects l : Forall object_buffer objects ->
  runs (validate_objects objects) l (fun infos l' => l' = l /\ Forall2 valid_object objects infos) (fun c l' => c = -1 /\ l' = l /\ ~ exists infos, Forall2 valid_object objects infos).
Proof.
  intros Hb. induction Hb as [|object objects Hb _ IH]; cbn [validate_objects]; [by apply runs_ret|].
  pose proof (validate_object_gives object Hb) as Hg. destruct (zo_validate_object object) as [v|] eqn:Ev; [|done].
  eapply runs_bind; [apply (runs_chk (Some _) _ (fun r l' => l' = l /\ r = v)); done|]. intros r ? [-> ->]. destruct v as [info|].
  - eapply runs_bind; [apply (runs_some_or (Some _) _ _ (fun r l' => l' = l /\ r = info)); done|]. intros r ? [-> ->].
    eapply runs_bind_to; [apply IH| |].
    + intros c l' (-> & -> & Hno). split; [done|]. split; [done|]. intros (infos & Hf). inversion Hf; subst. eauto.
    + intros infos ? [-> Hf]. apply runs_ret. split; [done|]. by constructor.
  - apply (runs_bind _ _ _ (fun _ _ => False)); [|done]. cbn. split; [done|]. split; [done|]. intros (infos & Hf). inversion Hf as [|? ? ? ? Hv]; subst. unfold valid_object in Hv. congruence.
Qed.
End validate.

(** * Whole links: the checks and the steps put together. *)

Section main.
Context {E : Type} {ZM : ZMemory E} {KS : KernelSymbols} {AS : Assembler}.
Implicit Types l : linker E.

(** ** Before the link *)

(** kmalloc grants the work buffers, unless they are there. *)
Definition buffers_granted l : bool :=
  let '(have_asm, e) := if lk_have_asm l then (true, lk_env l) else zo_kmalloc ZOBJECT_LINK_ASM_SIZE (lk_env l) in
  have_asm && (if lk_have_image l then true else (zo_kmalloc ZOBJECT_LINK_ASM_SIZE e).1).

Lemma ensure_work_buffers_runs l : runs (fun l => match zo_ensure_work_buffers l with Some (inl _, l') => link_error "out of linker memory" [0] l' | r => r end) l
  (fun _ l' => lk_out l' = lk_out l /\ lk_exported l' = lk_exported l) (fun c l' => c = -1 /\ lk_out l' = lk_out l /\ buffers_granted l = false).
Proof.
  unfold runs, zo_ensure_work_buffers, buffers_granted. destruct (if lk_have_asm l then _ else _) as [[|] e]; cbn [negb]; [|apply runs_link_error_to; [auto with zobj|done]].
  cbn [andb]. destruct (lk_have_image l); [done|]. destruct (zo_kmalloc _ e) as [[|] e2]; cbn [negb fst]; [done|apply runs_link_error_to; [auto with zobj|done]].
Qed.

Definition all_sections (infos : list zo_object_info_t) : Prop := Forall (fun info => zo_version_has_sections (oi_version info) = true) infos.

Lemma kinds_of_sections infos : all_sections infos -> existsb (fun info => kind_of info =? 2) infos = false /\ existsb (fun info => kind_of info =? 3) infos = false /\
  (infos <> [] -> existsb (fun info => kind_of info =? 1) infos = true).
Proof.
  induction 1 as [|info infos Hi _ (I1 & I2 & _)]; [done|]. cbn [existsb]. unfold kind_of at 1 3 5. rewrite Hi. cbn [Z.eqb Pos.eqb orb]. done.
Qed.

Lemma sections_have_relocations version : zo_version_has_sections version = true -> zo_version_has_relocations version = true.
Proof. unfold zo_version_has_sections, zo_version_has_relocations. by intros ->. Qed.

(** What the callers have to see to: buffers of bytes, objects with sections
    that are good, room for the calls, and addresses below the top half. *)
Record link_call (objects : list (option (list Z))) (base : Z) (externals : list zobject_resolved_symbol_t) (start : Z) (out : list Z) : Prop := LinkCall {
  lc_objects : objects <> [] /\ Z.of_nat (length objects) <= ZOBJECT_MAX_OBJECTS;
  lc_buffers : Forall object_buffer objects;
  lc_good : forall object info, object ∈ objects -> valid_object object info -> zo_version_has_sections (oi_version info) = true /\ object_good info;
  lc_base : 0 <= base /\ base + 0x7fffffff < 9223372036854775808;
  lc_externals : names_ok externals /\ Z.of_nat (length externals) <= ZOBJECT_MAX_RESOLVED_SYMBOLS;
  lc_start : start <= Z.of_nat (length objects);
  lc_out : bytes out /\ Z.of_nat (length objects) * 5 + 1 <= Z.of_nat (length out) <= 0x7fffffff
}.

Lemma valid_good objects infos : Forall object_buffer objects ->
  (forall object info, object ∈ objects -> valid_object object info -> zo_version_has_sections (oi_version info) = true /\ object_good info) ->
  Forall2 valid_object objects infos -> all_sections infos /\ Forall (fun info => exists h, reloc_layout info h) infos /\ Forall object_good infos.
Proof.
  intros Hb Hg Hv. induction Hv as [|object info objects infos Hv _ IH]; [by repeat constructor|]. apply Forall_cons_1 in Hb as [Hb Hbs].
  destruct IH as (I1 & I2 & I3); [done|intros o i Ho; apply Hg; by apply elem_of_cons; right|]. destruct (Hg object info) as [Hs Hgo]; [by apply elem_of_cons; left|done|].
  pose proof (validate_object_gives object Hb) as Hl. rewrite Hv in Hl. cbn in Hl. split; [by constructor|]. split; [|by constructor]. constructor; [|done]. apply Hl. by apply sections_have_relocations.
Qed.

(** The exports the caller asked for. *)
Definition handed_out (asked : option Z) (exports : list zobject_resolved_symbol_t) l l' : Prop :=
  match asked with None => lk_exported l' = lk_exported l | Some capacity => lk_exported l' = Some exports end.

(** A link ends: with -1 and a buffer of the same size, or with the image. *)
Definition link_result (objects : list (option (list Z))) (base : Z) (externals : list zobject_resolved_symbol_t) (asked : option Z) (start : Z) l (size : Z) l' : Prop :=
  exists infos placed exports, Forall2 valid_object objects infos /\ link_symbols_ok infos externals /\
    linked_image base externals start infos (lk_out l) size placed exports (lk_out l') /\ handed_out asked exports l l'.

(** What it takes for a link to go through. *)
Definition link_ok (objects : list (option (list Z))) (base : Z) (externals : list zobject_resolved_symbol_t) (asked : option Z) (start : Z) l : Prop :=
  buffers_granted l = true /\ exists infos placed size, Forall2 valid_object objects infos /\ link_symbols_ok infos externals /\
    link_possible base externals start infos (out_capacity l) asked placed size.

Lemma valid_unique objects infos infos' : Forall2 valid_object objects infos -> Forall2 valid_object objects infos' -> infos' = infos.
Proof.
  intros H. revert infos'. induction H as [|object info objects infos Hv _ IH]; intros infos' H'; inversion H' as [|? info' ? infos2 Hv' H2]; subst; [done|]. unfold valid_object in *. rewrite Hv in Hv'. injection Hv' as <-. f_equal. by apply IH.
Qed.

Lemma link_flat_runs objects base externals asked start l : link_call objects base externals start (lk_out l) ->
  runs (zobject_link_flat_many_ex_entry_from (Some objects) true base (Some externals) (Z.of_nat (length externals)) (option_map Some asked) start) l
    (link_result objects base externals asked start l) (fun c l' => gave_up l c l' /\ ~ link_ok objects base externals asked start l).
Proof.
  intros [[Hne Hmax] Hbuf Hgood [Hb0 Hw] [Hx Hxn] Hst [Hby [Hroom Hcap]]]. unfold zobject_link_flat_many_ex_entry_from.
  eapply runs_bind; [apply (runs_change _ _ (fun _ l' => lk_out l' = lk_out l /\ lk_exported l' = lk_exported l /\ buffers_granted l' = buffers_granted l)); done|]. intros _ l1 (O1 & X1 & B1).
  eapply runs_bind; [apply (runs_mono _ _ (fun r l' => r = objects /\ l' = l1) _ (fun _ _ => False)); [|intros a l' H; exact H|done]; destruct objects; [done|by apply runs_ret]|]. intros ? ? [-> ->].
  eapply runs_bind_to; [apply ensure_work_buffers_runs|intros c l' (-> & H & Hb); split; [split; [done|congruence]|intros [Hb' _]; congruence]|]. intros _ l2 [O2 X2].
  eapply runs_bind; [apply (runs_need _ _ _ (fun _ l' => l' = l2)); [done|]|].
  { intros Hf. exfalso. apply negb_false_iff in Hf. rewrite !orb_true_iff, !Z.ltb_lt, andb_false_r in Hf. destruct Hf as [[[[H|H]|H]|H]|H]; try lia; try done. by destruct asked. }
  intros _ ? ->. rewrite Nat2Z.id. cbn [default from_option id]. rewrite take_ge by done.
  eapply runs_bind; [apply (runs_mono _ _ (fun _ l' => lk_out l' = lk_out l2 /\ (asked = None -> lk_exported l' = lk_exported l2)) _ (fun _ _ => False)); [|intros a l' H; exact H|done]; destruct asked; by try apply runs_ret|].
  intros _ l3 [O3 X3]. assert (O : lk_out l3 = lk_out l) by congruence.
  eapply runs_bind_to; [by apply validate_objects_runs|intros c l' (-> & -> & Hno); split; [split; [done|congruence]|intros [_ (infos & ? & ? & Hv & _)]; eauto]|]. intros infos ? [-> Hv].
  destruct (valid_good objects infos Hbuf Hgood Hv) as (Hs & Hr & Hg). destruct (kinds_of_sections infos Hs) as (K2 & K3 & K1). pose proof (Forall2_length Hv) as Hlen.
  rewrite K2, K3, K1 by (intros ->; by destruct objects). cbn [orb andb negb].
  eapply runs_bind; [apply (runs_need true _ _ (fun _ l' => l' = l3)); done|]. intros _ ? ->.
  eapply runs_bind_to; [apply (validate_link_symbols_runs infos externals Hr Hg Hx); lia|intros c l' [[-> H] Hno]; split; [split; [done|congruence]|]|].
  { intros [_ (infos' & ? & ? & Hv' & Hs' & _)]. by rewrite (valid_unique _ _ _ Hv Hv') in Hs'. }
  intros _ ? [-> Hok].
  replace (mjoin (option_map Some asked)) with asked by (by destruct asked).
  eapply runs_mono; [apply (link_sections_runs base externals start infos Hb0 Hw Hx asked l3 Hr Hg); [congruence|unfold out_capacity; rewrite O; lia|unfold out_capacity; rewrite O; lia]| |].
  - intros size l' (placed & exports & out & HI & ->). rewrite O in HI. exists infos, placed, exports. split; [done|]. split; [done|]. destruct asked; cbn; (split; [done|]); [done|]. rewrite X3 by done. congruence.
  - intros c l' [[-> H] Hno]. split; [split; [done|congruence]|]. intros [_ (infos' & placed & size & Hv' & _ & HP)]. rewrite (valid_unique _ _ _ Hv Hv') in HP. unfold out_capacity in *. rewrite <- O in HP. by apply (Hno placed size).
Qed.
End main.

(** ** Objects that are good, by computation *)

Definition terminatedb (name : list Z) : bool := existsb (Z.eqb 0) name.

Lemma terminatedb_ok name : terminatedb name = true -> terminated name.
Proof. unfold terminatedb, terminated. intros H. apply existsb_exists in H as (x & Hx & ->%Z.eqb_eq). by apply list_elem_of_In. Qed.

Definition relocation_of (info : zo_object_info_t) (j : Z) : option (Z * Z * list Z) := mjoin (zo_relocation_at info j).

Definition field_inside (sections : list zo_section_t) (type offset : Z) : bool :=
  match first_section sections offset with Some (_, s) => offset + field_size type <=? sec_load_offset s + sec_mem_size s | None => true end.

Definition fields_apartb (a b : option (Z * Z * list Z)) : bool :=
  match a, b with
  | Some (t1, o1, _), Some (t2, o2, _) => (o1 + field_size t1 <=? o2) || (o2 + field_size t2 <=? o1)
  | _, _ => true
  end.

Definition object_goodb (info : zo_object_info_t) : bool :=
  forallb (fun j => match zo_symbol_at info j with Some (Some (_, name)) => terminatedb name | _ => true end) (below (oi_symbol_count info)) &&
  forallb (fun j => match relocation_of info j with Some (type, offset, name) => terminatedb name && field_inside (object_sections info) type offset | None => true end) (below (oi_reloc_count info)) &&
  forallb (fun j1 => forallb (fun j2 => (j1 =? j2) || fields_apartb (relocation_of info j1) (relocation_of info j2)) (below (oi_reloc_count info))) (below (oi_reloc_count info)).

Lemma forallb_below n f : forallb f (below n) = true -> forall j, 0 <= j < n -> f j = true.
Proof. intros H j Hj. rewrite forallb_forall in H. apply H. apply list_elem_of_In, elem_of_seqZ. lia. Qed.

Lemma relocation_of_eq info j type offset name : relocation info j type offset name -> 0 <= j < oi_reloc_count info /\ relocation_of info j = Some (type, offset, name).
Proof. intros [Hj Hr]. split; [done|]. unfold relocation_of. by rewrite Hr. Qed.

Lemma object_goodb_ok info : object_goodb info = true -> object_good info.
Proof.
  unfold object_goodb. rewrite !andb_true_iff. intros [[Hs Hr] Ha]. pose proof (forallb_below _ _ Hs) as Hs'. pose proof (forallb_below _ _ Hr) as Hr'. pose proof (forallb_below _ _ Ha) as Ha'. clear Hs Hr Ha. split.
  - intros j type name Hj Hsym. specialize (Hs' j Hj). cbv beta in Hs'. rewrite Hsym in Hs'. by apply terminatedb_ok.
  - intros j type offset name [Hj Hrel]%relocation_of_eq. specialize (Hr' j Hj). cbv beta in Hr'. rewrite Hrel in Hr'. apply andb_true_iff in Hr' as [H _]. by apply terminatedb_ok.
  - intros j type offset name k s [Hj Hrel]%relocation_of_eq Hf. specialize (Hr' j Hj). cbv beta in Hr'. rewrite Hrel in Hr'. apply andb_true_iff in Hr' as [_ H]. unfold field_inside in H. rewrite Hf in H. lia.
  - intros j1 type1 offset1 name1 j2 type2 offset2 name2 [Hj1 R1]%relocation_of_eq [Hj2 R2]%relocation_of_eq Hne. specialize (Ha' j1 Hj1). cbv beta in Ha'. pose proof (forallb_below _ _ Ha' j2 Hj2) as H. cbv beta in H.
    rewrite R1, R2 in H. unfold fields_apartb in H. apply orb_true_iff in H as [H|H]; [lia|]. apply orb_true_iff in H as [H|H]; lia.
Qed.

(** ** The object *)

Definition name_field (name : string) : list Z := chars name ++ replicate (128 - length (chars name)) 0.
Definition symbol_record (type value : Z) (name : string) : list Z := zo_u32 type ++ zo_u64 value ++ name_field name.
Definition relocation_record (type offset : Z) (name : string) : list Z := zo_u32 type ++ zo_u32 offset ++ name_field name.
Definition section_record (type file_offset load_offset file_size mem_size : Z) (name : string) : list Z :=
  concat (map zo_u32 [type; file_offset; load_offset; file_size; mem_size]) ++ chars name ++ replicate (8 - length (chars name)) 0.

(** [call puts; mov rax, [rel table]; ret], a pointer to [work] and one to
    [puts], and 16 bytes that are 0. *)
Definition demo_text : list Z := [0xE8] ++ zo_u32 (-4) ++ [0x48; 0x8B; 0x05] ++ zo_u32 (16 - 12) ++ [0xC3; 0x90; 0x90; 0x90].
Definition demo_data : list Z := zo_u64 0 ++ zo_u64 2.

Definition demo_object (export : string) : list Z :=
  concat (map zo_u32 [ZOBJECT_MAGIC; ZOBJECT_VERSION; 32; 2; 4; 0; 3]) ++ replicate 8 0 ++
  symbol_record ZOBJECT_SYMBOL_EXPORT 0 export ++ symbol_record ZOBJECT_SYMBOL_EXTERN 0 "puts" ++
  relocation_record ZOBJECT_RELOC_RIP32 1 "puts" ++ relocation_record ZOBJECT_RELOC_RIP32 8 "" ++
  relocation_record ZOBJECT_RELOC_RELATIVE64 16 "" ++ relocation_record ZOBJECT_RELOC_ABS64 24 "puts" ++
  section_record ZOBJECT_SECTION_TEXT 0 0 16 16 ".text" ++ section_record ZOBJECT_SECTION_DATA 16 16 16 16 ".data" ++ section_record ZOBJECT_SECTION_BSS 32 32 0 16 ".bss" ++
  demo_text ++ demo_data.

(** Kernel symbols at one place, memory that is always there, and no assembler. *)
#[local] Instance demo_symbols : KernelSymbols.
Proof. refine {| symbol_address := fun _ => 0x100000 |}. intros _. unfold is_u64. lia. Defined.
#[local] Instance demo_memory : ZMemory unit := { zo_kmalloc _ e := (true, e) }.
#[local] Instance demo_assembler : Assembler := { assemble_source_ex_relocs _ out _ _ _ _ := AsmResult (-1) out 0 0 [] []; measure_source_ex_symbols _ _ := (-1, 0, 0) }.

Definition demo_linker (capacity : nat) : linker unit := Linker (replicate capacity 0) [0] [0] None 0 [] false false tt.
Definition demo_base : Z := 0x200000.

