(* ===== verification/ZTheorems.v ===== *)
(** The theorems about objects and their linker. *)
From Stdlib Require Import ZArith Lia String.
From stdpp Require Import base tactics option list numbers.
From S2P Require Import Prelude.
From S2P Require Import Buffer.
From S2P Require Import KernelExports.
From S2P Require Import ZObject.
From S2P Require Import ZObjectSpec.
From S2P Require Import ZLink.
From S2P Require Import ZLayout.
From S2P Require Import ZLinkSpec.
From S2P Require Import ZLinkImage.
From S2P Require Import ZLinkCheck.
#[local] Open Scope Z_scope.
#[local] Existing Instances demo_symbols demo_memory demo_assembler.

(** ** The demo is linked *)

Lemma bytesb_demo : forall s, forallb (fun b => (0 <=? b) && (b <? 256)) (demo_object s) = true -> bytes (demo_object s).
Proof. intros s H. apply Forall_elem. intros b Hb. rewrite forallb_forall in H. apply list_elem_of_In in Hb. specialize (H b Hb). cbv beta in H. unfold is_u8. lia. Qed.

Definition demo_info : zo_object_info_t := ZoObjectInfo (demo_object "work") 6 0 0 32 944 0 4 2 3 0 36 316 860.

Lemma demo_valid : zo_validate_object (Some (demo_object "work")) = Some (Some demo_info).
Proof. vm_compute. reflexivity. Qed.

Lemma demo_good : object_good demo_info.
Proof. apply object_goodb_ok. vm_compute. reflexivity. Qed.

Lemma demo_call : link_call [Some (demo_object "work")] demo_base [] 0 (replicate 80 0).
Proof.
  split; [done|constructor; [split; [apply bytesb_demo; vm_compute; reflexivity|vm_compute; done]|constructor]| |done|split; [constructor|done]|done|split; [apply bytes_zeros|cbn; lia]].
  intros object info ->%list_elem_of_singleton Hv. unfold valid_object in Hv. rewrite demo_valid in Hv. injection Hv as <-. split; [done|apply demo_good].
Qed.

Definition demo_section (type file load file_size mem : Z) (name : string) : zo_section_t := ZoSection type file load file_size mem (chars name ++ replicate (8 - length (chars name)) 0).
Definition demo_placed : list placed_object :=
  [(demo_info, [(demo_section 1 0 0 16 16 ".text", 16); (demo_section 2 16 16 16 16 ".data", 32); (demo_section 3 32 32 0 16 ".bss", 48)])].

Lemma one_object {A} (x : A) (i : nat) y : [x] !! i = Some y -> i = O /\ y = x.
Proof. destruct i; [|done]. by intros [= ->]. Qed.

Lemma demo_symbols_ok : link_symbols_ok [demo_info] [].
Proof.
  intros i info j [-> ->]%one_object Hj. assert (j = 0 \/ j = 1) as [-> | ->] by (cbn in Hj; lia).
  - eexists _, _. split; [vm_compute; reflexivity|]. split; [|done]. intros _. split; [done|]. split; [vm_compute; reflexivity|]. intros k info' _ _. lia.
  - eexists _, _. split; [vm_compute; reflexivity|]. split; [done|]. intros _. right. right. vm_compute. by eexists.
Qed.

Lemma demo_relocatable : relocatable demo_base (all_exports demo_base demo_placed) [] demo_placed.
Proof.
  intros i j info ss [-> [= -> ->]]%one_object Hj. assert (j = 0 \/ j = 1 \/ j = 2 \/ j = 3) as [-> | [-> | [-> | ->]]] by (cbn in Hj; lia); (eexists _, _, _, _; split; [split; [reflexivity|split; [split; [done|vm_compute; reflexivity]|vm_compute; reflexivity]]|vm_compute; by eexists]).
Qed.

Lemma demo_ok : link_ok [Some (demo_object "work")] demo_base [] (Some 4) 0 (demo_linker 80).
Proof.
  split; [done|]. exists [demo_info], demo_placed, 64. split; [constructor; [exact demo_valid|constructor]|]. split; [apply demo_symbols_ok|]. split.
  - constructor; [|constructor]. split; [done|]. intros j Hj. assert (j = 0 \/ j = 1 \/ j = 2) as [-> | [-> | ->]] by (cbn in Hj; lia); by vm_compute.
  - vm_compute. reflexivity.
  - vm_compute. reflexivity.
  - vm_compute. done.
  - intros i info ss [-> [= -> ->]]%one_object _. vm_compute. by eexists.
  - split; [vm_compute; done|]. constructor; [|constructor]. intros j Hj. assert (j = 0 \/ j = 1) as [-> | ->] by (cbn in Hj; lia); by vm_compute.
  - vm_compute. done.
  - apply demo_relocatable.
Qed.

(** ** Linking objects with sections *)

(** C37: Linking objects with sections stays inside all buffers and gives the
    image or says why not, for calls that meet [link_call]: one to 1024
    objects; an output of less than 2 GiB, at an address below the top half,
    with room for the calls of all entries; external names with terminators;
    and in every valid object sections, names with terminators, and relocated
    fields that each lie inside one section and do not overlap
    ([object_good]). The linker does not check the room for the calls, the
    terminators and the fields: [links_overflow] has an output that is too small
    and an object without sections. [zobject_from_asm] makes good objects unless
    a field lies on the border of text and data, see [built_objects_link].

    It never reads or writes outside a buffer. It gives up with -1 only when the
    link is impossible: no work buffers, an object that is not valid, a name
    with no or two definitions, sections that do not fit, an entry or a field
    outside all sections, a value that is not known or out of range, or a table
    that is full. Else it leaves in the output the calls of the entries, a
    return, and all sections at places that are multiples of 16 and do not
    overlap, with every relocated field set to its value, everything else as the
    objects have it, and the bytes behind the image as they were; the exports
    handed out are the exported names with their addresses. *)
Theorem link_gives_image {E} {ZM : ZMemory E} {KS : KernelSymbols} {AS : Assembler} (objects : list (option (list Z))) (base : Z) (externals : list zobject_resolved_symbol_t)
    (asked : option Z) (start : Z) (l : linker E) : link_call objects base externals start (lk_out l) ->
  exists r l', zobject_link_flat_many_ex_entry_from (Some objects) true base (Some externals) (Z.of_nat (length externals)) (option_map Some asked) start l = Some (r, l') /\
    match r with
    | inl code => code = -1 /\ length (lk_out l') = length (lk_out l) /\ ~ link_ok objects base externals asked start l
    | inr size => link_result objects base externals asked start l size l'
    end.
Proof.
  intros Hc. pose proof (link_flat_runs objects base externals asked start l Hc) as H. apply gives_iff in H as ([r l'] & Hrun & Hr). exists r, l'. split; [exact Hrun|]. destruct r; [|exact Hr]. destruct Hr as [[-> Hl] Hno]. by repeat split.
Qed.

Lemma link_gives_image_witness : exists size l', zobject_link_flat_many_ex_entry_from (Some [Some (demo_object "work")]) true demo_base (Some []) 0 (Some (Some 4)) 0 (demo_linker 80) = Some (inr size, l') /\
    link_result [Some (demo_object "work")] demo_base [] (Some 4) 0 (demo_linker 80) size l'.
Proof.
  destruct (link_gives_image [Some (demo_object "work")] demo_base [] (Some 4) 0 (demo_linker 80) demo_call) as ([c|size] & l' & Hrun & Hr).
  - destruct Hr as (_ & _ & Hno). elim Hno. exact demo_ok.
  - exists size, l'. exact (conj Hrun Hr).
Defined.

(** The check of the names passes exactly when every symbol can be read,
    no exported name is exported by an earlier object, given by the caller or
    known to the kernel, and every external name is one of these; it changes
    nothing when it passes and only the last error when it does not. *)
Theorem link_symbols_exact {E} {ZM : ZMemory E} {KS : KernelSymbols} {AS : Assembler} (infos : list zo_object_info_t) (externals : list zobject_resolved_symbol_t) (l : linker E) :
  Forall (fun info => exists h, reloc_layout info h) infos -> Forall object_good infos -> names_ok externals -> Z.of_nat (length infos) <= ZOBJECT_MAX_OBJECTS ->
  exists r l', zo_validate_link_symbols infos externals l = Some (r, l') /\ (r = inr tt <-> link_symbols_ok infos externals) /\
    match r with inl code => code = -1 /\ lk_out l' = lk_out l | inr _ => l' = l end.
Proof.
  intros Hr Hg Hx Hc. pose proof (validate_link_symbols_runs infos externals Hr Hg Hx Hc l) as H. apply gives_iff in H as ([r l'] & Hrun & H). exists r, l'. split; [done|].
  destruct r as [c|[]]; [destruct H as [H1 H2]; split; [by split|done]|]. destruct H as [-> H]. split; [by split|done].
Qed.

Lemma demo_layout : Forall (fun info => exists h, reloc_layout info h) [demo_info].
Proof.
  constructor; [|constructor]. pose proof (validate_object_gives (Some (demo_object "work"))) as H. rewrite demo_valid in H. cbn [gives] in H. apply H; [|done]. exact (Forall_inv (lc_buffers _ _ _ _ _ demo_call)).
Qed.

Lemma link_symbols_exact_witness : exists r l', zo_validate_link_symbols [demo_info] [] (demo_linker 80) = Some (r, l') /\ (r = inr tt <-> link_symbols_ok [demo_info] []) /\
    match r with inl code => code = -1 /\ lk_out l' = lk_out (demo_linker 80) | inr _ => l' = demo_linker 80 end.
Proof. apply (link_symbols_exact [demo_info] [] (demo_linker 80)); [apply demo_layout|constructor; [apply demo_good|constructor]|constructor|done]. Defined.

(** ** What a relocated field means *)

Lemma field_set_read {E} (l l' : linker E) patch n v : field_set l patch n v l' -> bytes (lk_out l) -> 0 <= patch -> patch + Z.of_nat n <= out_capacity l -> n = 4%nat \/ n = 8%nat ->
  (if decide (n = 4%nat) then zo_read_u32 (lk_out l') patch else zo_read_u64 (lk_out l') patch) = Some (v mod 256 ^ Z.of_nat n).
Proof.
  intros (out & -> & Hg & Hh) Hb Hp Hc Hn. cbn [lk_out set_lk_out]. pose proof (grown_length _ _ _ _ Hg) as HL. unfold out_capacity in Hc.
  assert (Hbo : bytes out) by (eapply (grown_bytes patch (le_bytes n v) (lk_out l)); rewrite ?length_le_bytes; (done || apply le_bytes_ok || lia)).
  destruct Hh as [_ Hh]. rewrite length_le_bytes in Hh. destruct Hn as [-> | ->]; cbn [decide]; [rewrite decide_True by done|rewrite decide_False by done];
    [rewrite zo_read_u32_slice by (done || lia)|rewrite zo_read_u64_slice by (done || lia)]; change 4 with (Z.of_nat 4); change 8 with (Z.of_nat 8); rewrite Hh; f_equal; apply le_num_bytes.
Qed.

(** A relocated displacement takes the processor where it should: counted
    from behind the field it leads to the value of the name plus the addend the
    object has there, or, without a name, to the new place of what it pointed to
    in the object; a relative pointer becomes the address of the new place of
    its target, and an absolute one the value of the name plus its addend. *)
Theorem fields_point_right {E} {ZM : ZMemory E} {KS : KernelSymbols} {AS : Assembler} (base : Z) (exports externals : list zobject_resolved_symbol_t) (sections : list (zo_section_t * Z))
    (offset patch : Z) (name : list Z) (l l' : linker E) :
  terminated name -> names_ok exports -> names_ok externals -> bytes (lk_out l) -> out_capacity l <= 0x7fffffff -> 0 <= base -> base + 0x7fffffff < 9223372036854775808 -> 0 <= patch -> patch + 8 <= out_capacity l ->
  (relocate_rip32 base exports externals sections offset patch name l = Some (inr tt, l') ->
    exists old d, zo_read_u32 (lk_out l) patch = Some old /\ zo_read_u32 (lk_out l') patch = Some d /\
      if bool_decide (cstr name = []) then exists m, zo_map_section_offset sections (offset + 4 + s32 old) = Some m /\ base + patch + 4 + s32 d = base + m
      else exists v, resolve exports externals (cstr name) = Some v /\ base + patch + 4 + s32 d = s64 v + (s32 old + 4)) /\
  (relocate_relative64 base sections patch l = Some (inr tt, l') ->
    exists old m, zo_read_u64 (lk_out l) patch = Some old /\ zo_map_section_offset sections old = Some m /\ zo_read_u64 (lk_out l') patch = Some (u64 (base + m))) /\
  (relocate_abs64 exports externals patch name l = Some (inr tt, l') ->
    exists old v, zo_read_u64 (lk_out l) patch = Some old /\ resolve exports externals (cstr name) = Some v /\
      zo_read_u64 (lk_out l') patch = Some (u64 (s64 v + if bool_decide (cstr name = []) then 0 else s64 old))).
Proof.
  intros Hn He Hx Hb Hc Hb0 Hw Hp Hcap. pose proof Hcap as Hcap'. unfold out_capacity in Hcap'.
  assert (R4 : zo_read_u32 (lk_out l) patch = Some (le_num (slice (lk_out l) patch 4))) by (apply zo_read_u32_slice; (done || lia)).
  assert (R8 : zo_read_u64 (lk_out l) patch = Some (le_num (slice (lk_out l) patch 8))) by (apply zo_read_u64_slice; (done || lia)).
  assert (M8 : forall v, u64 v mod 256 ^ Z.of_nat 8 = u64 v) by (intros v; apply Z.mod_mod; lia).
  split; [|split]; intros Hrun.
  - pose proof (rip32_runs base exports externals sections offset patch name l Hn He Hx Hp Hb Hc Hb0 Hw ltac:(lia)) as H. unfold runs in H. rewrite Hrun in H. destruct H as (v & Hv & Hset).
    pose proof (field_set_read l l' patch 4 v Hset Hb Hp ltac:(lia) ltac:(by left)) as Hd. rewrite decide_True in Hd by done. eexists _, _. split; [exact R4|]. split; [exact Hd|].
    unfold field_value in Hv. cbn [Z.eqb ZOBJECT_RELOC_RELATIVE64 ZOBJECT_RELOC_RIP32 ZOBJECT_RELOC_ABS64 Pos.eqb] in Hv. set (old := le_num (slice (lk_out l) patch 4)) in *.
    assert (Hgo : forall d, (if fits_rel32 d then Some (u32 d) else None) = Some v -> s32 (v mod 256 ^ Z.of_nat 4) = d).
    { intros d Hf. destruct (fits_rel32 d) eqn:Ef; [|done]. injection Hf as <-. change (256 ^ Z.of_nat 4) with (2 ^ 32). unfold u32 at 1. rewrite Z.mod_mod by lia. by apply s32_u32. }
    case_bool_decide.
    + destruct (offset + 4 + s32 old <? 0); [done|]. destruct (zo_map_section_offset sections (offset + 4 + s32 old)) as [m|]; [|done]. exists m. split; [done|]. rewrite (Hgo _ Hv). lia.
    + destruct (resolve exports externals (cstr name)) as [w|]; [|done]. exists w. split; [done|]. rewrite (Hgo _ Hv). lia.
  - pose proof (relative64_runs base exports externals sections offset patch name l Hp Hb Hcap) as H. unfold runs in H. rewrite Hrun in H. destruct H as (v & Hv & Hset).
    pose proof (field_set_read l l' patch 8 v Hset Hb Hp ltac:(lia) ltac:(by right)) as Hd. rewrite decide_False in Hd by done. unfold field_value in Hv. cbn [Z.eqb ZOBJECT_RELOC_RELATIVE64 Pos.eqb] in Hv.
    destruct (zo_map_section_offset sections _) as [m|] eqn:Em in Hv; [|done]. injection Hv as <-. rewrite M8 in Hd. eexists _, m. split; [exact R8|]. by split.
  - pose proof (abs64_runs base exports externals sections offset patch name l Hn He Hx Hp Hb Hcap) as H. unfold runs in H. rewrite Hrun in H. destruct H as (v & Hv & Hset).
    pose proof (field_set_read l l' patch 8 v Hset Hb Hp ltac:(lia) ltac:(by right)) as Hd. rewrite decide_False in Hd by done. unfold field_value in Hv.
    cbn [Z.eqb ZOBJECT_RELOC_RELATIVE64 ZOBJECT_RELOC_RIP32 ZOBJECT_RELOC_ABS64 Pos.eqb] in Hv. destruct (resolve exports externals (cstr name)) as [w|]; [|done]. injection Hv as <-. rewrite M8 in Hd.
    eexists _, w. split; [exact R8|]. by split.
Qed.

(** A displacement of 12 at the start of a text that goes to 16, into data that
    go to 48. *)
Definition moved_sections : list (zo_section_t * Z) := [(demo_section 1 0 0 16 16 ".text", 16); (demo_section 2 16 16 16 16 ".data", 48)].
Definition moved_before : linker unit := set_lk_out (replicate 16 0 ++ zo_u32 12 ++ replicate 44 0) (demo_linker 64).
Definition moved_after : linker unit := set_lk_out (replicate 16 0 ++ zo_u32 28 ++ replicate 44 0) (demo_linker 64).

Lemma fields_point_right_witness : exists old d, zo_read_u32 (lk_out moved_before) 16 = Some old /\ zo_read_u32 (lk_out moved_after) 16 = Some d /\
  exists m, zo_map_section_offset moved_sections (0 + 4 + s32 old) = Some m /\ demo_base + 16 + 4 + s32 d = demo_base + m.
Proof.
  refine (proj1 (fields_point_right demo_base [] [] moved_sections 0 16 [0] moved_before moved_after terminated_0 _ _ _ _ _ _ _ _) _); try (vm_compute; (done || reflexivity)).
  apply Forall_app_2; [apply bytes_zeros|]. apply Forall_app_2; [|apply bytes_zeros]. rewrite zo_u32_le. apply le_bytes_ok.
Defined.

(** ** Links that write outside the buffer *)

(** An object of version 4 with an image of 16 bytes and a relocated
    displacement in the last four, and one of version 6 with an empty section. *)
Definition old_object : list Z :=
  concat (map zo_u32 [ZOBJECT_MAGIC; ZOBJECT_VERSION_RELOC; 16; 0; 1; 0; 0; 0]) ++ zo_u32 ZOBJECT_RELOC_RIP32 ++ zo_u32 12 ++ chars "puts" ++ replicate 28 0 ++ replicate 16 0.
Definition empty_object : list Z :=
  concat (map zo_u32 [ZOBJECT_MAGIC; ZOBJECT_VERSION; 1; 0; 0; 0; 1]) ++ replicate 8 0 ++ section_record ZOBJECT_SECTION_TEXT 0 0 0 0 ".text" ++ [0xC3].

(** Two links write behind the end of the output buffer. In an object of
    version 4 a displacement of 4 bytes is accepted in the last 4 bytes of the
    image, but 8 bytes are written there: with a buffer that just holds the
    image, 4 of them are outside. And when no section has bytes, the room for the
    calls of the entries is never checked. *)
Theorem links_overflow :
  (exists info name, zo_validate_object (Some old_object) = Some (Some info) /\ zo_relocation_at info 0 = Some (Some (ZOBJECT_RELOC_RIP32, oi_image_size info - 4, name)) /\
    zobject_link_flat (Some old_object) true demo_base (demo_linker 32) = None /\
    exists l', zobject_link_flat (Some old_object) true demo_base (demo_linker 36) = Some (inr 32, l')) /\
  zobject_link_flat_many_ex_entry_from (Some [Some empty_object]) true demo_base None 0 None 1 (demo_linker 4) = None.
Proof.
  split; [|vm_compute; reflexivity]. eexists _, _. split; [vm_compute; reflexivity|]. split; [vm_compute; reflexivity|]. split; [vm_compute; reflexivity|]. eexists. vm_compute. reflexivity.
Qed.
