(* ===== verification/ZAsmText.v ===== *)
(** Texts of the assembler: kernel/z/assembler.c, lines 5-240 and 509-700.

    A text is the list of its characters up to the terminator, which is not in
    the list; [None] stands for the return value -1. Cutting a line in place
    with a terminator gives the two texts before and behind the cut. *)
From Stdlib Require Import ZArith Lia String.
From stdpp Require Import base tactics option list numbers.
From S2P Require Import Prelude.
From S2P Require Import Buffer.
From S2P Require Import KernelExports.
#[local] Open Scope Z_scope.

Definition ASM_LINE_SIZE : Z := 256.
Definition ASM_MAX_LABELS : Z := 16384.
Definition ASSEMBLER_SYMBOL_NAME_SIZE : Z := 128.
Definition ASM_LABEL_NAME_SIZE : Z := ASSEMBLER_SYMBOL_NAME_SIZE.

Record asm_label_t : Type := AsmLabel { lb_name : list Z; lb_offset : Z }.
Record asm_reg_t : Type := AsmReg { reg_code : Z; reg_bits : Z }.
Record asm_mem_t : Type := AsmMem { mem_is_label : bool; mem_label : list Z; mem_base : asm_reg_t; mem_displacement : Z; mem_bits : Z }.

(** ** Characters and texts *)

Definition char_is_space (ch : Z) : bool := (ch =? 32) || (ch =? 9).
Definition char_is_digit (ch : Z) : bool := (48 <=? ch) && (ch <=? 57).
Definition char_is_hex_digit (ch : Z) : bool := ((48 <=? ch) && (ch <=? 57)) || ((97 <=? ch) && (ch <=? 102)) || ((65 <=? ch) && (ch <=? 70)).

Definition hex_value (ch : Z) : Z :=
  if (48 <=? ch) && (ch <=? 57) then ch - 48
  else if (97 <=? ch) && (ch <=? 102) then ch - 97 + 10
  else if (65 <=? ch) && (ch <=? 70) then ch - 65 + 10
  else -1.

Fixpoint skip_const_spaces (s : list Z) : list Z :=
  match s with ch :: s' => if char_is_space ch then skip_const_spaces s' else s | [] => [] end.

Fixpoint streq (a b : list Z) : bool :=
  match a, b with [], [] => true | x :: a', y :: b' => (x =? y) && streq a' b' | _, _ => false end.

(** The loop of trim_mutable that moves [end] back. *)
Definition trim_end (s : list Z) : list Z := rev (skip_const_spaces (rev s)).

Definition trim_mutable (s : list Z) : list Z := trim_end (skip_const_spaces s).

Fixpoint strip_comment_loop (in_string : bool) (line : list Z) : list Z :=
  match line with
  | [] => []
  | ch :: line' =>
      if ch =? 34 then ch :: strip_comment_loop (negb in_string) line'
      else if (ch =? 59) && negb in_string then []
      else ch :: strip_comment_loop in_string line'
  end.

Definition strip_asm_comment (line : list Z) : list Z := strip_comment_loop false line.

(** The copy, which fits with its terminator. *)
Definition copy_name_limited (src : list Z) (max_len : Z) : option (list Z) :=
  if max_len =? 0 then None else if Z.of_nat (length src) + 1 <=? max_len then Some src else None.

Fixpoint parse_digits (base : Z) (value : Z) (s : list Z) : option Z :=
  match s with
  | [] => Some value
  | ch :: s' =>
      if base =? 16 then if char_is_hex_digit ch then parse_digits base (u64 (value * base + hex_value ch)) s' else None
      else if char_is_digit ch then parse_digits base (u64 (value * base + (ch - 48))) s' else None
  end.

Definition parse_u64 (s : list Z) : option Z :=
  let s := skip_const_spaces s in
  let '(base, s) := match s with
                    | c0 :: c1 :: s' => if (c0 =? 48) && ((c1 =? 120) || (c1 =? 88)) then (16, s') else (10, s)
                    | _ => (10, s)
                    end in
  match s with [] => None | _ => parse_digits base 0 s end.

(** ** Labels and registers *)

Fixpoint asm_find_label (labels : list asm_label_t) (name : list Z) : option Z :=
  match labels with
  | [] => None
  | l :: labels' => if streq (lb_name l) name then Some (lb_offset l) else asm_find_label labels' name
  end.

Definition asm_add_label (labels : list asm_label_t) (name : list Z) (offset : Z) : option (list asm_label_t) :=
  match name with
  | [] => None
  | _ =>
      match asm_find_label labels name with
      | Some _ => None
      | None =>
          if ASM_MAX_LABELS <=? Z.of_nat (length labels) then None
          else copied ← copy_name_limited name ASM_LABEL_NAME_SIZE; Some (labels ++ [AsmLabel copied offset])
      end
  end.

(** The number of a register and its four names. *)
Definition asm_registers : list (Z * (string * string * string * string)) := [
  (0, ("rax", "eax", "ax", "al")); (1, ("rcx", "ecx", "cx", "cl")); (2, ("rdx", "edx", "dx", "dl")); (3, ("rbx", "ebx", "bx", "bl"));
  (4, ("rsp", "esp", "sp", "spl")); (5, ("rbp", "ebp", "bp", "bpl")); (6, ("rsi", "esi", "si", "sil")); (7, ("rdi", "edi", "di", "dil"));
  (8, ("r8", "r8d", "r8w", "r8b")); (9, ("r9", "r9d", "r9w", "r9b")); (10, ("r10", "r10d", "r10w", "r10b")); (11, ("r11", "r11d", "r11w", "r11b"));
  (12, ("r12", "r12d", "r12w", "r12b")); (13, ("r13", "r13d", "r13w", "r13b")); (14, ("r14", "r14d", "r14w", "r14b")); (15, ("r15", "r15d", "r15w", "r15b"))]%string.

Fixpoint register_loop (table : list (Z * (string * string * string * string))) (name : list Z) : option asm_reg_t :=
  match table with
  | [] => None
  | (i, (n64, n32, n16, n8)) :: table' =>
      if streq name (chars n64) then Some (AsmReg i 64)
      else if streq name (chars n32) then Some (AsmReg i 32)
      else if streq name (chars n16) then Some (AsmReg i 16)
      else if streq name (chars n8) then Some (AsmReg i 8)
      else register_loop table' name
  end.

Definition asm_register (name : list Z) : option asm_reg_t := register_loop asm_registers name.

(** ** Operands *)

(** What is before the first of some characters, and from there on. *)
Fixpoint cut_at (stop : Z -> bool) (s : list Z) : list Z * list Z :=
  match s with
  | [] => ([], [])
  | ch :: s' => if stop ch then ([], s) else let '(a, b) := cut_at stop s' in (ch :: a, b)
  end.

Definition is_comma (ch : Z) : bool := ch =? 44.

Definition asm_split_two_args (args : list Z) : option (list Z * list Z) :=
  let '(before, rest) := cut_at is_comma args in
  match rest with
  | [] => None
  | _ :: behind =>
      match trim_mutable before, trim_mutable behind with [], _ => None | _, [] => None | a, b => Some (a, b) end
  end.

(** What [trim_mutable] leaves at its argument: the blanks in front stay. *)
Definition trimmed_in_place (s : list Z) : list Z := take (length s - length (skip_const_spaces s)) s ++ trim_mutable s.

(** The three operands, or what is left in [args]: with two commas the
    terminators are written before an empty operand is found. *)
Definition asm_split_three_args (args : list Z) : list Z + list Z * list Z * list Z :=
  let '(first, rest) := cut_at is_comma args in
  match rest with
  | [] => inl args
  | _ :: rest =>
      let '(second, rest) := cut_at is_comma rest in
      match rest with
      | [] => inl args
      | _ :: third =>
          match trim_mutable first, trim_mutable second, trim_mutable third with
          | [], _, _ | _, [], _ | _, _, [] => inl (trimmed_in_place first)
          | a, b, c => inr (a, b, c)
          end
      end
  end.

(** A word and a blank behind it. *)
Fixpoint starts_word (word s : list Z) : bool :=
  match word, s with
  | [], ch :: _ => char_is_space ch
  | w :: word', ch :: s' => (ch =? w) && starts_word word' s'
  | _, [] => false
  end.

(** The size and the text behind it. *)
Definition asm_parse_mem_size_prefix (text : list Z) : Z * list Z :=
  let s := skip_const_spaces text in
  if starts_word (chars "byte") s then (8, skip_const_spaces (drop 4 s))
  else if starts_word (chars "word") s then (16, skip_const_spaces (drop 4 s))
  else if starts_word (chars "dword") s then (32, skip_const_spaces (drop 5 s))
  else if starts_word (chars "qword") s then (64, skip_const_spaces (drop 5 s))
  else (0, s).

(** The label and the size. *)
Definition asm_parse_label_memory (text : list Z) (label_size : Z) : option (list Z * Z) :=
  let s := skip_const_spaces text in
  let '(bits, s) := asm_parse_mem_size_prefix s in
  match s with
  | ch :: s =>
      if negb (ch =? 91) then None
      else
        let '(label, s) := cut_at (fun c => (c =? 93) || char_is_space c) (skip_const_spaces s) in
        match skip_const_spaces s with
        | ch :: s =>
            if negb (ch =? 93) then None
            else
              match skip_const_spaces s, label with
              | _ :: _, _ => None
              | [], [] => None
              | [], _ => if label_size <? Z.of_nat (length label) + 1 then None else Some (label, bits)
              end
        | [] => None
        end
  | [] => None
  end.

(** [-(int32_t)value] wraps at the lowest number. *)
Definition asm_parse_signed_i32 (text : list Z) : option Z :=
  let s := skip_const_spaces text in
  let '(negative, s) := match s with ch :: s' => if (ch =? 43) || (ch =? 45) then (ch =? 45, s') else (false, s) | [] => (false, s) end in
  value ← parse_u64 (skip_const_spaces s);
  if (negb negative && (2147483647 <? value)) || (negative && (2147483648 <? value)) then None
  else Some (if negative then s32 (- value) else value).

Definition asm_parse_memory_operand (text : list Z) : option asm_mem_t :=
  let s := skip_const_spaces text in
  let '(bits, s) := asm_parse_mem_size_prefix s in
  match s with
  | ch :: s =>
      if negb (ch =? 91) then None
      else
        let '(inside, s) := cut_at (fun c => c =? 93) (skip_const_spaces s) in
        if ASM_LINE_SIZE <=? Z.of_nat (length inside) then None
        else
          match s with
          | [] => None
          | _ :: s =>
              match skip_const_spaces s with
              | _ :: _ => None
              | [] =>
                  let '(front, op) := cut_at (fun c => (c =? 43) || (c =? 45)) inside in
                  let '(reg_name, _) := cut_at char_is_space front in
                  let reg_name_too_long := 16 <=? Z.of_nat (length reg_name) in
                  let label := match asm_parse_label_memory text ASM_LABEL_NAME_SIZE with
                               | Some (label, bits) => Some (AsmMem true label (AsmReg 0 0) 0 bits)
                               | None => None
                               end in
                  if reg_name_too_long then label
                  else
                    match asm_register reg_name with
                    | Some base =>
                        if reg_bits base =? 64 then
                          match op with
                          | [] => Some (AsmMem false [] base 0 bits)
                          | _ => displacement ← asm_parse_signed_i32 op; Some (AsmMem false [] base displacement bits)
                          end
                        else label
                    | None => label
                    end
              end
          end
  | [] => None
  end.
