(* ===== verification/ZAsm.v ===== *)
(** The assembler: kernel/z/assembler.c, lines 17-27, 265-510 and 700-2105.

    [emit] is the argument of the same name: the first pass measures, the
    second one writes. Offsets are positions in the output buffer, whose size
    is [cx_capacity]. *)
From Stdlib Require Import ZArith Lia String.
From stdpp Require Import base tactics option list numbers.
From S2P Require Import Prelude.
From S2P Require Import Buffer.
From S2P Require Import KernelExports.
From S2P Require Import ZObject.
From S2P Require Import ZLink.
From S2P Require Import ZAsmText.
#[local] Open Scope Z_scope.

Definition ASSEMBLER_RELOC_ABS64 : Z := 1.
Definition ASSEMBLER_RELOC_RELATIVE64 : Z := 2.
Definition ASSEMBLER_RELOC_RIP32 : Z := 3.

(** [cx_relocations] is the size of the table of relocations, if there is one. *)
Record assembler_context_t : Type := AsmContext {
  cx_capacity : Z;
  cx_base_address : Z;
  cx_external_symbols : list (list Z * Z);
  cx_relocations : option Z
}.

Record asm_state : Type := AsmState {
  am_out : list Z;
  am_offset : Z;
  am_relocs : list assembler_relocation_t;
  am_labels : list asm_label_t;
  am_error_line : Z
}.

Definition set_am_out (out : list Z) (s : asm_state) : asm_state := AsmState out (am_offset s) (am_relocs s) (am_labels s) (am_error_line s).
Definition set_am_offset (offset : Z) (s : asm_state) : asm_state := AsmState (am_out s) offset (am_relocs s) (am_labels s) (am_error_line s).
Definition set_am_relocs (relocs : list assembler_relocation_t) (s : asm_state) : asm_state := AsmState (am_out s) (am_offset s) relocs (am_labels s) (am_error_line s).
Definition set_am_labels (labels : list asm_label_t) (s : asm_state) : asm_state := AsmState (am_out s) (am_offset s) (am_relocs s) labels (am_error_line s).
Definition set_am_error_line (line : Z) (s : asm_state) : asm_state := AsmState (am_out s) (am_offset s) (am_relocs s) (am_labels s) line.

Section assembler.
Context {KS : KernelSymbols}.

(** ** Symbols *)

Definition assembler_symbol_value (name : list Z) : option Z := mjoin (kernel_export_value (name ++ [0])).

Section context.
Context (ctx : assembler_context_t).

Fixpoint external_loop (symbols : list (list Z * Z)) (name : list Z) : option Z :=
  match symbols with
  | [] => None
  | (n, value) :: symbols' => if streq n name then Some value else external_loop symbols' name
  end.

Definition asm_external_symbol_value (name : list Z) : option Z := external_loop (cx_external_symbols ctx) name.

Definition asm_external_reloc_name (name : list Z) : option (list Z) :=
  match asm_external_symbol_value name with Some _ => Some name | None => None end.

Definition asm_add_relocation (offset type : Z) (name : option (list Z)) : C asm_state unit := fun s =>
  match cx_relocations ctx with
  | None => Some (inr tt, s)
  | Some capacity =>
      if capacity <=? Z.of_nat (length (am_relocs s)) then Some (inl (-1), s)
      else
        match copy_name_limited (default [] name) ASSEMBLER_SYMBOL_NAME_SIZE with
        | None => Some (inl (-1), s)
        | Some copied => Some (inr tt, set_am_relocs (am_relocs s ++ [AssemblerRelocation offset type copied]) s)
        end
  end.

Definition asm_value (text : list Z) (labels : list asm_label_t) : option Z :=
  let text := skip_const_spaces text in
  match parse_u64 text with
  | Some v => Some v
  | None =>
      match asm_find_label labels text with
      | Some offset => Some (u64 (cx_base_address ctx + offset))
      | None => match asm_external_symbol_value text with Some v => Some v | None => assembler_symbol_value text end
      end
  end.

(** ** Bytes *)

Section emit.
Context (emit : bool).

Definition asm_emit_byte (value : Z) : C asm_state unit := fun s =>
  if cx_capacity ctx <=? am_offset s then Some (inl (-1), s)
  else
    out ← (if emit then wr8 (am_out s) (am_offset s) (u8 value) else Some (am_out s));
    Some (inr tt, set_am_offset (u32 (am_offset s + 1)) (set_am_out out s)).

Definition asm_emit_u64 (value : Z) : C asm_state unit := each (below 8) (fun i => asm_emit_byte (Z.land (Z.shiftr value (i * 8)) 0xFF)).
Definition asm_emit_u32 (value : Z) : C asm_state unit := each (below 4) (fun i => asm_emit_byte (Z.land (Z.shiftr value (i * 8)) 0xFF)).
Definition asm_emit_u16 (value : Z) : C asm_state unit := each (below 2) (fun i => asm_emit_byte (Z.land (Z.shiftr value (i * 8)) 0xFF)).

Definition rex_byte (w : bool) (r b : Z) : Z :=
  Z.lor (Z.lor (Z.lor 0x40 (if w then 0x08 else 0)) (if Z.land r 8 =? 0 then 0 else 0x04)) (if Z.land b 8 =? 0 then 0 else 0x01).

Definition asm_emit_rex (w : bool) (r b : Z) : C asm_state unit := if rex_byte w r b =? 0x40 then mret tt else asm_emit_byte (rex_byte w r b).
Definition asm_rex_size (w : bool) (r b : Z) : Z := if rex_byte w r b =? 0x40 then 0 else 1.

Definition asm_emit_modrm_reg (reg rm : Z) : C asm_state unit := asm_emit_byte (Z.lor (Z.lor 0xC0 (Z.shiftl (Z.land reg 7) 3)) (Z.land rm 7)).

(** A relocation is noted in the second pass only. *)
Definition note_relocation (offset type : Z) (name : option (list Z)) : C asm_state unit := if emit then asm_add_relocation offset type name else mret tt.

Definition asm_emit_modrm_rip_relative (reg displacement : Z) (reloc_name : option (list Z)) : C asm_state unit :=
  _ ← asm_emit_byte (Z.lor (Z.shiftl (Z.land reg 7) 3) 0x05);
  offset ← look am_offset;
  _ ← note_relocation offset ASSEMBLER_RELOC_RIP32 reloc_name;
  asm_emit_u32 displacement.

Definition asm_emit_modrm_base_disp32 (reg : Z) (base : asm_reg_t) (displacement : Z) : C asm_state unit :=
  _ ← asm_emit_byte (Z.lor (Z.lor 0x80 (Z.shiftl (Z.land reg 7) 3)) (Z.land (reg_code base) 7));
  _ ← (if Z.land (reg_code base) 7 =? 4 then asm_emit_byte (Z.lor 0x20 (Z.land (reg_code base) 7)) else mret tt);
  asm_emit_u32 (u32 displacement).

(** ** Operations on registers *)

Definition asm_emit_reg_reg_op (opcode : Z) (w : bool) (dst src : asm_reg_t) : C asm_state unit :=
  if negb (reg_bits dst =? reg_bits src) then stop (-1)
  else
    _ ← asm_emit_rex w (reg_code src) (reg_code dst);
    _ ← asm_emit_byte opcode;
    asm_emit_modrm_reg (reg_code src) (reg_code dst).

Definition asm_emit_reg_reg_two_byte_op (opcode2 : Z) (w : bool) (dst src : asm_reg_t) : C asm_state unit :=
  if negb (reg_bits dst =? reg_bits src) then stop (-1)
  else
    _ ← asm_emit_rex w (reg_code dst) (reg_code src);
    _ ← asm_emit_byte 0x0F;
    _ ← asm_emit_byte opcode2;
    asm_emit_modrm_reg (reg_code dst) (reg_code src).

Definition asm_emit_group1_imm32 (group : Z) (w : bool) (dst : asm_reg_t) (value : Z) : C asm_state unit :=
  if 0xFFFFFFFF <? value then stop (-1)
  else
    _ ← asm_emit_rex w 0 (reg_code dst);
    _ ← asm_emit_byte 0x81;
    _ ← asm_emit_modrm_reg group (reg_code dst);
    asm_emit_u32 value.

(** ** Operands in memory *)

Section labels.
Context (labels : list asm_label_t).

Definition asm_rip_relative_disp32 (next_offset : Z) (target : list Z) : option Z :=
  diff ← match asm_find_label labels target with
         | Some label_offset => Some (s64 (cx_base_address ctx + label_offset) - s64 (cx_base_address ctx + next_offset))
         | None =>
             match asm_external_symbol_value target with
             | Some _ => Some (-4)
             | None => symbol_value ← assembler_symbol_value target; Some (s64 symbol_value - s64 (cx_base_address ctx + next_offset))
             end
         end;
  if fits_rel32 diff then Some (u32 diff) else None.

(** The displacement of a field that ends at [next_offset]; 0 while measuring. *)
Definition displacement_to (next_offset : Z) (label : list Z) : C asm_state Z :=
  if emit then some_or (asm_rip_relative_disp32 next_offset label) (-1) else mret 0.

(** The prefix of operands of 16 bits. *)
Definition emit_prefix16 (bits : Z) : C asm_state unit := if bits =? 16 then asm_emit_byte 0x66 else mret tt.
Definition prefix16_size (bits : Z) : Z := if bits =? 16 then 1 else 0.
Definition known_bits (bits : Z) : bool := (bits =? 8) || (bits =? 16) || (bits =? 32) || (bits =? 64).

Definition asm_emit_mov_reg_mem_label (dst : asm_reg_t) (label : list Z) : C asm_state unit :=
  let bits := reg_bits dst in
  offset ← look am_offset;
  let next_offset := u32 (offset + prefix16_size bits + asm_rex_size (bits =? 64) (reg_code dst) 0 + 1 + 1 + 4) in
  let opcode := if bits =? 8 then 0x8A else 0x8B in
  if negb (known_bits bits) then stop (-1)
  else
    displacement ← displacement_to next_offset label;
    _ ← emit_prefix16 bits;
    _ ← asm_emit_rex (bits =? 64) (reg_code dst) 0;
    _ ← asm_emit_byte opcode;
    asm_emit_modrm_rip_relative (reg_code dst) displacement (asm_external_reloc_name label).

Definition asm_emit_mov_reg_mem_base (dst : asm_reg_t) (src : asm_mem_t) : C asm_state unit :=
  let bits := if mem_bits src =? 0 then reg_bits dst else mem_bits src in
  let opcode := if bits =? 8 then 0x8A else 0x8B in
  if negb (reg_bits (mem_base src) =? 64) || negb (bits =? reg_bits dst) then stop (-1)
  else
    _ ← emit_prefix16 bits;
    _ ← asm_emit_rex (bits =? 64) (reg_code dst) (reg_code (mem_base src));
    _ ← asm_emit_byte opcode;
    asm_emit_modrm_base_disp32 (reg_code dst) (mem_base src) (mem_displacement src).

Definition asm_emit_mov_mem_label_reg (label : list Z) (src : asm_reg_t) : C asm_state unit :=
  let bits := reg_bits src in
  offset ← look am_offset;
  let next_offset := u32 (offset + prefix16_size bits + asm_rex_size (bits =? 64) (reg_code src) 0 + 1 + 1 + 4) in
  let opcode := if bits =? 8 then 0x88 else 0x89 in
  if negb (known_bits bits) then stop (-1)
  else
    displacement ← displacement_to next_offset label;
    _ ← emit_prefix16 bits;
    _ ← asm_emit_rex (bits =? 64) (reg_code src) 0;
    _ ← asm_emit_byte opcode;
    asm_emit_modrm_rip_relative (reg_code src) displacement (asm_external_reloc_name label).

Definition asm_emit_mov_mem_base_reg (dst : asm_mem_t) (src : asm_reg_t) : C asm_state unit :=
  let bits := if mem_bits dst =? 0 then reg_bits src else mem_bits dst in
  let opcode := if bits =? 8 then 0x88 else 0x89 in
  if negb (reg_bits (mem_base dst) =? 64) || negb (bits =? reg_bits src) then stop (-1)
  else
    _ ← emit_prefix16 bits;
    _ ← asm_emit_rex (bits =? 64) (reg_code src) (reg_code (mem_base dst));
    _ ← asm_emit_byte opcode;
    asm_emit_modrm_base_disp32 (reg_code src) (mem_base dst) (mem_displacement dst).

(** A number that does not fit an operand of a size. *)
Definition too_wide (bits value : Z) : bool :=
  ((bits =? 8) && (0xFF <? value)) || ((bits =? 16) && (0xFFFF <? value)) || (((bits =? 32) || (bits =? 64)) && (0xFFFFFFFF <? value)).

Definition emit_immediate (bits value : Z) : C asm_state unit :=
  if bits =? 8 then asm_emit_byte value else if bits =? 16 then asm_emit_u16 (u16 value) else asm_emit_u32 (u32 value).

Definition asm_emit_mov_mem_label_imm (label : list Z) (dst : asm_mem_t) (value : Z) : C asm_state unit :=
  let bits := if mem_bits dst =? 0 then 64 else mem_bits dst in
  offset ← look am_offset;
  let next_offset := u32 (offset + prefix16_size bits + asm_rex_size (bits =? 64) 0 0 + 1 + 1 + 4 + (if bits =? 8 then 1 else if bits =? 16 then 2 else 4)) in
  if too_wide bits value then stop (-1)
  else
    displacement ← displacement_to next_offset label;
    _ ← emit_prefix16 bits;
    _ ← asm_emit_rex (bits =? 64) 0 0;
    _ ← asm_emit_byte (if bits =? 8 then 0xC6 else 0xC7);
    _ ← asm_emit_modrm_rip_relative 0 displacement (asm_external_reloc_name label);
    emit_immediate bits value.

Definition asm_emit_mov_mem_base_imm (dst : asm_mem_t) (value : Z) : C asm_state unit :=
  let bits := if mem_bits dst =? 0 then 64 else mem_bits dst in
  if negb (reg_bits (mem_base dst) =? 64) || too_wide bits value then stop (-1)
  else
    _ ← emit_prefix16 bits;
    _ ← asm_emit_rex (bits =? 64) 0 (reg_code (mem_base dst));
    _ ← asm_emit_byte (if bits =? 8 then 0xC6 else 0xC7);
    _ ← asm_emit_modrm_base_disp32 0 (mem_base dst) (mem_displacement dst);
    emit_immediate bits value.

Definition asm_emit_reg_mem_label_op (opcode : Z) (dst : asm_reg_t) (label : list Z) : C asm_state unit :=
  offset ← look am_offset;
  if negb (reg_bits dst =? 64) then stop (-1)
  else
    displacement ← displacement_to (u32 (offset + 7)) label;
    _ ← asm_emit_rex true (reg_code dst) 0;
    _ ← asm_emit_byte opcode;
    asm_emit_modrm_rip_relative (reg_code dst) displacement (asm_external_reloc_name label).

(** ** Jumps *)

Definition asm_rel32 (next_offset : Z) (target : list Z) : option Z :=
  value ← asm_value target labels;
  let diff := s64 value - s64 (cx_base_address ctx + next_offset) in
  if fits_rel32 diff then Some (u32 diff) else None.

(** Measuring: [*offset += n; return *offset <= capacity ? 0 : -1;] *)
Definition skip_bytes (n : Z) : C asm_state unit :=
  _ ← change (fun s => set_am_offset (u32 (am_offset s + n)) s);
  offset ← look am_offset;
  need (offset <=? cx_capacity ctx) (-1).

Definition asm_emit_call_jmp_target (target : list Z) (rel_opcode reg_group : Z) : C asm_state unit :=
  match asm_register target with
  | Some reg =>
      if negb (reg_bits reg =? 64) then stop (-1)
      else
        _ ← asm_emit_rex true 0 (reg_code reg);
        _ ← asm_emit_byte 0xFF;
        asm_emit_modrm_reg reg_group (reg_code reg)
  | None =>
      let external := asm_external_symbol_value target in
      match (match external with Some v => Some v | None => assembler_symbol_value target end) with
      | Some symbol_value =>
          offset ← look am_offset;
          let reloc_offset := u32 (offset + 2) in
          _ ← asm_emit_rex true 0 0;
          _ ← asm_emit_byte 0xB8;
          _ ← match external with Some _ => note_relocation reloc_offset ASSEMBLER_RELOC_ABS64 (Some target) | None => mret tt end;
          _ ← asm_emit_u64 symbol_value;
          _ ← asm_emit_rex true 0 0;
          _ ← asm_emit_byte 0xFF;
          asm_emit_modrm_reg reg_group 0
      | None =>
          if emit then
            offset ← look am_offset;
            rel ← some_or (asm_rel32 (u32 (offset + 5)) target) (-1);
            _ ← asm_emit_byte rel_opcode;
            asm_emit_u32 rel
          else skip_bytes 5
      end
  end.

Definition jcc_opcodes : list (string * Z) := [
  ("jo", 0x80); ("jno", 0x81); ("jb", 0x82); ("jc", 0x82); ("jnae", 0x82); ("jae", 0x83); ("jnb", 0x83); ("jnc", 0x83); ("je", 0x84); ("jz", 0x84);
  ("jne", 0x85); ("jnz", 0x85); ("jbe", 0x86); ("jna", 0x86); ("ja", 0x87); ("jnbe", 0x87); ("js", 0x88); ("jns", 0x89); ("jp", 0x8A); ("jpe", 0x8A);
  ("jnp", 0x8B); ("jpo", 0x8B); ("jl", 0x8C); ("jnge", 0x8C); ("jge", 0x8D); ("jnl", 0x8D); ("jle", 0x8E); ("jng", 0x8E); ("jg", 0x8F); ("jnle", 0x8F)]%string.

Fixpoint jcc_loop (table : list (string * Z)) (name : list Z) : option Z :=
  match table with
  | [] => None
  | (n, opcode) :: table' => if streq name (chars n) then Some opcode else jcc_loop table' name
  end.

Definition asm_jcc_opcode (name : list Z) : option Z := jcc_loop jcc_opcodes name.

(** ** Data *)

(** The characters of a string up to its closing quote; the text behind it. *)
Fixpoint db_string (s : list Z) : C asm_state (list Z) :=
  match s with
  | [] => stop (-1)
  | ch :: s1 =>
      if ch =? 34 then mret s1
      else if ch =? 92 then
        match s1 with
        | [] => stop (-1)
        | c :: s2 =>
            _ ← (if c =? 110 then asm_emit_byte 10 else if c =? 114 then asm_emit_byte 13 else if c =? 116 then asm_emit_byte 9
                 else if c =? 48 then asm_emit_byte 0 else if (c =? 34) || (c =? 92) then asm_emit_byte c else stop (-1));
            db_string s2
        end
      else
        _ ← asm_emit_byte ch;
        db_string s1
  end.

(** The number and the text behind the comma. *)
Definition asm_parse_db_byte (cursor : list Z) : option (Z * list Z) :=
  let '(text, rest) := cut_at is_comma (trim_mutable cursor) in
  value ← parse_u64 (trim_mutable text);
  if 255 <? value then None else Some (value, drop 1 rest).

(** [fuel] is at least the length of the text. *)
Fixpoint db_loop (fuel : nat) (s : list Z) : C asm_state unit :=
  match s with
  | [] => mret tt
  | ch :: s1 =>
      match fuel with
      | O => chk None
      | S fuel' =>
          if ch =? 34 then
            rest ← db_string s1;
            match trim_mutable rest with
            | [] => mret tt
            | c :: rest => if c =? 44 then db_loop fuel' (trim_mutable rest) else stop (-1)
            end
          else
            '(value, rest) ← some_or (asm_parse_db_byte s) (-1);
            _ ← asm_emit_byte value;
            db_loop fuel' (trim_mutable rest)
      end
  end.

Definition asm_emit_db (args : list Z) : C asm_state unit := let s := trim_mutable args in db_loop (length s) s.

Fixpoint dq_loop (fuel : nat) (s : list Z) : C asm_state unit :=
  match s with
  | [] => mret tt
  | _ =>
      match fuel with
      | O => chk None
      | S fuel' =>
          let '(value_text, rest) := cut_at is_comma s in
          match trim_mutable value_text with
          | [] => stop (-1)
          | text =>
              value ← (if emit then some_or (asm_value text labels) (-1) else mret 0);
              _ ← asm_emit_u64 value;
              dq_loop fuel' (trim_mutable (drop 1 rest))
          end
      end
  end.

Definition asm_emit_dq (args : list Z) : C asm_state unit := let s := trim_mutable args in dq_loop (length s) s.

(** ** Instructions *)

(** A number that is looked up in the second pass only. *)
Definition immediate (text : list Z) : C asm_state Z := if emit then some_or (asm_value text labels) (-1) else mret 0.
Definition plain_number (text : list Z) : C asm_state Z := if emit then some_or (parse_u64 text) (-1) else mret 0.

Definition assemble_ret (args : list Z) : C asm_state unit :=
  match args with
  | [] => asm_emit_byte 0xC3
  | _ =>
      value ← plain_number args;
      if 0xFFFF <? value then stop (-1) else _ ← asm_emit_byte 0xC2; asm_emit_u16 value
  end.

Definition assemble_int (args : list Z) : C asm_state unit :=
  value ← plain_number args;
  if 0xFF <? value then stop (-1) else _ ← asm_emit_byte 0xCD; asm_emit_byte value.

Definition assemble_mov_register (dst : asm_reg_t) (src_text : list Z) (value : Z) : C asm_state unit :=
  if reg_bits dst =? 64 then
    offset ← look am_offset;
    let reloc_offset := u32 (offset + 2) in
    let external := asm_external_symbol_value src_text in
    let value := default value external in
    let is_relative := match external with Some _ => false | None => match asm_find_label labels src_text with Some _ => true | None => false end end in
    _ ← asm_emit_rex true 0 (reg_code dst);
    _ ← asm_emit_byte (0xB8 + Z.land (reg_code dst) 7);
    _ ← match external with Some _ => note_relocation reloc_offset ASSEMBLER_RELOC_ABS64 (Some src_text) | None => mret tt end;
    _ ← (if is_relative then note_relocation reloc_offset ASSEMBLER_RELOC_RELATIVE64 None else mret tt);
    asm_emit_u64 value
  else if emit && (0xFFFFFFFF <? value) then stop (-1)
  else
    _ ← asm_emit_rex false 0 (reg_code dst);
    _ ← asm_emit_byte (0xB8 + Z.land (reg_code dst) 7);
    asm_emit_u32 (u32 value).

Definition assemble_mov (args : list Z) : C asm_state unit :=
  '(dst_text, src_text) ← some_or (asm_split_two_args args) (-1);
  match asm_parse_memory_operand dst_text with
  | Some dst_mem =>
      match asm_register src_text with
      | Some src => if mem_is_label dst_mem then asm_emit_mov_mem_label_reg (mem_label dst_mem) src else asm_emit_mov_mem_base_reg dst_mem src
      | None =>
          value ← immediate src_text;
          if mem_is_label dst_mem then asm_emit_mov_mem_label_imm (mem_label dst_mem) dst_mem value else asm_emit_mov_mem_base_imm dst_mem value
      end
  | None =>
      dst ← some_or (asm_register dst_text) (-1);
      match asm_register src_text with
      | Some src => asm_emit_reg_reg_op 0x89 (reg_bits dst =? 64) dst src
      | None =>
          match asm_parse_memory_operand src_text with
          | Some src_mem => if mem_is_label src_mem then asm_emit_mov_reg_mem_label dst (mem_label src_mem) else asm_emit_mov_reg_mem_base dst src_mem
          | None => value ← immediate src_text; assemble_mov_register dst src_text value
          end
      end
  end.

(** The encodings of movzx, movsx and movsxd: REX.W, the bytes of the opcode. *)
Definition emit_extend (w : bool) (opcodes : list Z) (dst : asm_reg_t) (src_mem : asm_mem_t) : C asm_state unit :=
  if mem_is_label src_mem then
    offset ← look am_offset;
    displacement ← displacement_to (u32 (offset + asm_rex_size w (reg_code dst) 0 + Z.of_nat (length opcodes) + 1 + 4)) (mem_label src_mem);
    _ ← asm_emit_rex w (reg_code dst) 0;
    _ ← each opcodes asm_emit_byte;
    asm_emit_modrm_rip_relative (reg_code dst) displacement (asm_external_reloc_name (mem_label src_mem))
  else
    _ ← asm_emit_rex w (reg_code dst) (reg_code (mem_base src_mem));
    _ ← each opcodes asm_emit_byte;
    asm_emit_modrm_base_disp32 (reg_code dst) (mem_base src_mem) (mem_displacement src_mem).

Definition assemble_movx (mnemonic args : list Z) : C asm_state unit :=
  '(dst_text, src_text) ← some_or (asm_split_two_args args) (-1);
  dst ← some_or (asm_register dst_text) (-1);
  src_mem ← some_or (asm_parse_memory_operand src_text) (-1);
  if streq mnemonic (chars "movzx") then
    if negb (reg_bits dst =? 32) || (negb (mem_bits src_mem =? 8) && negb (mem_bits src_mem =? 16)) then stop (-1)
    else emit_extend false [0x0F; if mem_bits src_mem =? 8 then 0xB6 else 0xB7] dst src_mem
  else if streq mnemonic (chars "movsx") then
    if negb (reg_bits dst =? 64) || (negb (mem_bits src_mem =? 8) && negb (mem_bits src_mem =? 16)) then stop (-1)
    else emit_extend true [0x0F; if mem_bits src_mem =? 8 then 0xBE else 0xBF] dst src_mem
  else if negb (reg_bits dst =? 64) || negb (mem_bits src_mem =? 32) then stop (-1)
  else emit_extend true [0x63] dst src_mem.

(** REX, one byte of opcode, ModRM with two registers, a number of 32 bits. *)
Definition emit_imul_imm (dst src : asm_reg_t) (value : Z) : C asm_state unit :=
  if 0xFFFFFFFF <? value then stop (-1)
  else
    _ ← asm_emit_rex (reg_bits dst =? 64) (reg_code dst) (reg_code src);
    _ ← asm_emit_byte 0x69;
    _ ← asm_emit_modrm_reg (reg_code dst) (reg_code src);
    asm_emit_u32 value.

Definition assemble_imul (args : list Z) : C asm_state unit :=
  match asm_split_three_args args with
  | inr (dst_text, src_text, imm_text) =>
      dst ← some_or (asm_register dst_text) (-1);
      src ← some_or (asm_register src_text) (-1);
      if negb (reg_bits dst =? reg_bits src) then stop (-1)
      else value ← immediate imm_text; emit_imul_imm dst src value
  | inl args =>
      '(dst_text, src_text) ← some_or (asm_split_two_args args) (-1);
      dst ← some_or (asm_register dst_text) (-1);
      match asm_register src_text with
      | Some src => asm_emit_reg_reg_two_byte_op 0xAF (reg_bits dst =? 64) dst src
      | None => value ← immediate src_text; emit_imul_imm dst dst value
      end
  end.

(** Opcode with registers, opcode with memory, group. *)
Definition alu_codes : list (string * (Z * Z * Z)) := [
  ("add", (0x01, 0x03, 0)); ("or", (0x09, 0x0B, 1)); ("and", (0x21, 0x23, 4)); ("sub", (0x29, 0x2B, 5));
  ("xor", (0x31, 0x33, 6)); ("cmp", (0x39, 0x3B, 7)); ("test", (0x85, 0x85, 0))]%string.

Fixpoint alu_loop (table : list (string * (Z * Z * Z))) (name : list Z) : option (Z * Z * Z) :=
  match table with
  | [] => None
  | (n, codes) :: table' => if streq name (chars n) then Some codes else alu_loop table' name
  end.

(** REX, opcode and ModRM of an operation on one register. *)
Definition emit_unary (opcode group : Z) (w : bool) (reg : asm_reg_t) : C asm_state unit :=
  _ ← asm_emit_rex w 0 (reg_code reg);
  _ ← asm_emit_byte opcode;
  asm_emit_modrm_reg group (reg_code reg).

Definition assemble_alu (mnemonic : list Z) (codes : Z * Z * Z) (args : list Z) : C asm_state unit :=
  let '(opcode, mem_opcode, group) := codes in
  '(dst_text, src_text) ← some_or (asm_split_two_args args) (-1);
  dst ← some_or (asm_register dst_text) (-1);
  match asm_register src_text with
  | Some src => asm_emit_reg_reg_op opcode (reg_bits dst =? 64) dst src
  | None =>
      match asm_parse_label_memory src_text ASM_LABEL_NAME_SIZE with
      | Some (src_label, _) => asm_emit_reg_mem_label_op mem_opcode dst src_label
      | None =>
          value ← immediate src_text;
          if streq mnemonic (chars "test") then
            if 0xFFFFFFFF <? value then stop (-1)
            else
              _ ← emit_unary 0xF7 0 (reg_bits dst =? 64) dst;
              asm_emit_u32 value
          else asm_emit_group1_imm32 group (reg_bits dst =? 64) dst value
      end
  end.

Definition assemble_shift (group : Z) (args : list Z) : C asm_state unit :=
  '(dst_text, src_text) ← some_or (asm_split_two_args args) (-1);
  dst ← some_or (asm_register dst_text) (-1);
  match asm_register src_text with
  | Some src =>
      if negb (reg_bits src =? 8) || negb (reg_code src =? 1) then stop (-1)
      else emit_unary 0xD3 group (reg_bits dst =? 64) dst
  | None =>
      value ← immediate src_text;
      if 255 <? value then stop (-1)
      else
        _ ← emit_unary 0xC1 group (reg_bits dst =? 64) dst;
        asm_emit_byte value
  end.

(** push and pop. *)
Definition assemble_stack (opcode : Z) (args : list Z) : C asm_state unit :=
  reg ← some_or (asm_register args) (-1);
  if negb (reg_bits reg =? 64) then stop (-1)
  else
    _ ← asm_emit_rex false 0 (reg_code reg);
    asm_emit_byte (opcode + Z.land (reg_code reg) 7).

Definition assemble_jcc (opcode : Z) (args : list Z) : C asm_state unit :=
  if emit then
    offset ← look am_offset;
    rel ← some_or (asm_rel32 (u32 (offset + 6)) args) (-1);
    _ ← asm_emit_byte 0x0F;
    _ ← asm_emit_byte opcode;
    asm_emit_u32 rel
  else skip_bytes 6.

(** Instructions without operands. *)
Definition fixed_codes : list (string * list Z) := [
  ("nop", [0x90]); ("iretq", [0x48; 0xCF]); ("hlt", [0xF4]); ("leave", [0xC9]); ("cqo", [0x48; 0x99]); ("syscall", [0x0F; 0x05]); ("cli", [0xFA]); ("sti", [0xFB])]%string.

Fixpoint fixed_loop (table : list (string * list Z)) (name : list Z) : option (list Z) :=
  match table with
  | [] => None
  | (n, codes) :: table' => if streq name (chars n) then Some codes else fixed_loop table' name
  end.

(** The mnemonic, and the rest behind the first blank. *)
Definition asm_assemble_instruction (line : list Z) : C asm_state unit :=
  let '(mnemonic, rest) := cut_at char_is_space line in
  let args := trim_mutable (drop 1 rest) in
  let op (name : string) := streq mnemonic (chars name) in
  match fixed_loop fixed_codes mnemonic with
  | Some codes => each codes asm_emit_byte
  | None =>
      if op "ret"%string then assemble_ret args
      else if op "int"%string then assemble_int args
      else if op "db"%string then asm_emit_db args
      else if op "dq"%string then asm_emit_dq args
      else if op "bits"%string then need (streq args (chars "64")) (-1)
      else if op "default"%string then need (streq args (chars "rel")) (-1)
      else if op "global"%string || op "section"%string then mret tt
      else if op "mov"%string then assemble_mov args
      else if op "movzx"%string || op "movsx"%string || op "movsxd"%string then assemble_movx mnemonic args
      else if op "imul"%string then assemble_imul args
      else
        match alu_loop alu_codes mnemonic with
        | Some codes => assemble_alu mnemonic codes args
        | None =>
            if op "inc"%string || op "dec"%string then
              reg ← some_or (asm_register args) (-1);
              emit_unary 0xFF (if op "inc"%string then 0 else 1) (reg_bits reg =? 64) reg
            else if op "idiv"%string then
              reg ← some_or (asm_register args) (-1);
              if negb (reg_bits reg =? 64) then stop (-1) else emit_unary 0xF7 7 true reg
            else if op "not"%string then
              reg ← some_or (asm_register args) (-1);
              emit_unary 0xF7 2 (reg_bits reg =? 64) reg
            else if op "shl"%string then assemble_shift 4 args
            else if op "shr"%string then assemble_shift 5 args
            else if op "sar"%string then assemble_shift 7 args
            else if op "push"%string then assemble_stack 0x50 args
            else if op "pop"%string then assemble_stack 0x58 args
            else if op "call"%string then asm_emit_call_jmp_target args 0xE8 2
            else if op "jmp"%string then asm_emit_call_jmp_target args 0xE9 4
            else match asm_jcc_opcode mnemonic with Some opcode => assemble_jcc opcode args | None => stop (-1) end
        end
  end.
End labels.

(** ** Lines *)

Definition add_label (name : list Z) : C asm_state unit := fun s =>
  match asm_add_label (am_labels s) name (am_offset s) with
  | Some labels => Some (inr tt, set_am_labels labels s)
  | None => Some (inl (-1), s)
  end.

(** A label is added while measuring. *)
Definition define_label (name : list Z) : C asm_state unit := if emit then mret tt else add_label name.

Definition assemble_statement (line : list Z) : C asm_state unit :=
  labels ← look am_labels;
  asm_assemble_instruction labels line.

(** Whether a word is db or dq. *)
Definition is_data (word : list Z) : bool := match word with [d; k] => (d =? 100) && ((k =? 98) || (k =? 113)) | _ => false end.

(** A line behind its label: [name db ...] and [name dq ...] define one, too. *)
Definition assemble_unlabelled (line : list Z) : C asm_state unit :=
  let '(name, rest) := cut_at char_is_space line in
  match rest with
  | [] => assemble_statement line
  | _ :: rest =>
      let directive := trim_mutable rest in
      if is_data (fst (cut_at char_is_space directive)) then
        _ ← define_label name;
        assemble_statement directive
      else assemble_statement line
  end.

Definition asm_assemble_line (line : list Z) : C asm_state unit :=
  match trim_mutable (strip_asm_comment line) with
  | [] => mret tt
  | line =>
      let '(name, rest) := cut_at (fun c => char_is_space c || (c =? 58)) line in
      match rest with
      | ch :: behind =>
          if ch =? 58 then
            _ ← define_label name;
            match trim_mutable behind with [] => mret tt | line => assemble_unlabelled line end
          else assemble_unlabelled line
      | [] => assemble_unlabelled line
      end
  end.

(** All lines, the first one with a number. *)
Fixpoint assemble_lines (line_number : Z) (lines : list (list Z)) : C asm_state unit :=
  match lines with
  | [] => mret tt
  | line :: lines' => fun s =>
      match asm_assemble_line line s with
      | Some (inr _, s') => assemble_lines (line_number + 1) lines' s'
      | Some (inl _, s') => Some (inl (-1), set_am_error_line line_number s')
      | None => None
      end
  end.
End emit.
End context.

(** The lines asm_next_line gives one after the other: carriage returns are
    left out, and what does not fit the buffer; [started] that there is a line. *)
Fixpoint asm_lines (started : bool) (line : list Z) (source : list Z) : list (list Z) :=
  match source with
  | [] => if started then [cstr line] else []
  | ch :: source' =>
      if ch =? 13 then asm_lines true line source'
      else if ch =? 10 then cstr line :: asm_lines false [] source'
      else asm_lines true (if Z.of_nat (length line) + 1 <? ASM_LINE_SIZE then line ++ [ch] else line) source'
  end.

(** ** Sources *)

Fixpoint export_values (ctx : assembler_context_t) (labels : list asm_label_t) (names : list (list Z)) : option (list Z) :=
  match names with
  | [] => Some []
  | name :: names' => v ← asm_value ctx name labels; rest ← export_values ctx labels names'; Some (v :: rest)
  end.

Definition asm_start (out : list Z) : asm_state := AsmState out 0 [] [] 0.

(** A result, with what is in the buffer, the table of relocations and the line
    of the error. *)
Definition result_of (code : Z) (values : list Z) (s : asm_state) : asm_result := AsmResult code (am_out s) (am_offset s) (am_error_line s) values (am_relocs s).

Definition assembler_assemble_source_ex_relocs (source out : list Z) (base_address : Z) (external_symbols : list (list Z * Z)) (export_names : list (list Z)) (relocations : option Z) : option asm_result :=
  let ctx := AsmContext (Z.of_nat (length out)) base_address external_symbols relocations in
  let lines := asm_lines false [] source in
  if Z.of_nat (length out) =? 0 then Some (AsmResult (-1) out 0 0 [] [])
  else
    '(r, s) ← assemble_lines ctx false 1 lines (asm_start out);
    match r with
    | inl code => Some (result_of code [] s)
    | inr _ =>
        match export_values ctx (am_labels s) export_names with
        | None => Some (result_of (-1) [] s)
        | Some values =>
            '(r, s) ← assemble_lines ctx true 1 lines (set_am_offset 0 s);
            Some (result_of (match r with inl code => code | inr _ => 0 end) values s)
        end
    end.

Definition assembler_measure_source_ex_symbols (source : list Z) (external_symbols : list (list Z * Z)) : option (Z * Z * Z) :=
  let ctx := AsmContext 0xFFFFFFFF 0 external_symbols None in
  '(r, s) ← assemble_lines ctx false 1 (asm_lines false [] source) (asm_start []);
  Some (match r with inl code => code | inr _ => 0 end, u32 (am_offset s), am_error_line s).

Definition assembler_measure_source (source : list Z) : option (Z * Z * Z) := assembler_measure_source_ex_symbols source [].

Definition assembler_assemble_source_ex_symbols (source out : list Z) (base_address : Z) (external_symbols : list (list Z * Z)) (export_names : list (list Z)) : option asm_result :=
  assembler_assemble_source_ex_relocs source out base_address external_symbols export_names None.

Definition assembler_assemble_source_ex (source out : list Z) (base_address : Z) : option asm_result :=
  assembler_assemble_source_ex_symbols source out base_address [] [].

Definition assembler_assemble_source (source out : list Z) (base_address : Z) : option asm_result := assembler_assemble_source_ex source out base_address.
End assembler.
