(* ===== verification/ZAsmSpec.v ===== *)
(** What the emitting functions of the assembler do: every statement has one
    size, the same in both passes; bytes go behind each other, and the fields
    that are relocated lie in the bytes of their statement. *)
From Stdlib Require Import ZArith Lia String.
From stdpp Require Import base tactics option list numbers.
From S2P Require Import Prelude.
From S2P Require Import Buffer.
From S2P Require Import KernelExports.
From S2P Require Import ZObject.
From S2P Require Import ZObjectSpec.
From S2P Require Import ZLink.
From S2P Require Import ZLayout.
From S2P Require Import ZAsmText.
From S2P Require Import ZAsm.
#[local] Open Scope Z_scope.

(** ** Fields *)

(** A name that fits its place in the table. *)
Definition short_name (name : list Z) : Prop := Z.of_nat (length name) < ASSEMBLER_SYMBOL_NAME_SIZE.

(** No name, or the name of an external symbol. *)
Definition reloc_name (externals : list (list Z * Z)) (name : list Z) : Prop := short_name name /\ (name = [] \/ is_Some (external_loop externals name)).

(** Fields between two positions, one behind the other. *)
Fixpoint fields_in (externals : list (list Z * Z)) (a b : Z) (relocs : list assembler_relocation_t) : Prop :=
  match relocs with
  | [] => a <= b
  | r :: relocs' => a <= ar_offset r /\ relocation_type (ar_type r) /\ reloc_name externals (ar_name r) /\ fields_in externals (ar_offset r + field_size (ar_type r)) b relocs'
  end.

Lemma fields_in_le externals a b relocs : fields_in externals a b relocs -> a <= b.
Proof.
  revert a. induction relocs as [|r relocs IH]; intros a; [done|]. intros (H1 & _ & _ & H2). apply IH in H2. unfold field_size in H2. destruct (ar_type r =? _); lia.
Qed.

Lemma fields_in_app externals a b c xs ys : fields_in externals a b xs -> fields_in externals b c ys -> fields_in externals a c (xs ++ ys).
Proof.
  revert a. induction xs as [|r xs IH]; intros a; cbn [fields_in app].
  - destruct ys as [|r ys]; cbn [fields_in]; [lia|]. intros H (H1 & H2). split; [lia|done].
  - intros (H1 & H2 & H3 & H4) Hy. split; [done|]. split; [done|]. split; [done|auto].
Qed.

Section asm.
Context {KS : KernelSymbols} (ctx : assembler_context_t).
Context (Hcap : 0 <= cx_capacity ctx <= 0xFFFFFF00).

(** The buffer is there in the second pass. *)
Record asm_wf (emit : bool) (s : asm_state) : Prop := AsmWf {
  aw_offset : 0 <= am_offset s <= cx_capacity ctx;
  aw_out : emit = true -> Z.of_nat (length (am_out s)) = cx_capacity ctx
}.

(** [n] bytes were emitted. *)
Record emitted (emit : bool) (n : Z) (s s' : asm_state) : Prop := Emitted {
  em_offset : am_offset s' = am_offset s + n;
  em_end : 0 <= n /\ am_offset s' <= cx_capacity ctx;
  em_labels : am_labels s' = am_labels s;
  em_error : am_error_line s' = am_error_line s;
  em_out : grown (am_offset s) (am_offset s') (am_out s) (am_out s') /\ (bytes (am_out s) -> bytes (am_out s'));
  em_relocs : exists new, am_relocs s' = am_relocs s ++ new /\ fields_in (cx_external_symbols ctx) (am_offset s) (am_offset s') new;
  em_measure : emit = false -> am_relocs s' = am_relocs s /\ am_out s' = am_out s;
  em_count : forall cap, cx_relocations ctx = Some cap -> Z.of_nat (length (am_relocs s)) <= cap -> Z.of_nat (length (am_relocs s')) <= cap
}.

(** A statement that failed: -1, and the buffer kept its size. *)
Definition asm_failed (s : asm_state) (c : Z) (s' : asm_state) : Prop := c = -1 /\ length (am_out s') = length (am_out s).

(** [m] emits [n] bytes or fails. *)
Definition emits {A} (emit : bool) (n : Z) (m : C asm_state A) : Prop := forall s, asm_wf emit s -> runs m s (fun _ s' => emitted emit n s s') (asm_failed s).

Lemma emitted_wf emit n s s' : asm_wf emit s -> emitted emit n s s' -> asm_wf emit s'.
Proof.
  intros [H1 H2] [O Ee _ _ [G _] _ _ _]. split; [lia|]. intros He. rewrite (grown_length _ _ _ _ G). auto.
Qed.

Lemma emitted_refl emit s : asm_wf emit s -> emitted emit 0 s s.
Proof. intros [H _]. split; [lia|lia|done|done|split; [apply grown_refl|done]|exists []; split; [by rewrite app_nil_r|cbn; lia]|done|done]. Qed.

Lemma emitted_trans emit n k s s1 s2 : emitted emit n s s1 -> emitted emit k s1 s2 -> emitted emit (n + k) s s2.
Proof.
  intros [A1 A2 A3 A4 [A5 A5'] (na & A6 & A7) A8 A9] [B1 B2 B3 B4 [B5 B5'] (nb & B6 & B7) B8 B9]. split; [lia|lia|congruence|congruence| | | |auto].
  - split; [|auto]. eapply grown_trans; [eapply grown_weaken; [| |exact A5]; lia|eapply grown_weaken; [| |exact B5]; lia].
  - exists (na ++ nb). split; [by rewrite B6, A6, app_assoc|]. by eapply fields_in_app.
  - intros He. destruct (A8 He), (B8 He). split; congruence.
Qed.

Lemma asm_failed_after emit n s s1 c s2 : emitted emit n s s1 -> asm_failed s1 c s2 -> asm_failed s c s2.
Proof. intros [_ _ _ _ [G _] _ _ _] [-> H]. split; [done|]. rewrite H. by eapply grown_length. Qed.

Lemma emits_ret {A} emit (a : A) : emits emit 0 (mret a).
Proof. intros s Hs. apply runs_ret. by apply emitted_refl. Qed.

Lemma emits_stop {A} emit n : @emits A emit n (stop (-1)).
Proof. intros s _. by apply runs_stop. Qed.

Lemma emits_some_or {A} emit (o : option A) : emits emit 0 (some_or o (-1)).
Proof. intros s Hs. apply runs_some_or. destruct o; [by apply emitted_refl|done]. Qed.

Lemma emits_need emit b : emits emit 0 (need b (-1)).
Proof. intros s Hs. apply runs_need; [intros _; by apply emitted_refl|done]. Qed.

Lemma emits_look {A} emit (f : asm_state -> A) : emits emit 0 (look f).
Proof. intros s Hs. apply runs_look. by apply emitted_refl. Qed.

Lemma emits_bind {A B} emit n k (m : C asm_state A) (f : A -> C asm_state B) : emits emit n m -> (forall a, emits emit k (f a)) -> emits emit (n + k) (m ≫= f).
Proof.
  intros Hm Hf s Hs. eapply runs_bind; [by apply Hm|]. intros a s1 H1. cbv beta in H1. eapply runs_mono; [apply (Hf a); by eapply emitted_wf| |].
  - intros b s2 H2. by eapply emitted_trans.
  - intros c s2. by eapply asm_failed_after.
Qed.

Lemma emits_eq {A} emit n k (m : C asm_state A) : emits emit n m -> n = k -> emits emit k m.
Proof. by intros H ->. Qed.

(** ** Bytes *)

(** [m] emits [n] bytes without a relocation. *)
Definition plain (emit : bool) (n : Z) (m : C asm_state unit) : Prop := forall s, asm_wf emit s -> runs m s (fun _ s' => emitted emit n s s' /\ am_relocs s' = am_relocs s) (asm_failed s).

Lemma plain_emits emit n m : plain emit n m -> emits emit n m.
Proof. intros Hm s Hs. eapply runs_mono; [by apply Hm|by intros a s' [H _]|done]. Qed.

Lemma plain_byte emit v : plain emit 1 (asm_emit_byte ctx emit v).
Proof.
  intros s [H1 H2]. unfold asm_emit_byte, runs. destruct (Z.leb_spec (cx_capacity ctx) (am_offset s)); [done|].
  assert (Hg : gives (if emit then wr8 (am_out s) (am_offset s) (u8 v) else Some (am_out s)) (fun out =>
    grown (am_offset s) (am_offset s + 1) (am_out s) out /\ (bytes (am_out s) -> bytes out) /\ (emit = false -> out = am_out s))).
  { destruct emit; [|done]. specialize (H2 eq_refl). rewrite wr8_block, wr_block_Some by (cbn [length]; lia). cbn [gives].
    destruct (wr_block_grown (am_out s) (am_offset s) [u8 v] _ (wr_block_Some (am_out s) (am_offset s) [u8 v] ltac:(lia) ltac:(cbn [length]; lia))) as [G Hh]. split; [done|]. split; [|done].
    intros Hb. eapply (grown_bytes (am_offset s) [u8 v] (am_out s)); [lia|cbn [length]; lia|exact G|exact Hh|done|]. constructor; [|constructor]. apply Z.mod_pos_bound. lia. }
  destruct (if emit then _ else _) as [out|]; [|done]. destruct Hg as (G & Hb & Hm). cbn [mbind option_bind gives]. rewrite u32_small by (unfold is_u32; lia). split; [|done].
  split; [done|cbn; lia|done|done|by split|exists []; split; [by rewrite app_nil_r|cbn; lia]| |done]. intros He. split; [done|]. exact (Hm He).
Qed.

Lemma plain_each {A} emit (f : A -> C asm_state unit) (l : list A) : (forall a, plain emit 1 (f a)) -> plain emit (Z.of_nat (length l)) (each l f).
Proof.
  intros Hf. induction l as [|a l IH]; cbn [each length]; intros s Hs; [apply runs_ret; split; [by apply emitted_refl|done]|].
  eapply runs_bind; [by apply Hf|]. intros ? s1 [H1 R1]. eapply runs_mono; [apply IH; by eapply emitted_wf| |].
  - intros ? s2 [H2 R2]. split; [|congruence]. replace (Z.of_nat (S (length l))) with (1 + Z.of_nat (length l)) by lia. by eapply emitted_trans.
  - intros c s2. by eapply asm_failed_after.
Qed.

Lemma plain_u64 emit v : plain emit 8 (asm_emit_u64 ctx emit v).
Proof. apply (plain_each emit _ (below 8)). intros i. apply plain_byte. Qed.
Lemma plain_u32 emit v : plain emit 4 (asm_emit_u32 ctx emit v).
Proof. apply (plain_each emit _ (below 4)). intros i. apply plain_byte. Qed.

Lemma emits_byte emit v : emits emit 1 (asm_emit_byte ctx emit v).
Proof. apply plain_emits, plain_byte. Qed.
Lemma emits_codes emit (l : list Z) : emits emit (Z.of_nat (length l)) (each l (asm_emit_byte ctx emit)).
Proof. apply plain_emits, plain_each, plain_byte. Qed.
Lemma emits_u64 emit v : emits emit 8 (asm_emit_u64 ctx emit v).
Proof. apply plain_emits, plain_u64. Qed.
Lemma emits_u32 emit v : emits emit 4 (asm_emit_u32 ctx emit v).
Proof. apply plain_emits, plain_u32. Qed.
Lemma emits_u16 emit v : emits emit 2 (asm_emit_u16 ctx emit v).
Proof. apply plain_emits, (plain_each emit _ (below 2)). intros i. apply plain_byte. Qed.

Lemma emits_rex emit w r b : emits emit (asm_rex_size w r b) (asm_emit_rex ctx emit w r b).
Proof. unfold asm_emit_rex, asm_rex_size. destruct (rex_byte w r b =? 0x40); [apply emits_ret|apply emits_byte]. Qed.

Lemma plain_rex emit w r b : plain emit (asm_rex_size w r b) (asm_emit_rex ctx emit w r b).
Proof. unfold asm_emit_rex, asm_rex_size. destruct (rex_byte w r b =? 0x40); [|apply plain_byte]. intros s Hs. apply runs_ret. split; [by apply emitted_refl|done]. Qed.

Lemma plain_bind emit n k m (f : unit -> C asm_state unit) : plain emit n m -> (forall a, plain emit k (f a)) -> plain emit (n + k) (m ≫= f).
Proof.
  intros Hm Hf s Hs. eapply runs_bind; [by apply Hm|]. intros a s1 [H1 R1]. eapply runs_mono; [apply (Hf a); by eapply emitted_wf| |].
  - intros b s2 [H2 R2]. split; [by eapply emitted_trans|congruence].
  - intros c s2. by eapply asm_failed_after.
Qed.

Lemma rex_size_w r b : asm_rex_size true r b = 1.
Proof. unfold asm_rex_size, rex_byte. destruct (Z.land r 8 =? 0), (Z.land b 8 =? 0); done. Qed.

Lemma emits_skip n : 0 <= n <= 16 -> emits false n (skip_bytes ctx n).
Proof.
  intros Hn s [H1 H2]. unfold skip_bytes, runs, mbind, C_bind, change, look, need. cbn [am_offset set_am_offset]. rewrite u32_small by (unfold is_u32; lia).
  destruct (Z.leb_spec (am_offset s + n) (cx_capacity ctx)); [|done]. cbn [gives]. split; [done|cbn; lia|done|done|split; [apply grown_refl|done]|exists []; split; [by rewrite app_nil_r|cbn; lia]|done|done].
Qed.

(** ** Fields *)

(** A relocation is noted where the next bytes go, which are its field. *)
Lemma field_runs emit o type name n m s : plain emit n m -> asm_wf emit s -> o = am_offset s -> relocation_type type -> field_size type <= n -> match name with Some nm => is_Some (asm_external_symbol_value ctx nm) | None => True end ->
  runs (_ ← note_relocation ctx emit o type name; m) s (fun _ s' => emitted emit n s s') (asm_failed s).
Proof.
  intros Hm Hs -> Ht Hn Hname. destruct emit; [|apply plain_emits in Hm; replace n with (0 + n) by lia; apply emits_bind; [apply emits_ret|done|done]].
  cbn [note_relocation]. unfold asm_add_relocation. destruct (cx_relocations ctx) as [cap|] eqn:Ecap; [|by apply plain_emits in Hm; apply (Hm s)].
  unfold runs, mbind, C_bind. destruct (Z.leb_spec cap (Z.of_nat (length (am_relocs s)))); [done|]. unfold copy_name_limited, ASSEMBLER_SYMBOL_NAME_SIZE. cbn [Z.eqb].
  destruct (Z.leb_spec (Z.of_nat (length (default [] name)) + 1) 128); [|done].
  set (s1 := set_am_relocs _ s). assert (Hs1 : asm_wf true s1) by (destruct Hs; by split). pose proof (Hm s1 Hs1) as Hr. unfold runs in Hr. eapply gives_mono; [exact Hr|].
  intros [[c|[]] s2]; [done|]. intros [[E1 E2 E3 E4 E5 (new & E6 & E7) E8 E9] Er]. split; [done|done|done|done|done| |done|].
  2: { intros cap' Hcap' _. rewrite Er. rewrite Ecap in Hcap'; injection Hcap' as <-. unfold s1. cbn [am_relocs set_am_relocs]. rewrite length_app. cbn [length]. lia. }
  rewrite Er. eexists. split; [done|]. unfold s1 in E1. cbn in E1. cbn [fields_in ar_offset ar_type ar_name]. split; [lia|]. split; [done|]. split; [|lia].
  split; [unfold short_name, ASSEMBLER_SYMBOL_NAME_SIZE; lia|]. destruct name as [nm|]; [by right|by left].
Qed.

Lemma runs_bind_look {A} (f : asm_state -> A) (k : A -> C asm_state unit) s Q X : runs (k (f s)) s Q X -> runs (look f ≫= k) s Q X.
Proof. done. Qed.

Lemma emits_modrm_reg emit reg rm : emits emit 1 (asm_emit_modrm_reg ctx emit reg rm).
Proof. apply emits_byte. Qed.

Lemma emits_rip_relative emit reg d label : emits emit 5 (asm_emit_modrm_rip_relative ctx emit reg d (asm_external_reloc_name ctx label)).
Proof.
  unfold asm_emit_modrm_rip_relative. apply (emits_bind emit 1 4); [apply emits_byte|]. intros _ s Hs. apply runs_bind_look.
  apply field_runs; [apply plain_u32|done|done|by right; right|done|].
  unfold asm_external_reloc_name. by destruct (asm_external_symbol_value ctx label) eqn:Ex; [rewrite Ex|].
Qed.

(** The bytes of a base with a displacement of 32 bits. *)
Definition base_size (base : asm_reg_t) : Z := if Z.land (reg_code base) 7 =? 4 then 6 else 5.

Lemma emits_base_disp32 emit reg base d : emits emit (base_size base) (asm_emit_modrm_base_disp32 ctx emit reg base d).
Proof.
  unfold asm_emit_modrm_base_disp32, base_size. destruct (Z.land (reg_code base) 7 =? 4).
  - apply (emits_bind emit 1 5); [apply emits_byte|]. intros _. apply (emits_bind emit 1 4); [apply emits_byte|]. intros _. apply emits_u32.
  - apply (emits_bind emit 1 4); [apply emits_byte|]. intros _. apply (emits_bind emit 0 4); [apply emits_ret|]. intros _. apply emits_u32.
Qed.

Lemma emits_displacement emit labels next label : emits emit 0 (displacement_to ctx emit labels next label).
Proof. unfold displacement_to. destruct emit; [apply emits_some_or|apply emits_ret]. Qed.

Lemma emits_prefix16 emit bits : emits emit (prefix16_size bits) (emit_prefix16 ctx emit bits).
Proof. unfold emit_prefix16, prefix16_size. destruct (bits =? 16); [apply emits_byte|apply emits_ret]. Qed.

Definition immediate_size (bits : Z) : Z := if bits =? 8 then 1 else if bits =? 16 then 2 else 4.

Lemma emits_immediate emit bits v : emits emit (immediate_size bits) (emit_immediate ctx emit bits v).
Proof. unfold emit_immediate, immediate_size. destruct (bits =? 8); [apply emits_byte|]. destruct (bits =? 16); [apply emits_u16|apply emits_u32]. Qed.

Lemma emits_lookup emit labels text : emits emit 0 (immediate ctx emit labels text).
Proof. unfold immediate. destruct emit; [apply emits_some_or|apply emits_ret]. Qed.

Lemma emits_number emit text : emits emit 0 (plain_number emit text).
Proof. unfold plain_number. destruct emit; [apply emits_some_or|apply emits_ret]. Qed.
End asm.

Create HintDb asm discriminated.
#[export] Hint Resolve emits_ret emits_stop emits_some_or emits_need emits_look emits_byte emits_codes emits_u64 emits_u32 emits_u16 emits_rex
  emits_modrm_reg emits_rip_relative emits_base_disp32 emits_displacement emits_prefix16 emits_immediate emits_lookup emits_number : asm.

Section size.
Context {KS : KernelSymbols} (ctx : assembler_context_t).
Context (Hcap : 0 <= cx_capacity ctx <= 0xFFFFFF00).

(** [m] emits the same number of bytes in both passes. *)
Definition sized (m : bool -> list asm_label_t -> C asm_state unit) : Prop := exists n, forall emit labels, emits ctx emit n (m emit labels).

Lemma sized_parse {A} (o : option A) (k : bool -> list asm_label_t -> A -> C asm_state unit) : (forall a, sized (fun e l => k e l a)) -> sized (fun e l => some_or o (-1) ≫= k e l).
Proof.
  intros Hk. destruct o as [a|]; [destruct (Hk a) as [n Hn]; exists n; intros e l; apply Hn|exists 0; intros e l; apply emits_stop].
Qed.

Lemma sized_stop : sized (fun _ _ => stop (-1)).
Proof. exists 0. intros e l. apply emits_stop. Qed.

Lemma sized_if (b : bool) m1 m2 : sized m1 -> sized m2 -> sized (fun e l => if b then m1 e l else m2 e l).
Proof. by destruct b. Qed.

(** One statement after the other, each with its size. *)
Ltac emit_steps :=
  repeat match goal with
    | |- emits _ _ _ (mbind _ _) => eapply emits_bind; [solve [eauto with asm]|intros ?]
    | |- emits _ _ _ (if ?x <? ?y then stop _ else _) => destruct (x <? y); [apply emits_stop|]
    end; eauto with asm.
Ltac size_steps := eexists; intros emit labels; emit_steps.

Lemma reg_reg_sized opcode w dst src : sized (fun e _ => asm_emit_reg_reg_op ctx e opcode w dst src).
Proof. unfold asm_emit_reg_reg_op. apply sized_if; [apply sized_stop|]. size_steps. Qed.

Lemma two_byte_sized opcode w dst src : sized (fun e _ => asm_emit_reg_reg_two_byte_op ctx e opcode w dst src).
Proof. unfold asm_emit_reg_reg_two_byte_op. apply sized_if; [apply sized_stop|]. size_steps. Qed.

Lemma mov_reg_label_sized dst label : sized (fun e l => asm_emit_mov_reg_mem_label ctx e l dst label).
Proof. unfold asm_emit_mov_reg_mem_label. destruct (negb _); [eexists; intros e l; eapply emits_bind; [apply emits_look|intros ?; apply (emits_stop ctx e 0)]|]. size_steps. Qed.

Lemma mov_reg_base_sized dst src : sized (fun e _ => asm_emit_mov_reg_mem_base ctx e dst src).
Proof. unfold asm_emit_mov_reg_mem_base. apply sized_if; [apply sized_stop|]. size_steps. Qed.

Lemma mov_label_reg_sized label src : sized (fun e l => asm_emit_mov_mem_label_reg ctx e l label src).
Proof. unfold asm_emit_mov_mem_label_reg. destruct (negb _); [eexists; intros e l; eapply emits_bind; [apply emits_look|intros ?; apply (emits_stop ctx e 0)]|]. size_steps. Qed.

Lemma mov_base_reg_sized dst src : sized (fun e _ => asm_emit_mov_mem_base_reg ctx e dst src).
Proof. unfold asm_emit_mov_mem_base_reg. apply sized_if; [apply sized_stop|]. size_steps. Qed.

(** The value of an immediate may stop a statement, but does not change its size. *)
Lemma mov_label_imm_emits label dst : exists n, forall emit labels value, emits ctx emit n (asm_emit_mov_mem_label_imm ctx emit labels label dst value).
Proof.
  unfold asm_emit_mov_mem_label_imm. eexists. intros emit labels value. eapply emits_bind; [apply emits_look|]. intros ?. destruct (too_wide _ _); [apply emits_stop|]. emit_steps.
Qed.

Lemma mov_base_imm_emits dst : exists n, forall emit value, emits ctx emit n (asm_emit_mov_mem_base_imm ctx emit dst value).
Proof.
  unfold asm_emit_mov_mem_base_imm. eexists. intros emit value. destruct (_ || _); [apply emits_stop|]. emit_steps.
Qed.

Lemma reg_label_op_sized opcode dst label : sized (fun e l => asm_emit_reg_mem_label_op ctx e l opcode dst label).
Proof. unfold asm_emit_reg_mem_label_op. destruct (negb _); [eexists; intros e l; eapply emits_bind; [apply emits_look|intros ?; apply (emits_stop ctx e 0)]|]. size_steps. Qed.

Lemma unary_emits emit opcode group w reg : emits ctx emit (asm_rex_size w 0 (reg_code reg) + (1 + 1)) (emit_unary ctx emit opcode group w reg).
Proof. unfold emit_unary. emit_steps. Qed.

(** ** Jumps and moves of addresses *)

(** A relocation is noted behind the two bytes of an opcode. *)
Lemma opcode_field_runs emit b code o type name m n s : plain ctx emit n m -> asm_wf ctx emit s -> o = am_offset s -> relocation_type type -> field_size type <= n -> match name with Some nm => is_Some (asm_external_symbol_value ctx nm) | None => True end -> o + 2 < 4294967296 ->
  runs (_ ← asm_emit_rex ctx emit true 0 b; _ ← asm_emit_byte ctx emit code; _ ← note_relocation ctx emit (u32 (o + 2)) type name; m) s (fun _ s' => emitted ctx emit (1 + (1 + n)) s s') (asm_failed s).
Proof.
  intros Hm Hs -> Ht Hn Hname Ho. pose proof (emits_rex ctx Hcap emit true 0 b s Hs) as H1. rewrite rex_size_w in H1. eapply runs_bind; [exact H1|]. intros ? s1 E1. cbv beta in E1.
  pose proof (emitted_wf _ _ _ _ _ Hs E1) as W1. eapply runs_bind_to; [apply (emits_byte ctx Hcap emit code s1 W1)|intros c s2; by eapply asm_failed_after|]. intros ? s2 E2. cbv beta in E2.
  pose proof (emitted_wf _ _ _ _ _ W1 E2) as W2. pose proof (emitted_trans _ _ _ _ _ _ _ E1 E2) as E12. pose proof (em_offset _ _ _ _ _ E12) as O2. pose proof (aw_offset _ _ _ Hs).
  eapply runs_mono; [apply (field_runs ctx emit (u32 (am_offset s + 2)) type name n m s2 Hm W2); [rewrite u32_small by (unfold is_u32; lia); lia|done|done|done]| |].
  - intros ? s3 E3. cbv beta in E3. replace (1 + (1 + n)) with (1 + 1 + n) by lia. by eapply emitted_trans.
  - intros c s3. by eapply asm_failed_after.
Qed.

Lemma mov_register_emits dst src_text : exists n, forall emit labels value, emits ctx emit n (assemble_mov_register ctx emit labels dst src_text value).
Proof.
  unfold assemble_mov_register. destruct (reg_bits dst =? 64).
  - exists (1 + (1 + 8)). intros emit labels value s Hs. apply runs_bind_look. pose proof (aw_offset _ _ _ Hs).
    destruct (asm_external_symbol_value ctx src_text) as [v|] eqn:Ex.
    + apply (opcode_field_runs emit (reg_code dst) (0xB8 + Z.land (reg_code dst) 7) (am_offset s) ASSEMBLER_RELOC_ABS64 (Some src_text) (asm_emit_u64 ctx emit v) 8 s); [by apply plain_u64|done|done|by left|done|by rewrite Ex|lia].
    + destruct (asm_find_label labels src_text).
      * apply (opcode_field_runs emit (reg_code dst) (0xB8 + Z.land (reg_code dst) 7) (am_offset s) ASSEMBLER_RELOC_RELATIVE64 None (asm_emit_u64 ctx emit value) 8 s); [by apply plain_u64|done|done|by right; left|done|done|lia].
      * revert s Hs H. intros s Hs _. revert s Hs. change (emits ctx emit (1 + (1 + 8)) (_ ← asm_emit_rex ctx emit true 0 (reg_code dst); _ ← asm_emit_byte ctx emit (0xB8 + Z.land (reg_code dst) 7); asm_emit_u64 ctx emit value)).
        eapply emits_eq; [emit_steps|]. rewrite rex_size_w. done.
  - eexists. intros emit labels value. destruct (emit && _); [apply emits_stop|]. emit_steps.
Qed.

Lemma call_jmp_sized target opcode group : sized (fun e l => asm_emit_call_jmp_target ctx e l target opcode group).
Proof.
  unfold asm_emit_call_jmp_target. destruct (asm_register target) as [reg|]; [apply sized_if; [apply sized_stop|size_steps]|].
  destruct (asm_external_symbol_value ctx target) as [v|] eqn:Ex.
  - exists (1 + (1 + (8 + (1 + (1 + 1))))). intros emit labels s Hs. apply runs_bind_look. pose proof (aw_offset _ _ _ Hs).
    apply (opcode_field_runs emit 0 0xB8 (am_offset s) ASSEMBLER_RELOC_ABS64 (Some target)
      (_ ← asm_emit_u64 ctx emit v; _ ← asm_emit_rex ctx emit true 0 0; _ ← asm_emit_byte ctx emit 0xFF; asm_emit_modrm_reg ctx emit group 0) (8 + (1 + (1 + 1))) s); [|done|done|by left|done|by rewrite Ex|lia].
    apply plain_bind; [by apply plain_u64|]. intros _. apply plain_bind; [rewrite <- (rex_size_w 0 0); by apply plain_rex|]. intros _. apply plain_bind; [by apply plain_byte|]. intros _. by apply plain_byte.
  - destruct (assembler_symbol_value target) as [v|]; [size_steps|]. exists 5. intros emit labels. destruct emit; [|by apply emits_skip]. eapply emits_eq; [emit_steps|done].
Qed.

Lemma jcc_sized opcode args : sized (fun e l => assemble_jcc ctx e l opcode args).
Proof. unfold assemble_jcc. exists 6. intros emit labels. destruct emit; [|by apply emits_skip]. eapply emits_eq; [emit_steps|done]. Qed.

(** ** Data *)

Lemma db_string_emits s : exists n rest, (length rest <= length s)%nat /\
  forall emit st, asm_wf ctx emit st -> runs (db_string ctx emit s) st (fun r st' => r = rest /\ emitted ctx emit n st st') (asm_failed st).
Proof.
  assert (H : forall k s, (length s <= k)%nat -> exists n rest, (length rest <= length s)%nat /\
    forall emit st, asm_wf ctx emit st -> runs (db_string ctx emit s) st (fun r st' => r = rest /\ emitted ctx emit n st st') (asm_failed st)); [|by apply (H (length s))].
  clear s. induction k as [|k IH]; intros [|ch s1] Hl; cbn [length] in Hl; [exists 0, []; done|lia|exists 0, []; done|]. cbn [db_string].
  destruct (ch =? 34); [exists 0, s1; split; [cbn; lia|]; intros emit st Hs; apply runs_ret; split; [done|by apply emitted_refl]|].
  assert (Hone : forall s2 (m : bool -> C asm_state unit), (length s2 <= k)%nat -> (forall emit, emits ctx emit 1 (m emit)) -> exists n rest, (length rest <= length s2)%nat /\
    forall emit st, asm_wf ctx emit st -> runs (_ ← m emit; db_string ctx emit s2) st (fun r st' => r = rest /\ emitted ctx emit n st st') (asm_failed st)).
  { intros s2 m Hs2 Hm. destruct (IH s2 Hs2) as (n & rest & Hr & Hrun). exists (1 + n), rest. split; [done|]. intros emit st Hst. eapply runs_bind; [by apply Hm|]. intros ? st1 H1. cbv beta in H1.
    eapply runs_mono; [apply Hrun; by eapply emitted_wf| |].
    - intros r st2 [-> H2]. split; [done|]. by eapply emitted_trans.
    - intros c st2. by eapply asm_failed_after. }
  destruct (ch =? 92).
  - destruct s1 as [|c s2]; [exists 0, []; split; [cbn; lia|done]|]. cbn [length] in Hl.
    destruct (Hone s2 (fun emit => if c =? 110 then asm_emit_byte ctx emit 10 else if c =? 114 then asm_emit_byte ctx emit 13 else if c =? 116 then asm_emit_byte ctx emit 9
                 else if c =? 48 then asm_emit_byte ctx emit 0 else if (c =? 34) || (c =? 92) then asm_emit_byte ctx emit c else stop (-1))) as (n & rest & Hr & Hrun); [lia| |exists n, rest; split; [cbn; lia|exact Hrun]].
    intros emit. repeat case_match; (by apply emits_byte) || apply emits_stop.
  - destruct (Hone s1 (fun emit => asm_emit_byte ctx emit ch)) as (n & rest & Hr & Hrun); [lia|intros emit; by apply emits_byte|]. exists n, rest. split; [cbn; lia|exact Hrun].
Qed.

Lemma skip_length s : (length (skip_const_spaces s) <= length s)%nat.
Proof. induction s as [|ch s IH]; [done|]. cbn [skip_const_spaces]. destruct (char_is_space ch); cbn [length]; lia. Qed.

Lemma trim_length s : (length (trim_mutable s) <= length s)%nat.
Proof. unfold trim_mutable, trim_end. rewrite length_rev. pose proof (skip_length (rev (skip_const_spaces s))). rewrite length_rev in H. pose proof (skip_length s). lia. Qed.

Lemma cut_at_app stop s : (cut_at stop s).1 ++ (cut_at stop s).2 = s.
Proof. induction s as [|ch s IH]; [done|]. cbn [cut_at]. destruct (stop ch); [done|]. destruct (cut_at stop s) as [a b]. cbn in *. by rewrite IH. Qed.

Lemma cut_at_length stop s : (length (cut_at stop s).1 + length (cut_at stop s).2 = length s)%nat.
Proof. rewrite <- length_app. by rewrite cut_at_app. Qed.

Lemma parse_nil : parse_u64 (trim_mutable []) = None.
Proof. done. Qed.

Lemma db_byte_shorter s v rest : asm_parse_db_byte s = Some (v, rest) -> (length (trim_mutable rest) < length s)%nat.
Proof.
  unfold asm_parse_db_byte. pose proof (cut_at_length is_comma (trim_mutable s)) as Hc. destruct (cut_at is_comma (trim_mutable s)) as [text r]. cbn in Hc.
  destruct text as [|c text]; [by rewrite parse_nil|]. destruct (parse_u64 _) as [x|]; [|done]. cbn [mbind option_bind]. destruct (255 <? x); [done|]. intros [= <- <-].
  pose proof (trim_length (drop 1 r)). rewrite length_drop in H. pose proof (trim_length s). cbn in Hc. lia.
Qed.

Lemma db_loop_sized fuel : forall s, (length s <= fuel)%nat -> sized (fun e _ => db_loop ctx e fuel s).
Proof.
  induction fuel as [|fuel IH]; intros [|ch s1] Hl; cbn [length] in Hl; [eexists; intros; by apply emits_ret|lia|eexists; intros; by apply emits_ret|]. cbn [db_loop]. destruct (ch =? 34).
  - destruct (db_string_emits s1) as (n & rest & Hr & Hrun). pose proof (trim_length rest) as Ht.
    assert (Hk : sized (fun e _ => match trim_mutable rest with [] => mret tt | c :: rest => if c =? 44 then db_loop ctx e fuel (trim_mutable rest) else stop (-1) end)).
    { destruct (trim_mutable rest) as [|c r] eqn:Et; [eexists; intros; by apply emits_ret|]. cbn [length] in Ht. pose proof (trim_length r). apply sized_if; [apply IH; lia|apply sized_stop]. }
    destruct Hk as [k Hk]. exists (n + k). intros emit labels st Hst. eapply runs_bind; [by apply Hrun|]. intros r st1 [-> E1]. eapply runs_mono; [apply (Hk emit labels); by eapply emitted_wf| |].
    + intros ? st2 E2. by eapply emitted_trans.
    + intros c st2. by eapply asm_failed_after.
  - destruct (asm_parse_db_byte (ch :: s1)) as [[v rest]|] eqn:Ep.
    + pose proof (db_byte_shorter _ _ _ Ep) as Hs. cbn [length] in Hs. destruct (IH (trim_mutable rest) ltac:(lia)) as [k Hk]. exists (1 + k). intros emit labels. change (emits ctx emit (1 + k) (_ ← asm_emit_byte ctx emit v; db_loop ctx emit fuel (trim_mutable rest))).
      apply emits_bind; [by apply emits_byte|]. intros _. by apply (Hk emit labels).
    + exists 0. intros emit labels. apply emits_stop.
Qed.

Lemma dq_loop_sized fuel : forall s, (length s <= fuel)%nat -> sized (fun e l => dq_loop ctx e l fuel s).
Proof.
  induction fuel as [|fuel IH]; intros s Hl; [destruct s; [|cbn in Hl; lia]; eexists; intros; by apply emits_ret|]. destruct s as [|ch s1]; [eexists; intros; by apply emits_ret|]. cbn [dq_loop].
  pose proof (cut_at_length is_comma (ch :: s1)) as Hc. destruct (cut_at is_comma (ch :: s1)) as [text rest]. cbn [fst snd] in Hc. destruct (trim_mutable text) as [|t0 t1] eqn:Et; [apply sized_stop|].
  assert (Hn : (0 < length text)%nat) by (destruct text; [discriminate Et|cbn; lia]). pose proof (trim_length (drop 1 rest)) as Hd. rewrite length_drop in Hd.
  destruct (IH (trim_mutable (drop 1 rest)) ltac:(lia)) as [k Hk]. exists (0 + (8 + k)). intros emit labels. apply emits_bind; [destruct emit; [apply emits_some_or|by apply emits_ret]|]. intros v.
  apply emits_bind; [by apply emits_u64|]. intros _. by apply (Hk emit labels).
Qed.

(** ** Instructions *)

Lemma ret_sized args : sized (fun e _ => assemble_ret ctx e args).
Proof. unfold assemble_ret. destruct args; size_steps. Qed.

Lemma int_sized args : sized (fun e _ => assemble_int ctx e args).
Proof. unfold assemble_int. size_steps. Qed.

(** A statement whose immediate is looked up. *)
Lemma sized_immediate text (k : bool -> list asm_label_t -> Z -> C asm_state unit) : (exists n, forall emit labels v, emits ctx emit n (k emit labels v)) -> sized (fun e l => immediate ctx e l text ≫= k e l).
Proof. intros [n Hn]. exists (0 + n). intros emit labels. apply emits_bind; [by apply emits_lookup|]. intros v. apply Hn. Qed.

Lemma mov_sized args : sized (fun e l => assemble_mov ctx e l args).
Proof.
  unfold assemble_mov. apply sized_parse. intros [dst_text src_text]. destruct (asm_parse_memory_operand dst_text) as [dst_mem|].
  - destruct (asm_register src_text) as [src|]; [apply sized_if; [apply mov_label_reg_sized|apply mov_base_reg_sized]|].
    apply sized_immediate. destruct (mem_is_label dst_mem); [apply mov_label_imm_emits|]. destruct (mov_base_imm_emits dst_mem) as [n Hn]. by exists n.
  - apply sized_parse. intros dst. destruct (asm_register src_text) as [src|]; [apply reg_reg_sized|]. destruct (asm_parse_memory_operand src_text) as [src_mem|].
    + apply sized_if; [apply mov_reg_label_sized|apply mov_reg_base_sized].
    + apply sized_immediate, mov_register_emits.
Qed.

Lemma extend_sized w codes dst src : sized (fun e l => emit_extend ctx e l w codes dst src).
Proof. unfold emit_extend. destruct (mem_is_label src); size_steps. Qed.

Lemma movx_sized mnemonic args : sized (fun e l => assemble_movx ctx e l mnemonic args).
Proof.
  unfold assemble_movx. apply sized_parse. intros [dst_text src_text]. apply sized_parse. intros dst. apply sized_parse. intros src.
  repeat first [apply extend_sized|apply sized_stop|apply sized_if].
Qed.

Lemma imul_imm_emits dst src : exists n, forall emit (labels : list asm_label_t) value, emits ctx emit n (emit_imul_imm ctx emit dst src value).
Proof. unfold emit_imul_imm. eexists. intros emit labels value. emit_steps. Qed.

Lemma imul_sized args : sized (fun e l => assemble_imul ctx e l args).
Proof.
  unfold assemble_imul. destruct (asm_split_three_args args) as [args'|[[dst_text src_text] imm_text]].
  - apply sized_parse. intros [dst_text src_text]. apply sized_parse. intros dst. destruct (asm_register src_text); [apply two_byte_sized|]. apply sized_immediate, imul_imm_emits.
  - apply sized_parse. intros dst. apply sized_parse. intros src. apply sized_if; [apply sized_stop|]. apply sized_immediate, imul_imm_emits.
Qed.

Lemma alu_sized mnemonic codes args : sized (fun e l => assemble_alu ctx e l mnemonic codes args).
Proof.
  unfold assemble_alu. destruct codes as [[opcode mem_opcode] group]. apply sized_parse. intros [dst_text src_text]. apply sized_parse. intros dst. destruct (asm_register src_text); [apply reg_reg_sized|].
  destruct (asm_parse_label_memory src_text _) as [[label bits]|]; [apply reg_label_op_sized|]. apply sized_immediate. destruct (streq mnemonic _).
  - eexists. intros emit labels v. destruct (_ <? v); [apply emits_stop|]. eapply emits_bind; [apply unary_emits|]. intros _. by apply emits_u32.
  - unfold asm_emit_group1_imm32. eexists. intros emit labels v. emit_steps.
Qed.

Lemma shift_sized group args : sized (fun e l => assemble_shift ctx e l group args).
Proof.
  unfold assemble_shift. apply sized_parse. intros [dst_text src_text]. apply sized_parse. intros dst. destruct (asm_register src_text).
  - apply sized_if; [apply sized_stop|]. eexists. intros emit labels. apply unary_emits.
  - apply sized_immediate. eexists. intros emit labels v. destruct (_ <? v); [apply emits_stop|]. eapply emits_bind; [apply unary_emits|]. intros _. by apply emits_byte.
Qed.

Lemma stack_sized opcode args : sized (fun e _ => assemble_stack ctx e opcode args).
Proof. unfold assemble_stack. apply sized_parse. intros reg. apply sized_if; [apply sized_stop|]. size_steps. Qed.

Lemma unary_sized opcode group w reg : sized (fun e _ => emit_unary ctx e opcode group w reg).
Proof. eexists. intros emit labels. apply unary_emits. Qed.

(** Every instruction has a size. *)
Lemma instruction_sized line : sized (fun e l => asm_assemble_instruction ctx e l line).
Proof.
  unfold asm_assemble_instruction. destruct (cut_at char_is_space line) as [mnemonic rest]. set (args := trim_mutable (drop 1 rest)).
  destruct (fixed_loop fixed_codes mnemonic) as [codes|]; [eexists; intros; by apply emits_codes|].
  apply sized_if; [apply ret_sized|]. apply sized_if; [apply int_sized|]. apply sized_if; [by apply db_loop_sized|]. apply sized_if; [by apply dq_loop_sized|].
  do 2 (apply sized_if; [eexists; intros; apply emits_need|]). apply sized_if; [eexists; intros; by apply emits_ret|].
  apply sized_if; [apply mov_sized|]. apply sized_if; [apply movx_sized|]. apply sized_if; [apply imul_sized|].
  destruct (alu_loop alu_codes mnemonic) as [codes|]; [apply alu_sized|].
  apply sized_if; [apply sized_parse; intros reg; apply unary_sized|]. apply sized_if; [apply sized_parse; intros reg; apply sized_if; [apply sized_stop|apply unary_sized]|].
  apply sized_if; [apply sized_parse; intros reg; apply unary_sized|]. do 3 (apply sized_if; [apply shift_sized|]). do 2 (apply sized_if; [apply stack_sized|]). do 2 (apply sized_if; [apply call_jmp_sized|]).
  destruct (asm_jcc_opcode mnemonic); [apply jcc_sized|apply sized_stop].
Qed.
End size.
