(* ===== verification/ZAsmJump.v ===== *)
(** The two passes of the assembler agree; where the lines of a source and the targets of its jumps are in the code. *)
From Stdlib Require Import ZArith Lia String.
From stdpp Require Import base tactics option list numbers.
From S2P Require Import Prelude.
From S2P Require Import Buffer.
From S2P Require Import KernelExports.
From S2P Require Import ZObject.
From S2P Require Import ZObjectSpec.
From S2P Require Import ZLink.
From S2P Require Import ZLayout.
From S2P Require Import ZAsmText.
From S2P Require Import ZAsm.
From S2P Require Import ZAsmSpec.
From S2P Require Import ZLinkSpec.
#[local] Open Scope Z_scope.

(** * The two passes over a source agree: labels get the positions their lines
    have in the output. *)


(** ** Labels *)

Lemma streq_spec a b : streq a b = true <-> a = b.
Proof.
  revert b. induction a as [|x a IH]; intros [|y b]; cbn [streq]; try done. rewrite andb_true_iff, Z.eqb_eq, IH. split; [by intros [-> ->]|by intros [= -> ->]].
Qed.

Lemma find_label_None labels name : asm_find_label labels name = None <-> name ∉ map lb_name labels.
Proof.
  induction labels as [|l labels IH]; cbn [asm_find_label map]; [split; [intros _; apply not_elem_of_nil|done]|]. rewrite not_elem_of_cons, <- IH.
  destruct (streq (lb_name l) name) eqn:Es; [apply streq_spec in Es; split; [done|intros [? _]; congruence]|].
  split; [|tauto]. intros H. split; [|done]. intros ->. by rewrite (proj2 (streq_spec _ _) eq_refl) in Es.
Qed.

(** In a table without repetitions a label is found. *)
Lemma find_label_in labels l : NoDup (map lb_name labels) -> l ∈ labels -> asm_find_label labels (lb_name l) = Some (lb_offset l).
Proof.
  induction labels as [|l0 labels IH]; [by intros _ ?%elem_of_nil|]. cbn [map asm_find_label]. intros [Hn Hd]%list.NoDup_cons [->|Hin]%elem_of_cons; [by rewrite (proj2 (streq_spec _ _) eq_refl)|].
  destruct (streq (lb_name l0) (lb_name l)) eqn:Es; [|by apply IH]. apply streq_spec in Es. exfalso. apply Hn. rewrite Es. apply list_elem_of_In, in_map. by apply list_elem_of_In.
Qed.

Lemma add_label_some labels name offset labels' : asm_add_label labels name offset = Some labels' ->
  labels' = labels ++ [AsmLabel name offset] /\ (name ∉ map lb_name labels) /\ short_name name /\ name <> [].
Proof.
  unfold asm_add_label. destruct name as [|c name]; [done|]. destruct (asm_find_label labels (c :: name)) eqn:Ef; [done|]. apply find_label_None in Ef.
  destruct (ASM_MAX_LABELS <=? _); [done|]. unfold copy_name_limited. cbn [ASM_LABEL_NAME_SIZE ASSEMBLER_SYMBOL_NAME_SIZE Z.eqb].
  destruct (Z.leb_spec (Z.of_nat (length (c :: name)) + 1) ASM_LABEL_NAME_SIZE) as [Hl|]; [|done]. cbn [mbind option_bind]. intros [= <-]. split; [done|]. split; [done|]. split; [|done].
  unfold short_name, ASM_LABEL_NAME_SIZE in *. lia.
Qed.

(** The names a line defines. *)
Definition statement_labels (line : list Z) : list (list Z) :=
  let '(name, rest) := cut_at char_is_space line in
  match rest with [] => [] | _ :: rest => if is_data (fst (cut_at char_is_space (trim_mutable rest))) then [name] else [] end.

Definition line_labels (line : list Z) : list (list Z) :=
  match trim_mutable (strip_asm_comment line) with
  | [] => []
  | line =>
      let '(name, rest) := cut_at (fun c => char_is_space c || (c =? 58)) line in
      match rest with
      | ch :: behind => if ch =? 58 then name :: match trim_mutable behind with [] => [] | line => statement_labels line end else statement_labels line
      | [] => statement_labels line
      end
  end.

Section pass.
Context {KS : KernelSymbols} (ctx : assembler_context_t).
Context (Hcap : 0 <= cx_capacity ctx <= 0xFFFFFF00).

Definition labels_good (labels : list asm_label_t) : Prop := NoDup (map lb_name labels) /\ Forall (fun l => short_name (lb_name l) /\ lb_name l <> []) labels.

(** Some labels are defined where the state is, then [n] bytes are emitted. *)
Record line_done (emit : bool) (names : list (list Z)) (n : Z) (s s' : asm_state) : Prop := LineDone {
  ld_emitted : emitted ctx emit n (set_am_labels (am_labels s') s) s';
  ld_labels : am_labels s' = if emit then am_labels s else am_labels s ++ map (fun name => AsmLabel name (am_offset s)) names;
  ld_good : labels_good (am_labels s) -> labels_good (am_labels s')
}.

Lemma wf_labels emit labels s : asm_wf ctx emit s <-> asm_wf ctx emit (set_am_labels labels s).
Proof. split; intros [H1 H2]; by split. Qed.

Lemma failed_labels labels s c s' : asm_failed (set_am_labels labels s) c s' <-> asm_failed s c s'.
Proof. done. Qed.

Lemma statement_runs line : exists n, forall emit s, asm_wf ctx emit s -> runs (assemble_statement ctx emit line) s (fun _ s' => emitted ctx emit n s s') (asm_failed s).
Proof. destruct (instruction_sized ctx Hcap line) as [n Hn]. exists n. intros emit s Hs. unfold assemble_statement. apply runs_bind_look. by apply Hn. Qed.

Lemma emitted_line emit n s s' : emitted ctx emit n s s' -> line_done emit [] n s s'.
Proof.
  intros He. pose proof (em_labels _ _ _ _ _ He) as Hl. split; [rewrite Hl; by destruct s|destruct emit; [done|by rewrite app_nil_r]|by rewrite Hl].
Qed.

Lemma labels_good_add labels name offset : labels_good labels -> name ∉ map lb_name labels -> short_name name -> name <> [] -> labels_good (labels ++ [AsmLabel name offset]).
Proof.
  intros [H1 H2] Hn Hs Hne. split; [|apply Forall_app_2; [done|by constructor]]. rewrite map_app. cbn [map lb_name]. apply list.NoDup_app. split; [done|]. split; [intros x Hx ->%list_elem_of_singleton; done|apply NoDup_singleton].
Qed.

Lemma define_label_runs emit name s : asm_wf ctx emit s -> runs (define_label emit name) s (fun _ s' => s' = set_am_labels (am_labels s') s /\
  am_labels s' = (if emit then am_labels s else am_labels s ++ [AsmLabel name (am_offset s)]) /\ (labels_good (am_labels s) -> labels_good (am_labels s'))) (asm_failed s).
Proof.
  intros Hs. unfold define_label. destruct emit; [apply runs_ret; split; [by destruct s|done]|]. unfold runs, add_label. destruct (asm_add_label _ _ _) as [labels|] eqn:Ea; [|done].
  apply add_label_some in Ea as (-> & Hn & Hsh & Hne). cbn [gives]. split; [done|]. split; [done|]. intros Hg. by apply labels_good_add.
Qed.

(** A label, then a line. *)
Lemma labelled_runs emit name names n (m : C asm_state unit) : (forall s, asm_wf ctx emit s -> runs m s (fun _ s' => line_done emit names n s s') (asm_failed s)) ->
  forall s, asm_wf ctx emit s -> runs (_ ← define_label emit name; m) s (fun _ s' => line_done emit (name :: names) n s s') (asm_failed s).
Proof.
  intros Hm s Hs. eapply runs_bind; [by apply define_label_runs|]. intros ? s1 (E1 & L1 & G1). cbv beta in *. rewrite E1. set (labels := am_labels s1) in *.
  eapply runs_mono; [apply Hm; by apply wf_labels| |by intros c s'; rewrite failed_labels].
  intros ? s2 [D1 D2 D3]. split; [exact D1| |auto]. rewrite D2. cbn [am_labels set_am_labels am_offset]. rewrite L1. destruct emit; [done|]. by rewrite <- app_assoc.
Qed.

(** A line has its labels and its size. *)
Definition line_sized (line : list Z) (n : Z) : Prop :=
  0 <= n /\ forall emit s, asm_wf ctx emit s -> runs (asm_assemble_line ctx emit line) s (fun _ s' => line_done emit (line_labels line) n s s') (asm_failed s).

Lemma line_done_nil emit s : asm_wf ctx emit s -> line_done emit [] 0 s s.
Proof. intros Hs. by apply emitted_line, emitted_refl. Qed.

Lemma unlabelled_runs line : exists n, forall emit s, asm_wf ctx emit s -> runs (assemble_unlabelled ctx emit line) s (fun _ s' => line_done emit (statement_labels line) n s s') (asm_failed s).
Proof.
  unfold assemble_unlabelled, statement_labels.
  assert (Hplain : forall line', exists n, forall emit s, asm_wf ctx emit s -> runs (assemble_statement ctx emit line') s (fun _ s' => line_done emit [] n s s') (asm_failed s)).
  { intros line'. destruct (statement_runs line') as [n Hn]. exists n. intros emit s Hs. eapply runs_mono; [by apply Hn| |done]. intros ? s'. apply emitted_line. }
  destruct (cut_at char_is_space line) as [name [|c rest]]; [apply Hplain|]. destruct (is_data _); [|apply Hplain].
  destruct (Hplain (trim_mutable rest)) as [n Hn]. exists n. intros emit s Hs. apply (labelled_runs emit name [] n); [apply Hn|done].
Qed.

Lemma emits_nonneg line n : (forall emit s, asm_wf ctx emit s -> runs (asm_assemble_line ctx emit line) s (fun _ s' => line_done emit (line_labels line) n s s') (asm_failed s)) -> exists n, line_sized line n.
Proof.
  intros Hn. destruct (Z.le_gt_cases 0 n) as [H0|Hlt]; [by exists n|]. exists 0. split; [done|]. intros emit s Hs. eapply runs_mono; [by apply Hn| |done].
  intros ? s' [[_ He _ _ _ _ _ _] _ _]. lia.
Qed.

Lemma line_has_size line : exists n, line_sized line n.
Proof.
  assert (H : exists n, forall emit s, asm_wf ctx emit s -> runs (asm_assemble_line ctx emit line) s (fun _ s' => line_done emit (line_labels line) n s s') (asm_failed s)); [|destruct H as [n Hn]; by eapply emits_nonneg].
  unfold asm_assemble_line, line_labels. destruct (trim_mutable (strip_asm_comment line)) as [|c0 cs]; [exists 0; intros emit s Hs; apply runs_ret; by apply line_done_nil|].
  destruct (cut_at _ (c0 :: cs)) as [name [|ch behind]]; [apply unlabelled_runs|]. destruct (ch =? 58); [|apply unlabelled_runs].
  destruct (trim_mutable behind) as [|b0 bs].
  - exists 0. intros emit s Hs. apply (labelled_runs emit name [] 0); [|done]. intros s1 Hs1. apply runs_ret. by apply line_done_nil.
  - destruct (unlabelled_runs (b0 :: bs)) as [n Hn]. exists n. intros emit s Hs. apply labelled_runs; [apply Hn|done].
Qed.

(** ** A pass *)

(** The labels of lines of some sizes that start at a position. *)
Fixpoint labels_at (o : Z) (lines : list (list Z)) (sizes : list Z) : list asm_label_t :=
  match lines, sizes with
  | line :: lines', n :: sizes' => map (fun name => AsmLabel name o) (line_labels line) ++ labels_at (o + n) lines' sizes'
  | _, _ => []
  end.

Definition total (sizes : list Z) : Z := foldr Z.add 0 sizes.
#[global] Arguments total : simpl never.

Record pass_done (emit : bool) (lines : list (list Z)) (sizes : list Z) (s s' : asm_state) : Prop := PassDone {
  pd_emitted : emitted ctx emit (total sizes) (set_am_labels (am_labels s') s) s';
  pd_labels : am_labels s' = if emit then am_labels s else am_labels s ++ labels_at (am_offset s) lines sizes;
  pd_good : labels_good (am_labels s) -> labels_good (am_labels s')
}.

Lemma emitted_relabel emit n labels s s' : emitted ctx emit n s s' -> emitted ctx emit n (set_am_labels labels s) (set_am_labels labels s').
Proof. by intros [H1 H2 H3 H4 H5 H6 H7 H8]; split. Qed.

Lemma assemble_lines_runs emit lines sizes : Forall2 line_sized lines sizes -> forall k s, asm_wf ctx emit s ->
  runs (assemble_lines ctx emit k lines) s (fun _ s' => pass_done emit lines sizes s s') (asm_failed s).
Proof.
  induction 1 as [|line n lines sizes [Hn0 Hn] _ IH]; intros k s Hs; cbn [assemble_lines].
  - apply runs_ret. split; [cbn; destruct s; by apply emitted_refl|destruct emit; [done|by rewrite app_nil_r]|done].
  - pose proof (Hn emit s Hs) as H1. unfold runs in H1 |- *. destruct (asm_assemble_line ctx emit line s) as [[[c|[]] s1]|]; [destruct H1 as [_ H1]; by split| |done].
    destruct H1 as [D1 D2 D3]. assert (W1 : asm_wf ctx emit s1) by (eapply emitted_wf; [by apply wf_labels|exact D1]). specialize (IH (k + 1) s1 W1). unfold runs in IH.
    eapply gives_mono; [exact IH|]. intros [[c|[]] s2].
    + intros [-> H2]. split; [done|]. rewrite H2. destruct D1 as [_ _ _ _ [G _] _ _ _]. exact (grown_length _ _ _ _ G).
    + intros [P1 P2 P3]. pose proof (em_offset _ _ _ _ _ D1) as O1. cbn in O1. split; [| |auto].
      * cbn [total foldr]. eapply emitted_trans; [|exact P1]. apply (emitted_relabel _ _ (am_labels s2)) in D1. exact D1.
      * rewrite P2, D2, O1. destruct emit; [done|]. cbn [labels_at]. by rewrite <- app_assoc.
Qed.

Lemma lines_have_sizes lines : exists sizes, Forall2 line_sized lines sizes.
Proof. induction lines as [|line lines [sizes IH]]; [by exists []|]. destruct (line_has_size line) as [n Hn]. exists (n :: sizes). by constructor. Qed.
End pass.

(** ** A source *)

Section source.
Context {KS : KernelSymbols} (source out : list Z) (base : Z) (externals : list (list Z * Z)) (names : list (list Z)) (relocations : option Z).
Context (Hout : 0 < Z.of_nat (length out) <= 0x7fffffff).

Definition source_context : assembler_context_t := AsmContext (Z.of_nat (length out)) base externals relocations.

(** What the assembler leaves: the lines with their sizes behind each other, the
    labels at the places of their lines, the fields of the relocations in order,
    and the rest of the buffer as it was. *)
Record assembled (r : asm_result) : Prop := Assembled {
  ad_lines : exists sizes, Forall2 (line_sized source_context) (asm_lines false [] source) sizes /\ as_size r = total sizes /\
    labels_good (labels_at 0 (asm_lines false [] source) sizes) /\ export_values source_context (labels_at 0 (asm_lines false [] source) sizes) names = Some (as_values r);
  ad_size : 0 <= as_size r <= Z.of_nat (length out);
  ad_out : grown 0 (as_size r) out (as_out r);
  ad_fields : fields_in externals 0 (as_size r) (as_relocations r);
  ad_count : match relocations with Some cap => 0 <= cap -> Z.of_nat (length (as_relocations r)) <= cap | None => True end
}.

Lemma assemble_source_gives : gives (assembler_assemble_source_ex_relocs source out base externals names relocations) (fun r =>
  length (as_out r) = length out /\ ((as_code r = -1) \/ (as_code r = 0 /\ (bytes out -> bytes (as_out r)) /\ assembled r))).
Proof.
  unfold assembler_assemble_source_ex_relocs. rewrite (proj2 (Z.eqb_neq _ 0)) by lia. fold source_context. set (lines := asm_lines false [] source).
  assert (Hcap : 0 <= cx_capacity source_context <= 0xFFFFFF00) by (cbn; lia). destruct (lines_have_sizes source_context Hcap lines) as [sizes Hs].
  assert (W0 : forall emit, asm_wf source_context emit (asm_start out)) by (intros emit; split; cbn; [lia|done]).
  pose proof (assemble_lines_runs source_context false lines sizes Hs 1 (asm_start out) (W0 false)) as H1. unfold runs in H1.
  destruct (assemble_lines source_context false 1 lines (asm_start out)) as [[[c|[]] s1]|]; [| |done]; cbn [gives mbind option_bind] in *; [destruct H1 as [-> H1]; split; [exact H1|by left]|].
  destruct H1 as [P1 P2 P3]. destruct (em_measure _ _ _ _ _ P1 eq_refl) as [R1 O1]. cbn in R1, O1.
  destruct (export_values source_context (am_labels s1) names) as [values|] eqn:Ev; [|cbn; rewrite O1; split; [done|by left]].
  assert (W1 : asm_wf source_context true (set_am_offset 0 s1)) by (split; cbn; [lia|by rewrite O1]).
  pose proof (assemble_lines_runs source_context true lines sizes Hs 1 _ W1) as H2. unfold runs in H2.
  destruct (assemble_lines source_context true 1 lines (set_am_offset 0 s1)) as [[[c|[]] s2]|]; [| |done]; cbn [gives mbind option_bind] in *.
  { destruct H2 as [-> H2]. cbn in H2. cbn. split; [by rewrite H2, O1|by left]. }
  destruct H2 as [Q1 Q2 Q3]. cbn in Q2. destruct Q1 as [E1 E2 _ _ [E5 E5'] (new & E6 & E7) _ E9]. cbn in E1, E2, E5, E5', E6, E7, E9. rewrite O1 in E5, E5'. rewrite R1 in E6, E9. cbn [app] in E6.
  cbn [result_of as_out as_code]. split; [by rewrite (grown_length _ _ _ _ E5)|]. right. split; [done|]. split; [done|]. cbn in P2.
  split; unfold result_of; cbn [as_size as_out as_relocations as_values].
  - exists sizes. split; [done|]. split; [exact E1|]. unfold lines in P2. rewrite <- P2. split; [|done]. apply P3. split; [constructor|constructor].
  - rewrite E1 in *; lia.
  - done.
  - by rewrite E6.
  - destruct relocations as [cap|]; [|done]. intros Hc. by apply E9.
Qed.
End source.

(** ** The assembler as the linker uses it *)

#[export] Instance lainos_assembler {KS : KernelSymbols} : Assembler := {
  assemble_source_ex_relocs source out base externals names relocations :=
    default (AsmResult (-1) out 0 0 [] []) (assembler_assemble_source_ex_relocs source out base externals names relocations);
  measure_source_ex_symbols source externals := default (-1, 0, 0) (assembler_measure_source_ex_symbols source externals)
}.

(** * Jumps *)


(** ** Lines that are a mnemonic and a word *)

Definition word_char (c : Z) : bool := negb (char_is_space c) && negb (c =? 34) && negb (c =? 59) && negb (c =? 58).
Definition word (w : list Z) : Prop := w <> [] /\ forallb word_char w = true.

Lemma word_no_space w : forallb word_char w = true -> forallb (fun c => negb (char_is_space c)) w = true.
Proof. rewrite !forallb_forall. intros H c Hc. apply H in Hc. unfold word_char in Hc. bool_prop. by destruct (char_is_space c). Qed.

Lemma skip_word w rest : word w -> skip_const_spaces (w ++ rest) = w ++ rest.
Proof. intros [Hne H]. destruct w as [|c w]; [done|]. cbn [forallb app] in *. unfold word_char in H. bool_prop. cbn [skip_const_spaces]. by destruct (char_is_space c). Qed.

Lemma rev_word w : word w -> word (rev w).
Proof.
  intros [Hne H]. split; [intros Hr; apply (f_equal (@rev Z)) in Hr; rewrite rev_involutive in Hr; done|]. rewrite forallb_forall in H |- *. intros c Hc. apply H. by apply in_rev.
Qed.

Lemma trim_words a rest w : word a -> word w -> trim_mutable (a ++ rest ++ w) = a ++ rest ++ w.
Proof.
  intros Ha Hw. unfold trim_mutable, trim_end. rewrite (skip_word a) by done. rewrite app_assoc, rev_app_distr, (skip_word (rev w)) by (by apply rev_word). by rewrite <- rev_app_distr, rev_involutive.
Qed.

Lemma trim_word w : word w -> trim_mutable w = w.
Proof. intros Hw. unfold trim_mutable, trim_end. pose proof (skip_word w [] Hw) as H. rewrite app_nil_r in H. rewrite H. pose proof (skip_word (rev w) [] (rev_word w Hw)) as H2. rewrite app_nil_r in H2. by rewrite H2, rev_involutive. Qed.

Lemma strip_word w rest : forallb word_char w = true -> strip_asm_comment (w ++ rest) = w ++ strip_asm_comment rest.
Proof.
  unfold strip_asm_comment. induction w as [|c w IH]; intros H; [done|]. cbn [forallb app strip_comment_loop] in *. apply andb_true_iff in H as [Hc H]. unfold word_char in Hc. bool_prop.
  destruct (Z.eqb_spec c 34); [lia|]. destruct (Z.eqb_spec c 59); [lia|]. cbn [andb]. by rewrite IH.
Qed.

Lemma cut_word (stop : Z -> bool) w rest : forallb (fun c => negb (stop c)) w = true -> match rest with c :: _ => stop c = true | [] => True end -> cut_at stop (w ++ rest) = (w, rest).
Proof.
  intros H Hr. induction w as [|c w IH]; [destruct rest as [|c rest]; [done|]; cbn [app cut_at]; by rewrite Hr|]. cbn [forallb app cut_at] in *. apply andb_true_iff in H as [Hc H]. destruct (stop c); [done|]. by rewrite IH.
Qed.

Section jump.
Context {KS : KernelSymbols} (ctx : assembler_context_t).
Context (Hcap : 0 <= cx_capacity ctx <= 0xFFFFFF00).

Lemma word_line emit mnemonic name : word mnemonic -> word name -> is_data name = false -> asm_assemble_line ctx emit (mnemonic ++ 32 :: name) = assemble_statement ctx emit (mnemonic ++ 32 :: name).
Proof.
  intros Hm Hn Hd. unfold asm_assemble_line. rewrite (strip_word mnemonic) by apply Hm. change (strip_asm_comment (32 :: name)) with (32 :: strip_asm_comment name).
  pose proof (strip_word name [] (proj2 Hn)) as Hs. rewrite app_nil_r in Hs. change (strip_asm_comment []) with (@nil Z) in Hs. rewrite app_nil_r in Hs. rewrite Hs.
  change (32 :: name) with ([32] ++ name) at 1. rewrite (trim_words mnemonic [32] name Hm Hn). cbn [app].
  assert (Hl : exists c l, mnemonic ++ 32 :: name = c :: l) by (destruct mnemonic; [by destruct Hm|]; by eexists _, _). destruct Hl as (c0 & l0 & Hl). rewrite Hl. rewrite <- Hl.
  rewrite (cut_word (fun c => char_is_space c || (c =? 58)) mnemonic (32 :: name)); [| |done].
  2: { destruct Hm as [_ Hm]. rewrite forallb_forall in Hm |- *. intros c Hc. apply Hm in Hc. unfold word_char in Hc. bool_prop. destruct (char_is_space c); [done|]. by destruct (Z.eqb_spec c 58); [lia|]. }
  unfold assemble_unlabelled. rewrite (cut_word char_is_space mnemonic (32 :: name) (word_no_space _ (proj2 Hm)) eq_refl). rewrite (trim_word name Hn).
  pose proof (cut_word char_is_space name [] (word_no_space _ (proj2 Hn)) I) as Hc. rewrite app_nil_r in Hc. rewrite Hc. cbn [fst]. by rewrite Hd.
Qed.

(** ** Jumps *)

(** The code of a jump before its displacement. *)
Definition jump_codes (mnemonic : list Z) : option (list Z) :=
  if streq mnemonic (chars "call") then Some [0xE8] else if streq mnemonic (chars "jmp") then Some [0xE9] else (fun opcode => [0x0F; opcode]) <$> asm_jcc_opcode mnemonic.

Lemma jcc_loop_in table name opcode : jcc_loop table name = Some opcode -> exists n, name = chars n /\ In (n, opcode) table.
Proof.
  induction table as [|[n o] table IH]; [done|]. cbn [jcc_loop]. destruct (streq name (chars n)) eqn:Es; [|intros H; destruct (IH H) as (n' & E & Hin); exists n'; split; [done|by right]].
  intros [= ->]. exists n. split; [by apply streq_spec|by left].
Qed.

(** A jump to a name that is not a register, an external name or a name of the
    kernel. *)
Definition near_jump (mnemonic name : list Z) : Prop :=
  (mnemonic = chars "call" \/ mnemonic = chars "jmp") -> asm_register name = None /\ asm_external_symbol_value ctx name = None /\ assembler_symbol_value name = None.

(** The statement it becomes. *)
Definition emit_jump (labels : list asm_label_t) (codes name : list Z) : C asm_state unit :=
  offset ← look am_offset;
  rel ← some_or (asm_rel32 ctx labels (u32 (offset + Z.of_nat (length codes) + 4)) name) (-1);
  _ ← each codes (asm_emit_byte ctx true);
  asm_emit_u32 ctx true rel.

Lemma jump_statement labels mnemonic name codes s : word name -> jump_codes mnemonic = Some codes -> near_jump mnemonic name ->
  word mnemonic /\ asm_assemble_instruction ctx true labels (mnemonic ++ 32 :: name) s = emit_jump labels codes name s.
Proof.
  intros Hn Hj Hnear. unfold jump_codes in Hj.
  assert (Hcut : word mnemonic -> cut_at char_is_space (mnemonic ++ 32 :: name) = (mnemonic, 32 :: name)) by (intros [_ Hm]; apply cut_word; [by apply word_no_space|done]).
  assert (Ht : trim_mutable (drop 1 (32 :: name)) = name) by (cbn [drop]; by apply trim_word).
  assert (Hcj : (mnemonic = chars "call" \/ mnemonic = chars "jmp") -> forall op group, asm_emit_call_jmp_target ctx true labels name op group s = emit_jump labels [op] name s).
  { intros Hc op group. destruct (Hnear Hc) as (H1 & H2 & H3). unfold asm_emit_call_jmp_target. rewrite H1, H2, H3. unfold emit_jump. cbn [length each]. unfold mbind, C_bind, look, some_or.
    replace (am_offset s + Z.of_nat 1 + 4) with (am_offset s + 5) by lia. destruct (asm_rel32 _ _ _ _); [|done]. by destruct (asm_emit_byte ctx true op s) as [[[c|[]] s1]|]. }
  assert (Hcc : forall op, assemble_jcc ctx true labels op name s = emit_jump labels [0x0F; op] name s).
  { intros op. unfold assemble_jcc, emit_jump. cbn [length each]. unfold mbind, C_bind, look, some_or. replace (am_offset s + Z.of_nat 2 + 4) with (am_offset s + 6) by lia. destruct (asm_rel32 _ _ _ _); [|done].
    destruct (asm_emit_byte ctx true 0x0F s) as [[[c|[]] s1]|]; [done| |done]. by destruct (asm_emit_byte ctx true op s1) as [[[c|[]] s2]|]. }
  unfold asm_assemble_instruction. destruct (streq mnemonic (chars "call")) eqn:E1; [|destruct (streq mnemonic (chars "jmp")) eqn:E2].
  - apply streq_spec in E1. injection Hj as <-. assert (Hm : word mnemonic) by (by subst). split; [done|]. rewrite (Hcut Hm), Ht, E1. rewrite <- (Hcj (or_introl E1) 0xE8 2). reflexivity.
  - apply streq_spec in E2. injection Hj as <-. assert (Hm : word mnemonic) by (by subst). split; [done|]. rewrite (Hcut Hm), Ht, E2. rewrite <- (Hcj (or_intror E2) 0xE9 4). reflexivity.
  - destruct (asm_jcc_opcode mnemonic) as [op|] eqn:Ej; [|done]. injection Hj as <-. rewrite <- Hcc. unfold asm_jcc_opcode in Ej. apply jcc_loop_in in Ej as (n & -> & Hin). clear -Hin Hcut Ht.
    unfold jcc_opcodes in Hin. repeat (destruct Hin as [[= <- <-]|Hin]; [split; [done|]; rewrite (Hcut ltac:(done)), Ht; reflexivity|]). done.
Qed.

Lemma jump_codes_bytes mnemonic codes : jump_codes mnemonic = Some codes -> map u8 codes = codes.
Proof.
  unfold jump_codes. destruct (streq mnemonic (chars "call")); [by intros [= <-]|]. destruct (streq mnemonic (chars "jmp")); [by intros [= <-]|]. destruct (asm_jcc_opcode mnemonic) as [op|] eqn:Ej; [|done]. intros [= <-].
  apply jcc_loop_in in Ej as (n & -> & Hin). unfold jcc_opcodes in Hin. repeat (destruct Hin as [[= <- <-]|Hin]; [done|]). done.
Qed.

(** ** What is emitted *)

(** [m] emits just these bytes, or fails. *)
Definition emits_bytes (bs : list Z) (m : C asm_state unit) : Prop :=
  forall s, asm_wf ctx true s -> runs m s (fun _ s' => emitted ctx true (Z.of_nat (length bs)) s s' /\ holds (am_out s') (am_offset s) bs) (fun _ _ => True).

Lemma emits_bytes_byte v : emits_bytes [u8 v] (asm_emit_byte ctx true v).
Proof.
  intros s Hs. pose proof (plain_byte ctx Hcap true v s Hs) as H. unfold runs in *. unfold asm_emit_byte in *. destruct (cx_capacity ctx <=? am_offset s); [done|].
  destruct (wr8 (am_out s) (am_offset s) (u8 v)) as [out|] eqn:Ew; [|done]. cbn [mbind option_bind gives] in *. destruct H as [H _]. split; [exact H|]. cbn [am_out set_am_offset set_am_out].
  rewrite wr8_block in Ew. by apply wr_block_grown in Ew as [_ Hh].
Qed.

Lemma emits_bytes_bind bs bs' (m k : C asm_state unit) : emits_bytes bs m -> emits_bytes bs' k -> emits_bytes (bs ++ bs') (_ ← m; k).
Proof.
  intros Hm Hk s Hs. eapply runs_bind; [by apply Hm|]. intros [] s1 [E1 H1]. eapply runs_mono; [apply Hk; by eapply emitted_wf| |done]. intros [] s2 [E2 H2]. cbv beta in *. pose proof (em_offset _ _ _ _ _ E1) as O1. pose proof (em_offset _ _ _ _ _ E2) as O2.
  rewrite length_app, Nat2Z.inj_add. split; [by eapply emitted_trans|]. apply holds_app; [apply Hs| |by rewrite <- O1]. eapply holds_grown; [apply (em_out _ _ _ _ _ E2)|exact H1|left; lia].
Qed.

Lemma emits_bytes_each vs : emits_bytes (map u8 vs) (each vs (asm_emit_byte ctx true)).
Proof.
  induction vs as [|v vs IH]; cbn [each map]; [|apply (emits_bytes_bind [u8 v]); [apply emits_bytes_byte|done]].
  intros s Hs. apply runs_ret. split; [by apply emitted_refl|]. split; [apply Hs|]. done.
Qed.

Lemma emits_bytes_u32 v : emits_bytes (le_bytes 4 v) (asm_emit_u32 ctx true v).
Proof.
  assert (He : le_bytes 4 v = map u8 (map (fun i => Z.land (Z.shiftr v (i * 8)) 0xFF) (below 4))).
  { change (below 4) with [0; 1; 2; 3]. cbn [map le_bytes]. rewrite !byte_of by lia. assert (Hu : forall x, u8 (x mod 256) = x mod 256) by (intros x; apply Z.mod_mod; lia). rewrite !Hu, !Z.div_div by lia. change (2 ^ (0 * 8)) with 1. by rewrite Z.div_1_r. }
  rewrite He. exact (emits_bytes_each (map (fun i => Z.land (Z.shiftr v (i * 8)) 0xFF) (below 4))).
Qed.

Lemma emit_jump_runs labels codes name s : asm_wf ctx true s -> runs (emit_jump labels codes name) s
  (fun _ s' => exists rel, asm_rel32 ctx labels (u32 (am_offset s + Z.of_nat (length codes) + 4)) name = Some rel /\ emitted ctx true (Z.of_nat (length codes) + 4) s s' /\ holds (am_out s') (am_offset s) (map u8 codes ++ le_bytes 4 rel)) (fun _ _ => True).
Proof.
  intros Hs. unfold emit_jump. eapply (runs_bind _ _ _ (fun o s' => o = am_offset s /\ s' = s)); [by apply runs_look|]. intros o s0 [-> ->].
  eapply (runs_bind _ _ _ (fun rel s' => asm_rel32 ctx labels (u32 (am_offset s + Z.of_nat (length codes) + 4)) name = Some rel /\ s' = s)); [apply runs_some_or; by destruct (asm_rel32 _ _ _ _)|]. intros rel s0 [Hr ->].
  eapply runs_mono; [apply (emits_bytes_bind (map u8 codes) (le_bytes 4 rel)); [apply emits_bytes_each|apply emits_bytes_u32|done]| |done].
  intros [] s' [He Hh]. exists rel. rewrite length_app, length_map, length_le_bytes in He. split; [done|]. split; [|done]. replace (Z.of_nat (length codes) + 4) with (Z.of_nat (length codes + 4)) by lia. exact He.
Qed.

(** ** A line of a pass *)

Lemma pass_line lines sizes : Forall2 (line_sized ctx) lines sizes -> forall i line k s s', lines !! i = Some line -> asm_wf ctx true s -> assemble_lines ctx true k lines s = Some (inr tt, s') ->
  exists s1 s2, asm_wf ctx true s1 /\ am_offset s1 = am_offset s + total (take i sizes) /\ am_labels s1 = am_labels s /\
    asm_assemble_line ctx true line s1 = Some (inr tt, s2) /\ grown (am_offset s2) (am_offset s') (am_out s2) (am_out s').
Proof.
  induction 1 as [|line0 n lines sizes Hn Hrest IH]; intros i line k s s' Hi Hs Hrun; [done|]. cbn [assemble_lines] in Hrun.
  pose proof (proj2 Hn true s Hs) as H1. unfold runs in H1. destruct (asm_assemble_line ctx true line0 s) as [[[c|[]] s1]|] eqn:E1; [done| |done]. cbn [gives] in H1. destruct H1 as [D1 D2 D3].
  assert (W1 : asm_wf ctx true s1) by (eapply emitted_wf; [apply wf_labels; exact Hs|exact D1]). pose proof (em_offset _ _ _ _ _ D1) as O1. cbn in O1. destruct i as [|i].
  - injection Hi as ->. exists s, s1. split; [done|]. split; [cbn [take]; change (total []) with 0; lia|]. split; [done|]. split; [done|]. pose proof (assemble_lines_runs ctx true lines sizes Hrest (k + 1) s1 W1) as H2. unfold runs in H2. rewrite Hrun in H2. destruct H2 as [P1 _ _].
    apply (em_out _ _ _ _ _ P1).
  - destruct (IH i line (k + 1) s1 s' Hi W1 Hrun) as (t1 & t2 & B1 & B2 & B3 & B4 & B5). exists t1, t2. split; [done|]. split; [change (total (take (S i) (n :: sizes))) with (n + total (take i sizes)); lia|]. split; [congruence|done].
Qed.

Lemma labels_at_line o lines sizes k line name : length lines = length sizes -> lines !! k = Some line -> name ∈ line_labels line -> AsmLabel name (o + total (take k sizes)) ∈ labels_at o lines sizes.
Proof.
  revert o sizes k. induction lines as [|line0 lines IH]; intros o sizes k Hl Hk Hn; [done|]. destruct sizes as [|n sizes]; [done|]. cbn [labels_at]. apply elem_of_app. destruct k as [|k].
  - left. injection Hk as ->. rewrite Z.add_0_r. apply list_elem_of_In, in_map_iff. exists name. split; [done|by apply list_elem_of_In].
  - right. change (total (take (S k) (n :: sizes))) with (n + total (take k sizes)). rewrite Z.add_assoc. apply IH; [by injection Hl|done|done].
Qed.

(** ** Displacements *)

Lemma s64_mod x : exists q, s64 x = x + q * 18446744073709551616.
Proof. unfold s64, u64. pose proof (Z.div_mod x 18446744073709551616). destruct (_ <? _); [exists (- (x / 18446744073709551616))|exists (- (x / 18446744073709551616) - 1)]; lia. Qed.

Lemma rel32_near labels name next rel : parse_u64 name = None -> skip_const_spaces name = name -> 0 <= next < 4294967296 -> forall target, asm_find_label labels name = Some target -> 0 <= target < 4294967296 ->
  asm_rel32 ctx labels next name = Some rel -> next + s32 rel = target.
Proof.
  intros Hp Hsk Hn target Hf Ht Hr. unfold asm_rel32, asm_value in Hr. rewrite Hsk, Hp, Hf in Hr. cbn [mbind option_bind] in Hr.
  destruct (fits_rel32 _) eqn:Ef; [|done]. injection Hr as <-. rewrite s32_u32 by done. apply fits_rel32_spec in Ef.
  assert (Hu : s64 (u64 (cx_base_address ctx + target)) = s64 (cx_base_address ctx + target)) by (unfold s64, u64; by rewrite Z.mod_mod by lia). rewrite Hu in *.
  destruct (s64_mod (cx_base_address ctx + target)) as [q1 E1]. destruct (s64_mod (cx_base_address ctx + next)) as [q2 E2]. lia.
Qed.
End jump.

(** ** Jumps in a source *)

Section source.
Context {KS : KernelSymbols} (source out : list Z) (base : Z) (externals : list (list Z * Z)) (names : list (list Z)) (relocations : option Z).
Context (Hout : 0 < Z.of_nat (length out) <= 0x7fffffff).
#[local] Abbreviation ctx := (source_context out base externals relocations).
#[local] Abbreviation lines := (asm_lines false [] source).

(** Both passes of a source that was assembled. *)
Lemma assembled_passes r : assembler_assemble_source_ex_relocs source out base externals names relocations = Some r -> as_code r = 0 ->
  exists sizes s1 s2, Forall2 (line_sized ctx) lines sizes /\ asm_wf ctx true (set_am_offset 0 s1) /\ am_labels s1 = labels_at 0 lines sizes /\ labels_good (am_labels s1) /\ total sizes <= Z.of_nat (length out) /\
    assemble_lines ctx true 1 lines (set_am_offset 0 s1) = Some (inr tt, s2) /\ as_out r = am_out s2.
Proof.
  unfold assembler_assemble_source_ex_relocs. rewrite (proj2 (Z.eqb_neq _ 0)) by lia. fold ctx.
  assert (Hcap : 0 <= cx_capacity ctx <= 0xFFFFFF00) by (cbn; lia). destruct (lines_have_sizes ctx Hcap lines) as [sizes Hs].
  assert (W0 : forall emit, asm_wf ctx emit (asm_start out)) by (intros emit; split; cbn; [lia|done]).
  pose proof (assemble_lines_runs ctx false lines sizes Hs 1 (asm_start out) (W0 false)) as H1. unfold runs in H1.
  destruct (assemble_lines ctx false 1 lines (asm_start out)) as [[[c|[]] s1]|]; [| |done]; cbn [gives mbind option_bind] in *; [destruct H1 as [-> _]; by intros [= <-]|].
  destruct H1 as [P1 P2 P3]. destruct (em_measure _ _ _ _ _ P1 eq_refl) as [_ O1]. pose proof (em_offset _ _ _ _ _ P1) as O2. pose proof (em_end _ _ _ _ _ P1) as O3. cbn in O1, O2, O3.
  destruct (export_values ctx (am_labels s1) names) as [values|]; [|by intros [= <-]].
  destruct (assemble_lines ctx true 1 lines (set_am_offset 0 s1)) as [[[c|[]] s2]|] eqn:E2; cbn [mbind option_bind]; [| |done]; intros [= <-] Hc; cbn [as_code result_of] in Hc.
  - assert (W1 : asm_wf ctx true (set_am_offset 0 s1)) by (split; cbn; [lia|by rewrite O1]). pose proof (assemble_lines_runs ctx true lines sizes Hs 1 _ W1) as H2. unfold runs in H2. rewrite E2 in H2. destruct H2 as [-> _]. done.
  - exists sizes, s1, s2. split; [done|]. split; [split; cbn; [lia|by rewrite O1]|]. split; [exact P2|]. split; [apply P3; split; [constructor|constructor]|]. split; [cbn in O3; lia|]. by split.
Qed.

Lemma total_take sizes k : Forall2 (line_sized ctx) lines sizes -> 0 <= total (take k sizes) <= total sizes.
Proof.
  intros H. assert (Hp : Forall (fun n => 0 <= n) sizes) by (eapply Forall2_Forall_r; [exact H|]; apply Forall_true; by intros line n [Hn _]). clear H. revert k.
  induction Hp as [|n sizes Hn _ IH]; intros k; [by rewrite take_nil|]. destruct k as [|k]; [specialize (IH O)|specialize (IH k)]; unfold total in *; cbn [take foldr] in *; lia.
Qed.

Lemma jump_lands r i mnemonic name codes k line : assembler_assemble_source_ex_relocs source out base externals names relocations = Some r -> as_code r = 0 ->
  lines !! i = Some (mnemonic ++ 32 :: name) -> jump_codes mnemonic = Some codes -> word name -> is_data name = false -> parse_u64 name = None -> near_jump ctx mnemonic name ->
  lines !! k = Some line -> name ∈ line_labels line ->
  exists sizes d, Forall2 (line_sized ctx) lines sizes /\ holds (as_out r) (total (take i sizes)) (codes ++ le_bytes 4 d) /\ total (take i sizes) + Z.of_nat (length codes) + 4 + s32 d = total (take k sizes).
Proof.
  intros Hr Hc Hi Hj Hw Hd Hp Hnear Hk Hlab. destruct (assembled_passes r Hr Hc) as (sizes & s1 & s2 & Hs & W & L & Hg & Htot & Hrun & ->). assert (Hcap : 0 <= cx_capacity ctx <= 0xFFFFFF00) by (cbn; lia).
  destruct (pass_line ctx lines sizes Hs i _ 1 _ s2 Hi W Hrun) as (t1 & t2 & B1 & B2 & B3 & B4 & B5). cbn in B2, B3.
  destruct (jump_statement ctx (am_labels t1) mnemonic name codes t1 Hw Hj Hnear) as [Hm Hst]. rewrite (word_line ctx true mnemonic name Hm Hw Hd) in B4. unfold assemble_statement in B4. unfold mbind, C_bind, look in B4. rewrite Hst in B4.
  pose proof (emit_jump_runs ctx Hcap (am_labels t1) codes name t1 B1) as H. unfold runs in H. rewrite B4 in H. destruct H as (rel & Hrel & He & Hh). exists sizes, rel. split; [done|].
  rewrite (jump_codes_bytes _ _ Hj) in Hh. rewrite B2 in Hh. cbn in Hh. pose proof (em_offset _ _ _ _ _ He) as O1. pose proof (em_end _ _ _ _ _ He) as O2. cbn in O2. split.
  - eapply holds_grown; [exact B5|exact Hh|left]. rewrite length_app, length_le_bytes. lia.
  - pose proof (total_take sizes k Hs). pose proof (total_take sizes i Hs). rewrite B2 in Hrel, O1. cbn [am_offset set_am_offset] in *. rewrite Z.add_0_l in *. rewrite u32_small in Hrel by (unfold is_u32; lia).
    assert (Hf : asm_find_label (am_labels t1) name = Some (total (take k sizes))).
    { rewrite B3, L. rewrite L in Hg. apply (find_label_in _ (AsmLabel name (total (take k sizes))) (proj1 Hg)). rewrite <- (Z.add_0_l (total _)). apply (labels_at_line 0 lines sizes k line); [by apply Forall2_length in Hs|done|done]. }
    eapply (rel32_near ctx (am_labels t1) name _ rel Hp); [|lia|exact Hf|lia|exact Hrel]. pose proof (skip_word name [] Hw) as Hsk. by rewrite app_nil_r in Hsk.
Qed.
End source.
