(* ===== verification/ZFromAsm.v ===== *)
(** Objects from assembler source: kernel/z/zobject.c, lines 44-54, 255-446 and
    685-902.

    Names and labels are texts as in ZAsmText.v. [image] is the work buffer
    zo_image of the last call, whose length is its size. *)
From Stdlib Require Import ZArith Lia String.
From stdpp Require Import base tactics option list numbers.
From S2P Require Import Prelude.
From S2P Require Import Buffer.
From S2P Require Import KernelExports.
From S2P Require Import ZObject.
From S2P Require Import ZLink.
From S2P Require Import ZAsmText.
From S2P Require Import ZAsm.
#[local] Open Scope Z_scope.

Record zo_symbol_t : Type := ZoSymbol { sy_name : list Z; sy_type : Z; sy_value : Z }.

(** ** Lines of a source *)

(** A line with its terminator, and where it starts: what does not fit the
    buffer of 256 characters is left out. *)
Fixpoint source_lines (start pos : Z) (line source : list Z) : list (Z * list Z) :=
  match source with
  | [] => if start <? pos then [(start, line ++ [0])] else []
  | ch :: source' =>
      if ch =? 10 then (start, line ++ [0]) :: source_lines (pos + 1) (pos + 1) [] source'
      else source_lines start (pos + 1) (if Z.of_nat (length line) + 1 <? 256 then line ++ [ch] else line) source'
  end.

(** [while (s is a blank) ++s;] *)
Fixpoint zo_skip_blanks (s : list Z) : option (list Z) :=
  match s with [] => None | c :: s' => if (c =? 32) || (c =? 9) then zo_skip_blanks s' else Some s end.

Fixpoint metadata_name_loop (room : nat) (text : list Z) : option (option (list Z)) :=
  match text with
  | [] => None
  | c :: text' =>
      if zo_name_char c then
        match room with
        | O => Some None
        | S room' => r ← metadata_name_loop room' text'; Some (match r with Some name => Some (c :: name) | None => None end)
        end
      else Some (Some [])
  end.

Definition zo_parse_metadata_name (text : list Z) (name_size : Z) : option (option (list Z)) :=
  text ← zo_skip_blanks text;
  c ← rd8 text 0;
  if negb (zo_name_char c) then Some None else metadata_name_loop (Z.to_nat (name_size - 1)) text.

Definition zo_line_is_section_data (line : list Z) : option bool :=
  line ← zo_skip_blanks line;
  section ← zo_starts_with line (chars "section");
  if negb section then Some false
  else
    c ← rd8 line 7;
    if negb (c =? 32) && negb (c =? 9) then Some false
    else
      line ← zo_skip_blanks (drop 8 line);
      dot ← zo_starts_with line (chars ".data");
      if dot : bool then Some true else zo_starts_with line (chars "data").

Fixpoint find_data_loop (lines : list (Z * list Z)) (asm_size : Z) : option Z :=
  match lines with
  | [] => Some asm_size
  | (start, line) :: lines' => data ← zo_line_is_section_data line; if data : bool then Some start else find_data_loop lines' asm_size
  end.

Definition zo_find_data_section_source_offset (asm_source : list Z) : option Z :=
  find_data_loop (source_lines 0 0 [] asm_source) (Z.of_nat (length asm_source)).

(** ** Symbols of a source *)

Definition zo_add_symbol (symbols : list zo_symbol_t) (type : Z) (name : list Z) : option (list zo_symbol_t) :=
  if existsb (fun s => (sy_type s =? type) && streq (sy_name s) name) symbols then Some symbols
  else if ZOBJECT_MAX_SYMBOLS <=? Z.of_nat (length symbols) then None
  else Some (symbols ++ [ZoSymbol name type 0]).

(** The comments that name symbols. *)
Definition metadata_prefixes : list (string * Z) := [
  ("; zexport ", ZOBJECT_SYMBOL_EXPORT); ("; zextern ", ZOBJECT_SYMBOL_EXTERN); ("; zo_export ", ZOBJECT_SYMBOL_EXPORT); ("; zo_extern ", ZOBJECT_SYMBOL_EXTERN)]%string.

(** The first prefix of a line: the type it stands for and the text behind. *)
Fixpoint find_prefix (prefixes : list (string * Z)) (line : list Z) : option (option (Z * list Z)) :=
  match prefixes with
  | [] => Some None
  | (prefix, type) :: prefixes' =>
      found ← zo_starts_with line (chars prefix);
      if found : bool then Some (Some (type, drop (length (chars prefix)) line)) else find_prefix prefixes' line
  end.

(** [None] inside for -1. *)
Definition collect_line (symbols : list zo_symbol_t) (line : list Z) : option (option (list zo_symbol_t)) :=
  s ← zo_skip_blanks line;
  found ← find_prefix metadata_prefixes s;
  match found with
  | None => Some (Some symbols)
  | Some (type, text) =>
      name ← zo_parse_metadata_name text ZOBJECT_SYMBOL_NAME_SIZE;
      Some (match name with Some name => zo_add_symbol symbols type name | None => None end)
  end.

Fixpoint collect_loop (symbols : list zo_symbol_t) (lines : list (Z * list Z)) : option (option (list zo_symbol_t)) :=
  match lines with
  | [] => Some (Some symbols)
  | (_, line) :: lines' =>
      r ← collect_line symbols line;
      match r with Some symbols => collect_loop symbols lines' | None => Some None end
  end.

Definition zo_collect_metadata_symbols (asm_source : list Z) : option (option (list zo_symbol_t)) := collect_loop [] (source_lines 0 0 [] asm_source).

(** ** Writing an object *)

Section from_asm.
Context {E : Type} {ZM : ZMemory E} {AS : Assembler}.

Definition is_export (s : zo_symbol_t) : bool := sy_type s =? ZOBJECT_SYMBOL_EXPORT.
Definition is_extern (s : zo_symbol_t) : bool := sy_type s =? ZOBJECT_SYMBOL_EXTERN.

(** The first entry behind the label of the entry point that has the name. *)
Fixpoint export_value_of (names : list (list Z)) (values : list Z) (name : list Z) : option Z :=
  match names, values with
  | n :: names', v :: values' => if streq n name then Some v else export_value_of names' values' name
  | _, _ => None
  end.

Fixpoint resolve_symbols (names : list (list Z)) (values : list Z) (symbols : list zo_symbol_t) : option (list zo_symbol_t) :=
  match symbols with
  | [] => Some []
  | s :: symbols' =>
      s ← (if is_export s then v ← export_value_of names values (sy_name s); Some (ZoSymbol (sy_name s) (sy_type s) v) else Some s);
      rest ← resolve_symbols names values symbols';
      Some (s :: rest)
  end.

(** A name in a place of [size] bytes, with zeros behind. *)
Definition store_name (record size : Z) (name : list Z) : C (linker E) unit :=
  _ ← store_zeros record size;
  store (fun out => wr_block out record (take (Z.to_nat (size - 1)) name)).

Definition zo_write_section_record (record type : Z) (name : string) (file_offset load_offset file_size mem_size : Z) : C (linker E) unit :=
  _ ← store (fun out => zo_write_u32 out record type);
  _ ← store (fun out => zo_write_u32 out (record + 4) file_offset);
  _ ← store (fun out => zo_write_u32 out (record + 8) load_offset);
  _ ← store (fun out => zo_write_u32 out (record + 12) file_size);
  _ ← store (fun out => zo_write_u32 out (record + 16) mem_size);
  store_name (record + 20) ZOBJECT_SECTION_NAME_SIZE (chars name).

Definition write_symbol (numbered_symbol : Z * zo_symbol_t) : C (linker E) unit :=
  let '(i, s) := numbered_symbol in
  let record := ZOBJECT_V5_HEADER_SIZE + i * ZOBJECT_SYMBOL_RECORD_V4_SIZE in
  _ ← store (fun out => zo_write_u32 out record (sy_type s));
  _ ← store (fun out => zo_write_u64 out (record + 4) (sy_value s));
  store_name (record + 12) ZOBJECT_SYMBOL_NAME_SIZE (sy_name s).

Definition reloc_type (type : Z) : Z :=
  if type =? ASSEMBLER_RELOC_RELATIVE64 then ZOBJECT_RELOC_RELATIVE64 else if type =? ASSEMBLER_RELOC_RIP32 then ZOBJECT_RELOC_RIP32 else ZOBJECT_RELOC_ABS64.

Definition write_relocation (symbol_bytes : Z) (numbered_relocation : Z * assembler_relocation_t) : C (linker E) unit :=
  let '(i, r) := numbered_relocation in
  let record := ZOBJECT_V5_HEADER_SIZE + symbol_bytes + i * ZOBJECT_RELOCATION_RECORD_SIZE in
  _ ← store (fun out => zo_write_u32 out record (reloc_type (ar_type r)));
  _ ← store (fun out => zo_write_u32 out (record + 4) (ar_offset r));
  store_name (record + 8) ZOBJECT_SYMBOL_NAME_SIZE (ar_name r).

Definition write_header (fields : list Z) : C (linker E) unit :=
  each (numbered fields) (fun '(i, v) => store (fun out => zo_write_u32 out (i * 4) v)).

(** The object behind its checks: the size of the output. *)
Definition write_object (symbols : list zo_symbol_t) (relocations : list assembler_relocation_t) (entry text_size image_size : Z) (image : list Z) : C (linker E) Z :=
  let symbol_count := Z.of_nat (length symbols) in
  let relocation_count := Z.of_nat (length relocations) in
  let symbol_bytes := u32 (symbol_count * ZOBJECT_SYMBOL_RECORD_V4_SIZE) in
  let reloc_bytes := u32 (relocation_count * ZOBJECT_RELOCATION_RECORD_SIZE) in
  let section_bytes := u32 (3 * ZOBJECT_SECTION_RECORD_SIZE) in
  let data_size := image_size - text_size in
  let tables := ZOBJECT_V5_HEADER_SIZE + symbol_bytes + reloc_bytes in
  capacity ← look out_capacity;
  _ ← need (negb (negb (symbol_bytes / ZOBJECT_SYMBOL_RECORD_V4_SIZE =? symbol_count) || negb (reloc_bytes / ZOBJECT_RELOCATION_RECORD_SIZE =? relocation_count) ||
             negb (section_bytes / ZOBJECT_SECTION_RECORD_SIZE =? 3) || (capacity <? symbol_bytes) || (u32 (capacity - symbol_bytes) <? reloc_bytes) ||
             (u32 (capacity - symbol_bytes - reloc_bytes) <? section_bytes) || (u32 (capacity - symbol_bytes - reloc_bytes - section_bytes) <? image_size) ||
             (u32 (capacity - symbol_bytes - reloc_bytes - section_bytes - image_size) <? ZOBJECT_V5_HEADER_SIZE))) (-60);
  _ ← write_header [ZOBJECT_MAGIC; ZOBJECT_VERSION; image_size; symbol_count; relocation_count; u32 entry; 3; 0; 0];
  _ ← each (numbered symbols) write_symbol;
  _ ← each (numbered relocations) (write_relocation symbol_bytes);
  _ ← zo_write_section_record tables ZOBJECT_SECTION_TEXT ".text" 0 0 text_size text_size;
  _ ← zo_write_section_record (tables + ZOBJECT_SECTION_RECORD_SIZE) ZOBJECT_SECTION_DATA ".data" text_size text_size data_size data_size;
  _ ← zo_write_section_record (tables + 2 * ZOBJECT_SECTION_RECORD_SIZE) ZOBJECT_SECTION_BSS ".bss" image_size image_size 0 0;
  data ← chk (rd_block image 0 image_size);
  _ ← store (fun out => wr_block out (tables + section_bytes) data);
  mret (tables + section_bytes + image_size).

(** The result is the size of the object. *)
Definition zobject_from_asm (asm_source entry_label image : list Z) : C (linker E) Z :=
  _ ← zo_ensure_work_buffers;
  collected ← chk (zo_collect_metadata_symbols asm_source);
  symbols ← some_or collected (-10);
  let exported := filter (fun s => is_export s = true) symbols in
  let external := filter (fun s => is_extern s = true) symbols in
  _ ← need (Z.of_nat (length exported) <=? ZOBJECT_MAX_SYMBOLS) (-11);
  _ ← need (Z.of_nat (length external) <=? ZOBJECT_MAX_SYMBOLS) (-12);
  let export_names := entry_label :: map sy_name exported in
  let external_symbols := map (fun s => (sy_name s, 0)) external in
  let measure_symbols := external_symbols ++ map (fun s => (sy_name s, 0)) (take (Z.to_nat ZOBJECT_MAX_SYMBOLS - length external) exported) in
  data_source_offset ← chk (zo_find_data_section_source_offset asm_source);
  let '(measured, text_size, _) := measure_source_ex_symbols (take (Z.to_nat data_source_offset) asm_source) measure_symbols in
  _ ← need (measured =? 0) (-21);
  let r := assemble_source_ex_relocs asm_source image 0 external_symbols export_names (Some ZOBJECT_MAX_RELOCATIONS) in
  _ ← need (as_code r =? 0) (if as_error_line r =? 0 then -30 else - (3000 + as_error_line r));
  _ ← need (text_size <=? as_size r) (-31);
  let entry_value := hd 0 (as_values r) in
  _ ← need (entry_value <=? 0xFFFFFFFF) (-40);
  symbols ← some_or (resolve_symbols (map sy_name exported) (tl (as_values r)) symbols) (-50);
  write_object symbols (as_relocations r) entry_value text_size (as_size r) (as_out r).
End from_asm.
