(* ===== verification/ZFromAsmSpec.v ===== *)
(** What an object from assembler source looks like, that it is read back as it
    was written, and that it is one the linker can work with. *)
From Stdlib Require Import ZArith Lia String.
From stdpp Require Import base tactics option list numbers.
From S2P Require Import Prelude.
From S2P Require Import Buffer.
From S2P Require Import KernelExports.
From S2P Require Import ZObject.
From S2P Require Import ZObjectSpec.
From S2P Require Import ZLink.
From S2P Require Import ZLayout.
From S2P Require Import ZLinkSpec.
From S2P Require Import ZLinkCheck.
From S2P Require Import ZAsmText.
From S2P Require Import ZAsm.
From S2P Require Import ZAsmSpec.
From S2P Require Import ZFromAsm.
#[local] Open Scope Z_scope.

(** ** The bytes of an object *)

Definition padded (size : Z) (name : list Z) : list Z :=
  let cut := take (Z.to_nat (size - 1)) name in cut ++ replicate (Z.to_nat size - length cut) 0.

Definition symbol_bytes (s : zo_symbol_t) : list Z := le_bytes 4 (sy_type s) ++ le_bytes 8 (sy_value s) ++ padded ZOBJECT_SYMBOL_NAME_SIZE (sy_name s).
Definition relocation_bytes (r : assembler_relocation_t) : list Z := le_bytes 4 (reloc_type (ar_type r)) ++ le_bytes 4 (ar_offset r) ++ padded ZOBJECT_SYMBOL_NAME_SIZE (ar_name r).
Definition section_record_bytes (type : Z) (name : string) (file_offset load_offset file_size mem_size : Z) : list Z :=
  concat (map (le_bytes 4) [type; file_offset; load_offset; file_size; mem_size]) ++ padded ZOBJECT_SECTION_NAME_SIZE (chars name).

Definition header_bytes (symbols : list zo_symbol_t) (relocations : list assembler_relocation_t) (entry image_size : Z) : list Z :=
  concat (map (le_bytes 4) [ZOBJECT_MAGIC; ZOBJECT_VERSION; image_size; Z.of_nat (length symbols); Z.of_nat (length relocations); u32 entry; 3; 0; 0]).

Definition sections_bytes (text_size image_size : Z) : list Z :=
  section_record_bytes ZOBJECT_SECTION_TEXT ".text" 0 0 text_size text_size ++
  section_record_bytes ZOBJECT_SECTION_DATA ".data" text_size text_size (image_size - text_size) (image_size - text_size) ++
  section_record_bytes ZOBJECT_SECTION_BSS ".bss" image_size image_size 0 0.

Definition object_bytes (symbols : list zo_symbol_t) (relocations : list assembler_relocation_t) (entry text_size image_size : Z) (image : list Z) : list Z :=
  header_bytes symbols relocations entry image_size ++ concat (map symbol_bytes symbols) ++ concat (map relocation_bytes relocations) ++
  sections_bytes text_size image_size ++ take (Z.to_nat image_size) image.

Lemma length_padded size name : 1 <= size -> length (padded size name) = Z.to_nat size.
Proof. intros Hs. unfold padded. rewrite length_app, length_replicate. pose proof (length_take name (Z.to_nat (size - 1))). lia. Qed.

Lemma length_symbol s : length (symbol_bytes s) = 140%nat.
Proof. unfold symbol_bytes. rewrite !length_app, !length_le_bytes, length_padded by done. done. Qed.
Lemma length_relocation r : length (relocation_bytes r) = 136%nat.
Proof. unfold relocation_bytes. rewrite !length_app, !length_le_bytes, length_padded by done. done. Qed.
Lemma length_section_record type name a b c d : length (section_record_bytes type name a b c d) = 28%nat.
Proof. unfold section_record_bytes. cbn [map concat]. rewrite !length_app, !length_le_bytes, length_padded by done. done. Qed.
Lemma length_header symbols relocations entry image_size : length (header_bytes symbols relocations entry image_size) = 36%nat.
Proof. unfold header_bytes. cbn [map concat]. rewrite !length_app, !length_le_bytes. done. Qed.
Lemma length_sections text_size image_size : length (sections_bytes text_size image_size) = 84%nat.
Proof. unfold sections_bytes. rewrite !length_app, !length_section_record. done. Qed.

Lemma length_records {A} (f : A -> list Z) n (l : list A) : (forall a, length (f a) = n) -> length (concat (map f l)) = (length l * n)%nat.
Proof. intros Hf. induction l as [|a l IH]; [done|]. cbn [map concat]. rewrite length_app, IH, Hf. done. Qed.

(** ** Writing *)

Section write.
Context {E : Type} {ZM : ZMemory E} {AS : Assembler}.
Implicit Types l : linker E.

(** The bytes [bs] were written from the start of the buffer on. *)
Definition written l0 (bs : list Z) l : Prop :=
  exists out, l = set_lk_out out l0 /\ grown 0 (Z.of_nat (length bs)) (lk_out l0) out /\ holds out 0 bs.

Lemma written_nil l : written l [] l.
Proof. exists (lk_out l). split; [by destruct l|]. split; [apply grown_refl|]. split; [done|]. done. Qed.

Lemma append_runs l0 bs new off l (X : Z -> linker E -> Prop) : written l0 bs l -> off = Z.of_nat (length bs) -> off + Z.of_nat (length new) <= out_capacity l0 ->
  runs (store (fun out => wr_block out off new)) l (fun _ l' => written l0 (bs ++ new) l') X.
Proof.
  intros (out & -> & G & H) -> Hc. pose proof (grown_length _ _ _ _ G) as HL. apply runs_store_block; [lia|unfold out_capacity in *; cbn; lia|]. cbn [lk_out set_lk_out]. intros out2 G2 H2.
  exists out2. split; [done|]. rewrite length_app. split.
  - eapply grown_trans; [eapply grown_weaken; [| |exact G]; lia|eapply grown_weaken; [| |exact G2]; lia].
  - apply holds_app; [done| |done]. eapply holds_grown; [exact G2|exact H|left; lia].
Qed.

Lemma append_u32_runs l0 bs v off l (X : Z -> linker E -> Prop) : written l0 bs l -> off = Z.of_nat (length bs) -> off + 4 <= out_capacity l0 ->
  runs (store (fun out => zo_write_u32 out off v)) l (fun _ l' => written l0 (bs ++ le_bytes 4 v) l') X.
Proof. intros Hw Ho Hc. unfold zo_write_u32. rewrite zo_u32_le. apply append_runs; [done|done|rewrite length_le_bytes; lia]. Qed.

Lemma append_u64_runs l0 bs v off l (X : Z -> linker E -> Prop) : written l0 bs l -> off = Z.of_nat (length bs) -> off + 8 <= out_capacity l0 ->
  runs (store (fun out => zo_write_u64 out off v)) l (fun _ l' => written l0 (bs ++ le_bytes 8 v) l') X.
Proof. intros Hw Ho Hc. unfold zo_write_u64. rewrite zo_u64_le. apply append_runs; [done|done|rewrite length_le_bytes; lia]. Qed.

Lemma append_name_runs l0 bs size name off l (X : Z -> linker E -> Prop) : written l0 bs l -> off = Z.of_nat (length bs) -> 1 <= size -> off + size <= out_capacity l0 ->
  runs (store_name off size name) l (fun _ l' => written l0 (bs ++ padded size name) l') X.
Proof.
  intros Hw -> Hs Hc. unfold store_name, store_zeros. set (cut := take (Z.to_nat (size - 1)) name). assert (Hcut : (length cut <= Z.to_nat (size - 1))%nat) by (unfold cut; rewrite length_take; lia).
  eapply runs_bind; [apply (append_runs l0 bs (replicate (Z.to_nat size) 0)); [done|done|rewrite length_replicate; lia]|]. intros ? l1 (out & -> & G & H). rewrite length_app, length_replicate in G.
  pose proof (grown_length _ _ _ _ G) as HL. apply runs_store_block; [lia|fold cut; unfold out_capacity in *; cbn; lia|]. cbn [lk_out set_lk_out]. fold cut. intros out2 G2 H2.
  exists out2. split; [done|]. rewrite length_app, length_padded by done. split.
  - eapply grown_trans; [eapply grown_weaken; [| |exact G]; lia|eapply grown_weaken; [| |exact G2]; lia].
  - unfold padded. fold cut. replace (replicate (Z.to_nat size) 0) with (replicate (length cut) 0 ++ replicate (Z.to_nat size - length cut) 0) in H by (rewrite <- replicate_add; f_equal; lia).
    rewrite app_assoc in H. pose proof (holds_drop _ _ _ _ H) as Hz. rewrite length_app, length_replicate in Hz. apply holds_take, holds_take in H.
    apply holds_app; [done|eapply holds_grown; [exact G2|exact H|left; lia]|]. apply holds_app; [lia|done|]. eapply holds_grown; [exact G2| |right; lia]. replace (0 + Z.of_nat (length bs) + Z.of_nat (length cut)) with (0 + Z.of_nat (length bs + length cut)) by lia. exact Hz.
Qed.

(** Records one behind the other. *)
Lemma records_runs {A} l0 bs (f : A -> list Z) (w : Z * A -> C (linker E) unit) n (xs : list A) l (X : Z -> linker E -> Prop) :
  (forall a, length (f a) = n) -> Z.of_nat (length bs + length xs * n) <= out_capacity l0 ->
  (forall i a pre l1, length pre = (length bs + i * n)%nat -> Z.of_nat (length pre + n) <= out_capacity l0 -> written l0 pre l1 -> runs (w (Z.of_nat i, a)) l1 (fun _ l2 => written l0 (pre ++ f a) l2) X) ->
  written l0 bs l -> runs (each (numbered xs) w) l (fun _ l' => written l0 (bs ++ concat (map f xs)) l') X.
Proof.
  intros Hf Hc Hw H0. assert (Hn : forall k (ys : list A), (zip (seqZ k (Z.of_nat (length ys))) ys).*2 = ys) by (intros k ys; apply snd_zip; rewrite length_seqZ; lia).
  eapply runs_mono; [apply (runs_each _ _ (fun dn l' => written l0 (bs ++ concat (map f (dn.*2))) l') X [])| |done].
  - cbn. by rewrite app_nil_r.
  - intros d [k a] rest l1 Heq H1. cbn [app] in Heq. assert (Hk : numbered xs !! length d = Some (k, a)) by (rewrite Heq; by apply list_lookup_middle).
    rewrite numbered_lookup in Hk. destruct (xs !! length d) as [x|] eqn:Hx; [|done]. injection Hk as <- ->. apply lookup_lt_Some in Hx.
    assert (Hlen : length (bs ++ concat (map f (d.*2))) = (length bs + length d * n)%nat) by (rewrite length_app, (length_records f n) by done; by rewrite length_fmap).
    eapply runs_mono; [apply (Hw (length d) a _ l1 Hlen); [rewrite Hlen; nia|exact H1]| |done]. intros ? l2 H2. rewrite fmap_app, map_app, concat_app. cbn [fmap list_fmap map concat snd]. by rewrite app_nil_r, app_assoc.
  - intros ? l' H1. cbn [app] in H1. unfold numbered, below in H1. by rewrite Hn in H1.
Qed.

(** One write after the other. *)
Ltac append :=
  match goal with
  | H : written _ _ ?l |- runs (store (fun out => zo_write_u32 out _ _)) ?l _ _ => eapply append_u32_runs; [exact H| |]
  | H : written _ _ ?l |- runs (store (fun out => zo_write_u64 out _ _)) ?l _ _ => eapply append_u64_runs; [exact H| |]
  | H : written _ _ ?l |- runs (store_name _ _ _) ?l _ _ => eapply append_name_runs; [exact H| | |]
  | |- runs (mbind _ _) _ _ _ => eapply runs_bind; [append|]
  end.

Ltac arith := rewrite ?length_app, ?length_le_bytes; lia.
Ltac write_word Hw := append; [arith|lia|]; let H := fresh in intros ? ? H; cbv beta in H; clear Hw; rename H into Hw.
Ltac write_name := eapply runs_mono; [append; [arith|lia|lia]| |done]; let H := fresh in intros ? ? H; cbv beta in H; cbn [map concat]; by rewrite ?app_nil_r, ?app_assoc in *.

Lemma section_record_runs l0 pre record type name a b c d l (X : Z -> linker E -> Prop) : written l0 pre l -> record = Z.of_nat (length pre) -> record + 28 <= out_capacity l0 ->
  runs (zo_write_section_record record type name a b c d) l (fun _ l' => written l0 (pre ++ section_record_bytes type name a b c d) l') X.
Proof.
  intros Hw -> Hc. unfold zo_write_section_record, section_record_bytes. change ZOBJECT_SECTION_NAME_SIZE with 8. do 5 write_word Hw. write_name.
Qed.

Lemma symbol_runs l0 pre i s l (X : Z -> linker E -> Prop) : written l0 pre l -> Z.of_nat (length pre) = 36 + i * 140 -> Z.of_nat (length pre + 140) <= out_capacity l0 ->
  runs (write_symbol (i, s)) l (fun _ l' => written l0 (pre ++ symbol_bytes s) l') X.
Proof.
  intros Hw Hl Hc. unfold write_symbol, symbol_bytes. change ZOBJECT_V5_HEADER_SIZE with 36. change ZOBJECT_SYMBOL_RECORD_V4_SIZE with 140. change ZOBJECT_SYMBOL_NAME_SIZE with 128.
  do 2 write_word Hw. write_name.
Qed.

Lemma relocation_runs l0 pre symbol_bytes i r l (X : Z -> linker E -> Prop) : written l0 pre l -> Z.of_nat (length pre) = 36 + symbol_bytes + i * 136 -> Z.of_nat (length pre + 136) <= out_capacity l0 ->
  runs (write_relocation symbol_bytes (i, r)) l (fun _ l' => written l0 (pre ++ relocation_bytes r) l') X.
Proof.
  intros Hw Hl Hc. unfold write_relocation, relocation_bytes. change ZOBJECT_V5_HEADER_SIZE with 36. change ZOBJECT_RELOCATION_RECORD_SIZE with 136. change ZOBJECT_SYMBOL_NAME_SIZE with 128.
  do 2 write_word Hw. write_name.
Qed.

Lemma header_runs l fields (X : Z -> linker E -> Prop) : 4 * Z.of_nat (length fields) <= out_capacity l -> runs (write_header fields) l (fun _ l' => written l (concat (map (le_bytes 4) fields)) l') X.
Proof.
  intros Hc. apply (records_runs l [] (le_bytes 4) _ 4 fields); [intros; apply length_le_bytes|cbn [length]; lia| |apply written_nil].
  intros i v pre l1 Hl Hc1 Hw. cbn [length] in Hl. apply append_u32_runs; [done|lia|lia].
Qed.

(** An object that fits is written whole, and one that does not fit is not written. *)
Definition object_size (symbols : list zo_symbol_t) (relocations : list assembler_relocation_t) (image_size : Z) : Z :=
  120 + 140 * Z.of_nat (length symbols) + 136 * Z.of_nat (length relocations) + image_size.

Lemma room_check capacity symbols relocations image_size : 0 <= capacity < 0x100000000 -> 0 <= symbols <= 4096 -> 0 <= relocations <= 16384 -> 0 <= image_size ->
  negb (negb (symbols * 140 / 140 =? symbols) || negb (relocations * 136 / 136 =? relocations) || negb (84 / 28 =? 3) || (capacity <? symbols * 140) || (u32 (capacity - symbols * 140) <? relocations * 136) ||
    (u32 (capacity - symbols * 140 - relocations * 136) <? 84) || (u32 (capacity - symbols * 140 - relocations * 136 - 84) <? image_size) ||
    (u32 (capacity - symbols * 140 - relocations * 136 - 84 - image_size) <? 36)) = (120 + 140 * symbols + 136 * relocations + image_size <=? capacity).
Proof.
  intros Hc Hs Hr Hi. rewrite !Z.div_mul, !Z.eqb_refl by lia. cbn [negb orb]. change (84 / 28 =? 3) with true. cbn [negb orb].
  destruct (Z.ltb_spec capacity (symbols * 140)); [cbn; symmetry; apply Z.leb_gt; lia|]. rewrite (u32_small (capacity - symbols * 140)) by (unfold is_u32; lia).
  destruct (Z.ltb_spec (capacity - symbols * 140) (relocations * 136)); [cbn; symmetry; apply Z.leb_gt; lia|]. rewrite (u32_small (capacity - symbols * 140 - _)) by (unfold is_u32; lia).
  destruct (Z.ltb_spec (capacity - symbols * 140 - relocations * 136) 84); [cbn; symmetry; apply Z.leb_gt; lia|]. rewrite (u32_small (_ - 84)) by (unfold is_u32; lia).
  destruct (Z.ltb_spec (capacity - symbols * 140 - relocations * 136 - 84) image_size); [cbn; symmetry; apply Z.leb_gt; lia|]. rewrite u32_small by (unfold is_u32; lia). cbn [orb].
  destruct (Z.ltb_spec (capacity - symbols * 140 - relocations * 136 - 84 - image_size) 36); symmetry; [apply Z.leb_gt|apply Z.leb_le]; lia.
Qed.

Lemma write_object_runs l symbols relocations entry text_size image_size image : Z.of_nat (length symbols) <= ZOBJECT_MAX_SYMBOLS -> Z.of_nat (length relocations) <= ZOBJECT_MAX_RELOCATIONS ->
  0 <= image_size <= Z.of_nat (length image) -> out_capacity l < 0x100000000 ->
  runs (write_object symbols relocations entry text_size image_size image) l
    (fun size l' => size = object_size symbols relocations image_size /\ size <= out_capacity l /\ written l (object_bytes symbols relocations entry text_size image_size image) l')
    (fun code l' => code = -60 /\ out_capacity l < object_size symbols relocations image_size /\ l' = l).
Proof.
  intros Hs Hr Hi Hcap. unfold write_object, object_size. change (ZOBJECT_MAX_SYMBOLS) with 4096 in Hs. change ZOBJECT_MAX_RELOCATIONS with 16384 in Hr. change ZOBJECT_V5_HEADER_SIZE with 36.
  change ZOBJECT_SYMBOL_RECORD_V4_SIZE with 140. change ZOBJECT_RELOCATION_RECORD_SIZE with 136. change (u32 (3 * ZOBJECT_SECTION_RECORD_SIZE)) with 84. change ZOBJECT_SECTION_RECORD_SIZE with 28.
  set (ns := Z.of_nat (length symbols)) in *. set (nr := Z.of_nat (length relocations)) in *. rewrite (u32_small (ns * 140)), (u32_small (nr * 136)) by (unfold is_u32; lia).
  eapply (runs_bind _ _ _ (fun c l' => c = out_capacity l /\ l' = l)); [by apply runs_look|]. intros capacity l0 [-> ->]. rewrite room_check by (unfold out_capacity in *; lia).
  eapply runs_bind; [apply (runs_need _ _ _ (fun _ l' => 120 + 140 * ns + 136 * nr + image_size <= out_capacity l /\ l' = l)); intros Hb; [split; [lia|done]|split; [done|split; [lia|done]]]|].
  intros ? l0 [Hf ->]. eapply runs_bind; [apply header_runs; cbn [length]; lia|]. intros ? l1 H1. cbv beta in H1.
  pose proof (length_header symbols relocations entry image_size) as L1. change (written l (header_bytes symbols relocations entry image_size) l1) in H1.
  eapply runs_bind; [apply (records_runs l (header_bytes symbols relocations entry image_size) symbol_bytes write_symbol 140 symbols _ _ length_symbol); [rewrite L1; lia| |exact H1]|]. { intros i s pre l2 Hp Hc H2. apply symbol_runs; [done|rewrite Hp, L1; lia|lia]. }
  intros ? l2 H2. cbv beta in H2. set (b2 := header_bytes _ _ _ _ ++ _) in H2. assert (L2 : length b2 = (36 + length symbols * 140)%nat) by (unfold b2; rewrite length_app, L1, (length_records _ _ _ length_symbol); done).
  eapply runs_bind; [apply (records_runs l b2 relocation_bytes _ 136 relocations _ _ length_relocation); [rewrite L2; lia| |exact H2]|]. { intros i r pre l3 Hp Hc H3. apply relocation_runs; [done|rewrite Hp, L2; lia|lia]. }
  intros ? l3 H3. cbv beta in H3. set (b3 := b2 ++ _) in H3. assert (L3 : Z.of_nat (length b3) = 36 + ns * 140 + nr * 136) by (unfold b3; rewrite length_app, L2, (length_records _ _ _ length_relocation); lia).
  do 3 (eapply runs_bind; [eapply section_record_runs; [eassumption|rewrite ?length_app, ?length_section_record; lia|lia]|]; let H := fresh "H" in intros ? ? H; cbv beta in H).
  rewrite rd_block_some by lia. eapply runs_bind; [apply (runs_chk _ _ (fun d l' => d = take (Z.to_nat image_size) image /\ l' = s'1)); done|]. 
  intros d l7 [-> ->]. eapply runs_bind; [eapply append_runs; [eassumption|rewrite !length_app, !length_section_record; lia|rewrite length_take; lia]|].
  intros ? l8 H8. cbv beta in H8. apply runs_ret. split; [lia|split; [lia|]]. unfold object_bytes, sections_bytes. unfold b3, b2 in H8. by rewrite !app_assoc in *.
Qed.
End write.

(** ** Reading what was written *)

Lemma holds_self (l : list Z) : holds l 0 l.
Proof. split; [done|]. unfold slice. rewrite Nat2Z.id. apply firstn_all. Qed.

Lemma holds_u32 l i v : bytes l -> holds l i (le_bytes 4 v) -> zo_read_u32 l i = Some (u32 v).
Proof.
  intros Hb H. pose proof (holds_end l i (le_bytes 4 v) ltac:(done) H) as He. destruct H as [H0 H]. rewrite length_le_bytes in *.
  rewrite zo_read_u32_slice by (done || lia). change 4 with (Z.of_nat 4). rewrite H. f_equal. apply le_num_bytes.
Qed.

Lemma holds_u64 l i v : bytes l -> holds l i (le_bytes 8 v) -> zo_read_u64 l i = Some (u64 v).
Proof.
  intros Hb H. pose proof (holds_end l i (le_bytes 8 v) ltac:(done) H) as He. destruct H as [H0 H]. rewrite length_le_bytes in *.
  rewrite zo_read_u64_slice by (done || lia). change 8 with (Z.of_nat 8). rewrite H. f_equal. apply le_num_bytes.
Qed.

Lemma holds_block l i bs : holds l i bs -> bs <> [] -> rd_block l i (Z.of_nat (length bs)) = Some bs.
Proof. intros H Hn. pose proof (holds_end _ _ _ Hn H) as He. destruct H as [H0 H]. rewrite rd_block_some by lia. by f_equal. Qed.

(** One record of a table. *)
Lemma holds_record {A} (f : A -> list Z) n l i xs j x : (forall a, length (f a) = n) -> holds l i (concat (map f xs)) -> xs !! j = Some x -> holds l (i + Z.of_nat j * Z.of_nat n) (f x).
Proof.
  intros Hf. revert i j. induction xs as [|y xs IH]; intros i j H Hj; [done|]. cbn [map concat] in H. destruct j as [|j].
  - injection Hj as ->. rewrite Z.mul_0_l, Z.add_0_r. by eapply holds_take.
  - apply holds_drop in H. rewrite Hf in H. apply (IH _ j H) in Hj. replace (i + Z.of_nat (S j) * Z.of_nat n) with (i + Z.of_nat n + Z.of_nat j * Z.of_nat n) by lia. done.
Qed.

(** Names that fit a record. *)
Definition fits_name (name : list Z) : Prop := Forall (fun c => is_u8 c /\ c <> 0) name /\ (length name <= 127)%nat.

Lemma cstr_zero name rest : Forall (fun c => is_u8 c /\ c <> 0) name -> terminated (name ++ 0 :: rest) /\ cstr (name ++ 0 :: rest) = name.
Proof.
  induction 1 as [|c name [_ Hc] _ [IH1 IH2]]; [split; [left|done]|]. cbn [app]. split; [right; exact IH1|]. by rewrite cstr_cons, IH2.
Qed.

Lemma holds_name l i name : holds l i (padded ZOBJECT_SYMBOL_NAME_SIZE name) -> fits_name name -> terminated (pointer l i) /\ cstr (pointer l i) = name /\ (name <> [] -> exists c, rd8 (pointer l i) 0 = Some c /\ c <> 0).
Proof.
  intros [H0 H] [Hn Hl]. rewrite length_padded in H by done. change ZOBJECT_SYMBOL_NAME_SIZE with 128 in H. unfold padded in H. change (Z.to_nat (128 - 1)) with 127%nat in H. rewrite take_ge in H by lia.
  replace (Z.to_nat 128 - length name)%nat with (S (127 - length name)) in H by lia. cbn [replicate] in H. unfold slice in H. unfold pointer.
  rewrite <- (take_drop (Z.to_nat (Z.of_nat (Z.to_nat 128))) (drop (Z.to_nat i) l)), H, <- app_assoc. cbn [app]. destruct (cstr_zero name (replicate (127 - length name) 0 ++ drop (Z.to_nat (Z.of_nat (Z.to_nat 128))) (drop (Z.to_nat i) l)) Hn) as [H1 H2].
  split; [exact H1|]. split; [exact H2|]. intros Hne. destruct name as [|c name]; [done|]. exists c. split; [done|]. by apply Forall_cons_1 in Hn as [[_ Hc] _].
Qed.

(** ** An object *)

Lemma not_nil_padded size name : 1 <= size -> padded size name <> [].
Proof. intros Hs E. apply (f_equal length) in E. rewrite length_padded in E by done. cbn in E. lia. Qed.

Definition symbol_ok (s : zo_symbol_t) : Prop := symbol_type (sy_type s) /\ sy_name s <> [] /\ fits_name (sy_name s).
Definition relocation_ok (image_size : Z) (r : assembler_relocation_t) : Prop := relocation_type (ar_type r) /\ 0 <= ar_offset r /\ ar_offset r + field_size (ar_type r) <= image_size /\ fits_name (ar_name r).

Lemma fields_in_after externals a b relocs j r : fields_in externals a b relocs -> relocs !! j = Some r -> a <= ar_offset r.
Proof.
  revert a j. induction relocs as [|x relocs IH]; intros a j; [done|]. intros (H1 & _ & _ & H2) Hj. destruct j as [|j]; [by injection Hj as ->|]. apply (IH _ _ H2) in Hj.
  unfold field_size in Hj. destruct (ar_type x =? _); lia.
Qed.

Lemma fields_in_apart externals a b relocs j1 j2 r1 r2 : fields_in externals a b relocs -> relocs !! j1 = Some r1 -> relocs !! j2 = Some r2 -> (j1 < j2)%nat -> ar_offset r1 + field_size (ar_type r1) <= ar_offset r2.
Proof.
  revert a j1 j2. induction relocs as [|x relocs IH]; intros a j1 j2; [done|]. intros (H1 & _ & _ & H2) L1 L2 Hlt. destruct j2 as [|j2]; [lia|]. destruct j1 as [|j1].
  - injection L1 as ->. by eapply fields_in_after.
  - eapply IH; [exact H2|exact L1|exact L2|lia].
Qed.

Section object.
Context (symbols : list zo_symbol_t) (relocations : list assembler_relocation_t) (entry text_size image_size : Z) (image : list Z).
Context (Hs : Z.of_nat (length symbols) <= ZOBJECT_MAX_SYMBOLS) (Hr : Z.of_nat (length relocations) <= ZOBJECT_MAX_RELOCATIONS).
Context (Hsize : 0 <= text_size <= image_size) (Himage : image_size <= Z.of_nat (length image)) (Hu : object_size symbols relocations image_size < 0x100000000).
Context (Hbytes : bytes image) (Hsym : Forall symbol_ok symbols) (Hrel : Forall (relocation_ok image_size) relocations).

#[local] Abbreviation object := (object_bytes symbols relocations entry text_size image_size image).

Lemma padded_bytes size name : fits_name name -> bytes (padded size name).
Proof.
  intros [Hn _]. unfold padded. apply Forall_app_2; [|by apply bytes_zeros]. apply Forall_take. eapply Forall_impl; [|exact Hn]. by intros c [Hc _].
Qed.

Lemma length_object : Z.of_nat (length object) = object_size symbols relocations image_size.
Proof.
  unfold object_bytes, object_size. rewrite !length_app, length_header, (length_records _ _ _ length_symbol), (length_records _ _ _ length_relocation), length_sections, length_take. lia.
Qed.

Lemma words_bytes (vs : list Z) : bytes (concat (map (le_bytes 4) vs)).
Proof. induction vs as [|v vs IH]; [done|]. cbn [map concat]. apply Forall_app_2; [apply le_bytes_ok|done]. Qed.

Lemma section_bytes_ok type name a b c d : bytes (chars name) -> bytes (section_record_bytes type name a b c d).
Proof. intros Hn. unfold section_record_bytes, padded. apply Forall_app_2; [apply words_bytes|]. apply Forall_app_2; [by apply Forall_take|apply bytes_zeros]. Qed.

Lemma object_is_bytes : bytes object.
Proof.
  unfold object_bytes. apply Forall_app_2; [apply words_bytes|]. apply Forall_app_2; [|apply Forall_app_2].
  - apply Forall_concat, Forall_map. eapply Forall_impl; [|exact Hsym]. intros s (_ & _ & Hn). unfold symbol_bytes. apply Forall_app_2; [apply le_bytes_ok|]. apply Forall_app_2; [apply le_bytes_ok|by apply padded_bytes].
  - apply Forall_concat, Forall_map. eapply Forall_impl; [|exact Hrel]. intros r (_ & _ & _ & Hn). unfold relocation_bytes. apply Forall_app_2; [apply le_bytes_ok|]. apply Forall_app_2; [apply le_bytes_ok|by apply padded_bytes].
  - apply Forall_app_2; [|by apply Forall_take]. unfold sections_bytes. apply Forall_app_2; [|apply Forall_app_2]; (apply section_bytes_ok; by repeat constructor).
Qed.

Lemma holds_header : holds object 0 (header_bytes symbols relocations entry image_size).
Proof. eapply holds_take. apply holds_self. Qed.

Lemma holds_symbols : holds object 36 (concat (map symbol_bytes symbols)).
Proof. pose proof (holds_drop _ _ _ _ (holds_self object)) as H. rewrite length_header in H. by apply holds_take in H. Qed.

Definition relocations_at : Z := 36 + 140 * Z.of_nat (length symbols).
Definition sections_at : Z := relocations_at + 136 * Z.of_nat (length relocations).

Lemma holds_relocations : holds object relocations_at (concat (map relocation_bytes relocations)).
Proof.
  pose proof (holds_drop _ _ _ _ (holds_self object)) as H. apply holds_drop in H. rewrite length_header, (length_records _ _ _ length_symbol) in H. apply holds_take in H.
  unfold relocations_at. replace (36 + 140 * _) with (0 + Z.of_nat 36 + Z.of_nat (length symbols * 140)) by lia. exact H.
Qed.

Lemma holds_rest : holds object sections_at (sections_bytes text_size image_size ++ take (Z.to_nat image_size) image).
Proof.
  pose proof (holds_drop _ _ _ _ (holds_self object)) as H. do 2 apply holds_drop in H. rewrite length_header, (length_records _ _ _ length_symbol), (length_records _ _ _ length_relocation) in H.
  unfold sections_at, relocations_at. replace (36 + _ + _) with (0 + Z.of_nat 36 + Z.of_nat (length symbols * 140) + Z.of_nat (length relocations * 136)) by lia. exact H.
Qed.

(** Where the parts of the object are. *)
Definition object_info : zo_object_info_t :=
  ZoObjectInfo object ZOBJECT_VERSION 0 0 image_size (sections_at + 84) (u32 entry) (Z.of_nat (length relocations)) (Z.of_nat (length symbols)) 3 0 36 relocations_at sections_at.

Lemma header_word j v : [ZOBJECT_MAGIC; ZOBJECT_VERSION; image_size; Z.of_nat (length symbols); Z.of_nat (length relocations); u32 entry; 3; 0; 0] !! j = Some v -> is_u32 v ->
  zo_read_u32 object (4 * Z.of_nat j) = Some v.
Proof.
  intros Hj Hv. rewrite <- (u32_small v Hv) at 1. apply holds_u32; [apply object_is_bytes|]. replace (4 * Z.of_nat j) with (0 + Z.of_nat j * Z.of_nat 4) by lia. eapply (holds_record (le_bytes 4)); [intros; apply length_le_bytes|exact holds_header|exact Hj].
Qed.

Lemma validate_written : zo_validate_object (Some object) = Some (if u32 entry <? image_size then Some object_info else None).
Proof.
  unfold object_size in Hu. change ZOBJECT_MAX_SYMBOLS with 4096 in Hs. change ZOBJECT_MAX_RELOCATIONS with 16384 in Hr.
  assert (W1 : zo_read_u32 object 4 = Some ZOBJECT_VERSION) by (apply (header_word 1); done). assert (W0 : zo_read_u32 object 0 = Some ZOBJECT_MAGIC) by (apply (header_word 0); done).
  assert (W2 : zo_read_u32 object 8 = Some image_size) by (apply (header_word 2); [done|unfold is_u32; lia]). assert (W3 : zo_read_u32 object 12 = Some (Z.of_nat (length symbols))) by (apply (header_word 3); [done|unfold is_u32; lia]).
  assert (W4 : zo_read_u32 object 16 = Some (Z.of_nat (length relocations))) by (apply (header_word 4); [done|unfold is_u32; lia]).
  assert (W5 : zo_read_u32 object 20 = Some (u32 entry)) by (apply (header_word 5); [done|apply u32_range]). assert (W6 : zo_read_u32 object 24 = Some 3) by (apply (header_word 6); done).
  unfold zo_validate_object. rewrite length_object. unfold object_size. rewrite (proj2 (Z.ltb_ge _ _)) by (change ZOBJECT_HEADER_SIZE with 48; lia). rewrite W1, W0. cbn [mbind option_bind].
  rewrite !Z.eqb_refl. cbn [negb andb orb]. change (zo_version_has_relocations ZOBJECT_VERSION) with true. cbv iota.
  unfold validate_reloc_object. rewrite length_object. unfold object_size. change (zo_version_has_sections ZOBJECT_VERSION) with true. cbv iota. change ZOBJECT_V5_HEADER_SIZE with 36.
  rewrite (proj2 (Z.ltb_ge _ 36)) by lia. rewrite W2, W3, W4, W5, W6. cbn [mbind option_bind]. change ZOBJECT_MAX_SYMBOLS with 4096. change ZOBJECT_MAX_RELOCATIONS with 16384. change (ZOBJECT_MAX_SECTIONS <? 3) with false.
  rewrite !(proj2 (Z.ltb_ge _ (Z.of_nat _))) by lia. cbn [orb]. rewrite Z.leb_antisym. destruct (u32 entry <? image_size); cbn [negb]; [|done].
  change (zo_symbol_record_size_for_version ZOBJECT_VERSION) with 140. change (zo_relocation_record_size_for_version ZOBJECT_VERSION) with 136. change ZOBJECT_SECTION_RECORD_SIZE with 28. change (u32 (3 * 28)) with 84. change (84 / 28 =? 3) with true.
  set (ns := Z.of_nat (length symbols)) in *. set (nr := Z.of_nat (length relocations)) in *. rewrite (u32_small (ns * 140)), (u32_small (nr * 136)) by (unfold is_u32; lia). rewrite !Z.div_mul, !Z.eqb_refl by lia. change (3 =? 0) with false. cbn [negb andb orb].
  rewrite (proj2 (Z.ltb_ge _ (ns * 140))) by lia. rewrite (u32_small (_ - ns * 140)), (u32_small (_ - nr * 136)), (u32_small (_ - 84)), (u32_small (36 + ns * 140 + nr * 136 + 84)) by (unfold is_u32; lia).
  rewrite !(proj2 (Z.ltb_ge _ _)) by lia. cbn [orb]. rewrite u32_small by (unfold is_u32; lia). rewrite (proj2 (Z.ltb_ge _ _)) by lia.
  unfold object_info, sections_at, relocations_at. fold ns nr. do 3 f_equal; lia.
Qed.

Lemma symbol_written j sym : symbols !! j = Some sym ->
  zo_symbol_value_at object_info (Z.of_nat j) = Some (Some (u64 (sy_value sym))) /\
  exists name, zo_symbol_at object_info (Z.of_nat j) = Some (Some (sy_type sym, name)) /\ terminated name /\ cstr name = sy_name sym.
Proof.
  intros Hj. pose proof (lookup_lt_Some _ _ _ Hj) as Hlt. pose proof (Forall_lookup_1 _ _ _ _ Hsym Hj) as (Ht & Hne & Hn). pose proof object_is_bytes as Hb.
  pose proof (holds_record _ _ _ _ _ _ _ length_symbol holds_symbols Hj) as H. change (Z.of_nat 140) with 140 in H. unfold symbol_bytes in H.
  pose proof (holds_take _ _ _ _ H) as H1. apply holds_drop in H. pose proof (holds_take _ _ _ _ H) as H2. apply holds_drop in H. rewrite !length_le_bytes in *. change (Z.of_nat 4) with 4 in *. change (Z.of_nat 8) with 8 in *.
  apply holds_u32 in H1; [|done]. apply holds_u64 in H2; [|done]. rewrite u32_small in H1 by (destruct Ht as [-> | ->]; done).
  unfold zo_symbol_value_at, zo_symbol_at, object_info. cbn [oi_symbol_count oi_version oi_object oi_symbols]. rewrite (proj2 (Z.leb_gt _ _)) by lia.
  change (zo_version_has_relocations ZOBJECT_VERSION) with true. change (zo_symbol_record_size_for_version ZOBJECT_VERSION) with 140. cbn [negb]. rewrite H1, H2. cbn [mbind option_bind]. split; [done|].
  replace (36 + Z.of_nat j * 140 + 12) with (36 + Z.of_nat j * 140 + 4 + 8) by lia. destruct (holds_name _ _ _ H Hn) as (A1 & A2 & A3). destruct (A3 Hne) as (c & Hc & Hc0).
  rewrite Hc. cbn [mbind option_bind]. rewrite (proj2 (Z.eqb_neq c 0) Hc0). eexists. split; [|exact (conj A1 A2)]. by destruct Ht as [-> | ->].
Qed.

Lemma reloc_type_same t : relocation_type t -> reloc_type t = t.
Proof. by intros [-> | [-> | ->]]. Qed.

Lemma relocation_written j r : relocations !! j = Some r ->
  exists name, zo_relocation_at object_info (Z.of_nat j) = Some (Some (ar_type r, ar_offset r, name)) /\ terminated name /\ cstr name = ar_name r.
Proof.
  intros Hj. pose proof (lookup_lt_Some _ _ _ Hj) as Hlt. pose proof (Forall_lookup_1 _ _ _ _ Hrel Hj) as (Ht & Ho & Hend & Hn). pose proof object_is_bytes as Hb.
  pose proof (holds_record _ _ _ _ _ _ _ length_relocation holds_relocations Hj) as H. change (Z.of_nat 136) with 136 in H. unfold relocation_bytes in H. rewrite reloc_type_same in H by done.
  assert (Hf : 4 <= field_size (ar_type r)) by (unfold field_size; destruct (_ =? _); lia). unfold object_size in Hu.
  pose proof (holds_take _ _ _ _ H) as H1. apply holds_drop in H. pose proof (holds_take _ _ _ _ H) as H2. apply holds_drop in H. rewrite !length_le_bytes in *. change (Z.of_nat 4) with 4 in *.
  apply holds_u32 in H1; [|done]. apply holds_u32 in H2; [|done]. rewrite u32_small in H1 by (destruct Ht as [-> | [-> | ->]]; done). rewrite u32_small in H2 by (unfold is_u32; lia).
  unfold zo_relocation_at, object_info. cbn [oi_reloc_count oi_version oi_object oi_relocations oi_image_size]. rewrite (proj2 (Z.leb_gt _ _)) by lia.
  change (zo_version_has_relocations ZOBJECT_VERSION) with true. change (zo_relocation_record_size_for_version ZOBJECT_VERSION) with 136. cbn [negb orb]. rewrite H1, H2. cbn [mbind option_bind].
  replace (relocations_at + Z.of_nat j * 136 + 8) with (relocations_at + Z.of_nat j * 136 + 4 + 4) by lia. destruct (holds_name _ _ _ H Hn) as (A1 & A2 & _).
  fold (field_size (ar_type r)). rewrite !(proj2 (Z.ltb_ge _ _)) by lia. eexists. split; [|exact (conj A1 A2)]. by destruct Ht as [-> | [-> | ->]].
Qed.

(** The section records, and what they become. *)
Definition the_sections : list zo_section_t := [
  ZoSection ZOBJECT_SECTION_TEXT 0 0 text_size text_size (padded 8 (chars ".text"));
  ZoSection ZOBJECT_SECTION_DATA text_size text_size (image_size - text_size) (image_size - text_size) (padded 8 (chars ".data"));
  ZoSection ZOBJECT_SECTION_BSS image_size image_size 0 0 (padded 8 (chars ".bss"))].

Lemma section_record_read i j sec name : 0 <= j < 3 -> i = sections_at + j * 28 -> sec_type sec = ZOBJECT_SECTION_TEXT \/ sec_type sec = ZOBJECT_SECTION_DATA \/ sec_type sec = ZOBJECT_SECTION_BSS ->
  sec_name sec = padded 8 (chars name) -> <[7%nat := 0]> (sec_name sec) = sec_name sec -> sec_load_offset sec = sec_file_offset sec -> sec_mem_size sec = sec_file_size sec -> 0 <= sec_file_offset sec -> 0 <= sec_file_size sec ->
  sec_file_offset sec + sec_file_size sec <= image_size -> holds object i (section_record_bytes (sec_type sec) name (sec_file_offset sec) (sec_load_offset sec) (sec_file_size sec) (sec_mem_size sec)) ->
  zo_section_at object_info j = Some (Some sec).
Proof.
  intros Hj -> Ht Hnm Hcut El Em H0 H1 Hend H. destruct sec as [type fo lo fs ms nm]. cbn [sec_type sec_file_offset sec_load_offset sec_file_size sec_mem_size sec_name] in *. subst lo ms nm. pose proof object_is_bytes as Hb. unfold object_size in Hu. unfold section_record_bytes in H.
  pose proof (holds_take _ _ _ _ H) as Hw. apply holds_drop in H. rewrite (length_records (le_bytes 4) 4) in H by (intros; apply length_le_bytes).
  assert (W : forall k v, [type; fo; fo; fs; fs] !! k = Some v -> is_u32 v -> zo_read_u32 object (sections_at + j * 28 + Z.of_nat k * Z.of_nat 4) = Some v).
  { intros k v Hk Hv. rewrite <- (u32_small v Hv) at 1. apply holds_u32; [done|]. eapply (holds_record (le_bytes 4)); [intros; apply length_le_bytes|exact Hw|exact Hk]. }
  unfold zo_section_at, object_info. cbn [oi_section_count oi_object oi_sections oi_image_size]. rewrite (proj2 (Z.leb_gt _ _)) by lia. change ZOBJECT_SECTION_RECORD_SIZE with 28. set (i := sections_at + j * 28) in *.
  assert (W0 : zo_read_u32 object i = Some type) by (rewrite <- (Z.add_0_r i); apply (W 0%nat); [done|by destruct Ht as [-> | [-> | ->]]]). assert (W1 : zo_read_u32 object (i + 4) = Some fo) by (apply (W 1%nat); [done|unfold is_u32; lia]).
  assert (W2 : zo_read_u32 object (i + 8) = Some fo) by (apply (W 2%nat); [done|unfold is_u32; lia]). assert (W3 : zo_read_u32 object (i + 12) = Some fs) by (apply (W 3%nat); [done|unfold is_u32; lia]).
  assert (W4 : zo_read_u32 object (i + 16) = Some fs) by (apply (W 4%nat); [done|unfold is_u32; lia]). rewrite W0, W1, W2, W3, W4. cbn [mbind option_bind]. change (i + Z.of_nat (length [type; fo; fo; fs; fs] * 4)) with (i + 20) in H.
  apply holds_block in H; [|by apply not_nil_padded]. rewrite length_padded in H by done. change (Z.of_nat (Z.to_nat ZOBJECT_SECTION_NAME_SIZE)) with ZOBJECT_SECTION_NAME_SIZE in H. rewrite H. cbn [mbind option_bind]. change ZOBJECT_SECTION_NAME_SIZE with 8. rewrite Hcut.
  rewrite Z.ltb_irrefl, !(proj2 (Z.ltb_ge _ _)) by lia. cbn [orb]. by destruct Ht as [-> | [-> | ->]].
Qed.

Lemma sections_written : forall j sec, the_sections !! j = Some sec -> zo_section_at object_info (Z.of_nat j) = Some (Some sec).
Proof.
  intros j sec Hj. pose proof (lookup_lt_Some _ _ _ Hj) as Hlt. cbn in Hlt. pose proof (holds_take _ _ _ _ holds_rest) as H. unfold sections_bytes in H.
  pose proof (holds_take _ _ _ _ H) as H0. apply holds_drop in H. pose proof (holds_take _ _ _ _ H) as H1. apply holds_drop in H. rewrite !length_section_record in *.
  destruct j as [|[|[|j]]]; [| | |done]; injection Hj as <-; (eapply section_record_read; [lia|reflexivity|cbn [sec_type]; tauto|reflexivity|reflexivity|reflexivity|reflexivity|cbn [sec_file_offset]; lia|cbn [sec_file_size]; lia|cbn [sec_file_offset sec_file_size]; lia|]); cbn [sec_type sec_file_offset sec_load_offset sec_file_size sec_mem_size].
  - rewrite Z.mul_0_l, Z.add_0_r. exact H0.
  - exact H1.
  - replace (sections_at + Z.of_nat 2 * 28) with (sections_at + Z.of_nat 28 + Z.of_nat 28) by lia. exact H.
Qed.

Lemma object_sections_written : object_sections object_info = the_sections.
Proof.
  unfold object_sections. change (below (oi_section_count object_info)) with [Z.of_nat 0; Z.of_nat 1; Z.of_nat 2]. cbn [omap list_omap].
  rewrite (sections_written 0 _ eq_refl), (sections_written 1 _ eq_refl), (sections_written 2 _ eq_refl). done.
Qed.

(** The image is there as it was. *)
Lemma image_written : holds object (oi_image_offset object_info) (take (Z.to_nat image_size) image).
Proof. pose proof (holds_drop _ _ _ _ holds_rest) as H. by rewrite length_sections in H. Qed.

(** No field lies on the border of text and data. *)
Definition on_border (r : assembler_relocation_t) : Prop := ar_offset r < text_size < ar_offset r + field_size (ar_type r).

Lemma relocation_number j type offset name : relocation object_info j type offset name -> exists r, relocations !! Z.to_nat j = Some r /\ type = ar_type r /\ offset = ar_offset r /\ terminated name /\ cstr name = ar_name r.
Proof.
  intros [Hj H]. cbn [oi_reloc_count object_info] in Hj. destruct (lookup_lt_is_Some_2 relocations (Z.to_nat j)) as [r Hl]; [lia|]. destruct (relocation_written _ _ Hl) as (nm & Hn & A1 & A2).
  rewrite Z2Nat.id in Hn by lia. pose proof (eq_trans (eq_sym H) Hn) as Heq. injection Heq as -> -> ->. by exists r.
Qed.

Lemma written_good externals : fields_in externals 0 image_size relocations -> (forall r, r ∈ relocations -> ~ on_border r) -> object_good object_info.
Proof.
  intros Hf Hb. split.
  - intros j type name Hj H. cbn [oi_symbol_count object_info] in Hj. destruct (lookup_lt_is_Some_2 symbols (Z.to_nat j)) as [sym Hl]; [lia|]. destruct (symbol_written _ _ Hl) as (_ & nm & Hn & A1 & _).
    rewrite Z2Nat.id in Hn by lia. pose proof (eq_trans (eq_sym H) Hn) as Heq. by injection Heq as -> ->.
  - intros j type offset name H. by destruct (relocation_number _ _ _ _ H) as (r & _ & _ & _ & Ht & _).
  - intros j type offset name k sec H Hsec. destruct (relocation_number _ _ _ _ H) as (r & Hl & -> & -> & _ & _). rewrite object_sections_written in Hsec.
    pose proof (Forall_lookup_1 _ _ _ _ Hrel Hl) as (Ht & Ho & Hend & _). apply list_elem_of_lookup_2 in Hl. apply Hb in Hl. unfold on_border in Hl. assert (4 <= field_size (ar_type r)) by (unfold field_size; destruct (_ =? _); lia).
    unfold the_sections in Hsec. cbn [first_section sec_mem_size sec_load_offset prod_map fmap option_fmap option_map] in Hsec. 
    destruct (negb (text_size =? 0) && (0 <=? ar_offset r) && (ar_offset r <? 0 + text_size)) eqn:E1; [injection Hsec as <- <-; bool_prop; cbn [sec_mem_size sec_load_offset]; lia|].
    destruct (negb (image_size - text_size =? 0) && (text_size <=? ar_offset r) && (ar_offset r <? text_size + (image_size - text_size))) eqn:E2; [injection Hsec as <- <-; cbn [sec_mem_size sec_load_offset]; lia|].
    done.
  - intros j1 t1 o1 n1 j2 t2 o2 n2 H1 H2 Hne. destruct (relocation_number _ _ _ _ H1) as (r1 & L1 & -> & -> & _ & _). destruct (relocation_number _ _ _ _ H2) as (r2 & L2 & -> & -> & _ & _).
    destruct H1 as [J1 _], H2 as [J2 _]. destruct (Z.lt_total j1 j2) as [Hlt|[Hlt|Hlt]]; [left|done|right]; (eapply fields_in_apart; [exact Hf| | |]; [eassumption|eassumption|lia]).
Qed.
End object.
