(* ===== verification/ZFromAsmMain.v ===== *)
(** From assembler source to an object: nothing is written unless the whole
    object fits, and what is written is an object the linker can work with. *)
From Stdlib Require Import ZArith Lia String.
From stdpp Require Import base tactics option list numbers.
From S2P Require Import Prelude.
From S2P Require Import Buffer.
From S2P Require Import KernelExports.
From S2P Require Import ZObject.
From S2P Require Import ZObjectSpec.
From S2P Require Import ZLink.
From S2P Require Import ZLayout.
From S2P Require Import ZLinkSpec.
From S2P Require Import ZLinkCheck.
From S2P Require Import ZAsmText.
From S2P Require Import ZAsm.
From S2P Require Import ZAsmSpec.
From S2P Require Import ZAsmJump.
From S2P Require Import ZFromAsm.
From S2P Require Import ZFromAsmSpec.
#[local] Open Scope Z_scope.

(** ** Lines *)

Lemma source_lines_end start pos line source : Forall (fun p => terminated p.2) (source_lines start pos line source).
Proof.
  revert start pos line. induction source as [|c source IH]; intros start pos line; cbn [source_lines].
  - destruct (start <? pos); [|done]. constructor; [|done]. apply terminated_app. left.
  - destruct (c =? 10); [|apply IH]. constructor; [|apply IH]. apply terminated_app. left.
Qed.

Lemma skip_blanks_gives s : terminated s -> gives (zo_skip_blanks s) terminated.
Proof.
  induction s as [|c s IH]; intros H; [by apply elem_of_nil in H|]. cbn [zo_skip_blanks]. destruct ((c =? 32) || (c =? 9)) eqn:Ec; [|done]. apply IH.
  apply elem_of_cons in H as [<-|H]; [discriminate Ec|exact H].
Qed.

Lemma starts_with_gives text prefix : terminated text -> forallb (fun c => negb (c =? 0)) prefix = true -> gives (zo_starts_with text prefix) (fun b => b = true -> terminated (drop (length prefix) text)).
Proof.
  revert text. induction prefix as [|p prefix IH]; intros text H Hp; [destruct text; [by apply elem_of_nil in H|]; intros _; exact H|]. cbn [forallb] in Hp. apply andb_true_iff in Hp as [Hp0 Hp]. destruct text as [|t text]; [by apply elem_of_nil in H|].
  cbn [zo_starts_with]. destruct (Z.eqb_spec t p) as [->|]; [|by intros ?]. cbn [length drop]. apply IH; [|done]. apply elem_of_cons in H as [<-|H]; [discriminate Hp0|exact H].
Qed.

Lemma name_char_ok c : zo_name_char c = true -> is_u8 c /\ c <> 0.
Proof. unfold zo_name_char, is_u8. intros H. repeat (apply orb_true_iff in H as [H|H]); bool_prop; lia. Qed.

Lemma name_loop_gives room text : terminated text ->
  gives (metadata_name_loop room text) (fun r => match r with Some name => Forall (fun c => zo_name_char c = true) name /\ (length name <= room)%nat | None => True end).
Proof.
  revert room. induction text as [|c text IH]; intros room H; [by apply elem_of_nil in H|]. destruct room as [|room]; cbn [metadata_name_loop]; (destruct (zo_name_char c) eqn:Ec; [|by split; [constructor|cbn; lia]]); [done|].
  assert (Ht : terminated text) by (apply elem_of_cons in H as [<-|H]; [discriminate Ec|exact H]). eapply gives_bind; [by apply IH|]. intros [name|]; [|done]. intros [H1 H2]. split; [by constructor|cbn; lia].
Qed.

Lemma parse_name_gives text : terminated text -> gives (zo_parse_metadata_name text ZOBJECT_SYMBOL_NAME_SIZE) (fun r => match r with Some name => name <> [] /\ fits_name name | None => True end).
Proof.
  intros H. unfold zo_parse_metadata_name. eapply gives_bind; [by apply skip_blanks_gives|]. intros s Hs. destruct s as [|c s]; [by apply elem_of_nil in Hs|]. change (rd8 (c :: s) 0) with (Some c). cbn [mbind option_bind].
  destruct (zo_name_char c) eqn:Ec; cbn [negb]; [|done]. pose proof (name_loop_gives (Z.to_nat (ZOBJECT_SYMBOL_NAME_SIZE - 1)) (c :: s) Hs) as Hl.
  change (Z.to_nat (ZOBJECT_SYMBOL_NAME_SIZE - 1)) with 127%nat in *. 
  assert (Eq : forall n, metadata_name_loop (S n) (c :: s) = (r ← metadata_name_loop n s; Some (match r with Some name => Some (c :: name) | None => None end))) by (intros n; cbn [metadata_name_loop]; by rewrite Ec).
  rewrite (Eq 126%nat) in Hl |- *. destruct (metadata_name_loop 126 s) as [[name|]|]; cbn [mbind option_bind gives] in *; [|done|exact Hl]. destruct Hl as [H1 H2]. split; [done|]. split; [|exact H2].
  eapply Forall_impl; [|exact H1]. apply name_char_ok.
Qed.

Lemma section_data_gives line : terminated line -> gives (zo_line_is_section_data line) (fun _ => True).
Proof.
  intros H. unfold zo_line_is_section_data. eapply gives_bind; [by apply skip_blanks_gives|]. intros s Hs. eapply gives_bind; [apply (starts_with_gives s (chars "section")); [done|done]|].
  intros [|] Hd; [|done]. cbn [negb]. specialize (Hd eq_refl). change (length (chars "section")) with 7%nat in Hd. destruct (drop 7 s) as [|c rest] eqn:Er; [by apply elem_of_nil in Hd|].
  assert (Hc : rd8 s 7 = Some c) by (change (rd8 s 7) with (s !! (7 + 0)%nat); rewrite <- lookup_drop; by rewrite Er). rewrite Hc. cbn [mbind option_bind].
  destruct (negb (c =? 32) && negb (c =? 9)) eqn:Ec; [done|]. assert (E8 : drop 8 s = rest) by (change 8%nat with (7 + 1)%nat; rewrite <- drop_drop, Er; done). rewrite E8.
  assert (Ht : terminated rest) by (apply elem_of_cons in Hd as [<-|Hd]; [done|done]). eapply gives_bind; [by apply skip_blanks_gives|]. intros s2 Hs2.
  eapply gives_bind; [apply (starts_with_gives s2 (chars ".data")); done|]. intros [|] _; [done|]. eapply gives_mono; [apply (starts_with_gives s2 (chars "data")); done|done].
Qed.

Lemma data_offset_gives source : gives (zo_find_data_section_source_offset source) (fun _ => True).
Proof.
  unfold zo_find_data_section_source_offset. induction (source_lines_end 0 0 [] source) as [|[start line] lines Hl _ IH]; [done|]. cbn [find_data_loop]. eapply gives_bind; [by apply section_data_gives|]. by intros [|] _.
Qed.

(** ** Symbols *)

(** Symbols as they are collected. *)
Definition collected (symbols : list zo_symbol_t) : Prop := Forall symbol_ok symbols /\ Z.of_nat (length symbols) <= ZOBJECT_MAX_SYMBOLS.

Lemma find_prefix_gives prefixes line : Forall (fun p => forallb (fun c => negb (c =? 0)) (chars p.1) = true /\ symbol_type p.2) prefixes -> terminated line ->
  gives (find_prefix prefixes line) (fun r => match r with Some (type, text) => symbol_type type /\ terminated text | None => True end).
Proof.
  induction 1 as [|[prefix type] prefixes [Hz Ht] _ IH]; intros Hl; [done|]. cbn [find_prefix]. eapply gives_bind; [by apply starts_with_gives|]. intros [|] Hd; [cbn; auto|by apply IH].
Qed.

Lemma collect_line_gives symbols line : collected symbols -> terminated line -> gives (collect_line symbols line) (fun r => match r with Some s => collected s | None => True end).
Proof.
  intros [Hs Hc] Hl. unfold collect_line. eapply gives_bind; [by apply skip_blanks_gives|]. intros s Ht. eapply gives_bind; [apply (find_prefix_gives metadata_prefixes s); [repeat constructor; by vm_compute|done]|].
  intros [[type text]|]; [|by split]. intros [Hty Htx]. eapply gives_bind; [by apply parse_name_gives|]. intros [name|]; [|done]. intros [Hne Hn]. cbn [gives]. unfold zo_add_symbol.
  destruct (existsb _ symbols); [by split|]. destruct (Z.leb_spec ZOBJECT_MAX_SYMBOLS (Z.of_nat (length symbols))); [done|]. split; [apply Forall_app_2; [done|constructor; [by split|constructor]]|rewrite length_app; cbn [length]; lia].
Qed.

Lemma collect_gives source : gives (zo_collect_metadata_symbols source) (fun r => match r with Some s => collected s | None => True end).
Proof.
  unfold zo_collect_metadata_symbols. assert (H0 : collected []) by (split; [constructor|done]). revert H0. generalize (@nil zo_symbol_t) as symbols.
  induction (source_lines_end 0 0 [] source) as [|[start line] lines Hl _ IH]; intros symbols Hs; [done|]. cbn [collect_loop]. eapply gives_bind; [by apply collect_line_gives|]. intros [s|]; [apply IH|done].
Qed.

(** Symbols with their values. *)
Definition resolved (s s' : zo_symbol_t) : Prop := sy_name s' = sy_name s /\ sy_type s' = sy_type s.

Lemma resolve_symbols_some names values symbols symbols' : resolve_symbols names values symbols = Some symbols' -> Forall2 resolved symbols symbols'.
Proof.
  revert symbols'. induction symbols as [|s symbols IH]; intros symbols' H; cbn [resolve_symbols] in H; [by injection H as <-|].
  destruct (is_export s).
  - destruct (export_value_of names values (sy_name s)) as [v|]; [|done]. cbn [mbind option_bind] in H. destruct (resolve_symbols names values symbols) as [rest|]; [|done]. injection H as <-. constructor; [by split|by apply IH].
  - cbn [mbind option_bind] in H. destruct (resolve_symbols names values symbols) as [rest|]; [|done]. injection H as <-. constructor; [by split|by apply IH].
Qed.

Lemma resolved_ok symbols symbols' : Forall2 resolved symbols symbols' -> collected symbols -> collected symbols'.
Proof.
  intros H [Hs Hc]. split; [|by rewrite <- (Forall2_length H)]. clear Hc. induction H as [|s s' symbols symbols' [E1 E2] _ IH]; [done|]. apply Forall_cons_1 in Hs as [Hs1 Hs]. constructor; [|by apply IH].
  unfold symbol_ok in *. by rewrite E1, E2.
Qed.

Lemma fields_ok externals a b relocs : fields_in externals a b relocs -> 0 <= a -> Forall (fun e => fits_name e.1) externals -> Forall (relocation_ok b) relocs.
Proof.
  intros Hf Ha He. revert a Ha Hf. induction relocs as [|r relocs IH]; intros a Ha; [done|]. intros (H1 & H2 & [H3 H4] & H5). pose proof (fields_in_le _ _ _ _ H5) as Hle. constructor.
  - split; [done|]. split; [lia|]. split; [done|]. destruct H4 as [->|[v Hv]]; [split; [constructor|cbn; lia]|]. clear -Hv He. induction He as [|[n v0] externals Hn _ IH]; [done|]. cbn [external_loop] in Hv.
    destruct (streq n (ar_name r)) eqn:Es; [apply streq_spec in Es; by rewrite <- Es|by apply IH].
  - eapply IH; [|exact H5]. unfold field_size. destruct (ar_type r =? _); lia.
Qed.

(** ** Reading it back *)

(** An object holds what it was made of. *)
Record reads_back (symbols : list zo_symbol_t) (relocations : list assembler_relocation_t) (entry text_size image_size : Z) (image object : list Z) (info : zo_object_info_t) : Prop := ReadsBack {
  rb_object : oi_object info = object /\ oi_version info = ZOBJECT_VERSION;
  rb_counts : oi_symbol_count info = Z.of_nat (length symbols) /\ oi_reloc_count info = Z.of_nat (length relocations) /\ oi_image_size info = image_size /\ oi_entry_offset info = u32 entry;
  rb_symbols : forall j s, symbols !! j = Some s -> zo_symbol_value_at info (Z.of_nat j) = Some (Some (u64 (sy_value s))) /\
    exists name, zo_symbol_at info (Z.of_nat j) = Some (Some (sy_type s, name)) /\ terminated name /\ cstr name = sy_name s;
  rb_relocations : forall j r, relocations !! j = Some r -> exists name, zo_relocation_at info (Z.of_nat j) = Some (Some (ar_type r, ar_offset r, name)) /\ terminated name /\ cstr name = ar_name r;
  rb_sections : object_sections info = the_sections text_size image_size /\ forall j s, the_sections text_size image_size !! j = Some s -> zo_section_at info (Z.of_nat j) = Some (Some s);
  rb_image : slice object (oi_image_offset info) image_size = take (Z.to_nat image_size) image;
  rb_good : (forall r, r ∈ relocations -> ~ on_border text_size r) -> object_good info
}.

(** ** The whole *)

Section main.
Context {E : Type} {ZM : ZMemory E} {KS : KernelSymbols}.
Context (source entry_label image : list Z) (Himage : bytes image) (Hsize : 0 < Z.of_nat (length image) <= 0x7fffffff).
Implicit Types l : linker E.

(** The size of what the assembler measures before the data section, with the
    external and exported names as symbols. *)
Definition measured_text (found : list zo_symbol_t) (text_size : Z) : Prop := exists offset line,
  let external := filter (fun s => is_extern s = true) found in let exported := filter (fun s => is_export s = true) found in
  zo_find_data_section_source_offset source = Some offset /\
  measure_source_ex_symbols (Assembler := lainos_assembler) (take (Z.to_nat offset) source)
    (map (fun s => (sy_name s, 0)) external ++ map (fun s => (sy_name s, 0)) (take (Z.to_nat ZOBJECT_MAX_SYMBOLS - length external) exported)) = (0, text_size, line).

(** The parts of an object that was made from the source: its symbols, the
    measured size of its text, and what the assembler gave. *)
Record made (symbols : list zo_symbol_t) (text_size : Z) (a : asm_result) : Prop := Made {
  md_collected : exists found, zo_collect_metadata_symbols source = Some (Some found) /\ Forall2 resolved found symbols /\
    assembled source image 0 (map (fun s => (sy_name s, 0)) (filter (fun s => is_extern s = true) found)) (entry_label :: map sy_name (filter (fun s => is_export s = true) found)) (Some ZOBJECT_MAX_RELOCATIONS) a /\
    resolve_symbols (map sy_name (filter (fun s => is_export s = true) found)) (tl (as_values a)) found = Some symbols /\ measured_text found text_size;
  md_symbols : collected symbols;
  md_relocations : Forall (relocation_ok (as_size a)) (as_relocations a) /\ Z.of_nat (length (as_relocations a)) <= ZOBJECT_MAX_RELOCATIONS;
  md_text : 0 <= text_size <= as_size a;
  md_image : bytes (as_out a) /\ length (as_out a) = length image
}.

Lemma ensure_keeps l : runs zo_ensure_work_buffers l (fun _ l' => lk_out l' = lk_out l) (fun _ l' => lk_out l' = lk_out l).
Proof.
  unfold runs, zo_ensure_work_buffers. destruct (if lk_have_asm l then _ else _) as [[|] e]; cbn [negb]; [|done]. by destruct (if lk_have_image l then _ else _) as [[|] e'].
Qed.

Lemma from_asm_runs l : out_capacity l < 0x100000000 ->
  runs (zobject_from_asm source entry_label image) l
    (fun size l' => exists symbols text_size a, made symbols text_size a /\ size = object_size symbols (as_relocations a) (as_size a) /\ size <= out_capacity l /\
      exists l1, lk_out l1 = lk_out l /\ written l1 (object_bytes symbols (as_relocations a) (hd 0 (as_values a)) text_size (as_size a) (as_out a)) l')
    (fun _ l' => lk_out l' = lk_out l).
Proof.
  intros Hcap. unfold zobject_from_asm. eapply runs_bind; [apply ensure_keeps|]. intros [] l1 H1. cbv beta in H1.
  eapply runs_bind; [apply (runs_chk _ _ (fun r l' => zo_collect_metadata_symbols source = Some r /\ match r with Some s => collected s | None => True end /\ l' = l1))|].
  { pose proof (collect_gives source) as Hg. destruct (zo_collect_metadata_symbols source); [by split|done]. }
  intros r l2 (Hfound & Hr & ->). eapply runs_bind; [apply (runs_some_or _ _ _ (fun s l' => r = Some s /\ l' = l1)); by destruct r|]. intros found l2 [-> ->]. 
  set (exported := filter (fun s => is_export s = true) found). set (external := filter (fun s => is_extern s = true) found).
  eapply runs_bind; [apply (runs_need _ _ _ (fun _ l' => l' = l1)); done|]. intros [] l2 ->. eapply runs_bind; [apply (runs_need _ _ _ (fun _ l' => l' = l1)); done|]. intros [] l2 ->. cbv zeta.
  eapply runs_bind; [apply (runs_chk _ _ (fun offset l' => zo_find_data_section_source_offset source = Some offset /\ l' = l1))|].
  { pose proof (data_offset_gives source) as Hg. destruct (zo_find_data_section_source_offset source); [by split|done]. }
  intros offset l2 [Hoff ->].
  destruct (measure_source_ex_symbols _ _) as [[measured text_size] line] eqn:Em. assert (Ht : 0 <= text_size).
  { unfold measure_source_ex_symbols, lainos_assembler, assembler_measure_source_ex_symbols in Em. destruct (assemble_lines _ _ _ _ _) as [[c s]|]; cbn [mbind option_bind default] in Em; injection Em as _ <- _; [|done]. apply u32_range. }
  eapply runs_bind; [apply (runs_need _ _ _ (fun _ l' => measured = 0 /\ l' = l1)); [intros Hb; bool_prop; done|done]|]. intros [] l2 [-> ->].
  set (externals := map (fun s => (sy_name s, 0)) external). set (names := entry_label :: map sy_name exported).
  pose proof (assemble_source_gives source image 0 externals names (Some ZOBJECT_MAX_RELOCATIONS) Hsize) as Ha.
  change (assemble_source_ex_relocs source image 0 externals names (Some ZOBJECT_MAX_RELOCATIONS)) with (default (AsmResult (-1) image 0 0 [] []) (assembler_assemble_source_ex_relocs source image 0 externals names (Some ZOBJECT_MAX_RELOCATIONS))).
  destruct (assembler_assemble_source_ex_relocs source image 0 externals names (Some ZOBJECT_MAX_RELOCATIONS)) as [a|]; [|done]. cbn [default gives] in Ha |- *. destruct Ha as [Hlen Ha].
  eapply runs_bind; [apply (runs_need _ _ _ (fun _ l' => as_code a = 0 /\ l' = l1)); [intros Hb; bool_prop; done|done]|]. intros [] l2 [Hcode ->]. destruct Ha as [Ha|(_ & Hb & Ha)]; [lia|]. specialize (Hb Himage).
  eapply runs_bind; [apply (runs_need _ _ _ (fun _ l' => text_size <= as_size a /\ l' = l1)); [intros Hle; bool_prop; done|done]|]. intros [] l2 [Hle ->].
  eapply runs_bind; [apply (runs_need _ _ _ (fun _ l' => l' = l1)); done|]. intros [] l2 ->.
  eapply runs_bind; [apply (runs_some_or _ _ _ (fun s l' => resolve_symbols (map sy_name exported) (tl (as_values a)) found = Some s /\ l' = l1)); by destruct (resolve_symbols _ _ _)|]. intros symbols l2 [Hres ->].
  pose proof (resolve_symbols_some _ _ _ _ Hres) as Hres2. pose proof (resolved_ok _ _ Hres2 Hr) as Hsym.
  assert (Hmade : made symbols text_size a).
  { split; [exists found; split_and!; try done; by exists offset, line|done| |done|by split]. split; [|apply (ad_count _ _ _ _ _ _ _ Ha); done]. eapply fields_ok; [apply (ad_fields _ _ _ _ _ _ _ Ha)|done|]. unfold externals. apply Forall_map, Forall_forall. intros s [_ Hin]%list_elem_of_In%list_elem_of_filter.
    apply list_elem_of_In in Hin. by destruct (proj1 (Forall_forall _ _) (proj1 Hr) s Hin) as (_ & _ & Hn). }
  assert (Hin : 0 <= as_size a <= Z.of_nat (length (as_out a))) by (rewrite Hlen; apply (ad_size _ _ _ _ _ _ _ Ha)). assert (Hcap1 : out_capacity l1 < 0x100000000) by (unfold out_capacity in *; by rewrite H1).
  eapply runs_mono; [apply write_object_runs; [apply Hsym|apply (md_relocations _ _ _ Hmade)|exact Hin|exact Hcap1]| |].
  - intros size l' (-> & Hc & Hw). exists symbols, text_size, a. split; [done|]. split; [done|]. split; [unfold out_capacity in *; by rewrite <- H1|]. by exists l1.
  - intros c l' (_ & _ & ->). done.
Qed.

(** What was written is the start of the buffer. *)
Lemma written_object l1 l' symbols text_size a : made symbols text_size a ->
  written l1 (object_bytes symbols (as_relocations a) (hd 0 (as_values a)) text_size (as_size a) (as_out a)) l' -> object_size symbols (as_relocations a) (as_size a) <= out_capacity l1 ->
  let n := Z.to_nat (object_size symbols (as_relocations a) (as_size a)) in
  length (lk_out l') = length (lk_out l1) /\ drop n (lk_out l') = drop n (lk_out l1) /\ take n (lk_out l') = object_bytes symbols (as_relocations a) (hd 0 (as_values a)) text_size (as_size a) (as_out a).
Proof.
  intros [(found & _ & _ & Ha & _) _ _ Ht [_ Hlen]] (out & -> & G & [_ H]) Hle. pose proof (ad_size _ _ _ _ _ _ _ Ha) as Hi. rewrite <- Hlen in Hi.
  pose proof (length_object symbols (as_relocations a) (hd 0 (as_values a)) text_size (as_size a) (as_out a) ltac:(lia) ltac:(lia)) as HL. cbv zeta. cbn [lk_out set_lk_out].
  rewrite HL in G, H. set (n := object_size symbols (as_relocations a) (as_size a)) in *. split; [exact (grown_length _ _ _ _ G)|]. split; [exact (proj2 (proj2 G))|]. unfold slice in H. by rewrite drop_0 in H.
Qed.

Lemma made_reads_back symbols text_size a : made symbols text_size a -> object_size symbols (as_relocations a) (as_size a) < 0x100000000 ->
  let object := object_bytes symbols (as_relocations a) (hd 0 (as_values a)) text_size (as_size a) (as_out a) in
  match zo_validate_object (Some object) with
  | Some (Some info) => u32 (hd 0 (as_values a)) < as_size a /\ reads_back symbols (as_relocations a) (hd 0 (as_values a)) text_size (as_size a) (as_out a) object info
  | Some None => as_size a <= u32 (hd 0 (as_values a))
  | None => False
  end.
Proof.
  intros [(found & _ & _ & Ha & _) [Hs Hns] [Hr Hnr] Ht [Hb Hlen]] Hu. pose proof (ad_size _ _ _ _ _ _ _ Ha) as Hi. rewrite <- Hlen in Hi. set (entry := hd 0 (as_values a)). cbv zeta.
  rewrite (validate_written symbols (as_relocations a) entry text_size (as_size a) (as_out a)); try done; [|lia]. destruct (Z.ltb_spec (u32 entry) (as_size a)); [|done]. split; [done|].
  assert (Hi2 : as_size a <= Z.of_nat (length (as_out a))) by lia. split.
  - done.
  - done.
  - intros j sym. by apply symbol_written.
  - intros j r. by apply relocation_written.
  - split; [by apply object_sections_written|]. intros j sec. by apply sections_written.
  - destruct (image_written symbols (as_relocations a) entry text_size (as_size a) (as_out a)) as [_ H1]. rewrite length_take, Nat.min_l, Z2Nat.id in H1 by lia. exact H1.
  - intros Hbd. eapply written_good; try done. apply (ad_fields _ _ _ _ _ _ _ Ha).
Qed.
End main.

(** ** Objects for the linker *)

Section built.
Context {E : Type} {ZM : ZMemory E} {KS : KernelSymbols}.

(** An object that was made from a source. *)
Definition built (object : list Z) : Prop := exists source entry_label image (l l' : linker E) size, bytes image /\ 0 < Z.of_nat (length image) <= 0x7fffffff /\ out_capacity l < 0x100000000 /\
  zobject_from_asm (AS := lainos_assembler) source entry_label image l = Some (inr size, l') /\ object = take (Z.to_nat size) (lk_out l').

(** No relocated field of it lies on the border of text and data. *)
Definition border_free (object : list Z) : Prop := forall info text j type offset name, valid_object (Some object) info -> zo_section_at info 0 = Some (Some text) -> relocation info j type offset name ->
  ~ (offset < sec_mem_size text < offset + field_size type).

Lemma built_reads_back object : built object -> exists symbols relocations entry text_size image_size image, bytes object /\ is_u32 (Z.of_nat (length object)) /\
  forall info, valid_object (Some object) info -> reads_back symbols relocations entry text_size image_size image object info.
Proof.
  intros (source & entry_label & image & l & l' & size & Hb & Hsize & Hcap & Hrun & ->). pose proof (from_asm_runs source entry_label image Hb Hsize l Hcap) as H. unfold runs in H. rewrite Hrun in H.
  destruct H as (symbols & text_size & a & Hm & -> & Hle & l1 & Ho & Hw). assert (Hle1 : object_size symbols (as_relocations a) (as_size a) <= out_capacity l1) by (unfold out_capacity in *; by rewrite Ho).
  destruct (written_object source entry_label image l1 l' symbols text_size a Hm Hw Hle1) as (_ & _ & ->). assert (Hu : object_size symbols (as_relocations a) (as_size a) < 0x100000000) by lia.
  exists symbols, (as_relocations a), (hd 0 (as_values a)), text_size, (as_size a), (as_out a). pose proof (made_reads_back source entry_label image Hsize symbols text_size a Hm Hu) as Hr. cbv zeta in Hr.
  destruct Hm as [(found & _ & _ & Ha & _) [Hs Hns] [Hrel Hnr] Ht [Hbo Hlen]]. pose proof (ad_size _ _ _ _ _ _ _ Ha) as Hi. rewrite <- Hlen in Hi. split; [|split].
  - by apply object_is_bytes.
  - rewrite length_object by lia. unfold object_size, is_u32 in *. lia.
  - intros info Hv. unfold valid_object in Hv. rewrite Hv in Hr. apply Hr.
Qed.

Lemma built_good object info : built object -> border_free object -> valid_object (Some object) info -> zo_version_has_sections (oi_version info) = true /\ object_good info.
Proof.
  intros Hb Hf Hv. destruct (built_reads_back object Hb) as (symbols & relocations & entry & text_size & image_size & image & _ & _ & Hr). destruct (Hr info Hv) as [[_ Ev] [_ [Er _]] _ Hrel [_ Hsec] _ Hgood]. split; [by rewrite Ev|].
  apply Hgood. intros r Hin Hbd. apply list_elem_of_lookup_1 in Hin as [j Hj]. destruct (Hrel j r Hj) as (name & Hat & _ & _).
  apply (Hf info _ (Z.of_nat j) (ar_type r) (ar_offset r) name Hv (Hsec 0%nat _ eq_refl)); [|exact Hbd]. split; [|exact Hat]. rewrite Er. apply lookup_lt_Some in Hj. lia.
Qed.
End built.
#[global] Arguments built E {ZM KS} object.
