(* ===== verification/ZAsmTheorems.v ===== *)
(** The theorems about the assembler, the objects made with it and what the
    linker makes of them. *)
From Stdlib Require Import ZArith Lia String.
From stdpp Require Import base tactics option list numbers.
From S2P Require Import Prelude.
From S2P Require Import Buffer.
From S2P Require Import KernelExports.
From S2P Require Import ZObject.
From S2P Require Import ZObjectSpec.
From S2P Require Import ZLink.
From S2P Require Import ZLayout.
From S2P Require Import ZLinkSpec.
From S2P Require Import ZLinkImage.
From S2P Require Import ZLinkCheck.
From S2P Require Import ZAsmText.
From S2P Require Import ZAsm.
From S2P Require Import ZAsmSpec.
From S2P Require Import ZAsmJump.
From S2P Require Import ZFromAsm.
From S2P Require Import ZFromAsmSpec.
From S2P Require Import ZFromAsmMain.
#[local] Open Scope Z_scope.
#[local] Existing Instances demo_symbols demo_memory demo_assembler.

(** ** Demo sources *)

Definition source_of (lines : list string) : list Z := concat (map (fun line => chars line ++ [10]) lines).

(** A function that calls the kernel, a loop and a number. *)
Definition demo_source : list Z := source_of ["; zexport main"; "; zextern print"; "main:"; " call print"; "again:"; "jmp again"; " ret"; "section .data"; "seven: dq 7"]%string.
Definition demo_image : list Z := replicate 64 0.

Lemma demo_image_bytes : bytes demo_image.
Proof. apply bytes_zeros. Qed.

(** ** The assembler *)

(** C40: Assembling a source never reads or writes outside a buffer. It fails
    with -1, or the second pass puts every line where the first pass measured it:
    the lines lie behind each other with the sizes both passes agree on, labels
    are unique and stand for the starts of their lines, the size is the sum and
    fits, the values asked for are those of the labels, the fields of the
    relocations lie in order inside the code, do not overlap and name external
    symbols, their number fits the table, and the rest of the buffer is as it
    was. *)
Theorem assembler_two_passes {KS : KernelSymbols} (source out : list Z) (base : Z) (externals : list (list Z * Z)) (names : list (list Z)) (relocations : option Z) :
  0 < Z.of_nat (length out) <= 0x7fffffff ->
  exists r, assembler_assemble_source_ex_relocs source out base externals names relocations = Some r /\ length (as_out r) = length out /\
    (as_code r = -1 \/ as_code r = 0 /\ (bytes out -> bytes (as_out r)) /\ assembled source out base externals names relocations r).
Proof. intros Hout. apply gives_iff. by apply assemble_source_gives. Qed.

Lemma assembler_two_passes_witness : exists r, assembler_assemble_source_ex_relocs demo_source demo_image 0 [(chars "print", 0)] [chars "main"] (Some 4) = Some r /\ length (as_out r) = length demo_image /\
  (as_code r = -1 \/ as_code r = 0 /\ (bytes demo_image -> bytes (as_out r)) /\ assembled demo_source demo_image 0 [(chars "print", 0)] [chars "main"] (Some 4) r).
Proof. apply (assembler_two_passes demo_source demo_image 0 [(chars "print", 0)] [chars "main"] (Some 4)). cbn. lia. Defined.

(** A call, a jump or a conditional jump to a label of the source leads to
    the start of the label's line: the code of the line begins with its operation
    code and a displacement that, counted from behind it, leads there; unless the
    name is a number or, for calls and jumps, a register, an external name or a
    name of the kernel. *)
Theorem jumps_land {KS : KernelSymbols} (source out : list Z) (base : Z) (externals : list (list Z * Z)) (names : list (list Z)) (relocations : option Z) (r : asm_result) (i k : nat) (mnemonic name codes line : list Z) :
  0 < Z.of_nat (length out) <= 0x7fffffff -> assembler_assemble_source_ex_relocs source out base externals names relocations = Some r -> as_code r = 0 ->
  asm_lines false [] source !! i = Some (mnemonic ++ 32 :: name) -> jump_codes mnemonic = Some codes -> word name -> is_data name = false -> parse_u64 name = None ->
  near_jump (source_context out base externals relocations) mnemonic name -> asm_lines false [] source !! k = Some line -> name ∈ line_labels line ->
  exists sizes d, Forall2 (line_sized (source_context out base externals relocations)) (asm_lines false [] source) sizes /\
    holds (as_out r) (total (take i sizes)) (codes ++ le_bytes 4 d) /\ total (take i sizes) + Z.of_nat (length codes) + 4 + s32 d = total (take k sizes).
Proof. intros Hout. by apply jump_lands. Qed.

Lemma jumps_land_witness : exists r, assembler_assemble_source_ex_relocs demo_source demo_image 0 [(chars "print", 0)] [chars "main"] (Some 4) = Some r /\ 
  exists sizes d, Forall2 (line_sized (source_context demo_image 0 [(chars "print", 0)] (Some 4))) (asm_lines false [] demo_source) sizes /\
    holds (as_out r) (total (take 5 sizes)) ([0xE9] ++ le_bytes 4 d) /\ total (take 5 sizes) + 1 + 4 + s32 d = total (take 4 sizes).
Proof.
  eexists. split; [vm_compute; reflexivity|].
  apply (jumps_land demo_source demo_image 0 [(chars "print", 0)] [chars "main"] (Some 4) _ 5 4 (chars "jmp") (chars "again") [0xE9] (chars "again:")).
  - cbn. lia.
  - vm_compute. reflexivity.
  - reflexivity.
  - vm_compute. reflexivity.
  - reflexivity.
  - split; [done|reflexivity].
  - reflexivity.
  - reflexivity.
  - intros _. split; [reflexivity|]. split; reflexivity.
  - vm_compute. reflexivity.
  - apply list_elem_of_singleton. reflexivity.
Defined.

(** ** Objects from sources *)

(** C39: Making an object from a source never reads or writes outside a buffer.
    When it fails the output is as it was; else the output starts with an object
    whose symbols, relocations, sections and image are read back as they were
    collected, measured and assembled, and the bytes behind it are as they were. The object
    is valid when its entry lies inside the image, and one the linker can work
    with when no relocated field lies on the border of text and data. *)
Theorem source_object_reads_back {E} {ZM : ZMemory E} {KS : KernelSymbols} (source entry_label image : list Z) (l : linker E) :
  bytes image -> 0 < Z.of_nat (length image) <= 0x7fffffff -> out_capacity l < 0x100000000 ->
  exists r l', zobject_from_asm (AS := lainos_assembler) source entry_label image l = Some (r, l') /\
    match r with
    | inl _ => lk_out l' = lk_out l
    | inr size => length (lk_out l') = length (lk_out l) /\ drop (Z.to_nat size) (lk_out l') = drop (Z.to_nat size) (lk_out l) /\
        exists symbols text_size a, made source entry_label image symbols text_size a /\ let entry := hd 0 (as_values a) in
          match zo_validate_object (Some (take (Z.to_nat size) (lk_out l'))) with
          | Some (Some info) => u32 entry < as_size a /\ reads_back symbols (as_relocations a) entry text_size (as_size a) (as_out a) (take (Z.to_nat size) (lk_out l')) info
          | Some None => as_size a <= u32 entry
          | None => False
          end
    end.
Proof.
  intros Hb Hsize Hcap. pose proof (from_asm_runs source entry_label image Hb Hsize l Hcap) as H. apply gives_iff in H as ([r l'] & Hrun & Hr). exists r, l'. split; [exact Hrun|]. destruct r as [c|size]; [exact Hr|].
  destruct Hr as (symbols & text_size & a & Hm & -> & Hle & l1 & Ho & Hw). unfold out_capacity in Hle, Hcap. rewrite <- Ho in *.
  pose proof (written_object source entry_label image l1 l' symbols text_size a Hm Hw Hle) as (H1 & H2 & H3). split; [done|]. split; [done|]. exists symbols, text_size, a. split; [done|]. rewrite H3. eapply made_reads_back; (done || lia || exact Hm).
Qed.

(** The object of the demo source. *)
Definition demo_made : list Z := match zobject_from_asm (AS := lainos_assembler) demo_source (chars "main") demo_image (demo_linker 600) with Some (inr size, l') => take (Z.to_nat size) (lk_out l') | _ => [] end.

Lemma source_object_reads_back_witness : exists size l', zobject_from_asm (AS := lainos_assembler) demo_source (chars "main") demo_image (demo_linker 600) = Some (inr size, l') /\
  exists symbols text_size a info, made demo_source (chars "main") demo_image symbols text_size a /\ zo_validate_object (Some (take (Z.to_nat size) (lk_out l'))) = Some (Some info) /\
    reads_back symbols (as_relocations a) (hd 0 (as_values a)) text_size (as_size a) (as_out a) (take (Z.to_nat size) (lk_out l')) info.
Proof.
  destruct (source_object_reads_back demo_source (chars "main") demo_image (demo_linker 600)) as (r & l' & Hrun & Hr); [apply demo_image_bytes|cbn; lia|vm_compute; reflexivity|].
  assert (Hv : match zobject_from_asm (AS := lainos_assembler) demo_source (chars "main") demo_image (demo_linker 600) with Some (inr size, l') => match zo_validate_object (Some (take (Z.to_nat size) (lk_out l'))) with Some (Some _) => true | _ => false end | _ => false end = true) by (vm_compute; reflexivity).
  rewrite Hrun in Hv. destruct r as [c|size]; [discriminate Hv|]. exists size, l'. split; [exact Hrun|]. destruct Hr as (_ & _ & symbols & text_size & a & Hm & Hr). cbv zeta in Hr.
  destruct (zo_validate_object (Some (take (Z.to_nat size) (lk_out l')))) as [[info|]|]; [|discriminate Hv|discriminate Hv]. exists symbols, text_size, a, info. split; [exact Hm|]. split; [reflexivity|]. apply Hr.
Defined.

(** C38: Objects made from sources can be linked: the linker takes any of them
    whose fields lie beside the border of text and data, never reads or writes
    outside a buffer, gives up with -1 only when the link is impossible, and else
    leaves the image of all sections with every field set to its value. *)
Theorem built_objects_link {E} {ZM : ZMemory E} {KS : KernelSymbols} (objects : list (list Z)) (base : Z) (externals : list zobject_resolved_symbol_t) (asked : option Z) (start : Z) (l : linker E) :
  objects <> [] -> Z.of_nat (length objects) <= ZOBJECT_MAX_OBJECTS -> (forall object, object ∈ objects -> built E object /\ border_free object) ->
  0 <= base -> base + 0x7fffffff < 9223372036854775808 -> names_ok externals -> Z.of_nat (length externals) <= ZOBJECT_MAX_RESOLVED_SYMBOLS -> start <= Z.of_nat (length objects) ->
  bytes (lk_out l) -> Z.of_nat (length objects) * 5 + 1 <= out_capacity l <= 0x7fffffff ->
  exists r l', zobject_link_flat_many_ex_entry_from (AS := lainos_assembler) (Some (map Some objects)) true base (Some externals) (Z.of_nat (length externals)) (option_map Some asked) start l = Some (r, l') /\
    match r with
    | inl code => code = -1 /\ length (lk_out l') = length (lk_out l) /\ ~ link_ok (map Some objects) base externals asked start l
    | inr size => link_result (map Some objects) base externals asked start l size l'
    end.
Proof.
  intros Hne Hmax Hobj Hb0 Hw Hx Hxn Hst Hby Hroom. assert (Hc : link_call (map Some objects) base externals start (lk_out l)).
  { split; [split; [by destruct objects|by rewrite length_map]| | |done|done|by rewrite length_map|by rewrite length_map].
    - apply Forall_map, Forall_forall. intros object Hin. apply list_elem_of_In in Hin. destruct (Hobj object Hin) as [Hb _]. destruct (built_reads_back object Hb) as (? & ? & ? & ? & ? & ? & H1 & H2 & _). by split.
    - intros object info Hin Hv. apply list_elem_of_In, in_map_iff in Hin as (o & <- & Hin). apply list_elem_of_In in Hin. destruct (Hobj o Hin) as [Hb Hf]. by eapply built_good. }
  pose proof (link_flat_runs (AS := lainos_assembler) (map Some objects) base externals asked start l Hc) as H. apply gives_iff in H as ([r l'] & Hrun & Hr). exists r, l'. split; [exact Hrun|]. destruct r; [|exact Hr]. destruct Hr as [[-> Hl] Hno]. by repeat split.
Qed.

Lemma demo_made_built : built unit demo_made.
Proof.
  assert (Hok : match zobject_from_asm (AS := lainos_assembler) demo_source (chars "main") demo_image (demo_linker 600) with Some (inr _, _) => true | _ => false end = true) by (vm_compute; reflexivity).
  unfold demo_made. destruct (zobject_from_asm (AS := lainos_assembler) demo_source (chars "main") demo_image (demo_linker 600)) as [[[c|size] l']|] eqn:Hrun; [discriminate Hok| |discriminate Hok].
  exists demo_source, (chars "main"), demo_image, (demo_linker 600), l', size. split; [apply demo_image_bytes|]. split; [cbn; lia|]. split; [vm_compute; reflexivity|]. by split.
Qed.

Lemma demo_made_border : border_free demo_made.
Proof.
  unfold border_free, valid_object. intros info text j type offset name Hv Ht [Hj Hr].
  assert (Hi : exists info0, zo_validate_object (Some demo_made) = Some (Some info0) /\ oi_reloc_count info0 = 1 /\ option_map (option_map sec_mem_size) (zo_section_at info0 0) = Some (Some 19) /\
    option_map (option_map fst) (zo_relocation_at info0 0) = Some (Some (ZOBJECT_RELOC_ABS64, 2))) by (eexists; split; [vm_compute; reflexivity|]; split; [reflexivity|]; split; vm_compute; reflexivity).
  destruct Hi as (info0 & Hv0 & Hn & Hs & Hrel). rewrite Hv0 in Hv. injection Hv as <-. rewrite Hn in Hj. assert (j = 0) as -> by lia. rewrite Ht in Hs. rewrite Hr in Hrel. cbn in Hs, Hrel. injection Hs as ->. injection Hrel as -> ->. unfold field_size. cbn. lia.
Qed.

Lemma built_objects_link_witness : exists r l', zobject_link_flat_many_ex_entry_from (AS := lainos_assembler) (Some (map Some [demo_made])) true demo_base (Some []) 0 (Some (Some 4)) 0 (demo_linker 80) = Some (r, l') /\
    match r with
    | inl code => code = -1 /\ length (lk_out l') = 80%nat /\ ~ link_ok (map Some [demo_made]) demo_base [] (Some 4) 0 (demo_linker 80)
    | inr size => link_result (map Some [demo_made]) demo_base [] (Some 4) 0 (demo_linker 80) size l'
    end.
Proof.
  apply (built_objects_link [demo_made] demo_base [] (Some 4) 0 (demo_linker 80)); [done|done| |done|done|constructor|done|done|apply bytes_zeros|vm_compute; split; intros; discriminate].
  intros object ->%list_elem_of_singleton. split; [apply demo_made_built|apply demo_made_border].
Defined.

(** ** A source that is turned away *)

(** A function that jumps to itself, without data. *)
Definition loop_source : list Z := source_of ["; zexport main"; "main:"; "jmp main"]%string.

(** A source that jumps to or calls a name it exports itself is measured
    wrongly: the text is measured with the exported names as external ones, for
    which a jump takes 13 bytes, but assembled with 5. A function that jumps to
    itself assembles to 5 bytes, but no object can be made from it, and with data
    behind it the bytes of the data are taken for text. *)
Theorem own_export_mismeasured :
  (exists r, assembler_assemble_source_ex_relocs loop_source demo_image 0 [] [chars "main"] None = Some r /\ as_code r = 0 /\ as_size r = 5) /\
  (exists l', zobject_from_asm (AS := lainos_assembler) loop_source (chars "main") demo_image (demo_linker 400) = Some (inl (-31), l')) /\
  exists size l' info, zobject_from_asm (AS := lainos_assembler) (loop_source ++ source_of ["section .data"; "value: dq 7"]%string) (chars "main") demo_image (demo_linker 400) = Some (inr size, l') /\
    valid_object (Some (take (Z.to_nat size) (lk_out l'))) info /\ oi_image_size info = 13 /\
    map (fun s => (sec_load_offset s, sec_mem_size s)) (object_sections info) = [(0, 13); (13, 0); (13, 0)].
Proof.
  split; [eexists; split; [vm_compute; reflexivity|]; split; reflexivity|]. split; [eexists; vm_compute; reflexivity|]. eexists _, _, _. split; [vm_compute; reflexivity|]. split; [vm_compute; reflexivity|]. split; vm_compute; reflexivity.
Qed.
